(* ===== verification/_CoqProject ===== *)
-Q . S2P
Prelude.v
Str.v
ConfigKeys.v
Store.v
StoreImport.v
Bytes.v
Framing.v
Net.v
Nom.v
Rsip.v
Wire.v
Transports.v
Window.v
PortAllocator.v
SipUri.v
Registrar.v
Srtp.v
Rtp.v
Stun.v
Transcoder.v
Endpoint.v
MediaStats.v
Relay.v
SdpAudio.v
Sdp.v
Media.v
SipBuilder.v
ClientTx.v
B2bua.v
Auth.v
Topology.v
InviteTx.v
Ban.v
UserLimits.v
Destination.v
BanStore.v
Acl.v
Dos.v
Trunk.v
TrunkTasks.v
Router.v
Messages.v
Invite.v
Edge.v
Hydrate.v
Seed.v
Cdr.v
CdrStore.v
CdrWriter.v
CdrImport.v
CdrApi.v
Sbc.v
SipParser.v
Teardown.v
ResponseHandler.v
CallHandler.v
Access.v
InviteHandler.v
Dispatch.v
EventLoop.v
