(* ===== verification/Prelude.v ===== *)
(** * NIXI SBC: a verification library

    NIXI SBC is a SIP session border controller: it registers users, bridges
    calls as a back-to-back user agent, relays and transcodes their media,
    routes them over trunks, and protects itself from floods. This library
    models the parts of it whose logic decides what happens to a message, a
    call, a registration, a media packet, a call record or a row of its
    configuration, as Rocq functions that follow the code line by line, and
    proves what makes each part correct. Paths below are under [src/crates]:
    [sbc-core/src] where no crate is named, [sbc-storage/src] (the SQLite
    store), [sbc-management/src] (the HTTP API); [rsip-nixi] is the SIP parser,
    at [src/rsip-nixi].

    ** The parts and how they interact

    Bytes reach a transport ([transport/]); a stream is cut into messages
    ([Framing]) and each message is parsed ([Rsip]). The event loop
    ([sbc/mod.rs]) takes one message, timer or administrative kick at a time.
    Its gates refuse an address that is banned, denied or too fast; its
    handlers work on one shared state ([Sbc]): the calls, the trunks and both
    transaction tables. A REGISTER is challenged and bound; an INVITE becomes a
    call of the B2BUA, which reserves media ports, rewrites both SDP bodies,
    sends attempts toward a user or a list of trunks, follows provisional,
    final and late responses, refreshes the session and tears both legs down.
    The relay of the call demultiplexes each datagram, admits, decrypts,
    transcodes and forwards it. Every call ends in one record, which the writer
    keeps in memory and brings to the store. The store also holds users, DIDs,
    trunks, routes and rules: at start and after each change the managers are
    filled from it.

    ** Files

    Shared:
    - [Prelude]: results and errors, machine integers, time, field update,
      iteration over hash maps, minima and maxima, automation (hint database
      [sbc], [to_prop], [case_test], [crush_cases], [ulia], [enum_below]).
    - [Str], [Bytes], [Net]: Rust's string methods on byte strings, numerals,
      trimming, UTF-8; big-endian bytes; addresses and transports.
    - [Window]: the sliding window of the ban and call-rate counters.

    From the wire to a message:
    - [Framing]: the framer of TCP and TLS and the reading loop
      ([transport/mod.rs], [tcp.rs], [tls.rs], [tls_connect.rs]).
    - [Nom]: the class of the combinators the parser is made of; [Rsip]: the
      messages, URIs, headers and printers of [rsip-nixi]; [SipParser]: its
      typed To, From and CSeq, and the interface the handlers read through;
      [Wire]: framer and parser together.
    - [Transports]: [transport/manager.rs] and its listeners and pools.

    Media:
    - [PortAllocator]: [media/port_allocator.rs].
    - [Srtp]: [media/srtp_crypto.rs]; [Rtp]: the packets of [media/rtp.rs];
      [Stun]: [media/stun.rs]; [Endpoint]: [media/endpoint.rs]; [MediaStats]:
      [media/stats.rs]; [Relay]: the relay task of [media/rtp.rs], over those.
    - [Transcoder], [SdpAudio]: the two halves of [transcoding.rs].
    - [Sdp]: [media/sdp.rs]; [Media]: [media/manager.rs], whose sessions hold
      [PortAllocator]'s pairs and rewrite [Sdp]'s bodies.

    Registration and security:
    - [SipUri]: the identity in a SIP URI; [Registrar]: [register.rs], the
      trait as the class [RegistrarLaws], the in-memory backend its instance.
    - [Auth]: [auth.rs], both halves of digest authentication, with MD5.
    - [Ban], [UserLimits], [Destination]: [security/]; [BanStore]: the rows of
      bans; [Acl]: [acl.rs]; [Dos]: [dos.rs]; [Edge]: the security manager and
      the identity given to a caller.

    Calls:
    - [SipBuilder]: [sip_builder.rs]; [ClientTx]: [sbc/client_tx.rs];
      [InviteTx]: [sbc/invite_tx.rs]; [Topology]: [topology.rs]; [Messages],
      [Invite]: the texts the handlers read and write.
    - [B2bua]: [b2bua.rs], one call and the manager of all calls.
    - [Trunk], [TrunkTasks], [Router]: [routing/], [sbc/trunk_state.rs],
      [trunk_tasks.rs], [trunk_register.rs].
    - [Sbc]: the state of the event loop and the monad of its handlers;
      [Teardown], [ResponseHandler], [CallHandler], [Access],
      [InviteHandler]: the handlers ([sbc/*.rs]); [Dispatch]: the gates and the
      choice of a handler; [EventLoop]: runs of all operations.

    Store and records:
    - [Store]: tables, schema and operations of [sbc-storage]; [StoreImport]:
      import and export of a document; [Hydrate]: [sbc/hydrate.rs]; [Seed]:
      [sbc/import.rs]; [ConfigKeys]: [config.rs] as a tree of keys, and what a
      reload records ([sbc/runtime_config.rs]).
    - [Cdr]: a record and its row; [CdrStore]: the table of records;
      [CdrWriter]: [cdr_writer.rs] and [storage.rs]; [CdrImport]: the history;
      [CdrApi]: the list and CSV export of [routes/calls.rs].

    Each file starts with the data and the operations, under the names of the
    code (a method of a type whose name is taken has a prefix), then lemmas and
    theorems; concrete instances are in its Module [Witness].

    ** What the theorems show

    - Composition ([EventLoop], [Dispatch], [Access], [InviteHandler],
      [CallHandler], [ResponseHandler], [Teardown]): through any run, one
      record per call, trunk counters that equal the live calls, media ports
      that are exactly those of live calls; every INVITE that opens a call is
      accounted for; the gates hold; a registration needs proof; a call from a
      trunk never leaves by a trunk; a BYE ends its call and no other; a CANCEL
      touches only a pending call; a failover ends after at most one attempt
      for each trunk; a setup that times out is cancelled; due timers end calls.
    - Wire ([Rsip], [Framing], [Wire], [SipParser], [Transports]): printing and
      parsing are inverse; what a peer prints is what the loop receives,
      however it is cut; the buffer is bounded; the handlers read back what
      was written; a message goes out on its transport and TLS keeps its order;
      connections do not mix.
    - Media: a pair of ports is never held twice; a key and IV never encrypt
      two packets and decryption inverts encryption; the SDP of a call points
      at the SBC; the relay forwards only admitted media, RTCP as it came,
      and counts each packet; the accuracy of the codecs; soundness and
      completeness of STUN authentication.
    - Security: a captured Digest is useless; no binding is revived by an older
      request; failures ban at the threshold and only there, never a whitelisted
      address; bans survive a restart; rates in every window; the identity a
      caller is given is one it proved.
    - Calls and trunks: CSeq numbers toward a callee increase while its call
      lives; retransmissions are bounded and absorbed; hidden addresses do not pass; the failover list is complete,
      ordered and free of repetitions; the tasks follow the trunks in use.
    - Store: an import does what its specification on maps says, or nothing;
      an export imports back; the managers follow the rows; seeding happens
      once; what a reload records settles.
    - Records: what was accepted is in the store, the file or the queue; the
      writer catches up; an interrupted import resumes without duplicates; an
      export contains every record that stays.

    ** Conventions

    Machine integers are [Z] in range, with [wrapw] where the release build
    wraps and saturating operations where the code calls them. Time is a number
    of nanoseconds read once per operation and passed as an argument; elapsed
    time saturates at zero. A [HashMap] is a [gmap]; code that iterates is
    modelled against any order of its entries ([HashIter]), never a chosen
    one. Locks are never poisoned, and an operation under one lock is one step.
    An error keeps the fixed part of its text. Text is a byte string; case
    mapping and white space are those of ASCII.

    Random branches, tags, identifiers and keys are arguments; so is what the
    outside answers: whether a send succeeds, what a resolver finds, what the
    store answers to a query and which of its calls fail. A computation of the
    event loop has a state monad ([Sbc]), a transaction of the store another
    ([Store]): an error rolls it back. A table of the store is a map with its
    schema as an invariant.

    Third-party code is a parameter, with its documented behaviour as
    hypotheses or as the laws of a class, and an instance that shows they can
    hold: AES-CTR, HMAC-SHA1 (equal lengths, self-inverse keystream, 20-byte
    tags), the lossy UTF-8 reading, Opus, [SocketAddr]'s text, [ipnetwork],
    [nom] ([Nom]), serde's conversions ([ConfigKeys]), SQLite's choice of row
    numbers and of the rows a purge takes ([RowIds], [CdrIds], [Chooser]). The
    low-pass filter and the token bucket compute with the Standard Library's
    IEEE 754 specification.

    ** Fuel

    Recursion is structural where the code's is. Elsewhere the fuel is enough
    by a theorem or by what the loop consumes: the attribute loops of [Stun]
    have the length of the datagram and each turn takes four bytes
    ([message_round_trip], [validate_complete]); the scan for a free port has
    two passes over the range ([scan_terminates]); the drain of a stream and
    the repetitions of the parser have the length of what is left, and each
    turn takes a byte or stops; the failover of a call has one turn more than
    its trunks ([failover_concludes]); a purge of the records has the size of
    the table and each batch removes a row or ends it.

    ** Not modelled

    Sockets, TLS and WebSocket handshakes, tasks and their scheduling: I/O, whose
    results are arguments. The ICE agent, DTLS and the WebRTC session
    ([media/ice.rs], [dtls.rs], [webrtc_handler.rs]) wrap a third-party stack
    around the codecs of [Stun] and [Srtp]; a WebRTC session is an opaque
    handle. Metrics, logs and the event bus only report. The defaults and the
    validation of the configuration file, backups of the store, the HTTP
    handlers other than the import and export of the store and the pages of
    call records, and the start-up of the binary are glue around the operations
    modelled here. *)

From Stdlib Require Export ZArith Lia Ascii.
From stdpp Require Export base tactics list gmap strings numbers pretty sorting.

#[global] Open Scope Z_scope.

(** ** Notations *)

Declare Scope sbc_scope.
Delimit Scope sbc_scope with sbc.
#[global] Open Scope sbc_scope.

(** [Result<T, E>] of Rust. *)
Inductive result (E A : Type) : Type :=
  | Ok (a : A)
  | Err (e : E).
Arguments Ok {E A} a.
Arguments Err {E A} e.

Definition rbind {E A B} (m : result E A) (k : A -> result E B) : result E B :=
  match m with Ok a => k a | Err e => Err e end.

(** [let? x := m in k] is Rust's [let x = m?; k]. *)
Notation "'let?' x ':=' m 'in' k" := (rbind m (fun x => k))
  (at level 10, x pattern, m at level 100, k at level 200) : sbc_scope.

(** [o.ok_or(e)] *)
Definition ok_or {E A} (o : option A) (e : E) : result E A :=
  match o with Some a => Ok a | None => Err e end.

(** [crate::Error] (error.rs), the variants the modelled code builds; each
    carries the text the code formats. *)
Inductive sbc_error : Type :=
  | ETransport (msg : string)
  | EParse (msg : string)
  | EDialog (msg : string)
  | EMedia (msg : string)
  | ERouting (msg : string)
  | EConfig (msg : string)
  | EOther (msg : string).

Abbreviation sbc_result := (result sbc_error).

#[export] Instance result_eq_dec {E A} `{EqDecision E, EqDecision A} : EqDecision (result E A).
Proof. solve_decision. Defined.
#[export] Instance sbc_error_eq_dec : EqDecision sbc_error.
Proof. solve_decision. Defined.

Lemma rbind_ok {E A B} (m : result E A) (k : A -> result E B) b :
  rbind m k = Ok b <-> exists a, m = Ok a /\ k a = Ok b.
Proof. destruct m; simpl; naive_solver. Qed.

(** ** Machine integers *)

(** An unsigned [w]-bit integer is a [Z] in range; arithmetic that may leave
    the range is written with [wrapw] (the release profile has no overflow
    checks) or with the saturating operations the code calls. *)
Definition is_uw (w x : Z) : Prop := 0 <= x < 2 ^ w.
Abbreviation is_u8 := (is_uw 8).
Abbreviation is_u16 := (is_uw 16).
Abbreviation is_u32 := (is_uw 32).
Abbreviation is_u64 := (is_uw 64).

Definition wrapw (w x : Z) : Z := x mod 2 ^ w.
Definition u16_max : Z := 65535.
Definition u32_max : Z := 4294967295.
Definition u64_max : Z := 18446744073709551615.

Definition sat_sub (a b : Z) : Z := Z.max 0 (a - b).
Definition sat_add (w a b : Z) : Z := Z.min (2 ^ w - 1) (a + b).
Definition sat_mul (w a b : Z) : Z := Z.min (2 ^ w - 1) (a * b).

#[export] Instance is_uw_dec w x : Decision (is_uw w x).
Proof. unfold is_uw. apply _. Defined.

Lemma wrapw_range w x : 0 <= w -> is_uw w (wrapw w x).
Proof. intros. apply Z.mod_pos_bound. lia. Qed.

Lemma wrapw_small w x : is_uw w x -> wrapw w x = x.
Proof. intros. by apply Z.mod_small. Qed.

Lemma sat_sub_nonneg a b : 0 <= sat_sub a b.
Proof. unfold sat_sub. lia. Qed.

(** ** Time *)

(** [Instant], [SystemTime] and [Duration] are nanoseconds on a clock that
    every handler reads through an explicit argument. [Instant::duration_since]
    saturates at zero. *)
Definition secs (n : Z) : Z := n * 1000000000.
Definition millis (n : Z) : Z := n * 1000000.
Definition as_secs (d : Z) : Z := d / 1000000000.
Definition as_millis (d : Z) : Z := d / 1000000.
Definition duration_since (a b : Z) : Z := sat_sub a b.

(** ** Automation *)

Create HintDb sbc discriminated.
#[export] Hint Resolve wrapw_range sat_sub_nonneg : sbc.

(** Case analysis on the first test of the goal or of a hypothesis. *)
Ltac case_test :=
  match goal with
  | |- context [if ?b then _ else _] => destruct b eqn:?
  | H : context [if ?b then _ else _] |- _ => destruct b eqn:?
  end.

Ltac split_hyp H := let A := fresh "HP" in let B := fresh "HP" in destruct H as [A B].

(** Boolean comparisons on [Z] as propositions. *)
Ltac to_prop :=
  repeat match goal with
  | H : (_ && _) = true |- _ => apply andb_prop in H; split_hyp H
  | H : (_ && _) = false |- _ => apply andb_false_iff in H
  | H : (_ || _) = true |- _ => apply orb_prop in H
  | H : (_ || _) = false |- _ => apply orb_false_iff in H; split_hyp H
  | H : negb _ = true |- _ => apply negb_true_iff in H
  | H : negb _ = false |- _ => apply negb_false_iff in H
  | H : (_ <? _) = true |- _ => apply Z.ltb_lt in H
  | H : (_ <? _) = false |- _ => apply Z.ltb_ge in H
  | H : (_ <=? _) = true |- _ => apply Z.leb_le in H
  | H : (_ <=? _) = false |- _ => apply Z.leb_gt in H
  | H : (_ =? _) = true |- _ => apply Z.eqb_eq in H
  | H : (_ =? _) = false |- _ => apply Z.eqb_neq in H
  | H : bool_decide _ = true |- _ => apply bool_decide_eq_true in H
  | H : bool_decide _ = false |- _ => apply bool_decide_eq_false in H
  end.

(** Split every match and test, keep the equations, close by congruence. *)
Ltac crush_cases :=
  repeat (first [ case_match | case_test ]; simplify_eq/=); to_prop; try done.

(** The cases of an integer known to lie in [0, k): one goal per value. *)
Ltac enum_below x k :=
  lazymatch k with
  | O => exfalso; lia
  | S ?k' => let v := eval vm_compute in (Z.of_nat k') in
             destruct (Z.eq_dec x v) as [->|]; [|enum_below x k']
  end.

(** Unfold the width predicates for [lia]. *)
Ltac ulia := unfold is_uw, wrapw, sat_sub, sat_add, sat_mul, u16_max, u32_max in *; lia.

(** [lia] with division and remainder turned into equations. *)
Ltac zlia := Z.to_euclidean_division_equations; lia.

(** [is_multiple_of(2)] *)
Definition is_even (x : Z) : bool := x mod 2 =? 0.

(** ** Updating one field of a record

    [r <| f := v |>] for a record whose eta-expansion is an instance of
    [Eta]: the setter replaces the projection [f] in the expansion. *)
Class Eta (R : Type) := eta : R -> R.
Class Setter {R T : Type} (proj : R -> T) := set_field : T -> R -> R.
Arguments set_field {R T} proj {_} v r /.

Ltac solve_setter :=
  lazymatch goal with
  | |- @Setter ?R ?T ?proj =>
      let i := constr:(_ : Eta R) in
      let e := eval red in i in
      let e := eval pattern proj in e in
      lazymatch e with
      | ?F _ => let s := eval cbv beta in (fun (v : T) (r : R) => F (fun _ => v) r) in exact s
      end
  end.
#[export] Hint Extern 1 (Setter _) => solve_setter : typeclass_instances.

Notation "r '<|' f ':=' v '|>'" := (set_field f v r)
  (at level 12, left associativity, f at level 9, v at level 200) : sbc_scope.

(** ** Iteration over hash maps

    A [HashMap] or [DashMap] is a [gmap]; its iteration order is unspecified,
    so code that iterates is modelled against any order of the entries. *)
Class HashIter (K V : Type) `{Countable K} := {
  hiter : gmap K V -> list (K * V);
  hiter_perm : forall m, hiter m ≡ₚ map_to_list m
}.

(** One concrete order, for evaluation. *)
Definition canonical_iter (K V : Type) `{Countable K} : HashIter K V :=
  {| hiter := map_to_list; hiter_perm := fun m => reflexivity _ |}.

Section hash_iter.
Context {K V : Type} `{HI : HashIter K V}.

Lemma elem_of_hiter (m : gmap K V) k v : (k, v) ∈ hiter m <-> m !! k = Some v.
Proof. rewrite hiter_perm. apply elem_of_map_to_list. Qed.

Lemma hiter_nodup (m : gmap K V) : NoDup (hiter m).*1.
Proof. rewrite hiter_perm. apply NoDup_fst_map_to_list. Qed.

Lemma hiter_length (m : gmap K V) : length (hiter m) = size m.
Proof. rewrite hiter_perm. apply length_map_to_list. Qed.

Lemma hiter_nil (m : gmap K V) : hiter m = [] <-> m = ∅.
Proof.
  rewrite <- map_to_list_empty_iff. assert (Hp := hiter_perm m).
  split; intros E; rewrite E in Hp.
  - by apply Permutation_nil.
  - by apply Permutation_nil.
Qed.
End hash_iter.

(** ** Minimum and maximum of an iteration

    [Iterator::min_by_key] keeps the first of equal minima, [max_by_key] the
    last of equal maxima. [lt] compares the keys strictly. *)
Section extremum.
Context {A : Type} (lt : A -> A -> bool).

Definition min_by (l : list A) : option A :=
  match l with
  | [] => None
  | x :: l => Some (fold_left (fun m y => if lt y m then y else m) l x)
  end.

Definition max_by (l : list A) : option A :=
  match l with
  | [] => None
  | x :: l => Some (fold_left (fun m y => if lt y m then m else y) l x)
  end.

Hypothesis lt_trans_neg : forall x y z, lt y x = false -> lt z y = false -> lt z x = false.
Hypothesis lt_asym : forall x y, lt x y = true -> lt y x = false.
Hypothesis lt_irrefl : forall x, lt x x = false.

Lemma fold_min_spec l x :
  let m := fold_left (fun m y => if lt y m then y else m) l x in
  m ∈ x :: l /\ forall y, y ∈ x :: l -> lt y m = false.
Proof.
  revert x. induction l as [|z l IH]; intros x; simpl.
  { split; [left|]. intros y ->%list_elem_of_singleton. apply lt_irrefl. }
  destruct (lt z x) eqn:E; simpl; [destruct (IH z) as [Hin Hle]|destruct (IH x) as [Hin Hle]].
  - split; [by right|]. intros y [->|Hy]%elem_of_cons; [|auto].
    eapply lt_trans_neg; [apply Hle; left|]. by apply lt_asym.
  - split; [set_solver|]. intros y Hy. apply elem_of_cons in Hy as [->|Hy]; [set_solver|].
    apply elem_of_cons in Hy as [->|Hy]; [|set_solver].
    eapply lt_trans_neg; [|exact E]. apply Hle. left.
Qed.

Lemma min_by_spec l m :
  min_by l = Some m -> m ∈ l /\ forall y, y ∈ l -> lt y m = false.
Proof. destruct l as [|x l]; [done|]. intros [= <-]. apply fold_min_spec. Qed.

Lemma fold_max_spec l x :
  let m := fold_left (fun m y => if lt y m then m else y) l x in
  m ∈ x :: l /\ forall y, y ∈ x :: l -> lt m y = false.
Proof.
  revert x. induction l as [|z l IH]; intros x; simpl.
  { split; [left|]. intros y ->%list_elem_of_singleton. apply lt_irrefl. }
  destruct (lt z x) eqn:E; simpl; [destruct (IH x) as [Hin Hle]|destruct (IH z) as [Hin Hle]].
  - split; [set_solver|]. intros y Hy. apply elem_of_cons in Hy as [->|Hy]; [apply Hle; left|].
    apply elem_of_cons in Hy as [->|Hy]; [|apply Hle; by right].
    eapply lt_trans_neg; [apply lt_asym, E|]. apply Hle. left.
  - split; [by right|]. intros y [->|Hy]%elem_of_cons; [|auto].
    eapply lt_trans_neg; [exact E|]. apply Hle. left.
Qed.

Lemma max_by_spec l m :
  max_by l = Some m -> m ∈ l /\ forall y, y ∈ l -> lt m y = false.
Proof. destruct l as [|x l]; [done|]. intros [= <-]. apply fold_max_spec. Qed.
End extremum.

Lemma min_by_none {A} (lt : A -> A -> bool) l : min_by lt l = None <-> l = [].
Proof. by destruct l. Qed.

Lemma max_by_none {A} (lt : A -> A -> bool) l : max_by lt l = None <-> l = [].
Proof. by destruct l. Qed.

Lemma min_by_elem {A} (lt : A -> A -> bool) l x : min_by lt l = Some x -> x ∈ l.
Proof.
  destruct l as [|y l]; [done|]. intros [= <-]. simpl. revert y.
  induction l as [|z l IH]; intros y; simpl; [left|].
  assert (Hy := IH y). assert (Hz := IH z). destruct (lt z y); set_solver.
Qed.

Lemma max_by_elem {A} (lt : A -> A -> bool) l x : max_by lt l = Some x -> x ∈ l.
Proof.
  destruct l as [|y l]; [done|]. intros [= <-]. simpl. revert y.
  induction l as [|z l IH]; intros y; simpl; [left|].
  assert (Hy := IH y). assert (Hz := IH z). destruct (lt z y); set_solver.
Qed.

Lemma elem_of_filter_bool {A} (f : A -> bool) l x : x ∈ List.filter f l <-> x ∈ l /\ f x = true.
Proof. rewrite !list_elem_of_In. apply filter_In. Qed.

Lemma filter_filter {A} (p q : A -> bool) l : List.filter p (List.filter q l) = List.filter (fun x => q x && p x) l.
Proof.
  induction l as [|x l IH]; [done|]. simpl. destruct (q x); simpl; [|done]. by rewrite IH.
Qed.

Lemma filterb_ext {A} (p q : A -> bool) l : (forall x, p x = q x) -> List.filter p l = List.filter q l.
Proof. intros H. induction l as [|x l IH]; [done|]. simpl. by rewrite H, IH. Qed.

Lemma filterb_nil {A} (p : A -> bool) l x : List.filter p l = [] -> x ∈ l -> p x = false.
Proof.
  intros H Hx. destruct (p x) eqn:E; [|done]. assert (Hin : x ∈ List.filter p l) by by apply elem_of_filter_bool.
  rewrite H in Hin. by apply elem_of_nil in Hin.
Qed.

Lemma nodup_filterb {A} (p : A -> bool) l : NoDup l -> NoDup (List.filter p l).
Proof.
  induction 1 as [|x l Hx Hl IH]; simpl; [constructor|]. destruct (p x); [|done]. constructor; [|done].
  rewrite elem_of_filter_bool. tauto.
Qed.

(** ** Stable sort, as [sort_by_key] *)

Section sort_by_key.
Context {A : Type} (key : A -> Z * Z).

(** The derived order of a pair. *)
Definition key_leb (a b : Z * Z) : bool := (a.1 <? b.1) || ((a.1 =? b.1) && (a.2 <=? b.2)).
Definition key_le (x y : A) : Prop := key_leb (key x) (key y) = true.

Fixpoint insert_by_key (x : A) (l : list A) : list A :=
  match l with
  | [] => [x]
  | y :: l' => if key_leb (key x) (key y) then x :: l else y :: insert_by_key x l'
  end.

Definition sort_by_key (l : list A) : list A := foldr insert_by_key [] l.

Lemma insert_by_key_perm x l : insert_by_key x l ≡ₚ x :: l.
Proof. induction l as [|y l IH]; [done|]. simpl. destruct (key_leb _ _); [done|]. rewrite IH. apply Permutation_swap. Qed.

Lemma sort_by_key_perm l : sort_by_key l ≡ₚ l.
Proof. induction l as [|x l IH]; [done|]. simpl. by rewrite insert_by_key_perm, IH. Qed.

Lemma key_leb_total a b : key_leb a b = false -> key_leb b a = true.
Proof. unfold key_leb. destruct a, b; simpl. rewrite orb_false_iff, orb_true_iff, !andb_true_iff, andb_false_iff. lia. Qed.

#[export] Instance key_le_trans : Transitive key_le.
Proof. intros x y z. unfold key_le, key_leb. rewrite !orb_true_iff, !andb_true_iff. lia. Qed.

Lemma insert_by_key_sorted x l : StronglySorted key_le l -> StronglySorted key_le (insert_by_key x l).
Proof.
  induction 1 as [|y l Hs IH Hy]; simpl; [repeat constructor|]. destruct (key_leb (key x) (key y)) eqn:E.
  - constructor; [by constructor|]. constructor; [done|]. eapply Forall_impl; [exact Hy|]. intros z Hz. by transitivity y.
  - constructor; [done|]. rewrite insert_by_key_perm. constructor; [by apply key_leb_total|done].
Qed.

Lemma sort_by_key_sorted l : StronglySorted key_le (sort_by_key l).
Proof. induction l; [constructor|]. by apply insert_by_key_sorted. Qed.

Lemma sort_by_key_nil l : sort_by_key l = [] <-> l = [].
Proof.
  split; [|by intros ->]. intros H. apply Permutation_nil. rewrite <- H. apply sort_by_key_perm.
Qed.
End sort_by_key.
