(* ===== verification/Str.v ===== *)
(** * Rust's [str] methods

    The string methods the modelled code calls, on byte strings. Case mapping
    and white space are those of ASCII: [trim] of a string that starts or ends
    in non-ASCII white space is the one point where they differ from [str]. *)

From S2P Require Import Prelude.

#[global] Open Scope string_scope.
#[global] Open Scope Z_scope.
#[global] Open Scope list_scope.

Definition code (c : ascii) : Z := Z.of_N (N_of_ascii c).

Definition is_digit (c : ascii) : bool := (48 <=? code c) && (code c <=? 57).

Definition lower_char (c : ascii) : ascii :=
  if (65 <=? code c) && (code c <=? 90) then ascii_of_N (N_of_ascii c + 32)%N else c.

Definition upper_char (c : ascii) : ascii :=
  if (97 <=? code c) && (code c <=? 122) then ascii_of_N (N_of_ascii c - 32)%N else c.

Fixpoint smap (f : ascii -> ascii) (s : string) : string :=
  match s with "" => "" | String c s => String (f c) (smap f s) end.

Definition to_ascii_lowercase : string -> string := smap lower_char.
Definition to_ascii_uppercase : string -> string := smap upper_char.

Definition seqb (a b : string) : bool := bool_decide (a = b).
Definition eq_ignore_ascii_case (a b : string) : bool :=
  seqb (to_ascii_lowercase a) (to_ascii_lowercase b).

Fixpoint sall (p : ascii -> bool) (s : string) : bool :=
  match s with "" => true | String c s => p c && sall p s end.

Definition contains_char (c : ascii) (s : string) : bool :=
  negb (sall (fun d => negb (bool_decide (d = c))) s).

(** [find(c)], [rfind(c)]: byte offsets. *)
Fixpoint find_char (c : ascii) (s : string) : option nat :=
  match s with
  | "" => None
  | String d s => if bool_decide (d = c) then Some 0%nat else S <$> find_char c s
  end.

Fixpoint rfind_char (c : ascii) (s : string) : option nat :=
  match s with
  | "" => None
  | String d s =>
      match rfind_char c s with
      | Some n => Some (S n)
      | None => if bool_decide (d = c) then Some 0%nat else None
      end
  end.

Fixpoint stake (n : nat) (s : string) : string :=
  match n, s with S n, String c s => String c (stake n s) | _, _ => "" end.

Fixpoint sdrop (n : nat) (s : string) : string :=
  match n, s with S n, String _ s => sdrop n s | _, _ => s end.

(** [trim_start], [trim_end], [trim] and their [_matches] variants. *)
Fixpoint trim_start_by (p : ascii -> bool) (s : string) : string :=
  match s with
  | "" => ""
  | String c s' => if p c then trim_start_by p s' else s
  end.

Fixpoint trim_end_by (p : ascii -> bool) (s : string) : string :=
  match s with
  | "" => ""
  | String c s =>
      match trim_end_by p s with
      | "" => if p c then "" else String c ""
      | t => String c t
      end
  end.

Definition trim_by (p : ascii -> bool) (s : string) : string :=
  trim_start_by p (trim_end_by p s).

Definition trim : string -> string := trim_by Ascii.is_space.
Definition trim_matches (c : ascii) : string -> string :=
  trim_by (fun d => bool_decide (d = c)).
Definition trim_end_matches (c : ascii) : string -> string :=
  trim_end_by (fun d => bool_decide (d = c)).

(** [split] on a set of characters: never empty. *)
Fixpoint split_by (p : ascii -> bool) (s : string) : list string :=
  match s with
  | "" => [""]
  | String c s =>
      if p c then "" :: split_by p s
      else match split_by p s with
           | [] => [String c ""]
           | w :: ws => String c w :: ws
           end
  end.

Definition split (c : ascii) : string -> list string :=
  split_by (fun d => bool_decide (d = c)).

(** [split(..).next().unwrap_or(s)]: the text before the first separator. *)
Definition before_any (cs : list ascii) (s : string) : string :=
  default s (head (split_by (fun d => bool_decide (d ∈ cs)) s)).

Definition split_once (c : ascii) (s : string) : option (string * string) :=
  match find_char c s with
  | Some n => Some (stake n s, sdrop (S n) s)
  | None => None
  end.

Definition rsplit_once (c : ascii) (s : string) : option (string * string) :=
  match rfind_char c s with
  | Some n => Some (stake n s, sdrop (S n) s)
  | None => None
  end.

Fixpoint strip_prefix (p s : string) : option string :=
  match p, s with
  | "", _ => Some s
  | String a p, String b s => if bool_decide (a = b) then strip_prefix p s else None
  | String _ _, "" => None
  end.

Definition starts_with (p s : string) : bool :=
  match strip_prefix p s with Some _ => true | None => false end.

(** [str::parse::<uN>]: digits with an optional [+]. *)
Fixpoint digits_val (acc : Z) (s : string) : Z :=
  match s with "" => acc | String c s => digits_val (10 * acc + (code c - 48)) s end.

Definition parse_uint (max : Z) (s : string) : option Z :=
  let d := match s with String "+"%char t => t | _ => s end in
  if seqb d "" || negb (sall is_digit d) then None
  else let v := digits_val 0 d in if v <=? max then Some v else None.

(** [lines]: cut after each line feed; the line feed and a carriage return
    before it are dropped, and so is an empty last piece. *)
Definition strip_cr (s : string) : string :=
  match rfind_char "013"%char s with
  | Some n => if Nat.eqb (S n) (String.length s) then stake n s else s
  | None => s
  end.

Fixpoint lines_of (pieces : list string) : list string :=
  match pieces with
  | [] => []
  | [last] => if seqb last "" then [] else [last]
  | l :: rest => strip_cr l :: lines_of rest
  end.

Definition lines (s : string) : list string := lines_of (split "010"%char s).

(** [split("\r\n")] *)
Definition push_char (c : ascii) (l : list string) : list string :=
  match l with [] => [String c ""] | w :: ws => String c w :: ws end.

Definition is_crlf (c d : ascii) : bool := bool_decide (c = "013"%char /\ d = "010"%char).

Fixpoint split_crlf (s : string) : list string :=
  match s with
  | "" => [""]
  | String c s' =>
      match s' with
      | String d t => if is_crlf c d then "" :: split_crlf t else push_char c (split_crlf s')
      | "" => [String c ""]
      end
  end.

Definition CRLF : string := String "013" (String "010" "").

(** [find] of a string, and of the first character of a set. *)
Fixpoint find_str (p s : string) : option nat :=
  if starts_with p s then Some 0%nat
  else match s with "" => None | String _ s => S <$> find_str p s end.

Fixpoint find_by (p : ascii -> bool) (s : string) : option nat :=
  match s with
  | "" => None
  | String c s => if p c then Some 0%nat else S <$> find_by p s
  end.

(** [ends_with] *)
Definition ends_with (p s : string) : bool :=
  (String.length p <=? String.length s)%nat
  && seqb (sdrop (String.length s - String.length p) s) p.

(** [split_whitespace] *)
Definition split_whitespace (s : string) : list string :=
  List.filter (fun w => negb (seqb w "")) (split_by Ascii.is_space s).

(** [contains] of a string. *)
Fixpoint contains (p s : string) : bool :=
  starts_with p s || match s with "" => false | String _ s => contains p s end.

(** [join] *)
Definition join (sep : string) (l : list string) : string := String.concat sep l.

(** The decimal text of a number. *)
Definition show (n : Z) : string := pretty n.

(** [str::parse::<iN>], of the integers from [- b] to [b - 1]; and their
    [Display]. *)
Definition parse_int (b : Z) (s : string) : option Z :=
  match s with
  | String "-"%char t => match t with
                         | String "+"%char _ => None
                         | _ => Z.opp <$> parse_uint b t
                         end
  | _ => parse_uint (b - 1) s
  end.

Definition show_int (z : Z) : string := if z <? 0 then String "-"%char (show (- z)) else show z.

(** ** Lemmas *)

Lemma strip_prefix_spec p s t : strip_prefix p s = Some t <-> s = p +:+ t.
Proof.
  revert s. induction p as [|a p IH]; intros s; simpl.
  - change ("" +:+ t) with t. split; [by intros [= ->]|by intros ->].
  - destruct s as [|b s]; [done|]. destruct (bool_decide (a = b)) eqn:E; to_prop.
    + subst. rewrite IH. change (String b p +:+ t) with (String b (p +:+ t)).
      split; [by intros ->|by intros [= ->]].
    + split; [done|]. by intros [= -> ->].
Qed.

Lemma starts_with_spec p s : starts_with p s = true <-> exists t, s = p +:+ t.
Proof.
  unfold starts_with. destruct (strip_prefix p s) as [t|] eqn:E.
  - apply strip_prefix_spec in E. split; eauto.
  - split; [done|]. intros [t Ht]. apply strip_prefix_spec in Ht. congruence.
Qed.

Lemma slength_app a b : String.length (a +:+ b) = (String.length a + String.length b)%nat.
Proof.
  induction a as [|c a IH]; [done|].
  change (String c a +:+ b) with (String c (a +:+ b)). simpl. by rewrite IH.
Qed.

Lemma lower_char_idem c : lower_char (lower_char c) = lower_char c.
Proof. destruct c as [[] [] [] [] [] [] [] []]; reflexivity. Qed.

Lemma smap_smap f g s : smap f (smap g s) = smap (fun c => f (g c)) s.
Proof. induction s as [|c s IH]; simpl; [done|]. by rewrite IH. Qed.

Lemma smap_ext f g s : (forall c, f c = g c) -> smap f s = smap g s.
Proof. intros E. induction s as [|c s IH]; simpl; [done|]. by rewrite E, IH. Qed.

Lemma to_ascii_lowercase_idem s : to_ascii_lowercase (to_ascii_lowercase s) = to_ascii_lowercase s.
Proof. unfold to_ascii_lowercase. rewrite smap_smap. apply smap_ext, lower_char_idem. Qed.

Lemma find_str_step p c s :
  find_str p (String c s) = if starts_with p (String c s) then Some 0%nat else S <$> find_str p s.
Proof. reflexivity. Qed.

Lemma seqb_true a b : seqb a b = true <-> a = b.
Proof. apply bool_decide_eq_true. Qed.

Lemma seqb_false a b : a <> b -> seqb a b = false.
Proof. intros H. by apply bool_decide_eq_false. Qed.

Lemma seqb_refl a : seqb a a = true.
Proof. by apply seqb_true. Qed.

Lemma parse_uint_range max s v : parse_uint max s = Some v -> 0 <= v <= max.
Proof.
  unfold parse_uint. set (d := match s with String "+"%char t => t | _ => s end).
  destruct (_ || _) eqn:E; [done|]. to_prop.
  assert (H : forall acc, 0 <= acc -> 0 <= digits_val acc d).
  { clear -HP0. revert HP0. generalize d. induction d0 as [|c t IH]; simpl; [done|].
    intros Ha acc Hacc. to_prop. apply IH; [done|]. unfold is_digit in *. to_prop. lia. }
  destruct (digits_val 0 d <=? max) eqn:F; [|done]. intros [= <-]. to_prop.
  specialize (H 0). lia.
Qed.

(** ** Pieces of a concatenation *)

Lemma sapp_cons x (a b : string) : String x a +:+ b = String x (a +:+ b).
Proof. reflexivity. Qed.

Lemma sapp_assoc (a b c : string) : (a +:+ b) +:+ c = a +:+ (b +:+ c).
Proof. induction a as [|x a IH]; [done|]. by rewrite !sapp_cons, IH. Qed.

Lemma sapp_nil_r (a : string) : a +:+ "" = a.
Proof. induction a as [|x a IH]; [done|]. by rewrite sapp_cons, IH. Qed.

Lemma sall_app p a b : sall p (a +:+ b) = sall p a && sall p b.
Proof.
  induction a as [|c a IH]; [done|]. change (String c a +:+ b) with (String c (a +:+ b)). cbn [sall].
  by rewrite IH, andb_assoc.
Qed.

Lemma sall_impl p q s : (forall c, p c = true -> q c = true) -> sall p s = true -> sall q s = true.
Proof. intros H. induction s as [|c s IH]; [done|]. simpl. intros Hs. to_prop. by rewrite H, IH. Qed.

Lemma split_by_free p s : sall (fun c => negb (p c)) s = true -> split_by p s = [s].
Proof.
  induction s as [|c s IH]; [done|]. simpl. intros H. to_prop. rewrite IH by done. by rewrite HP.
Qed.

Lemma split_by_app p a c s :
  sall (fun c => negb (p c)) a = true -> p c = true ->
  split_by p (a +:+ String c s) = a :: split_by p s.
Proof.
  intros Ha Hc. induction a as [|d a IH]; [change ("" +:+ String c s) with (String c s); simpl; by rewrite Hc|].
  change (String d a +:+ String c s) with (String d (a +:+ String c s)). simpl in *.
  to_prop. by rewrite HP, IH.
Qed.

Lemma split_by_nonempty p s : split_by p s <> [].
Proof. destruct s as [|c s]; [done|]. simpl. repeat case_match; done. Qed.

Definition no_lf (s : string) : bool := sall (fun c => negb (bool_decide (c = "010"%char))) s.

(** One line off a text that uses CRLF. *)
Lemma strip_cr_app l : strip_cr (l +:+ String "013" "") = l.
Proof.
  unfold strip_cr.
  assert (rfind_char "013" (l +:+ String "013" "") = Some (String.length l)) as ->.
  { induction l as [|c l IH]; [done|].
    change (String c l +:+ String "013" "") with (String c (l +:+ String "013" "")). simpl.
    by rewrite IH. }
  rewrite slength_app. simpl. rewrite Nat.add_1_r, Nat.eqb_refl.
  induction l as [|c l IH]; [done|]. rewrite sapp_cons. simpl. by rewrite IH.
Qed.

Lemma lines_crlf l rest :
  no_lf l = true -> lines (l +:+ String "013" (String "010" rest)) = l :: lines rest.
Proof.
  intros Hl. unfold lines, split.
  replace (l +:+ String "013" (String "010" rest))
    with ((l +:+ String "013" "") +:+ String "010" rest) by by rewrite sapp_assoc.
  rewrite split_by_app; [|rewrite sall_app; apply andb_true_intro; by split|by rewrite bool_decide_true].
  destruct (split_by _ rest) as [|x xs] eqn:E; [by apply split_by_nonempty in E|].
  cbn [lines_of]. by rewrite strip_cr_app.
Qed.

Lemma line_off l rest : no_lf l = true -> lines (l +:+ CRLF +:+ rest) = l :: lines rest.
Proof. exact (lines_crlf l rest). Qed.

(** Words. *)
Lemma words_cons w s :
  sall (fun c => negb (Ascii.is_space c)) w = true -> w <> "" ->
  split_whitespace (w +:+ String " " s) = w :: split_whitespace s.
Proof.
  intros Hw Hn. unfold split_whitespace. rewrite split_by_app by done. simpl.
  by rewrite seqb_false.
Qed.

(** ** Decimal numerals *)

Lemma digit_not_space c : is_digit c = true -> negb (Ascii.is_space c) = true.
Proof. destruct c as [[] [] [] [] [] [] [] []]; vm_compute; done. Qed.

Lemma digit_char x : (x < 10)%N -> is_digit (pretty_N_char x) = true /\ code (pretty_N_char x) - 48 = Z.of_N x.
Proof.
  intros H. destruct x as [|p]; [by vm_compute|].
  do 4 (destruct p as [p|p|]; try by vm_compute); lia.
Qed.

Lemma pretty_go_value x s :
  sall is_digit (pretty_N_go x s) = sall is_digit s /\
  digits_val 0 (pretty_N_go x s) = digits_val (Z.of_N x) s /\
  ((0 < x)%N \/ s <> "" -> pretty_N_go x s <> "").
Proof.
  revert s. induction (N.lt_wf_0 x) as [x _ IH]; intros s.
  destruct (decide (x = 0%N)) as [->|]; [rewrite pretty_N_go_0; split_and!; [done|done|intros []; [lia|done]]|].
  rewrite pretty_N_go_step by lia.
  destruct (IH (x / 10)%N ltac:(apply N.div_lt; lia) (String (pretty_N_char (x mod 10)) s)) as (H1 & H2 & H3).
  destruct (digit_char (x mod 10)) as [Hd Hc]; [by apply N.mod_lt|].
  split_and!.
  - rewrite H1. simpl. by rewrite Hd.
  - rewrite H2. simpl. rewrite Hc. f_equal. assert (Hm := N.div_mod x 10). lia.
  - intros _. apply H3. by right.
Qed.

Lemma show_spec n :
  0 <= n -> sall is_digit (show n) = true /\ digits_val 0 (show n) = n /\ show n <> "".
Proof.
  intros Hn. unfold show, pretty. destruct n as [|p|p]; [by vm_compute| |lia].
  unfold pretty_Z, pretty, pretty_positive, pretty, pretty_N. case_decide; [lia|].
  destruct (pretty_go_value (N.pos p) "") as (H1 & H2 & H3). rewrite H1, H2. split_and!; [done|done|].
  apply H3. left. lia.
Qed.

Lemma parse_show max n : 0 <= n <= max -> parse_uint max (show n) = Some n.
Proof.
  intros Hn. destruct (show_spec n) as (H1 & H2 & H3); [lia|]. unfold parse_uint.
  assert (match show n with String "+"%char t => t | _ => show n end = show n) as ->.
  { destruct (show n) as [|c s]; [done|]. simpl in H1. to_prop.
    destruct c as [[] [] [] [] [] [] [] []]; done. }
  rewrite H1, H2. rewrite seqb_false by done. simpl.
  case_test; [done|]. to_prop. lia.
Qed.

Lemma parse_show_int b z : 0 < b -> - b <= z < b -> parse_int b (show_int z) = Some z.
Proof.
  intros Hb Hz. unfold show_int, parse_int. destruct (z <? 0) eqn:Hs; to_prop.
  - destruct (show_spec (- z)) as (Hd & _ & Hn); [lia|].
    rewrite (parse_show b) by lia. cbn [fmap option_fmap option_map]. rewrite Z.opp_involutive.
    destruct (show (- z)) as [|c s] eqn:E; [done|]. cbn [sall] in Hd. to_prop. by destruct c as [[] [] [] [] [] [] [] []].
  - destruct (show_spec z) as (Hd & _ & Hn); [lia|].
    rewrite (parse_show (b - 1)) by lia. destruct (show z) as [|c s] eqn:E; [done|].
    cbn [sall] in Hd. to_prop. by destruct c as [[] [] [] [] [] [] [] []].
Qed.

(** ** Messages made of lines *)

(** Each line followed by CRLF, then the rest. *)
Definition unlines (ls : list string) (rest : string) : string :=
  foldr (fun l acc => l +:+ CRLF +:+ acc) rest ls.

Fixpoint crlf_free (s : string) : bool :=
  match s with
  | String c ((String d _) as s') => negb (is_crlf c d) && crlf_free s'
  | _ => true
  end.

Lemma crlf_free_cons c s :
  crlf_free (String c s) = match s with "" => true | String d _ => negb (is_crlf c d) && crlf_free s end.
Proof. by destruct s. Qed.

Lemma split_crlf_step c d s :
  split_crlf (String c (String d s))
  = if is_crlf c d then "" :: split_crlf s else push_char c (split_crlf (String d s)).
Proof. reflexivity. Qed.

Lemma split_crlf_line l rest : crlf_free l = true -> split_crlf (l +:+ CRLF +:+ rest) = l :: split_crlf rest.
Proof.
  induction l as [|c l IH]; [done|]. intros H. rewrite crlf_free_cons in H. rewrite sapp_cons.
  destruct l as [|d l].
  - change ("" +:+ CRLF +:+ rest) with (String "013" (String "010" rest)). cbn [split_crlf].
    assert (is_crlf c "013" = false) as ->; [|done].
    apply bool_decide_eq_false. by intros [_ [=]].
  - to_prop. rewrite sapp_cons in *. rewrite split_crlf_step, HP.
    by rewrite (IH HP0).
Qed.

Lemma split_crlf_unlines ls rest :
  Forall (fun l => crlf_free l = true) ls -> split_crlf (unlines ls rest) = ls ++ split_crlf rest.
Proof.
  induction 1 as [|l ls Hl Hls IH]; [done|]. cbn [unlines foldr]. fold (unlines ls rest).
  rewrite split_crlf_line by done. by rewrite IH.
Qed.

Lemma split_crlf_free_aux n s : (String.length s <= n)%nat ->
  Forall (fun l => crlf_free l = true) (split_crlf s) /\
  match split_crlf s with
  | w :: _ => match w, s with
              | String a _, String b _ => a = b
              | "", String a (String b _) => is_crlf a b = true
              | "", "" => True
              | _, _ => False end
  | [] => False end.
Proof.
  revert s. induction n as [|n IH]; intros [|c [|d s]] Hn; simpl in Hn; try lia;
    [by repeat constructor..|].
  rewrite split_crlf_step. destruct (is_crlf c d) eqn:E.
  - split; [|done]. constructor; [done|]. apply IH. lia.
  - destruct (IH (String d s)) as [Hf Hh]; [simpl; lia|].
    destruct (split_crlf (String d s)) as [|w ws]; [done|]. cbn [push_char].
    inversion_clear Hf. split; [|done]. constructor; [|done].
    rewrite crlf_free_cons. destruct w as [|a w]; [done|]. subst a. by rewrite E.
Qed.

Lemma split_crlf_free s l : l ∈ split_crlf s -> crlf_free l = true.
Proof.
  intros Hl. destruct (split_crlf_free_aux _ s (le_n _)) as [Hf _].
  by apply (proj1 (Forall_forall _ _) Hf).
Qed.

(** Pieces of a line are lines. *)
Lemma crlf_free_sdrop n s : crlf_free s = true -> crlf_free (sdrop n s) = true.
Proof.
  revert s. induction n as [|n IH]; intros [|c s] H; try done. simpl. apply IH.
  rewrite crlf_free_cons in H. destruct s; [done|]. by to_prop.
Qed.

Lemma crlf_free_trim_start p s : crlf_free s = true -> crlf_free (trim_start_by p s) = true.
Proof.
  induction s as [|c s IH]; [done|]. intros H. simpl. destruct (p c); [|done]. apply IH.
  rewrite crlf_free_cons in H. destruct s; [done|]. by to_prop.
Qed.

Lemma crlf_free_prefix (t s : string) : starts_with t s = true -> crlf_free s = true -> crlf_free t = true.
Proof.
  revert s. induction t as [|c t IH]; [done|]. intros s Hp H.
  apply starts_with_spec in Hp as [u ->]. rewrite sapp_cons in H.
  rewrite crlf_free_cons in H. rewrite crlf_free_cons. destruct t as [|d t]; [done|].
  rewrite sapp_cons in H. to_prop. rewrite HP. simpl. apply (IH (String d (t +:+ u))); [|done].
  apply starts_with_spec. exists u. by rewrite sapp_cons.
Qed.

Lemma trim_end_prefix p s : starts_with (trim_end_by p s) s = true.
Proof.
  apply starts_with_spec. induction s as [|c s [u IH]]; [by exists ""|]. simpl.
  destruct (trim_end_by p s) as [|d t] eqn:E.
  - destruct (p c); [by eexists|]. exists s. done.
  - exists u. rewrite sapp_cons. by rewrite <- IH.
Qed.

Lemma crlf_free_trim s : crlf_free s = true -> crlf_free (trim s) = true.
Proof.
  intros H. apply crlf_free_trim_start. by apply (crlf_free_prefix _ s); [apply trim_end_prefix|].
Qed.

(** ** Trimming *)

Lemma trim_start_idem p s : trim_start_by p (trim_start_by p s) = trim_start_by p s.
Proof. induction s as [|c s IH]; [done|]. simpl. destruct (p c) eqn:E; [done|]. simpl. by rewrite E. Qed.

Lemma trim_end_step p c s :
  trim_end_by p (String c s)
  = match trim_end_by p s with "" => if p c then "" else String c "" | t => String c t end.
Proof. reflexivity. Qed.

Lemma trim_end_idem p s : trim_end_by p (trim_end_by p s) = trim_end_by p s.
Proof.
  induction s as [|c s IH]; [done|]. rewrite trim_end_step.
  destruct (trim_end_by p s) as [|d t] eqn:E.
  - destruct (p c) eqn:F; [done|]. simpl. by rewrite F.
  - by rewrite trim_end_step, IH.
Qed.

Lemma trim_end_of_start p t : trim_end_by p t = t -> trim_end_by p (trim_start_by p t) = trim_start_by p t.
Proof.
  induction t as [|c t IH]; [done|]. rewrite trim_end_step. intros H. simpl.
  destruct (p c) eqn:E; [|rewrite trim_end_step, E; exact H].
  apply IH. destruct (trim_end_by p t); [done|]. by injection H.
Qed.

Lemma trim_idem s : trim (trim s) = trim s.
Proof.
  unfold trim, trim_by. rewrite (trim_end_of_start _ (trim_end_by _ s)) by apply trim_end_idem.
  apply trim_start_idem.
Qed.

Lemma trim_space s : trim (String " " s) = trim s.
Proof. unfold trim, trim_by. rewrite trim_end_step. by destruct (trim_end_by Ascii.is_space s). Qed.

Lemma trim_end_app p a b : trim_end_by p b = b -> b <> "" -> trim_end_by p (a +:+ b) = a +:+ b.
Proof.
  intros Hb Hn. induction a as [|c a IH]; [done|]. rewrite sapp_cons, trim_end_step, IH.
  destruct a as [|d a]; [by destruct b|done].
Qed.

(** ** Pieces between separators *)

Lemma split_by_step p c s :
  split_by p (String c s) = if p c then "" :: split_by p s else push_char c (split_by p s).
Proof. reflexivity. Qed.

Lemma split_by_pieces p s :
  crlf_free s = true ->
  Forall (fun w => crlf_free w = true /\ sall (fun c => negb (p c)) w = true) (split_by p s) /\
  match split_by p s with
  | w :: _ => match w, s with String a _, String b _ => a = b | "", _ => True | _, "" => False end
  | [] => False end.
Proof.
  induction s as [|c s IH]; intros H; [by repeat constructor|].
  rewrite crlf_free_cons in H. rewrite split_by_step.
  assert (Hs : crlf_free s = true) by (destruct s; [done|by to_prop]).
  destruct (IH Hs) as [Hf Hh]. destruct (p c) eqn:E; [split; [by constructor|done]|].
  destruct (split_by p s) as [|w ws]; [done|]. inversion_clear Hf as [|? ? [Hw Hp] Hws]. cbn [push_char].
  split; [|done]. constructor; [|done]. rewrite crlf_free_cons. cbn [sall]. rewrite E, Hp.
  split; [|done]. destruct w as [|a w]; [done|]. destruct s as [|b s]; [done|]. subst a. to_prop.
  by rewrite HP, Hw.
Qed.

Definition free_of (c : ascii) (s : string) : bool := sall (fun d => negb (bool_decide (d = c))) s.

Lemma free_of_cons c d s : free_of c (String d s) = negb (bool_decide (d = c)) && free_of c s.
Proof. reflexivity. Qed.

Lemma free_of_app c a b : free_of c (a +:+ b) = free_of c a && free_of c b.
Proof. apply sall_app. Qed.

Lemma find_char_app c a b : free_of c a = true -> find_char c (a +:+ String c b) = Some (String.length a).
Proof.
  induction a as [|d a IH]; intros H; [change ("" +:+ String c b) with (String c b); simpl; by rewrite bool_decide_true|].
  rewrite sapp_cons. rewrite free_of_cons in H. to_prop. simpl. rewrite bool_decide_false by done. by rewrite (IH HP0).
Qed.

Lemma stake_app a b : stake (String.length a) (a +:+ b) = a.
Proof. induction a as [|c a IH]; [by destruct b|]. rewrite sapp_cons. simpl. by rewrite IH. Qed.

Lemma sdrop_app a b : sdrop (String.length a) (a +:+ b) = b.
Proof. induction a as [|c a IH]; [by destruct b|]. rewrite sapp_cons. exact IH. Qed.

Lemma stake_sdrop n s : stake n s +:+ sdrop n s = s.
Proof. revert n. induction s as [|c s IH]; intros [|n]; try done. cbn [stake sdrop]. by rewrite sapp_cons, IH. Qed.

Lemma split_once_app c a b : free_of c a = true -> split_once c (a +:+ String c b) = Some (a, b).
Proof.
  intros H. unfold split_once. rewrite find_char_app, stake_app by done.
  replace (a +:+ String c b) with ((a +:+ String c "") +:+ b) by by rewrite sapp_assoc.
  replace (S (String.length a)) with (String.length (a +:+ String c "")) by (rewrite slength_app; simpl; lia).
  by rewrite sdrop_app.
Qed.

(** [split(',')] of texts joined with [", "]. *)
Lemma split_joined c p ps :
  Forall (fun q => free_of c q = true) (p :: ps) -> free_of c " " = true ->
  split c (join (String c " ") (p :: ps)) = p :: map (String " ") ps.
Proof.
  intros H Hs. revert p H. induction ps as [|q ps IH]; intros p H; inversion_clear H as [|? ? Hp Hps].
  - by apply split_by_free.
  - change (join (String c " ") (p :: q :: ps)) with (p +:+ String c (String " " (join (String c " ") (q :: ps)))).
    unfold split in *. rewrite split_by_app by (try done; by apply bool_decide_eq_true). f_equal.
    rewrite split_by_step. rewrite free_of_cons in Hs. to_prop. rewrite bool_decide_false by done.
    specialize (IH q Hps). fold (split c) in *. by rewrite IH.
Qed.

Lemma trim_plain a c : sall (fun d => negb (Ascii.is_space d)) (stake 1 a) = true -> a <> "" ->
  Ascii.is_space c = false -> trim (a +:+ String c "") = a +:+ String c "".
Proof.
  intros Ha Hn Hc. unfold trim, trim_by. rewrite trim_end_app; [|simpl; by rewrite Hc|done].
  destruct a as [|d a]; [done|]. simpl in *. to_prop. by rewrite HP.
Qed.

Lemma trim_start_suffix p s : exists u, s = u +:+ trim_start_by p s.
Proof.
  induction s as [|c s [u Hu]]; [by exists ""|]. simpl. destruct (p c); [|by exists ""].
  exists (String c u). by rewrite sapp_cons, <- Hu.
Qed.

Lemma trimmed_end s : trim s = s -> trim_end_by Ascii.is_space s = s.
Proof.
  unfold trim, trim_by. intros H. destruct (proj1 (starts_with_spec _ _) (trim_end_prefix Ascii.is_space s)) as [u Hu].
  destruct (trim_start_suffix Ascii.is_space (trim_end_by Ascii.is_space s)) as [v Hv]. rewrite H in Hv.
  destruct u as [|c u]; [by rewrite sapp_nil_r in Hu|]. exfalso.
  apply (f_equal String.length) in Hu, Hv. rewrite slength_app in Hu, Hv. simpl in Hu. lia.
Qed.

(** A text that starts with a word and ends trimmed is trimmed. *)
Lemma trim_word c w s :
  Ascii.is_space c = false -> trim s = s -> s <> "" -> trim (String c w +:+ s) = String c w +:+ s.
Proof.
  intros Hc Hs Hn. unfold trim, trim_by. rewrite trim_end_app; [|by apply trimmed_end|done].
  rewrite sapp_cons. simpl. by rewrite Hc.
Qed.

Lemma trim_free k : sall (fun c => negb (Ascii.is_space c)) k = true -> trim k = k.
Proof.
  intros Hk. unfold trim, trim_by. assert (He : trim_end_by Ascii.is_space k = k).
  { induction k as [|c k IH]; [done|]. cbn [sall] in Hk. to_prop. rewrite trim_end_step, IH by done.
    destruct k; [by rewrite HP|done]. }
  rewrite He. destruct k as [|c k]; [done|]. cbn [sall] in Hk. to_prop. simpl. by rewrite HP.
Qed.

(** ** UTF-8 (std::str::from_utf8) *)

Definition cont (c : ascii) : bool := (128 <=? code c) && (code c <=? 191).
Definition within (lo hi : Z) (c : ascii) : bool := (lo <=? code c) && (code c <=? hi).

Fixpoint is_utf8 (s : string) : bool :=
  match s with
  | "" => true
  | String a s =>
      if code a <? 128 then is_utf8 s
      else match s with
      | "" => false
      | String b s =>
          if within 194 223 a then cont b && is_utf8 s
          else match s with
          | "" => false
          | String c s =>
              if within 224 239 a
              then (if code a =? 224 then within 160 191 b
                    else if code a =? 237 then within 128 159 b else cont b)
                   && cont c && is_utf8 s
              else match s with
              | "" => false
              | String d s =>
                  within 240 244 a
                  && (if code a =? 240 then within 144 191 b
                      else if code a =? 244 then within 128 143 b else cont b)
                  && cont c && cont d && is_utf8 s
              end
          end
      end
  end.

(** ** Words and lines *)

Definition is_word (w : string) : bool := negb (seqb w "") && sall (fun c => negb (Ascii.is_space c)) w.

Lemma words_last w : is_word w = true -> split_whitespace w = [w].
Proof.
  unfold is_word. intros H. to_prop. unfold split_whitespace. rewrite split_by_free by done. simpl. by rewrite HP.
Qed.

Lemma words_more w s : is_word w = true -> split_whitespace (w +:+ " " +:+ s) = w :: split_whitespace s.
Proof.
  unfold is_word. intros H. to_prop. change (w +:+ " " +:+ s) with (w +:+ String " " s). apply words_cons; [done|].
  intros ->. done.
Qed.

Lemma split_whitespace_words s : Forall (fun w => is_word w = true) (split_whitespace s).
Proof.
  assert (H : Forall (fun w => sall (fun c => negb (Ascii.is_space c)) w = true) (split_by Ascii.is_space s)).
  { induction s as [|c s IH]; [by repeat constructor|]. rewrite split_by_step.
    destruct (Ascii.is_space c) eqn:E; [by constructor|].
    destruct (split_by Ascii.is_space s) as [|w ws]; [by repeat constructor; cbn [sall]; rewrite E|].
    inversion_clear IH as [|? ? Hw Hws]. constructor; [|done]. cbn [sall]. by rewrite E, Hw. }
  unfold split_whitespace. apply Forall_forall. intros w [Hin Hn]%elem_of_filter_bool. unfold is_word.
  rewrite Forall_forall in H. by rewrite Hn, (H w Hin).
Qed.

Lemma word_no_lf w : is_word w = true -> no_lf w = true.
Proof.
  unfold is_word. intros H. to_prop. unfold no_lf. eapply sall_impl; [|eassumption].
  intros c Hc. apply negb_true_iff, bool_decide_false. by intros ->.
Qed.

Lemma show_word n : 0 <= n -> is_word (show n) = true.
Proof.
  intros Hn. destruct (show_spec n Hn) as (Hd & _ & Hne). unfold is_word. rewrite seqb_false by done. cbn [negb andb].
  eapply sall_impl; [|exact Hd]. apply digit_not_space.
Qed.

Lemma no_lf_show n : 0 <= n -> no_lf (show n) = true.
Proof. intros H. by apply word_no_lf, show_word. Qed.

Lemma no_lf_app a b : no_lf (a +:+ b) = no_lf a && no_lf b.
Proof. apply sall_app. Qed.

(** A text made of lines is read back as its lines. *)
Lemma lines_unlines ls : Forall (fun l => no_lf l = true) ls -> lines (unlines ls "") = ls.
Proof.
  induction 1 as [|l ls Hl _ IH]; [done|]. change (unlines (l :: ls) "") with (l +:+ CRLF +:+ unlines ls "").
  by rewrite line_off, IH.
Qed.

Lemma split_by_free_pieces p s : Forall (fun w => sall (fun c => negb (p c)) w = true) (split_by p s).
Proof.
  induction s as [|c s IH]; [by repeat constructor|]. simpl. destruct (p c) eqn:E; [by constructor|].
  destruct (split_by p s) as [|w ws]; inversion_clear IH; repeat constructor; simpl; by rewrite ?E.
Qed.

Lemma sall_stake p n s : sall p s = true -> sall p (stake n s) = true.
Proof.
  revert n. induction s as [|c s IH]; intros [|n]; try done. simpl. intros H. to_prop. rewrite HP. by apply IH.
Qed.

Lemma no_lf_stake n s : no_lf s = true -> no_lf (stake n s) = true.
Proof. apply sall_stake. Qed.

Lemma no_lf_sdrop n s : no_lf s = true -> no_lf (sdrop n s) = true.
Proof. intros H. rewrite <- (stake_sdrop n s), no_lf_app in H. by to_prop. Qed.

Lemma lines_no_lf s : Forall (fun l => no_lf l = true) (lines s).
Proof.
  unfold lines. assert (H := split_by_free_pieces (fun d => bool_decide (d = "010"%char)) s). fold (split "010" s) in H. induction (split "010"%char s) as [|l ls IH]; [done|].
  inversion_clear H as [|? ? Hl Hls]. destruct ls as [|l' ls].
  - cbn [lines_of]. destruct (seqb l ""); [done|]. by repeat constructor.
  - change (lines_of (l :: l' :: ls)) with (strip_cr l :: lines_of (l' :: ls)). constructor; [|by apply IH].
    unfold strip_cr. destruct (rfind_char _ l); [|done]. destruct (Nat.eqb _ _); [|done]. by apply no_lf_stake.
Qed.

(** Lines joined with line feeds are read back. *)
Lemma strip_cr_free l : free_of "013" l = true -> strip_cr l = l.
Proof.
  intros H. unfold strip_cr. assert (rfind_char "013" l = None) as ->; [|done].
  induction l as [|c l IH]; [done|]. rewrite free_of_cons in H. to_prop. cbn [rfind_char]. rewrite (IH HP0).
  by rewrite bool_decide_false.
Qed.

Lemma lines_join ls :
  Forall (fun l => no_lf l = true /\ free_of "013" l = true /\ l <> "") ls -> lines (join (String "010"%char "") ls) = ls.
Proof.
  intros H. destruct ls as [|l ls]; [done|]. unfold lines. revert l H. induction ls as [|l' ls IH]; intros l H.
  - inversion_clear H as [|? ? (Hl & _ & Hn) _]. change (join _ [l]) with l. unfold split.
    rewrite split_by_free by exact Hl. cbn [lines_of]. by rewrite seqb_false.
  - inversion_clear H as [|? ? (Hl & Hc & _) Hls].
    change (join _ (l :: l' :: ls)) with (l +:+ String "010" (join (String "010"%char "") (l' :: ls))).
    unfold split. rewrite split_by_app by (try done; exact Hl). specialize (IH l' Hls). unfold split in IH.
    destruct (split_by _ (join _ (l' :: ls))) as [|y ys] eqn:Hy; [by apply split_by_nonempty in Hy|].
    change (strip_cr l :: lines_of (y :: ys) = l :: l' :: ls). by rewrite IH, strip_cr_free.
Qed.

Lemma trimmed_head c s : trim (String c s) = String c s -> Ascii.is_space c = false.
Proof.
  intros Ht. destruct (Ascii.is_space c) eqn:Hs; [|done]. exfalso. apply (f_equal String.length) in Ht.
  destruct (proj1 (starts_with_spec _ _) (trim_end_prefix Ascii.is_space (String c s))) as [v Hv].
  apply (f_equal String.length) in Hv. rewrite slength_app in Hv. unfold trim, trim_by in Ht.
  destruct (trim_end_by Ascii.is_space (String c s)) as [|c' s'] eqn:He; [cbn in Ht; lia|].
  assert (c' = c) as -> by (rewrite trim_end_step in He; destruct (trim_end_by Ascii.is_space s); [rewrite Hs in He; done|congruence]).
  cbn [trim_start_by] in Ht. rewrite Hs in Ht. destruct (trim_start_suffix Ascii.is_space s') as [w Hw].
  apply (f_equal String.length) in Hw. rewrite slength_app in Hw. simpl in *. lia.
Qed.

(** [str::replace] of a non-empty text: left to right, without overlap. *)
Fixpoint replace_in (fuel : nat) (p new s : string) : string :=
  match fuel with
  | O => s
  | S fuel => match find_str p s with
              | Some pos => stake pos s +:+ new +:+ replace_in fuel p new (sdrop (pos + String.length p) s)
              | None => s
              end
  end.
Definition replace_all (p new s : string) : string := replace_in (S (String.length s)) p new s.
