(* ===== verification/ConfigKeys.v ===== *)
(** * Keys of the configuration (config.rs, sbc/runtime_config.rs)

    The configuration as a JSON tree: its leaves by dotted path, the class of a
    path, what differs between two configurations, the overlay a reload does,
    the masking of secrets, the redaction of parse errors, and the record of
    what runs. The derived conversions of the configuration to and from a tree
    are an interface. An object is an association list in the order of its
    keys. *)

From S2P Require Import Prelude Str.

(** ** Trees *)

Inductive Json :=
  | JNull
  | JBool (b : bool)
  | JNum (text : string)
  | JStr (s : string)
  | JArr (l : list Json)
  | JObj (m : list (string * Json)).

Section json_ind.
Context (Q : Json -> Prop) (Hnull : Q JNull) (Hbool : forall b, Q (JBool b)) (Hnum : forall t, Q (JNum t))
  (Hstr : forall s, Q (JStr s)) (Harr : forall l, Forall Q l -> Q (JArr l))
  (Hobj : forall m, Forall (fun e => Q e.2) m -> Q (JObj m)).

Fixpoint Json_nested_ind (j : Json) : Q j :=
  match j with
  | JNull => Hnull
  | JBool b => Hbool b
  | JNum t => Hnum t
  | JStr s => Hstr s
  | JArr l => Harr l ((fix go (l : list Json) : Forall Q l :=
                       match l with [] => Forall_nil_2 Q | x :: l => Forall_cons_2 Q x l (Json_nested_ind x) (go l) end) l)
  | JObj m => Hobj m ((fix go (m : list (string * Json)) : Forall (fun e => Q e.2) m :=
                       match m with
                       | [] => Forall_nil_2 _
                       | e :: m => Forall_cons_2 (fun e => Q e.2) e m (Json_nested_ind e.2) (go m)
                       end) m)
  end.
End json_ind.

#[export] Instance Json_eq_dec : EqDecision Json.
Proof.
  refine (fix go (a b : Json) {struct a} : Decision (a = b) :=
    match a, b with
    | JNull, JNull => left _
    | JBool x, JBool y => cast_if (decide (x = y))
    | JNum x, JNum y => cast_if (decide (x = y))
    | JStr x, JStr y => cast_if (decide (x = y))
    | JArr x, JArr y => cast_if (@list_eq_dec _ go x y)
    | JObj x, JObj y => cast_if (@list_eq_dec _ (@prod_eq_dec _ _ _ go) x y)
    | _, _ => right _
    end); clear go; abstract congruence.
Defined.

Definition is_object (j : Json) : bool := match j with JObj _ => true | _ => false end.

Fixpoint field (k : string) (m : list (string * Json)) : option Json :=
  match m with [] => None | (k', v) :: m => if seqb k' k then Some v else field k m end.

(** [insert] of a map ordered by its keys. *)
Fixpoint set_entry (k : string) (v : Json) (m : list (string * Json)) : list (string * Json) :=
  match m with
  | [] => [(k, v)]
  | (k', v') :: m' =>
      if seqb k' k then (k, v) :: m'
      else if String.ltb k k' then (k, v) :: (k', v') :: m'
      else (k', v') :: set_entry k v m'
  end.

(** ** Leaves *)

Definition under (prefix k : string) : string := if seqb prefix "" then k else prefix +:+ "." +:+ k.

Fixpoint leaves (value : Json) (prefix : string) : list (string * Json) :=
  match value with
  | JObj m => (fix go m := match m with [] => [] | (k, v) :: m => leaves v (under prefix k) ++ go m end) m
  | other => [(prefix, other)]
  end.

(** The map a list is collected into: the last entry of a key counts. *)
Definition collect (l : list (string * Json)) : gmap string Json := foldl (fun m e => <[e.1 := e.2]> m) ∅ l.

(** ** Classes *)

Inductive KeyClass := Reload | Restart | Seed | Unused.

#[export] Instance KeyClass_eq_dec : EqDecision KeyClass.
Proof. solve_decision. Defined.

Definition RELOAD_KEYS : list string :=
  ["security.max_call_duration"; "security.call_setup_timeout"; "security.rtp_timeout"; "security.invite_timeout";
   "security.session_timer_enabled"; "security.session_expires"; "security.min_se"; "security.register_aor_check";
   "security.served_domains"; "security.trunk_local_from"; "security.register_min_expires";
   "security.register_max_expires"; "security.register_default_expires"; "security.rate_limit_per_ip";
   "security.ban."; "security.destinations.enabled"; "security.destinations.default_action";
   "security.destinations.default_country_code"; "security.user_limits.enabled";
   "security.user_limits.default_max_concurrent_calls"; "security.user_limits.default_max_calls_per_minute"].

Definition RESTART_KEYS : list string :=
  ["general.cdr_file"; "network.listeners"; "network.public_ipv4"; "media.rtp_port_range"; "database.";
   "security.sip_realm"; "security.enable_digest_auth"; "management."; "trunk_health."; "logging."; "cdr."].

Definition SEED_KEYS : list string :=
  ["security.sip_users"; "trunks"; "dids"; "security.destinations.rules"; "security.destinations.seed_irsf_rules";
   "security.user_limits.overrides"].

Definition names (path p : string) : bool :=
  seqb path (trim_end_matches "." p) || starts_with p path
  || (negb (ends_with "." p) && starts_with (p +:+ ".") path).

(** The length of the longest entry that names the path; zero without one. *)
Definition longest (prefixes : list string) (path : string) : nat :=
  foldr Nat.max 0%nat (map String.length (List.filter (names path) prefixes)).

Definition classify_key (path : string) : KeyClass :=
  let reload := longest RELOAD_KEYS path in
  let restart := longest RESTART_KEYS path in
  let seed := longest SEED_KEYS path in
  let best := Nat.max (Nat.max reload restart) seed in
  if Nat.eqb best 0 then Unused
  else if Nat.eqb best reload then Reload
  else if Nat.eqb best restart then Restart
  else Seed.

Definition is_reload (path : string) : bool := bool_decide (classify_key path = Reload).

(** The order of strings. *)
Definition string_le (a b : string) : Prop := String.leb a b = true.
#[export] Instance string_le_dec : RelDecision string_le.
Proof. intros a b. unfold string_le. apply _. Defined.

(** ** Conversion, differences, overlay *)

Section config.
Context {SbcConfig : Type} (to_value : SbcConfig -> Json) (from_value : Json -> option SbcConfig).

Definition config_leaves (c : SbcConfig) : gmap string Json := collect (leaves (to_value c) "").

Record ConfigDiff := mkDiff { restart_required : list string; reload_pending : list string }.

Definition differing (a b : gmap string Json) : list string :=
  List.filter (fun k => negb (bool_decide (a !! k = b !! k)))
    (merge_sort string_le (elements (dom a ∪ dom b))).

Definition config_diff (running candidate : SbcConfig) : ConfigDiff :=
  let ks := differing (config_leaves running) (config_leaves candidate) in
  mkDiff (List.filter (fun k => bool_decide (classify_key k = Restart)) ks) (List.filter is_reload ks).

(** The value put at a path, objects made on the way; [None] where the code
    panics, on a path through something that is not an object. *)
Fixpoint put (parts : list string) (v : Json) (j : Json) : option Json :=
  match parts with
  | [] => None
  | [k] => Some (match j with JObj m => JObj (set_entry k v m) | _ => j end)
  | k :: parts =>
      match j with
      | JObj m => j' ← put parts v (default (JObj []) (field k m)); Some (JObj (set_entry k j' m))
      | _ => None
      end
  end.

Fixpoint overlay (new_leaves : list (string * Json)) (base : Json) : option Json :=
  match new_leaves with
  | [] => Some base
  | (path, value) :: ls =>
      if is_reload path then base ← put (split "." path) value base; overlay ls base else overlay ls base
  end.

(** [overlay_reload_keys] *)
Definition overlay_reload_keys (effective loaded : SbcConfig) : option SbcConfig :=
  base ← overlay (leaves (to_value loaded) "") (to_value effective);
  Some (default effective (from_value base)).

(** ** What runs (runtime_config.rs) *)

Inductive ReloadSource := Boot | Sighup | Api.

Record ReloadReport := mkReport {
  ts : Z;
  source : ReloadSource;
  ok : bool;
  error : option string;
  applied : list string;
  r_restart_required : list string;
  hydrated : bool
}.

Record Snapshot := mkSnapshot {
  boot : SbcConfig;
  effective : SbcConfig;
  last_loaded : SbcConfig;
  path : option string;
  loaded_at : Z;
  s_source : ReloadSource;
  last_reload : option ReloadReport
}.

Record RuntimeConfig := mkRuntime { snapshot : Snapshot; generation : Z }.

Definition new (now : Z) (c : SbcConfig) (p : option string) : RuntimeConfig :=
  mkRuntime (mkSnapshot c c c p now Boot None) 0.

Definition set_path (p : string) (r : RuntimeConfig) : RuntimeConfig :=
  let s := snapshot r in
  mkRuntime (mkSnapshot (boot s) (effective s) (last_loaded s) (Some p) (loaded_at s) (s_source s) (last_reload s)) (generation r).

Definition record_reload (report : ReloadReport) (loaded : option SbcConfig) (r : RuntimeConfig) : option RuntimeConfig :=
  let s := snapshot r in
  s ← match ok report, loaded with
      | true, Some c =>
          e ← overlay_reload_keys (effective s) c;
          Some (mkSnapshot (boot s) e c (path s) (ts report) (source report) (Some report))
      | _, _ =>
          Some (mkSnapshot (boot s) (effective s) (last_loaded s) (path s) (loaded_at s) (s_source s) (Some report))
      end;
  Some (mkRuntime s (wrapw 64 (generation r + 1))).
End config.
Arguments Snapshot : clear implicits.
Arguments RuntimeConfig : clear implicits.

(** ** Secrets *)

Definition MASK : Json := JStr "***".

(** [pointer_mut]: what the field at a path of fields becomes. *)
Fixpoint at_fields (ks : list string) (f : Json -> Json) (j : Json) : Json :=
  match ks with
  | [] => f j
  | k :: ks =>
      match j with
      | JObj m => match field k m with Some v => JObj (set_entry k (at_fields ks f v) m) | None => j end
      | _ => j
      end
  end.

Definition mask_set (j : Json) : Json := match j with JNull => JNull | _ => MASK end.
Definition mask_users (j : Json) : Json := match j with JObj m => JObj (map (fun e => (e.1, MASK)) m) | _ => j end.
Definition mask_trunk (j : Json) : Json := at_fields ["password"] mask_set j.
Definition mask_trunks (j : Json) : Json := match j with JArr l => JArr (map mask_trunk l) | _ => j end.

Definition masked_json (v : Json) : Json :=
  at_fields ["trunks"] mask_trunks
    (at_fields ["security"; "sip_users"] mask_users (at_fields ["management"; "api_auth_token"] mask_set v)).

(** ** Parse errors *)

Definition framed_line (line : string) : bool := starts_with "|" (trim_start_by Ascii.is_space line).
Definition quoted_source (line : string) : bool :=
  match split_once "|" (trim_start_by Ascii.is_space line) with
  | Some (num, _) => negb (seqb (trim num) "") && sall is_digit (trim num)
  | None => false
  end.

Definition redact_parse_error (message : string) : string :=
  let kept := List.filter (fun l => negb (seqb l ""))
                (List.filter (fun l => negb (framed_line l || quoted_source l))
                   (map (trim_end_by Ascii.is_space) (lines message))) in
  match kept with [] => "invalid TOML (details redacted)" | _ => join ": " kept end.

(** ** Leaves by their keys *)

Definition key_lt (a b : string) : Prop := String.ltb a b = true.

(** The keys of every object are in order. *)
Inductive wf : Json -> Prop :=
  | wf_null : wf JNull
  | wf_bool b : wf (JBool b)
  | wf_num t : wf (JNum t)
  | wf_str s : wf (JStr s)
  | wf_arr l : Forall wf l -> wf (JArr l)
  | wf_obj m : StronglySorted key_lt (map fst m) -> Forall (fun e => wf e.2) m -> wf (JObj m).

Definition down (k : string) (l : list (list string * Json)) : list (list string * Json) :=
  map (fun e => (k :: e.1, e.2)) l.

Fixpoint kleaves (j : Json) : list (list string * Json) :=
  match j with
  | JObj m => (fix go m := match m with [] => [] | (k, v) :: m => down k (kleaves v) ++ go m end) m
  | _ => [([], j)]
  end.

Definition path_from (prefix : string) (ks : list string) : string := fold_left under ks prefix.
Definition path_of (ks : list string) : string := path_from "" ks.
Definition as_path (prefix : string) (e : list string * Json) : string * Json := (path_from prefix e.1, e.2).

Lemma kleaves_obj m : kleaves (JObj m) = concat (map (fun e => down e.1 (kleaves e.2)) m).
Proof. induction m as [|[k v] m IH]; [done|]. cbn [map concat fst snd]. rewrite <- IH. done. Qed.

Lemma leaves_kleaves j prefix : leaves j prefix = map (as_path prefix) (kleaves j).
Proof.
  revert prefix. induction j as [|?|?|?|?|m IH] using Json_nested_ind; intros prefix; try done.
  induction IH as [|[k v] m Hv Hm IHm]; [done|]. cbn [snd] in Hv. cbn [leaves kleaves]. rewrite map_app. f_equal; [|exact IHm].
  rewrite Hv. unfold down. rewrite map_map. by apply map_ext.
Qed.

(** A path whose keys can be read back from it. *)
Definition plain_key (k : string) : Prop := k <> "" /\ free_of "." k = true.
Definition plain (ks : list string) : Prop := ks <> [] /\ Forall plain_key ks.

Lemma under_nonempty p k : p <> "" -> under p k = p +:+ "." +:+ k.
Proof. intros Hp. unfold under. by rewrite seqb_false. Qed.

Lemma split_path p ks : free_of "." p = true -> p <> "" -> Forall plain_key ks -> split "." (path_from p ks) = p :: ks.
Proof.
  intros Hp Hne Hks.
  assert (Hjoin : forall q, q <> "" -> path_from q ks = q +:+ foldr (fun k s => "." +:+ k +:+ s) "" ks).
  { induction Hks as [|k ks Hk Hks IH]; intros q Hq; [by rewrite sapp_nil_r|].
    change (path_from q (k :: ks)) with (path_from (under q k) ks).
    rewrite under_nonempty, IH by (done || by destruct q). cbn [foldr]. by rewrite !sapp_assoc. }
  rewrite Hjoin by done. clear Hjoin Hne. revert p Hp. induction Hks as [|k ks [Hk1 Hk2] Hks IH]; intros p Hp.
  - cbn [foldr]. rewrite sapp_nil_r. unfold split. by apply split_by_free.
  - cbn [foldr]. unfold split in *. change ("." +:+ k +:+ _) with (String "." (k +:+ foldr (fun k s => "." +:+ k +:+ s) "" ks)).
    rewrite split_by_app by (done || exact Hp). f_equal. by apply IH.
Qed.

Lemma split_plain ks : plain ks -> split "." (path_of ks) = ks.
Proof.
  intros [Hne Hks]. destruct ks as [|k ks]; [done|]. inversion_clear Hks as [|? ? [Hk1 Hk2] Hks'].
  change (path_of (k :: ks)) with (path_from k ks). by apply split_path.
Qed.

(** *** Objects *)

Lemma key_lt_trans a b c : key_lt a b -> key_lt b c -> key_lt a c.
Proof.
  unfold key_lt, String.ltb. revert b c. induction a as [|x a IH]; intros [|y b] [|z c]; cbn; try done.
  unfold Ascii.compare. intros H1 H2.
  destruct (N.compare_spec (N_of_ascii x) (N_of_ascii y)) as [E|E|E]; [|clear H1|done];
    (destruct (N.compare_spec (N_of_ascii y) (N_of_ascii z)) as [F|F|F]; [|clear H2|done]).
  - rewrite <- F, <- E, N.compare_refl. apply (IH b c); [exact H1|exact H2].
  - rewrite E. by apply N.compare_lt_iff in F as ->.
  - rewrite <- F. by apply N.compare_lt_iff in E as ->.
  - assert (L : (N_of_ascii x < N_of_ascii z)%N) by lia. by apply N.compare_lt_iff in L as ->.
Qed.

Lemma key_lt_irrefl a : ~ key_lt a a.
Proof.
  unfold key_lt, String.ltb. induction a as [|x a IH]; cbn; [done|]. unfold Ascii.compare. by rewrite N.compare_refl.
Qed.

Lemma sorted_split k v m : StronglySorted key_lt (map fst m) -> (k, v) ∈ m ->
  exists m1 m2, m = m1 ++ (k, v) :: m2 /\ Forall (fun e : string * Json => key_lt e.1 k) m1 /\ Forall (fun e : string * Json => key_lt k e.1) m2.
Proof.
  induction m as [|[k' v'] m IH]; intros Hs Hin; [by apply not_elem_of_nil in Hin|]. cbn [map fst] in Hs.
  apply StronglySorted_inv in Hs as [Hs Hlt]. apply elem_of_cons in Hin as [[= -> ->]|Hin].
  - exists [], m. split_and!; [done|done|]. exact (proj1 (List.Forall_map fst (key_lt _) m) Hlt).
  - destruct (IH Hs Hin) as (m1 & m2 & -> & H1 & H2). exists ((k', v') :: m1), m2. split_and!; [done| |done].
    constructor; [|done]. rewrite map_app, Forall_app in Hlt. cbn in Hlt. destruct Hlt as [_ Hlt]. by inversion_clear Hlt.
Qed.

Lemma lt_not_eq a b : key_lt a b -> a <> b.
Proof. intros H ->. by apply key_lt_irrefl in H. Qed.

Lemma lt_not_gt a b : key_lt a b -> String.ltb b a = false.
Proof. intros H. destruct (String.ltb b a) eqn:E; [|done]. destruct (key_lt_irrefl a). by apply (key_lt_trans a b a). Qed.

Lemma field_at k v m1 m2 : Forall (fun e : string * Json => key_lt e.1 k) m1 -> field k (m1 ++ (k, v) :: m2) = Some v.
Proof.
  induction 1 as [|[k' v'] m1 Hk Hm IH]; cbn; [by rewrite seqb_refl|]. rewrite seqb_false; [done|]. by apply lt_not_eq.
Qed.

Lemma set_entry_at k v v' m1 m2 : Forall (fun e : string * Json => key_lt e.1 k) m1 -> set_entry k v' (m1 ++ (k, v) :: m2) = m1 ++ (k, v') :: m2.
Proof.
  induction 1 as [|[k' w] m1 Hk Hm IH]; cbn; [by rewrite seqb_refl|]. cbn in Hk.
  rewrite seqb_false by by apply lt_not_eq. rewrite lt_not_gt by done. by rewrite IH.
Qed.

(** Changing the value of one entry. *)
Definition replace (ks : list string) (v : Json) (e : list string * Json) : list string * Json :=
  if decide (e.1 = ks) then (ks, v) else e.

Lemma replace_down_other k k' ks v l : k <> k' -> map (replace (k' :: ks) v) (down k l) = down k l.
Proof.
  intros Hk. unfold down. rewrite map_map. apply map_ext. intros [ks' x]. unfold replace. cbn. by rewrite decide_False by congruence.
Qed.

Lemma replace_down_same k ks v l : map (replace (k :: ks) v) (down k l) = down k (map (replace ks v) l).
Proof.
  unfold down. rewrite !map_map. apply map_ext. intros [ks' x]. unfold replace. cbn.
  destruct (decide (ks' = ks)) as [->|Hn]; [by rewrite decide_True|]. by rewrite decide_False by congruence.
Qed.

Lemma replace_other_keys k ks v m : Forall (fun e : string * Json => e.1 <> k) m ->
  map (replace (k :: ks) v) (concat (map (fun e => down e.1 (kleaves e.2)) m)) = concat (map (fun e => down e.1 (kleaves e.2)) m).
Proof.
  induction 1 as [|[k' w] m Hk Hm IH]; [done|]. cbn [map concat fst snd]. rewrite map_app, IH. f_equal. by apply replace_down_other.
Qed.

(** An entry replaced by another with the same key. *)
Lemma kleaves_entry k v v' ks x m1 m2 :
  Forall (fun e : string * Json => key_lt e.1 k) m1 -> Forall (fun e : string * Json => key_lt k e.1) m2 -> kleaves v' = map (replace ks x) (kleaves v) ->
  kleaves (JObj (m1 ++ (k, v') :: m2)) = map (replace (k :: ks) x) (kleaves (JObj (m1 ++ (k, v) :: m2))).
Proof.
  intros H1 H2 E. rewrite !kleaves_obj, !map_app, !concat_app, map_app. cbn [map concat fst snd]. rewrite map_app.
  rewrite replace_down_same, <- E, !replace_other_keys; [done|..]; eapply Forall_impl; try eassumption; cbn; intros e He.
  - intros <-. by apply key_lt_irrefl in He.
  - by apply lt_not_eq.
Qed.

Lemma wf_fields m : wf (JObj m) -> StronglySorted key_lt (map fst m) /\ Forall (fun e => wf e.2) m.
Proof. by inversion 1. Qed.

Lemma wf_entry k v v' m1 m2 : wf (JObj (m1 ++ (k, v) :: m2)) -> wf v' -> wf (JObj (m1 ++ (k, v') :: m2)).
Proof.
  intros Hw Hv. apply wf_fields in Hw as [Hs Hf]. apply wf_obj.
  - rewrite map_app in *. exact Hs.
  - rewrite Forall_app, Forall_cons in *. cbn in *. naive_solver.
Qed.

Lemma kleaves_leaf j : is_object j = false -> kleaves j = [([], j)].
Proof. by destruct j. Qed.

Lemma kleaves_root j v : ([], v) ∈ kleaves j -> is_object j = false /\ v = j.
Proof.
  destruct j as [| | | | |m]; try (intros H; by apply list_elem_of_singleton in H as [= ->]).
  rewrite kleaves_obj. intros H. exfalso. induction m as [|[k w] m IH]; [by apply not_elem_of_nil in H|].
  cbn [map concat] in H. apply elem_of_app in H as [H|H]; [|by apply IH].
  unfold down in H. by apply list_elem_of_fmap in H as (e & [=] & _).
Qed.

Lemma kleaves_step k ks v j : (k :: ks, v) ∈ kleaves j -> exists m w, j = JObj m /\ (k, w) ∈ m /\ (ks, v) ∈ kleaves w.
Proof.
  destruct j as [| | | | |m]; try (intros H; by apply list_elem_of_singleton in H).
  rewrite kleaves_obj. intros H. exists m.
  assert (H' : exists w, (k, w) ∈ m /\ (ks, v) ∈ kleaves w); [|by destruct H' as (w & ? & ?); exists w].
  induction m as [|[k' w] m IH]; [by apply not_elem_of_nil in H|]. cbn [map concat fst snd] in H. apply elem_of_app in H as [H|H].
  - unfold down in H. apply list_elem_of_fmap in H as ([ks' x] & [= -> -> ->] & H). exists w. split; [by left|done].
  - destruct (IH H) as (w' & H1 & H2). exists w'. split; [by right|done].
Qed.

Lemma put_more k k2 ks v m :
  put (k :: k2 :: ks) v (JObj m)
  = (j' ← put (k2 :: ks) v (default (JObj []) (field k m)); Some (JObj (set_entry k j' m))).
Proof. done. Qed.

(** Putting a value at a leaf changes that leaf. *)
Lemma put_leaf ks : forall j v0 v, wf j -> ks <> [] -> is_object v = false -> wf v -> (ks, v0) ∈ kleaves j ->
  exists j', put ks v j = Some j' /\ wf j' /\ kleaves j' = map (replace ks v) (kleaves j).
Proof.
  induction ks as [|k ks IH]; intros j v0 v Hw Hne Hv Hwv Hin; [done|].
  apply kleaves_step in Hin as (m & w & -> & Hkw & Hin). destruct (wf_fields m Hw) as [Hs Hf].
  destruct (sorted_split k w m Hs Hkw) as (m1 & m2 & -> & H1 & H2).
  destruct ks as [|k2 ks].
  - apply kleaves_root in Hin as [Hobj ->]. cbn [put]. eexists. split; [done|]. rewrite set_entry_at by done. split.
    + by eapply wf_entry.
    + apply kleaves_entry; [done|done|]. rewrite !kleaves_leaf by done. done.
  - assert (Hww : wf w) by (rewrite Forall_app, Forall_cons in Hf; cbn in Hf; naive_solver).
    destruct (IH w v0 v Hww ltac:(done) Hv Hwv Hin) as (w' & Hput & Hw' & Hk). rewrite put_more, field_at by done.
    change (default (JObj []) (Some w)) with w. rewrite Hput. cbn [mbind option_bind]. eexists. split; [done|]. rewrite set_entry_at by done. split.
    + eapply wf_entry; [exact Hw|done].
    + by apply kleaves_entry.
Qed.

(** A path leads to one leaf. *)
Lemma kleaves_unique ks : forall j x y, wf j -> (ks, x) ∈ kleaves j -> (ks, y) ∈ kleaves j -> x = y.
Proof.
  induction ks as [|k ks IH]; intros j x y Hw Hx Hy.
  - apply kleaves_root in Hx as [_ ->]. by apply kleaves_root in Hy as [_ ->].
  - apply kleaves_step in Hx as (m & w & -> & Hkw & Hx). apply kleaves_step in Hy as (m' & w' & [= <-] & Hkw' & Hy).
    destruct (wf_fields m Hw) as [Hs Hf].
    destruct (sorted_split k w m Hs Hkw) as (m1 & m2 & -> & H1 & H2).
    assert (w' = w) as ->.
    { apply elem_of_app in Hkw' as [Hm|Hm]; [|apply elem_of_cons in Hm as [[= ->]|Hm]]; [|done|].
      - rewrite Forall_forall in H1. apply H1 in Hm. by apply key_lt_irrefl in Hm.
      - rewrite Forall_forall in H2. apply H2 in Hm. by apply key_lt_irrefl in Hm. }
    apply (IH w); [|done..]. rewrite Forall_app, Forall_cons in Hf. cbn in Hf. naive_solver.
Qed.

(** *** Values of a path *)

Definition vals (p : string) (l : list (string * Json)) : list Json :=
  omap (fun e => if decide (e.1 = p) then Some e.2 else None) l.

Lemma collect_lookup l p : collect l !! p = last (vals p l).
Proof.
  unfold collect, vals. induction l as [|[k v] l IH] using rev_ind; [done|]. rewrite foldl_snoc, omap_app. cbn.
  destruct (decide (k = p)) as [->|Hn].
  - by rewrite lookup_insert_eq, last_snoc.
  - by rewrite lookup_insert_ne, app_nil_r.
Qed.

Lemma elem_of_vals p l x : x ∈ vals p l <-> (p, x) ∈ l.
Proof.
  unfold vals. rewrite list_elem_of_omap. split.
  - intros ([k v] & He & Hx). cbn in Hx. destruct (decide (k = p)) as [->|Hn]; [|done]. by injection Hx as ->.
  - intros H. exists (p, x). split; [done|]. cbn. by rewrite decide_True.
Qed.

Definition keys (j : Json) : list (list string) := map fst (kleaves j).

Lemma elem_of_keys ks j : ks ∈ keys j <-> exists x, (ks, x) ∈ kleaves j.
Proof.
  unfold keys. rewrite list_elem_of_fmap. split.
  - intros ([ks' x] & -> & H). by exists x.
  - intros [x H]. by exists (ks, x).
Qed.

Lemma keys_replace ks v (l : list (list string * Json)) : map fst (map (replace ks v) l) = map fst l.
Proof. rewrite map_map. apply map_ext. intros [k x]. unfold replace. cbn. by case_decide. Qed.

Lemma kleaves_values ks x j : (ks, x) ∈ kleaves j -> is_object x = false.
Proof.
  revert j. induction ks as [|k ks IH]; intros j H; [by apply kleaves_root in H as [? ->]|].
  apply kleaves_step in H as (m & w & _ & _ & H). by apply (IH w).
Qed.

Lemma kleaves_wf ks x j : wf j -> (ks, x) ∈ kleaves j -> wf x.
Proof.
  revert j. induction ks as [|k ks IH]; intros j Hw H; [by apply kleaves_root in H as [_ ->]|].
  apply kleaves_step in H as (m & w & -> & Hk & H). apply (IH w); [|done]. apply wf_fields in Hw as [_ Hf].
  rewrite Forall_forall in Hf. by apply (Hf (k, w)).
Qed.

(** A tree of a configuration: no path of the reload class has a key with a
    dot. *)
Definition settled (j : Json) : Prop := wf j /\ forall ks, ks ∈ keys j -> is_reload (path_of ks) = true -> plain ks.

Lemma reload_lookup j p x : settled j -> is_reload p = true ->
  collect (leaves j "") !! p = Some x <-> exists ks, path_of ks = p /\ (ks, x) ∈ kleaves j.
Proof.
  intros [Hw Hp] Hr. rewrite collect_lookup, leaves_kleaves.
  assert (Hin : forall y, y ∈ vals p (map (as_path "") (kleaves j)) <-> exists ks, path_of ks = p /\ (ks, y) ∈ kleaves j).
  { intros y. rewrite elem_of_vals, list_elem_of_fmap. split.
    - intros ([ks z] & [= -> ->] & H). by exists ks.
    - intros (ks & <- & H). by exists (ks, y). }
  assert (Huniq : forall y z, y ∈ vals p (map (as_path "") (kleaves j)) -> z ∈ vals p (map (as_path "") (kleaves j)) -> y = z).
  { intros y z (ks & E & Hy)%Hin (ks' & E' & Hz)%Hin.
    assert (Hk : forall k, path_of k = p -> k ∈ keys j -> k = split "." p).
    { intros k <- Hk. symmetry. by apply split_plain, Hp. }
    rewrite (Hk ks E) in Hy by (apply elem_of_keys; by exists y). rewrite (Hk ks' E') in Hz by (apply elem_of_keys; by exists z).
    by apply (kleaves_unique (split "." p) j). }
  split.
  - intros H. apply Hin. by apply last_Some_elem_of.
  - intros H%Hin. destruct (last (vals p _)) as [y|] eqn:El.
    + f_equal. apply Huniq; [by apply last_Some_elem_of|done].
    + apply last_None in El. rewrite El in H. by apply not_elem_of_nil in H.
Qed.

(** *** The overlay *)

Lemma restart_not_reload p : classify_key p = Restart -> is_reload p = false.
Proof. intros H. unfold is_reload. by rewrite H. Qed.

#[local] Opaque is_reload.

Definition reload_leaf (e : list string * Json) : bool := is_reload (path_of e.1).
Definition after (R l : list (list string * Json)) : list (list string * Json) :=
  foldl (fun l e => map (replace e.1 e.2) l) l R.

Lemma keys_after R l : map fst (after R l) = map fst l.
Proof. revert l. induction R as [|e R IH]; intros l; [done|].
  change (after (e :: R) l) with (after R (map (replace e.1 e.2) l)). by rewrite IH, keys_replace.
Qed.

Lemma elem_of_after R l e : e ∈ after R l -> e ∈ R \/ (e ∈ l /\ e.1 ∉ map fst R).
Proof.
  revert e. induction R as [|[ks v] R IH] using rev_ind; intros e H.
  - right. split; [exact H|apply not_elem_of_nil].
  - unfold after in H. rewrite foldl_snoc in H. apply list_elem_of_fmap in H as ([k x] & -> & H). unfold replace. cbn [fst].
    destruct (decide (k = ks)) as [->|Hn].
    + left. apply elem_of_app. right. by left.
    + apply IH in H as [H|[H1 H2]]; [left; apply elem_of_app; by left|]. right. split; [done|].
      rewrite map_app, elem_of_app. cbn. rewrite elem_of_cons. intros [?|[?|[]%not_elem_of_nil]]; done.
Qed.

Lemma overlay_leaves L : forall base, wf base ->
  (forall e, e ∈ L -> is_object e.2 = false /\ wf e.2) ->
  (forall e, e ∈ L -> reload_leaf e = true -> plain e.1 /\ e.1 ∈ keys base) ->
  exists B, overlay (map (as_path "") L) base = Some B /\ wf B /\ kleaves B = after (List.filter reload_leaf L) (kleaves base).
Proof.
  induction L as [|[ks v] L IH]; intros base Hw Hv Hr; [by exists base|]. cbn [map overlay as_path fst snd List.filter].
  change (is_reload (path_from "" ks)) with (reload_leaf (ks, v)). destruct (reload_leaf (ks, v)) eqn:E.
  - destruct (Hr (ks, v) ltac:(by left) E) as [Hp Hk]. cbn in Hp, Hk. apply elem_of_keys in Hk as [v0 Hk].
    change (path_from "" ks) with (path_of ks). rewrite split_plain by done.
    destruct (put_leaf ks base v0 v Hw (proj1 Hp) (proj1 (Hv (ks, v) ltac:(by left))) (proj2 (Hv (ks, v) ltac:(by left))) Hk) as (base' & Hput & Hw' & Hk').
    rewrite Hput. cbn [mbind option_bind]. destruct (IH base' Hw') as (B & HB & HwB & HkB).
    + intros e He. apply Hv. by right.
    + intros e He Hre. destruct (Hr e ltac:(by right) Hre) as [H1 H2]. split; [done|].
      unfold keys in *. by rewrite Hk', keys_replace.
    + exists B. split_and!; [done|done|]. rewrite HkB. cbn. by rewrite Hk'.
  - apply IH; [done|..]; intros e He; [apply Hv|apply Hr]; by right.
Qed.

Lemma vals_replace ks v p l : path_of ks <> p ->
  vals p (map (as_path "") (map (replace ks v) l)) = vals p (map (as_path "") l).
Proof.
  intros Hp. unfold vals. induction l as [|[k x] l IH]; [done|]. cbn [map omap list_omap]. rewrite IH.
  unfold replace. cbn [fst]. destruct (decide (k = ks)) as [->|Hn]; [|done]. cbn [as_path fst snd].
  change (path_from "" ks) with (path_of ks). by rewrite !decide_False by done.
Qed.

Lemma vals_after R p l : (forall e, e ∈ R -> path_of e.1 <> p) ->
  vals p (map (as_path "") (after R l)) = vals p (map (as_path "") l).
Proof.
  revert l. induction R as [|e R IH]; intros l H; [done|].
  change (after (e :: R) l) with (after R (map (replace e.1 e.2) l)). rewrite IH by (intros e' He'; apply H; by right).
  apply vals_replace, H. by left.
Qed.

(** The leaves of the overlay of one tree on another with the same keys of the
    reload class. *)
Lemma overlay_values E L :
  settled E -> settled L -> (forall ks, is_reload (path_of ks) = true -> ks ∈ keys E <-> ks ∈ keys L) ->
  exists B, overlay (leaves L "") E = Some B /\ settled B /\ keys B = keys E /\
    (forall e, e ∈ kleaves B -> e ∈ kleaves E \/ e ∈ kleaves L) /\
    forall p, collect (leaves B "") !! p
              = if is_reload p then collect (leaves L "") !! p else collect (leaves E "") !! p.
Proof.
  intros [HwE HpE] [HwL HpL] Hsame. rewrite (leaves_kleaves L).
  destruct (overlay_leaves (kleaves L) E HwE) as (B & HB & HwB & HkB).
  { intros [ks x] H. split; [by apply kleaves_values in H|by apply (kleaves_wf ks x L)]. }
  { intros [ks x] H Hr. assert (Hk : ks ∈ keys L) by (apply elem_of_keys; by exists x).
    split; [by apply HpL|]. by apply Hsame. }
  assert (Hkeys : keys B = keys E) by (unfold keys; by rewrite HkB, keys_after).
  assert (HsB : settled B) by (split; [done|intros ks Hk; apply HpE; by rewrite <- Hkeys]).
  assert (HR : forall e, e ∈ List.filter reload_leaf (kleaves L) <-> e ∈ kleaves L /\ reload_leaf e = true).
  { intros e. by rewrite !list_elem_of_In, List.filter_In. }
  exists B. split_and!; [done|exact HsB|done| |].
  { intros e. rewrite HkB. intros [H|[H _]]%elem_of_after; [right; by apply HR|by left]. }
  intros p. destruct (is_reload p) eqn:Hr.
  - assert (Hto : forall ks x, path_of ks = p -> (ks, x) ∈ kleaves B -> (ks, x) ∈ kleaves L).
    { intros ks x Ep H. assert (Hk : ks ∈ keys L).
      { apply Hsame; [by rewrite Ep|]. rewrite <- Hkeys. apply elem_of_keys. by exists x. }
      rewrite HkB in H. apply elem_of_after in H as [H|[_ H]]; [exact (proj1 (proj1 (HR _) H))|]. exfalso. apply H.
      apply elem_of_keys in Hk as [y Hy]. apply list_elem_of_fmap. exists (ks, y). split; [done|]. apply HR.
      split; [done|]. exact (eq_trans (f_equal is_reload Ep) Hr). }
    apply option_eq. intros x. rewrite (reload_lookup B) by done. rewrite <- leaves_kleaves, (reload_lookup L) by done. split.
    + intros (ks & Ep & H). exists ks. split; [done|by apply Hto].
    + intros (ks & Ep & H). exists ks. split; [done|].
      assert (Hk : ks ∈ keys B) by (rewrite Hkeys; apply Hsame; [by rewrite Ep|apply elem_of_keys; by exists x]).
      apply elem_of_keys in Hk as [y Hy]. by rewrite (kleaves_unique ks L x y HwL H (Hto ks y Ep Hy)).
  - rewrite !collect_lookup, !leaves_kleaves, HkB, vals_after; [done|]. intros e [_ He]%HR <-. unfold reload_leaf in He. congruence.
Qed.

(** ** What a reload leaves *)

(** The derived conversions: every tree is in order and its paths of the reload
    class are the same fields in every configuration; and a tree with the keys
    of one configuration whose leaves are each those of one or the other reads
    back as a configuration with that tree, since each field is read alone. *)
Class Serde {SbcConfig : Type} (to_value : SbcConfig -> Json) (from_value : Json -> option SbcConfig) : Prop := {
  tree_settled c : settled (to_value c);
  same_keys c c' ks : is_reload (path_of ks) = true -> ks ∈ keys (to_value c) -> ks ∈ keys (to_value c');
  mixed_read c c' j :
    settled j -> keys j = keys (to_value c) ->
    (forall e, e ∈ kleaves j -> e ∈ kleaves (to_value c) \/ e ∈ kleaves (to_value c')) ->
    exists c'', from_value j = Some c'' /\ kleaves (to_value c'') = kleaves j
}.

Section reload.
Context {SbcConfig : Type} (to_value : SbcConfig -> Json) (from_value : Json -> option SbcConfig).
Context {HS : Serde to_value from_value}.

Abbreviation config_leaves := (config_leaves to_value).
Abbreviation config_diff := (config_diff to_value).

Lemma overlaid effective loaded :
  exists c, overlay_reload_keys to_value from_value effective loaded = Some c /\
    forall p, config_leaves c !! p = if is_reload p then config_leaves loaded !! p else config_leaves effective !! p.
Proof.
  destruct (overlay_values (to_value effective) (to_value loaded)) as (B & HB & HsB & Hk & He & Hv).
  - apply tree_settled.
  - apply tree_settled.
  - intros ks Hr. split; by apply same_keys.
  - destruct (mixed_read effective loaded B HsB Hk He) as (c & Hc & Hl). exists c. split.
    + unfold overlay_reload_keys. rewrite HB. cbn [mbind option_bind]. by rewrite Hc.
    + intros p. unfold ConfigKeys.config_leaves. rewrite <- Hv. by rewrite !leaves_kleaves, Hl.
Qed.

Lemma elem_of_differing a b k : k ∈ differing a b <-> a !! k <> b !! k.
Proof.
  unfold differing. rewrite list_elem_of_In, List.filter_In, <- list_elem_of_In, merge_sort_Permutation, elem_of_elements, elem_of_union, !elem_of_dom.
  rewrite negb_true_iff, bool_decide_eq_false. split; [tauto|]. intros H. split; [|done].
  destruct (a !! k) eqn:Ea; [left; by eexists|]. destruct (b !! k) eqn:Eb; [right; by eexists|done].
Qed.

(** C31: what the reload record says after a reload. When it succeeded, the
    configuration recorded as effective has every key of the reload class from
    the file and every other key as it was recorded before; no key of the
    reload class is pending against it, the keys reported as needing a restart
    are those in which the file differs from what was recorded, and the
    configuration of the boot is not touched. When it failed, only its report
    is recorded. (What the handlers run with is set by the event loop beside
    this record.) *)
Theorem reload_settles (report : ReloadReport) (loaded : option SbcConfig) (r : RuntimeConfig SbcConfig) :
  exists r', record_reload to_value from_value report loaded r = Some r' /\
    last_reload (snapshot r') = Some report /\ boot (snapshot r') = boot (snapshot r) /\
    match ok report, loaded with
    | true, Some c =>
        last_loaded (snapshot r') = c /\
        (forall p, config_leaves (effective (snapshot r')) !! p
                   = if is_reload p then config_leaves c !! p else config_leaves (effective (snapshot r)) !! p) /\
        reload_pending (config_diff (effective (snapshot r')) c) = [] /\
        (forall p, p ∈ restart_required (config_diff (effective (snapshot r')) c)
                   <-> p ∈ restart_required (config_diff (effective (snapshot r)) c))
    | _, _ => effective (snapshot r') = effective (snapshot r) /\ last_loaded (snapshot r') = last_loaded (snapshot r)
    end.
Proof.
  unfold record_reload. destruct (ok report); [destruct loaded as [c|]|]; [|by eexists..].
  destruct (overlaid (effective (snapshot r)) c) as (e & He & Hv). rewrite He. cbn [mbind option_bind].
  eexists. split; [done|]. cbn [snapshot effective last_loaded boot last_reload]. split_and!; [done|done|done|exact Hv| |].
  - apply elem_of_nil_inv. intros p. cbn [reload_pending ConfigKeys.config_diff].
    rewrite list_elem_of_In, List.filter_In, <- list_elem_of_In, elem_of_differing, Hv. intros [H Hr]. rewrite Hr in H. done.
  - intros p. cbn [restart_required ConfigKeys.config_diff].
    rewrite !list_elem_of_In, !List.filter_In, <- !list_elem_of_In, !elem_of_differing, Hv.
    destruct (bool_decide (classify_key p = Restart)) eqn:Hc; [|naive_solver].
    apply bool_decide_eq_true in Hc. by rewrite (restart_not_reload p Hc).
Qed.
End reload.

(** ** Secrets do not show *)

Definition set_token (v : Json) : Json -> Json := at_fields ["management"; "api_auth_token"] (fun _ => v).
Definition set_user (u : string) (v : Json) : Json -> Json := at_fields ["security"; "sip_users"; u] (fun _ => v).
Definition set_password (n : nat) (v : Json) : Json -> Json :=
  at_fields ["trunks"] (fun t => match t with JArr l => JArr (alter (at_fields ["password"] (fun _ => v)) n l) | _ => t end).

(** Two trees that differ in a secret. *)
Inductive secretly : Json -> Json -> Prop :=
  | sec_token v v' j : wf j -> wf v -> wf v' -> v <> JNull -> v' <> JNull -> secretly (set_token v j) (set_token v' j)
  | sec_user u v v' j : wf j -> wf v -> wf v' -> secretly (set_user u v j) (set_user u v' j)
  | sec_trunk n v v' j : wf j -> wf v -> wf v' -> v <> JNull -> v' <> JNull -> secretly (set_password n v j) (set_password n v' j).

Lemma field_cases k m : StronglySorted key_lt (map fst m) ->
  match field k m with
  | Some v => exists m1 m2, m = m1 ++ (k, v) :: m2 /\ Forall (fun e : string * Json => key_lt e.1 k) m1 /\
                Forall (fun e : string * Json => key_lt k e.1) m2
  | None => Forall (fun e => e.1 <> k) m
  end.
Proof.
  intros Hs. destruct (field k m) as [v|] eqn:E.
  - apply sorted_split; [done|]. clear Hs. induction m as [|[k' v'] m IH]; [done|]. cbn in E.
    destruct (seqb k' k) eqn:Ek; [apply seqb_true in Ek as ->; injection E as ->; by left|right; by apply IH].
  - clear Hs. induction m as [|[k' v'] m IH]; [by constructor|]. cbn in E.
    destruct (seqb k' k) eqn:Ek; [done|]. constructor; [|by apply IH]. intros <-. cbn in Ek. by rewrite seqb_refl in Ek.
Qed.

(** A field that is changed, in place. *)
Lemma at_field_found k ks f v m1 m2 : Forall (fun e : string * Json => key_lt e.1 k) m1 ->
  at_fields (k :: ks) f (JObj (m1 ++ (k, v) :: m2)) = JObj (m1 ++ (k, at_fields ks f v) :: m2).
Proof. intros H. cbn [at_fields]. by rewrite field_at, set_entry_at by done. Qed.

Lemma at_fields_wf ks f : forall j, (forall x, wf x -> wf (f x)) -> wf j -> wf (at_fields ks f j).
Proof.
  induction ks as [|k ks IH]; intros j Hf Hw; [by apply Hf|]. destruct j as [| | | | |m]; try done.
  destruct (wf_fields m Hw) as [Hs Hm]. assert (Hc := field_cases k m Hs). cbn [at_fields].
  destruct (field k m) as [v|]; [|done]. destruct Hc as (m1 & m2 & -> & H1 & H2). rewrite set_entry_at by done.
  eapply wf_entry; [exact Hw|]. apply IH; [done|]. rewrite Forall_app, Forall_cons in Hm. cbn in Hm. naive_solver.
Qed.

(** Two changes of the field at one path are their composition. *)
Lemma at_fields_twice ks f g : forall j, wf j -> at_fields ks g (at_fields ks f j) = at_fields ks (fun x => g (f x)) j.
Proof.
  induction ks as [|k ks IH]; intros j Hw; [done|]. destruct j as [| | | | |m]; try done.
  destruct (wf_fields m Hw) as [Hs Hm]. assert (Hc := field_cases k m Hs).
  destruct (field k m) as [v|] eqn:E; [|cbn [at_fields]; by rewrite E, E].
  destruct Hc as (m1 & m2 & -> & H1 & H2). rewrite !at_field_found by done. rewrite IH; [done|].
  rewrite Forall_app, Forall_cons in Hm. cbn in Hm. naive_solver.
Qed.

Lemma at_fields_ext ks f g : forall j, wf j -> (forall x, wf x -> f x = g x) -> at_fields ks f j = at_fields ks g j.
Proof.
  induction ks as [|k ks IH]; intros j Hw H; [by apply H|]. destruct j as [| | | | |m]; try done.
  destruct (wf_fields m Hw) as [Hs Hm]. assert (Hc := field_cases k m Hs). cbn [at_fields].
  destruct (field k m) as [v|]; [|done]. destruct Hc as (m1 & m2 & -> & H1 & H2). rewrite !set_entry_at by done.
  rewrite (IH v); [done|..|done]. rewrite Forall_app, Forall_cons in Hm. cbn in Hm. naive_solver.
Qed.

(** Changing the value of a key that is present. *)
Definition upd (k : string) (x : Json) (e : string * Json) : string * Json := if seqb e.1 k then (k, x) else e.

Lemma set_entry_upd k x v m : StronglySorted key_lt (map fst m) -> field k m = Some v -> set_entry k x m = map (upd k x) m.
Proof.
  intros Hs E. assert (Hc := field_cases k m Hs). rewrite E in Hc. destruct Hc as (m1 & m2 & -> & H1 & H2).
  assert (Hid : forall l, Forall (fun e : string * Json => e.1 <> k) l -> map (upd k x) l = l).
  { intros l Hl. induction Hl as [|[k' w] l Hk Hl IH]; [done|]. cbn [map]. rewrite IH. unfold upd. cbn. by rewrite seqb_false. }
  rewrite set_entry_at, map_app by done. cbn [map].
  rewrite !Hid by (eapply Forall_impl; [eassumption|]; intros e He <-; by apply key_lt_irrefl in He).
  unfold upd. cbn. by rewrite seqb_refl.
Qed.

Lemma upd_keys k x m : map fst (map (upd k x) m) = map fst m.
Proof.
  rewrite map_map. apply map_ext. intros [k' w]. unfold upd. cbn. destruct (seqb k' k) eqn:E; [|done].
  by apply seqb_true in E as ->.
Qed.

Lemma field_upd_other k k' x m : k <> k' -> field k (map (upd k' x) m) = field k m.
Proof.
  intros Hk. induction m as [|[k0 v0] m IH]; [done|]. cbn [map]. unfold upd at 1. cbn [fst].
  destruct (seqb k0 k') eqn:E; cbn [field]; rewrite IH; [|done]. apply seqb_true in E as ->. by rewrite seqb_false by congruence.
Qed.

Lemma upd_swap k k' x y m : k <> k' -> map (upd k x) (map (upd k' y) m) = map (upd k' y) (map (upd k x) m).
Proof.
  intros Hk. rewrite !map_map. apply map_ext. intros [k0 v0]. unfold upd. cbn [fst].
  destruct (seqb k0 k') eqn:E', (seqb k0 k) eqn:E; cbn [fst]; rewrite ?E, ?E'; try done.
  - apply seqb_true in E, E'. congruence.
  - apply seqb_true in E' as ->. rewrite seqb_false by congruence. by rewrite ?seqb_refl.
  - apply seqb_true in E as ->. rewrite seqb_false by congruence. by rewrite ?seqb_refl.
Qed.

(** Changes of different fields do not disturb each other. *)
Lemma at_fields_swap k k' ks ks' f g j : wf j -> k <> k' ->
  at_fields (k :: ks) f (at_fields (k' :: ks') g j) = at_fields (k' :: ks') g (at_fields (k :: ks) f j).
Proof.
  intros Hw Hk. destruct j as [| | | | |m]; try done. destruct (wf_fields m Hw) as [Hs _].
  destruct (field k m) as [v|] eqn:E, (field k' m) as [v'|] eqn:E'; cbn [at_fields]; rewrite ?E, ?E'; cbn [at_fields];
    rewrite ?E, ?E'; try done.
  - rewrite (set_entry_upd k' _ v'), (set_entry_upd k _ v) by done.
    rewrite !field_upd_other, E, E' by congruence.
    rewrite (set_entry_upd k _ v), (set_entry_upd k' _ v');
      [by rewrite upd_swap|by rewrite upd_keys|by rewrite field_upd_other by congruence|by rewrite upd_keys|by rewrite field_upd_other].
  - rewrite (set_entry_upd k _ v) by done. by rewrite field_upd_other, E' by congruence.
  - rewrite (set_entry_upd k' _ v') by done. by rewrite field_upd_other, E by congruence.
Qed.

Lemma mask_set_wf x : wf x -> wf (mask_set x).
Proof. intros _. destruct x; constructor. Qed.

Lemma mask_users_wf x : wf x -> wf (mask_users x).
Proof.
  destruct x as [| | | | |m]; try done. intros [Hs _]%wf_fields. constructor; [by rewrite map_map|].
  apply List.Forall_map, Forall_forall. intros e _. constructor.
Qed.

Lemma mask_users_blind u v x : wf x -> mask_users (at_fields [u] (fun _ => v) x) = mask_users x.
Proof.
  destruct x as [| | | | |m]; try done. intros [Hs _]%wf_fields. cbn [at_fields]. destruct (field u m) as [w|] eqn:E; [|done].
  rewrite (set_entry_upd u _ w) by done. cbn. rewrite map_map. f_equal. apply map_ext. intros [k x]. unfold upd. cbn.
  destruct (seqb k u) eqn:Ek; [|done]. by apply seqb_true in Ek as ->.
Qed.

Lemma masked_set v : v <> JNull -> mask_set v = MASK.
Proof. by destruct v. Qed.

Lemma mask_trunks_blind n v v' x : v <> JNull -> v' <> JNull -> wf x ->
  let change v t := match t with JArr l => JArr (alter (at_fields ["password"] (fun _ => v)) n l) | _ => t end in
  mask_trunks (change v x) = mask_trunks (change v' x).
Proof.
  intros Hv Hv' Hw. destruct x as [| | | |l|]; try done. cbn [mask_trunks]. f_equal. assert (Hl : Forall wf l) by (by inversion Hw). clear Hw.
  revert n. induction Hl as [|t l Ht Hl IH]; intros n; [done|]. destruct n as [|n]; cbn [alter list_alter map]; [|f_equal; apply IH].
  f_equal. unfold mask_trunk. rewrite !at_fields_twice by done. apply at_fields_ext; [done|]. intros y _. by rewrite !masked_set.
Qed.

(** The configuration that is shown does not depend on its secrets: whatever
    token is set, and whatever the passwords of the users and of the trunks are,
    the masked tree is the same. *)
Theorem secrets_do_not_show j j' : secretly j j' -> masked_json j = masked_json j'.
Proof.
  assert (Hpass : forall n v, wf v -> forall x, wf x ->
    wf (match x with JArr l => JArr (alter (at_fields ["password"] (fun _ => v)) n l) | _ => x end)).
  { intros n v Hv x Hx. destruct x as [| | | |l|]; try done. constructor. assert (Hl : Forall wf l) by by inversion Hx.
    clear Hx. revert n. induction Hl as [|t l Ht Hl IH]; intros n; [by destruct n|].
    destruct n as [|n]; cbn [alter list_alter]; constructor; [by apply at_fields_wf|done|done|by apply IH]. }
  destruct 1 as [v v' j Hw Hv Hv' Hn Hn'|u v v' j Hw Hv Hv'|n v v' j Hw Hv Hv' Hn Hn']; unfold masked_json.
  - do 2 f_equal. unfold set_token. rewrite !at_fields_twice by done. apply at_fields_ext; [done|]. intros x _. by rewrite !masked_set.
  - f_equal. unfold set_user.
    assert (Hwt : wf (at_fields ["management"; "api_auth_token"] mask_set j)) by (apply at_fields_wf; [apply mask_set_wf|done]).
    rewrite !(at_fields_swap "management" "security" ["api_auth_token"] ["sip_users"; u]) by done.
    change (at_fields ["security"; "sip_users"; u] (fun _ => ?w) ?t)
      with (at_fields ["security"; "sip_users"] (at_fields [u] (fun _ => w)) t).
    rewrite !at_fields_twice by done. apply at_fields_ext; [done|]. intros x Hx. by rewrite !mask_users_blind.
  - unfold set_password.
    assert (Hwt : wf (at_fields ["management"; "api_auth_token"] mask_set j)) by (apply at_fields_wf; [apply mask_set_wf|done]).
    rewrite !(at_fields_swap "management" "trunks" ["api_auth_token"] []) by done.
    rewrite !(at_fields_swap "security" "trunks" ["sip_users"] []) by done.
    rewrite !at_fields_twice by (apply at_fields_wf; [apply mask_users_wf|done]).
    apply at_fields_ext; [apply at_fields_wf; [apply mask_users_wf|done]|]. intros x Hx. by apply mask_trunks_blind.
Qed.

(** A parse error never shows a line of the source. *)
Lemma redacted message l :
  let kept := List.filter (fun l => negb (seqb l ""))
                (List.filter (fun l => negb (framed_line l || quoted_source l))
                   (map (trim_end_by Ascii.is_space) (lines message))) in
  l ∈ kept -> framed_line l = false /\ quoted_source l = false.
Proof.
  cbv zeta. rewrite list_elem_of_In, !List.filter_In. intros [[_ H] _]. apply negb_true_iff, orb_false_iff in H. exact H.
Qed.

(** What the documentation says of some keys. *)
Lemma classes :
  map classify_key ["security.ban.max_failures"; "security.destinations.rules"; "security.destinations.enabled";
                    "security.user_limits.overrides"; "security.sip_users.alice"; "security.sip_realm";
                    "network.listeners"; "network.public_ipv6"; "management.api_port"; "trunks"; "database"]
  = [Reload; Seed; Reload; Seed; Seed; Restart; Restart; Unused; Restart; Seed; Restart].
Proof. by vm_compute. Qed.

(** A key that only begins like one of the table is of its class. *)
Lemma prefix_of_a_key : classify_key "security.rtp_timeout_ms" = Reload /\ classify_key "dids_archive" = Seed.
Proof. by vm_compute. Qed.

(** ** Instances *)

(** The value at the end of a path of fields. *)
Fixpoint get (ks : list string) (j : Json) : option Json :=
  match ks with
  | [] => Some j
  | k :: ks => match j with JObj m => field k m ≫= get ks | _ => None end
  end.

Lemma kleaves_get ks : forall j x, wf j -> (ks, x) ∈ kleaves j -> get ks j = Some x.
Proof.
  induction ks as [|k ks IH]; intros j x Hw H; [by apply kleaves_root in H as [_ ->]|].
  apply kleaves_step in H as (m & w & -> & Hk & H). destruct (wf_fields m Hw) as [Hs Hm].
  destruct (sorted_split k w m Hs Hk) as (m1 & m2 & -> & H1 & _). cbn [get]. rewrite field_at by done. cbn [mbind option_bind].
  apply IH; [|done]. rewrite Forall_app, Forall_cons in Hm. cbn in Hm. naive_solver.
Qed.

Module Witness.
(** A configuration of two fields. *)
Record Small := mkSmall { rtp_timeout : string; api_port : string }.

Definition PORT : list string := ["management"; "api_port"].
Definition TIMEOUT : list string := ["security"; "rtp_timeout"].

Definition small_value (c : Small) : Json :=
  JObj [("management", JObj [("api_port", JNum (api_port c))]); ("security", JObj [("rtp_timeout", JNum (rtp_timeout c))])].

Definition small_read (j : Json) : option Small :=
  match get PORT j, get TIMEOUT j with Some (JNum p), Some (JNum t) => Some (mkSmall t p) | _, _ => None end.

#[export] Instance small_serde : Serde small_value small_read.
Proof.
  constructor.
  - intros c. split; [repeat constructor; by vm_compute|]. intros ks Hk _. unfold keys in Hk. cbn in Hk.
    rewrite !elem_of_cons in Hk. destruct Hk as [-> | [-> | []%not_elem_of_nil]]; (split; [done|repeat constructor; done]).
  - intros c c' ks _. done.
  - intros c c' j [Hw _] Hk He. unfold keys in Hk. cbn in Hk.
    destruct (kleaves j) as [|[k1 a] [|[k2 b] [|? ?]]] eqn:E; try discriminate. injection Hk as -> ->.
    assert (Ha : get PORT j = Some a) by (apply kleaves_get; [done|]; rewrite E; by left).
    assert (Hb : get TIMEOUT j = Some b) by (apply kleaves_get; [done|]; rewrite E; right; by left).
    assert (Hna : exists p, a = JNum p).
    { destruct (He (PORT, a) ltac:(by left)) as [H|H]; cbn in H; rewrite !elem_of_cons in H;
        destruct H as [[= ->]|[[=]|[]%not_elem_of_nil]]; by eexists. }
    assert (Hnb : exists t, b = JNum t).
    { destruct (He (TIMEOUT, b) ltac:(right; by left)) as [H|H]; cbn in H; rewrite !elem_of_cons in H;
        destruct H as [[=]|[[= ->]|[]%not_elem_of_nil]]; by eexists. }
    destruct Hna as [p ->], Hnb as [t ->]. exists (mkSmall t p). unfold small_read. by rewrite Ha, Hb.
Qed.

Definition at_boot : RuntimeConfig Small := new 5 (mkSmall "90" "8080") None.
Definition from_file : Small := mkSmall "45" "1".
Definition report : ReloadReport := mkReport 10 Api true None ["security.rtp_timeout"] ["management.api_port"] true.

Lemma reload_settles_witness :
  exists r', record_reload small_value small_read report (Some from_file) at_boot = Some r' /\
    effective (snapshot r') = mkSmall "45" "8080" /\
    reload_pending (config_diff small_value (effective (snapshot r')) from_file) = [] /\
    restart_required (config_diff small_value (effective (snapshot r')) from_file) = ["management.api_port"].
Proof.
  destruct (reload_settles small_value small_read report (Some from_file) at_boot) as (r' & Hr & _ & _ & _ & _ & Hp & _).
  exists r'. assert (E : r' = mkRuntime (mkSnapshot (mkSmall "90" "8080") (mkSmall "45" "8080") from_file None 10 Api (Some report)) 1).
  { vm_compute in Hr. injection Hr as <-. reflexivity. }
  split; [exact Hr|]. split; [by rewrite E|]. split; [exact Hp|]. rewrite E. by vm_compute.
Defined.

Definition shown (token password : string) : Json :=
  JObj [("management", JObj [("api_auth_token", JStr token); ("api_port", JNum "8080")]);
        ("security", JObj [("sip_users", JObj [("alice", JStr password)])]);
        ("trunks", JArr [JObj [("name", JStr "a"); ("password", JStr password)]])].

Lemma secrets_do_not_show_witness :
  masked_json (shown "t1" "p1") = masked_json (shown "t2" "p1") /\
  masked_json (shown "t1" "p1") = masked_json (set_user "alice" (JStr "p2") (shown "t1" "p1")) /\
  masked_json (shown "t1" "p1")
  = JObj [("management", JObj [("api_auth_token", MASK); ("api_port", JNum "8080")]);
          ("security", JObj [("sip_users", JObj [("alice", MASK)])]);
          ("trunks", JArr [JObj [("name", JStr "a"); ("password", MASK)]])].
Proof.
  assert (Hw : wf (shown "t1" "p1")) by (repeat constructor; by vm_compute).
  split; [|split; [|by vm_compute]].
  - apply (secrets_do_not_show (shown "t1" "p1") (shown "t2" "p1")).
    exact (sec_token (JStr "t1") (JStr "t2") (shown "t1" "p1") Hw (wf_str _) (wf_str _) ltac:(discriminate) ltac:(discriminate)).
  - apply (secrets_do_not_show (shown "t1" "p1") (set_user "alice" (JStr "p2") (shown "t1" "p1"))).
    exact (sec_user "alice" (JStr "p1") (JStr "p2") (shown "t1" "p1") Hw (wf_str _) (wf_str _)).
Defined.
End Witness.
