(* ===== verification/Store.v ===== *)
(** * The configuration store (sbc-storage: models.rs, store.rs, migrations)

    The tables of the store with the constraints of their schema, and the
    operations on them. A table with a text key is a map from the key to the
    row; the times at which a row was written, which nothing reads, are left
    out. SQLite's assignment of a route's number is an interface. A failure of
    the database itself is not modelled here: a client that reacts to one is
    given the answer to its query. *)

From S2P Require Import Prelude Str.

(** ** Rows (models.rs) *)

Record UserRow := mkUserRow {
  u_username : string;
  ha1 : string;
  u_realm : string;
  u_display_name : option string;
  u_enabled : bool;
  u_max_concurrent_calls : option Z;
  u_max_calls_per_minute : option Z
}.

Record DidRow := mkDidRow { d_number : string; sip_user : string; d_display_name : option string; d_enabled : bool }.

Record TrunkRow := mkTrunkRow {
  t_name : string;
  t_enabled : bool;
  t_host : string;
  t_port : Z;
  t_transport : string;
  t_auth_required : bool;
  t_username : option string;
  t_password : option string;
  t_realm : option string;
  t_register_with_trunk : bool;
  t_registration_interval : Z;
  t_prefix_patterns : string;
  t_priority : Z;
  t_weight : Z;
  t_cost_per_minute : Z;
  t_number_format : string;
  t_country_code : option string;
  t_national_prefix : option string;
  t_caller_number_format : option string;
  t_caller_number_override : option string;
  t_caller_display_name : option string;
  t_allowed_codecs : string;
  t_max_concurrent_calls : Z;
  t_tls_sni : option string;
  t_tls_ca_cert : option string;
  t_tls_verify : bool;
  t_tls_client_cert : option string;
  t_tls_client_key : option string
}.

Record RouteRow := mkRouteRow {
  r_id : Z;
  r_prefix : string;
  r_trunk_name : string;
  r_priority : Z;
  r_enabled : bool;
  r_description : option string
}.

Record AclRuleRow := mkAclRow {
  a_id : string;
  a_cidr : string;
  a_action : string;
  a_direction : string;
  a_priority : Z;
  a_enabled : bool;
  a_comment : option string
}.

Record DestinationRuleRow := mkDestRow {
  x_id : string;
  x_prefix : string;
  x_action : string;
  x_user : option string;
  x_description : string;
  x_enabled : bool
}.

#[export] Instance UserRow_eq_dec : EqDecision UserRow.
Proof. solve_decision. Defined.
#[export] Instance DidRow_eq_dec : EqDecision DidRow.
Proof. solve_decision. Defined.
#[export] Instance RouteRow_eq_dec : EqDecision RouteRow.
Proof. solve_decision. Defined.
#[export] Instance AclRuleRow_eq_dec : EqDecision AclRuleRow.
Proof. solve_decision. Defined.
#[export] Instance DestinationRuleRow_eq_dec : EqDecision DestinationRuleRow.
Proof. solve_decision. Defined.

Definition ACL_DEFAULT_ACTION : string := "acl_default_action".
Definition USER_LIMITS_DEFAULT_CONCURRENT : string := "user_limits.default_max_concurrent_calls".
Definition USER_LIMITS_DEFAULT_CPM : string := "user_limits.default_max_calls_per_minute".
Definition DESTINATION_RULES_SEEDED_AT : string := "destination_rules_seeded_at".
Definition USER_LIMITS_SEEDED_AT : string := "user_limits_seeded_at".

(** ** Errors (error.rs) *)

Inductive Violation := ForeignKey | Unique | CheckFailed.

Inductive StoreError :=
  | Database (msg : string)
  | Constraint (table key : string) (detail : Violation).

#[export] Instance Violation_eq_dec : EqDecision Violation.
Proof. solve_decision. Defined.
#[export] Instance StoreError_eq_dec : EqDecision StoreError.
Proof. solve_decision. Defined.

Definition constraint (d : Violation) : StoreError := Constraint "" "" d.

(** [at]: the row an error is about. *)
Definition at_row (table key : string) (e : StoreError) : StoreError :=
  match e with Constraint _ _ d => Constraint table key d | e => e end.

(** ** The tables *)

Record Db := mkDb {
  users : gmap string UserRow;
  dids : gmap string DidRow;
  trunks : gmap string TrunkRow;
  routes : gmap Z RouteRow;
  route_seq : Z;
  acl_rules : gmap string AclRuleRow;
  destination_rules : gmap string DestinationRuleRow;
  settings : gmap string string
}.

#[export] Instance eta_db : Eta Db := fun d =>
  mkDb (users d) (dids d) (trunks d) (routes d) (route_seq d) (acl_rules d) (destination_rules d) (settings d).

Definition empty_db : Db := mkDb ∅ ∅ ∅ ∅ 0 ∅ ∅ ∅.

(** The number of a new row of a table with [AUTOINCREMENT]: above every
    number the table ever had. *)
Class RowIds := { next_id : Z -> Z; next_id_gt : forall seq, seq < next_id seq }.

(** Operations: an answer, and the tables after it. *)
Abbreviation Tx A := (Db -> result StoreError A * Db).

Definition tret {A} (a : A) : Tx A := fun db => (Ok a, db).
Definition traise {A} (e : StoreError) : Tx A := fun db => (Err e, db).
Definition tbind {A B} (m : Tx A) (k : A -> Tx B) : Tx B := fun db =>
  match m db with (Ok a, db) => k a db | (Err e, db) => (Err e, db) end.
Definition tread {A} (f : Db -> A) : Tx A := fun db => (Ok (f db), db).
Definition map_err {A} (f : StoreError -> StoreError) (m : Tx A) : Tx A := fun db =>
  match m db with (Ok a, db) => (Ok a, db) | (Err e, db) => (Err (f e), db) end.

Notation "'do!' x ':=' m 'in' k" := (tbind m (fun x => k))
  (at level 10, x pattern, m at level 100, k at level 200) : sbc_scope.

(** A loop over rows. *)
Fixpoint each {A B} (f : A -> B -> Tx B) (l : list A) (b : B) : Tx B :=
  match l with [] => tret b | x :: l => do! b := f x b in each f l b end.

(** ** Orders *)

(** The values of a map, in the order of [cmp]. *)
Section order_by.
Context {A : Type} (cmp : A -> A -> comparison).
Definition not_after (a b : A) : Prop := cmp a b <> Gt.
#[export] Instance not_after_dec : RelDecision not_after.
Proof. intros a b. unfold not_after. destruct (cmp a b); [left|left|right]; congruence. Defined.
Definition order_by (l : list A) : list A := merge_sort not_after l.
End order_by.

Definition on {A B} (f : A -> B) (cmp : B -> B -> comparison) (a b : A) : comparison := cmp (f a) (f b).
Definition then_by {A} (c d : A -> A -> comparison) (a b : A) : comparison :=
  match c a b with Eq => d a b | r => r end.
(** [NULL] comes first. *)
Definition opt_compare {A} (c : A -> A -> comparison) (a b : option A) : comparison :=
  match a, b with None, None => Eq | None, Some _ => Lt | Some _, None => Gt | Some x, Some y => c x y end.

Definition rows {A} (m : gmap string A) : list A := (map_to_list m).*2.

(** ** Users *)

Definition list_users (db : Db) : list UserRow := order_by (on u_username String.compare) (rows (users db)).
Definition get_user (n : string) (db : Db) : option UserRow := users db !! n.

Definition upsert_user_on (row : UserRow) : Tx bool := fun db =>
  (Ok (negb (bool_decide (is_Some (users db !! u_username row)))), db <| users := <[u_username row := row]> (users db) |>).

Definition delete_user (n : string) : Tx bool := fun db =>
  (Ok (bool_decide (is_Some (users db !! n))), db <| users := delete n (users db) |>).

Definition with_limits (c m : option Z) (u : UserRow) : UserRow :=
  mkUserRow (u_username u) (ha1 u) (u_realm u) (u_display_name u) (u_enabled u) c m.

Definition set_user_limits (n : string) (max_concurrent_calls max_calls_per_minute : option Z) : Tx bool := fun db =>
  (Ok (bool_decide (is_Some (users db !! n))),
   db <| users := alter (with_limits max_concurrent_calls max_calls_per_minute) n (users db) |>).

(** ** DIDs *)

Definition list_dids (db : Db) : list DidRow := order_by (on d_number String.compare) (rows (dids db)).
Definition get_did (n : string) (db : Db) : option DidRow := dids db !! n.
Definition upsert_did_on (row : DidRow) : Tx bool := fun db =>
  (Ok (negb (bool_decide (is_Some (dids db !! d_number row)))), db <| dids := <[d_number row := row]> (dids db) |>).
Definition delete_did (n : string) : Tx bool := fun db =>
  (Ok (bool_decide (is_Some (dids db !! n))), db <| dids := delete n (dids db) |>).

(** ** Trunks *)

Definition list_trunks (db : Db) : list TrunkRow := order_by (on t_name String.compare) (rows (trunks db)).
Definition get_trunk (n : string) (db : Db) : option TrunkRow := trunks db !! n.
Definition upsert_trunk_on (row : TrunkRow) : Tx bool := fun db =>
  (Ok (negb (bool_decide (is_Some (trunks db !! t_name row)))), db <| trunks := <[t_name row := row]> (trunks db) |>).

(** The routes of a deleted trunk go with it. *)
Definition delete_trunk (n : string) : Tx bool := fun db =>
  (Ok (bool_decide (is_Some (trunks db !! n))),
   db <| trunks := delete n (trunks db) |> <| routes := filter (fun e => r_trunk_name e.2 <> n) (routes db) |>).

(** ** Routes *)

Definition list_routes (db : Db) : list RouteRow :=
  order_by (then_by (on r_priority Z.compare) (on r_id Z.compare)) (map_to_list (routes db)).*2.
Definition get_route (i : Z) (db : Db) : option RouteRow := routes db !! i.

(** The route of a prefix and a trunk. *)
Definition natural_key (r : RouteRow) : string * string := (r_prefix r, r_trunk_name r).
Definition find_route (k : string * string) (db : Db) : option RouteRow :=
  List.find (fun r => bool_decide (natural_key r = k)) (map_to_list (routes db)).*2.

Definition with_id (i : Z) (r : RouteRow) : RouteRow :=
  mkRouteRow i (r_prefix r) (r_trunk_name r) (r_priority r) (r_enabled r) (r_description r).

Section routes.
Context {IDS : RowIds}.

Definition insert_route (row : RouteRow) : Tx Z := fun db =>
  if bool_decide (is_Some (find_route (natural_key row) db)) then (Err (constraint Unique), db)
  else if negb (bool_decide (is_Some (trunks db !! r_trunk_name row))) then (Err (constraint ForeignKey), db)
  else let i := next_id (route_seq db) in
       (Ok i, db <| routes := <[i := with_id i row]> (routes db) |> <| route_seq := i |>).

Definition update_route (row : RouteRow) : Tx bool := fun db =>
  match routes db !! r_id row with
  | None => (Ok false, db)
  | Some _ =>
      match find_route (natural_key row) db with
      | Some other => if bool_decide (r_id other = r_id row) then (Ok true, db <| routes := <[r_id row := row]> (routes db) |>)
                      else (Err (constraint Unique), db)
      | None => if bool_decide (is_Some (trunks db !! r_trunk_name row))
                then (Ok true, db <| routes := <[r_id row := row]> (routes db) |>)
                else (Err (constraint ForeignKey), db)
      end
  end.

Definition upsert_route_on (row : RouteRow) : Tx bool := fun db =>
  match find_route (natural_key row) db with
  | Some old => (Ok false, db <| routes := <[r_id old := with_id (r_id old) row]> (routes db) |>)
  | None => (do! _ := insert_route row in tret true) db
  end.
End routes.

Definition delete_route (i : Z) : Tx bool := fun db =>
  (Ok (bool_decide (is_Some (routes db !! i))), db <| routes := delete i (routes db) |>).

(** ** Rules *)

Definition known_action (s : string) : bool := seqb s "allow" || seqb s "deny".

Definition list_acl_rules (db : Db) : list AclRuleRow :=
  order_by (then_by (on a_priority Z.compare) (on a_id String.compare)) (rows (acl_rules db)).

Definition upsert_acl_rule_on (row : AclRuleRow) : Tx bool := fun db =>
  if known_action (a_action row) then
    (Ok (negb (bool_decide (is_Some (acl_rules db !! a_id row)))), db <| acl_rules := <[a_id row := row]> (acl_rules db) |>)
  else (Err (constraint CheckFailed), db).
Definition delete_acl_rule (i : string) : Tx bool := fun db =>
  (Ok (bool_decide (is_Some (acl_rules db !! i))), db <| acl_rules := delete i (acl_rules db) |>).

Definition list_destination_rules (db : Db) : list DestinationRuleRow :=
  order_by (then_by (on x_user (opt_compare String.compare)) (then_by (on x_prefix String.compare) (on x_id String.compare)))
    (rows (destination_rules db)).

(** [INSERT OR IGNORE] *)
Definition insert_destination_rule (row : DestinationRuleRow) : Tx bool := fun db =>
  if bool_decide (is_Some (destination_rules db !! x_id row)) || negb (known_action (x_action row)) then (Ok false, db)
  else (Ok true, db <| destination_rules := <[x_id row := row]> (destination_rules db) |>).

Definition upsert_destination_rule_on (row : DestinationRuleRow) : Tx bool := fun db =>
  if known_action (x_action row) then
    (Ok (negb (bool_decide (is_Some (destination_rules db !! x_id row)))),
     db <| destination_rules := <[x_id row := row]> (destination_rules db) |>)
  else (Err (constraint CheckFailed), db).
Definition delete_destination_rule (i : string) : Tx bool := fun db =>
  (Ok (bool_decide (is_Some (destination_rules db !! i))), db <| destination_rules := delete i (destination_rules db) |>).

(** ** Settings *)

Definition get_setting_on (k : string) (db : Db) : option string := settings db !! k.
Definition set_setting_on (k v : string) : Tx unit := fun db => (Ok tt, db <| settings := <[k := v]> (settings db) |>).
Definition delete_setting_on (k : string) : Tx bool := fun db =>
  (Ok (bool_decide (is_Some (settings db !! k))), db <| settings := delete k (settings db) |>).

Inductive Table := Users | Dids | Trunks | Routes | AclRules | DestinationRules.

Definition table_is_empty (t : Table) (db : Db) : bool :=
  match t with
  | Users => bool_decide (users db = ∅)
  | Dids => bool_decide (dids db = ∅)
  | Trunks => bool_decide (trunks db = ∅)
  | Routes => bool_decide (routes db = ∅)
  | AclRules => bool_decide (acl_rules db = ∅)
  | DestinationRules => bool_decide (destination_rules db = ∅)
  end.

(** ** Rows put into a map *)

Definition put_all {K R} `{Countable K} (key : R -> K) (l : list R) (m : gmap K R) : gmap K R :=
  fold_left (fun m r => <[key r := r]> m) l m.

Section put_all.
Context {K R : Type} `{Countable K} (key : R -> K).

Lemma put_all_snoc l r m : put_all key (l ++ [r]) m = <[key r := r]> (put_all key l m).
Proof. unfold put_all. by rewrite fold_left_app. Qed.

Lemma put_all_union l m : put_all key l m = put_all key l ∅ ∪ m.
Proof.
  induction l as [|r l IH] using rev_ind; [unfold put_all; cbn; by rewrite map_empty_union|]. by rewrite !put_all_snoc, IH, insert_union_l.
Qed.

Lemma put_all_dom l k : is_Some (put_all key l ∅ !! k) <-> k ∈ map key l.
Proof.
  induction l as [|r l IH] using rev_ind; [unfold put_all; cbn; rewrite lookup_empty; split; [by intros []|by intros ?%elem_of_nil]|].
  rewrite put_all_snoc, map_app, elem_of_app, <- IH. cbn [map]. rewrite list_elem_of_singleton.
  destruct (decide (key r = k)) as [->|Hne]; [rewrite lookup_insert_eq; naive_solver|].
  rewrite lookup_insert_ne by done. naive_solver.
Qed.

(** Rows that are all written over leave no trace. *)
Lemma put_all_over l (m : gmap K R) : (forall k, is_Some (m !! k) -> k ∈ map key l) -> put_all key l m = put_all key l ∅.
Proof.
  intros Hm. rewrite put_all_union. apply map_eq. intros k. rewrite lookup_union.
  destruct (put_all key l ∅ !! k) eqn:E; [by destruct (m !! k)|]. destruct (m !! k) eqn:Ek; [|done].
  assert (k ∈ map key l) as [? ?]%put_all_dom by eauto. congruence.
Qed.

(** Rows under their own keys rebuild their map. *)
Lemma put_all_lookup l k r : put_all key l ∅ !! k = Some r -> r ∈ l /\ key r = k.
Proof.
  induction l as [|x l IH] using rev_ind; [unfold put_all; cbn; by rewrite lookup_empty|]. rewrite put_all_snoc.
  intros [[<- <-]|[? Hr]]%lookup_insert_Some; [set_solver|]. destruct (IH Hr). set_solver.
Qed.

Lemma put_all_rows (m : gmap K R) l : (forall r, r ∈ l <-> m !! key r = Some r) -> (forall k r, m !! k = Some r -> key r = k) ->
  put_all key l ∅ = m.
Proof.
  intros Hl Hm. apply map_eq. intros k. destruct (put_all key l ∅ !! k) as [r|] eqn:E.
  - apply put_all_lookup in E as [Hr <-]. symmetry. by apply Hl.
  - destruct (m !! k) as [r|] eqn:Ek; [|done]. assert (key r = k) as Hk by by apply Hm.
    assert (k ∈ map key l) as [? ?]%put_all_dom; [|congruence]. rewrite <- Hk. apply list_elem_of_fmap. exists r. split; [done|].
    apply Hl. by rewrite Hk.
Qed.
End put_all.

Lemma elem_of_order_by {A} (cmp : A -> A -> comparison) l x : x ∈ order_by cmp l <-> x ∈ l.
Proof. unfold order_by. by rewrite merge_sort_Permutation. Qed.

Lemma elem_of_rows {A} (m : gmap string A) x : x ∈ rows m <-> exists k, m !! k = Some x.
Proof.
  unfold rows. rewrite list_elem_of_fmap. split.
  - intros ([k y] & -> & Hy). exists k. by apply elem_of_map_to_list.
  - intros [k Hk]. exists (k, x). split; [done|]. by apply elem_of_map_to_list.
Qed.

(** Reading a keyed table in any order gives its rows, and its keys. *)
Lemma elem_of_keyed {A} (key : A -> string) (m : gmap string A) (r : A) : (forall k r, m !! k = Some r -> key r = k) ->
  r ∈ rows m <-> m !! key r = Some r.
Proof. intros Hm. rewrite elem_of_rows. split; [|by eauto]. intros [k Hk]. by rewrite (Hm k r Hk). Qed.

Lemma elem_of_keyed_keys {A} (key : A -> string) (m : gmap string A) k : (forall k r, m !! k = Some r -> key r = k) ->
  k ∈ map key (rows m) <-> is_Some (m !! k).
Proof.
  intros Hm. rewrite list_elem_of_fmap. setoid_rewrite elem_of_rows. split.
  - intros (r & -> & k' & Hk). rewrite (Hm k' r Hk). by eexists.
  - intros [r Hr]. exists r. split; [by rewrite (Hm k r Hr)|by exists k].
Qed.

Lemma put_all_found {K R} `{Countable K} (key : R -> K) l r : r ∈ l -> (forall x y, x ∈ l -> y ∈ l -> key x = key y -> x = y) ->
  put_all key l ∅ !! key r = Some r.
Proof.
  intros Hr Hinj. assert (is_Some (put_all key l ∅ !! key r)) as [x Hx] by (apply put_all_dom, list_elem_of_fmap; eauto).
  rewrite Hx. f_equal. apply put_all_lookup in Hx as [Hx Hk]. by apply Hinj.
Qed.

Lemma put_all_list {R} (key : R -> string) (m : gmap string R) cmp : (forall k r, m !! k = Some r -> key r = k) ->
  put_all key (order_by cmp (rows m)) ∅ = m.
Proof. intros Hm. apply put_all_rows; [|done]. intros r. rewrite elem_of_order_by. by apply elem_of_keyed. Qed.

(** Values of rows, collected by key. *)
Lemma put_values {K R B} `{Countable K} (key : R -> K) (f : R -> B) l :
  fold_left (fun m r => <[key r := f r]> m) l ∅ = f <$> put_all key l ∅.
Proof.
  induction l as [|r l IH] using rev_ind; [unfold put_all; cbn; by rewrite fmap_empty|].
  by rewrite fold_left_app, put_all_snoc, fmap_insert, <- IH.
Qed.

(** The rows of a keyed table that pass a test, collected. *)
Lemma put_filtered {R} (key : R -> string) (p : R -> bool) (m : gmap string R) cmp k : (forall k r, m !! k = Some r -> key r = k) ->
  put_all key (List.filter p (order_by cmp (rows m))) ∅ !! k = (m !! k ≫= fun r => if p r then Some r else None).
Proof.
  intros Hm. assert (Hin : forall r, r ∈ List.filter p (order_by cmp (rows m)) <-> m !! key r = Some r /\ p r = true).
  { intros r. rewrite elem_of_filter_bool, elem_of_order_by. by rewrite (elem_of_keyed key m r Hm). }
  apply option_eq. intros r. split.
  - intros [Hr <-]%put_all_lookup. apply Hin in Hr as [Er Ep]. rewrite Er. cbn. by rewrite Ep.
  - destruct (m !! k) as [x|] eqn:E; [|done]. cbn. destruct (p x) eqn:Ep; [|done]. intros [= ->]. rewrite <- (Hm k r E).
    apply put_all_found; [apply Hin; by rewrite (Hm k r E)|]. intros x y [Hx _]%Hin [Hy _]%Hin Exy. congruence.
Qed.

Lemma keyed_nodup {R} (key : R -> string) (m : gmap string R) cmp : (forall k r, m !! k = Some r -> key r = k) ->
  NoDup (map key (order_by cmp (rows m))).
Proof.
  intros Hm. unfold order_by. rewrite merge_sort_Permutation. unfold rows. rewrite map_map.
  rewrite (map_ext_in (fun e => key e.2) fst); [apply NoDup_fst_map_to_list|]. intros [k r] Hin.
  apply list_elem_of_In, elem_of_map_to_list in Hin. by apply Hm.
Qed.

(** ** What the schema promises *)

Record schema (db : Db) : Prop := {
  users_keyed : forall k r, users db !! k = Some r -> u_username r = k;
  dids_keyed : forall k r, dids db !! k = Some r -> d_number r = k;
  trunks_keyed : forall k r, trunks db !! k = Some r -> t_name r = k;
  routes_keyed : forall i r, routes db !! i = Some r -> r_id r = i /\ i <= route_seq db;
  routes_distinct : forall i j r s, routes db !! i = Some r -> routes db !! j = Some s -> natural_key r = natural_key s -> i = j;
  routes_to_trunks : forall i r, routes db !! i = Some r -> is_Some (trunks db !! r_trunk_name r);
  acl_keyed : forall k r, acl_rules db !! k = Some r -> a_id r = k /\ known_action (a_action r) = true;
  destinations_keyed : forall k r, destination_rules db !! k = Some r -> x_id r = k /\ known_action (x_action r) = true
}.

Lemma empty_schema : schema empty_db.
Proof. split; unfold empty_db; cbn; intros *; by rewrite lookup_empty. Qed.

(** An operation that keeps an invariant, whatever it answers. *)
Definition keeps {A} (I : Db -> Prop) (m : Tx A) : Prop := forall db, I db -> I (m db).2.

Lemma tkeeps_ret {A} I (a : A) : keeps I (tret a).
Proof. by intros db. Qed.
Lemma keeps_read {A} I (f : Db -> A) : keeps I (tread f).
Proof. by intros db. Qed.
Lemma tkeeps_bind {A B} I (m : Tx A) (k : A -> Tx B) : keeps I m -> (forall a, keeps I (k a)) -> keeps I (tbind m k).
Proof.
  intros Hm Hk db Hdb. unfold tbind. specialize (Hm db Hdb). destruct (m db) as [[a|e] db']; [|done]. by apply Hk.
Qed.
Lemma keeps_map_err {A} I f (m : Tx A) : keeps I m -> keeps I (map_err f m).
Proof. intros Hm db Hdb. unfold map_err. specialize (Hm db Hdb). by destruct (m db) as [[a|e] db']. Qed.
Lemma keeps_each {A B} I (f : A -> B -> Tx B) l b : (forall x b, keeps I (f x b)) -> keeps I (each f l b).
Proof. intros Hf. revert b. induction l as [|x l IH]; intros b; [apply tkeeps_ret|]. by apply tkeeps_bind. Qed.

Create HintDb store.
#[export] Hint Resolve tkeeps_ret keeps_read tkeeps_bind keeps_map_err keeps_each : store.

(** *** Routes by their natural key *)

Lemma find_route_spec k db r : schema db ->
  find_route k db = Some r <-> routes db !! r_id r = Some r /\ natural_key r = k.
Proof.
  intros Hs. unfold find_route. split.
  - intros [Hin Hk]%List.find_some. apply bool_decide_eq_true in Hk. split; [|done].
    apply list_elem_of_In, list_elem_of_fmap in Hin as ([i r'] & -> & Hin). apply elem_of_map_to_list in Hin. cbn.
    destruct (routes_keyed db Hs i r' Hin) as [-> _]. done.
  - intros [Hr Hk]. destruct (List.find _ _) as [s|] eqn:Hf.
    + apply List.find_some in Hf as [Hin Hk']. apply bool_decide_eq_true in Hk'.
      apply list_elem_of_In, list_elem_of_fmap in Hin as ([i s'] & -> & Hin). apply elem_of_map_to_list in Hin. cbn in Hk' |- *.
      assert (i = r_id r) as -> by (eapply (routes_distinct db Hs); [done..|congruence]). congruence.
    + eapply List.find_none in Hf; [by rewrite bool_decide_eq_true_2 in Hf|].
      apply list_elem_of_In, list_elem_of_fmap. exists (r_id r, r). split; [done|]. by apply elem_of_map_to_list.
Qed.

Lemma find_route_none k db : find_route k db = None <-> forall i r, routes db !! i = Some r -> natural_key r <> k.
Proof.
  unfold find_route. split.
  - intros Hf i r Hr Hk. eapply List.find_none in Hf; [by rewrite (bool_decide_eq_true_2 _ Hk) in Hf|].
    apply list_elem_of_In, list_elem_of_fmap. exists (i, r). split; [done|]. by apply elem_of_map_to_list.
  - intros H. destruct (List.find _ _) as [s|] eqn:Hf; [|done]. apply List.find_some in Hf as [Hin Hk].
    apply list_elem_of_In, list_elem_of_fmap in Hin as ([i s'] & -> & Hin). apply elem_of_map_to_list in Hin.
    apply bool_decide_eq_true in Hk. by destruct (H i s').
Qed.

(** *** Every operation keeps the schema *)

Ltac keyed :=
  repeat match goal with
  | H : <[?k := _]> _ !! ?k' = Some _ |- _ =>
      apply lookup_insert_Some in H as [[? ?]|[? ?]]; subst
  | H : delete _ _ !! _ = Some _ |- _ => apply lookup_delete_Some in H as [? ?]
  end.

Lemma users_schema f db : schema db -> (forall k r, f !! k = Some r -> u_username r = k) -> schema (db <| users := f |>).
Proof. intros [] H. by split. Qed.
Lemma dids_schema f db : schema db -> (forall k r, f !! k = Some r -> d_number r = k) -> schema (db <| dids := f |>).
Proof. intros [] H. by split. Qed.
Lemma acl_schema f db : schema db -> (forall k r, f !! k = Some r -> a_id r = k /\ known_action (a_action r) = true) ->
  schema (db <| acl_rules := f |>).
Proof. intros [] H. by split. Qed.
Lemma destinations_schema f db : schema db ->
  (forall k r, f !! k = Some r -> x_id r = k /\ known_action (x_action r) = true) -> schema (db <| destination_rules := f |>).
Proof. intros [] H. by split. Qed.
Lemma settings_schema f db : schema db -> schema (db <| settings := f |>).
Proof. intros []. by split. Qed.

Lemma upsert_user_schema row : keeps schema (upsert_user_on row).
Proof. intros db Hs. apply users_schema; [done|]. intros k r Hr. keyed; [done|]. by eapply users_keyed. Qed.
Lemma delete_user_schema n : keeps schema (delete_user n).
Proof. intros db Hs. apply users_schema; [done|]. intros k r Hr. keyed. by eapply users_keyed. Qed.
Lemma set_user_limits_schema n c m : keeps schema (set_user_limits n c m).
Proof.
  intros db Hs. apply users_schema; [done|]. intros k r Hr.
  apply lookup_alter_Some in Hr as [(<- & x & Hx & ->)|[? Hr]]; [|by eapply users_keyed]. exact (users_keyed db Hs n x Hx).
Qed.
Lemma upsert_did_schema row : keeps schema (upsert_did_on row).
Proof. intros db Hs. apply dids_schema; [done|]. intros k r Hr. keyed; [done|]. by eapply dids_keyed. Qed.
Lemma delete_did_schema n : keeps schema (delete_did n).
Proof. intros db Hs. apply dids_schema; [done|]. intros k r Hr. keyed. by eapply dids_keyed. Qed.

Lemma upsert_trunk_schema row : keeps schema (upsert_trunk_on row).
Proof.
  intros db []. split; try done; cbn.
  - intros k r Hr. keyed; [done|eauto].
  - intros i r Hr. destruct (decide (r_trunk_name r = t_name row)) as [->|]; [by rewrite lookup_insert_eq|].
    rewrite lookup_insert_ne by done. eauto.
Qed.

Lemma delete_trunk_schema n : keeps schema (delete_trunk n).
Proof.
  intros db []. split; try done; cbn.
  - intros k r Hr. keyed. eauto.
  - intros i r [Hr _]%map_lookup_filter_Some. eauto.
  - intros i j r s [Hr _]%map_lookup_filter_Some [Hq _]%map_lookup_filter_Some. eauto.
  - intros i r [Hr Hn]%map_lookup_filter_Some. cbn in Hn. rewrite lookup_delete_ne by done. eauto.
Qed.

Lemma put_route_schema i row db :
  schema db -> i <= route_seq db -> (forall j r, routes db !! j = Some r -> natural_key r = natural_key row -> j = i) ->
  is_Some (trunks db !! r_trunk_name row) -> schema (db <| routes := <[i := with_id i row]> (routes db) |>).
Proof.
  intros [] Hi Hk Ht. split; try done; cbn.
  - intros j r Hr. keyed; [done|eauto].
  - intros j j' r s Hr Hq E. keyed; try done.
    + by apply (Hk j r).
    + symmetry. by apply (Hk j' s).
    + eauto.
  - intros j r Hr. keyed; [done|eauto].
Qed.

Lemma seq_schema i db : schema db -> route_seq db <= i -> schema (db <| route_seq := i |>).
Proof.
  intros Hs Hi. assert (Hr := routes_keyed db Hs). destruct Hs. split; try done. cbn. intros j r Hj.
  destruct (Hr j r Hj). split; [done|lia].
Qed.

Section route_schema.
Context {IDS : RowIds}.

Lemma insert_route_schema row : keeps schema (insert_route row).
Proof.
  intros db Hs. unfold insert_route. destruct (find_route _ db) as [o|] eqn:Hf; [done|]. cbn.
  case_bool_decide as Ht; [|done]. cbn [negb snd]. set (i := next_id (route_seq db)). assert (Hlt := next_id_gt (route_seq db)). fold i in Hlt.
  refine (put_route_schema i row (db <| route_seq := i |>) _ _ _ _); [|cbn; lia| |done].
  - apply seq_schema; [done|lia].
  - intros j r Hr E. by destruct (proj1 (find_route_none _ _) Hf j r).
Qed.

Lemma update_route_schema row : keeps schema (update_route row).
Proof.
  intros db Hs. unfold update_route. destruct (routes db !! r_id row) as [old|] eqn:Ho; [|done].
  assert (Hrow : with_id (r_id row) row = row) by by destruct row.
  destruct (find_route (natural_key row) db) as [o|] eqn:Hf.
  - case_bool_decide as E; [|done]. cbn [snd]. apply find_route_spec in Hf as [Hr Hk]; [|done].
    rewrite <- Hrow at 2. apply put_route_schema; [done|by eapply routes_keyed| |].
    + intros j r Hj Ek. rewrite <- E. by eapply (routes_distinct db Hs); [done..|congruence].
    + injection Hk as _ <-. by eapply routes_to_trunks.
  - case_bool_decide as Ht; [|done]. cbn [snd]. rewrite <- Hrow at 2. apply put_route_schema; [done|by eapply routes_keyed| |done].
    intros j r Hj Ek. by destruct (proj1 (find_route_none _ _) Hf j r).
Qed.

Lemma upsert_route_schema row : keeps schema (upsert_route_on row).
Proof.
  intros db Hs. unfold upsert_route_on. destruct (find_route (natural_key row) db) as [o|] eqn:Hf.
  - apply find_route_spec in Hf as [Hr Hk]; [|done]. cbn [snd]. apply put_route_schema; [done|by eapply routes_keyed| |].
    + intros j r Hj E. by eapply (routes_distinct db Hs); [done..|congruence].
    + injection Hk as _ <-. by eapply routes_to_trunks.
  - apply (tkeeps_bind schema (insert_route row) (fun _ => tret true)); auto using insert_route_schema, tkeeps_ret.
Qed.
End route_schema.

Lemma delete_route_schema i : keeps schema (delete_route i).
Proof.
  intros db []. split; try done; cbn.
  - intros j r Hr. keyed. eauto.
  - intros j j' r s Hr Hq. keyed. eauto.
  - intros j r Hr. keyed. eauto.
Qed.

Lemma upsert_acl_schema row : keeps schema (upsert_acl_rule_on row).
Proof.
  intros db Hs. unfold upsert_acl_rule_on. destruct (known_action _) eqn:E; [|done].
  apply acl_schema; [done|]. intros k r Hr. keyed; [done|]. by eapply acl_keyed.
Qed.
Lemma delete_acl_schema i : keeps schema (delete_acl_rule i).
Proof. intros db Hs. apply acl_schema; [done|]. intros k r Hr. keyed. by eapply acl_keyed. Qed.

Lemma put_destination_schema row db : known_action (x_action row) = true -> schema db ->
  schema (db <| destination_rules := <[x_id row := row]> (destination_rules db) |>).
Proof. intros E Hs. apply destinations_schema; [done|]. intros k r Hr. keyed; [done|]. by eapply destinations_keyed. Qed.
Lemma insert_destination_schema row : keeps schema (insert_destination_rule row).
Proof.
  intros db Hs. unfold insert_destination_rule. destruct (known_action _) eqn:E; [|by rewrite orb_true_r].
  destruct (bool_decide _); [done|]. by apply put_destination_schema.
Qed.
Lemma upsert_destination_schema row : keeps schema (upsert_destination_rule_on row).
Proof.
  intros db Hs. unfold upsert_destination_rule_on. destruct (known_action _) eqn:E; [|done]. by apply put_destination_schema.
Qed.
Lemma delete_destination_schema i : keeps schema (delete_destination_rule i).
Proof. intros db Hs. apply destinations_schema; [done|]. intros k r Hr. keyed. by eapply destinations_keyed. Qed.

Lemma set_setting_schema k v : keeps schema (set_setting_on k v).
Proof. intros db Hs. by apply settings_schema. Qed.
Lemma delete_setting_schema k : keeps schema (delete_setting_on k).
Proof. intros db Hs. by apply settings_schema. Qed.

#[export] Hint Resolve upsert_user_schema delete_user_schema set_user_limits_schema upsert_did_schema delete_did_schema
  upsert_trunk_schema delete_trunk_schema insert_route_schema update_route_schema upsert_route_schema delete_route_schema
  upsert_acl_schema delete_acl_schema insert_destination_schema upsert_destination_schema delete_destination_schema
  set_setting_schema delete_setting_schema : store.
