(* ===== verification/StoreImport.v ===== *)
(** * Import and export of the store (sbc-storage/import.rs; routes/config_api.rs)

    The import of a document in one transaction, merging or replacing, its dry
    run, and the export that writes such a document; what an import does to
    the tables is stated on maps, and the import refines it. *)

From S2P Require Import Prelude Str Store.

(** ** The document and the report *)

Inductive ImportMode := Merge | Replace.
#[export] Instance ImportMode_eq_dec : EqDecision ImportMode.
Proof. solve_decision. Defined.

Definition mode_parse (s : string) : option ImportMode :=
  if seqb s "merge" then Some Merge else if seqb s "replace" then Some Replace else None.
Definition mode_str (m : ImportMode) : string := match m with Merge => "merge" | Replace => "replace" end.

Record ImportUserLimits := mkImportLimits {
  default_max_concurrent_calls : option Z;
  default_max_calls_per_minute : option Z
}.

Record ImportDoc := mkDoc {
  doc_users : option (list UserRow);
  doc_dids : option (list DidRow);
  doc_trunks : option (list TrunkRow);
  doc_routes : option (list RouteRow);
  doc_acl_rules : option (list AclRuleRow);
  doc_acl_default_action : option string;
  doc_destination_rules : option (list DestinationRuleRow);
  doc_user_limits : option ImportUserLimits
}.

Record SectionReport := mkSection { inserted : nat; updated : nat; deleted : nat }.
#[export] Instance SectionReport_eq_dec : EqDecision SectionReport.
Proof. solve_decision. Defined.

Record ImportReport := mkImported {
  rep_users : option SectionReport;
  rep_dids : option SectionReport;
  rep_trunks : option SectionReport;
  rep_routes : option SectionReport;
  rep_acl_rules : option SectionReport;
  rep_destination_rules : option SectionReport;
  settings_set : gmap string string;
  settings_removed : list string;
  deleted_trunks : list string
}.
#[export] Instance ImportReport_eq_dec : EqDecision ImportReport.
Proof. solve_decision. Defined.

#[export] Instance eta_report : Eta ImportReport := fun r =>
  mkImported (rep_users r) (rep_dids r) (rep_trunks r) (rep_routes r) (rep_acl_rules r) (rep_destination_rules r)
    (settings_set r) (settings_removed r) (deleted_trunks r).

Definition no_report : ImportReport := mkImported None None None None None None ∅ [] [].

Definition shown_nat (n : nat) : string := show (Z.of_nat n).

Definition summary (r : ImportReport) : string :=
  let part (e : string * option SectionReport) :=
    match e.2 with
    | Some s => [e.1 +:+ " +" +:+ shown_nat (inserted s) +:+ "/~" +:+ shown_nat (updated s) +:+ "/-" +:+ shown_nat (deleted s)]
    | None => []
    end in
  let parts := concat (map part [("users", rep_users r); ("dids", rep_dids r); ("trunks", rep_trunks r); ("routes", rep_routes r);
                                 ("acl_rules", rep_acl_rules r); ("destination_rules", rep_destination_rules r)]) in
  let parts := if bool_decide (settings_set r = ∅) && bool_decide (settings_removed r = []) then parts
               else parts ++ ["settings +" +:+ shown_nat (size (settings_set r)) +:+ "/-" +:+ shown_nat (length (settings_removed r))] in
  match parts with [] => "nothing" | _ => join ", " parts end.

Definition count (s : SectionReport) (ins : bool) : SectionReport :=
  if ins then mkSection (S (inserted s)) (updated s) (deleted s) else mkSection (inserted s) (S (updated s)) (deleted s).

(** ** The import *)

(** The rows whose key is not wanted go; the keys deleted, in their order. *)
Definition delete_missing (existing : Db -> list string) (del : string -> Tx bool) (wanted : list string) : Tx (list string) :=
  do! ks := tread existing in
  each (fun k gone => if bool_decide (k ∈ wanted) then tret gone else do! _ := del k in tret (gone ++ [k])) ks [].

Definition upserts {R} (table : string) (key : R -> string) (up : R -> Tx bool) (l : list R) (s : SectionReport) : Tx SectionReport :=
  each (fun r s => do! ins := map_err (at_row table (key r)) (up r) in tret (count s ins)) l s.

Definition import_rows {R} (table : string) (key : R -> string) (existing : Db -> list string) (del : string -> Tx bool)
    (up : R -> Tx bool) (replace : bool) (l : list R) : Tx (SectionReport * list string) :=
  do! gone := (if replace then delete_missing existing del (map key l) else tret []) in
  do! s := upserts table key up l (mkSection 0 0 (length gone)) in
  tret (s, gone).

Section import.
Context {IDS : RowIds}.

Definition route_label (r : RouteRow) : string := r_prefix r +:+ " → " +:+ r_trunk_name r.

Definition import_routes (replace : bool) (l : list RouteRow) : Tx SectionReport :=
  do! gone := (if replace then
                 do! existing := tread (fun db => order_by (on r_id Z.compare) (map_to_list (routes db)).*2) in
                 each (fun r n => if bool_decide (natural_key r ∈ map natural_key l) then tret n
                                  else do! _ := delete_route (r_id r) in tret (S n)) existing 0%nat
               else tret 0%nat) in
  upserts "routes" route_label upsert_route_on l (mkSection 0 0 gone).

Definition carried {A} (o : option A) (f : A -> ImportReport -> Tx ImportReport) (rep : ImportReport) : Tx ImportReport :=
  match o with Some x => f x rep | None => tret rep end.

Definition import_limit (replace : bool) (e : string * option Z) (rep : ImportReport) : Tx ImportReport :=
  match e.2 with
  | Some v => do! _ := set_setting_on e.1 (show v) in tret (rep <| settings_set := <[e.1 := show v]> (settings_set rep) |>)
  | None =>
      if replace then
        do! was := delete_setting_on e.1 in
        tret (if was : bool then rep <| settings_removed := settings_removed rep ++ [e.1] |> else rep)
      else tret rep
  end.

Definition limit_entries (l : ImportUserLimits) : list (string * option Z) :=
  [(USER_LIMITS_DEFAULT_CONCURRENT, default_max_concurrent_calls l); (USER_LIMITS_DEFAULT_CPM, default_max_calls_per_minute l)].

(** [now]: the time of the clock, as text. *)
Definition mark_seeded (now k : string) : Tx unit :=
  do! v := tread (get_setting_on k) in match v with None => set_setting_on k now | Some _ => tret tt end.

Definition mark_when (carried : bool) (now k : string) : Tx unit := if carried then mark_seeded now k else tret tt.

Definition is_some {A} (o : option A) : bool := match o with Some _ => true | None => false end.

(** The trunks first: their routes go with them. *)
Definition import_on (now : string) (doc : ImportDoc) (mode : ImportMode) : Tx ImportReport :=
  let replace := bool_decide (mode = Replace) in
  do! rep := carried (doc_trunks doc) (fun l rep =>
      do! sd := import_rows "trunks" t_name (fun db => map t_name (list_trunks db)) delete_trunk upsert_trunk_on replace l in
      tret (rep <| rep_trunks := Some sd.1 |> <| deleted_trunks := sd.2 |>)) no_report in
  do! rep := carried (doc_routes doc) (fun l rep =>
      do! s := import_routes replace l in tret (rep <| rep_routes := Some s |>)) rep in
  do! rep := carried (doc_users doc) (fun l rep =>
      do! sd := import_rows "users" u_username (fun db => map u_username (list_users db)) delete_user upsert_user_on replace l in
      tret (rep <| rep_users := Some sd.1 |>)) rep in
  do! rep := carried (doc_dids doc) (fun l rep =>
      do! sd := import_rows "dids" d_number (fun db => map d_number (list_dids db)) delete_did upsert_did_on replace l in
      tret (rep <| rep_dids := Some sd.1 |>)) rep in
  do! rep := carried (doc_acl_rules doc) (fun l rep =>
      do! sd := import_rows "acl_rules" a_id (fun db => order_by String.compare (map a_id (rows (acl_rules db)))) delete_acl_rule
                  upsert_acl_rule_on replace l in
      tret (rep <| rep_acl_rules := Some sd.1 |>)) rep in
  do! rep := carried (doc_destination_rules doc) (fun l rep =>
      do! sd := import_rows "destination_rules" x_id (fun db => order_by String.compare (map x_id (rows (destination_rules db))))
                  delete_destination_rule upsert_destination_rule_on replace l in
      tret (rep <| rep_destination_rules := Some sd.1 |>)) rep in
  do! rep := carried (doc_acl_default_action doc) (fun a rep =>
      do! _ := set_setting_on ACL_DEFAULT_ACTION a in
      tret (rep <| settings_set := <[ACL_DEFAULT_ACTION := a]> (settings_set rep) |>)) rep in
  do! rep := carried (doc_user_limits doc) (fun l => each (import_limit replace) (limit_entries l)) rep in
  do! _ := mark_when (is_some (doc_destination_rules doc)) now DESTINATION_RULES_SEEDED_AT in
  do! _ := mark_when (is_some (doc_users doc)) now USER_LIMITS_SEEDED_AT in
  tret rep.

(** One transaction: rolled back by an error and by a dry run. *)
Definition import (now : string) (doc : ImportDoc) (mode : ImportMode) (dry_run : bool) : Tx ImportReport := fun db =>
  match import_on now doc mode db with
  | (Ok rep, db') => (Ok rep, if dry_run then db else db')
  | (Err e, _) => (Err e, db)
  end.
End import.

(** ** The export (routes/config_api.rs) *)

Definition setting_u32 (k : string) (db : Db) : option Z := get_setting_on k db ≫= parse_uint u32_max.

Definition export (db : Db) : ImportDoc :=
  mkDoc (Some (list_users db)) (Some (list_dids db)) (Some (list_trunks db)) (Some (list_routes db)) (Some (list_acl_rules db))
    (Some (default "allow" (get_setting_on ACL_DEFAULT_ACTION db))) (Some (list_destination_rules db))
    (Some (mkImportLimits (setting_u32 USER_LIMITS_DEFAULT_CONCURRENT db) (setting_u32 USER_LIMITS_DEFAULT_CPM db))).

(** ** What an import does, on maps *)

(** The tables as their clients see them: a route is known by its prefix and
    trunk, whatever its number. *)
Record Tables := mkTables {
  v_users : gmap string UserRow;
  v_dids : gmap string DidRow;
  v_trunks : gmap string TrunkRow;
  v_routes : gmap (string * string) RouteRow;
  v_acl : gmap string AclRuleRow;
  v_destinations : gmap string DestinationRuleRow;
  v_settings : gmap string string
}.

Definition route_view (m : gmap Z RouteRow) : gmap (string * string) RouteRow :=
  put_all natural_key (map (with_id 0) (map_to_list m).*2) ∅.

Definition view (db : Db) : Tables :=
  mkTables (users db) (dids db) (trunks db) (route_view (routes db)) (acl_rules db) (destination_rules db) (settings db).

Section spec.
Context (now : string) (doc : ImportDoc) (mode : ImportMode).

(** A section of the document: all of the table, or over what was there. *)
Definition section {K R} `{Countable K} (key : R -> K) (o : option (list R)) (m : gmap K R) : gmap K R :=
  match o with None => m | Some l => put_all key l (match mode with Replace => ∅ | Merge => m end) end.

Definition limit_spec (e : string * option Z) (m : gmap string string) : gmap string string :=
  match e.2, mode with Some v, _ => <[e.1 := show v]> m | None, Replace => delete e.1 m | None, Merge => m end.

Definition mark_spec (b : bool) (k : string) (m : gmap string string) : gmap string string :=
  if b && bool_decide (m !! k = None) then <[k := now]> m else m.

Definition settings_spec (m : gmap string string) : gmap string string :=
  let m := match doc_acl_default_action doc with Some a => <[ACL_DEFAULT_ACTION := a]> m | None => m end in
  let m := match doc_user_limits doc with Some l => fold_left (fun m e => limit_spec e m) (limit_entries l) m | None => m end in
  mark_spec (is_some (doc_users doc)) USER_LIMITS_SEEDED_AT
    (mark_spec (is_some (doc_destination_rules doc)) DESTINATION_RULES_SEEDED_AT m).

Definition imported (v : Tables) : Tables :=
  let ts := section t_name (doc_trunks doc) (v_trunks v) in
  mkTables (section u_username (doc_users doc) (v_users v)) (section d_number (doc_dids doc) (v_dids v)) ts
    (section natural_key (map (with_id 0) <$> doc_routes doc) (filter (fun e => is_Some (ts !! e.1.2)) (v_routes v)))
    (section a_id (doc_acl_rules doc) (v_acl v)) (section x_id (doc_destination_rules doc) (v_destinations v))
    (settings_spec (v_settings v)).

(** The constraints, on the document. *)
Definition acceptable (v : Tables) : Prop :=
  Forall (fun r => is_Some (section t_name (doc_trunks doc) (v_trunks v) !! r_trunk_name r)) (default [] (doc_routes doc)) /\
  Forall (fun r => known_action (a_action r) = true) (default [] (doc_acl_rules doc)) /\
  Forall (fun r => known_action (x_action r) = true) (default [] (doc_destination_rules doc)).
End spec.

#[export] Instance eta_tables : Eta Tables := fun v =>
  mkTables (v_users v) (v_dids v) (v_trunks v) (v_routes v) (v_acl v) (v_destinations v) (v_settings v).

(** ** Refinement

    An operation on a store in schema succeeds exactly when [ok] holds of the
    tables and then does [f] to them; otherwise it reports a constraint. *)
Definition refines {A} (m : Tx A) (ok : Tables -> Prop) (f : Tables -> Tables) : Prop :=
  forall db, schema db -> schema (m db).2 /\
    ((ok (view db) /\ view (m db).2 = f (view db) /\ exists a, (m db).1 = Ok a) \/
     (~ ok (view db) /\ exists t k d, (m db).1 = Err (Constraint t k d))).

Lemma refines_ret {A} (a : A) : refines (tret a) (fun _ => True) (fun v => v).
Proof. intros db Hs. split; [done|]. left. by eauto. Qed.

Lemma refines_bind {A B} (m : Tx A) (k : A -> Tx B) ok ok' f f' :
  refines m ok f -> (forall a, refines (k a) ok' f') -> refines (tbind m k) (fun v => ok v /\ ok' (f v)) (fun v => f' (f v)).
Proof.
  intros Hm Hk db Hs. specialize (Hm db Hs) as [Hs' Hm]. unfold tbind. destruct (m db) as [[a|e] db']; cbn in *.
  - destruct Hm as [(Hok & Hv & _)|(_ & t & k' & d & [=])]. specialize (Hk a db' Hs') as [Hs'' Hk]. split; [done|].
    rewrite <- Hv. destruct Hk as [(?&?&?)|(?&?)]; [left|right]; naive_solver.
  - split; [done|]. destruct Hm as [(_ & _ & a & [=])|(Hok & H)]. right. naive_solver.
Qed.

Lemma refines_ext {A} (m : Tx A) ok ok' f f' : refines m ok f ->
  (forall db, schema db -> (ok (view db) <-> ok' (view db)) /\ (ok (view db) -> f (view db) = f' (view db))) -> refines m ok' f'.
Proof.
  intros Hm H db Hs. destruct (Hm db Hs) as [Hs' Hm']. destruct (H db Hs) as [H1 H2]. split; [done|].
  destruct Hm' as [(Hok&Hv&Ha)|(Hok&Ha)]; [left|right].
  - split_and!; [by apply H1| |done]. by rewrite <- H2.
  - split; [|done]. by rewrite <- H1.
Qed.

(** An operation that cannot fail, from its effect. *)
Lemma refines_does {A} (m : Tx A) f : keeps schema m ->
  (forall db, schema db -> view (m db).2 = f (view db) /\ exists a, (m db).1 = Ok a) -> refines m (fun _ => True) f.
Proof. intros Hk H db Hs. split; [by apply Hk|]. left. by split; [|apply H]. Qed.

Lemma refines_then {A B} (m : Tx A) (g : A -> B) ok f : refines m ok f -> refines (do! x := m in tret (g x)) ok f.
Proof.
  intros Hm. eapply refines_ext; [exact (refines_bind m (fun x => tret (g x)) _ _ _ _ Hm (fun x => refines_ret (g x)))|].
  intros db _. tauto.
Qed.

Lemma refines_carried {A} (o : option A) g rep ok f :
  (forall x rep, refines (g x rep) (ok x) (f x)) ->
  refines (carried o g rep) (fun v => match o with Some x => ok x v | None => True end)
    (fun v => match o with Some x => f x v | None => v end).
Proof. intros H. destruct o; [apply H|apply refines_ret]. Qed.

(** A loop whose turns all succeed. *)
Lemma refines_each {A B} (g : A -> B -> Tx B) l b (f : A -> Tables -> Tables) :
  (forall x b, refines (g x b) (fun _ => True) (f x)) ->
  refines (each g l b) (fun _ => True) (fun v => fold_left (fun v x => f x v) l v).
Proof.
  intros H. revert b. induction l as [|x l IH]; intros b; [apply refines_ret|].
  eapply refines_ext; [by apply refines_bind; [apply H|apply IH]|]. by intros db Hs.
Qed.

(** ** A table with a text key *)

Section keyed_table.
Context {R : Type} (table : string) (key : R -> string) (good : R -> bool).
Context (tab : Db -> gmap string R) (put : gmap string R -> Db -> Db).
Context (vtab : Tables -> gmap string R) (vput : gmap string R -> Tables -> Tables).
Context (up : R -> Tx bool).

Record table_laws : Prop := {
  tab_put : forall m db, tab (put m db) = m;
  put_put : forall m m' db, put m (put m' db) = put m db;
  put_tab : forall db, put (tab db) db = db;
  view_put : forall m db, view (put m db) = vput m (view db);
  vtab_view : forall db, vtab (view db) = tab db;
  vtab_vput : forall m v, vtab (vput m v) = m;
  vput_vput : forall m m' v, vput m (vput m' v) = vput m v;
  vput_vtab : forall v, vput (vtab v) v = v;
  up_keeps : forall r, keeps schema (up r);
  up_good : forall r db, good r = true -> exists b, up r db = (Ok b, put (<[key r := r]> (tab db)) db);
  up_bad : forall r db, good r = false -> up r db = (Err (constraint CheckFailed), db)
}.
Hypothesis laws : table_laws.

Lemma upsert_refines r : refines (map_err (at_row table (key r)) (up r)) (fun _ => good r = true)
  (fun v => vput (<[key r := r]> (vtab v)) v).
Proof.
  intros db Hs. split; [by apply keeps_map_err; [apply (up_keeps laws)|]|]. unfold map_err. destruct (good r) eqn:E.
  - left. destruct (up_good laws r db E) as [b ->]. cbn. rewrite (view_put laws), (vtab_view laws). eauto.
  - right. rewrite (up_bad laws r db E). cbn. eauto.
Qed.

Lemma upserts_refines l s : refines (upserts table key up l s) (fun _ => Forall (fun r => good r = true) l)
  (fun v => vput (put_all key l (vtab v)) v).
Proof.
  revert s. induction l as [|r l IH]; intros s.
  { eapply refines_ext; [apply refines_ret|]. intros db _. split; [done|]. intros _. cbn. by rewrite (vput_vtab laws). }
  eapply refines_ext; [apply refines_bind; [apply refines_bind; [apply upsert_refines|intros b; apply refines_ret]|intros s'; apply IH]|].
  intros db _. cbn. split; [rewrite Forall_cons; tauto|]. intros _. by rewrite (vput_vput laws), (vtab_vput laws).
Qed.

Context (existing : Db -> list string) (del : string -> Tx bool).
Hypothesis del_keeps : forall k, keeps schema (del k).
Hypothesis del_eq : forall k db, exists b, del k db = (Ok b, put (delete k (tab db)) db).
Hypothesis existing_spec : forall db k, schema db -> k ∈ existing db <-> is_Some (tab db !! k).

Definition drop_step (wanted : list string) (k : string) (gone : list string) : Tx (list string) :=
  if bool_decide (k ∈ wanted) then tret gone else do! _ := del k in tret (gone ++ [k]).

Lemma drop_keeps wanted k gone : keeps schema (drop_step wanted k gone).
Proof. unfold drop_step. case_bool_decide; [apply tkeeps_ret|]. apply tkeeps_bind; [done|]. intros b. apply tkeeps_ret. Qed.

Lemma put_tab_filter wanted ks gone db : exists gone',
  each (drop_step wanted) ks gone (put (tab db) db) =
  (Ok gone', put (filter (fun e => e.1 ∈ wanted \/ e.1 ∉ ks) (tab db)) db).
Proof.
  revert gone db. induction ks as [|k ks IH]; intros gone db.
  { exists gone. cbn. unfold tret. f_equal. f_equal. symmetry. apply map_filter_id. intros i x _. right. apply not_elem_of_nil. }
  cbn [each]. unfold tbind, drop_step at 1. case_bool_decide as Hk.
  - destruct (IH gone db) as [g Hg]. exists g. cbn. rewrite Hg. do 2 f_equal. apply map_filter_ext. intros i x _. cbn.
    rewrite not_elem_of_cons. split; [|tauto]. intros [?|?]; [tauto|]. destruct (decide (i = k)) as [->|]; tauto.
  - unfold tbind, tret. destruct (del_eq k (put (tab db) db)) as [b ->]. rewrite (tab_put laws), (put_put laws).
    destruct (IH (gone ++ [k]) (put (delete k (tab db)) db)) as [g Hg]. rewrite (tab_put laws), !(put_put laws) in Hg.
    exists g. rewrite Hg. do 2 f_equal. apply map_eq. intros i. destruct (decide (i = k)) as [->|Hne].
    + rewrite (proj2 (map_lookup_filter_None _ _ _)) by (left; apply lookup_delete_eq). symmetry.
      apply map_lookup_filter_None. right. intros x _. cbn. rewrite not_elem_of_cons. tauto.
    + rewrite !map_lookup_filter, lookup_delete_ne by done. destruct (tab db !! i) as [x|]; [|done]. cbn.
      f_equal. apply option_guard_iff. rewrite not_elem_of_cons. tauto.
Qed.

Lemma missing_refines wanted : refines (delete_missing existing del wanted) (fun _ => True)
  (fun v => vput (filter (fun e => e.1 ∈ wanted) (vtab v)) v).
Proof.
  apply refines_does; [apply tkeeps_bind; [apply keeps_read|]; intros ks; apply keeps_each, drop_keeps|].
  intros db Hs. unfold delete_missing, tbind, tread. destruct (put_tab_filter wanted (existing db) [] db) as [g Hg].
  rewrite (put_tab laws) in Hg. unfold drop_step in Hg. unfold tbind in Hg. rewrite Hg. split; [|by eexists]. cbn.
  rewrite (view_put laws), (vtab_view laws). f_equal. apply map_filter_ext. intros k x Hk. cbn.
  assert (k ∈ existing db) by (apply existing_spec; eauto). tauto.
Qed.

Lemma import_rows_refines mode l :
  refines (import_rows table key existing del up (bool_decide (mode = Replace)) l) (fun _ => Forall (fun r => good r = true) l)
    (fun v => vput (section mode key (Some l) (vtab v)) v).
Proof.
  destruct mode; unfold import_rows; cbn [section].
  - eapply refines_ext; [apply refines_bind; [apply refines_ret|intros gone; apply refines_bind; [apply upserts_refines|intros s; apply refines_ret]]|].
    intros db _. cbn. tauto.
  - eapply refines_ext; [apply refines_bind; [apply missing_refines|intros gone; apply refines_bind; [apply upserts_refines|intros s; apply refines_ret]]|].
    intros db _. cbn. split; [tauto|]. intros _. rewrite (vput_vput laws), (vtab_vput laws). f_equal. apply put_all_over.
    intros k [x [_ Hk]%map_lookup_filter_Some]. done.
Qed.
End keyed_table.

(** *** The tables *)

Lemma keyed_keys {A} (key : A -> string) (m : gmap string A) cmp k : (forall k r, m !! k = Some r -> key r = k) ->
  k ∈ map key (order_by cmp (rows m)) <-> is_Some (m !! k).
Proof. intros Hm. rewrite <- (elem_of_keyed_keys key m k Hm), !list_elem_of_fmap. by setoid_rewrite elem_of_order_by. Qed.

Lemma users_laws : table_laws u_username (fun _ => true) users (fun m db => db <| users := m |>) v_users
  (fun m v => v <| v_users := m |>) upsert_user_on.
Proof. split; try done; [by intros []|by intros []|auto with store|by eexists]. Qed.

Lemma dids_laws : table_laws d_number (fun _ => true) dids (fun m db => db <| dids := m |>) v_dids
  (fun m v => v <| v_dids := m |>) upsert_did_on.
Proof. split; try done; [by intros []|by intros []|auto with store|by eexists]. Qed.

Lemma trunks_laws : table_laws t_name (fun _ => true) trunks (fun m db => db <| trunks := m |>) v_trunks
  (fun m v => v <| v_trunks := m |>) upsert_trunk_on.
Proof. split; try done; [by intros []|by intros []|auto with store|by eexists]. Qed.

Lemma acl_laws : table_laws a_id (fun r => known_action (a_action r)) acl_rules (fun m db => db <| acl_rules := m |>) v_acl
  (fun m v => v <| v_acl := m |>) upsert_acl_rule_on.
Proof.
  split; try done; [by intros []|by intros []|auto with store| |]; intros r db E; unfold upsert_acl_rule_on; rewrite E; by eexists.
Qed.

Lemma destinations_laws : table_laws x_id (fun r => known_action (x_action r)) destination_rules
  (fun m db => db <| destination_rules := m |>) v_destinations (fun m v => v <| v_destinations := m |>) upsert_destination_rule_on.
Proof.
  split; try done; [by intros []|by intros []|auto with store| |]; intros r db E; unfold upsert_destination_rule_on; rewrite E; by eexists.
Qed.

Section sections.
Context (mode : ImportMode).
Abbreviation replace := (bool_decide (mode = Replace)).

Lemma import_users_refines l :
  refines (import_rows "users" u_username (fun db => map u_username (list_users db)) delete_user upsert_user_on replace l)
    (fun _ => True) (fun v => v <| v_users := section mode u_username (Some l) (v_users v) |>).
Proof.
  eapply refines_ext; [apply (import_rows_refines _ _ _ _ _ _ _ _ users_laws); auto with store|].
  - by eexists.
  - intros db k Hs. apply keyed_keys, (users_keyed db Hs).
  - intros db _. split; [|done]. split; [done|]. intros _. by apply Forall_true.
Qed.

Lemma import_dids_refines l :
  refines (import_rows "dids" d_number (fun db => map d_number (list_dids db)) delete_did upsert_did_on replace l)
    (fun _ => True) (fun v => v <| v_dids := section mode d_number (Some l) (v_dids v) |>).
Proof.
  eapply refines_ext; [apply (import_rows_refines _ _ _ _ _ _ _ _ dids_laws); auto with store|].
  - by eexists.
  - intros db k Hs. apply keyed_keys, (dids_keyed db Hs).
  - intros db _. split; [|done]. split; [done|]. intros _. by apply Forall_true.
Qed.

Lemma keyed_ids {A} (key : A -> string) (m : gmap string A) cmp k : (forall k r, m !! k = Some r -> key r = k) ->
  k ∈ order_by cmp (map key (rows m)) <-> is_Some (m !! k).
Proof. intros Hm. rewrite elem_of_order_by. by apply elem_of_keyed_keys. Qed.

Lemma import_acl_refines l :
  refines (import_rows "acl_rules" a_id (fun db => order_by String.compare (map a_id (rows (acl_rules db)))) delete_acl_rule
             upsert_acl_rule_on replace l)
    (fun _ => Forall (fun r => known_action (a_action r) = true) l) (fun v => v <| v_acl := section mode a_id (Some l) (v_acl v) |>).
Proof.
  apply (import_rows_refines _ _ _ _ _ _ _ _ acl_laws); auto with store; [by eexists|].
  intros db k Hs. apply keyed_ids. intros k' r Hr. by destruct (acl_keyed db Hs k' r Hr).
Qed.

Lemma import_destinations_refines l :
  refines (import_rows "destination_rules" x_id (fun db => order_by String.compare (map x_id (rows (destination_rules db))))
             delete_destination_rule upsert_destination_rule_on replace l)
    (fun _ => Forall (fun r => known_action (x_action r) = true) l)
    (fun v => v <| v_destinations := section mode x_id (Some l) (v_destinations v) |>).
Proof.
  apply (import_rows_refines _ _ _ _ _ _ _ _ destinations_laws); auto with store; [by eexists|].
  intros db k Hs. apply keyed_ids. intros k' r Hr. by destruct (destinations_keyed db Hs k' r Hr).
Qed.
End sections.

(** *** Routes, by prefix and trunk *)

Lemma elem_of_routes db r : schema db -> r ∈ (map_to_list (routes db)).*2 <-> routes db !! r_id r = Some r.
Proof.
  intros Hs. rewrite list_elem_of_fmap. split.
  - intros ([i r'] & -> & Hr). apply elem_of_map_to_list in Hr. cbn. by destruct (routes_keyed db Hs i r' Hr) as [-> _].
  - intros Hr. exists (r_id r, r). split; [done|]. by apply elem_of_map_to_list.
Qed.

(** The view of the routes: what a prefix and a trunk lead to. *)
Lemma route_view_spec db k r : schema db ->
  route_view (routes db) !! k = Some r <-> exists o, find_route k db = Some o /\ r = with_id 0 o.
Proof.
  intros Hs. unfold route_view. split.
  - intros [Hr Hk]%put_all_lookup. apply list_elem_of_fmap in Hr as (o & -> & Ho). exists o. split; [|done].
    apply find_route_spec; [done|]. split; [by apply elem_of_routes|done].
  - intros (o & [Ho Hk]%find_route_spec & ->); [|done]. rewrite <- Hk. change (natural_key o) with (natural_key (with_id 0 o)).
    apply put_all_found.
    + apply list_elem_of_fmap. exists o. split; [done|]. by apply elem_of_routes.
    + intros x y (x' & -> & Hx)%list_elem_of_fmap (y' & -> & Hy)%list_elem_of_fmap E. f_equal.
      apply elem_of_routes in Hx, Hy; [|done..]. assert (r_id x' = r_id y') as Ei by by eapply (routes_distinct db Hs).
      congruence.
Qed.

Lemma route_view_lookup db k : schema db -> route_view (routes db) !! k = with_id 0 <$> find_route k db.
Proof.
  intros Hs. destruct (find_route k db) as [o|] eqn:E; cbn.
  - apply route_view_spec; eauto.
  - destruct (route_view (routes db) !! k) as [r|] eqn:Er; [|done]. apply route_view_spec in Er as (o & Ho & _); [|done]. congruence.
Qed.

Lemma route_view_trunk db k r : schema db -> route_view (routes db) !! k = Some r -> is_Some (trunks db !! k.2).
Proof.
  intros Hs (o & [Ho <-]%find_route_spec & _)%route_view_spec; [|done..]. by apply (routes_to_trunks db Hs (r_id o)).
Qed.

Lemma filter_routes_schema (P : RouteRow -> Prop) `{forall r, Decision (P r)} db :
  schema db -> schema (db <| routes := filter (fun e => P e.2) (routes db) |>).
Proof.
  intros []. split; try done; cbn.
  - intros i r [Hr _]%map_lookup_filter_Some. eauto.
  - intros i j r s [Hr _]%map_lookup_filter_Some [Hq _]%map_lookup_filter_Some. eauto.
  - intros i r [Hr _]%map_lookup_filter_Some. eauto.
Qed.

Lemma route_view_filter (P : string * string -> Prop) `{forall k, Decision (P k)} db : schema db ->
  route_view (filter (fun e => P (natural_key e.2)) (routes db)) = filter (fun e => P e.1) (route_view (routes db)).
Proof.
  intros Hs. set (db' := db <| routes := filter (fun e => P (natural_key e.2)) (routes db) |>).
  assert (Hs' : schema db') by exact (filter_routes_schema (fun r => P (natural_key r)) db Hs).
  change (filter _ (routes db)) with (routes db'). apply map_eq. intros k. apply option_eq. intros r.
  rewrite map_lookup_filter_Some, !route_view_spec by done. cbn. split.
  - intros (o & [Ho Hk]%find_route_spec & ->); [|done]. apply map_lookup_filter_Some in Ho as [Ho HP]. cbn in HP.
    rewrite <- Hk. split; [|done]. exists o. split; [|done]. by apply find_route_spec.
  - intros [(o & [Ho Hk]%find_route_spec & ->) HP]; [|done]. exists o. split; [|done]. apply find_route_spec; [done|]. split; [|done].
    apply map_lookup_filter_Some. cbn. by rewrite Hk.
Qed.

Lemma keep_more {K V} `{Countable K} (f : K * V -> string) (wanted : list string) k (ks : list string) (m : gmap K V) :
  filter (fun e => f e ∈ wanted \/ f e ∉ k :: ks) m =
  (if bool_decide (k ∈ wanted) then filter (fun e => f e ∈ wanted \/ f e ∉ ks) m
   else filter (fun e => f e ∈ wanted \/ f e ∉ ks) (filter (fun e => f e <> k) m)).
Proof.
  case_bool_decide as Hk; [|rewrite map_filter_filter]; apply map_filter_ext; intros i x _; rewrite not_elem_of_cons;
    destruct (decide (f (i, x) = k)) as [<-|]; tauto.
Qed.

Lemma delete_filter {K V} `{Countable K} k (m : gmap K V) : delete k m = filter (fun e => e.1 <> k) m.
Proof.
  apply map_eq. intros i. rewrite map_lookup_filter. destruct (decide (i = k)) as [->|Hne].
  - rewrite lookup_delete_eq. destruct (m !! k); [|done]. cbn. case_guard; naive_solver.
  - rewrite lookup_delete_ne by done. destruct (m !! i); [|done]. cbn. case_guard; naive_solver.
Qed.

Lemma drop_trunks wanted ks gone db : exists g,
  each (drop_step delete_trunk wanted) ks gone db =
  (Ok g, db <| trunks := filter (fun e => e.1 ∈ wanted \/ e.1 ∉ ks) (trunks db) |>
            <| routes := filter (fun e => r_trunk_name e.2 ∈ wanted \/ r_trunk_name e.2 ∉ ks) (routes db) |>).
Proof.
  revert gone db. induction ks as [|k ks IH]; intros gone db.
  { exists gone. cbn. unfold tret. do 2 f_equal. destruct db; cbn. f_equal; symmetry; apply map_filter_id; intros i x _; right; apply not_elem_of_nil. }
  cbn [each]. unfold tbind, drop_step at 1. rewrite !keep_more. case_bool_decide as Hk.
  - cbn. apply IH.
  - unfold tbind, tret. cbn. rewrite delete_filter. destruct (IH (gone ++ [k]) (delete_trunk k db).2) as [g Hg]. exists g.
    unfold delete_trunk in Hg. cbn [snd] in Hg. rewrite delete_filter in Hg. exact Hg.
Qed.

Lemma view_eq v v' : v_users v = v_users v' -> v_dids v = v_dids v' -> v_trunks v = v_trunks v' -> v_routes v = v_routes v' ->
  v_acl v = v_acl v' -> v_destinations v = v_destinations v' -> v_settings v = v_settings v' -> v = v'.
Proof. destruct v, v'; cbn. by intros -> -> -> -> -> -> ->. Qed.

Lemma missing_trunks_refines wanted :
  refines (delete_missing (fun db => map t_name (list_trunks db)) delete_trunk wanted) (fun _ => True)
    (fun v => v <| v_trunks := filter (fun e => e.1 ∈ wanted) (v_trunks v) |>
                <| v_routes := filter (fun e => e.1.2 ∈ wanted) (v_routes v) |>).
Proof.
  apply refines_does.
  { apply tkeeps_bind; [apply keeps_read|]. intros ks. apply keeps_each. intros k gone. unfold drop_step.
    apply (drop_keeps delete_trunk delete_trunk_schema). }
  intros db Hs. unfold delete_missing, tbind, tread. destruct (drop_trunks wanted (map t_name (list_trunks db)) [] db) as [g Hg].
  unfold drop_step, tbind in Hg. rewrite Hg. split; [|by eexists].
  assert (Hin : forall k, k ∈ map t_name (list_trunks db) <-> is_Some (trunks db !! k)).
  { intros k. apply keyed_keys, (trunks_keyed db Hs). }
  apply view_eq; try done; cbn.
  - apply map_filter_ext. intros k x Hk. cbn. assert (k ∈ map t_name (list_trunks db)) by (apply Hin; eauto). tauto.
  - etrans; [|exact (route_view_filter (fun k => k.2 ∈ wanted) db Hs)]. f_equal. apply map_filter_ext. intros i r Hr. cbn.
    assert (r_trunk_name r ∈ map t_name (list_trunks db)) by (apply Hin, (routes_to_trunks db Hs i r Hr)). tauto.
Qed.

Lemma import_trunks_refines mode l :
  refines (import_rows "trunks" t_name (fun db => map t_name (list_trunks db)) delete_trunk upsert_trunk_on (bool_decide (mode = Replace)) l)
    (fun _ => True)
    (fun v => let ts := section mode t_name (Some l) (v_trunks v) in
              v <| v_trunks := ts |> <| v_routes := filter (fun e => is_Some (ts !! e.1.2)) (v_routes v) |>).
Proof.
  destruct mode; unfold import_rows; cbn [section].
  - eapply refines_ext; [apply refines_bind; [apply refines_ret|intros gone; apply refines_bind; [apply (upserts_refines _ _ _ _ _ _ _ _ trunks_laws)|intros s; apply refines_ret]]|].
    intros db Hs. assert (Forall (fun _ : TrunkRow => true = true) l) by by apply Forall_true. cbn. split; [tauto|]. intros _.
    apply view_eq; try done. cbn. symmetry. apply map_filter_id. intros k r Hr. cbn.
    destruct (route_view_trunk db k r Hs Hr) as [t Ht]. rewrite put_all_union, lookup_union, Ht.
    by destruct (put_all t_name l ∅ !! k.2); eexists.
  - eapply refines_ext; [apply refines_bind; [apply missing_trunks_refines|intros gone; apply refines_bind; [apply (upserts_refines _ _ _ _ _ _ _ _ trunks_laws)|intros s; apply refines_ret]]|].
    intros db Hs. assert (Forall (fun _ : TrunkRow => true = true) l) by by apply Forall_true. cbn. split; [tauto|]. intros _.
    assert (Hts : put_all t_name l (filter (fun e => e.1 ∈ map t_name l) (trunks db)) = put_all t_name l ∅).
    { apply put_all_over. by intros k [x [_ Hk]%map_lookup_filter_Some]. }
    apply view_eq; try done; cbn. apply map_filter_ext. intros k r _. cbn. symmetry. apply put_all_dom.
Qed.

Section route_section.
Context {IDS : RowIds}.

Lemma put_route_view i row db : schema db -> schema (db <| routes := <[i := with_id i row]> (routes db) |>) ->
  (forall j r, routes db !! j = Some r -> natural_key r = natural_key row <-> j = i) ->
  route_view (<[i := with_id i row]> (routes db)) = <[natural_key row := with_id 0 row]> (route_view (routes db)).
Proof.
  intros Hs Hs' Hk. set (db' := db <| routes := <[i := with_id i row]> (routes db) |>) in Hs'.
  change (<[i := with_id i row]> (routes db)) with (routes db'). apply map_eq. intros k. apply option_eq. intros r.
  rewrite route_view_spec by done. rewrite lookup_insert_Some, route_view_spec by done. split.
  - intros (o & [Ho <-]%find_route_spec & ->); [|done]. cbn in Ho. apply lookup_insert_Some in Ho as [[Hi Ho]|[Hi Ho]].
    + left. by rewrite <- Ho.
    + right. split; [|exists o; split; [by apply find_route_spec|done]]. intros E. apply Hi. symmetry. by apply (Hk _ o).
  - intros [[<- <-]|[Hne (o & [Ho <-]%find_route_spec & ->)]]; [|exists o|done].
    + exists (with_id i row). split; [|done]. apply find_route_spec; [done|]. split; [|done]. apply lookup_insert_eq.
    + split; [|done]. apply find_route_spec; [done|]. split; [|done]. cbn. rewrite lookup_insert_ne; [done|].
      intros ->. apply Hne. symmetry. by apply (Hk _ o Ho).
Qed.

Lemma upsert_route_refines g row : (forall d, g (constraint d) = Constraint "routes" (route_label row) d) ->
  refines (map_err g (upsert_route_on row)) (fun v => is_Some (v_trunks v !! r_trunk_name row))
    (fun v => v <| v_routes := <[natural_key row := with_id 0 row]> (v_routes v) |>).
Proof.
  intros Hg db Hs. assert (Hs' := upsert_route_schema row db Hs). split; [by apply keeps_map_err; [apply upsert_route_schema|]|].
  unfold map_err, upsert_route_on in *. destruct (find_route (natural_key row) db) as [old|] eqn:Hf; cbn in *.
  - left. assert (Hold := Hf). apply find_route_spec in Hf as [Ho Hk]; [|done]. split_and!; [|apply view_eq; try done; cbn|by eexists].
    + injection Hk as _ <-. by apply (routes_to_trunks db Hs (r_id old)).
    + apply put_route_view; [done..|]. intros j r Hr. split; [|intros ->; congruence]. intros E.
      eapply (routes_distinct db Hs); [done..|congruence].
  - unfold tbind, insert_route in *. rewrite Hf in *. cbn in *. destruct (bool_decide (is_Some (trunks db !! _))) eqn:Et; cbn in *.
    + left. split_and!; [by apply bool_decide_eq_true in Et|apply view_eq; try done; cbn|by eexists].
      set (i := next_id (route_seq db)) in *. assert (Hlt := next_id_gt (route_seq db)). fold i in Hlt.
      pose (db0 := db <| route_seq := i |>). refine (put_route_view i row db0 _ _ _); [|exact Hs'|].
      * apply seq_schema; [done|lia].
      * cbn. intros j r Hr. split; [by intros E; destruct (proj1 (find_route_none _ _) Hf j r)|].
        intros ->. destruct (routes_keyed db Hs i r Hr). lia.
    + right. split; [by apply bool_decide_eq_false in Et|]. rewrite Hg. by do 3 eexists.
Qed.

Lemma upsert_routes_refines l s : refines (upserts "routes" route_label upsert_route_on l s)
  (fun v => Forall (fun r => is_Some (v_trunks v !! r_trunk_name r)) l)
  (fun v => v <| v_routes := put_all natural_key (map (with_id 0) l) (v_routes v) |>).
Proof.
  revert s. induction l as [|r l IH]; intros s.
  { eapply refines_ext; [apply refines_ret|]. intros db _. split; [done|]. intros _. by destruct (view db). }
  eapply refines_ext; [apply refines_bind; [apply refines_bind; [by apply upsert_route_refines|intros b; apply refines_ret]|intros s'; apply IH]|].
  intros db _. cbn. split; [rewrite Forall_cons; tauto|done].
Qed.

Definition drop_route (wanted : list (string * string)) (r : RouteRow) (n : nat) : Tx nat :=
  if bool_decide (natural_key r ∈ wanted) then tret n else do! _ := delete_route (r_id r) in tret (S n).

Definition unwanted (wanted : list (string * string)) (l : list RouteRow) : list Z :=
  map r_id (List.filter (fun r => negb (bool_decide (natural_key r ∈ wanted))) l).

Lemma drop_routes wanted l n db : exists n',
  each (drop_route wanted) l n db = (Ok n', db <| routes := filter (fun e => e.1 ∉ unwanted wanted l) (routes db) |>).
Proof.
  revert n db. induction l as [|r l IH]; intros n db.
  { exists n. cbn. unfold tret. do 2 f_equal. destruct db; cbn. f_equal; symmetry; apply map_filter_id; intros i x _; apply not_elem_of_nil. }
  cbn [each]. unfold tbind, drop_route at 1, unwanted. cbn [List.filter]. destruct (bool_decide (natural_key r ∈ wanted)) eqn:E; cbn [negb map].
  - apply IH.
  - unfold tbind, tret, delete_route. rewrite delete_filter. destruct (IH (S n) (db <| routes := filter (fun e => e.1 <> r_id r) (routes db) |>)) as [n' Hn].
    exists n'. cbn in Hn |- *. rewrite Hn. do 2 f_equal. rewrite map_filter_filter. destruct db; cbn. f_equal.
    apply map_filter_ext. intros i x _. cbn. rewrite not_elem_of_cons. unfold unwanted. tauto.
Qed.

Lemma missing_routes_refines wanted :
  refines (do! existing := tread (fun db => order_by (on r_id Z.compare) (map_to_list (routes db)).*2) in
           each (drop_route wanted) existing 0%nat) (fun _ => True)
    (fun v => v <| v_routes := filter (fun e => e.1 ∈ wanted) (v_routes v) |>).
Proof.
  apply refines_does.
  { apply tkeeps_bind; [apply keeps_read|]. intros l. apply keeps_each. intros r n. unfold drop_route.
    case_bool_decide; [apply tkeeps_ret|]. auto with store. }
  intros db Hs. unfold tbind, tread. set (l := order_by _ _). destruct (drop_routes wanted l 0%nat db) as [n Hn].
  unfold tbind in Hn. rewrite Hn. split; [|by eexists]. apply view_eq; try done; cbn.
  etrans; [|exact (route_view_filter (fun k => k ∈ wanted) db Hs)]. f_equal. apply map_filter_ext. intros i r Hr. cbn.
  destruct (routes_keyed db Hs i r Hr) as [Ei _].
  assert (Hin : i ∈ unwanted wanted l <-> natural_key r ∉ wanted); [|rewrite Hin; destruct (decide (natural_key r ∈ wanted)); tauto].
  unfold unwanted. rewrite list_elem_of_fmap. split.
  - intros (x & -> & Hx). apply elem_of_filter_bool in Hx as [Hx Hb]. apply elem_of_order_by, elem_of_routes in Hx; [|done].
    rewrite Hx in Hr. injection Hr as <-. by apply negb_true_iff, bool_decide_eq_false in Hb.
  - intros Hn'. exists r. split; [done|]. apply elem_of_filter_bool. split; [|by rewrite bool_decide_eq_false_2].
    apply elem_of_order_by, elem_of_routes; [done|]. by rewrite Ei.
Qed.

Lemma import_routes_refines mode l : refines (import_routes (bool_decide (mode = Replace)) l)
  (fun v => Forall (fun r => is_Some (v_trunks v !! r_trunk_name r)) l)
  (fun v => v <| v_routes := section mode natural_key (Some (map (with_id 0) l)) (v_routes v) |>).
Proof.
  destruct mode; unfold import_routes; cbn [section].
  - eapply refines_ext; [apply refines_bind; [apply refines_ret|intros n; apply upsert_routes_refines]|]. intros db _. cbn. tauto.
  - eapply refines_ext; [apply refines_bind; [apply missing_routes_refines|intros n; apply upsert_routes_refines]|].
    intros db _. cbn. split; [tauto|]. intros _. apply view_eq; try done; cbn. apply put_all_over.
    intros k [x [_ Hk]%map_lookup_filter_Some]. by rewrite map_map.
Qed.
End route_section.

(** *** Settings *)

Lemma set_setting_refines k x : refines (set_setting_on k x) (fun _ => True) (fun v => v <| v_settings := <[k := x]> (v_settings v) |>).
Proof. apply refines_does; [auto with store|]. intros db _. split; [done|by eexists]. Qed.

Lemma delete_setting_refines k : refines (delete_setting_on k) (fun _ => True) (fun v => v <| v_settings := delete k (v_settings v) |>).
Proof. apply refines_does; [auto with store|]. intros db _. split; [done|by eexists]. Qed.

Lemma view_settings v : v <| v_settings := v_settings v |> = v.
Proof. by destruct v. Qed.

Lemma import_limit_refines mode e rep : refines (import_limit (bool_decide (mode = Replace)) e rep) (fun _ => True)
  (fun v => v <| v_settings := limit_spec mode e (v_settings v) |>).
Proof.
  unfold import_limit, limit_spec. destruct (e.2) as [x|].
  - eapply refines_ext; [apply refines_bind; [apply set_setting_refines|intros _; apply refines_ret]|]. by intros db _.
  - destruct mode; cbn [bool_decide].
    + eapply refines_ext; [apply refines_ret|]. intros db _. by rewrite view_settings.
    + eapply refines_ext; [apply refines_bind; [apply delete_setting_refines|intros b; apply refines_ret]|]. by intros db _.
Qed.

Lemma mark_refines now b k : refines (mark_when b now k) (fun _ => True)
  (fun v => v <| v_settings := mark_spec now b k (v_settings v) |>).
Proof.
  unfold mark_when, mark_spec. destruct b; cbn [andb].
  - apply refines_does.
    + apply tkeeps_bind; [apply keeps_read|]. intros [x|]; [apply tkeeps_ret|auto with store].
    + intros db _. unfold mark_seeded, tbind, tread, get_setting_on. cbn [view v_settings]. destruct (settings db !! k) as [x|] eqn:E; cbn.
      * split; [done|by eexists].
      * split; [done|by eexists].
  - eapply refines_ext; [apply refines_ret|]. intros db _. by rewrite view_settings.
Qed.

Lemma limits_refines mode l rep : refines (each (import_limit (bool_decide (mode = Replace))) (limit_entries l) rep) (fun _ => True)
  (fun v => v <| v_settings := fold_left (fun m e => limit_spec mode e m) (limit_entries l) (v_settings v) |>).
Proof.
  eapply refines_ext; [apply refines_each; intros e rep'; apply import_limit_refines|]. by intros db _.
Qed.

(** *** A section the document may carry *)

Lemma carried_rows {R} (o : option (list R)) (key : R -> string) (mode : ImportMode) (ok : list R -> Prop) (vtab : Tables -> gmap string R) vput
    (step : list R -> Tx (SectionReport * list string)) (note : SectionReport * list string -> ImportReport -> ImportReport) rep :
  (forall l, refines (step l) (fun _ => ok l) (fun v => vput (section mode key (Some l) (vtab v)) v)) ->
  (forall v, vput (vtab v) v = v) -> ok [] ->
  refines (carried o (fun l rep => do! sd := step l in tret (note sd rep)) rep) (fun _ => ok (default [] o))
    (fun v => vput (section mode key o (vtab v)) v).
Proof.
  intros Hstep Hput Hok. eapply refines_ext.
  - exact (refines_carried o _ rep _ _ (fun l rep' => refines_then _ _ _ _ (Hstep l))).
  - intros db _. destruct o; cbn; [tauto|]. split; [done|]. by rewrite Hput.
Qed.

Section import_refines.
Context {IDS : RowIds} (now : string) (doc : ImportDoc) (mode : ImportMode).

Lemma carried_trunks note rep :
  refines (carried (doc_trunks doc) (fun l rep =>
      do! sd := import_rows "trunks" t_name (fun db => map t_name (list_trunks db)) delete_trunk upsert_trunk_on (bool_decide (mode = Replace)) l in
      tret (note sd rep)) rep) (fun _ => True)
    (fun v => let ts := section mode t_name (doc_trunks doc) (v_trunks v) in
              v <| v_trunks := ts |> <| v_routes := filter (fun e => is_Some (ts !! e.1.2)) (v_routes v) |>).
Proof.
  eapply refines_ext.
  - exact (refines_carried (doc_trunks doc) _ rep _ _ (fun l rep' => refines_then _ _ _ _ (import_trunks_refines mode l))).
  - intros db Hs. destruct (doc_trunks doc) as [l|]; cbn [section]; [tauto|]. split; [done|]. intros _. apply view_eq; try done. cbn.
    symmetry. apply map_filter_id. intros k r Hr. by apply (route_view_trunk db k r).
Qed.

Lemma carried_routes note rep :
  refines (carried (doc_routes doc) (fun l rep =>
      do! s := import_routes (bool_decide (mode = Replace)) l in tret (note s rep)) rep)
    (fun v => Forall (fun r => is_Some (v_trunks v !! r_trunk_name r)) (default [] (doc_routes doc)))
    (fun v => v <| v_routes := section mode natural_key (map (with_id 0) <$> doc_routes doc) (v_routes v) |>).
Proof.
  eapply refines_ext.
  - exact (refines_carried (doc_routes doc) _ rep _ _ (fun l rep' => refines_then _ _ _ _ (import_routes_refines mode l))).
  - intros db _. destruct (doc_routes doc); cbn; [tauto|]. done.
Qed.

Lemma import_on_refines : refines (import_on now doc mode) (acceptable doc mode) (imported now doc mode).
Proof.
  eapply refines_ext.
  - unfold import_on.
    apply refines_bind; [apply carried_trunks|intros rep1].
    apply refines_bind; [apply carried_routes|intros rep2].
    apply refines_bind; [apply (carried_rows _ u_username mode (fun _ => True) v_users (fun m v => v <| v_users := m |>));
      [apply import_users_refines|by intros []|done]|intros rep3].
    apply refines_bind; [apply (carried_rows _ d_number mode (fun _ => True) v_dids (fun m v => v <| v_dids := m |>));
      [apply import_dids_refines|by intros []|done]|intros rep4].
    apply refines_bind; [apply (carried_rows _ a_id mode (Forall (fun r => known_action (a_action r) = true)) v_acl (fun m v => v <| v_acl := m |>));
      [apply import_acl_refines|by intros []|done]|intros rep5].
    apply refines_bind; [apply (carried_rows _ x_id mode (Forall (fun r => known_action (x_action r) = true)) v_destinations
      (fun m v => v <| v_destinations := m |>)); [apply import_destinations_refines|by intros []|done]|intros rep6].
    apply refines_bind; [exact (refines_carried _ _ rep6 _ _ (fun a rep => refines_then _ _ _ _ (set_setting_refines ACL_DEFAULT_ACTION a)))|intros rep7].
    apply refines_bind; [exact (refines_carried _ _ rep7 _ _ (fun l rep => limits_refines mode l rep))|intros rep8].
    apply refines_bind; [apply mark_refines|intros _].
    apply refines_bind; [apply mark_refines|intros _]. apply refines_ret.
  - intros db Hs. unfold acceptable, imported, settings_spec.
    destruct (doc_acl_default_action doc), (doc_user_limits doc); cbn; (split; [tauto|done]).
Qed.
End import_refines.

(** ** Theorems *)

Section theorems.
Context {IDS : RowIds}.

(** C25: an import of a document succeeds exactly when the document breaks no constraint of the schema; it then leaves every
    table that the document carries merged with, or replaced by, the rows of the document, and every other table as it was
    (but for the routes of deleted trunks); an import that fails and a dry run change nothing, and a dry run reports what
    the import would report. *)
Theorem import_as_specified (now : string) (doc : ImportDoc) (mode : ImportMode) (db : Db) :
  schema db ->
  (import now doc mode true db).1 = (import now doc mode false db).1 /\
  (import now doc mode true db).2 = db /\
  match import now doc mode false db with
  | (Ok _, db') => acceptable doc mode (view db) /\ schema db' /\ view db' = imported now doc mode (view db)
  | (Err e, db') => ~ acceptable doc mode (view db) /\ db' = db /\ exists table key detail, e = Constraint table key detail
  end.
Proof.
  intros Hs. destruct (import_on_refines now doc mode db Hs) as [Hs' H]. unfold import.
  destruct (import_on now doc mode db) as [[rep|e] db']; cbn in *; (split; [done|]; split; [done|]).
  - destruct H as [(Ha & Hv & _)|(_ & t & k & d & [=])]. done.
  - destruct H as [(_ & _ & a & [=])|(Ha & t & k & d & [= ->])]. split; [done|]. split; [done|]. by do 3 eexists.
Qed.

Lemma elem_of_list_routes db r : schema db -> r ∈ list_routes db <-> routes db !! r_id r = Some r.
Proof. intros Hs. unfold list_routes. rewrite elem_of_order_by. by apply elem_of_routes. Qed.

Lemma put_all_list_routes db : schema db -> put_all natural_key (map (with_id 0) (list_routes db)) ∅ = route_view (routes db).
Proof.
  intros Hs. apply put_all_rows.
  - intros r. rewrite list_elem_of_fmap, route_view_spec by done. split.
    + intros (o & -> & Ho%elem_of_list_routes); [|done]. exists o. split; [|done]. by apply find_route_spec.
    + intros (o & [Ho _]%find_route_spec & ->); [|done]. exists o. split; [done|]. by apply elem_of_list_routes.
  - intros k r (o & [_ <-]%find_route_spec & ->)%route_view_spec; done.
Qed.

Lemma export_acceptable db v : schema db -> acceptable (export db) Replace v.
Proof.
  intros Hs. split_and!; cbn [export doc_routes doc_acl_rules doc_destination_rules default doc_trunks section].
  - apply Forall_forall. intros r Hr%elem_of_list_routes; [|done]. unfold list_trunks.
    rewrite put_all_list by apply (trunks_keyed db Hs). by apply (routes_to_trunks db Hs (r_id r)).
  - apply Forall_forall. intros r Hr%elem_of_order_by%elem_of_rows. destruct Hr as [k Hr]. by destruct (acl_keyed db Hs k r Hr).
  - apply Forall_forall. intros r Hr%elem_of_order_by%elem_of_rows. destruct Hr as [k Hr]. by destruct (destinations_keyed db Hs k r Hr).
Qed.

Lemma limit_setting_read mode k (o : option Z) m : (forall v, o = Some v -> 0 <= v <= u32_max) -> mode = Replace ->
  limit_spec mode (k, o) m !! k ≫= parse_uint u32_max = o.
Proof.
  intros Ho ->. unfold limit_spec. cbn. destruct o as [v|].
  - rewrite lookup_insert_eq. cbn. apply parse_show. by apply Ho.
  - by rewrite lookup_delete_eq.
Qed.

Lemma limit_setting_other mode k k' o m : k <> k' -> limit_spec mode (k, o) m !! k' = m !! k'.
Proof.
  intros Hne. unfold limit_spec. cbn. destruct o; [by rewrite lookup_insert_ne|]. destruct mode; [done|by rewrite lookup_delete_ne].
Qed.

Lemma mark_other now b k k' m : k <> k' -> mark_spec now b k m !! k' = m !! k'.
Proof. intros Hne. unfold mark_spec. destruct (b && _); [|done]. by rewrite lookup_insert_ne. Qed.

Lemma setting_u32_range k db v : setting_u32 k db = Some v -> 0 <= v <= u32_max.
Proof. unfold setting_u32. destruct (get_setting_on k db); [apply parse_uint_range|done]. Qed.

(** The settings an export carries, read back after its import. *)
Lemma exported_settings now db m : let m' := settings_spec now (export db) Replace m in
  m' !! ACL_DEFAULT_ACTION = Some (default "allow" (get_setting_on ACL_DEFAULT_ACTION db)) /\
  m' !! USER_LIMITS_DEFAULT_CONCURRENT ≫= parse_uint u32_max = setting_u32 USER_LIMITS_DEFAULT_CONCURRENT db /\
  m' !! USER_LIMITS_DEFAULT_CPM ≫= parse_uint u32_max = setting_u32 USER_LIMITS_DEFAULT_CPM db.
Proof.
  unfold settings_spec, export.
  cbn [doc_acl_default_action doc_user_limits doc_users doc_destination_rules limit_entries fold_left default_max_concurrent_calls
    default_max_calls_per_minute]. split_and!.
  - rewrite !mark_other, !limit_setting_other by done. apply lookup_insert_eq.
  - rewrite !mark_other, limit_setting_other by done. apply limit_setting_read; [|done]. apply setting_u32_range.
  - rewrite !mark_other by done. apply limit_setting_read; [|done]. apply setting_u32_range.
Qed.

(** C26: what a store exports can be imported with replacement into any store, which then holds the same users, DIDs, trunks,
    routes (up to their numbers) and rules, and exports the same access default and limits. *)
Theorem export_import (now : string) (db other : Db) :
  schema db -> schema other ->
  exists rep other', import now (export db) Replace false other = (Ok rep, other') /\ schema other' /\
    users other' = users db /\ dids other' = dids db /\ trunks other' = trunks db /\
    route_view (routes other') = route_view (routes db) /\
    acl_rules other' = acl_rules db /\ destination_rules other' = destination_rules db /\
    doc_acl_default_action (export other') = doc_acl_default_action (export db) /\
    doc_user_limits (export other') = doc_user_limits (export db).
Proof.
  intros Hs Ho. assert (Hacc := export_acceptable db (view other) Hs).
  destruct (import_on_refines now (export db) Replace other Ho) as [Hs' [(_ & Hv & rep & Hr)|[Hn _]]]; [|done].
  unfold import. destruct (import_on now (export db) Replace other) as [[r|e] other']; [|done]. injection Hr as ->. cbn [fst snd] in *.
  exists rep, other'. split; [done|]. split; [done|].
  assert (Hset := f_equal v_settings Hv). cbn [view v_settings imported] in Hset.
  destruct (exported_settings now db (settings other)) as (H1 & H2 & H3). rewrite <- Hset in H1, H2, H3.
  split_and!; [| | | | | | |].
  - rewrite <- (put_all_list u_username (users db) (on u_username String.compare)) by apply (users_keyed db Hs). exact (f_equal v_users Hv).
  - rewrite <- (put_all_list d_number (dids db) (on d_number String.compare)) by apply (dids_keyed db Hs). exact (f_equal v_dids Hv).
  - rewrite <- (put_all_list t_name (trunks db) (on t_name String.compare)) by apply (trunks_keyed db Hs). exact (f_equal v_trunks Hv).
  - rewrite <- (put_all_list_routes db Hs). exact (f_equal v_routes Hv).
  - etrans; [exact (f_equal v_acl Hv)|]. apply put_all_list. intros k r Hk. by destruct (acl_keyed db Hs k r Hk).
  - etrans; [exact (f_equal v_destinations Hv)|]. apply put_all_list. intros k r Hk. by destruct (destinations_keyed db Hs k r Hk).
  - unfold export. cbn [doc_acl_default_action]. unfold get_setting_on in *. by rewrite H1.
  - unfold export. cbn [doc_user_limits]. unfold setting_u32, get_setting_on in *. by rewrite H2, H3.
Qed.
End theorems.

(** ** Concrete instances *)

Module Witness.

Definition counter : RowIds.
Proof. refine {| next_id := Z.succ |}. intros seq. lia. Defined.
#[local] Existing Instance counter.

Definition trunk (n : string) : TrunkRow :=
  mkTrunkRow n true "trunk.example.com" 5060 "UDP" false None None None false 300 "[]" 100 100 0 "e164" None None None None None
    "[]" 100 None None true None None.
Definition route (p t : string) (prio : Z) : RouteRow := mkRouteRow 0 p t prio true None.
Definition user (n : string) : UserRow := mkUserRow n "0123456789abcdef0123456789abcdef" "sip.example.com" None true None None.
Definition acl (i : string) : AclRuleRow := mkAclRow i "203.0.113.0/24" "deny" "inbound" 100 true None.
Definition dest (i : string) : DestinationRuleRow := mkDestRow i "+882" "deny" None "" true.

Definition seeding : Tx unit :=
  do! _ := upsert_trunk_on (trunk "t1") in
  do! _ := upsert_trunk_on (trunk "t2") in
  do! _ := insert_route (route "+33" "t1" 10) in
  do! _ := insert_route (route "+44" "t2" 30) in
  do! _ := upsert_user_on (user "a") in
  do! _ := upsert_acl_rule_on (acl "r1") in
  do! _ := upsert_destination_rule_on (dest "d1") in
  set_setting_on USER_LIMITS_DEFAULT_CPM "30".

Definition seeded : Db := (seeding empty_db).2.

Lemma seeded_schema : schema seeded.
Proof.
  unfold seeded, seeding. apply (tkeeps_bind schema); [|intros _|apply empty_schema]; [auto with store|].
  repeat (apply tkeeps_bind; [auto with store|intros _]). auto with store.
Qed.

(** A replacement that drops a trunk drops its route, one whose route has no
    trunk is refused. *)
Definition doc (routes : list RouteRow) : ImportDoc :=
  mkDoc (Some [user "b"]) None (Some [trunk "t1"]) (Some routes) None (Some "deny") (Some []) None.

Lemma replaced :
  (list_routes (import "now" (doc [route "+33" "t1" 5]) Replace false seeded).2 = [with_id 1 (route "+33" "t1" 5)]) /\
  (import "now" (doc [route "+44" "t2" 5]) Replace false seeded).1 = Err (Constraint "routes" "+44 → t2" ForeignKey).
Proof. split; vm_compute; reflexivity. Qed.

Lemma import_as_specified_witness :
  schema seeded /\
  let r := import "now" (doc [route "+33" "t1" 5]) Replace false seeded in
  (import "now" (doc [route "+33" "t1" 5]) Replace true seeded).1 = r.1 /\
  (import "now" (doc [route "+33" "t1" 5]) Replace true seeded).2 = seeded /\
  match r with
  | (Ok _, db') => acceptable (doc [route "+33" "t1" 5]) Replace (view seeded) /\ schema db' /\
                   view db' = imported "now" (doc [route "+33" "t1" 5]) Replace (view seeded)
  | (Err e, db') => ~ acceptable (doc [route "+33" "t1" 5]) Replace (view seeded) /\ db' = seeded /\
                    exists table key detail, e = Constraint table key detail
  end.
Proof. split; [exact seeded_schema|]. apply import_as_specified. exact seeded_schema. Defined.

Lemma export_import_witness : schema seeded /\ schema empty_db /\
  exists rep other', import "now" (export seeded) Replace false empty_db = (Ok rep, other') /\ schema other' /\
    users other' = users seeded /\ dids other' = dids seeded /\ trunks other' = trunks seeded /\
    route_view (routes other') = route_view (routes seeded) /\
    acl_rules other' = acl_rules seeded /\ destination_rules other' = destination_rules seeded /\
    doc_acl_default_action (export other') = doc_acl_default_action (export seeded) /\
    doc_user_limits (export other') = doc_user_limits (export seeded).
Proof.
  split; [exact seeded_schema|]. split; [exact empty_schema|]. apply export_import; [exact seeded_schema|exact empty_schema].
Defined.
End Witness.
