(* ===== verification/Bytes.v ===== *)
(** * Byte strings

    Packets are lists of bytes, a byte a [Z] in [0, 255]. Big-endian encoding,
    slices and exclusive or, with the round trips the codecs use. *)

From S2P Require Import Prelude Str.

Abbreviation bytes := (list Z).

Definition is_bytes (l : bytes) : Prop := Forall is_u8 l.

#[export] Instance is_bytes_dec l : Decision (is_bytes l).
Proof. unfold is_bytes. apply _. Defined.

(** [from_be_bytes], [to_be_bytes] *)
Definition be_val (l : bytes) : Z := fold_left (fun a b => a * 256 + b) l 0.

Fixpoint be_bytes (n : nat) (v : Z) : bytes :=
  match n with
  | O => []
  | S n => be_bytes n (v / 256) ++ [v mod 256]
  end.

(** [l[a..b]], [l[i]] *)
Definition slice (a b : nat) (l : bytes) : bytes := take (b - a) (drop a l).
Definition byte_at (i : nat) (l : bytes) : Z := default 0 (l !! i).
Definition u16_at (i : nat) (l : bytes) : Z := be_val (slice i (i + 2) l).
Definition u32_at (i : nat) (l : bytes) : Z := be_val (slice i (i + 4) l).

Definition xor_bytes (a b : bytes) : bytes := zip_with Z.lxor a b.

Definition blen (l : bytes) : Z := Z.of_nat (length l).

(** Lower-case hexadecimal, two digits a byte. *)
Definition hex_digit (n : Z) : ascii := ascii_of_N (Z.to_N (if n <? 10 then 48 + n else 87 + n)).
Fixpoint hex_bytes (b : bytes) : string :=
  match b with
  | [] => ""
  | x :: b => String (hex_digit (Z.shiftr x 4)) (String (hex_digit (Z.land x 15)) (hex_bytes b))
  end.

(** ** Big-endian numbers *)

Lemma be_val_snoc l b : be_val (l ++ [b]) = be_val l * 256 + b.
Proof. unfold be_val. by rewrite fold_left_app. Qed.

Lemma be_val_nonneg l : is_bytes l -> 0 <= be_val l < 256 ^ blen l.
Proof.
  induction l as [|b l IH] using rev_ind; intros H; [done|].
  apply Forall_app in H as [Hl Hb]. inversion Hb as [|? ? Hb' _]; subst.
  specialize (IH Hl). rewrite be_val_snoc. unfold blen in *. rewrite length_app. simpl.
  rewrite Nat2Z.inj_add, Z.pow_add_r by lia. change (256 ^ Z.of_nat 1) with 256.
  unfold is_uw in Hb'. nia.
Qed.

Lemma be_val_app l1 l2 : be_val (l1 ++ l2) = be_val l1 * 256 ^ blen l2 + be_val l2.
Proof.
  unfold blen. induction l2 as [|b l IH] using rev_ind.
  { rewrite app_nil_r. change (be_val []) with 0. simpl. lia. }
  rewrite app_assoc, !be_val_snoc, IH, length_app. simpl.
  rewrite Nat2Z.inj_add, Z.pow_add_r by lia. change (256 ^ Z.of_nat 1) with 256. lia.
Qed.

Lemma length_be_bytes n v : length (be_bytes n v) = n.
Proof. revert v. induction n as [|n IH]; intros v; simpl; [done|]. rewrite length_app, IH. simpl. lia. Qed.

Lemma be_bytes_is_bytes n v : is_bytes (be_bytes n v).
Proof.
  revert v. induction n as [|n IH]; intros v; simpl; [constructor|].
  apply Forall_app. split; [apply IH|]. repeat constructor; unfold is_uw; zlia.
Qed.

Lemma be_val_bytes n v : be_val (be_bytes n v) = v mod 256 ^ Z.of_nat n.
Proof.
  revert v. induction n as [|n IH]; intros v; [by rewrite Z.mod_1_r|].
  simpl be_bytes. rewrite be_val_snoc, IH, Nat2Z.inj_succ, Z.pow_succ_r by lia.
  rewrite (Z.rem_mul_r v 256) by lia. lia.
Qed.

Lemma be_val_bytes_small n v : 0 <= v < 256 ^ Z.of_nat n -> be_val (be_bytes n v) = v.
Proof. intros. rewrite be_val_bytes. by apply Z.mod_small. Qed.

Lemma be_bytes_val l : is_bytes l -> be_bytes (length l) (be_val l) = l.
Proof.
  induction l as [|b l IH] using rev_ind; intros H; [done|].
  apply Forall_app in H as [Hl Hb]. inversion Hb as [|? ? Hb' _]; subst.
  rewrite length_app, Nat.add_comm, be_val_snoc. simpl. unfold is_uw in Hb'.
  rewrite Z.div_add_l by lia. rewrite Z.div_small, Z.add_0_r by lia.
  rewrite IH by done. f_equal. f_equal. zlia.
Qed.

Lemma be_val_inj l1 l2 :
  is_bytes l1 -> is_bytes l2 -> length l1 = length l2 -> be_val l1 = be_val l2 -> l1 = l2.
Proof.
  intros H1 H2 Hl Hv. by rewrite <- (be_bytes_val l1), <- (be_bytes_val l2), Hl, Hv.
Qed.

Lemma be_bytes_inj n v w :
  0 <= v < 256 ^ Z.of_nat n -> 0 <= w < 256 ^ Z.of_nat n -> be_bytes n v = be_bytes n w -> v = w.
Proof. intros. rewrite <- (be_val_bytes_small n v), <- (be_val_bytes_small n w) by done. by f_equal. Qed.

(** ** Exclusive or *)

Lemma xor_involutive a k : (length a <= length k)%nat -> xor_bytes (xor_bytes a k) k = a.
Proof.
  unfold xor_bytes. revert k. induction a as [|x a IH]; intros [|y k] Hl; simpl in *; try done; [lia|].
  rewrite Z.lxor_assoc, Z.lxor_nilpotent, Z.lxor_0_r. f_equal. apply IH. lia.
Qed.

Lemma length_xor a b : length (xor_bytes a b) = Nat.min (length a) (length b).
Proof. apply length_zip_with. Qed.

Lemma byte_bits x : is_u8 x <-> 0 <= x /\ forall n, 8 <= n -> Z.testbit x n = false.
Proof.
  unfold is_uw. split.
  - intros [H1 H2]. split; [done|]. intros n Hn.
    destruct (decide (x = 0)) as [->|]; [apply Z.testbit_0_l|].
    apply Z.bits_above_log2; [done|]. apply Z.log2_lt_pow2 in H2; lia.
  - intros [H1 Hb]. split; [done|]. destruct (decide (x < 2 ^ 8)) as [|Hge]; [done|].
    assert (8 <= Z.log2 x) by (apply Z.log2_le_pow2; lia).
    specialize (Hb (Z.log2 x)). rewrite Z.bit_log2 in Hb by lia. lia.
Qed.

Lemma lxor_byte x y : is_u8 x -> is_u8 y -> is_u8 (Z.lxor x y).
Proof.
  intros [Hx Hx'] % byte_bits [Hy Hy'] % byte_bits. apply byte_bits. split.
  - by apply Z.lxor_nonneg.
  - intros n Hn. by rewrite Z.lxor_spec, Hx', Hy'.
Qed.

Lemma xor_is_bytes a b : is_bytes a -> is_bytes b -> is_bytes (xor_bytes a b).
Proof.
  unfold xor_bytes. intros Ha. revert b. induction Ha as [|x a Hx Ha IH]; intros b Hb; [constructor|].
  inversion Hb as [|y b' Hy Hb']; simpl; constructor; [by apply lxor_byte|by apply IH].
Qed.

Lemma lxor_split x y a b :
  is_u8 a -> is_u8 b -> Z.lxor (x * 256 + a) (y * 256 + b) = Z.lxor x y * 256 + Z.lxor a b.
Proof.
  intros Ha Hb. assert (Hab := lxor_byte a b Ha Hb).
  assert (Hs : forall u c, is_u8 c -> u * 256 + c = Z.lor (Z.shiftl u 8) c).
  { intros u c Hc. rewrite Z.shiftl_mul_pow2 by lia. change (2 ^ 8) with 256.
    symmetry. rewrite <- Z.add_lor_land. replace (Z.land (u * 256) c) with 0; [lia|].
    symmetry. apply Z.bits_inj'. intros n Hn. rewrite Z.land_spec, Z.bits_0.
    change 256 with (2 ^ 8). destruct (decide (n < 8)).
    - by rewrite Z.mul_pow2_bits_low.
    - apply byte_bits in Hc as [_ Hc]. rewrite Hc by lia. apply andb_false_r. }
  rewrite !Hs by done. apply Z.bits_inj'. intros n Hn.
  rewrite ?Z.lxor_spec, ?Z.lor_spec, ?Z.lxor_spec. apply byte_bits in Ha as [_ Ha], Hb as [_ Hb].
  destruct (decide (n < 8)).
  - rewrite !Z.shiftl_spec_low by done. done.
  - rewrite !Z.shiftl_spec by done. rewrite Ha, Hb, Z.lxor_spec by lia. by rewrite !orb_false_r.
Qed.

Lemma be_val_xor a b :
  is_bytes a -> is_bytes b -> length a = length b ->
  be_val (xor_bytes a b) = Z.lxor (be_val a) (be_val b).
Proof.
  revert b. induction a as [|x a IH] using rev_ind; intros b Ha Hb Hl.
  { by destruct b. }
  destruct b as [|y b _] using rev_ind; [by rewrite length_app in Hl; simpl in Hl; lia|].
  apply Forall_app in Ha as [Ha Hx], Hb as [Hb Hy].
  inversion Hx as [|? ? Hx' _]; inversion Hy as [|? ? Hy' _]; subst.
  rewrite !length_app in Hl. simpl in Hl. unfold xor_bytes.
  rewrite zip_with_app by lia. simpl. rewrite !be_val_snoc.
  change (zip_with Z.lxor a b) with (xor_bytes a b). rewrite IH by (done || lia).
  by rewrite lxor_split.
Qed.

(** ** Slices *)

Lemma slice_app_l a b l1 l2 : (b <= length l1)%nat -> slice a b (l1 ++ l2) = slice a b l1.
Proof.
  intros Hb. unfold slice. destruct (decide (a <= length l1)%nat).
  - rewrite drop_app_le by lia. apply take_app_le. rewrite length_drop. lia.
  - rewrite (drop_ge l1) by lia. replace (b - a)%nat with 0%nat by lia. done.
Qed.

Lemma length_slice a b l : (b <= length l)%nat -> length (slice a b l) = (b - a)%nat.
Proof. intros. unfold slice. rewrite length_take, length_drop. lia. Qed.

Lemma slice_is_bytes a b l : is_bytes l -> is_bytes (slice a b l).
Proof. intros. by apply Forall_take, Forall_drop. Qed.

Lemma u16_at_app i l1 l2 : (i + 2 <= length l1)%nat -> u16_at i (l1 ++ l2) = u16_at i l1.
Proof. intros. unfold u16_at. by rewrite slice_app_l. Qed.

Lemma u32_at_app i l1 l2 : (i + 4 <= length l1)%nat -> u32_at i (l1 ++ l2) = u32_at i l1.
Proof. intros. unfold u32_at. by rewrite slice_app_l. Qed.

Lemma byte_at_app i l1 l2 : (i < length l1)%nat -> byte_at i (l1 ++ l2) = byte_at i l1.
Proof. intros. unfold byte_at. by rewrite lookup_app_l. Qed.

Lemma be_val_slice_range a n l : is_bytes l -> 0 <= be_val (slice a (a + n) l) < 256 ^ Z.of_nat n.
Proof.
  intros Hl. assert (H := be_val_nonneg _ (slice_is_bytes a (a + n) l Hl)).
  split; [lia|]. eapply Z.lt_le_trans; [apply H|]. apply Z.pow_le_mono_r; [lia|].
  unfold blen, slice. rewrite length_take. lia.
Qed.

Lemma u16_at_range i l : is_bytes l -> is_u16 (u16_at i l).
Proof. intros. apply (be_val_slice_range i 2 l). done. Qed.

Lemma u32_at_range i l : is_bytes l -> is_u32 (u32_at i l).
Proof. intros. apply (be_val_slice_range i 4 l). done. Qed.

Lemma byte_at_range i l : is_bytes l -> is_u8 (byte_at i l).
Proof.
  intros Hl. unfold byte_at. destruct (l !! i) as [b|] eqn:E; [|done]. simpl.
  unfold is_bytes in Hl. rewrite Forall_lookup in Hl. eauto.
Qed.

#[export] Hint Resolve u16_at_range u32_at_range byte_at_range slice_is_bytes
  be_bytes_is_bytes xor_is_bytes : sbc.

Lemma slice_app_r pre l a b : slice (length pre + a) (length pre + b) (pre ++ l) = slice a b l.
Proof.
  unfold slice. rewrite drop_app_ge by lia.
  replace (length pre + a - length pre)%nat with a by lia. f_equal. lia.
Qed.

Lemma u16_at_app_r pre l i : u16_at (length pre + i) (pre ++ l) = u16_at i l.
Proof. unfold u16_at. rewrite <- Nat.add_assoc. by rewrite slice_app_r. Qed.

Lemma u32_at_app_r pre l i : u32_at (length pre + i) (pre ++ l) = u32_at i l.
Proof. unfold u32_at. rewrite <- Nat.add_assoc. by rewrite slice_app_r. Qed.

Lemma slice_all l : slice 0 (length l) l = l.
Proof. unfold slice. rewrite Nat.sub_0_r, drop_0. by apply take_ge. Qed.

Lemma slice_prefix l1 l2 : slice 0 (length l1) (l1 ++ l2) = l1.
Proof. rewrite slice_app_l by done. apply slice_all. Qed.

Lemma slice_mid l1 l2 l3 : slice (length l1) (length l1 + length l2) (l1 ++ l2 ++ l3) = l2.
Proof.
  assert (H := slice_app_r l1 (l2 ++ l3) 0 (length l2)). rewrite Nat.add_0_r in H.
  by rewrite H, slice_prefix.
Qed.

Lemma be_val_2 x : is_u16 x -> be_val (be_bytes 2 x) = x.
Proof. intros. by apply be_val_bytes_small. Qed.

Lemma be_val_4 x : is_u32 x -> be_val (be_bytes 4 x) = x.
Proof. intros. by apply be_val_bytes_small. Qed.

Lemma u16_head x l : is_u16 x -> u16_at 0 (be_bytes 2 x ++ l) = x.
Proof.
  intros Hx. unfold u16_at. assert (H := slice_prefix (be_bytes 2 x) l).
  rewrite length_be_bytes in H. change (0 + 2)%nat with 2%nat. rewrite H. by apply be_val_2.
Qed.

Lemma u32_head x l : is_u32 x -> u32_at 0 (be_bytes 4 x ++ l) = x.
Proof.
  intros Hx. unfold u32_at. assert (H := slice_prefix (be_bytes 4 x) l).
  rewrite length_be_bytes in H. change (0 + 4)%nat with 4%nat. rewrite H. by apply be_val_4.
Qed.

(** Reads at the length of a prefix. *)
Lemma u16_at_mid pre l n : n = length pre -> u16_at n (pre ++ l) = u16_at 0 l.
Proof. intros ->. rewrite <- (u16_at_app_r pre l 0). by rewrite Nat.add_0_r. Qed.

Lemma u32_at_mid pre l n : n = length pre -> u32_at n (pre ++ l) = u32_at 0 l.
Proof. intros ->. rewrite <- (u32_at_app_r pre l 0). by rewrite Nat.add_0_r. Qed.

Lemma xor_zero_r l n : (length l <= n)%nat -> xor_bytes l (replicate n 0) = l.
Proof.
  unfold xor_bytes. revert n. induction l as [|x l IH]; intros [|n] Hl; simpl in *; try done; [lia|].
  rewrite Z.lxor_0_r, IH by lia. done.
Qed.

Lemma lxor_range w a b : 0 <= w -> is_uw w a -> is_uw w b -> is_uw w (Z.lxor a b).
Proof.
  intros Hw [Ha Ha'] [Hb Hb']. unfold is_uw. assert (0 <= Z.lxor a b) by by apply Z.lxor_nonneg.
  split; [done|]. destruct (decide (Z.lxor a b = 0)) as [->|Hne]; [lia|].
  apply Z.log2_lt_pow2; [lia|].
  destruct (decide (a = 0)) as [->|]; [rewrite Z.lxor_0_l in *; apply Z.log2_lt_pow2; lia|].
  destruct (decide (b = 0)) as [->|]; [rewrite Z.lxor_0_r in *; apply Z.log2_lt_pow2; lia|].
  eapply Z.le_lt_trans; [by apply Z.log2_lxor|].
  apply Z.max_lub_lt; apply Z.log2_lt_pow2; lia.
Qed.

(** ** Hexadecimal *)

Definition is_lower_hex (c : ascii) : bool := is_digit c || ((97 <=? code c) && (code c <=? 102)).

Lemma hex_digit_lower n : 0 <= n < 16 -> is_lower_hex (hex_digit n) = true.
Proof. intros H. enum_below n 16%nat; reflexivity. Qed.

Lemma hex_bytes_lower b : is_bytes b -> sall is_lower_hex (hex_bytes b) = true.
Proof.
  induction 1 as [|x b Hx Hb IH]; [done|]. cbn [hex_bytes sall]. rewrite IH, !hex_digit_lower; [done| |].
  - change 15 with (Z.ones 4). rewrite Z.land_ones by lia. apply Z.mod_pos_bound. lia.
  - rewrite Z.shiftr_div_pow2 by lia. unfold is_uw in Hx. zlia.
Qed.
