(* ===== verification/Framing.v ===== *)
(** * Messages in a byte stream (transport/mod.rs, tcp.rs, tls.rs, tls_connect.rs)

    TCP and TLS carry SIP messages one after the other, cut anywhere. The framer
    finds the message at the front of what was read; the reader of a connection
    drains it, message by message, and hands each to the parser. *)

From S2P Require Import Prelude Str.

(** ** The framer *)

Definition MAX_SIP_MESSAGE : Z := 65535.
Definition usize_max : Z := u64_max.

Inductive Framing := Message (end_ : nat) | Keepalive (count : nat) | Incomplete | Malformed (why : string).

Definition len (s : string) : Z := Z.of_nat (String.length s).

Definition is_eol (c : ascii) : bool := bool_decide (c = "013"%char) || bool_decide (c = "010"%char).

Fixpoint leading_eols (s : string) : nat :=
  match s with
  | "" => 0
  | String c s => if is_eol c then S (leading_eols s) else 0
  end.

Definition names_length (line : string) : bool :=
  let lower := to_ascii_lowercase line in starts_with "content-length:" lower || starts_with "l:" lower.

(** The first header line that gives a length decides. *)
Fixpoint content_length (ls : list string) : result string Z :=
  match ls with
  | [] => Ok 0
  | line :: rest =>
      if names_length line then
        match nth_error (split ":" line) 1 with
        | None => Err "Content-Length without a value"
        | Some value => ok_or (parse_uint usize_max (trim value)) "Content-Length is not a number"
        end
      else content_length rest
  end.

Definition checked_add (a b : Z) : option Z := if a + b <=? usize_max then Some (a + b) else None.

Definition HEADER_END : string := CRLF +:+ CRLF.

Definition frame_at (buffer : string) (header_end : nat) : Framing :=
  let headers := stake header_end buffer in
  if negb (is_utf8 headers) then Malformed "non-UTF-8 header section"
  else
    match content_length (lines headers) with
    | Err why => Malformed why
    | Ok n =>
        if MAX_SIP_MESSAGE <? n then Malformed "Content-Length over 64 KiB"
        else
          match checked_add (Z.of_nat header_end) 4 ≫= (fun e => checked_add e n) with
          | None => Malformed "Content-Length overflows the message end"
          | Some e => if e <=? len buffer then Message (Z.to_nat e) else Incomplete
          end
    end.

Definition frame_sip_message (buffer : string) : Framing :=
  let skip := leading_eols buffer in
  if (0 <? skip)%nat then Keepalive skip
  else
    match find_str HEADER_END buffer with
    | None =>
        if MAX_SIP_MESSAGE <? len buffer then Malformed "header section over 64 KiB with no terminator"
        else Incomplete
    | Some header_end => frame_at buffer header_end
    end.

(** ** The reader of a connection *)

Section reader.
Context {Sip : Type} (parse : string -> option Sip).

Record Reader := mkReader {
  buffer : string;
  received : list Sip;
  closed : option string
}.

Definition new_reader : Reader := mkReader "" [] None.

(** The frames drained from the front of what was read, what is left, and why
    the connection closes. Without fuel, [None]. *)
Fixpoint drain (fuel : nat) (b : string) : option (list string * string * option string) :=
  match fuel with
  | O => None
  | S fuel =>
      match frame_sip_message b with
      | Keepalive count => drain fuel (sdrop count b)
      | Message e => (fun '(ms, b', why) => (stake e b :: ms, b', why)) <$> drain fuel (sdrop e b)
      | Incomplete => Some ([], b, None)
      | Malformed why => Some ([], b, Some why)
      end
  end.

Definition drain_all (b : string) : list string * string * option string :=
  default ([], b, None) (drain (S (String.length b)) b).

(** One read of the connection; a frame that does not parse is dropped. *)
Definition read (chunk : string) (r : Reader) : Reader :=
  match closed r with
  | Some _ => r
  | None =>
      let '(frames, b, why) := drain_all (buffer r +:+ chunk) in
      mkReader b (received r ++ omap parse frames) why
  end.

Definition handle_connection (chunks : list string) : Reader := fold_left (fun r c => read c r) chunks new_reader.
End reader.
Arguments Reader : clear implicits.

(** ** Strings cut in two ways *)

Lemma sapp_inj (a b c : string) : a +:+ b = a +:+ c -> b = c.
Proof. induction a as [|x a IH]; cbn; [done|]. intros [= H]. by apply IH. Qed.

Lemma sapp_cases (a b c d : string) :
  a +:+ b = c +:+ d ->
  (exists e, e <> "" /\ c = a +:+ e /\ b = e +:+ d) \/ (exists e, a = c +:+ e /\ d = e +:+ b).
Proof.
  revert c. induction a as [|x a IH]; intros [|y c]; cbn; intros H.
  - right. by exists "".
  - left. by exists (String y c).
  - right. by exists (String x a).
  - injection H as -> H. destruct (IH c H) as [(e & He & -> & ->)|(e & -> & ->)]; [left|right]; by exists e.
Qed.

Lemma sapp_split (a b c d : string) :
  a +:+ b = c +:+ d -> (exists e, c = a +:+ e /\ b = e +:+ d) \/ (exists e, e <> "" /\ a = c +:+ e /\ d = e +:+ b).
Proof.
  intros H. destruct (sapp_cases _ _ _ _ H) as [(e & _ & He)|(e & He & Hd)]; [left; by exists e|].
  destruct (decide (e = "")) as [->|Hn]; [left|right; by exists e]. exists "". by rewrite He, Hd, !sapp_nil_r.
Qed.

Lemma starts_with_app p a b : starts_with p a = true -> starts_with p (a +:+ b) = true.
Proof. rewrite !starts_with_spec. intros [t ->]. exists (t +:+ b). by rewrite sapp_assoc. Qed.

Lemma starts_with_short p a b :
  (String.length p <= String.length a)%nat -> starts_with p (a +:+ b) = starts_with p a.
Proof.
  intros Hl. destruct (starts_with p a) eqn:Ha; [by apply starts_with_app|].
  destruct (starts_with p (a +:+ b)) eqn:Hb; [|done]. rewrite <- Ha. symmetry. apply starts_with_spec in Hb as [t Ht].
  apply sapp_cases in Ht as [(e & He & -> & _)|(e & -> & _)].
  - rewrite slength_app in Hl. destruct e; [done|]. cbn in Hl. lia.
  - apply starts_with_spec. by exists e.
Qed.

Lemma found_within p a h : find_str p a = Some h -> (h + String.length p <= String.length a)%nat.
Proof.
  revert h. induction a as [|x a IH]; intros h H; cbn [find_str] in H.
  - destruct (starts_with p "") eqn:Hs; [|done]. injection H as <-. apply starts_with_spec in Hs as [t Ht].
    apply (f_equal String.length) in Ht. rewrite slength_app in Ht. cbn in *. lia.
  - destruct (starts_with p (String x a)) eqn:Hs.
    + injection H as <-. apply starts_with_spec in Hs as [t ->]. rewrite slength_app. lia.
    + destruct (find_str p a) as [k|]; [|done]. injection H as <-. specialize (IH k eq_refl). cbn [String.length]. lia.
Qed.

(** A string is found in a prefix exactly when it is found in time. *)
Lemma find_str_app p a b h :
  p <> "" -> find_str p (a +:+ b) = Some h ->
  find_str p a = if (h + String.length p <=? String.length a)%nat then Some h else None.
Proof.
  intros Hp. revert h. induction a as [|x a IH]; intros h H.
  - destruct p as [|c p]; [done|]. cbn [String.length]. destruct (Nat.leb_spec (h + S (String.length p)) 0); [lia|done].
  - rewrite sapp_cons, find_str_step in H. rewrite find_str_step. rewrite <- sapp_cons in H.
    destruct (starts_with p (String x a +:+ b)) eqn:Hs.
    + injection H as <-. cbn [plus]. destruct (Nat.leb_spec (String.length p) (String.length (String x a))) as [Hl|Hl].
      * rewrite starts_with_short in Hs by done. by rewrite Hs.
      * rewrite <- find_str_step. destruct (find_str p (String x a)) as [k|] eqn:Hk; [|done]. apply found_within in Hk. lia.
    + assert (Hx : starts_with p (String x a) = false).
      { destruct (starts_with p (String x a)) eqn:Ha; [|done]. by rewrite (starts_with_app _ _ b Ha) in Hs. }
      rewrite Hx. destruct (find_str p (a +:+ b)) as [k|] eqn:Hk; [|done]. injection H as <-. rewrite (IH k eq_refl).
      cbn [String.length].
      destruct (Nat.leb_spec (k + String.length p) (String.length a)), (Nat.leb_spec (S k + String.length p) (S (String.length a))); done || lia.
Qed.

Lemma find_str_extend p a b h : p <> "" -> find_str p a = Some h -> find_str p (a +:+ b) = Some h.
Proof.
  intros Hp. revert h. induction a as [|x a IH]; intros h H.
  - destruct p; [done|]. by cbn in H.
  - rewrite find_str_step in H. rewrite sapp_cons, find_str_step, <- sapp_cons.
    destruct (starts_with p (String x a)) eqn:Hs; [by rewrite starts_with_app|].
    destruct (find_str p a) as [k|] eqn:Hk; [|done]. injection H as <-.
    destruct (starts_with p (String x a +:+ b)) eqn:Hl; [|by rewrite (IH k eq_refl)]. exfalso.
    assert (Hf : find_str p (String x a +:+ b) = Some 0%nat) by by rewrite sapp_cons, find_str_step, <- sapp_cons, Hl.
    apply find_str_app in Hf; [|done]. rewrite find_str_step, Hs, Hk in Hf. by destruct (_ <=? _)%nat.
Qed.

Lemma stake_short n a b : (n <= String.length a)%nat -> stake n (a +:+ b) = stake n a.
Proof.
  revert n. induction a as [|x a IH]; intros [|n] H; try done; cbn in *; [lia|]. f_equal. apply IH. lia.
Qed.

Lemma sdrop_length n s : String.length (sdrop n s) = (String.length s - n)%nat.
Proof. revert n. induction s as [|c s IH]; intros [|n]; cbn; [done..|]. apply IH. Qed.

Lemma leading_eols_le s : (leading_eols s <= String.length s)%nat.
Proof. induction s as [|c s IH]; cbn; [lia|]. destruct (is_eol c); lia. Qed.

Lemma leading_eols_stake s : sall is_eol (stake (leading_eols s) s) = true.
Proof.
  induction s as [|c s IH]; [done|]. cbn [leading_eols]. destruct (is_eol c) eqn:Hc; [|done]. cbn [stake sall]. by rewrite Hc, IH.
Qed.

Lemma leading_eols_app a b : leading_eols a = 0%nat -> a <> "" -> leading_eols (a +:+ b) = 0%nat.
Proof. destruct a as [|c a]; [done|]. rewrite sapp_cons. cbn [leading_eols]. by destruct (is_eol c). Qed.

(** ** The framer *)

Lemma content_length_nonneg ls n : content_length ls = Ok n -> 0 <= n.
Proof.
  induction ls as [|l ls IH]; cbn [content_length]; [by intros [= <-]|].
  destruct (names_length l); [|exact IH]. case_match; [|done]. unfold ok_or. case_match eqn:Hp; [|done]. intros [= <-].
  apply parse_uint_range in Hp. lia.
Qed.

(** What a frame takes from the front is there, and is not nothing. *)
Lemma frame_progress b :
  match frame_sip_message b with
  | Message e => (0 < e <= String.length b)%nat
  | Keepalive n => (0 < n <= String.length b)%nat
  | _ => True
  end.
Proof.
  unfold frame_sip_message. assert (Hl := leading_eols_le b). destruct (Nat.ltb_spec 0 (leading_eols b)); [lia|].
  destruct (find_str HEADER_END b) as [h|] eqn:Hf; [|by destruct (_ <? _)].
  unfold frame_at. destruct (negb _); [done|]. destruct (content_length _) as [n|] eqn:Hn; [|done].
  destruct (_ <? n); [done|]. unfold checked_add. cbn [mbind option_bind].
  destruct (_ <=? usize_max); [|done]. cbn [mbind option_bind]. destruct (_ <=? usize_max); [|done].
  destruct (Z.leb_spec (Z.of_nat h + 4 + n) (len b)) as [Hle|]; [|done].
  apply content_length_nonneg in Hn. unfold len in Hle. lia.
Qed.

Lemma frame_at_app a b h : (h <= String.length a)%nat -> forall e, frame_at (a +:+ b) h = Message e ->
  frame_at a h = if (e <=? String.length a)%nat then Message e else Incomplete.
Proof.
  intros Hh e. unfold frame_at. rewrite (stake_short h a b) by done. destruct (negb _); [done|].
  destruct (content_length _) as [n|]; [|done]. destruct (_ <? n); [done|]. destruct (checked_add _ _ ≫= _) as [x|]; [|done].
  unfold len. destruct (Z.leb_spec x (Z.of_nat (String.length (a +:+ b)))); [|done]. intros [= <-].
  destruct (Z.leb_spec x (Z.of_nat (String.length a))), (Nat.leb_spec (Z.to_nat x) (String.length a)); done || lia.
Qed.

(** A frame stays one when more is read. *)
Lemma frame_extends a b e : frame_sip_message a = Message e -> frame_sip_message (a +:+ b) = Message e.
Proof.
  unfold frame_sip_message. destruct (Nat.ltb_spec 0 (leading_eols a)); [done|].
  destruct (find_str HEADER_END a) as [h|] eqn:Hf; [|by destruct (_ <? _)]. intros Hm.
  rewrite leading_eols_app; [|lia|by intros ->]. cbn [Nat.ltb Nat.leb]. rewrite (find_str_extend _ _ _ h) by done.
  revert Hm. unfold frame_at. rewrite stake_short by (apply found_within in Hf; lia). destruct (negb _); [done|].
  destruct (content_length _) as [n|]; [|done]. destruct (_ <? n); [done|]. destruct (checked_add _ _ ≫= _) as [x|]; [|done].
  unfold len. rewrite slength_app. destruct (Z.leb_spec x (Z.of_nat (String.length a))); [|done]. intros [= <-].
  destruct (Z.leb_spec x (Z.of_nat (String.length a + String.length b))); [done|lia].
Qed.

(** A message: all of it is one frame, and its header section is within the
    cap. *)
Definition message (m : string) : Prop :=
  frame_sip_message m = Message (String.length m) /\
  forall h, find_str HEADER_END m = Some h -> Z.of_nat h + 3 <= MAX_SIP_MESSAGE.

Lemma message_part a b : message (a +:+ b) -> b <> "" -> frame_sip_message a = Incomplete.
Proof.
  intros [Hm Hh] Hb. destruct (decide (a = "")) as [->|Ha]; [by vm_compute|].
  unfold frame_sip_message in *. destruct (Nat.ltb_spec 0 (leading_eols (a +:+ b))) as [|Hl]; [done|].
  assert (Hz : leading_eols a = 0%nat).
  { destruct a as [|c a]; [done|]. rewrite sapp_cons in Hl. cbn [leading_eols] in *. destruct (is_eol c); [lia|done]. }
  rewrite Hz. cbn [Nat.ltb Nat.leb]. destruct (find_str HEADER_END (a +:+ b)) as [h|] eqn:Hf; [|by destruct (_ <? _)].
  rewrite (find_str_app HEADER_END a b h ltac:(done) Hf). change (String.length HEADER_END) with 4%nat.
  destruct (Nat.leb_spec (h + 4) (String.length a)) as [Hle|Hgt].
  - rewrite (frame_at_app a b h ltac:(lia) _ Hm). rewrite slength_app.
    destruct (Nat.leb_spec (String.length a + String.length b) (String.length a)); [|done]. destruct b; [done|]. cbn in *. lia.
  - specialize (Hh h eq_refl). unfold len. destruct (Z.ltb_spec MAX_SIP_MESSAGE (Z.of_nat (String.length a))); [lia|done].
Qed.

(** ** The stream *)

(** What a peer writes: messages, and line ends between them. *)
Inductive Part := Msg (m : string) | Eols (k : string).

Definition part_text (p : Part) : string := match p with Msg m => m | Eols k => k end.
Definition well_formed (p : Part) : Prop := match p with Msg m => message m | Eols k => sall is_eol k = true end.
Definition stream (ps : list Part) : string := foldr (fun p s => part_text p +:+ s) "" ps.
Definition messages (ps : list Part) : list string := omap (fun p => match p with Msg m => Some m | Eols _ => None end) ps.

Lemma message_head c m : message (String c m) -> is_eol c = false.
Proof. intros [H _]. unfold frame_sip_message in H. cbn [leading_eols] in H. by destruct (is_eol c). Qed.

Lemma message_nonempty m : message m -> m <> "".
Proof. intros [H _] ->. by vm_compute in H. Qed.

(** Line ends at the front belong to line ends of the stream. *)
Lemma drop_eol c v ps :
  Forall well_formed ps -> is_eol c = true -> stream ps = String c v ->
  exists ps', Forall well_formed ps' /\ stream ps' = v /\ messages ps' = messages ps.
Proof.
  intros Hps Hc. induction Hps as [|[m|k] ps Hp Hps IH]; [done| |]; cbn [stream foldr part_text].
  - intros H. exfalso. destruct m as [|d m]; [by apply message_nonempty in Hp|]. rewrite sapp_cons in H. injection H as -> _.
    apply message_head in Hp. congruence.
  - destruct k as [|d k].
    + intros H. destruct (IH H) as (ps' & H1 & H2 & H3). by exists ps'.
    + rewrite sapp_cons. intros H. injection H as -> H. exists (Eols k :: ps). split_and!; [|done|done].
      constructor; [|done]. cbn in Hp |- *. by apply andb_true_iff in Hp as [_ Hp].
Qed.

Lemma drop_eols u v ps :
  Forall well_formed ps -> sall is_eol u = true -> stream ps = u +:+ v ->
  exists ps', Forall well_formed ps' /\ stream ps' = v /\ messages ps' = messages ps.
Proof.
  revert ps. induction u as [|c u IH]; intros ps Hps Hu Hs; [by exists ps|]. cbn [sall] in Hu. apply andb_true_iff in Hu as [Hc Hu].
  rewrite sapp_cons in Hs. destruct (drop_eol c _ ps Hps Hc Hs) as (ps1 & H1 & H2 & H3).
  destruct (IH ps1 H1 Hu H2) as (ps2 & ? & ? & H4). exists ps2. by rewrite H4.
Qed.

Definition eols_of (b : string) : string := stake (leading_eols b) b.

(** Draining the part read of a stream: whole messages, and the rest of the
    stream for later. *)
Lemma drain_stream fuel b r ps :
  Forall well_formed ps -> stream ps = b +:+ r -> (String.length b < fuel)%nat ->
  exists ms b' ps', drain fuel b = Some (ms, b', None) /\ Forall well_formed ps' /\ stream ps' = b' +:+ r /\
    messages ps = ms ++ messages ps' /\ frame_sip_message b' = Incomplete.
Proof.
  revert b ps. induction fuel as [|fuel IH]; intros b ps Hps Hs Hl; [lia|]. cbn [drain].
  destruct (decide (0 < leading_eols b)%nat) as [Hk|Hk].
  - assert (Hf : frame_sip_message b = Keepalive (leading_eols b)).
    { unfold frame_sip_message. by destruct (Nat.ltb_spec 0 (leading_eols b)); [|lia]. }
    rewrite Hf. assert (Hb : b +:+ r = eols_of b +:+ (sdrop (leading_eols b) b +:+ r)) by by unfold eols_of; rewrite <- sapp_assoc, stake_sdrop.
    rewrite Hb in Hs. destruct (drop_eols _ _ _ Hps (leading_eols_stake b) Hs) as (ps1 & H1 & H2 & H3).
    destruct (IH _ ps1 H1 H2) as (ms & b' & ps' & Hd & Hw & Hst & Hm & Hi); [assert (Hle := leading_eols_le b); rewrite sdrop_length; lia|].
    exists ms, b', ps'. by rewrite <- H3.
  - destruct (decide (b = "")) as [->|Hb].
    { exists [], "", ps. cbn. by split_and!. }
    assert (Hhead : exists m qs, message m /\ Forall well_formed qs /\ stream ps = m +:+ stream qs /\ messages ps = m :: messages qs).
    { clear -Hps Hs Hk Hb. induction Hps as [|[m|k] ps Hp Hps IH]; cbn [stream foldr part_text] in *.
      - by destruct b.
      - by exists m, ps.
      - destruct k as [|c k]; [by apply IH|]. exfalso. destruct b as [|d b]; [done|]. rewrite !sapp_cons in Hs. injection Hs as -> _.
        cbn in Hp. apply andb_true_iff in Hp as [Hc _]. cbn [leading_eols] in Hk. rewrite Hc in Hk. lia. }
    destruct Hhead as (m & qs & Hm & Hqs & Hst & Hms). rewrite Hst in Hs.
    destruct (sapp_split _ _ _ _ Hs) as [(e & -> & Hr)|(e & He & -> & Hr)].
    + rewrite (frame_extends m e _ (proj1 Hm)), sdrop_app, stake_app. rewrite slength_app in Hl.
      assert (Hn := message_nonempty m Hm). destruct m as [|c m]; [done|]. cbn [String.length] in Hl.
      destruct (IH e qs Hqs Hr ltac:(lia)) as (ms & b' & ps' & Hd & Hw & Hst' & Hm' & Hi).
      exists (String c m :: ms), b', ps'. by rewrite Hd, Hms, Hm'.
    + exists [], b, ps. rewrite (message_part b e Hm He). split_and!; try done. by rewrite Hst.
Qed.

(** Nothing is left of a stream read to its end. *)
Lemma incomplete_end ps : Forall well_formed ps -> frame_sip_message (stream ps) = Incomplete -> messages ps = [] /\ stream ps = "".
Proof.
  intros Hps Hi. induction Hps as [|[m|k] ps Hp Hps IH]; [done| |]; cbn [stream foldr part_text] in Hi.
  - by rewrite (frame_extends m _ _ (proj1 Hp)) in Hi.
  - destruct k as [|c k]; [by apply IH|]. exfalso. unfold frame_sip_message in Hi. rewrite sapp_cons in Hi. cbn [leading_eols] in Hi.
    cbn in Hp. apply andb_true_iff in Hp as [Hc _]. by rewrite Hc in Hi.
Qed.

Section delivery.
Context {Sip : Type} (parse : string -> option Sip).

Definition all (chunks : list string) : string := foldr String.append "" chunks.

Lemma read_stream chunks r ps :
  closed r = None -> Forall well_formed ps -> stream ps = buffer r +:+ all chunks ->
  (chunks = [] -> frame_sip_message (buffer r) = Incomplete) ->
  fold_left (fun r c => read parse c r) chunks r = mkReader "" (received r ++ omap parse (messages ps)) None.
Proof.
  revert r ps. induction chunks as [|c chunks IH]; intros r ps Hcl Hps Hs Hi.
  - cbn [fold_left all foldr] in *. rewrite sapp_nil_r in Hs. rewrite <- Hs in Hi.
    destruct (incomplete_end ps Hps (Hi eq_refl)) as [-> He]. rewrite He in Hs. destruct r. cbn in *. by rewrite app_nil_r, <- Hs, Hcl.
  - cbn [fold_left all foldr] in *. rewrite <- sapp_assoc in Hs.
    destruct (drain_stream (S (String.length (buffer r +:+ c))) _ _ ps Hps Hs ltac:(lia))
      as (ms & b' & ps' & Hd & Hw & Hst & Hm & Hi').
    assert (Hr : read parse c r = mkReader b' (received r ++ omap parse ms) None)
      by by unfold read; rewrite Hcl; unfold drain_all; rewrite Hd.
    rewrite Hr, (IH _ ps'); [|done..]. cbn [received]. by rewrite Hm, omap_app, app_assoc.
Qed.

(** A stream is cut back into its messages wherever it was cut. However a
    peer's messages, and the line ends it sends between them to keep the
    connection alive, are split into reads, the parser is given exactly those
    messages in their order, nothing is left over and the connection stays
    open. *)
Theorem stream_delivered ps chunks :
  Forall well_formed ps -> all chunks = stream ps ->
  handle_connection parse chunks = mkReader "" (omap parse (messages ps)) None.
Proof.
  intros Hps Hs. unfold handle_connection. rewrite (read_stream chunks (new_reader) ps); [done|done|done|by rewrite Hs|by intros ->].
Qed.
End delivery.

(** ** What a connection holds *)

Lemma drain_total fuel b : (String.length b < fuel)%nat -> is_Some (drain fuel b).
Proof.
  revert b. induction fuel as [|fuel IH]; intros b Hl; [lia|]. cbn [drain]. assert (Hp := frame_progress b).
  destruct (frame_sip_message b) as [e|k| |]; [|apply IH; rewrite sdrop_length; lia|by eexists..].
  destruct (IH (sdrop e b)) as [[[ms b'] why] ->]; [rewrite sdrop_length; lia|]. by eexists.
Qed.

(** What is left is all that was read, or the end of what follows the first
    frame. *)
Definition left_by (b b' : string) : Prop :=
  match frame_sip_message b with
  | Message e | Keepalive e => exists u, sdrop e b = u +:+ b'
  | _ => b' = b
  end.

Lemma drain_left fuel b ms b' : drain fuel b = Some (ms, b', None) -> frame_sip_message b' = Incomplete /\ left_by b b'.
Proof.
  revert b ms. induction fuel as [|fuel IH]; intros b ms; [done|]. cbn [drain]. unfold left_by.
  assert (Hstep : forall e ms, drain fuel (sdrop e b) = Some (ms, b', None) ->
            frame_sip_message b' = Incomplete /\ exists u, sdrop e b = u +:+ b').
  { intros e ms' Hd. destruct (IH _ _ Hd) as [Hi Hl]. split; [done|]. unfold left_by in Hl.
    destruct (frame_sip_message (sdrop e b)) as [x|x| |]; [destruct Hl as [u Hu]..|by exists ""|by exists ""];
      exists (stake x (sdrop e b) +:+ u); by rewrite sapp_assoc, <- Hu, stake_sdrop. }
  destruct (frame_sip_message b) as [e|k| |] eqn:Hf.
  - destruct (drain fuel (sdrop e b)) as [[[ms' b''] why]|] eqn:Hd; [|done]. cbn. intros [= _ -> ->]. by apply (Hstep e ms').
  - by apply Hstep.
  - by intros [= _ <-].
  - done.
Qed.

Lemma incomplete_eols a : frame_sip_message a = Incomplete -> leading_eols a = 0%nat.
Proof. unfold frame_sip_message. destruct (Nat.ltb_spec 0 (leading_eols a)); [done|lia]. Qed.

Lemma incomplete_frame a :
  frame_sip_message a = Incomplete ->
  match find_str HEADER_END a with
  | None => len a <= MAX_SIP_MESSAGE
  | Some h => frame_at a h = Incomplete /\ len a < Z.of_nat h + 4 + MAX_SIP_MESSAGE
  end.
Proof.
  intros Hi. assert (Hz := incomplete_eols a Hi). unfold frame_sip_message in Hi. rewrite Hz in Hi. cbn [Nat.ltb Nat.leb] in Hi.
  destruct (find_str HEADER_END a) as [h|].
  - split; [done|]. revert Hi. unfold frame_at. destruct (negb _); [done|]. destruct (content_length _) as [n|]; [|done].
    destruct (Z.ltb_spec MAX_SIP_MESSAGE n); [done|]. destruct (checked_add (Z.of_nat h) 4) as [x|] eqn:Hx; [|done].
    cbn [mbind option_bind]. destruct (checked_add x n) as [y|] eqn:Hy; [|done]. unfold checked_add in *.
    destruct (Z.of_nat h + 4 <=? usize_max); [|done]. injection Hx as <-. destruct (_ + n <=? usize_max); [|done]. injection Hy as <-.
    destruct (Z.leb_spec (Z.of_nat h + 4 + n) (len a)); [done|]. lia.
  - destruct (Z.ltb_spec MAX_SIP_MESSAGE (len a)); [done|lia].
Qed.

(** The first frame of a longer read reaches past what was incomplete. *)
Lemma frame_past a b :
  frame_sip_message a = Incomplete ->
  match frame_sip_message (a +:+ b) with
  | Message e | Keepalive e => (String.length a <= e)%nat
  | _ => True
  end.
Proof.
  intros Hi. assert (Hz := incomplete_eols a Hi). destruct (decide (a = "")) as [->|Ha]; 
    [change ("" +:+ b) with b; destruct (frame_sip_message b); cbn [String.length]; first [done|lia]|].
  assert (Hf := incomplete_frame a Hi). destruct (frame_sip_message (a +:+ b)) as [e|k| |] eqn:Hm; try done.
  - unfold frame_sip_message in Hm. rewrite leading_eols_app in Hm by done. cbn [Nat.ltb Nat.leb] in Hm.
    destruct (find_str HEADER_END (a +:+ b)) as [h|] eqn:Hh; [|by destruct (_ <? _)].
    assert (Hp := find_str_app HEADER_END a b h ltac:(done) Hh). change (String.length HEADER_END) with 4%nat in Hp.
    destruct (Nat.leb_spec (h + 4) (String.length a)) as [Hle|Hgt]; rewrite Hp in Hf.
    + destruct Hf as [Hf _]. rewrite (frame_at_app a b h ltac:(lia) e Hm) in Hf.
      destruct (Nat.leb_spec e (String.length a)); [done|lia].
    + enough (h + 4 <= e)%nat by lia. revert Hm. unfold frame_at. destruct (negb _); [done|].
      destruct (content_length _) as [n|] eqn:Hn; [|done]. apply content_length_nonneg in Hn. destruct (_ <? n); [done|].
      unfold checked_add. cbn [mbind option_bind]. destruct (_ <=? usize_max); [|done]. cbn [mbind option_bind].
      destruct (_ <=? usize_max); [|done]. destruct (_ <=? len _); [|done]. intros [= <-]. lia.
  - unfold frame_sip_message in Hm. rewrite leading_eols_app in Hm by done. cbn [Nat.ltb Nat.leb] in Hm.
    unfold frame_at in Hm. by repeat case_match.
Qed.

Section held.
Context {Sip : Type} (parse : string -> option Sip).

Definition held_within (n : Z) (b : string) : Prop :=
  frame_sip_message b = Incomplete /\ forall h, find_str HEADER_END b = Some h -> Z.of_nat h + 4 <= MAX_SIP_MESSAGE + n.

Lemma read_held n c r :
  held_within n (buffer r) -> len c <= n -> closed (read parse c r) = None -> held_within n (buffer (read parse c r)).
Proof.
  intros [Hi Hh] Hc. unfold read. destruct (closed r); [done|]. unfold drain_all.
  destruct (drain_total (S (String.length (buffer r +:+ c))) (buffer r +:+ c) ltac:(lia)) as [[[ms b'] why] Hd]. rewrite Hd.
  change (default ?d (Some ?x)) with x. cbn [closed buffer]. intros ->. destruct (drain_left _ _ _ _ Hd) as [Hi' Hl]. split; [done|]. intros h Hf.
  assert (Hb := found_within _ _ _ Hf). change (String.length HEADER_END) with 4%nat in Hb.
  assert (Hp := frame_past (buffer r) c Hi). unfold left_by in Hl. unfold len in Hc.
  assert (Hcut : forall e u, (String.length (buffer r) <= e)%nat -> sdrop e (buffer r +:+ c) = u +:+ b' -> Z.of_nat h + 4 <= MAX_SIP_MESSAGE + n).
  { intros e u He Hu. apply (f_equal String.length) in Hu. rewrite sdrop_length, !slength_app in Hu. unfold MAX_SIP_MESSAGE. lia. }
  assert (Hall : b' = buffer r +:+ c -> Z.of_nat h + 4 <= MAX_SIP_MESSAGE + n).
  { intros ->. assert (Hif := incomplete_frame _ Hi). destruct (find_str HEADER_END (buffer r)) as [h0|] eqn:H0.
    - rewrite (find_str_extend _ _ _ h0) in Hf by done. injection Hf as <-. by apply Hh.
    - rewrite slength_app in Hb. unfold len in Hif. lia. }
  destruct (frame_sip_message (buffer r +:+ c)) as [e|e| |]; [destruct Hl as [u Hu]; by apply (Hcut e u)..|by apply Hall|by apply Hall].
Qed.

(** C40: a connection holds little. Whatever a peer sends, each read ends, and
    while the connection stays open what it holds back is less than two caps
    and one read: a header section without end, or a length that never
    comes, cannot make the SBC buffer more. *)
Theorem buffer_bounded n chunks :
  0 <= n -> Forall (fun c => len c <= n) chunks ->
  (forall b, is_Some (drain (S (String.length b)) b)) /\
  (closed (handle_connection parse chunks) = None ->
   len (buffer (handle_connection parse chunks)) < 2 * MAX_SIP_MESSAGE + n + 1).
Proof.
  intros Hn Hc. split; [intros b; apply drain_total; lia|].
  assert (Hclosed : forall cs r why, closed r = Some why -> closed (fold_left (fun r c => read parse c r) cs r) = Some why).
  { induction cs as [|c cs IH]; intros r why Hr; [done|]. apply IH. unfold read. by rewrite Hr. }
  assert (Hw : forall r, held_within n (buffer r) -> closed (fold_left (fun r c => read parse c r) chunks r) = None ->
    held_within n (buffer (fold_left (fun r c => read parse c r) chunks r))).
  { induction Hc as [|c cs Hl Hcs IH]; intros r Hr Ho; [done|]. cbn [fold_left] in *. apply IH; [|done].
    destruct (closed (read parse c r)) as [why|] eqn:Hx; [by rewrite (Hclosed cs _ why Hx) in Ho|]. by apply read_held. }
  intros Ho. assert (Hf : held_within n (buffer (handle_connection parse chunks))) by (apply Hw; [by split|done]).
  destruct Hf as [Hi Hh]. assert (Hif := incomplete_frame _ Hi). unfold MAX_SIP_MESSAGE in *.
  destruct (find_str HEADER_END _) as [h|]; [specialize (Hh h eq_refl)|]; lia.
Qed.
End held.

(** ** White space before the colon *)

(** RFC 3261 lets white space come before the colon of a header; the framer
    then sees no length, and the body is left to be framed as messages. *)
Lemma spaced_length_splits :
  let m := "A" +:+ CRLF +:+ "Content-Length : 5" +:+ HEADER_END +:+ "Hello" in
  frame_sip_message m = Message (String.length m - 5).
Proof. by vm_compute. Qed.

Module Witness.
Definition invite : string := "INVITE sip:b@x SIP/2.0" +:+ CRLF +:+ "Content-Length: 5" +:+ HEADER_END +:+ "Hello".
Definition bye : string := "BYE sip:b@x SIP/2.0" +:+ CRLF +:+ "l: 0" +:+ HEADER_END.

Lemma is_message m : frame_sip_message m = Message (String.length m) ->
  match find_str HEADER_END m with Some h => Z.of_nat h + 3 <=? MAX_SIP_MESSAGE | None => true end = true -> message m.
Proof. intros Hf Hh. split; [done|]. intros h He. rewrite He in Hh. by apply Z.leb_le. Qed.

(** Two messages and a keepalive, read in four pieces. *)
Definition cut : list string :=
  [stake 30 invite; sdrop 30 invite +:+ String "013" ""; String "010" "" +:+ stake 5 bye; sdrop 5 bye].

Lemma stream_delivered_witness :
  handle_connection Some cut = mkReader "" [invite; bye] None.
Proof.
  apply (stream_delivered Some [Msg invite; Eols CRLF; Msg bye] cut); [|by vm_compute].
  repeat constructor; try (apply is_message; by vm_compute); by vm_compute.
Defined.

Lemma buffer_bounded_witness :
  len (buffer (handle_connection (Sip := string) Some [stake 30 invite])) < 2 * MAX_SIP_MESSAGE + 4096 + 1.
Proof.
  refine (proj2 (buffer_bounded Some 4096 [stake 30 invite] _ _) _); [lia|by repeat constructor; vm_compute|by vm_compute].
Defined.
End Witness.
