(* ===== verification/Net.v ===== *)
(** * Socket addresses

    [std::net::IpAddr] and [SocketAddr]: octets of an address, port. *)

From S2P Require Import Prelude Bytes.

Inductive IpAddr := V4 (o : bytes) | V6 (o : bytes).

Record SocketAddr := mkAddr { ip : IpAddr; port : Z }.

#[export] Instance IpAddr_eq_dec : EqDecision IpAddr.
Proof. solve_decision. Defined.
#[export] Instance SocketAddr_eq_dec : EqDecision SocketAddr.
Proof. solve_decision. Defined.

#[export] Instance IpAddr_countable : Countable IpAddr.
Proof.
  apply (inj_countable' (fun i => match i with V4 o => inl o | V6 o => inr o end)
    (fun s => match s with inl o => V4 o | inr o => V6 o end)).
  by intros [].
Defined.
#[export] Instance SocketAddr_countable : Countable SocketAddr.
Proof.
  apply (inj_countable' (fun a => (ip a, port a)) (fun p => mkAddr p.1 p.2)). by intros [].
Defined.

Definition octets (i : IpAddr) : bytes := match i with V4 o | V6 o => o end.

Definition ip_ok (i : IpAddr) : Prop :=
  is_bytes (octets i) /\ length (octets i) = match i with V4 _ => 4%nat | V6 _ => 16%nat end.

Definition addr_ok (a : SocketAddr) : Prop := ip_ok (ip a) /\ is_u16 (port a).

(** [is_loopback] *)
Definition is_loopback (i : IpAddr) : bool :=
  match i with
  | V4 o => byte_at 0 o =? 127
  | V6 o => bool_decide (o = replicate 15 0 ++ [1])
  end.

(** [is_unspecified] *)
Definition is_unspecified (i : IpAddr) : bool :=
  forallb (fun b => b =? 0) (octets i).

(** [rsip::Transport], as the code matches it; Via token of a transport. *)
Inductive Transport := Udp | Tcp | Tls | Ws | Wss | OtherTransport.

#[export] Instance Transport_eq_dec : EqDecision Transport.
Proof. solve_decision. Defined.

Definition transport_token (t : Transport) : string :=
  match t with
  | Udp => "UDP" | Tcp => "TCP" | Tls => "TLS" | Ws => "WS" | Wss => "WSS" | OtherTransport => "UDP"
  end.
