(* ===== verification/Nom.v ===== *)
(** * The parser combinators (of the vendored SIP parser's dependency nom)

    What the SIP parser relies on: a class of combinators with the equations
    their documentation states, on complete inputs. A parser takes the input
    and gives what is left of it and a value; every error it can give is a
    recoverable one, written [None]. [tuple], [map], [delimited] and
    [terminated] run parsers in sequence, which is {!andThen}. The instance at
    the end shows that the equations have a model. *)

From S2P Require Import Prelude Str.

Definition P (A : Type) : Type := string -> option (string * A).

Definition andThen {A B} (p : P A) (k : A -> P B) : P B :=
  fun s => match p s with Some (r, a) => k a r | None => None end.
Definition give {A} (a : A) : P A := fun s => Some (s, a).

Notation "x <~ p ; q" := (andThen p (fun x => q)) (at level 100, p at next level, q at level 200, right associativity) : sbc_scope.
Notation "p ;~ q" := (andThen p (fun _ => q)) (at level 100, q at level 200, right associativity) : sbc_scope.

(** The input after a position, and what comes before it. *)
Definition cut (n : nat) : P string := fun s => Some (sdrop n s, stake n s).
Definition cut_at (o : option nat) (s : string) : option (string * string) :=
  match o with Some n => cut n s | None => None end.

(** Where a run of characters ends. *)
Definition run (p : ascii -> bool) (s : string) : nat :=
  match find_by (fun c => negb (p c)) s with Some n => n | None => String.length s end.

Definition is_blank (c : ascii) : bool := bool_decide (c = " "%char) || bool_decide (c = "009"%char).

(** A parser that never gives back more than it was given. *)
Definition shortens {A} (p : P A) : Prop :=
  forall s r a, p s = Some (r, a) -> (String.length r <= String.length s)%nat.

Class Nom := {
  tag : string -> P string;
  tag_no_case : string -> P string;
  take : nat -> P string;
  take_until : string -> P string;
  take_while : (ascii -> bool) -> P string;
  take_while1 : (ascii -> bool) -> P string;
  rest : P string;
  alt : forall A, list (P A) -> P A;
  opt : forall A, P A -> P (option A);
  many0 : forall A, P A -> P (list A);
  tag_eq : forall t s, tag t s = if starts_with t s then cut (String.length t) s else None;
  tag_no_case_eq : forall t s, tag_no_case t s =
    if (String.length t <=? String.length s)%nat && eq_ignore_ascii_case (stake (String.length t) s) t
    then cut (String.length t) s else None;
  take_eq : forall n s, take n s = if (n <=? String.length s)%nat then cut n s else None;
  take_until_eq : forall t s, take_until t s = cut_at (find_str t s) s;
  take_while_eq : forall p s, take_while p s = cut (run p s) s;
  take_while1_eq : forall p s, take_while1 p s = if Nat.eqb (run p s) 0 then None else cut (run p s) s;
  rest_eq : forall s, rest s = Some ("", s);
  alt_nil : forall A s, alt A [] s = None;
  alt_cons : forall A (p : P A) ps s, alt A (p :: ps) s = match p s with Some r => Some r | None => alt A ps s end;
  opt_eq : forall A (p : P A) s, opt A p s = match p s with Some (r, a) => Some (r, Some a) | None => Some (s, None) end;
  many0_eq : forall A (p : P A) s, shortens p -> many0 A p s =
    match p s with
    | None => Some (s, [])
    | Some (r, a) => if Nat.eqb (String.length r) (String.length s) then None
                     else match many0 A p r with Some (r', l) => Some (r', a :: l) | None => None end
    end
}.

Arguments alt {Nom A}.
Arguments opt {Nom A}.
Arguments many0 {Nom A}.

(** [take_till], [digit1], [space0], [space1] *)
Definition take_till {N : Nom} (p : ascii -> bool) : P string := take_while (fun c => negb (p c)).
Definition take_till1 {N : Nom} (p : ascii -> bool) : P string := take_while1 (fun c => negb (p c)).
Definition digit1 {N : Nom} : P string := take_while1 is_digit.
Definition space0 {N : Nom} : P string := take_while is_blank.
Definition space1 {N : Nom} : P string := take_while1 is_blank.

(** ** Texts that are taken whole *)

Lemma starts_with_self t s : starts_with t (t +:+ s) = true.
Proof. apply starts_with_spec. by exists s. Qed.

Lemma starts_with_nil s : starts_with "" s = true.
Proof. apply (starts_with_self "" s). Qed.

Lemma starts_with_cons c t d s :
  starts_with (String c t) (String d s) = bool_decide (c = d) && starts_with t s.
Proof.
  apply eq_true_iff_eq. rewrite andb_true_iff, bool_decide_eq_true, !starts_with_spec. split.
  - intros [u Hu]. rewrite sapp_cons in Hu. injection Hu as -> ->. split; [done|by exists u].
  - intros [-> [u ->]]. by exists u.
Qed.

Lemma find_by_none p s : find_by p s = None <-> sall (fun c => negb (p c)) s = true.
Proof.
  induction s as [|c s IH]; [done|]. simpl. destruct (p c); simpl; [done|]. rewrite <- IH.
  by destruct (find_by p s).
Qed.

Lemma find_by_app p a c b :
  sall (fun d => negb (p d)) a = true -> p c = true -> find_by p (a +:+ String c b) = Some (String.length a).
Proof.
  intros Ha Hc. induction a as [|d a IH]; simpl.
  - by rewrite Hc.
  - simpl in Ha. apply andb_true_iff in Ha as [Hd Ha]. apply negb_true_iff in Hd. by rewrite Hd, IH.
Qed.

(** [stops p s]: a run of [p] does not go on into [s]. *)
Definition stops (p : ascii -> bool) (s : string) : bool :=
  match s with "" => true | String c _ => negb (p c) end.

Lemma run_app p a b : sall p a = true -> stops p b = true -> run p (a +:+ b) = String.length a.
Proof.
  intros Ha Hb. unfold run. destruct b as [|c b].
  - rewrite sapp_nil_r. rewrite (proj2 (find_by_none _ a)); [done|].
    eapply sall_impl; [|exact Ha]. intros d Hd. simpl. by rewrite Hd.
  - rewrite find_by_app; [done| |done]. eapply sall_impl; [|exact Ha]. intros d Hd. simpl. by rewrite Hd.
Qed.

Lemma cut_app a b : cut (String.length a) (a +:+ b) = Some (b, a).
Proof. unfold cut. by rewrite sdrop_app, stake_app. Qed.

Lemma cut_length s : cut (String.length s) s = Some ("", s).
Proof. rewrite <- (sapp_nil_r s) at 2. apply cut_app. Qed.

Lemma sdrop_length_le n s : (String.length (sdrop n s) <= String.length s)%nat.
Proof.
  revert s. induction n as [|n IH]; intros s; [by destruct s|]. destruct s as [|c s]; simpl; [lia|]. specialize (IH s). lia.
Qed.

Lemma cut_shortens n : shortens (cut n).
Proof. intros s r a [= <- _]. apply sdrop_length_le. Qed.

Lemma andThen_shortens {A B} (p : P A) (k : A -> P B) :
  shortens p -> (forall a, shortens (k a)) -> shortens (andThen p k).
Proof.
  intros Hp Hk s r b. unfold andThen. destruct (p s) as [[r1 a]|] eqn:E; [|done]. intros H.
  apply Hp in E. apply Hk in H. lia.
Qed.

Lemma give_shortens {A} (a : A) : shortens (give a).
Proof. by intros s r b [= <- _]. Qed.

Section laws.
Context {N : Nom}.

Lemma tag_app t s : tag t (t +:+ s) = Some (s, t).
Proof. by rewrite tag_eq, starts_with_self, cut_app. Qed.

Lemma tag_fails t s : starts_with t s = false -> tag t s = None.
Proof. intros H. by rewrite tag_eq, H. Qed.

Lemma tag_no_case_app t u s :
  String.length u = String.length t -> eq_ignore_ascii_case u t = true -> tag_no_case t (u +:+ s) = Some (s, u).
Proof.
  intros Hl Hu. rewrite tag_no_case_eq, <- Hl, stake_app, Hu, slength_app.
  replace (_ <=? _)%nat with true by (symmetry; apply Nat.leb_le; lia). apply cut_app.
Qed.

Lemma take_app a s : take (String.length a) (a +:+ s) = Some (s, a).
Proof.
  rewrite take_eq, slength_app. replace (_ <=? _)%nat with true by (symmetry; apply Nat.leb_le; lia). apply cut_app.
Qed.

Lemma take_while_app p a s : sall p a = true -> stops p s = true -> take_while p (a +:+ s) = Some (s, a).
Proof. intros Ha Hs. by rewrite take_while_eq, run_app, cut_app. Qed.

Lemma take_while1_app p a s :
  sall p a = true -> stops p s = true -> a <> "" -> take_while1 p (a +:+ s) = Some (s, a).
Proof.
  intros Ha Hs Hn. rewrite take_while1_eq, run_app by done.
  replace (Nat.eqb _ 0) with false by (symmetry; apply Nat.eqb_neq; by destruct a). apply cut_app.
Qed.

Lemma take_until_app t a s : find_str t (a +:+ t +:+ s) = Some (String.length a) ->
  take_until t (a +:+ t +:+ s) = Some (t +:+ s, a).
Proof. intros H. rewrite take_until_eq, H. apply cut_app. Qed.

Lemma take_until_fails t s : find_str t s = None -> take_until t s = None.
Proof. intros H. by rewrite take_until_eq, H. Qed.

Lemma tag_shortens t : shortens (tag t).
Proof. intros s r a. rewrite tag_eq. case_match; [apply cut_shortens|done]. Qed.
Lemma take_until_shortens t : shortens (take_until t).
Proof. intros s r a. rewrite take_until_eq. unfold cut_at. case_match; [apply cut_shortens|done]. Qed.
Lemma take_while_shortens p : shortens (take_while p).
Proof. intros s r a. rewrite take_while_eq. apply cut_shortens. Qed.
Lemma take_while1_shortens p : shortens (take_while1 p).
Proof. intros s r a. rewrite take_while1_eq. case_match; [done|apply cut_shortens]. Qed.
Lemma rest_shortens : shortens rest.
Proof. intros s r a. rewrite rest_eq. intros [= <- _]. simpl. lia. Qed.
Lemma opt_shortens {A} (p : P A) : shortens p -> shortens (opt p).
Proof. intros Hp s r a. rewrite opt_eq. destruct (p s) as [[r' a']|] eqn:E; intros [= <- _]; [by eapply Hp|lia]. Qed.
Lemma alt_shortens {A} (ps : list (P A)) : Forall shortens ps -> shortens (alt ps).
Proof.
  intros Hps. induction Hps as [|p ps Hp Hps IH]; intros s r a; [by rewrite alt_nil|].
  rewrite alt_cons. destruct (p s) as [[r' a']|] eqn:E; [intros [= <- _]; by eapply Hp|apply IH].
Qed.

Lemma many0_stop {A} (p : P A) s : shortens p -> p s = None -> many0 p s = Some (s, []).
Proof. intros Hp E. by rewrite many0_eq, E. Qed.

Lemma many0_more {A} (p : P A) s r a r' l :
  shortens p -> p s = Some (r, a) -> (String.length r < String.length s)%nat -> many0 p r = Some (r', l) ->
  many0 p s = Some (r', a :: l).
Proof.
  intros Hp E Hl Hm. rewrite many0_eq, E, Hm by done.
  by replace (Nat.eqb _ _) with false by (symmetry; apply Nat.eqb_neq; lia).
Qed.
End laws.

(** ** An instance *)

Fixpoint many0_fuel {A} (fuel : nat) (p : P A) (s : string) : option (string * list A) :=
  match fuel with
  | O => None
  | S fuel =>
      match p s with
      | None => Some (s, [])
      | Some (r, a) => if Nat.eqb (String.length r) (String.length s) then None
                       else match many0_fuel fuel p r with Some (r', l) => Some (r', a :: l) | None => None end
      end
  end.

Lemma many0_fuel_enough {A} (p : P A) n m s :
  shortens p -> (String.length s < n)%nat -> (String.length s < m)%nat -> many0_fuel n p s = many0_fuel m p s.
Proof.
  intros Hp. revert m s. induction n as [|n IH]; intros m s Hn Hm; [lia|]. destruct m as [|m]; [lia|]. simpl.
  destruct (p s) as [[r a]|] eqn:E; [|done]. destruct (Nat.eqb_spec (String.length r) (String.length s)); [done|].
  apply Hp in E. by rewrite (IH m) by lia.
Qed.

Fixpoint first_of {A} (ps : list (P A)) (s : string) : option (string * A) :=
  match ps with [] => None | p :: ps => match p s with Some r => Some r | None => first_of ps s end end.

#[refine] Definition nom : Nom := {|
  tag t s := if starts_with t s then cut (String.length t) s else None;
  tag_no_case t s :=
    if (String.length t <=? String.length s)%nat && eq_ignore_ascii_case (stake (String.length t) s) t
    then cut (String.length t) s else None;
  take n s := if (n <=? String.length s)%nat then cut n s else None;
  take_until t s := cut_at (find_str t s) s;
  take_while p s := cut (run p s) s;
  take_while1 p s := if Nat.eqb (run p s) 0 then None else cut (run p s) s;
  rest s := Some ("", s);
  alt A ps := first_of ps;
  opt A p s := match p s with Some (r, a) => Some (r, Some a) | None => Some (s, None) end;
  many0 A p s := many0_fuel (S (String.length s)) p s
|}.
Proof.
  all: try done. intros A p s Hp. cbn [many0_fuel]. destruct (p s) as [[r a]|] eqn:E; [|done].
  destruct (Nat.eqb_spec (String.length r) (String.length s)); [done|].
  apply Hp in E as Hl. by rewrite (many0_fuel_enough p (String.length s) (S (String.length r))) by (done || lia).
Defined.
