(* ===== verification/Rsip.v ===== *)
(** * SIP messages (rsip-nixi: common/, headers/header.rs, message/)

    The vendored parser: methods, versions, URIs, headers, status codes, and
    requests and responses, each with its tokenizer, the conversion of what the
    tokenizer cut out, and its printer. A message is a byte string; the texts of
    the errors are left out. Printing and parsing an IP address, and the lossy
    reading of a body that is not UTF-8, are parameters. *)

From S2P Require Import Prelude Str Net Nom.

(** ** Shared *)

Definition is_alphanumeric (c : ascii) : bool :=
  is_digit c || within 65 90 c || within 97 122 c.
Definition is_token (c : ascii) : bool := is_alphanumeric c || contains_char c "-.!%*_+`'~".

(** [from_utf8] *)
Definition from_utf8 (s : string) : option string := if is_utf8 s then Some s else None.

Definition chr (c : ascii) (d : ascii) : bool := bool_decide (d = c).
Definition quote : ascii := "034".
Definition quote_text : string := String quote "".

(** ** Methods (common/method.rs) *)

Inductive Method :=
  Ack | Bye | Cancel | Info | Invite | Message | Notify | Options | PRack | Publish | Refer | Register | Subscribe | Update.

#[export] Instance Method_eq_dec : EqDecision Method.
Proof. solve_decision. Defined.

Definition all_methods : list Method :=
  [Ack; Bye; Cancel; Info; Invite; Message; Notify; Options; PRack; Publish; Refer; Register; Subscribe; Update].

Definition method_name (m : Method) : string :=
  match m with
  | Ack => "Ack" | Bye => "Bye" | Cancel => "Cancel" | Info => "Info" | Invite => "Invite" | Message => "Message"
  | Notify => "Notify" | Options => "Options" | PRack => "PRack" | Publish => "Publish" | Refer => "Refer"
  | Register => "Register" | Subscribe => "Subscribe" | Update => "Update"
  end.

Definition show_method (m : Method) : string := to_ascii_uppercase (method_name m).

Definition method_of (s : string) : option Method :=
  List.find (fun m => eq_ignore_ascii_case (trim s) (method_name m)) all_methods.

(** ** Transports (common/transport.rs) *)

Inductive Transport := Udp | Tcp | Tls | TlsSctp | Sctp | Ws | Wss.

#[export] Instance Transport_eq_dec : EqDecision Transport.
Proof. solve_decision. Defined.

Definition show_transport (t : Transport) : string :=
  match t with
  | Udp => "UDP" | Tcp => "TCP" | Tls => "TLS" | Sctp => "SCTP" | TlsSctp => "TLS-SCTP" | Ws => "WS" | Wss => "WSS"
  end.

Definition transport_of (s : string) : option Transport :=
  List.find (fun t => eq_ignore_ascii_case s (show_transport t)) [Udp; Tcp; Tls; Sctp; TlsSctp; Ws; Wss].

(** ** Versions (common/version.rs) *)

Inductive Version := V1 | V2.

#[export] Instance Version_eq_dec : EqDecision Version.
Proof. solve_decision. Defined.

Definition show_version (v : Version) : string := match v with V1 => "SIP/1.0" | V2 => "SIP/2.0" end.

Definition version_of (tok : string * string) : option Version :=
  if seqb tok.1 "1" then Some V1 else if seqb tok.1 "2" then Some V2 else None.

(** ** URIs (common/uri/) *)

Inductive Scheme := Sip | Sips | Tel | OtherScheme (s : string).

#[export] Instance Scheme_eq_dec : EqDecision Scheme.
Proof. solve_decision. Defined.

Definition show_scheme (s : Scheme) : string :=
  match s with Sip => "sip" | Sips => "sips" | Tel => "tel" | OtherScheme s => s end.

Definition scheme_of (s : string) : Scheme :=
  if eq_ignore_ascii_case s "sip" then Sip
  else if eq_ignore_ascii_case s "sips" then Sips
  else if eq_ignore_ascii_case s "tel" then Tel
  else OtherScheme s.

Definition Auth : Type := string * option string.

Inductive Host := Domain (d : string) | HostIp (i : IpAddr).

#[export] Instance Host_eq_dec : EqDecision Host.
Proof. solve_decision. Defined.

Record HostWithPort := mkHostPort { host : Host; hp_port : option Z }.

#[export] Instance HostWithPort_eq_dec : EqDecision HostWithPort.
Proof. solve_decision. Defined.

Inductive Param :=
  | PTransport (t : Transport) | PUser (v : string) | PMethod (m : Method) | PTtl (v : string) | PMaddr (v : string)
  | PLr | PBranch (v : string) | PReceived (v : string) | PTag (v : string) | PExpires (v : string) | PQ (v : string)
  | POther (n : string) (v : option string).

#[export] Instance Param_eq_dec : EqDecision Param.
Proof. solve_decision. Defined.

(** The headers of a URI are never read nor printed. *)
Record Uri := mkUri {
  scheme : option Scheme;
  auth : option Auth;
  host_with_port : HostWithPort;
  params : list Param;
  uri_headers : list Z
}.

#[export] Instance Uri_eq_dec : EqDecision Uri.
Proof. solve_decision. Defined.

Definition show_auth (a : Auth) : string :=
  match a.2 with Some p => a.1 +:+ ":" +:+ p | None => a.1 end.

Definition param_parts (p : Param) : string * option string :=
  match p with
  | PTransport t => ("transport", Some (show_transport t))
  | PUser v => ("user", Some v)
  | PMethod m => ("method", Some (show_method m))
  | PTtl v => ("ttl", Some v)
  | PMaddr v => ("maddr", Some v)
  | PLr => ("lr", None)
  | PBranch v => ("branch", Some v)
  | PReceived v => ("received", Some v)
  | PTag v => ("tag", Some v)
  | PExpires v => ("expires", Some v)
  | PQ v => ("q", Some v)
  | POther n v => (n, v)
  end.

Definition show_param (p : Param) : string :=
  match param_parts p with
  | (n, Some v) => ";" +:+ n +:+ "=" +:+ v
  | (n, None) => ";" +:+ n
  end.

Definition show_params (ps : list Param) : string := String.concat "" (map show_param ps).

Definition param_of (tok : string * option string) : option Param :=
  let named := eq_ignore_ascii_case tok.1 in
  match tok.2 with
  | Some v =>
      if named "transport" then PTransport <$> transport_of v
      else if named "user" then Some (PUser v)
      else if named "method" then PMethod <$> method_of v
      else if named "ttl" then Some (PTtl v)
      else if named "maddr" then Some (PMaddr v)
      else if named "branch" then Some (PBranch v)
      else if named "received" then Some (PReceived v)
      else if named "tag" then Some (PTag v)
      else if named "expires" then Some (PExpires v)
      else if named "q" then Some (PQ v)
      else Some (POther tok.1 (Some v))
  | None => if named "lr" then Some PLr else Some (POther tok.1 None)
  end.

(** What the tokenizer of a URI cuts out. *)
Record UriTok := mkUriTok {
  t_scheme : option string;
  t_auth : option (string * option string);
  t_host : string * option string;
  t_params : list (string * option string)
}.

(** ** Headers (headers/header.rs, headers/untyped/) *)

Module Header.
Inductive Name :=
  | Accept | AcceptEncoding | AcceptLanguage | AlertInfo | Allow | AuthenticationInfo | Authorization | CSeq
  | CallId | CallInfo | Contact | ContentDisposition | ContentEncoding | ContentLanguage | ContentLength
  | ContentType | Date | ErrorInfo | Event | Expires | From | InReplyTo | MaxForwards | MimeVersion
  | MinExpires | Organization | Priority | ProxyAuthenticate | ProxyAuthorization | ProxyRequire | RecordRoute
  | ReplyTo | Require | RetryAfter | Route | Server | Subject | SubscriptionState | Supported | Timestamp | To
  | Unsupported | UserAgent | Via | Warning | WwwAuthenticate | Other (n : string).

#[global] Instance Name_eq_dec : EqDecision Name.
Proof. solve_decision. Defined.

(** The name the header is printed with. *)
Definition display_name (n : Name) : string :=
  match n with
  | Accept => "Accept" | AcceptEncoding => "Accept-Encoding" | AcceptLanguage => "Accept-Language"
  | AlertInfo => "Alert-Info" | Allow => "Allow" | AuthenticationInfo => "Authentication-Info"
  | Authorization => "Authorization" | CSeq => "CSeq" | CallId => "Call-ID" | CallInfo => "Call-Info"
  | Contact => "Contact" | ContentDisposition => "Content-Disposition" | ContentEncoding => "Content-Encoding"
  | ContentLanguage => "Content-Language" | ContentLength => "Content-Length" | ContentType => "Content-Type"
  | Date => "Date" | ErrorInfo => "Error-Info" | Event => "Event" | Expires => "Expires" | From => "From"
  | InReplyTo => "In-Reply-To" | MaxForwards => "Max-Forwards" | MimeVersion => "Mime-Version"
  | MinExpires => "Min-Expires" | Organization => "Organization" | Priority => "Priority"
  | ProxyAuthenticate => "Proxy-Authenticate" | ProxyAuthorization => "Proxy-Authorization"
  | ProxyRequire => "Proxy-Require" | RecordRoute => "Record-Route" | ReplyTo => "Reply-To"
  | Require => "Require" | RetryAfter => "Retry-After" | Route => "Route" | Server => "Server"
  | Subject => "Subject" | SubscriptionState => "Subscription-State" | Supported => "Supported"
  | Timestamp => "Timestamp" | To => "To" | Unsupported => "Unsupported" | UserAgent => "User-Agent"
  | Via => "Via" | Warning => "Warning" | WwwAuthenticate => "WWW-Authenticate" | Other n => n
  end.

(** The names the parser knows. *)
Definition known_names : list (string * Name) :=
  [("Accept", Accept); ("Accept-Encoding", AcceptEncoding); ("Accept-Language", AcceptLanguage);
   ("Alert-Info", AlertInfo); ("Allow", Allow); ("Authentication-Info", AuthenticationInfo);
   ("Authorization", Authorization); ("CSeq", CSeq); ("Call-Id", CallId); ("Call-Info", CallInfo);
   ("Contact", Contact); ("Content-Disposition", ContentDisposition); ("Content-Encoding", ContentEncoding);
   ("Content-Language", ContentLanguage); ("Content-Length", ContentLength); ("Content-Type", ContentType);
   ("Date", Date); ("Error-Info", ErrorInfo); ("Event", Event); ("Expires", Expires); ("From", From);
   ("In-Reply-To", InReplyTo); ("Max-Forwards", MaxForwards); ("Mime-Version", MimeVersion);
   ("Min-Expires", MinExpires); ("Organization", Organization); ("Priority", Priority);
   ("Proxy-Authenticate", ProxyAuthenticate); ("Proxy-Authorization", ProxyAuthorization);
   ("Proxy-Require", ProxyRequire); ("Record-Route", RecordRoute); ("Reply-To", ReplyTo); ("Require", Require);
   ("Retry-After", RetryAfter); ("Route", Route); ("Server", Server); ("Subject", Subject);
   ("Supported", Supported); ("Timestamp", Timestamp); ("To", To); ("Unsupported", Unsupported);
   ("User-Agent", UserAgent); ("Via", Via); ("Warning", Warning); ("WWW-Authenticate", WwwAuthenticate)].

Definition name_of (s : string) : Name :=
  match List.find (fun e => eq_ignore_ascii_case s e.1) known_names with Some e => e.2 | None => Other s end.
End Header.

Abbreviation Header := (Header.Name * string)%type.

Definition show_header (h : Header) : string := Header.display_name h.1 +:+ ": " +:+ h.2.

Definition show_headers (hs : list Header) : string :=
  match hs with [] => "" | _ => join CRLF (map show_header hs) +:+ CRLF end.

(** [unique_push] *)
Definition is_other (n : Header.Name) : bool := match n with Header.Other _ => true | _ => false end.
Definition same_variant (a b : Header.Name) : bool := (is_other a && is_other b) || bool_decide (a = b).
Definition unique_push (h : Header) (hs : list Header) : list Header :=
  List.filter (fun s => negb (same_variant s.1 h.1)) hs ++ [h].

(** ** Status codes (common/status_code.rs) *)

Module Status.
Inductive StatusCode :=
  | Trying | Ringing | CallIsBeingForwarded | Queued | SessionProgress | EarlyDialogTerminated | OK | Accepted
  | NoNotification | MultipleChoices | MovedPermanently | MovedTemporarily | UseProxy | AlternativeService
  | BadRequest | Unauthorized | PaymentRequired | Forbidden | NotFound | MethodNotAllowed | NotAcceptable
  | ProxyAuthenticationRequired | RequestTimeout | Conflict | Gone | LengthRequired | ConditionalRequestFailed
  | RequestEntityTooLarge | RequestUriTooLong | UnsupportedMediaType | UnsupportedUriScheme
  | UnknownResourcePriority | BadExtension | ExtensionRequired | SessionIntervalTooSmall | IntervalTooBrief
  | BadLocationInformation | UseIdentityHeader | ProvideReferrerIdentity | AnonymityDisallowed
  | BadIdentityInfo | UnsupportedCertificate | InvalidIdentityHeader | FirstHopLacksOutboundSupport
  | MaxBreadthExceeded | BadInfoPackage | ConsentNeeded | TemporarilyUnavailable | CallTransactionDoesNotExist
  | LoopDetected | TooManyHops | AddressIncomplete | Ambiguous | BusyHere | RequestTerminated
  | NotAcceptableHere | BadEvent | RequestPending | Undecipherable | SecurityAgreementRequired
  | ServerInternalError | NotImplemented | BadGateway | ServiceUnavailable | ServerTimeOut
  | VersionNotSupported | MessageTooLarge | PreconditionFailure | BusyEverywhere | Decline
  | DoesNotExistAnywhere | NotAcceptableGlobal | Unwanted | Other (c : Z) (reason : string).

#[global] Instance StatusCode_eq_dec : EqDecision StatusCode.
Proof. solve_decision. Defined.

Definition known_codes : list (StatusCode * Z * string) :=
  [(Trying, 100, "Trying"); (Ringing, 180, "Ringing"); (CallIsBeingForwarded, 181, "Call Is Being Forwarded");
   (Queued, 182, "Queued"); (SessionProgress, 183, "Session Progress");
   (EarlyDialogTerminated, 199, "Early Dialog Terminated"); (OK, 200, "OK"); (Accepted, 201, "Accepted");
   (NoNotification, 204, "No Notification"); (MultipleChoices, 300, "Multiple Choices");
   (MovedPermanently, 301, "Moved Permanently"); (MovedTemporarily, 302, "Moved Temporarily");
   (UseProxy, 305, "Use Proxy"); (AlternativeService, 380, "Alternative Service");
   (BadRequest, 400, "Bad Request"); (Unauthorized, 401, "Unauthorized");
   (PaymentRequired, 402, "Payment Required"); (Forbidden, 403, "Forbidden"); (NotFound, 404, "Not Found");
   (MethodNotAllowed, 405, "Method Not Allowed"); (NotAcceptable, 406, "Not Acceptable");
   (ProxyAuthenticationRequired, 407, "Proxy Authentication Required");
   (RequestTimeout, 408, "Request Timeout"); (Conflict, 409, "Conflict"); (Gone, 410, "Gone");
   (LengthRequired, 411, "Length Required"); (ConditionalRequestFailed, 412, "Conditional Request Failed");
   (RequestEntityTooLarge, 413, "Request Entity Too Large"); (RequestUriTooLong, 414, "Request-URI Too Long");
   (UnsupportedMediaType, 415, "Unsupported Media Type");
   (UnsupportedUriScheme, 416, "Unsupported URI Scheme");
   (UnknownResourcePriority, 417, "Unknown Resource-Priority"); (BadExtension, 420, "Bad Extension");
   (ExtensionRequired, 421, "Extension Required");
   (SessionIntervalTooSmall, 422, "Session Interval Too Small"); (IntervalTooBrief, 423, "Interval Too Brief");
   (BadLocationInformation, 424, "Bad Location Information"); (UseIdentityHeader, 428, "Use Identity Header");
   (ProvideReferrerIdentity, 429, "Provide Referrer Identity");
   (AnonymityDisallowed, 433, "Anonymity Disallowed"); (BadIdentityInfo, 436, "Bad Identity-Info");
   (UnsupportedCertificate, 437, "Unsupported Certificate");
   (InvalidIdentityHeader, 438, "Invalid Identity Header");
   (FirstHopLacksOutboundSupport, 439, "First Hop Lacks Outbound Support");
   (MaxBreadthExceeded, 440, "Max-Breadth Exceeded"); (BadInfoPackage, 469, "Bad Info Package");
   (ConsentNeeded, 470, "Consent Needed"); (TemporarilyUnavailable, 480, "Temporarily Unavailable");
   (CallTransactionDoesNotExist, 481, "Call/Transaction Does Not Exist"); (LoopDetected, 482, "Loop Detected");
   (TooManyHops, 483, "Too Many Hops"); (AddressIncomplete, 484, "Address Incomplete");
   (Ambiguous, 485, "Ambiguous"); (BusyHere, 486, "Busy Here"); (RequestTerminated, 487, "Request Terminated");
   (NotAcceptableHere, 488, "Not Acceptable Here"); (BadEvent, 489, "Bad Event");
   (RequestPending, 491, "Request Pending"); (Undecipherable, 493, "Undecipherable");
   (SecurityAgreementRequired, 494, "Security Agreement Required");
   (ServerInternalError, 500, "Server Internal Error"); (NotImplemented, 501, "Not Implemented");
   (BadGateway, 502, "Bad Gateway"); (ServiceUnavailable, 503, "Service Unavailable");
   (ServerTimeOut, 504, "Server Time-out"); (VersionNotSupported, 505, "Version Not Supported");
   (MessageTooLarge, 513, "Message Too Large"); (PreconditionFailure, 580, "Precondition Failure");
   (BusyEverywhere, 600, "Busy Everywhere"); (Decline, 603, "Decline");
   (DoesNotExistAnywhere, 604, "Does Not Exist Anywhere"); (NotAcceptableGlobal, 606, "Not Acceptable");
   (Unwanted, 607, "Unwanted")].

Definition entry (s : StatusCode) : option (StatusCode * Z * string) :=
  List.find (fun e => bool_decide (e.1.1 = s)) known_codes.

Definition code (s : StatusCode) : Z :=
  match s with Other c _ => c | _ => match entry s with Some e => e.1.2 | None => 0 end end.
Definition reason_phrase (s : StatusCode) : string :=
  match s with Other _ r => r | _ => match entry s with Some e => e.2 | None => "" end end.

Definition by_code (c : Z) : option StatusCode := (fun e => e.1.1) <$> List.find (fun e => e.1.2 =? c) known_codes.

(** [From<u16>], and the conversion of what the tokenizer cut out. *)
Definition from_u16 (c : Z) : StatusCode := default (Other c "Other") (by_code c).
Definition of_token (tok : string * string) : option StatusCode :=
  c ← parse_uint u16_max tok.1; Some (default (Other c tok.2) (by_code c)).

Definition show (s : StatusCode) : string := Str.show (code s) +:+ " " +:+ reason_phrase s.

Inductive Kind := Provisional | Successful | Redirection | RequestFailure | ServerFailure | GlobalFailure | OtherKind.

Definition kind (s : StatusCode) : Kind :=
  let c := code s in
  if (100 <=? c) && (c <? 200) then Provisional
  else if (200 <=? c) && (c <? 300) then Successful
  else if (300 <=? c) && (c <? 400) then Redirection
  else if (400 <=? c) && (c <? 500) then RequestFailure
  else if (500 <=? c) && (c <? 600) then ServerFailure
  else if (600 <=? c) && (c <? 700) then GlobalFailure
  else OtherKind.
End Status.

(** ** Messages (message/) *)

Record Request := mkRequest {
  method : Method;
  uri : Uri;
  version : Version;
  headers : list Header;
  body : string
}.

#[export] Instance Request_eq_dec : EqDecision Request.
Proof. solve_decision. Defined.

Record Response := mkResponse {
  status_code : Status.StatusCode;
  rs_version : Version;
  rs_headers : list Header;
  rs_body : string
}.

#[export] Instance Response_eq_dec : EqDecision Response.
Proof. solve_decision. Defined.

Inductive SipMessage := Req (r : Request) | Resp (r : Response).

(** The first header of a name: [via_header] and the like. *)
Definition header_named (n : Header.Name) (hs : list Header) : option string :=
  snd <$> List.find (fun h => bool_decide (h.1 = n)) hs.

(** ** Reading and printing

    [conv]: a text cut out of bytes is checked to be UTF-8, one cut out of a
    text is not. *)
Section sip.
Context {N : Nom} (parse_ip : string -> option IpAddr) (ip_text : IpAddr -> string) (lossy : string -> string).

Definition tokenize_method : P string :=
  m <~ take_while1 is_token;
  fun r => match tag "SIP/" m with Some _ => None | None => Some (r, m) end.

Definition tokenize_version : P (string * string) :=
  tag "SIP/" ;~ major <~ digit1; tag "." ;~ minor <~ digit1; give (major, minor).

Definition tokenize_scheme : P string :=
  alt [s <~ tag_no_case "sip"; tag ":" ;~ give s;
       s <~ tag_no_case "sips"; tag ":" ;~ give s;
       s <~ tag_no_case "tel"; tag ":" ;~ give s;
       s <~ take_until "://"; tag "://" ;~ give s].

(** [user:password], or [host:port]: cut at the first colon. *)
Definition at_colon (s : string) : string * option string :=
  match (a <~ take_until ":"; tag ":" ;~ b <~ rest; give (a, b)) s with
  | Some (_, (a, b)) => (a, Some b)
  | None => (s, None)
  end.

Definition tokenize_auth : P (string * option string) :=
  a <~ take_till (fun c => chr "." c || chr "@" c); tag "@" ;~ give (at_colon a).

Definition tokenize_host_with_port : P (string * option string) :=
  h <~ take_till1 (fun c => chr ";" c || chr " " c); give (at_colon h).

(** [recognize]: a quoted text with its quotes. *)
Definition quoted_value : P string :=
  tag quote_text ;~ v <~ take_until quote_text; tag quote_text ;~ give (quote_text +:+ v +:+ quote_text).

Definition tokenize_param : P (string * option string) :=
  tag ";" ;~ n <~ take_while is_token; v <~ opt (tag "=" ;~ alt [quoted_value; take_while is_token]); give (n, v).

Definition tokenize_uri : P UriTok :=
  s <~ opt tokenize_scheme; a <~ opt tokenize_auth; h <~ tokenize_host_with_port; ps <~ many0 tokenize_param;
  give (mkUriTok s a h ps).

Definition tokenize_without_params : P UriTok :=
  s <~ opt tokenize_scheme; a <~ opt tokenize_auth; h <~ tokenize_host_with_port; give (mkUriTok s a h []).

Definition host_of (s : string) : Host := match parse_ip s with Some i => HostIp i | None => Domain s end.
Definition show_host (h : Host) : string := match h with Domain d => d | HostIp i => ip_text i end.

Definition show_host_with_port (h : HostWithPort) : string :=
  match hp_port h with None => show_host (host h) | Some p => show_host (host h) +:+ ":" +:+ Str.show p end.

Definition show_scheme_prefix (s : option Scheme) : string :=
  match s with
  | Some (OtherScheme s) => s +:+ "://"
  | Some s => show_scheme s +:+ ":"
  | None => ""
  end.

Definition show_auth_prefix (a : option Auth) : string :=
  match a with Some a => show_auth a +:+ "@" | None => "" end.

Definition show_uri (u : Uri) : string :=
  show_scheme_prefix (scheme u) +:+ show_auth_prefix (auth u) +:+ show_host_with_port (host_with_port u)
  +:+ show_params (params u).

(** An optional text, converted. *)
Definition opt_conv (conv : string -> option string) (o : option string) : option (option string) :=
  match o with Some s => Some <$> conv s | None => Some None end.

Definition pair_of (conv : string -> option string) (t : string * option string) : option (string * option string) :=
  a ← conv t.1; b ← opt_conv conv t.2; Some (a, b).

Definition host_with_port_of (conv : string -> option string) (t : string * option string) : option HostWithPort :=
  hp ← pair_of conv t;
  match hp.2 with
  | Some p => p ← parse_uint u16_max p; Some (mkHostPort (host_of hp.1) (Some p))
  | None => Some (mkHostPort (host_of hp.1) None)
  end.

Definition params_of (conv : string -> option string) (ts : list (string * option string)) : option (list Param) :=
  mapM (fun t => pair_of conv t ≫= param_of) ts.

Definition uri_of (conv : string -> option string) (t : UriTok) : option Uri :=
  s ← match t_scheme t with Some s => (fun s => Some (scheme_of s)) <$> conv s | None => Some None end;
  a ← match t_auth t with Some a => Some <$> pair_of conv a | None => Some None end;
  h ← host_with_port_of conv (t_host t);
  ps ← params_of conv (t_params t);
  Some (mkUri s a h ps []).

(** [Uri::try_from] *)
Definition parse_uri (s : string) : option Uri := t ← tokenize_uri s; uri_of from_utf8 t.2.

(** *** Headers *)

Definition value_line : P string :=
  alt [v <~ take_until CRLF; tag CRLF ;~ give v; rest].

Definition tokenize_header : P (string * string) :=
  n <~ take_while1 is_token; tag ":" ;~ space0 ;~ v <~ value_line; give (n, v).

Definition header_of (t : string * string) : option Header :=
  n ← from_utf8 t.1; v ← from_utf8 t.2; Some (Header.name_of n, v).

(** The header lines, up to the empty line, and the body after it. *)
Definition tokenize_headers : P (list (string * string)) :=
  raw <~ alt [raw <~ take_until (CRLF +:+ CRLF); tag (CRLF +:+ CRLF) ;~ give raw;
              raw <~ take_until CRLF; tag CRLF ;~ give raw];
  fun body => match many0 tokenize_header raw with
              | Some ("", hs) => Some (body, hs)
              | _ => None
              end.

(** *** Requests *)

Definition tokenize_request : P (string * UriTok * (string * string) * list (string * string)) :=
  m <~ tokenize_method; tag " " ;~ u <~ tokenize_uri; tag " " ;~ v <~ tokenize_version; tag CRLF ;~
  hs <~ tokenize_headers; give (m, u, v, hs).

Definition request_of (t : string * UriTok * (string * string) * list (string * string)) (body : string)
    : option Request :=
  let '(m, u, v, hs) := t in
  m ← from_utf8 m ≫= method_of;
  u ← uri_of from_utf8 u;
  v ← version_of v;
  hs ← mapM header_of hs;
  Some (mkRequest m u v hs body).

Definition show_request (r : Request) : string :=
  show_method (method r) +:+ " " +:+ show_uri (uri r) +:+ " " +:+ show_version (version r) +:+ CRLF
  +:+ show_headers (headers r) +:+ CRLF +:+ lossy (body r).

(** *** Responses *)

Definition tokenize_status : P (string * string) :=
  c <~ take 3; tag " " ;~ r <~ alt [take_until CRLF; rest]; give (c, r).

Definition tokenize_response : P (string * string * (string * string) * list (string * string)) :=
  v <~ tokenize_version; space1 ;~ s <~ tokenize_status; tag CRLF ;~ hs <~ tokenize_headers; give (v, s, hs).

Definition response_of (t : string * string * (string * string) * list (string * string)) (body : string)
    : option Response :=
  let '(v, s, hs) := t in
  v ← version_of v;
  s ← pair_of from_utf8 (s.1, Some s.2) ≫= (fun p => Status.of_token (p.1, default "" p.2));
  hs ← mapM header_of hs;
  Some (mkResponse s v hs body).

Definition show_response (r : Response) : string :=
  show_version (rs_version r) +:+ " " +:+ Status.show (status_code r) +:+ CRLF
  +:+ show_headers (rs_headers r) +:+ CRLF +:+ lossy (rs_body r).

(** *** Messages *)

Inductive Token :=
  | TokReq (t : string * UriTok * (string * string) * list (string * string)) (body : string)
  | TokResp (t : string * string * (string * string) * list (string * string)) (body : string).

(** The tokenizers of a request and of a response take the body, all that is
    left. *)
Definition whole {A} (p : P A) (k : A -> string -> Token) : P Token :=
  a <~ p; fun body => Some ("", k a body).

Definition tokenize : P Token := alt [whole tokenize_response TokResp; whole tokenize_request TokReq].

Definition message_of (t : Token) : option SipMessage :=
  match t with
  | TokReq t body => Req <$> request_of t body
  | TokResp t body => Resp <$> response_of t body
  end.

(** [SipMessage::try_from] *)
Definition parse (s : string) : option SipMessage := t ← tokenize s; message_of t.2.

Definition show_message (m : SipMessage) : string :=
  match m with Req r => show_request r | Resp r => show_response r end.

(** ** Messages that are printed and read back *)

Definition wf_scheme (s : option Scheme) : bool :=
  match s with Some (OtherScheme _) | None => false | Some _ => true end.

Definition wf_user (s : string) : bool := free_of "." s && free_of "@" s && is_utf8 s.
Definition wf_auth (a : option Auth) : bool :=
  match a with
  | None => true
  | Some (user, password) =>
      wf_user user && free_of ":" user && match password with Some p => wf_user p | None => true end
  end.

Definition host_char (c : ascii) : bool :=
  negb (chr ";" c || chr " " c || chr "@" c || chr ":" c).
Definition wf_host (h : HostWithPort) : bool :=
  let t := show_host (host h) in
  negb (seqb t "") && sall host_char t && is_utf8 t && bool_decide (host_of t = host h)
  && match hp_port h with Some p => (0 <=? p) && (p <=? u16_max) | None => true end.

Definition quoted (v : string) : bool :=
  match v with
  | String c w => chr quote c && match find_char quote w with Some n => Nat.eqb (S n) (String.length w) | None => false end
  | "" => false
  end.
Definition wf_value (v : string) : bool := is_utf8 v && (sall is_token v || quoted v).
Definition wf_param (p : Param) : bool :=
  let t := param_parts p in
  sall is_token t.1 && is_utf8 t.1 && match t.2 with Some v => wf_value v | None => true end
  && bool_decide (param_of t = Some p).

(** Without a user, what follows must not be taken for one. *)
Definition wf_uri (u : Uri) : bool :=
  wf_scheme (scheme u) && wf_auth (auth u) && wf_host (host_with_port u) && forallb wf_param (params u)
  && bool_decide (uri_headers u = []) && (bool_decide (is_Some (auth u)) || free_of "@" (show_params (params u))).

Definition wf_header (h : Header) : bool :=
  let d := Header.display_name h.1 in
  negb (seqb d "") && sall is_token d && is_utf8 d && bool_decide (Header.name_of d = h.1)
  && crlf_free h.2 && stops is_blank h.2 && is_utf8 h.2.

Definition wf_headers (hs : list Header) : bool := negb (bool_decide (hs = [])) && forallb wf_header hs.

Definition wf_status (s : Status.StatusCode) : bool :=
  let c := Str.show (Status.code s) in let r := Status.reason_phrase s in
  Nat.eqb (String.length c) 3 && stops is_blank c && crlf_free r && is_utf8 c && is_utf8 r && bool_decide (Status.of_token (c, r) = Some s).

Definition wf_message (m : SipMessage) : bool :=
  match m with
  | Req r => wf_uri (uri r) && wf_headers (headers r) && is_utf8 (body r)
  | Resp r => wf_status (status_code r) && wf_headers (rs_headers r) && is_utf8 (rs_body r)
  end.

(** *** Start line *)

Lemma method_tokens m r : tokenize_method (show_method m +:+ " " +:+ r) = Some (" " +:+ r, show_method m).
Proof.
  unfold tokenize_method, andThen. rewrite take_while1_app; [|by destruct m..]. rewrite tag_fails; [done|by destruct m].
Qed.

Lemma method_back m : from_utf8 (show_method m) ≫= method_of = Some m.
Proof. by destruct m. Qed.

Definition version_parts (v : Version) : string * string := match v with V1 => ("1", "0") | V2 => ("2", "0") end.

Lemma version_tokens v r :
  stops is_digit r = true -> tokenize_version (show_version v +:+ r) = Some (r, version_parts v).
Proof.
  intros Hr.
  assert (E : show_version v +:+ r = "SIP/" +:+ (version_parts v).1 +:+ "." +:+ (version_parts v).2 +:+ r) by by destruct v.
  rewrite E. unfold tokenize_version, andThen, digit1. rewrite tag_app, take_while1_app by by destruct v.
  rewrite tag_app, take_while1_app by (done || by destruct v). by destruct v.
Qed.

Lemma version_back v : version_of (version_parts v) = Some v.
Proof. by destruct v. Qed.

(** *** URIs *)

Lemma find_str_char c s : find_str (String c "") s = find_char c s.
Proof.
  induction s as [|d s IH]; [done|]. cbn [find_str find_char]. rewrite starts_with_cons, starts_with_nil, andb_true_r, IH.
  destruct (decide (d = c)) as [->|Hd].
  - by rewrite !bool_decide_eq_true_2.
  - by rewrite !bool_decide_eq_false_2 by done.
Qed.

Lemma find_char_free c s : free_of c s = true -> find_char c s = None.
Proof.
  induction s as [|d s IH]; [done|]. rewrite free_of_cons. intros [Hd Hs]%andb_true_iff.
  apply negb_true_iff in Hd. simpl. rewrite Hd. by rewrite IH.
Qed.

Lemma at_colon_pair a b : free_of ":" a = true -> at_colon (a +:+ ":" +:+ b) = (a, Some b).
Proof.
  intros Ha. unfold at_colon, andThen, give. rewrite take_until_app.
  - by rewrite tag_app, rest_eq.
  - rewrite find_str_char. by apply find_char_app.
Qed.

Lemma at_colon_single a : free_of ":" a = true -> at_colon a = (a, None).
Proof.
  intros Ha. unfold at_colon, andThen, give. rewrite take_until_fails; [done|].
  rewrite find_str_char. by apply find_char_free.
Qed.

Lemma scheme_tokens s r :
  wf_scheme (Some s) = true ->
  tokenize_scheme (show_scheme_prefix (Some s) +:+ r) = Some (r, show_scheme s) /\ scheme_of (show_scheme s) = s.
Proof.
  unfold tokenize_scheme, andThen, give, show_scheme_prefix. intros Hs.
  destruct s as [| | |o]; [..|done]; cbn [show_scheme]; rewrite !alt_cons; (split; [|done]); rewrite sapp_assoc.
  - by rewrite (tag_no_case_app "sip" "sip"), tag_app by done.
  - assert (E : tag_no_case "sip" ("sips" +:+ ":" +:+ r) = Some ("s" +:+ ":" +:+ r, "sip"))
      by exact (tag_no_case_app "sip" "sip" ("s" +:+ ":" +:+ r) eq_refl eq_refl).
    rewrite E, (tag_fails ":") by done. by rewrite (tag_no_case_app "sips" "sips"), tag_app by done.
  - assert (E : forall t, t = "sip" \/ t = "sips" -> tag_no_case t ("tel" +:+ ":" +:+ r) = None).
    { intros t Ht. rewrite tag_no_case_eq.
      replace (eq_ignore_ascii_case _ t) with false by (by destruct Ht as [-> | ->]). by rewrite andb_false_r. }
    rewrite !E by auto. by rewrite (tag_no_case_app "tel" "tel"), tag_app by done.
Qed.

(** The stop of the user part: a dot or an at sign. *)
Abbreviation dot_or_at := (fun c => chr "." c || chr "@" c).

Lemma free_of_sall c s : free_of c s = true -> sall (fun d => negb (chr c d)) s = true.
Proof. intros H. exact H. Qed.

Lemma free_of_both s :
  free_of "." s = true -> free_of "@" s = true -> sall (fun c => negb (dot_or_at c)) s = true.
Proof.
  induction s as [|c s IH]; [done|]. rewrite !free_of_cons. cbn [sall].
  intros [H1 H2]%andb_true_iff [H3 H4]%andb_true_iff. rewrite IH, andb_true_r by done.
  unfold chr. apply negb_true_iff in H1, H3. by rewrite H1, H3.
Qed.

Lemma auth_tokens a r : wf_auth (Some a) = true -> tokenize_auth (show_auth a +:+ "@" +:+ r) = Some (r, a).
Proof.
  destruct a as [u p]. unfold wf_auth, wf_user, show_auth, tokenize_auth, andThen, take_till. cbn [fst snd].
  rewrite !andb_true_iff. intros [[[[Hu1 Hu2] Hu3] Hc] Hp].
  destruct p as [p|].
  - rewrite !andb_true_iff in Hp. destruct Hp as [[Hp1 Hp2] Hp3].
    rewrite take_while_app; [|apply free_of_both; rewrite !free_of_app; by rewrite ?Hu1, ?Hu2, ?Hp1, ?Hp2|done].
    rewrite tag_app. unfold give. by rewrite at_colon_pair.
  - rewrite take_while_app by (done || by apply free_of_both). rewrite tag_app. unfold give. by rewrite at_colon_single.
Qed.

(** Text without a user: no at sign before the first dot, or before the end. *)
Definition userless (s : string) : Prop :=
  exists a b, s = a +:+ b /\ free_of "@" a = true /\ (b = "" \/ exists b', b = "." +:+ b').

Lemma userless_app a s : free_of "@" a = true -> userless s -> userless (a +:+ s).
Proof.
  intros Ha (x & y & -> & Hx & Hy). exists (a +:+ x), y. rewrite sapp_assoc, free_of_app, Ha. by split_and!.
Qed.

Lemma run_free p a b :
  (b = "" \/ exists c b', b = String c b' /\ p c = false) ->
  exists n, run p (a +:+ b) = n /\
    (sdrop n (a +:+ b) = "" \/ exists c w, sdrop n (a +:+ b) = String c w /\
       (contains_char c a = true \/ exists b', b = String c b')).
Proof.
  intros Hb. induction a as [|d a IH].
  - exists 0%nat. change ("" +:+ b) with b. destruct Hb as [->|(c & b' & -> & Hc)].
    + by split; [|left].
    + unfold run. simpl. rewrite Hc. simpl. split; [done|]. right. exists c, b'. split; [done|]. right. by exists b'.
  - rewrite sapp_cons. destruct (p d) eqn:Hd.
    + destruct IH as (n & Hn & Hs). exists (S n). unfold run in *. simpl. rewrite Hd. simpl.
      split; [destruct (find_by _ (a +:+ b)); by rewrite <- Hn|]. destruct Hs as [Hs|(c & w & Hs & Hc)]; [by left|].
      right. exists c, w. split; [done|]. destruct Hc as [Hc|Hc]; [left|by right].
      unfold contains_char in *. simpl. rewrite negb_true_iff in *. by rewrite Hc, andb_false_r.
    + exists 0%nat. unfold run. simpl. rewrite Hd. simpl. split; [done|]. right. exists d, (a +:+ b). split; [done|].
      left. unfold contains_char. simpl. by rewrite bool_decide_eq_true_2.
Qed.

Lemma no_user s : userless s -> tokenize_auth s = None.
Proof.
  intros (a & b & -> & Ha & Hb). unfold tokenize_auth, andThen, take_till. rewrite take_while_eq.
  destruct (run_free (fun c => negb (dot_or_at c)) a b) as (n & -> & Hs).
  { destruct Hb as [->|[b' ->]]; [by left|]. right. by exists "."%char, b'. }
  unfold cut. rewrite tag_fails; [done|]. destruct Hs as [->|(c & w & -> & Hc)]; [done|].
  change "@" with (String "@" ""). rewrite starts_with_cons. apply andb_false_iff. left.
  apply bool_decide_eq_false. intros <-. destruct Hc as [Hc|[b' ->]].
  - unfold contains_char in Hc. unfold free_of in Ha. apply negb_true_iff in Hc.
    assert (E : sall (fun d => negb (bool_decide (d = "@"%char))) a = true) by exact Ha.
    congruence.
  - destruct Hb as [?|[b2 Hb]]; [done|]. by injection Hb.
Qed.

(** *** Host and port *)

Definition port_text (p : option Z) : option string := Str.show <$> p.

Lemma show_digits n : 0 <= n -> sall is_digit (Str.show n) = true.
Proof. intros Hn. by apply show_spec. Qed.

Lemma digit_host c : is_digit c = true -> negb (chr ";" c || chr " " c) = true /\ negb (bool_decide (c = "@"%char)) = true.
Proof.
  unfold is_digit, chr, code. intros H.
  assert (Hc : c <> ";"%char /\ c <> " "%char /\ c <> "@"%char) by (split_and!; by intros ->).
  destruct Hc as (H1 & H2 & H3). rewrite !bool_decide_eq_false_2 by done. done.
Qed.

Lemma host_chars t : sall host_char t = true ->
  sall (fun c => negb (chr ";" c || chr " " c)) t = true /\ free_of ":" t = true /\ free_of "@" t = true.
Proof.
  intros H. unfold free_of. split_and!; (eapply sall_impl; [|exact H]); intros c Hc; unfold host_char, chr in *;
    rewrite !negb_true_iff, !orb_false_iff in Hc; destruct Hc as [[[H1 H2] H3] H4]; by rewrite ?H1, ?H2, ?H3, ?H4.
Qed.

Definition host_end (r : string) : bool := stops (fun c => negb (chr ";" c || chr " " c)) r.

Lemma wf_host_inv h : wf_host h = true ->
  show_host (host h) <> "" /\ sall host_char (show_host (host h)) = true /\ is_utf8 (show_host (host h)) = true /\
  host_of (show_host (host h)) = host h /\ match hp_port h with Some p => 0 <= p <= u16_max | None => True end.
Proof.
  unfold wf_host. rewrite !andb_true_iff, bool_decide_eq_true, negb_true_iff. intros [[[[H1 H2] H3] H4] H5].
  split_and!; try done.
  - intros E. by rewrite E in H1.
  - destruct (hp_port h); [|done]. apply andb_true_iff in H5 as [?%Z.leb_le ?%Z.leb_le]. lia.
Qed.

Lemma show_host_chars h : wf_host h = true ->
  sall (fun c => negb (chr ";" c || chr " " c)) (show_host_with_port h) = true /\
  free_of "@" (show_host_with_port h) = true /\ show_host_with_port h <> "".
Proof.
  intros (H1 & H2 & _ & _ & Hp)%wf_host_inv. destruct (host_chars _ H2) as (Hc & _ & Ha).
  unfold show_host_with_port. destruct (hp_port h) as [p|]; [|done].
  assert (Hd := show_digits p ltac:(lia)). split_and!.
  - rewrite !sall_app, Hc. simpl. eapply sall_impl; [|exact Hd]. intros c Hx. by apply digit_host.
  - rewrite !free_of_app, Ha. simpl. unfold free_of. eapply sall_impl; [|exact Hd]. intros c Hx. by apply digit_host.
  - by destruct (show_host (host h)).
Qed.

Lemma host_tokens h r : wf_host h = true -> host_end r = true ->
  tokenize_host_with_port (show_host_with_port h +:+ r) = Some (r, (show_host (host h), port_text (hp_port h))).
Proof.
  intros Hw Hr. destruct (show_host_chars h Hw) as (Hc & _ & Hn).
  unfold tokenize_host_with_port, andThen, take_till1. rewrite take_while1_app by done. unfold give. do 2 f_equal.
  apply wf_host_inv in Hw as (_ & Hh & _). apply host_chars in Hh as (_ & Hcol & _). unfold show_host_with_port.
  destruct (hp_port h); [by apply at_colon_pair|by apply at_colon_single].
Qed.

Lemma show_utf8 n : 0 <= n -> is_utf8 (Str.show n) = true.
Proof.
  intros Hn. assert (H := show_digits n Hn). induction (Str.show n) as [|c s IH]; [done|].
  cbn [sall] in H. apply andb_true_iff in H as [Hc Hs]. unfold is_digit in Hc. apply andb_true_iff in Hc as [H1 H2].
  apply Z.leb_le in H1, H2. cbn [is_utf8]. replace (code c <? 128) with true by (symmetry; apply Z.ltb_lt; lia). by apply IH.
Qed.

Lemma host_back h : wf_host h = true ->
  host_with_port_of from_utf8 (show_host (host h), port_text (hp_port h)) = Some h.
Proof.
  intros (_ & _ & Hu & Hh & Hp)%wf_host_inv. unfold host_with_port_of, pair_of, from_utf8. cbn [fst snd]. rewrite Hu.
  destruct h as [ho [p|]]; cbn [host hp_port port_text fmap option_fmap option_map opt_conv] in *; simpl.
  - unfold from_utf8. rewrite show_utf8 by lia. simpl. rewrite parse_show by done. simpl. by rewrite Hh.
  - by rewrite Hh.
Qed.

(** *** Parameters *)

Lemma quoted_inv v : quoted v = true -> exists x, v = quote_text +:+ x +:+ quote_text /\ free_of quote x = true.
Proof.
  destruct v as [|c w]; [done|]. unfold quoted, chr. intros [Hc Hw]%andb_true_iff. apply bool_decide_eq_true in Hc as ->.
  destruct (find_char quote w) as [n|] eqn:E; [|done]. apply Nat.eqb_eq in Hw.
  cut (exists x, w = x +:+ quote_text /\ free_of quote x = true); [intros (x & -> & Hx); by exists x|].
  clear -E Hw. revert n E Hw. induction w as [|d w IH]; intros n E Hw; [done|]. simpl in E.
  destruct (decide (d = quote)) as [->|Hd].
  - rewrite bool_decide_eq_true_2 in E by done. injection E as <-. destruct w; [|done]. by exists "".
  - rewrite bool_decide_eq_false_2 in E by done. destruct (find_char quote w) as [m|] eqn:Em; [|done].
    injection E as <-. destruct (IH m eq_refl) as (x & -> & Hx); [simpl in Hw; lia|].
    exists (String d x). split; [done|]. by rewrite free_of_cons, Hx, bool_decide_eq_false_2.
Qed.

Lemma token_not c d : is_token c = true -> is_token d = false -> bool_decide (c = d) = false.
Proof. intros Hc Hd. apply bool_decide_eq_false. intros ->. congruence. Qed.

(** Where the parameters of a URI end. *)
Definition params_end (r : string) : bool :=
  match r with "" => true | String c _ => negb (is_token c || chr "=" c || chr ";" c || chr quote c) end.

Definition value_end (r : string) : bool :=
  match r with "" => true | String c _ => negb (is_token c || chr quote c) end.

Lemma value_tokens v r : wf_value v = true -> value_end r = true ->
  alt [quoted_value; take_while is_token] (v +:+ r) = Some (r, v).
Proof.
  unfold wf_value. intros [_ [Ht|Hq]%orb_true_iff]%andb_true_iff Hr; rewrite alt_cons; unfold quoted_value, andThen, give.
  - replace (tag quote_text (v +:+ r)) with (None (A := string * string)).
    + rewrite alt_cons, take_while_app; [done|done|]. destruct r as [|c r]; [done|]. unfold value_end in Hr.
      apply negb_true_iff, orb_false_iff in Hr as [Hc _]. simpl. by rewrite Hc.
    + symmetry. apply tag_fails. destruct v as [|c v].
      * destruct r as [|c r]; [done|]. change ("" +:+ String c r) with (String c r). unfold quote_text.
        rewrite starts_with_cons. apply andb_false_iff. left. apply bool_decide_eq_false. by intros <-.
      * rewrite sapp_cons. unfold quote_text. rewrite starts_with_cons. cbn [sall] in Ht. apply andb_true_iff in Ht as [Hc _].
        apply andb_false_iff. left. apply bool_decide_eq_false. by intros <-.
  - destruct (quoted_inv v Hq) as (x & -> & Hx). rewrite !sapp_assoc, tag_app, take_until_app.
    + by rewrite tag_app.
    + unfold quote_text. rewrite find_str_char. by apply find_char_app.
Qed.

Lemma param_tokens p r : wf_param p = true -> value_end r = true ->
  (is_Some (param_parts p).2 \/ stops (chr "=") r = true) ->
  tokenize_param (show_param p +:+ r) = Some (r, param_parts p).
Proof.
  unfold wf_param, show_param, tokenize_param. destruct (param_parts p) as [n v]. cbn [fst snd].
  rewrite !andb_true_iff. intros [[[Hn _] Hv] _] Hr He. unfold andThen, give. destruct v as [v|].
  - rewrite !sapp_assoc, tag_app, take_while_app by done. rewrite opt_eq, tag_app, value_tokens by done. done.
  - rewrite sapp_assoc, tag_app. destruct r as [|c r].
    + rewrite take_while_app by done. rewrite opt_eq, tag_fails by done. done.
    + unfold value_end in Hr. apply negb_true_iff, orb_false_iff in Hr as [Hc _].
      rewrite take_while_app; [|done|simpl; by rewrite Hc]. rewrite opt_eq, tag_fails; [done|].
      change "=" with (String "=" ""). rewrite starts_with_cons. apply andb_false_iff. left.
      destruct He as [[? ?]|He]; [done|]. unfold stops, chr in He. apply negb_true_iff in He.
      apply bool_decide_eq_false in He. apply bool_decide_eq_false. congruence.
Qed.

Lemma param_back p : wf_param p = true -> pair_of from_utf8 (param_parts p) ≫= param_of = Some p.
Proof.
  unfold wf_param. rewrite !andb_true_iff, bool_decide_eq_true. intros [[[_ Hn] Hv] Hp].
  unfold pair_of, from_utf8. rewrite Hn. destruct (param_parts p) as [n [v|]]; cbn [fst snd opt_conv] in *; [|exact Hp].
  unfold wf_value in Hv. apply andb_true_iff in Hv as [-> _]. exact Hp.
Qed.

Lemma tokenize_param_shortens : shortens tokenize_param.
Proof.
  unfold tokenize_param, quoted_value.
  repeat first [ apply andThen_shortens | apply give_shortens | apply opt_shortens | apply alt_shortens | apply tag_shortens
               | apply take_while_shortens | apply take_until_shortens | apply Forall_cons_2 | apply Forall_nil_2 | intros ? ].
Qed.

Lemma show_params_cons p ps : show_params (p :: ps) = show_param p +:+ show_params ps.
Proof. destruct ps as [|q ps]; [|reflexivity]. change (show_params []) with "". by rewrite sapp_nil_r. Qed.

Lemma show_param_head p : exists w, show_param p = String ";" w.
Proof. unfold show_param. destruct (param_parts p) as [n [v|]]; by eexists. Qed.

Lemma params_tokens ps r : forallb wf_param ps = true -> params_end r = true ->
  many0 tokenize_param (show_params ps +:+ r) = Some (r, map param_parts ps).
Proof.
  intros Hw Hr. assert (Hv : value_end r = true /\ stops (chr "=") r = true /\ starts_with ";" r = false).
  { unfold params_end in Hr. destruct r as [|c r]; [done|]. rewrite negb_true_iff, !orb_false_iff in Hr.
    destruct Hr as [[[H1 H2] H3] H4]. simpl. rewrite H1, H2, H4. split_and!; [done..|].
    change ";" with (String ";" ""). rewrite starts_with_cons. apply andb_false_iff. left. unfold chr in H3.
    apply bool_decide_eq_false in H3. apply bool_decide_eq_false. congruence. }
  destruct Hv as (Hv & He & Hs). induction ps as [|p ps IH].
  - apply many0_stop; [apply tokenize_param_shortens|]. unfold tokenize_param, andThen. by rewrite tag_fails.
  - cbn [forallb] in Hw. apply andb_true_iff in Hw as [Hp Hps]. rewrite show_params_cons, sapp_assoc.
    eapply many0_more; [apply tokenize_param_shortens| | |by apply IH].
    + apply param_tokens; [done|destruct ps as [|q ps]|destruct ps as [|q ps]]; [done| |by right|].
      * rewrite show_params_cons. by destruct (show_param_head q) as [w ->].
      * right. rewrite show_params_cons. by destruct (show_param_head q) as [w ->].
    + destruct (show_param_head p) as [w ->]. rewrite sapp_cons. simpl. rewrite !slength_app. lia.
Qed.

Lemma params_back ps : forallb wf_param ps = true -> params_of from_utf8 (map param_parts ps) = Some ps.
Proof.
  unfold params_of. induction ps as [|p ps IH]; [done|]. cbn [forallb]. intros [Hp Hps]%andb_true_iff.
  cbn [map mapM]. rewrite param_back by done. simpl. by rewrite IH.
Qed.

(** *** URIs *)

Definition uri_tokens (u : Uri) : UriTok :=
  mkUriTok (show_scheme <$> scheme u) (auth u)
    (show_host (host (host_with_port u)), port_text (hp_port (host_with_port u))) (map param_parts (params u)).

(** What follows a URI: the end of the text, or a space with no user after it. *)
Definition uri_ends (r : string) : Prop := (r = "" \/ exists w, r = " " +:+ w) /\ userless r.

Lemma wf_uri_inv u : wf_uri u = true ->
  wf_scheme (scheme u) = true /\ wf_auth (auth u) = true /\ wf_host (host_with_port u) = true /\
  forallb wf_param (params u) = true /\ uri_headers u = [] /\
  (is_Some (auth u) \/ free_of "@" (show_params (params u)) = true).
Proof.
  unfold wf_uri. rewrite !andb_true_iff, orb_true_iff, !bool_decide_eq_true. intuition.
Qed.

Lemma uri_read u r : wf_uri u = true -> uri_ends r -> tokenize_uri (show_uri u +:+ r) = Some (r, uri_tokens u).
Proof.
  intros (Hs & Ha & Hh & Hp & _ & Hat)%wf_uri_inv [Hend Hless].
  assert (Hr : params_end r = true /\ host_end r = true) by (destruct Hend as [->|[w ->]]; done). destruct Hr as [Hpe Hhe].
  assert (Hhp : host_end (show_params (params u) +:+ r) = true).
  { destruct (params u) as [|p ps]; [done|]. rewrite show_params_cons. by destruct (show_param_head p) as [w ->]. }
  unfold tokenize_uri, andThen, show_uri. rewrite !sapp_assoc, opt_eq.
  destruct (scheme u) as [s|] eqn:Es; [|done]. assert (Ht := fun r => proj1 (scheme_tokens s r Hs)). rewrite Ht, opt_eq.
  assert (Hau : match tokenize_auth (show_auth_prefix (auth u) +:+ show_host_with_port (host_with_port u) +:+ show_params (params u) +:+ r) with
                | Some (r, a) => Some (r, Some a)
                | None => Some (show_auth_prefix (auth u) +:+ show_host_with_port (host_with_port u) +:+ show_params (params u) +:+ r, None)
                end = Some (show_host_with_port (host_with_port u) +:+ show_params (params u) +:+ r, auth u)).
  { destruct (auth u) as [a|] eqn:Ea; unfold show_auth_prefix.
    - by rewrite sapp_assoc, auth_tokens.
    - rewrite no_user; [done|]. change ("" +:+ ?x) with x. apply userless_app; [by apply show_host_chars|].
      apply userless_app; [|done]. destruct Hat as [[? ?]|?]; done. }
  rewrite Hau, host_tokens by done. rewrite params_tokens by done. unfold give, uri_tokens. by rewrite Es.
Qed.

Lemma pair_back a : wf_auth (Some a) = true -> pair_of from_utf8 a = Some a.
Proof.
  destruct a as [x p]. unfold wf_auth, wf_user, pair_of, from_utf8. rewrite !andb_true_iff. cbn [fst snd].
  intros [[[_ ->] _] Hp]. destruct p as [p|]; [|done]. rewrite !andb_true_iff in Hp. cbn [opt_conv]. unfold from_utf8.
  by destruct Hp as [_ ->].
Qed.

Lemma uri_back u : wf_uri u = true -> uri_of from_utf8 (uri_tokens u) = Some u.
Proof.
  intros (Hs & Ha & Hh & Hp & He & _)%wf_uri_inv. unfold uri_of, uri_tokens. cbn [t_scheme t_auth t_host t_params].
  rewrite host_back, params_back by done. destruct u as [s a h ps hs]. cbn [scheme auth host_with_port params uri_headers] in *.
  subst hs. destruct s as [s|]; [|done]. destruct (scheme_tokens s "" Hs) as [_ Hsc]. cbn [fmap option_fmap option_map].
  replace (from_utf8 (show_scheme s)) with (Some (show_scheme s)) by by destruct s. simpl. rewrite Hsc.
  destruct a as [a|]; [|done]. by rewrite pair_back.
Qed.

(** *** Header lines *)

Lemma is_crlf_token c d : is_token c = true -> is_crlf c d = false.
Proof. intros Hc. unfold is_crlf. apply bool_decide_eq_false. by intros [-> _]. Qed.

Lemma crlf_free_more c s : is_token c = true \/ c = ":"%char \/ c = " "%char -> crlf_free s = true -> crlf_free (String c s) = true.
Proof.
  intros Hc Hs. rewrite crlf_free_cons. destruct s as [|d s]; [done|]. apply andb_true_iff. split; [|done].
  apply negb_true_iff. unfold is_crlf. apply bool_decide_eq_false. intros [-> _]. by destruct Hc as [?|[?|?]].
Qed.

Lemma show_header_free h : wf_header h = true -> crlf_free (show_header h) = true.
Proof.
  unfold wf_header, show_header. rewrite !andb_true_iff. intros [[[[[[_ Hd] _] _] Hv] _] _].
  induction (Header.display_name h.1) as [|c d IH].
  - change ("" +:+ ?x) with x. rewrite !sapp_cons. change ("" +:+ ?x) with x. by do 2 (apply crlf_free_more; [tauto|]).
  - cbn [sall] in Hd. apply andb_true_iff in Hd as [Hc Hd]. rewrite sapp_cons. apply crlf_free_more; [by left|by apply IH].
Qed.

(** A line end starts nowhere in a text without one, even when one follows. *)
Lemma no_line_end c t s : crlf_free (String c t) = true -> starts_with CRLF (String c (t +:+ CRLF +:+ s)) = false.
Proof.
  intros Hf. rewrite crlf_free_cons in Hf. unfold CRLF at 1. rewrite starts_with_cons. destruct t as [|d t].
  - change ("" +:+ CRLF +:+ s) with (String "013" (String "010" s)). rewrite starts_with_cons. by rewrite andb_false_r.
  - rewrite sapp_cons, starts_with_cons. apply andb_true_iff in Hf as [Hf _]. unfold is_crlf in Hf.
    apply negb_true_iff, bool_decide_eq_false in Hf. destruct (decide (c = "013"%char)) as [->|Hc].
    + apply andb_false_iff. right. apply andb_false_iff. left. apply bool_decide_eq_false. intros <-. by apply Hf.
    + apply andb_false_iff. left. apply bool_decide_eq_false. congruence.
Qed.

Lemma find_line_end t s : crlf_free t = true -> find_str CRLF (t +:+ CRLF +:+ s) = Some (String.length t).
Proof.
  induction t as [|c t IH]; intros Hf.
  - change ("" +:+ ?x) with x. by rewrite <- (sapp_nil_r (CRLF +:+ s)).
  - rewrite sapp_cons. cbn [find_str]. rewrite no_line_end by done. rewrite IH; [done|].
    rewrite crlf_free_cons in Hf. destruct t; [done|]. by apply andb_true_iff in Hf as [_ Hf].
Qed.

Lemma starts_with_more_false p q s : starts_with p s = false -> starts_with (p +:+ q) s = false.
Proof.
  rewrite <- !not_true_iff_false, !starts_with_spec. intros H [t ->]. apply H. exists (q +:+ t). by rewrite sapp_assoc.
Qed.

Lemma crlf_free_tail c t : crlf_free (String c t) = true -> crlf_free t = true.
Proof. rewrite crlf_free_cons. destruct t; [done|]. by intros [_ H]%andb_true_iff. Qed.

Lemma find_empty_line t s :
  crlf_free t = true -> find_str (CRLF +:+ CRLF) (t +:+ (CRLF +:+ CRLF) +:+ s) = Some (String.length t).
Proof.
  induction t as [|c t IH]; intros Hf; [done|]. rewrite sapp_cons. cbn [find_str].
  rewrite starts_with_more_false; [|by rewrite sapp_assoc, no_line_end]. rewrite IH; [done|by eapply crlf_free_tail].
Qed.

Lemma find_empty_line_next t c s :
  crlf_free t = true -> c <> "013"%char ->
  find_str (CRLF +:+ CRLF) (t +:+ CRLF +:+ String c s)
  = (fun n => (String.length t + 2 + n)%nat) <$> find_str (CRLF +:+ CRLF) (String c s).
Proof.
  intros Hf Hc. assert (Es : forall d t, find_str (CRLF +:+ CRLF) (String d t) =
    if starts_with (CRLF +:+ CRLF) (String d t) then Some 0%nat else S <$> find_str (CRLF +:+ CRLF) t) by done.
  induction t as [|d t IH].
  - change ("" +:+ CRLF +:+ String c s) with (String "013" (String "010" (String c s))).
    assert (E1 : starts_with (CRLF +:+ CRLF) (String "013" (String "010" (String c s))) = false).
    { change (CRLF +:+ CRLF) with (String "013" (String "010" (String "013" (String "010" "")))).
      rewrite !starts_with_cons, (bool_decide_eq_false_2 ("013"%char = c)) by congruence. done. }
    assert (E2 : starts_with (CRLF +:+ CRLF) (String "010" (String c s)) = false) by reflexivity.
    rewrite Es, E1, Es, E2. by destruct (find_str _ (String c s)).
  - rewrite sapp_cons, Es, starts_with_more_false by by apply no_line_end.
    rewrite IH by by eapply crlf_free_tail. by destruct (find_str _ (String c s)).
Qed.

(** The texts of header lines: none is empty, starts with a line end or has one
    inside. *)
Definition line_ok (t : string) : Prop := crlf_free t = true /\ exists c w, t = String c w /\ c <> "013"%char.

Lemma join_cons t ts : ts <> [] -> join CRLF (t :: ts) = t +:+ CRLF +:+ join CRLF ts.
Proof. unfold join. by destruct ts. Qed.

Lemma find_end_of_headers ts s :
  ts <> [] -> Forall line_ok ts ->
  find_str (CRLF +:+ CRLF) (join CRLF ts +:+ (CRLF +:+ CRLF) +:+ s) = Some (String.length (join CRLF ts)).
Proof.
  intros Hn Hts. induction Hts as [|t ts [Hf Ht] Hts IH]; [done|]. destruct ts as [|t' ts].
  - by apply find_empty_line.
  - rewrite join_cons, !sapp_assoc by done. specialize (IH ltac:(done)).
    apply Forall_cons_1 in Hts as [[_ (c & w & -> & Hc)] _].
    assert (E : exists w', join CRLF (String c w :: ts) = String c w') by (unfold join; destruct ts; by eexists).
    destruct E as [w' E]. rewrite E, !sapp_assoc, sapp_cons in *. rewrite find_empty_line_next by done.
    rewrite IH. simpl. rewrite !slength_app. simpl. f_equal. change (String.length CRLF) with 2%nat. lia.
Qed.

Lemma wf_header_line h : wf_header h = true -> line_ok (show_header h).
Proof.
  intros Hw. split; [by apply show_header_free|]. unfold wf_header in Hw. rewrite !andb_true_iff, negb_true_iff in Hw.
  destruct Hw as [[[[[[Hn Hd] _] _] _] _] _]. unfold show_header. destruct (Header.display_name h.1) as [|c d]; [done|].
  cbn [sall] in Hd. apply andb_true_iff in Hd as [Hc _]. exists c, (d +:+ ": " +:+ h.2). split; [done|]. by intros ->.
Qed.

Definition header_parts (h : Header) : string * string := (Header.display_name h.1, h.2).

Lemma header_tokens h r : wf_header h = true -> r = "" \/ (exists r', r = CRLF +:+ r') ->
  tokenize_header (show_header h +:+ r) = Some (sdrop 2 r, header_parts h).
Proof.
  intros Hw Hr. unfold wf_header in Hw. rewrite !andb_true_iff, negb_true_iff in Hw.
  destruct Hw as [[[[[[Hn Hd] _] _] Hv] Hb] _].
  assert (E : show_header h +:+ r = Header.display_name h.1 +:+ ":" +:+ " " +:+ h.2 +:+ r).
  { unfold show_header. rewrite !sapp_assoc. by change (": " +:+ ?x) with (":" +:+ " " +:+ x). }
  rewrite E. unfold tokenize_header, andThen, give, space0.
  rewrite take_while1_app; [|done|done|by intros E2; rewrite E2 in Hn]. rewrite tag_app, take_while_app; [|done|].
  - unfold value_line, andThen, give. rewrite alt_cons. destruct Hr as [->|[r' ->]].
    + rewrite sapp_nil_r, take_until_fails.
      * by rewrite alt_cons, rest_eq.
      * clear -Hv. induction h.2 as [|c s IH]; [done|]. cbn [find_str].
        replace (starts_with CRLF (String c s)) with false.
        -- rewrite IH; [done|by eapply crlf_free_tail].
        -- symmetry. rewrite crlf_free_cons in Hv. unfold CRLF. rewrite starts_with_cons. destruct s as [|d s]; [by rewrite andb_false_r|].
           rewrite starts_with_cons, starts_with_nil, andb_true_r. apply andb_true_iff in Hv as [Hv _]. unfold is_crlf in Hv.
           apply negb_true_iff, bool_decide_eq_false in Hv. apply andb_false_iff.
           destruct (decide (c = "013"%char)) as [->|]; [right|left]; apply bool_decide_eq_false; [|congruence]. intros <-. by apply Hv.
    + rewrite take_until_app by by apply find_line_end. rewrite tag_app. by change (sdrop 2 (CRLF +:+ r')) with (sdrop 0 r'); destruct r'.
  - destruct h.2 as [|c v]; [|done]. change ("" +:+ r) with r. by destruct Hr as [->|[r' ->]].
Qed.

Lemma tokenize_header_shortens : shortens tokenize_header.
Proof.
  unfold tokenize_header, value_line, space0.
  repeat first [ apply andThen_shortens | apply give_shortens | apply alt_shortens | apply tag_shortens | apply rest_shortens
               | apply take_while_shortens | apply take_while1_shortens | apply take_until_shortens | apply Forall_cons_2
               | apply Forall_nil_2 | intros ? ].
Qed.

Lemma headers_many hs : hs <> [] -> forallb wf_header hs = true ->
  many0 tokenize_header (join CRLF (map show_header hs)) = Some ("", map header_parts hs).
Proof.
  assert (Hnil : many0 tokenize_header "" = Some ("", [])).
  { apply many0_stop; [apply tokenize_header_shortens|]. unfold tokenize_header, andThen. by rewrite take_while1_eq. }
  induction hs as [|h hs IH]; intros Hn Hw; [done|]. cbn [forallb] in Hw. apply andb_true_iff in Hw as [Hh Hw].
  assert (Hlen : (0 < String.length (show_header h))%nat)
    by (destruct (wf_header_line h Hh) as [_ (c & w & -> & _)]; simpl; lia).
  cbn [map]. destruct hs as [|h' hs].
  - change (join CRLF (map show_header [])) with "". unfold join. cbn [map String.concat].
    rewrite <- (sapp_nil_r (show_header h)). eapply many0_more; [apply tokenize_header_shortens| | |exact Hnil].
    + by rewrite header_tokens by (done || by left).
    + rewrite sapp_nil_r. exact Hlen.
  - rewrite join_cons by done. eapply many0_more; [apply tokenize_header_shortens| | |by apply IH].
    + by rewrite header_tokens by (done || (right; by eexists)).
    + rewrite !slength_app. change (String.length CRLF) with 2%nat. lia.
Qed.

Lemma headers_back hs : forallb wf_header hs = true -> mapM header_of (map header_parts hs) = Some hs.
Proof.
  induction hs as [|[n v] hs IH]; [done|]. cbn [forallb]. intros [Hh Hw]%andb_true_iff. cbn [map mapM].
  unfold wf_header in Hh. rewrite !andb_true_iff, bool_decide_eq_true in Hh. destruct Hh as [[[[[[_ _] Hd] Hn] _] _] Hv].
  assert (E : header_of (header_parts (n, v)) = Some (n, v)).
  { unfold header_of, header_parts, from_utf8. cbn [fst snd] in *. rewrite Hd, Hv. simpl. by rewrite Hn. }
  rewrite E. simpl. by rewrite IH.
Qed.

Lemma headers_tokens hs body : wf_headers hs = true ->
  tokenize_headers (show_headers hs +:+ CRLF +:+ body) = Some (body, map header_parts hs).
Proof.
  unfold wf_headers. rewrite andb_true_iff, negb_true_iff, bool_decide_eq_false. intros [Hn Hw].
  assert (E : show_headers hs +:+ CRLF +:+ body = join CRLF (map show_header hs) +:+ (CRLF +:+ CRLF) +:+ body).
  { destruct hs; [done|]. unfold show_headers. by rewrite !sapp_assoc. }
  rewrite E. unfold tokenize_headers, andThen, give. rewrite alt_cons, take_until_app.
  - by rewrite tag_app, headers_many.
  - apply find_end_of_headers; [by destruct hs|]. clear -Hw. induction hs as [|h hs IH]; [by constructor|].
    cbn [forallb] in Hw. apply andb_true_iff in Hw as [Hh Hw]. cbn [map]. constructor; [by apply wf_header_line|by apply IH].
Qed.

(** *** Messages *)

Lemma after_uri v r : uri_ends (" " +:+ show_version v +:+ CRLF +:+ r).
Proof.
  split; [right; by eexists|].
  destruct v; [exists " SIP/1", (".0" +:+ CRLF +:+ r)|exists " SIP/2", (".0" +:+ CRLF +:+ r)];
    (split_and!; [done|done|right; by exists ("0" +:+ CRLF +:+ r)]).
Qed.

Definition request_tokens (r : Request) :=
  (show_method (method r), uri_tokens (uri r), version_parts (version r), map header_parts (headers r)).

Lemma request_read r : wf_uri (uri r) = true -> wf_headers (headers r) = true ->
  tokenize_request (show_request r) = Some (lossy (body r), request_tokens r).
Proof.
  intros Hu Hh. unfold tokenize_request, show_request, andThen, give.
  rewrite method_tokens, tag_app, uri_read by (done || apply after_uri).
  rewrite tag_app, version_tokens by done. by rewrite tag_app, headers_tokens.
Qed.

Lemma not_a_response r : tokenize_response (show_request r) = None.
Proof.
  unfold tokenize_response, tokenize_version, show_request, andThen. rewrite tag_fails; [done|]. by destruct (method r).
Qed.

Lemma request_back r b : wf_uri (uri r) = true -> wf_headers (headers r) = true ->
  request_of (request_tokens r) b = Some (mkRequest (method r) (uri r) (version r) (headers r) b).
Proof.
  unfold wf_headers. intros Hu [_ Hh]%andb_true_iff. unfold request_of, request_tokens.
  rewrite method_back, uri_back, version_back, headers_back by done. done.
Qed.

Definition status_parts (s : Status.StatusCode) : string * string := (Str.show (Status.code s), Status.reason_phrase s).

Lemma status_tokens s r : wf_status s = true ->
  tokenize_status (Status.show s +:+ CRLF +:+ r) = Some (CRLF +:+ r, status_parts s).
Proof.
  unfold wf_status. rewrite !andb_true_iff. intros [[[[[Hl _] Hf] _] _] _]. apply Nat.eqb_eq in Hl.
  unfold tokenize_status, Status.show, andThen, give. rewrite !sapp_assoc. rewrite <- Hl at 1.
  by rewrite take_app, tag_app, alt_cons, take_until_app by by apply find_line_end.
Qed.

Definition response_tokens (r : Response) :=
  (version_parts (rs_version r), status_parts (status_code r), map header_parts (rs_headers r)).

Lemma response_read r : wf_status (status_code r) = true -> wf_headers (rs_headers r) = true ->
  tokenize_response (show_response r) = Some (lossy (rs_body r), response_tokens r).
Proof.
  intros Hs Hh. unfold tokenize_response, show_response, andThen, give, space1.
  rewrite version_tokens by done. rewrite take_while1_app; [|done| |done].
  - by rewrite status_tokens, tag_app, headers_tokens.
  - unfold wf_status in Hs. rewrite !andb_true_iff in Hs. destruct Hs as [[[[[Hl Hb] _] _] _] _]. unfold Status.show.
    by destruct (Str.show (Status.code (status_code r))).
Qed.

Lemma response_back r b : wf_status (status_code r) = true -> wf_headers (rs_headers r) = true ->
  response_of (response_tokens r) b = Some (mkResponse (status_code r) (rs_version r) (rs_headers r) b).
Proof.
  unfold wf_headers, wf_status. rewrite !andb_true_iff, bool_decide_eq_true. intros [[[_ Hc] Hr] Hs] [_ Hh].
  unfold response_of, response_tokens, pair_of, status_parts, from_utf8. rewrite version_back. cbn [fst snd opt_conv].
  unfold from_utf8. rewrite Hc, Hr. simpl. rewrite Hs. simpl. by rewrite headers_back.
Qed.

Lemma printed_read m :
  (forall b, is_utf8 b = true -> lossy b = b) -> wf_message m = true -> parse (show_message m) = Some m.
Proof.
  intros Hlossy. destruct m as [r|r]; unfold wf_message; rewrite !andb_true_iff; intros [[H1 H2] Hb];
    unfold parse, tokenize; cbn [show_message]; rewrite !alt_cons; unfold whole, andThen.
  - rewrite not_a_response, request_read by done. cbn [mbind option_bind snd message_of]. rewrite request_back, Hlossy by done. by destruct r.
  - rewrite response_read by done. cbn [mbind option_bind snd message_of]. rewrite response_back, Hlossy by done. by destruct r.
Qed.

(** C15: a well-formed request or response that is printed is read back as it
    was: its method or status, its URI with its user and parameters, its
    headers in order, and its body. *)
Theorem sip_round_trip m :
  (forall b, is_utf8 b = true -> lossy b = b) -> wf_message m = true -> parse (show_message m) = Some m.
Proof. apply printed_read. Qed.
End sip.

(** ** What a parsed message cannot hide *)

Section nom_facts.
Context {N : Nom}.

Lemma many0_forall {A} (p : P A) (Q : A -> Prop) :
  shortens p -> (forall s r a, p s = Some (r, a) -> Q a) ->
  forall s r l, many0 p s = Some (r, l) -> Forall Q l.
Proof.
  intros Hp HQ s. remember (String.length s) as n eqn:Hn. assert (Hle : (String.length s <= n)%nat) by lia. clear Hn.
  revert s Hle. induction n as [|n IH]; intros s Hle r l; rewrite many0_eq by done;
    (destruct (p s) as [[r1 a]|] eqn:E; [|by intros [= <- <-]]);
    (destruct (Nat.eqb_spec (String.length r1) (String.length s)); [done|]); apply Hp in E as Hl; [lia|].
  destruct (many0 p r1) as [[r2 l2]|] eqn:E2; [|done]. intros [= <- <-]. constructor; [by eapply HQ|].
  eapply (IH r1); [lia|exact E2].
Qed.
End nom_facts.

Lemma starts_crlf_pair c d s : starts_with CRLF (String c (String d s)) = is_crlf c d.
Proof.
  unfold CRLF, is_crlf. rewrite !starts_with_cons, starts_with_nil, andb_true_r.
  apply eq_true_iff_eq. rewrite andb_true_iff, !bool_decide_eq_true. split; [by intros [<- <-]|by intros [-> ->]].
Qed.

(** The text before the first line end has none. *)
Lemma before_line_end s n : find_str CRLF s = Some n -> crlf_free (stake n s) = true.
Proof.
  revert n. induction s as [|c s IH]; intros n; [done|]. rewrite find_str_step.
  destruct (starts_with CRLF (String c s)) eqn:E; [by intros [= <-]|].
  destruct (find_str CRLF s) as [m|] eqn:Em; [|done]. intros [= <-]. cbn [stake]. specialize (IH m eq_refl).
  rewrite crlf_free_cons. destruct s as [|d s]; [by destruct m|]. rewrite starts_crlf_pair in E.
  destruct m as [|m]; [done|]. cbn [stake] in *. by rewrite E, IH.
Qed.

Lemma no_line_end_free s : find_str CRLF s = None -> crlf_free s = true.
Proof.
  induction s as [|c s IH]; [done|]. rewrite find_str_step.
  destruct (starts_with CRLF (String c s)) eqn:E; [done|]. destruct (find_str CRLF s) eqn:Em; [done|]. intros _.
  rewrite crlf_free_cons. destruct s as [|d s]; [done|]. rewrite starts_crlf_pair in E. by rewrite E, IH.
Qed.

Lemma find_str_at p s n : find_str p s = Some n -> exists t, sdrop n s = p +:+ t.
Proof.
  revert n. induction s as [|c s IH]; intros n.
  - unfold find_str. destruct (starts_with p "") eqn:E; [|done]. intros [= <-]. by apply starts_with_spec.
  - rewrite find_str_step. destruct (starts_with p (String c s)) eqn:E.
    + intros [= <-]. by apply starts_with_spec.
    + destruct (find_str p s) as [m|]; [|done]. intros [= <-]. by apply IH.
Qed.

Section parsed.
Context {N : Nom} (parse_ip : string -> option IpAddr).

Lemma value_line_free s r v : value_line s = Some (r, v) -> crlf_free v = true.
Proof.
  unfold value_line, andThen, give. rewrite !alt_cons, alt_nil, take_until_eq. unfold cut_at.
  destruct (find_str CRLF s) as [n|] eqn:E.
  - unfold cut. destruct (tag CRLF (sdrop n s)) as [[r' x]|] eqn:Et.
    + intros [= <- <-]. by apply before_line_end.
    + apply find_str_at in E as [t E]. rewrite E in Et. by rewrite tag_app in Et.
  - rewrite rest_eq. intros [= <- <-]. by apply no_line_end_free.
Qed.

Definition line_text (t : string * string) : Prop := t.1 <> "" /\ sall is_token t.1 = true /\ crlf_free t.2 = true.

Lemma run_sall p s : sall p (stake (run p s) s) = true.
Proof.
  induction s as [|c s IH]; [done|]. unfold run in *. simpl. destruct (p c) eqn:Hc; simpl; [|done].
  destruct (find_by _ s); simpl in *; by rewrite Hc, IH.
Qed.

Lemma header_line_text s r t : tokenize_header s = Some (r, t) -> line_text t.
Proof.
  unfold tokenize_header, andThen, give. rewrite take_while1_eq. destruct (Nat.eqb_spec (run is_token s) 0) as [|Hn]; [done|].
  unfold cut. destruct (tag ":" _) as [[r1 x1]|]; [|done]. destruct (space0 r1) as [[r2 x2]|]; [|done].
  destruct (value_line r2) as [[r3 v]|] eqn:Ev; [|done]. intros [= <- <-]. split_and!; simpl.
  - destruct s as [|c s]; [done|]. destruct (run is_token (String c s)); [done|]. simpl. done.
  - apply run_sall.
  - by eapply value_line_free.
Qed.

Lemma headers_lines s r ts : tokenize_headers s = Some (r, ts) -> Forall line_text ts.
Proof.
  unfold tokenize_headers, andThen. destruct (alt _ s) as [[body raw]|]; [|done].
  destruct (many0 tokenize_header raw) as [[[|c r'] ts']|] eqn:E; [|done|done]. intros [= _ <-].
  eapply many0_forall; [apply tokenize_header_shortens|apply header_line_text|exact E].
Qed.

Lemma headers_read ts hs : Forall line_text ts -> mapM header_of ts = Some hs ->
  Forall (fun h => crlf_free h.2 = true /\ is_utf8 h.2 = true) hs.
Proof.
  intros Hts. revert hs. induction Hts as [|t ts Ht Hts IH]; intros hs; [by intros [= <-]|]. cbn [mapM].
  destruct (header_of t) as [h|] eqn:Eh; simpl; [|done]. destruct (mapM header_of ts) as [hs'|] eqn:E; simpl; [|done].
  intros [= <-]. constructor; [|by apply IH]. unfold header_of, from_utf8 in Eh.
  destruct (is_utf8 t.1); simpl in Eh; [|done]. destruct (is_utf8 t.2) eqn:Hu; simpl in Eh; [|done].
  injection Eh as <-. split; [apply Ht|done].
Qed.

Definition message_headers (m : SipMessage) : list Header :=
  match m with Req r => headers r | Resp r => rs_headers r end.

(** The headers of a message that the parser accepts are UTF-8 and hold no
    line end, so none of them can carry a second header into a message the
    SBC writes. *)
Theorem parsed_headers_single s m :
  parse parse_ip s = Some m -> Forall (fun h => crlf_free h.2 = true /\ is_utf8 h.2 = true) (message_headers m).
Proof.
  unfold parse, tokenize. rewrite !alt_cons, alt_nil. unfold whole, andThen.
  destruct (tokenize_response s) as [[b t]|] eqn:E.
  - intros H. cbn [mbind option_bind snd message_of] in H. destruct t as [[v st] ts]. cbn in H.
    destruct (version_of v); [|done]. cbn in H. destruct (pair_of _ _ ≫= _); [|done]. cbn in H.
    destruct (mapM header_of ts) as [hs|] eqn:Eh; [|done]. injection H as <-. cbn [message_headers rs_headers].
    eapply headers_read; [|exact Eh]. revert E. unfold tokenize_response, andThen, give.
    destruct (tokenize_version s) as [[z1 ?]|]; [|done]. destruct (space1 z1) as [[z2 ?]|]; [|done].
    destruct (tokenize_status z2) as [[z3 ?]|]; [|done]. destruct (tag CRLF z3) as [[z4 ?]|]; [|done].
    destruct (tokenize_headers z4) as [[z5 ?]|] eqn:E5; [|done]. intros [= _ _ _ <-]. by eapply headers_lines.
  - destruct (tokenize_request s) as [[b t]|] eqn:E2; [|done]. intros H. cbn [mbind option_bind snd message_of] in H.
    destruct t as [[[mt u] v] ts]. cbn in H. destruct (from_utf8 mt ≫= method_of); [|done]. cbn in H.
    destruct (uri_of _ _ _); [|done]. cbn in H. destruct (version_of v); [|done]. cbn in H.
    destruct (mapM header_of ts) as [hs|] eqn:Eh; [|done]. injection H as <-. cbn [message_headers headers].
    eapply headers_read; [|exact Eh]. revert E2. unfold tokenize_request, andThen, give.
    destruct (tokenize_method s) as [[z1 ?]|]; [|done]. destruct (tag " " z1) as [[z2 ?]|]; [|done].
    destruct (tokenize_uri z2) as [[z3 ?]|]; [|done]. destruct (tag " " z3) as [[z4 ?]|]; [|done].
    destruct (tokenize_version z4) as [[z5 ?]|]; [|done]. destruct (tag CRLF z5) as [[z6 ?]|]; [|done].
    destruct (tokenize_headers z6) as [[z7 ?]|] eqn:E7; [|done]. intros [= _ _ _ _ <-]. by eapply headers_lines.
Qed.
End parsed.

(** ** Texts the parser misreads *)

Section misread.
#[local] Existing Instance nom.

Definition no_ip (_ : string) : option IpAddr := None.

(** A user with a dot is taken for a part of the host. *)
Lemma dotted_user_lost :
  parse_uri no_ip "sip:first.last@example.com"
  = Some (mkUri (Some Sip) None (mkHostPort (Domain "first.last@example.com") None) [] []).
Proof. by vm_compute. Qed.

(** An IPv6 host is cut at its first colon. *)
Lemma ipv6_refused : parse_uri no_ip "sip:bob@[2001:db8::1]:5060" = None.
Proof. by vm_compute. Qed.

(** The compact forms of RFC 3261 are not the headers they stand for. *)
Lemma compact_forms_unknown :
  map Header.name_of ["v"; "f"; "t"; "i"; "m"; "l"; "c"] = map Header.Other ["v"; "f"; "t"; "i"; "m"; "l"; "c"].
Proof. by vm_compute. Qed.

(** A header continued on a second line makes the message unreadable. *)
Lemma folded_header_refused :
  parse no_ip ("OPTIONS sip:h SIP/2.0" +:+ CRLF +:+ "Subject: a" +:+ CRLF +:+ " b" +:+ CRLF +:+ CRLF) = None /\
  bool_decide (is_Some (parse no_ip ("OPTIONS sip:h SIP/2.0" +:+ CRLF +:+ "Subject: a b" +:+ CRLF +:+ CRLF))) = true.
Proof. by vm_compute. Qed.
End misread.

(** ** Instances *)

Module Witness.
#[local] Existing Instance nom.

Definition as_is (b : string) : string := b.
Definition no_text (_ : IpAddr) : string := "".

Definition invite : SipMessage :=
  Req (mkRequest Invite
    (mkUri (Some Sips) (Some ("bob", Some "secret")) (mkHostPort (Domain "example.com") (Some 5061))
       [PTransport Tls; PLr; POther "x" (Some (quote_text +:+ "a;b" +:+ quote_text))] [])
    V2
    [(Header.Via, "SIP/2.0/TLS pc33.example.com;branch=z9hG4bK1"); (Header.To, "<sips:bob@example.com>");
     (Header.From, "<sips:alice@example.com>;tag=1"); (Header.CallId, "a84b4c"); (Header.CSeq, "1 INVITE");
     (Header.Other "X-Empty", ""); (Header.ContentLength, "4")] "v=0 ").

Definition busy : SipMessage :=
  Resp (mkResponse Status.BusyHere V2 [(Header.CallId, "a84b4c"); (Header.CSeq, "1 INVITE")] "").

Lemma sip_round_trip_witness :
  show_message no_text as_is busy
  = "SIP/2.0 486 Busy Here" +:+ CRLF +:+ "Call-ID: a84b4c" +:+ CRLF +:+ "CSeq: 1 INVITE" +:+ CRLF +:+ CRLF /\
  parse no_ip (show_message no_text as_is invite) = Some invite.
Proof.
  split; [by vm_compute|]. apply (sip_round_trip no_ip no_text as_is invite); [done|by vm_compute].
Defined.

Definition two_lines : string :=
  "BYE sip:bob@h SIP/2.0" +:+ CRLF +:+ "Call-ID: x" +:+ CRLF +:+ "Subject: hello" +:+ CRLF +:+ CRLF.

Lemma parsed_headers_single_witness :
  exists m, parse no_ip two_lines = Some m /\ message_headers m = [(Header.CallId, "x"); (Header.Subject, "hello")] /\
  Forall (fun h => crlf_free h.2 = true /\ is_utf8 h.2 = true) (message_headers m).
Proof.
  destruct (parse no_ip two_lines) as [m|] eqn:E; [|by vm_compute in E].
  exists m. split; [done|]. split; [|by apply (parsed_headers_single no_ip two_lines m)].
  vm_compute in E. injection E as <-. reflexivity.
Defined.
End Witness.
