(* ===== verification/Wire.v ===== *)
(** * Messages over a byte stream (transport/mod.rs, transport/tcp.rs, rsip-nixi)

    The framer and the parser together: what a peer prints is what the reading
    loop of a connection receives. *)

From S2P Require Import Prelude Str Net Nom Rsip.
From S2P Require Framing.

(** ** Texts of lines *)

Lemma utf8_app a b : is_utf8 a = true -> is_utf8 b = true -> is_utf8 (a +:+ b) = true.
Proof.
  remember (String.length a) as n eqn:Hn. assert (Hle : (String.length a <= n)%nat) by lia. clear Hn.
  revert a Hle. induction n as [|n IH]; intros a Hle Ha Hb; destruct a as [|x a]; try done; [simpl in Hle; lia|].
  rewrite sapp_cons. cbn [is_utf8 String.length] in *. destruct (code x <? 128); [by apply IH; [lia|..]|].
  destruct a as [|y a]; [done|]. rewrite sapp_cons. destruct (within 194 223 x).
  { apply andb_true_iff in Ha as [-> Ha]. cbn [andb String.length] in *. apply IH; [lia|done|done]. }
  destruct a as [|z a]; [done|]. rewrite sapp_cons. destruct (within 224 239 x).
  { apply andb_true_iff in Ha as [-> Ha]. cbn [andb String.length] in *. apply IH; [lia|done|done]. }
  destruct a as [|t a]; [done|]. rewrite sapp_cons.
  apply andb_true_iff in Ha as [-> Ha]. cbn [andb String.length] in *. apply IH; [lia|done|done].
Qed.

Lemma no_lf_crlf_free s : no_lf s = true -> crlf_free s = true.
Proof.
  induction s as [|c s IH]; [done|]. unfold no_lf in *. cbn [sall]. intros [_ H]%andb_true_iff. rewrite crlf_free_cons.
  destruct s as [|d s]; [done|]. rewrite IH by done. cbn [sall] in H. apply andb_true_iff in H as [H _].
  apply negb_true_iff, bool_decide_eq_false in H. rewrite andb_true_r. apply negb_true_iff. unfold is_crlf.
  apply bool_decide_eq_false. by intros [_ ->].
Qed.

Lemma lines_join_crlf ls :
  Forall (fun l => no_lf l = true /\ l <> "") ls -> lines (join CRLF ls) = ls.
Proof.
  induction 1 as [|l ls [Hl Hn] Hls IH]; [done|]. destruct ls as [|l' ls].
  - change (join CRLF [l]) with l. unfold lines, split. rewrite split_by_free by exact Hl. cbn [lines_of]. by rewrite seqb_false.
  - by rewrite join_cons, line_off, IH.
Qed.

Lemma join_utf8 ls : Forall (fun l => is_utf8 l = true) ls -> is_utf8 (join CRLF ls) = true.
Proof.
  induction 1 as [|l ls Hl Hls IH]; [done|]. destruct ls as [|l' ls]; [exact Hl|].
  rewrite join_cons by done. apply utf8_app; [done|]. by apply utf8_app.
Qed.

Section wire.
Context {N : Nom} (parse_ip : string -> option IpAddr) (ip_text : IpAddr -> string) (lossy : string -> string).

Abbreviation show := (show_message ip_text lossy).
Abbreviation parse := (parse parse_ip).

Definition start_line (m : SipMessage) : string :=
  match m with
  | Req r => show_method (method r) +:+ " " +:+ show_uri ip_text (uri r) +:+ " " +:+ show_version (version r)
  | Resp r => show_version (rs_version r) +:+ " " +:+ Status.show (status_code r)
  end.

Definition message_body (m : SipMessage) : string := match m with Req r => body r | Resp r => rs_body r end.

Definition header_section (m : SipMessage) : string := join CRLF (start_line m :: map show_header (message_headers m)).

(** A message that can be sent over a stream: well formed, each of its lines
    one line, its length header right, its size within the cap. *)
Definition one_line (s : string) : bool := no_lf s && free_of "013" s && is_utf8 s.
Definition streamable (m : SipMessage) : bool :=
  wf_message parse_ip ip_text m && one_line (start_line m)
  && forallb (fun h => one_line h.2) (message_headers m)
  && bool_decide (Framing.content_length (map show_header (message_headers m)) = Ok (Framing.len (message_body m)))
  && (Framing.len (header_section m) + 3 <=? Framing.MAX_SIP_MESSAGE)
  && (Framing.len (message_body m) <=? Framing.MAX_SIP_MESSAGE).

Lemma show_parts m :
  message_headers m <> [] ->
  show m = header_section m +:+ (CRLF +:+ CRLF) +:+ lossy (message_body m).
Proof.
  intros Hn. unfold header_section. destruct (message_headers m) as [|h hs] eqn:E; [done|].
  rewrite join_cons by done.
  destruct m as [r|r]; cbn [message_headers message_body start_line show_message] in *;
    unfold show_request, show_response; rewrite E; unfold show_headers; rewrite !sapp_assoc; done.
Qed.

Lemma streamable_inv m : streamable m = true ->
  wf_message parse_ip ip_text m = true /\ one_line (start_line m) = true /\
  forallb (fun h => one_line h.2) (message_headers m) = true /\
  Framing.content_length (map show_header (message_headers m)) = Ok (Framing.len (message_body m)) /\
  Framing.len (header_section m) + 3 <= Framing.MAX_SIP_MESSAGE /\
  Framing.len (message_body m) <= Framing.MAX_SIP_MESSAGE.
Proof. unfold streamable. rewrite !andb_true_iff, bool_decide_eq_true, !Z.leb_le. intuition. Qed.

Lemma wf_message_headers m : wf_message parse_ip ip_text m = true ->
  wf_headers (message_headers m) = true /\ is_utf8 (message_body m) = true.
Proof. destruct m; unfold wf_message; rewrite !andb_true_iff; intuition. Qed.

(** The lines of the header section. *)
Definition section_lines (m : SipMessage) : list string := start_line m :: map show_header (message_headers m).

Lemma start_line_head m : exists c w, start_line m = String c w /\ c <> "013"%char /\ Framing.is_eol c = false.
Proof.
  destruct m as [r|r]; unfold start_line.
  - destruct (method r); by eexists _, _.
  - destruct (rs_version r); by eexists _, _.
Qed.

Lemma header_line_ok h : wf_header h = true -> one_line h.2 = true ->
  no_lf (show_header h) = true /\ is_utf8 (show_header h) = true /\ show_header h <> "".
Proof.
  intros Hw Hl. destruct (wf_header_line h Hw) as [_ (c & w & E & _)]. unfold wf_header in Hw. unfold one_line in Hl.
  rewrite !andb_true_iff in Hw. rewrite !andb_true_iff in Hl.
  destruct Hw as [[[[[[_ Hd] Hu] _] _] _] Hv]. destruct Hl as [[Hn _] _].
  split_and!; [| |by rewrite E].
  - unfold show_header. rewrite !no_lf_app, Hn, !andb_true_r.
    unfold no_lf. eapply sall_impl; [|exact Hd]. intros d Hx. apply negb_true_iff, bool_decide_eq_false. by intros ->.
  - unfold show_header. apply utf8_app; [done|]. by apply utf8_app.
Qed.

Lemma section_lines_ok m : streamable m = true ->
  Forall (fun l => no_lf l = true /\ is_utf8 l = true /\ l <> "") (section_lines m).
Proof.
  intros (Hw & Hs & Hh & _)%streamable_inv. apply wf_message_headers in Hw as [Hw _].
  unfold wf_headers in Hw. apply andb_true_iff in Hw as [_ Hw]. constructor.
  - destruct (start_line_head m) as (c & w & E & _). unfold one_line in Hs. rewrite !andb_true_iff in Hs.
    split_and!; [tauto|tauto|by rewrite E].
  - induction (message_headers m) as [|h hs IH]; [by constructor|]. cbn [forallb map] in *.
    apply andb_true_iff in Hw as [Hw1 Hw2], Hh as [Hh1 Hh2]. constructor; [by apply header_line_ok|by apply IH].
Qed.

Lemma start_line_no_length m : Framing.names_length (start_line m) = false.
Proof.
  destruct m as [r|r]; unfold start_line.
  - by destruct (method r).
  - by destruct (rs_version r).
Qed.

Lemma stake_length_app a b : stake (String.length a) (a +:+ b) = a.
Proof. apply stake_app. Qed.

(** The framer finds the message, all of it. *)
Lemma framed m : (forall b, is_utf8 b = true -> lossy b = b) -> streamable m = true -> Framing.message (show m).
Proof.
  intros Hlossy Hm. assert (Hls := section_lines_ok m Hm).
  destruct (streamable_inv m Hm) as (Hw & _ & _ & Hc & Hsec & Hbody). apply wf_message_headers in Hw as [Hh Hb].
  assert (Hn : message_headers m <> []) by (unfold wf_headers in Hh; intros E; by rewrite E in Hh).
  assert (Hf : find_str Framing.HEADER_END (show m) = Some (String.length (header_section m))).
  { rewrite show_parts by done. unfold header_section. change Framing.HEADER_END with (CRLF +:+ CRLF). apply find_end_of_headers; [done|].
    constructor.
    - inversion_clear Hls as [|? ? (Hl & _) _]. split; [by apply no_lf_crlf_free|].
      destruct (start_line_head m) as (c & w & E & Hcr & _). by exists c, w.
    - apply andb_true_iff in Hh as [_ Hh]. clear -Hh. induction (message_headers m) as [|h hs IH]; [by constructor|].
      cbn [forallb map] in *. apply andb_true_iff in Hh as [H1 H2]. constructor; [by apply wf_header_line|by apply IH]. }
  split; [|intros h E; rewrite Hf in E; injection E as <-; exact Hsec].
  unfold Framing.frame_sip_message. rewrite Hf.
  assert (Hz : Framing.leading_eols (show m) = 0%nat).
  { rewrite show_parts by done. unfold header_section. rewrite join_cons by by destruct (message_headers m).
    destruct (start_line_head m) as (c & w & E & _ & He). rewrite E, !sapp_cons. cbn [Framing.leading_eols]. by rewrite He. }
  rewrite Hz. cbn [Nat.ltb Nat.leb]. unfold Framing.frame_at.
  assert (Et : stake (String.length (header_section m)) (show m) = header_section m)
    by (rewrite show_parts by done; apply stake_length_app).
  rewrite Et. unfold header_section at 1. rewrite join_utf8 by (eapply Forall_impl; [exact Hls|]; naive_solver). cbn [negb].
  assert (El : lines (header_section m) = section_lines m)
    by (apply lines_join_crlf; eapply Forall_impl; [exact Hls|]; naive_solver).
  rewrite El. unfold section_lines. cbn [Framing.content_length]. rewrite start_line_no_length, Hc.
  destruct (Z.ltb_spec Framing.MAX_SIP_MESSAGE (Framing.len (message_body m))); [lia|].
  assert (Elen : String.length (show m) = (String.length (header_section m) + 4 + String.length (message_body m))%nat).
  { rewrite show_parts, Hlossy by done. rewrite !slength_app. change (String.length CRLF) with 2%nat. lia. }
  unfold Framing.checked_add, Framing.len, Framing.MAX_SIP_MESSAGE, Framing.usize_max, u64_max in *. rewrite Elen.
  destruct (Z.leb_spec (Z.of_nat (String.length (header_section m)) + 4) 18446744073709551615); [|lia].
  cbn [mbind option_bind].
  destruct (Z.leb_spec (Z.of_nat (String.length (header_section m)) + 4 + Z.of_nat (String.length (message_body m))) 18446744073709551615); [|lia].
  destruct (Z.leb_spec (Z.of_nat (String.length (header_section m)) + 4 + Z.of_nat (String.length (message_body m)))
              (Z.of_nat (String.length (header_section m) + 4 + String.length (message_body m)))); [|lia].
  f_equal. lia.
Qed.

(** What a peer writes: each message after line ends that keep the connection
    alive. *)
Definition parts (ms : list (string * SipMessage)) : list Framing.Part :=
  concat (map (fun km => [Framing.Eols km.1; Framing.Msg (show km.2)]) ms).

Lemma parts_messages ms : Framing.messages (parts ms) = map (fun km => show km.2) ms.
Proof. induction ms as [|[k m] ms IH]; [done|]. cbn. f_equal. exact IH. Qed.

Lemma parts_ok ms : (forall b, is_utf8 b = true -> lossy b = b) ->
  Forall (fun km => sall Framing.is_eol km.1 = true /\ streamable km.2 = true) ms -> Forall Framing.well_formed (parts ms).
Proof.
  intros Hlossy. induction 1 as [|[k m] ms [Hk Hm] Hms IH]; [by constructor|]. unfold parts. cbn [map concat app].
  constructor; [exact Hk|]. constructor; [by apply framed|exact IH].
Qed.

Lemma parsed_back m : (forall b, is_utf8 b = true -> lossy b = b) -> streamable m = true -> parse (show m) = Some m.
Proof.
  intros Hlossy (Hw & _)%streamable_inv. by apply printed_read.
Qed.

(** C16: messages that a peer writes to a stream one after the other, with line
    ends between them to keep the connection alive, are received as they were,
    in their order, however the stream is cut into reads. *)
Theorem stream_round_trip ms chunks :
  (forall b, is_utf8 b = true -> lossy b = b) ->
  Forall (fun km => sall Framing.is_eol km.1 = true /\ streamable km.2 = true) ms ->
  Framing.all chunks = Framing.stream (parts ms) ->
  Framing.handle_connection parse chunks = Framing.mkReader "" (map snd ms) None.
Proof.
  intros Hlossy Hms Hs. unfold Framing.handle_connection.
  rewrite (Framing.read_stream parse chunks Framing.new_reader (parts ms));
    [|done|by apply parts_ok|by rewrite Hs|by intros ->].
  f_equal. cbn [Framing.received Framing.new_reader app]. rewrite parts_messages. clear Hs.
  induction Hms as [|[k m] ms [_ Hm] Hms IH]; [done|]. cbn [map omap list_omap snd]. rewrite parsed_back by done.
  f_equal. exact IH.
Qed.
End wire.

(** ** Instances *)

Module Witness.
#[local] Existing Instance nom.

Definition as_is (b : string) : string := b.
Definition no_text (_ : IpAddr) : string := "".

Definition bye : SipMessage :=
  Req (mkRequest Bye (mkUri (Some Sip) (Some ("bob", None)) (mkHostPort (Domain "h") None) [] []) V2
    [(Header.CallId, "x"); (Header.CSeq, "2 BYE"); (Header.ContentLength, "3")] "a b").
Definition answered : SipMessage :=
  Resp (mkResponse Status.OK V2 [(Header.CallId, "x"); (Header.CSeq, "2 BYE")] "").

(** Two messages with a keep-alive before the second, in three reads. *)
Definition written : list (string * SipMessage) := [("", bye); (CRLF +:+ CRLF, answered)].
Definition text : string := Framing.stream (parts no_text as_is written).
Definition reads : list string := [stake 30 text; stake 60 (sdrop 30 text); sdrop 60 (sdrop 30 text)].

Lemma stream_round_trip_witness :
  Framing.all reads = text /\ Framing.handle_connection (Rsip.parse no_ip) reads = Framing.mkReader "" [bye; answered] None.
Proof.
  assert (E : Framing.all reads = text) by by vm_compute. split; [exact E|].
  apply (stream_round_trip no_ip no_text as_is written reads); [done| |exact E].
  constructor; [split; [done|by vm_compute]|]. constructor; [split; [by vm_compute|by vm_compute]|constructor].
Defined.
End Witness.
