(* ===== verification/Transports.v ===== *)
(** * Transports (transport/manager.rs, udp.rs, tcp.rs, tls.rs, tls_connect.rs, ws.rs, tls_identity.rs)

    The manager with its listeners, its pools of connections and the channel to
    the event loop; what a datagram, a read of a stream, a WebSocket frame and
    the end of a connection do; sending and replying; and the certificates that
    a listener reloads. A connection is an entry of a table under a number, with
    the queue of its writing task: replies, and all that goes over TLS, are queued
    and written by a step of their own. What the network answers to a connect and
    to a write is an argument of each operation; a write that fails may have sent
    any beginning of the message. The parser of messages, the lossy reading of bytes, the TLS
    library's reading of certificates and of names are parameters. *)

From S2P Require Import Prelude Str Net.
From S2P Require Framing.

(** ** Configuration (config.rs) *)

Inductive TransportType := UDP | TCP | TLS | WS | WSS.

#[export] Instance TransportType_eq_dec : EqDecision TransportType.
Proof. solve_decision. Defined.

Record ListenerConfig := mkListenerConfig {
  transport_type : TransportType;
  bind_addr : SocketAddr;
  cert_file : option string;
  key_file : option string
}.

(** [is_secure], [to_rsip_transport] *)
Definition is_secure (t : TransportType) : bool := match t with TLS | WSS => true | _ => false end.

Definition to_rsip_transport (t : TransportType) : Transport :=
  match t with UDP => Udp | TCP => Tcp | TLS => Tls | WS => Ws | WSS => Wss end.

(** ** Certificates of listeners (tls_identity.rs) *)

Module Identity.
Section identity.
(** The configuration the TLS library builds, what is read from the leaf
    certificate, and the files read and checked at a moment of the reload. *)
Context {Config : Type}.

Record CertInfo := mkCertInfo {
  subject : string;
  not_before : option Z;
  not_after : option Z;
  fingerprint : string;
  chain_len : Z;
  loaded_at : Z
}.

Record LoadedIdentity := mkLoaded { l_config : Config; l_info : CertInfo }.

Record TlsListenerIdentity := mkIdentity {
  listener : string;
  bound : SocketAddr;
  i_cert : string;
  i_key : string;
  config : Config;
  info : CertInfo
}.

Record TlsReloadOutcome := mkOutcome {
  o_listener : string;
  o_bind : SocketAddr;
  changed : bool;
  o_info : CertInfo;
  o_error : option string
}.

Abbreviation Load := (string -> string -> result string LoadedIdentity).

Definition load (files : Load) (name : string) (at_addr : SocketAddr) (cert key : string)
    : result string TlsListenerIdentity :=
  let? l := files cert key in Ok (mkIdentity name at_addr cert key (l_config l) (l_info l)).

Definition reload_failed (error : string) (i : TlsListenerIdentity) : TlsReloadOutcome :=
  mkOutcome (listener i) (bound i) false (info i) (Some error).

Definition reload (files : Load) (i : TlsListenerIdentity) : TlsReloadOutcome * TlsListenerIdentity :=
  match files (i_cert i) (i_key i) with
  | Ok new =>
      (mkOutcome (listener i) (bound i) (negb (seqb (fingerprint (l_info new)) (fingerprint (info i)))) (l_info new) None,
       mkIdentity (listener i) (bound i) (i_cert i) (i_key i) (l_config new) (l_info new))
  | Err e => (reload_failed e i, i)
  end.

Definition reload_all (files : Load) (l : list TlsListenerIdentity)
    : list TlsReloadOutcome * list TlsListenerIdentity :=
  (map (fun i => (reload files i).1) l, map (fun i => (reload files i).2) l).

(** Every listener serves what its files held when they last could be read: a
    reload that fails leaves it as it was and says so. *)
Lemma reload_all_kept files l :
  Forall2 (fun i i' =>
    match files (i_cert i) (i_key i) with
    | Ok new => config i' = l_config new /\ info i' = l_info new /\ bound i' = bound i
    | Err _ => i' = i
    end) l (reload_all files l).2 /\
  Forall2 (fun i o => is_Some (o_error o) <-> exists e, files (i_cert i) (i_key i) = Err e) l (reload_all files l).1.
Proof.
  unfold reload_all, reload. cbn [fst snd].
  split; (induction l as [|i l IH]; cbn [map]; constructor; [|exact IH]); destruct (files (i_cert i) (i_key i)) eqn:E; cbn.
  - done.
  - done.
  - split; [intros [? [=]]|intros [? [=]]].
  - split; intros _; by eexists.
Qed.
End identity.
Arguments LoadedIdentity : clear implicits.
Arguments TlsListenerIdentity : clear implicits.
End Identity.

(** ** The manager (manager.rs) *)

Record TlsClientParams := mkTlsParams {
  sni : string;
  ca_cert : option string;
  verify : bool;
  client_cert : option string;
  client_key : option string
}.

#[export] Instance TlsClientParams_eq_dec : EqDecision TlsClientParams.
Proof. solve_decision. Defined.

Definition is_mtls (p : TlsClientParams) : bool :=
  bool_decide (is_Some (client_cert p)) && bool_decide (is_Some (client_key p)).

Inductive TransportEvent := ConnectionClosed (peer : SocketAddr) (t : Transport).

(** How a write ends; a failed one after some bytes of the data. *)
Inductive WriteResult := Written | WriteFailed (n : nat) | WriteTimedOut (n : nat).

(** What the network answers to one operation. *)
Record Io := mkIo { io_udp : bool; io_connect : bool; io_write : WriteResult }.

(** What leaves: over which connection (none: the UDP socket), where to. *)
Record Emission := mkEmission { e_on : option nat; e_dest : SocketAddr; e_data : string }.

Inductive WsFrame := Text (s : string) | Binary (b : string) | Ping (b : string) | CloseFrame | OtherFrame.

Section manager.
Context {Sip Config : Type} (parse : string -> option Sip) (lossy : string -> string).
Context (build_client_config : TlsClientParams -> sbc_result Config) (valid_name : string -> bool).

Record ReceivedMessage := mkReceived {
  message : Sip;
  source : SocketAddr;
  r_transport : Transport;
  reply_tx : option nat
}.

(** A connection: the reader of its stream, while [reading]; [closed], the mark
    for the pools; [writing] while the task runs that writes what is in [queue],
    and over a WebSocket the answers to pings in [pongs]. *)
Record Conn := mkConn {
  peer : SocketAddr;
  c_transport : Transport;
  with_params : option TlsClientParams;
  reader : Framing.Reader Sip;
  reading : bool;
  closed : bool;
  writing : bool;
  queue : list string;
  pongs : list string
}.

(** The channel to the event loop holds every message; [taken] have been
    received. *)
Record TransportManager := mkManager {
  udp_listeners : list SocketAddr;
  tcp_connections : gmap SocketAddr nat;
  inbox : list ReceivedMessage;
  taken : nat;
  events : list TransportEvent;
  tls_params : gmap SocketAddr (TlsClientParams * Config);
  tls_connections : gmap SocketAddr nat;
  tls_identities : list (string * SocketAddr);
  started : list (Transport * SocketAddr);
  conns : gmap nat Conn;
  next_conn : nat;
  emitted : list Emission
}.

#[export] Instance conn_eta : Eta Conn := fun c =>
  mkConn (peer c) (c_transport c) (with_params c) (reader c) (reading c) (closed c) (writing c) (queue c) (pongs c).
#[export] Instance manager_eta : Eta TransportManager := fun m =>
  mkManager (udp_listeners m) (tcp_connections m) (inbox m) (taken m) (events m) (tls_params m) (tls_connections m)
    (tls_identities m) (started m) (conns m) (next_conn m) (emitted m).

Definition new : TransportManager := mkManager [] ∅ [] 0 [] ∅ ∅ [] [] ∅ 0 [].

(** *** Listeners *)

(** [bind]: the local address of the socket; [certs]: whether the certificate
    loads. *)
Definition start_listener (bind : SocketAddr -> option SocketAddr) (certs : string -> string -> bool)
    (c : ListenerConfig) (m : TransportManager) : sbc_result unit * TransportManager :=
  let t := to_rsip_transport (transport_type c) in
  let start (m : TransportManager) :=
    match bind (bind_addr c) with
    | Some a => (Ok tt, m <| started := started m ++ [(t, a)] |>, Some a)
    | None => (Err (ETransport "bind"), m, None)
    end in
  match transport_type c with
  | UDP => match start m with (r, m, Some a) => (r, m <| udp_listeners := udp_listeners m ++ [a] |>) | (r, m, None) => (r, m) end
  | TCP | WS => (start m).1
  | TLS | WSS =>
      match cert_file c, key_file c with
      | Some cert, Some key =>
          match start m with
          | (_, _, None) => (Err (ETransport "bind"), m)
          | (_, m', Some a) =>
              if certs cert key
              then (Ok tt, m' <| tls_identities := tls_identities m ++ [(if bool_decide (transport_type c = TLS) then "tls" else "wss", a)] |>)
              else (Err (EConfig "certificate"), m)
          end
      | None, _ => (Err (EConfig "listener requires cert_file"), m)
      | Some _, None => (Err (EConfig "listener requires key_file"), m)
      end
  end.

Fixpoint start_listeners (bind : SocketAddr -> option SocketAddr) (certs : string -> string -> bool)
    (cs : list ListenerConfig) (m : TransportManager) : sbc_result unit * TransportManager :=
  match cs with
  | [] => (Ok tt, m)
  | c :: cs =>
      match start_listener bind certs c m with
      | (Ok _, m) => start_listeners bind certs cs m
      | (Err e, m) => (Err e, m)
      end
  end.

(** *** What arrives *)

Definition push (r : ReceivedMessage) (m : TransportManager) : TransportManager := m <| inbox := inbox m ++ [r] |>.

Definition is_blank_byte (c : ascii) : bool :=
  bool_decide (c = "013"%char) || bool_decide (c = "010"%char) || bool_decide (c = " "%char).

(** A datagram of line ends and spaces keeps the flow alive. *)
Definition datagram (data : string) (from : SocketAddr) (m : TransportManager) : TransportManager :=
  if sall is_blank_byte data then m
  else match parse data with Some msg => push (mkReceived msg from Udp None) m | None => m end.

(** A connection, inbound or out; its number is its reply channel. *)
Definition new_connection (p : SocketAddr) (t : Transport) (params : option TlsClientParams) : Conn :=
  mkConn p t params Framing.new_reader true false true [] [].

Definition open (p : SocketAddr) (t : Transport) (params : option TlsClientParams) (m : TransportManager)
    : nat * TransportManager :=
  (next_conn m,
   m <| conns := <[next_conn m := new_connection p t params]> (conns m) |>
     <| next_conn := S (next_conn m) |>).

Definition on_conn (c : nat) (f : Conn -> Conn) (m : TransportManager) : TransportManager :=
  m <| conns := alter f c (conns m) |>.

Definition is_stream (t : Transport) : bool := match t with Tcp | Tls => true | _ => false end.
Definition is_ws (t : Transport) : bool := match t with Ws | Wss => true | _ => false end.

(** A read of a stream: its frames that parse, in order; the reader of a stream
    that cannot be framed ends. *)
Definition read_chunk (c : nat) (data : string) (m : TransportManager) : TransportManager :=
  match conns m !! c with
  | Some k =>
      if is_stream (c_transport k) && reading k then
        let r := Framing.read parse data (reader k) in
        let fresh := drop (length (Framing.received (reader k))) (Framing.received r) in
        let ended := bool_decide (is_Some (Framing.closed r)) in
        m <| conns := <[c := k <| reader := r |> <| reading := negb ended |> <| closed := closed k || ended |>]> (conns m) |>
          <| inbox := inbox m ++ map (fun msg => mkReceived msg (peer k) (c_transport k) (Some c)) fresh |>
      else m
  | None => m
  end.

(** The reader of a connection ends; that of a WebSocket says so. *)
Definition end_of_stream (c : nat) (m : TransportManager) : TransportManager :=
  match conns m !! c with
  | Some k =>
      if reading k then
        let m := on_conn c (fun k => k <| reading := false |> <| closed := true |>) m in
        if is_ws (c_transport k) then m <| events := events m ++ [ConnectionClosed (peer k) (c_transport k)] |> else m
      else m
  | None => m
  end.

(** [parse_and_forward] *)
Definition forward (c : nat) (k : Conn) (text : string) (m : TransportManager) : TransportManager :=
  match parse text with Some msg => push (mkReceived msg (peer k) (c_transport k) (Some c)) m | None => m end.

Definition ws_frame (c : nat) (f : WsFrame) (m : TransportManager) : TransportManager :=
  match conns m !! c with
  | Some k =>
      if is_ws (c_transport k) && reading k then
        match f with
        | Text s => forward c k s m
        | Binary b => forward c k (lossy b) m
        | Ping b => if writing k then on_conn c (fun k => k <| pongs := pongs k ++ [b] |>) m else m
        | CloseFrame => end_of_stream c m
        | OtherFrame => m
        end
      else m
  | None => m
  end.

(** *** What is written *)

Definition emit (on : option nat) (dest : SocketAddr) (data : string) (m : TransportManager) : TransportManager :=
  m <| emitted := emitted m ++ [mkEmission on dest data] |>.

(** The first bytes of a write that failed. *)
Definition emit_some (n : nat) (on : option nat) (dest : SocketAddr) (data : string) (m : TransportManager) : TransportManager :=
  if seqb (stake n data) "" then m else emit on dest (stake n data) m.

(** The task that writes meets an error and ends; the pools hear of it for a
    connection made over TLS. *)
Definition writer_fails (c : nat) (m : TransportManager) : TransportManager :=
  on_conn c (fun k =>
    let k := k <| writing := false |> <| queue := [] |> <| pongs := [] |> in
    if bool_decide (is_Some (with_params k)) then k <| closed := true |> else k) m.

Definition write (r : WriteResult) (c : nat) (k : Conn) (data : string) (m : TransportManager) : TransportManager :=
  match r with
  | Written => emit (Some c) (peer k) data m
  | WriteFailed n | WriteTimedOut n => writer_fails c (emit_some n (Some c) (peer k) data m)
  end.

(** The task that writes takes the next message of its queue: over a WebSocket
    it skips what is not a text, and a pong may go first. *)
Definition write_next (r : WriteResult) (c : nat) (m : TransportManager) : TransportManager :=
  match conns m !! c with
  | Some k =>
      if writing k then
        match queue k with
        | d :: rest =>
            let m := on_conn c (fun k => k <| queue := rest |>) m in
            if is_ws (c_transport k) && negb (is_utf8 d) then m else write r c k d m
        | [] => m
        end
      else m
  | None => m
  end.

Definition write_pong (r : WriteResult) (c : nat) (m : TransportManager) : TransportManager :=
  match conns m !! c with
  | Some k =>
      if is_ws (c_transport k) && writing k then
        match pongs k with
        | b :: rest => write r c k b (on_conn c (fun k => k <| pongs := rest |>) m)
        | [] => m
        end
      else m
  | None => m
  end.

Definition enqueue (c : nat) (data : string) (m : TransportManager) : TransportManager :=
  on_conn c (fun k => k <| queue := queue k ++ [data] |>) m.

(** A WebSocket connection that is not upgraded is reported as closed. *)
Definition ws_refused (p : SocketAddr) (t : Transport) (m : TransportManager) : TransportManager :=
  m <| events := events m ++ [ConnectionClosed p t] |>.

Definition recv_message (m : TransportManager) : option ReceivedMessage * TransportManager :=
  match inbox m !! taken m with
  | Some r => (Some r, m <| taken := S (taken m) |>)
  | None => (None, m)
  end.

Definition drain_events (m : TransportManager) : list TransportEvent * TransportManager := (events m, m <| events := [] |>).

(** *** What is sent *)

Definition send_udp (io : Io) (data : string) (dest : SocketAddr) (m : TransportManager) : sbc_result unit * TransportManager :=
  match udp_listeners m with
  | [] => (Err (ETransport "No UDP listener available"), m)
  | _ => if io_udp io then (Ok tt, emit None dest data m) else (Err (ETransport "Failed to send UDP packet"), m)
  end.

(** A configuration that cannot be built leaves what was registered. *)
Definition register_tls_destination (dest : SocketAddr) (p : TlsClientParams) (m : TransportManager)
    : sbc_result unit * TransportManager :=
  match build_client_config p with
  | Err e => (Err e, m)
  | Ok cfg =>
      (Ok tt, m <| tls_params := <[dest := (p, cfg)]> (tls_params m) |>
                <| tls_connections := delete dest (tls_connections m) |>)
  end.

(** [is_closed] of a TLS connection, its [send]. *)
Definition tls_is_closed (k : Conn) : bool := closed k || negb (writing k).

(** Over TLS a message is put in the queue of the task that writes. *)
Definition tls_send (c : nat) (data : string) (m : TransportManager) : sbc_result unit * TransportManager :=
  match conns m !! c with
  | Some k => if writing k then (Ok tt, enqueue c data m) else (Err (ETransport "TLS connection is closed"), m)
  | None => (Err (ETransport "TLS connection is closed"), m)
  end.

Definition connect_tls (io : Io) (data : string) (dest : SocketAddr) (m : TransportManager) : sbc_result unit * TransportManager :=
  match tls_params m !! dest with
  | None => (Err (ETransport "no TLS parameters registered"), m)
  | Some (p, _) =>
      if negb (valid_name (sni p)) then (Err (ETransport "invalid TLS SNI"), m)
      else if io_connect io then
        let '(c, m) := open dest Tls (Some p) m in
        tls_send c data (m <| tls_connections := <[dest := c]> (tls_connections m) |>)
      else (Err (ETransport "TLS connect"), m)
  end.

Definition send_tls (io : Io) (data : string) (dest : SocketAddr) (m : TransportManager) : sbc_result unit * TransportManager :=
  match tls_connections m !! dest ≫= (fun c => k ← conns m !! c; Some (c, k)) with
  | Some (c, k) =>
      if negb (tls_is_closed k) then tls_send c data m
      else connect_tls io data dest (m <| tls_connections := delete dest (tls_connections m) |>)
  | None => connect_tls io data dest m
  end.

(** A write over TCP, by the sender itself; one that times out marks the
    connection for the pool. *)
Definition tcp_write (io : Io) (c : nat) (data : string) (dest : SocketAddr) (m : TransportManager)
    : sbc_result unit * TransportManager :=
  match io_write io with
  | Written => (Ok tt, emit (Some c) dest data m)
  | WriteFailed n => (Err (ETransport "Failed to write to TCP stream"), emit_some n (Some c) dest data m)
  | WriteTimedOut n =>
      (Err (ETransport "TCP write timed out"), on_conn c (fun k => k <| closed := true |>) (emit_some n (Some c) dest data m))
  end.

Definition tcp_connection (io : Io) (dest : SocketAddr) (m : TransportManager) : sbc_result nat * TransportManager :=
  match tcp_connections m !! dest ≫= (fun c => k ← conns m !! c; if closed k then None else Some c) with
  | Some c => (Ok c, m)
  | None =>
      let m := m <| tcp_connections := delete dest (tcp_connections m) |> in
      if io_connect io then
        let '(c, m) := open dest Tcp None m in
        (Ok c, m <| tcp_connections := <[dest := c]> (tcp_connections m) |>)
      else (Err (ETransport "Failed to connect"), m)
  end.

Definition send_tcp (io : Io) (data : string) (dest : SocketAddr) (m : TransportManager) : sbc_result unit * TransportManager :=
  match tcp_connection io dest m with
  | (Err e, m) => (Err e, m)
  | (Ok c, m) =>
      match tcp_write io c data dest m with
      | (Ok _, m) => (Ok tt, m)
      | (Err e, m) => (Err e, m <| tcp_connections := delete dest (tcp_connections m) |>)
      end
  end.

Definition send (io : Io) (data : string) (dest : SocketAddr) (t : Transport) (m : TransportManager)
    : sbc_result unit * TransportManager :=
  match t with
  | Udp => send_udp io data dest m
  | Tcp => send_tcp io data dest m
  | Tls => send_tls io data dest m
  | _ => (Err (ETransport "Unsupported transport"), m)
  end.

(** The reply channel of a connection takes what is sent while its task that
    writes runs. *)
Definition channel_open (c : nat) (m : TransportManager) : bool :=
  match conns m !! c with Some k => writing k | None => false end.

Definition reply (io : Io) (data : string) (dest : SocketAddr) (t : Transport) (tx : option nat) (m : TransportManager)
    : sbc_result unit * TransportManager :=
  match tx with
  | Some c => if channel_open c m then (Ok tt, enqueue c data m) else send io data dest t m
  | None => send io data dest t m
  end.

Record TransportStats := mkStats { s_udp_listeners : Z; s_tcp_connections : Z }.

Definition stats (m : TransportManager) : TransportStats :=
  mkStats (Z.of_nat (length (udp_listeners m))) (Z.of_nat (size (tcp_connections m))).

(** *** Runs *)

Inductive Op :=
  | Datagram (data : string) (from : SocketAddr)
  | Accept (p : SocketAddr) (t : Transport)
  | Chunk (c : nat) (data : string)
  | Eof (c : nat)
  | Frame (c : nat) (f : WsFrame)
  | WriteNext (r : WriteResult) (c : nat)
  | WritePong (r : WriteResult) (c : nat)
  | WsRefused (p : SocketAddr) (t : Transport)
  | Listen (bind : SocketAddr -> option SocketAddr) (certs : string -> string -> bool) (cs : list ListenerConfig)
  | RegisterTls (dest : SocketAddr) (p : TlsClientParams)
  | Send (io : Io) (data : string) (dest : SocketAddr) (t : Transport)
  | Reply (io : Io) (data : string) (dest : SocketAddr) (t : Transport) (tx : option nat)
  | Recv
  | DrainEvents.

Definition step (o : Op) (m : TransportManager) : TransportManager :=
  match o with
  | Datagram d p => datagram d p m
  | Accept p t => (open p t None m).2
  | Chunk c d => read_chunk c d m
  | Eof c => end_of_stream c m
  | Frame c f => ws_frame c f m
  | WriteNext r c => write_next r c m
  | WritePong r c => write_pong r c m
  | WsRefused p t => ws_refused p t m
  | Listen b certs cs => (start_listeners b certs cs m).2
  | RegisterTls d p => (register_tls_destination d p m).2
  | Send io data dest t => (send io data dest t m).2
  | Reply io data dest t tx => (reply io data dest t tx m).2
  | Recv => (recv_message m).2
  | DrainEvents => (drain_events m).2
  end.

Definition run (ops : list Op) (m : TransportManager) : TransportManager := fold_left (fun m o => step o m) ops m.
End manager.
Arguments ReceivedMessage : clear implicits.
Arguments Conn : clear implicits.
Arguments TransportManager : clear implicits.
Arguments new {Sip Config}.

(** ** The pools *)

Section pools.
Context {Sip Config : Type} (parse : string -> option Sip) (lossy : string -> string).
Context (build_client_config : TlsClientParams -> sbc_result Config) (valid_name : string -> bool).

Abbreviation TransportManager := (TransportManager Sip Config).
Abbreviation step := (step parse lossy build_client_config valid_name).
Abbreviation run := (run parse lossy build_client_config valid_name).
Abbreviation send := (send valid_name).
Abbreviation reply := (reply valid_name).

(** A connection of a pool is one to the address it is filed under, made with
    the parameters registered there. *)
Definition pooled_tcp (m : TransportManager) : Prop :=
  forall d c, tcp_connections m !! d = Some c ->
  exists k, conns m !! c = Some k /\ c_transport k = Tcp /\ peer k = d /\ with_params k = None.

Definition pooled_tls (m : TransportManager) : Prop :=
  forall d c, tls_connections m !! d = Some c ->
  exists k p cfg, conns m !! c = Some k /\ c_transport k = Tls /\ peer k = d /\ with_params k = Some p /\
    tls_params m !! d = Some (p, cfg).

Definition numbered (m : TransportManager) : Prop := forall c k, conns m !! c = Some k -> (c < next_conn m)%nat.

Definition pools (m : TransportManager) : Prop := pooled_tcp m /\ pooled_tls m /\ numbered m.

(** What identifies a connection never changes. *)
Definition same_conns (m m' : TransportManager) : Prop :=
  forall c, ((fun k => (peer k, c_transport k, with_params k)) <$> conns m' !! c)
          = ((fun k => (peer k, c_transport k, with_params k)) <$> conns m !! c).

Lemma same_lookup m m' c k : same_conns m m' -> conns m !! c = Some k ->
  exists k', conns m' !! c = Some k' /\ peer k' = peer k /\ c_transport k' = c_transport k /\ with_params k' = with_params k.
Proof.
  intros Hs Hk. specialize (Hs c). rewrite Hk in Hs. destruct (conns m' !! c) as [k'|]; [|done].
  injection Hs as H1 H2 H3. by exists k'.
Qed.

Lemma pools_same m m' :
  same_conns m m' -> tcp_connections m' ⊆ tcp_connections m -> tls_connections m' ⊆ tls_connections m ->
  (forall d c, tls_connections m' !! d = Some c -> tls_params m' !! d = tls_params m !! d) ->
  next_conn m' = next_conn m -> pools m -> pools m'.
Proof.
  intros Hs H1 H2 H3 H4 (Ht & Hl & Hn). split_and!.
  - intros d c Hc. destruct (Ht d c (lookup_weaken _ _ _ _ Hc H1)) as (k & Hk & E1 & E2 & E3).
    destruct (same_lookup _ _ _ _ Hs Hk) as (k' & Hk' & F1 & F2 & F3). exists k'. by rewrite F1, F2, F3.
  - intros d c Hc. destruct (Hl d c (lookup_weaken _ _ _ _ Hc H2)) as (k & p & cfg & Hk & E1 & E2 & E3 & E4).
    destruct (same_lookup _ _ _ _ Hs Hk) as (k' & Hk' & F1 & F2 & F3). exists k', p, cfg. by rewrite F1, F2, F3, (H3 d c Hc).
  - intros c k Hk. specialize (Hs c). rewrite Hk in Hs. rewrite H4. destruct (conns m !! c) as [k0|] eqn:E; [|done].
    by apply (Hn c k0).
Qed.

Lemma same_conns_refl m m' : conns m' = conns m -> same_conns m m'.
Proof. intros E c. by rewrite E. Qed.

Lemma same_conns_alter m f c :
  (forall k, peer (f k) = peer k /\ c_transport (f k) = c_transport k /\ with_params (f k) = with_params k) ->
  same_conns m (on_conn c f m).
Proof.
  intros Hf c'. unfold on_conn. cbn. destruct (decide (c' = c)) as [->|Hn].
  - rewrite lookup_alter_eq. destruct (conns m !! c) as [k|]; [|done]. cbn. by destruct (Hf k) as (-> & -> & ->).
  - by rewrite lookup_alter_ne.
Qed.

(** Operations that leave pools and registrations alone. *)
Definition quiet (m m' : TransportManager) : Prop :=
  same_conns m m' /\ tcp_connections m' = tcp_connections m /\ tls_connections m' = tls_connections m /\
  tls_params m' = tls_params m /\ next_conn m' = next_conn m.

Lemma pools_quiet m m' : quiet m m' -> pools m -> pools m'.
Proof. intros (Hs & E1 & E2 & E3 & E4). apply pools_same; [done|by rewrite E1|by rewrite E2|by rewrite E3|done]. Qed.

Ltac quietly := unfold quiet; split_and!; [by apply same_conns_refl|done..].

Lemma quiet_refl m : quiet m m.
Proof. quietly. Qed.

Lemma quiet_emit on d x m : quiet m (emit on d x m).
Proof. quietly. Qed.

Lemma quiet_push r m : quiet m (push r m).
Proof. quietly. Qed.

Lemma quiet_end c m : quiet m (end_of_stream c m).
Proof.
  unfold end_of_stream. destruct (conns m !! c) as [k|]; [|apply quiet_refl]. destruct (reading k); [|apply quiet_refl].
  case_match; (unfold quiet; split_and!; [|done..]); by apply same_conns_alter.
Qed.

Lemma quiet_chunk c d m : quiet m (read_chunk parse c d m).
Proof.
  unfold read_chunk. destruct (conns m !! c) as [k|] eqn:E; [|apply quiet_refl]. case_match; [|apply quiet_refl].
  unfold quiet. split_and!; [|done..]. intros c'. cbn. destruct (decide (c' = c)) as [->|Hn].
  - by rewrite lookup_insert_eq, E.
  - by rewrite lookup_insert_ne.
Qed.

Lemma quiet_on c f m :
  (forall k, peer (f k) = peer k /\ c_transport (f k) = c_transport k /\ with_params (f k) = with_params k) ->
  quiet m (on_conn c f m).
Proof. intros Hf. unfold quiet. split_and!; [by apply same_conns_alter|done..]. Qed.

Lemma quiet_chain m m' m'' : quiet m m' -> quiet m' m'' -> quiet m m''.
Proof.
  intros (S1 & E1 & E2 & E3 & E4) (S2 & F1 & F2 & F3 & F4). unfold quiet.
  rewrite F1, F2, F3, F4. split_and!; try done. intros c. by rewrite S2, S1.
Qed.

Lemma quiet_emit_some n on d x m : quiet m (emit_some n on d x m).
Proof. unfold emit_some. case_match; [apply quiet_refl|apply quiet_emit]. Qed.

Lemma quiet_writer c m : quiet m (writer_fails c m).
Proof. apply quiet_on. intros k. cbv zeta. by case_match. Qed.

Lemma quiet_write r c k x m : quiet m (write r c k x m).
Proof. destruct r; [apply quiet_emit|..]; (eapply quiet_chain; [apply quiet_emit_some|apply quiet_writer]). Qed.

Lemma quiet_next r c m : quiet m (write_next r c m).
Proof.
  unfold write_next. repeat case_match; try apply quiet_refl; [by apply quiet_on|].
  eapply quiet_chain; [|apply quiet_write]. by apply quiet_on.
Qed.

Lemma quiet_pong r c m : quiet m (write_pong r c m).
Proof.
  unfold write_pong. repeat case_match; try apply quiet_refl. eapply quiet_chain; [|apply quiet_write]. by apply quiet_on.
Qed.

Lemma quiet_enqueue c x m : quiet m (enqueue c x m).
Proof. by apply quiet_on. Qed.

Lemma quiet_ws c f m : quiet m (ws_frame parse lossy c f m).
Proof.
  unfold ws_frame, forward. destruct (conns m !! c) as [k|]; [|apply quiet_refl]. case_match; [|apply quiet_refl].
  destruct f; repeat case_match; try apply quiet_refl; try apply quiet_push; [by apply quiet_on|apply quiet_end].
Qed.

Lemma quiet_start bind certs c m : quiet m (start_listener bind certs c m).2.
Proof. unfold start_listener. repeat case_match; simplify_eq; quietly. Qed.

Lemma quiet_listeners bind certs cs m : quiet m (start_listeners bind certs cs m).2.
Proof.
  revert m. induction cs as [|c cs IH]; intros m; [apply quiet_refl|]. cbn [start_listeners].
  assert (H := quiet_start bind certs c m). destruct (start_listener bind certs c m) as [[[]|e] m1]; [|done].
  by eapply quiet_chain.
Qed.

Lemma pools_open p t params m : pools m -> pools (open p t params m).2 /\
  conns (open p t params m).2 !! next_conn m = Some (new_connection p t params).
Proof.
  intros (Ht & Hl & Hn). split; [|by apply lookup_insert_eq].
  assert (Hold : forall c k, conns m !! c = Some k -> conns (open p t params m).2 !! c = Some k).
  { intros c k Hk. cbn. rewrite lookup_insert_ne; [done|]. specialize (Hn c k Hk). lia. }
  split_and!.
  - intros d c Hc. destruct (Ht d c Hc) as (k & Hk & E). exists k. by rewrite (Hold c k Hk).
  - intros d c Hc. destruct (Hl d c Hc) as (k & q & cfg & Hk & E). exists k, q, cfg. by rewrite (Hold c k Hk).
  - intros c k Hk. cbn in *. destruct (decide (c = next_conn m)) as [->|Hne]; [lia|].
    rewrite lookup_insert_ne in Hk by done. specialize (Hn c k Hk). lia.
Qed.

(** What waits in the queue of a connection. *)
Definition waiting (m : TransportManager) (c : nat) : list string := from_option queue [] (conns m !! c).

Definition queues_kept (m m' : TransportManager) : Prop := forall c, waiting m' c = waiting m c.

(** What a send leaves. Over UDP the datagram, or nothing. Over TCP the message,
    on the live connection to that address that the pool holds; when the write
    fails at most its beginning, on a connection the pool no longer holds. Over
    TLS the message at the end of the queue of a live connection to that address,
    made with what is registered there; or nothing. *)
Definition sent_over (t : Transport) (dest : SocketAddr) (data : string) (r : sbc_result unit)
    (m m' : TransportManager) : Prop :=
  match t, r with
  | Udp, Ok _ => emitted m' = emitted m ++ [mkEmission None dest data] /\ queues_kept m m'
  | Tcp, Ok _ => queues_kept m m' /\
      exists c k, tcp_connections m' !! dest = Some c /\ conns m' !! c = Some k /\ c_transport k = Tcp /\
        peer k = dest /\ closed k = false /\ emitted m' = emitted m ++ [mkEmission (Some c) dest data]
  | Tcp, Err _ => queues_kept m m' /\ tcp_connections m' !! dest = None /\
      (emitted m' = emitted m \/
       exists c k n, conns m' !! c = Some k /\ c_transport k = Tcp /\ peer k = dest /\
         emitted m' = emitted m ++ [mkEmission (Some c) dest (stake n data)])
  | Tls, Ok _ => emitted m' = emitted m /\
      exists c k p cfg, tls_connections m' !! dest = Some c /\ conns m' !! c = Some k /\ c_transport k = Tls /\
        peer k = dest /\ closed k = false /\ writing k = true /\ with_params k = Some p /\
        tls_params m' !! dest = Some (p, cfg) /\
        forall c', waiting m' c' = waiting m c' ++ (if bool_decide (c' = c) then [data] else [])
  | (Udp | Tls), Err _ => emitted m' = emitted m /\ queues_kept m m'
  | _, Ok _ => False
  | _, Err _ => m' = m
  end.

Lemma send_udp_spec io data dest m r m' : pools m -> send_udp io data dest m = (r, m') ->
  pools m' /\ sent_over Udp dest data r m m'.
Proof.
  intros Hp. unfold send_udp. destruct (udp_listeners m); [intros [= <- <-]; by split|].
  destruct (io_udp io); intros [= <- <-]; [|by split].
  split; [eapply pools_quiet; [apply quiet_emit|done]|]. by split.
Qed.

Lemma waiting_on c f (m : TransportManager) c' : waiting (on_conn c f m) c' = if bool_decide (c' = c) then from_option (queue ∘ f) [] (conns m !! c) else waiting m c'.
Proof.
  unfold waiting, on_conn. cbn. case_bool_decide as E; [subst; rewrite lookup_alter_eq; by destruct (conns m !! c)|].
  by rewrite lookup_alter_ne.
Qed.

Lemma waiting_open p t q m c : numbered m -> waiting (open p t q m).2 c = waiting m c.
Proof.
  intros Hn. unfold waiting. cbn. destruct (decide (c = next_conn m)) as [->|Hne]; [|by rewrite lookup_insert_ne].
  rewrite lookup_insert_eq. destruct (conns m !! next_conn m) as [k|] eqn:E; [|done]. specialize (Hn _ _ E). lia.
Qed.

Lemma pools_drop_tls d m : pools m -> pools (m <| tls_connections := delete d (tls_connections m) |>).
Proof. apply pools_same; [by apply same_conns_refl|done|apply delete_subseteq|done|done]. Qed.

Lemma pools_drop_tcp d m : pools m -> pools (m <| tcp_connections := delete d (tcp_connections m) |>).
Proof. apply pools_same; [by apply same_conns_refl|apply delete_subseteq|done|done|done]. Qed.

(** The connection of the pool takes the message. *)
Lemma tls_send_spec c k p cfg data dest m r m' :
  pools m -> tls_connections m !! dest = Some c -> conns m !! c = Some k -> c_transport k = Tls -> peer k = dest ->
  closed k = false -> writing k = true -> with_params k = Some p -> tls_params m !! dest = Some (p, cfg) ->
  tls_send c data m = (r, m') -> pools m' /\ sent_over Tls dest data r m m'.
Proof.
  intros Hp Hpool Hk Ht Hd Hc Hw Hwp Hreg. unfold tls_send. rewrite Hk, Hw. intros [= <- <-].
  split; [eapply pools_quiet; [apply quiet_enqueue|done]|]. split; [done|].
  exists c, (k <| queue := queue k ++ [data] |>), p, cfg. cbn. rewrite lookup_alter_eq, Hk. split_and!; try done.
  intros c'. change (waiting (on_conn c (fun k => k <| queue := queue k ++ [data] |>) m) c' = waiting m c' ++ (if bool_decide (c' = c) then [data] else [])).
  rewrite waiting_on. case_bool_decide as E; [subst c'|by rewrite app_nil_r]. unfold waiting. by rewrite Hk.
Qed.

Lemma sent_over_from m0 m t dest data r m' : emitted m = emitted m0 -> (forall c, waiting m c = waiting m0 c) ->
  is_stream t = true -> sent_over t dest data r m m' -> sent_over t dest data r m0 m'.
Proof.
  intros He Hq Ht. assert (Hk : queues_kept m m' -> queues_kept m0 m') by (intros H c; by rewrite H, Hq).
  destruct t; try done; destruct r; cbn; rewrite He; try tauto.
  intros [H (c & k & p & cfg & H1 & H2 & H3 & H4 & H5 & H6 & H7 & H8 & H9)]. split; [done|].
  exists c, k, p, cfg. split_and!; try done. intros c'. by rewrite H9, Hq.
Qed.

Lemma connect_tls_spec io data dest m r m' : pools m -> connect_tls valid_name io data dest m = (r, m') ->
  pools m' /\ sent_over Tls dest data r m m'.
Proof.
  intros Hp. unfold connect_tls. destruct (tls_params m !! dest) as [[p cfg]|] eqn:Hreg; [|intros [= <- <-]; by split].
  destruct (negb (valid_name (sni p))); [intros [= <- <-]; by split|].
  destruct (io_connect io); [|intros [= <- <-]; by split].
  destruct (pools_open dest Tls (Some p) m Hp) as [Ho Hk].
  set (m1 := (open dest Tls (Some p) m).2) in *.
  change (open dest Tls (Some p) m) with (next_conn m, m1). cbv iota beta. intros Hsend.
  eapply (tls_send_spec (next_conn m) (new_connection dest Tls (Some p)) p cfg) in Hsend;
    [| |by cbn; rewrite lookup_insert_eq|exact Hk|done..|exact Hreg].
  - destruct Hsend as [Hpools Hsent]. split; [done|]. eapply sent_over_from; [| |done|exact Hsent]; [done|].
    intros c. by apply (waiting_open dest Tls (Some p)), Hp.
  - destruct Ho as (H1 & H2 & H3). split_and!; [exact H1| |exact H3].
    intros d c Hc. cbn in Hc. destruct (decide (d = dest)) as [->|Hn].
    + rewrite lookup_insert_eq in Hc. injection Hc as <-. exists (new_connection dest Tls (Some p)), p, cfg. by split_and!.
    + rewrite lookup_insert_ne in Hc by done. by apply H2.
Qed.

Lemma send_tls_spec io data dest m r m' : pools m -> send_tls valid_name io data dest m = (r, m') ->
  pools m' /\ sent_over Tls dest data r m m'.
Proof.
  intros Hp. unfold send_tls. destruct (tls_connections m !! dest) as [c|] eqn:Hc; cbn [mbind option_bind];
    [|by apply connect_tls_spec].
  destruct (proj1 (proj2 Hp) dest c Hc) as (k & p & cfg & Hk & Et & Ed & Ep & Er). rewrite Hk. cbn [mbind option_bind].
  assert (Hre : connect_tls valid_name io data dest (m <| tls_connections := delete dest (tls_connections m) |>) = (r, m') ->
    pools m' /\ sent_over Tls dest data r m m').
  { intros H. apply connect_tls_spec in H as [H1 H2]; [|by apply pools_drop_tls]. split; [done|].
    by eapply sent_over_from; [| | |exact H2]. }
  unfold tls_is_closed. destruct (closed k) eqn:Ec; [|destruct (writing k) eqn:Ew]; cbn [orb negb]; [exact Hre| |exact Hre].
  by apply (tls_send_spec c k p cfg).
Qed.

Lemma tcp_connection_spec io dest m r m' : pools m -> tcp_connection io dest m = (r, m') ->
  pools m' /\ emitted m' = emitted m /\ queues_kept m m' /\
  match r with
  | Ok c => tcp_connections m' !! dest = Some c /\
            exists k, conns m' !! c = Some k /\ c_transport k = Tcp /\ peer k = dest /\ closed k = false
  | Err _ => tcp_connections m' !! dest = None
  end.
Proof.
  intros Hp. unfold tcp_connection.
  destruct (tcp_connections m !! dest ≫= _) as [c|] eqn:Hc.
  - intros [= <- <-]. refine (conj Hp (conj eq_refl (conj (fun _ => eq_refl) _))). apply bind_Some in Hc as (c' & Hc & Hk).
    apply bind_Some in Hk as (k & Hk & Hcl). destruct (closed k) eqn:Ek; [done|]. injection Hcl as ->.
    split; [done|]. destruct Hp as (H1 & _ & _). destruct (H1 dest c Hc) as (k' & Hk' & Et & Ed & _).
    rewrite Hk in Hk'. injection Hk' as <-. by exists k.
  - apply (pools_drop_tcp dest) in Hp. set (m1 := m <| tcp_connections := _ |>) in *.
    destruct (io_connect io); [|intros [= <- <-]; refine (conj Hp (conj eq_refl (conj (fun _ => eq_refl) _))); cbn; by apply lookup_delete_eq].
    destruct (pools_open dest Tcp None m1 Hp) as [Ho Hk]. set (m2 := (open dest Tcp None m1).2) in *.
    change (open dest Tcp None m1) with (next_conn m1, m2). cbv iota beta. intros [= <- <-].
    destruct Ho as (H1 & H2 & H3).
    assert (Hp2 : pooled_tcp (m2 <| tcp_connections := <[dest:=next_conn m1]> (tcp_connections m2) |>)).
    { intros d c Hd. cbn in Hd. destruct (decide (d = dest)) as [->|Hn].
      - rewrite lookup_insert_eq in Hd. injection Hd as <-. eexists. split; [exact Hk|]. by split_and!.
      - rewrite lookup_insert_ne in Hd by done. by apply H1. }
    refine (conj (conj Hp2 (conj H2 H3)) (conj eq_refl (conj _ (conj _ _)))); [|by cbn; rewrite lookup_insert_eq|].
    + intros c. exact (waiting_open dest Tcp None m1 c (proj2 (proj2 Hp))).
    + eexists. split; [exact Hk|]. by split_and!.
Qed.

Lemma on_conn_id c (m : TransportManager) : on_conn c (fun k => k) m = m.
Proof. unfold on_conn. rewrite alter_id by done. by destruct m. Qed.

(** A write that fails, by an error or the clock: at most a beginning has left. *)
Lemma tcp_write_fails n c k f data dest m0 m :
  pools m -> emitted m = emitted m0 -> queues_kept m0 m -> conns m !! c = Some k -> c_transport k = Tcp -> peer k = dest ->
  (forall k, peer (f k) = peer k /\ c_transport (f k) = c_transport k /\ with_params (f k) = with_params k /\ queue (f k) = queue k) ->
  let m1 := on_conn c f (emit_some n (Some c) dest data m) in
  let m' := m1 <| tcp_connections := delete dest (tcp_connections m1) |> in
  pools m' /\ forall e, sent_over Tcp dest data (Err e) m0 m'.
Proof.
  intros Hp He Hq Hk Ht Hd Hf m1 m'. split.
  { apply pools_drop_tcp. eapply pools_quiet; [|exact Hp]. eapply quiet_chain; [apply quiet_emit_some|].
    apply quiet_on. intros k'. destruct (Hf k') as (? & ? & ? & _). done. }
  assert (Hc : conns (emit_some n (Some c) dest data m) = conns m) by (unfold emit_some; by case_match).
  intros e. split_and!; [|cbn; apply lookup_delete_eq|].
  - intros c'. change (waiting m1 c' = waiting m0 c'). unfold m1. rewrite <- (Hq c'), waiting_on, Hc.
    assert (Hw : waiting (emit_some n (Some c) dest data m) c' = waiting m c') by (unfold waiting; by rewrite Hc).
    rewrite Hw. case_bool_decide as E; [subst c'|done]. unfold waiting. rewrite Hk. cbn. by destruct (Hf k) as (_ & _ & _ & ->).
  - assert (Hk1 : conns m' !! c = Some (f k)) by (cbn; by rewrite Hc, lookup_alter_eq, Hk).
    change (emitted m') with (emitted (emit_some n (Some c) dest data m)). unfold emit_some. case_match; [by left|right].
    exists c, (f k), n. destruct (Hf k) as (-> & -> & _). cbn [emit emitted set_field]. by rewrite He.
Qed.

(** A failed send over TCP leaves no connection to that address in the pool; one
    that succeeds used the connection the pool now holds. *)
Lemma send_tcp_spec io data dest m r m' : pools m -> send_tcp io data dest m = (r, m') ->
  pools m' /\ sent_over Tcp dest data r m m'.
Proof.
  intros Hp. unfold send_tcp. destruct (tcp_connection io dest m) as [[c|e] m1] eqn:Hc;
    apply tcp_connection_spec in Hc as (Hp1 & He & Hq & Hr); [|done| |done]; cycle 1.
  { intros [= <- <-]. split; [done|]. cbn. auto. }
  destruct Hr as (Hpool & k & Hk & Et & Ed & Ec).
  unfold tcp_write. destruct (io_write io) as [|n|n]; intros [= <- <-].
  - split; [eapply pools_quiet; [apply quiet_emit|done]|]. split; [exact Hq|]. exists c, k. cbn. by rewrite He.
  - assert (H := tcp_write_fails n c k (fun k => k) data dest m m1 Hp1 He Hq Hk Et Ed). cbv zeta in H.
    replace (on_conn c (fun k => k) (emit_some n (Some c) dest data m1)) with (emit_some n (Some c) dest data m1) in H.
    + by destruct H as [? H].
    + symmetry. apply on_conn_id.
  - assert (H := tcp_write_fails n c k (fun k => k <| closed := true |>) data dest m m1 Hp1 He Hq Hk Et Ed). cbv zeta in H.
    by destruct H as [? H].
Qed.

Lemma send_spec io data dest t m r m' : pools m -> send io data dest t m = (r, m') ->
  pools m' /\ sent_over t dest data r m m'.
Proof.
  intros Hp. unfold Transports.send. destruct t; try (intros [= <- <-]; by split).
  - by apply send_udp_spec.
  - by apply send_tcp_spec.
  - by apply send_tls_spec.
Qed.

Lemma reply_spec io data dest t tx m r m' : pools m -> reply io data dest t tx m = (r, m') -> pools m'.
Proof.
  intros Hp. unfold Transports.reply. destruct tx as [c|]; [destruct (channel_open c m)|];
    [intros [= <- <-]; by eapply pools_quiet; [apply quiet_enqueue|]| |]; intros H; by apply send_spec in H as [? _].
Qed.

Lemma pools_step o m : pools m -> pools (step o m).
Proof.
  intros Hp. destruct o; cbn [Transports.step].
  - unfold datagram. repeat case_match; [done| |done]. by eapply pools_quiet; [apply quiet_push|].
  - by apply pools_open.
  - by eapply pools_quiet; [apply quiet_chunk|].
  - by eapply pools_quiet; [apply quiet_end|].
  - by eapply pools_quiet; [apply quiet_ws|].
  - by eapply pools_quiet; [apply quiet_next|].
  - by eapply pools_quiet; [apply quiet_pong|].
  - eapply pools_quiet; [|exact Hp]. unfold ws_refused. quietly.
  - by eapply pools_quiet; [apply quiet_listeners|].
  - unfold register_tls_destination. destruct (build_client_config p) as [cfg|e]; [|done]. cbn [snd].
    destruct Hp as (H1 & H2 & H3). split_and!; [exact H1| |exact H3].
    intros d c Hc. cbn in Hc. apply lookup_delete_Some in Hc as [Hd Hc]. destruct (H2 d c Hc) as (k & q & cf & E & E').
    exists k, q, cf. split; [exact E|]. cbn. by rewrite lookup_insert_ne.
  - destruct (send io data dest t m) as [r m'] eqn:E. by apply send_spec in E as [? _].
  - destruct (reply io data dest t tx m) as [r m'] eqn:E. by apply reply_spec in E.
  - unfold recv_message. case_match; [|done]. cbn. eapply pools_quiet; [|exact Hp]. quietly.
  - eapply pools_quiet; [|exact Hp]. unfold drain_events. cbn. quietly.
Qed.

Lemma pools_run ops m : pools m -> pools (run ops m).
Proof. revert m. induction ops as [|o ops IH]; intros m Hm; [done|]. by apply IH, pools_step. Qed.

Lemma pools_new : pools new.
Proof. split_and!; intros ? ? H; cbn in H; by rewrite lookup_empty in H. Qed.

(** *** What is queued over TLS leaves in its order *)

Definition sent_on (c : nat) (m : TransportManager) : list string :=
  omap (fun e => if bool_decide (e_on e = Some c) then Some (e_data e) else None) (emitted m).

(** What a connection has been given to write: written, then waiting. *)
Definition flow (m : TransportManager) (c : nat) : list string := sent_on c m ++ waiting m c.

Definition writes (m : TransportManager) (c : nat) : Prop := exists k, conns m !! c = Some k /\ writing k = true.

(** Unless the task that writes ends, a TLS connection loses nothing it was
    given, and keeps the order. *)
Definition flows (c : nat) (m m' : TransportManager) : Prop :=
  forall k, conns m !! c = Some k -> c_transport k = Tls ->
  exists k', conns m' !! c = Some k' /\ c_transport k' = Tls /\
    (writing k' = true -> writing k = true /\ flow m c `prefix_of` flow m' c).

Lemma flows_trans c m m1 m2 : flows c m m1 -> flows c m1 m2 -> flows c m m2.
Proof.
  intros H1 H2 k Hk Ht. destruct (H1 k Hk Ht) as (k1 & Hk1 & Ht1 & F1). destruct (H2 k1 Hk1 Ht1) as (k2 & Hk2 & Ht2 & F2).
  exists k2. split_and!; [done..|]. intros Hw. destruct (F2 Hw) as [Hw1 P2]. destruct (F1 Hw1) as [Hw0 P1].
  split; [done|by etrans].
Qed.

Lemma flows_keep c m m' : sent_on c m' = sent_on c m ->
  (forall k, conns m !! c = Some k -> c_transport k = Tls -> exists k', conns m' !! c = Some k' /\ c_transport k' = Tls /\
     (writing k' = true -> writing k = true /\ queue k `prefix_of` queue k')) -> flows c m m'.
Proof.
  intros Hs H k Hk Ht. destruct (H k Hk Ht) as (k' & Hk' & Ht' & Hw). exists k'. split_and!; [done..|].
  intros Hw'. destruct (Hw Hw') as [? Hq]. split; [done|]. unfold flow, waiting. rewrite Hs, Hk, Hk'. by apply prefix_app.
Qed.

Lemma flows_same c m m' : emitted m' = emitted m -> conns m' = conns m -> flows c m m'.
Proof.
  intros He Hc. apply flows_keep; [unfold sent_on; by rewrite He|]. rewrite Hc. intros k Hk Ht. by exists k.
Qed.

Lemma flows_on c c' f m :
  (forall k, c_transport (f k) = c_transport k /\ (c_transport k = Tls -> writing (f k) = true -> writing k = true /\ queue k `prefix_of` queue (f k))) ->
  flows c m (on_conn c' f m).
Proof.
  intros Hf. apply flows_keep; [done|]. intros k Hk Ht. unfold on_conn. cbn. destruct (decide (c = c')) as [->|Hn].
  - exists (f k). rewrite lookup_alter_eq, Hk. destruct (Hf k) as [E H]. split_and!; [done|by rewrite E|by apply H].
  - exists k. by rewrite lookup_alter_ne.
Qed.

Lemma flows_open c p t q m : numbered m -> flows c m (open p t q m).2.
Proof.
  intros Hn. apply flows_keep; [done|]. intros k Hk Ht. exists k. split; [|done]. cbn.
  rewrite lookup_insert_ne; [done|]. specialize (Hn c k Hk). lia.
Qed.

(** A write elsewhere: over UDP, over another connection, or not over TLS. *)
Lemma flows_emit c on d x m :
  (forall k, on = Some c -> conns m !! c = Some k -> c_transport k <> Tls) -> flows c m (emit on d x m).
Proof.
  intros H k Hk Ht. exists k. split_and!; [done..|]. intros Hw. split; [done|]. unfold flow, sent_on, waiting. cbn.
  rewrite omap_app. cbn. rewrite bool_decide_eq_false_2 by (intros E; by apply (H k E Hk)). by rewrite app_nil_r.
Qed.

Lemma flows_emit_some n c on d x m :
  (forall k, on = Some c -> conns m !! c = Some k -> c_transport k <> Tls) -> flows c m (emit_some n on d x m).
Proof. intros H. unfold emit_some. case_match; [by apply flows_same|by apply flows_emit]. Qed.

Lemma flows_writer_fails c c' m : flows c m (writer_fails c' m).
Proof. apply flows_on. intros k. cbv zeta. by case_match. Qed.

Lemma flows_write r c c' k x m :
  (forall k', c' = c -> conns m !! c = Some k' -> c_transport k' <> Tls) -> flows c m (write r c' k x m).
Proof.
  intros H. assert (H' : forall k', Some c' = Some c -> conns m !! c = Some k' -> c_transport k' <> Tls) by (intros k' [= ->]; by apply H).
  destruct r; cbn [write]; [by apply flows_emit|..].
  all: exact (flows_trans _ _ _ _ (flows_emit_some _ c (Some c') (peer k) x m H') (flows_writer_fails c c' _)).
Qed.

Lemma flows_end c c' m : flows c m (end_of_stream c' m).
Proof.
  unfold end_of_stream. destruct (conns m !! c') as [k|]; [|by apply flows_same]. case_match; [|by apply flows_same].
  eapply flows_trans; [by apply (flows_on c c' (fun k => k <| reading := false |> <| closed := true |>))|].
  case_match; by apply flows_same.
Qed.

Lemma start_listeners_same bind certs cs (m : TransportManager) :
  emitted (start_listeners bind certs cs m).2 = emitted m /\ conns (start_listeners bind certs cs m).2 = conns m.
Proof.
  revert m. induction cs as [|c cs IH]; intros m; [done|]. cbn [start_listeners].
  assert (H : emitted (start_listener bind certs c m).2 = emitted m /\ conns (start_listener bind certs c m).2 = conns m)
    by (unfold start_listener; repeat case_match; by simplify_eq).
  destruct (start_listener bind certs c m) as [[[]|e] m1]; [|done]. cbn [snd] in H. destruct H as [<- <-]. apply IH.
Qed.

(** The write of the head of the queue. *)
Lemma flows_write_next r c c' m : flows c m (write_next r c' m).
Proof.
  unfold write_next. destruct (conns m !! c') as [k|] eqn:Hk; [|by apply flows_same].
  destruct (writing k) eqn:Hw; [|by apply flows_same]. destruct (queue k) as [|d rest] eqn:Hq; [by apply flows_same|].
  set (m1 := on_conn c' (fun k => k <| queue := rest |>) m). destruct (decide (c = c')) as [->|Hn].
  - intros k0 Hk0 Ht. rewrite Hk in Hk0. injection Hk0 as <-. rewrite Ht. cbn [is_ws andb]. destruct r; cbn [write].
    1: { eexists. split; [cbn; by rewrite lookup_alter_eq, Hk|]. split; [done|]. intros _. split; [done|].
      unfold flow, sent_on, waiting. cbn. rewrite lookup_alter_eq, Hk. cbn. rewrite Hq, omap_app. cbn.
      rewrite bool_decide_eq_true_2 by done. by rewrite <- app_assoc. }
    all: assert (Hc : conns (emit_some n (Some c') (peer k) d m1) = conns m1) by (unfold emit_some; by case_match).
    all: eexists; (split; [unfold writer_fails, on_conn; cbn [conns set_field]; rewrite Hc; unfold m1, on_conn; cbn; by rewrite !lookup_alter_eq, Hk|]).
    all: by destruct (bool_decide _).
  - assert (H1 : flows c m m1).
    { apply flows_keep; [done|]. intros k0 Hk0 Ht. exists k0. split; [|done]. unfold m1, on_conn. cbn. by rewrite lookup_alter_ne. }
    case_match; [exact H1|]. eapply flows_trans; [exact H1|]. by apply flows_write.
Qed.

Lemma flows_write_pong r c c' m : flows c m (write_pong r c' m).
Proof.
  unfold write_pong. destruct (conns m !! c') as [k|] eqn:Hk; [|by apply flows_same].
  destruct (is_ws (c_transport k)) eqn:Hws; [|by apply flows_same]. case_match; [|by apply flows_same].
  destruct (pongs k) as [|b rest]; [by apply flows_same|].
  eapply flows_trans; [apply (flows_on c c' (fun k => k <| pongs := rest |>)); by intros k'|]. apply flows_write.
  intros k' -> . cbn. rewrite lookup_alter_eq, Hk. intros [= <-]. cbn. by intros E; rewrite E in Hws.
Qed.

Lemma flows_ws c c' f m : flows c m (ws_frame parse lossy c' f m).
Proof.
  unfold ws_frame, forward. destruct (conns m !! c') as [k|]; [|by apply flows_same]. case_match; [|by apply flows_same].
  destruct f; repeat case_match; try (by apply flows_same); [by apply flows_on|apply flows_end].
Qed.

Lemma flows_enqueue c c' x m : flows c m (enqueue c' x m).
Proof. apply flows_on. intros k. split; [done|]. intros _ Hw. split; [done|]. by apply prefix_app_r. Qed.

Lemma flows_tcp_connection io dest c m : numbered m -> flows c m (tcp_connection io dest m).2.
Proof.
  intros Hn. unfold tcp_connection. destruct (tcp_connections m !! dest ≫= _); [by apply flows_same|].
  destruct (io_connect io); [|by apply flows_same].
  eapply flows_trans; [exact (flows_open c dest Tcp None (m <| tcp_connections := delete dest (tcp_connections m) |>) Hn)|].
  by apply flows_same.
Qed.

Lemma flows_send_tcp io data dest c m : pools m -> flows c m (send_tcp io data dest m).2.
Proof.
  intros Hp. assert (H1 := flows_tcp_connection io dest c m (proj2 (proj2 Hp))). unfold send_tcp.
  destruct (tcp_connection io dest m) as [[c1|e] m1] eqn:E1; [|exact H1]. eapply flows_trans; [exact H1|]. clear H1.
  apply tcp_connection_spec in E1 as (_ & _ & _ & _ & k & Hk & Hkt & _); [|done].
  assert (Hno : forall k', Some c1 = Some c -> conns m1 !! c = Some k' -> c_transport k' <> Tls) by (intros k' [= ->]; congruence).
  unfold tcp_write. destruct (io_write io); cbn [snd]; [by apply flows_emit|..].
  all: refine (flows_trans _ _ _ _ (flows_emit_some _ c (Some c1) dest data m1 Hno) _).
  - by apply flows_same.
  - eapply flows_trans; [by apply (flows_on c c1 (fun k => k <| closed := true |>))|]. by apply flows_same.
Qed.

Lemma flows_send io data dest t c m : pools m -> flows c m (send io data dest t m).2.
Proof.
  intros (Ht & Hl & Hn). destruct t; try (by apply flows_same).
  - unfold Transports.send, send_udp. repeat case_match; try (by apply flows_same). by apply flows_emit.
  - by apply flows_send_tcp.
  - assert (Hs : forall c' m, flows c m (tls_send c' data m).2) by (intros c' m1; unfold tls_send; repeat case_match; try apply flows_enqueue; by apply flows_same).
    assert (Hc : forall m, numbered m -> flows c m (connect_tls valid_name io data dest m).2).
    { intros m1 Hn1. unfold connect_tls. destruct (tls_params m1 !! dest) as [[p cfg]|]; [|by apply flows_same].
      destruct (negb (valid_name (sni p))); [by apply flows_same|]. destruct (io_connect io); [|by apply flows_same].
      eapply flows_trans; [exact (flows_open c dest Tls (Some p) m1 Hn1)|]. eapply flows_trans; [|apply Hs]. by apply flows_same. }
    unfold Transports.send, send_tls. destruct (tls_connections m !! dest ≫= _) as [[c1 k]|]; [|by apply Hc].
    destruct (negb (tls_is_closed k)); [apply Hs|]. eapply flows_trans; [|by apply Hc]. by apply flows_same.
Qed.

Lemma flows_step o c m : pools m -> flows c m (step o m).
Proof.
  intros Hp. destruct o; cbn [Transports.step]; try (by apply flows_same).
  - unfold datagram. repeat case_match; by apply flows_same.
  - by apply flows_open, Hp.
  - unfold read_chunk. destruct (conns m !! c0) as [k|] eqn:Hk; [|by apply flows_same]. case_match; [|by apply flows_same].
    apply flows_keep; [done|]. intros k0 Hk0 Ht. cbn. destruct (decide (c = c0)) as [->|Hne].
    + rewrite lookup_insert_eq. rewrite Hk in Hk0. injection Hk0 as <-. by eexists.
    + rewrite lookup_insert_ne by done. by exists k0.
  - apply flows_end.
  - apply flows_ws.
  - apply flows_write_next.
  - apply flows_write_pong.
  - apply flows_same; apply start_listeners_same.
  - unfold register_tls_destination. case_match; by apply flows_same.
  - by apply flows_send.
  - unfold Transports.reply. destruct tx as [c'|]; [case_match|]; [apply flows_enqueue|by apply flows_send..].
  - unfold recv_message. case_match; by apply flows_same.
Qed.

Lemma flows_run ops c m : pools m -> flows c m (run ops m).
Proof.
  revert m. induction ops as [|o ops IH]; intros m Hp; [by apply flows_same|].
  eapply flows_trans; [by apply flows_step|]. by apply IH, pools_step.
Qed.

(** C32: whatever the manager has done, a message it sends goes over the transport
    asked for and to the address asked for. Over UDP it leaves once, or the send
    fails and nothing leaves. Over TCP it is written once, on the live
    connection to that address that the pool holds; a write that fails may have
    written a beginning of it, on a connection to that address that the pool
    then no longer hands out. Over TLS it is queued once on a live connection to
    that address made with the parameters now registered for it, or the send
    fails and nothing is queued, never sent in clear; and whatever happens
    later, as long as the task that writes to that connection lives, the message
    is written after all that was queued there before it and before all that is
    queued after, or still waits at that place. *)
Theorem sent_on_its_transport ops io data dest t r m' (m := run ops new) :
  send io data dest t m = (r, m') ->
  sent_over t dest data r m m' /\
  (t = Tls -> r = Ok tt -> forall c later, tls_connections m' !! dest = Some c -> writes (run later m') c ->
     flow m c ++ [data] `prefix_of` flow (run later m') c).
Proof.
  intros H. assert (Hp := pools_run ops new pools_new). apply send_spec in H as [Hp' Hs]; [|exact Hp]. split; [done|].
  intros -> -> c later Hc (k' & Hk' & Hw).
  destruct Hs as (He & c1 & k & p & cfg & Hpool & Hk & Ht & _ & _ & _ & _ & _ & Hq). rewrite Hpool in Hc. injection Hc as ->.
  destruct (flows_run later c m' Hp' k Hk Ht) as (k2 & Hk2 & _ & Hf). rewrite Hk' in Hk2. injection Hk2 as <-.
  destruct (Hf Hw) as [_ P]. etrans; [|exact P]. unfold flow, sent_on. rewrite He, Hq, bool_decide_eq_true_2 by done.
  by rewrite <- app_assoc.
Qed.
End pools.

(** ** Connections do not mix *)

Section streams.
Context {Sip Config : Type} (parse : string -> option Sip) (lossy : string -> string).
Context (build_client_config : TlsClientParams -> sbc_result Config) (valid_name : string -> bool).

Abbreviation TransportManager := (TransportManager Sip Config).
Abbreviation step := (step parse lossy build_client_config valid_name).
Abbreviation run := (run parse lossy build_client_config valid_name).

(** What is read of a connection: from its opening to the end of its stream. *)
Definition opened (c : nat) (m : TransportManager) : bool := bool_decide (is_Some (conns m !! c)).

Definition fed_by (c : nat) (o : Op) (m : TransportManager) : list string :=
  match o with Chunk c' d => if bool_decide (c' = c) && opened c m then [d] else [] | _ => [] end.

Definition ends (c : nat) (o : Op) (m : TransportManager) : bool :=
  match o with Eof c' => bool_decide (c' = c) && opened c m | _ => false end.

Fixpoint fed (c : nat) (ops : list Op) (m : TransportManager) : list string :=
  match ops with
  | [] => []
  | o :: ops => fed_by c o m ++ (if ends c o m then [] else fed c ops (step o m))
  end.

Definition of_conn (c : nat) (r : ReceivedMessage Sip) : bool := bool_decide (reply_tx r = Some c).
Definition heard (c : nat) (m : TransportManager) : list (ReceivedMessage Sip) := List.filter (of_conn c) (inbox m).
Definition as_received (c : nat) (p : SocketAddr) (t : Transport) (msg : Sip) : ReceivedMessage Sip :=
  mkReceived msg p t (Some c).

Definition view (m : TransportManager) (c : nat) : option (SocketAddr * Transport * Framing.Reader Sip * bool) :=
  (fun k => (peer k, c_transport k, reader k, reading k)) <$> conns m !! c.

(** What the event loop was given of a connection is what the framer makes of
    what was read of it; it is read until its stream ends ([e]) or cannot be
    framed. *)
Definition apart (c : nat) (e : bool) (chunks : list string) (m : TransportManager) : Prop :=
  match view m c with
  | None => chunks = [] /\ e = false /\ heard c m = []
  | Some (p, t, r, rd) =>
      if is_stream t
      then r = Framing.handle_connection parse chunks /\ rd = negb e && bool_decide (Framing.closed r = None) /\
           heard c m = map (as_received c p t) (Framing.received r)
      else True
  end.

Definition grows (m m' : TransportManager) : Prop :=
  inbox m' = inbox m /\
  forall c, view m' c = view m c \/ (view m c = None /\ exists p t, view m' c = Some (p, t, Framing.new_reader, true)).

Lemma apart_grows c e chunks m m' : grows m m' -> apart c e chunks m -> apart c e chunks m'.
Proof.
  intros [Hi Hv] H. unfold apart, heard in *. rewrite Hi.
  destruct (Hv c) as [-> | [Hn (p & t & ->)]]; [done|]. rewrite Hn in H. destruct H as (-> & -> & ->). by destruct (is_stream t).
Qed.

Lemma grows_same m m' : inbox m' = inbox m -> (forall c, view m' c = view m c) -> grows m m'.
Proof. intros Hi Hv. split; [done|]. intros c. by left. Qed.

Lemma grows_conns m m' : inbox m' = inbox m -> conns m' = conns m -> grows m m'.
Proof. intros Hi Hc. apply grows_same; [done|]. intros c. unfold view. by rewrite Hc. Qed.

Lemma grows_trans m1 m2 m3 : grows m1 m2 -> grows m2 m3 -> grows m1 m3.
Proof.
  intros [Hi Hv] [Hi' Hv']. split; [by rewrite Hi'|]. intros c.
  destruct (Hv' c) as [E|[E (p & t & E')]]; rewrite ?E, ?E'; destruct (Hv c) as [F|[F (q & u & F')]]; rewrite ?F, ?F'.
  - by left.
  - right. split; [done|]. by exists q, u.
  - right. split; [by rewrite <- F|]. by exists p, t.
  - by rewrite F' in E.
Qed.

Lemma grows_alter f c m :
  (forall k, peer (f k) = peer k /\ c_transport (f k) = c_transport k /\ reader (f k) = reader k /\ reading (f k) = reading k) ->
  grows m (on_conn c f m).
Proof.
  intros Hf. apply grows_same; [done|]. intros c'. unfold view, on_conn. cbn. destruct (decide (c' = c)) as [->|Hn].
  - rewrite lookup_alter_eq. destruct (conns m !! c) as [k|]; [|done]. cbn. by destruct (Hf k) as (-> & -> & -> & ->).
  - by rewrite lookup_alter_ne.
Qed.

Lemma grows_open p t q m : numbered m -> grows m (open p t q m).2.
Proof.
  intros Hn. split; [done|]. intros c. unfold view. cbn. destruct (decide (c = next_conn m)) as [->|Hc].
  - right. rewrite lookup_insert_eq. split; [|by exists p, t]. destruct (conns m !! next_conn m) as [k|] eqn:E; [|done].
    specialize (Hn _ _ E). lia.
  - left. by rewrite lookup_insert_ne.
Qed.

Lemma grows_refl m : grows m m.
Proof. by apply grows_conns. Qed.

Lemma grows_emit_some n on d x m : grows m (emit_some n on d x m).
Proof. unfold emit_some. case_match; by apply grows_conns. Qed.

Lemma grows_write r c k x m : grows m (write r c k x m).
Proof.
  destruct r; [by apply grows_conns|..].
  all: eapply grows_trans; [apply grows_emit_some|]; apply grows_alter; intros k'; cbv zeta; by case_match.
Qed.

Lemma grows_next r c m : grows m (write_next r c m).
Proof.
  unfold write_next. repeat case_match; try apply grows_refl; [by apply grows_alter|].
  eapply grows_trans; [|apply grows_write]. by apply grows_alter.
Qed.

Lemma grows_pong r c m : grows m (write_pong r c m).
Proof.
  unfold write_pong. repeat case_match; try apply grows_refl. eapply grows_trans; [|apply grows_write]. by apply grows_alter.
Qed.

Lemma grows_send_tls io data dest m : numbered m -> grows m (send_tls valid_name io data dest m).2.
Proof.
  intros Hn.
  assert (Ht : forall c m, grows m (tls_send c data m).2)
    by (intros c m1; unfold tls_send; repeat case_match; try apply grows_refl; by apply grows_alter).
  assert (Hc : forall m, numbered m -> grows m (connect_tls valid_name io data dest m).2).
  { intros m1 Hn1. unfold connect_tls. destruct (tls_params m1 !! dest) as [[p cfg]|]; [|apply grows_refl].
    repeat (case_match; [apply grows_refl || idtac|]); try apply grows_refl.
    eapply grows_trans; [by apply (grows_open dest Tls (Some p))|]. eapply grows_trans; [|apply Ht]. by apply grows_conns. }
  unfold send_tls. case_match; [|by apply Hc]. case_match. case_match; [apply Ht|].
  eapply grows_trans; [|apply Hc; exact Hn]. by apply grows_conns.
Qed.

Lemma grows_send_tcp io data dest m : numbered m -> grows m (send_tcp io data dest m).2.
Proof.
  intros Hn. unfold send_tcp.
  assert (Hc : grows m (tcp_connection io dest m).2).
  { unfold tcp_connection. case_match; [apply grows_refl|]. case_match; [|by apply grows_conns].
    eapply grows_trans; [|eapply grows_trans; [apply (grows_open dest Tcp None (m <| tcp_connections := delete dest (tcp_connections m) |>)); exact Hn|]];
      by apply grows_conns. }
  destruct (tcp_connection io dest m) as [[c|e] m1]; [|done]. cbn [snd] in Hc. unfold tcp_write.
  destruct (io_write io) as [|n|n]; cbn [snd]; (eapply grows_trans; [exact Hc|]); [by apply grows_conns|..];
    (eapply grows_trans; [apply (grows_emit_some n (Some c) dest data)|]); [by apply grows_conns|].
  eapply grows_trans; [by apply (grows_alter (fun k => k <| closed := true |>) c)|]. by apply grows_conns.
Qed.

Lemma grows_send io data dest t m : numbered m -> grows m (send valid_name io data dest t m).2.
Proof.
  intros Hn. destruct t; try apply grows_refl; [| by apply grows_send_tcp|by apply grows_send_tls].
  unfold send, send_udp. repeat case_match; by apply grows_conns.
Qed.

Lemma grows_reply io data dest t tx m : numbered m -> grows m (reply valid_name io data dest t tx m).2.
Proof.
  intros Hn. unfold reply. destruct tx as [c|]; [destruct (channel_open c m)|]; try by apply grows_send.
  by apply grows_alter.
Qed.

Lemma grows_listeners b certs cs m : grows m (start_listeners b certs cs m).2.
Proof.
  revert m. induction cs as [|c cs IH]; intros m; [apply grows_refl|]. cbn [start_listeners].
  assert (H : grows m (start_listener b certs c m).2)
    by (unfold start_listener; repeat case_match; simplify_eq; by apply grows_conns).
  destruct (start_listener b certs c m) as [[[]|e] m1]; [|done]. by eapply grows_trans.
Qed.

(** A message heard elsewhere. *)
Lemma apart_push c e chunks r m : of_conn c r = false -> apart c e chunks m -> apart c e chunks (push r m).
Proof.
  intros Hr H. unfold apart, heard in *. change (view (push r m) c) with (view m c). cbn [push inbox set_field].
  rewrite List.filter_app. cbn [List.filter]. rewrite Hr, app_nil_r. exact H.
Qed.

Lemma apart_ends c c' e chunks m :
  apart c e chunks m -> apart c (e || ends c (Eof c') m) chunks (end_of_stream c' m).
Proof.
  intros H. unfold ends, opened, end_of_stream. destruct (conns m !! c') as [k|] eqn:Hk.
  2: { destruct (decide (c' = c)) as [->|Hn]; [rewrite Hk|]; by rewrite ?andb_false_r, ?(bool_decide_eq_false_2 (c' = c)), orb_false_r. }
  assert (Hv : view (if reading k then on_conn c' (fun k => k <| reading := false |> <| closed := true |>) m else m) c
    = if bool_decide (c' = c) then Some (peer k, c_transport k, reader k, false) else view m c).
  { case_bool_decide as E; [subst c'|]; (destruct (reading k) eqn:Hr; unfold view, on_conn; cbn);
      rewrite ?lookup_alter_eq, ?Hk, ?lookup_alter_ne by done; cbn; by rewrite ?Hr. }
  assert (Hsame : forall m', inbox m' = inbox m -> view m' c = (if bool_decide (c' = c) then Some (peer k, c_transport k, reader k, false) else view m c) ->
    apart c (e || (bool_decide (c' = c) && bool_decide (is_Some (conns m !! c)))) chunks m').
  { intros m' Hi Hv'. unfold apart, heard in *. rewrite Hi, Hv'. case_bool_decide as E; [subst c'|by rewrite orb_false_r].
    unfold view in H. rewrite Hk in *. cbn in *. rewrite orb_true_r. destruct (is_stream (c_transport k)); tauto. }
  destruct (reading k); [destruct (is_ws (c_transport k))|]; by apply Hsame.
Qed.

Lemma apart_ws c e chunks c' f m : apart c e chunks m -> apart c e chunks (ws_frame parse lossy c' f m).
Proof.
  intros H. unfold ws_frame. destruct (conns m !! c') as [k|] eqn:Hk; [|done].
  destruct (is_ws (c_transport k)) eqn:Hw; [|done]. destruct (reading k); [|done]. cbn [andb].
  assert (Hno : is_stream (c_transport k) = false) by by destruct (c_transport k).
  assert (Hf : forall s, apart c e chunks (forward parse c' k s m)).
  { intros s. unfold forward. destruct (parse s) as [msg|]; [|done]. destruct (decide (c' = c)) as [->|Hn].
    - unfold apart in *. change (view (push _ m) c) with (view m c). unfold view. rewrite Hk. cbn. by rewrite Hno.
    - apply apart_push; [|done]. apply bool_decide_eq_false. cbn. congruence. }
  destruct f; [apply Hf..| | |done].
  - destruct (writing k); [|done]. eapply apart_grows; [|exact H]. by apply grows_alter.
  - destruct (decide (c' = c)) as [->|Hn].
    + assert (Hs := same_lookup m (end_of_stream c m) c k (proj1 (quiet_end c m)) Hk). destruct Hs as (k' & Hk' & _ & Ht & _).
      unfold apart, view. rewrite Hk'. cbn. by rewrite Ht, Hno.
    + apply (apart_ends c c') in H. cbn [ends] in H. by rewrite bool_decide_eq_false_2, orb_false_r in H.
Qed.

Lemma read_extends data (r : Framing.Reader Sip) :
  Framing.received (Framing.read parse data r)
  = Framing.received r ++ drop (length (Framing.received r)) (Framing.received (Framing.read parse data r)).
Proof.
  assert (H : exists l, Framing.received (Framing.read parse data r) = Framing.received r ++ l).
  { unfold Framing.read. destruct (Framing.closed r); [exists []; by rewrite app_nil_r|].
    destruct (Framing.drain_all _) as [[frames b] why]. cbn. by eexists. }
  destruct H as [l ->]. by rewrite drop_app_length.
Qed.

Lemma heard_fresh c c' p t l :
  List.filter (of_conn c) (map (as_received c' p t) l) = if bool_decide (c' = c) then map (as_received c' p t) l else [].
Proof.
  induction l as [|x l IH]; [by case_match|]. cbn [map List.filter]. rewrite IH.
  change (of_conn c (as_received c' p t x)) with (bool_decide (Some c' = Some c)).
  destruct (decide (c' = c)) as [->|Hn]; [by rewrite !bool_decide_eq_true_2|].
  rewrite !bool_decide_eq_false_2; [done|done|congruence].
Qed.

Lemma apart_chunk c e chunks c' d m :
  apart c e chunks m -> apart c e (chunks ++ (if e then [] else fed_by c (Chunk c' d) m)) (read_chunk parse c' d m).
Proof.
  intros H. unfold fed_by, opened, read_chunk. destruct (decide (c' = c)) as [->|Hn].
  - rewrite bool_decide_eq_true_2 by done. cbn [andb]. unfold apart, view, heard in *.
    destruct (conns m !! c) as [k|] eqn:Hk; [|by rewrite Hk; destruct e; rewrite ?app_nil_r].
    rewrite (bool_decide_eq_true_2 (is_Some (Some k))) by done. cbn [fmap option_fmap option_map] in *. destruct (is_stream (c_transport k)) eqn:Hs; cbn [andb].
    2: { rewrite Hk. cbn. by rewrite Hs. }
    destruct H as (Hr & Hrd & Hh). destruct (reading k) eqn:Hk'.
    + destruct e; [done|]. cbn [conns inbox set_field]. rewrite lookup_insert_eq. cbn. rewrite Hs. split_and!.
      * rewrite Hr at 1. unfold Framing.handle_connection. by rewrite fold_left_app.
      * by destruct (Framing.closed (Framing.read parse d (reader k))).
      * rewrite List.filter_app, Hh. change (fun msg => mkReceived msg (peer k) (c_transport k) (Some c)) with (as_received c (peer k) (c_transport k)).
        rewrite heard_fresh, bool_decide_eq_true_2, <- map_app by done. f_equal. symmetry. apply read_extends.
    + rewrite Hk. cbn. rewrite Hs, Hk'. destruct e; [by rewrite app_nil_r|]. cbn [negb andb] in Hrd. split_and!; [|done|done].
      unfold Framing.handle_connection in *. rewrite fold_left_app, <- Hr. cbn. unfold Framing.read.
      destruct (Framing.closed (reader k)); [done|]. by rewrite bool_decide_eq_true_2 in Hrd.
  - rewrite bool_decide_eq_false_2 by done. cbn [andb]. replace (if e then [] else []) with (@nil string) by by destruct e.
    rewrite app_nil_r. destruct (conns m !! c') as [k|] eqn:Hk; [|done]. case_match; [|done].
    unfold apart, view, heard in *. cbn [conns inbox set_field]. rewrite lookup_insert_ne by done. rewrite List.filter_app.
    change (fun msg => mkReceived msg (peer k) (c_transport k) (Some c')) with (as_received c' (peer k) (c_transport k)).
    by rewrite heard_fresh, bool_decide_eq_false_2, app_nil_r.
Qed.

Lemma apart_step c e chunks o m : pools m -> apart c e chunks m ->
  apart c (e || ends c o m) (chunks ++ (if e then [] else fed_by c o m)) (step o m).
Proof.
  intros (_ & _ & Hn) H.
  destruct o; try (rewrite orb_false_r; by apply apart_chunk); cbn [fed_by ends]; replace (if e then [] else []) with (@nil string) by (by destruct e);
    rewrite ?app_nil_r; try (by apply apart_ends); rewrite orb_false_r; cbn [Transports.step].
  - unfold datagram. case_match; [done|]. case_match; [|done]. by apply apart_push.
  - eapply apart_grows; [by apply grows_open|exact H].
  - by apply apart_ws.
  - eapply apart_grows; [apply grows_next|exact H].
  - eapply apart_grows; [apply grows_pong|exact H].
  - eapply apart_grows; [by apply grows_conns|exact H].
  - eapply apart_grows; [apply grows_listeners|exact H].
  - unfold register_tls_destination. case_match; [|done]. eapply apart_grows; [by apply grows_conns|exact H].
  - eapply apart_grows; [by apply grows_send|exact H].
  - eapply apart_grows; [by apply grows_reply|exact H].
  - unfold recv_message. case_match; [|done]. eapply apart_grows; [by apply grows_conns|exact H].
  - eapply apart_grows; [by apply grows_conns|exact H].
Qed.

(** Once its stream has ended nothing more is read of a connection. *)
Lemma apart_over c ops chunks m : pools m -> apart c true chunks m -> apart c true chunks (run ops m).
Proof.
  revert m. induction ops as [|o ops IH]; intros m Hp H; [done|]. apply IH; [by apply pools_step|].
  apply (apart_step c true chunks o m Hp) in H. by rewrite app_nil_r in H.
Qed.

Lemma apart_run c ops chunks m : pools m -> apart c false chunks m -> exists e, apart c e (chunks ++ fed c ops m) (run ops m).
Proof.
  revert chunks m. induction ops as [|o ops IH]; intros chunks m Hp H; [exists false; by rewrite app_nil_r|].
  apply (apart_step c false chunks o m Hp) in H. cbn [fed orb] in *. destruct (ends c o m).
  - exists true. rewrite app_nil_r. exact (apart_over c ops _ _ (pools_step _ _ _ _ o m Hp) H).
  - rewrite app_assoc. exact (IH _ _ (pools_step _ _ _ _ o m Hp) H).
Qed.

(** C33: the messages the event loop is given of a TCP or TLS connection are those
    that the framer and the parser make of what arrived on that connection alone
    from its opening to the end of its stream, in their order, with the address
    of its peer and a reply channel that is the connection itself, whatever else
    the transports do in between: other connections and their ends, datagrams,
    sends and writes that fail or time out, on this connection too, new TLS
    parameters. *)
Theorem connections_do_not_mix ops c k (m := run ops new) :
  conns m !! c = Some k -> is_stream (c_transport k) = true ->
  heard c m = map (as_received c (peer k) (c_transport k))
                (Framing.received (Framing.handle_connection parse (fed c ops new))).
Proof.
  intros Hk Hs. assert (H : apart c false [] (@new Sip Config)) by by unfold apart, view.
  apply (apart_run c ops) in H as [e H]; [|apply pools_new]. fold m in H. unfold apart, view in H. rewrite Hk in H. cbn in H.
  rewrite Hs in H. destruct H as (-> & _ & H). exact H.
Qed.
End streams.

(** ** What a failed registration leaves *)

(** Parameters that cannot be built leave the destination as it was: the old
    ones and the connection made with them stay in use. *)
Lemma failed_registration_keeps {Sip Config} (build : TlsClientParams -> sbc_result Config) dest p e (m : TransportManager Sip Config) :
  build p = Err e -> register_tls_destination build dest p m = (Err e, m).
Proof. intros H. unfold register_tls_destination. by rewrite H. Qed.

(** ** Instances *)

Module Witness.
Definition trunk : SocketAddr := mkAddr (V4 [203; 0; 113; 7]) 5061.
Definition phone : SocketAddr := mkAddr (V4 [192; 0; 2; 9]) 40000.
Definition whole (s : string) : option string := Some s.
Definition as_is (s : string) : string := s.
Definition build (p : TlsClientParams) : sbc_result string := Ok (sni p).
Definition named (s : string) : bool := negb (seqb s "").
Definition params_of (n : string) : TlsClientParams := mkTlsParams n None true None None.
Definition up : Io := mkIo true true Written.
Definition stuck : Io := mkIo true true (WriteTimedOut 2).

(** A registration, a message that leaves, a new registration. *)
Definition reloaded : list Op :=
  [RegisterTls trunk (params_of "a"); Send up "one" trunk Tls; WriteNext Written 0; RegisterTls trunk (params_of "b")].

(** Two more messages, one of which leaves. *)
Definition later : list Op := [Send up "three" trunk Tls; WriteNext Written 1; Eof 0].

Lemma sent_on_its_transport_witness :
  let m := run whole as_is build named reloaded new in
  let '(r, m') := send named up "two" trunk Tls m in
  let m2 := run whole as_is build named later m' in
  r = Ok tt /\ sent_over Tls trunk "two" r m m' /\
  (flow m 1 ++ ["two"]) `prefix_of` flow m2 1 /\
  emitted m2 = [mkEmission (Some 0%nat) trunk "one"; mkEmission (Some 1%nat) trunk "two"] /\ waiting m2 1 = ["three"] /\
  (send named up "x" phone Tls m').1 = Err (ETransport "no TLS parameters registered") /\
  tcp_connections (send named stuck "message" phone Tcp m').2 = ∅ /\
  sent_on 2 (send named stuck "message" phone Tcp m').2 = ["me"].
Proof.
  cbv zeta. destruct (send named up "two" trunk Tls (run whole as_is build named reloaded new)) as [r m'] eqn:E.
  assert (H := sent_on_its_transport whole as_is build named reloaded up "two" trunk Tls r m' E).
  destruct H as [H1 H2]. vm_compute in E. injection E as <- <-.
  split_and!; [done|exact H1| |by vm_compute..].
  apply (H2 eq_refl eq_refl 1%nat later); [by vm_compute|]. eexists. split; by vm_compute.
Defined.

Definition part1 : string := "OPTIONS sip:h SIP/2.0" +:+ CRLF +:+ "Content-Le".
Definition part2 : string := "ngth: 2" +:+ CRLF +:+ CRLF +:+ "hi".
Definition other : string := "BYE sip:h SIP/2.0" +:+ CRLF +:+ CRLF.

(** Two connections read in turn, one to the phone whose write then times out, a
    datagram between them. *)
Definition interleaved : list Op :=
  [Send up "hello" phone Tcp; Accept trunk Tls; Chunk 0 part1; Send stuck "again" phone Tcp; Chunk 1 other; Datagram "x" phone;
   Eof 1; Chunk 1 other; Chunk 0 part2].

Lemma connections_do_not_mix_witness :
  let m := run whole as_is build named interleaved new in
  heard 0 m = [mkReceived (part1 +:+ part2) phone Tcp (Some 0%nat)] /\
  heard 1 m = [mkReceived other trunk Tls (Some 1%nat)] /\ length (inbox m) = 3%nat.
Proof.
  cbv zeta. assert (H := fun c k => connections_do_not_mix whole as_is build named interleaved c k).
  split_and!; [|by vm_compute..].
  destruct (conns (run whole as_is build named interleaved new) !! 0%nat) as [k|] eqn:Hk; [|by vm_compute in Hk].
  assert (Hp : peer k = phone /\ c_transport k = Tcp) by (vm_compute in Hk; by injection Hk as <-).
  destruct Hp as [Hp Ht]. rewrite (H 0%nat k Hk), Hp, Ht; [|by rewrite Ht]. by vm_compute.
Defined.
End Witness.
