(* ===== verification/Window.v ===== *)
(** * Sliding windows

    Queues of times, oldest first, as the ban and call-rate counters keep them
    ([security/ban.rs], [security/user_limits.rs]). *)

From S2P Require Import Prelude.

(** Drop from the front the times older than [window]. *)
Fixpoint drop_stale (now window : Z) (times : list Z) : list Z :=
  match times with
  | [] => []
  | t :: rest => if window <? duration_since now t then drop_stale now window rest else times
  end.

(** [back().is_none_or(..)]: no time, or the last one is older than [window]. *)
Definition idle (now window : Z) (times : list Z) : bool :=
  match last times with Some t => window <? duration_since now t | None => true end.

Definition recent (now window t : Z) : bool := negb (window <? duration_since now t).

Lemma drop_stale_filter now window times :
  StronglySorted Z.le times -> drop_stale now window times = List.filter (recent now window) times.
Proof.
  induction 1 as [|t times Hs IH Ht]; [done|]. simpl. unfold recent at 1. destruct (window <? _) eqn:E; simpl; [done|].
  f_equal. symmetry. apply forallb_filter_id. apply forallb_forall. intros x Hx.
  rewrite Forall_forall in Ht. specialize (Ht x ltac:(by apply list_elem_of_In)). unfold recent, duration_since in *.
  to_prop. apply negb_true_iff, Z.ltb_ge. ulia.
Qed.

Lemma drop_stale_length now window times : (length (drop_stale now window times) <= length times)%nat.
Proof. induction times as [|t times IH]; simpl; [done|]. case_test; simpl; lia. Qed.

Lemma drop_stale_suffix now window times : exists old, times = old ++ drop_stale now window times.
Proof.
  induction times as [|t times [old IH]]; simpl; [by exists []|]. case_test; [|by exists []].
  exists (t :: old). by rewrite IH at 1.
Qed.

Lemma sorted_snoc (l : list Z) x : StronglySorted Z.le l -> Forall (fun t => t <= x) l -> StronglySorted Z.le (l ++ [x]).
Proof.
  induction 1 as [|t l Hs IH Ht]; intros Hx; [repeat constructor|]. inversion_clear Hx. simpl. constructor; [auto|].
  apply Forall_app. split; [done|by repeat constructor].
Qed.

Lemma sorted_drop (l : list Z) now w : StronglySorted Z.le l -> StronglySorted Z.le (drop_stale now w l).
Proof. induction 1 as [|t l Hs IH Ht]; simpl; [constructor|]. case_test; [done|by constructor]. Qed.
