(* ===== verification/PortAllocator.v ===== *)
(** * RTP/RTCP port pool (media/port_allocator.rs)

    The pool as a record, one definition per method, the client's view (who
    holds which pr, on which clock) as a step relation, and the theorems that
    make the pool usable: a pair is never held twice, a call fails only when
    every pair of the range is held, and a pair handed out before its hold
    elapsed is always counted. *)

From S2P Require Import Prelude.

(** ** Data *)

Record PortPair := mkPair { rtp : Z; rtcp : Z }.

#[export] Instance PortPair_eq_dec : EqDecision PortPair.
Proof. solve_decision. Defined.

Record PortAllocator := mkAlloc {
  port_start : Z;
  port_end : Z;
  allocated : gset Z;
  quarantine : list (PortPair * Z);
  hold : Z;
  cursor : Z;
  forced : Z
}.

Definition DEFAULT_PORT_HOLD : Z := secs 30.

(** [PortPair::new] *)
Definition PortPair_new (p : Z) : sbc_result PortPair :=
  if negb (is_even p) then Err (ETransport "RTP port must be even")
  else Ok (mkPair p (wrapw 16 (p + 1))).

(** [PortPair::is_valid] *)
Definition is_valid (p : PortPair) : bool :=
  is_even (rtp p) && (rtcp p =? wrapw 16 (rtp p + 1)).

(** ** Operations *)

Definition with_range_and_hold (start stop hold : Z) : PortAllocator :=
  mkAlloc start stop ∅ [] hold start 0.

Definition with_range (start stop : Z) : PortAllocator :=
  with_range_and_hold start stop 0.

Definition new : PortAllocator := with_range 10000 20000.

Definition even_at_or_after (port : Z) : Z :=
  if is_even port then port else sat_add 16 port 1.

(** The pops of [sweep_quarantine]: the expired prefix of the queue leaves it
    and its ports become free. *)
Fixpoint sweep_loop (now hold : Z) (q : list (PortPair * Z)) (a : gset Z) :
    list (PortPair * Z) * gset Z :=
  match q with
  | [] => ([], a)
  | (pr, freed_at) :: q' =>
      if duration_since now freed_at <? hold then (q, a)
      else sweep_loop now hold q' (a ∖ {[rtp pr]} ∖ {[rtcp pr]})
  end.

Definition sweep_quarantine (now : Z) (s : PortAllocator) : PortAllocator :=
  let '(q, a) := sweep_loop now (hold s) (quarantine s) (allocated s) in
  mkAlloc (port_start s) (port_end s) a q (hold s) (cursor s) (forced s).

Inductive scan_result := Found (p : Z) | Exhausted | OutOfFuel.

(** The [loop] of [allocate], from [start], wrapping once to [first]. *)
Fixpoint scan (fuel : nat) (stop first start : Z) (a : gset Z)
    (rtp_port : Z) (wrapped : bool) : scan_result :=
  match fuel with
  | O => OutOfFuel
  | S fuel =>
      if (u16_max <? rtp_port + 1) || (stop <=? rtp_port + 1) then
        if wrapped then Exhausted
        else scan fuel stop first start a first true
      else
        let rtcp_port := rtp_port + 1 in
        if negb (bool_decide (rtp_port ∈ a)) && negb (bool_decide (rtcp_port ∈ a))
        then Found rtp_port
        else if wrapped && (start <=? rtp_port) then Exhausted
        else scan fuel stop first start a (wrapw 16 (rtp_port + 2)) wrapped
  end.

(** Iterations that are always enough: two passes over the range. *)
Definition scan_fuel (s : PortAllocator) : nat :=
  Z.to_nat (2 * Z.max 0 (port_end s - port_start s) + 4).

Definition run_scan (s : PortAllocator) : scan_result :=
  let first := even_at_or_after (port_start s) in
  let start := even_at_or_after (Z.max (cursor s) (port_start s)) in
  scan (scan_fuel s) (port_end s) first start (allocated s) start false.

Definition allocate (now : Z) (s0 : PortAllocator) : sbc_result PortPair * PortAllocator :=
  let s := sweep_quarantine now s0 in
  match run_scan s with
  | Found p =>
      (Ok (mkPair p (p + 1)),
       mkAlloc (port_start s) (port_end s) ({[p + 1]} ∪ ({[p]} ∪ allocated s))
         (quarantine s) (hold s) (sat_add 16 p 2) (forced s))
  | _ =>
      match quarantine s with
      | (pr, _) :: q =>
          (Ok pr,
           mkAlloc (port_start s) (port_end s) (allocated s) q (hold s) (cursor s)
             (wrapw 64 (forced s + 1)))
      | [] => (Err (ETransport "No available ports in range"), s)
      end
  end.

Definition release (now : Z) (pr : PortPair) (s : PortAllocator) : PortAllocator :=
  if hold s =? 0 then
    mkAlloc (port_start s) (port_end s) (allocated s ∖ {[rtp pr]} ∖ {[rtcp pr]})
      (quarantine s) (hold s) (cursor s) (forced s)
  else if existsb (fun e => bool_decide (e.1 = pr)) (quarantine s) then s
  else
    mkAlloc (port_start s) (port_end s) (allocated s) (quarantine s ++ [(pr, now)])
      (hold s) (cursor s) (forced s).

Definition clear (s : PortAllocator) : PortAllocator :=
  mkAlloc (port_start s) (port_end s) ∅ [] (hold s) (port_start s) (forced s).

Definition quarantined_count (now : Z) (s : PortAllocator) : Z * PortAllocator :=
  let s' := sweep_quarantine now s in (Z.of_nat (length (quarantine s')), s').

Definition allocated_count (s : PortAllocator) : Z := Z.of_nat (size (allocated s)) / 2.

Definition available_count (s : PortAllocator) : Z :=
  sat_sub (wrapw 16 (port_end s - port_start s) / 2) (allocated_count s).

Definition is_allocated (pr : PortPair) (s : PortAllocator) : bool :=
  bool_decide (rtp pr ∈ allocated s) && bool_decide (rtcp pr ∈ allocated s).

(** ** The pairs of a range *)

(** A pair the pool may hand out. *)
Definition pair_ok (s : PortAllocator) (p : PortPair) : Prop :=
  rtp p mod 2 = 0 /\ rtcp p = rtp p + 1 /\ port_start s <= rtp p /\ rtcp p < port_end s.

(** The two ports of a pair. *)
Definition ports_of (p : PortPair) : gset Z := {[rtp p; rtcp p]}.

(** ** The scan *)

Section scan_spec.
Context (stop first start : Z) (a : gset Z).
Hypothesis Hstop : is_u16 stop.
Hypothesis Hfirst : 0 <= first.
Hypothesis Hle : first <= start.
Hypothesis Hfe : first mod 2 = 0 \/ stop <= first.

(** The even port [p] was seen to be taken, alone or with its odd sibling. *)
Definition taken (p : Z) : Prop := (p ∈ a) \/ (p + 1 ∈ a).

(** Both ports a loop head is about are on the pool's parity. *)
Definition on_grid (p : Z) : Prop := first <= p /\ (p mod 2 = 0 \/ stop <= p).

Lemma scan_found fuel p w r :
  on_grid p -> scan fuel stop first start a p w = Found r ->
  first <= r /\ r mod 2 = 0 /\ r + 1 < stop /\ (r ∉ a) /\ (r + 1 ∉ a).
Proof.
  revert p w. induction fuel as [|n IH]; intros p w [Hp Hg]; simpl; [done|].
  destruct ((u16_max <? p + 1) || (stop <=? p + 1)) eqn:E.
  - destruct w; [done|]. intros Hsc. refine (IH _ _ _ Hsc). split; [lia|done].
  - to_prop. destruct (negb _ && negb _) eqn:F.
    + intros [= <-]. to_prop. repeat split; try done; lia.
    + destruct (w && _) eqn:G; [done|]. intros Hsc. refine (IH _ _ _ Hsc).
      unfold u16_max in *. rewrite wrapw_small by ulia. split; [lia|]. zlia.
Qed.

(** What the loop head knows: everything behind it is taken. *)
Definition scanned (p : Z) (w : bool) : Prop :=
  forall r, r mod 2 = 0 -> first <= r -> r + 1 < stop ->
    (if w then r < p \/ start <= r else start <= r < p) -> taken r.

Lemma scan_exhausted fuel p w :
  on_grid p -> (w = false -> start <= p) -> scanned p w ->
  scan fuel stop first start a p w = Exhausted ->
  forall r, r mod 2 = 0 -> first <= r -> r + 1 < stop -> taken r.
Proof.
  revert p w. induction fuel as [|n IH]; intros p w [Hp Hg] Hw Hs; simpl; [done|].
  destruct ((u16_max <? p + 1) || (stop <=? p + 1)) eqn:E.
  - assert (stop <= p + 1) by (apply orb_prop in E as [E|E]; to_prop; ulia).
    destruct w.
    + intros _ r H1 H2 H3. apply Hs; try done. lia.
    + apply IH; [split; [lia|done]|done|]. intros r H1 H2 H3 [H4|H4]; [lia|].
      apply Hs; try done. zlia.
  - to_prop. destruct (negb _ && negb _) eqn:F; [done|].
    assert (Ht : taken p).
    { unfold taken. apply andb_false_iff in F as [F|F];
        apply negb_false_iff, bool_decide_eq_true in F; tauto. }
    destruct (w && _) eqn:G.
    + to_prop. subst. intros _ r H1 H2 H3. destruct (decide (r = p)) as [->|]; [done|].
      apply Hs; try done. lia.
    + unfold u16_max in *. rewrite wrapw_small by ulia. apply IH.
      * split; [lia|zlia].
      * intros ->. specialize (Hw eq_refl). lia.
      * intros r H1 H2 H3 H4. destruct (decide (r = p)) as [->|Hne]; [done|].
        apply Hs; try done. destruct w; [|zlia]. destruct H4 as [|]; [left; zlia|by right].
Qed.

(** The loop ends: the fuel bounds its iterations. *)
Definition scan_measure (p : Z) (w : bool) : Z :=
  Z.max 0 (stop - p) + 1 + (if w then 0 else Z.max 0 (stop - first) + 1).

Lemma scan_terminates fuel p w :
  0 <= p -> scan_measure p w <= Z.of_nat fuel ->
  scan fuel stop first start a p w <> OutOfFuel.
Proof.
  revert p w. induction fuel as [|n IH]; intros p w H0 Hm; simpl.
  { unfold scan_measure in Hm. destruct w; lia. }
  destruct (_ || _) eqn:E.
  - destruct w; [done|]. apply IH; [lia|]. unfold scan_measure in *. lia.
  - to_prop. destruct (negb _ && negb _); [done|]. destruct (w && _); [done|].
    unfold u16_max in *. rewrite wrapw_small by ulia.
    apply IH; [lia|]. unfold scan_measure in *. lia.
Qed.
End scan_spec.

(** ** The pool's invariant

    [held] are the pairs the callers own, [now] the clock. *)

Definition busy (held : list PortPair) (s : PortAllocator) : list PortPair :=
  held ++ (quarantine s).*1.

Record pool_inv (now : Z) (held : list PortPair) (s : PortAllocator) : Prop := {
  inv_start : is_u16 (port_start s);
  inv_end : is_u16 (port_end s);
  inv_cursor : is_u16 (cursor s);
  inv_hold : 0 <= hold s;
  inv_noq : hold s = 0 -> quarantine s = [];
  inv_nodup : NoDup (busy held s);
  inv_ok : Forall (pair_ok s) (busy held s);
  inv_alloc : forall x, x ∈ allocated s <-> exists p, p ∈ busy held s /\ x ∈ ports_of p;
  inv_times : Forall (fun e => e.2 <= now) (quarantine s);
  inv_sorted : StronglySorted (fun e e' => e.2 <= e'.2) (quarantine s)
}.

Lemma ports_disjoint s p q x :
  pair_ok s p -> pair_ok s q -> x ∈ ports_of p -> x ∈ ports_of q -> p = q.
Proof.
  destruct p as [a b], q as [c d]; unfold pair_ok, ports_of; simpl.
  intros (H1 & -> & _) (H2 & -> & _) Hp Hq.
  assert (a = c) by (apply elem_of_union in Hp as [Hp|Hp], Hq as [Hq|Hq];
    apply elem_of_singleton in Hp, Hq; zlia). by subst.
Qed.

Lemma pair_ok_eta s p : pair_ok s p -> p = mkPair (rtp p) (rtp p + 1).
Proof. destruct p; unfold pair_ok; simpl. intros (_ & -> & _). done. Qed.

Lemma even_at_or_after_spec x :
  is_u16 x -> x <= even_at_or_after x <= u16_max /\
    (even_at_or_after x mod 2 = 0 \/ even_at_or_after x = u16_max).
Proof.
  intros. unfold even_at_or_after, is_even, sat_add, u16_max, is_uw in *.
  destruct (x mod 2 =? 0) eqn:E; to_prop; zlia.
Qed.

Lemma even_at_or_after_least x r :
  is_u16 x -> r mod 2 = 0 -> x <= r -> even_at_or_after x <= r.
Proof.
  intros. unfold even_at_or_after, is_even, sat_add, is_uw in *.
  destruct (x mod 2 =? 0) eqn:E; to_prop; zlia.
Qed.

Lemma even_at_or_after_mono x y :
  is_u16 y -> x <= y -> even_at_or_after x <= even_at_or_after y.
Proof.
  intros. unfold even_at_or_after, is_even, sat_add, is_uw in *.
  destruct (x mod 2 =? 0) eqn:E, (y mod 2 =? 0) eqn:F; to_prop; zlia.
Qed.

(** *** The sweep *)

(** The sweep drops a prefix of expired entries and frees exactly its ports. *)
Lemma sweep_loop_spec now hold q a :
  exists l q' a', sweep_loop now hold q a = (q', a') /\ q = l ++ q' /\
    Forall (fun e => hold <= duration_since now e.2) l /\
    (forall e, head q' = Some e -> duration_since now e.2 < hold) /\
    (forall x, x ∈ a' <-> x ∈ a /\ forall e, e ∈ l -> x ∉ ports_of e.1).
Proof.
  revert a. induction q as [|[p t] q IH]; intros a; simpl.
  { exists [], [], a. split_and!; try done. set_solver. }
  destruct (duration_since now t <? hold) eqn:E; to_prop.
  - exists [], ((p, t) :: q), a. split_and!; try done; [by intros e [= <-]|set_solver].
  - destruct (IH (a ∖ {[rtp p]} ∖ {[rtcp p]})) as (l & q' & a' & Eq & -> & Hl & Hh & Ha).
    exists ((p, t) :: l), q', a'. split_and!; try done; [by constructor|].
    intros x. rewrite Ha. unfold ports_of. set_solver.
Qed.

Lemma sorted_suffix now l q :
  Forall (fun e : PortPair * Z => e.2 <= now) (l ++ q) ->
  StronglySorted (fun e e' => e.2 <= e'.2) (l ++ q) ->
  Forall (fun e => e.2 <= now) q /\ StronglySorted (fun e e' => e.2 <= e'.2) q.
Proof.
  intros HF HS. split; [by apply Forall_app in HF as [_ ?]|].
  induction l as [|e l IH]; simpl in *; [done|].
  apply IH; [by inversion HF|by inversion HS].
Qed.

(** Removing a part of the busy pairs and exactly its ports. *)
Lemma alloc_remove s (b b' l : list PortPair) (A A' : gset Z) :
  Forall (pair_ok s) b -> NoDup b -> b ≡ₚ l ++ b' ->
  (forall x, x ∈ A <-> exists p, p ∈ b /\ x ∈ ports_of p) ->
  (forall x, x ∈ A' <-> x ∈ A /\ forall p, p ∈ l -> x ∉ ports_of p) ->
  forall x, x ∈ A' <-> exists p, p ∈ b' /\ x ∈ ports_of p.
Proof.
  intros Hok Hnd Hp HA HA' x. rewrite HA', HA. rewrite Hp in Hnd.
  rewrite Hp in Hok. apply NoDup_app in Hnd as (_ & Hd & _).
  rewrite Forall_forall in Hok. split.
  - intros [(p & Hin & Hx) Hn]. rewrite Hp in Hin.
    apply elem_of_app in Hin as [Hin|Hin]; [by destruct (Hn p)|eauto].
  - intros (p & Hin & Hx). split.
    + exists p. split; [rewrite Hp; set_solver|done].
    + intros r Hr Hxr. apply (Hd r Hr).
      rewrite (ports_disjoint s r p x); set_solver.
Qed.

Lemma sweep_inv now held s : pool_inv now held s -> pool_inv now held (sweep_quarantine now s).
Proof.
  intros []. unfold sweep_quarantine, busy in *.
  destruct (sweep_loop_spec now (hold s) (quarantine s) (allocated s))
    as (l & q' & a' & -> & Eq & Hl & Hh & Ha).
  rewrite Eq in *. rewrite fmap_app in *.
  assert (Hp : held ++ l.*1 ++ q'.*1 ≡ₚ l.*1 ++ (held ++ q'.*1)) by solve_Permutation.
  destruct (sorted_suffix now l q') as [? ?]; try done.
  constructor; unfold busy; simpl; try done.
  - intros Hz. specialize (inv_noq0 Hz). by apply app_nil in inv_noq0 as [_ ->].
  - rewrite Hp in inv_nodup0. by apply NoDup_app in inv_nodup0 as (_ & _ & ?).
  - rewrite Hp in inv_ok0. by apply Forall_app in inv_ok0 as (_ & ?).
  - apply (alloc_remove s _ _ _ _ _ inv_ok0 inv_nodup0 Hp inv_alloc0).
    intros x. rewrite Ha. set_solver.
Qed.

(** *** The scan in the pool *)

Lemma run_scan_found s p :
  is_u16 (port_start s) -> is_u16 (port_end s) -> is_u16 (cursor s) ->
  run_scan s = Found p ->
  pair_ok s (mkPair p (p + 1)) /\ (p ∉ allocated s) /\ (p + 1 ∉ allocated s).
Proof.
  intros Hs He Hc. unfold run_scan.
  destruct (even_at_or_after_spec (port_start s) Hs) as [? Hf].
  assert (is_u16 (Z.max (cursor s) (port_start s))) as Hm by ulia.
  destruct (even_at_or_after_spec _ Hm) as [? Hf'].
  assert (Hle := even_at_or_after_mono (port_start s) _ Hm ltac:(lia)).
  intros H'. apply scan_found in H'; try done.
  - unfold pair_ok; simpl. intuition lia.
  - ulia.
  - ulia.
  - split; [done|]. destruct Hf' as [|]; [by left|right; ulia].
Qed.

Lemma run_scan_exhausted s :
  is_u16 (port_start s) -> is_u16 (port_end s) -> is_u16 (cursor s) ->
  run_scan s <> OutOfFuel /\
  (run_scan s = Exhausted -> forall r, pair_ok s r -> (rtp r ∈ allocated s) \/ (rtcp r ∈ allocated s)).
Proof.
  intros Hs He Hc. unfold run_scan.
  destruct (even_at_or_after_spec (port_start s) Hs) as [? Hf].
  assert (is_u16 (Z.max (cursor s) (port_start s))) as Hm by ulia.
  destruct (even_at_or_after_spec _ Hm) as [? Hf'].
  assert (Hle := even_at_or_after_mono (port_start s) _ Hm ltac:(lia)).
  split.
  - apply scan_terminates; unfold scan_measure, scan_fuel; ulia.
  - intros H' r (He2 & -> & Hlo & Hhi). change (taken (allocated s) (rtp r)).
    eapply scan_exhausted; [..|exact H'|done| |done]; try done.
    + ulia.
    + destruct Hf as [|]; [by left|right; ulia].
    + split; [done|]. destruct Hf' as [|]; [by left|right; ulia].
    + intros r' _ _ _ ?. lia.
    + by apply even_at_or_after_least.
Qed.

(** A taken port belongs to the pair of the busy list with its parity. *)
Lemma taken_busy now held s r :
  pool_inv now held s -> pair_ok s r ->
  (rtp r ∈ allocated s) \/ (rtcp r ∈ allocated s) -> r ∈ busy held s.
Proof.
  intros [] Hr Ht. rewrite Forall_forall in inv_ok0.
  assert (exists x, x ∈ ports_of r /\ x ∈ allocated s) as (x & Hx & Ha).
  { unfold ports_of. destruct Ht; eexists; (split; [|eassumption]); set_solver. }
  apply inv_alloc0 in Ha as (p & Hp & Hxp).
  by rewrite (ports_disjoint s r p x) by auto.
Qed.

(** *** Allocation and release *)

(** The pair leaves the queue or is fresh; its hold was served or it is
    counted as a forced reuse, with nothing else free. *)
Inductive alloc_outcome (now : Z) (held : list PortPair) (s s' : PortAllocator) :
    sbc_result PortPair -> Prop :=
  | alloc_free p :
      p ∉ busy held (sweep_quarantine now s) -> forced s' = forced s ->
      alloc_outcome now held s s' (Ok p)
  | alloc_forced p t :
      head (quarantine (sweep_quarantine now s)) = Some (p, t) ->
      p ∉ held -> duration_since now t < hold s ->
      (forall r, pair_ok s r -> r ∈ busy held (sweep_quarantine now s)) ->
      forced s' = wrapw 64 (forced s + 1) ->
      alloc_outcome now held s s' (Ok p)
  | alloc_none :
      (forall r, pair_ok s r -> r ∈ held) -> forced s' = forced s ->
      alloc_outcome now held s s' (Err (ETransport "No available ports in range")).

Definition held_after (held : list PortPair) (r : sbc_result PortPair) : list PortPair :=
  match r with Ok p => p :: held | Err _ => held end.

Lemma sweep_frame now s :
  port_start (sweep_quarantine now s) = port_start s /\
  port_end (sweep_quarantine now s) = port_end s /\
  hold (sweep_quarantine now s) = hold s /\
  cursor (sweep_quarantine now s) = cursor s /\
  forced (sweep_quarantine now s) = forced s.
Proof. unfold sweep_quarantine. by destruct (sweep_loop _ _ _ _). Qed.

(** After a sweep the head of the queue is still on hold. *)
Lemma sweep_head now s e :
  head (quarantine (sweep_quarantine now s)) = Some e -> duration_since now e.2 < hold s.
Proof.
  unfold sweep_quarantine.
  destruct (sweep_loop_spec now (hold s) (quarantine s) (allocated s))
    as (l & q' & a' & -> & Eq & Hl & Hh & Ha). apply Hh.
Qed.

Lemma free_pair_fresh now held s p :
  pool_inv now held s -> (rtp p ∉ allocated s) -> p ∉ busy held s.
Proof.
  intros [] Hn Hin. apply Hn, inv_alloc0. exists p. split; [done|].
  unfold ports_of. set_solver.
Qed.

(** The free branch: a fresh pair joins the held ones. *)
Lemma alloc_add_inv now held s p :
  pool_inv now held s -> pair_ok s (mkPair p (p + 1)) ->
  (p ∉ allocated s) -> (p + 1 ∉ allocated s) ->
  pool_inv now (mkPair p (p + 1) :: held)
    (mkAlloc (port_start s) (port_end s) ({[p + 1]} ∪ ({[p]} ∪ allocated s))
       (quarantine s) (hold s) (sat_add 16 p 2) (forced s)).
Proof.
  intros HI Hok H1 H2. assert (Hf := free_pair_fresh now held s (mkPair p (p + 1)) HI H1).
  destruct HI. constructor; unfold busy in *; simpl; try done.
  - destruct Hok as (_ & _ & ? & _). simpl in *. ulia.
  - by constructor.
  - by constructor.
  - intros x. rewrite !elem_of_union, !elem_of_singleton, inv_alloc0. split.
    + intros [->|[->|(q & Hq & Hx)]].
      * exists (mkPair p (p + 1)). unfold ports_of. set_solver.
      * exists (mkPair p (p + 1)). unfold ports_of. set_solver.
      * exists q. set_solver.
    + intros (q & Hq & Hx). apply elem_of_cons in Hq as [->|Hq]; [|eauto].
      unfold ports_of in Hx. set_solver.
Qed.

(** The forced branch: the head of the queue joins the held pairs. *)
Lemma alloc_pop_inv now held s p t q f :
  pool_inv now held s -> quarantine s = (p, t) :: q ->
  pool_inv now (p :: held)
    (mkAlloc (port_start s) (port_end s) (allocated s) q (hold s) (cursor s) f).
Proof.
  intros [] Eq. unfold busy in *. rewrite Eq in *. simpl in *.
  assert (Hp : held ++ p :: q.*1 ≡ₚ p :: held ++ q.*1) by solve_Permutation.
  constructor; unfold busy; simpl; try done.
  - intros Hz. by specialize (inv_noq0 Hz).
  - by rewrite Hp in inv_nodup0.
  - by rewrite Hp in inv_ok0.
  - intros x. rewrite inv_alloc0. by setoid_rewrite Hp.
  - by inversion inv_times0.
  - by inversion inv_sorted0.
Qed.

Lemma allocate_spec now held s :
  pool_inv now held s ->
  let '(r, s') := allocate now s in
  alloc_outcome now held s s' r /\ pool_inv now (held_after held r) s'.
Proof.
  intros HI. unfold allocate. apply sweep_inv in HI.
  destruct (sweep_frame now s) as (Es & Ee & Eh & Ec & Ef).
  assert (Hhd := sweep_head now s). set (s1 := sweep_quarantine now s) in *.
  assert (Hok : forall r, pair_ok s r -> pair_ok s1 r)
    by (unfold pair_ok; rewrite Es, Ee; done).
  pose proof (inv_start _ _ _ HI). pose proof (inv_end _ _ _ HI).
  pose proof (inv_cursor _ _ _ HI).
  destruct (run_scan_exhausted s1) as [Hf Hx]; try done.
  destruct (run_scan s1) as [p| |] eqn:E; [|clear E|done].
  { apply run_scan_found in E as (Hp & H1' & H2'); try done. split.
    - constructor; [|done]. by eapply free_pair_fresh.
    - by apply alloc_add_inv. }
  assert (Hb : forall r, pair_ok s r -> r ∈ busy held s1)
    by (intros r Hr; eapply taken_busy; eauto).
  destruct (quarantine s1) as [|[p t] q] eqn:Eq; simpl.
  - split; [|done]. constructor; [|done]. intros r Hr. specialize (Hb r Hr).
    unfold busy in Hb. by rewrite Eq, app_nil_r in Hb.
  - split; [|by eapply alloc_pop_inv]. eapply alloc_forced with (t := t); fold s1.
    + by rewrite Eq.
    + assert (Hnd := inv_nodup _ _ _ HI). unfold busy in Hnd. rewrite Eq in Hnd.
      apply NoDup_app in Hnd as (_ & Hd & _). intros Hin. apply (Hd p Hin). set_solver.
    + apply (Hhd (p, t)). done.
    + done.
    + simpl. by rewrite Ef.
Qed.

Lemma release_inv now l1 l2 p s :
  pool_inv now (l1 ++ p :: l2) s -> pool_inv now (l1 ++ l2) (release now p s).
Proof.
  intros []. unfold release, busy in *.
  assert (Hp : (l1 ++ p :: l2) ++ (quarantine s).*1 ≡ₚ [p] ++ (l1 ++ l2) ++ (quarantine s).*1)
    by solve_Permutation.
  destruct (hold s =? 0) eqn:E; to_prop.
  { constructor; unfold busy; simpl; try done.
    - rewrite Hp in inv_nodup0. by apply NoDup_app in inv_nodup0 as (_ & _ & ?).
    - rewrite Hp in inv_ok0. by apply Forall_app in inv_ok0 as (_ & ?).
    - apply (alloc_remove s _ _ _ _ _ inv_ok0 inv_nodup0 Hp inv_alloc0).
      intros x. unfold ports_of. set_solver. }
  assert (Hnd := inv_nodup0). rewrite Hp in Hnd. simpl in Hnd. apply NoDup_cons in Hnd as [Hni _].
  assert (existsb (fun e => bool_decide (e.1 = p)) (quarantine s) = false) as ->.
  { apply not_true_iff_false. intros Hx. apply existsb_exists in Hx as ((q & t) & Hin & Hq).
    to_prop. simpl in Hq. subst. apply Hni. apply elem_of_app. right.
    apply list_elem_of_fmap. exists (p, t). split; [done|]. by apply list_elem_of_In. }
  assert (Hp' : (l1 ++ p :: l2) ++ (quarantine s).*1 ≡ₚ (l1 ++ l2) ++ (quarantine s ++ [(p, now)]).*1).
  { rewrite fmap_app. simpl. solve_Permutation. }
  constructor; unfold busy; simpl; try done.
  - by rewrite Hp' in inv_nodup0.
  - by rewrite Hp' in inv_ok0.
  - intros x. rewrite inv_alloc0. by setoid_rewrite Hp'.
  - apply Forall_app. split; [done|]. by repeat constructor.
  - apply StronglySorted_app. split_and!; [|done|by repeat constructor].
    intros e1 e2 Hin ->%list_elem_of_singleton. rewrite Forall_forall in inv_times0. auto.
Qed.

(** ** The pool among its callers

    The world is the clock, the pairs the callers hold and the pool. A caller
    releases a pair it holds; a second release of a pair in quarantine may
    happen too (the relay task and the session both release). *)

Inductive pool_step : Z * list PortPair * PortAllocator ->
    Z * list PortPair * PortAllocator -> Prop :=
  | step_tick now now' held s :
      now <= now' -> pool_step (now, held, s) (now', held, s)
  | step_allocate now held s :
      pool_step (now, held, s)
        (now, held_after held (allocate now s).1, (allocate now s).2)
  | step_release now l1 p l2 s :
      pool_step (now, l1 ++ p :: l2, s) (now, l1 ++ l2, release now p s)
  | step_release_again now held p s :
      p ∈ (quarantine s).*1 -> pool_step (now, held, s) (now, held, release now p s)
  | step_sweep now held s :
      pool_step (now, held, s) (now, held, sweep_quarantine now s)
  | step_clear now held s :
      pool_step (now, held, s) (now, [], clear s).

Definition pool_init (start stop hold : Z) : Z * list PortPair * PortAllocator :=
  (0, [], with_range_and_hold start stop hold).

Definition reachable (start stop hold : Z) (w : Z * list PortPair * PortAllocator) : Prop :=
  rtc pool_step (pool_init start stop hold) w.

Definition world_inv (w : Z * list PortPair * PortAllocator) : Prop :=
  pool_inv w.1.1 w.1.2 w.2.

Lemma release_again now p s :
  hold s <> 0 -> p ∈ (quarantine s).*1 -> release now p s = s.
Proof.
  intros Hh Hin. unfold release. apply Z.eqb_neq in Hh as ->.
  assert (existsb (fun e => bool_decide (e.1 = p)) (quarantine s) = true) as ->; [|done].
  apply list_elem_of_fmap in Hin as (e & -> & Hin). apply existsb_exists.
  exists e. split; [by apply list_elem_of_In|]. by apply bool_decide_eq_true.
Qed.

Lemma clear_inv now held s : pool_inv now held s -> pool_inv now [] (clear s).
Proof.
  intros []. unfold clear. constructor; unfold busy; simpl; try done; try constructor.
  - set_solver.
  - set_solver.
Qed.

Lemma pool_step_inv w w' : pool_step w w' -> world_inv w -> world_inv w'.
Proof.
  unfold world_inv. intros Hst. inversion Hst; subst; simpl; intros HI.
  - destruct HI. constructor; try done. eapply Forall_impl; [exact inv_times0|]. simpl. lia.
  - assert (Hs := allocate_spec now held s HI). destruct (allocate now s) as [r s'].
    by destruct Hs.
  - by apply release_inv.
  - rewrite release_again; try done. intros Hz.
    rewrite (inv_noq _ _ _ HI Hz) in *. set_solver.
  - by apply sweep_inv.
  - by eapply clear_inv.
Qed.

Lemma init_inv start stop h :
  is_u16 start -> is_u16 stop -> 0 <= h -> world_inv (pool_init start stop h).
Proof.
  intros. constructor; unfold busy; simpl; try done; try constructor; set_solver.
Qed.

Lemma reachable_inv start stop h w :
  is_u16 start -> is_u16 stop -> 0 <= h -> reachable start stop h w -> world_inv w.
Proof.
  intros H1 H2 H3 Hr. assert (Hi := init_inv start stop h H1 H2 H3).
  induction Hr as [|w1 w2 w3 Hs _ IH]; [done|]. eauto using pool_step_inv.
Qed.

(** ** Theorems *)

(** C14: in every state the callers can bring the pool to, the pairs they hold
    are distinct, are an even port of the range with its successor, share no
    port with each other, and none of their ports is free in the pool. *)
Theorem held_pairs_exclusive start stop h now held s :
  is_u16 start -> is_u16 stop -> 0 <= h ->
  reachable start stop h (now, held, s) ->
  NoDup held /\
  Forall (fun p => pair_ok s p /\ is_allocated p s = true) held /\
  (forall p q x, p ∈ held -> q ∈ held -> x ∈ ports_of p -> x ∈ ports_of q -> p = q).
Proof.
  intros H1 H2 H3 Hr. apply reachable_inv in Hr as [] ; try done. simpl in *.
  unfold busy in *. apply Forall_app in inv_ok0 as [Hok _]. rewrite Forall_forall in Hok.
  split_and!.
  - by apply NoDup_app in inv_nodup0 as [? _].
  - apply Forall_forall. intros p Hp. split; [auto|]. unfold is_allocated.
    apply andb_true_iff. split; apply bool_decide_eq_true, inv_alloc0; exists p;
      unfold ports_of; set_solver.
  - intros p q x Hp Hq. apply (ports_disjoint s); auto.
Qed.

(** From every reachable state, [allocate] fails exactly when every pair
    of the range is held by a caller; a quarantined pair never makes a call
    fail, and the search always ends. *)
Theorem allocate_fails_iff_full start stop h now held s :
  is_u16 start -> is_u16 stop -> 0 <= h ->
  reachable start stop h (now, held, s) ->
  (exists e s', allocate now s = (Err e, s')) <-> (forall p, pair_ok s p -> p ∈ held).
Proof.
  intros H1 H2 H3 Hr. apply reachable_inv in Hr; try done. unfold world_inv in Hr; simpl in Hr.
  assert (Hs := allocate_spec now held s Hr). destruct (allocate now s) as [r s'] eqn:E.
  destruct Hs as [Ho Hi]. split.
  - intros (e & s2 & [= -> ->]). by inversion Ho.
  - intros Hall. destruct r as [p|e]; [|by eauto]. exfalso.
    assert (Hnd := inv_nodup _ _ _ Hi). simpl in Hnd. unfold busy in Hnd.
    apply NoDup_app in Hnd as [Hnd _]. apply NoDup_cons in Hnd as [Hni _]. apply Hni, Hall.
    assert (Hok := inv_ok _ _ _ Hi). unfold busy in Hok. simpl in Hok.
    inversion Hok as [|? ? Hp _]; subst.
    assert (port_start s' = port_start s /\ port_end s' = port_end s) as [Ha Hb].
    { unfold allocate in E. destruct (sweep_frame now s) as (? & ? & _).
      repeat case_match; simplify_eq/=; done. }
    unfold pair_ok in *. by rewrite Ha, Hb in Hp.
Qed.

Lemma sweep_keeps now s e :
  e ∈ quarantine s -> duration_since now e.2 < hold s ->
  e ∈ quarantine (sweep_quarantine now s).
Proof.
  intros He Hd. unfold sweep_quarantine.
  destruct (sweep_loop_spec now (hold s) (quarantine s) (allocated s))
    as (l & q' & a' & -> & Eq & Hl & _). simpl. rewrite Eq in He.
  apply elem_of_app in He as [He|He]; [|done]. rewrite Forall_forall in Hl.
  specialize (Hl e He). simpl in Hl. lia.
Qed.

Lemma sweep_sub now s q :
  q ∈ (quarantine (sweep_quarantine now s)).*1 -> q ∈ (quarantine s).*1.
Proof.
  unfold sweep_quarantine.
  destruct (sweep_loop_spec now (hold s) (quarantine s) (allocated s))
    as (l & q' & a' & -> & -> & _). simpl. set_solver.
Qed.

(** A pair that a caller released less than [hold] ago is handed out again
    only when no pair of the range is free, only if it has waited longest, and
    the pool's count of forced reuses records it. *)
Theorem early_reuse_is_forced start stop h now held s p t s' :
  is_u16 start -> is_u16 stop -> 0 <= h ->
  reachable start stop h (now, held, s) ->
  (p, t) ∈ quarantine s -> duration_since now t < hold s ->
  allocate now s = (Ok p, s') ->
  (forall q, pair_ok s q -> q ∈ held \/ q ∈ (quarantine s).*1) /\
  (forall q t', (q, t') ∈ quarantine s -> duration_since now t' < hold s -> t <= t') /\
  forced s' = wrapw 64 (forced s + 1).
Proof.
  intros H1 H2 H3 Hr Hin Hlt E. apply reachable_inv in Hr; try done.
  unfold world_inv in Hr; simpl in Hr. assert (Hs := allocate_spec now held s Hr).
  rewrite E in Hs. destruct Hs as [Ho _].
  assert (Hsub := sweep_keeps now s). assert (Hsup := sweep_sub now s).
  apply sweep_inv in Hr. inversion Ho as [? Hni|? t0 Hhd _ _ Hall Hf|]; subst.
  - exfalso. apply Hni. unfold busy. apply elem_of_app. right.
    apply list_elem_of_fmap. exists (p, t). auto.
  - destruct (quarantine (sweep_quarantine now s)) as [|e q] eqn:Eq; [done|].
    simpl in Hhd. injection Hhd as ->.
    assert (t0 = t) as ->.
    { assert (Hnd := inv_nodup _ _ _ Hr). unfold busy in Hnd. rewrite Eq in Hnd.
      apply NoDup_app in Hnd as (_ & _ & Hnd). simpl in Hnd. apply NoDup_cons in Hnd as [Hnd _].
      specialize (Hsub (p, t) Hin Hlt). apply elem_of_cons in Hsub as [Hx|Hx]; [by simplify_eq|].
      exfalso. apply Hnd. apply list_elem_of_fmap. by exists (p, t). }
    split_and!; [|intros q' t' Hq' Hd'|done].
    + intros r Hok. apply Hall in Hok. unfold busy in Hok. apply elem_of_app in Hok as [?|Hq].
      * by left.
      * right. apply Hsup. by rewrite <- Eq.
    + specialize (Hsub (q', t') Hq' Hd'). assert (Hso := inv_sorted _ _ _ Hr).
      rewrite Eq in Hso. apply StronglySorted_cons in Hso as [Hso _].
      rewrite Forall_forall in Hso. apply elem_of_cons in Hsub as [[= -> ->]|Hx]; [done|].
      apply (Hso _ Hx).
Qed.

(** ** Witnesses *)

(** One caller takes a pair of the range 10..14; then it is released. *)
Definition demo_world (h : Z) : Z * list PortPair * PortAllocator :=
  let s := (allocate 0 (with_range_and_hold 10 14 h)).2 in
  (0, [mkPair 10 11], s).

Lemma demo_reachable h : 0 <= h -> reachable 10 14 h (demo_world h).
Proof. intros. apply rtc_once. apply (step_allocate 0 [] (with_range_and_hold 10 14 h)). Qed.

Lemma held_pairs_exclusive_witness :
  NoDup [mkPair 10 11] /\ is_allocated (mkPair 10 11) (demo_world 0).2 = true.
Proof.
  destruct (held_pairs_exclusive 10 14 0 0 [mkPair 10 11] (demo_world 0).2)
    as (Hn & Hf & _); [done|done|done|by apply demo_reachable|].
  split; [done|]. inversion Hf as [|? ? [_ Ha] _]. exact Ha.
Defined.

Lemma allocate_fails_iff_full_witness :
  ~ exists e s', allocate 0 (demo_world 0).2 = (Err e, s').
Proof.
  destruct (allocate_fails_iff_full 10 14 0 0 [mkPair 10 11] (demo_world 0).2) as [Hl _];
    [done|done|done|by apply demo_reachable|].
  intros Hf. specialize (Hl Hf).
  assert (mkPair 12 13 ∈ [mkPair 10 11]) as Hin by (apply Hl; vm_compute; split_and!; done).
  apply list_elem_of_singleton in Hin. discriminate.
Defined.

(** The only pair of 10..12 is taken, released, and taken again at once. *)
Definition tight : PortAllocator := (allocate 0 (with_range_and_hold 10 12 5)).2.

Lemma early_reuse_is_forced_witness :
  exists s', allocate 1 (release 0 (mkPair 10 11) tight) = (Ok (mkPair 10 11), s') /\
    forced s' = 1.
Proof.
  eexists. split; [reflexivity|].
  eapply (early_reuse_is_forced 10 12 5 1 [] (release 0 (mkPair 10 11) tight) (mkPair 10 11) 0);
    [done|done|done| |vm_compute; left|done|reflexivity].
  eapply rtc_l; [apply (step_allocate 0 [] (with_range_and_hold 10 12 5))|].
  eapply rtc_l; [apply (step_release 0 [] (mkPair 10 11) [] tight)|].
  apply rtc_once. by apply step_tick.
Defined.
