(* ===== verification/SipUri.v ===== *)
(** * SIP addresses and identity (register.rs, sbc/mod.rs)

    The addr-spec of a header value, its user and host, the one spelling of an
    address-of-record and the check that a user may bind it. *)

From S2P Require Import Prelude Str.

(** ** Operations *)

(** [s[a..b]] of a byte string. *)
Definition sslice (a b : nat) (s : string) : string := stake (b - a) (sdrop a s).

(** [addr_spec] *)
Definition addr_spec (value : string) : string :=
  let s := trim value in
  match rfind_char "<" s, rfind_char ">" s with
  | Some a, Some b =>
      if (a <? b)%nat then trim (sslice (a + 1) b s)
      else trim (before_any [";"%char] s)
  | _, _ => trim (before_any [";"%char] s)
  end.

(** The scheme the URI helpers drop. *)
Definition strip_scheme (s : string) : string :=
  match strip_prefix "sips:" s with
  | Some r => r
  | None => default s (strip_prefix "sip:" s)
  end.

Definition uri_user (uri : string) : option string :=
  let s := strip_scheme (addr_spec uri) in
  match split_once "@" s with
  | None => None
  | Some (user, _) =>
      let user := trim (before_any [";"%char] user) in
      if seqb user "" then None else Some user
  end.

Definition uri_host (uri : string) : option string :=
  let s := strip_scheme (addr_spec uri) in
  let host_port := match split_once "@" s with Some (_, h) => h | None => s end in
  let host_port := trim (before_any [";"; ">"; "?"]%char host_port) in
  let host :=
    match strip_prefix "[" host_port with
    | Some rest => before_any ["]"%char] rest
    | None => match rsplit_once ":" host_port with Some (h, _) => h | None => host_port end
    end in
  if seqb host "" then None else Some (to_ascii_lowercase host).

Inductive AorRejection := RejUser (u : string) | RejDomain (d : string).

Definition authorize_aor (auth_user aor : string) (served : list string) :
    result AorRejection () :=
  let user := default "" (uri_user aor) in
  if negb (seqb user auth_user) then Err (RejUser user)
  else match served with
       | [] => Ok ()
       | _ =>
           let host := default "" (uri_host aor) in
           if negb (existsb (fun d => eq_ignore_ascii_case d host) served)
           then Err (RejDomain host) else Ok ()
       end.

(** [canonical_aor], in the stages of its body. *)
Definition aor_inner (raw : string) : string :=
  let s := trim raw in
  match find_char "<" s, rfind_char ">" s with
  | Some a, Some b => if (a <? b)%nat then trim (sslice (a + 1) b s) else s
  | _, _ => s
  end.

Definition aor_cut (inner : string) : string :=
  trim_end_matches ">" (trim (before_any [";"; "?"]%char inner)).

Definition aor_scheme (inner : string) : string * string :=
  match split_once ":" inner with
  | Some (scheme, rest) =>
      if eq_ignore_ascii_case scheme "sip" || eq_ignore_ascii_case scheme "sips"
      then (to_ascii_lowercase scheme +:+ ":", rest) else ("", inner)
  | None => ("", inner)
  end.

Definition aor_user (rest : string) : string * string :=
  match rsplit_once "@" rest with
  | Some (user, host) => (user +:+ "@", host)
  | None => ("", rest)
  end.

Definition aor_host (host : string) : string :=
  match rsplit_once ":" host with
  | Some (h, port) => if negb (seqb h "") && sall is_digit port then h else host
  | None => host
  end.

Definition canonical_aor (raw : string) : string :=
  let '(scheme, rest) := aor_scheme (aor_cut (aor_inner raw)) in
  let '(user, host) := aor_user rest in
  scheme +:+ user +:+ to_ascii_lowercase (aor_host host).

(** ** What the identity check grants *)

(** An authenticated user passes the identity check for exactly the
    addresses whose user part is its own and whose host is served (any host
    when no served domain is configured); every refusal names the reason. *)
Theorem authorize_aor_spec auth_user aor served :
  match authorize_aor auth_user aor served with
  | Ok _ =>
      default "" (uri_user aor) = auth_user /\
      (served = [] \/ exists d, d ∈ served /\
         to_ascii_lowercase d = to_ascii_lowercase (default "" (uri_host aor)))
  | Err (RejUser u) => u = default "" (uri_user aor) /\ u <> auth_user
  | Err (RejDomain h) =>
      default "" (uri_user aor) = auth_user /\ served <> [] /\ h = default "" (uri_host aor) /\
      forall d, d ∈ served -> to_ascii_lowercase d <> to_ascii_lowercase h
  end.
Proof.
  unfold authorize_aor.
  destruct (negb (seqb (default "" (uri_user aor)) auth_user)) eqn:E; to_prop.
  { split; [done|]. intros Hu. apply seqb_true in Hu. congruence. }
  apply seqb_true in E. destruct served as [|d0 ds] eqn:Es; [by split; [|left]|].
  rewrite <- Es. assert (served <> []) as Hne by congruence. clear Es.
  destruct (negb _) eqn:F; to_prop.
  - split_and!; try done. intros d Hd Heq. apply not_true_iff_false in F. apply F.
    apply existsb_exists. exists d. split; [by apply list_elem_of_In|]. by apply seqb_true.
  - split; [done|]. right. apply existsb_exists in F as (d & Hd & Hq).
    apply seqb_true in Hq. exists d. split; [by apply list_elem_of_In|done].
Qed.

(** ** Spellings of one address *)

Example aor_display : canonical_aor "Alice <sip:alice@Example.COM:5060;transport=tcp>" = "sip:alice@example.com".
Proof. reflexivity. Qed.
Example aor_ipv6 : canonical_aor "SIP:bob@[2001:DB8::1]:5060" = "sip:bob@[2001:db8::1]".
Proof. reflexivity. Qed.
Example aor_bare : canonical_aor " carol@host?X=1 " = "carol@host".
Proof. reflexivity. Qed.
Example aor_ipv6_bare : canonical_aor "sip:bob@[::1]" = "sip:bob@[::1]".
Proof. reflexivity. Qed.
