(* ===== verification/Registrar.v ===== *)
(** * REGISTER handling (register.rs)

    The in-memory registrar (bindings and tombstones), the contact parser and
    the REGISTER handler. The handler is written against the interface
    [RegistrarOps], as the code's handler is against the [Registrar] trait. *)

From S2P Require Import Prelude Str SipUri.

(** ** Policy *)

Record RegisterPolicy := mkPolicy {
  min_expires : Z;
  max_expires : Z;
  default_expires : Z
}.

Definition default_policy : RegisterPolicy := mkPolicy 60 3600 3600.

(** [RegisterPolicy::from_config]: the three fields of the config, corrected. *)
Definition policy_from_config (cmin cmax cdefault : Z) : RegisterPolicy :=
  let mn := Z.max cmin 1 in
  let mx := Z.max cmax mn in
  mkPolicy mn mx (Z.min (Z.max cdefault mn) mx).

Definition policy_ok (p : RegisterPolicy) : Prop :=
  1 <= min_expires p /\ min_expires p <= default_expires p <= max_expires p /\
  is_u32 (max_expires p).

(** ** Bindings *)

(** [reply_tx] is the reply channel, named by a number. *)
Record Registration := mkReg {
  aor : string;
  contact : string;
  expires : Z;
  registered_at : Z;
  registered_at_ms : Z;
  expires_at : Z;
  call_id : string;
  cseq : Z;
  user_agent : option string;
  received_ip : string;
  received_port : Z;
  transport : string;
  reply_tx : option Z;
  instance_id : option string;
  reg_id : option Z
}.

Definition MAX_BINDINGS_PER_AOR : Z := 10.
Definition MAX_CONTACTS_PER_REQUEST : Z := 10.
Definition MAX_BINDINGS_TOTAL : Z := 5000.
Definition TOMBSTONE_TTL_MS : Z := 64000.
Definition MAX_TOMBSTONES : Z := 4096.

Definition binding_key (contact : string) (instance_id : option string) (reg_id : option Z) : string :=
  match instance_id with
  | Some id => "instance:" +:+ id +:+ ":" +:+ show (default 0 reg_id)
  | None => "contact:" +:+ contact
  end.

(** [Registration::binding_key] *)
Definition reg_binding_key (r : Registration) : string :=
  binding_key (contact r) (instance_id r) (reg_id r).

(** [unix_now], [unix_now_ms]: [now] is nanoseconds since the epoch. *)
Definition unix_now (now : Z) : Z := as_secs now.
Definition unix_now_ms (now : Z) : Z := wrapw 64 (as_millis now).

(** [Registration::new] *)
Definition Registration_new (now : Z) (aor contact : string) (expires : Z) (call_id : string)
    (cseq : Z) (ip : string) (port : Z) (transport : string) : Registration :=
  mkReg aor contact expires (unix_now now) (unix_now_ms now)
    (wrapw 64 (unix_now now + expires)) call_id cseq None ip port
    (to_ascii_uppercase transport) None None None.

Definition is_valid (now : Z) (r : Registration) : bool := unix_now now <? expires_at r.

Definition remaining_secs (now : Z) (r : Registration) : Z := sat_sub (expires_at r) (unix_now now).

Definition or_old {A} (new old : option A) : option A :=
  match new with Some _ => new | None => old end.

Definition refresh_from (self fresh : Registration) : Registration :=
  mkReg (aor self) (contact fresh) (expires fresh) (registered_at fresh)
    (registered_at_ms fresh) (expires_at fresh) (call_id fresh) (cseq fresh)
    (or_old (user_agent fresh) (user_agent self)) (received_ip fresh) (received_port fresh)
    (transport fresh) (or_old (reply_tx fresh) (reply_tx self)) (instance_id fresh) (reg_id fresh).

(** ** The interface the handler uses (trait [Registrar]) *)

Definition Dialog : Type := option (string * Z).

Record RegistrarOps (S : Type) := mkOps {
  register : Registration -> S -> Registration * S;
  unregister_binding : Z -> string -> string -> Dialog -> S -> option Registration * S;
  unregister_all : Z -> string -> Dialog -> S -> list Registration * S;
  lookup_aor : Z -> string -> S -> list Registration;
  is_out_of_order : Z -> string -> string -> string -> Z -> S -> bool
}.
Arguments mkOps {S}.
Arguments register {S}.
Arguments unregister_binding {S}.
Arguments unregister_all {S}.
Arguments lookup_aor {S}.
Arguments is_out_of_order {S}.

(** ** The in-memory registrar *)

Abbreviation RegKey := (string * string)%type.

(** (Call-ID, CSeq, when in ms) of the request that removed a binding. *)
Abbreviation Tombstone := (string * Z * Z)%type.

Record InMemoryRegistrar := mkMem {
  regs : gmap RegKey Registration;
  tombstones : gmap RegKey Tombstone
}.

Definition empty_registrar : InMemoryRegistrar := mkMem ∅ ∅.

Definition tomb_live (now : Z) (t : Tombstone) : bool :=
  sat_sub (unix_now_ms now) t.2 <? TOMBSTONE_TTL_MS.

Definition entomb (now : Z) (key : RegKey) (dialog : Dialog) (m : InMemoryRegistrar) :
    InMemoryRegistrar :=
  match dialog with
  | None => m
  | Some (cid, cseq) =>
      let put t := mkMem (regs m) (<[key := (cid, cseq, unix_now_ms now)]> t) in
      if MAX_TOMBSTONES <=? Z.of_nat (size (tombstones m)) then
        let t := filter (fun kt => tomb_live now kt.2 = true) (tombstones m) in
        if MAX_TOMBSTONES <=? Z.of_nat (size t) then mkMem (regs m) t else put t
      else put (tombstones m)
  end.

(** Older by (registration time, expiry). *)
Definition older (a b : RegKey * Registration) : bool :=
  (registered_at_ms a.2 <? registered_at_ms b.2) ||
  ((registered_at_ms a.2 =? registered_at_ms b.2) && (expires_at a.2 <? expires_at b.2)).

Section InMemory.
Context {HI : HashIter RegKey Registration}.

(** [evict_oldest_while]: one binding leaves per turn, so [size m] turns
    empty the map. *)
Fixpoint evict_loop (fuel : nat) (full : gmap RegKey Registration -> bool)
    (m : gmap RegKey Registration) : gmap RegKey Registration :=
  match fuel with
  | O => m
  | S fuel =>
      if full m then
        match min_by older (hiter m) with
        | None => m
        | Some (k, _) => evict_loop fuel full (delete k m)
        end
      else m
  end.

Definition evict_oldest_while (full : gmap RegKey Registration -> bool)
    (m : gmap RegKey Registration) : gmap RegKey Registration :=
  evict_loop (S (size m)) full m.

(** The bindings of an AOR, in iteration order. *)
Definition of_aor (a : string) (m : gmap RegKey Registration) : list (RegKey * Registration) :=
  List.filter (fun e => seqb e.1.1 a) (hiter m).

Definition aor_full (a : string) (m : gmap RegKey Registration) : bool :=
  MAX_BINDINGS_PER_AOR <=? Z.of_nat (length (of_aor a m)).

Definition table_full (m : gmap RegKey Registration) : bool :=
  MAX_BINDINGS_TOTAL <=? Z.of_nat (size m).

Definition mem_register (reg : Registration) (s : InMemoryRegistrar) :
    Registration * InMemoryRegistrar :=
  let key := (aor reg, reg_binding_key reg) in
  let map := regs s in
  match map !! key with
  | Some existing =>
      if seqb (call_id existing) (call_id reg) && (cseq reg <=? cseq existing) then (existing, s)
      else
        let r := refresh_from existing reg in
        (r, mkMem (<[key := r]> map) (tombstones s))
  | None =>
      let map := evict_oldest_while (aor_full (aor reg)) map in
      let map := evict_oldest_while table_full map in
      (reg, mkMem (<[key := reg]> map) (tombstones s))
  end.

Definition mem_unregister_binding (now : Z) (a k : string) (dialog : Dialog)
    (s : InMemoryRegistrar) : option Registration * InMemoryRegistrar :=
  let key := (a, k) in
  match regs s !! key with
  | None => (None, s)
  | Some existing =>
      let keep :=
        match dialog with
        | Some (cid, cs) =>
            if seqb (call_id existing) cid then cs <=? cseq existing
            else sat_sub (unix_now_ms now) (registered_at_ms existing) <? 500
        | None => false
        end in
      if keep then (None, s)
      else (Some existing, entomb now key dialog (mkMem (delete key (regs s)) (tombstones s)))
  end.

(** Which bindings a wildcard removes. *)
Definition wipes (a : string) (dialog : Dialog) (e : RegKey * Registration) : bool :=
  seqb e.1.1 a &&
  match dialog with
  | Some (cid, cs) => negb (seqb (call_id e.2) cid && (cs <=? cseq e.2))
  | None => true
  end.

Definition mem_unregister_all (now : Z) (a : string) (dialog : Dialog)
    (s : InMemoryRegistrar) : list Registration * InMemoryRegistrar :=
  let gone := List.filter (wipes a dialog) (hiter (regs s)) in
  let map := foldl (fun m k => delete k m) (regs s) gone.*1 in
  (gone.*2, foldl (fun t k => entomb now k dialog t) (mkMem map (tombstones s)) gone.*1).

Definition mem_lookup (now : Z) (a : string) (s : InMemoryRegistrar) : list Registration :=
  (List.filter (fun e => seqb e.1.1 a && (unix_now now <? expires_at e.2)) (hiter (regs s))).*2.

Definition mem_is_out_of_order (now : Z) (a k cid : string) (cs : Z) (s : InMemoryRegistrar) : bool :=
  match regs s !! (a, k) with
  | Some existing => seqb (call_id existing) cid && (cs <=? cseq existing)
  | None =>
      match tombstones s !! (a, k) with
      | Some t => tomb_live now t && seqb t.1.1 cid && (cs <=? t.1.2)
      | None => false
      end
  end.

Definition mem_cleanup_expired (now : Z) (s : InMemoryRegistrar) :
    list Registration * InMemoryRegistrar :=
  let tombs := filter (fun kt => tomb_live now kt.2 = true) (tombstones s) in
  let gone := List.filter (fun e : RegKey * Registration => expires_at e.2 <=? unix_now now) (hiter (regs s)) in
  (gone.*2, mkMem (foldl (fun m k => delete k m) (regs s) gone.*1) tombs).

Definition unexpired (now : Z) (s : InMemoryRegistrar) : list Registration :=
  List.filter (fun r => unix_now now <? expires_at r) (hiter (regs s)).*2.

Definition mem_count (now : Z) (s : InMemoryRegistrar) : Z := Z.of_nat (length (unexpired now s)).

Definition mem_all_registrations : Z -> InMemoryRegistrar -> list Registration := unexpired.

Definition mem_registered_users (now : Z) (source_ip : string) (s : InMemoryRegistrar) :
    list string * list string :=
  foldl (fun acc r =>
    match uri_user (aor r) with
    | None => acc
    | Some user =>
        ((if seqb (received_ip r) source_ip then acc.1 ++ [user] else acc.1)%list,
         (acc.2 ++ [user])%list)
    end) ([], []) (unexpired now s).

Definition mem_ops : RegistrarOps InMemoryRegistrar :=
  mkOps mem_register mem_unregister_binding mem_unregister_all mem_lookup mem_is_out_of_order.
End InMemory.

(** ** Contact parsing *)

Record ContactBinding := mkContact {
  uri : string;
  c_expires : option Z;
  c_instance_id : option string;
  c_reg_id : option Z
}.

(** The loop of [split_contacts]: the current item reversed, the quote flag
    and the bracket depth. *)
Fixpoint split_contacts_loop (cur : string) (quoted : bool) (depth : Z) (s : string) : list string :=
  match s with
  | "" => [String.rev cur]
  | String c s =>
      if bool_decide (c = "034"%char) then split_contacts_loop (String c cur) (negb quoted) depth s
      else if bool_decide (c = "<"%char) && negb quoted
      then split_contacts_loop (String c cur) quoted (depth + 1) s
      else if bool_decide (c = ">"%char) && negb quoted
      then split_contacts_loop (String c cur) quoted (depth - 1) s
      else if bool_decide (c = ","%char) && negb quoted && (depth <=? 0)
      then String.rev cur :: split_contacts_loop "" quoted depth s
      else split_contacts_loop (String c cur) quoted depth s
  end.

Definition split_contacts (value : string) : list string :=
  List.filter (fun s => negb (seqb s "")) (trim <$> split_contacts_loop "" false 0 value).

Definition contact_angle (item : string) : option (nat * nat) :=
  match find_char "<" item with
  | None => None
  | Some a =>
      match find_char ">" (sdrop a item) with
      | Some off => Some (a, (a + off)%nat)
      | None => None
      end
  end.

(** The URI of an item and its parameters. *)
Definition contact_parts (item : string) : result string (string * list string) :=
  match contact_angle item with
  | Some (a, b) =>
      Ok (trim (sslice (a + 1) b item), trim <$> tail (split ";" (sdrop (b + 1) item)))
  | None =>
      if contains_char "<" item || contains_char ">" item
      then Err ("unbalanced angle brackets in Contact '" +:+ item +:+ "'")
      else
        let parts := split ";" item in
        Ok (trim (default "" (head parts)), trim <$> tail parts)
  end.

Definition contact_param (b : ContactBinding) (p : string) : result string ContactBinding :=
  let '(name, val) :=
    match split_once "=" p with
    | Some (n, v) => (to_ascii_lowercase (trim n), trim_matches "034" (trim v))
    | None => (to_ascii_lowercase (trim p), "")
    end in
  if seqb name "expires" then
    let? v := ok_or (parse_uint u32_max val) ("bad expires '" +:+ val +:+ "' in Contact") in
    Ok (mkContact (uri b) (Some v) (c_instance_id b) (c_reg_id b))
  else if seqb name "+sip.instance" then
    Ok (mkContact (uri b) (c_expires b) (Some val) (c_reg_id b))
  else if seqb name "reg-id" then
    Ok (mkContact (uri b) (c_expires b) (c_instance_id b) (parse_uint u32_max val))
  else Ok b.

Fixpoint contact_params (b : ContactBinding) (ps : list string) : result string ContactBinding :=
  match ps with
  | [] => Ok b
  | p :: ps => let? b := contact_param b p in contact_params b ps
  end.

Definition parse_contact (item : string) : result string ContactBinding :=
  let? (uri, params) := contact_parts item in
  if negb (starts_with "sip:" uri || starts_with "sips:" uri)
     || (negb (contains_char "@" uri) && negb (contains_char ":" uri))
  then Err ("not a SIP URI in Contact '" +:+ item +:+ "'")
  else contact_params (mkContact uri None None None) params.

Fixpoint parse_contacts (items : list string) : result string (list ContactBinding) :=
  match items with
  | [] => Ok []
  | i :: items => let? b := parse_contact i in let? bs := parse_contacts items in Ok (b :: bs)
  end.

(** [Ok None] is the wildcard. *)
Definition parse_contact_header (value : string) : result string (option (list ContactBinding)) :=
  if seqb (trim value) "*" then Ok None
  else
    let? out := parse_contacts (split_contacts value) in
    match out with [] => Err "empty Contact" | _ => Ok (Some out) end.

(** ** The REGISTER handler *)

Record RegisterRequest := mkReq {
  rq_aor : string;
  rq_contacts : list ContactBinding;
  rq_wildcard : bool;
  rq_expires_header : option Z;
  rq_call_id : string;
  rq_cseq : Z;
  rq_source_ip : string;
  rq_source_port : Z;
  rq_transport : string;
  rq_user_agent : option string;
  rq_reply_tx : option Z
}.

Inductive RegisterResult :=
  | RegOk (bindings registered removed : list Registration) (granted : option Z)
  | IntervalTooBrief (mn : Z)
  | BadRequest (msg : string).

(** The interval a contact asks for. *)
Definition asked (policy : RegisterPolicy) (req : RegisterRequest) (c : ContactBinding) : Z :=
  match c_expires c with
  | Some e => e
  | None => default (default_expires policy) (rq_expires_header req)
  end.

(** The first loop: every interval is checked before anything is stored. *)
Fixpoint make_plan (policy : RegisterPolicy) (req : RegisterRequest) (cs : list ContactBinding) :
    option (list (ContactBinding * Z)) :=
  match cs with
  | [] => Some []
  | c :: cs =>
      let a := asked policy req c in
      if (0 <? a) && (a <? min_expires policy) then None
      else match make_plan policy req cs with
           | None => None
           | Some plan => Some ((c, Z.min a (max_expires policy)) :: plan)
           end
  end.

Definition contact_key (c : ContactBinding) : string :=
  binding_key (uri c) (c_instance_id c) (c_reg_id c).

Section Handler.
Context {S : Type} (O : RegistrarOps S).

(** What one contact of the plan did to the registrar. *)
Inductive contact_effect :=
  | EffSkipped
  | EffRemoved (r : option Registration)
  | EffRegistered (r : Registration) (expires : Z).

(** The [Registration] built for a contact. *)
Definition fresh_registration (now : Z) (req : RegisterRequest) (c : ContactBinding)
    (expires : Z) : Registration :=
  let r := Registration_new now (rq_aor req) (uri c) expires (rq_call_id req) (rq_cseq req)
             (rq_source_ip req) (rq_source_port req) (rq_transport req) in
  mkReg (aor r) (contact r) (Registrar.expires r) (registered_at r) (registered_at_ms r)
    (expires_at r) (call_id r) (cseq r) (rq_user_agent req) (received_ip r) (received_port r)
    (transport r) (rq_reply_tx req) (c_instance_id c) (c_reg_id c).

(** One turn of the second loop. *)
Definition apply_contact (now : Z) (req : RegisterRequest) (ce : ContactBinding * Z) (s : S) :
    contact_effect * S :=
  let '(c, expires) := ce in
  let key := contact_key c in
  if is_out_of_order O now (rq_aor req) key (rq_call_id req) (rq_cseq req) s then (EffSkipped, s)
  else if expires =? 0 then
    let '(r, s) := unregister_binding O now (rq_aor req) key
                     (Some (rq_call_id req, rq_cseq req)) s in
    (EffRemoved r, s)
  else
    let '(r, s) := register O (fresh_registration now req c expires) s in
    (EffRegistered r expires, s).

Fixpoint apply_plan (now : Z) (req : RegisterRequest) (plan : list (ContactBinding * Z))
    (registered removed : list Registration) (granted : option Z) (s : S) :
    list Registration * list Registration * option Z * S :=
  match plan with
  | [] => (registered, removed, granted, s)
  | ce :: plan =>
      let '(eff, s) := apply_contact now req ce s in
      match eff with
      | EffSkipped => apply_plan now req plan registered removed granted s
      | EffRemoved None => apply_plan now req plan registered removed granted s
      | EffRemoved (Some r) => apply_plan now req plan registered (removed ++ [r])%list granted s
      | EffRegistered r e =>
          apply_plan now req plan (registered ++ [r])%list removed
            (match granted with None => Some e | _ => granted end) s
      end
  end.

(** [RegisterHandler::process], at one instant [now]. *)
Definition process (now : Z) (policy : RegisterPolicy) (req : RegisterRequest) (s : S) :
    RegisterResult * S :=
  if rq_wildcard req then
    match rq_contacts req with
    | _ :: _ => (BadRequest "Contact: * cannot be combined with other contacts", s)
    | [] =>
        match rq_expires_header req with
        | Some 0 =>
            let '(removed, s) := unregister_all O now (rq_aor req)
                                   (Some (rq_call_id req, rq_cseq req)) s in
            (RegOk [] [] removed None, s)
        | _ => (BadRequest "Contact: * requires Expires: 0", s)
        end
    end
  else
    match rq_contacts req with
    | [] => (RegOk (lookup_aor O now (rq_aor req) s) [] [] None, s)
    | _ =>
        let n := Z.of_nat (length (rq_contacts req)) in
        if MAX_CONTACTS_PER_REQUEST <? n then
          (BadRequest ("too many Contact bindings in one REGISTER (" +:+ show n +:+ ", max "
                       +:+ show MAX_CONTACTS_PER_REQUEST +:+ ")"), s)
        else
          match make_plan policy req (rq_contacts req) with
          | None => (IntervalTooBrief (min_expires policy), s)
          | Some plan =>
              let '(registered, removed, granted, s) := apply_plan now req plan [] [] None s in
              (RegOk (lookup_aor O now (rq_aor req) s) registered removed granted, s)
          end
    end.

(** [RegisterHandler::lookup] *)
Definition handler_lookup (now : Z) (a : string) (s : S) : list Registration :=
  let normalized := canonical_aor a in
  match lookup_aor O now normalized s with
  | [] =>
      if negb (starts_with "sip:" normalized) && negb (starts_with "sips:" normalized)
      then lookup_aor O now ("sip:" +:+ normalized) s else []
  | results => results
  end.
End Handler.

(** ** What the handler relies on

    [view s k] is the binding of key [k]; [wf] the registrar's own invariant. A
    registration touches no other binding except by evicting it, and evicts
    only when it stores a new key. *)
Class RegistrarLaws {S : Type} (O : RegistrarOps S) (view : S -> RegKey -> option Registration)
    (wf : S -> Prop) : Prop := {
  law_register s reg r s' :
    wf s -> register O reg s = (r, s') ->
    wf s' /\ view s' (aor reg, reg_binding_key reg) = Some r /\
    match view s (aor reg, reg_binding_key reg) with
    | Some old =>
        if seqb (call_id old) (call_id reg) && (cseq reg <=? cseq old) then r = old /\ s' = s
        else r = refresh_from old reg /\
             forall k, k <> (aor reg, reg_binding_key reg) -> view s' k = view s k
    | None => r = reg /\
             forall k, k <> (aor reg, reg_binding_key reg) -> view s' k = view s k \/ view s' k = None
    end;
  law_unregister_binding now s a k d r s' :
    wf s -> unregister_binding O now a k d s = (r, s') ->
    wf s' /\ (forall k', k' <> (a, k) -> view s' k' = view s k') /\
    match r with
    | Some old => view s (a, k) = Some old /\ view s' (a, k) = None
    | None => s' = s
    end;
  law_unregister_all now s a d r s' :
    wf s -> unregister_all O now a d s = (r, s') ->
    wf s' /\ forall k,
      view s' k = match view s k with
                  | Some reg => if wipes a d (k, reg) then None else Some reg
                  | None => None
                  end;
  law_lookup now s a r :
    r ∈ lookup_aor O now a s <->
    exists k, view s (a, k) = Some r /\ unix_now now < expires_at r;
  law_out_of_order now s a k cid cs old :
    view s (a, k) = Some old ->
    is_out_of_order O now a k cid cs s = seqb (call_id old) cid && (cs <=? cseq old)
}.

(** ** The in-memory registrar keeps the laws *)

Section InMemoryLemmas.
Context {HI : HashIter RegKey Registration}.
Implicit Types (m : gmap RegKey Registration) (s : InMemoryRegistrar).

(** *** Eviction *)

Lemma evict_loop_sub fuel full m : evict_loop fuel full m ⊆ m.
Proof.
  revert m. induction fuel as [|n IH]; intros m; simpl; [done|].
  destruct (full m); [|done]. destruct (min_by _ _) as [[k r]|]; [|done].
  etrans; [apply IH|]. apply delete_subseteq.
Qed.

Lemma evict_loop_done fuel full m :
  (size m < fuel)%nat -> full (evict_loop fuel full m) = false \/ evict_loop fuel full m = ∅.
Proof.
  revert m. induction fuel as [|n IH]; intros m Hs; [lia|]. simpl.
  destruct (full m) eqn:E; [|by left].
  destruct (min_by older (hiter m)) as [[k r]|] eqn:Em.
  - apply min_by_elem, elem_of_hiter in Em. apply IH.
    rewrite map_size_delete_Some by eauto.
    assert (size m <> 0)%nat by (by eapply map_size_ne_0_lookup_2; eauto). lia.
  - apply min_by_none, hiter_nil in Em. by right.
Qed.

Lemma evict_not_full full m :
  full ∅ = false -> full (evict_oldest_while full m) = false.
Proof.
  intros H0. unfold evict_oldest_while.
  destruct (evict_loop_done (S (size m)) full m) as [|E]; [lia|done|by rewrite E].
Qed.

Lemma evict_noop full m : full m = false -> evict_oldest_while full m = m.
Proof. intros E. unfold evict_oldest_while. simpl. by rewrite E. Qed.

(** *** Counting the bindings of an AOR *)

Lemma of_aor_keys a m : NoDup (of_aor a m).*1.
Proof.
  unfold of_aor. assert (Hn := hiter_nodup m). induction (hiter m) as [|x l IH]; simpl; [done|].
  apply NoDup_cons in Hn as [Hx Hn]. destruct (seqb _ _); [|auto]. simpl.
  apply NoDup_cons. split; [|auto]. intros Hin. apply Hx.
  apply list_elem_of_fmap in Hin as (y & -> & Hy). apply elem_of_filter_bool in Hy as [Hy _].
  apply list_elem_of_fmap. eauto.
Qed.

Lemma elem_of_aor_keys a m k : k ∈ (of_aor a m).*1 <-> k.1 = a /\ is_Some (m !! k).
Proof.
  unfold of_aor. rewrite list_elem_of_fmap. split.
  - intros ([k' r] & -> & Hin). apply elem_of_filter_bool in Hin as [Hin Ha].
    apply elem_of_hiter in Hin. apply seqb_true in Ha. simpl in *. eauto.
  - intros [Ha [r Hr]]. exists (k, r). split; [done|]. apply elem_of_filter_bool.
    split; [by apply elem_of_hiter|]. by apply seqb_true.
Qed.

Lemma of_aor_length_le a m m' l :
  (forall k, k.1 = a -> is_Some (m' !! k) -> k ∈ l ++ (of_aor a m).*1) ->
  (length (of_aor a m') <= length l + length (of_aor a m))%nat.
Proof.
  intros Hs. rewrite <- (length_fmap fst (of_aor a m')), <- (length_fmap fst (of_aor a m)).
  rewrite <- length_app. apply submseteq_length, NoDup_submseteq; [apply of_aor_keys|].
  intros k Hk. apply elem_of_aor_keys in Hk as [? ?]. auto.
Qed.

Lemma of_aor_length_sub a m m' : m' ⊆ m -> (length (of_aor a m') <= length (of_aor a m))%nat.
Proof.
  intros Hs. apply (of_aor_length_le a m m' []). intros k Ha [r Hr].
  apply elem_of_aor_keys. split; [done|]. exists r. by eapply lookup_weaken.
Qed.

(** *** The registrar's invariant *)

Record reg_inv s : Prop := {
  ri_key : forall k r, regs s !! k = Some r -> k = (aor r, reg_binding_key r);
  ri_total : Z.of_nat (size (regs s)) <= MAX_BINDINGS_TOTAL;
  ri_aor : forall a, Z.of_nat (length (of_aor a (regs s))) <= MAX_BINDINGS_PER_AOR;
  ri_tombs : Z.of_nat (size (tombstones s)) <= MAX_TOMBSTONES
}.

Lemma aor_full_empty a : aor_full a ∅ = false.
Proof. unfold aor_full, of_aor. by rewrite (proj2 (hiter_nil ∅) eq_refl). Qed.

Lemma reg_inv_sub s m' t' :
  reg_inv s -> m' ⊆ regs s -> Z.of_nat (size t') <= MAX_TOMBSTONES -> reg_inv (mkMem m' t').
Proof.
  intros [] Hs Ht. constructor; simpl; try done.
  - intros k r Hk. eapply ri_key0, lookup_weaken; eauto.
  - apply map_subseteq_size in Hs. lia.
  - intros a. specialize (ri_aor0 a). apply (of_aor_length_sub a) in Hs. lia.
Qed.

Lemma reg_inv_empty : reg_inv empty_registrar.
Proof.
  constructor; simpl; try done.
  intros a. unfold of_aor. by rewrite (proj2 (hiter_nil ∅) eq_refl).
Qed.

Lemma register_inv reg s : reg_inv s -> reg_inv (mem_register reg s).2.
Proof.
  intros HI'. unfold mem_register. set (key := (aor reg, reg_binding_key reg)).
  destruct (regs s !! key) as [old|] eqn:E.
  - destruct (_ && _); [done|]. simpl. destruct HI'. constructor; simpl; try done.
    + intros k r. destruct (decide (k = key)) as [->|Hne].
      * rewrite lookup_insert_eq. intros [= <-]. apply ri_key0 in E. unfold key in *.
        injection E as -> _. done.
      * rewrite lookup_insert_ne by done. auto.
    + by rewrite map_size_insert_Some by eauto.
    + intros a. assert (Hl := of_aor_length_le a (regs s) (<[key:=refresh_from old reg]> (regs s)) []).
      specialize (ri_aor0 a). simpl in Hl. enough (H' : (length (of_aor a (<[key:=refresh_from old reg]> (regs s)))
        <= length (of_aor a (regs s)))%nat) by lia. apply Hl.
      intros k Ha Hk. apply elem_of_aor_keys. split; [done|].
      destruct (decide (k = key)) as [->|Hne]; [eauto|]. by rewrite lookup_insert_ne in Hk.
  - simpl. set (m1 := evict_oldest_while (aor_full (aor reg)) (regs s)).
    set (m2 := evict_oldest_while table_full m1).
    assert (H1 : m1 ⊆ regs s) by apply evict_loop_sub.
    assert (H2 : m2 ⊆ m1) by apply evict_loop_sub.
    assert (H3 : aor_full (aor reg) m1 = false) by apply evict_not_full, aor_full_empty.
    assert (H4 : table_full m2 = false) by by apply evict_not_full.
    unfold aor_full, table_full in *. to_prop. destruct HI'.
    assert (Hk : m2 !! key = None).
    { destruct (m2 !! key) as [r|] eqn:Er; [|done]. exfalso.
      eapply lookup_weaken in Er; [|etrans; [exact H2|exact H1]]. congruence. }
    constructor; simpl; try done.
    + intros k r. destruct (decide (k = key)) as [->|Hne].
      * rewrite lookup_insert_eq. by intros [= <-].
      * rewrite lookup_insert_ne by done. intros Hr. eapply ri_key0, lookup_weaken; [exact Hr|].
        by etrans.
    + rewrite map_size_insert_None by done. lia.
    + intros a. destruct (decide (a = aor reg)) as [->|Hne].
      * assert (Hl := of_aor_length_le (aor reg) m1 (<[key:=reg]> m2) [key]).
        simpl in Hl. enough (H' : (length (of_aor (aor reg) (<[key:=reg]> m2)) <=
          S (length (of_aor (aor reg) m1)))%nat) by lia. apply Hl.
        intros k Ha Hk'. destruct (decide (k = key)) as [->|Hkk]; [left|right].
        apply elem_of_aor_keys. split; [done|]. rewrite lookup_insert_ne in Hk' by done.
        destruct Hk' as [r Hr]. exists r. by eapply lookup_weaken.
      * assert (Hl := of_aor_length_le a (regs s) (<[key:=reg]> m2) []).
        specialize (ri_aor0 a). simpl in Hl. enough (H' : (length (of_aor a (<[key:=reg]> m2)) <=
          length (of_aor a (regs s)))%nat) by lia. apply Hl.
        intros k Ha [r Hr]. apply elem_of_aor_keys. split; [done|]. exists r.
        assert (k <> key) by (intros ->; unfold key in Ha; simpl in Ha; congruence).
        rewrite lookup_insert_ne in Hr by done. eapply lookup_weaken; [exact Hr|]. by etrans.
Qed.

(** *** Removal *)

Lemma lookup_foldl_delete (ks : list RegKey) m k :
  foldl (fun m k => delete k m) m ks !! k = if decide (k ∈ ks) then None else m !! k.
Proof.
  revert m. induction ks as [|k0 ks IH]; intros m; simpl; [done|]. rewrite IH.
  destruct (decide (k ∈ ks)); [rewrite decide_True by set_solver; done|].
  destruct (decide (k = k0)) as [->|Hne].
  - rewrite decide_True by set_solver. apply lookup_delete_eq.
  - rewrite decide_False by set_solver. by apply lookup_delete_ne.
Qed.

Lemma foldl_delete_sub (ks : list RegKey) m : foldl (fun m k => delete k m) m ks ⊆ m.
Proof.
  apply map_subseteq_spec. intros k r. rewrite lookup_foldl_delete. by destruct (decide _).
Qed.

Lemma entomb_regs now k d s : regs (entomb now k d s) = regs s.
Proof. unfold entomb. destruct d as [[cid cs]|]; [|done]. by repeat case_test. Qed.

Lemma entomb_put now k cid cs s :
  Z.of_nat (size (tombstones s)) < MAX_TOMBSTONES ->
  entomb now k (Some (cid, cs)) s =
  mkMem (regs s) (<[k := (cid, cs, unix_now_ms now)]> (tombstones s)).
Proof. intros Hs. unfold entomb. apply Z.leb_gt in Hs. by rewrite Hs. Qed.

Lemma filter_size_le (P : RegKey * Tombstone -> Prop) `{forall x, Decision (P x)} (t : gmap RegKey Tombstone) :
  (size (filter P t) <= size t)%nat.
Proof. apply map_subseteq_size, map_filter_subseteq. Qed.

Lemma entomb_size now k d s :
  Z.of_nat (size (tombstones s)) <= MAX_TOMBSTONES ->
  Z.of_nat (size (tombstones (entomb now k d s))) <= MAX_TOMBSTONES.
Proof.
  intros Hs. unfold entomb. destruct d as [[cid cs]|]; [|done].
  assert (Hins : forall (t : gmap RegKey Tombstone) v,
    (size (<[k:=v]> t) <= S (size t))%nat).
  { intros t v. rewrite map_size_insert. destruct (t !! k); simpl; unfold id; lia. }
  repeat case_test; simpl; to_prop; try done.
  - assert (Hf := filter_size_le (fun kt => tomb_live now kt.2 = true) (tombstones s)). lia.
  - specialize (Hins (filter (fun kt => tomb_live now kt.2 = true) (tombstones s))
      (cid, cs, unix_now_ms now)). lia.
  - specialize (Hins (tombstones s) (cid, cs, unix_now_ms now)). lia.
Qed.

Lemma foldl_entomb now d (ks : list RegKey) s :
  Z.of_nat (size (tombstones s)) <= MAX_TOMBSTONES ->
  let s' := foldl (fun t k => entomb now k d t) s ks in
  regs s' = regs s /\ Z.of_nat (size (tombstones s')) <= MAX_TOMBSTONES.
Proof.
  revert s. induction ks as [|k ks IH]; intros s Hs; simpl; [done|].
  destruct (IH (entomb now k d s) (entomb_size _ _ _ _ Hs)) as [-> ?].
  by rewrite entomb_regs.
Qed.

Lemma unregister_inv now a k d s : reg_inv s -> reg_inv (mem_unregister_binding now a k d s).2.
Proof.
  intros Hi. unfold mem_unregister_binding. destruct (regs s !! _); [|done].
  case_match; [done|]. simpl.
  assert (Ht := entomb_size now (a, k) d (mkMem (delete (a, k) (regs s)) (tombstones s))
    (ri_tombs _ Hi)).
  assert (Hr := entomb_regs now (a, k) d (mkMem (delete (a, k) (regs s)) (tombstones s))).
  destruct (entomb _ _ _ _) as [m' t']. simpl in *. subst m'.
  apply (reg_inv_sub s); [done|apply delete_subseteq|done].
Qed.

Lemma unregister_all_inv now a d s : reg_inv s -> reg_inv (mem_unregister_all now a d s).2.
Proof.
  intros Hi. unfold mem_unregister_all. simpl.
  set (ks := (List.filter (wipes a d) (hiter (regs s))).*1).
  destruct (foldl_entomb now d ks (mkMem (foldl (fun m k => delete k m) (regs s) ks) (tombstones s)))
    as [Hr Ht]; [apply Hi|].
  destruct (foldl (fun t k => entomb now k d t) _ ks) as [m' t']. simpl in *. subst m'.
  apply (reg_inv_sub s); [done|apply foldl_delete_sub|done].
Qed.

Lemma cleanup_inv now s : reg_inv s -> reg_inv (mem_cleanup_expired now s).2.
Proof.
  intros Hi. unfold mem_cleanup_expired. simpl.
  apply (reg_inv_sub s); [done|apply foldl_delete_sub|].
  assert (Hf := filter_size_le (fun kt => tomb_live now kt.2 = true) (tombstones s)).
  destruct Hi. lia.
Qed.

(** Which keys a wildcard takes. *)
Lemma wiped_key a d m k :
  k ∈ (List.filter (wipes a d) (hiter m)).*1 <->
  exists r, m !! k = Some r /\ wipes a d (k, r) = true.
Proof.
  rewrite list_elem_of_fmap. split.
  - intros ([k' r] & -> & Hin). apply elem_of_filter_bool in Hin as [Hin Hw].
    apply elem_of_hiter in Hin. eauto.
  - intros (r & Hr & Hw). exists (k, r). split; [done|]. apply elem_of_filter_bool.
    by split; [apply elem_of_hiter|].
Qed.

#[export] Instance mem_laws : RegistrarLaws mem_ops (fun s k => regs s !! k) reg_inv.
Proof.
  constructor; simpl.
  - intros s reg r s' Hi E. assert (Hi' := register_inv reg s Hi). rewrite E in Hi'.
    split; [done|]. unfold mem_register in E.
    destruct (regs s !! (aor reg, reg_binding_key reg)) as [old|] eqn:Eo.
    + destruct (seqb (call_id old) (call_id reg) && (cseq reg <=? cseq old)); simplify_eq; [done|].
      simpl. split; [apply lookup_insert_eq|]. split; [done|].
      intros k Hk. by apply lookup_insert_ne.
    + simplify_eq/=. split; [apply lookup_insert_eq|]. split; [done|].
      intros k Hk. rewrite lookup_insert_ne by done.
      set (m1 := evict_oldest_while (aor_full _) (regs s)).
      set (m2 := evict_oldest_while table_full m1).
      assert (m2 ⊆ regs s) by (etrans; apply evict_loop_sub).
      destruct (m2 !! k) as [r'|] eqn:Er; [left|by right].
      symmetry. by eapply lookup_weaken.
  - intros now s a k d r s' Hi E. assert (Hi' := unregister_inv now a k d s Hi). rewrite E in Hi'.
    split; [done|]. unfold mem_unregister_binding in E.
    destruct (regs s !! (a, k)) as [old|] eqn:Eo; [|by simplify_eq].
    case_match; simplify_eq; [done|]. rewrite entomb_regs. simpl.
    split; [intros; by apply lookup_delete_ne|]. split; [done|apply lookup_delete_eq].
  - intros now s a d r s' Hi E. assert (Hi' := unregister_all_inv now a d s Hi). rewrite E in Hi'.
    split; [done|]. unfold mem_unregister_all in E. simplify_eq. intros k.
    destruct (foldl_entomb now d (List.filter (wipes a d) (hiter (regs s))).*1
      (mkMem (foldl (fun m k => delete k m) (regs s) (List.filter (wipes a d) (hiter (regs s))).*1)
         (tombstones s)) (ri_tombs _ Hi)) as [-> _]. simpl. rewrite lookup_foldl_delete.
    destruct (decide (k ∈ _)) as [Hin|Hn].
    + apply wiped_key in Hin as (r & -> & ->). done.
    + destruct (regs s !! k) as [r|] eqn:Er; [|done].
      destruct (wipes a d (k, r)) eqn:Ew; [|done]. exfalso. apply Hn, wiped_key. eauto.
  - intros now s a r. unfold mem_lookup. rewrite list_elem_of_fmap. split.
    + intros ([[a' k] r'] & -> & Hin). apply elem_of_filter_bool in Hin as [Hin Hf]. simpl in Hf.
      apply elem_of_hiter in Hin. apply andb_prop in Hf as [Ha Hf]. apply seqb_true in Ha as ->.
      to_prop. eauto.
    + intros (k & Hk & Hlt). exists ((a, k), r). split; [done|]. apply elem_of_filter_bool.
      split; [by apply elem_of_hiter|]. simpl. rewrite seqb_refl. simpl. by apply Z.ltb_lt.
  - intros now s a k cid cs old Ho. unfold mem_is_out_of_order. by rewrite Ho.
Qed.
End InMemoryLemmas.

(** ** Intervals *)


Definition req_ok (req : RegisterRequest) : Prop :=
  (forall e, rq_expires_header req = Some e -> 0 <= e) /\
  Forall (fun c => forall e, c_expires c = Some e -> 0 <= e) (rq_contacts req).

Lemma asked_nonneg policy req c :
  policy_ok policy -> req_ok req -> c ∈ rq_contacts req -> 0 <= asked policy req c.
Proof.
  intros (H1 & H2 & H3) [Hh Hc] Hin. rewrite Forall_forall in Hc. unfold asked.
  destruct (c_expires c) as [e|] eqn:E; [by eapply Hc|].
  destruct (rq_expires_header req) as [e|]; simpl; [by apply Hh|lia].
Qed.

Definition within (policy : RegisterPolicy) (e : Z) : Prop :=
  min_expires policy <= e <= max_expires policy.

Lemma make_plan_none policy req cs :
  make_plan policy req cs = None <->
  exists c, c ∈ cs /\ 0 < asked policy req c < min_expires policy.
Proof.
  induction cs as [|c cs IH]; simpl; [split; [done|set_solver]|].
  destruct (_ && _) eqn:E; to_prop.
  - split; [|done]. intros _. exists c. split; [left|lia].
  - destruct (make_plan policy req cs) as [plan|].
    + split; [done|]. intros (c' & Hin & Hc).
      apply elem_of_cons in Hin as [->|Hin].
      * destruct E as [E|E]; to_prop; lia.
      * enough (Some plan = None) by done. apply IH. eauto.
    + split; [|done]. intros _. destruct (proj1 IH eq_refl) as (c' & Hin & Hc).
      exists c'. split; [by right|done].
Qed.

Lemma make_plan_within policy req cs plan :
  policy_ok policy -> (forall c, c ∈ cs -> 0 <= asked policy req c) ->
  make_plan policy req cs = Some plan ->
  Forall (fun ce => ce.2 <> 0 -> within policy ce.2) plan.
Proof.
  intros (H1 & H2 & H3). revert plan. induction cs as [|c cs IH]; intros plan Ha; simpl.
  { intros [= <-]. constructor. }
  destruct (_ && _) eqn:E; [done|]. destruct (make_plan policy req cs) as [p|]; [|done].
  intros [= <-]. constructor; [|apply IH; [|done]; intros; apply Ha; by right].
  simpl. specialize (Ha c ltac:(left)). unfold within.
  apply andb_false_iff in E as [E|E]; to_prop; lia.
Qed.

(** ** The handler over any lawful registrar *)

Section HandlerTheorems.
Context {S : Type} (O : RegistrarOps S) (view : S -> RegKey -> option Registration)
  (wf : S -> Prop) {HL : RegistrarLaws O view wf}.
Implicit Types (s : S) (req : RegisterRequest) (c : ContactBinding).

Definition same_request req (r : Registration) : Prop :=
  call_id r = rq_call_id req /\ cseq r = rq_cseq req.

(** What one contact does, seen through [view]. *)
Definition contact_spec req c (e : Z) s (eff : contact_effect) s' : Prop :=
  let k := (rq_aor req, contact_key c) in
  match eff with
  | EffSkipped => s' = s
  | EffRemoved None => e = 0 /\ s' = s
  | EffRemoved (Some old) =>
      e = 0 /\ view s k = Some old /\ view s' k = None /\
      forall k', k' <> k -> view s' k' = view s k'
  | EffRegistered r e' =>
      e' = e /\ e <> 0 /\ view s' k = Some r /\ same_request req r /\
      contact r = uri c /\ Registrar.expires r = e /\
      forall k', k' <> k ->
        view s' k' = view s k' \/ (view s' k' = None /\ view s k = None)
  end.

Lemma apply_contact_in_order now req c e s eff s' old :
  apply_contact O now req (c, e) s = (eff, s') ->
  view s (rq_aor req, contact_key c) = Some old ->
  call_id old = rq_call_id req -> rq_cseq req <= cseq old -> eff = EffSkipped.
Proof.
  intros E Ho Hc Hcs. unfold apply_contact in E.
  erewrite law_out_of_order in E by exact Ho.
  rewrite Hc, seqb_refl in E. simpl in E. apply Z.leb_le in Hcs. rewrite Hcs in E.
  by simplify_eq.
Qed.

Lemma apply_contact_ok now req c e s eff s' :
  wf s -> apply_contact O now req (c, e) s = (eff, s') ->
  wf s' /\ contact_spec req c e s eff s'.
Proof.
  intros Hw E. assert (Hin := apply_contact_in_order now req c e s eff s'). specialize (Hin).
  pose proof E as E0. unfold apply_contact in E.
  destruct (is_out_of_order O _ _ _ _ _ _) eqn:Eo; [by simplify_eq|].
  destruct (e =? 0) eqn:Ee; to_prop.
  - destruct (unregister_binding O _ _ _ _ _) as [r s1] eqn:Eu. simplify_eq.
    apply law_unregister_binding in Eu as (Hw' & Hf & Hr); [|done]. split; [done|].
    destruct r as [old|]; simpl; [|done]. destruct Hr as [Hr1 Hr2].
    split_and!; done.
  - destruct (register O _ _) as [r s1] eqn:Er. simplify_eq.
    apply law_register in Er as (Hw' & Hv & Hr); [|done]. split; [done|].
    change (aor _, reg_binding_key _) with (rq_aor req, contact_key c) in Hv, Hr.
    destruct (view s (rq_aor req, contact_key c)) as [old|] eqn:Ev.
    + destruct (seqb _ _ && _) eqn:Es.
      { exfalso. to_prop. apply seqb_true in HP. simpl in *.
        by specialize (Hin old E0 eq_refl HP HP0). }
      destruct Hr as [-> Hr]. split_and!; try done. intros k' Hk'. left. auto.
    + destruct Hr as [-> Hr]. split_and!; try done. simpl. rewrite Ev.
      intros k' Hk'. destruct (Hr k' Hk'); eauto.
Qed.

Lemma apply_plan_wf now req plan reg rem g s :
  wf s -> wf (apply_plan O now req plan reg rem g s).2.
Proof.
  revert reg rem g s. induction plan as [|[c e] plan IH]; intros reg rem g s Hw; [done|].
  simpl. destruct (apply_contact O now req (c, e) s) as [eff s'] eqn:E.
  unfold apply_contact in E. simpl in E. rewrite E.
  apply apply_contact_ok in E as [Hw' _]; [|done].
  destruct eff as [|[r|]|r e']; auto.
Qed.

Lemma process_wf now policy req s : wf s -> wf (process O now policy req s).2.
Proof.
  intros Hw. unfold process. destruct (rq_wildcard req).
  - destruct (rq_contacts req); [|done]. destruct (rq_expires_header req) as [[]|]; try done.
    destruct (unregister_all O _ _ _ _) as [r s'] eqn:E.
    by apply law_unregister_all in E as [? _].
  - destruct (rq_contacts req) as [|c cs]; [done|]. case_test; [done|].
    destruct (make_plan _ _ _) as [plan|]; [|done].
    assert (Hp := apply_plan_wf now req plan [] [] None s Hw).
    by destruct (apply_plan O now req plan [] [] None s) as [[[? ?] ?] ?].
Qed.

(** What [apply_plan] collects: bindings of this request, with a granted
    interval of the plan. *)
Lemma apply_plan_registered now policy req plan reg rem g s :
  wf s -> Forall (fun ce => ce.2 <> 0 -> within policy ce.2) plan ->
  let good r := same_request req r /\ within policy (Registrar.expires r) in
  Forall good reg -> (forall e, g = Some e -> within policy e) ->
  let '(reg', _, g', _) := apply_plan O now req plan reg rem g s in
  Forall good reg' /\ forall e, g' = Some e -> within policy e.
Proof.
  intros Hw Hp good. revert reg rem g s Hw.
  induction plan as [|[c e] plan IH]; intros reg rem g s Hw Hr Hg; [by simpl|].
  inversion Hp as [|? ? Hce Hp']; subst. simpl in Hce.
  change (apply_plan O now req ((c, e) :: plan) reg rem g s) with
    (let '(eff, s) := apply_contact O now req (c, e) s in
     match eff with
     | EffSkipped => apply_plan O now req plan reg rem g s
     | EffRemoved None => apply_plan O now req plan reg rem g s
     | EffRemoved (Some r) => apply_plan O now req plan reg (rem ++ [r]) g s
     | EffRegistered r e => apply_plan O now req plan (reg ++ [r]) rem
          (match g with None => Some e | _ => g end) s
     end).
  destruct (apply_contact O now req (c, e) s) as [eff s'] eqn:E.
  apply apply_contact_ok in E as [Hw' Hs]; [|done].
  destruct eff as [|[r|]|r e']; try (by apply IH).
  destruct Hs as (-> & Hne & _ & Hsr & _ & He & _). specialize (Hce Hne).
  apply IH; try done.
  - apply Forall_app. split; [done|]. constructor; [|constructor]. split; [done|]. by rewrite He.
  - destruct g; [done|]. by intros ? [= <-].
Qed.
End HandlerTheorems.

(** ** Theorems: the handler *)

(** A REGISTER that is refused changes nothing: 423 is the answer exactly
    when some contact of a well-sized list asks for a non-zero interval below
    the minimum, and then, as for every 400, the registrar is as before. *)
Theorem process_refusals {S} (O : RegistrarOps S) now policy req s res s' :
  process O now policy req s = (res, s') ->
  (match res with RegOk _ _ _ _ => True | _ => s' = s end) /\
  ((exists mn, res = IntervalTooBrief mn) <->
   rq_wildcard req = false /\
   0 < Z.of_nat (length (rq_contacts req)) <= MAX_CONTACTS_PER_REQUEST /\
   exists c, c ∈ rq_contacts req /\ 0 < asked policy req c < min_expires policy).
Proof.
  unfold process. intros E. destruct (rq_wildcard req).
  { split; [by repeat case_match; simplify_eq|]. split; [|naive_solver].
    intros [mn ->]. by repeat case_match; simplify_eq. }
  destruct (rq_contacts req) as [|c cs] eqn:Ec.
  { simplify_eq. split; [done|]. split; [naive_solver|]. simpl. intros (_ & ? & _). lia. }
  rewrite <- Ec in *. assert (Hl : 0 < Z.of_nat (length (rq_contacts req))) by (rewrite Ec; simpl; lia).
  case_test; to_prop.
  { simplify_eq. split; [done|]. split; [naive_solver|]. intros (_ & ? & _). lia. }
  destruct (make_plan policy req (rq_contacts req)) as [plan|] eqn:Ep.
  - destruct (apply_plan O now req plan [] [] None s) as [[[? ?] ?] ?]. simplify_eq.
    split; [done|]. split; [naive_solver|]. intros (_ & _ & Hx).
    apply make_plan_none in Hx. congruence.
  - simplify_eq. split; [done|]. split; [|by eauto]. intros _.
    split_and!; try done. by apply make_plan_none.
Qed.

(** Whatever lawful registrar is behind it, a REGISTER stores only bindings
    of its own dialog and CSeq, for an interval between the policy's minimum
    and maximum, and reports such an interval as granted. *)
Theorem process_grants_within {S} (O : RegistrarOps S) view wf `{!RegistrarLaws O view wf}
    now policy req s bindings registered removed granted s' :
  wf s -> policy_ok policy -> req_ok req ->
  process O now policy req s = (RegOk bindings registered removed granted, s') ->
  Forall (fun r => same_request req r /\ within policy (Registrar.expires r)) registered /\
  (forall e, granted = Some e -> within policy e) /\
  (forall r, r ∈ bindings -> unix_now now < expires_at r).
Proof.
  intros Hw Hp Hreq E. unfold process in E. destruct (rq_wildcard req).
  { repeat case_match; simplify_eq. split_and!; [constructor|done|set_solver]. }
  assert (Hl : forall s r, r ∈ lookup_aor O now (rq_aor req) s -> unix_now now < expires_at r).
  { intros s0 r Hr. apply law_lookup in Hr as (k & _ & ?). done. }
  destruct (rq_contacts req) as [|c cs] eqn:Ec.
  { simplify_eq. split_and!; [constructor|done|by apply Hl]. }
  rewrite <- Ec in *. case_test; [done|].
  destruct (make_plan policy req (rq_contacts req)) as [plan|] eqn:Em; [|done].
  apply make_plan_within in Em; [|done|by intros; apply asked_nonneg].
  assert (Ha := apply_plan_registered O view wf now policy req plan [] [] None s Hw Em).
  destruct (apply_plan O now req plan [] [] None s) as [[[reg rem] g] s1]. simplify_eq.
  destruct Ha as [H1 H2]; [constructor|done|]. split_and!; [done|done|by apply Hl].
Qed.

(** ** Theorems: the in-memory registrar behind the handler *)

Section MemTheorems.
Context {HI : HashIter RegKey Registration}.

(** Requests, explicit removals (a closed WebSocket) and the sweeper. *)
Inductive registrar_step : InMemoryRegistrar -> InMemoryRegistrar -> Prop :=
  | rs_process now policy req s :
      registrar_step s (process mem_ops now policy req s).2
  | rs_unregister now a k d s : registrar_step s (mem_unregister_binding now a k d s).2
  | rs_cleanup now s : registrar_step s (mem_cleanup_expired now s).2.

(** Whatever requests arrive, no AOR ever holds more than ten bindings,
    the table never holds more than 5000, at most 4096 removals are
    remembered, and every binding is filed under its own AOR and key. *)
Theorem registrar_bounded s :
  rtc registrar_step empty_registrar s -> reg_inv s.
Proof.
  intros Hr. assert (Hi := reg_inv_empty).
  induction Hr as [|s1 s2 s3 Hs _ IH]; [done|]. apply IH. destruct Hs.
  - eapply (process_wf mem_ops (fun s k => regs s !! k) reg_inv); exact Hi.
  - by apply unregister_inv.
  - by apply cleanup_inv.
Qed.

Lemma process_single now policy req c s e :
  rq_wildcard req = false -> rq_contacts req = [c] -> make_plan policy req [c] = Some [(c, e)] ->
  process mem_ops now policy req s =
  let '(reg, rem, g, s) := apply_plan mem_ops now req [(c, e)] [] [] None s in
  (RegOk (mem_lookup now (rq_aor req) s) reg rem g, s).
Proof. intros Hw Hc Hp. unfold process. by rewrite Hw, Hc, Hp. Qed.

Lemma skipped_contact now policy req c s :
  rq_wildcard req = false -> rq_contacts req = [c] ->
  mem_is_out_of_order now (rq_aor req) (contact_key c) (rq_call_id req) (rq_cseq req) s = true ->
  (process mem_ops now policy req s).2 = s.
Proof.
  intros Hw Hc Ho. destruct (make_plan policy req [c]) as [plan|] eqn:Ep.
  - assert (exists e, plan = [(c, e)]) as [e ->].
    { simpl in Ep. case_match; [done|]. injection Ep as <-. eauto. }
    rewrite (process_single _ _ _ c _ e) by done. simpl. by rewrite Ho.
  - unfold process. by rewrite Hw, Hc, Ep.
Qed.

(** A retransmission is harmless: once a REGISTER with one contact has
    registered it, the same REGISTER received again, at any later time and
    under any policy, leaves the registrar exactly as it is. *)
Theorem retransmission_idempotent now now' policy policy' req c s r rest removed g bindings s' :
  reg_inv s -> rq_wildcard req = false -> rq_contacts req = [c] ->
  process mem_ops now policy req s = (RegOk bindings (r :: rest) removed g, s') ->
  (process mem_ops now' policy' req s').2 = s'.
Proof.
  intros Hi Hw Hc E. apply (skipped_contact now' policy' req c s' Hw Hc).
  destruct (make_plan policy req [c]) as [plan|] eqn:Ep.
  2: { unfold process in E. by rewrite Hw, Hc, Ep in E. }
  assert (exists e, plan = [(c, e)]) as [e ->].
  { simpl in Ep. case_match; [done|]. injection Ep as <-. eauto. }
  rewrite (process_single _ _ _ c _ e) in E by done.
  remember (apply_contact mem_ops now req (c, e) s) as as' eqn:Ea.
  destruct as' as [eff s1]. unfold apply_plan in E. rewrite <- Ea in E. symmetry in Ea.
  apply (apply_contact_ok mem_ops (fun s k => regs s !! k) reg_inv) in Ea as [Hi1 Hs]; [|done].
  destruct eff as [|[r1|]|r1 e1]; simplify_eq/=.
  destruct Hs as (_ & _ & Hv & [H1 H2] & _). unfold mem_is_out_of_order.
  rewrite Hv, H1, H2, seqb_refl. by apply Z.leb_refl.
Qed.

(** C38: a removed binding stays removed: after an un-REGISTER of dialog [cid]
    at CSeq [n], and while the removal is remembered (64 s, with room in the
    tombstone table), a request of that dialog for that binding whose CSeq is
    not higher changes nothing. *)
Theorem no_resurrection now now' policy req c s s' a cid n old :
  Z.of_nat (size (tombstones s)) < MAX_TOMBSTONES ->
  mem_unregister_binding now a (contact_key c) (Some (cid, n)) s = (Some old, s') ->
  rq_aor req = a -> rq_wildcard req = false -> rq_contacts req = [c] ->
  rq_call_id req = cid -> rq_cseq req <= n ->
  unix_now_ms now' - unix_now_ms now < TOMBSTONE_TTL_MS ->
  (process mem_ops now' policy req s').2 = s' /\ regs s' !! (a, contact_key c) = None.
Proof.
  intros Ht E Ha Hw Hc Hcid Hn Ht'. unfold mem_unregister_binding in E.
  destruct (regs s !! (a, contact_key c)) as [old'|] eqn:Eo; [|done].
  case_match; [done|]. rewrite entomb_put in E by done. injection E as <- <-.
  simpl. split; [|apply lookup_delete_eq].
  apply (skipped_contact now' policy req c _ Hw Hc). unfold mem_is_out_of_order. simpl.
  rewrite Ha, lookup_delete_eq, lookup_insert_eq, Hcid. unfold tomb_live. simpl.
  rewrite seqb_refl. apply Z.leb_le in Hn as ->. rewrite !andb_true_r. apply Z.ltb_lt.
  unfold sat_sub, TOMBSTONE_TTL_MS in *. lia.
Qed.

(** *** Whom the eviction hits *)

Lemma older_spec x y : older x y = true <->
  registered_at_ms x.2 < registered_at_ms y.2 \/
  (registered_at_ms x.2 = registered_at_ms y.2 /\ expires_at x.2 < expires_at y.2).
Proof. unfold older. rewrite orb_true_iff, andb_true_iff, !Z.ltb_lt, Z.eqb_eq. done. Qed.

Lemma older_false x y : older x y = false <->
  ~ (registered_at_ms x.2 < registered_at_ms y.2 \/
     (registered_at_ms x.2 = registered_at_ms y.2 /\ expires_at x.2 < expires_at y.2)).
Proof. rewrite <- not_true_iff_false, older_spec. done. Qed.

Lemma oldest_spec (m : gmap RegKey Registration) k r :
  min_by older (hiter m) = Some (k, r) ->
  m !! k = Some r /\ forall k' r', m !! k' = Some r' -> older (k', r') (k, r) = false.
Proof.
  intros Hm. apply min_by_spec in Hm as [Hin Hle].
  - split; [by apply elem_of_hiter|]. intros k' r' Hk'. by apply Hle, elem_of_hiter.
  - intros x y z. rewrite !older_false. lia.
  - intros x y. rewrite older_spec, older_false. lia.
  - intros x. rewrite older_false. lia.
Qed.

Lemma aor_full_delete (a : string) (k : RegKey) (m : gmap RegKey Registration) :
  k.1 <> a -> aor_full a (delete k m) = aor_full a m.
Proof.
  intros Hk. unfold aor_full.
  assert (length (of_aor a (delete k m)) = length (of_aor a m)) as ->; [|done].
  apply Nat.le_antisymm; [apply of_aor_length_sub, delete_subseteq|].
  apply (of_aor_length_le a (delete k m) m []). intros k' Ha Hk'.
  apply elem_of_aor_keys. split; [done|]. rewrite lookup_delete_ne; [done|]. by intros ->.
Qed.

Lemma evict_loop_hits (a : string) (k' : RegKey) (r' : Registration) (fuel : nat) (m : gmap RegKey Registration) :
  (size m < fuel)%nat -> aor_full a m = true -> k'.1 <> a -> m !! k' = Some r' ->
  (forall k r, m !! k = Some r -> k.1 = a -> older (k', r') (k, r) = true) ->
  evict_loop fuel (aor_full a) m !! k' = None.
Proof.
  revert m. induction fuel as [|n IH]; intros m Hs Hf Ha Hk Hold; [lia|]. simpl. rewrite Hf.
  destruct (min_by older (hiter m)) as [[k r]|] eqn:Em.
  2: { apply min_by_none, hiter_nil in Em as ->. by rewrite lookup_empty in Hk. }
  apply oldest_spec in Em as [Hkr Hmin].
  destruct (decide (k = k')) as [->|Hne].
  - destruct (evict_loop n _ _ !! k') eqn:E; [|done].
    eapply lookup_weaken in E; [|apply evict_loop_sub]. by rewrite lookup_delete_eq in E.
  - assert (k.1 <> a).
    { intros Hka. specialize (Hold k r Hkr Hka). specialize (Hmin k' r' Hk). congruence. }
    apply IH; try done.
    + rewrite map_size_delete_Some by eauto.
      assert (size m <> 0)%nat by (by eapply map_size_ne_0_lookup_2; eauto). lia.
    + by rewrite aor_full_delete.
    + by rewrite lookup_delete_ne.
    + intros k2 r2 Hk2. apply Hold. eapply lookup_weaken; [exact Hk2|apply delete_subseteq].
Qed.

(** The per-AOR cap does not evict "the oldest binding of this AOR
    first": when an AOR with ten bindings registers an eleventh, every binding
    of any other AOR that is older than all of its own is evicted. *)
Theorem eviction_hits_other_aors reg s (k' : RegKey) r' :
  regs s !! (aor reg, reg_binding_key reg) = None ->
  aor_full (aor reg) (regs s) = true ->
  regs s !! k' = Some r' -> k'.1 <> aor reg ->
  (forall k r, regs s !! k = Some r -> k.1 = aor reg -> older (k', r') (k, r) = true) ->
  regs (mem_register reg s).2 !! k' = None.
Proof.
  intros Hnew Hf Hk Ha Hold. unfold mem_register. rewrite Hnew. simpl.
  rewrite lookup_insert_ne by (by intros <-).
  set (m1 := evict_oldest_while (aor_full (aor reg)) (regs s)).
  assert (m1 !! k' = None) as H1 by (eapply evict_loop_hits; eauto).
  destruct (evict_oldest_while table_full m1 !! k') eqn:E; [|done].
  eapply lookup_weaken in E; [|apply evict_loop_sub]. congruence.
Qed.

(** A stale un-REGISTER cannot hit a fresh binding: one sent by another
    dialog less than 500 ms after the binding was stored, or by the same
    dialog at a CSeq that is not higher, removes nothing; any other removes
    the binding and nothing else. *)
Theorem unregister_race now a k cid n s r s' old :
  regs s !! (a, k) = Some old ->
  mem_unregister_binding now a k (Some (cid, n)) s = (r, s') ->
  (r = None <->
     (call_id old = cid /\ n <= cseq old) \/
     (call_id old <> cid /\ unix_now_ms now - registered_at_ms old < 500)) /\
  (r = None -> s' = s) /\
  (r <> None -> r = Some old /\ regs s' = delete (a, k) (regs s)).
Proof.
  intros Ho E. unfold mem_unregister_binding in E. rewrite Ho in E.
  assert (Hd := entomb_regs now (a, k) (Some (cid, n))
    (mkMem (delete (a, k) (regs s)) (tombstones s))).
  set (gone := entomb now (a, k) (Some (cid, n)) _) in *. clearbody gone.
  assert (Hk : forall b : bool, (if b then (None, s) else (Some old, gone)) = (r, s') ->
    (r = None <-> b = true) /\ (r = None -> s' = s) /\
    (r <> None -> r = Some old /\ regs s' = delete (a, k) (regs s))).
  { intros [] Eb; simplify_eq; naive_solver. }
  apply Hk in E as (-> & ? & ?). split; [|done]. clear Hk.
  destruct (seqb (call_id old) cid) eqn:Ec.
  - apply seqb_true in Ec. rewrite Z.leb_le. naive_solver.
  - assert (call_id old <> cid) by (intros Hc; apply seqb_true in Hc; congruence).
    rewrite Z.ltb_lt. unfold sat_sub. split; [right; split; [done|lia]|].
    intros [[? _]|[_ ?]]; [done|lia].
Qed.
End MemTheorems.

(** ** Witnesses *)

Module Witness.
#[local] Existing Instance canonical_iter.

Definition c1 : ContactBinding := mkContact "sip:alice@10.0.0.1:5060" (Some 600) None None.
Definition brief : ContactBinding := mkContact "sip:alice@10.0.0.1:5060" (Some 30) None None.
Definition req (c : ContactBinding) (n : Z) : RegisterRequest :=
  mkReq "sip:alice@x" [c] false None "call-1" n "10.0.0.1" 5060 "udp" None None.
Definition s1 : InMemoryRegistrar := (process mem_ops 0 default_policy (req c1 1) empty_registrar).2.

Lemma process_refusals_witness :
  exists s', process mem_ops 0 default_policy (req brief 1) s1 = (IntervalTooBrief 60, s') /\ s' = s1.
Proof.
  eexists. split; [reflexivity|].
  exact (proj1 (process_refusals mem_ops 0 default_policy (req brief 1) s1 _ _ eq_refl)).
Defined.

Lemma process_grants_within_witness :
  exists bs r s', process mem_ops 0 default_policy (req c1 1) empty_registrar
    = (RegOk bs [r] [] (Some 600), s') /\ within default_policy (Registrar.expires r).
Proof.
  eexists _, _, _. split; [vm_compute; reflexivity|].
  unshelve edestruct (process_grants_within mem_ops (fun s k => regs s !! k) reg_inv 0
    default_policy (req c1 1) empty_registrar) as [Hx _];
    [..|apply reg_inv_empty| | |vm_compute; reflexivity|]; try exact _.
  - split_and!; done.
  - split; [done|]. constructor; [|constructor]. by intros e [= <-].
  - inversion Hx as [|? ? [_ Hw] _]. exact Hw.
Defined.

Lemma registrar_bounded_witness : reg_inv s1 /\ size (regs s1) = 1%nat.
Proof.
  split; [|reflexivity]. apply registrar_bounded. apply rtc_once. apply rs_process.
Defined.

Lemma retransmission_idempotent_witness :
  (process mem_ops 5 default_policy (req c1 1) s1).2 = s1.
Proof.
  eapply (retransmission_idempotent 0 5 default_policy default_policy (req c1 1) c1 empty_registrar);
    [apply reg_inv_empty|done|done|vm_compute; reflexivity].
Defined.

Lemma no_resurrection_witness :
  (process mem_ops (millis 700) default_policy (req c1 1)
    (mem_unregister_binding (millis 600) "sip:alice@x" (contact_key c1) (Some ("call-1", 2)) s1).2).2
  = (mem_unregister_binding (millis 600) "sip:alice@x" (contact_key c1) (Some ("call-1", 2)) s1).2.
Proof.
  eapply (no_resurrection (millis 600) (millis 700) default_policy (req c1 1) c1 s1 _ "sip:alice@x" "call-1" 2);
    [done|vm_compute; reflexivity|done|done|done|done|done|done].
Defined.

Lemma unregister_race_witness :
  mem_unregister_binding (millis 400) "sip:alice@x" (contact_key c1) (Some ("other", 9)) s1 = (None, s1).
Proof.
  destruct (mem_unregister_binding (millis 400) "sip:alice@x" (contact_key c1) (Some ("other", 9)) s1)
    as [r s'] eqn:E.
  destruct (regs s1 !! ("sip:alice@x", contact_key c1)) as [old|] eqn:Eo; [|by vm_compute in Eo].
  destruct (unregister_race _ _ _ _ _ _ _ _ _ Eo E) as (H1 & H2 & _).
  assert (r = None) as ->; [|by rewrite H2].
  apply H1. right. vm_compute in Eo. injection Eo as <-. split; [done|reflexivity].
Defined.

(** Bob registered first; Alice then registered ten contacts. *)
Definition mk (a c : string) (t : Z) : Registration :=
  mkReg a c 600 0 t 600 "cid" 1 None "ip" 1 "UDP" None None None.
Definition alices : list Registration :=
  (fun n => mk "sip:alice@x" ("sip:a" +:+ show (Z.of_nat n)) (100 + Z.of_nat n)) <$> seq 0 10.
Definition crowded : InMemoryRegistrar :=
  foldl (fun s r => (mem_register r s).2) empty_registrar (mk "sip:bob@x" "sip:bob" 1 :: alices).

Lemma eviction_hits_other_aors_witness :
  regs (mem_register (mk "sip:alice@x" "sip:new" 500) crowded).2 !! ("sip:bob@x", "contact:sip:bob")
  = None.
Proof.
  apply (eviction_hits_other_aors _ _ _ (mk "sip:bob@x" "sip:bob" 1));
    [reflexivity|reflexivity|reflexivity|done|].
  intros k r Hk Ha. apply older_spec. left. apply elem_of_map_to_list in Hk.
  assert (Hall : Forall (fun e => e.1.1 = "sip:alice@x" -> 1 < registered_at_ms e.2)
    (map_to_list (regs crowded))).
  { vm_compute. repeat constructor; done. }
  rewrite Forall_forall in Hall. exact (Hall _ Hk Ha).
Defined.
End Witness.
