(* ===== verification/Srtp.v ===== *)
(** * SRTP and SRTCP (media/srtp_crypto.rs)

    Rollover and replay state per SSRC, the packet transforms, the IV and key
    derivation, and the SRTCP transforms. AES-CTR and HMAC-SHA1 are parameters:
    [aes_ctr k iv n] is the first [n] keystream bytes, [hmac_sha1 k m] the tag. *)

From S2P Require Import Prelude Bytes.

(** ** The state of one SSRC *)

Definition REPLAY_WINDOW : Z := 64.
Definition MAX_STREAMS : Z := 16.

Record StreamState := mkStream {
  roc : Z;
  s_l : Z;
  started : bool;
  highest_index : Z;
  replay : Z;
  last_used : Z
}.

Definition stream_default : StreamState := mkStream 0 0 false 0 0 0.

Definition mk_index (v seq : Z) : Z := Z.lor (Z.shiftl v 16) seq.

(** [checked_sub(1)], [checked_add(1)] on u32. *)
Definition checked_pred (v : Z) : option Z := if v =? 0 then None else Some (v - 1).
Definition checked_succ (v : Z) : option Z := if v =? u32_max then None else Some (v + 1).

(** [estimate]: the index nearest to [s_l], and its ROC. *)
Definition estimate (st : StreamState) (seq : Z) : option (Z * Z) :=
  if negb (started st) then Some (seq, 0)
  else
    let v :=
      if s_l st <? 32768 then
        if 32768 <? seq - s_l st then checked_pred (roc st) else Some (roc st)
      else if seq <? s_l st - 32768 then checked_succ (roc st)
      else Some (roc st) in
    match v with Some v => Some (mk_index v seq, v) | None => None end.

Definition accept (st : StreamState) (index v seq : Z) : StreamState :=
  if negb (started st) then mkStream v seq true index 1 (last_used st)
  else if highest_index st <? index then
    if negb (v =? roc st) && negb (v =? wrapw 32 (roc st + 1)) then st
    else
      let shift := index - highest_index st in
      let r := if 64 <=? shift then 0 else wrapw 64 (Z.shiftl (replay st) shift) in
      mkStream v seq true index (Z.lor r 1) (last_used st)
  else
    let behind := highest_index st - index in
    if behind <? 64 then
      mkStream (roc st) (s_l st) true (highest_index st)
        (Z.lor (replay st) (Z.shiftl 1 behind)) (last_used st)
    else st.

Definition is_replayed (st : StreamState) (index : Z) : bool :=
  if negb (started st) then false
  else if highest_index st <? index then false
  else
    let behind := highest_index st - index in
    if REPLAY_WINDOW <=? behind then true
    else negb (Z.land (replay st) (Z.shiftl 1 behind) =? 0).

(** ** The context *)

Record SrtpCrypto := mkSrtp {
  cipher_key : bytes;
  auth_key : bytes;
  salt_key : bytes;
  auth_tag_len : nat;
  send : gmap Z StreamState;
  recv : gmap Z StreamState;
  clock : Z
}.

(** The length checks of [SrtpCrypto::new] and [SrtcpCrypto::new]. *)
Definition check_keys (ck ak sk : bytes) (tl : nat) : sbc_result () :=
  if negb (length ck =? 16)%nat && negb (length ck =? 32)%nat
  then Err (EMedia "Invalid cipher key length")
  else if negb (length ak =? 20)%nat then Err (EMedia "Invalid auth key length")
  else if negb (length sk =? 14)%nat then Err (EMedia "Invalid salt key length")
  else if negb (tl =? 10)%nat && negb (tl =? 4)%nat
  then Err (EMedia "Invalid auth tag length")
  else Ok ().

Definition SrtpCrypto_new (ck ak sk : bytes) (tl : nat) : sbc_result SrtpCrypto :=
  let? _ := check_keys ck ak sk tl in Ok (mkSrtp ck ak sk tl ∅ ∅ 0).

Definition set_send (c : SrtpCrypto) (m : gmap Z StreamState) (clk : Z) : SrtpCrypto :=
  mkSrtp (cipher_key c) (auth_key c) (salt_key c) (auth_tag_len c) m (recv c) clk.

Definition set_recv (c : SrtpCrypto) (m : gmap Z StreamState) (clk : Z) : SrtpCrypto :=
  mkSrtp (cipher_key c) (auth_key c) (salt_key c) (auth_tag_len c) (send c) m clk.

Definition set_last_used (st : StreamState) (t : Z) : StreamState :=
  mkStream (roc st) (s_l st) (started st) (highest_index st) (replay st) t.

(** [derive_iv] *)
Definition iv_index (v seq : Z) : bytes :=
  let i := Z.lor (Z.shiftl v 16) seq in
  [Z.land (Z.shiftr i 40) 255; Z.land (Z.shiftr i 32) 255; Z.land (Z.shiftr i 24) 255;
   Z.land (Z.shiftr i 16) 255; Z.land (Z.shiftr i 8) 255; Z.land i 255].

(** The zip stops at the salt's 14 bytes; the rest stays. *)
Definition xor_salt (iv salt : bytes) : bytes :=
  xor_bytes (take (length salt) iv) salt ++ drop (length salt) iv.

Definition derive_iv (c : SrtpCrypto) (ssrc seq v : Z) : bytes :=
  xor_salt ([0; 0; 0; 0] ++ be_bytes 4 ssrc ++ iv_index v seq ++ [0; 0]) (salt_key c).

Definition get_rtp_header_length (packet : bytes) : sbc_result nat :=
  if (length packet <? 12)%nat then Err (EMedia "Packet too short for RTP header")
  else
    let cc := Z.to_nat (Z.land (byte_at 0 packet) 15) in
    let header_len := (12 + cc * 4)%nat in
    let? header_len :=
      if negb (Z.land (byte_at 0 packet) 16 =? 0) then
        if (length packet <? header_len + 4)%nat
        then Err (EMedia "Packet too short for extension")
        else
          let ext_len := Z.to_nat (u16_at (header_len + 2) packet) in
          Ok (header_len + (4 + ext_len * 4))%nat
      else Ok header_len in
    if (length packet <? header_len)%nat then Err (EMedia "Invalid RTP header length")
    else Ok header_len.

(** [constant_time_compare] *)
Definition constant_time_compare (a b : bytes) : bool :=
  if negb (length a =? length b)%nat then false else bool_decide (a = b).

Section Crypto.
Context (aes_ctr : bytes -> bytes -> nat -> bytes).
Context (hmac_sha1 : bytes -> bytes -> bytes).
Context {HI : HashIter Z StreamState}.

Definition apply_keystream (key iv data : bytes) : bytes :=
  xor_bytes data (aes_ctr (take 16 key) iv (length data)).

Definition colder (a b : Z * StreamState) : bool := last_used a.2 <? last_used b.2.

(** [stream_mut]: the table with the entry present and stamped, and the
    entry; [None] when every slot holds a live stream. *)
Definition stream_mut (streams : gmap Z StreamState) (clk ssrc : Z) :
    option (gmap Z StreamState * StreamState) * Z :=
  let now := wrapw 64 (clk + 1) in
  let entry m :=
    let st := set_last_used (default stream_default (m !! ssrc)) now in
    Some (<[ssrc := st]> m, st) in
  match streams !! ssrc with
  | None =>
      if MAX_STREAMS <=? Z.of_nat (size streams) then
        match min_by colder (List.filter (fun e => negb (started e.2)) (hiter streams)) with
        | None => (None, now)
        | Some (victim, _) => (entry (delete victim streams), now)
        end
      else (entry streams, now)
  | Some _ => (entry streams, now)
  end.

Definition compute_auth_tag (c : SrtpCrypto) (packet : bytes) (v : Z) : bytes :=
  hmac_sha1 (auth_key c) (packet ++ be_bytes 4 v).

Definition encrypt_rtp (c : SrtpCrypto) (p : bytes) : sbc_result bytes * SrtpCrypto :=
  if (length p <? 12)%nat then (Err (EMedia "RTP packet too short"), c)
  else
    match get_rtp_header_length p with
    | Err e => (Err e, c)
    | Ok header_len =>
        let header := take header_len p in
        let payload := drop header_len p in
        let ssrc := u32_at 8 p in
        let seq := u16_at 2 p in
        match stream_mut (send c) (clock c) ssrc with
        | (None, clk) =>
            (Err (EMedia "SRTP: streams already live, refusing a new SSRC"), set_send c (send c) clk)
        | (Some (streams, state), clk) =>
            match estimate state seq with
            | None => (Err (EMedia "SRTP: no plausible packet index"), set_send c streams clk)
            | Some (index, v) =>
                if is_replayed state index
                then (Err (EMedia "SRTP index reuse refused"), set_send c streams clk)
                else
                  let c := set_send c (<[ssrc := accept state index v seq]> streams) clk in
                  let iv := derive_iv c ssrc seq v in
                  let encrypted :=
                    if (length (cipher_key c) =? 16)%nat
                    then apply_keystream (cipher_key c) iv payload else payload in
                  let srtp := header ++ encrypted in
                  let tag := compute_auth_tag c srtp v in
                  (Ok (srtp ++ take (auth_tag_len c) tag), c)
            end
        end
    end.

Definition decrypt_srtp (c : SrtpCrypto) (p : bytes) : sbc_result bytes * SrtpCrypto :=
  if (length p <? 12 + auth_tag_len c)%nat then (Err (EMedia "SRTP packet too short"), c)
  else
    let packet_len := (length p - auth_tag_len c)%nat in
    let packet := take packet_len p in
    let received_tag := drop packet_len p in
    let ssrc := u32_at 8 packet in
    let seq := u16_at 2 packet in
    let existing := recv c !! ssrc in
    match estimate (default stream_default existing) seq with
    | None => (Err (EMedia "SRTP: no plausible packet index"), c)
    | Some (index, v) =>
        if match existing with Some state => is_replayed state index | None => false end
        then (Err (EMedia "SRTP replay"), c)
        else if negb (constant_time_compare
                        (take (auth_tag_len c) (compute_auth_tag c packet v)) received_tag)
        then (Err (EMedia "SRTP authentication failed"), c)
        else
          match stream_mut (recv c) (clock c) ssrc with
          | (None, clk) =>
              (Err (EMedia "SRTP: streams already live, refusing a new SSRC"), set_recv c (recv c) clk)
          | (Some (streams, state), clk) =>
              let c := set_recv c (<[ssrc := accept state index v seq]> streams) clk in
              match get_rtp_header_length packet with
              | Err e => (Err e, c)
              | Ok header_len =>
                  let iv := derive_iv c ssrc seq v in
                  (Ok (take header_len packet
                       ++ apply_keystream (cipher_key c) iv (drop header_len packet)), c)
              end
          end
    end.

(** [sender_roc], [receiver_roc], [tracked_streams] *)
Definition sender_roc (c : SrtpCrypto) (ssrc : Z) : option Z := roc <$> send c !! ssrc.
Definition receiver_roc (c : SrtpCrypto) (ssrc : Z) : option Z := roc <$> recv c !! ssrc.
Definition tracked_streams (c : SrtpCrypto) : Z * Z :=
  (Z.of_nat (size (send c)), Z.of_nat (size (recv c))).

(** ** Key derivation *)

Definition kdf_prf (master_key master_salt : bytes) (label : Z) (n : nat) : bytes :=
  let iv := master_salt ++ [0; 0] in
  let iv := <[7%nat := Z.lxor (byte_at 7 iv) label]> iv in
  apply_keystream (take 16 master_key) iv (replicate n 0).

Definition derive_keys (l1 l2 l3 : Z) (master_key master_salt : bytes) :
    sbc_result (bytes * bytes * bytes) :=
  if negb (length master_key =? 16)%nat && negb (length master_key =? 32)%nat
  then Err (EMedia "Invalid master key length")
  else if negb (length master_salt =? 14)%nat then Err (EMedia "Invalid master salt length")
  else
    Ok (kdf_prf master_key master_salt l1 (length master_key),
        kdf_prf master_key master_salt l2 20,
        kdf_prf master_key master_salt l3 14).

Definition derive_srtp_keys : bytes -> bytes -> sbc_result (bytes * bytes * bytes) := derive_keys 0 1 2.
Definition derive_srtcp_keys : bytes -> bytes -> sbc_result (bytes * bytes * bytes) := derive_keys 3 4 5.

(** ** SRTCP *)

Record SrtcpCrypto := mkSrtcp {
  rc_cipher_key : bytes;
  rc_auth_key : bytes;
  rc_salt_key : bytes;
  rc_auth_tag_len : nat;
  srtcp_index : Z
}.

Definition SrtcpCrypto_new (ck ak sk : bytes) (tl : nat) : sbc_result SrtcpCrypto :=
  let? _ := check_keys ck ak sk tl in Ok (mkSrtcp ck ak sk tl 0).

(** [derive_rtcp_iv] *)
Definition byte_of (x n : Z) : Z := wrapw 8 (Z.shiftr x n).

Definition derive_rtcp_iv (c : SrtcpCrypto) (ssrc index : Z) : bytes :=
  xor_salt
    ([0; 0; 0; 0] ++ [byte_of ssrc 24; byte_of ssrc 16; byte_of ssrc 8; byte_of ssrc 0]
     ++ [byte_of index 24; byte_of index 16; byte_of index 8; byte_of index 0] ++ [0; 0; 0; 0])
    (rc_salt_key c).

Definition compute_rtcp_auth_tag (c : SrtcpCrypto) (packet : bytes) : bytes :=
  hmac_sha1 (rc_auth_key c) packet.

Definition encrypt_rtcp (c : SrtcpCrypto) (p : bytes) : sbc_result bytes * SrtcpCrypto :=
  if (length p <? 8)%nat then (Err (EMedia "RTCP packet too short (min 8 bytes)"), c)
  else
    let ssrc := u32_at 4 p in
    let index := wrapw 32 (srtcp_index c + 1) in
    let c := mkSrtcp (rc_cipher_key c) (rc_auth_key c) (rc_salt_key c) (rc_auth_tag_len c) index in
    let iv := derive_rtcp_iv c ssrc index in
    let payload := drop 8 p in
    let encrypted :=
      if (length (rc_cipher_key c) =? 16)%nat
      then apply_keystream (rc_cipher_key c) iv payload else payload in
    let e_and_index := Z.lor 2147483648 (Z.land index 2147483647) in
    let srtcp := take 8 p ++ encrypted ++ be_bytes 4 e_and_index in
    (Ok (srtcp ++ take (rc_auth_tag_len c) (compute_rtcp_auth_tag c srtcp)), c).

Definition decrypt_srtcp (c : SrtcpCrypto) (p : bytes) : sbc_result bytes :=
  if (length p <? 8 + 4 + rc_auth_tag_len c)%nat then Err (EMedia "SRTCP packet too short")
  else
    let packet_len := (length p - rc_auth_tag_len c)%nat in
    let packet := take packet_len p in
    let received_tag := drop packet_len p in
    if negb (constant_time_compare
               (take (rc_auth_tag_len c) (compute_rtcp_auth_tag c packet)) received_tag)
    then Err (EMedia "SRTCP authentication failed")
    else
      let e_and_index := u32_at (packet_len - 4) packet in
      let encrypted := negb (Z.land e_and_index 2147483648 =? 0) in
      let index := Z.land e_and_index 2147483647 in
      let header := take 8 packet in
      let payload := slice 8 (packet_len - 4) packet in
      if negb encrypted then Ok (header ++ payload)
      else
        let ssrc := u32_at 4 header in
        let iv := derive_rtcp_iv c ssrc index in
        Ok (header ++ apply_keystream (rc_cipher_key c) iv payload).
End Crypto.

(** ** Indices *)

Record stream_inv (st : StreamState) : Prop := {
  si_roc : is_u32 (roc st);
  si_sl : is_u16 (s_l st);
  si_high : started st = true -> highest_index st = roc st * 65536 + s_l st;
  si_fresh : started st = false -> st = set_last_used stream_default (last_used st)
}.

Lemma land_shiftl_disjoint v s : is_u16 s -> Z.land (Z.shiftl v 16) s = 0.
Proof.
  intros Hs. apply Z.bits_inj'. intros n Hn. rewrite Z.land_spec, Z.bits_0.
  destruct (decide (n < 16)); [by rewrite Z.shiftl_spec_low|].
  destruct (decide (s = 0)) as [->|]; [by rewrite Z.testbit_0_l, andb_false_r|].
  unfold is_uw in Hs. assert (Z.log2 s < 16) by (apply Z.log2_lt_pow2; lia).
  rewrite (Z.bits_above_log2 s) by lia. apply andb_false_r.
Qed.

Lemma mk_index_add v s : is_u16 s -> mk_index v s = v * 65536 + s.
Proof.
  intros Hs. unfold mk_index. assert (H := Z.add_lor_land (Z.shiftl v 16) s).
  rewrite land_shiftl_disjoint in H by done.
  rewrite Z.shiftl_mul_pow2 in * by lia. change (2 ^ 16) with 65536 in *. lia.
Qed.

Lemma estimate_index st seq i v :
  is_u16 seq -> stream_inv st -> estimate st seq = Some (i, v) ->
  i = v * 65536 + seq /\ is_u32 v.
Proof.
  intros Hs [] E. unfold estimate, checked_pred, checked_succ in E.
  unfold u32_max in *. repeat case_test; simplify_eq/=; to_prop;
    rewrite ?mk_index_add by done; split; ulia.
Qed.

(** The estimate moves by at most one rollover, and only as far as the sequence
    number demands. *)
Lemma estimate_near st seq i v :
  is_u16 seq -> stream_inv st -> started st = true -> estimate st seq = Some (i, v) ->
  Z.abs (i - highest_index st) <= 32768 /\ Z.abs (v - roc st) <= 1.
Proof.
  intros Hs [] Hst E. rewrite si_high0 by done. unfold estimate, checked_pred, checked_succ in E.
  rewrite Hst in E. simpl in E. unfold u32_max in *.
  repeat case_test; simplify_eq/=; to_prop; rewrite mk_index_add by done; unfold is_uw in *; split; lia.
Qed.

Lemma estimate_none st seq :
  is_u16 seq -> stream_inv st ->
  estimate st seq = None <->
  started st = true /\
  ((roc st = 0 /\ 32768 < seq - s_l st) \/ (roc st = u32_max /\ 32768 < s_l st - seq)).
Proof.
  intros Hs []. unfold estimate, checked_pred, checked_succ, is_uw in *.
  repeat case_test; simplify_eq/=; to_prop; intuition (try lia; try congruence).
Qed.

(** ** The replay list

    [A] is the set of indices the stream accepted. *)

Record stream_rep (st : StreamState) (A : Z -> Prop) : Prop := {
  sr_fresh : started st = false -> forall i, ~ A i;
  sr_high : started st = true -> A (highest_index st);
  sr_max : forall i, A i -> i <= highest_index st;
  sr_bits : started st = true -> forall b, 0 <= b < 64 ->
    Z.testbit (replay st) b = true <-> A (highest_index st - b)
}.

Lemma stream_rep_ext st (A B : Z -> Prop) :
  (forall i, A i <-> B i) -> stream_rep st A -> stream_rep st B.
Proof.
  intros Hab []. constructor.
  - intros Hs i Hi. by apply (sr_fresh0 Hs i), Hab.
  - intros Hs. by apply Hab, sr_high0.
  - intros i Hi. by apply sr_max0, Hab.
  - intros Hs b Hb. by rewrite sr_bits0, Hab.
Qed.

Lemma land_bit a b : 0 <= b -> Z.land a (Z.shiftl 1 b) = 0 <-> Z.testbit a b = false.
Proof.
  intros Hb. split; intros H.
  - assert (Hx : Z.testbit (Z.land a (Z.shiftl 1 b)) b = Z.testbit a b).
    { rewrite Z.land_spec, Z.shiftl_spec, Z.sub_diag by lia. apply andb_true_r. }
    by rewrite <- Hx, H, Z.testbit_0_l.
  - apply Z.bits_inj'. intros n Hn. rewrite Z.land_spec, Z.bits_0.
    destruct (decide (n = b)) as [->|Hne]; [by rewrite H|].
    rewrite Z.shiftl_1_l. rewrite Z.pow2_bits_false by lia. apply andb_false_r.
Qed.

Lemma is_replayed_spec st A i :
  stream_rep st A ->
  is_replayed st i = true <-> A i \/ (started st = true /\ i + 64 <= highest_index st).
Proof.
  intros []. unfold is_replayed, REPLAY_WINDOW.
  destruct (started st) eqn:Es; simpl; [|naive_solver].
  destruct (highest_index st <? i) eqn:E; to_prop.
  { split; [done|]. intros [H|[_ H]]; [apply sr_max0 in H|]; lia. }
  destruct (64 <=? highest_index st - i) eqn:F; to_prop.
  { split; [|done]. intros _. right. split; [done|lia]. }
  assert (Hb := sr_bits0 eq_refl (highest_index st - i) ltac:(lia)).
  replace (highest_index st - (highest_index st - i)) with i in Hb by lia.
  rewrite negb_true_iff, Z.eqb_neq, land_bit, not_false_iff_true, Hb by lia. intuition lia.
Qed.

(** The bit of one more index, in a window of 64. *)
Lemma window_bit r b c :
  0 <= b < 64 -> 0 <= c < 64 ->
  Z.testbit (Z.lor r (Z.shiftl 1 c)) b = Z.testbit r b || (b =? c).
Proof.
  intros Hb Hc. rewrite Z.lor_spec, Z.shiftl_1_l. f_equal.
  destruct (b =? c) eqn:E; to_prop; subst.
  - apply Z.pow2_bits_true. lia.
  - apply Z.pow2_bits_false. lia.
Qed.

Lemma window_shift r s b :
  0 <= b < 64 -> 0 < s ->
  Z.testbit (Z.lor (if 64 <=? s then 0 else wrapw 64 (Z.shiftl r s)) 1) b =
  (b =? 0) || ((s <=? b) && Z.testbit r (b - s)).
Proof.
  intros Hb Hs. rewrite Z.lor_spec.
  assert (Z.testbit 1 b = (b =? 0)) as ->.
  { destruct (decide (b = 0)) as [->|]; [done|]. change 1 with (2 ^ 0).
    rewrite Z.pow2_bits_false by lia. symmetry. by apply Z.eqb_neq. }
  rewrite orb_comm. f_equal. destruct (64 <=? s) eqn:E; to_prop.
  - rewrite Z.testbit_0_l. symmetry. assert (s <=? b = false) as -> by (apply Z.leb_gt; lia). done.
  - unfold wrapw. rewrite Z.mod_pow2_bits_low by lia. destruct (s <=? b) eqn:F; to_prop.
    + by rewrite Z.shiftl_spec by lia.
    + simpl. apply Z.shiftl_spec_low. lia.
Qed.

Lemma accept_inv st seq i v :
  is_u16 seq -> stream_inv st -> estimate st seq = Some (i, v) ->
  stream_inv (accept st i v seq) /\ started (accept st i v seq) = true.
Proof.
  intros Hs Hi E. destruct (estimate_index st seq i v Hs Hi E) as [-> Hv].
  assert (Hn := fun H => estimate_near st seq _ v Hs Hi H E). pose proof Hi as [].
  unfold accept. destruct (started st) eqn:Es; simpl.
  - specialize (si_high0 eq_refl). repeat case_test; simpl; split; try done; constructor; simpl; done.
  - split; [|done]. constructor; simpl; done.
Qed.

(** Accepting an estimated index adds exactly it to the accepted set. *)
Lemma accept_rep st seq i v A :
  is_u16 seq -> stream_inv st -> stream_rep st A -> estimate st seq = Some (i, v) ->
  stream_rep (accept st i v seq) (fun j => A j \/ j = i).
Proof.
  intros Hs Hi [] E. destruct (estimate_index st seq i v Hs Hi E) as [-> Hv].
  assert (Hn := fun H => estimate_near st seq _ v Hs Hi H E). pose proof Hi as [].
  unfold accept. destruct (started st) eqn:Es; simpl.
  2: { constructor; simpl; try done; [by right|intros j [Hj| ->]; [by destruct (sr_fresh0 eq_refl j)|lia]|].
       intros _ b Hb. destruct (decide (b = 0)) as [->|Hne].
       - rewrite Z.sub_0_r. split; [by right|done].
       - change 1 with (2 ^ 0). rewrite Z.pow2_bits_false by lia.
         split; [done|]. intros [Hj|Hj]; [by destruct (sr_fresh0 eq_refl _ Hj)|lia]. }
  specialize (Hn eq_refl). specialize (sr_high0 eq_refl). specialize (sr_bits0 eq_refl).
  specialize (si_high0 eq_refl). set (i := v * 65536 + seq) in *.
  destruct (highest_index st <? i) eqn:F; to_prop.
  - assert (negb (v =? roc st) && negb (v =? wrapw 32 (roc st + 1)) = false) as ->.
    { apply andb_false_iff. rewrite !negb_false_iff, !Z.eqb_eq. unfold is_uw, i in *.
      destruct (decide (v = roc st)); [by left|right]. rewrite wrapw_small; unfold is_uw; lia. }
    constructor; simpl; try done; [by right|intros j [Hj| ->]; [apply sr_max0 in Hj|]; lia|].
    intros _ b Hb. rewrite window_shift by lia. rewrite orb_true_iff, andb_true_iff, Z.eqb_eq, Z.leb_le.
    split.
    + intros [->|[Hle Hbit]]; [right; lia|left].
      apply sr_bits0 in Hbit; [|lia]. by replace (i - b) with (highest_index st - (b - (i - highest_index st))) by lia.
    + intros [Hj|Hj]; [right|left; lia]. assert (Hm := sr_max0 _ Hj).
      split; [lia|]. apply sr_bits0; [lia|].
      by replace (highest_index st - (b - (i - highest_index st))) with (i - b) by lia.
  - destruct (highest_index st - i <? 64) eqn:G; to_prop.
    + constructor; simpl; try done; [by left|intros j [Hj| ->]; [by apply sr_max0|lia]|].
      intros _ b Hb. rewrite window_bit, orb_true_iff, Z.eqb_eq, sr_bits0 by lia. intuition lia.
    + constructor; try done; [congruence|by left|intros j [Hj| ->]; [by apply sr_max0|lia]|].
      intros _ b Hb. rewrite sr_bits0 by done. intuition lia.
Qed.

(** ** The IV *)

(** RFC 3711 section 4.1.1, as numbers of 128 bits. *)
Definition rfc_iv (salt ssrc index : Z) : Z :=
  Z.lxor (Z.lxor (salt * 2 ^ 16) (ssrc * 2 ^ 64)) (index * 2 ^ 16).

Lemma byte_field i n : 0 <= n -> Z.land (Z.shiftr i n) 255 = i / 2 ^ n mod 256.
Proof.
  intros Hn. change 255 with (Z.ones 8). rewrite Z.land_ones, Z.shiftr_div_pow2 by lia. done.
Qed.

Lemma iv_index_bytes v seq : is_u16 seq -> 0 <= v -> iv_index v seq = be_bytes 6 (v * 65536 + seq).
Proof.
  intros Hs Hv. unfold iv_index. change (Z.lor (Z.shiftl v 16) seq) with (mk_index v seq).
  rewrite mk_index_add by done. set (i := v * 65536 + seq).
  rewrite !byte_field by lia. simpl be_bytes.
  change 255 with (Z.ones 8). rewrite Z.land_ones by lia.
  rewrite !Z.div_div by lia. done.
Qed.

Lemma xor_salt_pad iv salt :
  length salt = 14%nat -> length iv = 16%nat -> xor_salt iv salt = xor_bytes iv (salt ++ [0; 0]).
Proof.
  intros Hs Hi. unfold xor_salt. rewrite Hs. rewrite <- (take_drop 14 iv) at 3.
  unfold xor_bytes. rewrite zip_with_app by (rewrite length_take; lia). f_equal.
  change [0; 0] with (replicate 2 0). symmetry. apply xor_zero_r. rewrite length_drop. lia.
Qed.

(** The two fields of an IV are disjoint. *)
Lemma fields_xor ssrc n idx pad :
  (n + pad = 8)%nat ->
  [0; 0; 0; 0] ++ be_bytes 4 ssrc ++ be_bytes n idx ++ replicate pad 0 =
  xor_bytes ([0; 0; 0; 0] ++ be_bytes 4 ssrc ++ replicate 8 0)
            (replicate 8 0 ++ be_bytes n idx ++ replicate pad 0).
Proof.
  intros Hn. rewrite !(assoc_L (++) [0; 0; 0; 0]). unfold xor_bytes.
  rewrite zip_with_app by (by rewrite length_app, length_be_bytes). f_equal.
  - symmetry. apply xor_zero_r. by rewrite length_app, length_be_bytes.
  - assert (Hx : forall l, (length l = 8)%nat -> zip_with Z.lxor (replicate 8 0) l = l).
    { intros l Hl. do 8 (destruct l as [|? l]; [done|]). by destruct l. }
    symmetry. apply Hx. rewrite length_app, length_be_bytes, length_replicate. lia.
Qed.

Lemma be_val_zeros n : be_val (replicate n 0) = 0.
Proof.
  induction n as [|n IH]; [done|]. rewrite replicate_S_end, be_val_snoc, IH. done.
Qed.

Lemma zeros_is_bytes n : is_bytes (replicate n 0).
Proof. induction n; constructor; [done|done]. Qed.

Lemma be_val_iv salt ssrc n idx pad :
  (n + pad = 8)%nat -> length salt = 14%nat -> is_bytes salt -> is_u32 ssrc ->
  0 <= idx < 256 ^ Z.of_nat n ->
  be_val (xor_salt ([0; 0; 0; 0] ++ be_bytes 4 ssrc ++ be_bytes n idx ++ replicate pad 0) salt) =
  Z.lxor (Z.lxor (be_val salt * 2 ^ 16) (ssrc * 2 ^ 64)) (idx * 256 ^ Z.of_nat pad).
Proof.
  intros Hn Hl Hb Hs Hi. rewrite xor_salt_pad by (rewrite ?length_app, ?length_be_bytes, ?length_replicate; simpl; lia).
  rewrite fields_xor by done.
  assert (Hz8 := zeros_is_bytes 8). assert (Hzp := zeros_is_bytes pad).
  assert (Hz4 : is_bytes [0; 0; 0; 0]) by exact (zeros_is_bytes 4).
  assert (Hz2 : is_bytes [0; 0]) by exact (zeros_is_bytes 2).
  assert (H1 : is_bytes ([0; 0; 0; 0] ++ be_bytes 4 ssrc ++ replicate 8 0))
    by (unfold is_bytes; rewrite !Forall_app; split_and!; first [done | apply be_bytes_is_bytes]).
  assert (H2 : is_bytes (replicate 8 0 ++ be_bytes n idx ++ replicate pad 0))
    by (unfold is_bytes; rewrite !Forall_app; split_and!; first [done | apply be_bytes_is_bytes]).
  assert (H3 : is_bytes (salt ++ [0; 0])) by (by apply Forall_app_2).
  rewrite !be_val_xor; rewrite ?length_xor, ?length_app, ?length_be_bytes, ?length_replicate;
    simpl length; try done; try lia; [|by apply xor_is_bytes].
  rewrite (Z.lxor_comm (Z.lxor _ _)), <- Z.lxor_assoc. f_equal; [f_equal|].
  - rewrite be_val_app. change (be_val [0; 0]) with 0. change (256 ^ blen [0; 0]) with (2 ^ 16). lia.
  - rewrite !be_val_app. unfold blen. rewrite length_app, length_be_bytes, length_replicate.
    change (be_val [0; 0; 0; 0]) with 0. rewrite be_val_bytes_small by (unfold is_uw in Hs; lia).
    rewrite (be_val_zeros 8). change (256 ^ Z.of_nat 8) with (2 ^ 64). lia.
  - rewrite !be_val_app, (be_val_zeros 8), be_val_bytes_small, (be_val_zeros pad) by done.
    unfold blen. rewrite length_replicate. lia.
Qed.

Lemma derive_iv_rfc c ssrc seq v :
  length (salt_key c) = 14%nat -> is_bytes (salt_key c) -> is_u32 ssrc -> is_u16 seq -> is_u32 v ->
  be_val (derive_iv c ssrc seq v) = rfc_iv (be_val (salt_key c)) ssrc (v * 65536 + seq).
Proof.
  intros Hl Hb Hs Hq Hv. unfold derive_iv. rewrite iv_index_bytes by (done || apply Hv).
  change [0; 0] with (replicate 2 0). rewrite be_val_iv; try done.
  unfold is_uw in *. change (256 ^ Z.of_nat 6) with (2 ^ 48). lia.
Qed.

Lemma derive_iv_length c ssrc seq v :
  length (salt_key c) = 14%nat -> length (derive_iv c ssrc seq v) = 16%nat.
Proof.
  intros Hl. unfold derive_iv, xor_salt. rewrite length_app, length_xor, length_take, length_drop, Hl.
  rewrite !length_app, length_be_bytes. simpl. lia.
Qed.

(** Two indices, or two streams, never share an IV. *)
Lemma derive_iv_inj c ssrc seq v ssrc' seq' v' :
  length (salt_key c) = 14%nat ->
  is_u32 ssrc -> is_u16 seq -> is_u32 v -> is_u32 ssrc' -> is_u16 seq' -> is_u32 v' ->
  derive_iv c ssrc seq v = derive_iv c ssrc' seq' v' -> ssrc = ssrc' /\ seq = seq' /\ v = v'.
Proof.
  intros Hl H1 H2 H3 H4 H5 H6 E. unfold derive_iv in E.
  assert (Hlen : forall s i, length ([0; 0; 0; 0] ++ be_bytes 4 s ++ be_bytes 6 i ++ [0; 0]) = 16%nat).
  { intros. rewrite !length_app, !length_be_bytes. done. }
  rewrite !iv_index_bytes in E by (done || apply H3 || apply H6).
  rewrite !xor_salt_pad in E by done.
  apply (f_equal (fun l => xor_bytes l (salt_key c ++ [0; 0]))) in E.
  rewrite !xor_involutive in E by (rewrite Hlen, length_app, Hl; done).
  apply app_inj_1 in E as [_ E]; [|done]. apply app_inj_1 in E as [Es E]; [|by rewrite !length_be_bytes].
  apply app_inj_1 in E as [Ei _]; [|by rewrite !length_be_bytes].
  apply be_bytes_inj in Es; [|unfold is_uw in *; lia..].
  apply be_bytes_inj in Ei; [|unfold is_uw in *; change (256 ^ Z.of_nat 6) with (2 ^ 48); lia..].
  unfold is_uw in *. split; [done|]. lia.
Qed.

Lemma byte_of_be x : be_bytes 4 x = [byte_of x 24; byte_of x 16; byte_of x 8; byte_of x 0].
Proof.
  unfold byte_of, wrapw. rewrite !Z.shiftr_div_pow2 by lia. simpl be_bytes.
  rewrite !Z.div_div by lia. change (2 ^ 0) with 1. by rewrite Z.div_1_r.
Qed.

(** ** The stream table *)

Section Context.
Context (aes_ctr : bytes -> bytes -> nat -> bytes).
Context (hmac_sha1 : bytes -> bytes -> bytes).
Context {HI : HashIter Z StreamState}.

Lemma touch_inv st t : stream_inv st -> stream_inv (set_last_used st t).
Proof. intros []. constructor; simpl; try done. intros H. by rewrite (si_fresh0 H). Qed.

Lemma touch_rep st t A : stream_rep st A -> stream_rep (set_last_used st t) A.
Proof. intros []. by constructor. Qed.

Lemma touch_estimate st t seq : estimate (set_last_used st t) seq = estimate st seq.
Proof. done. Qed.

Lemma default_inv : stream_inv stream_default.
Proof. by constructor. Qed.

(** A live stream never leaves the table; only entries that carried no packet
    do, and the table stays within its cap. *)
Lemma stream_mut_spec (m m' : gmap Z StreamState) clk ssrc st now :
  stream_mut m clk ssrc = (Some (m', st), now) ->
  st = set_last_used (default stream_default (m !! ssrc)) now /\ m' !! ssrc = Some st /\
  (forall k, k <> ssrc -> m' !! k = m !! k \/
     (m' !! k = None /\ exists s0, m !! k = Some s0 /\ started s0 = false)) /\
  (Z.of_nat (size m) <= MAX_STREAMS -> Z.of_nat (size m') <= MAX_STREAMS).
Proof.
  unfold stream_mut. destruct (m !! ssrc) as [s|] eqn:Es.
  - intros [= <- <- <-]. rewrite ?Es. split; [done|]. split; [apply lookup_insert_eq|].
    split; [|by rewrite map_size_insert_Some by eauto].
    intros k Hk. left. by apply lookup_insert_ne.
  - destruct (MAX_STREAMS <=? _) eqn:E; to_prop.
    + destruct (min_by _ _) as [[victim vs]|] eqn:Em; [|done].
      apply min_by_elem, elem_of_filter_bool in Em as [Hin Hf]. simpl in Hf. to_prop.
      apply elem_of_hiter in Hin. assert (victim <> ssrc) by congruence.
      rewrite lookup_delete_ne, ?Es by done. intros [= <- <- <-].
      split; [done|]. split; [apply lookup_insert_eq|]. split.
      * intros k Hk. rewrite lookup_insert_ne by done.
        destruct (decide (k = victim)) as [->|Hne]; [right|left; by apply lookup_delete_ne].
        rewrite lookup_delete_eq. eauto.
      * intros Hsz. rewrite map_size_insert_None by (by rewrite lookup_delete_ne).
        rewrite map_size_delete_Some by eauto.
        assert (size m <> 0)%nat by (by eapply map_size_ne_0_lookup_2; eauto). lia.
    + rewrite ?Es. intros [= <- <- <-]. split; [done|]. split; [apply lookup_insert_eq|]. split.
      * intros k Hk. left. by apply lookup_insert_ne.
      * intros _. rewrite map_size_insert_None by done. lia.
Qed.

(** A table whose streams all satisfy the index invariant, with the accepted
    indices of each given by [A]. *)
Record table_inv (m : gmap Z StreamState) (A : Z -> Z -> Prop) : Prop := {
  ti_size : Z.of_nat (size m) <= MAX_STREAMS;
  ti_inv : forall k st, m !! k = Some st -> stream_inv st /\ stream_rep st (A k);
  ti_none : forall k, m !! k = None -> forall i, ~ A k i
}.

Lemma table_inv_ext m (A B : Z -> Z -> Prop) :
  (forall k i, A k i <-> B k i) -> table_inv m A -> table_inv m B.
Proof.
  intros Hab []. constructor; [done| |].
  - intros k st Hk. destruct (ti_inv0 k st Hk) as [Hi Hr]. split; [done|].
    eapply stream_rep_ext; [|exact Hr]. auto.
  - intros k Hk i. rewrite <- Hab. eauto.
Qed.

Lemma table_inv_empty (A : Z -> Z -> Prop) : (forall k i, ~ A k i) -> table_inv ∅ A.
Proof. intros Ha. constructor; [done| |auto]. intros k st Hk. by rewrite lookup_empty in Hk. Qed.

Lemma table_stream m A ssrc :
  table_inv m A ->
  stream_inv (default stream_default (m !! ssrc)) /\
  stream_rep (default stream_default (m !! ssrc)) (A ssrc).
Proof.
  intros []. destruct (m !! ssrc) as [st|] eqn:E; simpl; [eauto|].
  split; [apply default_inv|]. constructor; simpl; try done; [eauto|].
  intros i Hi. by destruct (ti_none0 ssrc E i).
Qed.

Lemma stream_mut_inv m A clk ssrc m' st now :
  table_inv m A -> stream_mut m clk ssrc = (Some (m', st), now) ->
  table_inv m' A /\ stream_inv st /\ stream_rep st (A ssrc).
Proof.
  intros Ht E. destruct (table_stream m A ssrc Ht) as [Hi Hr].
  apply stream_mut_spec in E as (-> & Hs & Ho & Hsz). pose proof Ht as [].
  apply (touch_inv _ now) in Hi. apply (touch_rep _ now) in Hr.
  split; [|done]. constructor; [auto| |].
  - intros k st Hk. destruct (decide (k = ssrc)) as [->|Hne]; [by simplify_eq|].
    destruct (Ho k Hne) as [E|[E _]]; [|congruence]. rewrite E in Hk. eauto.
  - intros k Hk. assert (k <> ssrc) as Hne by congruence.
    destruct (Ho k Hne) as [E|(E & s0 & Hs0 & Hst)]; [rewrite E in Hk; eauto|].
    destruct (ti_inv0 k s0 Hs0) as [_ []]. eauto.
Qed.

(** Accepting an estimated index into the table. *)
Lemma table_accept m A ssrc st seq i v :
  is_u16 seq -> table_inv m A -> m !! ssrc = Some st -> estimate st seq = Some (i, v) ->
  table_inv (<[ssrc := accept st i v seq]> m) (fun k j => A k j \/ (k = ssrc /\ j = i)).
Proof.
  intros Hs Ht Hm E. pose proof Ht as []. destruct (ti_inv0 ssrc st Hm) as [Hi Hr].
  assert (Hai := accept_inv st seq i v Hs Hi E). destruct Hai as [Hai _].
  assert (Har := accept_rep st seq i v _ Hs Hi Hr E). constructor.
  - by rewrite map_size_insert_Some by eauto.
  - intros k st' Hk. destruct (decide (k = ssrc)) as [->|Hne].
    + rewrite lookup_insert_eq in Hk. injection Hk as <-. split; [done|].
      eapply stream_rep_ext; [|exact Har]. naive_solver.
    + rewrite lookup_insert_ne in Hk by done. destruct (ti_inv0 k st' Hk) as [Hi' Hr'].
      split; [done|]. eapply stream_rep_ext; [|exact Hr']. naive_solver.
  - intros k Hk j. assert (k <> ssrc) by (intros ->; by rewrite lookup_insert_eq in Hk).
    rewrite lookup_insert_ne in Hk by done. intros [Hj|[-> _]]; [by eapply ti_none0|done].
Qed.

(** ** Runs of a context *)

(** A context used both ways; the packets it encrypted, each with what it made of it. *)
Inductive PacketOp := Encrypt (p : bytes) | Decrypt (p : bytes).

Definition packet_of (o : PacketOp) : bytes := match o with Encrypt p | Decrypt p => p end.

Definition crypto_step (o : PacketOp) (c : SrtpCrypto) : SrtpCrypto :=
  match o with Encrypt p => (encrypt_rtp aes_ctr hmac_sha1 c p).2 | Decrypt p => (decrypt_srtp aes_ctr hmac_sha1 c p).2 end.

Definition encrypted (o : PacketOp) (c : SrtpCrypto) : list (bytes * bytes) :=
  match o with
  | Encrypt p => match (encrypt_rtp aes_ctr hmac_sha1 c p).1 with Ok w => [(p, w)] | Err _ => [] end
  | Decrypt _ => []
  end.

Fixpoint encrypted_in (ops : list PacketOp) (c : SrtpCrypto) : list (bytes * bytes) :=
  match ops with [] => [] | o :: ops => encrypted o c ++ encrypted_in ops (crypto_step o c) end.

(** The packet [w] is the header of [p], its payload under the keystream of this
    key and initialisation vector, and a tag. *)
Definition encrypted_with (key iv p w : bytes) : Prop :=
  exists hl tag, get_rtp_header_length p = Ok hl /\ w = take hl p ++ apply_keystream aes_ctr key iv (drop hl p) ++ tag.

Definition logged (log : list (Z * Z * Z)) (k i : Z) : Prop :=
  exists s v, (k, s, v) ∈ log /\ i = v * 65536 + s.

Record ctx_inv (sk : bytes) (c : SrtpCrypto) (log : list (Z * Z * Z)) : Prop := {
  ci_salt : salt_key c = sk;
  ci_send : table_inv (send c) (logged log);
  ci_recv : exists A, table_inv (recv c) A;
  ci_nodup : NoDup log;
  ci_range : Forall (fun e => is_u32 e.1.1 /\ is_u16 e.1.2 /\ is_u32 e.2) log
}.

Lemma decrypt_inv sk c log p :
  is_bytes p -> ctx_inv sk c log -> ctx_inv sk (decrypt_srtp aes_ctr hmac_sha1 c p).2 log.
Proof.
  intros Hp Hc. assert (Hc0 := Hc). destruct Hc. destruct ci_recv0 as [A HA]. unfold decrypt_srtp.
  case_test; [done|]. set (packet := take _ p). set (ssrc := u32_at 8 packet).
  assert (Hpk : is_bytes packet) by by apply Forall_take.
  destruct (estimate _ _) as [[i v]|] eqn:Ee; [|done]. case_test; [done|]. case_test; [done|].
  destruct (stream_mut (recv c) (clock c) ssrc) as [[[m st]|] now] eqn:Es.
  2: { simpl. constructor; simpl; eauto. }
  assert (Hm := stream_mut_inv _ _ _ _ _ _ _ HA Es). destruct Hm as (Hm & _ & _).
  apply stream_mut_spec in Es as (-> & Hl & _).
  assert (Ht := table_accept m A ssrc _ (u16_at 2 packet) i v (u16_at_range 2 _ Hpk) Hm Hl Ee).
  destruct (get_rtp_header_length packet); simpl; constructor; simpl; eauto.
Qed.

Lemma logged_cons k s v log k' i :
  logged ((k, s, v) :: log) k' i <-> logged log k' i \/ (k' = k /\ i = v * 65536 + s).
Proof.
  unfold logged. split.
  - intros (s' & v' & Hin & ->). apply elem_of_cons in Hin as [[= -> -> ->]|Hin]; eauto 6.
  - intros [(s' & v' & Hin & ->)|[-> ->]]; do 2 eexists; (split; [|reflexivity]);
      [by right|left].
Qed.

(** A packet encrypted takes an (SSRC, sequence number, ROC) not used before, and
    its keystream is that of the vector they give. *)
Lemma encrypt_spec sk c log p :
  is_bytes p -> ctx_inv sk c log ->
  match encrypt_rtp aes_ctr hmac_sha1 c p with
  | (Ok w, c') => exists v, ctx_inv sk c' ((u32_at 8 p, u16_at 2 p, v) :: log) /\
      (length (cipher_key c) = 16%nat -> encrypted_with (cipher_key c) (derive_iv c (u32_at 8 p) (u16_at 2 p) v) p w)
  | (Err _, c') => ctx_inv sk c' log
  end.
Proof.
  intros Hp Hc. assert (Hc0 := Hc). destruct Hc. unfold encrypt_rtp. case_test; [done|].
  destruct (get_rtp_header_length p) as [hl|e] eqn:Eh; [|done].
  set (ssrc := u32_at 8 p). set (seq := u16_at 2 p).
  destruct (stream_mut (send c) (clock c) ssrc) as [[[m st]|] now] eqn:Es.
  2: { simpl. by constructor. }
  destruct (stream_mut_inv _ _ _ _ _ _ _ ci_send0 Es) as (Hm & Hi & Hr).
  apply stream_mut_spec in Es as (-> & Hl & _). set (st := set_last_used _ now) in *.
  assert (Hseq : is_u16 seq) by (by apply u16_at_range). assert (Hss : is_u32 ssrc) by (by apply u32_at_range).
  destruct (estimate st seq) as [[i v]|] eqn:Ee; [|by constructor].
  destruct (is_replayed st i) eqn:Er; [by constructor|]. exists v. split.
  - destruct (estimate_index st seq i v Hseq Hi Ee) as [-> Hv].
    apply not_true_iff_false in Er. rewrite (is_replayed_spec st (logged log ssrc)) in Er by done.
    constructor; simpl; try done.
    + eapply table_inv_ext; [|by eapply table_accept]. intros k j. by rewrite logged_cons.
    + apply NoDup_cons. split; [|done]. intros Hin. apply Er. left. by exists seq, v.
    + by constructor.
  - intros Hk. cbn [set_send cipher_key]. rewrite Hk, Nat.eqb_refl. eexists hl, _. split; [done|]. by rewrite <- app_assoc.
Qed.

Lemma keys_kept o c : cipher_key (crypto_step o c) = cipher_key c /\ salt_key (crypto_step o c) = salt_key c.
Proof. destruct o; simpl; unfold encrypt_rtp, decrypt_srtp; repeat case_match; by simplify_eq/=. Qed.

(** A run logs, newest first, one unused (SSRC, sequence number, ROC) for each
    packet it encrypts. *)
Lemma run_inv sk ops c log :
  ctx_inv sk c log -> Forall (fun o => is_bytes (packet_of o)) ops -> length (cipher_key c) = 16%nat ->
  exists new c', ctx_inv sk c' (reverse new ++ log) /\
    Forall2 (fun pw e => encrypted_with (cipher_key c) (derive_iv c e.1.1 e.1.2 e.2) pw.1 pw.2) (encrypted_in ops c) new.
Proof.
  revert c log. induction ops as [|o ops IH]; intros c log Hi Hb Hk; [by exists [], c|].
  apply Forall_cons in Hb as [Ho Hb]. destruct (keys_kept o c) as [Kc Ks].
  assert (Hiv : forall a b d, derive_iv (crypto_step o c) a b d = derive_iv c a b d) by (intros; unfold derive_iv; by rewrite Ks).
  assert (Hone : exists one, ctx_inv sk (crypto_step o c) (reverse one ++ log) /\
    Forall2 (fun pw e => encrypted_with (cipher_key c) (derive_iv c e.1.1 e.1.2 e.2) pw.1 pw.2) (encrypted o c) one).
  { destruct o as [p|p]; simpl in *; [|exists []; split; [by apply decrypt_inv|done]].
    assert (H := encrypt_spec sk c log p Ho Hi). destruct (encrypt_rtp aes_ctr hmac_sha1 c p) as [[w|e] c1]; simpl; [|by exists []].
    destruct H as (v & H1 & H2). exists [(u32_at 8 p, u16_at 2 p, v)]. split; [done|]. repeat constructor. by apply H2. }
  destruct Hone as (one & Hi1 & F1). destruct (IH _ _ Hi1 Hb) as (new & c' & Hi2 & F2); [by rewrite Kc|].
  exists (one ++ new), c'. split; [by rewrite reverse_app, <- app_assoc|]. apply Forall2_app; [done|].
  eapply Forall2_impl; [exact F2|]. intros pw e. by rewrite Kc, Hiv.
Qed.

Lemma new_inv ck ak sk tl c : SrtpCrypto_new ck ak sk tl = Ok c -> ctx_inv sk c [] /\ length sk = 14%nat.
Proof.
  unfold SrtpCrypto_new, check_keys. intros E.
  repeat case_test; simplify_eq/=; try done. split.
  - split; simpl; [done| | |constructor|constructor].
    + apply table_inv_empty. intros k i (s & v & Hin & _). set_solver.
    + exists (fun _ _ => False). apply table_inv_empty. auto.
  - apply negb_false_iff in Heqb1. by apply Nat.eqb_eq in Heqb1.
Qed.
End Context.

(** ** Headers *)

Lemma header_length_bounds p hl :
  get_rtp_header_length p = Ok hl -> (12 <= hl <= length p)%nat.
Proof.
  unfold get_rtp_header_length. destruct (length p <? 12)%nat eqn:E; [done|].
  apply Nat.ltb_ge in E. intros H. apply rbind_ok in H as (h & Hh & H).
  case_test; [done|]. injection H as <-. apply Nat.ltb_ge in Heqb.
  split; [|done]. repeat case_test; simplify_eq/=; lia.
Qed.

(** The header length is read from the header alone. *)
Lemma header_length_payload p q hl :
  get_rtp_header_length p = Ok hl -> length q = length (drop hl p) ->
  get_rtp_header_length (take hl p ++ q) = Ok hl.
Proof.
  intros H Hq. pose proof (header_length_bounds p hl H) as [H12 Hlen].
  assert (Hl : length (take hl p ++ q) = length p).
  { rewrite length_app, Hq, <- length_app. by rewrite take_drop. }
  assert (Hb : byte_at 0 (take hl p ++ q) = byte_at 0 p).
  { rewrite <- (take_drop hl p) at 2. rewrite !byte_at_app; [done|rewrite length_take; lia..]. }
  unfold get_rtp_header_length in *. rewrite Hl, Hb.
  destruct (length p <? 12)%nat; [done|]. apply rbind_ok in H as (h & Hh & H).
  apply rbind_ok. exists h. split; [|done]. rewrite <- Hh.
  destruct (negb _); [|done]. destruct (length p <? _)%nat; [done|].
  assert (h = hl) as -> by (case_test; by simplify_eq). injection Hh as Hh.
  set (k := (12 + Z.to_nat (Z.land (byte_at 0 p) 15) * 4 + 2)%nat) in *.
  assert (u16_at k (take hl p ++ q) = u16_at k p) as ->; [|done].
  rewrite <- (take_drop hl p) at 2. rewrite !u16_at_app; [done|rewrite length_take; lia..].
Qed.

(** A packet with its payload replaced by one of the same length. *)
Lemma packet_fields p hl enc :
  get_rtp_header_length p = Ok hl -> length enc = length (drop hl p) ->
  let packet := take hl p ++ enc in
  length packet = length p /\ u32_at 8 packet = u32_at 8 p /\ u16_at 2 packet = u16_at 2 p /\
  get_rtp_header_length packet = Ok hl /\ take hl packet = take hl p /\ drop hl packet = enc.
Proof.
  intros H Hq packet. pose proof (header_length_bounds p hl H) as [H12 Hlen].
  assert (Hx : length (take hl p) = hl) by (rewrite length_take; lia). unfold packet. split_and!.
  - rewrite length_app, Hq, <- length_app. by rewrite take_drop.
  - rewrite <- (take_drop hl p) at 2. rewrite !u32_at_app; [done|lia..].
  - rewrite <- (take_drop hl p) at 2. rewrite !u16_at_app; [done|lia..].
  - by apply header_length_payload.
  - by rewrite take_app_length'.
  - by rewrite drop_app_length'.
Qed.

Section Theorems.
Context (aes_ctr : bytes -> bytes -> nat -> bytes).
Context (hmac_sha1 : bytes -> bytes -> bytes).
Context {HI : HashIter Z StreamState}.

(** What the code relies on: CTR produces as many bytes as asked, HMAC-SHA1
    a tag of 20 bytes. *)
Hypothesis aes_len : forall k iv n, length (aes_ctr k iv n) = n.
Hypothesis hmac_len : forall k m, length (hmac_sha1 k m) = 20%nat.

Lemma keystream_len k iv d : length (apply_keystream aes_ctr k iv d) = length d.
Proof. unfold apply_keystream. rewrite length_xor, aes_len. lia. Qed.

Lemma keystream_invol k iv d :
  apply_keystream aes_ctr k iv (apply_keystream aes_ctr k iv d) = d.
Proof.
  unfold apply_keystream at 1. rewrite keystream_len. unfold apply_keystream.
  apply xor_involutive. rewrite aes_len. done.
Qed.

Lemma ct_compare_refl a : constant_time_compare a a = true.
Proof. unfold constant_time_compare. rewrite Nat.eqb_refl. simpl. by apply bool_decide_eq_true. Qed.

Lemma ct_compare_true a b : constant_time_compare a b = true -> a = b.
Proof. unfold constant_time_compare. case_test; [done|]. apply bool_decide_eq_true. Qed.

(** A stream known or a free slot: the table has a place for it. *)
Definition has_room (m : gmap Z StreamState) (ssrc : Z) : Prop :=
  is_Some (m !! ssrc) \/ Z.of_nat (size m) < MAX_STREAMS.

Lemma stream_mut_room (m : gmap Z StreamState) clk ssrc :
  has_room m ssrc -> exists m' st now, stream_mut m clk ssrc = (Some (m', st), now).
Proof.
  intros Hr. unfold stream_mut.
  destruct (m !! ssrc) eqn:E; [by do 3 eexists|].
  destruct Hr as [[? ?]|Hr]; [congruence|]. apply Z.leb_gt in Hr. rewrite Hr. by do 3 eexists.
Qed.

(** C34: no keystream is used twice: in any run of a context with a 16-byte cipher
    key, encrypting and decrypting any packets in any order, every packet it
    encrypted is its header, its payload under the AES-CTR keystream of that key
    and one initialisation vector, and a tag; and these vectors are pairwise
    distinct. *)
Theorem no_keystream_reuse ck ak sk tl c0 ops :
  SrtpCrypto_new ck ak sk tl = Ok c0 -> length ck = 16%nat -> Forall (fun o => is_bytes (packet_of o)) ops ->
  exists ivs, NoDup ivs /\
    Forall2 (fun pw iv => encrypted_with aes_ctr ck iv pw.1 pw.2) (encrypted_in aes_ctr hmac_sha1 ops c0) ivs.
Proof.
  intros Hn Hk Hb. assert (Hck : cipher_key c0 = ck) by (revert Hn; unfold SrtpCrypto_new; destruct (check_keys _ _ _ _); [by intros [= <-]|done]).
  apply new_inv in Hn as [Hn Hl].
  destruct (run_inv aes_ctr hmac_sha1 sk ops c0 [] Hn Hb) as (new & c & Hi & F); [by rewrite Hck|].
  rewrite app_nil_r in Hi. assert (Hs := ci_salt _ _ _ Hn). destruct Hi as [_ _ _ Hd Hr].
  exists ((fun e => derive_iv c0 e.1.1 e.1.2 e.2) <$> new). split; [|apply Forall2_fmap_r; by rewrite <- Hck].
  rewrite reverse_Permutation in Hd. rewrite reverse_Permutation, Forall_forall in Hr. apply NoDup_fmap_2_strong; [|done].
  intros [[s1 q1] v1] [[s2 q2] v2] (? & ? & ?)%Hr (? & ? & ?)%Hr E. simpl in *.
  by apply derive_iv_inj in E as (-> & -> & ->); [|by rewrite Hs|..].
Qed.

(** Nothing is recorded for a packet that does not authenticate: if
    [decrypt_srtp] changes the context, the packet's tag is the HMAC under the
    ROC of its estimated index, and that index was not seen before. *)
Theorem decrypt_touches_only_authentic c p r c' :
  decrypt_srtp aes_ctr hmac_sha1 c p = (r, c') -> c' <> c ->
  let n := (length p - auth_tag_len c)%nat in
  exists i v,
    estimate (default stream_default (recv c !! u32_at 8 (take n p))) (u16_at 2 (take n p)) = Some (i, v) /\
    drop n p = take (auth_tag_len c) (compute_auth_tag hmac_sha1 c (take n p) v) /\
    is_replayed (default stream_default (recv c !! u32_at 8 (take n p))) i = false.
Proof.
  unfold decrypt_srtp. intros E Hne. case_test; [by simplify_eq|].
  destruct (estimate _ _) as [[i v]|] eqn:Ee; [|by simplify_eq].
  destruct (match recv c !! _ with Some _ => _ | None => _ end) eqn:Er; [by simplify_eq|].
  destruct (negb (constant_time_compare _ _)) eqn:Et; [by simplify_eq|].
  exists i, v. split; [done|]. apply negb_false_iff in Et. split.
  - symmetry. by apply ct_compare_true.
  - destruct (recv c !! _); [done|]. done.
Qed.

(** C35: what one end encrypts the other decrypts: with the same keys and a
    16-byte cipher key, a packet that [encrypt_rtp] accepted is recovered
    exactly by [decrypt_srtp] at a receiver that has a place for the stream,
    estimates the index the sender used and has not seen it. *)
Theorem srtp_round_trip c d p w c' i v :
  length (cipher_key c) = 16%nat -> (auth_tag_len c <= 20)%nat ->
  cipher_key d = cipher_key c -> auth_key d = auth_key c -> salt_key d = salt_key c ->
  auth_tag_len d = auth_tag_len c ->
  encrypt_rtp aes_ctr hmac_sha1 c p = (Ok w, c') ->
  let ssrc := u32_at 8 p in
  estimate (default stream_default (send c !! ssrc)) (u16_at 2 p) = Some (i, v) ->
  estimate (default stream_default (recv d !! ssrc)) (u16_at 2 p) = Some (i, v) ->
  is_replayed (default stream_default (recv d !! ssrc)) i = false ->
  has_room (recv d) ssrc ->
  (decrypt_srtp aes_ctr hmac_sha1 d w).1 = Ok p.
Proof.
  intros Hk Ht Hck Hak Hsk Htl E ssrc Hs Hd Hrep Hroom. unfold encrypt_rtp in E.
  case_test; [done|]. destruct (get_rtp_header_length p) as [hl|] eqn:Eh; [|done].
  fold ssrc in E. destruct (stream_mut (send c) (clock c) ssrc) as [[[m st]|] now] eqn:Em; [|done].
  apply stream_mut_spec in Em as (-> & _). rewrite touch_estimate, Hs in E.
  case_test; [done|]. injection E as <- _. simpl. rewrite Hk. simpl.
  set (iv := derive_iv _ _ _ _). set (enc := apply_keystream aes_ctr (cipher_key c) iv (drop hl p)).
  destruct (packet_fields p hl enc Eh (keystream_len _ _ _)) as (Hpl & Hss & Hsq & Hh & Htk & Hdr).
  pose proof (header_length_bounds p hl Eh) as [H12 Hlen].
  set (packet := take hl p ++ enc) in *.
  set (tag := take _ _). assert (Htag : length tag = auth_tag_len c).
  { unfold tag, compute_auth_tag. rewrite length_take, hmac_len. lia. }
  unfold decrypt_srtp. rewrite Htl, length_app, Hpl, Htag.
  assert (length p + auth_tag_len c <? 12 + auth_tag_len c = false)%nat as -> by (apply Nat.ltb_ge; lia).
  replace (length p + auth_tag_len c - auth_tag_len c)%nat with (length packet) by lia.
  rewrite take_app_length, drop_app_length.
  rewrite Hss, Hsq. fold ssrc. rewrite Hd.
  assert ((match recv d !! ssrc with Some state => is_replayed state i | None => false end) = false) as ->
    by (by destruct (recv d !! ssrc)).
  assert (take (auth_tag_len c) (compute_auth_tag hmac_sha1 d packet v) = tag) as ->.
  { unfold tag, compute_auth_tag. by rewrite Hak. }
  rewrite ct_compare_refl. simpl.
  destruct (stream_mut_room (recv d) (clock d) ssrc Hroom) as (m' & st' & now' & ->).
  rewrite Hh. simpl. rewrite Htk, Hdr. f_equal.
  unfold derive_iv in *. simpl. rewrite Hck, Hsk. unfold enc, iv. rewrite keystream_invol.
  apply take_drop.
Qed.

(** With a 32-byte cipher key, which the constructor accepts, [encrypt_rtp]
    sends the payload in clear: the packet is the RTP packet itself with a tag
    appended. *)
Theorem long_key_sends_clear c p w c' :
  length (cipher_key c) = 32%nat -> encrypt_rtp aes_ctr hmac_sha1 c p = (Ok w, c') ->
  exists tag, w = p ++ tag.
Proof.
  intros Hk E. unfold encrypt_rtp in E. case_test; [done|].
  destruct (get_rtp_header_length p) as [hl|]; [|done].
  destruct (stream_mut _ _ _) as [[[m st]|] now]; [|done].
  destruct (estimate _ _) as [[i v]|]; [|done]. case_test; [done|]. injection E as <- _.
  simpl. rewrite Hk. simpl. rewrite take_drop. eauto.
Qed.
End Theorems.

(** ** The replay list against its specification *)

(** The sequence numbers a stream is shown, each tried and, when it is not a
    replay, accepted; the indices accepted so far come with the state. *)
Definition receive (sa : StreamState * list Z) (seq : Z) : StreamState * list Z :=
  match estimate sa.1 seq with
  | Some (i, v) =>
      if is_replayed sa.1 i then sa else (accept sa.1 i v seq, i :: sa.2)
  | None => sa
  end.

Lemma receive_inv sa seq :
  is_u16 seq -> stream_inv sa.1 -> stream_rep sa.1 (fun i => i ∈ sa.2) -> NoDup sa.2 ->
  stream_inv (receive sa seq).1 /\ stream_rep (receive sa seq).1 (fun i => i ∈ (receive sa seq).2) /\
  NoDup (receive sa seq).2.
Proof.
  intros Hs Hi Hr Hn. unfold receive. destruct (estimate sa.1 seq) as [[i v]|] eqn:E; [|done].
  destruct (is_replayed sa.1 i) eqn:Er; [done|]. simpl.
  split; [by eapply accept_inv|]. split.
  - eapply stream_rep_ext; [|by eapply accept_rep]. intros j. simpl. rewrite elem_of_cons. tauto.
  - apply NoDup_cons. split; [|done]. intros Hin. apply not_true_iff_false in Er. apply Er.
    apply (is_replayed_spec _ (fun i => i ∈ sa.2)); auto.
Qed.

(** The 64-bit bitmap is exact: after any sequence of packets, the indices
    accepted are distinct, and an index is refused exactly when it was accepted
    before or lies 64 or more below the highest one. *)
Theorem replay_list_exact seqs i :
  Forall is_u16 seqs ->
  let '(st, A) := foldl receive (stream_default, []) seqs in
  NoDup A /\
  (is_replayed st i = true <-> i ∈ A \/ (started st = true /\ i + 64 <= highest_index st)).
Proof.
  intros Hs. enough (H : forall sa, stream_inv sa.1 -> stream_rep sa.1 (fun i => i ∈ sa.2) -> NoDup sa.2 ->
    let sa' := foldl receive sa seqs in
    stream_rep sa'.1 (fun i => i ∈ sa'.2) /\ NoDup sa'.2).
  { destruct (H (stream_default, [])) as [Hr Hn]; [apply default_inv| |constructor|].
    - constructor; simpl; try done; intros; set_solver.
    - destruct (foldl receive _ seqs) as [st A]. split; [done|].
      by apply (is_replayed_spec st (fun i => i ∈ A)). }
  induction Hs as [|q seqs Hq Hs IH]; intros sa Hi Hr Hn; [by simpl|]. simpl.
  destruct (receive_inv sa q Hq Hi Hr Hn) as (? & ? & ?). by apply IH.
Qed.

(** The packet index is the plausible one: for a stream that has carried a
    packet the estimate keeps the sequence number, moves the rollover counter
    by at most one, and no index with that sequence number is nearer to the
    highest one; there is no estimate only when the nearest rollover does not
    exist. *)
Theorem estimate_nearest st seq :
  is_u16 seq -> stream_inv st -> started st = true ->
  match estimate st seq with
  | Some (i, v) =>
      i = v * 65536 + seq /\ is_u32 v /\ Z.abs (v - roc st) <= 1 /\
      forall v', Z.abs (i - highest_index st) <= Z.abs (v' * 65536 + seq - highest_index st)
  | None =>
      (roc st = 0 /\ 32768 < seq - s_l st) \/ (roc st = u32_max /\ 32768 < s_l st - seq)
  end.
Proof.
  intros Hs Hi Hst. destruct (estimate st seq) as [[i v]|] eqn:E.
  - destruct (estimate_index st seq i v Hs Hi E) as [-> Hv].
    destruct (estimate_near st seq _ v Hs Hi Hst E) as [Hn Hr]. split_and!; try done.
    intros v'. destruct (decide (v' = v)) as [->|Hne]; [done|]. lia.
  - apply estimate_none in E; naive_solver.
Qed.

(** ** SRTCP *)

Section SrtcpTheorems.
Context (aes_ctr : bytes -> bytes -> nat -> bytes).
Context (hmac_sha1 : bytes -> bytes -> bytes).
Hypothesis aes_len : forall k iv n, length (aes_ctr k iv n) = n.
Hypothesis hmac_len : forall k m, length (hmac_sha1 k m) = 20%nat.

(** The E bit and the index on the wire. *)
Lemma e_and_index_spec index :
  0 <= index < 2 ^ 31 ->
  let e := Z.lor 2147483648 (Z.land index 2147483647) in
  is_u32 e /\ (Z.land e 2147483648 =? 0) = false /\ Z.land e 2147483647 = index.
Proof.
  intros Hi e. assert (Hl : Z.land index 2147483647 = index).
  { change 2147483647 with (Z.ones 31). rewrite Z.land_ones by lia. by apply Z.mod_small. }
  assert (Hd : Z.land 2147483648 index = 0).
  { change 2147483648 with (2 ^ 31). apply Z.bits_inj'. intros n Hn. rewrite Z.land_spec, Z.bits_0.
    destruct (decide (n = 31)) as [->|Hne]; [|by rewrite Z.pow2_bits_false by lia].
    destruct (decide (index = 0)) as [->|]; [done|].
    assert (Z.log2 index < 31) by (apply Z.log2_lt_pow2; lia).
    by rewrite (Z.bits_above_log2 index) by lia. }
  assert (He : e = 2147483648 + index).
  { unfold e. rewrite Hl. assert (H := Z.add_lor_land 2147483648 index). lia. }
  split_and!.
  - rewrite He. unfold is_uw. change (2 ^ 31) with 2147483648 in Hi. lia.
  - apply Z.eqb_neq. unfold e. rewrite Hl, Z.land_lor_distr_l, (Z.land_comm index), Hd.
    rewrite Z.land_diag, Z.lor_0_r. lia.
  - change 2147483647 with (Z.ones 31). rewrite Z.land_ones, He by lia.
    change 2147483648 with (1 * 2 ^ 31). rewrite Z.add_comm, Z.mod_add by lia. by apply Z.mod_small.
Qed.

(** What [encrypt_rtcp] produces, [decrypt_srtcp] with the same keys
    recovers exactly, for each of the first 2^31 - 1 packets of a context. *)
Theorem srtcp_round_trip c d p w c' :
  length (rc_cipher_key c) = 16%nat -> (rc_auth_tag_len c <= 20)%nat ->
  rc_cipher_key d = rc_cipher_key c -> rc_auth_key d = rc_auth_key c ->
  rc_salt_key d = rc_salt_key c -> rc_auth_tag_len d = rc_auth_tag_len c ->
  0 <= srtcp_index c < 2 ^ 31 - 1 ->
  encrypt_rtcp aes_ctr hmac_sha1 c p = (Ok w, c') ->
  decrypt_srtcp aes_ctr hmac_sha1 d w = Ok p /\ srtcp_index c' = srtcp_index c + 1.
Proof.
  intros Hk Ht Hck Hak Hsk Htl Hi E. unfold encrypt_rtcp in E.
  destruct (length p <? 8)%nat eqn:E8; [done|]. apply Nat.ltb_ge in E8.
  change (2 ^ 31) with 2147483648 in Hi.
  assert (Hidx : wrapw 32 (srtcp_index c + 1) = srtcp_index c + 1) by (apply wrapw_small; ulia).
  rewrite Hidx in E. set (index := srtcp_index c + 1) in *.
  cbn [rc_cipher_key rc_auth_key rc_salt_key rc_auth_tag_len] in E. rewrite Hk, Nat.eqb_refl in E.
  destruct (e_and_index_spec index ltac:(lia)) as (Hu & He & Hx).
  set (e := Z.lor _ _) in *. set (iv := derive_rtcp_iv _ _ _) in *.
  set (enc := apply_keystream aes_ctr (rc_cipher_key c) iv (drop 8 p)) in *.
  set (packet := take 8 p ++ enc ++ be_bytes 4 e) in *.
  set (tag := take (rc_auth_tag_len c) _) in *. injection E as <- <-. split; [|done].
  assert (Hel : length enc = (length p - 8)%nat).
  { unfold enc, apply_keystream. rewrite length_xor, aes_len, length_drop. apply Nat.min_id. }
  assert (Htag : length tag = rc_auth_tag_len c).
  { unfold tag, compute_rtcp_auth_tag. rewrite length_take, hmac_len. lia. }
  assert (H8 : length (take 8 p) = 8%nat) by (rewrite length_take; lia).
  assert (Hpl : length packet = (length p + 4)%nat).
  { unfold packet. rewrite !length_app, H8, Hel, length_be_bytes. lia. }
  unfold decrypt_srtcp. rewrite length_app, Htl, Htag.
  assert (length packet + rc_auth_tag_len c <? 8 + 4 + rc_auth_tag_len c = false)%nat as ->
    by (apply Nat.ltb_ge; lia).
  replace (length packet + rc_auth_tag_len c - rc_auth_tag_len c)%nat with (length packet) by lia.
  rewrite take_app_length, drop_app_length.
  assert (take (rc_auth_tag_len c) (compute_rtcp_auth_tag hmac_sha1 d packet) = tag) as ->.
  { unfold tag, compute_rtcp_auth_tag. by rewrite Hak. }
  rewrite ct_compare_refl. simpl negb.
  assert (Hsl : slice 8 (length packet - 4) packet = enc).
  { unfold slice. rewrite Hpl. unfold packet. rewrite drop_app_length' by done.
    apply take_app_length'. lia. }
  assert (Ht8 : take 8 packet = take 8 p) by (unfold packet; by rewrite take_app_length').
  assert (Hei : u32_at (length packet - 4) packet = e).
  { unfold u32_at, slice. rewrite Hpl. unfold packet.
    rewrite (assoc_L (++)), drop_app_length' by (rewrite length_app; lia).
    rewrite take_ge by (rewrite length_be_bytes; lia). apply be_val_bytes_small.
    change (256 ^ Z.of_nat 4) with (2 ^ 32). done. }
  rewrite Hei, He, Hsl, Ht8, Hx. simpl negb. f_equal. rewrite <- (take_drop 8 p) at 3. f_equal.
  assert (derive_rtcp_iv d (u32_at 4 (take 8 p)) index = iv) as ->.
  { assert (u32_at 4 p = u32_at 4 (take 8 p)) as E4
      by (rewrite <- (take_drop 8 p) at 1; apply u32_at_app; lia).
    unfold iv, derive_rtcp_iv. by rewrite Hsk, E4. }
  rewrite Hck. unfold enc. by apply keystream_invol.
Qed.

(** The SRTP IV is the one RFC 3711 section 4.1.1 prescribes, and the
    SRTCP IV is not: the SRTCP index enters two bytes too high, so it differs
    from the prescribed one for every packet with a non-zero index. *)
Theorem iv_conformance c rc ssrc seq v index :
  length (salt_key c) = 14%nat -> is_bytes (salt_key c) ->
  length (rc_salt_key rc) = 14%nat -> is_bytes (rc_salt_key rc) ->
  is_u32 ssrc -> is_u16 seq -> is_u32 v -> 0 < index < 2 ^ 31 ->
  be_val (derive_iv c ssrc seq v) = rfc_iv (be_val (salt_key c)) ssrc (v * 65536 + seq) /\
  be_val (derive_rtcp_iv rc ssrc index) = rfc_iv (be_val (rc_salt_key rc)) ssrc (index * 65536) /\
  be_val (derive_rtcp_iv rc ssrc index) <> rfc_iv (be_val (rc_salt_key rc)) ssrc index.
Proof.
  intros H1 H2 H3 H4 H5 H6 H7 H8. split; [by apply derive_iv_rfc|].
  assert (E : be_val (derive_rtcp_iv rc ssrc index) = rfc_iv (be_val (rc_salt_key rc)) ssrc (index * 65536)).
  { unfold derive_rtcp_iv. rewrite <- !byte_of_be. change [0; 0; 0; 0] with (replicate 4 0) at 2.
    rewrite be_val_iv; try done.
    - unfold rfc_iv. f_equal. change (256 ^ Z.of_nat 4) with (2 ^ 32). lia.
    - change (256 ^ Z.of_nat 4) with (2 ^ 32). lia. }
  split; [done|]. rewrite E. unfold rfc_iv. intros Hx.
  set (L := Z.lxor _ (ssrc * 2 ^ 64)) in Hx. clearbody L.
  apply (f_equal (Z.lxor L)) in Hx.
  rewrite <- !Z.lxor_assoc, Z.lxor_nilpotent, !Z.lxor_0_l in Hx. lia.
Qed.
End SrtcpTheorems.

(** ** Witnesses *)

Module Witness.
#[local] Existing Instance canonical_iter.

(** Stand-ins with the documented lengths. *)
Definition aes (k iv : bytes) (n : nat) : bytes := replicate n (Z.lxor (byte_at 0 k) (byte_at 13 iv)).
Definition mac (k m : bytes) : bytes := replicate 20 (be_val m mod 256).

Lemma srtp_aes_len k iv n : length (aes k iv n) = n.
Proof. apply length_replicate. Qed.
Lemma srtp_mac_len k m : length (mac k m) = 20%nat.
Proof. apply length_replicate. Qed.

Definition ctx (n : nat) : SrtpCrypto :=
  mkSrtp (replicate n 7) (replicate 20 1) (replicate 14 2) 10 ∅ ∅ 0.
Definition pkt : bytes := [128; 0; 0; 5; 0; 0; 0; 0; 0; 0; 0; 9; 1; 2; 3; 4].

(** Three packets of one stream, the last after the sequence number has wrapped. *)
Definition with_seq (hi lo : Z) : bytes := [128; 0; hi; lo; 0; 0; 0; 0; 0; 0; 0; 9; 1; 2; 3; 4].
Definition wrapping : list PacketOp := [Encrypt (with_seq 255 255); Encrypt (with_seq 255 255); Encrypt (with_seq 0 0)].

Lemma no_keystream_reuse_witness :
  length (encrypted_in aes mac wrapping (ctx 16)) = 2%nat /\
  exists ivs, NoDup ivs /\
    Forall2 (fun pw iv => encrypted_with aes (replicate 16 7) iv pw.1 pw.2) (encrypted_in aes mac wrapping (ctx 16)) ivs.
Proof.
  split; [by vm_compute|].
  apply (no_keystream_reuse aes mac (replicate 16 7) (replicate 20 1) (replicate 14 2) 10); [reflexivity|reflexivity|].
  by apply (bool_decide_unpack _).
Defined.

(** The packet of a sender, as its receiver sees it. *)
Definition wire : bytes := match (encrypt_rtp aes mac (ctx 16) pkt).1 with Ok w => w | Err _ => [] end.

Lemma decrypt_touches_only_authentic_witness :
  drop 16 wire = take 10 (compute_auth_tag mac (ctx 16) (take 16 wire) 0).
Proof.
  destruct (decrypt_touches_only_authentic aes mac (ctx 16) wire _ _
    (surjective_pairing (decrypt_srtp aes mac (ctx 16) wire))) as (i & v & H1 & H2 & _).
  - intros Hx. apply (f_equal (fun c => clock c)) in Hx. by vm_compute in Hx.
  - assert (v = 0) as -> by (vm_compute in H1; by simplify_eq). exact H2.
Defined.

Lemma srtp_round_trip_witness : (decrypt_srtp aes mac (ctx 16) wire).1 = Ok pkt.
Proof.
  apply (srtp_round_trip aes mac srtp_aes_len srtp_mac_len (ctx 16) (ctx 16) pkt wire
    (encrypt_rtp aes mac (ctx 16) pkt).2 5 0); try reflexivity; [by simpl; lia|].
  right. reflexivity.
Defined.

Lemma long_key_sends_clear_witness :
  exists tag, (encrypt_rtp aes mac (ctx 32) pkt).1 = Ok (pkt ++ tag).
Proof.
  destruct (long_key_sends_clear aes mac (ctx 32) pkt _ _ eq_refl eq_refl) as [tag Ht].
  exists tag. rewrite <- Ht. reflexivity.
Defined.

Lemma replay_list_exact_witness :
  is_replayed (foldl receive (stream_default, []) [65535; 0; 65535]).1 65535 = true.
Proof.
  assert (H := replay_list_exact [65535; 0; 65535] 65535).
  destruct (foldl receive (stream_default, []) [65535; 0; 65535]) as [st A] eqn:E.
  apply H; [by apply (bool_decide_unpack _)|]. left.
  injection E as <- <-. right. left.
Defined.

Lemma estimate_nearest_witness :
  65539 = 1 * 65536 + 3 /\ is_u32 1 /\ Z.abs (1 - 0) <= 1 /\
  forall v', Z.abs (65539 - 65530) <= Z.abs (v' * 65536 + 3 - 65530).
Proof.
  assert (stream_inv (mkStream 0 65530 true 65530 1 0)) as Hi by (constructor; done).
  exact (estimate_nearest (mkStream 0 65530 true 65530 1 0) 3 ltac:(done) Hi eq_refl).
Defined.

Definition rctx : SrtcpCrypto := mkSrtcp (replicate 16 7) (replicate 20 1) (replicate 14 2) 10 0.

Lemma srtcp_round_trip_witness :
  exists w, (encrypt_rtcp aes mac rctx pkt).1 = Ok w /\ decrypt_srtcp aes mac rctx w = Ok pkt.
Proof.
  eexists. split; [reflexivity|].
  apply (srtcp_round_trip aes mac srtp_aes_len srtp_mac_len rctx rctx pkt _ (encrypt_rtcp aes mac rctx pkt).2);
    try reflexivity; [by simpl; lia|by simpl; lia].
Defined.

Lemma iv_conformance_witness :
  be_val (derive_rtcp_iv rctx 9 1) <> rfc_iv (be_val (rc_salt_key rctx)) 9 1.
Proof.
  apply (iv_conformance (ctx 16) rctx 9 5 0 1);
    first [reflexivity | done | by apply (bool_decide_unpack _) | lia].
Defined.
End Witness.
