(* ===== verification/Rtp.v ===== *)
(** * RTP packets on a media port (media/rtp.rs)

    The packet codec, the header length, the admission of a datagram to the
    relay and the timestamp rewriting of a transcoded stream. *)

From S2P Require Import Prelude Bytes Srtp.

(** ** Data *)

Record RtpPacket := mkRtp {
  version : Z;
  padding : bool;
  extension : bool;
  csrc_count : Z;
  marker : bool;
  payload_type : Z;
  sequence_number : Z;
  timestamp : Z;
  ssrc : Z;
  payload : bytes
}.

(** ** Operations *)

Definition bit_set (x mask : Z) : bool := negb (Z.land x mask =? 0).

Definition parse (data : bytes) : sbc_result RtpPacket :=
  if (length data <? 12)%nat then Err (EParse "RTP packet too short")
  else
    let b0 := byte_at 0 data in
    let b1 := byte_at 1 data in
    let cc := Z.land b0 15 in
    let header_len := (12 + Z.to_nat cc * 4)%nat in
    if (length data <? header_len)%nat then Err (EParse "Invalid RTP header length")
    else
      Ok (mkRtp (Z.land (Z.shiftr b0 6) 3) (bit_set b0 32) (bit_set b0 16) cc
            (bit_set b1 128) (Z.land b1 127) (u16_at 2 data) (u32_at 4 data) (u32_at 8 data)
            (drop header_len data)).

Definition flag (b : bool) (mask : Z) : Z := if b then mask else 0.

Definition to_bytes (p : RtpPacket) : bytes :=
  let byte0 := Z.lor (Z.lor (Z.lor (wrapw 8 (Z.shiftl (version p) 6)) (flag (padding p) 32))
                        (flag (extension p) 16)) (csrc_count p) in
  let byte1 := Z.lor (flag (marker p) 128) (payload_type p) in
  [byte0; byte1] ++ be_bytes 2 (sequence_number p) ++ be_bytes 4 (timestamp p)
  ++ be_bytes 4 (ssrc p) ++ payload p.

Definition looks_like_rtp (data : bytes) : bool :=
  (12 <=? length data)%nat && (Z.shiftr (byte_at 0 data) 6 =? 2).

Definition looks_like_rtcp (data : bytes) : bool :=
  (8 <=? length data)%nat && (Z.shiftr (byte_at 0 data) 6 =? 2)
  && ((192 <=? byte_at 1 data) && (byte_at 1 data <=? 223)).

Inductive MediaInput := InRtp | InRtcp | Passthrough | Junk.

Definition classify_media_input (data : bytes) (webrtc : bool) : MediaInput :=
  match data with
  | [] => Junk
  | b :: _ =>
      if (128 <=? b) && (b <=? 191) && looks_like_rtp data then
        if (192 <=? byte_at 1 data) && (byte_at 1 data <=? 223) then InRtcp else InRtp
      else if (0 <=? b) && (b <=? 3) && (webrtc && (20 <=? length data)%nat
                && bool_decide (slice 4 8 data = [33; 18; 164; 66]))
      then Passthrough
      else if (20 <=? b) && (b <=? 63) && (webrtc && (13 <=? length data)%nat) then Passthrough
      else Junk
  end.

(** 0 for a malformed header. *)
Definition rtp_header_length (data : bytes) : nat :=
  if (length data <? 12)%nat then 0%nat
  else
    let hdr_len := (12 + Z.to_nat (Z.land (byte_at 0 data) 15) * 4)%nat in
    let checked (n : nat) := if (length data <? n)%nat then 0%nat else n in
    if bit_set (byte_at 0 data) 16 then
      if (length data <? hdr_len + 4)%nat then 0%nat
      else
        let ext_len := Z.to_nat (u16_at (hdr_len + 2) data) in
        checked (hdr_len + (4 + ext_len * 4))%nat
    else checked hdr_len.

(** ** Timestamps *)

Record TimestampMap := mkTs { base_in : option Z; base_out : Z }.

Definition ts_new : TimestampMap := mkTs None 0.

Definition scale32 (x src_rate dst_rate : Z) : Z := wrapw 32 (x * dst_rate / src_rate).

(** [TimestampMap::map] *)
Definition ts_map (m : TimestampMap) (ts src_rate dst_rate : Z) : Z * TimestampMap :=
  if (src_rate =? dst_rate) || (dst_rate =? 0) || (src_rate =? 0) then (ts, m)
  else
    let '(base, m) :=
      match base_in m with
      | Some base => (base, m)
      | None => (ts, mkTs (Some ts) (scale32 ts src_rate dst_rate))
      end in
    let delta := wrapw 32 (ts - base) in
    (wrapw 32 (base_out m + scale32 delta src_rate dst_rate), m).

Definition put (at_ : nat) (v : bytes) (l : bytes) : bytes :=
  take at_ l ++ v ++ drop (at_ + length v) l.

(** The new timestamp and duration, the packet and the map; [None] leaves both
    alone. *)
Definition rescale_event (m : TimestampMap) (packet : bytes) (src_rate dst_rate : Z) :
    option (Z * Z) * bytes * TimestampMap :=
  if (src_rate =? dst_rate) || (src_rate =? 0) || (dst_rate =? 0) then (None, packet, m)
  else if (length packet <? 12)%nat then (None, packet, m)
  else
    let '(new_ts, m) := ts_map m (u32_at 4 packet) src_rate dst_rate in
    let packet := put 4 (be_bytes 4 new_ts) packet in
    let header_len := rtp_header_length packet in
    if (0 <? header_len)%nat && (header_len + 4 <=? length packet)%nat then
      let at_ := (header_len + 2)%nat in
      let scaled := u16_at at_ packet * dst_rate / src_rate in
      let new_duration := Z.min scaled u16_max in
      (Some (new_ts, new_duration), put at_ (be_bytes 2 new_duration) packet, m)
    else (Some (new_ts, 0), packet, m).

(** ** The header bytes *)

(** A packet the codec can carry: the serializer writes no CSRC list. *)
Record rtp_ok (p : RtpPacket) : Prop := {
  ok_version : 0 <= version p < 4;
  ok_csrc : csrc_count p = 0;
  ok_pt : 0 <= payload_type p < 128;
  ok_seq : is_u16 (sequence_number p);
  ok_ts : is_u32 (timestamp p);
  ok_ssrc : is_u32 (ssrc p)
}.

Lemma byte0_fields v p x :
  0 <= v < 4 ->
  let b := Z.lor (Z.lor (Z.lor (wrapw 8 (Z.shiftl v 6)) (flag p 32)) (flag x 16)) 0 in
  Z.land (Z.shiftr b 6) 3 = v /\ bit_set b 32 = p /\ bit_set b 16 = x /\ Z.land b 15 = 0.
Proof.
  intros Hv. assert (v = 0 \/ v = 1 \/ v = 2 \/ v = 3) as [->|[->|[->| ->]]] by lia;
    destruct p, x; by vm_compute.
Qed.

Lemma byte1_fields m t :
  0 <= t < 128 -> let b := Z.lor (flag m 128) t in bit_set b 128 = m /\ Z.land b 127 = t.
Proof.
  intros Ht b. assert (Hl : Z.land b 127 = t).
  { unfold b. rewrite Z.land_lor_distr_l. change 127 with (Z.ones 7). rewrite (Z.land_ones t) by lia.
    rewrite (Z.mod_small t) by (change (2 ^ 7) with 128; lia). by destruct m. }
  split; [|done]. unfold bit_set, b. rewrite Z.land_lor_distr_l.
  assert (Z.land t 128 = 0) as ->.
  { change 128 with (Z.shiftl 1 7). apply land_bit; [lia|].
    destruct (decide (t = 0)) as [->|]; [done|]. apply Z.bits_above_log2; [lia|].
    apply Z.log2_lt_pow2; [lia|]. change (2 ^ 7) with 128. lia. }
  by destruct m.
Qed.

Lemma wire_fields (h : bytes) s t r l :
  length h = 2%nat -> is_u16 s -> is_u32 t -> is_u32 r ->
  let d := h ++ be_bytes 2 s ++ be_bytes 4 t ++ be_bytes 4 r ++ l in
  u16_at 2 d = s /\ u32_at 4 d = t /\ u32_at 8 d = r /\ drop 12 d = l /\ length d = (12 + length l)%nat.
Proof.
  intros Hh Hs Ht Hr d. unfold d. split_and!.
  - rewrite u16_at_mid by done. by apply u16_head.
  - rewrite (assoc_L (++)), u32_at_mid by by rewrite length_app, length_be_bytes, Hh. by apply u32_head.
  - rewrite !(assoc_L (++)), <- (assoc_L (++) _ (be_bytes 4 r)).
    rewrite u32_at_mid by by rewrite !length_app, !length_be_bytes, Hh. by apply u32_head.
  - rewrite !(assoc_L (++)). apply drop_app_length'. by rewrite !length_app, !length_be_bytes, Hh.
  - rewrite !length_app, !length_be_bytes, Hh. lia.
Qed.

(** ** Theorems *)

(** A packet without contributing sources is recovered from its bytes;
    parsing never fails on what the serializer wrote. *)
Theorem rtp_round_trip p : rtp_ok p -> parse (to_bytes p) = Ok p.
Proof.
  intros []. destruct p as [v pd x cc m t s ts r l]. simpl in *. subst cc. unfold parse, to_bytes.
  cbn [version padding extension csrc_count marker payload_type sequence_number timestamp ssrc payload].
  destruct (byte0_fields v pd x ok_version0) as (H1 & H2 & H3 & H4).
  destruct (byte1_fields m t ok_pt0) as (H5 & H6).
  set (b0 := Z.lor (Z.lor (Z.lor _ _) _) 0) in *. set (b1 := Z.lor _ t) in *.
  destruct (wire_fields [b0; b1] s ts r l eq_refl ok_seq0 ok_ts0 ok_ssrc0) as (H7 & H8 & H9 & H10 & H11).
  set (d := [b0; b1] ++ _) in *. change (byte_at 0 d) with b0. change (byte_at 1 d) with b1.
  rewrite H11, H4. change (12 + Z.to_nat 0 * 4)%nat with 12%nat.
  assert (12 + length l <? 12 = false)%nat as -> by (apply Nat.ltb_ge; lia).
  by rewrite H1, H2, H3, H5, H6, H7, H8, H9, H10.
Qed.

(** The relay and the SRTP transform agree on where the payload starts: the
    relay's [rtp_header_length] is [get_rtp_header_length] with 0 for an error,
    and never points past the packet. *)
Theorem header_lengths_agree data :
  rtp_header_length data =
    match get_rtp_header_length data with Ok n => n | Err _ => 0%nat end /\
  (rtp_header_length data <= length data)%nat.
Proof.
  unfold rtp_header_length, get_rtp_header_length, bit_set.
  destruct (length data <? 12)%nat; [split; [done|lia]|].
  destruct (negb _); cbn [rbind].
  - destruct (length data <? _ + 4)%nat; cbn [rbind]; [split; [done|lia]|].
    destruct (length data <? _)%nat eqn:E; split; try done; [lia|]. by apply Nat.ltb_ge in E.
  - destruct (length data <? _)%nat eqn:E; split; try done; [lia|]. by apply Nat.ltb_ge in E.
Qed.

(** On a leg that did not negotiate WebRTC nothing but RTP and RTCP is
    relayed, and only a datagram with a whole version-2 header and a payload
    type outside the RTCP range counts as audio. *)
Theorem media_admission data webrtc :
  is_bytes data ->
  (classify_media_input data webrtc = InRtp <->
     (12 <= length data)%nat /\ 128 <= byte_at 0 data <= 191 /\ ~ 192 <= byte_at 1 data <= 223) /\
  (classify_media_input data false <> Passthrough).
Proof.
  intros Hb. destruct data as [|b r]; [split; [split; [done|simpl; lia]|done]|].
  inversion Hb as [|? ? Hb' _]; subst. unfold is_uw in Hb'.
  assert (Hl : looks_like_rtp (b :: r) = (12 <=? length (b :: r))%nat && ((128 <=? b) && (b <=? 191))).
  { unfold looks_like_rtp. f_equal. change (byte_at 0 (b :: r)) with b.
    rewrite Z.shiftr_div_pow2 by lia. change (2 ^ 6) with 64.
    apply eq_true_iff_eq. rewrite andb_true_iff, Z.eqb_eq, !Z.leb_le. zlia. }
  unfold classify_media_input. rewrite Hl. change (byte_at 0 (b :: r)) with b.
  set (c := byte_at 1 (b :: r)). set (n := length (b :: r)). split.
  - destruct ((128 <=? b) && (b <=? 191)) eqn:E; to_prop.
    + rewrite andb_true_r, andb_true_l. destruct (12 <=? n)%nat eqn:En.
      * apply Nat.leb_le in En. destruct ((192 <=? c) && (c <=? 223)) eqn:Ec; to_prop.
        { split; [done|]. intros (_ & _ & Hn). exfalso. apply Hn. lia. }
        split; [|done]. intros _. split_and!; try done. intros [? ?]. destruct Ec; to_prop; lia.
      * apply Nat.leb_gt in En. split; [|lia]. by repeat case_test.
    + rewrite andb_false_l. split; [by repeat case_test|]. intros (_ & ? & _).
      exfalso. destruct E; to_prop; lia.
  - rewrite !andb_false_r. by repeat case_test.
Qed.

(** Between clocks of different rates, a stream that advances by whole
    output ticks from its first packet advances exactly: a timestamp [n]
    source ticks after the first one, where [n] is below 2^32 and a multiple of
    the rate ratio, is mapped [n * dst / src] ticks after the first one's
    image, across any number of wraps of either clock. *)
Theorem timestamp_advance ts n src dst :
  is_u32 ts -> 0 <= n < 2 ^ 32 -> 0 < src -> 0 < dst -> src <> dst -> (src | n * dst) ->
  let '(out0, m) := ts_map ts_new ts src dst in
  let '(out, m') := ts_map m (wrapw 32 (ts + n)) src dst in
  m' = m /\ out = wrapw 32 (out0 + n * dst / src).
Proof.
  intros Ht Hn Hs Hd Hne [k Hk]. unfold ts_map.
  assert ((src =? dst) || (dst =? 0) || (src =? 0) = false) as ->.
  { rewrite !orb_false_iff, !Z.eqb_neq. lia. }
  simpl. split; [done|]. unfold scale32, wrapw.
  assert (Hdelta : ((ts + n) mod 2 ^ 32 - ts) mod 2 ^ 32 = n).
  { rewrite Zminus_mod_idemp_l. replace (ts + n - ts) with n by lia. by apply Z.mod_small. }
  rewrite Hdelta, Z.sub_diag. change (0 mod 2 ^ 32) with 0. rewrite Z.mul_0_l, Z.div_0_l by lia.
  change (0 mod 2 ^ 32) with 0. rewrite Z.add_0_r, Zmod_mod.
  by rewrite Zplus_mod_idemp_r, Zplus_mod_idemp_l.
Qed.

(** A packet that was sent before the first one to arrive is not mapped
    before it: from 48 kHz to 8 kHz its timestamp lands about 715 million
    ticks in the future, the jump the latched base is meant to remove. *)
Theorem timestamp_before_base ts d :
  is_u32 ts -> 0 < d <= 48000 ->
  let '(out0, m) := ts_map ts_new ts 48000 8000 in
  let '(out, _) := ts_map m (wrapw 32 (ts - d)) 48000 8000 in
  715819882 <= wrapw 32 (out - out0) <= 715827882.
Proof.
  intros Ht Hd. unfold ts_map. simpl. unfold scale32, wrapw.
  rewrite Z.sub_diag. change (0 mod 2 ^ 32) with 0. change (0 * 8000 / 48000) with 0.
  change (0 mod 2 ^ 32) with 0. rewrite Z.add_0_r, Zmod_mod.
  assert (Hdelta : ((ts - d) mod 2 ^ 32 - ts) mod 2 ^ 32 = 2 ^ 32 - d).
  { rewrite Zminus_mod_idemp_l. replace (ts - d - ts) with (2 ^ 32 - d + (-1) * 2 ^ 32) by lia.
    rewrite Z.mod_add by lia. apply Z.mod_small. lia. }
  rewrite Hdelta. set (o := (ts * 8000 / 48000) mod 2 ^ 32).
  rewrite Zminus_mod_idemp_l. rewrite Zplus_mod_idemp_r || idtac.
  replace (o + ((2 ^ 32 - d) * 8000 / 48000) mod 2 ^ 32 - o) with (((2 ^ 32 - d) * 8000 / 48000) mod 2 ^ 32) by lia.
  rewrite Zmod_mod, Z.mod_small; change (2 ^ 32) with 4294967296 in *; zlia.
Qed.

(** ** Witnesses *)

Module Witness.

Definition pk : RtpPacket := mkRtp 2 false false 0 true 111 65535 4294967295 9 [1; 2; 3].

Lemma rtp_round_trip_witness : parse (to_bytes pk) = Ok pk.
Proof. apply rtp_round_trip. by constructor. Defined.

Lemma media_admission_witness : classify_media_input (to_bytes pk) false = InRtp.
Proof.
  apply (media_admission (to_bytes pk) false); [exact (bool_decide_unpack (is_bytes (to_bytes pk)) I)|].
  split; [by apply Nat.leb_le|]. split; [by vm_compute|]. vm_compute. intros [_ H]. by apply H.
Defined.

Lemma timestamp_advance_witness :
  let '(out0, m) := ts_map ts_new 4294967000 48000 8000 in
  let '(out, m') := ts_map m (wrapw 32 (4294967000 + 960)) 48000 8000 in
  m' = m /\ out = wrapw 32 (out0 + 960 * 8000 / 48000).
Proof. apply timestamp_advance; try done; [by exists 160]. Defined.

Lemma timestamp_before_base_witness :
  let '(out0, m) := ts_map ts_new 100000 48000 8000 in
  let '(out, _) := ts_map m (wrapw 32 (100000 - 960)) 48000 8000 in
  715819882 <= wrapw 32 (out - out0) <= 715827882.
Proof. by apply timestamp_before_base. Defined.

End Witness.
