(* ===== verification/Stun.v ===== *)
(** * STUN (media/stun.rs)

    Message and address codecs, the authentication of ICE connectivity checks,
    the binding response, the FINGERPRINT CRC and the demultiplexing of a media
    port. HMAC-SHA1 and [String::from_utf8_lossy] are parameters. *)

From S2P Require Import Prelude Bytes Net.

Definition STUN_MAGIC_COOKIE : Z := 554869826.  (* 0x2112A442 *)
Definition FINGERPRINT_XOR : Z := 1398035790.   (* 0x5354554E *)

(** ** Data *)

Inductive StunMessageType := BindingRequest | BindingResponse | BindingError.

#[export] Instance StunMessageType_eq_dec : EqDecision StunMessageType.
Proof. solve_decision. Defined.

Definition type_from_u16 (v : Z) : option StunMessageType :=
  if v =? 1 then Some BindingRequest
  else if v =? 257 then Some BindingResponse
  else if v =? 273 then Some BindingError
  else None.

Definition type_to_u16 (t : StunMessageType) : Z :=
  match t with BindingRequest => 1 | BindingResponse => 257 | BindingError => 273 end.

Inductive StunAttributeType := TMappedAddress | TXorMappedAddress | TErrorCode.

Definition attr_from_u16 (v : Z) : option StunAttributeType :=
  if v =? 1 then Some TMappedAddress
  else if v =? 32 then Some TXorMappedAddress
  else if v =? 9 then Some TErrorCode
  else None.

Definition attr_to_u16 (t : StunAttributeType) : Z :=
  match t with TMappedAddress => 1 | TXorMappedAddress => 32 | TErrorCode => 9 end.

(** A reason phrase is its bytes. *)
Inductive StunAttribute :=
  | MappedAddress (a : SocketAddr)
  | XorMappedAddress (a : SocketAddr)
  | ErrorCode (code : Z) (reason : bytes)
  | Unknown (t : Z) (data : bytes).

Record StunMessage := mkStun {
  message_type : StunMessageType;
  transaction_id : bytes;
  attributes : list StunAttribute
}.

(** [binding_request], with the random transaction id as an argument. *)
Definition binding_request (txid : bytes) : StunMessage := mkStun BindingRequest txid [].

(** ** Addresses *)

Definition magic_bytes : bytes := be_bytes 4 STUN_MAGIC_COOKIE.
Definition magic_port : Z := Z.shiftr STUN_MAGIC_COOKIE 16.

Definition encode_address (a : SocketAddr) : bytes :=
  match ip a with
  | V4 o => [0; 1] ++ be_bytes 2 (port a) ++ o
  | V6 o => [0; 2] ++ be_bytes 2 (port a) ++ o
  end.

Definition decode_address (data : bytes) : sbc_result SocketAddr :=
  if (length data <? 4)%nat then Err (EMedia "Invalid address attribute")
  else
    let family := byte_at 1 data in
    let p := u16_at 2 data in
    if family =? 1 then
      if (length data <? 8)%nat then Err (EMedia "Invalid IPv4 address")
      else Ok (mkAddr (V4 (slice 4 8 data)) p)
    else if family =? 2 then
      if (length data <? 20)%nat then Err (EMedia "Invalid IPv6 address")
      else Ok (mkAddr (V6 (slice 4 20 data)) p)
    else Err (EMedia "Unknown address family").

Definition encode_xor_address (a : SocketAddr) : bytes :=
  let xor_port := Z.lxor (port a) magic_port in
  match ip a with
  | V4 o => [0; 1] ++ be_bytes 2 xor_port ++ xor_bytes o magic_bytes
  | V6 o => [0; 2] ++ be_bytes 2 xor_port ++ xor_bytes o (magic_bytes ++ replicate 12 0)
  end.

Definition decode_xor_address (data txid : bytes) : sbc_result SocketAddr :=
  if (length data <? 4)%nat then Err (EMedia "Invalid XOR address attribute")
  else
    let family := byte_at 1 data in
    let p := Z.lxor (u16_at 2 data) magic_port in
    if family =? 1 then
      if (length data <? 8)%nat then Err (EMedia "Invalid XOR IPv4 address")
      else Ok (mkAddr (V4 (xor_bytes (slice 4 8 data) magic_bytes)) p)
    else if family =? 2 then
      if (length data <? 20)%nat then Err (EMedia "Invalid XOR IPv6 address")
      else Ok (mkAddr (V6 (xor_bytes (slice 4 20 data) (magic_bytes ++ txid))) p)
    else Err (EMedia "Unknown address family").

(** ** Attributes *)

(** [while bytes.len() % 4 != 0 { bytes.push(0) }] *)
Definition pad4 (b : bytes) : bytes := b ++ replicate (Z.to_nat ((- blen b) mod 4)) 0.

(** Type, length, value, padding. *)
Definition tlv (t : Z) (value : bytes) : bytes :=
  pad4 (be_bytes 2 t ++ be_bytes 2 (wrapw 16 (blen value)) ++ value).

Definition attr_to_bytes (a : StunAttribute) : bytes :=
  match a with
  | XorMappedAddress a => tlv (attr_to_u16 TXorMappedAddress) (encode_xor_address a)
  | MappedAddress a => tlv (attr_to_u16 TMappedAddress) (encode_address a)
  | ErrorCode code reason =>
      tlv (attr_to_u16 TErrorCode) ([0; 0; wrapw 8 (code / 100); wrapw 8 (code mod 100)] ++ reason)
  | Unknown t data => tlv t data
  end.

(** [(n + 3) & !3] *)
Definition round4 (n : nat) : nat := Z.to_nat (Z.land (Z.of_nat n + 3) (Z.lnot 3)).

(** ** Messages *)

Definition message_to_bytes (m : StunMessage) : bytes :=
  let attrs := concat (attr_to_bytes <$> attributes m) in
  be_bytes 2 (type_to_u16 (message_type m)) ++ be_bytes 2 (wrapw 16 (blen attrs))
  ++ be_bytes 4 STUN_MAGIC_COOKIE ++ transaction_id m ++ attrs.

Definition mapped_address (m : StunMessage) : option SocketAddr :=
  (fix go l := match l with
               | [] => None
               | XorMappedAddress a :: _ => Some a
               | MappedAddress a :: _ => Some a
               | _ :: l => go l
               end) (attributes m).

(** ** CRC-32 *)

Definition crc_bit (crc : Z) : Z :=
  if negb (Z.land crc 1 =? 0) then Z.lxor (Z.shiftr crc 1) 3988292384  (* 0xEDB88320 *)
  else Z.shiftr crc 1.

(** [CRC32_TABLE[i]] *)
Definition crc_table (i : Z) : Z := Nat.iter 8 crc_bit i.

Definition crc32_stun (data : bytes) : Z :=
  Z.lxor
    (fold_left (fun crc b => Z.lxor (Z.shiftr crc 8) (crc_table (Z.land (Z.lxor crc b) 255))) data u32_max)
    u32_max.

(** ** Demultiplexing *)

Inductive MultiplexedPacketType := MuxStun | MuxDtls | MuxRtp | MuxRtcp | MuxUnknown.

Definition in_range (lo hi x : Z) : bool := (lo <=? x) && (x <=? hi).

Definition classify_packet (data : bytes) : MultiplexedPacketType :=
  match head data with
  | None => MuxUnknown
  | Some b =>
      if in_range 0 3 b then MuxStun
      else if in_range 20 63 b then MuxDtls
      else if in_range 128 191 b then
        if (2 <=? length data)%nat && in_range 192 223 (byte_at 1 data) then MuxRtcp else MuxRtp
      else MuxUnknown
  end.

(** ** Parsing *)

Section Stun.
Context (hmac_sha1 : bytes -> bytes -> bytes).
Context (from_utf8_lossy : bytes -> bytes).

Definition attr_from_bytes (t : Z) (data txid : bytes) : sbc_result StunAttribute :=
  match attr_from_u16 t with
  | Some TMappedAddress => let? a := decode_address data in Ok (MappedAddress a)
  | Some TXorMappedAddress => let? a := decode_xor_address data txid in Ok (XorMappedAddress a)
  | Some TErrorCode =>
      if (length data <? 4)%nat then Err (EMedia "Invalid error code attribute")
      else Ok (ErrorCode (byte_at 2 data * 100 + byte_at 3 data) (from_utf8_lossy (drop 4 data)))
  | None => Ok (Unknown t data)
  end.

(** The attribute loop of [from_bytes]; [None] when the fuel is out. *)
Fixpoint parse_attrs (fuel : nat) (data txid : bytes) (stop offset : nat) :
    option (sbc_result (list StunAttribute)) :=
  match fuel with
  | O => None
  | S fuel =>
      if (offset <? stop)%nat then
        if (length data <? offset + 4)%nat then Some (Ok [])
        else
          let t := u16_at offset data in
          let len := Z.to_nat (u16_at (offset + 2) data) in
          let offset := (offset + 4)%nat in
          if (length data <? offset + len)%nat
          then Some (Err (EMedia "Invalid STUN attribute length"))
          else
            match attr_from_bytes t (slice offset (offset + len) data) txid with
            | Err e => Some (Err e)
            | Ok a =>
                match parse_attrs fuel data txid stop (offset + round4 len) with
                | Some (Ok l) => Some (Ok (a :: l))
                | r => r
                end
            end
      else Some (Ok [])
  end.

Definition message_from_bytes (data : bytes) : sbc_result StunMessage :=
  if (length data <? 20)%nat then Err (EMedia "STUN message too short")
  else
    let? t := ok_or (type_from_u16 (u16_at 0 data)) (EMedia "Unknown STUN message type") in
    let len := Z.to_nat (u16_at 2 data) in
    if negb (u32_at 4 data =? STUN_MAGIC_COOKIE) then Err (EMedia "Invalid STUN magic cookie")
    else
      let txid := slice 8 20 data in
      let? attrs := default (Err (EOther "out of fuel"))
                      (parse_attrs (S (length data)) data txid (20 + len) 20) in
      Ok (mkStun t txid attrs).

(** ** Connectivity checks *)

Inductive StunReject := NotARequest | NoIntegrity | BadIntegrity | NoUsername | BadFingerprint.

(** What the attribute walk of [validate_binding_request] collects. *)
Record Walk := mkWalk {
  w_integrity : option (nat * bytes);
  w_fingerprint : option (nat * Z);
  w_username : bool
}.

Definition walk_attr (w : Walk) (t : Z) (offset : nat) (value : bytes) : Walk :=
  if t =? 6 then mkWalk (w_integrity w) (w_fingerprint w) true
  else if (t =? 8) && (length value =? 20)%nat then
    match w_integrity w with
    | None => mkWalk (Some (offset, value)) (w_fingerprint w) (w_username w)
    | Some _ => w
    end
  else if (t =? 32808) && (length value =? 4)%nat then  (* 0x8028 *)
    match w_fingerprint w with
    | None => mkWalk (w_integrity w) (Some (offset, be_val value)) (w_username w)
    | Some _ => w
    end
  else w.

(** The walk; the outer [None] is fuel, the inner one [NotARequest]. *)
Fixpoint walk (fuel : nat) (data : bytes) (stop offset : nat) (w : Walk) : option (option Walk) :=
  match fuel with
  | O => None
  | S fuel =>
      if (offset + 4 <=? stop)%nat then
        let t := u16_at offset data in
        let len := Z.to_nat (u16_at (offset + 2) data) in
        let value_at := (offset + 4)%nat in
        if (stop <? value_at + len)%nat then Some None
        else
          let w := walk_attr w t offset (slice value_at (value_at + len) data) in
          walk fuel data stop (value_at + round4 len) w
      else Some (Some w)
  end.

(** The message up to MESSAGE-INTEGRITY with the header length rewritten. *)
Definition covered_by (data : bytes) (mi_at : nat) : bytes :=
  let len := wrapw 16 (Z.of_nat (mi_at - 20 + 24)) in
  <[3%nat := Z.land len 255]> (<[2%nat := wrapw 8 (Z.shiftr len 8)]> (take mi_at data)).

Definition validate_binding_request (data local_ice_pwd : bytes) : result StunReject () :=
  if (length data <? 20)%nat then Err NotARequest
  else if negb (u16_at 0 data =? type_to_u16 BindingRequest) then Err NotARequest
  else if negb (u32_at 4 data =? STUN_MAGIC_COOKIE) then Err NotARequest
  else
    let stop := Nat.min (20 + Z.to_nat (u16_at 2 data)) (length data) in
    match walk (S (length data)) data stop 20 (mkWalk None None false) with
    | None => Err NotARequest
    | Some None => Err NotARequest
    | Some (Some w) =>
        if match w_fingerprint w with
           | Some (at_, claimed) =>
               negb (Z.lxor (crc32_stun (take at_ data)) FINGERPRINT_XOR =? claimed)
           | None => false
           end
        then Err BadFingerprint
        else
          match w_integrity w with
          | None => Err NoIntegrity
          | Some (mi_at, claimed) =>
              if negb (w_username w) then Err NoUsername
              else if bool_decide (take 20 (hmac_sha1 local_ice_pwd (covered_by data mi_at)) = claimed)
              then Ok () else Err BadIntegrity
          end
    end.

Definition set_length (len : Z) (b : bytes) : bytes :=
  <[3%nat := Z.land len 255]> (<[2%nat := wrapw 8 (Z.shiftr len 8)]> b).

Definition build_binding_response_with_integrity (request : bytes) (source : SocketAddr)
    (local_ice_pwd : option bytes) : sbc_result bytes :=
  let? req := message_from_bytes request in
  if negb (bool_decide (message_type req = BindingRequest))
  then Err (EMedia "Not a STUN Binding Request")
  else
    let response := mkStun BindingResponse (transaction_id req) [XorMappedAddress source] in
    let b := message_to_bytes response in
    match local_ice_pwd with
    | None => Ok b
    | Some pwd =>
        let mi_len := wrapw 16 (u16_at 2 b + 24) in
        let b := set_length mi_len b in
        let b := b ++ be_bytes 2 8 ++ be_bytes 2 20 ++ take 20 (hmac_sha1 pwd b) in
        let b := set_length (wrapw 16 (mi_len + 8)) b in
        Ok (b ++ be_bytes 2 32808 ++ be_bytes 2 4
              ++ be_bytes 4 (Z.lxor (crc32_stun b) FINGERPRINT_XOR))
    end.

Definition build_binding_response (request : bytes) (source : SocketAddr) : sbc_result bytes :=
  build_binding_response_with_integrity request source None.
End Stun.

(** ** Types and lengths on the wire *)

Lemma round4_spec n : round4 n = (4 * ((n + 3) / 4))%nat.
Proof.
  unfold round4. change (Z.lnot 3) with (Z.lnot (Z.ones 2)).
  rewrite <- Z.ldiff_land, Z.ldiff_ones_r, Z.shiftl_mul_pow2, Z.shiftr_div_pow2 by lia.
  change (2 ^ 2) with 4. apply Nat2Z.inj. rewrite Z2Nat.id by zlia.
  rewrite Nat2Z.inj_mul, Nat2Z.inj_div. lia.
Qed.

Lemma pad4_length b : length (pad4 b) = round4 (length b).
Proof.
  unfold pad4, blen. rewrite length_app, length_replicate, round4_spec.
  apply Nat2Z.inj. rewrite Nat2Z.inj_add, Z2Nat.id, Nat2Z.inj_mul, Nat2Z.inj_div by zlia. zlia.
Qed.

Lemma round4_add4 n : round4 (4 + n) = (4 + round4 n)%nat.
Proof. rewrite !round4_spec. replace (4 + n + 3)%nat with (n + 3 + 1 * 4)%nat by lia. rewrite Nat.div_add by lia. lia. Qed.

Lemma round4_ge n : (n <= round4 n)%nat.
Proof. rewrite round4_spec. assert (H := Nat.div_mod_eq (n + 3) 4). assert (H2 := Nat.mod_upper_bound (n + 3) 4). lia. Qed.

Lemma tlv_length t v : length (tlv t v) = (4 + round4 (length v))%nat.
Proof. unfold tlv. rewrite pad4_length, !length_app, !length_be_bytes. apply round4_add4. Qed.

(** The header and the value of an attribute somewhere in a message. *)
Lemma tlv_at pre t v post :
  is_u16 t -> blen v < 65536 ->
  let d := pre ++ tlv t v ++ post in
  let o := length pre in
  u16_at o d = t /\ u16_at (o + 2) d = blen v /\
  slice (o + 4) (o + 4 + length v) d = v /\ (length d = o + (4 + round4 (length v)) + length post)%nat.
Proof.
  intros Ht Hv d o. assert (Hl : is_u16 (blen v)) by (unfold blen in *; ulia).
  unfold d, o. split_and!.
  - rewrite u16_at_mid by done. unfold tlv, pad4. rewrite <- !app_assoc. by apply u16_head.
  - rewrite u16_at_app_r. unfold tlv, pad4. rewrite <- !app_assoc.
    rewrite u16_at_mid by by rewrite length_be_bytes. rewrite wrapw_small by done. by apply u16_head.
  - rewrite <- Nat.add_assoc. rewrite slice_app_r. unfold tlv, pad4. rewrite <- !app_assoc.
    rewrite (assoc_L (++) (be_bytes 2 t)). set (h := be_bytes 2 t ++ _).
    assert (Hh : length h = 4%nat) by (unfold h; by rewrite length_app, !length_be_bytes).
    rewrite <- Hh. apply slice_mid.
  - rewrite !length_app, tlv_length. lia.
Qed.

(** ** The CRC *)

Lemma crc_bit_range c : is_u32 c -> is_u32 (crc_bit c).
Proof.
  intros Hc. assert (is_u32 (Z.shiftr c 1)) by (rewrite Z.shiftr_div_pow2 by lia; unfold is_uw in *; zlia).
  unfold crc_bit. case_test; [|done]. apply lxor_range; [done|done|]. by vm_compute.
Qed.

Lemma crc_table_range i : is_u32 i -> is_u32 (crc_table i).
Proof. intros Hi. unfold crc_table. simpl. by repeat apply crc_bit_range. Qed.

Lemma crc32_range data : is_u32 (crc32_stun data).
Proof.
  unfold crc32_stun. apply lxor_range; [done| |done].
  assert (H : forall c, is_u32 c -> is_u32 (fold_left (fun crc b =>
    Z.lxor (Z.shiftr crc 8) (crc_table (Z.land (Z.lxor crc b) 255))) data c)); [|by apply H].
  induction data as [|b data IH]; intros c Hc; [done|]. simpl. apply IH. apply lxor_range; [done| |].
  - rewrite Z.shiftr_div_pow2 by lia. unfold is_uw in *. zlia.
  - apply crc_table_range. change 255 with (Z.ones 8). rewrite Z.land_ones by lia. unfold is_uw. zlia.
Qed.

(** The check value of CRC-32: the ASCII digits 1 to 9. *)
Example crc32_check : crc32_stun [49; 50; 51; 52; 53; 54; 55; 56; 57] = 3421780262.
Proof. reflexivity. Qed.

(** ** Addresses *)

Lemma split4 (l : bytes) : length l = 4%nat -> exists a b c d, l = [a; b; c; d].
Proof. intros Hl. do 4 (destruct l as [|? l]; [done|]). destruct l; [eauto|done]. Qed.

Lemma addr_head (f : Z) p o :
  is_u16 p -> let d := [0; f] ++ be_bytes 2 p ++ o in
  byte_at 1 d = f /\ u16_at 2 d = p /\ length d = (4 + length o)%nat /\
  slice 4 (4 + length o) d = o.
Proof.
  intros Hp d. split_and!; [done| | |].
  - unfold d. rewrite u16_at_mid by done. by apply u16_head.
  - unfold d. rewrite !length_app, length_be_bytes. simpl. lia.
  - unfold d. rewrite (assoc_L (++)). set (h := [0; f] ++ be_bytes 2 p).
    assert (Hh : length h = 4%nat) by (unfold h; by rewrite length_app, length_be_bytes).
    assert (H := slice_app_r h o 0 (length o)). rewrite Hh in H.
    etrans; [exact H|apply slice_all].
Qed.

Lemma decode_encode_address a : addr_ok a -> decode_address (encode_address a) = Ok a.
Proof.
  destruct a as [[o|o] p]; intros [[Hb Hl] Hp]; simpl in Hb, Hl, Hp.
  - destruct (addr_head 1 p o Hp) as (H1 & H2 & H3 & H4).
    change (encode_address _) with ([0; 1] ++ be_bytes 2 p ++ o).
    set (d := [0; 1] ++ _) in *. rewrite Hl in *. unfold decode_address. rewrite H3, H1, H2.
    simpl. do 2 f_equal. f_equal. exact H4.
  - destruct (addr_head 2 p o Hp) as (H1 & H2 & H3 & H4).
    change (encode_address _) with ([0; 2] ++ be_bytes 2 p ++ o).
    set (d := [0; 2] ++ _) in *. rewrite Hl in *. unfold decode_address. rewrite H3, H1, H2.
    simpl. do 2 f_equal. f_equal. exact H4.
Qed.

Lemma magic_bytes_ok : is_bytes magic_bytes /\ length magic_bytes = 4%nat.
Proof. split; [apply be_bytes_is_bytes|done]. Qed.

Lemma lxor_port p : is_u16 p -> is_u16 (Z.lxor p magic_port) /\ Z.lxor (Z.lxor p magic_port) magic_port = p.
Proof.
  intros Hp. split.
  - apply lxor_range; [done|done|]. by vm_compute.
  - by rewrite Z.lxor_assoc, Z.lxor_nilpotent, Z.lxor_0_r.
Qed.

Lemma xor_zeros_key l k n :
  length l = (4 + n)%nat -> length k = 4%nat ->
  xor_bytes l (k ++ replicate n 0) = xor_bytes (take 4 l) k ++ drop 4 l.
Proof.
  intros Hl Hk. rewrite <- (take_drop 4 l) at 1. unfold xor_bytes.
  rewrite zip_with_app by (rewrite length_take; lia). f_equal.
  apply xor_zero_r. rewrite length_drop. lia.
Qed.

Lemma xor_fixed l k : length l = length k -> xor_bytes l k = l -> k = replicate (length k) 0.
Proof.
  unfold xor_bytes. revert k. induction l as [|x l IH]; intros [|y k] Hl; simpl in *; try done.
  intros [= Hx Hr]. f_equal; [|apply IH; [lia|done]].
  apply (f_equal (Z.lxor x)) in Hx. by rewrite <- Z.lxor_assoc, Z.lxor_nilpotent, Z.lxor_0_l in Hx.
Qed.

Lemma decode_encode_xor_v4 o p txid :
  addr_ok (mkAddr (V4 o) p) -> decode_xor_address (encode_xor_address (mkAddr (V4 o) p)) txid = Ok (mkAddr (V4 o) p).
Proof.
  intros [[Hb Hl] Hp]; simpl in Hb, Hl, Hp. destruct (lxor_port p Hp) as [Hx Hxx].
  destruct (addr_head 1 (Z.lxor p magic_port) (xor_bytes o magic_bytes) Hx) as (H1 & H2 & H3 & H4).
  change (encode_xor_address _) with ([0; 1] ++ be_bytes 2 (Z.lxor p magic_port) ++ xor_bytes o magic_bytes).
  assert (Hxl : length (xor_bytes o magic_bytes) = 4%nat) by (rewrite length_xor, Hl; done).
  set (d := [0; 1] ++ _) in *. rewrite Hxl in *. unfold decode_xor_address. rewrite H3, H1, H2, Hxx.
  simpl. do 2 f_equal. f_equal. etrans; [apply (f_equal (fun x => xor_bytes x magic_bytes) H4)|].
  apply xor_involutive. by rewrite Hl.
Qed.

(** What an IPv6 XOR-MAPPED-ADDRESS becomes: its last twelve octets come back
    exclusive-ored with the transaction id. *)
Lemma decode_encode_xor_v6 o p txid :
  addr_ok (mkAddr (V6 o) p) -> length txid = 12%nat ->
  decode_xor_address (encode_xor_address (mkAddr (V6 o) p)) txid =
  Ok (mkAddr (V6 (take 4 o ++ xor_bytes (drop 4 o) txid)) p).
Proof.
  intros [[Hb Hl] Hp] Ht; simpl in Hb, Hl, Hp. destruct (lxor_port p Hp) as [Hx Hxx].
  set (k := magic_bytes ++ replicate 12 0).
  destruct (addr_head 2 (Z.lxor p magic_port) (xor_bytes o k) Hx) as (H1 & H2 & H3 & H4).
  change (encode_xor_address _) with ([0; 2] ++ be_bytes 2 (Z.lxor p magic_port) ++ xor_bytes o k).
  assert (Hxl : length (xor_bytes o k) = 16%nat) by (rewrite length_xor, Hl; done).
  set (d := [0; 2] ++ _) in *. rewrite Hxl in *. unfold decode_xor_address. rewrite H3, H1, H2, Hxx.
  simpl. do 2 f_equal. f_equal.
  etrans; [apply (f_equal (fun x => xor_bytes x (magic_bytes ++ txid)) H4)|]. unfold k.
  rewrite xor_zeros_key by done. unfold xor_bytes at 1.
  rewrite zip_with_app by (rewrite length_xor, length_take, Hl; done).
  f_equal. apply xor_involutive. rewrite length_take, Hl. done.
Qed.

(** ** Parsing of attributes *)

Section StunLemmas.
Context (hmac_sha1 : bytes -> bytes -> bytes).
Context (from_utf8_lossy : bytes -> bytes).

Lemma parse_tlv fuel pre t v post txid stop :
  is_u16 t -> blen v < 65536 -> (length pre < stop)%nat ->
  parse_attrs from_utf8_lossy (S fuel) (pre ++ tlv t v ++ post) txid stop (length pre) =
  match attr_from_bytes from_utf8_lossy t v txid with
  | Err e => Some (Err e)
  | Ok a =>
      match parse_attrs from_utf8_lossy fuel (pre ++ tlv t v ++ post) txid stop
              (length (pre ++ tlv t v)) with
      | Some (Ok l) => Some (Ok (a :: l))
      | r => r
      end
  end.
Proof.
  intros Ht Hv Hs. destruct (tlv_at pre t v post Ht Hv) as (H1 & H2 & H3 & H4).
  set (d := pre ++ tlv t v ++ post) in *. cbn [parse_attrs].
  apply Nat.ltb_lt in Hs as ->.
  assert (length d <? length pre + 4 = false)%nat as -> by (apply Nat.ltb_ge; lia).
  rewrite H1, H2. unfold blen. rewrite Nat2Z.id.
  assert (length d <? length pre + 4 + length v = false)%nat as ->.
  { apply Nat.ltb_ge. assert (Hr := round4_ge (length v)). lia. }
  rewrite H3. destruct (attr_from_bytes _ _ _ _); [|done].
  by rewrite length_app, tlv_length, Nat.add_assoc.
Qed.

Lemma walk_tlv fuel pre t v post stop w :
  is_u16 t -> blen v < 65536 -> (length pre + 4 + length v <= stop)%nat ->
  walk (S fuel) (pre ++ tlv t v ++ post) stop (length pre) w =
  walk fuel (pre ++ tlv t v ++ post) stop (length (pre ++ tlv t v)) (walk_attr w t (length pre) v).
Proof.
  intros Ht Hv Hs. destruct (tlv_at pre t v post Ht Hv) as (H1 & H2 & H3 & H4).
  set (d := pre ++ tlv t v ++ post) in *. cbn [walk].
  assert (length pre + 4 <=? stop = true)%nat as -> by (apply Nat.leb_le; lia).
  rewrite H1, H2. unfold blen. rewrite Nat2Z.id.
  assert (stop <? length pre + 4 + length v = false)%nat as -> by (apply Nat.ltb_ge; lia).
  by rewrite H3, length_app, tlv_length, Nat.add_assoc.
Qed.

(** ** Termination *)

Lemma parse_attrs_terminates fuel data txid stop offset :
  (length data < fuel + offset)%nat ->
  parse_attrs from_utf8_lossy fuel data txid stop offset <> None \/ (length data < offset)%nat.
Proof.
  revert offset. induction fuel as [|n IH]; intros offset Hf; [right; lia|].
  cbn [parse_attrs]. destruct (offset <? stop)%nat; [|by left].
  destruct (length data <? offset + 4)%nat eqn:E; [by left|]. apply Nat.ltb_ge in E.
  destruct (_ <? _)%nat; [by left|]. left. destruct (attr_from_bytes _ _ _ _); [|done].
  set (o' := (offset + 4 + _)%nat). destruct (IH o') as [Hn|Hn]; [unfold o'; lia| |].
  - destruct (parse_attrs _ n data txid stop o') as [[]|]; done.
  - destruct n as [|n]; [lia|]. cbn [parse_attrs]. destruct (o' <? stop)%nat; [|done].
    assert (length data <? o' + 4 = true)%nat as -> by (apply Nat.ltb_lt; lia). done.
Qed.

Lemma walk_terminates fuel data stop offset w :
  (stop < fuel + offset)%nat -> walk fuel data stop offset w <> None \/ (stop < offset)%nat.
Proof.
  revert offset w. induction fuel as [|n IH]; intros offset w Hf; [right; lia|].
  cbn [walk]. destruct (offset + 4 <=? stop)%nat eqn:E; [|by left]. apply Nat.leb_le in E.
  destruct (_ <? _)%nat; [by left|]. left.
  match goal with |- walk n data stop ?o ?w' <> None => destruct (IH o w') as [Hn|Hn] end;
    [lia|done|].
  destruct n as [|n]; [lia|]. cbn [walk].
  match goal with |- context [(?o + 4 <=? stop)%nat] =>
    assert (o + 4 <=? stop = false)%nat as -> by (apply Nat.leb_gt; lia) end. done.
Qed.
End StunLemmas.

(** ** Messages on the wire *)

Definition header (t len : Z) (txid : bytes) : bytes :=
  be_bytes 2 t ++ be_bytes 2 len ++ be_bytes 4 STUN_MAGIC_COOKIE ++ txid.

Lemma header_length t len txid : length txid = 12%nat -> length (header t len txid) = 20%nat.
Proof. intros Ht. unfold header. by rewrite !length_app, !length_be_bytes, Ht. Qed.

Lemma header_fields t len txid rest :
  is_u16 t -> is_u16 len -> length txid = 12%nat ->
  let d := header t len txid ++ rest in
  u16_at 0 d = t /\ u16_at 2 d = len /\ u32_at 4 d = STUN_MAGIC_COOKIE /\
  slice 8 20 d = txid /\ length d = (20 + length rest)%nat.
Proof.
  intros Ht Hl Hx d. unfold d. split_and!.
  - unfold header. rewrite <- !app_assoc. by apply u16_head.
  - unfold header. rewrite <- !app_assoc.
    rewrite u16_at_mid by by rewrite length_be_bytes. by apply u16_head.
  - unfold header. rewrite <- !app_assoc, (assoc_L (++) (be_bytes 2 t)).
    rewrite u32_at_mid by by rewrite length_app, !length_be_bytes. by apply u32_head.
  - unfold header. rewrite <- !app_assoc, (assoc_L (++) (be_bytes 2 t)), (assoc_L (++) (_ ++ be_bytes 2 len)).
    set (h := (_ ++ be_bytes 2 len) ++ _).
    assert (Hh : length h = 8%nat) by (unfold h; by rewrite !length_app, !length_be_bytes).
    assert (H := slice_mid h txid rest). by rewrite Hh, Hx in H.
  - by rewrite length_app, header_length.
Qed.

Lemma message_bytes_header m :
  let body := concat (attr_to_bytes <$> attributes m) in
  message_to_bytes m =
  header (type_to_u16 (message_type m)) (wrapw 16 (blen body)) (transaction_id m) ++ body.
Proof. unfold message_to_bytes, header. by rewrite <- !app_assoc. Qed.

Definition attr_type (a : StunAttribute) : Z :=
  match a with
  | XorMappedAddress _ => 32 | MappedAddress _ => 1 | ErrorCode _ _ => 9 | Unknown t _ => t
  end.

Definition attr_value (a : StunAttribute) : bytes :=
  match a with
  | XorMappedAddress a => encode_xor_address a
  | MappedAddress a => encode_address a
  | ErrorCode code reason => [0; 0; wrapw 8 (code / 100); wrapw 8 (code mod 100)] ++ reason
  | Unknown _ data => data
  end.

Lemma attr_to_bytes_tlv a : attr_to_bytes a = tlv (attr_type a) (attr_value a).
Proof. by destruct a. Qed.

Section RoundTrip.
Context (from_utf8_lossy : bytes -> bytes).

(** An attribute the wire format can carry. [from_utf8_lossy] leaves valid
    UTF-8 alone, which a reason phrase is. *)
Definition attr_ok (txid : bytes) (a : StunAttribute) : Prop :=
  match a with
  | XorMappedAddress a =>
      addr_ok a /\ match ip a with V4 _ => True | V6 _ => txid = replicate 12 0 end
  | MappedAddress a => addr_ok a
  | ErrorCode code reason =>
      0 <= code < 25600 /\ blen reason + 4 < 65536 /\ from_utf8_lossy reason = reason
  | Unknown t data => is_u16 t /\ attr_from_u16 t = None /\ blen data < 65536
  end.

Lemma addr_value_len a : addr_ok a -> blen (encode_address a) <= 20 /\ blen (encode_xor_address a) <= 20.
Proof.
  destruct a as [[o|o] p]; intros [[_ Hl] _]; simpl in Hl; unfold encode_address, encode_xor_address, blen;
    simpl ip; cbv iota; rewrite ?length_app, ?length_xor, ?length_be_bytes, Hl; simpl; lia.
Qed.

Lemma attr_ok_wire txid a : attr_ok txid a -> is_u16 (attr_type a) /\ blen (attr_value a) < 65536.
Proof.
  destruct a as [ad|ad|code reason|t data]; simpl attr_type; simpl attr_value; intros H.
  - destruct (addr_value_len ad H). split; [done|lia].
  - destruct H as [H _]. destruct (addr_value_len ad H). split; [done|lia].
  - destruct H as (_ & H & _). split; [done|]. unfold blen in *. simpl. lia.
  - destruct H as (H & _ & H'). done.
Qed.

Lemma attr_value_round_trip txid a :
  length txid = 12%nat -> is_bytes txid -> attr_ok txid a ->
  attr_from_bytes from_utf8_lossy (attr_type a) (attr_value a) txid = Ok a.
Proof.
  intros Ht Hb. destruct a as [[[o|o] p]|[[o|o] p]|code reason|t data]; simpl attr_value; cbn [attr_ok]; intros H;
    unfold attr_from_bytes; cbn [attr_type].
  1,2: simpl attr_from_u16; cbv iota; by rewrite decode_encode_address.
  - simpl attr_from_u16; cbv iota. destruct H as [H _]. by rewrite decode_encode_xor_v4.
  - simpl attr_from_u16; cbv iota. destruct H as [H Hz]. cbn [ip] in Hz.
    rewrite decode_encode_xor_v6 by done. destruct H as [[_ Hl] _]. simpl in Hl. subst txid.
    rewrite xor_zero_r by (rewrite length_drop; lia). by rewrite take_drop.
  - simpl attr_from_u16; cbv iota. destruct H as (H1 & H2 & H3). simpl. rewrite drop_0, H3.
    unfold byte_at. simpl. rewrite !wrapw_small by (unfold is_uw; zlia). do 2 f_equal. zlia.
  - simpl in H. destruct H as (H1 & -> & H2). done.
Qed.

Lemma parse_all txid l pre fuel :
  length txid = 12%nat -> is_bytes txid -> Forall (attr_ok txid) l -> (length l < fuel)%nat ->
  let d := pre ++ concat (attr_to_bytes <$> l) in
  parse_attrs from_utf8_lossy fuel d txid (length d) (length pre) = Some (Ok l).
Proof.
  intros Ht Hb Hl. revert pre fuel. induction Hl as [|a l Ha Hl IH]; intros pre [|fuel] Hf; simpl in Hf; try lia.
  { simpl. rewrite app_nil_r, Nat.ltb_irrefl. done. }
  intros d. destruct (attr_ok_wire _ _ Ha) as [Hw1 Hw2].
  assert (Hd : d = pre ++ tlv (attr_type a) (attr_value a) ++ concat (attr_to_bytes <$> l))
    by (unfold d; simpl; by rewrite attr_to_bytes_tlv).
  rewrite Hd at 1. rewrite parse_tlv; [|done|done|].
  2: { rewrite Hd, !length_app, tlv_length. lia. }
  rewrite attr_value_round_trip by done. rewrite <- Hd.
  rewrite (assoc_L (++)) in Hd. specialize (IH (pre ++ tlv (attr_type a) (attr_value a)) fuel ltac:(lia)).
  cbv zeta in IH. rewrite <- Hd in IH. by rewrite IH.
Qed.

Lemma attrs_length l : (length l <= length (concat (attr_to_bytes <$> l)))%nat.
Proof.
  induction l as [|a l IH]; [simpl; lia|]. rewrite fmap_cons. cbn [concat length].
  rewrite length_app, attr_to_bytes_tlv, tlv_length. lia.
Qed.

(** Every message the program can build whose attributes fit the wire
    format is recovered exactly from its bytes, and parsing any bytes at all
    ends, within the loop's bound. *)
Theorem message_round_trip m :
  length (transaction_id m) = 12%nat -> is_bytes (transaction_id m) ->
  Forall (attr_ok (transaction_id m)) (attributes m) ->
  blen (concat (attr_to_bytes <$> attributes m)) < 65536 ->
  message_from_bytes from_utf8_lossy (message_to_bytes m) = Ok m /\
  forall data txid stop, parse_attrs from_utf8_lossy (S (length data)) data txid stop 20 <> None.
Proof.
  intros Ht Hb Ha Hl. split.
  2: { intros data txid stop. destruct (parse_attrs_terminates from_utf8_lossy (S (length data)) data txid stop 20)
         as [|Hx]; [lia|done|].
       cbn [parse_attrs]. destruct (20 <? stop)%nat; [|done].
       assert (length data <? 20 + 4 = true)%nat as -> by (apply Nat.ltb_lt; lia). done. }
  rewrite message_bytes_header. destruct m as [t txid l]. cbn [transaction_id attributes message_type] in *.
  set (body := concat (attr_to_bytes <$> l)) in *.
  assert (Hlen : is_u16 (blen body)) by (unfold blen in *; ulia). rewrite wrapw_small by done.
  assert (Ht16 : is_u16 (type_to_u16 t)) by by destruct t.
  destruct (header_fields (type_to_u16 t) (blen body) txid body Ht16 Hlen Ht) as (H1 & H2 & H3 & H4 & H5).
  assert (Hh := header_length (type_to_u16 t) (blen body) txid Ht).
  set (h := header (type_to_u16 t) (blen body) txid) in *.
  assert (Hal := attrs_length l). fold body in Hal.
  assert (Hp := parse_all txid l h (S (length (h ++ body))) Ht Hb Ha). specialize (Hp ltac:(lia)).
  fold body in Hp. rewrite Hh in Hp.
  unfold message_from_bytes. rewrite H1, H2, H3, H4.
  assert (length (h ++ body) <? 20 = false)%nat as -> by (apply Nat.ltb_ge; lia).
  assert (type_from_u16 (type_to_u16 t) = Some t) as -> by by destruct t.
  rewrite Z.eqb_refl. unfold blen. rewrite Nat2Z.id, <- H5. cbn [ok_or rbind negb]. by rewrite Hp.
Qed.
End RoundTrip.

(** ** Theorems *)

(** [decode_xor_address] inverts [encode_xor_address] for every IPv4
    address, and for an IPv6 address exactly when the transaction id is zero:
    the encoder does not exclusive-or the transaction id in. *)
Theorem xor_address_round_trip a txid :
  addr_ok a -> is_bytes txid -> length txid = 12%nat ->
  decode_xor_address (encode_xor_address a) txid = Ok a <->
  match ip a with V4 _ => True | V6 _ => txid = replicate 12 0 end.
Proof.
  destruct a as [[o|o] p]; intros Ha Hb Ht; simpl ip; cbv iota.
  - by rewrite decode_encode_xor_v4.
  - rewrite decode_encode_xor_v6 by done. destruct Ha as [[_ Hl] _]. simpl in Hl. split.
    + intros [= E]. rewrite <- Ht. apply (xor_fixed (drop 4 o)); [rewrite length_drop; lia|].
      apply (app_inv_head (take 4 o)). by rewrite take_drop.
    + intros ->. rewrite xor_zero_r by (rewrite length_drop; lia). by rewrite take_drop.
Qed.

(** ** Connectivity checks: what is accepted *)

(** The attributes the walk visits. *)
Inductive seen (data : bytes) (stop : nat) : nat -> Prop :=
  | seen_first : seen data stop 20
  | seen_next o :
      seen data stop o -> (o + 4 + Z.to_nat (u16_at (o + 2) data) <= stop)%nat ->
      seen data stop (o + 4 + round4 (Z.to_nat (u16_at (o + 2) data))).

(** An attribute of type [t] and value [v] at [o]. *)
Definition attr_here (data : bytes) (stop o : nat) (t : Z) (v : bytes) : Prop :=
  seen data stop o /\ u16_at o data = t /\
  v = slice (o + 4) (o + 4 + Z.to_nat (u16_at (o + 2) data)) data.

(** What a walk that collected [w] has seen. *)
Definition walk_ok (data : bytes) (stop : nat) (w : Walk) : Prop :=
  (forall o v, w_integrity w = Some (o, v) -> attr_here data stop o 8 v /\ length v = 20%nat) /\
  (w_username w = true -> exists o v, attr_here data stop o 6 v).

Lemma walk_attr_ok data stop w t o v :
  walk_ok data stop w -> attr_here data stop o t v -> walk_ok data stop (walk_attr w t o v).
Proof.
  intros [H1 H2] Ha. unfold walk_attr.
  destruct (t =? 6) eqn:E6; to_prop; subst.
  { split; simpl; [done|eauto]. }
  destruct ((t =? 8) && _) eqn:E8; to_prop.
  { subst. destruct (w_integrity w) as [[]|] eqn:Ei; [split; [by rewrite Ei|done]|].
    split; simpl; [|done]. intros o' v' [= <- <-]. split; [done|]. by apply Nat.eqb_eq. }
  destruct ((t =? 32808) && _); [|by split].
  destruct (w_fingerprint w); by split.
Qed.

Lemma walk_sound fuel data stop offset w w' :
  seen data stop offset -> walk_ok data stop w ->
  walk fuel data stop offset w = Some (Some w') -> walk_ok data stop w'.
Proof.
  revert offset w. induction fuel as [|n IH]; intros offset w Hs Hw; [done|]. cbn [walk].
  destruct (offset + 4 <=? stop)%nat; [|by intros [= <-]].
  destruct (stop <? _)%nat eqn:E; [done|]. apply Nat.ltb_ge in E.
  apply IH; [by apply seen_next|]. apply walk_attr_ok; [done|]. by split_and!.
Qed.

Section Checks.
Context (hmac_sha1 : bytes -> bytes -> bytes).
Hypothesis hmac_len : forall k m, length (hmac_sha1 k m) = 20%nat.

(** A datagram that passes the check is a Binding Request with the magic
    cookie, carries a USERNAME attribute and a 20-byte MESSAGE-INTEGRITY
    attribute whose value is the HMAC, keyed by our password, of the message
    before it. *)
Theorem validate_sound data pwd :
  validate_binding_request hmac_sha1 data pwd = Ok () ->
  let stop := Nat.min (20 + Z.to_nat (u16_at 2 data)) (length data) in
  u16_at 0 data = 1 /\ u32_at 4 data = STUN_MAGIC_COOKIE /\
  (exists o v, attr_here data stop o 6 v) /\
  (exists o v, attr_here data stop o 8 v /\ length v = 20%nat /\
     hmac_sha1 pwd (covered_by data o) = v).
Proof.
  intros E stop. unfold validate_binding_request in E. fold stop in E.
  destruct (length data <? 20)%nat; [done|]. destruct (negb (u16_at 0 data =? _)) eqn:E0; [done|].
  destruct (negb (u32_at 4 data =? _)) eqn:E4; [done|]. to_prop.
  destruct (walk _ _ _ _ _) as [[w|]|] eqn:Ew; try done.
  apply walk_sound in Ew as [H1 H2]; [|constructor|by split].
  destruct (match w_fingerprint w with Some _ => _ | None => _ end); [done|].
  destruct (w_integrity w) as [[o v]|] eqn:Ei; [|done].
  destruct (w_username w) eqn:Eu; [|done]. simpl in E. case_bool_decide as Ev; [|done].
  destruct (H1 o v eq_refl) as [Ha Hl]. split_and!; try done; [exact (H2 eq_refl)|].
  exists o, v. split_and!; try done. rewrite <- Ev. symmetry. apply take_ge. by rewrite hmac_len.
Qed.

(** ** What a peer with the password sends *)

Abbreviation attr := (Z * bytes)%type.
Definition tlvs (l : list attr) : bytes := concat ((fun a => tlv a.1 a.2) <$> l).

Fixpoint fold_walk (w : Walk) (o : nat) (l : list attr) : Walk :=
  match l with
  | [] => w
  | (t, v) :: l => fold_walk (walk_attr w t o v) (o + (4 + round4 (length v))) l
  end.

Definition wire_ok (a : attr) : Prop := is_u16 a.1 /\ blen a.2 < 65536.

Lemma tlvs_app l1 l2 : tlvs (l1 ++ l2) = tlvs l1 ++ tlvs l2.
Proof. unfold tlvs. by rewrite fmap_app, concat_app. Qed.

Lemma tlvs_single a : tlvs [a] = tlv a.1 a.2.
Proof. apply app_nil_r. Qed.

Lemma tlvs_length l : (4 * length l <= length (tlvs l))%nat.
Proof.
  unfold tlvs. induction l as [|a l IH]; [simpl; lia|]. rewrite fmap_cons. cbn [concat length].
  rewrite length_app, tlv_length. lia.
Qed.

Lemma walk_list l pre w fuel :
  Forall wire_ok l -> (length l < fuel)%nat ->
  let d := pre ++ tlvs l in
  walk fuel d (length d) (length pre) w = Some (Some (fold_walk w (length pre) l)).
Proof.
  intros Hl. revert pre w fuel. induction Hl as [|[t v] l Ha Hl IH]; intros pre w [|fuel] Hf; simpl in Hf; try lia.
  { unfold tlvs. simpl. rewrite app_nil_r.
    assert (length pre + 4 <=? length pre = false)%nat as -> by (apply Nat.leb_gt; lia). done. }
  intros d. destruct Ha as [Ht Hv]. cbn [fst snd] in Ht, Hv.
  assert (Hd : d = pre ++ tlv t v ++ tlvs l) by done.
  assert (Hr := round4_ge (length v)).
  rewrite Hd at 1. rewrite walk_tlv; [|done|done|].
  2: { rewrite Hd, !length_app, tlv_length. lia. }
  rewrite <- Hd. rewrite (assoc_L (++)) in Hd.
  specialize (IH (pre ++ tlv t v) (walk_attr w t (length pre) v) fuel ltac:(lia)).
  cbv zeta in IH. rewrite <- Hd in IH. rewrite IH. cbn [fold_walk].
  by rewrite length_app, tlv_length.
Qed.

Lemma fold_walk_app w o l1 l2 :
  fold_walk w o (l1 ++ l2) = fold_walk (fold_walk w o l1) (o + length (tlvs l1)) l2.
Proof.
  revert w o. induction l1 as [|[t v] l1 IH]; intros w o; [by rewrite Nat.add_0_r|].
  cbn [app fold_walk]. rewrite IH. f_equal. unfold tlvs. rewrite fmap_cons. cbn [concat fst snd].
  rewrite length_app, tlv_length. lia.
Qed.

Definition plain (a : attr) : Prop := a.1 <> 8 /\ a.1 <> 32808.

Lemma fold_walk_plain l w o :
  Forall plain l ->
  fold_walk w o l =
  mkWalk (w_integrity w) (w_fingerprint w) (w_username w || existsb (fun a => a.1 =? 6) l).
Proof.
  intros Hl. revert w o. induction Hl as [|[t v] l [H8 Hf] Hl IH]; intros w o.
  { destruct w. simpl. by rewrite orb_false_r. }
  cbn [fold_walk existsb fst] in *. rewrite IH. unfold walk_attr.
  apply Z.eqb_neq in H8 as ->, Hf as ->. simpl. destruct (t =? 6); [|done].
  simpl. by rewrite orb_true_r.
Qed.

Lemma set_length_header n t len txid rest :
  is_u16 n -> set_length n (header t len txid ++ rest) = header t n txid ++ rest.
Proof.
  intros Hn. unfold set_length, header. simpl. do 2 f_equal. f_equal; [|f_equal].
  - unfold wrapw. by rewrite Z.shiftr_div_pow2 by lia.
  - change 255 with (Z.ones 8). by rewrite Z.land_ones by lia.
Qed.

Lemma covered_header L txid body rest :
  length txid = 12%nat -> blen body + 24 < 65536 ->
  covered_by (header 1 L txid ++ body ++ rest) (20 + length body) = header 1 (blen body + 24) txid ++ body.
Proof.
  intros Ht Hb. unfold covered_by.
  assert (Hw : wrapw 16 (Z.of_nat (20 + length body - 20 + 24)) = blen body + 24).
  { unfold blen in *. rewrite wrapw_small; unfold is_uw; lia. }
  rewrite Hw. rewrite (assoc_L (++)), take_app_length' by (rewrite length_app, header_length; lia).
  apply (set_length_header (blen body + 24) 1 L txid body). unfold blen in *. ulia.
Qed.

(** The connectivity check of a peer that holds [pwd] (RFC 5389 section 15.4
    and 15.5): its attributes, MESSAGE-INTEGRITY over them, FINGERPRINT. *)
Definition ice_integrity (pwd txid : bytes) (attrs : list attr) : attr :=
  (8, hmac_sha1 pwd (header 1 (blen (tlvs attrs) + 24) txid ++ tlvs attrs)).

Definition ice_unsealed (pwd txid : bytes) (attrs : list attr) : bytes :=
  header 1 (blen (tlvs attrs) + 32) txid ++ tlvs (attrs ++ [ice_integrity pwd txid attrs]).

Definition ice_request (pwd txid : bytes) (attrs : list attr) : bytes :=
  ice_unsealed pwd txid attrs ++
  tlv 32808 (be_bytes 4 (Z.lxor (crc32_stun (ice_unsealed pwd txid attrs)) FINGERPRINT_XOR)).

(** The check, once the walk over a list of attributes is known. *)
Lemma validate_list L txid l pwd :
  is_u16 L -> length txid = 12%nat -> L = blen (tlvs l) -> Forall wire_ok l ->
  let d := header 1 L txid ++ tlvs l in
  let w := fold_walk (mkWalk None None false) 20 l in
  validate_binding_request hmac_sha1 d pwd =
  if match w_fingerprint w with
     | Some (at_, claimed) => negb (Z.lxor (crc32_stun (take at_ d)) FINGERPRINT_XOR =? claimed)
     | None => false
     end
  then Err BadFingerprint
  else match w_integrity w with
       | None => Err NoIntegrity
       | Some (mi_at, claimed) =>
           if negb (w_username w) then Err NoUsername
           else if bool_decide (take 20 (hmac_sha1 pwd (covered_by d mi_at)) = claimed)
           then Ok () else Err BadIntegrity
       end.
Proof.
  intros HL Ht HLl Hl d w. unfold validate_binding_request.
  destruct (header_fields 1 L txid (tlvs l) ltac:(done) HL Ht) as (H1 & H2 & H3 & _ & H5). fold d in H1, H2, H3, H5.
  assert (length d <? 20 = false)%nat as -> by (apply Nat.ltb_ge; lia).
  rewrite H1, H2, H3. cbn [type_to_u16]. rewrite !Z.eqb_refl. cbn [negb].
  assert (Hst : Nat.min (20 + Z.to_nat L) (length d) = length d).
  { rewrite H5, HLl. unfold blen. rewrite Nat2Z.id. lia. }
  rewrite Hst. assert (Hw := walk_list l (header 1 L txid) (mkWalk None None false) (S (length d)) Hl).
  cbv zeta in Hw. fold d in Hw. rewrite header_length in Hw by done.
  assert (Hlen := tlvs_length l). rewrite Hw by lia. done.
Qed.

(** The check a peer with our password sends passes: for every list of
    other attributes that contains a USERNAME. *)
Theorem validate_complete pwd txid attrs :
  length txid = 12%nat -> Forall wire_ok attrs -> Forall plain attrs ->
  Exists (fun a => a.1 = 6) attrs -> blen (tlvs attrs) + 32 < 65536 ->
  validate_binding_request hmac_sha1 (ice_request pwd txid attrs) pwd = Ok ().
Proof.
  intros Ht Hw Hp Hu Hb. set (mi := ice_integrity pwd txid attrs).
  set (pre := ice_unsealed pwd txid attrs).
  set (fp := (32808, be_bytes 4 (Z.lxor (crc32_stun pre) FINGERPRINT_XOR)) : attr).
  assert (Hmi : tlvs [mi] = tlv 8 mi.2 /\ length (tlvs [mi]) = 24%nat).
  { rewrite tlvs_single, tlv_length. unfold mi, ice_integrity. cbn [fst snd]. by rewrite hmac_len. }
  assert (Hfp : length (tlvs [fp]) = 8%nat).
  { rewrite tlvs_single, tlv_length. unfold fp. cbn [fst snd]. by rewrite length_be_bytes. }
  assert (Hd : ice_request pwd txid attrs = header 1 (blen (tlvs attrs) + 32) txid ++ tlvs (attrs ++ [mi; fp])).
  { unfold ice_request. fold pre. unfold pre at 1, ice_unsealed. fold mi.
    rewrite <- app_assoc. f_equal. change [mi; fp] with ([mi] ++ [fp]).
    rewrite !tlvs_app, <- app_assoc. do 2 f_equal. }
  assert (Hpre : take (20 + length (tlvs attrs) + 24) (ice_request pwd txid attrs) = pre).
  { unfold ice_request. fold pre. apply take_app_length'. unfold pre, ice_unsealed. fold mi.
    rewrite length_app, header_length, tlvs_app, length_app by done. destruct Hmi. lia. }
  assert (Hcov : covered_by (ice_request pwd txid attrs) (20 + length (tlvs attrs)) =
    header 1 (blen (tlvs attrs) + 24) txid ++ tlvs attrs).
  { rewrite Hd, tlvs_app. apply covered_header; [done|lia]. }
  rewrite Hd in *. rewrite validate_list; [|unfold blen in *; ulia|done| |].
  2: { unfold blen in *. change [mi; fp] with ([mi] ++ [fp]). rewrite !tlvs_app, !length_app. lia. }
  2: { apply Forall_app. split; [done|]. constructor; [|constructor; [done|constructor]].
       split; [done|]. unfold mi, ice_integrity, blen. cbn [snd]. by rewrite hmac_len. }
  rewrite fold_walk_app, (fold_walk_plain attrs) by done. cbn [fold_walk mi fp ice_integrity].
  unfold walk_attr. cbn [Z.eqb Pos.eqb andb w_integrity w_fingerprint w_username].
  rewrite hmac_len, length_be_bytes. cbn [Nat.eqb andb w_integrity w_fingerprint w_username].
  change (4 + round4 20)%nat with 24%nat. rewrite Hpre, Hcov.
  rewrite (take_ge (hmac_sha1 _ _)) by (by rewrite hmac_len).
  rewrite be_val_4 by (apply lxor_range; [done|apply crc32_range|by vm_compute]).
  rewrite Z.eqb_refl. cbn [negb orb].
  assert (existsb (fun a => a.1 =? 6) attrs = true) as ->.
  { apply existsb_exists. apply Exists_exists in Hu as (a & Hin & Ha). exists a.
    split; [by apply list_elem_of_In|]. by apply Z.eqb_eq. }
  by rewrite bool_decide_eq_true_2.
Qed.

(** A USERNAME attribute after MESSAGE-INTEGRITY, where no HMAC covers it,
    is accepted as the check's USERNAME. *)
Theorem trailing_username_accepted pwd txid user :
  length txid = 12%nat -> blen user < 60000 ->
  let mac := hmac_sha1 pwd (header 1 24 txid) in
  let rest := tlvs [(8, mac); (6, user)] in
  validate_binding_request hmac_sha1 (header 1 (blen rest) txid ++ rest) pwd = Ok ().
Proof.
  intros Ht Hu mac rest. assert (Hm : length mac = 20%nat) by apply hmac_len.
  assert (Hr : length rest = (24 + (4 + round4 (length user)))%nat).
  { unfold rest. change [(8, mac); (6, user)] with ([(8, mac)] ++ [(6, user)]).
    rewrite tlvs_app, !tlvs_single, length_app, !tlv_length. cbn [fst snd]. by rewrite Hm. }
  assert (Hrl : is_u16 (blen rest)).
  { unfold blen in *. rewrite Hr, round4_spec. assert (H := Nat.div_mod_eq (length user + 3) 4).
    unfold is_uw. lia. }
  unfold rest. rewrite validate_list; try done.
  2: { repeat constructor; cbn [fst snd]; unfold blen in *; try done; lia. }
  fold rest.
  assert (Hc := covered_header (blen rest) txid [] rest Ht ltac:(done)).
  cbn [app length] in Hc. rewrite app_nil_r in Hc. change (20 + 0)%nat with 20%nat in Hc.
  clearbody rest. cbn [fold_walk]. unfold walk_attr. rewrite Hm.
  cbn [Z.eqb Pos.eqb Nat.eqb andb negb w_integrity w_fingerprint w_username]. rewrite Hc.
  rewrite take_ge by (by rewrite hmac_len). by rewrite bool_decide_eq_true_2.
Qed.
End Checks.

(** ** Demultiplexing *)

(** Demultiplexing is a partition on the first byte (RFC 5764 section 5.1.2)
    with RTCP told from RTP by its packet type (RFC 5761 section 4). *)
Theorem classify_packet_spec data :
  is_bytes data ->
  match classify_packet data with
  | MuxStun => exists b r, data = b :: r /\ 0 <= b <= 3
  | MuxDtls => exists b r, data = b :: r /\ 20 <= b <= 63
  | MuxRtcp => exists b c r, data = b :: c :: r /\ 128 <= b <= 191 /\ 192 <= c <= 223
  | MuxRtp => exists b r, data = b :: r /\ 128 <= b <= 191 /\ forall c r', r = c :: r' -> ~ 192 <= c <= 223
  | MuxUnknown =>
      data = [] \/ exists b r, data = b :: r /\ (4 <= b <= 19 \/ 64 <= b <= 127 \/ 192 <= b)
  end.
Proof.
  intros Hb. unfold classify_packet. destruct data as [|b r]; [by left|].
  change (head (b :: r)) with (Some b).
  inversion Hb as [|? ? Hb' _]; subst. unfold is_uw in Hb'. cbv iota. unfold in_range.
  destruct ((0 <=? b) && (b <=? 3)) eqn:E1; cbv iota; to_prop; [by exists b, r|].
  destruct ((20 <=? b) && (b <=? 63)) eqn:E2; cbv iota; to_prop; [by exists b, r|].
  destruct ((128 <=? b) && (b <=? 191)) eqn:E3; cbv iota; to_prop.
  2: { right. exists b, r. split; [done|].
       repeat match goal with H : _ \/ _ |- _ => destruct H as [H|H] end; to_prop; lia. }
  destruct r as [|c r]; [by exists b, []|].
  change (2 <=? length (b :: c :: r))%nat with true. change (byte_at 1 (b :: c :: r)) with c.
  cbn [andb].
  destruct ((192 <=? c) && (c <=? 223)) eqn:E4; cbv iota; to_prop; [by exists b, c, r|].
  exists b, (c :: r). split; [done|]. split; [done|]. intros c' r' Heq. simplify_eq.
  destruct E4 as [E4|E4]; to_prop; lia.
Qed.

(** ** Witnesses *)

Module Witness.
Definition mac (k m : bytes) : bytes := replicate 20 (be_val m mod 251).
Lemma stun_mac_len k m : length (mac k m) = 20%nat.
Proof. apply length_replicate. Qed.

Definition txid : bytes := [1; 2; 3; 4; 5; 6; 7; 8; 9; 10; 11; 12].
Definition user : bytes := [97; 58; 98].

Lemma xor_address_round_trip_witness :
  decode_xor_address (encode_xor_address (mkAddr (V4 [192; 0; 2; 1]) 5004)) txid
  = Ok (mkAddr (V4 [192; 0; 2; 1]) 5004).
Proof. apply xor_address_round_trip; [by apply (bool_decide_unpack _)|by apply (bool_decide_unpack _)|done|done]. Defined.

Lemma message_round_trip_witness :
  let m := mkStun BindingResponse txid
    [XorMappedAddress (mkAddr (V4 [192; 0; 2; 1]) 5004); ErrorCode 420 [66; 97; 100]; Unknown 32802 [1; 2; 3]] in
  message_from_bytes (fun b => b) (message_to_bytes m) = Ok m.
Proof.
  intros m. apply (message_round_trip (fun b => b) m); [done|by apply (bool_decide_unpack _)| |done].
  constructor; [|constructor; [|constructor; [|constructor]]].
  - split; [by apply (bool_decide_unpack _)|done].
  - done.
  - done.
Defined.

Lemma validate_sound_witness :
  exists o v, attr_here (ice_request mac user txid [(6, user)]) 60 o 8 v /\ length v = 20%nat.
Proof.
  destruct (validate_sound mac stun_mac_len (ice_request mac user txid [(6, user)]) user)
    as (_ & _ & _ & o & v & H & Hl & _); [vm_compute; reflexivity|by exists o, v].
Defined.

Lemma validate_complete_witness :
  validate_binding_request mac (ice_request mac user txid [(6, user)]) user = Ok ().
Proof.
  apply (validate_complete mac stun_mac_len); [done|constructor; [split; done|constructor]|constructor; [split; done|constructor]|by left|done].
Defined.

Lemma trailing_username_accepted_witness :
  exists d, validate_binding_request mac d user = Ok ().
Proof. eexists. apply (trailing_username_accepted mac stun_mac_len user txid user); done. Defined.

Lemma classify_packet_spec_witness :
  exists b c r, [128; 200] = b :: c :: r /\ 128 <= b <= 191 /\ 192 <= c <= 223.
Proof. exact (classify_packet_spec [128; 200] (bool_decide_unpack (is_bytes [128; 200]) I)). Defined.
End Witness.
