(* ===== verification/Transcoder.v ===== *)
(** * G.711, resampling and the transcoder (transcoding.rs)

    The two companding laws on 16-bit samples, the resamplers, and
    [Transcoder::transcode]. A sample is a [Z] in the range of [i16]; the
    low-pass filter computes in single precision with the Standard Library's
    IEEE 754 specification. The Opus encoder and decoder are parameters. *)

From Stdlib Require Import SpecFloat.
From S2P Require Import Prelude Bytes.

Definition PT_PCMU : Z := 0.
Definition PT_PCMA : Z := 8.
Definition PT_OPUS : Z := 111.
Definition G711_RATE : Z := 8000.
Definition OPUS_RATE : Z := 48000.

(** ** Companding *)

Definition is_i16 (x : Z) : Prop := -32768 <= x < 32768.

(** [!b] of a [u8], [x as i16] of an [i32] and [x as u8]. *)
Definition not8 (b : Z) : Z := 255 - b.
Definition as_i16 (x : Z) : Z := wrapw 16 (x + 32768) - 32768.
Definition as_u8 (x : Z) : Z := wrapw 8 x.

Definition pcmu_exp (sample : Z) : Z :=
  if sample <? 256 then 0
  else if sample <? 512 then 1
  else if sample <? 1024 then 2
  else if sample <? 2048 then 3
  else if sample <? 4096 then 4
  else if sample <? 8192 then 5
  else if sample <? 16384 then 6
  else 7.

Definition pcmu_encode_sample (pcm : Z) : Z :=
  let '(sign, sample) := if 0 <=? pcm then (128, pcm) else (0, - pcm) in
  let sample := if 32635 <? sample then 32635 else sample in
  let sample := sample + 132 in
  let exp := pcmu_exp sample in
  let mantissa := as_u8 (Z.land (Z.shiftr sample (exp + 3)) 15) in
  not8 (Z.lor (Z.lor sign (Z.shiftl exp 4)) mantissa).

Definition pcmu_decode_sample (ulaw : Z) : Z :=
  let ulaw := not8 ulaw in
  let sign := Z.land ulaw 128 in
  let exp := Z.land (Z.shiftr ulaw 4) 7 in
  let mant := Z.land ulaw 15 in
  let t := Z.shiftl (Z.lor (Z.shiftl mant 3) 132) exp in
  let sample := t - 132 in
  if negb (sign =? 0) then as_i16 sample else - as_i16 sample.

Definition pcma_segment (sample : Z) : Z * Z :=
  let s := Z.shiftr sample 4 in
  if s =? 0 then (0, Z.shiftr sample 1)
  else if s <? 2 then (1, Z.land (Z.shiftr sample 2) 15)
  else if s <? 4 then (2, Z.land (Z.shiftr sample 3) 15)
  else if s <? 8 then (3, Z.land (Z.shiftr sample 4) 15)
  else if s <? 16 then (4, Z.land (Z.shiftr sample 5) 15)
  else if s <? 32 then (5, Z.land (Z.shiftr sample 6) 15)
  else if s <? 64 then (6, Z.land (Z.shiftr sample 7) 15)
  else (7, Z.land (Z.shiftr sample 8) 15).

Definition pcma_encode_sample (pcm : Z) : Z :=
  let '(sign, sample) := if 0 <=? pcm then (128, pcm) else (0, - pcm - 1) in
  let sample := if 32767 <? sample then 32767 else sample in
  let '(exp, mantissa) := pcma_segment sample in
  as_u8 (Z.lxor (Z.lor (Z.lor sign (Z.shiftl exp 4)) mantissa) 85).

Definition pcma_decode_sample (alaw : Z) : Z :=
  let alaw := Z.lxor alaw 85 in
  let sign := Z.land alaw 128 in
  let exp := Z.land (Z.shiftr alaw 4) 7 in
  let mant := Z.land alaw 15 in
  let sample :=
    if exp =? 0 then Z.lor (Z.shiftl mant 1) 1
    else Z.lor (Z.shiftl (Z.lor mant 16) exp) (Z.shiftl 1 (exp - 1)) in
  if negb (sign =? 0) then as_i16 sample else - as_i16 sample.

Definition pcmu_encode : list Z -> bytes := map pcmu_encode_sample.
Definition pcmu_decode : bytes -> list Z := map pcmu_decode_sample.
Definition pcma_encode : list Z -> bytes := map pcma_encode_sample.
Definition pcma_decode : bytes -> list Z := map pcma_decode_sample.

(** ** Resampling *)

(** IEEE 754 binary32. *)
Definition f32_of_Z (z : Z) : spec_float := binary_normalize 24 128 z 0 false.
Definition f32_add : spec_float -> spec_float -> spec_float := SFadd 24 128.
Definition f32_mul : spec_float -> spec_float -> spec_float := SFmul 24 128.
Definition f32_clamp (lo hi x : spec_float) : spec_float :=
  let x := if SFltb x lo then lo else x in if SFltb hi x then hi else x.

(** [x as i16]: toward zero, saturating, 0 for a NaN. *)
Definition f32_as_i16 (x : spec_float) : Z :=
  match x with
  | S754_zero _ | S754_nan => 0
  | S754_infinity s => if s then -32768 else 32767
  | S754_finite s m e =>
      let v := Z.shiftl (Zpos m) e in
      Z.max (-32768) (Z.min 32767 (if s then - v else v))
  end.

(** The nearest binary32 of 0.0025, 0.0085, 0.0230, 0.0480, 0.0810, 0.1130,
    0.1350, 0.1400 and back. *)
Definition LP : list spec_float :=
  let c m e := S754_finite false m e in
  let half := [c 10737418%positive (-32); c 9126806%positive (-30); c 12348031%positive (-29);
               c 12884902%positive (-28); c 10871636%positive (-27); c 15166603%positive (-27);
               c 9059697%positive (-26)] in
  half ++ c 9395241%positive (-26) :: rev half.

Definition HALF : Z := 7.

Definition fir_at (samples : list Z) (center : Z) : spec_float :=
  fold_left (fun acc (kc : nat * spec_float) =>
      let idx := center + Z.of_nat kc.1 - HALF in
      let s := if (0 <=? idx) && (idx <? Z.of_nat (length samples))
               then f32_of_Z (nth (Z.to_nat idx) samples 0) else S754_zero false in
      f32_add acc (f32_mul s kc.2))
    (imap (fun k c => (k, c)) LP) (S754_zero false).

Definition downsample_48k_to_8k (samples : list Z) : list Z :=
  map (fun i => f32_as_i16 (f32_clamp (f32_of_Z (-32768)) (f32_of_Z 32767)
                              (fir_at samples (Z.of_nat (i * 6)))))
    (seq 0 (length samples / 6)).

(** Rust's [/] on [i32] truncates. *)
Fixpoint upsample_8k_to_48k (samples : list Z) : list Z :=
  match samples with
  | [] => []
  | s0 :: rest =>
      let s1 := match rest with s1 :: _ => s1 | [] => s0 end in
      map (fun k => as_i16 (s0 + Z.quot ((s1 - s0) * k) 6)) [0; 1; 2; 3; 4; 5]
      ++ upsample_8k_to_48k rest
  end.

(** ** The transcoder *)

Inductive Codec := Pcmu | Pcma | Opus | Unknown (pt : Z).

#[export] Instance Codec_eq_dec : EqDecision Codec.
Proof. solve_decision. Defined.

Definition from_pt (pt : Z) : Codec :=
  if pt =? PT_PCMU then Pcmu
  else if pt =? PT_PCMA then Pcma
  else if pt =? PT_OPUS then Opus
  else Unknown pt.

Definition codec_pt (c : Codec) : Z :=
  match c with Pcmu => PT_PCMU | Pcma => PT_PCMA | Opus => PT_OPUS | Unknown p => p end.

Definition sample_rate (c : Codec) : Z :=
  match c with Pcmu | Pcma => G711_RATE | Opus => OPUS_RATE | Unknown _ => G711_RATE end.

Definition clock_rate (c : Codec) : Z :=
  match c with Pcmu => 8000 | Pcma => 8000 | Opus => 48000 | Unknown _ => 8000 end.

Definition pcm_to_bytes (pcm : list Z) : bytes :=
  pcm ≫= fun s => [Z.land s 255; Z.land (Z.shiftr s 8) 255].

Fixpoint bytes_to_pcm (b : bytes) : list Z :=
  match b with
  | lo :: hi :: rest => as_i16 (hi * 256 + lo) :: bytes_to_pcm rest
  | _ => []
  end.

Section transcoder.
(** libopus: constructors that may fail, and packet transforms that update the
    codec's state. *)
Context {Enc Dec : Type}.
Context (encoder_new : sbc_result Enc) (decoder_new : sbc_result Dec).
Context (enc_run : Enc -> list Z -> sbc_result bytes * Enc).
Context (dec_run : Dec -> bytes -> sbc_result (list Z) * Dec).

Record Transcoder := mkTc {
  tc_src : Codec;
  tc_dst : Codec;
  tc_src_pt : Z;
  tc_dst_pt : Z;
  opus_encoder : option Enc;
  opus_decoder : option Dec
}.

Definition when {A} (b : bool) (m : sbc_result A) : sbc_result (option A) :=
  if b then (let? a := m in Ok (Some a)) else Ok None.

Definition is_unknown (c : Codec) : bool := match c with Unknown _ => true | _ => false end.

Definition with_payload_types (src : Codec) (src_pt : Z) (dst : Codec) (dst_pt : Z) :
    sbc_result Transcoder :=
  if negb (bool_decide (src = dst)) && is_unknown src
  then Err (EOther "no decoder for payload type")
  else if negb (bool_decide (src = dst)) && is_unknown dst
  then Err (EOther "no encoder for payload type")
  else
    let? e := when (bool_decide (dst = Opus) && negb (bool_decide (src = Opus))) encoder_new in
    let? d := when (bool_decide (src = Opus) && negb (bool_decide (dst = Opus))) decoder_new in
    Ok (mkTc src dst src_pt dst_pt e d).

Definition Transcoder_new (src dst : Codec) : sbc_result Transcoder :=
  with_payload_types src (codec_pt src) dst (codec_pt dst).

Definition passthrough : Transcoder := mkTc (Unknown 0) (Unknown 0) 0 0 None None.

(** The branch that ends in the Opus encoder and the one that starts from the
    decoder; the codec's state is the transcoder's. *)
Definition to_opus (t : Transcoder) (pcm_8k : list Z) : sbc_result bytes * Transcoder :=
  let pcm_48k := upsample_8k_to_48k pcm_8k in
  match opus_encoder t with
  | Some e =>
      let '(r, e') := enc_run e pcm_48k in
      (r, mkTc (tc_src t) (tc_dst t) (tc_src_pt t) (tc_dst_pt t) (Some e') (opus_decoder t))
  | None => (Ok (pcm_to_bytes pcm_48k), t)
  end.

Definition from_opus (t : Transcoder) (g711 : list Z -> bytes) (payload : bytes) :
    sbc_result bytes * Transcoder :=
  match opus_decoder t with
  | Some d =>
      let '(r, d') := dec_run d payload in
      ((let? pcm := r in Ok (g711 (downsample_48k_to_8k pcm))),
       mkTc (tc_src t) (tc_dst t) (tc_src_pt t) (tc_dst_pt t) (opus_encoder t) (Some d'))
  | None => (Ok (g711 (downsample_48k_to_8k (bytes_to_pcm payload))), t)
  end.

Definition transcode (t : Transcoder) (payload : bytes) : sbc_result bytes * Transcoder :=
  if bool_decide (tc_src t = tc_dst t) then (Ok payload, t)
  else
    match tc_src t, tc_dst t with
    | Pcmu, Pcma => (Ok (pcma_encode (pcmu_decode payload)), t)
    | Pcma, Pcmu => (Ok (pcmu_encode (pcma_decode payload)), t)
    | Pcmu, Opus => to_opus t (pcmu_decode payload)
    | Opus, Pcmu => from_opus t pcmu_encode payload
    | Pcma, Opus => to_opus t (pcma_decode payload)
    | Opus, Pcma => from_opus t pcma_encode payload
    | _, _ => (Ok payload, t)
    end.

Definition is_passthrough (t : Transcoder) : bool :=
  bool_decide (tc_src t = tc_dst t) || is_unknown (tc_src t) || is_unknown (tc_dst t).
End transcoder.
Arguments Transcoder : clear implicits.

(** ** Companding: lemmas *)


Definition below (n : nat) : list Z := map Z.of_nat (seq 0 n).

Lemma below_in n x : 0 <= x < Z.of_nat n -> In x (below n).
Proof. intros Hx. apply in_map_iff. exists (Z.to_nat x). rewrite in_seq. lia. Qed.

Definition all_bytes : list Z := below 256.

Lemma byte_enum (P : Z -> bool) : forallb P all_bytes = true -> forall b, is_u8 b -> P b = true.
Proof. intros H b Hb. rewrite forallb_forall in H. by apply H, below_in. Qed.

(** The fields of a companded byte. *)
Definition ulaw_fields_ok (b : Z) : bool :=
  let u := not8 b in
  (pcmu_encode_sample (pcmu_decode_sample b) =? b) || (b =? 255)
  && (pcmu_encode_sample (pcmu_decode_sample b) =? 127).

Lemma ulaw_bytes b : is_u8 b -> ulaw_fields_ok b = true.
Proof. apply byte_enum. vm_compute. reflexivity. Qed.

(** Decoding the byte assembled from a sign, a segment and a mantissa. *)
Definition ulaw_assemble (pos : bool) (exp mant : Z) : Z :=
  not8 (Z.lor (Z.lor (if pos then 128 else 0) (Z.shiftl exp 4)) mant).

Definition signed (pos : bool) (x : Z) : Z := if pos then x else - x.

Lemma fields_enum (P : bool -> Z -> Z -> bool) :
  forallb (fun p => forallb (fun e => forallb (P p e) (below 16)) (below 8)) [true; false] = true ->
  forall p e m, 0 <= e < 8 -> 0 <= m < 16 -> P p e m = true.
Proof.
  intros H p e m He Hm. rewrite forallb_forall in H.
  assert (Hp : In p [true; false]) by (destruct p; simpl; auto). specialize (H p Hp).
  rewrite forallb_forall in H. specialize (H e (below_in 8 e He)).
  rewrite forallb_forall in H. exact (H m (below_in 16 m Hm)).
Qed.

Lemma ulaw_decode_fields (pos : bool) (exp mant : Z) :
  0 <= exp < 8 -> 0 <= mant < 16 ->
  pcmu_decode_sample (ulaw_assemble pos exp mant) = signed pos ((mant * 8 + 132) * 2 ^ exp - 132).
Proof.
  intros He Hm. apply Z.eqb_eq.
  apply (fields_enum (fun p e m => pcmu_decode_sample (ulaw_assemble p e m)
           =? signed p ((m * 8 + 132) * 2 ^ e - 132))); [|done|done].
  vm_compute. reflexivity.
Qed.

Lemma ulaw_top_bit pos exp mant :
  0 <= exp < 8 -> 0 <= mant < 16 -> (ulaw_assemble pos exp mant <? 128) = pos.
Proof.
  intros He Hm. apply eqb_prop.
  apply (fields_enum (fun p e m => eqb (ulaw_assemble p e m <? 128) p)); [|done|done].
  vm_compute. reflexivity.
Qed.

Lemma pcmu_exp_spec s :
  132 <= s < 32768 -> 0 <= pcmu_exp s < 8 /\ 2 ^ (pcmu_exp s + 7) <= s < 2 ^ (pcmu_exp s + 8).
Proof.
  intros Hs. unfold pcmu_exp. repeat case_test; to_prop; cbn [Z.add Pos.add Pos.succ Pos.add_carry];
    (split; [lia|]); match goal with |- 2 ^ ?a <= _ < 2 ^ ?b =>
      let x := eval vm_compute in (2 ^ a) in let y := eval vm_compute in (2 ^ b) in
      change (2 ^ a) with x; change (2 ^ b) with y end; lia.
Qed.

(** The magnitude that is companded. *)
Definition clipped (x : Z) : Z := Z.min (Z.abs x) 32635.

Lemma ulaw_encode_fields x :
  let s := clipped x + 132 in
  pcmu_encode_sample x
  = ulaw_assemble (0 <=? x) (pcmu_exp s) (Z.land (Z.shiftr s (pcmu_exp s + 3)) 15).
Proof.
  intros s. unfold pcmu_encode_sample, ulaw_assemble.
  assert (Hm : forall a, as_u8 (Z.land a 15) = Z.land a 15).
  { intros a. apply wrapw_small. change 15 with (Z.ones 4). rewrite Z.land_ones by lia.
    assert (0 <= a mod 2 ^ 4 < 16) by (apply (Z.mod_pos_bound a 16); lia). ulia. }
  destruct (0 <=? x) eqn:E; to_prop.
  - replace (if 32635 <? x then 32635 else x) with (clipped x)
      by (unfold clipped; case_test; to_prop; lia).
    cbv zeta. by rewrite Hm.
  - replace (if 32635 <? - x then 32635 else - x) with (clipped x)
      by (unfold clipped; case_test; to_prop; lia).
    cbv zeta. by rewrite Hm.
Qed.

(** The quantisation interval of a magnitude [s] in segment [e]. *)
Lemma ulaw_mantissa e s :
  0 <= e -> 2 ^ (e + 7) <= s < 2 ^ (e + 8) ->
  Z.land (Z.shiftr s (e + 3)) 15 = s / 2 ^ (e + 3) - 16 /\ 16 <= s / 2 ^ (e + 3) < 32.
Proof.
  intros He Hs. rewrite Z.shiftr_div_pow2 by lia.
  assert (Hq : 16 <= s / 2 ^ (e + 3) < 32).
  { replace (e + 7) with ((e + 3) + 4) in Hs by lia. replace (e + 8) with ((e + 3) + 5) in Hs by lia.
    rewrite !Z.pow_add_r in Hs by lia. change (2 ^ 4) with 16 in Hs. change (2 ^ 5) with 32 in Hs.
    change (2 ^ 3) with 8 in *.
    assert (0 < 2 ^ (e + 3)) by (apply Z.pow_pos_nonneg; lia).
    rewrite Z.pow_add_r in * by lia. change (2 ^ 3) with 8 in *.
    split; [apply Z.div_le_lower_bound; lia|apply Z.div_lt_upper_bound; lia]. }
  split; [|done]. change 15 with (Z.ones 4). rewrite Z.land_ones by lia. change (2 ^ 4) with 16.
  rewrite <- (Z.mod_small (s / 2 ^ (e + 3) - 16) 16) by lia.
  replace (s / 2 ^ (e + 3)) with (s / 2 ^ (e + 3) - 16 + 1 * 16) at 1 by lia.
  apply Z.mod_add. lia.
Qed.

(** ** Theorems on companding *)

(** Mu-law companding. Every byte but 255 (the second zero) is recovered
    after a decode and an encode; an encoded sample decodes to within half a
    quantisation step of its segment of the clipped sample; and the byte of a
    non-negative sample has its top bit clear, the reverse of G.711. *)
Theorem mulaw_companding :
  (forall b, is_u8 b -> b <> 255 -> pcmu_encode_sample (pcmu_decode_sample b) = b) /\
  (forall x, is_i16 x ->
     let m := clipped x in
     Z.abs (pcmu_decode_sample (pcmu_encode_sample x) - signed (0 <=? x) m)
     <= 2 ^ (pcmu_exp (m + 132) + 2)) /\
  (forall x, is_i16 x -> (pcmu_encode_sample x <? 128) = (0 <=? x)).
Proof.
  split; [|split].
  - intros b Hb Hn. assert (H := ulaw_bytes b Hb). unfold ulaw_fields_ok in H. to_prop.
    destruct H as [H|H]; to_prop; [done|lia].
  - intros x Hx m. rewrite ulaw_encode_fields. fold m. cbv zeta.
    assert (Hs : 132 <= m + 132 < 32768) by (unfold m, clipped; lia).
    destruct (pcmu_exp_spec _ Hs) as [He Hr]. set (s := m + 132) in *. set (e := pcmu_exp s) in *.
    destruct (ulaw_mantissa e s) as [-> Hq]; [lia|done|].
    rewrite ulaw_decode_fields by lia.
    assert (Hp : 0 < 2 ^ e) by (apply Z.pow_pos_nonneg; lia).
    assert (Hd := Z.div_mod s (2 ^ (e + 3))). assert (Hb := Z.mod_pos_bound s (2 ^ (e + 3))).
    rewrite (Z.pow_add_r 2 e 2), (Z.pow_add_r 2 e 3) in * by lia.
    change (2 ^ 2) with 4 in *. change (2 ^ 3) with 8 in *. set (q := s / _) in *.
    assert (Hm : m = s - 132) by (unfold s; lia). clearbody q s m. unfold signed. case_test; nia.
  - intros x Hx. rewrite ulaw_encode_fields. cbv zeta.
    assert (Hs : 132 <= clipped x + 132 < 32768) by (unfold clipped; lia).
    destruct (pcmu_exp_spec _ Hs) as [He Hr].
    destruct (ulaw_mantissa _ _ (proj1 He) Hr) as [-> Hq]. apply ulaw_top_bit; lia.
Qed.

Lemma pcma_loud x :
  1024 <= x < 32768 ->
  pcma_encode_sample x = as_u8 (Z.lxor (Z.lor 240 (Z.land (Z.shiftr x 8) 15)) 85).
Proof.
  intros Hx. unfold pcma_encode_sample, pcma_segment.
  assert (64 <= Z.shiftr x 4).
  { rewrite Z.shiftr_div_pow2 by lia. apply Z.div_le_lower_bound; [done|]. change (2 ^ 4) with 16. lia. }
  replace (0 <=? x) with true by (symmetry; apply Z.leb_le; lia).
  replace (32767 <? x) with false by (symmetry; apply Z.ltb_ge; lia).
  by repeat (case_test; to_prop; try lia).
Qed.

(** The code words the A-law encoder maps back to themselves. *)
Definition alaw_fixed : list Z :=
  [42; 80; 81; 82; 83; 84; 85; 86; 87; 170; 208; 209; 210; 211; 212; 213; 214; 215].

(** The A-law encoder is not the inverse of the decoder: of the 256 code
    words only eighteen survive a decode and an encode, and a sample above 1024
    is encoded by bits 8 to 11 alone, so two samples 4096 apart sound alike and
    a louder sample may decode to a quieter one. *)
Theorem alaw_distorts :
  (forall b, is_u8 b -> (pcma_encode_sample (pcma_decode_sample b) = b <-> b ∈ alaw_fixed)) /\
  (forall x, 1024 <= x -> x + 4096 < 32768 ->
     pcma_encode_sample (x + 4096) = pcma_encode_sample x) /\
  (exists x y, 0 <= x < y /\ is_i16 y /\
     pcma_decode_sample (pcma_encode_sample y) < pcma_decode_sample (pcma_encode_sample x)).
Proof.
  split; [|split].
  - intros b Hb.
    assert (H : eqb (bool_decide (b ∈ alaw_fixed)) (pcma_encode_sample (pcma_decode_sample b) =? b) = true).
    { revert b Hb. apply byte_enum. vm_compute. reflexivity. }
    apply eqb_prop in H. rewrite <- Z.eqb_eq, <- H. apply bool_decide_eq_true.
  - intros x H1 H2. rewrite !pcma_loud by lia. do 3 f_equal.
    change 15 with (Z.ones 4). rewrite !Z.land_ones, !Z.shiftr_div_pow2 by lia.
    replace (x + 4096) with (x + 16 * 2 ^ 8) by reflexivity.
    rewrite Z.div_add by done. change (2 ^ 4) with 16.
    by rewrite <- (Z.mul_1_l 16) at 1; rewrite Z.mod_add.
  - exists 1024, 4096. split; [lia|]. split; [by vm_compute|]. by vm_compute.
Qed.

(** ** Resampling: lemmas *)

Lemma as_i16_id x : is_i16 x -> as_i16 x = x.
Proof. intros Hx. unfold as_i16. rewrite wrapw_small; [lia|]. unfold is_i16 in Hx. ulia. Qed.

Lemma upsample_length l : length (upsample_8k_to_48k l) = (6 * length l)%nat.
Proof. induction l as [|s l IH]; [done|]. simpl in *. lia. Qed.

Lemma downsample_length l : length (downsample_48k_to_8k l) = (length l / 6)%nat.
Proof. unfold downsample_48k_to_8k. by rewrite length_map, length_seq. Qed.

Lemma f32_as_i16_range x : is_i16 (f32_as_i16 x).
Proof. unfold is_i16, f32_as_i16. destruct x as [[]|[]| |s m e]; lia. Qed.

(** One interpolated sample: between its neighbours, with no wrap-around. *)
Definition interp (s0 s1 : Z) (k : nat) : Z := s0 + Z.quot ((s1 - s0) * Z.of_nat k) 6.

Lemma interp_between s0 s1 k :
  (k < 6)%nat -> Z.min s0 s1 <= interp s0 s1 k <= Z.max s0 s1.
Proof.
  intros Hk. unfold interp. set (d := s1 - s0). set (z := Z.of_nat k).
  assert (0 <= z <= 5) by (unfold z; lia).
  assert (Hs : s1 = s0 + d) by (unfold d; lia). clearbody d z. subst s1.
  assert (Hq : Z.abs (d * z ÷ 6) <= Z.abs d /\ (0 <= d -> 0 <= d * z ÷ 6) /\ (d <= 0 -> d * z ÷ 6 <= 0)).
  { assert (Z.abs (d * z) <= 5 * Z.abs d) by (rewrite Z.abs_mul; nia).
    assert (0 <= d -> 0 <= d * z) by nia. assert (d <= 0 -> d * z <= 0) by nia.
    generalize dependent (d * z). intros y. zlia. }
  lia.
Qed.

Lemma upsample_lookup l i k s0 :
  Forall is_i16 l -> (k < 6)%nat -> l !! i = Some s0 ->
  upsample_8k_to_48k l !! (6 * i + k)%nat = Some (interp s0 (default s0 (l !! S i)) k).
Proof.
  intros Hl Hk. revert i. induction Hl as [|s l Hs Hl IH]; intros [|i]; [done|done| |].
  - intros [= ->]. cbn [lookup list_lookup]. cbn [upsample_8k_to_48k].
    rewrite lookup_app_l by (rewrite length_map; simpl; lia).
    replace (default s0 (l !! 0%nat)) with (match l with s1 :: _ => s1 | [] => s0 end) by by destruct l.
    set (s1 := match l with s1 :: _ => s1 | [] => s0 end).
    assert (H1 : is_i16 s1) by (unfold s1; clear -Hs Hl; by destruct Hl).
    assert (Hi : is_i16 (interp s0 s1 k)).
    { assert (Hb := interp_between s0 s1 k Hk). unfold is_i16 in *. lia. }
    rewrite <- (as_i16_id _ Hi). unfold interp. do 6 (destruct k as [|k]; [reflexivity|]). lia.
  - intros Hi. cbn [lookup list_lookup] in *. cbn [upsample_8k_to_48k].
    rewrite lookup_app_r by (rewrite length_map; simpl; lia). rewrite length_map. simpl length.
    replace (6 * S i + k - 6)%nat with (6 * i + k)%nat by lia. by apply IH.
Qed.

(** Resampling keeps the frame duration (six samples out per sample in, and
    one out per six in); upsampling keeps every original sample and
    interpolates between neighbours without overflow; downsampling yields
    16-bit samples whatever its input. *)
Theorem resampling_bounds l :
  length (upsample_8k_to_48k l) = (6 * length l)%nat /\
  length (downsample_48k_to_8k l) = (length l / 6)%nat /\
  Forall is_i16 (downsample_48k_to_8k l) /\
  (Forall is_i16 l -> forall i k s0, (k < 6)%nat -> l !! i = Some s0 ->
     exists v, upsample_8k_to_48k l !! (6 * i + k)%nat = Some v /\
       (k = 0%nat -> v = s0) /\
       let s1 := default s0 (l !! S i) in Z.min s0 s1 <= v <= Z.max s0 s1).
Proof.
  split_and!; [apply upsample_length|apply downsample_length| |].
  - apply Forall_map, Forall_forall. intros. apply f32_as_i16_range.
  - intros Hl i k s0 Hk Hi. eexists. split; [by apply upsample_lookup|].
    split; [intros ->; unfold interp; change (Z.of_nat 0) with 0; rewrite Z.mul_0_r; apply Z.add_0_r|]. by apply interp_between.
Qed.

(** ** The transcoder: theorems *)

Section transcoder_spec.
Context {Enc Dec : Type}.
Context (encoder_new : sbc_result Enc) (decoder_new : sbc_result Dec).
Context (enc_run : Enc -> list Z -> sbc_result bytes * Enc).
Context (dec_run : Dec -> bytes -> sbc_result (list Z) * Dec).
Notation run t p := (snd (transcode enc_run dec_run t p)).

(** What [with_payload_types] builds and [transcode] keeps. *)
Record tc_ok (src : Codec) (spt : Z) (dst : Codec) (dpt : Z) (t : Transcoder Enc Dec) : Prop := {
  tc_src_ok : tc_src t = src;
  tc_dst_ok : tc_dst t = dst;
  tc_spt_ok : tc_src_pt t = spt;
  tc_dpt_ok : tc_dst_pt t = dpt;
  tc_known : src <> dst -> is_unknown src = false /\ is_unknown dst = false;
  tc_enc : src <> dst -> dst = Opus -> is_Some (opus_encoder t);
  tc_dec : src <> dst -> src = Opus -> is_Some (opus_decoder t)
}.

Lemma when_ok {A} b (m : sbc_result A) o :
  when b m = Ok o -> (b = true -> is_Some o) /\ (b = false -> o = None).
Proof. destruct b; simpl; [destruct m; simpl; [|done]|]; intros [= <-]; split; eauto; done. Qed.

Lemma with_payload_types_ok src spt dst dpt t :
  with_payload_types encoder_new decoder_new src spt dst dpt = Ok t -> tc_ok src spt dst dpt t.
Proof.
  unfold with_payload_types. intros H.
  destruct (_ && is_unknown src) eqn:E1; [done|]. destruct (_ && is_unknown dst) eqn:E2; [done|].
  apply rbind_ok in H as (e & He & H). apply rbind_ok in H as (d & Hd & H). injection H as <-.
  apply when_ok in He as [He _], Hd as [Hd _].
  split; simpl; try done.
  - intros Hn. rewrite (bool_decide_eq_false_2 _ Hn) in *. done.
  - intros Hn ->. apply He. rewrite bool_decide_eq_true_2, bool_decide_eq_false_2; done.
  - intros Hn ->. apply Hd. rewrite bool_decide_eq_true_2, bool_decide_eq_false_2; naive_solver.
Qed.

Lemma transcode_ok src spt dst dpt t p :
  tc_ok src spt dst dpt t -> tc_ok src spt dst dpt (run t p).
Proof.
  intros []. unfold transcode, to_opus, from_opus. case_bool_decide; [done|].
  repeat case_match; simpl; try done; split; simpl in *; try congruence; naive_solver.
Qed.

Definition run_all (t : Transcoder Enc Dec) (ps : list bytes) : Transcoder Enc Dec :=
  fold_left (fun t p => run t p) ps t.

Lemma run_all_ok src spt dst dpt ps t :
  tc_ok src spt dst dpt t -> tc_ok src spt dst dpt (run_all t ps).
Proof.
  revert t. induction ps as [|p ps IH]; intros t Ht; [done|]. apply IH. by apply transcode_ok.
Qed.

(** A transcoder that was built converts: after any packets, the next is
    taken through the codecs of its two legs, the raw-PCM fallbacks are never
    reached, a conversion between the G.711 laws never fails and keeps the
    length, and payloads pass unchanged only between equal codecs. A pair with
    an unknown side is refused when it is built. *)
Theorem transcoder_converts src spt dst dpt :
  (src <> dst -> is_unknown src || is_unknown dst = true ->
     exists e, with_payload_types encoder_new decoder_new src spt dst dpt = Err e) /\
  (forall t ps p,
     with_payload_types encoder_new decoder_new src spt dst dpt = Ok t ->
     let t' := run_all t ps in
     let r := fst (transcode enc_run dec_run t' p) in
     tc_src_pt t' = spt /\ tc_dst_pt t' = dpt /\
     match src, dst with
     | Pcmu, Pcma => r = Ok (map (fun b => pcma_encode_sample (pcmu_decode_sample b)) p)
     | Pcma, Pcmu => r = Ok (map (fun b => pcmu_encode_sample (pcma_decode_sample b)) p)
     | Pcmu, Opus => exists e, opus_encoder t' = Some e /\
         r = fst (enc_run e (upsample_8k_to_48k (pcmu_decode p)))
     | Pcma, Opus => exists e, opus_encoder t' = Some e /\
         r = fst (enc_run e (upsample_8k_to_48k (pcma_decode p)))
     | Opus, Pcmu => exists d, opus_decoder t' = Some d /\
         r = (let? pcm := fst (dec_run d p) in Ok (pcmu_encode (downsample_48k_to_8k pcm)))
     | Opus, Pcma => exists d, opus_decoder t' = Some d /\
         r = (let? pcm := fst (dec_run d p) in Ok (pcma_encode (downsample_48k_to_8k pcm)))
     | _, _ => src = dst /\ r = Ok p
     end).
Proof.
  split.
  - intros Hn Hu. unfold with_payload_types. rewrite (bool_decide_eq_false_2 _ Hn). simpl.
    destruct (is_unknown src); [by eexists|]. simpl in Hu. rewrite Hu. by eexists.
  - intros t ps p Ht t' r. apply with_payload_types_ok in Ht.
    apply (run_all_ok _ _ _ _ ps) in Ht. fold t' in Ht. destruct Ht. split; [done|]. split; [done|].
    unfold r, transcode, to_opus, from_opus. rewrite tc_src_ok0, tc_dst_ok0.
    case_bool_decide as E.
    + rewrite <- E. by destruct src.
    + destruct (tc_known0 E) as [Hs Hd], src, dst; try done.
      * by rewrite <- map_map.
      * destruct tc_enc0 as [e ->]; [done..|]. exists e. split; [done|]. by destruct enc_run.
      * by rewrite <- map_map.
      * destruct tc_enc0 as [e ->]; [done..|]. exists e. split; [done|]. by destruct enc_run.
      * destruct tc_dec0 as [d ->]; [done..|]. exists d. split; [done|]. by destruct dec_run.
      * destruct tc_dec0 as [d ->]; [done..|]. exists d. split; [done|]. by destruct dec_run.
Qed.
End transcoder_spec.

(** ** Witnesses *)

Module Witness.

(** A codec that writes one byte per sixth sample, and reads six back. *)
Definition toy_enc (n : Z) (l : list Z) : sbc_result bytes * Z :=
  (Ok (map as_u8 (take (length l / 6) l)), n + 1).
Definition toy_dec (n : Z) (b : bytes) : sbc_result (list Z) * Z :=
  (Ok (upsample_8k_to_48k b), n + 1).

Lemma mulaw_companding_witness :
  Z.abs (pcmu_decode_sample (pcmu_encode_sample (-1000)) - signed (0 <=? -1000) (clipped (-1000)))
  <= 2 ^ (pcmu_exp (clipped (-1000) + 132) + 2).
Proof.
  destruct mulaw_companding as (_ & H & _). apply (H (-1000)). unfold is_i16. lia.
Defined.

Lemma alaw_distorts_witness :
  pcma_encode_sample (5000 + 4096) = pcma_encode_sample 5000.
Proof. destruct alaw_distorts as (_ & H & _). apply (H 5000); lia. Defined.

Lemma resampling_bounds_witness :
  exists v, upsample_8k_to_48k [0; 60; -7] !! (6 * 1 + 2)%nat = Some v /\ Z.min 60 (-7) <= v <= Z.max 60 (-7).
Proof.
  destruct (resampling_bounds [0; 60; -7]) as (_ & _ & _ & H).
  destruct (H ltac:(repeat constructor; lia) 1%nat 2%nat 60) as (v & Hv & _ & Hb); [lia|reflexivity|].
  exists v. split; [exact Hv|exact Hb].
Defined.

Lemma transcoder_converts_witness :
  exists t, with_payload_types (Ok 0) (Ok 0) Opus 109 Pcma 8 = Ok t /\
    exists d, opus_decoder (run_all toy_enc toy_dec t [[1; 2]]) = Some d.
Proof.
  eexists. split; [reflexivity|].
  destruct (transcoder_converts (Ok 0) (Ok 0) toy_enc toy_dec Opus 109 Pcma 8) as [_ H].
  destruct (H _ [[1; 2]] [3] eq_refl) as (_ & _ & d & Hd & _). exists d. exact Hd.
Defined.

End Witness.
