(* ===== verification/Endpoint.v ===== *)
(** * Where a call's media may come from (media/endpoint.rs)

    The decision on a datagram's source: whether it may latch or move the
    address the relay sends a peer's audio to. *)

From S2P Require Import Prelude Net.

(** ** Data *)

Inductive Mode := Observe | Moves.
Inductive Match := Signalled | SamePort | Sibling | SameStream | Quiet | First.
Inductive Reject := Foreign | NotPlausible.
Inductive Verdict := Latch (m : Match) | Keep | Move (m : Match) | Refuse (r : Reject).

#[export] Instance mode_eq_dec : EqDecision Mode.
Proof. solve_decision. Defined.

(** Durations are nanoseconds. *)
Record Observation := mkObservation {
  latched : option SocketAddr;
  signalled : option SocketAddr;
  source : SocketAddr;
  plausible : bool;
  same_stream : bool;
  latched_quiet_for : option Z
}.

Record EndpointPolicy := mkPolicy { mode : Mode; quiet_period : Z }.

Definition default_policy : EndpointPolicy := mkPolicy Observe (secs 5).

(** ** Operations *)

Definition match_label (m : Match) : string :=
  match m with
  | Signalled => "signalled" | SamePort => "same-host" | Sibling => "sibling" | SameStream => "same-stream"
  | Quiet => "quiet" | First => "first"
  end.

Definition reject_label (r : Reject) : string := match r with Foreign => "foreign" | NotPlausible => "not-plausible" end.

Definition same_24 (a b : IpAddr) : bool :=
  match a, b with V4 x, V4 y => bool_decide (take 3 x = take 3 y) | _, _ => false end.

Definition observe (p : EndpointPolicy) (o : Observation) : Verdict :=
  if negb (plausible o) then Refuse NotPlausible
  else
    match latched o with
    | None => Latch First
    | Some latched =>
        if bool_decide (latched = source o) then Keep
        else if bool_decide (Some (source o) = signalled o) then Move Signalled
        else
          let rest :=
            if bool_decide (ip latched = ip (source o)) then Move SamePort
            else if same_stream o then Move SameStream
            else match latched_quiet_for o with
                 | Some quiet => if quiet_period p <=? quiet then Move Quiet else Refuse Foreign
                 | None => Refuse Foreign
                 end in
          match signalled o with
          | Some signalled =>
              if bool_decide (ip signalled = ip (source o)) then Move SamePort
              else if same_24 (ip signalled) (ip (source o)) then Move Sibling
              else rest
          | None => rest
          end
    end.

Definition applies (p : EndpointPolicy) (v : Verdict) : bool :=
  match v with
  | Refuse NotPlausible => false
  | Refuse Foreign => bool_decide (mode p = Observe)
  | _ => true
  end.

(** What the relay makes of a verdict. *)
Definition moved_to (p : EndpointPolicy) (o : Observation) : option SocketAddr :=
  match observe p o with
  | Latch _ | Move _ => Some (source o)
  | Keep => latched o
  | Refuse _ => if applies p (observe p o) then Some (source o) else latched o
  end.

(** ** Theorems *)

(** While moves are only counted, the endpoint is wherever the last plausible
    datagram came from. *)
Lemma observe_follows q o : moved_to (mkPolicy Observe q) o = if plausible o then Some (source o) else latched o.
Proof.
  unfold moved_to, observe, applies. destruct (plausible o); cbn [negb]; [|done].
  destruct (latched o) as [l|]; [|done]. destruct (decide (l = source o)) as [->|Hne].
  - by rewrite bool_decide_eq_true_2.
  - rewrite bool_decide_eq_false_2 by done. by repeat case_match.
Qed.

(** With moves enforced, the endpoint leaves a live peer only for a source
    that has something of that call. *)
Lemma enforced_needs_evidence q o l :
  latched o = Some l -> moved_to (mkPolicy Moves q) o <> Some l ->
  plausible o = true /\
  (Some (source o) = signalled o \/ ip l = ip (source o) \/ same_stream o = true \/
   (exists s, signalled o = Some s /\ (ip s = ip (source o) \/ same_24 (ip s) (ip (source o)) = true)) \/
   exists d, latched_quiet_for o = Some d /\ q <= d).
Proof.
  intros Hl. unfold moved_to, observe, applies. rewrite Hl. cbn [quiet_period mode].
  destruct (plausible o); cbn [negb]; [|done]. intros Hm. split; [done|]. revert Hm.
  destruct (decide (l = source o)); [by rewrite bool_decide_eq_true_2|]. rewrite bool_decide_eq_false_2 by done.
  case_bool_decide as Hs; [by left|]. destruct (signalled o) as [s|].
  - case_bool_decide as Hi; [right; right; right; left; exists s; by split; [|left]|].
    destruct (same_24 _ _) eqn:H24; [right; right; right; left; exists s; by split; [|right]|].
    case_bool_decide; [by right; left|]. destruct (same_stream o); [by right; right; left|].
    destruct (latched_quiet_for o) as [d|]; [|done]. destruct (Z.leb_spec q d); [|done]. intros _. do 4 right. by exists d.
  - case_bool_decide; [by right; left|]. destruct (same_stream o); [by right; right; left|].
    destruct (latched_quiet_for o) as [d|]; [|done]. destruct (Z.leb_spec q d); [|done]. intros _. do 4 right. by exists d.
Qed.
