(* ===== verification/MediaStats.v ===== *)
(** * Counters of a media session (media/stats.rs)

    What explains a silent or one-way call: a tally per leg and per reason a
    datagram was not relayed, and the inactivity watchdog's input. The clock,
    milliseconds since the relay started, is an argument; counters are 64-bit
    and wrap. *)

From S2P Require Import Prelude Str Bytes.

(** ** Data *)

Inductive Leg := Caller | Callee.

#[export] Instance leg_eq_dec : EqDecision Leg.
Proof. solve_decision. Defined.

Definition label (l : Leg) : string := match l with Caller => "caller" | Callee => "callee" end.
Definition other (l : Leg) : Leg := match l with Caller => Callee | Callee => Caller end.

Inductive DropReason := NotRtp | NoEndpoint | PayloadType | Transcode | SrtpDrop | SendFailed | RtcpDrop | IceAuth.

Definition ALL : list DropReason := [NotRtp; NoEndpoint; PayloadType; Transcode; SrtpDrop; SendFailed; RtcpDrop; IceAuth].

Definition drop_label (r : DropReason) : string :=
  match r with
  | NotRtp => "not-rtp" | NoEndpoint => "no-endpoint" | PayloadType => "payload-type" | Transcode => "transcode"
  | SrtpDrop => "srtp" | SendFailed => "send-failed" | RtcpDrop => "rtcp" | IceAuth => "ice-auth"
  end.

Definition index (r : DropReason) : nat :=
  match r with
  | NotRtp => 0 | NoEndpoint => 1 | PayloadType => 2 | Transcode => 3 | SrtpDrop => 4 | SendFailed => 5 | RtcpDrop => 6
  | IceAuth => 7
  end%nat.

Definition UNSET : Z := u64_max.

Record LegStats := mkLeg {
  rtcp_packets : Z;
  passthrough_packets : Z;
  rx_packets : Z;
  rx_bytes : Z;
  tx_packets : Z;
  tx_bytes : Z;
  last_rx_ms : Z;
  last_tx_ms : Z;
  ssrc : Z;
  ssrc_changes : Z;
  lost : Z;
  endpoint_learned : Z;
  endpoint_moved : Z;
  one_way_reported : Z;
  highest_seq : Z
}.

#[export] Instance eta_leg : Eta LegStats := fun s =>
  mkLeg (rtcp_packets s) (passthrough_packets s) (rx_packets s) (rx_bytes s) (tx_packets s) (tx_bytes s) (last_rx_ms s)
    (last_tx_ms s) (ssrc s) (ssrc_changes s) (lost s) (endpoint_learned s) (endpoint_moved s) (one_way_reported s) (highest_seq s).

Definition leg_default : LegStats := mkLeg 0 0 0 0 0 0 0 0 UNSET 0 0 0 0 0 UNSET.

Record CallMediaStats := mkStats {
  caller : LegStats;
  callee : LegStats;
  drops : list Z;
  last_relay_ms : Z;
  audio_delivered : Z
}.

#[export] Instance eta_stats : Eta CallMediaStats := fun s =>
  mkStats (caller s) (callee s) (drops s) (last_relay_ms s) (audio_delivered s).

Definition new : CallMediaStats := mkStats leg_default leg_default (replicate 8 0) 0 0.

(** ** Operations *)

Definition fetch_add (n x : Z) : Z := wrapw 64 (n + x).

Definition leg (l : Leg) (s : CallMediaStats) : LegStats := match l with Caller => caller s | Callee => callee s end.

Definition on_leg (l : Leg) (f : LegStats -> LegStats) (s : CallMediaStats) : CallMediaStats :=
  match l with
  | Caller => s <| caller := f (caller s) |>
  | Callee => s <| callee := f (callee s) |>
  end.

(** The loss of a packet of the stream already known. *)
Definition note_seq (seq : Z) (s : LegStats) : LegStats :=
  if highest_seq s =? UNSET then s <| highest_seq := seq |>
  else
    let highest := wrapw 16 (highest_seq s) in
    if wrapw 16 (seq - highest) <? 32768 then
      let gap := wrapw 16 (seq - wrapw 16 (highest + 1)) in
      let s := if (0 <? gap) && (gap <? 1000) then s <| lost := fetch_add (lost s) gap |> else s in
      s <| highest_seq := seq |>
    else s.

Definition leg_note_rx (n at_ms r seq : Z) (s : LegStats) : LegStats :=
  let s := s <| rx_packets := fetch_add (rx_packets s) 1 |> <| rx_bytes := fetch_add (rx_bytes s) n |> <| last_rx_ms := at_ms |> in
  let previous := ssrc s in
  let s := s <| ssrc := r |> in
  if (previous =? UNSET) || (previous =? r) then note_seq seq s
  else s <| ssrc_changes := fetch_add (ssrc_changes s) 1 |> <| highest_seq := seq |>.

Definition leg_note_tx (n at_ms : Z) (s : LegStats) : LegStats :=
  s <| tx_packets := fetch_add (tx_packets s) 1 |> <| tx_bytes := fetch_add (tx_bytes s) n |> <| last_tx_ms := at_ms |>.

Definition note_drop (r : DropReason) (s : CallMediaStats) : CallMediaStats :=
  s <| drops := alter (fun n => fetch_add n 1) (index r) (drops s) |>.

Definition drops_of (r : DropReason) (s : CallMediaStats) : Z := default 0 (drops s !! index r).

Definition note_rx (at_ms : Z) (l : Leg) (data : bytes) (s : CallMediaStats) : CallMediaStats :=
  if (length data <? 12)%nat then note_drop NotRtp s
  else on_leg l (leg_note_rx (blen data) at_ms (u32_at 8 data) (u16_at 2 data)) s.

Definition note_tx (at_ms : Z) (l : Leg) (n : Z) (s : CallMediaStats) : CallMediaStats :=
  on_leg l (leg_note_tx n at_ms) s <| last_relay_ms := at_ms |> <| audio_delivered := fetch_add (audio_delivered s) 1 |>.

Definition note_tx_non_audio (l : Leg) (n : Z) : CallMediaStats -> CallMediaStats :=
  on_leg l (fun s => s <| tx_packets := fetch_add (tx_packets s) 1 |> <| tx_bytes := fetch_add (tx_bytes s) n |>).

Definition note_rtcp (l : Leg) : CallMediaStats -> CallMediaStats :=
  on_leg l (fun s => s <| rtcp_packets := fetch_add (rtcp_packets s) 1 |>).

Definition note_passthrough (l : Leg) : CallMediaStats -> CallMediaStats :=
  on_leg l (fun s => s <| passthrough_packets := fetch_add (passthrough_packets s) 1 |>).

Definition note_endpoint_learned (l : Leg) : CallMediaStats -> CallMediaStats :=
  on_leg l (fun s => s <| endpoint_learned := fetch_add (endpoint_learned s) 1 |>).

Definition note_endpoint_moved (l : Leg) : CallMediaStats -> CallMediaStats :=
  on_leg l (fun s => s <| endpoint_moved := fetch_add (endpoint_moved s) 1 |>).

(** Milliseconds, as every duration here; [Duration::from_millis]. *)
Definition quiet_for (now_ms : Z) (l : Leg) (s : CallMediaStats) : option Z :=
  let last := last_rx_ms (leg l s) in
  if (last =? 0) && (rx_packets (leg l s) =? 0) then None else Some (sat_sub now_ms last).

Definition since_last_relay_ms (now_ms : Z) (s : CallMediaStats) : option Z :=
  if audio_delivered s =? 0 then None else Some (sat_sub now_ms (last_relay_ms s)).

Definition idle_ms (now_ms : Z) (s : CallMediaStats) : Z := default now_ms (since_last_relay_ms now_ms s).

(** One leg is fed while it says nothing and the other one speaks. *)
Definition one_way (now_ms quiet_ms : Z) (l : Leg) (s : CallMediaStats) : bool :=
  let this := leg l s in
  let opposite := leg (other l) s in
  if tx_packets this =? 0 then false
  else if (rx_packets opposite =? 0) || (quiet_ms <? sat_sub now_ms (last_rx_ms opposite)) then false
  else (rx_packets this =? 0) || (quiet_ms <? sat_sub now_ms (last_rx_ms this)).

Definition one_way_leg (now_ms quiet_ms : Z) (s : CallMediaStats) : option Leg :=
  List.find (fun l => one_way now_ms quiet_ms l s) [Caller; Callee].

Definition claim_one_way_report (l : Leg) (s : CallMediaStats) : bool * CallMediaStats :=
  if one_way_reported (leg l s) =? 0 then (true, on_leg l (fun x => x <| one_way_reported := 1 |>) s) else (false, s).

Definition leg_summary (s : LegStats) : string :=
  "rx " +:+ show (rx_packets s) +:+ "p/" +:+ show (rx_bytes s) +:+ "B tx " +:+ show (tx_packets s) +:+ "p/" +:+ show (tx_bytes s)
  +:+ "B lost " +:+ show (lost s) +:+ " ssrc-changes " +:+ show (ssrc_changes s).

Definition summary (now_ms : Z) (s : CallMediaStats) : string :=
  let told := List.filter (fun r => 0 <? drops_of r s) ALL in
  "caller[" +:+ leg_summary (caller s) +:+ "] callee[" +:+ leg_summary (callee s) +:+ "] drops["
  +:+ (match told with [] => "none" | _ => join ", " (map (fun r => drop_label r +:+ " " +:+ show (drops_of r s)) told) end)
  +:+ "] after " +:+ show now_ms +:+ " ms".

(** ** Loss *)

(** A stream that advances: the positions of its packets received, each less
    than a thousand and one after the one before. *)
Fixpoint advancing (i : Z) (js : list Z) : Prop :=
  match js with [] => True | j :: rest => i < j <= i + 1000 /\ advancing j rest end.

Definition receive_all (r : Z) (js : list Z) (s : LegStats) : LegStats :=
  fold_left (fun s j => leg_note_rx 172 0 r (wrapw 16 j) s) js s.

Lemma next_received r s i j :
  ssrc s = r -> highest_seq s = wrapw 16 i -> i < j <= i + 1000 ->
  let s' := leg_note_rx 172 0 r (wrapw 16 j) s in
  ssrc s' = r /\ highest_seq s' = wrapw 16 j /\ lost s' = (if decide (j = i + 1) then lost s else wrapw 64 (lost s + (j - i - 1))).
Proof.
  intros Hs Hh Hj s'.
  assert (Hb : (ssrc s =? UNSET) || (ssrc s =? r) = true) by (apply orb_true_iff; right; by apply Z.eqb_eq).
  unfold s', leg_note_rx. change (ssrc (_ <| last_rx_ms := _ |>)) with (ssrc s). rewrite Hb.
  unfold note_seq. set (s1 := _ <| ssrc := r |>).
  assert (H1 : highest_seq s1 = wrapw 16 i /\ lost s1 = lost s /\ ssrc s1 = r) by by split_and!. clearbody s1. clear Hb.
  destruct H1 as (Hh1 & Hl1 & Hr1). rewrite Hh1. rewrite <- Hl1. clear Hl1 Hh Hs s s'. rename s1 into s. unfold fetch_add, UNSET, u64_max, wrapw. change (2 ^ 16) with 65536.
  destruct (Z.eqb_spec (i mod 65536) 18446744073709551615); [assert (Hm := Z.mod_pos_bound i 65536); lia|].
  assert (H1 : (j mod 65536 - (i mod 65536) mod 65536) mod 65536 = j - i)
    by (rewrite Zmod_mod, Zminus_mod_idemp_l, Zminus_mod_idemp_r; apply Z.mod_small; lia).
  assert (H2 : (j mod 65536 - ((i mod 65536) mod 65536 + 1) mod 65536) mod 65536 = j - i - 1).
  { rewrite Zplus_mod_idemp_l, Zplus_mod_idemp_l, Zminus_mod_idemp_l, Zminus_mod_idemp_r. rewrite Z.mod_small; lia. }
  rewrite H1, H2. destruct (Z.ltb_spec (j - i) 32768); [|lia]. destruct (decide (j = i + 1)) as [->|Hne].
  - assert (i + 1 - i - 1 = 0) as -> by lia. by cbn.
  - destruct (Z.ltb_spec 0 (j - i - 1)); [|lia]. destruct (Z.ltb_spec (j - i - 1) 1000); [|lia]. by cbn.
Qed.

Lemma losses_counted r js i s :
  ssrc s = r -> highest_seq s = wrapw 16 i -> advancing i js -> 0 <= lost s ->
  Z.of_nat (length js) <= default i (last js) - i /\
  (lost s + (default i (last js) - i) < 2 ^ 64 ->
   lost (receive_all r js s) = lost s + (default i (last js) - i - Z.of_nat (length js))).
Proof.
  revert i s. induction js as [|j js IH]; intros i s Hs Hh Ha H0; [cbn; lia|]. destruct Ha as [Hj Ha].
  destruct (next_received r s i j Hs Hh Hj) as (Hs' & Hh' & Hl'). cbn [receive_all fold_left].
  set (s1 := leg_note_rx 172 0 r (wrapw 16 j) s) in *. clearbody s1.
  change (fold_left _ js s1) with (receive_all r js s1).
  assert (Hlast : default i (last (j :: js)) = default j (last js)) by by rewrite last_cons; destruct (last js).
  assert (H1 : 0 <= lost s1) by (rewrite Hl'; destruct (decide _); [done|]; unfold wrapw; apply Z.mod_pos_bound; lia).
  destruct (IH j s1 Hs' Hh' Ha H1) as [Hn Hr]. rewrite Hlast. cbn [length]. split; [lia|]. intros Hb.
  assert (Hl : lost s1 = lost s + (j - i - 1)).
  { rewrite Hl'. destruct (decide (j = i + 1)); [lia|]. unfold wrapw. apply Z.mod_small. lia. }
  rewrite Hr; lia.
Qed.

(** The loss reported is the loss there was. Of a stream received in order
    with gaps of less than a thousand, across any number of wraps of the
    16-bit numbers, the packets counted lost are those between the first and
    the last received that did not arrive. *)
Theorem loss_counted r i js :
  advancing i js -> default i (last js) - i < 2 ^ 64 ->
  lost (receive_all r (i :: js) leg_default) = default i (last js) - i - Z.of_nat (length js).
Proof.
  intros Ha Hb. cbn [receive_all fold_left]. change (fold_left _ js ?s) with (receive_all r js s).
  assert (Hw : 0 <= wrapw 16 i < 65536) by by apply wrapw_range.
  destruct (losses_counted r js i (leg_note_rx 172 0 r (wrapw 16 i) leg_default)) as [_ H]; try done.
  by apply H.
Qed.

(** ** The watchdog *)

(** Only audio delivered keeps a call alive: nothing else that is counted moves
    the idle time. *)
Lemma idle_elsewhere now l n r at_ms d s :
  idle_ms now (note_tx_non_audio l n s) = idle_ms now s /\ idle_ms now (note_rtcp l s) = idle_ms now s /\
  idle_ms now (note_passthrough l s) = idle_ms now s /\ idle_ms now (note_drop r s) = idle_ms now s /\
  idle_ms now (note_rx at_ms l d s) = idle_ms now s /\ idle_ms now (note_endpoint_learned l s) = idle_ms now s /\
  idle_ms now (note_endpoint_moved l s) = idle_ms now s.
Proof. unfold note_rx. destruct l; split_and!; try done; by case_match. Qed.

Module Witness.
(** Numbers wrap once, three packets are missing. *)
Lemma loss_counted_witness : lost (receive_all 9 [65534; 65535; 65537; 65540] leg_default) = 3.
Proof. apply (loss_counted 9 65534 [65535; 65537; 65540]); by vm_compute. Defined.
End Witness.
