(* ===== verification/Relay.v ===== *)
(** * The relay of a call's media (media/rtp.rs)

    One task per call: datagrams of either leg are demultiplexed, admitted,
    decrypted, transcoded, encrypted and sent on; RTCP is forwarded; a timer
    ends a call without audio. An event's clock reading, in milliseconds since
    the relay started, and whether its one send succeeds are arguments. Keys and
    endpoints that other tasks put in place are events. Global counters and logs
    are left out. *)

From S2P Require Import Prelude Str Bytes Net Srtp Rtp Stun Transcoder.
From S2P Require Endpoint MediaStats.

Import MediaStats (Leg, Caller, Callee, other).

(** ** Data *)

Definition ONE_WAY_QUIET_MS : Z := 10000.

Inductive KeySlot := RecvA | SendA | CtxB | RecvB | SendB.

(** What the relay sends: media and answers to ICE checks from a leg's socket,
    RTCP, what it hands to a handshake, and the word that it stopped. *)
Inductive Out :=
  | RtpOut (to : Leg) (dst : SocketAddr) (data : bytes) (ok : bool)
  | StunOut (leg : Leg) (dst : SocketAddr) (data : bytes) (ok : bool)
  | RtcpOut (to : Leg) (dst : SocketAddr) (data : bytes)
  | DtlsOut (leg : Leg) (source : SocketAddr) (data : bytes)
  | TimedOut (session : string).

Section relay.
Context (aes_ctr : bytes -> bytes -> nat -> bytes) (hmac_sha1 : bytes -> bytes -> bytes) (from_utf8_lossy : bytes -> bytes).
Context {HS : HashIter Z StreamState}.
Context {Enc Dec : Type} (enc_run : Enc -> list Z -> sbc_result bytes * Enc) (dec_run : Dec -> bytes -> sbc_result (list Z) * Dec).

(** What [start] takes from the session and never changes. *)
Record Session := mkSession {
  session_id : string;
  signalled_a : option SocketAddr;
  signalled_b : option SocketAddr;
  endpoint_policy : Endpoint.EndpointPolicy;
  rtp_timeout_secs : Z;
  webrtc_mode_a : bool;
  webrtc_mode_b : bool;
  dtmf_pt_a : option Z;
  dtmf_pt_b : option Z;
  ice_pwd_local : option bytes;
  ice_pwd_local_b : option bytes;
  dtls_packet_tx : bool;
  dtls_packet_tx_b : bool
}.

Record Relay := mkRelay {
  endpoint_a : option SocketAddr;
  endpoint_b : option SocketAddr;
  srtp_recv_a : option SrtpCrypto;
  srtp_send_a : option SrtpCrypto;
  srtp_ctx_b : option SrtpCrypto;
  srtp_recv_b : option SrtpCrypto;
  srtp_send_b : option SrtpCrypto;
  ts_map_a_to_b : TimestampMap;
  ts_map_b_to_a : TimestampMap;
  transcoder_a_to_b : option (Transcoder Enc Dec);
  transcoder_b_to_a : option (Transcoder Enc Dec);
  media_stats : MediaStats.CallMediaStats;
  pkt_count : Z;
  packets_a_to_b : Z;
  bytes_a_to_b : Z;
  packets_b_to_a : Z;
  bytes_b_to_a : Z;
  running : bool;
  outs : list Out
}.

#[export] Instance eta_relay : Eta Relay := fun r =>
  mkRelay (endpoint_a r) (endpoint_b r) (srtp_recv_a r) (srtp_send_a r) (srtp_ctx_b r) (srtp_recv_b r) (srtp_send_b r)
    (ts_map_a_to_b r) (ts_map_b_to_a r) (transcoder_a_to_b r) (transcoder_b_to_a r) (media_stats r) (pkt_count r)
    (packets_a_to_b r) (bytes_a_to_b r) (packets_b_to_a r) (bytes_b_to_a r) (running r) (outs r).

Context (S : Session).

(** A datagram is worked on until a [continue], here [None]. *)
Definition M (A : Type) : Type := Relay -> option A * Relay.
#[local] Instance M_ret : MRet M := fun _ a r => (Some a, r).
#[local] Instance M_bind : MBind M := fun _ _ f m r => match m r with (Some a, r') => f a r' | (None, r') => (None, r') end.

Definition gets {A} (f : Relay -> A) : M A := fun r => (Some (f r), r).
Definition modify (f : Relay -> Relay) : M unit := fun r => (Some tt, f r).
Definition stop {A} : M A := fun r => (None, r).

Definition count (f : MediaStats.CallMediaStats -> MediaStats.CallMediaStats) : M unit :=
  modify (fun r => r <| media_stats := f (media_stats r) |>).
Definition send (o : Out) : M unit := modify (fun r => r <| outs := outs r ++ [o] |>).
Definition drop_packet {A} (why : MediaStats.DropReason) : M A := _ ← count (MediaStats.note_drop why); stop.

(** ** A leg's part of the session *)

Definition webrtc (l : Leg) : bool := match l with Caller => webrtc_mode_a S | Callee => webrtc_mode_b S end.
Definition signalled (l : Leg) : option SocketAddr := match l with Caller => signalled_a S | Callee => signalled_b S end.
Definition ice_pwd (l : Leg) : option bytes := match l with Caller => ice_pwd_local S | Callee => ice_pwd_local_b S end.
Definition dtls_task (l : Leg) : bool := match l with Caller => dtls_packet_tx S | Callee => dtls_packet_tx_b S end.
Definition dtmf_pt (l : Leg) : option Z := match l with Caller => dtmf_pt_a S | Callee => dtmf_pt_b S end.

Definition endpoint (l : Leg) (r : Relay) : option SocketAddr := match l with Caller => endpoint_a r | Callee => endpoint_b r end.
Definition set_endpoint (l : Leg) (a : SocketAddr) : M unit :=
  modify (fun r => match l with Caller => r <| endpoint_a := Some a |> | Callee => r <| endpoint_b := Some a |> end).

Definition transcoder_from (l : Leg) (r : Relay) : option (Transcoder Enc Dec) :=
  match l with Caller => transcoder_a_to_b r | Callee => transcoder_b_to_a r end.
Definition set_transcoder_from (l : Leg) (t : Transcoder Enc Dec) : M unit :=
  modify (fun r => match l with Caller => r <| transcoder_a_to_b := Some t |> | Callee => r <| transcoder_b_to_a := Some t |> end).

Definition ts_map_from (l : Leg) (r : Relay) : TimestampMap := match l with Caller => ts_map_a_to_b r | Callee => ts_map_b_to_a r end.
Definition set_ts_map_from (l : Leg) (m : TimestampMap) : M unit :=
  modify (fun r => match l with Caller => r <| ts_map_a_to_b := m |> | Callee => r <| ts_map_b_to_a := m |> end).

(** The context that opens what a leg sends, and the one that seals what it is
    sent. A callee that is no WebRTC endpoint has one for both. *)
Definition recv_slot (l : Leg) : KeySlot := match l with Caller => RecvA | Callee => if webrtc_mode_b S then RecvB else CtxB end.
Definition send_slot (l : Leg) : KeySlot := match l with Caller => SendA | Callee => if webrtc_mode_b S then SendB else CtxB end.

Definition slot (k : KeySlot) (r : Relay) : option SrtpCrypto :=
  match k with
  | RecvA => srtp_recv_a r | SendA => srtp_send_a r | CtxB => srtp_ctx_b r | RecvB => srtp_recv_b r | SendB => srtp_send_b r
  end.
Definition with_slot (k : KeySlot) (c : SrtpCrypto) (r : Relay) : Relay :=
  match k with
  | RecvA => r <| srtp_recv_a := Some c |>
  | SendA => r <| srtp_send_a := Some c |>
  | CtxB => r <| srtp_ctx_b := Some c |>
  | RecvB => r <| srtp_recv_b := Some c |>
  | SendB => r <| srtp_send_b := Some c |>
  end.

(** ** A datagram on a leg's RTP socket *)

Definition learn_if_unknown (l : Leg) (source : SocketAddr) : M unit :=
  ep ← gets (endpoint l);
  match (ep : option SocketAddr) with None => set_endpoint l source | Some _ => mret tt end.

(** On a WebRTC leg, ICE checks are answered and handshake records handed on;
    only media goes further. *)
Definition demux (l : Leg) (source : SocketAddr) (data : bytes) (sent : bool) : M unit :=
  if negb (webrtc l) then mret tt
  else
    match classify_packet data with
    | MuxStun =>
        _ ← match ice_pwd l with
            | Some pwd => match validate_binding_request hmac_sha1 data pwd with
                          | Ok _ => mret tt
                          | Err _ => drop_packet MediaStats.IceAuth
                          end
            | None => mret tt
            end;
        _ ← match build_binding_response_with_integrity hmac_sha1 from_utf8_lossy data source (ice_pwd l) with
            | Ok response => send (StunOut l source response sent)
            | Err _ => mret tt
            end;
        _ ← learn_if_unknown l source; stop
    | MuxDtls =>
        _ ← (if dtls_task l then send (DtlsOut l source data) else mret tt);
        _ ← learn_if_unknown l source; stop
    | MuxRtp => mret tt
    | MuxRtcp | MuxUnknown => stop
    end.

Definition admit_input (l : Leg) (at_ms : Z) (data : bytes) : M MediaInput :=
  let input := classify_media_input data (webrtc l) in
  _ ← match input with
      | InRtp => count (MediaStats.note_rx at_ms l data)
      | InRtcp => count (MediaStats.note_rtcp l)
      | Passthrough => count (MediaStats.note_passthrough l)
      | Junk => drop_packet MediaStats.NotRtp
      end;
  mret input.

(** Where the leg's audio may come from. [live_ssrc] and [quiet]: as they were
    before this datagram was counted. *)
Definition learn (l : Leg) (source : SocketAddr) (data : bytes) (live_ssrc : Z) (quiet : option Z) : M unit :=
  ep ← gets (endpoint l);
  let verdict := Endpoint.observe (endpoint_policy S)
    (Endpoint.mkObservation ep (signalled l) source (looks_like_rtp data)
       ((12 <=? length data)%nat && (live_ssrc =? u32_at 8 data)) (millis <$> quiet)) in
  match verdict with
  | Endpoint.Latch _ => _ ← set_endpoint l source; count (MediaStats.note_endpoint_learned l)
  | Endpoint.Keep => mret tt
  | Endpoint.Move _ => _ ← set_endpoint l source; count (MediaStats.note_endpoint_moved l)
  | Endpoint.Refuse _ =>
      if Endpoint.applies (endpoint_policy S) verdict
      then _ ← set_endpoint l source; count (MediaStats.note_endpoint_moved l)
      else mret tt
  end.

(** A missing key drops the packet of a WebRTC leg; on the callee's it is not
    counted. *)
Definition without_keys {A} (l : Leg) : M A :=
  match l with Caller => drop_packet MediaStats.SrtpDrop | Callee => stop end.

Definition decrypt (l : Leg) (data : bytes) : M bytes :=
  ctx ← gets (slot (recv_slot l));
  match (ctx : option SrtpCrypto) with
  | Some c =>
      let '(res, c') := decrypt_srtp aes_ctr hmac_sha1 c data in
      _ ← modify (with_slot (recv_slot l) c');
      match res with Ok plain => mret plain | Err _ => drop_packet MediaStats.SrtpDrop end
  | None => if webrtc l then without_keys l else mret data
  end.

Definition encrypt (l : Leg) (data : bytes) : M bytes :=
  ctx ← gets (slot (send_slot l));
  match (ctx : option SrtpCrypto) with
  | Some c =>
      let '(res, c') := encrypt_rtp aes_ctr hmac_sha1 c data in
      _ ← modify (with_slot (send_slot l) c');
      match res with Ok sealed => mret sealed | Err _ => drop_packet MediaStats.SrtpDrop end
  | None => if webrtc l then without_keys l else mret data
  end.

(** The packet under the payload type of the other side. *)
Definition with_pt (data : bytes) (pt : Z) : bytes := put 1 [Z.lor (Z.land (byte_at 1 data) 128) pt] data.

(** An event or comfort noise is relayed as it is, on the other side's payload
    type and clock. *)
Definition relay_event (l : Leg) (tc : Transcoder Enc Dec) (is_dtmf : bool) (actual_pt : Z) (data : bytes) : M bytes :=
  if negb is_dtmf then mret data
  else
    let data := match dtmf_pt (other l) with
                | Some dst_pt => if negb (dst_pt =? actual_pt) then with_pt data dst_pt else data
                | None => data
                end in
    m ← gets (ts_map_from l);
    let '(_, data, m) := rescale_event m data (clock_rate (tc_src tc)) (clock_rate (tc_dst tc)) in
    _ ← set_ts_map_from l m; mret data.

Definition is_g711 (c : Codec) : bool := match c with Pcma | Pcmu => true | _ => false end.

(** The transcoded payload under a bare header: type, timestamp of the other
    clock. *)
Definition rebuild (l : Leg) (tc : Transcoder Enc Dec) (data payload : bytes) : M bytes :=
  let packet := [128; Z.lor (Z.land (byte_at 1 data) 128) (tc_dst_pt tc)] ++ slice 2 12 data ++ payload in
  let src_rate := clock_rate (tc_src tc) in
  let dst_rate := clock_rate (tc_dst tc) in
  if negb (src_rate =? dst_rate) && (0 <? dst_rate) then
    m ← gets (ts_map_from l);
    let '(new_ts, m) := ts_map m (u32_at 4 packet) src_rate dst_rate in
    _ ← set_ts_map_from l m; mret (put 4 (be_bytes 4 new_ts) packet)
  else mret packet.

Definition transcode_audio (l : Leg) (tc : Transcoder Enc Dec) (data : bytes) : M bytes :=
  let header_len := rtp_header_length data in
  if (0 <? header_len)%nat && (header_len <? length data)%nat then
    if is_g711 (tc_src tc) && negb (length data - header_len =? 160)%nat then drop_packet MediaStats.Transcode
    else
      let '(res, tc') := transcode enc_run dec_run tc (drop header_len data) in
      _ ← set_transcoder_from l tc';
      match res with Ok payload => rebuild l tc' data payload | Err _ => drop_packet MediaStats.Transcode end
  else mret data.

Definition convert (l : Leg) (data : bytes) : M bytes :=
  tc ← gets (transcoder_from l);
  match (tc : option (Transcoder Enc Dec)) with
  | None => mret data
  | Some tc =>
      if is_passthrough tc || (length data <? 12)%nat then mret data
      else
        let actual_pt := Z.land (byte_at 1 data) 127 in
        let is_dtmf := match dtmf_pt l with Some p => p =? actual_pt | None => 96 <=? actual_pt end in
        let is_dtmf_or_cn := is_dtmf || (actual_pt =? 13) in
        if negb (actual_pt =? tc_src_pt tc) && negb is_dtmf_or_cn then drop_packet MediaStats.PayloadType
        else if is_dtmf_or_cn then relay_event l tc is_dtmf actual_pt data
        else transcode_audio l tc data
  end.

Definition note_relayed (from : Leg) (n : Z) : M unit :=
  modify (fun r =>
    match from with
    | Caller => r <| packets_a_to_b := wrapw 64 (packets_a_to_b r + 1) |> <| bytes_a_to_b := wrapw 64 (bytes_a_to_b r + n) |>
    | Callee => r <| packets_b_to_a := wrapw 64 (packets_b_to_a r + 1) |> <| bytes_b_to_a := wrapw 64 (bytes_b_to_a r + n) |>
    end).

Definition deliver (from : Leg) (at_ms : Z) (input : MediaInput) (data : bytes) (sent : bool) : M unit :=
  let to := other from in
  dest ← gets (endpoint to);
  match (dest : option SocketAddr) with
  | None => count (MediaStats.note_drop MediaStats.NoEndpoint)
  | Some dst =>
      _ ← send (RtpOut to dst data sent);
      if negb sent then count (MediaStats.note_drop MediaStats.SendFailed)
      else
        _ ← note_relayed from (blen data);
        match input with
        | InRtp => count (MediaStats.note_tx at_ms to (blen data))
        | _ => count (MediaStats.note_tx_non_audio to (blen data))
        end
  end.

(** The arm of the loop for a datagram of a leg. *)
Definition relay_datagram (from : Leg) (at_ms : Z) (source : SocketAddr) (datagram : bytes) (sent : bool) : M unit :=
  _ ← demux from source datagram sent;
  _ ← modify (fun r => r <| pkt_count := pkt_count r + 1 |>);
  live_ssrc ← gets (fun r => MediaStats.ssrc (MediaStats.leg from (media_stats r)));
  quiet ← gets (fun r => MediaStats.quiet_for at_ms from (media_stats r));
  input ← admit_input from at_ms datagram;
  _ ← learn from source datagram live_ssrc quiet;
  data ← decrypt from datagram;
  data ← convert from data;
  data ← encrypt (other from) data;
  deliver from at_ms input data sent.

(** ** RTCP *)

Definition relay_rtcp (from : Leg) (source : SocketAddr) (data : bytes) : M unit :=
  ep ← gets (endpoint from);
  let known := match (ep : option SocketAddr) with None => true | Some e => bool_decide (ip e = ip source) end in
  if negb known || negb (looks_like_rtcp data) then drop_packet MediaStats.RtcpDrop
  else
    dest ← gets (endpoint (other from));
    match (dest : option SocketAddr) with
    | Some dst => if port dst + 1 <=? u16_max then send (RtcpOut (other from) (mkAddr (ip dst) (port dst + 1)) data) else mret tt
    | None => mret tt
    end.

(** ** The timer *)

Definition check_activity (at_ms : Z) : M unit :=
  silent ← gets (fun r => MediaStats.one_way_leg at_ms ONE_WAY_QUIET_MS (media_stats r));
  _ ← match (silent : option Leg) with
      | Some l => count (fun s => (MediaStats.claim_one_way_report l s).2)
      | None => mret tt
      end;
  idle ← gets (fun r => MediaStats.idle_ms at_ms (media_stats r) / 1000);
  if rtp_timeout_secs S <? idle then
    _ ← send (TimedOut (session_id S)); modify (fun r => r <| running := false |>)
  else mret tt.

(** ** The loop *)

Inductive Event :=
  | Datagram (from : Leg) (at_ms : Z) (source : SocketAddr) (data : bytes) (sent : bool)
  | Rtcp (from : Leg) (source : SocketAddr) (data : bytes)
  | Tick (at_ms : Z)
  | Keys (k : KeySlot) (c : SrtpCrypto)
  | SetEndpoint (l : Leg) (a : SocketAddr)
  | Released.

Definition handle (e : Event) : M unit :=
  match e with
  | Datagram from at_ms source data sent => relay_datagram from at_ms source data sent
  | Rtcp from source data => relay_rtcp from source data
  | Tick at_ms => check_activity at_ms
  | Keys k c => modify (with_slot k c)
  | SetEndpoint l a => set_endpoint l a
  | Released => modify (fun r => r <| running := false |>)
  end.

Definition step (e : Event) (r : Relay) : Relay := if running r then (handle e r).2 else r.
Definition run (es : list Event) (r : Relay) : Relay := fold_left (fun r e => step e r) es r.

(** [start]: the endpoints known so far are the ones signalled. *)
Definition start (tc_ab tc_ba : option (Transcoder Enc Dec)) (ra sa cb rb sb : option SrtpCrypto) : Relay :=
  mkRelay (signalled_a S) (signalled_b S) ra sa cb rb sb ts_new ts_new tc_ab tc_ba MediaStats.new 0 0 0 0 0 true [].
End relay.
Arguments Relay : clear implicits.

(** ** Stages *)

Section stages.
Context (aes_ctr : bytes -> bytes -> nat -> bytes) (hmac_sha1 : bytes -> bytes -> bytes) (from_utf8_lossy : bytes -> bytes).
Context {HS : HashIter Z StreamState}.
Context {Enc Dec : Type} (enc_run : Enc -> list Z -> sbc_result bytes * Enc) (dec_run : Dec -> bytes -> sbc_result (list Z) * Dec).
Context (S : Session).

#[local] Existing Instances M_ret M_bind.

Abbreviation M := (@Relay.M Enc Dec).
Abbreviation Relay := (Relay.Relay Enc Dec).
Abbreviation demux := (demux hmac_sha1 from_utf8_lossy S (Enc := Enc) (Dec := Dec)).
Abbreviation decrypt := (decrypt aes_ctr hmac_sha1 S (Enc := Enc) (Dec := Dec)).
Abbreviation encrypt := (encrypt aes_ctr hmac_sha1 S (Enc := Enc) (Dec := Dec)).
Abbreviation convert := (convert enc_run dec_run S).
Abbreviation step := (step aes_ctr hmac_sha1 from_utf8_lossy enc_run dec_run S).
Abbreviation run := (run aes_ctr hmac_sha1 from_utf8_lossy enc_run dec_run S).
Abbreviation relay_datagram := (relay_datagram aes_ctr hmac_sha1 from_utf8_lossy enc_run dec_run S).

(** A part of the state that an operation leaves alone. *)
Definition same {A B} (f : Relay -> B) (m : M A) : Prop := forall r, f (m r).2 = f r.

Lemma same_bind {A B C} (f : Relay -> C) (m : M A) (k : A -> M B) : same f m -> (forall a, same f (k a)) -> same f (m ≫= k).
Proof.
  intros Hm Hk r. unfold mbind, M_bind. specialize (Hm r). destruct (m r) as [[a|] r1]; cbn [snd] in *; [|done].
  by rewrite Hk.
Qed.

Lemma same_ret {A C} (f : Relay -> C) (a : A) : same f (mret a).
Proof. done. Qed.

Lemma same_stop {A C} (f : Relay -> C) : same f (stop (A := A)).
Proof. done. Qed.

Lemma same_gets {A C} (f : Relay -> C) (g : Relay -> A) : same f (gets g).
Proof. done. Qed.

Lemma same_modify {C} (f : Relay -> C) g : (forall r, f (g r) = f r) -> same f (modify g).
Proof. intros H r. apply H. Qed.

Create HintDb relay.
#[local] Hint Resolve same_ret same_stop same_gets : relay.

Ltac stage :=
  repeat first
    [ solve [auto with relay]
    | apply same_bind; [|intros ?]
    | match goal with
      | |- same _ (match ?x with _ => _ end) => destruct x
      | |- same _ (let '(_, _) := ?x in _) => destruct x
      | |- same _ (if ?b then _ else _) => destruct b
      end ].

(** What follows the learning of a source sends at most the packet, and leaves
    the sources alone. *)
Record tail_keeps {C} (f : Relay -> C) : Prop := {
  tk_tc l t r : f (match l with Caller => r <| transcoder_a_to_b := Some t |> | Callee => r <| transcoder_b_to_a := Some t |> end) = f r;
  tk_ts l m r : f (match l with Caller => r <| ts_map_a_to_b := m |> | Callee => r <| ts_map_b_to_a := m |> end) = f r;
  tk_drop w r : f (r <| media_stats := MediaStats.note_drop w (media_stats r) |>) = f r
}.

Section tail.
Context {C : Type} (f : Relay -> C) (Hf : tail_keeps f).

Lemma same_drop {A} w : same f (drop_packet (A := A) w).
Proof. unfold drop_packet. apply same_bind; [|intros; apply same_stop]. apply same_modify, (tk_drop f Hf). Qed.
#[local] Hint Resolve same_drop : relay.

Lemma same_no_keys {A} l : same f (without_keys (A := A) l).
Proof. unfold without_keys. stage. Qed.
#[local] Hint Resolve same_no_keys : relay.

Lemma decrypt_same l d : (forall c r, f (with_slot (recv_slot S l) c r) = f r) -> same f (decrypt l d).
Proof. intros H. unfold Relay.decrypt. stage. all: by apply same_modify. Qed.

Lemma encrypt_same l d : (forall c r, f (with_slot (send_slot S l) c r) = f r) -> same f (encrypt l d).
Proof. intros H. unfold Relay.encrypt. stage. all: by apply same_modify. Qed.

Lemma same_ts l m : same f (set_ts_map_from l m).
Proof. apply same_modify. intros r. apply (tk_ts f Hf). Qed.

Lemma same_tc l t : same f (set_transcoder_from l t).
Proof. apply same_modify. intros r. apply (tk_tc f Hf). Qed.
#[local] Hint Resolve same_ts same_tc : relay.

Lemma convert_same l d : same f (convert l d).
Proof. unfold Relay.convert, relay_event, transcode_audio, rebuild. stage. Qed.
End tail.

(** ** What is sent *)

(** The packet carries the tag of the leg's key, for an index not seen yet. *)
Definition authentic (c : SrtpCrypto) (p : bytes) : Prop :=
  let n := (length p - auth_tag_len c)%nat in
  exists i v,
    estimate (default stream_default (recv c !! u32_at 8 (take n p))) (u16_at 2 (take n p)) = Some (i, v) /\
    drop n p = take (auth_tag_len c) (compute_auth_tag hmac_sha1 c (take n p) v) /\
    is_replayed (default stream_default (recv c !! u32_at 8 (take n p))) i = false.

(** From what arrived on a leg to what is in clear, and from that to what
    leaves towards a leg. *)
Definition opened (l : Leg) (r : Relay) (wire plain : bytes) : Prop :=
  match slot (recv_slot S l) r with
  | Some c => authentic c wire /\ (decrypt_srtp aes_ctr hmac_sha1 c wire).1 = Ok plain
  | None => webrtc S l = false /\ plain = wire
  end.

Definition sealed (l : Leg) (r : Relay) (plain wire : bytes) : Prop :=
  match slot (send_slot S l) r with
  | Some c => (encrypt_rtp aes_ctr hmac_sha1 c plain).1 = Ok wire
  | None => webrtc S l = false /\ wire = plain
  end.

Lemma decrypted_authentic c p plain : (decrypt_srtp aes_ctr hmac_sha1 c p).1 = Ok plain -> authentic c p.
Proof.
  unfold decrypt_srtp, authentic. case_match; [done|]. cbn zeta.
  destruct (estimate _ _) as [[i v]|] eqn:He; [|done].
  destruct (match recv c !! _ with Some _ => _ | None => _ end) eqn:Hr; [done|].
  destruct (negb (constant_time_compare _ _)) eqn:Ht; [done|]. intros _. exists i, v. split; [done|].
  apply negb_false_iff in Ht. split; [symmetry; by apply ct_compare_true|]. by destruct (recv c !! _).
Qed.

Lemma decrypt_opens l d r p : (decrypt l d r).1 = Some p -> opened l r d p.
Proof.
  unfold Relay.decrypt, opened, gets, mbind, M_bind. destruct (slot (recv_slot S l) r) as [c|].
  - destruct (decrypt_srtp aes_ctr hmac_sha1 c d) as [[x|e] c'] eqn:Hd; cbn; [|done]. intros [= <-].
    split; [|done]. apply (decrypted_authentic c d x). by rewrite Hd.
  - destruct (webrtc S l); [by destruct l|]. by intros [= <-].
Qed.

Lemma encrypt_seals l d r p : (encrypt l d r).1 = Some p -> sealed l r d p.
Proof.
  unfold Relay.encrypt, sealed, gets, mbind, M_bind. destruct (slot (send_slot S l) r) as [c|].
  - destruct (encrypt_rtp aes_ctr hmac_sha1 c d) as [[x|e] c'] eqn:Hd; cbn; [|done]. by intros [= <-].
  - destruct (webrtc S l); [by destruct l|]. by intros [= <-].
Qed.

Lemma tail_outs : tail_keeps (outs (Enc := Enc) (Dec := Dec)).
Proof. split; [by intros []|by intros []|done]. Qed.

Lemma tail_endpoint l : tail_keeps (endpoint l : Relay -> _).
Proof. destruct l; (split; [by intros []|by intros []|done]). Qed.

Lemma tail_slot k : tail_keeps (slot k : Relay -> _).
Proof. destruct k; (split; [by intros []|by intros []|done]). Qed.

Lemma slot_outs k c (r : Relay) : outs (with_slot k c r) = outs r.
Proof. by destruct k. Qed.

Lemma slot_endpoint l k c (r : Relay) : endpoint l (with_slot k c r) = endpoint l r.
Proof. by destruct l, k. Qed.

Lemma slot_other l c (r : Relay) : slot (send_slot S (other l)) (with_slot (recv_slot S l) c r) = slot (send_slot S (other l)) r.
Proof. unfold send_slot, recv_slot. destruct l; cbn [other]; by destruct (webrtc_mode_b S). Qed.

Lemma same_endpoint {C} (f : Relay -> C) l a :
  (forall r, f (r <| endpoint_a := Some a |>) = f r) -> (forall r, f (r <| endpoint_b := Some a |>) = f r) -> same f (set_endpoint l a).
Proof. intros Ha Hb. apply same_modify. by destruct l. Qed.

Lemma same_count {C} (f : Relay -> C) g : (forall r s, f (r <| media_stats := s |>) = f r) -> same f (count g).
Proof. intros H. by apply same_modify. Qed.

Lemma admit_same {C} (f : Relay -> C) l at_ms d : (forall r s, f (r <| media_stats := s |>) = f r) -> same f (admit_input S l at_ms d).
Proof.
  intros H. unfold admit_input, drop_packet. apply same_bind; [|intros; apply same_ret].
  destruct (classify_media_input _ _); by apply same_count.
Qed.

Lemma learn_same {C} (f : Relay -> C) l src d ssrc q :
  (forall r, f (r <| media_stats := MediaStats.note_endpoint_learned l (media_stats r) |>) = f r) ->
  (forall r, f (r <| media_stats := MediaStats.note_endpoint_moved l (media_stats r) |>) = f r) ->
  (forall a r, f (r <| endpoint_a := Some a |>) = f r) -> (forall a r, f (r <| endpoint_b := Some a |>) = f r) ->
  same f (learn S l src d ssrc q).
Proof.
  intros Hn Hm Ha Hb. unfold learn. apply same_bind; [apply same_gets|intros ep]. cbn zeta.
  assert (He : same f (set_endpoint l src)) by (apply same_endpoint; [apply Ha|apply Hb]).
  destruct (Endpoint.observe _ _) as [|  | |]; [apply same_bind; [done|intros; by apply same_modify]|apply same_ret| |
    destruct (Endpoint.applies _ _); [|apply same_ret]]; (apply same_bind; [done|intros; by apply same_modify]).
Qed.

(** A run of one operation after another, cut at the first that stops. *)
Lemma bind_some {A B} (m : M A) (k : A -> M B) r a r1 : m r = (Some a, r1) -> (m ≫= k) r = k a r1.
Proof. unfold mbind, M_bind. by intros ->. Qed.

Lemma bind_none {A B} (m : M A) (k : A -> M B) r r1 : m r = (None, r1) -> (m ≫= k) r = (None, r1).
Proof. unfold mbind, M_bind. by intros ->. Qed.

Lemma demux_sends l src d ok r :
  let '(o, r') := demux l src d ok r in
  match o with
  | Some _ => r' = r
  | None =>
      outs r' = outs r \/
      (exists reply, outs r' = outs r ++ [StunOut l src reply ok] /\
         forall pwd, ice_pwd S l = Some pwd -> validate_binding_request hmac_sha1 d pwd = Ok tt) \/
      outs r' = outs r ++ [DtlsOut l src d]
  end.
Proof.
  unfold Relay.demux, learn_if_unknown, drop_packet, count, send, modify, gets, stop, set_endpoint.
  destruct (webrtc S l); cbn [negb]; [|done].
  destruct (classify_packet d); [| |done|by left|by left].
  - destruct (ice_pwd S l) as [pwd|]; [destruct (validate_binding_request hmac_sha1 d pwd) as [[]|] eqn:Hv; [|by left]|];
      (destruct (build_binding_response_with_integrity _ _ _ _ _) as [reply|];
       unfold mbind, M_bind; destruct l; cbn; destruct (endpoint_a r), (endpoint_b r); cbn;
       first [by left | right; left; exists reply; by (split; [done|intros; simplify_eq])]).
  - unfold mbind, M_bind. destruct (dtls_task S l); destruct l; cbn; destruct (endpoint_a r), (endpoint_b r); cbn;
      first [by left | by right; right].
Qed.

Lemma deliver_sends l at_ms input d ok (r : Relay) :
  match endpoint (other l) r with
  | Some dst => outs (deliver l at_ms input d ok r).2 = outs r ++ [RtpOut (other l) dst d ok] /\
                endpoint (other l) (deliver l at_ms input d ok r).2 = Some dst
  | None => outs (deliver l at_ms input d ok r).2 = outs r
  end.
Proof.
  unfold deliver, gets, mbind, M_bind. destruct (endpoint (other l) r) as [dst|] eqn:He; [|done].
  destruct ok, input, l; by cbn in *.
Qed.

(** What a datagram on an RTP socket may make the relay send. *)
Definition guarded (from : Leg) (source : SocketAddr) (data : bytes) (sent : bool) (r r' : Relay) : Prop :=
  outs r' = outs r \/
  (exists reply, outs r' = outs r ++ [StunOut from source reply sent] /\
     forall pwd, ice_pwd S from = Some pwd -> validate_binding_request hmac_sha1 data pwd = Ok tt) \/
  outs r' = outs r ++ [DtlsOut from source data] \/
  exists dst wire plain bare,
    outs r' = outs r ++ [RtpOut (other from) dst wire sent] /\ endpoint (other from) r' = Some dst /\
    opened from r data plain /\ sealed (other from) r bare wire.

(** And one on an RTCP socket. *)
Definition rtcp_guarded (from : Leg) (source : SocketAddr) (data : bytes) (r r' : Relay) : Prop :=
  outs r' = outs r \/
  exists dst, outs r' = outs r ++ [RtcpOut (other from) (mkAddr (ip dst) (port dst + 1)) data] /\
    endpoint (other from) r = Some dst /\ port dst < u16_max /\ looks_like_rtcp data = true /\
    forall known, endpoint from r = Some known -> ip known = ip source.

Lemma datagram_guarded from at_ms source data sent r : guarded from source data sent r (step (Datagram from at_ms source data sent) r).
Proof.
  unfold guarded, Relay.step. destruct (running r); [|by left]. cbn [handle]. unfold Relay.relay_datagram.
  assert (Hd := demux_sends from source data sent r). destruct (demux from source data sent r) as [[[]|] r1] eqn:Hx; cbn [fst snd] in Hd.
  2: { rewrite (bind_none _ _ _ _ Hx). cbn [snd]. destruct Hd as [H|[H|H]]; [by left|by right; left|by right; right; left]. }
  subst r1. rewrite (bind_some _ _ _ _ _ Hx). clear Hx.
  rewrite (bind_some (modify _) _ _ tt _ eq_refl), (bind_some (gets _) _ _ _ _ eq_refl), (bind_some (gets _) _ _ _ _ eq_refl).
  cbn beta. set (r2 := r <| pkt_count := _ |>).
  assert (Ho2 : outs r2 = outs r) by done. assert (Hk2 : forall k, slot k r2 = slot k r) by by intros [].
  set (live := MediaStats.ssrc _). set (quiet := MediaStats.quiet_for _ _ _). clearbody r2 live quiet.
  assert (Ha := admit_same (outs : Relay -> _) from at_ms data ltac:(done) r2).
  assert (Hka := fun k => admit_same (slot k : Relay -> _) from at_ms data ltac:(by destruct k) r2).
  destruct (admit_input S from at_ms data r2) as [[input|] r3] eqn:Hx; cbn [snd] in Ha, Hka;
    [rewrite (bind_some _ _ _ _ _ Hx)|rewrite (bind_none _ _ _ _ Hx); left; cbn [snd]; congruence]. clear Hx.
  assert (Hl := learn_same (outs : Relay -> _) from source data live quiet ltac:(done) ltac:(done) ltac:(done) ltac:(done) r3).
  assert (Hkl := fun k => learn_same (slot k : Relay -> _) from source data live quiet ltac:(by destruct k) ltac:(by destruct k) ltac:(by destruct k) ltac:(by destruct k) r3).
  destruct (learn S from source data live quiet r3) as [[[]|] r4] eqn:Hx; cbn [snd] in Hl, Hkl;
    [rewrite (bind_some _ _ _ _ _ Hx)|rewrite (bind_none _ _ _ _ Hx); left; cbn [snd]; congruence]. clear Hx.
  assert (Ho4 : outs r4 = outs r) by congruence. assert (Hk4 : forall k, slot k r4 = slot k r) by (intros k; by rewrite Hkl, Hka, Hk2).
  clear dependent r2. clear dependent r3.
  assert (Hd := decrypt_same (outs : Relay -> _) tail_outs from data (slot_outs _) r4).
  assert (Hkd := decrypt_same (slot (send_slot S (other from)) : Relay -> _) (tail_slot _) from data (slot_other _) r4).
  assert (Hop := decrypt_opens from data r4).
  destruct (decrypt from data r4) as [[plain|] r5] eqn:Hx; cbn [fst snd] in Hd, Hkd, Hop;
    [rewrite (bind_some _ _ _ _ _ Hx)|rewrite (bind_none _ _ _ _ Hx); left; cbn [snd]; congruence]. clear Hx.
  specialize (Hop plain eq_refl).
  assert (Hc := convert_same (outs : Relay -> _) tail_outs from plain r5).
  assert (Hkc := convert_same (slot (send_slot S (other from)) : Relay -> _) (tail_slot _) from plain r5).
  destruct (convert from plain r5) as [[bare|] r6] eqn:Hx; cbn [snd] in Hc, Hkc;
    [rewrite (bind_some _ _ _ _ _ Hx)|rewrite (bind_none _ _ _ _ Hx); left; cbn [snd]; congruence]. clear Hx.
  assert (He := encrypt_same (outs : Relay -> _) tail_outs (other from) bare (slot_outs _) r6).
  assert (Hse := encrypt_seals (other from) bare r6).
  destruct (encrypt (other from) bare r6) as [[wire|] r7] eqn:Hx; cbn [fst snd] in He, Hse;
    [rewrite (bind_some _ _ _ _ _ Hx)|rewrite (bind_none _ _ _ _ Hx); left; cbn [snd]; congruence]. clear Hx.
  specialize (Hse wire eq_refl). assert (Ho7 : outs r7 = outs r) by congruence.
  assert (Hdl := deliver_sends from at_ms input wire sent r7). destruct (endpoint (other from) r7) as [dst|].
  - destruct Hdl as [Hdl Hep]. do 3 right. exists dst, wire, plain, bare. rewrite Hdl, Hep, Ho7. split_and!; [done..| |].
    + unfold opened in *. by rewrite <- Hk4.
    + unfold sealed in *. by rewrite <- Hk4, <- Hkd, <- Hkc.
  - left. by rewrite Hdl.
Qed.

Lemma rtcp_is_guarded from source data r : rtcp_guarded from source data r (step (Rtcp from source data) r).
Proof.
  unfold rtcp_guarded, Relay.step. destruct (running r); [|by left]. cbn [handle]. unfold relay_rtcp, gets, mbind, M_bind.
  destruct (negb _ || negb _) eqn:Hk; [by left|]. apply orb_false_iff in Hk as [Hk Hl]. apply negb_false_iff in Hk, Hl.
  destruct (endpoint (other from) r) as [dst|]; [|by left]. destruct (_ <=? u16_max) eqn:Hp; [|by left].
  right. exists dst. split_and!; [done..|to_prop; lia|done|]. intros known He. rewrite He in Hk. by apply bool_decide_eq_true in Hk.
Qed.

(** C19: what the relay of a call sends. A datagram on an RTP socket makes it
    send at most one thing: an answer to an ICE check signed with the leg's
    password, a record for the handshake, or a packet to the other leg's
    address; a packet from a leg with keys carried their tag and was no replay,
    to a leg with keys it leaves as their SRTP, and on these sockets WebRTC legs
    take and give nothing in clear. A datagram on an RTCP socket is forwarded
    as it came, keys or not: guarded only by its shape and by the address of
    its sender, once that leg's is known. The timer sends at most the notice
    that the call fell silent, and nothing else sends anything. *)
Theorem media_guarded e r :
  let r' := step e r in
  match e with
  | Datagram from _ source data sent => guarded from source data sent r r'
  | Rtcp from source data => rtcp_guarded from source data r r'
  | Tick _ => outs r' = outs r \/ outs r' = outs r ++ [TimedOut (session_id S)]
  | Keys _ _ | SetEndpoint _ _ | Released => outs r' = outs r
  end.
Proof.
  destruct e as [from at_ms source data sent|from source data|at_ms|k c|l a|]; cbv zeta.
  - apply datagram_guarded.
  - apply rtcp_is_guarded.
  - unfold Relay.step. destruct (running r); [|by left]. cbn [handle]. unfold check_activity, gets, mbind, M_bind.
    destruct (MediaStats.one_way_leg _ _ _); cbn; case_match; cbn; by auto.
  - unfold Relay.step. destruct (running r); [|done]. by destruct k.
  - unfold Relay.step. destruct (running r); [|done]. by destruct l.
  - unfold Relay.step. by destruct (running r).
Qed.

(** ** Endpoints *)

Lemma deliver_same {C} (f : Relay -> C) l at_ms input d ok :
  (forall r w, f (r <| media_stats := MediaStats.note_drop w (media_stats r) |>) = f r) ->
  (forall r o, f (r <| outs := o |>) = f r) -> (forall r, f (note_relayed l (blen d) r).2 = f r) ->
  (forall r, f (r <| media_stats := match input with
                                    | InRtp => MediaStats.note_tx at_ms (other l) (blen d) (media_stats r)
                                    | _ => MediaStats.note_tx_non_audio (other l) (blen d) (media_stats r) end |>) = f r) ->
  same f (deliver l at_ms input d ok).
Proof.
  intros Hd Ho Hr Hs. unfold deliver. apply same_bind; [apply same_gets|]. intros [dst|]; [|by apply same_modify].
  apply same_bind; [by apply same_modify|]. intros _. destruct ok; cbn [negb]; [|by apply same_modify].
  apply same_bind; [exact Hr|]. intros _. destruct input; by apply same_modify.
Qed.

(** What follows the learning. *)
Definition onward (l : Leg) (at_ms : Z) (input : MediaInput) (d : bytes) (ok : bool) : M unit :=
  data ← decrypt l d; data ← convert l data; data ← encrypt (other l) data; deliver l at_ms input data ok.

Lemma onward_same {C} (f : Relay -> C) l at_ms input d ok :
  tail_keeps f -> (forall k c r, f (with_slot k c r) = f r) -> (forall d, same f (deliver l at_ms input d ok)) ->
  same f (onward l at_ms input d ok).
Proof.
  intros Hf Hs Hd. unfold onward. apply same_bind; [by apply decrypt_same|intros p].
  apply same_bind; [by apply convert_same|intros b]. apply same_bind; [by apply encrypt_same|intros w]. apply Hd.
Qed.

Lemma rtp_input d w : classify_media_input d w = InRtp -> looks_like_rtp d = true /\ (12 <= length d)%nat.
Proof.
  intros Hc. assert (Hl : looks_like_rtp d = true).
  { unfold classify_media_input in Hc. destruct d as [|b d]; [done|]. destruct ((128 <=? b) && (b <=? 191) && _) eqn:Hb.
    - by apply andb_true_iff in Hb as [_ Hb].
    - by repeat case_match. }
  split; [done|]. unfold looks_like_rtp in Hl. by apply andb_true_iff in Hl as [Hl%Nat.leb_le _].
Qed.

(** A datagram on a leg that is no WebRTC endpoint, up to the learning. *)
Lemma datagram_plain l at_ms src d ok r :
  webrtc S l = false -> classify_media_input d false = InRtp ->
  relay_datagram l at_ms src d ok r =
  (_ ← learn S l src d (MediaStats.ssrc (MediaStats.leg l (media_stats r))) (MediaStats.quiet_for at_ms l (media_stats r));
   onward l at_ms InRtp d ok) (r <| pkt_count := pkt_count r + 1 |> <| media_stats := MediaStats.note_rx at_ms l d (media_stats r) |>).
Proof.
  intros Hw Hc. unfold Relay.relay_datagram, Relay.demux, admit_input. rewrite Hw, Hc. unfold mbind, M_bind, gets, modify, count. by cbn.
Qed.

Definition endpoint_after (l : Leg) (r : Relay) (src : SocketAddr) (d : bytes) (ssrc : Z) (q : option Z) : option SocketAddr :=
  Endpoint.moved_to (endpoint_policy S)
    (Endpoint.mkObservation (endpoint l r) (signalled S l) src (looks_like_rtp d)
       ((12 <=? length d)%nat && (ssrc =? u32_at 8 d)) (millis <$> q)).

Lemma learn_endpoint l src d ssrc q r :
  (learn S l src d ssrc q r).1 = Some tt /\
  endpoint l (learn S l src d ssrc q r).2 = endpoint_after l r src d ssrc q.
Proof.
  unfold learn, endpoint_after, Endpoint.moved_to, gets, mbind, M_bind. cbn zeta.
  destruct (Endpoint.observe _ _) as [m| |m|why]; [by destruct l|by destruct l|by destruct l|].
  destruct (Endpoint.applies _ _); by destruct l.
Qed.

Lemma keeps_ssrc l : tail_keeps (fun r : Relay => MediaStats.ssrc (MediaStats.leg l (media_stats r))).
Proof. split; [by intros []|by intros []|by destruct l]. Qed.

Lemma datagram_learns l at_ms src d ok r :
  webrtc S l = false -> classify_media_input d false = InRtp ->
  let r' := (relay_datagram l at_ms src d ok r).2 in
  endpoint l r' = endpoint_after l r src d (MediaStats.ssrc (MediaStats.leg l (media_stats r))) (MediaStats.quiet_for at_ms l (media_stats r)) /\
  MediaStats.ssrc (MediaStats.leg l (media_stats r')) = u32_at 8 d.
Proof.
  intros Hw Hc. cbn zeta. rewrite (datagram_plain _ _ _ _ _ _ Hw Hc). set (live := MediaStats.ssrc _). set (quiet := MediaStats.quiet_for _ _ _).
  set (r1 := r <| pkt_count := _ |> <| media_stats := _ |>).
  assert (He1 : endpoint l r1 = endpoint l r) by by destruct l.
  assert (Hs1 : MediaStats.ssrc (MediaStats.leg l (media_stats r1)) = u32_at 8 d).
  { change (media_stats r1) with (MediaStats.note_rx at_ms l d (media_stats r)).
    assert (Hlen : (length d <? 12)%nat = false) by (apply Nat.ltb_ge; by apply (rtp_input _ _ Hc)).
    unfold MediaStats.note_rx. rewrite Hlen. unfold MediaStats.leg_note_rx, MediaStats.note_seq.
    destruct l; cbn; by repeat case_match. }
  clearbody r1 live quiet. destruct (learn_endpoint l src d live quiet r1) as [Hl He].
  assert (Hsl := learn_same (fun r : Relay => MediaStats.ssrc (MediaStats.leg l (media_stats r))) l src d live quiet
    ltac:(by destruct l) ltac:(by destruct l) ltac:(done) ltac:(done) r1). cbn beta in Hsl.
  destruct (learn S l src d live quiet r1) as [[[]|] r2] eqn:Hx; cbn [fst snd] in *; [|done]. rewrite (bind_some _ _ _ _ _ Hx).
  rewrite (onward_same (endpoint l)), (onward_same (fun r : Relay => MediaStats.ssrc (MediaStats.leg l (media_stats r)))).
  - split; [|congruence]. rewrite He. unfold endpoint_after. by rewrite He1.
  - apply keeps_ssrc.
  - by intros [].
  - intros d'. apply deliver_same; try done; by destruct l.
  - apply tail_endpoint.
  - intros. apply slot_endpoint.
  - intros d'. apply deliver_same; by destruct l.
Qed.

(** The ladder can be climbed by anyone. Whatever the policy, the state of
    the call and its peer: a stranger that sends two packets of one made-up
    stream to the port of a leg has the leg's audio, because the first one,
    though refused, is recorded as the stream being relayed. *)
Theorem two_packets_take_over l src d1 d2 a1 a2 ok1 ok2 r :
  running r = true -> webrtc S l = false ->
  classify_media_input d1 false = InRtp -> classify_media_input d2 false = InRtp -> u32_at 8 d1 = u32_at 8 d2 ->
  endpoint l (run [Datagram l a1 src d1 ok1; Datagram l a2 src d2 ok2] r) = Some src.
Proof.
  intros Hr Hw H1 H2 Hs. unfold Relay.run. cbn [fold_left]. unfold Relay.step at 2. rewrite Hr. cbn [handle].
  destruct (datagram_learns l a1 src d1 ok1 r Hw H1) as [_ Hl].
  assert (Hr1 : running (relay_datagram l a1 src d1 ok1 r).2 = true).
  { rewrite <- Hr. rewrite (datagram_plain _ _ _ _ _ _ Hw H1).
    match goal with |- running (_ ?x).2 = _ => change (running r) with (running x) end.
    apply same_bind; [by apply learn_same|]. intros _. apply onward_same; [split; by intros []|by intros []|].
    intros d. apply deliver_same; by destruct l. }
  set (r1 := (relay_datagram l a1 src d1 ok1 r).2) in *. clearbody r1. unfold Relay.step. rewrite Hr1. cbn [handle].
  destruct (datagram_learns l a2 src d2 ok2 r1 Hw H2) as [He _]. rewrite He, Hl, Hs.
  destruct (rtp_input _ _ H2) as [Hp Hn]. unfold endpoint_after. rewrite Hp, Z.eqb_refl, andb_true_r.
  assert (Hb : (12 <=? length d2)%nat = true) by by apply Nat.leb_le. rewrite Hb.
  unfold Endpoint.moved_to, Endpoint.observe. cbn. destruct (endpoint l r1) as [e|]; [|done].
  case_bool_decide as Hd; [by subst|]. by repeat case_match.
Qed.

(** ** The watchdog *)

Definition heard (r : Relay) : Z * Z := (MediaStats.audio_delivered (media_stats r), MediaStats.last_relay_ms (media_stats r)).

(** An event without audio: RTCP, ICE, handshakes, junk, keys, the timer. *)
Definition no_audio (e : Event) : Prop :=
  match e with Datagram from _ _ d _ => classify_media_input d (webrtc S from) <> InRtp | _ => True end.

Lemma same_bind_with {A B C} (f : Relay -> C) (m : M A) (k : A -> M B) :
  same f m -> (forall r a r', m r = (Some a, r') -> same f (k a)) -> same f (m ≫= k).
Proof.
  intros Hm Hk r. unfold mbind, M_bind. specialize (Hm r). destruct (m r) as [[a|] r1] eqn:Hr; cbn [snd] in *; [|done].
  by rewrite (Hk r a r1 Hr).
Qed.

Lemma admit_class l at_ms d (r : Relay) i r' : admit_input S l at_ms d r = (Some i, r') -> i = classify_media_input d (webrtc S l).
Proof. unfold admit_input, mbind, M_bind. destruct (classify_media_input _ _); cbn; by intros [= <- _]. Qed.

Lemma demux_same {C} (f : Relay -> C) l src d ok :
  (forall r o, f (r <| outs := o |>) = f r) -> (forall a r, f (r <| endpoint_a := Some a |>) = f r) ->
  (forall a r, f (r <| endpoint_b := Some a |>) = f r) ->
  (forall r w, f (r <| media_stats := MediaStats.note_drop w (media_stats r) |>) = f r) -> same f (demux l src d ok).
Proof.
  intros Ho Ha Hb Hw. assert (Hs : forall o, same f (send (Enc := Enc) (Dec := Dec) o)) by (intros o; by apply same_modify).
  assert (Hl : same f (_ ← learn_if_unknown l src; stop (A := unit) : M unit)).
  { apply same_bind; [|intros; apply same_stop]. unfold learn_if_unknown. apply same_bind; [apply same_gets|].
    intros [a|]; [apply same_ret|by apply same_endpoint]. }
  unfold Relay.demux, drop_packet. destruct (negb _); [apply same_ret|].
  destruct (classify_packet d); try apply same_ret; try apply same_stop.
  - apply same_bind.
    + destruct (ice_pwd S l); [|apply same_ret]. destruct (validate_binding_request _ _ _); [apply same_ret|].
      apply same_bind; [by apply same_modify|intros; apply same_stop].
    + intros _. apply same_bind; [|intros _; apply Hl]. destruct (build_binding_response_with_integrity _ _ _ _ _); [apply Hs|apply same_ret].
  - apply same_bind; [|intros _; apply Hl]. destruct (dtls_task S l); [apply Hs|apply same_ret].
Qed.

Lemma datagram_heard l at_ms src d ok : classify_media_input d (webrtc S l) <> InRtp -> same heard (relay_datagram l at_ms src d ok).
Proof.
  intros Hc. apply same_bind; [by apply demux_same|intros _]. apply same_bind; [by apply same_modify|intros _].
  apply same_bind; [apply same_gets|intros live]. apply same_bind; [apply same_gets|intros quiet].
  apply same_bind_with.
  { unfold admit_input, drop_packet. apply same_bind; [|intros; apply same_ret].
    destruct (classify_media_input _ _); [done|by apply same_modify; destruct l..|].
    apply same_bind; [by apply same_modify|intros; apply same_stop]. }
  intros r i r' Hi. apply admit_class in Hi. rewrite <- Hi in Hc. clear Hi.
  apply same_bind; [by apply learn_same; destruct l|intros _].
  change (same heard (onward l at_ms i d ok)). apply onward_same.
  - split; [by intros []|by intros []|done].
  - by intros [].
  - intros d'. apply deliver_same; try done; [by destruct l|]. intros r0. destruct i; [done|by destruct l..].
Qed.

Lemma step_heard e r : no_audio e -> heard (step e r) = heard r.
Proof.
  unfold Relay.step. destruct (running r); [|done]. destruct e as [l a src d ok|l src d|a|k c|l a|]; intros He; cbn [handle].
  - by apply datagram_heard.
  - unfold relay_rtcp. revert r. change (same heard (relay_rtcp l src d)). unfold relay_rtcp, drop_packet.
    apply same_bind; [apply same_gets|intros ep]. cbn zeta. destruct (_ || _).
    { apply same_bind; [by apply same_modify|intros; apply same_stop]. }
    apply same_bind; [apply same_gets|intros [dst|]; [|apply same_ret]]. destruct (_ <=? _); [by apply same_modify|apply same_ret].
  - revert r. change (same heard (check_activity S a)). unfold check_activity.
    apply same_bind; [apply same_gets|intros s]. apply same_bind.
    { destruct s as [l|]; [|apply same_ret]. apply same_modify. intros r. unfold MediaStats.claim_one_way_report.
      destruct (_ =? 0); by destruct l. }
    intros _. apply same_bind; [apply same_gets|intros i]. destruct (_ <? i); [|apply same_ret]. by apply same_bind; [|intros].
  - by destruct k.
  - by destruct l.
  - done.
Qed.

Lemma run_heard es r : Forall no_audio es -> heard (run es r) = heard r.
Proof.
  intros He. revert r. induction He as [|e es H He IH]; intros r; [done|]. change (run (e :: es) r) with (run es (step e r)).
  by rewrite IH, step_heard.
Qed.

Lemma claim_heard l s :
  MediaStats.audio_delivered (MediaStats.claim_one_way_report l s).2 = MediaStats.audio_delivered s /\
  MediaStats.last_relay_ms (MediaStats.claim_one_way_report l s).2 = MediaStats.last_relay_ms s.
Proof. unfold MediaStats.claim_one_way_report. destruct (_ =? 0); by destruct l. Qed.

(** Only audio keeps a call alive. Whatever else arrives since the last
    audio was delivered (RTCP, ICE checks, handshakes, junk), in whatever
    quantity, the first tick past the limit stops the relay and says so, and
    no tick before it does; a call that never had audio counts from its
    start. *)
Theorem silent_call_ends es at_ms r :
  Forall no_audio es -> running (run es r) = true ->
  let idle := (if MediaStats.audio_delivered (media_stats r) =? 0 then at_ms
               else sat_sub at_ms (MediaStats.last_relay_ms (media_stats r))) / 1000 in
  let r' := step (Tick at_ms) (run es r) in
  running r' = negb (rtp_timeout_secs S <? idle) /\
  outs r' = outs (run es r) ++ (if rtp_timeout_secs S <? idle then [TimedOut (session_id S)] else []).
Proof.
  intros He Hr idle r'. assert (Hh := run_heard es r He). unfold r', Relay.step. rewrite Hr. clear r'.
  set (r1 := run es r) in *. clearbody r1. injection Hh as Ha Hl. cbn [handle]. unfold check_activity.
  rewrite (bind_some (gets _) _ _ _ _ eq_refl).
  set (silent := MediaStats.one_way_leg _ _ _). clearbody silent.
  assert (Hc : exists r2, (match silent with
     | Some l => count (fun s => (MediaStats.claim_one_way_report l s).2) | None => mret tt end : M unit) r1 = (Some tt, r2) /\
     heard r2 = heard r1 /\ running r2 = running r1 /\ outs r2 = outs r1).
  { destruct silent as [l|]; [|by exists r1]. eexists. split; [reflexivity|]. split; [|done].
    unfold heard. change (media_stats (r1 <| media_stats := ?m |>)) with m. destruct (claim_heard l (media_stats r1)) as [-> ->]. done. }
  destruct Hc as (r2 & Hx & Hh2 & Hr2 & Ho2). rewrite (bind_some _ _ _ _ _ Hx), (bind_some (gets _) _ _ _ _ eq_refl). clear Hx.
  injection Hh2 as Ha2 Hl2. unfold MediaStats.idle_ms, MediaStats.since_last_relay_ms. rewrite Ha2, Hl2, Ha, Hl.
  assert (Hi : default at_ms (if MediaStats.audio_delivered (media_stats r) =? 0 then None
     else Some (sat_sub at_ms (MediaStats.last_relay_ms (media_stats r)))) / 1000 = idle) by by unfold idle; case_match.
  rewrite Hi. clear Hi. clearbody idle. destruct (rtp_timeout_secs S <? idle).
  - split; [done|]. change (outs r2 ++ [TimedOut (session_id S)] = outs r1 ++ [TimedOut (session_id S)]). by rewrite Ho2.
  - split; [by change (running r2 = true); rewrite Hr2|]. rewrite app_nil_r. exact Ho2.
Qed.

(** ** Every packet is accounted for *)

Definition total (s : MediaStats.CallMediaStats) : Z :=
  MediaStats.tx_packets (MediaStats.caller s) + MediaStats.tx_packets (MediaStats.callee s) + foldr Z.add 0 (MediaStats.drops s).

(** Packets delivered and packets dropped, as 64-bit counters add up. *)
Definition tally (r : Relay) : Z := wrapw 64 (total (media_stats r)).

(** WebRTC legs have finished their handshakes. *)
Definition ready (r : Relay) : Prop :=
  length (MediaStats.drops (media_stats r)) = 8%nat /\
  forall l, webrtc S l = true -> is_Some (slot (recv_slot S l) r) /\ is_Some (slot (send_slot S l) r).

Lemma sum_alter f (l : list Z) i x :
  l !! i = Some x -> foldr Z.add 0 (alter f i l) = foldr Z.add 0 l - x + f x.
Proof.
  revert i. induction l as [|y l IH]; intros [|i]; cbn [alter list_alter foldr]; try done; intros H.
  - injection H as ->. lia.
  - change (list_alter f i l) with (alter f i l). rewrite (IH i H). lia.
Qed.

Lemma wrap_add a b : wrapw 64 (a + wrapw 64 b) = wrapw 64 (a + b).
Proof. unfold wrapw. by rewrite Zplus_mod_idemp_r. Qed.

Lemma total_dropped w s : length (MediaStats.drops s) = 8%nat -> wrapw 64 (total (MediaStats.note_drop w s)) = wrapw 64 (total s + 1).
Proof.
  intros Hl. destruct (lookup_lt_is_Some_2 (MediaStats.drops s) (MediaStats.index w)) as [x Hx]; [rewrite Hl; destruct w; cbn; lia|].
  unfold total. change (MediaStats.drops (MediaStats.note_drop w s)) with (alter (fun n => MediaStats.fetch_add n 1) (MediaStats.index w) (MediaStats.drops s)).
  rewrite (sum_alter _ _ _ x Hx). unfold MediaStats.fetch_add.
  change (MediaStats.caller (MediaStats.note_drop w s)) with (MediaStats.caller s).
  change (MediaStats.callee (MediaStats.note_drop w s)) with (MediaStats.callee s).
  rewrite Z.add_assoc, wrap_add. f_equal. lia.
Qed.

Lemma total_sent input at_ms l n s :
  wrapw 64 (total (match input with InRtp => MediaStats.note_tx at_ms l n s | _ => MediaStats.note_tx_non_audio l n s end)) =
  wrapw 64 (total s + 1).
Proof.
  assert (H : forall a b c, wrapw 64 (wrapw 64 (a + 1) + b + c) = wrapw 64 (a + b + c + 1)).
  { intros. rewrite <- Z.add_assoc, (Z.add_comm (wrapw 64 _)), wrap_add. f_equal. lia. }
  assert (H' : forall a b c, wrapw 64 (a + wrapw 64 (b + 1) + c) = wrapw 64 (a + b + c + 1)).
  { intros. rewrite (Z.add_comm a), <- Z.add_assoc, (Z.add_comm (wrapw 64 _)), wrap_add. f_equal. lia. }
  destruct input, l; first [apply H | apply H'].
Qed.

Definition counts {A} (n : option A -> Z) (m : M A) : Prop :=
  forall r, ready r -> let '(o, r') := m r in ready r' /\ tally r' = wrapw 64 (tally r + n o).

(** Before the packet leaves, only a drop counts; the whole is one packet. *)
Definition on_drop {A} (o : option A) : Z := match o with Some _ => 0 | None => 1 end.
Definition once {A} (o : option A) : Z := 1.

Lemma tally_wrapped r : wrapw 64 (tally r) = tally r.
Proof. unfold tally, wrapw. by rewrite Zmod_mod. Qed.

Lemma counts_bind {A B} (n : option B -> Z) (m : M A) (k : A -> M B) :
  n None = 1 -> counts on_drop m -> (forall a, counts n (k a)) -> counts n (m ≫= k).
Proof.
  intros Hn Hm Hk r Hr. specialize (Hm r Hr). unfold mbind, M_bind. destruct (m r) as [[a|] r1]; destruct Hm as [Hr1 Ht].
  - specialize (Hk a r1 Hr1). destruct (k a r1) as [o r2]. destruct Hk as [Hr2 Ht2]. split; [done|]. cbn [on_drop] in Ht.
    rewrite Z.add_0_r, tally_wrapped in Ht. by rewrite Ht2, Ht.
  - split; [done|]. by rewrite Hn.
Qed.

Definition neutral (g : Relay -> Relay) : Prop := forall r, ready r -> ready (g r) /\ tally (g r) = tally r.

Lemma counts_neutral g : neutral g -> counts on_drop (modify g).
Proof. intros H r Hr. destruct (H r Hr) as [H1 H2]. split; [done|]. by rewrite H2, Z.add_0_r, tally_wrapped. Qed.

Lemma counts_ret {A} (a : A) : counts on_drop (mret a).
Proof. intros r Hr. split; [done|]. by rewrite Z.add_0_r, tally_wrapped. Qed.

Lemma counts_gets {A} (f : Relay -> A) : counts on_drop (gets f).
Proof. intros r Hr. split; [done|]. by rewrite Z.add_0_r, tally_wrapped. Qed.

Lemma ready_stats r s : length (MediaStats.drops s) = 8%nat -> ready r -> ready (r <| media_stats := s |>).
Proof. intros Hl [_ H]. split; [done|]. intros l Hw. specialize (H l Hw). by destruct (recv_slot S l), (send_slot S l). Qed.

Lemma note_drop_ready w r : ready r -> ready (r <| media_stats := MediaStats.note_drop w (media_stats r) |>).
Proof. intros Hr. apply ready_stats; [|done]. unfold MediaStats.note_drop. cbn. by rewrite length_alter, (proj1 Hr). Qed.

Lemma dropped_tally w r : ready r -> tally (r <| media_stats := MediaStats.note_drop w (media_stats r) |>) = wrapw 64 (tally r + 1).
Proof.
  intros [Hl _]. unfold tally at 1. change (media_stats (r <| media_stats := ?s |>)) with s. rewrite total_dropped by done.
  unfold tally. by rewrite Z.add_comm, <- wrap_add, Z.add_comm.
Qed.

Lemma counts_drop {A} w : counts on_drop (drop_packet (A := A) w).
Proof. intros r Hr. split; [by apply note_drop_ready|]. by apply dropped_tally. Qed.

Lemma counts_final_drop w : counts once (count (MediaStats.note_drop w) : M unit).
Proof. intros r Hr. split; [by apply note_drop_ready|]. by apply dropped_tally. Qed.

Lemma counts_stats g : (forall s, total (g s) = total s /\ length (MediaStats.drops (g s)) = length (MediaStats.drops s)) ->
  counts on_drop (count g : M unit).
Proof.
  intros H. apply counts_neutral. intros r Hr. destruct (H (media_stats r)) as [Ht Hl]. split.
  - apply ready_stats; [rewrite Hl; apply Hr|done].
  - unfold tally. change (media_stats (r <| media_stats := ?s |>)) with s. by rewrite Ht.
Qed.

(** Changes that touch neither counters nor keys. *)
Lemma counts_elsewhere g :
  (forall r, media_stats (g r) = media_stats r /\ forall k, is_Some (slot k r) -> is_Some (slot k (g r))) -> counts on_drop (modify g).
Proof.
  intros H. apply counts_neutral. intros r [Hl Hk]. destruct (H r) as [Hm Hs]. split; [|by unfold tally; rewrite Hm].
  split; [by rewrite Hm|]. intros l Hw. destruct (Hk l Hw). split; by apply Hs.
Qed.

Lemma counts_endpoint l a : counts on_drop (set_endpoint l a : M unit).
Proof. apply counts_elsewhere. intros r. destruct l; (split; [done|by intros []]). Qed.

Lemma counts_slot k c : counts on_drop (modify (with_slot k c) : M unit).
Proof. apply counts_elsewhere. intros r. split; [by destruct k|]. intros k' H. destruct k, k'; first [done | by eexists]. Qed.

Lemma counts_ts l m : counts on_drop (set_ts_map_from l m : M unit).
Proof. apply counts_elsewhere. intros r. destruct l; (split; [done|by intros []]). Qed.

Lemma counts_tc l t : counts on_drop (set_transcoder_from l t : M unit).
Proof. apply counts_elsewhere. intros r. destruct l; (split; [done|by intros []]). Qed.

#[local] Hint Resolve counts_ret counts_gets counts_drop counts_endpoint counts_slot counts_ts counts_tc : relay.

Ltac tallying :=
  repeat first
    [ solve [auto with relay]
    | apply counts_bind; [done| |intros ?]
    | match goal with
      | |- counts _ (match ?x with _ => _ end) => destruct x
      | |- counts _ (if ?b then _ else _) => destruct b
      end ].

Lemma counts_admit l at_ms d : counts on_drop (admit_input S l at_ms d : M _).
Proof.
  unfold admit_input. destruct (classify_media_input d (webrtc S l)) eqn:Hc; tallying; apply counts_stats; intros s.
  - destruct (rtp_input _ _ Hc) as [_ Hl]. unfold MediaStats.note_rx. destruct (Nat.ltb_spec (length d) 12); [lia|].
    unfold MediaStats.leg_note_rx, MediaStats.note_seq, total. destruct l; cbn; by repeat case_match.
  - by destruct l.
  - by destruct l.
Qed.

Lemma counts_learn l src d ssrc q : counts on_drop (learn S l src d ssrc q : M unit).
Proof. unfold learn. tallying. all: apply counts_stats; intros s; by destruct l. Qed.

Lemma counts_decrypt l d : counts on_drop (decrypt l d).
Proof.
  intros r Hr. unfold Relay.decrypt.
  destruct (slot (recv_slot S l) r) as [c|] eqn:Hs.
  - rewrite (bind_some (gets _) _ _ _ _ eq_refl), Hs. revert r Hr Hs.
    cut (counts on_drop (let '(res, c') := decrypt_srtp aes_ctr hmac_sha1 c d in
      _ ← modify (with_slot (recv_slot S l) c'); match res with Ok plain => mret plain | Err _ => drop_packet MediaStats.SrtpDrop end : M bytes)).
    { intros H r Hr _. by apply H. }
    tallying.
  - rewrite (bind_some (gets _) _ _ _ _ eq_refl), Hs. destruct (webrtc S l) eqn:Hw; [|by apply counts_ret].
    destruct (proj2 Hr l Hw) as [[c Hc] _]. congruence.
Qed.

Lemma counts_encrypt l d : counts on_drop (encrypt l d).
Proof.
  intros r Hr. unfold Relay.encrypt. destruct (slot (send_slot S l) r) as [c|] eqn:Hs.
  - rewrite (bind_some (gets _) _ _ _ _ eq_refl), Hs. revert r Hr Hs.
    cut (counts on_drop (let '(res, c') := encrypt_rtp aes_ctr hmac_sha1 c d in
      _ ← modify (with_slot (send_slot S l) c'); match res with Ok sealed => mret sealed | Err _ => drop_packet MediaStats.SrtpDrop end : M bytes)).
    { intros H r Hr _. by apply H. }
    tallying.
  - rewrite (bind_some (gets _) _ _ _ _ eq_refl), Hs. destruct (webrtc S l) eqn:Hw; [|by apply counts_ret].
    destruct (proj2 Hr l Hw) as [_ [c Hc]]. congruence.
Qed.

Lemma counts_convert l d : counts on_drop (convert l d).
Proof. unfold Relay.convert, relay_event, transcode_audio, rebuild. tallying. Qed.

Lemma counts_deliver l at_ms input d ok : counts once (deliver l at_ms input d ok : M unit).
Proof.
  unfold deliver. apply counts_bind; [done|apply counts_gets|]. intros [dst|]; [|apply counts_final_drop].
  apply counts_bind; [done|apply counts_elsewhere; by intros r; split; [done|intros []]|]. intros _.
  destruct ok; cbn [negb]; [|apply counts_final_drop].
  apply counts_bind; [done|apply counts_elsewhere; intros r; destruct l; by split; [done|intros []]|]. intros _.
  set (g := match input with InRtp => MediaStats.note_tx at_ms (other l) (blen d) | _ => MediaStats.note_tx_non_audio (other l) (blen d) end).
  assert (Hg : counts once (count g : M unit)); [|by destruct input].
  intros r Hr. assert (Hlen : length (MediaStats.drops (g (media_stats r))) = 8%nat).
  { rewrite <- (proj1 Hr). unfold g. by destruct input, l. }
  split; [by apply ready_stats|]. unfold tally at 1. change (media_stats (r <| media_stats := ?s |>)) with s.
  assert (Ht : total (g (media_stats r)) = total (match input with InRtp => MediaStats.note_tx at_ms (other l) (blen d) (media_stats r)
                 | _ => MediaStats.note_tx_non_audio (other l) (blen d) (media_stats r) end)) by by destruct input.
  rewrite Ht, total_sent. unfold tally. by rewrite Z.add_comm, <- wrap_add, Z.add_comm.
Qed.

(** A media packet: on a WebRTC leg, what the demultiplexer takes for RTP. *)
Definition media_packet (e : Event) : Prop :=
  match e with Datagram from _ _ d _ => webrtc S from = true -> classify_packet d = MuxRtp | _ => False end.

Lemma packet_counted l at_ms src d ok :
  (webrtc S l = true -> classify_packet d = MuxRtp) -> counts once (relay_datagram l at_ms src d ok).
Proof.
  intros Hm. unfold Relay.relay_datagram. assert (Hd : demux l src d ok = mret tt).
  { unfold Relay.demux. destruct (webrtc S l); [by rewrite Hm|done]. }
  rewrite Hd. apply counts_bind; [done|apply counts_ret|intros _].
  apply counts_bind; [done|apply counts_elsewhere; by intros r; split; [done|intros []]|intros _].
  do 2 (apply counts_bind; [done|apply counts_gets|intros ?]).
  apply counts_bind; [done|apply counts_admit|intros input]. apply counts_bind; [done|apply counts_learn|intros _].
  apply counts_bind; [done|apply counts_decrypt|intros p]. apply counts_bind; [done|apply counts_convert|intros b].
  apply counts_bind; [done|apply counts_encrypt|intros w]. apply counts_deliver.
Qed.

Lemma datagram_running l a src d ok : same (running (Enc := Enc) (Dec := Dec)) (relay_datagram l a src d ok).
Proof.
  unfold Relay.relay_datagram. apply same_bind; [|intros _].
  { by apply demux_same. }
  apply same_bind; [by apply same_modify|intros _]. do 2 (apply same_bind; [apply same_gets|intros ?]).
  apply same_bind; [by apply admit_same|intros input]. apply same_bind; [by apply learn_same|intros _].
  change (same (running (Enc := Enc) (Dec := Dec)) (onward l a input d ok)).
  apply onward_same; [split; by intros []|by intros []|]. intros d'. apply deliver_same; by destruct l.
Qed.

(** C20: packets in, packets out, and the difference explained. While both
    legs have the keys they need, every media packet received is counted
    exactly once: as delivered to the other leg, or under the one reason it
    was dropped for. *)
Theorem packets_accounted es r :
  ready r -> running r = true -> Forall media_packet es ->
  tally (run es r) = wrapw 64 (tally r + Z.of_nat (length es)).
Proof.
  intros Hr Hrun Hes. revert r Hr Hrun. induction Hes as [|e es He Hes IH]; intros r Hr Hrun.
  { cbn. by rewrite Z.add_0_r, tally_wrapped. }
  change (run (e :: es) r) with (run es (step e r)). destruct e as [l a src d ok| | | | |]; try done.
  assert (Hs : step (Datagram l a src d ok) r = (relay_datagram l a src d ok r).2) by by unfold Relay.step; rewrite Hrun.
  assert (Hc := packet_counted l a src d ok He r Hr).
  assert (Hk := datagram_running l a src d ok r). rewrite Hs.
  destruct (relay_datagram l a src d ok r) as [o r1]. destruct Hc as [Hr1 Ht]. cbn [snd] in *. rewrite IH; [|done|congruence].
  rewrite Ht. cbn [length]. unfold once. rewrite (Z.add_comm (wrapw 64 _)), wrap_add. f_equal. lia.
Qed.
End stages.

Module Witness.
Import Srtp.Witness Transcoder.Witness.
#[local] Existing Instance canonical_iter.

Definition peer_a : SocketAddr := mkAddr (V4 [192; 0; 2; 1]) 4000.
Definition peer_b : SocketAddr := mkAddr (V4 [203; 0; 113; 5]) 6000.
Definition stranger : SocketAddr := mkAddr (V4 [198; 51; 100; 66]) 9.

(** A plain caller, a callee with SDES keys, moves enforced. *)
Definition call : Session :=
  mkSession "s1" (Some peer_a) (Some peer_b) (Endpoint.mkPolicy Endpoint.Moves (secs 5)) 90 false false None None None None false false.

Definition r0 : Relay Z Z := start call None None None None (Some (ctx 16)) None None.
Abbreviation run := (run aes mac (fun b => b) toy_enc toy_dec call).
Abbreviation step := (step aes mac (fun b => b) toy_enc toy_dec call).

(** What the caller says leaves as the callee's SRTP. *)
Lemma media_guarded_witness :
  exists wire bare, outs (step (Datagram Caller 20 peer_a pkt true) r0) = [RtpOut Callee peer_b wire true] /\
    (encrypt_rtp aes mac (ctx 16) bare).1 = Ok wire.
Proof.
  destruct (media_guarded aes mac (fun b => b) toy_enc toy_dec call (Datagram Caller 20 peer_a pkt true) r0)
    as [H|[(reply & H & _)|[H|(dst & wire & plain & bare & Ho & He & _ & Hs)]]];
    [by vm_compute in H|by vm_compute in H|by vm_compute in H|].
  exists wire, bare. split; [|exact Hs]. rewrite Ho. vm_compute in He. by injection He as <-.
Defined.

(** Two packets of a made-up stream from a stranger, in the middle of a call. *)
Definition forged (n : Z) : bytes := [128; 0; 0; n; 0; 0; 0; 0; 6; 6; 6; 6; 1; 2].
Definition busy : Relay Z Z := step (Datagram Caller 20 peer_a pkt true) r0.

Lemma two_packets_take_over_witness :
  endpoint Caller busy = Some peer_a /\ endpoint Caller (run [Datagram Caller 30 stranger (forged 1) true] busy) = Some peer_a /\
  endpoint Caller (run [Datagram Caller 30 stranger (forged 1) true; Datagram Caller 31 stranger (forged 2) true] busy) = Some stranger.
Proof.
  split; [by vm_compute|]. split; [by vm_compute|].
  apply two_packets_take_over; by vm_compute.
Defined.

(** RTCP goes on; the audio stopped at 20 ms. *)
Definition report : bytes := [129; 201; 0; 1; 0; 0; 0; 9].
Definition reports : list Event := [Rtcp Caller peer_a report; Rtcp Caller peer_a report].

Lemma silent_call_ends_witness :
  running (step (Tick 91020) (run reports busy)) = false /\ running (step (Tick 91019) (run reports busy)) = true.
Proof.
  assert (Hf : Forall (no_audio call) reports) by by repeat constructor.
  split.
  - rewrite (proj1 (silent_call_ends aes mac (fun b => b) toy_enc toy_dec call reports 91020 busy Hf ltac:(by vm_compute))). by vm_compute.
  - rewrite (proj1 (silent_call_ends aes mac (fun b => b) toy_enc toy_dec call reports 91019 busy Hf ltac:(by vm_compute))). by vm_compute.
Defined.

(** A packet delivered, one that is not RTP, one the callee's socket refuses. *)
Definition three : list Event :=
  [Datagram Caller 20 peer_a pkt true; Datagram Caller 40 peer_a [1; 2; 3] true; Datagram Caller 60 peer_a (forged 3) false].

Lemma packets_accounted_witness : tally (run three r0) = 3.
Proof.
  rewrite (packets_accounted aes mac (fun b => b) toy_enc toy_dec call three r0); [by vm_compute| |done|by repeat constructor].
  split; [by vm_compute|]. by intros [].
Defined.

(** The callee of a WebRTC call before its handshake: the packet is dropped
    and counted nowhere. *)
Definition browser : Session :=
  mkSession "s2" (Some peer_a) (Some peer_b) Endpoint.default_policy 90 false true None None None None false true.

Lemma unkeyed_callee_uncounted :
  let r := start (Enc := Z) (Dec := Z) browser None None None None None None None in
  let r' := Relay.step aes mac (fun b => b) toy_enc toy_dec browser (Datagram Caller 20 peer_a pkt true) r in
  outs r' = [] /\ tally r' = 0.
Proof. by vm_compute. Qed.
End Witness.
