(* ===== verification/SdpAudio.v ===== *)
(** * Audio formats of an SDP body (transcoding.rs)

    Which formats each side of a call offers, which codec it prefers, and
    whether the two sides need a transcoder. *)

From S2P Require Import Prelude Str Transcoder.

Definition MAX_PAYLOAD_TYPE : Z := 127.
Definition u8_max : Z := 255.

(** [s.parse::<u8>().ok().filter(|pt| pt <= MAX_PAYLOAD_TYPE)] *)
Definition parse_pt (s : string) : option Z :=
  match parse_uint u8_max s with
  | Some pt => if pt <=? MAX_PAYLOAD_TYPE then Some pt else None
  | None => None
  end.

(** ** Rewriting *)

Definition prefer_order (preferred : string) (pts : list string) : list string :=
  (if bool_decide (preferred ∈ pts) then [preferred] else [])
  ++ List.filter (fun pt => negb (seqb pt preferred)) pts.

Definition prefer_line (preferred : string) (line : string) : string :=
  if starts_with "m=audio" line then
    match split_whitespace line with
    | p0 :: p1 :: p2 :: ((_ :: _) as pts) =>
        p0 +:+ " " +:+ p1 +:+ " " +:+ p2 +:+ " " +:+ join " " (prefer_order preferred pts)
    | _ => line
    end
  else line.

Definition sdp_prefer_codec (sdp : string) (preferred_pt : Z) : string :=
  join CRLF (map (prefer_line (show preferred_pt)) (lines sdp)).

Fixpoint first_audio_pts (ls : list string) : list Z :=
  match ls with
  | [] => []
  | line :: ls =>
      if starts_with "m=audio" line && (3 <? length (split_whitespace line))%nat
      then omap parse_pt (drop 3 (split_whitespace line))
      else first_audio_pts ls
  end.

Definition sdp_audio_pts (sdp : string) : list Z := first_audio_pts (lines sdp).

Definition sdp_has_opus (sdp : string) : bool :=
  existsb (fun l => contains "opus" (to_ascii_lowercase l)) (lines sdp).

Definition sdp_has_pcmu (sdp : string) : bool := bool_decide (PT_PCMU ∈ sdp_audio_pts sdp).

(** ** Formats *)

Record AudioFormat := mkFormat {
  pt : Z;
  name : string;
  format_rate : Z;
  named : bool
}.

#[export] Instance AudioFormat_eq_dec : EqDecision AudioFormat.
Proof. solve_decision. Defined.

Definition is_voice (f : AudioFormat) : bool :=
  named f && negb (seqb (name f) "telephone-event" || seqb (name f) "cn" || seqb (name f) "red").

Definition codec (f : AudioFormat) : Codec :=
  if seqb (name f) "pcmu" then Pcmu
  else if seqb (name f) "pcma" then Pcma
  else if seqb (name f) "opus" then Opus
  else Unknown (pt f).

Definition static_format (pt : Z) : option (string * Z) :=
  match pt with
  | 0 => Some ("pcmu", 8000)
  | 13 => Some ("cn", 8000)
  | 19 => Some ("cn", 8000)
  | 3 => Some ("gsm", 8000)
  | 4 => Some ("g723", 8000)
  | 5 => Some ("dvi4", 8000)
  | 8 => Some ("pcma", 8000)
  | 9 => Some ("g722", 8000)
  | 10 => Some ("l16", 44100)
  | 11 => Some ("l16", 44100)
  | 18 => Some ("g729", 8000)
  | _ => None
  end.

(** The lines of the first audio section whose port is not zero. *)
Definition opens_audio (rest : string) : bool :=
  starts_with "audio" rest
  && negb (match split_whitespace rest !! 1%nat with
           | Some p => seqb (trim p) "0" | None => false end).

Fixpoint audio_section (in_audio : bool) (ls : list string) : list string :=
  match ls with
  | [] => []
  | line :: ls =>
      match strip_prefix "m=" line with
      | Some rest =>
          if in_audio then []
          else if opens_audio rest then line :: audio_section true ls
          else audio_section false ls
      | None => if in_audio then line :: audio_section true ls else audio_section false ls
      end
  end.

(** [a=rtpmap:<pt> <name>/<rate>[/<channels>]] *)
Definition rtpmap_of (line : string) : option (Z * (string * Z)) :=
  match (match strip_prefix "a=rtpmap:" line with
         | Some r => Some r | None => strip_prefix "A=rtpmap:" line end) with
  | None => None
  | Some rest =>
      let parts := split_whitespace rest in
      match parts !! 0%nat ≫= parse_pt, parts !! 1%nat with
      | Some pt, Some spec =>
          let fields := split "/" spec in
          match fields !! 0%nat with
          | Some nm =>
              if seqb nm "" then None
              else Some (pt, (to_ascii_lowercase nm,
                              default 8000 (fields !! 1%nat ≫= parse_uint u32_max)))
          | None => None
          end
      | _, _ => None
      end
  end.

Definition rtpmaps (section : list string) : gmap Z (string * Z) :=
  fold_left (fun m line => match rtpmap_of line with Some (k, v) => <[k := v]> m | None => m end)
    section ∅.

Definition resolve (mapped : gmap Z (string * Z)) (pt : Z) : AudioFormat :=
  match mapped !! pt with
  | Some (nm, rate) => mkFormat pt nm rate true
  | None =>
      match static_format pt with
      | Some (nm, rate) => mkFormat pt nm rate true
      | None => mkFormat pt ("pt" +:+ show pt) 8000 false
      end
  end.

Definition sdp_audio_formats (sdp : string) : list AudioFormat :=
  match audio_section false (lines sdp) with
  | [] => []
  | (m_line :: _) as section =>
      map (resolve (rtpmaps section)) (omap parse_pt (drop 3 (split_whitespace m_line)))
  end.

Definition sdp_primary_format (sdp : string) : option AudioFormat :=
  head (List.filter is_voice (sdp_audio_formats sdp)).

Definition sdp_primary_codec (sdp : string) : Codec :=
  match sdp_primary_format sdp with Some f => codec f | None => Unknown 0 end.

Definition voice (sdp : string) : list (string * Z) :=
  map (fun f => (name f, format_rate f)) (List.filter is_voice (sdp_audio_formats sdp)).

Definition needs_transcoding (caller_sdp callee_sdp : string) : bool :=
  let caller := voice caller_sdp in
  let callee := voice callee_sdp in
  match caller, callee with
  | [], _ | _, [] => false
  | _, _ => negb (existsb (fun c => bool_decide (c ∈ callee)) caller)
  end.

Definition build_g711_sdp (local_ip : string) (rtp_port : Z) : string :=
  "v=0" +:+ CRLF +:+ "o=SBC 0 0 IN IP4 " +:+ local_ip +:+ CRLF +:+ "s=SBC Session" +:+ CRLF
  +:+ "c=IN IP4 " +:+ local_ip +:+ CRLF +:+ "t=0 0" +:+ CRLF
  +:+ "m=audio " +:+ show rtp_port +:+ " RTP/AVP 0 8" +:+ CRLF
  +:+ "a=rtpmap:0 PCMU/8000" +:+ CRLF +:+ "a=rtpmap:8 PCMA/8000" +:+ CRLF +:+ "a=sendrecv" +:+ CRLF.

Definition build_opus_sdp (local_ip : string) (rtp_port : Z) : string :=
  "v=0" +:+ CRLF +:+ "o=SBC 0 0 IN IP4 " +:+ local_ip +:+ CRLF +:+ "s=SBC Session" +:+ CRLF
  +:+ "c=IN IP4 " +:+ local_ip +:+ CRLF +:+ "t=0 0" +:+ CRLF
  +:+ "m=audio " +:+ show rtp_port +:+ " RTP/AVP 111 0 8" +:+ CRLF
  +:+ "a=rtpmap:111 opus/48000/2" +:+ CRLF +:+ "a=fmtp:111 useinbandfec=1" +:+ CRLF
  +:+ "a=rtpmap:0 PCMU/8000" +:+ CRLF +:+ "a=rtpmap:8 PCMA/8000" +:+ CRLF +:+ "a=sendrecv" +:+ CRLF.

(** ** Lemmas *)

Lemma digits_trim s : sall is_digit s = true -> trim s = s.
Proof.
  intros H. apply (sall_impl _ _ _ digit_not_space) in H. unfold trim, trim_by.
  assert (Ht : trim_end_by Ascii.is_space s = s).
  { induction s as [|c s IH]; [done|]. simpl in *. to_prop. rewrite IH by done.
    destruct s; [by rewrite HP|done]. }
  rewrite Ht. destruct s as [|c s]; [done|]. simpl in *. to_prop. by rewrite HP.
Qed.

Lemma show_nonzero n : 0 < n -> show n <> "0".
Proof. intros Hn E. change "0" with (show 0) in E. apply (inj (show : Z -> string)) in E. lia. Qed.

Lemma media_words port rest :
  0 <= port ->
  split_whitespace ("audio " +:+ show port +:+ String " " rest)
  = "audio" :: show port :: split_whitespace rest.
Proof.
  intros Hp. destruct (show_spec port Hp) as (H1 & _ & H3).
  change ("audio " +:+ show port +:+ String " " rest)
    with ("audio" +:+ String " " (show port +:+ String " " rest)).
  rewrite words_cons by done. f_equal. apply words_cons; [|done].
  exact (sall_impl _ _ _ digit_not_space H1).
Qed.

Lemma opens_audio_port port rest :
  0 < port -> opens_audio ("audio " +:+ show port +:+ String " " rest) = true.
Proof.
  intros Hp. unfold opens_audio. rewrite media_words by lia. cbn [lookup list_lookup].
  destruct (show_spec port) as (H1 & _ & _); [lia|].
  by rewrite digits_trim, seqb_false by (done || by apply show_nonzero).
Qed.

(** A body in which the lines before the media line name no media. *)
Lemma section_at ls m rest tail :
  Forall (fun l => strip_prefix "m=" l = None) ls ->
  strip_prefix "m=" m = Some rest -> opens_audio rest = true ->
  Forall (fun l => strip_prefix "m=" l = None) tail ->
  audio_section false (ls ++ m :: tail) = m :: tail.
Proof.
  intros Hls Hm Ho Ht. induction Hls as [|l ls Hl Hls IH]; cbn [app audio_section].
  - rewrite Hm, Ho. f_equal. induction Ht as [|l tail Hl Ht IH]; [done|]. cbn [audio_section].
    by rewrite Hl, IH.
  - by rewrite Hl.
Qed.

Lemma origin_off l ip rest :
  no_lf l = true -> no_lf ip = true ->
  lines (l +:+ ip +:+ CRLF +:+ rest) = (l +:+ ip) :: lines rest.
Proof.
  intros Hl Hip. rewrite <- (sapp_assoc l). apply line_off. unfold no_lf. rewrite sall_app.
  by apply andb_true_intro.
Qed.

Lemma head_lines ip port rest :
  no_lf ip = true -> 0 <= port ->
  lines ("v=0" +:+ CRLF +:+ "o=SBC 0 0 IN IP4 " +:+ ip +:+ CRLF +:+ "s=SBC Session" +:+ CRLF
         +:+ "c=IN IP4 " +:+ ip +:+ CRLF +:+ "t=0 0" +:+ CRLF +:+ "m=audio " +:+ show port +:+ rest)
  = ["v=0"; "o=SBC 0 0 IN IP4 " +:+ ip; "s=SBC Session"; "c=IN IP4 " +:+ ip; "t=0 0"]
    ++ lines ("m=audio " +:+ show port +:+ rest).
Proof.
  intros Hip Hp. by rewrite line_off, origin_off, line_off, origin_off, line_off.
Qed.

(** The formats of a body whose only media is one audio line followed by
    attributes; [pts] and [attrs] are literals, so the right side computes. *)
Lemma built_formats ip port pts attrs :
  no_lf ip = true -> 0 < port -> no_lf pts = true ->
  Forall (fun l => strip_prefix "m=" l = None) (lines attrs) ->
  sdp_audio_formats
    ("v=0" +:+ CRLF +:+ "o=SBC 0 0 IN IP4 " +:+ ip +:+ CRLF +:+ "s=SBC Session" +:+ CRLF
     +:+ "c=IN IP4 " +:+ ip +:+ CRLF +:+ "t=0 0" +:+ CRLF +:+ "m=audio " +:+ show port +:+
     String " " pts +:+ CRLF +:+ attrs)
  = map (resolve (rtpmaps (lines attrs))) (omap parse_pt (drop 1 (split_whitespace pts))).
Proof.
  intros Hip Hp Hpts Ha. unfold sdp_audio_formats. rewrite head_lines by (done || lia).
  set (m := "m=audio " +:+ show port +:+ String " " pts).
  assert (Hd := show_spec port ltac:(lia)).
  assert (Hl : no_lf (show port) = true).
  { refine (sall_impl _ _ _ _ (proj1 Hd)). intros c Hc. destruct c as [[] [] [] [] [] [] [] []]; done. }
  assert (lines ("m=audio " +:+ show port +:+ String " " pts +:+ CRLF +:+ attrs) = m :: lines attrs) as ->.
  { replace ("m=audio " +:+ show port +:+ String " " pts +:+ CRLF +:+ attrs)
      with (m +:+ CRLF +:+ attrs) by (unfold m; by rewrite !sapp_assoc).
    apply line_off. unfold m, no_lf in *. rewrite !sall_app, Hl. exact Hpts. }
  rewrite (section_at _ m ("audio " +:+ show port +:+ String " " pts)); 
    [|by repeat constructor|done|by apply opens_audio_port|done].
  assert (Hw : split_whitespace m = "m=audio" :: show port :: split_whitespace pts).
  { unfold m. change ("m=audio " +:+ show port +:+ String " " pts)
      with ("m=audio" +:+ String " " (show port +:+ String " " pts)).
    rewrite words_cons by done. f_equal. apply words_cons; [|apply Hd].
    exact (sall_impl _ _ _ digit_not_space (proj1 Hd)). }
  rewrite Hw. unfold rtpmaps. cbn [fold_left].
  assert (rtpmap_of m = None) as -> by done. done.
Qed.

(** ** Theorems *)

Definition fmt_opus : AudioFormat := mkFormat 111 "opus" 48000 true.
Definition fmt_pcmu : AudioFormat := mkFormat 0 "pcmu" 8000 true.
Definition fmt_pcma : AudioFormat := mkFormat 8 "pcma" 8000 true.

(** The bodies the program builds read back as what they mean to offer,
    whatever the address text (on one line) and the port: PCMU then PCMA for a
    legacy trunk, Opus first for a WebRTC client; each prefers its first
    format, and the two need no transcoder between them. *)
Theorem built_sdp_offers ip port :
  no_lf ip = true -> 0 < port <= u16_max ->
  sdp_audio_formats (build_g711_sdp ip port) = [fmt_pcmu; fmt_pcma] /\
  sdp_audio_formats (build_opus_sdp ip port) = [fmt_opus; fmt_pcmu; fmt_pcma] /\
  sdp_primary_codec (build_g711_sdp ip port) = Pcmu /\
  sdp_primary_codec (build_opus_sdp ip port) = Opus /\
  needs_transcoding (build_g711_sdp ip port) (build_opus_sdp ip port) = false.
Proof.
  intros Hip [Hp _].
  assert (Hg : sdp_audio_formats (build_g711_sdp ip port) = [fmt_pcmu; fmt_pcma]).
  { refine (built_formats ip port "RTP/AVP 0 8" _ Hip Hp eq_refl _). by repeat constructor. }
  assert (Ho : sdp_audio_formats (build_opus_sdp ip port) = [fmt_opus; fmt_pcmu; fmt_pcma]).
  { refine (built_formats ip port "RTP/AVP 111 0 8" _ Hip Hp eq_refl _). by repeat constructor. }
  unfold sdp_primary_codec, sdp_primary_format, needs_transcoding, voice. by rewrite Hg, Ho.
Qed.

Lemma primary_voice sdp :
  match sdp_primary_format sdp with
  | Some f => is_voice f = true /\ exists l, voice sdp = (name f, format_rate f) :: l
  | None => voice sdp = []
  end.
Proof.
  unfold sdp_primary_format, voice.
  destruct (List.filter is_voice _) as [|f l] eqn:E; [done|]. simpl. split; [|by eexists].
  assert (H : f ∈ List.filter is_voice (sdp_audio_formats sdp)) by (rewrite E; left).
  by apply elem_of_filter_bool in H as [_ H].
Qed.

(** A transcoder is asked for exactly when both sides name a voice codec and
    share none; the answer does not depend on which side calls, and then the
    two preferred formats exist and differ in name or clock rate. *)
Theorem needs_transcoding_spec a b :
  needs_transcoding a b = needs_transcoding b a /\
  (needs_transcoding a b = true <-> voice a <> [] /\ voice b <> [] /\ voice a ## voice b) /\
  (needs_transcoding a b = true ->
   exists f g, sdp_primary_format a = Some f /\ sdp_primary_format b = Some g /\
     is_voice f = true /\ is_voice g = true /\
     (name f, format_rate f) <> (name g, format_rate g)).
Proof.
  assert (Hs : forall a b, needs_transcoding a b = true <->
                 voice a <> [] /\ voice b <> [] /\ voice a ## voice b).
  { clear. intros a b. unfold needs_transcoding.
    destruct (voice a) as [|x l] eqn:Ea; [naive_solver|].
    destruct (voice b) as [|y k] eqn:Eb; [naive_solver|].
    rewrite negb_true_iff, <- not_true_iff_false, existsb_exists.
    setoid_rewrite bool_decide_eq_true. setoid_rewrite <- list_elem_of_In.
    split; [intros H; split_and!; [done..|]; intros z Hx Hy; apply H; by exists z|].
    intros (_ & _ & H) (z & Hx & Hy). exact (H z Hx Hy). }
  split; [|split; [apply Hs|]].
  - apply eq_true_iff_eq. rewrite !Hs. split; intros (Hx & Hy & H); split_and!; try done;
      intros z Hz Hz'; exact (H z Hz' Hz).
  - intros (Ha & Hb & Hd)%Hs. assert (Pa := primary_voice a). assert (Pb := primary_voice b).
    destruct (sdp_primary_format a) as [f|]; [|done]. destruct (sdp_primary_format b) as [g|]; [|done].
    destruct Pa as [Vf [l El]], Pb as [Vg [k Ek]]. exists f, g. split_and!; try done.
    intros E. apply (Hd (name f, format_rate f)); [rewrite El|rewrite Ek, E]; left.
Qed.

(** ** Witnesses *)

Module Witness.

Lemma built_sdp_offers_witness :
  sdp_audio_formats (build_opus_sdp "192.0.2.7" 40000) = [fmt_opus; fmt_pcmu; fmt_pcma].
Proof. apply (built_sdp_offers "192.0.2.7" 40000); [reflexivity|unfold u16_max; lia]. Defined.

Definition opus_only : string :=
  "m=audio 5004 RTP/AVP 109 101" +:+ CRLF +:+ "a=rtpmap:109 opus/48000/2" +:+ CRLF
  +:+ "a=rtpmap:101 telephone-event/8000".
Definition pcma_only : string := "m=audio 5004 RTP/AVP 8 101" +:+ CRLF +:+ "a=rtpmap:101 telephone-event/8000".

Lemma needs_transcoding_spec_witness :
  needs_transcoding opus_only pcma_only = true /\
  exists f g, sdp_primary_format opus_only = Some f /\ sdp_primary_format pcma_only = Some g /\
    (name f, format_rate f) <> (name g, format_rate g).
Proof.
  split; [vm_compute; reflexivity|].
  destruct (needs_transcoding_spec opus_only pcma_only) as (_ & _ & H).
  destruct (H ltac:(vm_compute; reflexivity)) as (f & g & Hf & Hg & _ & _ & Hn).
  exists f, g. split; [exact Hf|]. split; [exact Hg|exact Hn].
Defined.

End Witness.
