(* ===== verification/Sdp.v ===== *)
(** * Session descriptions (media/sdp.rs)

    The lenient parser and the printer of SDP bodies, the rewriting of their
    addresses and ports, the plain offer made of a WebRTC one, and what is read
    of an answer. *)

From S2P Require Import Prelude Str Bytes Net.

(** ** Data *)

Inductive MediaType := Audio | Video | Application | Text | Message.

#[export] Instance MediaType_eq_dec : EqDecision MediaType.
Proof. solve_decision. Defined.

Record Origin := mkOrigin {
  username : string;
  o_session_id : string;
  session_version : string;
  o_network_type : string;
  o_address_type : string;
  o_address : string
}.

Record Connection := mkConnection {
  c_network_type : string;
  c_address_type : string;
  c_address : string
}.

Record Attribute := mkAttribute { a_key : string; a_value : option string }.

Record MediaDescription := mkMedia {
  media_type : MediaType;
  m_port : Z;
  num_ports : option Z;
  protocol : string;
  formats : list Z;
  m_connection : option Connection;
  attributes : list Attribute
}.

Record SessionDescription := mkSession {
  version : Z;
  origin : Origin;
  session_name : string;
  connection : option Connection;
  start_time : string;
  stop_time : string;
  media : list MediaDescription
}.

#[export] Instance eta_origin : Eta Origin := fun o =>
  mkOrigin (username o) (o_session_id o) (session_version o) (o_network_type o) (o_address_type o) (o_address o).
#[export] Instance eta_connection : Eta Connection := fun c =>
  mkConnection (c_network_type c) (c_address_type c) (c_address c).
#[export] Instance eta_media : Eta MediaDescription := fun m =>
  mkMedia (media_type m) (m_port m) (num_ports m) (protocol m) (formats m) (m_connection m) (attributes m).
#[export] Instance eta_session : Eta SessionDescription := fun s =>
  mkSession (version s) (origin s) (session_name s) (connection s) (start_time s) (stop_time s) (media s).

Definition MediaType_from_str (s : string) : sbc_result MediaType :=
  if seqb s "audio" then Ok Audio
  else if seqb s "video" then Ok Video
  else if seqb s "application" then Ok Application
  else if seqb s "text" then Ok Text
  else if seqb s "message" then Ok Message
  else Err (EParse "Unknown media type").

Definition MediaType_as_str (t : MediaType) : string :=
  match t with
  | Audio => "audio" | Video => "video" | Application => "application" | Text => "text" | Message => "message"
  end.

(** ** Parsing *)

Definition parse_version (line : string) : sbc_result Z :=
  let? v := ok_or (strip_prefix "v=" line) (EParse "Invalid version line") in
  ok_or (parse_uint u32_max v) (EParse "Invalid version number").

Definition parse_origin (line : string) : sbc_result Origin :=
  let? v := ok_or (strip_prefix "o=" line) (EParse "Invalid origin line") in
  match split_whitespace v with
  | [u; i; w; n; t; a] => Ok (mkOrigin u i w n t a)
  | _ => Err (EParse "Invalid origin format")
  end.

Definition parse_session_name (line : string) : sbc_result string :=
  ok_or (strip_prefix "s=" line) (EParse "Invalid session name line").

(** The address of a c= line, when it has three parts. *)
Definition parse_connection (line : string) : option Connection :=
  v ← strip_prefix "c=" line;
  match split_whitespace v with [n; t; a] => Some (mkConnection n t a) | _ => None end.

Definition keep_some {A} (new old : option A) : option A := match new with Some _ => new | None => old end.

(** The lines up to t= or m=. *)
Fixpoint parse_session_lines (conn : option Connection) (ls : list string) : option Connection * list string :=
  match ls with
  | [] => (conn, [])
  | line :: rest =>
      if starts_with "c=" line then parse_session_lines (keep_some (parse_connection line) conn) rest
      else if starts_with "t=" line || starts_with "m=" line then (conn, ls)
      else parse_session_lines conn rest
  end.

Definition parse_time (line : string) : sbc_result (string * string) :=
  let? v := ok_or (strip_prefix "t=" line) (EParse "Invalid time line") in
  match split_whitespace v with [a; b] => Ok (a, b) | _ => Err (EParse "Invalid time format") end.

Definition parse_attribute (value : string) : Attribute :=
  match find_char ":" value with
  | Some pos => mkAttribute (stake pos value) (Some (sdrop (S pos) value))
  | None => mkAttribute value None
  end.

(** The lines of one media section after its m= line. *)
Fixpoint parse_media_lines (ls : list string) (conn : option Connection) (attrs : list Attribute) :
    option Connection * list Attribute :=
  match ls with
  | [] => (conn, attrs)
  | line :: ls =>
      if starts_with "c=" line then parse_media_lines ls (keep_some (parse_connection line) conn) attrs
      else match strip_prefix "a=" line with
           | Some value => parse_media_lines ls conn (attrs ++ [parse_attribute value])
           | None => parse_media_lines ls conn attrs
           end
  end.

Definition parse_media (line : string) (section : list string) : sbc_result MediaDescription :=
  let? value := ok_or (strip_prefix "m=" line) (EParse "Invalid media line") in
  match split_whitespace value with
  | t :: p :: proto :: ((_ :: _) as fs) =>
      let? ty := MediaType_from_str t in
      let? port := ok_or (parse_uint u16_max (default p (head (split "/" p)))) (EParse "Invalid port number") in
      let '(conn, attrs) := parse_media_lines section None [] in
      Ok (mkMedia ty port None proto (omap (parse_uint 255) fs) conn attrs)
  | _ => Err (EParse "Invalid media format")
  end.

(** The lines cut before each m= line; those before the first are apart. *)
Fixpoint sections (ls : list string) : list string * list (string * list string) :=
  match ls with
  | [] => ([], [])
  | line :: ls =>
      let '(body, secs) := sections ls in
      if starts_with "m=" line then ([], (line, body) :: secs) else (line :: body, secs)
  end.

(** Up to the first section that does not parse. *)
Fixpoint parse_sections (secs : list (string * list string)) : list MediaDescription :=
  match secs with
  | [] => []
  | (line, body) :: secs =>
      match parse_media line body with Ok m => m :: parse_sections secs | Err _ => [] end
  end.

Fixpoint skip_blank (ls : list string) : list string :=
  match ls with
  | line :: rest => if seqb (trim line) "" then skip_blank rest else ls
  | [] => []
  end.

Definition next_line (ls : list string) (e : string) : sbc_result (string * list string) :=
  match ls with line :: rest => Ok (line, rest) | [] => Err (EParse e) end.

Definition parse (sdp : string) : sbc_result SessionDescription :=
  let? l := next_line (skip_blank (lines sdp)) "Missing version line" in
  let? v := parse_version l.1 in
  let? l := next_line l.2 "Missing origin line" in
  let? o := parse_origin l.1 in
  let? l := next_line l.2 "Missing session name" in
  let? n := parse_session_name l.1 in
  let '(conn, rest) := parse_session_lines None l.2 in
  let? tr := match rest with
             | line :: rest' =>
                 if starts_with "t=" line then (let? t := parse_time line in Ok (t, rest')) else Ok (("0", "0"), rest)
             | [] => Ok (("0", "0"), [])
             end in
  Ok (mkSession v o n conn tr.1.1 tr.1.2 (parse_sections (sections tr.2).2)).

(** ** Printing *)

Definition origin_line (o : Origin) : string :=
  "o=" +:+ username o +:+ " " +:+ o_session_id o +:+ " " +:+ session_version o +:+ " " +:+ o_network_type o
  +:+ " " +:+ o_address_type o +:+ " " +:+ o_address o.

Definition connection_line (c : Connection) : string :=
  "c=" +:+ c_network_type c +:+ " " +:+ c_address_type c +:+ " " +:+ c_address c.

Definition attribute_line (a : Attribute) : string :=
  match a_value a with Some v => "a=" +:+ a_key a +:+ ":" +:+ v | None => "a=" +:+ a_key a end.

Definition media_line (m : MediaDescription) : string :=
  "m=" +:+ MediaType_as_str (media_type m) +:+ " " +:+ show (m_port m) +:+ " " +:+ protocol m
  +:+ foldr (fun f s => " " +:+ show f +:+ s) "" (formats m).

Definition opt_line {A} (f : A -> string) (o : option A) : list string := match o with Some a => [f a] | None => [] end.

Definition media_lines (m : MediaDescription) : list string :=
  media_line m :: opt_line connection_line (m_connection m) ++ map attribute_line (attributes m).

Definition session_lines (s : SessionDescription) : list string :=
  ["v=" +:+ show (version s); origin_line (origin s); "s=" +:+ session_name s]
  ++ opt_line connection_line (connection s)
  ++ ["t=" +:+ start_time s +:+ " " +:+ stop_time s]
  ++ concat (map media_lines (media s)).

Definition render (s : SessionDescription) : string := unlines (session_lines s) "".

(** ** Rewriting *)

Definition address_type_of (i : IpAddr) : string := match i with V4 _ => "IP4" | V6 _ => "IP6" end.

Definition readdress (ip_str addr_type : string) (c : Connection) : Connection :=
  c <| c_address := ip_str |> <| c_address_type := addr_type |>.

(** [ip_text]: [IpAddr]'s [Display]. *)
Definition replace_ip (ip_text : IpAddr -> string) (i : IpAddr) (s : SessionDescription) : SessionDescription :=
  let re := readdress (ip_text i) (address_type_of i) in
  s <| origin := origin s <| o_address := ip_text i |> <| o_address_type := address_type_of i |> |>
    <| connection := re <$> connection s |>
    <| media := map (fun m => m <| m_connection := re <$> m_connection m |>) (media s) |>.

Definition replace_port (t : MediaType) (p : Z) (s : SessionDescription) : SessionDescription :=
  s <| media := map (fun m => if bool_decide (media_type m = t) then m <| m_port := p |> else m) (media s) |>.

(** The payload type of the last rtpmap that names telephone-event. *)
Definition rtpmap_value (line : string) : option string := strip_prefix "a=rtpmap:" (trim line).

Definition event_pt (line : string) : option Z :=
  val ← rtpmap_value line;
  if contains "telephone-event" val then (w ← head (split_whitespace val); parse_uint 255 w) else None.

Definition transform_webrtc_to_trunk (webrtc_sdp sbc_ip : string) (rtp_port : Z) : string :=
  let pt := default 101 (last (omap event_pt (lines webrtc_sdp))) in
  unlines
    ["v=0"; "o=- 0 0 IN IP4 " +:+ sbc_ip; "s=SBC"; "c=IN IP4 " +:+ sbc_ip; "t=0 0";
     "m=audio " +:+ show rtp_port +:+ " RTP/AVP 8 " +:+ show pt;
     "a=rtpmap:8 PCMA/8000"; "a=ptime:20"; "a=sendrecv";
     "a=rtpmap:" +:+ show pt +:+ " telephone-event/8000"; "a=fmtp:" +:+ show pt +:+ " 0-16"] "".

(** ** Reading an answer *)

(** The first line that names telephone-event decides: [None] there ends the
    search. *)
Fixpoint event_in (ls : list string) : option (Z * Z) :=
  match ls with
  | [] => None
  | line :: ls =>
      match rtpmap_value line with
      | Some val =>
          match find_str "telephone-event" val with
          | Some pos =>
              w ← head (split_whitespace val);
              pt ← parse_uint 255 w;
              let rate := r ← split "/" (sdrop pos val) !! 1%nat; w ← head (split_whitespace r); parse_uint u32_max w in
              Some (pt, default 8000 rate)
          | None => event_in ls
          end
      | None => event_in ls
      end
  end.

Definition telephone_event_pt (sdp : string) : option (Z * Z) := event_in (lines sdp).

Definition static_pt_name (pt : Z) : option string :=
  if pt =? 0 then Some "PCMU" else if pt =? 3 then Some "GSM" else if pt =? 8 then Some "PCMA"
  else if pt =? 9 then Some "G722" else if pt =? 18 then Some "G729" else None.

Definition mapped_name (pt : Z) (line : string) : option string :=
  val ← rtpmap_value line;
  match split_whitespace val with
  | p :: n :: _ => map_pt ← parse_uint 255 p; if map_pt =? pt then head (split "/" n) else None
  | _ => None
  end.

Definition pt_name (ls : list string) (pt : Z) : option string :=
  match head (omap (mapped_name pt) ls) with Some n => Some n | None => static_pt_name pt end.

Definition is_voice_name (n : option string) : option string :=
  match n with Some n => if seqb n "telephone-event" || seqb n "CN" then None else Some n | None => None end.

Definition negotiated_audio_codec (sdp : string) : option string :=
  m_audio ← List.find (starts_with "m=audio ") (map trim (lines sdp));
  head (omap (fun pt => is_voice_name (pt_name (lines sdp) pt))
          (omap (parse_uint 255) (drop 3 (split_whitespace m_audio)))).

Example parse_linphone :
  let crlf := CRLF in
  let sdp := "v=0" +:+ crlf +:+ "o=- 1 2 IN IP4 10.0.0.9" +:+ crlf +:+ "s=Talk" +:+ crlf +:+ "c=IN IP4 10.0.0.9" +:+ crlf
             +:+ "b=AS:380" +:+ crlf +:+ "t=0 0" +:+ crlf +:+ "a=x" +:+ crlf +:+ "m=audio 7078/2 RTP/AVP 96 0 x" +:+ crlf
             +:+ "a=rtpmap:96 opus/48000" +:+ crlf +:+ "m=bogus 1 x 0" +:+ crlf +:+ "m=video 9078 RTP/AVP 97" +:+ crlf in
  match parse sdp with
  | Ok s => connection s = Some (mkConnection "IN" "IP4" "10.0.0.9") /\
      map (fun m => (m_port m, formats m, length (attributes m))) (media s) = [(7078, [96; 0], 1%nat)]
  | Err _ => False
  end /\ negotiated_audio_codec sdp = Some "opus".
Proof. by vm_compute. Qed.

(** ** Well-formed descriptions *)

Definition words_ok (ws : list string) : Prop := Forall (fun w => is_word w = true) ws.
Definition connection_ok (c : Connection) : Prop := words_ok [c_network_type c; c_address_type c; c_address c].

Record attribute_ok (a : Attribute) : Prop := {
  at_key : no_lf (a_key a) = true /\ free_of ":" (a_key a) = true;
  at_value : forall v, a_value a = Some v -> no_lf v = true
}.

Record media_ok (m : MediaDescription) : Prop := {
  md_port : 0 <= m_port m <= u16_max;
  md_ports : num_ports m = None;
  md_protocol : is_word (protocol m) = true;
  md_formats : Forall (fun f => 0 <= f <= 255) (formats m);
  md_connection : forall c, m_connection m = Some c -> connection_ok c;
  md_attributes : Forall attribute_ok (attributes m)
}.

Record session_ok (s : SessionDescription) : Prop := {
  sd_version : 0 <= version s <= u32_max;
  sd_origin : words_ok [username (origin s); o_session_id (origin s); session_version (origin s);
                        o_network_type (origin s); o_address_type (origin s); o_address (origin s)];
  sd_name : no_lf (session_name s) = true;
  sd_connection : forall c, connection s = Some c -> connection_ok c;
  sd_time : words_ok [start_time s; stop_time s];
  sd_media : Forall media_ok (media s)
}.

(** Every m= line has a payload type left. *)
Definition has_formats (s : SessionDescription) : Prop := Forall (fun m => formats m <> []) (media s).

(** *** What the parser returns is well-formed *)

Lemma parse_connection_ok line c : parse_connection line = Some c -> connection_ok c.
Proof.
  unfold parse_connection. destruct (strip_prefix "c=" line) as [v|]; [|done]. cbn [mbind option_bind].
  assert (H := split_whitespace_words v). destruct (split_whitespace v) as [|n [|t [|a [|? ?]]]]; try done. by intros [= <-].
Qed.

Lemma keep_connection_ok line conn c :
  (forall c, conn = Some c -> connection_ok c) -> keep_some (parse_connection line) conn = Some c -> connection_ok c.
Proof.
  intros Hc. destruct (parse_connection line) eqn:E; cbn; [|apply Hc]. intros [= <-]. by apply parse_connection_ok with line.
Qed.

Lemma parse_session_lines_ok ls conn :
  (forall c, conn = Some c -> connection_ok c) -> Forall (fun l => no_lf l = true) ls ->
  (forall c, (parse_session_lines conn ls).1 = Some c -> connection_ok c) /\
  Forall (fun l => no_lf l = true) (parse_session_lines conn ls).2.
Proof.
  revert conn. induction ls as [|line ls IH]; intros conn Hc Hl; [done|]. inversion Hl; subst. cbn [parse_session_lines].
  destruct (starts_with "c=" line); [apply IH; [|done]; intros c; by apply keep_connection_ok|].
  destruct (_ || _); [done|]. by apply IH.
Qed.

Lemma find_char_spec c s n : find_char c s = Some n -> free_of c (stake n s) = true.
Proof.
  revert n. induction s as [|d s IH]; intros n; [done|]. cbn [find_char]. case_bool_decide as E; [by intros [= <-]|].
  destruct (find_char c s) as [k|] eqn:Hk; [|done]. cbn. intros [= <-]. cbn [stake]. rewrite free_of_cons.
  by rewrite bool_decide_eq_false_2, IH.
Qed.

Lemma find_char_none c s : find_char c s = None -> free_of c s = true.
Proof.
  induction s as [|d s IH]; [done|]. cbn [find_char]. case_bool_decide as E; [done|].
  destruct (find_char c s) as [k|]; [done|]. intros _. rewrite free_of_cons. by rewrite bool_decide_eq_false_2, IH.
Qed.

Lemma parse_attribute_ok v : no_lf v = true -> attribute_ok (parse_attribute v).
Proof.
  intros Hv. unfold parse_attribute. destruct (find_char ":" v) as [n|] eqn:E; split; cbn [a_key a_value].
  - split; [by apply no_lf_stake|by apply find_char_spec].
  - intros w [= <-]. by apply (no_lf_sdrop (S n)).
  - split; [done|by apply find_char_none].
  - done.
Qed.

Lemma strip_no_lf p l v : no_lf l = true -> strip_prefix p l = Some v -> no_lf v = true.
Proof. intros Hl ->%strip_prefix_spec. rewrite no_lf_app in Hl. by apply andb_prop in Hl as [_ ?]. Qed.

Lemma parse_media_lines_ok ls conn attrs :
  (forall c, conn = Some c -> connection_ok c) -> Forall attribute_ok attrs -> Forall (fun l => no_lf l = true) ls ->
  (forall c, (parse_media_lines ls conn attrs).1 = Some c -> connection_ok c) /\
  Forall attribute_ok (parse_media_lines ls conn attrs).2.
Proof.
  revert conn attrs. induction ls as [|line ls IH]; intros conn attrs Hc Ha Hl; [done|]. inversion Hl as [|? ? Hline ?]; subst.
  cbn [parse_media_lines]. destruct (starts_with "c=" line); [apply IH; try done; intros c; by apply keep_connection_ok|].
  destruct (strip_prefix "a=" line) as [v|] eqn:E; apply IH; try done. apply Forall_app. split; [done|].
  constructor; [|constructor]. apply parse_attribute_ok. by apply strip_no_lf with "a=" line.
Qed.

Lemma parse_media_ok line body m :
  Forall (fun l => no_lf l = true) body -> parse_media line body = Ok m -> media_ok m.
Proof.
  intros Hb. unfold parse_media. destruct (strip_prefix "m=" line) as [v|]; [|done]. cbn [ok_or rbind].
  assert (Hw := split_whitespace_words v). destruct (split_whitespace v) as [|t [|p [|proto [|f fs]]]]; try done.
  destruct (MediaType_from_str t) as [ty|]; [|done]. cbn [rbind].
  destruct (parse_uint u16_max _) as [port|] eqn:Hp; [|done]. cbn [ok_or rbind].
  assert (Hx := parse_media_lines_ok body None [] ltac:(done) ltac:(by constructor) Hb).
  destruct (parse_media_lines body None []) as [conn attrs]. intros [= <-]. destruct Hx as [Hc Ha].
  inversion_clear Hw as [|? ? _ Hw1]. inversion_clear Hw1 as [|? ? _ Hw2]. inversion_clear Hw2 as [|? ? Hproto _].
  split; cbn [m_port num_ports protocol formats m_connection attributes]; try done.
  - by apply parse_uint_range in Hp.
  - apply Forall_forall. intros x Hx. change (x ∈ omap (parse_uint 255) (f :: fs)) in Hx.
    apply list_elem_of_omap in Hx as (w & _ & Hx). by apply parse_uint_range in Hx.
Qed.

Lemma sections_ok ls :
  Forall (fun l => no_lf l = true) ls ->
  Forall (fun l => no_lf l = true) (sections ls).1 /\
  Forall (fun sec : string * list string => Forall (fun l => no_lf l = true) sec.2) (sections ls).2.
Proof.
  induction 1 as [|l ls Hl Hls [IH1 IH2]]; [done|]. cbn [sections]. destruct (sections ls) as [body secs].
  destruct (starts_with "m=" l); split; by try constructor.
Qed.

Lemma parse_sections_ok secs :
  Forall (fun sec : string * list string => Forall (fun l => no_lf l = true) sec.2) secs -> Forall media_ok (parse_sections secs).
Proof.
  induction 1 as [|[line body] secs Hb _ IH]; [constructor|]. cbn [parse_sections].
  destruct (parse_media line body) as [m|] eqn:E; [|constructor]. constructor; [by apply parse_media_ok with line body|done].
Qed.

Lemma skip_blank_ok ls : Forall (fun l => no_lf l = true) ls -> Forall (fun l => no_lf l = true) (skip_blank ls).
Proof. induction 1 as [|l ls Hl Hls IH]; [done|]. cbn [skip_blank]. destruct (seqb _ _); [done|]. by constructor. Qed.

Lemma parse_ok sdp s : parse sdp = Ok s -> session_ok s.
Proof.
  unfold parse. assert (Hl := skip_blank_ok _ (lines_no_lf sdp)).
  destruct (skip_blank (lines sdp)) as [|vl ls]; [done|]. inversion_clear Hl as [|? ? _ Hls]. cbn [next_line rbind fst snd].
  unfold parse_version. destruct (strip_prefix "v=" vl) as [v|]; [|done]. cbn [ok_or rbind].
  destruct (parse_uint u32_max v) as [n|] eqn:Hn; [|done]. cbn [ok_or rbind].
  destruct ls as [|ol ls]; [done|]. inversion_clear Hls as [|? ? _ Hls']. cbn [next_line rbind fst snd].
  unfold parse_origin. destruct (strip_prefix "o=" ol) as [o|]; [|done]. cbn [ok_or rbind].
  assert (Hw := split_whitespace_words o).
  destruct (split_whitespace o) as [|u [|i [|w [|nt [|t [|a [|? ?]]]]]]]; try done. cbn [rbind].
  destruct ls as [|sl ls]; [done|]. inversion_clear Hls' as [|? ? Hsl Hls]. cbn [next_line rbind fst snd].
  unfold parse_session_name. destruct (strip_prefix "s=" sl) as [name|] eqn:Hname; [|done]. cbn [ok_or rbind].
  assert (Hc := parse_session_lines_ok ls None ltac:(done) Hls).
  destruct (parse_session_lines None ls) as [conn rest]. destruct Hc as [Hc Hrest]. cbn [fst snd] in *.
  assert (Htail : forall (tr : string * string) body, words_ok [tr.1; tr.2] -> Forall (fun l => no_lf l = true) body ->
    session_ok (mkSession n (mkOrigin u i w nt t a) name conn tr.1 tr.2 (parse_sections (sections body).2))).
  { intros tr body Ht Hbody. split; cbn; try done.
    - by apply parse_uint_range in Hn.
    - by apply strip_no_lf with "s=" sl.
    - apply parse_sections_ok, sections_ok, Hbody. }
  destruct rest as [|line rest]; [cbn; intros [= <-]; apply (Htail ("0", "0") []); [by repeat constructor|done]|].
  destruct (starts_with "t=" line).
  - unfold parse_time. destruct (strip_prefix "t=" line) as [tv|]; [|done]. cbn [ok_or rbind].
    assert (Hwt := split_whitespace_words tv). destruct (split_whitespace tv) as [|t1 [|t2 [|? ?]]]; try done. cbn.
    intros [= <-]. inversion_clear Hrest. by apply (Htail (t1, t2) rest).
  - cbn [rbind]. intros [= <-]. apply (Htail ("0", "0") (line :: rest)); [by repeat constructor|done].
Qed.

(** ** The printed text is read back *)

Lemma words_of_two a b : is_word a = true -> is_word b = true -> split_whitespace (a +:+ " " +:+ b) = [a; b].
Proof. intros Ha Hb. by rewrite words_more, words_last. Qed.

Lemma connection_line_parse c : connection_ok c -> parse_connection (connection_line c) = Some c.
Proof.
  intros H. unfold connection_ok, words_ok in H. rewrite !Forall_cons in H. destruct H as (H1 & H2 & H3 & _).
  unfold parse_connection, connection_line.
  change (strip_prefix "c=" ("c=" +:+ ?x)) with (Some x). cbn [mbind option_bind].
  rewrite words_more, words_of_two by done. by destruct c.
Qed.

Lemma attribute_line_parse a : attribute_ok a -> exists v, attribute_line a = "a=" +:+ v /\ parse_attribute v = a.
Proof.
  intros [[Hk Hf] Hv]. destruct a as [k [v|]]; cbn in *.
  - exists (k +:+ ":" +:+ v). split; [done|]. unfold parse_attribute.
    change (k +:+ ":" +:+ v) with (k +:+ String ":" v). rewrite find_char_app, stake_app by done. do 2 f_equal.
    change (String ":" v) with (":" +:+ v). rewrite <- sapp_assoc.
    replace (S (String.length k)) with (String.length (k +:+ ":")) by (rewrite slength_app; cbn; lia). apply sdrop_app.
  - exists k. split; [done|]. unfold parse_attribute.
    assert (Hn : forall s, free_of ":" s = true -> find_char ":" s = None).
    { induction s as [|d s IH]; [done|]. rewrite free_of_cons. intros [Hd Hs]%andb_prop. cbn [find_char].
      apply negb_true_iff in Hd. by rewrite Hd, IH. }
    by rewrite Hn.
Qed.

Lemma media_lines_parse m : media_ok m ->
  parse_media_lines (opt_line connection_line (m_connection m) ++ map attribute_line (attributes m)) None [] =
  (m_connection m, attributes m).
Proof.
  intros [_ _ _ _ Hc Ha]. assert (Hattr : forall conn pre l, Forall attribute_ok l ->
    parse_media_lines (map attribute_line l) conn pre = (conn, pre ++ l)).
  { intros conn pre l Hl. revert pre. induction Hl as [|a l Hok _ IH]; intros pre; [by rewrite app_nil_r|].
    destruct (attribute_line_parse a Hok) as (v & Hl & Hp). cbn [map parse_media_lines]. rewrite Hl.
    change (starts_with "c=" ("a=" +:+ v)) with false. change (strip_prefix "a=" ("a=" +:+ v)) with (Some v).
    cbv iota. rewrite IH, Hp, <- app_assoc. done. }
  destruct (m_connection m) as [c|]; cbn [opt_line app].
  - cbn [parse_media_lines]. change (starts_with "c=" (connection_line c)) with true. cbv iota.
    rewrite connection_line_parse by by apply Hc. cbn [keep_some]. by rewrite Hattr.
  - by rewrite Hattr.
Qed.

Lemma formats_words proto fs : is_word proto = true -> Forall (fun f => 0 <= f <= 255) fs ->
  split_whitespace (proto +:+ foldr (fun f s => " " +:+ show f +:+ s) "" fs) = proto :: map show fs.
Proof.
  intros Hp Hf. revert proto Hp. induction Hf as [|f fs H _ IH]; intros proto Hp.
  - cbn [foldr]. rewrite sapp_nil_r. by apply words_last.
  - cbn [foldr map]. rewrite words_more by done. by rewrite (IH (show f)) by (apply show_word; lia).
Qed.

Lemma parse_formats fs : Forall (fun f => 0 <= f <= 255) fs -> omap (parse_uint 255) (map show fs) = fs.
Proof. induction 1 as [|f fs H _ IH]; [done|]. 
  change (match parse_uint 255 (show f) with Some y => y :: omap (parse_uint 255) (map show fs)
          | None => omap (parse_uint 255) (map show fs) end = f :: fs). by rewrite parse_show, IH by lia.
Qed.

Lemma media_type_round t : MediaType_from_str (MediaType_as_str t) = Ok t /\ is_word (MediaType_as_str t) = true.
Proof. by destruct t. Qed.

Lemma slash_free_show n : 0 <= n -> default (show n) (head (split "/" (show n))) = show n.
Proof.
  intros Hn. destruct (show_spec n Hn) as (Hd & _). unfold split. rewrite split_by_free; [done|].
  eapply sall_impl; [|exact Hd]. intros c Hc. apply negb_true_iff, bool_decide_eq_false_2. by intros ->.
Qed.

Lemma media_round_trip m : media_ok m -> formats m <> [] ->
  parse_media (media_line m) (opt_line connection_line (m_connection m) ++ map attribute_line (attributes m)) = Ok m.
Proof.
  intros Hm Hne. assert (Hl := media_lines_parse m Hm). destruct Hm as [Hp Hn Hproto Hf _ _]. unfold parse_media, media_line.
  change (strip_prefix "m=" ("m=" +:+ ?x)) with (Some x). cbn [ok_or rbind]. destruct (media_type_round (media_type m)) as [Ht Hw].
  rewrite words_more, words_more, formats_words by (done || apply show_word; lia). rewrite <- (parse_formats _ Hf) in Hne.
  destruct (map show (formats m)) as [|w ws] eqn:E; [done|]. rewrite Ht. cbn [rbind].
  rewrite slash_free_show, parse_show by (unfold u16_max in *; lia). cbn [ok_or rbind]. rewrite Hl, <- E, parse_formats by done.
  destruct m. cbn in *. by subst.
Qed.

Lemma not_media_line m l : l ∈ opt_line connection_line (m_connection m) ++ map attribute_line (attributes m) ->
  starts_with "m=" l = false.
Proof.
  rewrite elem_of_app. intros [H|H].
  - destruct (m_connection m); [|by apply not_elem_of_nil in H]. by apply list_elem_of_singleton in H as ->.
  - apply list_elem_of_fmap in H as ([k [v|]] & -> & _); done.
Qed.

Lemma sections_body body rest :
  (forall l, l ∈ body -> starts_with "m=" l = false) -> sections (body ++ rest) = (body ++ (sections rest).1, (sections rest).2).
Proof.
  induction body as [|l body IH]; intros H; [apply surjective_pairing|]. cbn [app sections].
  rewrite IH by (intros l' Hl'; apply H; by right). by rewrite (H l) by by left.
Qed.

Lemma sections_media ms :
  sections (concat (map media_lines ms))
  = ([], map (fun m => (media_line m, opt_line connection_line (m_connection m) ++ map attribute_line (attributes m))) ms).
Proof.
  induction ms as [|m ms IH]; [done|]. cbn [map concat]. unfold media_lines at 1. cbn [app sections].
  rewrite sections_body by (intros l; apply not_media_line). rewrite IH. cbn [fst snd]. rewrite app_nil_r.
  by change (starts_with "m=" (media_line m)) with true.
Qed.

Lemma parse_sections_media ms : Forall media_ok ms -> Forall (fun m => formats m <> []) ms ->
  parse_sections (sections (concat (map media_lines ms))).2 = ms.
Proof.
  intros Hm Hf. rewrite sections_media. cbn [snd]. induction ms as [|m ms IH]; [done|]. inversion_clear Hm. inversion_clear Hf.
  cbn [map parse_sections]. rewrite media_round_trip by done. by rewrite IH.
Qed.

(** Lines of the session part, none of which is a media line. *)
Lemma line_no_lf p ws : no_lf p = true -> words_ok ws -> no_lf (p +:+ join " " ws) = true.
Proof.
  intros Hp Hw. rewrite no_lf_app, Hp. cbn [andb]. induction Hw as [|w ws H Hws IH]; [done|].
  destruct ws as [|w' ws]; [by apply word_no_lf|]. change (join " " (w :: w' :: ws)) with (w +:+ " " +:+ join " " (w' :: ws)).
  by rewrite !no_lf_app, word_no_lf, IH.
Qed.

Lemma media_lines_no_lf m : media_ok m -> Forall (fun l => no_lf l = true) (media_lines m).
Proof.
  intros [Hp _ Hproto Hf Hc Ha]. constructor; [|apply Forall_app; split].
  - assert (Hfmt : no_lf (foldr (fun f s => " " +:+ show f +:+ s) "" (formats m)) = true).
    { induction Hf as [|f fs H _ IH]; [done|]. cbn [foldr]. rewrite !no_lf_app, IH, (word_no_lf (show f)) by (apply show_word; lia). done. }
    unfold media_line. rewrite !no_lf_app, Hfmt, (word_no_lf (protocol m)) by done.
    rewrite (word_no_lf (show (m_port m))) by (apply show_word; lia). by destruct (media_type m).
  - destruct (m_connection m) as [c|]; [|constructor]. repeat constructor. apply (line_no_lf "c=" [_; _; _]); [done|by apply Hc].
  - apply Forall_map. eapply Forall_impl; [exact Ha|]. intros [k [v|]] [[Hk _] Hv]; cbn [a_key a_value] in *.
    + change (no_lf ("a=" +:+ k +:+ ":" +:+ v) = true). by rewrite !no_lf_app, Hk, (Hv v).
    + change (no_lf ("a=" +:+ k) = true). by rewrite no_lf_app, Hk.
Qed.

Lemma session_lines_no_lf s : session_ok s -> Forall (fun l => no_lf l = true) (session_lines s).
Proof.
  intros [Hv Ho Hn Hc Ht Hm]. unfold session_lines. rewrite !Forall_app. split_and!.
  - repeat constructor.
    + rewrite no_lf_app, (word_no_lf (show (version s))) by (apply show_word; lia). done.
    + by apply (line_no_lf "o=" [_; _; _; _; _; _]).
    + by rewrite no_lf_app, Hn.
  - destruct (connection s) as [c|]; [|constructor]. repeat constructor. apply (line_no_lf "c=" [_; _; _]); [done|by apply Hc].
  - repeat constructor. by apply (line_no_lf "t=" [_; _]).
  - induction Hm as [|m ms H _ IH]; [constructor|]. cbn [map concat]. apply Forall_app. split; [by apply media_lines_no_lf|done].
Qed.

(** A well-formed description with a payload type on every m= line is read
    back from its text as it is. *)
Lemma parse_render s : session_ok s -> has_formats s -> parse (render s) = Ok s.
Proof.
  intros Hs Hf. unfold parse, render. rewrite lines_unlines by by apply session_lines_no_lf.
  destruct Hs as [Hv Ho Hn Hc Ht Hm]. unfold session_lines. cbn [app].
  unfold skip_blank. assert (Hb : seqb (trim ("v=" +:+ show (version s))) "" = false).
  { apply seqb_false. unfold trim, trim_by. change ("v=" +:+ show (version s)) with (String "v" (String "=" (show (version s)))).
    rewrite trim_end_step. by destruct (trim_end_by _ _). }
  rewrite Hb. cbn [next_line rbind fst snd]. unfold parse_version. change (strip_prefix "v=" ("v=" +:+ ?x)) with (Some x).
  cbn [ok_or rbind]. rewrite parse_show by done. cbn [ok_or rbind]. unfold parse_origin, origin_line.
  change (strip_prefix "o=" ("o=" +:+ ?x)) with (Some x). cbn [ok_or rbind]. unfold words_ok in Ho, Ht. rewrite !Forall_cons in Ho. rewrite !Forall_cons in Ht.
  destruct Ho as (Ho1 & Ho2 & Ho3 & Ho4 & Ho5 & Ho6 & _). destruct Ht as (Ht1 & Ht2 & _).
  rewrite !words_more, words_last by done. cbn [rbind]. unfold parse_session_name.
  change (strip_prefix "s=" ("s=" +:+ ?x)) with (Some x). cbn [ok_or rbind].
  assert (Hsl : parse_session_lines None (opt_line connection_line (connection s)
      ++ ["t=" +:+ start_time s +:+ " " +:+ stop_time s] ++ concat (map media_lines (media s)))
    = (connection s, ("t=" +:+ start_time s +:+ " " +:+ stop_time s) :: concat (map media_lines (media s)))).
  { destruct (connection s) as [c|] eqn:Ec; [|done]. cbn [opt_line app parse_session_lines].
    change (starts_with "c=" (connection_line c)) with true. cbv iota. by rewrite connection_line_parse by by apply Hc. }
  cbn [fst snd]. cbn [app] in Hsl. rewrite Hsl. change (starts_with "t=" ("t=" +:+ ?x)) with true. cbv iota. unfold parse_time.
  change (strip_prefix "t=" ("t=" +:+ ?x)) with (Some x). cbn [ok_or rbind]. rewrite words_of_two by done. cbn [rbind fst snd].
  rewrite parse_sections_media by done. by destruct s as [? [] ? ? ? ? ?].
Qed.
