(* ===== verification/Media.v ===== *)
(** * Media sessions (media/manager.rs)

    The sessions of the calls: their port pairs, their addresses, what their
    relay is to do, the SDP bodies rewritten so that both sides send to the
    SBC, and the packet counters kept for the record of the call. The relay
    itself is a task on four sockets; binding them may fail. *)

From S2P Require Import Prelude Str Bytes Net Sdp.
From S2P Require PortAllocator Transcoder SdpAudio.

#[export] Existing Instance Transcoder.Codec_eq_dec.



(** ** Rewriting SDP bodies *)

(** The leading digits of a text, and what follows. *)
Fixpoint digit_end (s : string) : nat :=
  match s with String c s => if is_digit c then S (digit_end s) else 0%nat | "" => 0%nat end.

Definition rewrite_rtcp_line (new_rtcp_port : Z) (line : string) : string :=
  match strip_prefix "a=rtcp:" (trim_start_by Ascii.is_space line) with
  | Some rest =>
      let n := digit_end rest in
      if (0 <? n)%nat then "a=rtcp:" +:+ show new_rtcp_port +:+ sdrop n rest else line
  | None => line
  end.

Definition rewrite_rtcp_attr (sdp : string) (new_rtcp_port : Z) : string :=
  let out := unlines (map (rewrite_rtcp_line new_rtcp_port) (lines sdp)) "" in
  if negb (ends_with CRLF sdp) && negb (ends_with (String "010" "") sdp) && ends_with CRLF out
  then stake (String.length out - 2) out else out.

(** ** Keys in an SDP body (media/srtp.rs) *)

Inductive CryptoSuite :=
  | AesCm128HmacSha1_80 | AesCm128HmacSha1_32 | AesCm256HmacSha1_80 | AesCm256HmacSha1_32.

#[export] Instance CryptoSuite_eq_dec : EqDecision CryptoSuite.
Proof. solve_decision. Defined.

Definition master_key_len (c : CryptoSuite) : Z :=
  match c with AesCm128HmacSha1_80 | AesCm128HmacSha1_32 => 16 | _ => 32 end.
Definition master_salt_len (c : CryptoSuite) : Z := 14.
Definition auth_tag_len (c : CryptoSuite) : Z :=
  match c with AesCm128HmacSha1_80 | AesCm256HmacSha1_80 => 10 | _ => 4 end.

Definition from_sdp_name (name : string) : option CryptoSuite :=
  if seqb name "AES_CM_128_HMAC_SHA1_80" then Some AesCm128HmacSha1_80
  else if seqb name "AES_CM_128_HMAC_SHA1_32" then Some AesCm128HmacSha1_32
  else if seqb name "AES_256_CM_HMAC_SHA1_80" then Some AesCm256HmacSha1_80
  else if seqb name "AES_256_CM_HMAC_SHA1_32" then Some AesCm256HmacSha1_32
  else None.

Definition to_sdp_name (c : CryptoSuite) : string :=
  match c with
  | AesCm128HmacSha1_80 => "AES_CM_128_HMAC_SHA1_80" | AesCm128HmacSha1_32 => "AES_CM_128_HMAC_SHA1_32"
  | AesCm256HmacSha1_80 => "AES_256_CM_HMAC_SHA1_80" | AesCm256HmacSha1_32 => "AES_256_CM_HMAC_SHA1_32"
  end.

Definition parse_crypto_attribute (line : string) : sbc_result (Z * CryptoSuite * string) :=
  match split_whitespace line with
  | t :: n :: k :: _ =>
      let? tag := ok_or (parse_uint u32_max t) (EMedia "Invalid crypto tag") in
      let? suite := ok_or (from_sdp_name n) (EMedia "Unsupported crypto suite") in
      Ok (tag, suite, k)
  | _ => Err (EMedia "Invalid crypto attribute format")
  end.

(** The first a=crypto: line that reads well. *)
Definition crypto_of_line (line : string) : option (CryptoSuite * string) :=
  v ← strip_prefix "a=crypto:" (trim line);
  match parse_crypto_attribute v with Ok (_, suite, k) => Some (suite, k) | Err _ => None end.

Definition crypto_of (sdp : string) : option (CryptoSuite * string) := head (omap crypto_of_line (lines sdp)).

Section ip.
(** [IpAddr]'s [Display], and the configured public address. *)
Context (ip_text : IpAddr -> string) (public_ip : option IpAddr).

Definition with_public_ip (s : SessionDescription) : SessionDescription :=
  match public_ip with Some i => replace_ip ip_text i s | None => s end.

Definition rewrite_sdp_ip (sdp : string) : string :=
  match public_ip with
  | Some i => match parse sdp with Ok s => render (replace_ip ip_text i s) | Err _ => sdp end
  | None => sdp
  end.

Definition rewrite_sdp_for_proxy (sdp : string) (rtp_port : Z) : string :=
  match parse sdp with
  | Ok s => rewrite_rtcp_attr (render (replace_port Audio rtp_port (with_public_ip s))) (wrapw 16 (rtp_port + 1))
  | Err _ => sdp
  end.

Definition modify_sdp (sdp : string) (rtp_port : Z) : sbc_result string :=
  let? s := parse sdp in
  let s := replace_port Audio rtp_port (with_public_ip s) in
  let s := if existsb (fun m => bool_decide (media_type m = Video)) (media s)
           then replace_port Video (wrapw 16 (rtp_port + 2)) s else s in
  Ok (render s).

(** ** Sessions *)

Record MediaSession := mkMediaSession {
  session_id : string;
  ports : PortAllocator.PortPair;
  ports_b : option PortAllocator.PortPair;
  endpoint_a : option SocketAddr;
  endpoint_b : option SocketAddr;
  sdp_caller : option string;
  sdp_callee : option string;
  relaying : bool;
  srtp_a : option (CryptoSuite * string);
  srtp_b : option (CryptoSuite * string);
  ice_pwd_local : option string;
  ice_pwd_local_b : option string
}.

#[export] Instance eta_media_session : Eta MediaSession := fun s =>
  mkMediaSession (session_id s) (ports s) (ports_b s) (endpoint_a s) (endpoint_b s) (sdp_caller s) (sdp_callee s)
    (relaying s) (srtp_a s) (srtp_b s) (ice_pwd_local s) (ice_pwd_local_b s).

(** The packet counters of a session. *)
Record CallMediaStats := mkStats { rx_caller : Z; rx_callee : Z; tx_caller : Z; tx_callee : Z }.

Definition MAX_ENDED_STATS : nat := 256.
Definition ENDED_STATS_TTL : Z := secs 120.

Record MediaManager := mkManager {
  port_allocator : PortAllocator.PortAllocator;
  sessions : gmap string MediaSession;
  media_stats : gmap string CallMediaStats;
  ended_stats : gmap string (CallMediaStats * Z)
}.

#[export] Instance eta_media_manager : Eta MediaManager := fun m =>
  mkManager (port_allocator m) (sessions m) (media_stats m) (ended_stats m).

Definition new (pool : PortAllocator.PortAllocator) : MediaManager := mkManager pool ∅ ∅ ∅.

Definition allocate (now : Z) (m : MediaManager) : sbc_result PortAllocator.PortPair * MediaManager :=
  let '(r, pool) := PortAllocator.allocate now (port_allocator m) in (r, m <| port_allocator := pool |>).

Definition release (now : Z) (p : PortAllocator.PortPair) (m : MediaManager) : MediaManager :=
  m <| port_allocator := PortAllocator.release now p (port_allocator m) |>.

Definition create_session (now : Z) (id : string) (sdp : option string) (m : MediaManager) :
    sbc_result MediaSession * MediaManager :=
  let '(r, m) := allocate now m in
  match r with
  | Err e => (Err e, m)
  | Ok pa =>
      let '(r, m) := allocate now m in
      match r with
      | Err e => (Err e, release now pa m)
      | Ok pb =>
          let modified := match sdp with
                          | Some s => match modify_sdp s (PortAllocator.rtp pa) with Ok t => Ok (Some t) | Err e => Err e end
                          | None => Ok None end in
          match modified with
          | Err e => (Err e, release now pb (release now pa m))
          | Ok t =>
              let s := mkMediaSession id pa (Some pb) None None t None false None None None None in
              (Ok s, m <| sessions := <[id := s]> (sessions m) |>)
          end
      end
  end.

Definition session_not_found {A} : sbc_result A := Err (EDialog "Media session not found").

Definition on_session (id : string) (f : MediaSession -> MediaSession) (m : MediaManager) : MediaManager :=
  m <| sessions := alter f id (sessions m) |>.

Definition get_session (id : string) (m : MediaManager) : option MediaSession := sessions m !! id.

Definition update_callee_sdp (id sdp : string) (m : MediaManager) : sbc_result string * MediaManager :=
  match get_session id m with
  | None => (session_not_found, m)
  | Some s =>
      match modify_sdp sdp (PortAllocator.rtp (ports s)) with
      | Err e => (Err e, m)
      | Ok t => (Ok t, on_session id (fun s => s <| sdp_callee := Some t |>) m)
      end
  end.

Definition set_callee_sdp (id sdp : string) : MediaManager -> MediaManager :=
  on_session id (fun s => s <| sdp_callee := Some sdp |>).
Definition set_ice_pwd_local (id pwd : string) : MediaManager -> MediaManager :=
  on_session id (fun s => s <| ice_pwd_local := Some pwd |>).
Definition set_ice_pwd_local_b (id pwd : string) : MediaManager -> MediaManager :=
  on_session id (fun s => s <| ice_pwd_local_b := Some pwd |>).

Definition extract_srtp_from_sdp (id sdp : string) (is_leg_a : bool) (m : MediaManager) : MediaManager :=
  match crypto_of sdp with
  | Some k => on_session id (fun s => if is_leg_a then s <| srtp_a := Some k |> else s <| srtp_b := Some k |>) m
  | None => m
  end.

Definition found (id : string) (m : MediaManager) : sbc_result unit :=
  match get_session id m with Some _ => Ok tt | None => session_not_found end.

Definition set_endpoint_a (id : string) (a : SocketAddr) (m : MediaManager) : sbc_result unit * MediaManager :=
  (found id m, on_session id (fun s => s <| endpoint_a := Some a |>) m).
Definition set_endpoint_b (id : string) (a : SocketAddr) (m : MediaManager) : sbc_result unit * MediaManager :=
  (found id m, on_session id (fun s => s <| endpoint_b := Some a |>) m).

(** *** What the relay of a session is to do *)

(** [WebRtcSdpInfo::from_sdp(..).is_webrtc] *)
Definition is_webrtc (sdp : string) : bool :=
  existsb (fun line => (starts_with "m=" line && (contains "RTP/SAVPF" line || contains "UDP/TLS/RTP/SAVPF" line))
                       || starts_with "a=fingerprint:" line) (map trim (lines sdp)).

(** [transcode]: what the transcoders of the two directions are asked for. *)
Record RelayPlan := mkPlan {
  transcode : option (Transcoder.Codec * Z * Transcoder.Codec * Z);
  dtmf_a : option Z;
  dtmf_b : option Z;
  webrtc_a : bool;
  webrtc_b : bool
}.

Definition names_savpf (sdp : string) : bool :=
  contains "UDP/TLS/RTP/SAVPF" sdp || contains "udp/tls/rtp/savpf" sdp.

Definition must_transcode (caller_sdp callee_sdp : string) : bool :=
  if names_savpf caller_sdp then negb (bool_decide (SdpAudio.sdp_primary_codec callee_sdp = Transcoder.Opus))
  else if names_savpf callee_sdp then negb (bool_decide (SdpAudio.sdp_primary_codec caller_sdp = Transcoder.Opus))
  else SdpAudio.needs_transcoding caller_sdp callee_sdp.

(** The codec of one side and the payload type it is sent under there. *)
Definition side_codec (sdp : string) : Transcoder.Codec :=
  if names_savpf sdp then Transcoder.Opus else SdpAudio.sdp_primary_codec sdp.

Definition side_pt (sdp : string) : Z :=
  match SdpAudio.sdp_primary_format sdp with
  | Some f => if bool_decide (SdpAudio.codec f = side_codec sdp) then SdpAudio.pt f else Transcoder.codec_pt (side_codec sdp)
  | None => Transcoder.codec_pt (side_codec sdp)
  end.

Definition plan_of (s : MediaSession) : RelayPlan :=
  mkPlan
    (match sdp_caller s, sdp_callee s with
     | Some a, Some b => if must_transcode a b then Some (side_codec a, side_pt a, side_codec b, side_pt b) else None
     | _, _ => None
     end)
    (fst <$> (sdp_caller s ≫= telephone_event_pt)) (fst <$> (sdp_callee s ≫= telephone_event_pt))
    (match sdp_caller s with Some a => is_webrtc a | None => false end)
    (bool_decide (is_Some (ice_pwd_local_b s))).

(** [bound]: whether the four sockets could be bound. *)
Definition start_rtp_session (bound : bool) (id : string) (m : MediaManager) : sbc_result RelayPlan * MediaManager :=
  match get_session id m with
  | None => (session_not_found, m)
  | Some s =>
      if negb bound then (Err (ETransport "Failed to bind a media socket"), m)
      else
        (Ok (plan_of s),
         on_session id (fun s => s <| relaying := true |>)
           (m <| media_stats := <[id := mkStats 0 0 0 0]> (media_stats m) |>))
  end.

(** *** The end of a session *)

Definition recent_stats (now : Z) (e : CallMediaStats * Z) : bool := duration_since now e.2 <? ENDED_STATS_TTL.

Definition keep_recent (now : Z) (stats : gmap string (CallMediaStats * Z)) : gmap string (CallMediaStats * Z) :=
  filter (fun e => recent_stats now e.2 = true) stats.

Definition remember_stats (now : Z) (id : string) (m : MediaManager) : MediaManager :=
  match media_stats m !! id with
  | None => m
  | Some st =>
      let ended := <[id := (st, now)]> (ended_stats m) in
      m <| media_stats := delete id (media_stats m) |>
        <| ended_stats := if (MAX_ENDED_STATS <? size ended)%nat then keep_recent now ended else ended |>
  end.

Definition release_pairs (now : Z) (s : MediaSession) (m : MediaManager) : MediaManager :=
  let m := release now (ports s) m in
  match ports_b s with
  | Some pb => if PortAllocator.rtp pb =? PortAllocator.rtp (ports s) then m else release now pb m
  | None => m
  end.

Definition terminate_session (now : Z) (id : string) (m : MediaManager) : sbc_result unit * MediaManager :=
  match get_session id m with
  | None => (session_not_found, m)
  | Some s => (Ok tt, release_pairs now s (remember_stats now id (m <| sessions := delete id (sessions m) |>)))
  end.

Definition call_media_stats (id : string) (m : MediaManager) : option CallMediaStats :=
  match media_stats m !! id with Some st => Some st | None => fst <$> ended_stats m !! id end.

Definition forget_media_stats (id : string) (m : MediaManager) : MediaManager :=
  m <| ended_stats := delete id (ended_stats m) |>.

Definition sweep (now : Z) (m : MediaManager) : MediaManager :=
  m <| port_allocator := PortAllocator.sweep_quarantine now (port_allocator m) |>
    <| ended_stats := keep_recent now (ended_stats m) |>.

Record MediaStats := mkMediaStats {
  active_sessions : nat;
  allocated_ports : Z;
  available_ports : Z;
  quarantined_ports : Z;
  forced_reuse : Z
}.

(** Counting the quarantined pairs expires those that are due. *)
Definition stats (now : Z) (m : MediaManager) : MediaStats * MediaManager :=
  let pool := port_allocator m in
  let '(q, pool') := PortAllocator.quarantined_count now pool in
  (mkMediaStats (size (sessions m)) (PortAllocator.allocated_count pool) (PortAllocator.available_count pool) q
     (PortAllocator.forced pool'), m <| port_allocator := pool' |>).

Definition cleanup_all (m : MediaManager) : nat * MediaManager :=
  (size (sessions m), m <| sessions := ∅ |> <| port_allocator := PortAllocator.clear (port_allocator m) |>).

(** What a relay counted so far. *)
Definition counted (id : string) (st : CallMediaStats) (m : MediaManager) : MediaManager :=
  match media_stats m !! id with
  | Some _ => m <| media_stats := <[id := st]> (media_stats m) |>
  | None => m
  end.

(** ** Ports *)

Definition pairs_of (s : MediaSession) : list PortAllocator.PortPair := ports s :: option_list (ports_b s).
Definition held (m : MediaManager) : list PortAllocator.PortPair :=
  concat (map pairs_of (map_to_list (sessions m)).*2).

(** The pool holds exactly the pairs of the sessions. *)
Definition ports_inv (now : Z) (m : MediaManager) : Prop := PortAllocator.pool_inv now (held m) (port_allocator m).

Lemma pool_perm now l l' s : l ≡ₚ l' -> PortAllocator.pool_inv now l s -> PortAllocator.pool_inv now l' s.
Proof.
  intros Hp []. unfold PortAllocator.busy in *. assert (Hb : l ++ (PortAllocator.quarantine s).*1 ≡ₚ l' ++ (PortAllocator.quarantine s).*1)
    by by rewrite Hp. constructor; unfold PortAllocator.busy; try done.
  - by rewrite <- Hb.
  - by rewrite <- Hb.
  - intros x. rewrite inv_alloc. split; intros (p & Hin & Hx); exists p; (split; [|done]); by rewrite Hb in * || by rewrite <- Hb in *.
Qed.

Lemma held_insert id s m :
  sessions m !! id = None -> held (m <| sessions := <[id := s]> (sessions m) |>) ≡ₚ pairs_of s ++ held m.
Proof. intros Hi. unfold held. cbn [sessions]. change (sessions (m <| sessions := ?x |>)) with x. by rewrite map_to_list_insert. Qed.

Lemma held_delete id s m :
  sessions m !! id = Some s -> held m ≡ₚ pairs_of s ++ held (m <| sessions := delete id (sessions m) |>).
Proof.
  intros Hi. unfold held. change (sessions (m <| sessions := ?x |>)) with x. by rewrite <- (map_to_list_delete (sessions m) id s).
Qed.

Lemma held_alter id f m : (forall s, pairs_of (f s) = pairs_of s) -> held (on_session id f m) ≡ₚ held m.
Proof.
  intros Hf. unfold on_session. destruct (sessions m !! id) as [s|] eqn:Hi.
  - assert (Hd := held_delete id s m Hi). rewrite Hd. unfold held. change (sessions (m <| sessions := ?x |>)) with x.
    rewrite <- (map_to_list_delete (alter f id (sessions m)) id (f s)) by by rewrite lookup_alter_eq, Hi.
    rewrite delete_alter_eq. cbn [fmap list_fmap map concat snd]. by rewrite Hf.
  - unfold held. change (sessions (m <| sessions := ?x |>)) with x. by rewrite alter_id'.
Qed.

Lemma allocate_held now m : ports_inv now m ->
  let '(r, m') := allocate now m in
  sessions m' = sessions m /\ media_stats m' = media_stats m /\ ended_stats m' = ended_stats m /\
  PortAllocator.pool_inv now (match r with Ok p => p :: held m | Err _ => held m end) (port_allocator m').
Proof.
  intros Hi. unfold allocate. assert (Hs := PortAllocator.allocate_spec now (held m) (port_allocator m) Hi).
  destruct (PortAllocator.allocate now (port_allocator m)) as [r pool]. destruct Hs as [_ Hs]. split_and!; try done.

Qed.

Lemma release_held now p l m :
  PortAllocator.pool_inv now (p :: l) (port_allocator m) -> PortAllocator.pool_inv now l (port_allocator (release now p m)).
Proof. apply (PortAllocator.release_inv now [] l). Qed.

Lemma release_frame now p m : sessions (release now p m) = sessions m.
Proof. done. Qed.

Lemma create_ports now id sdp m : ports_inv now m -> sessions m !! id = None ->
  let '(r, m') := create_session now id sdp m in
  ports_inv now m' /\ dom (sessions m') ⊆ {[id]} ∪ dom (sessions m) /\
  (forall e, r = Err e -> sessions m' = sessions m).
Proof.
  intros Hi Hid. unfold create_session. assert (H1 := allocate_held now m Hi). destruct (allocate now m) as [[pa|e] m1].
  2: { destruct H1 as (Hs & _ & _ & Hp). unfold ports_inv, held. rewrite Hs. split_and!; [done|set_solver|done]. }
  destruct H1 as (Hs1 & _ & _ & Hp1). unfold allocate.
  assert (H2 := PortAllocator.allocate_spec now (pa :: held m) (port_allocator m1) Hp1).
  destruct (PortAllocator.allocate now (port_allocator m1)) as [[pb|e] pool] eqn:E2; destruct H2 as [_ H2]; cbn in H2.
  2: { change (sessions (release ?n ?p ?m)) with (sessions m). change (sessions (m1 <| port_allocator := pool |>)) with (sessions m1).
       rewrite Hs1. split_and!; [|set_solver|done]. unfold ports_inv, held. change (sessions (release ?n ?p ?m)) with (sessions m).
       change (sessions (m1 <| port_allocator := pool |>)) with (sessions m1). rewrite Hs1. apply (release_held now pa (held m) (m1 <| port_allocator := pool |>)), H2. }
  assert (Hfail : forall e : sbc_error, let m' := release now pb (release now pa (m1 <| port_allocator := pool |>)) in
    ports_inv now m' /\ dom (sessions m') ⊆ {[id]} ∪ dom (sessions m) /\ sessions m' = sessions m).
  { intros e m'. change (sessions m') with (sessions m1). rewrite Hs1. split_and!; [|set_solver|done].
    unfold ports_inv, held. change (sessions m') with (sessions m1). rewrite Hs1. apply release_held.
    apply release_held. eapply pool_perm; [apply perm_swap|exact H2]. }
  assert (Hgood : forall t, let s := mkMediaSession id pa (Some pb) None None t None false None None None None in
    let m' := (m1 <| port_allocator := pool |>) <| sessions := <[id := s]> (sessions m1) |> in
    ports_inv now m' /\ dom (sessions m') ⊆ {[id]} ∪ dom (sessions m) /\
    (forall e : sbc_error, Ok s = Err e -> sessions m' = sessions m)).
  { intros t s m'. split_and!; [|cbn; rewrite Hs1, dom_insert_L; set_solver|done]. unfold ports_inv.
    eapply pool_perm; [|exact H2]. unfold m'. change (sessions m1) with (sessions (m1 <| port_allocator := pool |>)).
    rewrite held_insert by by cbn; rewrite Hs1. unfold held. cbn [sessions]. change (sessions (m1 <| port_allocator := pool |>)) with (sessions m1).
    rewrite Hs1. unfold pairs_of. apply perm_swap. }
  destruct sdp as [sd|]; [|apply Hgood]. destruct (modify_sdp sd (PortAllocator.rtp pa)) as [t|e]; [apply Hgood|].
  destruct (Hfail e) as (F1 & F2 & F3). split_and!; [done..|]. intros e' _. by apply F3.
Qed.

Lemma create_named now id sdp m x : (create_session now id sdp m).1 = Ok x -> session_id x = id.
Proof.
  unfold create_session. destruct (allocate now m) as [[pa|e] m1]; [|done]. destruct (allocate now m1) as [[pb|e] m2]; [|done].
  destruct sdp as [d|]; [destruct (modify_sdp _ _)|]; [|done|]; by intros [= <-].
Qed.

Lemma pairs_distinct now m s pb :
  ports_inv now m -> (exists id, sessions m !! id = Some s) -> ports_b s = Some pb ->
  PortAllocator.rtp pb <> PortAllocator.rtp (ports s).
Proof.
  intros Hi [id Hs] Hb Heq. unfold ports_inv in Hi. assert (Hi' := pool_perm _ _ _ _ (held_delete id s m Hs) Hi).
  destruct Hi' as [_ _ _ _ _ Hn Hok _ _ _]. unfold PortAllocator.busy, pairs_of in *. rewrite Hb in *. cbn [option_list app] in *.
  inversion_clear Hok as [|? ? Ha Hok']. inversion_clear Hok' as [|? ? Hb' _].
  apply NoDup_cons in Hn as [Hn _]. apply Hn.
  assert (E1 := PortAllocator.pair_ok_eta _ _ Ha). assert (E2 := PortAllocator.pair_ok_eta _ _ Hb').
  rewrite Heq, <- E1 in E2. rewrite E2. by left.
Qed.

Lemma terminate_ports now id m : ports_inv now m -> ports_inv now (terminate_session now id m).2.
Proof.
  intros Hi. unfold terminate_session, get_session. destruct (sessions m !! id) as [s|] eqn:Hs; [|done]. cbn [snd].
  set (m0 := m <| sessions := delete id (sessions m) |>). set (m1 := remember_stats now id m0).
  assert (Hm1 : sessions m1 = sessions m0 /\ port_allocator m1 = port_allocator m).
  { unfold m1, remember_stats. by destruct (media_stats m0 !! id). }
  destruct Hm1 as [Hs1 Hp1]. assert (Hd := held_delete id s m Hs). fold m0 in Hd.
  assert (Hpool := pool_perm _ _ _ _ Hd Hi). rewrite <- Hp1 in Hpool.
  assert (Hh : held m1 = held m0) by by unfold held; rewrite Hs1.
  unfold release_pairs. destruct (ports_b s) as [pb|] eqn:Hb.
  - assert (Hne := pairs_distinct now m s pb Hi (ex_intro _ id Hs) Hb). rewrite (proj2 (Z.eqb_neq _ _) Hne).
    unfold ports_inv. change (held (release now pb (release now (ports s) m1))) with (held m1). rewrite Hh.
    apply release_held, release_held. unfold pairs_of in Hpool. by rewrite Hb in Hpool.
  - unfold ports_inv. change (held (release now (ports s) m1)) with (held m1). rewrite Hh.
    apply release_held. unfold pairs_of in Hpool. by rewrite Hb in Hpool.
Qed.

Lemma terminate_sessions now id m : sessions (terminate_session now id m).2 = delete id (sessions m).
Proof.
  unfold terminate_session, get_session. destruct (sessions m !! id) as [s|] eqn:Hs; [|by rewrite delete_id]. cbn [snd].
  unfold release_pairs, remember_stats. destruct (media_stats _ !! id), (ports_b s); try case_match; done.
Qed.

(** *** Runs *)

Inductive Op :=
  | Tick (later : Z)
  | CreateS (id : string) (sdp : option string)
  | Terminate (id : string)
  | Start (bound : bool) (id : string)
  | UpdateCallee (id sdp : string)
  | Keys (id sdp : string) (is_leg_a : bool)
  | Configure (id : string) (a b : option SocketAddr) (sdp pwd pwd_b : option string)
  | Count (id : string) (st : CallMediaStats)
  | Forget (id : string)
  | Sweep
  | CleanUp.

Definition when_some {A} (o : option A) (f : A -> MediaManager -> MediaManager) (m : MediaManager) : MediaManager :=
  match o with Some a => f a m | None => m end.

Definition media_step (w : Z * MediaManager) (op : Op) : Z * MediaManager :=
  let '(now, m) := w in
  match op with
  | Tick t => (now + Z.max 0 t, m)
  | CreateS id sdp => (now, (create_session now id sdp m).2)
  | Terminate id => (now, (terminate_session now id m).2)
  | Start bound id => (now, (start_rtp_session bound id m).2)
  | UpdateCallee id sdp => (now, (update_callee_sdp id sdp m).2)
  | Keys id sdp is_leg_a => (now, extract_srtp_from_sdp id sdp is_leg_a m)
  | Configure id a b sdp pwd pwd_b =>
      (now, when_some a (fun a m => (set_endpoint_a id a m).2)
              (when_some b (fun b m => (set_endpoint_b id b m).2)
                (when_some sdp (set_callee_sdp id)
                  (when_some pwd (set_ice_pwd_local id) (when_some pwd_b (set_ice_pwd_local_b id) m)))))
  | Count id st => (now, counted id st m)
  | Forget id => (now, forget_media_stats id m)
  | Sweep => (now, sweep now m)
  | CleanUp => (now, (cleanup_all m).2)
  end.

Definition created (ops : list Op) : list string := omap (fun op => match op with CreateS id _ => Some id | _ => None end) ops.

Lemma alter_ports now id f m :
  (forall s, pairs_of (f s) = pairs_of s) -> ports_inv now m -> ports_inv now (on_session id f m).
Proof. intros Hf. apply pool_perm. symmetry. by apply held_alter. Qed.

Lemma when_some_ports {A} now (o : option A) f m :
  (forall a m, ports_inv now m -> ports_inv now (f a m)) -> ports_inv now m -> ports_inv now (when_some o f m).
Proof. intros Hf Hi. destruct o as [a|]; [by apply Hf|done]. Qed.

Lemma later_ports now now' m : now <= now' -> ports_inv now m -> ports_inv now' m.
Proof. intros Hle []. constructor; try done. eapply Forall_impl; [exact inv_times|]. cbn. lia. Qed.

Lemma media_step_ports now m op :
  ports_inv now m -> (forall id, id ∈ created [op] -> sessions m !! id = None) ->
  ports_inv (media_step (now, m) op).1 (media_step (now, m) op).2.
Proof.
  intros Hi Hid. destruct op; cbn [media_step fst snd].
  - apply (later_ports now); [lia|done].
  - assert (H := create_ports now id sdp m Hi (Hid id ltac:(by left))). destruct (create_session now id sdp m). by destruct H.
  - by apply terminate_ports.
  - unfold start_rtp_session. destruct (get_session id m); [|done]. destruct bound; [|done]. by apply alter_ports.
  - unfold update_callee_sdp. destruct (get_session id m); [|done]. destruct (modify_sdp _ _); [|done]. by apply alter_ports.
  - unfold extract_srtp_from_sdp. destruct (crypto_of sdp); [|done]. apply alter_ports; [|done]. by destruct is_leg_a.
  - repeat (apply when_some_ports; [intros; by apply alter_ports|]). done.
  - unfold counted. by destruct (media_stats m !! id).
  - done.
  - by apply PortAllocator.sweep_inv.
  - unfold cleanup_all, ports_inv. by apply PortAllocator.clear_inv in Hi.
Qed.

Lemma dom_alter_sub id f (m : MediaManager) : dom (sessions (on_session id f m)) = dom (sessions m).
Proof. apply dom_alter_L. Qed.

Lemma media_step_dom now m op :
  ports_inv now m -> (forall id, id ∈ created [op] -> sessions m !! id = None) ->
  dom (sessions (media_step (now, m) op).2) ⊆ list_to_set (created [op]) ∪ dom (sessions m).
Proof.
  intros Hi Hid. destruct op; cbn [media_step fst snd]; try set_solver.
  - assert (H := create_ports now id sdp m Hi (Hid id ltac:(by left))). destruct (create_session now id sdp m) as [r m'].
    destruct H as (_ & H & _). cbn. set_solver.
  - rewrite terminate_sessions, dom_delete_L. set_solver.
  - unfold start_rtp_session. destruct (get_session id m); [|set_solver]. destruct bound; [|set_solver]. cbn [negb snd].
    rewrite dom_alter_sub. set_solver.
  - unfold update_callee_sdp. destruct (get_session id m); [|set_solver]. destruct (modify_sdp _ _); [|set_solver]. cbn [snd].
    rewrite dom_alter_sub. set_solver.
  - unfold extract_srtp_from_sdp. destruct (crypto_of sdp); [|set_solver]. rewrite dom_alter_sub. set_solver.
  - assert (H : dom (sessions (when_some a (fun a m => (set_endpoint_a id a m).2)
              (when_some b (fun b m => (set_endpoint_b id b m).2)
                (when_some sdp (set_callee_sdp id)
                  (when_some pwd (set_ice_pwd_local id) (when_some pwd_b (set_ice_pwd_local_b id) m)))))) = dom (sessions m)).
    { destruct a, b, sdp, pwd, pwd_b; cbn [when_some]; unfold set_endpoint_a, set_endpoint_b, set_callee_sdp, set_ice_pwd_local,
        set_ice_pwd_local_b; cbn [snd]; by rewrite ?dom_alter_sub. }
    rewrite H. set_solver.
  - unfold counted. destruct (media_stats m !! id); set_solver.
Qed.

Lemma media_run_ports ops now m :
  ports_inv now m -> NoDup (created ops) -> (forall id, id ∈ created ops -> sessions m !! id = None) ->
  ports_inv (fold_left media_step ops (now, m)).1 (fold_left media_step ops (now, m)).2.
Proof.
  revert now m. induction ops as [|op ops IH]; intros now m Hi Hn Hid; [done|]. cbn [fold_left].
  assert (Hc : created (op :: ops) = created [op] ++ created ops) by (unfold created; by rewrite <- omap_app).
  rewrite Hc in *. apply NoDup_app in Hn as (_ & Hd & Hn).
  assert (Hop : forall id, id ∈ created [op] -> sessions m !! id = None) by (intros id H; apply Hid, elem_of_app; by left).
  assert (H1 := media_step_ports now m op Hi Hop). assert (H2 := media_step_dom now m op Hi Hop).
  destruct (media_step (now, m) op) as [now' m']. apply IH; [done|done|]. intros id H. apply not_elem_of_dom. intros Hin.
  apply H2, elem_of_union in Hin as [Hin|Hin].
  - apply elem_of_list_to_set in Hin. by apply (Hd id).
  - apply elem_of_dom in Hin as [s Hs]. rewrite (Hid id) in Hs; [done|]. apply elem_of_app. by right.
Qed.

(** No port is in two pairs; a port is marked when a session or the quarantine
    has it. *)
Definition ports_exact (m : MediaManager) : Prop :=
  NoDup (held m) /\
  (forall p q x, p ∈ held m -> q ∈ held m -> x ∈ PortAllocator.ports_of p -> x ∈ PortAllocator.ports_of q -> p = q) /\
  (forall x, x ∈ PortAllocator.allocated (port_allocator m) <->
     exists p, x ∈ PortAllocator.ports_of p /\ (p ∈ held m \/ p ∈ (PortAllocator.quarantine (port_allocator m)).*1)).

Lemma ports_inv_exact now m : ports_inv now m -> ports_exact m.
Proof.
  intros [_ _ _ _ _ Hnd Hok Hal _ _]. unfold PortAllocator.busy in *. split_and!.
  - by apply NoDup_app in Hnd as (? & _).
  - intros p q x Hp Hq. rewrite Forall_forall in Hok. apply (PortAllocator.ports_disjoint (port_allocator m)); apply Hok, elem_of_app; by left.
  - intros x. rewrite Hal. by setoid_rewrite elem_of_app; naive_solver.
Qed.

Lemma ports_inv_init now start stop hold :
  is_u16 start -> is_u16 stop -> 0 <= hold -> ports_inv now (new (PortAllocator.with_range_and_hold start stop hold)).
Proof. intros. constructor; unfold PortAllocator.busy; simpl; try done; try constructor; set_solver. Qed.

(** Only the pairs of the sessions matter. *)
Lemma held_ext m m' : pairs_of <$> sessions m' = pairs_of <$> sessions m -> held m' = held m.
Proof.
  intros H. assert (Hh : forall x, held x = concat (map_to_list (pairs_of <$> sessions x)).*2).
  { intros x. unfold held. rewrite map_to_list_fmap. f_equal. rewrite <- !list_fmap_compose. apply list_fmap_ext. by intros ? [] _. }
  by rewrite !Hh, H.
Qed.

(** The ports in use are those of the live sessions. Whatever sessions are
    created, started, changed and ended, in any order and however often, with
    or without room in the pool or an SDP body that parses: no two pairs in
    use share a port, each is marked in the pool, and a marked port is a live
    session's or waits out its quarantine, so none leaks. *)
Theorem media_ports_exact start stop hold t0 ops :
  is_u16 start -> is_u16 stop -> 0 <= hold -> NoDup (created ops) ->
  let '(_, m) := fold_left media_step ops (t0, new (PortAllocator.with_range_and_hold start stop hold)) in
  NoDup (held m) /\
  (forall p q x, p ∈ held m -> q ∈ held m -> x ∈ PortAllocator.ports_of p -> x ∈ PortAllocator.ports_of q -> p = q) /\
  (forall x, x ∈ PortAllocator.allocated (port_allocator m) <->
     exists p, x ∈ PortAllocator.ports_of p /\ (p ∈ held m \/ p ∈ (PortAllocator.quarantine (port_allocator m)).*1)).
Proof.
  intros H1 H2 H3 Hn. assert (Hi := ports_inv_init t0 start stop hold H1 H2 H3).
  assert (Hr := media_run_ports ops t0 _ Hi Hn ltac:(done)). destruct (fold_left _ _ _) as [now m].
  exact (ports_inv_exact now m Hr).
Qed.

(** ** Bodies sent through the relay *)

(** An attribute after [rewrite_rtcp_attr]. *)
Definition moved_attr (rtcp_port : Z) (a : Attribute) : Attribute :=
  match a_value a with
  | Some v => if seqb (a_key a) "rtcp" && (0 <? digit_end v)%nat
              then mkAttribute "rtcp" (Some (show rtcp_port +:+ sdrop (digit_end v) v)) else a
  | None => a
  end.

Definition moved (rtcp_port : Z) (s : SessionDescription) : SessionDescription :=
  s <| media := map (fun m => m <| attributes := map (moved_attr rtcp_port) (attributes m) |>) (media s) |>.

Lemma rewrite_other q line : strip_prefix "a=" line = None -> negb (Ascii.is_space (default " "%char (String.get 0 line))) = true ->
  rewrite_rtcp_line q line = line.
Proof.
  intros Ha Hs. destruct line as [|c line]; [done|]. unfold rewrite_rtcp_line. cbn [trim_start_by String.get default] in *.
  apply negb_true_iff in Hs. cbn in Hs. rewrite Hs. destruct (strip_prefix "a=rtcp:" (String c line)) as [rest|] eqn:E; [|done].
  apply strip_prefix_spec in E. rewrite E in Ha. done.
Qed.

Lemma rewrite_attribute q a : attribute_ok a -> rewrite_rtcp_line q (attribute_line a) = attribute_line (moved_attr q a).
Proof.
  intros [[_ Hk] _]. unfold rewrite_rtcp_line, attribute_line, moved_attr. destruct a as [k [v|]]; cbn [a_key a_value] in *.
  - change (trim_start_by Ascii.is_space ("a=" +:+ k +:+ ":" +:+ v)) with ("a=" +:+ k +:+ ":" +:+ v).
    destruct (strip_prefix "a=rtcp:" ("a=" +:+ k +:+ ":" +:+ v)) as [rest|] eqn:E.
    + apply strip_prefix_spec in E. assert (Heq : k +:+ String ":" v = "rtcp" +:+ String ":" rest).
      { change ("a=rtcp:" +:+ rest) with ("a=" +:+ ("rtcp" +:+ String ":" rest)) in E. by simplify_eq/=. }
      assert (H1 := split_once_app ":" k v Hk). rewrite Heq in H1. rewrite (split_once_app ":" "rtcp" rest) in H1 by done.
      injection H1 as <- <-. cbn [andb]. change (seqb "rtcp" "rtcp") with true. cbn [andb]. by destruct (0 <? digit_end rest)%nat.
    + destruct (seqb k "rtcp") eqn:Ek; [|done]. apply seqb_true in Ek. subst k. done.
  - change (trim_start_by Ascii.is_space ("a=" +:+ k)) with ("a=" +:+ k). destruct (strip_prefix _ _) as [rest|] eqn:E; [|done].
    apply strip_prefix_spec in E. assert (Heq : k = "rtcp" +:+ String ":" rest) by by simplify_eq/=.
    rewrite Heq, free_of_app, free_of_cons in Hk. done.
Qed.

Lemma rewrite_media_lines q m : Forall attribute_ok (attributes m) ->
  map (rewrite_rtcp_line q) (media_lines m) = media_lines (m <| attributes := map (moved_attr q) (attributes m) |>).
Proof.
  intros Ha. unfold media_lines. cbn [map]. rewrite rewrite_other by done. apply (f_equal (cons _)). rewrite map_app. apply (f_equal2 app).
  - change (m_connection (m <| attributes := ?x |>)) with (m_connection m). destruct (m_connection m); [|done]. cbn [opt_line map]. by rewrite rewrite_other.
  - change (attributes (m <| attributes := ?x |>)) with x. induction Ha as [|a l H _ IHa]; [done|]. cbn [map].
    by rewrite rewrite_attribute, IHa.
Qed.

Lemma rewrite_lines q s : session_ok s -> map (rewrite_rtcp_line q) (session_lines s) = session_lines (moved q s).
Proof.
  intros [_ _ _ _ _ Hm]. unfold session_lines. rewrite !map_app. repeat apply (f_equal2 app).
  - cbn [map]. by rewrite !rewrite_other.
  - change (connection (moved q s)) with (connection s). destruct (connection s); [|done]. cbn [opt_line map]. by rewrite rewrite_other.
  - cbn [map]. by rewrite rewrite_other.
  - change (media (moved q s)) with (map (fun m => m <| attributes := map (moved_attr q) (attributes m) |>) (media s)).
    induction Hm as [|m ms [_ _ _ _ _ Ha] _ IH]; [done|]. cbn [map concat]. by rewrite map_app, IH, rewrite_media_lines.
Qed.

(** *** Well-formedness is kept *)

Lemma moved_attr_ok q a : 0 <= q -> attribute_ok a -> attribute_ok (moved_attr q a).
Proof.
  intros Hq Ha. unfold moved_attr. destruct (a_value a) as [v|] eqn:E; [|done]. destruct (_ && _); [|done].
  split; [done|]. intros w [= <-]. apply at_value with a v in Ha; [|done]. by rewrite no_lf_app, no_lf_show, no_lf_sdrop by auto.
Qed.

Lemma map_media_ok f s :
  session_ok s -> (forall m, media_ok m -> media_ok (f m)) -> session_ok (s <| media := map f (media s) |>).
Proof.
  intros [? ? ? ? ? Hm] Hf. split; try done. apply Forall_map. eapply Forall_impl; [exact Hm|exact Hf].
Qed.

Lemma moved_ok q s : 0 <= q -> session_ok s -> session_ok (moved q s).
Proof.
  intros Hq Hs. apply map_media_ok; [done|]. intros m []. split; try done. apply Forall_map. eapply Forall_impl; [done|].
  intros a. by apply moved_attr_ok.
Qed.

Lemma replace_port_ok t p s : 0 <= p <= u16_max -> session_ok s -> session_ok (replace_port t p s).
Proof. intros Hp Hs. apply map_media_ok; [done|]. intros m []. by case_bool_decide. Qed.

Section words.
(** An address is printed as one word. *)
Hypothesis ip_word : forall i, is_word (ip_text i) = true.

Lemma readdress_ok i c : connection_ok c -> connection_ok (readdress (ip_text i) (address_type_of i) c).
Proof.
  unfold connection_ok, words_ok. rewrite !Forall_cons. intros (H & _ & _ & _). split_and!; try done; [by destruct i|apply ip_word].
Qed.

Lemma fmap_some {A B} (f : A -> B) (P : B -> Prop) (o : option A) :
  (forall a, o = Some a -> P (f a)) -> forall b, f <$> o = Some b -> P b.
Proof. destruct o; [|done]. intros H b [= <-]. by apply H. Qed.

Lemma replace_ip_ok i s : session_ok s -> session_ok (replace_ip ip_text i s).
Proof.
  intros [Hv Ho Hn Hc Ht Hm]. split; try done.
  - unfold words_ok in *. rewrite !Forall_cons in Ho. rewrite !Forall_cons. destruct Ho as (? & ? & ? & ? & _).
    split_and!; try done; [by destruct i|apply ip_word].
  - unfold replace_ip. cbn. apply fmap_some. intros c Hx. by apply readdress_ok, Hc.
  - apply Forall_map. eapply Forall_impl; [exact Hm|]. intros m []. split; try done. cbn. apply fmap_some. intros c Hx.
    by apply readdress_ok, md_connection.
Qed.

Lemma with_public_ip_ok s : session_ok s -> session_ok (with_public_ip s).
Proof. unfold with_public_ip. destruct public_ip; [apply replace_ip_ok|done]. Qed.

Lemma ends_with_app a b : ends_with b (a +:+ b) = true.
Proof.
  unfold ends_with. rewrite slength_app. replace (String.length a + String.length b - String.length b)%nat with (String.length a) by lia.
  rewrite sdrop_app, seqb_refl, andb_true_r. apply Nat.leb_le. lia.
Qed.

Lemma unlines_end ls : ls <> [] -> ends_with CRLF (unlines ls "") = true.
Proof.
  intros Hne. assert (H : exists a, unlines ls "" = a +:+ CRLF).
  { induction ls as [|l [|l' ls] IH]; [done| |].
    - exists l. cbn. by rewrite sapp_nil_r.
    - destruct IH as [a Ha]; [done|]. exists (l +:+ CRLF +:+ a). change (unlines (l :: l' :: ls) "") with (l +:+ CRLF +:+ unlines (l' :: ls) "").
      by rewrite Ha, !sapp_assoc. }
  destruct H as [a ->]. apply ends_with_app.
Qed.

Lemma anchored_render s p : session_ok s ->
  rewrite_rtcp_attr (render s) p = render (moved p s).
Proof.
  intros Hs. unfold rewrite_rtcp_attr, render. rewrite lines_unlines by by apply session_lines_no_lf. rewrite rewrite_lines by done.
  by rewrite (unlines_end (session_lines s)) by done.
Qed.

Lemma formats_with_ip s : map formats (media (with_public_ip s)) = map formats (media s).
Proof. unfold with_public_ip. destruct public_ip; [|done]. unfold replace_ip. cbn. rewrite map_map. by apply map_ext. Qed.

(** What the rewriting leaves of a media description: its kind, protocol and
    payload types, a port that is not the audio's, and every attribute but the
    number in a=rtcp. *)
Definition same_media (p : Z) (m m' : MediaDescription) : Prop :=
  media_type m' = media_type m /\ protocol m' = protocol m /\ formats m' = formats m /\
  m_port m' = (if bool_decide (media_type m = Audio) then p else m_port m) /\
  attributes m' = map (moved_attr (p + 1)) (attributes m).

Definition addresses (s : SessionDescription) : list string :=
  o_address (origin s) :: map c_address (option_list (connection s) ++ omap m_connection (media s)).

Definition anchored (p : Z) (s : SessionDescription) : SessionDescription :=
  moved (p + 1) (replace_port Audio p (with_public_ip s)).

Lemma Forall2_map_r {A B} (R : A -> B -> Prop) f l : (forall a, R a (f a)) -> Forall2 R l (map f l).
Proof. intros H. induction l; constructor; auto. Qed.

Lemma anchored_media p s : Forall2 (same_media p) (media s) (media (anchored p s)).
Proof.
  unfold anchored, moved, replace_port, with_public_ip. cbn [media]. destruct public_ip; cbn; rewrite ?map_map;
    apply Forall2_map_r; intros m; unfold same_media; cbn; by case_bool_decide.
Qed.

Lemma anchored_addresses p s i : public_ip = Some i -> Forall (eq (ip_text i)) (addresses (anchored p s)).
Proof.
  intros Hi. unfold anchored, with_public_ip. rewrite Hi. constructor; [done|]. cbn. apply Forall_map, Forall_app. split.
  - destruct (connection s); by repeat constructor.
  - rewrite !map_map. induction (media s) as [|m ms IH]; [constructor|]. cbn [map].
    change (omap m_connection (?x :: ?l)) with (match m_connection x with Some y => y :: omap m_connection l | None => omap m_connection l end).
    case_bool_decide; cbn; destruct (m_connection m); cbn; [constructor; done|done|constructor; done|done].
Qed.

(** C18: a body sent through the relay names the relay. A body that parses, with
    a payload type left on every m= line, becomes one that parses again, whose
    origin and every connection line carry the configured address, whose audio
    port is the relay's and whose a=rtcp port is the one after it; kinds,
    protocols, payload types, the other ports and attributes are kept. *)
Theorem sdp_anchored sdp s p :
  parse sdp = Ok s -> has_formats s -> 0 <= p < u16_max ->
  exists s', parse (rewrite_sdp_for_proxy sdp p) = Ok s' /\
    (forall i, public_ip = Some i -> Forall (eq (ip_text i)) (addresses s')) /\
    Forall2 (same_media p) (media s) (media s').
Proof.
  intros Hp Hf Hport. assert (Hs := with_public_ip_ok s (parse_ok sdp s Hp)).
  assert (Hw : wrapw 16 (p + 1) = p + 1) by (unfold wrapw, u16_max in *; apply Z.mod_small; lia).
  exists (anchored p s). unfold rewrite_sdp_for_proxy. rewrite Hp, Hw, anchored_render by (apply replace_port_ok; [lia|done]).
  split_and!; [|by intros i; apply anchored_addresses|apply anchored_media]. apply parse_render.
  - apply moved_ok; [lia|]. apply replace_port_ok; [lia|done].
  - assert (Hm := anchored_media p s). unfold has_formats in *. revert Hf. induction Hm as [|m m' l l' (_ & _ & Hfm & _) _ IH]; [done|].
    rewrite !Forall_cons, Hfm. naive_solver.
Qed.
End words.
End ip.

(** ** Witnesses *)

Module Witness.
Definition body : string :=
  unlines ["v=0"; "o=- 1 2 IN IP4 10.0.0.9"; "s=Talk"; "c=IN IP4 10.0.0.9"; "t=0 0"; "m=audio 7078 RTP/AVP 0 101";
           "a=rtcp:7079 IN IP4 10.0.0.9"; "a=sendrecv"; "m=video 9078 RTP/AVP 97"; "c=IN IP4 10.0.0.8"] "".

Definition ip_text (i : IpAddr) : string := "203.0.113.5".
Definition ip : IpAddr := V4 [203; 0; 113; 5].

Example rewrite_example :
  lines (rewrite_sdp_for_proxy ip_text (Some ip) body 10000) =
  ["v=0"; "o=- 1 2 IN IP4 203.0.113.5"; "s=Talk"; "c=IN IP4 203.0.113.5"; "t=0 0"; "m=audio 10000 RTP/AVP 0 101";
   "a=rtcp:10001 IN IP4 10.0.0.9"; "a=sendrecv"; "m=video 9078 RTP/AVP 97"; "c=IN IP4 203.0.113.5"].
Proof. by vm_compute. Qed.

(** Payload types that are not numbers are lost, and the m= line with them. *)
Example datachannel_lost :
  let b := unlines ["v=0"; "o=- 1 2 IN IP4 10.0.0.9"; "s=-"; "t=0 0"; "m=application 9 UDP/DTLS/SCTP webrtc-datachannel";
                    "m=audio 7078 RTP/AVP 0"] "" in
  match parse b, parse (rewrite_sdp_for_proxy ip_text (Some ip) b 10000) with
  | Ok s, Ok s' => length (media s) = 2%nat /\ media s' = []
  | _, _ => False
  end.
Proof. by vm_compute. Qed.

Lemma sdp_anchored_witness : exists s s', parse body = Ok s /\ parse (rewrite_sdp_for_proxy ip_text (Some ip) body 10000) = Ok s' /\
  Forall (eq "203.0.113.5") (addresses s') /\ Forall2 (same_media 10000) (media s) (media s').
Proof.
  destruct (parse body) as [s|e] eqn:E; [|vm_compute in E; done].
  destruct (sdp_anchored ip_text (Some ip) (fun _ => eq_refl) body s 10000 E) as (s' & H1 & H2 & H3).
  - vm_compute in E. injection E as <-. by repeat constructor.
  - done.
  - exists s, s'. split_and!; [done|done|exact (H2 ip eq_refl)|done].
Defined.

(** A call is set up, a second finds no pair, a third body does not parse. *)
Definition ops : list Op :=
  [CreateS "a" (Some body); Start true "a"; CreateS "b" None; Tick (secs 1); Terminate "a"; CreateS "c" (Some "v=x"); Sweep].

Example ops_result :
  let '(_, m) := fold_left (media_step ip_text (Some ip)) ops (0, new (PortAllocator.with_range_and_hold 10000 10006 (secs 30))) in
  held m = [] /\ length (PortAllocator.quarantine (port_allocator m)) = 3%nat /\ call_media_stats "a" m = Some (mkStats 0 0 0 0).
Proof. by vm_compute. Qed.

Lemma media_ports_exact_witness :
  let '(_, m) := fold_left (media_step ip_text (Some ip)) ops (0, new (PortAllocator.with_range_and_hold 10000 10006 (secs 30))) in
  NoDup (held m) /\
  (forall p q x, p ∈ held m -> q ∈ held m -> x ∈ PortAllocator.ports_of p -> x ∈ PortAllocator.ports_of q -> p = q) /\
  (forall x, x ∈ PortAllocator.allocated (port_allocator m) <->
     exists p, x ∈ PortAllocator.ports_of p /\ (p ∈ held m \/ p ∈ (PortAllocator.quarantine (port_allocator m)).*1)).
Proof.
  apply (media_ports_exact ip_text (Some ip) 10000 10006 (secs 30) 0 ops); [done|done|done|]. apply (bool_decide_eq_true _). by vm_compute.
Defined.
End Witness.
