(* ===== verification/SipBuilder.v ===== *)
(** * Requests the SBC originates (sip_builder.rs)

    The text of BYE, ACK, CANCEL and re-INVITE, the identity read back from a
    raw INVITE, and the renewal of a transaction. The random branch is an
    argument. *)

From S2P Require Import Prelude Str.

(** ** Data *)

Record DialogInfo := mkDialog {
  call_id : string;
  from_raw : string;
  to_raw : string;
  request_uri : string;
  cseq : Z;
  local_ip : string;
  local_port : Z;
  transport : string
}.

Record InviteIdentity := mkIdentity {
  id_uri : string;
  id_top_via : string;
  id_from : string;
  id_to : string;
  id_call_id : string;
  id_cseq : Z;
  id_routes : list string
}.

(** ** Building *)

Definition header (name value : string) : string := name +:+ ": " +:+ value.

Definition build_request (branch : string) (method : string) (d : DialogInfo)
    (cseq_method : string) (extra_headers : list (string * string)) (body : option string) : string :=
  let body := default "" body in
  unlines
    ([method +:+ " " +:+ request_uri d +:+ " SIP/2.0";
      header "Via" ("SIP/2.0/" +:+ to_ascii_uppercase (transport d) +:+ " " +:+ local_ip d +:+ ":"
                    +:+ show (local_port d) +:+ ";branch=" +:+ branch +:+ ";rport");
      "Max-Forwards: 70";
      header "From" (from_raw d);
      header "To" (to_raw d);
      header "Call-ID" (call_id d);
      header "CSeq" (show (cseq d) +:+ " " +:+ cseq_method)]
     ++ map (fun nv => header nv.1 nv.2) extra_headers
     ++ [header "Content-Length" (show (Z.of_nat (String.length body))); ""])
    body.

Definition build_bye (branch : string) (d : DialogInfo) (reason : option string) : string :=
  build_request branch "BYE" d "BYE"
    (match reason with Some r => [("Reason", r)] | None => [] end) None.

Definition with_cseq (d : DialogInfo) (n : Z) : DialogInfo :=
  mkDialog (call_id d) (from_raw d) (to_raw d) (request_uri d) n (local_ip d) (local_port d)
    (transport d).

Definition build_ack_for_2xx (branch : string) (d : DialogInfo) (invite_cseq : Z) : string :=
  build_request branch "ACK" (with_cseq d invite_cseq) "ACK" [] None.

Definition build_reinvite (branch : string) (d : DialogInfo) (sdp contact_uri : string)
    (session_expires : option (Z * string)) (min_se : option Z) : string :=
  build_request branch "INVITE" d "INVITE"
    ([("Contact", contact_uri); ("Supported", "timer")]
     ++ (match session_expires with
         | Some (interval, refresher) =>
             [("Session-Expires", show interval +:+ ";refresher=" +:+ refresher)]
         | None => [] end)
     ++ (match min_se with Some m => [("Min-SE", show m)] | None => [] end)
     ++ [("Content-Type", "application/sdp")])
    (Some sdp).

(** ** Reading an INVITE back *)

Record Scan := mkScan {
  s_via : option string;
  s_from : option string;
  s_to : option string;
  s_call_id : option string;
  s_cseq : option Z;
  s_routes : list string
}.

Definition scan_init : Scan := mkScan None None None None None [].

(** One header line. *)
Definition scan_line (a : Scan) (line : string) : Scan :=
  match split_once ":" line with
  | None => a
  | Some (name, value) =>
      let value := trim value in
      let name := to_ascii_lowercase (trim name) in
      if (seqb name "via" || seqb name "v") && bool_decide (s_via a = None)
      then mkScan (Some value) (s_from a) (s_to a) (s_call_id a) (s_cseq a) (s_routes a)
      else if seqb name "from" || seqb name "f"
      then mkScan (s_via a) (Some value) (s_to a) (s_call_id a) (s_cseq a) (s_routes a)
      else if seqb name "to" || seqb name "t"
      then mkScan (s_via a) (s_from a) (Some value) (s_call_id a) (s_cseq a) (s_routes a)
      else if seqb name "call-id" || seqb name "i"
      then mkScan (s_via a) (s_from a) (s_to a) (Some value) (s_cseq a) (s_routes a)
      else if seqb name "cseq"
      then mkScan (s_via a) (s_from a) (s_to a) (s_call_id a)
             (head (split_whitespace value) ≫= parse_uint u32_max) (s_routes a)
      else if seqb name "route"
      then mkScan (s_via a) (s_from a) (s_to a) (s_call_id a) (s_cseq a) (s_routes a ++ [value])
      else a
  end.

Fixpoint scan_lines (a : Scan) (ls : list string) : Scan :=
  match ls with
  | [] => a
  | line :: ls => if seqb line "" then a else scan_lines (scan_line a line) ls
  end.

(** The reading, for a request whose method is [method]. *)
Definition parse_identity (method : string) (raw : string) : option InviteIdentity :=
  match split_crlf raw with
  | [] => None
  | start :: ls =>
      let parts := split " " start in
      if bool_decide (parts !! 0%nat = Some method) then
        let a := scan_lines scan_init ls in
        uri ← parts !! 1%nat; via ← s_via a; from ← s_from a; to ← s_to a;
        cid ← s_call_id a; n ← s_cseq a;
        Some (mkIdentity uri via from to cid n (s_routes a))
      else None
  end.

Definition parse_invite_identity : string -> option InviteIdentity := parse_identity "INVITE".

(** The [branch=] parameter of a Via value. *)
Definition branch_end (c : ascii) : bool :=
  bool_decide (c = ";"%char) || bool_decide (c = ","%char) || Ascii.is_space c.

Definition via_value_branch (value : string) : option string :=
  match find_str "branch=" value with
  | None => None
  | Some pos =>
      let after := sdrop (pos + 7) value in
      let branch := trim (stake (default (String.length after) (find_by branch_end after)) after) in
      if seqb branch "" then None else Some branch
  end.

Fixpoint branch_lines (ls : list string) : option string :=
  match ls with
  | [] => None
  | line :: ls =>
      if seqb line "" then None
      else match split_once ":" line with
           | None => branch_lines ls
           | Some (name, value) =>
               let name := to_ascii_lowercase (trim name) in
               if negb (seqb name "via") && negb (seqb name "v") then branch_lines ls
               else via_value_branch value
           end
  end.

Definition top_via_branch (raw : string) : option string := branch_lines (drop 1 (split_crlf raw)).

(** ** CANCEL, ACK and renewal *)

Definition build_cancel (original_invite_raw : string) : option string :=
  id ← parse_invite_identity original_invite_raw;
  Some (unlines
    ["CANCEL " +:+ id_uri id +:+ " SIP/2.0";
     header "Via" (id_top_via id);
     "Max-Forwards: 70";
     header "From" (id_from id);
     header "To" (id_to id);
     header "Call-ID" (id_call_id id);
     header "CSeq" (show (id_cseq id) +:+ " CANCEL");
     "Content-Length: 0"; ""] "").

Definition build_ack_for_non_2xx (original_invite_raw response_to : string) : option string :=
  id ← parse_invite_identity original_invite_raw;
  Some (unlines
    (["ACK " +:+ id_uri id +:+ " SIP/2.0";
      header "Via" (id_top_via id);
      "Max-Forwards: 70"]
     ++ map (header "Route") (id_routes id)
     ++ [header "From" (id_from id);
         header "To" (trim response_to);
         header "Call-ID" (id_call_id id);
         header "CSeq" (show (id_cseq id) +:+ " ACK");
         "Content-Length: 0"; ""]) "").

(** The Via line with a fresh branch, the CSeq line one higher. *)
Definition renew_via (fresh line : string) : string :=
  match find_str "branch=" line with
  | Some pos =>
      let start := (pos + 7)%nat in
      let end_ := match find_by (fun c => bool_decide (c = ";"%char) || bool_decide (c = ","%char))
                          (sdrop start line) with
                  | Some i => (start + i)%nat | None => String.length line end in
      stake start line +:+ fresh +:+ sdrop end_ line
  | None => line +:+ ";branch=" +:+ fresh
  end.

Definition renew_cseq (line : string) : string :=
  match split_whitespace (sdrop 5 line) with
  | num :: method :: _ =>
      match parse_uint u32_max num with
      | Some n => "CSeq: " +:+ show (wrapw 32 (n + 1)) +:+ " " +:+ method
      | None => line
      end
  | _ => line
  end.

Fixpoint renew_lines (fresh : string) (via_done : bool) (ls : list string) : list string :=
  match ls with
  | [] => []
  | line :: ls =>
      let lower := to_ascii_lowercase line in
      if negb via_done && (starts_with "via:" lower || starts_with "v:" lower)
      then renew_via fresh line :: renew_lines fresh true ls
      else if starts_with "cseq:" lower then renew_cseq line :: renew_lines fresh via_done ls
      else line :: renew_lines fresh via_done ls
  end.

Definition renew_invite_transaction (fresh raw_invite : string) : string :=
  let '(hd, body) :=
    match find_str (CRLF +:+ CRLF) raw_invite with
    | Some pos => (stake pos raw_invite, sdrop (pos + 4) raw_invite)
    | None => (raw_invite, "")
    end in
  let ls := match split_crlf hd with
            | [] => [] | first :: ls => first :: renew_lines fresh false ls end in
  join CRLF ls +:+ CRLF +:+ CRLF +:+ body.

(** ** Lemmas on header lines *)

Definition clean (v : string) : Prop := crlf_free v = true /\ trim v = v.

Lemma clean_trim v : crlf_free v = true -> clean (trim v).
Proof. intros H. split; [by apply crlf_free_trim|apply trim_idem]. Qed.

Definition no_colon (s : string) : bool := sall (fun c => negb (bool_decide (c = ":"%char))) s.

Lemma split_once_header name value :
  no_colon name = true -> split_once ":" (header name value) = Some (name, String " " value).
Proof.
  intros H. unfold split_once, header. change (": " +:+ value) with (String ":" (String " " value)).
  assert (Hf : find_char ":" (name +:+ String ":" (String " " value)) = Some (String.length name)).
  { induction name as [|c name IH]; [done|]. rewrite sapp_cons. unfold no_colon in *. simpl in *. to_prop.
    rewrite IH by done. by rewrite bool_decide_false. }
  rewrite Hf. clear. f_equal. induction name as [|c name IH]; [done|]. rewrite sapp_cons.
  injection IH as H1 H2. cbn [stake sdrop String.length]. by rewrite H1, H2.
Qed.

(** One header line read by [scan_line], for each header a builder writes. *)
Ltac scan_one := intros [_ Hv]; unfold scan_line; rewrite split_once_header by reflexivity;
  rewrite trim_space, Hv; try reflexivity.

Lemma scan_via f t c n r v : clean v ->
  scan_line (mkScan None f t c n r) (header "Via" v) = mkScan (Some v) f t c n r.
Proof. scan_one. Qed.

Lemma scan_from a v : clean v ->
  scan_line a (header "From" v) = mkScan (s_via a) (Some v) (s_to a) (s_call_id a) (s_cseq a) (s_routes a).
Proof. scan_one. Qed.

Lemma scan_to a v : clean v ->
  scan_line a (header "To" v) = mkScan (s_via a) (s_from a) (Some v) (s_call_id a) (s_cseq a) (s_routes a).
Proof. scan_one. Qed.

Lemma scan_call_id a v : clean v ->
  scan_line a (header "Call-ID" v) = mkScan (s_via a) (s_from a) (s_to a) (Some v) (s_cseq a) (s_routes a).
Proof. scan_one. Qed.

Lemma scan_cseq a v : clean v ->
  scan_line a (header "CSeq" v)
  = mkScan (s_via a) (s_from a) (s_to a) (s_call_id a) (head (split_whitespace v) ≫= parse_uint u32_max)
      (s_routes a).
Proof. scan_one. Qed.

Lemma scan_route a v : clean v ->
  scan_line a (header "Route" v)
  = mkScan (s_via a) (s_from a) (s_to a) (s_call_id a) (s_cseq a) (s_routes a ++ [v]).
Proof. scan_one. Qed.

Lemma header_not_nil name value : seqb (header name value) "" = false.
Proof. apply seqb_false. unfold header. by destruct name. Qed.

Lemma crlf_free_app a b :
  crlf_free a = true -> crlf_free b = true ->
  match b with String "010" _ => False | _ => True end -> crlf_free (a +:+ b) = true.
Proof.
  intros Ha Hb Hh. induction a as [|c a IH]; [done|]. rewrite sapp_cons.
  rewrite crlf_free_cons in *. destruct a as [|d a].
  - change ("" +:+ b) with b. destruct b as [|d b]; [done|]. rewrite Hb, andb_true_r.
    apply negb_true_iff, bool_decide_eq_false. intros [-> ->]. done.
  - to_prop. rewrite sapp_cons in *. by rewrite HP, IH.
Qed.

Lemma header_crlf_free name value :
  crlf_free name = true -> crlf_free value = true -> crlf_free (header name value) = true.
Proof.
  intros Hn Hv. unfold header. change (": " +:+ value) with (String ":" (String " " value)).
  apply crlf_free_app; [done| |done]. rewrite !crlf_free_cons.
  destruct value; [done|]. by rewrite Hv.
Qed.

(** The CSeq value: a number and a method. *)
Lemma digits_crlf_free s : sall is_digit s = true -> crlf_free s = true.
Proof.
  induction s as [|c s IH]; [done|]. intros H. simpl in H. to_prop. rewrite crlf_free_cons.
  destruct s as [|d s]; [done|]. rewrite IH by done. rewrite andb_true_r.
  apply negb_true_iff, bool_decide_eq_false. by intros [-> _].
Qed.

Lemma cseq_value n w :
  0 <= n <= u32_max -> crlf_free w = true -> trim_end_by Ascii.is_space w = w -> w <> "" ->
  let v := show n +:+ String " " w in
  clean v /\ head (split_whitespace v) ≫= parse_uint u32_max = Some n.
Proof.
  intros Hn Hw Ht Hne v. destruct (show_spec n) as (Hd & _ & Hs); [lia|]. split; [split|].
  - apply crlf_free_app; [by apply digits_crlf_free| |done]. rewrite crlf_free_cons. by destruct w.
  - unfold trim, trim_by. assert (E : trim_end_by Ascii.is_space v = v).
    { unfold v. change (String " " w) with (" " +:+ w). rewrite <- sapp_assoc. by apply trim_end_app. }
    rewrite E. unfold v. destruct (show n) as [|c s]; [done|]. rewrite sapp_cons. simpl in *. to_prop.
    assert (Ascii.is_space c = false) as ->; [|done].
    destruct c as [[] [] [] [] [] [] [] []]; done.
  - unfold v. rewrite words_cons; [|exact (sall_impl _ _ _ digit_not_space Hd)|done].
    cbn [head mbind option_bind]. by apply parse_show.
Qed.

(** ** The identity read from a message is clean *)

(** A Request-URI: one word of the start line. *)
Definition word (s : string) : Prop :=
  crlf_free s = true /\ sall (fun c => negb (bool_decide (c = " "%char))) s = true.

Record id_clean (id : InviteIdentity) : Prop := {
  c_uri : word (id_uri id);
  c_via : clean (id_top_via id);
  c_from : clean (id_from id);
  c_to : clean (id_to id);
  c_call_id : clean (id_call_id id);
  c_cseq : 0 <= id_cseq id <= u32_max;
  c_routes : Forall clean (id_routes id)
}.

Definition opt_all {A} (P : A -> Prop) (o : option A) : Prop := match o with Some a => P a | None => True end.

Record scan_clean (a : Scan) : Prop := {
  sc_via : opt_all clean (s_via a);
  sc_from : opt_all clean (s_from a);
  sc_to : opt_all clean (s_to a);
  sc_call_id : opt_all clean (s_call_id a);
  sc_cseq : opt_all (fun n => 0 <= n <= u32_max) (s_cseq a);
  sc_routes : Forall clean (s_routes a)
}.

Lemma scan_line_clean a line : crlf_free line = true -> scan_clean a -> scan_clean (scan_line a line).
Proof.
  intros Hl []. unfold scan_line, split_once. destruct (find_char ":" line) as [n|]; [|done].
  assert (Hv : clean (trim (sdrop (S n) line))) by by apply clean_trim, crlf_free_sdrop.
  repeat case_match; try done; split; cbn; try done.
  - destruct (head _) as [w|]; [|done]. cbn.
    destruct (parse_uint u32_max w) eqn:E; [|done]. by apply parse_uint_range in E.
  - apply Forall_app. split; [done|]. by constructor.
Qed.

Lemma scan_lines_clean ls a :
  Forall (fun l => crlf_free l = true) ls -> scan_clean a -> scan_clean (scan_lines a ls).
Proof.
  intros H. revert a. induction H as [|l ls Hl Hls IH]; intros a Ha; [done|]. cbn [scan_lines].
  destruct (seqb l ""); [done|]. by apply IH, scan_line_clean.
Qed.

Lemma parse_identity_clean m raw id : parse_identity m raw = Some id -> id_clean id.
Proof.
  unfold parse_identity. intros H.
  assert (Hf : Forall (fun l => crlf_free l = true) (split_crlf raw))
    by (apply Forall_forall; intros l; apply split_crlf_free).
  destruct (split_crlf raw) as [|start ls]; [done|]. inversion_clear Hf as [|? ? Hs Hls].
  case_bool_decide; [|done]. destruct (split_by_pieces (fun d => bool_decide (d = " "%char)) start Hs) as [Hp _].
  fold (split " " start) in Hp. set (parts := split " " start) in *.
  destruct (parts !! 1%nat) as [uri|] eqn:Eu; [|done]. cbn in H.
  destruct (scan_lines_clean ls scan_init Hls) as [Hv Hfr Hto Hc Hn Hr]; [by constructor|].
  destruct (scan_lines scan_init ls) as [[via|] [from|] [to|] [cid|] [n|] rs]; try done. cbn in *.
  injection H as <-. split; try done.
  exact (proj1 (Forall_lookup _ _) Hp 1%nat uri Eu).
Qed.

(** ** Reading a message the builders wrote *)

Lemma start_line m uri :
  sall (fun c => negb (bool_decide (c = " "%char))) m = true -> word uri ->
  split " " (m +:+ String " " (uri +:+ " SIP/2.0")) = [m; uri; "SIP/2.0"].
Proof.
  intros Hm [_ Hu]. unfold split. rewrite split_by_app by done. f_equal.
  change (uri +:+ " SIP/2.0") with (uri +:+ String " " "SIP/2.0"). by rewrite split_by_app.
Qed.

Lemma parse_unlines m uri hs rest :
  sall (fun c => negb (bool_decide (c = " "%char))) m = true -> crlf_free m = true -> word uri ->
  Forall (fun l => crlf_free l = true) hs ->
  parse_identity m (unlines ((m +:+ String " " (uri +:+ " SIP/2.0")) :: hs ++ [""]) rest) =
    (let a := scan_lines scan_init (hs ++ "" :: split_crlf rest) in
     via ← s_via a; from ← s_from a; to ← s_to a; cid ← s_call_id a; n ← s_cseq a;
     Some (mkIdentity uri via from to cid n (s_routes a))).
Proof.
  intros Hm Hc Hu Hhs. unfold parse_identity. rewrite split_crlf_unlines.
  2:{ constructor; [|apply Forall_app; split; [done|by constructor]].
      apply crlf_free_app; [done| |done]. rewrite crlf_free_cons.
      assert (Hx : crlf_free (uri +:+ " SIP/2.0") = true) by by apply crlf_free_app; [apply Hu|..].
      destruct (uri +:+ " SIP/2.0"); [done|]. by rewrite Hx. }
  cbn [app]. rewrite start_line by done. cbn [lookup list_lookup].
  rewrite bool_decide_true by done. by rewrite <- app_assoc.
Qed.

Lemma scan_lines_header a name value ls :
  scan_lines a (header name value :: ls) = scan_lines (scan_line a (header name value)) ls.
Proof. cbn [scan_lines]. by rewrite header_not_nil. Qed.

Lemma scan_max_forwards a ls : scan_lines a ("Max-Forwards: 70" :: ls) = scan_lines a ls.
Proof. reflexivity. Qed.

Lemma scan_routes rs a ls :
  Forall clean rs ->
  scan_lines a (map (header "Route") rs ++ ls)
  = scan_lines (mkScan (s_via a) (s_from a) (s_to a) (s_call_id a) (s_cseq a) (s_routes a ++ rs)) ls.
Proof.
  intros H. revert a. induction H as [|r rs Hr Hrs IH]; intros a; cbn [map app].
  - rewrite app_nil_r. by destruct a.
  - rewrite scan_lines_header, scan_route, IH by done. cbn [s_via s_from s_to s_call_id s_cseq s_routes].
    by rewrite <- app_assoc.
Qed.

(** ** The branch of a raw message *)

Definition nosp (s : string) : bool := sall (fun c => negb (Ascii.is_space c)) s.

Lemma trim_end_split s : exists w, s = trim_end_by Ascii.is_space s +:+ w /\ sall Ascii.is_space w = true.
Proof.
  induction s as [|c s (w & Hs & Hw)]; [by exists ""|]. rewrite trim_end_step.
  destruct (trim_end_by Ascii.is_space s) as [|d t] eqn:E.
  - destruct (Ascii.is_space c) eqn:F.
    + exists (String c w). split; [by rewrite Hs at 1|]. simpl. by rewrite F.
    + exists w. split; [by rewrite Hs at 1|done].
  - exists w. split; [|done]. by rewrite Hs at 1.
Qed.

Lemma starts_with_app_space p s w :
  nosp p = true -> sall Ascii.is_space w = true -> starts_with p (s +:+ w) = starts_with p s.
Proof.
  intros Hp Hw. unfold starts_with. revert p Hp. induction s as [|c s IH]; intros [|a p] Hp; try done.
  - change ("" +:+ w) with w. destruct w as [|b w]; [done|]. unfold nosp in *; simpl in *; to_prop.
    rewrite bool_decide_false; [done|]. intros ->. congruence.
  - rewrite sapp_cons. unfold nosp in *; simpl in *; to_prop. destruct (bool_decide (a = c)); [|done]. by apply IH.
Qed.

Lemma find_str_app_space p s w :
  nosp p = true -> p <> "" -> sall Ascii.is_space w = true -> find_str p (s +:+ w) = find_str p s.
Proof.
  intros Hp Hn Hw. induction s as [|c s IH].
  - change ("" +:+ w) with w. assert (H : find_str p "" = None) by by destruct p. rewrite H.
    induction w as [|b w IH]; [done|]. simpl in Hw. to_prop. cbn [find_str]. rewrite (IH HP0).
    destruct p as [|a p]; [done|]. unfold starts_with. unfold nosp in *; simpl in *; to_prop.
    rewrite bool_decide_false; [done|]. intros ->. congruence.
  - rewrite sapp_cons. cbn [find_str]. rewrite IH.
    change (String c (s +:+ w)) with (String c s +:+ w). by rewrite starts_with_app_space.
Qed.

Lemma find_str_start p a s :
  Ascii.is_space a = true -> nosp p = true -> p <> "" ->
  find_str p (String a s) = S <$> find_str p s.
Proof.
  intros Ha Hp Hn. destruct p as [|b p]; [done|]. cbn [find_str]. unfold starts_with. unfold nosp in *; simpl in *; to_prop.
  rewrite bool_decide_false; [done|]. intros ->. congruence.
Qed.

(** The branch text once [branch=] is found. *)
Definition branch_text (after : string) : string :=
  trim (stake (default (String.length after) (find_by branch_end after)) after).

Lemma stake_all s : stake (String.length s) s = s.
Proof. induction s as [|c s IH]; [done|]. simpl. by rewrite IH. Qed.

Lemma branch_text_app a w : sall Ascii.is_space w = true -> branch_text (a +:+ w) = branch_text a.
Proof.
  intros Hw. unfold branch_text. f_equal. induction a as [|c a IH].
  - change ("" +:+ w) with w. destruct w as [|b w]; [done|]. unfold nosp in *; simpl in *; to_prop.
    unfold branch_end. by rewrite HP, orb_true_r.
  - rewrite sapp_cons. cbn [find_by]. destruct (branch_end c); [done|].
    revert IH. destruct (find_by branch_end (a +:+ w)), (find_by branch_end a); simpl; intros ->; done.
Qed.

Lemma find_str_bound p s n : find_str p s = Some n -> (n + String.length p <= String.length s)%nat.
Proof.
  revert n. induction s as [|c s IH]; intros n; cbn [find_str].
  - destruct (starts_with p "") eqn:E; [|done]. intros [= <-]. apply starts_with_spec in E as [t Ht].
    apply (f_equal String.length) in Ht. rewrite slength_app in Ht. simpl in *. lia.
  - destruct (starts_with p _) eqn:E.
    + intros [= <-]. apply starts_with_spec in E as [t Ht].
      apply (f_equal String.length) in Ht. rewrite slength_app in Ht. simpl in *. lia.
    + destruct (find_str p s) as [m|]; [|done]. intros [= <-]. simpl. specialize (IH m eq_refl). lia.
Qed.

Lemma sdrop_within n a b : (n <= String.length a)%nat -> sdrop n (a +:+ b) = sdrop n a +:+ b.
Proof.
  revert a. induction n as [|n IH]; intros [|c a] H; simpl in H; try done; [lia|].
  rewrite sapp_cons. simpl. apply IH. lia.
Qed.

Lemma via_value_branch_text v :
  via_value_branch v = match find_str "branch=" v with
                       | None => None
                       | Some n => let t := branch_text (sdrop (n + 7) v) in if seqb t "" then None else Some t
                       end.
Proof. reflexivity. Qed.

Lemma via_value_branch_end v w :
  sall Ascii.is_space w = true -> via_value_branch (v +:+ w) = via_value_branch v.
Proof.
  intros Hw. rewrite !via_value_branch_text, find_str_app_space by done.
  destruct (find_str "branch=" v) as [n|] eqn:E; [|done]. apply find_str_bound in E. simpl in E.
  by rewrite sdrop_within, branch_text_app by (done || lia).
Qed.

Lemma via_value_branch_start c v :
  Ascii.is_space c = true -> via_value_branch (String c v) = via_value_branch v.
Proof.
  intros Hc. rewrite !via_value_branch_text, find_str_start by done.
  by destruct (find_str "branch=" v).
Qed.

Lemma via_value_branch_trim v : via_value_branch (trim v) = via_value_branch v.
Proof.
  unfold trim, trim_by. destruct (trim_end_split v) as (w & Hv & Hw).
  transitivity (via_value_branch (trim_end_by Ascii.is_space v)).
  - generalize (trim_end_by Ascii.is_space v) as s. induction s as [|c s IH]; [done|]. simpl.
    destruct (Ascii.is_space c) eqn:E; [|done]. by rewrite via_value_branch_start.
  - rewrite Hv at 2. by rewrite via_value_branch_end.
Qed.

(** The first Via is the one the branch is read from. *)
Lemma scan_keeps_via a ls v : s_via a = Some v -> s_via (scan_lines a ls) = Some v.
Proof.
  revert a. induction ls as [|l ls IH]; intros a Ha; [done|]. cbn [scan_lines].
  destruct (seqb l ""); [done|]. apply IH. unfold scan_line. repeat case_match; try done. simpl.
  to_prop. congruence.
Qed.

Lemma branch_of_scan a ls :
  s_via a = None ->
  branch_lines ls = s_via (scan_lines a ls) ≫= via_value_branch.
Proof.
  revert a. induction ls as [|l ls IH]; intros a Ha; [by cbn; rewrite Ha|]. cbn [branch_lines scan_lines].
  destruct (seqb l ""); [by rewrite Ha|].
  destruct (split_once ":" l) as [[name value]|] eqn:E.
  2:{ apply IH. unfold scan_line. by rewrite E. }
  unfold scan_line. rewrite E. set (n := to_ascii_lowercase (trim name)).
  rewrite <- negb_orb. destruct (seqb n "via" || seqb n "v") eqn:F; cbn [negb].
  - rewrite Ha, bool_decide_true by done. cbn [andb].
    rewrite (scan_keeps_via _ _ (trim value)) by done. cbn. by rewrite via_value_branch_trim.
  - cbn [andb]. apply IH. by repeat case_match.
Qed.

Lemma top_via_branch_identity m raw id :
  parse_identity m raw = Some id -> top_via_branch raw = via_value_branch (id_top_via id).
Proof.
  unfold parse_identity, top_via_branch. destruct (split_crlf raw) as [|start ls]; [done|].
  case_bool_decide; [|done]. change (drop 1 (start :: ls)) with ls. rewrite (branch_of_scan scan_init) by done.
  destruct (_ !! 1%nat); [|done]. cbn.
  destruct (scan_lines scan_init ls) as [[via|] [?|] [?|] [?|] [?|] rs]; cbn; try done. by intros [= <-].
Qed.

(** ** Theorems *)

Definition cseq_line (n : Z) (m : string) : string := header "CSeq" (show n +:+ String " " m).

Lemma copied_identity id m to rs :
  id_clean id -> clean to -> Forall clean rs ->
  sall (fun c => negb (bool_decide (c = " "%char))) m = true -> crlf_free m = true ->
  trim_end_by Ascii.is_space m = m -> m <> "" ->
  parse_identity m
    (unlines ((m +:+ String " " (id_uri id +:+ " SIP/2.0"))
              :: ([header "Via" (id_top_via id); "Max-Forwards: 70"] ++ map (header "Route") rs
                  ++ [header "From" (id_from id); header "To" to; header "Call-ID" (id_call_id id);
                      cseq_line (id_cseq id) m; "Content-Length: 0"]) ++ [""]) "")
  = Some (mkIdentity (id_uri id) (id_top_via id) (id_from id) to (id_call_id id) (id_cseq id) rs).
Proof.
  intros [] Hto Hrs Hm1 Hm2 Hm3 Hm4. destruct (cseq_value (id_cseq id) m) as [Hc Hp]; [done..|].
  assert (Hh : forall n v, crlf_free n = true -> clean v -> crlf_free (header n v) = true)
    by (intros n v Hn [Hv _]; by apply header_crlf_free).
  rewrite parse_unlines; try done.
  - rewrite <- !app_assoc. cbn [app]. unfold scan_init.
    rewrite scan_lines_header, scan_via by done. rewrite scan_max_forwards.
    rewrite scan_routes by done. cbn [app]. unfold cseq_line.
    rewrite !scan_lines_header, scan_from, scan_to, scan_call_id, scan_cseq by done.
    rewrite Hp. reflexivity.
  - repeat apply Forall_cons_2; [by apply Hh|done|]. apply Forall_app. split.
    + apply Forall_map. eapply Forall_impl; [exact Hrs|]. intros r Hr. by apply Hh.
    + repeat apply Forall_cons_2; try done; by apply Hh.
Qed.

(** What other components use of the CANCEL. *)
Lemma cancel_parts raw id c :
  parse_invite_identity raw = Some id -> build_cancel raw = Some c ->
  parse_identity "CANCEL" c =
    Some (mkIdentity (id_uri id) (id_top_via id) (id_from id) (id_to id) (id_call_id id) (id_cseq id) []) /\
  exists rest, c = unlines (("CANCEL" +:+ String " " (id_uri id +:+ " SIP/2.0")) :: rest) "".
Proof.
  intros E H. unfold build_cancel in H. rewrite E in H. apply (inj Some) in H as <-.
  assert (Hid := parse_identity_clean _ _ _ E). split; [|by eexists].
  apply (copied_identity id "CANCEL" (id_to id) []); try done. apply Hid.
Qed.

(** The CANCEL and the non-2xx ACK the SBC builds belong to the transaction
    of the raw INVITE they are built from: read back, they carry its
    Request-URI, top Via, From, Call-ID and CSeq number, the CANCEL also its
    To, the ACK its Route set and the To of the response. Both are built
    exactly when the text is an INVITE with the mandatory headers. *)
Theorem cancel_and_ack_match raw :
  match parse_invite_identity raw with
  | None => build_cancel raw = None /\ forall to, build_ack_for_non_2xx raw to = None
  | Some id =>
      (exists c, build_cancel raw = Some c /\
         parse_identity "CANCEL" c =
           Some (mkIdentity (id_uri id) (id_top_via id) (id_from id) (id_to id) (id_call_id id) (id_cseq id) [])) /\
      forall to, crlf_free to = true ->
        exists a, build_ack_for_non_2xx raw to = Some a /\
          parse_identity "ACK" a =
            Some (mkIdentity (id_uri id) (id_top_via id) (id_from id) (trim to) (id_call_id id) (id_cseq id)
                    (id_routes id))
  end.
Proof.
  unfold build_cancel, build_ack_for_non_2xx.
  destruct (parse_invite_identity raw) as [id|] eqn:E; [|done].
  assert (Hid := parse_identity_clean _ _ _ E). split.
  - eexists. split; [done|]. apply (cancel_parts raw); [done|]. unfold build_cancel. by rewrite E.
  - intros to Hto. eexists. split; [done|].
    assert (H := copied_identity id "ACK" (trim to) (id_routes id) Hid (clean_trim _ Hto) (c_routes _ Hid)
                   eq_refl eq_refl eq_refl ltac:(done)).
    by rewrite <- !app_assoc in H.
Qed.

(** ** Requests built from a dialog *)

Definition via_value (branch : string) (d : DialogInfo) : string :=
  "SIP/2.0/" +:+ to_ascii_uppercase (transport d) +:+ " " +:+ local_ip d +:+ ":"
  +:+ show (local_port d) +:+ ";branch=" +:+ branch +:+ ";rport".

Record dialog_clean (branch : string) (d : DialogInfo) : Prop := {
  d_uri : word (request_uri d);
  d_via : clean (via_value branch d);
  d_from : clean (from_raw d);
  d_to : clean (to_raw d);
  d_call_id : clean (call_id d);
  d_cseq : 0 <= cseq d <= u32_max
}.

Definition dialog_identity (branch : string) (d : DialogInfo) : InviteIdentity :=
  mkIdentity (request_uri d) (via_value branch d) (from_raw d) (to_raw d) (call_id d) (cseq d) [].

(** A header the reading of an identity passes over. *)
Definition neutral (nv : string * string) : Prop :=
  crlf_free (header nv.1 nv.2) = true /\ forall a, scan_line a (header nv.1 nv.2) = a.

Lemma neutral_header name value :
  no_colon name = true -> crlf_free name = true -> crlf_free value = true ->
  to_ascii_lowercase (trim name) ∉ ["via"; "v"; "from"; "f"; "to"; "t"; "call-id"; "i"; "cseq"; "route"] ->
  neutral (name, value).
Proof.
  intros Hc Hn Hv Hk. split; [by apply header_crlf_free|]. intros a. cbn [fst snd].
  unfold scan_line. rewrite split_once_header by done. set (n := to_ascii_lowercase (trim name)) in *.
  assert (H : forall k, k ∈ ["via"; "v"; "from"; "f"; "to"; "t"; "call-id"; "i"; "cseq"; "route"] ->
                seqb n k = false) by (intros k Hin; apply seqb_false; intros ->; done).
  rewrite !H by (repeat first [by apply list_elem_of_here | apply list_elem_of_further]). reflexivity.
Qed.

Lemma scan_neutral es a ls :
  Forall neutral es -> scan_lines a (map (fun nv => header nv.1 nv.2) es ++ ls) = scan_lines a ls.
Proof.
  intros H. revert a. induction H as [|e es [_ He] Hes IH]; intros a; [done|]. cbn [map app].
  by rewrite scan_lines_header, He.
Qed.

Lemma request_identity b m d extras body :
  dialog_clean b d -> Forall neutral extras ->
  sall (fun c => negb (bool_decide (c = " "%char))) m = true -> crlf_free m = true ->
  trim_end_by Ascii.is_space m = m -> m <> "" ->
  parse_identity m (build_request b m d m extras body) = Some (dialog_identity b d).
Proof.
  intros [] He Hm1 Hm2 Hm3 Hm4. destruct (cseq_value (cseq d) m) as [Hc Hp]; [done..|].
  assert (Hh : forall n v, crlf_free n = true -> clean v -> crlf_free (header n v) = true)
    by (intros n v Hn [Hv _]; by apply header_crlf_free).
  set (len := show (Z.of_nat (String.length (default "" body)))).
  assert (Hn : neutral ("Content-Length", len)).
  { apply neutral_header; [done|done| |by apply (bool_decide_unpack _)].
    apply digits_crlf_free, show_spec. lia. }
  assert (E : build_request b m d m extras body =
    unlines ((m +:+ String " " (request_uri d +:+ " SIP/2.0"))
      :: ([header "Via" (via_value b d); "Max-Forwards: 70"; header "From" (from_raw d);
           header "To" (to_raw d); header "Call-ID" (call_id d); cseq_line (cseq d) m]
          ++ map (fun nv => header nv.1 nv.2) (extras ++ [("Content-Length", len)])) ++ [""])
      (default "" body)).
  { unfold build_request. rewrite map_app, <- !app_assoc. reflexivity. }
  assert (Hx : Forall neutral (extras ++ [("Content-Length", len)]))
    by (apply Forall_app; split; [done|by constructor]).
  rewrite E, parse_unlines; try done.
  - rewrite <- !app_assoc. cbn [app]. unfold scan_init.
    rewrite scan_lines_header, scan_via by done. rewrite scan_max_forwards. unfold cseq_line.
    rewrite !scan_lines_header, scan_from, scan_to, scan_call_id, scan_cseq by done.
    rewrite scan_neutral by done. rewrite Hp. reflexivity.
  - repeat apply Forall_cons_2; [by apply Hh|done|by apply Hh..|].
    apply Forall_map. eapply Forall_impl; [exact Hx|]. by intros nv [Hnv _].
Qed.

(** What other components use of the ACK. *)
Lemma ack_identity b d n :
  dialog_clean b d -> 0 <= n <= u32_max ->
  parse_identity "ACK" (build_ack_for_2xx b d n) = Some (dialog_identity b (with_cseq d n)).
Proof.
  intros Hd Hn. unfold build_ack_for_2xx. apply request_identity; try done. by destruct Hd; split.
Qed.

(** The requests the SBC builds from a dialog carry that dialog: read back,
    a BYE, an ACK for a 2xx and a refresh re-INVITE have the dialog's
    Request-URI, From, To and Call-ID, the branch they were given and the CSeq
    number they were asked for, whatever the extra headers and the body. *)
Theorem requests_carry_dialog b d :
  dialog_clean b d ->
  (forall reason, opt_all (fun r => crlf_free r = true) reason ->
     parse_identity "BYE" (build_bye b d reason) = Some (dialog_identity b d)) /\
  (forall n, 0 <= n <= u32_max ->
     parse_identity "ACK" (build_ack_for_2xx b d n) = Some (dialog_identity b (with_cseq d n))) /\
  (forall sdp contact interval refresher min_se,
     0 <= interval -> opt_all (fun m => 0 <= m) min_se ->
     crlf_free contact = true -> crlf_free refresher = true ->
     parse_invite_identity (build_reinvite b d sdp contact (Some (interval, refresher)) min_se)
     = Some (dialog_identity b d)).
Proof.
  intros Hd.
  assert (Hk : forall name value, crlf_free value = true -> no_colon name && crlf_free name &&
             bool_decide (to_ascii_lowercase (trim name) ∉
               ["via"; "v"; "from"; "f"; "to"; "t"; "call-id"; "i"; "cseq"; "route"]) = true ->
             neutral (name, value)) by (intros name value Hv Hn; to_prop; by apply neutral_header).
  split; [|split].
  - intros reason Hr. apply request_identity; try done.
    destruct reason as [r|]; [|done]. repeat constructor; by apply Hk.
  - intros n Hn. by apply ack_identity.
  - intros sdp contact interval refresher min_se Hi Hm Hc Hr. apply request_identity; try done.
    assert (Hs : forall n, 0 <= n -> crlf_free (show n) = true)
      by (intros n Hn; by apply digits_crlf_free, show_spec).
    do 2 (apply Forall_cons_2; [by apply Hk|]). apply Forall_cons_2.
    { apply Hk; [|done]. apply crlf_free_app; [by apply Hs|destruct refresher; [done|exact Hr]|done]. }
    destruct min_se as [m|]; cbn [app]; repeat apply Forall_cons_2; try done; apply Hk; try done. by apply Hs.
Qed.

(** ** Witnesses *)

Module Witness.

Definition d0 : DialogInfo :=
  mkDialog "cid@h" "<sip:a@b>;tag=1" "<sip:c@d>;tag=2" "sip:c@192.0.2.4" 42 "10.0.0.1" 5060 "udp".

Lemma d0_clean : dialog_clean "z9hG4bK01" d0.
Proof. by repeat split. Qed.

Lemma requests_carry_dialog_witness :
  parse_invite_identity (build_reinvite "z9hG4bK01" d0 "v=0" "<sip:sbc@x>" (Some (1800, "uac")) (Some 90))
  = Some (dialog_identity "z9hG4bK01" d0).
Proof.
  destruct (requests_carry_dialog "z9hG4bK01" d0 d0_clean) as (_ & _ & H).
  apply (H "v=0" "<sip:sbc@x>" 1800 "uac" (Some 90)); [lia|simpl; lia|reflexivity|reflexivity].
Defined.

Definition invite0 : string :=
  build_reinvite "z9hG4bK01" d0 "v=0" "<sip:sbc@x>" (Some (1800, "uac")) (Some 90).

Lemma cancel_and_ack_match_witness :
  exists a, build_ack_for_non_2xx invite0 " <sip:c@d>;tag=9" = Some a /\
    id_to <$> parse_identity "ACK" a = Some "<sip:c@d>;tag=9".
Proof.
  assert (H := cancel_and_ack_match invite0).
  destruct (parse_invite_identity invite0) as [id|] eqn:E; [|vm_compute in E; discriminate].
  destruct H as [_ H]. destruct (H " <sip:c@d>;tag=9" eq_refl) as (a & Ha & Hp).
  exists a. split; [exact Ha|]. rewrite Hp. reflexivity.
Defined.

End Witness.
