(* ===== verification/ClientTx.v ===== *)
(** * Client transactions (sbc/client_tx.rs)

    The requests the SBC sends over UDP, resent until they are answered. A
    reply channel is an opaque identifier. *)

From S2P Require Import Prelude Str Net SipBuilder.

Definition TIMER_T1 : Z := millis 500.
Definition TIMER_T2 : Z := secs 4.
Definition TRANSACTION_TIMEOUT : Z := secs 32.
Definition MAX_ENTRIES : Z := 4096.

(** ** State *)

Record ClientTx := mkTx {
  raw : string;
  dest : SocketAddr;
  tx_transport : Transport;
  is_invite : bool;
  next_at : Z;
  interval : Z;
  give_up_at : Z;
  attempts : Z;
  reply_tx : option nat;
  what : string
}.

Record DueRequest := mkDue {
  due_what : string;
  due_raw : string;
  due_dest : SocketAddr;
  due_transport : Transport;
  due_reply_tx : option nat;
  attempt : Z
}.

Abbreviation ClientTxCache := (gmap string ClientTx).

Definition key (branch method : string) : string :=
  branch +:+ "|" +:+ to_ascii_uppercase method.

Definition via_branch : string -> option string := top_via_branch.

Definition branch_param (via_value : string) : option string :=
  match find_str "branch=" (to_ascii_lowercase via_value) with
  | None => None
  | Some pos =>
      let rest := sdrop (pos + 7) via_value in
      let branch := trim (stake (default (String.length rest) (find_by branch_end rest)) rest) in
      if seqb branch "" then None else Some branch
  end.

Definition request_method (raw : string) : option string :=
  first ← head (lines raw);
  if negb (ends_with "SIP/2.0" first) then None
  else
    method ← head (split_whitespace first);
    if starts_with "SIP/" method then None else Some (to_ascii_uppercase method).

(** ** Operations *)

Definition new_tx (wh raw : string) (dest : SocketAddr) (t : Transport) (r : option nat)
    (method : string) (now : Z) : ClientTx :=
  mkTx raw dest t (seqb method "INVITE") (now + TIMER_T1) TIMER_T1 (now + TRANSACTION_TIMEOUT) 0 r wh.

Definition record_sent (now : Z) (wh raw : string) (dest : SocketAddr) (t : Transport)
    (r : option nat) (txs : ClientTxCache) : option string * ClientTxCache :=
  if negb (bool_decide (t = Udp)) then (None, txs)
  else if negb (is_utf8 raw) then (None, txs)
  else
    match request_method raw with
    | None => (None, txs)
    | Some method =>
        if seqb method "ACK" then (None, txs)
        else
          match via_branch raw with
          | None => (None, txs)
          | Some branch =>
              let txs := if seqb method "CANCEL" then delete (key branch "INVITE") txs else txs in
              let txs' := if MAX_ENTRIES <=? Z.of_nat (size txs)
                          then filter (fun e => now < give_up_at e.2) txs else txs in
              if MAX_ENTRIES <=? Z.of_nat (size txs') then (None, txs')
              else
                let k := key branch method in
                (Some k, <[k := new_tx wh raw dest t r method now]> txs')
          end
    end.

Definition answered_parts (branch cseq_method : string) (status : Z) (txs : ClientTxCache) :
    bool * ClientTxCache :=
  let k := key branch cseq_method in
  match txs !! k with
  | Some tx => if is_invite tx || (200 <=? status) then (true, delete k txs) else (false, txs)
  | None => (false, txs)
  end.

(** One entry at [now]: kept, resent or expired. *)
Definition expired (now : Z) (tx : ClientTx) : bool := give_up_at tx <=? now.
Definition fires (now : Z) (tx : ClientTx) : bool := negb (expired now tx) && (next_at tx <=? now).

Definition rearm (now : Z) (tx : ClientTx) : ClientTx :=
  let i := if is_invite tx then interval tx * 2 else Z.min (interval tx * 2) TIMER_T2 in
  mkTx (raw tx) (dest tx) (tx_transport tx) (is_invite tx) (now + i) i (give_up_at tx)
    (attempts tx + 1) (reply_tx tx) (what tx).

Definition tick (now : Z) (tx : ClientTx) : option ClientTx :=
  if expired now tx then None
  else if next_at tx <=? now then Some (rearm now tx) else Some tx.

Definition resend_of (tx : ClientTx) : DueRequest :=
  mkDue (what tx) (raw tx) (dest tx) (tx_transport tx) (reply_tx tx) (attempts tx).

Definition due {HI : HashIter string ClientTx} (now : Z) (txs : ClientTxCache) :
    (list DueRequest * list string) * ClientTxCache :=
  let entries := (hiter txs).*2 in
  ((map (fun tx => resend_of (rearm now tx)) (List.filter (fires now) entries),
    map (fun tx => what tx +:+ " (" +:+ show (attempts tx) +:+ " attempts)")
      (List.filter (expired now) entries)),
   omap (tick now) txs).

(** ** The schedule of one entry *)

(** After [n] resends: the interval, and the earliest time of the next resend,
    counted from the first transmission. *)
Definition step_interval (invite : bool) (n : Z) : Z :=
  if invite then TIMER_T1 * 2 ^ n else Z.min (TIMER_T1 * 2 ^ n) TIMER_T2.

Definition elapsed (invite : bool) (n : Z) : Z :=
  if invite || (n <=? 3) then TIMER_T1 * (2 ^ (n + 1) - 1)
  else TIMER_T1 * 15 + TIMER_T2 * (n - 3).

Definition max_resends (invite : bool) : Z := if invite then 6 else 10.

Record entry_ok (tx : ClientTx) : Prop := {
  e_udp : tx_transport tx = Udp;
  e_attempts : 0 <= attempts tx <= max_resends (is_invite tx);
  e_interval : interval tx = step_interval (is_invite tx) (attempts tx);
  e_next : give_up_at tx - TRANSACTION_TIMEOUT + elapsed (is_invite tx) (attempts tx) <= next_at tx
}.

Lemma new_tx_ok wh raw d r m now : entry_ok (new_tx wh raw d Udp r m now).
Proof.
  unfold new_tx. generalize (seqb m "INVITE"). intros i.
  split; cbn -[elapsed step_interval TIMER_T1 TRANSACTION_TIMEOUT]; [done|by destruct i|by destruct i|].
  assert (elapsed i 0 = TIMER_T1) as -> by by destruct i. lia.
Qed.

Lemma schedule_step b n :
  0 <= n <= max_resends b -> elapsed b n < TRANSACTION_TIMEOUT ->
  n + 1 <= max_resends b /\
  step_interval b (n + 1) = (if b then step_interval b n * 2 else Z.min (step_interval b n * 2) TIMER_T2) /\
  elapsed b (n + 1) = elapsed b n + step_interval b (n + 1).
Proof.
  unfold max_resends. intros Hn He. destruct b.
  - enum_below n 7%nat; first [by split_and!; vm_compute | by vm_compute in He].
  - enum_below n 11%nat; first [by split_and!; vm_compute | by vm_compute in He].
Qed.

Lemma rearm_ok now tx : entry_ok tx -> fires now tx = true -> entry_ok (rearm now tx).
Proof.
  intros [Hu Ha Hi Hn] Hf. unfold fires, expired in Hf. to_prop.
  destruct (schedule_step (is_invite tx) (attempts tx)) as (H1 & H2 & H3); [done|lia|].
  split; cbn; [done|lia| |]; rewrite Hi.
  - by rewrite H2.
  - rewrite H3. rewrite H2 in *. lia.
Qed.

Lemma tick_ok now tx tx' : entry_ok tx -> tick now tx = Some tx' -> entry_ok tx'.
Proof.
  intros Ho. unfold tick. destruct (expired now tx) eqn:E; [done|].
  destruct (next_at tx <=? now) eqn:F; intros [= <-]; [|done].
  apply rearm_ok; [done|]. unfold fires. by rewrite E, F.
Qed.

(** ** The cache *)

Inductive Op :=
  | Sent (now : Z) (wh raw : string) (dest : SocketAddr) (t : Transport) (r : option nat)
  | Answered (branch cseq_method : string) (status : Z)
  | Poll (now : Z).

Section cache.
Context {HI : HashIter string ClientTx}.

Definition apply_op (txs : ClientTxCache) (o : Op) : ClientTxCache :=
  match o with
  | Sent now wh raw d t r => (record_sent now wh raw d t r txs).2
  | Answered b m st => (answered_parts b m st txs).2
  | Poll now => (due now txs).2
  end.

Definition cache_ok (txs : ClientTxCache) : Prop :=
  Z.of_nat (size txs) <= MAX_ENTRIES /\ forall k tx, txs !! k = Some tx -> entry_ok tx.

Lemma cache_ok_sub (txs txs' : ClientTxCache) : txs' ⊆ txs -> cache_ok txs -> cache_ok txs'.
Proof.
  intros Hs [Hz He]. split.
  - assert (size txs' <= size txs)%nat by by apply map_subseteq_size. lia.
  - intros k tx Hk. eapply He, lookup_weaken; eauto.
Qed.

Lemma answered_sub b m st txs : (answered_parts b m st txs).2 ⊆ txs.
Proof. unfold answered_parts. repeat case_match; simpl; try done. apply delete_subseteq. Qed.

Lemma due_lookup now txs k : (due now txs).2 !! k = txs !! k ≫= tick now.
Proof. apply lookup_omap. Qed.

Lemma due_ok now txs : cache_ok txs -> cache_ok (due now txs).2.
Proof.
  intros [Hz He]. split.
  - rewrite <- (size_dom (D := gset string)) in *.
    assert (dom (due now txs).2 ⊆ dom txs) as Hd.
    { intros k. rewrite !elem_of_dom, due_lookup. by destruct (txs !! k); [eauto|intros []]. }
    apply subseteq_size in Hd. lia.
  - intros k tx Hk. rewrite due_lookup in Hk. destruct (txs !! k) as [tx0|] eqn:E; [|done].
    eapply tick_ok; [by eapply He|done].
Qed.

Lemma record_sent_ok now wh raw d t r txs :
  cache_ok txs -> cache_ok (record_sent now wh raw d t r txs).2.
Proof.
  intros Hok. unfold record_sent. case_bool_decide as Ht; [subst t; cbn [negb]|done].
  destruct (negb (is_utf8 raw)); [done|]. destruct (request_method raw) as [m|]; [|done].
  destruct (seqb m "ACK"); [done|]. destruct (via_branch raw) as [b|]; [|done].
  set (txs1 := if seqb m "CANCEL" then delete (key b "INVITE") txs else txs).
  assert (H1 : cache_ok txs1) by (unfold txs1; case_test; [|done];
    eapply cache_ok_sub; [apply delete_subseteq|done]).
  set (txs2 := if MAX_ENTRIES <=? Z.of_nat (size txs1) then filter _ txs1 else txs1).
  assert (H2 : cache_ok txs2) by (unfold txs2; case_test; [|done];
    eapply cache_ok_sub; [apply map_filter_subseteq|done]).
  destruct (MAX_ENTRIES <=? Z.of_nat (size txs2)) eqn:E; [done|]. to_prop. cbn [snd]. split.
  - rewrite map_size_insert. case_match; unfold id; lia.
  - intros k tx [[<- <-]|[_ Hk]]%lookup_insert_Some; [apply new_tx_ok|by eapply H2].
Qed.

Lemma apply_op_ok txs o : cache_ok txs -> cache_ok (apply_op txs o).
Proof.
  destruct o; cbn; [apply record_sent_ok| |apply due_ok].
  intros H. eapply cache_ok_sub; [apply answered_sub|done].
Qed.

(** Whatever is sent, answered and polled, the table never holds more than
    [MAX_ENTRIES] requests, holds UDP requests only, and has resent an INVITE
    at most six times and another request at most ten times, at RFC 3261's
    intervals: doubling from T1, capped at T2 unless an INVITE. *)
Theorem client_tx_bounded ops :
  let txs := fold_left apply_op ops ∅ in
  Z.of_nat (size txs) <= MAX_ENTRIES /\
  (forall k tx, txs !! k = Some tx ->
     tx_transport tx = Udp /\ 0 <= attempts tx <= max_resends (is_invite tx) /\
     interval tx = step_interval (is_invite tx) (attempts tx)) /\
  (forall now q, q ∈ (due now txs).1.1 ->
     exists k tx, txs !! k = Some tx /\ next_at tx <= now < give_up_at tx /\
       due_raw q = raw tx /\ due_dest q = dest tx /\ attempt q = attempts tx + 1 /\
       attempt q <= max_resends (is_invite tx)).
Proof.
  intros txs. assert (H : cache_ok txs).
  { unfold txs. assert (H0 : cache_ok ∅) by (split; [done|by intros ??]).
    revert H0. generalize (∅ : ClientTxCache). induction ops as [|o ops IH]; intros m Hm; [done|].
    apply IH. by apply apply_op_ok. }
  destruct H as [Hz He]. split; [done|]. split.
  - intros k tx Hk. destruct (He k tx Hk). done.
  - intros now q. cbn. rewrite list_elem_of_fmap. intros (tx & -> & [Hin Hf]%elem_of_filter_bool).
    apply list_elem_of_fmap in Hin as ((k & tx') & -> & Hk). apply elem_of_hiter in Hk. cbn in *.
    assert (Ho := He k tx' Hk). destruct (rearm_ok now tx' Ho Hf) as [_ Ha _ _].
    exists k, tx'. unfold fires, expired in Hf. to_prop. cbn in *. split_and!; try done; lia.
Qed.
End cache.

(** ** Cancelling *)

Lemma key_inj b m m' : key b m = key b m' -> to_ascii_uppercase m = to_ascii_uppercase m'.
Proof.
  unfold key. induction b as [|c b IH]; [by intros [=]|]. rewrite !sapp_cons. intros [= H]. by apply IH.
Qed.

(** The start line of a request whose URI stays on it. *)
Lemma method_of_start m uri rest :
  no_lf m = true -> no_lf uri = true -> sall (fun c => negb (Ascii.is_space c)) m = true -> m <> "" ->
  starts_with "SIP/" m = false ->
  request_method (unlines ((m +:+ String " " (uri +:+ " SIP/2.0")) :: rest) "") = Some (to_ascii_uppercase m).
Proof.
  intros Hm Hu Hs Hn Hp. unfold request_method. cbn [unlines foldr].
  set (line := m +:+ String " " (uri +:+ " SIP/2.0")).
  rewrite (line_off line).
  2:{ unfold line, no_lf in *. rewrite sall_app, Hm. cbn [sall andb]. rewrite sall_app, Hu. done. }
  cbn [head mbind option_bind].
  assert (He : ends_with "SIP/2.0" line = true).
  { unfold line. replace (m +:+ String " " (uri +:+ " SIP/2.0")) with ((m +:+ " " +:+ uri +:+ " ") +:+ "SIP/2.0").
    - generalize (m +:+ " " +:+ uri +:+ " ") as a. intros a. unfold ends_with. rewrite slength_app.
      replace (String.length a + String.length "SIP/2.0" - String.length "SIP/2.0")%nat
        with (String.length a) by lia.
      apply andb_true_intro. split; [apply Nat.leb_le; lia|].
      assert (sdrop (String.length a) (a +:+ "SIP/2.0") = "SIP/2.0") as ->; [|by apply seqb_true].
      induction a as [|c a IH]; [done|]. by rewrite sapp_cons.
    - by rewrite !sapp_assoc. }
  rewrite He. cbn [negb]. unfold line. rewrite words_cons by done. cbn [head mbind option_bind].
  by rewrite Hp.
Qed.

Lemma cancel_clears_invite now wh inv id c d r branch txs :
  parse_invite_identity inv = Some id -> no_lf (id_uri id) = true ->
  build_cancel inv = Some c -> is_utf8 c = true -> top_via_branch inv = Some branch ->
  (record_sent now wh c d Udp r txs).2 !! key branch "INVITE" = None.
Proof.
  intros Hp Hu Hc Hutf Hb.
  assert (Hm := cancel_parts inv id c Hp Hc). destruct Hm as [Hm (rest & Hl)].
  assert (Hv : top_via_branch c = Some branch).
  { rewrite (top_via_branch_identity _ _ _ Hm). cbn.
    by rewrite <- (top_via_branch_identity _ _ _ Hp). }
  unfold record_sent. rewrite bool_decide_true, Hutf by done. cbn [negb].
  rewrite Hl, (method_of_start "CANCEL") by done. rewrite <- Hl. cbn [seqb].
  change (seqb (to_ascii_uppercase "CANCEL") "ACK") with false.
  change (seqb (to_ascii_uppercase "CANCEL") "CANCEL") with true. cbv iota. unfold via_branch. rewrite Hv.
  set (t1 := delete (key branch "INVITE") txs).
  assert (H1 : t1 !! key branch "INVITE" = None) by apply lookup_delete_eq.
  set (t2 := if MAX_ENTRIES <=? Z.of_nat (size t1) then filter _ t1 else t1).
  assert (H2 : t2 !! key branch "INVITE" = None)
    by (unfold t2; case_test; [|done]; apply map_lookup_filter_None; by left).
  case_test; [done|]. cbn [snd]. rewrite lookup_insert_ne; [done|].
  intros E%key_inj. by vm_compute in E.
Qed.

(** Sending the CANCEL the SBC builds for an INVITE ends the INVITE's
    retransmissions, even when the table is full: the INVITE's entry is gone
    and no later poll resends it. *)
Theorem cancel_stops_invite {HI : HashIter string ClientTx} now wh inv id c d r branch txs :
  parse_invite_identity inv = Some id -> no_lf (id_uri id) = true ->
  build_cancel inv = Some c -> is_utf8 c = true -> top_via_branch inv = Some branch ->
  let txs' := (record_sent now wh c d Udp r txs).2 in
  txs' !! key branch "INVITE" = None /\
  forall later, (due later txs').2 !! key branch "INVITE" = None.
Proof.
  intros Hp Hu Hc Hutf Hb txs'. assert (Hg := cancel_clears_invite now wh inv id c d r branch txs Hp Hu Hc Hutf Hb).
  split; [done|]. intros later. rewrite due_lookup. unfold txs'. by rewrite Hg.
Qed.

(** ** Witnesses *)

Module Witness.

#[local] Instance iter : HashIter string ClientTx := canonical_iter string ClientTx.

Definition peer : SocketAddr := mkAddr (V4 [203; 0; 113; 9]) 5060.
Definition invite0 : string := SipBuilder.Witness.invite0.
Definition polls (n : nat) : list Op := map (fun i => Poll (millis (500 * Z.of_nat i))) (seq 1 n).

(** Polled every 500 ms, an unanswered INVITE is resent six times. *)
Lemma client_tx_bounded_witness :
  exists tx, fold_left apply_op (Sent 0 "INVITE" invite0 peer Udp None :: polls 63) ∅
               !! key "z9hG4bK01" "INVITE" = Some tx /\
    attempts tx = 6 /\ tx_transport tx = Udp.
Proof.
  destruct (client_tx_bounded (Sent 0 "INVITE" invite0 peer Udp None :: polls 63)) as (_ & H & _).
  assert (E : attempts <$> fold_left apply_op (Sent 0 "INVITE" invite0 peer Udp None :: polls 63) ∅
                !! key "z9hG4bK01" "INVITE" = Some 6) by (vm_compute; reflexivity).
  destruct (_ !! key "z9hG4bK01" "INVITE") as [tx|] eqn:F; [|discriminate].
  injection E as E. exists tx. split; [reflexivity|]. split; [exact E|]. apply (H _ _ F).
Defined.

Definition cancel0 : string := default "" (build_cancel invite0).

Lemma cancel_stops_invite_witness :
  let txs := (record_sent 0 "INVITE" invite0 peer Udp None ∅).2 in
  is_Some (txs !! key "z9hG4bK01" "INVITE") /\
  (record_sent (secs 1) "CANCEL" cancel0 peer Udp None txs).2 !! key "z9hG4bK01" "INVITE" = None.
Proof.
  intros txs. split; [eexists; vm_compute; reflexivity|].
  destruct (parse_invite_identity invite0) as [id|] eqn:E; [|vm_compute in E; discriminate].
  assert (Hu : no_lf (id_uri id) = true) by (vm_compute in E; injection E as <-; reflexivity).
  assert (Hc : build_cancel invite0 = Some cancel0) by (vm_compute; reflexivity).
  assert (H8 : is_utf8 cancel0 = true) by (vm_compute; reflexivity).
  assert (Hb : top_via_branch invite0 = Some "z9hG4bK01") by (vm_compute; reflexivity).
  exact (proj1 (cancel_stops_invite (secs 1) "CANCEL" invite0 id cancel0 peer None "z9hG4bK01" txs
                  E Hu Hc H8 Hb)).
Defined.

End Witness.
