(* ===== verification/B2bua.v ===== *)
(** * The back-to-back user agent (b2bua.rs)

    One call: its two legs, its INVITE attempts toward the callee, failover,
    session timer and teardown; and the manager that owns the calls. Times are
    arguments; random branches and identifiers are arguments; a reply channel
    is an opaque identifier. The media manager's answers are arguments and the
    requests made to it are part of a result. *)

From S2P Require Import Prelude Str Net SipBuilder.

Abbreviation CallUuid := string.
Abbreviation TrunkId := Z.

(** ** Data *)

Inductive CallState := Initiated | Proceeding | Ringing | Connected | Terminating | Terminated.

#[export] Instance CallState_eq_dec : EqDecision CallState.
Proof. solve_decision. Defined.

Definition as_str (s : CallState) : string :=
  match s with
  | Initiated => "initiated" | Proceeding => "proceeding" | Ringing => "ringing"
  | Connected => "connected" | Terminating => "terminating" | Terminated => "terminated"
  end.

Record CallLeg := mkLeg {
  l_call_id : string;
  local_tag : string;
  remote_tag : option string;
  remote_addr : SocketAddr;
  l_cseq : Z;
  established : bool;
  l_from_raw : option string;
  l_to_raw : option string;
  remote_target : option string
}.

#[export] Instance eta_leg : Eta CallLeg := fun l =>
  mkLeg (l_call_id l) (local_tag l) (remote_tag l) (remote_addr l) (l_cseq l) (established l)
    (l_from_raw l) (l_to_raw l) (remote_target l).

Definition CallLeg_new (call_id local_tag : string) (remote_addr : SocketAddr) : CallLeg :=
  mkLeg call_id local_tag None remote_addr 1 false None None None.

Record FailoverState := mkFailover {
  candidates : list TrunkId;
  fo_attempt : Z;
  invite_sent_at : Z;
  provisional_received : bool
}.

#[export] Instance eta_failover : Eta FailoverState := fun f =>
  mkFailover (candidates f) (fo_attempt f) (invite_sent_at f) (provisional_received f).

Record SessionTimerState := mkTimer {
  interval_secs : Z;
  min_se : Z;
  next_refresh_at : Z;
  pending_refresh_cseq : option Z;
  pending_refresh_raw : option string;
  last_refresh : option (Z * string);
  refresh_failures : Z
}.

#[export] Instance eta_timer : Eta SessionTimerState := fun t =>
  mkTimer (interval_secs t) (min_se t) (next_refresh_at t) (pending_refresh_cseq t)
    (pending_refresh_raw t) (last_refresh t) (refresh_failures t).

Record RefreshFailure := mkFailure {
  f_ack : option string;
  f_dest : SocketAddr;
  f_transport : Transport;
  f_reply_tx : option nat;
  dialog_gone : bool
}.

Definition MAX_REFRESH_FAILURES : Z := 3.

Record InviteAttempt := mkAttempt {
  a_raw : string;
  a_branch : option string;
  a_cseq : Z;
  a_dest : SocketAddr;
  a_transport : Transport;
  a_trunk_id : option TrunkId
}.

Definition MAX_INVITE_ATTEMPTS : nat := 8.

Inductive InviteResponseClass := Current | Stale (a : option InviteAttempt).

Record B2buaCall := mkCall {
  uuid : CallUuid;
  inbound : CallLeg;
  outbound : option CallLeg;
  state : CallState;
  caller_is_webrtc : bool;
  caller_sdp : option string;
  callee_sdp : option string;
  media_session_id : option string;
  started_at : Z;
  started_wall : Z;
  answered_at : option Z;
  peer_reason : option string;
  caller_to_raw : option string;
  alerting_at : option Z;
  sent_cseq_toward_caller : Z;
  direction_field : option string;
  caller_reply_tx : option nat;
  caller_source : SocketAddr;
  caller_transport : Transport;
  callee_reply_tx : option nat;
  callee_dest : option SocketAddr;
  callee_transport : Transport;
  callee_request_uri : option string;
  caller_original_vias : list string;
  caller_invite_cseq : option Z;
  invite_attempts : list InviteAttempt;
  original_outbound_invite : option string;
  trunk_id : option TrunkId;
  auth_retry_count : Z;
  session_timer_retry_count : Z;
  webrtc_session : option nat;
  webrtc_ice_pwd : option string;
  webrtc_sdp_answer : option string;
  caller_number : option string;
  callee_number : option string;
  trunk_name : option string;
  trunk_counted : option string;
  callee_responded : bool;
  codec : option string;
  callee_is_webrtc : bool;
  webrtc_session_b : option nat;
  webrtc_ice_pwd_b : option string;
  webrtc_sdp_offer : option string;
  failover : option FailoverState;
  session_timer : option SessionTimerState;
  last_sdp_to_caller : option string
}.

#[export] Instance eta_call : Eta B2buaCall := fun c =>
  mkCall (uuid c) (inbound c) (outbound c) (state c) (caller_is_webrtc c) (caller_sdp c) (callee_sdp c)
    (media_session_id c) (started_at c) (started_wall c) (answered_at c) (peer_reason c) (caller_to_raw c)
    (alerting_at c) (sent_cseq_toward_caller c) (direction_field c) (caller_reply_tx c)
    (caller_source c) (caller_transport c) (callee_reply_tx c) (callee_dest c) (callee_transport c)
    (callee_request_uri c) (caller_original_vias c) (caller_invite_cseq c) (invite_attempts c)
    (original_outbound_invite c) (trunk_id c) (auth_retry_count c) (session_timer_retry_count c)
    (webrtc_session c) (webrtc_ice_pwd c) (webrtc_sdp_answer c) (caller_number c) (callee_number c)
    (trunk_name c) (trunk_counted c) (callee_responded c) (codec c) (callee_is_webrtc c)
    (webrtc_session_b c) (webrtc_ice_pwd_b c) (webrtc_sdp_offer c) (failover c) (session_timer c)
    (last_sdp_to_caller c).

(** ** Text helpers *)

Definition extract_body (raw : string) : option string :=
  match find_str (CRLF +:+ CRLF) raw with
  | Some pos => let body := sdrop (pos + 4) raw in if seqb body "" then None else Some body
  | None => None
  end.

Definition parse_cseq_number (raw : string) : option Z :=
  line ← head (List.filter (fun l => starts_with "cseq:" (to_ascii_lowercase l)) (split_crlf raw));
  n ← head (split_whitespace (sdrop 5 line));
  parse_uint u32_max n.

Definition same_ipv4_subnet24 (a b : IpAddr) : bool :=
  match a, b with V4 a, V4 b => bool_decide (take 3 a = take 3 b) | _, _ => false end.

(** ** One call *)

Definition B2buaCall_new (fresh_uuid inbound_call_id inbound_tag : string) (inbound_addr : SocketAddr)
    (sdp : option string) (is_webrtc : bool) (reply_tx : option nat) (t : Transport) (now wall : Z) :
    B2buaCall :=
  mkCall fresh_uuid (CallLeg_new inbound_call_id inbound_tag inbound_addr) None Initiated is_webrtc sdp
    None None now wall None None None None 0 None reply_tx inbound_addr t None None Udp None [] None []
    None None 0 0 None None None None None None None false None false None None None None None None.

Definition set_outbound (call_id local_tag : string) (addr : SocketAddr) (c : B2buaCall) : B2buaCall :=
  c <| outbound := Some (CallLeg_new call_id local_tag addr) |>.

Definition establish_inbound (tag : string) (c : B2buaCall) : B2buaCall :=
  c <| inbound := inbound c <| remote_tag := Some tag |> <| established := true |> |>.

Definition establish_outbound (tag : string) (c : B2buaCall) : B2buaCall :=
  let c := match outbound c with
           | Some leg => c <| outbound := Some (leg <| remote_tag := Some tag |> <| established := true |>) |>
           | None => c end in
  if established (inbound c) then c <| state := Connected |> else c.

Section dialogs.
(** [SocketAddr]'s [Display]. *)
Context (show_addr : SocketAddr -> string).

Definition dialog_info_toward_caller (c : B2buaCall) (local_ip : string) (local_port : Z) :
    option DialogInfo :=
  from ← l_to_raw (inbound c);
  to ← l_from_raw (inbound c);
  Some (mkDialog (l_call_id (inbound c)) from to
          (default ("sip:" +:+ show_addr (caller_source c)) (remote_target (inbound c)))
          (wrapw 32 (sent_cseq_toward_caller c + 1)) local_ip local_port
          (transport_token (caller_transport c))).

Definition dialog_info_toward_callee (c : B2buaCall) (local_ip : string) (local_port : Z) :
    option DialogInfo :=
  out ← outbound c;
  from ← l_from_raw out;
  to ← l_to_raw out;
  uri ← match remote_target out with
        | Some t => Some t
        | None => match callee_request_uri c with
                  | Some u => Some u
                  | None => (fun d => "sip:" +:+ show_addr d) <$> callee_dest c
                  end
        end;
  Some (mkDialog (l_call_id out) from to uri (l_cseq out) local_ip local_port
          (transport_token (callee_transport c))).

(** CSeq of the live INVITE toward the callee. *)
Definition live_invite_cseq (c : B2buaCall) : Z :=
  match last (invite_attempts c) with
  | Some a => a_cseq a
  | None => default 0 (original_outbound_invite c ≫= parse_cseq_number)
  end.

Definition leg_cseq (c : B2buaCall) : Z :=
  match outbound c with Some l => l_cseq l | None => 0 end.

Definition next_outbound_cseq (c : B2buaCall) : Z :=
  wrapw 32 (Z.max (live_invite_cseq c) (leg_cseq c) + 1).

Definition bye_toward_callee (branch : string) (c : B2buaCall) (local_ip : string) (local_port : Z)
    (reason : option string) : option string :=
  d ← dialog_info_toward_callee c local_ip local_port;
  Some (build_bye branch (with_cseq d (next_outbound_cseq c)) reason).

Definition direction (c : B2buaCall) : string :=
  match direction_field c with
  | Some d => d
  | None => match trunk_id c, trunk_name c with
            | Some _, _ => "outbound" | None, Some _ => "inbound" | None, None => "local" end
  end.

(** [reason_phrase] is rsip's. *)
Definition final_toward_caller (reason_phrase : Z -> string) (c : B2buaCall) (code : Z)
    (reason : option string) : option string :=
  match caller_original_vias c with
  | [] => None
  | vias =>
      from ← l_from_raw (inbound c);
      to ← caller_to_raw c;
      n ← caller_invite_cseq c;
      Some (unlines
        (["SIP/2.0 " +:+ show code +:+ " " +:+ reason_phrase code] ++ vias
         ++ ["From: " +:+ from; "To: " +:+ to +:+ ";tag=sbc-" +:+ stake 8 (uuid c);
             "Call-ID: " +:+ l_call_id (inbound c); "CSeq: " +:+ show n +:+ " INVITE"]
         ++ match reason with Some r => ["Reason: " +:+ r] | None => [] end
         ++ ["Content-Length: 0"; ""]) "")
  end.
End dialogs.

(** ** The manager *)

Record RecentDialog := mkRecent {
  r_inbound_call_id : string;
  r_outbound_call_id : option string;
  terminated_at : Z;
  last_attempt : option InviteAttempt
}.

Definition RECENT_DIALOG_TTL : Z := secs 600.

Record B2buaManager := mkManager {
  calls : gmap CallUuid B2buaCall;
  recent_terminated : list RecentDialog
}.

#[export] Instance eta_manager : Eta B2buaManager := fun m =>
  mkManager (calls m) (recent_terminated m).

(** What an operation asks of the media manager and of the event bus. *)
Inductive Effect :=
  | UpdateCalleeSdp (media_id sdp : string)
  | TerminateSession (media_id : string)
  | CallStarted (uuid call_id : string)
  | CallAnswered (uuid : string)
  | CallEnded (uuid : string) (duration_secs : Z) (reason : string).

Definition with_call (id : CallUuid) (f : B2buaCall -> B2buaCall) (m : B2buaManager) : B2buaManager :=
  m <| calls := alter f id (calls m) |>.

(** [let call = calls.get_mut(uuid)?; ...] *)
Definition on_call {A} (id : CallUuid) (f : B2buaCall -> option A * B2buaCall) (m : B2buaManager) :
    option A * B2buaManager :=
  match calls m !! id with
  | None => (None, m)
  | Some c => let '(r, c) := f c in (r, m <| calls := <[id := c]> (calls m) |>)
  end.

Definition not_found {A} : sbc_result A := Err (EDialog "B2BUA call not found").

(** [create_session] is the media manager's; a refusal refuses the call. *)
Definition create_call (now wall : Z) (fresh_uuid : string) (create_session : string -> string -> sbc_result string)
    (is_webrtc : string -> bool) (inbound_call_id inbound_tag : string) (caller_addr : SocketAddr)
    (sdp : option string) (reply_tx : option nat) (t : Transport) (m : B2buaManager) :
    sbc_result CallUuid * list Effect * B2buaManager :=
  let call := B2buaCall_new fresh_uuid inbound_call_id inbound_tag caller_addr sdp
                (match sdp with Some s => is_webrtc s | None => false end) reply_tx t now wall in
  let created :=
    match sdp with
    | Some s => match create_session fresh_uuid s with
                | Ok session_id => Ok (call <| media_session_id := Some session_id |>)
                | Err _ => Err (ETransport "no media resources for call")
                end
    | None => Ok call
    end in
  match created with
  | Err e => (Err e, [], m)
  | Ok call =>
      let call := call <| state := Proceeding |> in
      (Ok fresh_uuid, [CallStarted fresh_uuid inbound_call_id],
       m <| calls := <[fresh_uuid := call]> (calls m) |>)
  end.

Definition attach_outbound (id : CallUuid) (call_id tag : string) (addr : SocketAddr)
    (reply_tx : option nat) (t : Transport) (m : B2buaManager) : sbc_result unit * B2buaManager :=
  match calls m !! id with
  | None => (not_found, m)
  | Some _ =>
      (Ok tt, with_call id (fun c =>
         set_outbound call_id tag addr c <| callee_reply_tx := reply_tx |>
           <| callee_dest := Some addr |> <| callee_transport := t |>) m)
  end.

Definition set_inbound_dialog (id : CallUuid) (from : string) (to contact : option string) :
    B2buaManager -> B2buaManager :=
  with_call id (fun c =>
    c <| inbound := inbound c <| l_from_raw := Some from |> <| remote_target := contact |> |>
      <| caller_to_raw := to |>).

Definition mark_alerting (id : CallUuid) (now : Z) : B2buaManager -> B2buaManager :=
  with_call id (fun c => c <| alerting_at := Some now |>).

Definition note_cseq (toward_callee : bool) (n : Z) (c : B2buaCall) : B2buaCall :=
  if toward_callee then
    match outbound c with
    | Some leg => c <| outbound := Some (leg <| l_cseq := Z.max (l_cseq leg) n |>) |>
    | None => c
    end
  else c <| sent_cseq_toward_caller := Z.max (sent_cseq_toward_caller c) n |>.

Definition note_relayed_cseq (id : CallUuid) (toward_callee : bool) (n : Z) : B2buaManager -> B2buaManager :=
  with_call id (note_cseq toward_callee n).

Definition set_peer_reason (id : CallUuid) (reason : string) : B2buaManager -> B2buaManager :=
  with_call id (fun c => c <| peer_reason := Some reason |>).

Definition set_established_dialog (id : CallUuid) (outbound_from to : string) (contact : option string) :
    B2buaManager -> B2buaManager :=
  with_call id (fun c =>
    c <| inbound := inbound c <| l_to_raw := Some to |> |>
      <| outbound := (fun out => out <| l_from_raw := Some outbound_from |> <| l_to_raw := Some to |>
                                     <| remote_target := contact |>) <$> outbound c |>).

(** *** Failover *)

Definition set_failover_candidates (id : CallUuid) (now : Z) (cs : list TrunkId) :
    B2buaManager -> B2buaManager :=
  with_call id (fun c => c <| failover := Some (mkFailover cs 1 now false) |>).

Definition mark_callee_responded (id : CallUuid) : B2buaManager -> B2buaManager :=
  with_call id (fun c => c <| callee_responded := true |>).

Definition mark_provisional (c : B2buaCall) : B2buaCall :=
  c <| failover := (fun fo => fo <| provisional_received := true |>) <$> failover c |>.

Definition mark_provisional_received (id : CallUuid) : B2buaManager -> B2buaManager :=
  with_call id mark_provisional.

Definition take_next (now : Z) (c : B2buaCall) : option TrunkId * B2buaCall :=
  match failover c with
  | None => (None, c)
  | Some fo =>
      if provisional_received fo then (None, c)
      else match candidates fo with
           | [] => (None, c)
           | next :: rest =>
               (Some next,
                c <| failover := Some (mkFailover rest (wrapw 32 (fo_attempt fo + 1)) now (provisional_received fo)) |>)
           end
  end.

Definition take_next_failover_candidate (id : CallUuid) (now : Z) :
    B2buaManager -> option TrunkId * B2buaManager :=
  on_call id (take_next now).

Definition attempt_timed_out (now timeout : Z) (c : B2buaCall) : bool :=
  match state c with Initiated | Proceeding => true | _ => false end
  && match failover c with
     | Some f => negb (provisional_received f) && (timeout <? duration_since now (invite_sent_at f))
     | None => false
     end.

Definition invite_attempts_timed_out {HI : HashIter CallUuid B2buaCall} (now timeout : Z) (m : B2buaManager) :
    list (CallUuid * Z * bool) :=
  omap (fun c => match failover c with
                 | Some f => Some (uuid c, fo_attempt f, match candidates f with [] => false | _ => true end)
                 | None => None end)
    (List.filter (attempt_timed_out now timeout) (hiter (calls m)).*2).

(** *** INVITE attempts toward the callee *)

Definition push_attempt (now : Z) (raw : string) (dest : SocketAddr) (t : Transport)
    (trunk : option TrunkId) (c : B2buaCall) : B2buaCall :=
  let attempt := mkAttempt raw (top_via_branch raw) (default 1 (parse_cseq_number raw)) dest t trunk in
  let attempts := invite_attempts c ++ [attempt] in
  c <| original_outbound_invite := Some raw |>
    <| trunk_id := match trunk with Some t => Some t | None => trunk_id c end |>
    <| callee_dest := Some dest |> <| callee_transport := t |>
    <| failover := (fun fo => fo <| invite_sent_at := now |>) <$> failover c |>
    <| invite_attempts := if (MAX_INVITE_ATTEMPTS <? length attempts)%nat then drop 1 attempts else attempts |>.

Definition push_invite_attempt (id : CallUuid) (now : Z) (raw : string) (dest : SocketAddr)
    (t : Transport) (trunk : option TrunkId) : B2buaManager -> B2buaManager :=
  with_call id (push_attempt now raw dest t trunk).

Definition current_attempt (id : CallUuid) (m : B2buaManager) : option (InviteAttempt * option nat) :=
  c ← calls m !! id; a ← last (invite_attempts c); Some (a, callee_reply_tx c).

Definition outbound_invite_cseq (id : CallUuid) (m : B2buaManager) : option Z :=
  c ← calls m !! id; a ← last (invite_attempts c); Some (a_cseq a).

(** [iter().rev().skip(1).find(p)] *)
Definition find_older (p : InviteAttempt -> bool) (attempts : list InviteAttempt) : option InviteAttempt :=
  head (List.filter p (drop 1 (rev attempts))).

Definition branch_is (b : string) (a : InviteAttempt) : bool := bool_decide (a_branch a = Some b).

Definition classify (c : B2buaCall) (response_branch : option string) (response_cseq : Z) :
    InviteResponseClass :=
  match last (invite_attempts c) with
  | None => Current
  | Some current =>
      let by_branch :=
        b ← response_branch;
        if branch_is b current then Some Current
        else (fun a => Stale (Some a)) <$> find_older (branch_is b) (invite_attempts c) in
      match by_branch with
      | Some r => r
      | None =>
          if a_cseq current <? response_cseq then Stale None
          else if match response_branch, a_branch current with
                  | Some _, Some _ => response_cseq =? a_cseq current | _, _ => false end
          then Current
          else if response_cseq <? a_cseq current
          then Stale (find_older (fun a => a_cseq a =? response_cseq) (invite_attempts c))
          else Current
      end
  end.

Definition classify_invite_response (id : CallUuid) (response_branch : option string) (response_cseq : Z)
    (m : B2buaManager) : option InviteResponseClass :=
  c ← calls m !! id; Some (classify c response_branch response_cseq).

Definition set_caller_vias (id : CallUuid) (vias : list string) (n : option Z) : B2buaManager -> B2buaManager :=
  with_call id (fun c => c <| caller_original_vias := vias |> <| caller_invite_cseq := n |>).

Definition reset_auth_retry (id : CallUuid) : B2buaManager -> B2buaManager :=
  with_call id (fun c => c <| auth_retry_count := 0 |>).

Definition increment_auth_retry (id : CallUuid) : B2buaManager -> B2buaManager :=
  with_call id (fun c => c <| auth_retry_count := wrapw 32 (auth_retry_count c + 1) |>).

Definition increment_session_timer_retry (id : CallUuid) : B2buaManager -> B2buaManager :=
  with_call id (fun c => c <| session_timer_retry_count := wrapw 32 (session_timer_retry_count c + 1) |>).

Definition store_outbound_invite (id : CallUuid) (invite_raw : string) (trunk : TrunkId) : B2buaManager -> B2buaManager :=
  with_call id (fun c => c <| original_outbound_invite := Some invite_raw |> <| trunk_id := Some trunk |>).

Definition get_auth_retry_info (id : CallUuid) (m : B2buaManager) : option (string * TrunkId * Z) :=
  c ← calls m !! id; invite ← original_outbound_invite c; t ← trunk_id c; Some (invite, t, auth_retry_count c).

Definition get_session_timer_retry_count (id : CallUuid) (m : B2buaManager) : Z :=
  match calls m !! id with Some c => session_timer_retry_count c | None => 0 end.

(** *** Getters and setters of one call *)

Definition get_media_session_id (id : CallUuid) (m : B2buaManager) : option string :=
  c ← calls m !! id; media_session_id c.

Definition get_inbound_call_id (id : CallUuid) (m : B2buaManager) : option string :=
  c ← calls m !! id; Some (l_call_id (inbound c)).

Definition get_call_ids (id : CallUuid) (m : B2buaManager) : option (string * option string) :=
  c ← calls m !! id; Some (l_call_id (inbound c), l_call_id <$> outbound c).

Definition get_caller_invite_cseq (id : CallUuid) (m : B2buaManager) : option Z :=
  c ← calls m !! id; caller_invite_cseq c.

Definition get_caller_vias (id : CallUuid) (m : B2buaManager) : list string :=
  match calls m !! id with Some c => caller_original_vias c | None => [] end.

Definition get_caller_reply_info (id : CallUuid) (m : B2buaManager) : option (option nat * SocketAddr * Transport) :=
  c ← calls m !! id; Some (caller_reply_tx c, caller_source c, caller_transport c).

Definition get_callee_reply_info (id : CallUuid) (m : B2buaManager) : option (option nat * SocketAddr * Transport) :=
  c ← calls m !! id; d ← callee_dest c; Some (callee_reply_tx c, d, callee_transport c).

Definition get_callee_cancel_info (id : CallUuid) (m : B2buaManager) :
    option (string * Z * SocketAddr * option nat * Transport) :=
  c ← calls m !! id; out ← outbound c; d ← callee_dest c;
  Some (l_call_id out, l_cseq out, d, callee_reply_tx c, callee_transport c).

Definition get_callee_contact_uri (id : CallUuid) (m : B2buaManager) : option string :=
  c ← calls m !! id;
  match leg ← outbound c; remote_target leg with Some t => Some t | None => callee_request_uri c end.

Definition set_callee_request_uri (id : CallUuid) (uri : string) : B2buaManager -> B2buaManager :=
  with_call id (fun c => c <| callee_request_uri := Some uri |>).

Definition set_last_sdp_to_caller (id : CallUuid) (sdp : string) : B2buaManager -> B2buaManager :=
  with_call id (fun c => c <| last_sdp_to_caller := Some sdp |>).

Definition is_caller_webrtc (id : CallUuid) (m : B2buaManager) : bool :=
  match calls m !! id with Some c => caller_is_webrtc c | None => false end.

Definition is_callee_webrtc (id : CallUuid) (m : B2buaManager) : bool :=
  match calls m !! id with Some c => callee_is_webrtc c | None => false end.

Definition set_callee_is_webrtc (id : CallUuid) (b : bool) : B2buaManager -> B2buaManager :=
  with_call id (fun c => c <| callee_is_webrtc := b |>).

(** A session of [media/webrtc_handler.rs] is an opaque identifier. *)
Definition set_webrtc_session (id : CallUuid) (session : nat) : B2buaManager -> B2buaManager :=
  with_call id (fun c => c <| webrtc_session := Some session |>).
Definition get_webrtc_session (id : CallUuid) (m : B2buaManager) : option nat :=
  c ← calls m !! id; webrtc_session c.
Definition set_webrtc_session_b (id : CallUuid) (session : nat) : B2buaManager -> B2buaManager :=
  with_call id (fun c => c <| webrtc_session_b := Some session |>).
Definition get_webrtc_session_b (id : CallUuid) (m : B2buaManager) : option nat :=
  c ← calls m !! id; webrtc_session_b c.
Definition set_webrtc_ice_pwd (id : CallUuid) (pwd : string) : B2buaManager -> B2buaManager :=
  with_call id (fun c => c <| webrtc_ice_pwd := Some pwd |>).
Definition get_webrtc_ice_pwd (id : CallUuid) (m : B2buaManager) : option string :=
  c ← calls m !! id; webrtc_ice_pwd c.
Definition set_webrtc_ice_pwd_b (id : CallUuid) (pwd : string) : B2buaManager -> B2buaManager :=
  with_call id (fun c => c <| webrtc_ice_pwd_b := Some pwd |>).
Definition get_webrtc_ice_pwd_b (id : CallUuid) (m : B2buaManager) : option string :=
  c ← calls m !! id; webrtc_ice_pwd_b c.
Definition set_webrtc_sdp_answer (id : CallUuid) (sdp : string) : B2buaManager -> B2buaManager :=
  with_call id (fun c => c <| webrtc_sdp_answer := Some sdp |>).
Definition get_webrtc_sdp_answer (id : CallUuid) (m : B2buaManager) : option string :=
  c ← calls m !! id; webrtc_sdp_answer c.
Definition set_webrtc_sdp_offer (id : CallUuid) (sdp : string) : B2buaManager -> B2buaManager :=
  with_call id (fun c => c <| webrtc_sdp_offer := Some sdp |>).
Definition get_webrtc_sdp_offer (id : CallUuid) (m : B2buaManager) : option string :=
  c ← calls m !! id; webrtc_sdp_offer c.

(** *** Session timer (RFC 4028) *)

Definition refresh_delay (interval : Z) : Z := secs (Z.max (interval / 2) 30).

Definition set_session_timer (id : CallUuid) (now interval min_se : Z) : B2buaManager -> B2buaManager :=
  with_call id (fun c =>
    c <| session_timer := Some (mkTimer interval min_se (now + refresh_delay interval) None None None 0) |>).

Definition is_pending_refresh (id : CallUuid) (n : Z) (m : B2buaManager) : bool :=
  match c ← calls m !! id; session_timer c with
  | Some st => bool_decide (pending_refresh_cseq st = Some n)
  | None => false
  end.

(** Where the answer's ACK goes; [?] on a missing destination. *)
Definition failure_of (c : B2buaCall) (ack : option string) (gone : bool) : option RefreshFailure :=
  d ← callee_dest c; Some (mkFailure ack d (callee_transport c) (callee_reply_tx c) gone).

(** The timer after a rejection other than 491, 405, 501 and 420. *)
Definition reject_refresh (now status : Z) (min_se_422 : option Z) (st : SessionTimerState) :
    SessionTimerState * bool :=
  let progressed := (status =? 422) && match min_se_422 with
                                       | Some m => interval_secs st <? m | None => false end in
  let st := match min_se_422 with
            | Some m => if status =? 422
                        then st <| interval_secs := Z.max (interval_secs st) m |>
                                <| min_se := Z.max (min_se st) m |>
                        else st
            | None => st end in
  let st := st <| refresh_failures := if progressed then 0 else wrapw 32 (refresh_failures st + 1) |> in
  let gone := ((status =? 408) || (status =? 481)) || (MAX_REFRESH_FAILURES <=? refresh_failures st) in
  let backoff := Z.min (Z.shiftl 30 (Z.min (refresh_failures st) 4)) (Z.max (interval_secs st / 2) 30) in
  (st <| next_refresh_at := now + secs backoff |>, gone).

Definition fail_refresh (now delay_ms n status : Z) (min_se_422 : option Z) (response_to : string)
    (c : B2buaCall) : option RefreshFailure * B2buaCall :=
  match session_timer c with
  | None => (None, c)
  | Some st =>
      if negb (bool_decide (pending_refresh_cseq st = Some n)) then (None, c)
      else
        let ack := pending_refresh_raw st ≫= fun r => build_ack_for_non_2xx r response_to in
        let st := st <| pending_refresh_cseq := None |> <| pending_refresh_raw := None |> in
        if status =? 491 then
          (failure_of c ack false,
           c <| session_timer := Some (st <| next_refresh_at := now + millis delay_ms |>) |>)
        else if (status =? 405) || (status =? 501) || (status =? 420) then
          (failure_of c ack false, c <| session_timer := None |>)
        else
          let '(st, gone) := reject_refresh now status min_se_422 st in
          (failure_of c ack gone, c <| session_timer := Some st |>)
  end.

Definition fail_session_refresh (id : CallUuid) (now delay_ms n status : Z) (min_se_422 : option Z)
    (response_to : string) : B2buaManager -> option RefreshFailure * B2buaManager :=
  on_call id (fail_refresh now delay_ms n status min_se_422 response_to).

Section timer.
Context (show_addr : SocketAddr -> string).

Abbreviation Outgoing := (string * SocketAddr * Transport * option nat)%type.

Definition refresh_duplicate_ack (branch : string) (id : CallUuid) (n status : Z) (response_to local_ip : string)
    (local_port : Z) (m : B2buaManager) : option (option string * SocketAddr * Transport * option nat) :=
  c ← calls m !! id;
  st ← session_timer c;
  last ← last_refresh st;
  if negb (last.1 =? n) then None
  else
    let ack :=
      if (100 <=? status) && (status <=? 199) then None
      else if (200 <=? status) && (status <=? 299)
      then (fun d => build_ack_for_2xx branch d n) <$> dialog_info_toward_callee show_addr c local_ip local_port
      else build_ack_for_non_2xx last.2 response_to in
    d ← callee_dest c; Some (ack, d, callee_transport c, callee_reply_tx c).

Definition set_codec (id : CallUuid) (name : string) : B2buaManager -> B2buaManager :=
  with_call id (fun c => match codec c with None => c <| codec := Some name |> | Some _ => c end).

(** One call of [due_session_refreshes]: the re-INVITE to send, if one is due. *)
Definition refresh_call (now : Z) (fresh local_ip : string) (local_port : Z) (c : B2buaCall) :
    option (string * SocketAddr) * B2buaCall :=
  if negb (bool_decide (state c = Connected)) then (None, c)
  else
    match callee_dest c, session_timer c with
    | Some dest, Some st =>
        if (now <? next_refresh_at st) || bool_decide (is_Some (pending_refresh_cseq st)) then (None, c)
        else
          match dialog_info_toward_callee show_addr c local_ip local_port with
          | None => (None, c)
          | Some d =>
              let sdp := default "" (original_outbound_invite c ≫= extract_body) in
              if seqb sdp "" then (None, c)
              else
                let n := next_outbound_cseq c in
                let contact := "<sip:sbc@" +:+ local_ip +:+ ":" +:+ show local_port +:+ ">" in
                let reinvite := build_reinvite fresh (with_cseq d n) sdp contact
                                  (Some (interval_secs st, "uac")) (Some (min_se st)) in
                (Some (reinvite, dest),
                 c <| outbound := (fun leg => leg <| l_cseq := n |>) <$> outbound c |>
                   <| session_timer := Some (st <| pending_refresh_cseq := Some n |>
                        <| pending_refresh_raw := Some reinvite |>
                        <| last_refresh := Some (n, reinvite) |>
                        <| next_refresh_at := now + refresh_delay (interval_secs st) |>) |>)
          end
    | _, _ => (None, c)
    end.

(** [fresh id] is the branch drawn for the call [id]. *)
Definition due_session_refreshes {HI : HashIter CallUuid B2buaCall} (now : Z) (fresh : CallUuid -> string)
    (local_ip : string) (local_port : Z) (m : B2buaManager) : list (CallUuid * Outgoing) * B2buaManager :=
  (omap (fun '(id, c) =>
     match (refresh_call now (fresh id) local_ip local_port c).1 with
     | Some (reinvite, dest) => Some (uuid c, (reinvite, dest, callee_transport c, callee_reply_tx c))
     | None => None
     end) (hiter (calls m)),
   m <| calls := map_imap (fun id c => Some (refresh_call now (fresh id) local_ip local_port c).2) (calls m) |>).

Definition complete_refresh (branch : string) (n : Z) (local_ip : string) (local_port : Z) (c : B2buaCall) :
    option Outgoing * B2buaCall :=
  match session_timer c with
  | None => (None, c)
  | Some st =>
      if negb (bool_decide (pending_refresh_cseq st = Some n)) then (None, c)
      else
        let c := c <| session_timer := Some (st <| pending_refresh_cseq := None |>
                        <| pending_refresh_raw := None |> <| refresh_failures := 0 |>) |> in
        (d ← dialog_info_toward_callee show_addr c local_ip local_port;
         dest ← callee_dest c;
         Some (build_ack_for_2xx branch d n, dest, callee_transport c, callee_reply_tx c), c)
  end.

Definition complete_session_refresh (branch : string) (id : CallUuid) (n : Z) (local_ip : string)
    (local_port : Z) : B2buaManager -> option Outgoing * B2buaManager :=
  on_call id (complete_refresh branch n local_ip local_port).

(** *** Requests toward the legs *)

Definition ack_for_answered_callee (branch : string) (id : CallUuid) (local_ip : string) (local_port : Z)
    (m : B2buaManager) : option Outgoing :=
  c ← calls m !! id;
  d ← dialog_info_toward_callee show_addr c local_ip local_port;
  dest ← callee_dest c;
  Some (build_ack_for_2xx branch d (cseq d), dest, callee_transport c, callee_reply_tx c).

Definition relay_bye_toward_callee (branch : string) (local_ip : string) (local_port : Z)
    (reason : option string) (c : B2buaCall) : option string * B2buaCall :=
  match dialog_info_toward_callee show_addr c local_ip local_port, outbound c with
  | Some d, Some leg =>
      let n := next_outbound_cseq c in
      (Some (build_bye branch (with_cseq d n) reason), c <| outbound := Some (leg <| l_cseq := n |>) |>)
  | _, _ => (None, c)
  end.

Definition relay_bye_toward_caller (branch : string) (local_ip : string) (local_port : Z)
    (reason : option string) (c : B2buaCall) : option string * B2buaCall :=
  match dialog_info_toward_caller show_addr c local_ip local_port with
  | Some d => (Some (build_bye branch d reason), c <| sent_cseq_toward_caller := cseq d |>)
  | None => (None, c)
  end.

Definition build_relay_bye_toward_callee (branch : string) (id : CallUuid) (local_ip : string)
    (local_port : Z) (reason : option string) : B2buaManager -> option string * B2buaManager :=
  on_call id (relay_bye_toward_callee branch local_ip local_port reason).

Definition build_relay_bye_toward_caller (branch : string) (id : CallUuid) (local_ip : string)
    (local_port : Z) (reason : option string) : B2buaManager -> option string * B2buaManager :=
  on_call id (relay_bye_toward_caller branch local_ip local_port reason).
End timer.

(** *** Call progress *)

Definition handle_ringing (id : CallUuid) (m : B2buaManager) : sbc_result unit * B2buaManager :=
  match calls m !! id with
  | None => (not_found, m)
  | Some _ => (Ok tt, with_call id (fun c => c <| state := Ringing |>) m)
  end.

Definition answer (now_wall : Z) (callee_tag : string) (sdp : option string) (c : B2buaCall) : B2buaCall :=
  let c := establish_outbound callee_tag (c <| callee_sdp := sdp |>) in
  match answered_at c with None => c <| answered_at := Some now_wall |> | Some _ => c end.

Definition handle_200_ok (id : CallUuid) (now_wall : Z) (callee_tag : string) (sdp : option string)
    (m : B2buaManager) : sbc_result unit * list Effect * B2buaManager :=
  match calls m !! id with
  | None => (not_found, [], m)
  | Some c =>
      let first_answer := match answered_at c with None => true | Some _ => false end in
      (Ok tt,
       (match media_session_id c, sdp with Some mid, Some s => [UpdateCalleeSdp mid s] | _, _ => [] end)
       ++ (if first_answer then [CallAnswered id] else []),
       with_call id (answer now_wall callee_tag sdp) m)
  end.

Definition ack (c : B2buaCall) : B2buaCall :=
  let c := establish_inbound (default "" (remote_tag (inbound c))) c in
  match outbound c with
  | Some l => if established l then c <| state := Connected |> else c
  | None => c
  end.

Definition handle_ack (id : CallUuid) (m : B2buaManager) : sbc_result unit * B2buaManager :=
  match calls m !! id with
  | None => (not_found, m)
  | Some _ => (Ok tt, with_call id ack m)
  end.

Definition release_media (c : B2buaCall) : list Effect :=
  match media_session_id c with Some mid => [TerminateSession mid] | None => [] end.

Definition handle_bye (id : CallUuid) (m : B2buaManager) : sbc_result unit * list Effect * B2buaManager :=
  match calls m !! id with
  | None => (not_found, [], m)
  | Some c => (Ok tt, release_media c, with_call id (fun c => c <| state := Terminating |>) m)
  end.

(** *** Teardown *)

Definition is_recent (now : Z) (d : RecentDialog) : bool :=
  duration_since now (terminated_at d) <? RECENT_DIALOG_TTL.

Definition remember_terminated (now : Z) (inbound_id : string) (outbound_id : option string)
    (a : option InviteAttempt) (recent : list RecentDialog) : list RecentDialog :=
  let recent := List.filter (is_recent now) recent ++ [mkRecent inbound_id outbound_id now a] in
  drop (length recent - 256) recent.

Definition terminate_call_with_reason (id : CallUuid) (now : Z) (reason : string) (m : B2buaManager) :
    list Effect * B2buaManager :=
  match calls m !! id with
  | None => ([], m)
  | Some c =>
      (release_media c ++ [CallEnded id (as_secs (duration_since now (started_at c))) reason],
       mkManager (delete id (calls m))
         (remember_terminated now (l_call_id (inbound c)) (l_call_id <$> outbound c)
            (last (invite_attempts c)) (recent_terminated m)))
  end.

Definition terminate_call (id : CallUuid) (now : Z) : B2buaManager -> list Effect * B2buaManager :=
  terminate_call_with_reason id now "terminated".

Definition recent_attempt_for_call_id (now : Z) (call_id : string) (m : B2buaManager) : option InviteAttempt :=
  if seqb call_id "" then None
  else
    d ← head (List.filter (fun d => seqb (r_inbound_call_id d) call_id || ends_with call_id (r_inbound_call_id d))
                (List.filter (is_recent now) (rev (recent_terminated m))));
    last_attempt d.

Definition was_recently_terminated (now : Z) (call_id : string) (m : B2buaManager) : bool :=
  if seqb call_id "" then false
  else existsb (fun d =>
         is_recent now d
         && (seqb (r_inbound_call_id d) call_id || ends_with call_id (r_inbound_call_id d)
             || match r_outbound_call_id d with
                | Some o => seqb o call_id || ends_with call_id o | None => false end))
       (recent_terminated m).

(** *** Lookups *)

Definition leg_is (call_id : string) (l : option CallLeg) : bool :=
  match l with Some l => seqb (l_call_id l) call_id | None => false end.
Definition leg_ends (call_id : string) (l : option CallLeg) : bool :=
  match l with
  | Some l => ends_with call_id (l_call_id l) && negb (seqb (l_call_id l) call_id) | None => false end.

(** The leg of one call a request belongs to: [Some true] for the caller's. *)
Definition attribute_leg (call_id : string) (source : option SocketAddr) (c : B2buaCall) : option bool :=
  let inbound_matches := leg_is call_id (Some (inbound c)) in
  let outbound_matches := leg_is call_id (outbound c) in
  let inbound_suffix := negb inbound_matches && leg_ends call_id (Some (inbound c)) in
  let outbound_suffix := negb outbound_matches && leg_ends call_id (outbound c) in
  if negb (inbound_matches || outbound_matches || inbound_suffix || outbound_suffix) then None
  else
    let by_source :=
      match source with
      | None => None
      | Some src =>
          let caller_ip := ip (caller_source c) in
          let callee_ip := ip <$> callee_dest c in
          let callee_near := match callee_ip with Some i => same_ipv4_subnet24 i (ip src) | None => false end in
          let caller_near := same_ipv4_subnet24 caller_ip (ip src) in
          if bool_decide (callee_dest c = Some src) then Some false
          else if bool_decide (caller_source c = src) then Some true
          else if bool_decide (callee_ip = Some (ip src)) && negb (bool_decide (caller_ip = ip src))
          then Some false
          else if bool_decide (caller_ip = ip src) && negb (bool_decide (callee_ip = Some (ip src)))
          then Some true
          else if callee_near && negb caller_near then Some false
          else if caller_near && negb callee_near then Some true
          else None
      end in
    match by_source with
    | Some r => Some r
    | None => Some (inbound_matches || inbound_suffix)
    end.

Fixpoint first_match (call_id : string) (source : option SocketAddr) (cs : list B2buaCall) :
    option (CallUuid * bool) :=
  match cs with
  | [] => None
  | c :: cs => match attribute_leg call_id source c with
               | Some caller => Some (uuid c, caller)
               | None => first_match call_id source cs end
  end.

Section lookups.
Context {HI : HashIter CallUuid B2buaCall}.

Definition values (m : B2buaManager) : list B2buaCall := (hiter (calls m)).*2.

Definition find_by_any_call_id_with_source (call_id : string) (source : option SocketAddr)
    (m : B2buaManager) : option (CallUuid * bool) :=
  first_match call_id source (values m).

Definition find_by_any_call_id (call_id : string) : B2buaManager -> option (CallUuid * bool) :=
  find_by_any_call_id_with_source call_id None.

Definition find_uuid (p : B2buaCall -> bool) (m : B2buaManager) : option CallUuid :=
  uuid <$> head (List.filter p (values m)).

Definition find_by_inbound_call_id (call_id : string) : B2buaManager -> option CallUuid :=
  find_uuid (fun c => leg_is call_id (Some (inbound c))).

Definition find_by_inbound_call_id_suffix (call_id : string) : B2buaManager -> option CallUuid :=
  find_uuid (fun c => leg_ends call_id (Some (inbound c))).

Definition find_by_outbound_call_id (call_id : string) : B2buaManager -> option CallUuid :=
  find_uuid (fun c => leg_is call_id (outbound c)).

Definition counts_for (user : string) (c : B2buaCall) : bool :=
  negb (bool_decide (state c = Terminated \/ state c = Terminating))
  && negb (seqb (direction c) "inbound")
  && bool_decide (caller_number c = Some user).

Definition MIN_CALL_ID_SUFFIX : nat := 8.

(** The call a log line is about: an exact Call-ID first, else a suffix that
    is long enough. *)
Definition log_fields_for_call_id (call_id : string) (m : B2buaManager) : option CallUuid :=
  match find_uuid (fun c => leg_is call_id (Some (inbound c)) || leg_is call_id (outbound c)) m with
  | Some u => Some u
  | None =>
      if (String.length call_id <? MIN_CALL_ID_SUFFIX)%nat then None
      else find_uuid (fun c => ends_with call_id (l_call_id (inbound c))
                               || match outbound c with Some l => ends_with call_id (l_call_id l) | None => false end) m
  end.

Record B2buaStats := mkStats { total_active : nat; connected : nat; ringing : nat; webrtc_calls : nat }.

Definition stats (m : B2buaManager) : B2buaStats :=
  let count p := length (List.filter p (values m)) in
  mkStats (length (values m)) (count (fun c => bool_decide (state c = Connected)))
    (count (fun c => bool_decide (state c = Ringing))) (count caller_is_webrtc).

Record CallSnapshot := mkSnapshot {
  sn_uuid : CallUuid;
  sn_state : string;
  sn_inbound_call_id : string;
  sn_caller_addr : string;
  sn_callee_addr : option string;
  sn_duration_secs : Z;
  sn_is_webrtc : bool;
  sn_media_session_id : option string
}.

Definition duration_secs (now : Z) (c : B2buaCall) : Z := as_secs (duration_since now (started_at c)).

Definition active_calls (show_addr : SocketAddr -> string) (now : Z) (m : B2buaManager) : list CallSnapshot :=
  map (fun c => mkSnapshot (uuid c) (as_str (state c)) (l_call_id (inbound c)) (show_addr (remote_addr (inbound c)))
                  ((fun l => show_addr (remote_addr l)) <$> outbound c) (duration_secs now c) (caller_is_webrtc c)
                  (media_session_id c)) (values m).

Definition active_calls_for_user (user : string) (m : B2buaManager) : Z :=
  wrapw 32 (Z.of_nat (length (List.filter (counts_for user) (values m)))).
End lookups.

(** ** CSeq numbers toward the callee *)

(** The operations on an attached call that send a request toward the callee
    or may change what numbers the next one. [OOwnBye] is the BYE with which the
    SBC ends the call by itself: the call is torn down with it. *)
Inductive CalleeOp :=
  | ORefresh (now : Z) (fresh local_ip : string) (local_port : Z)
  | OBye (branch local_ip : string) (local_port : Z) (reason : option string)
  | OOwnBye (branch local_ip : string) (local_port : Z) (reason : option string)
  | ORelayed (toward_callee : bool) (n : Z)
  | OPush (now : Z) (raw : string) (dest : SocketAddr) (t : Transport) (trunk : option TrunkId)
  | OFail (now delay_ms n status : Z) (min_se : option Z) (response_to : string)
  | OComplete (branch : string) (n : Z) (local_ip : string) (local_port : Z)
  | OAnswer (now_wall : Z) (tag : string) (sdp : option string)
  | OAck.

Section callee_cseq.
Context (show_addr : SocketAddr -> string).

(** The request sent toward the callee, and the call while it lives. *)
Definition callee_op (c : B2buaCall) (o : CalleeOp) : option string * option B2buaCall :=
  match o with
  | ORefresh now fresh ip port =>
      let '(r, c) := refresh_call show_addr now fresh ip port c in (fst <$> r, Some c)
  | OBye branch ip port reason =>
      let '(r, c) := relay_bye_toward_callee show_addr branch ip port reason c in (r, Some c)
  | OOwnBye branch ip port reason => (bye_toward_callee show_addr branch c ip port reason, None)
  | ORelayed b n => (None, Some (note_cseq b n c))
  | OPush now raw dest t trunk => (None, Some (push_attempt now raw dest t trunk c))
  | OFail now ms n status min_se to => (None, Some (fail_refresh now ms n status min_se to c).2)
  | OComplete branch n ip port => (None, Some (complete_refresh show_addr branch n ip port c).2)
  | OAnswer now tag sdp => (None, Some (answer now tag sdp c))
  | OAck => (None, Some (ack c))
  end.

Fixpoint callee_run (c : B2buaCall) (ops : list CalleeOp) : list string :=
  match ops with
  | [] => []
  | o :: ops =>
      let '(r, c) := callee_op c o in
      option_list r ++ match c with Some c => callee_run c ops | None => [] end
  end.

(** A request text that carries the CSeq number [n]. *)
Definition carries (n : Z) (text : string) : Prop :=
  exists b d, cseq d = n /\
    ((exists reason, text = build_bye b d reason) \/
     (exists sdp contact se min_se, text = build_reinvite b d sdp contact se min_se)).

(** The numbers other parties choose stay below RFC 3261's 2^31. *)
Definition op_in_range (o : CalleeOp) : Prop :=
  match o with
  | ORelayed _ n => 0 <= n < 2 ^ 31
  | OPush _ raw _ _ _ => default 1 (parse_cseq_number raw) < 2 ^ 31
  | _ => True
  end.

Lemma push_attempt_live now raw dest t trunk c :
  live_invite_cseq (push_attempt now raw dest t trunk c) = default 1 (parse_cseq_number raw).
Proof.
  unfold live_invite_cseq, push_attempt. simpl. set (a := mkAttempt _ _ _ _ _ _).
  destruct (invite_attempts c) as [|x l]; [done|].
  destruct (_ <? _)%nat.
  - change (drop 1 ((x :: l) ++ [a])) with (l ++ [a]). by rewrite last_snoc.
  - by rewrite last_snoc.
Qed.

Lemma fail_refresh_same now ms n st mse to c :
  let c' := (fail_refresh now ms n st mse to c).2 in
  outbound c' = outbound c /\ invite_attempts c' = invite_attempts c /\
  original_outbound_invite c' = original_outbound_invite c.
Proof. unfold fail_refresh, reject_refresh. by repeat case_match. Qed.

Lemma complete_refresh_same b n ip port c :
  let c' := (complete_refresh show_addr b n ip port c).2 in
  outbound c' = outbound c /\ invite_attempts c' = invite_attempts c /\
  original_outbound_invite c' = original_outbound_invite c.
Proof. unfold complete_refresh. by repeat case_match. Qed.

Lemma answer_same now tag sdp c :
  let c' := answer now tag sdp c in
  leg_cseq c' = leg_cseq c /\ invite_attempts c' = invite_attempts c /\
  original_outbound_invite c' = original_outbound_invite c.
Proof.
  destruct c as [? i o ? ? ? ? ? ? ? an]. unfold answer, establish_outbound, leg_cseq.
  by destruct o, i as [? ? ? ? ? []], an.
Qed.

Lemma ack_same c :
  leg_cseq (ack c) = leg_cseq c /\ invite_attempts (ack c) = invite_attempts c /\
  original_outbound_invite (ack c) = original_outbound_invite c.
Proof.
  destruct c as [? i o]. unfold ack, establish_inbound, leg_cseq.
  by destruct o as [[? ? ? ? ? []]|].
Qed.

Lemma refresh_call_spec now fresh ip port c :
  match (refresh_call show_addr now fresh ip port c).1 with
  | None => (refresh_call show_addr now fresh ip port c).2 = c
  | Some (text, _) =>
      let c' := (refresh_call show_addr now fresh ip port c).2 in
      carries (next_outbound_cseq c) text /\ leg_cseq c' = next_outbound_cseq c /\
      invite_attempts c' = invite_attempts c /\ original_outbound_invite c' = original_outbound_invite c
  end.
Proof.
  unfold refresh_call. destruct (negb _); [done|]. destruct (callee_dest c) as [dest|]; [|done].
  destruct (session_timer c) as [st|]; [|done]. destruct (_ || _); [done|].
  destruct (dialog_info_toward_callee show_addr c ip port) as [d|] eqn:E; [|done].
  destruct (seqb _ ""); [done|]. simpl. split_and!; try done.
  - exists fresh, (with_cseq d (next_outbound_cseq c)). split; [done|]. right. by repeat eexists.
  - unfold dialog_info_toward_callee in E. unfold leg_cseq. simpl.
    by destruct (outbound c).
Qed.

Lemma relay_bye_spec b ip port reason c :
  match (relay_bye_toward_callee show_addr b ip port reason c).1 with
  | None => (relay_bye_toward_callee show_addr b ip port reason c).2 = c
  | Some text =>
      let c' := (relay_bye_toward_callee show_addr b ip port reason c).2 in
      carries (next_outbound_cseq c) text /\ leg_cseq c' = next_outbound_cseq c /\
      invite_attempts c' = invite_attempts c /\ original_outbound_invite c' = original_outbound_invite c
  end.
Proof.
  unfold relay_bye_toward_callee.
  destruct (dialog_info_toward_callee show_addr c ip port) as [d|]; [|done].
  destruct (outbound c); [|done]. simpl. split_and!; try done.
  exists b, (with_cseq d (next_outbound_cseq c)). split; [done|]. left. by eexists.
Qed.

Record numbered (B : Z) (c : B2buaCall) : Prop := {
  n_leg : 0 <= leg_cseq c <= B;
  n_live : live_invite_cseq c < 2 ^ 31
}.

Lemma live_ext c c' :
  invite_attempts c' = invite_attempts c -> original_outbound_invite c' = original_outbound_invite c ->
  live_invite_cseq c' = live_invite_cseq c.
Proof. unfold live_invite_cseq. by intros -> ->. Qed.

Lemma callee_op_step B c o :
  2 ^ 31 <= B < 2 ^ 32 - 1 -> numbered B c -> op_in_range o ->
  match callee_op c o with
  | (None, Some c') => leg_cseq c <= leg_cseq c' /\ numbered B c'
  | (Some text, Some c') => carries (leg_cseq c') text /\ leg_cseq c < leg_cseq c' /\ numbered (B + 1) c'
  | (None, None) => True
  | (Some text, None) => exists n, carries n text /\ leg_cseq c < n
  end.
Proof.
  intros HB [Hl Hv] Ho.
  assert (Hn : next_outbound_cseq c = Z.max (live_invite_cseq c) (leg_cseq c) + 1).
  { unfold next_outbound_cseq. apply wrapw_small. ulia. }
  assert (Hsame : forall c', leg_cseq c' = leg_cseq c -> invite_attempts c' = invite_attempts c ->
            original_outbound_invite c' = original_outbound_invite c ->
            leg_cseq c <= leg_cseq c' /\ numbered B c').
  { intros c' E1 E2 E3. rewrite E1. split; [lia|]. split; [lia|]. by rewrite (live_ext c c'). }
  assert (Hsent : forall c' text, carries (next_outbound_cseq c) text -> leg_cseq c' = next_outbound_cseq c ->
            invite_attempts c' = invite_attempts c -> original_outbound_invite c' = original_outbound_invite c ->
            carries (leg_cseq c') text /\ leg_cseq c < leg_cseq c' /\ numbered (B + 1) c').
  { intros c' text Ht E1 E2 E3. rewrite E1. split; [done|]. split; [lia|].
    split; [rewrite E1; lia|]. by rewrite (live_ext c c'). }
  destruct o; cbn [callee_op].
  - assert (H := refresh_call_spec now fresh local_ip local_port c).
    destruct (refresh_call show_addr now fresh local_ip local_port c) as [[[text dest]|] c']; cbn in *.
    + destruct H as (H1 & H2 & H3 & H4). by apply Hsent.
    + subst. by apply Hsame.
  - assert (H := relay_bye_spec branch local_ip local_port reason c).
    destruct (relay_bye_toward_callee show_addr branch local_ip local_port reason c) as [[text|] c']; cbn in *.
    + destruct H as (H1 & H2 & H3 & H4). by apply Hsent.
    + subst. by apply Hsame.
  - unfold bye_toward_callee. destruct (dialog_info_toward_callee show_addr c local_ip local_port) as [d|]; cbn; [|done].
    exists (next_outbound_cseq c). split; [|lia]. exists branch, (with_cseq d (next_outbound_cseq c)). split; [done|]. left. by eexists.
  - cbn in Ho. unfold note_cseq. destruct toward_callee; [|by apply Hsame].
    destruct (outbound c) as [leg|] eqn:E; [|by apply Hsame].
    unfold leg_cseq in *. rewrite E in *. simpl. split; [lia|]. split; [unfold leg_cseq; simpl; lia|done].
  - cbn in Ho. split; [done|]. split; [done|]. by rewrite push_attempt_live.
  - destruct (fail_refresh_same now delay_ms n status min_se0 response_to c) as (H1 & H2 & H3).
    apply Hsame; [|done..]. unfold leg_cseq. by rewrite H1.
  - destruct (complete_refresh_same branch n local_ip local_port c) as (H1 & H2 & H3).
    apply Hsame; [|done..]. unfold leg_cseq. by rewrite H1.
  - apply Hsame; apply answer_same.
  - apply Hsame; apply ack_same.
Qed.

Lemma callee_run_sorted ops : forall B c,
  2 ^ 31 <= B -> B + Z.of_nat (length ops) < 2 ^ 32 - 1 -> numbered B c -> Forall op_in_range ops ->
  exists ns, Forall2 carries ns (callee_run c ops) /\ StronglySorted Z.lt (leg_cseq c :: ns).
Proof.
  induction ops as [|o ops IH]; intros B c HB Hlen Hc Ho; cbn [callee_run length] in *.
  { exists []. split; [constructor|]. by repeat constructor. }
  inversion_clear Ho as [|? ? Ho1 Ho2]. assert (Hs := callee_op_step B c o ltac:(lia) Hc Ho1).
  destruct (callee_op c o) as [[text|] [c'|]]; cbn [option_list app].
  - destruct Hs as (Ht & Hlt & Hc'). destruct (IH (B + 1) c') as (ns & Hf & Hss); [lia|lia|done|done|].
    exists (leg_cseq c' :: ns). split; [by constructor|].
    constructor; [done|]. constructor; [done|]. inversion_clear Hss as [|? ? _ Hall].
    eapply Forall_impl; [exact Hall|]. lia.
  - destruct Hs as (n & Ht & Hlt). exists [n]. split; [by repeat constructor|]. by repeat constructor.
  - destruct Hs as (Hle & Hc'). destruct (IH B c') as (ns & Hf & Hss); [lia|lia|done|done|].
    exists ns. split; [done|]. inversion_clear Hss as [|? ? Hss' Hall]. constructor; [done|].
    eapply Forall_impl; [exact Hall|]. lia.
  - exists []. split; [constructor|]. by repeat constructor.
Qed.

(** The BYE that ends a call whose leg was never renumbered takes the number
    after its INVITE's, which is also that of the BYE sent for a 2xx of this
    INVITE that comes once the call is gone. *)
Lemma first_bye_number branch c ip port reason text :
  live_invite_cseq c < 2 ^ 32 - 1 -> 0 <= leg_cseq c <= live_invite_cseq c ->
  bye_toward_callee show_addr branch c ip port reason = Some text -> carries (live_invite_cseq c + 1) text.
Proof.
  intros H1 H2. unfold bye_toward_callee. destruct (dialog_info_toward_callee show_addr c ip port) as [d|]; [|done].
  intros [= <-]. exists branch, (with_cseq d (next_outbound_cseq c)).
  split; [|left; by eexists]. cbn. unfold next_outbound_cseq. rewrite Z.max_l by lia. apply wrapw_small. ulia.
Qed.

(** C37: while a call lives, the requests the SBC itself sends on the callee's
    dialog (session refreshes, the BYE it relays, the BYE of its own with which
    it ends the call) carry strictly increasing CSeq numbers, above the leg's
    counter at the start, whatever is answered, retried or relayed in between,
    as long as the numbers chosen by others stay below 2^31 as RFC 3261
    requires. The BYE for a 2xx that answers an INVITE nobody waits for any
    more, of a superseded attempt or of a call already torn down, is not among
    them. *)
Theorem callee_cseq_increases c ops :
  0 <= leg_cseq c < 2 ^ 31 -> live_invite_cseq c < 2 ^ 31 -> Forall op_in_range ops ->
  Z.of_nat (length ops) < 2 ^ 31 - 1 ->
  exists ns, Forall2 carries ns (callee_run c ops) /\ StronglySorted Z.lt (leg_cseq c :: ns).
Proof.
  intros Hl Hv Ho Hn. apply (callee_run_sorted ops (2 ^ 31)); [lia|lia| |done]. split; [lia|done].
Qed.

(** A relayed request with the largest CSeq makes the SBC's next request
    start again from 0: the addition wraps. *)
Theorem relayed_cseq_overflows c leg :
  outbound c = Some leg -> l_cseq leg <= u32_max -> live_invite_cseq c <= u32_max ->
  next_outbound_cseq (note_cseq true u32_max c) = 0.
Proof.
  intros E Hl Hv. unfold note_cseq. rewrite E. unfold next_outbound_cseq.
  assert (leg_cseq (c <| outbound := Some (leg <| l_cseq := Z.max (l_cseq leg) u32_max |>) |>) = u32_max) as ->
    by (unfold leg_cseq; simpl; lia).
  rewrite (live_ext c) by done. by rewrite Z.max_r by done.
Qed.

(** The ACK sent for the callee's 2xx on a call about to be torn down
    carries the outbound leg's counter, which nothing sets to the INVITE's
    number: after an INVITE whose CSeq differs, it is not the ACK of that
    INVITE. *)
Theorem answered_ack_cseq b id ip port m c text dest t tx d :
  calls m !! id = Some c -> dialog_info_toward_callee show_addr c ip port = Some d -> dialog_clean b d ->
  ack_for_answered_callee show_addr b id ip port m = Some (text, dest, t, tx) ->
  leg_cseq c <> live_invite_cseq c ->
  exists i, parse_identity "ACK" text = Some i /\ id_cseq i = leg_cseq c /\ id_cseq i <> live_invite_cseq c.
Proof.
  intros Hc Hd Hcl Ha Hne. unfold ack_for_answered_callee in Ha. rewrite Hc in Ha. cbn in Ha.
  rewrite Hd in Ha. cbn in Ha. destruct (callee_dest c); [|done]. cbn in Ha. injection Ha as <- _ _ _.
  assert (E : cseq d = leg_cseq c).
  { unfold dialog_info_toward_callee in Hd. unfold leg_cseq. destruct (outbound c) as [out|]; [|done].
    cbn in Hd. destruct (l_from_raw out); [|done]. cbn in Hd. destruct (l_to_raw out); [|done]. cbn in Hd.
    destruct (match remote_target out with Some _ => _ | None => _ end); [|done].
    cbn in Hd. by injection Hd as <-. }
  exists (dialog_identity b (with_cseq d (cseq d))). split.
  - apply ack_identity; [done|]. apply Hcl.
  - cbn. rewrite E. done.
Qed.
End callee_cseq.

(** ** Which attempt a response answers *)

Lemma find_older_in p l a current :
  last l = Some current -> find_older p l = Some a -> a ∈ l /\ p a = true.
Proof.
  unfold find_older. intros _ H. destruct (List.filter p (drop 1 (rev l))) as [|x xs] eqn:E; [done|].
  injection H as <-. assert (Hx : x ∈ List.filter p (drop 1 (rev l))) by (rewrite E; left).
  apply elem_of_filter_bool in Hx as [Hx Hp]. split; [|done].
  apply list_elem_of_In, in_rev, list_elem_of_In. rewrite <- (take_drop 1 (rev l)).
  apply elem_of_app. by right.
Qed.

(** A response is taken for the live INVITE only if its Via branch is the
    live one's or its CSeq number is (or nothing was sent); the branch of a
    superseded attempt is never taken for the live one; a response set aside
    with an attempt names an attempt of this call with its branch or its
    lower CSeq number; a CSeq above the live INVITE's is set aside unless the
    branch is known. *)
Theorem classify_sound c rb rc current :
  last (invite_attempts c) = Some current ->
  match classify c rb rc with
  | Current => (exists b, rb = Some b /\ a_branch current = Some b) \/ rc = a_cseq current
  | Stale (Some a) =>
      a ∈ invite_attempts c /\
      ((exists b, rb = Some b /\ a_branch a = Some b /\ a_branch current <> Some b) \/
       (a_cseq a = rc /\ rc < a_cseq current))
  | Stale None => rc <> a_cseq current
  end /\
  (forall b a, rb = Some b -> a ∈ removelast (invite_attempts c) -> a_branch a = Some b ->
     a_branch current <> Some b -> exists a', classify c rb rc = Stale (Some a') /\ a_branch a' = Some b).
Proof.
  intros Hl. unfold classify. rewrite Hl. split.
  - destruct rb as [b|]; cbn.
    + unfold branch_is at 1. case_bool_decide as E1; [left; eauto|].
      destruct (find_older (branch_is b) (invite_attempts c)) as [a|] eqn:Ea; cbn.
      { destruct (find_older_in _ _ _ _ Hl Ea) as [Hin Hp]. unfold branch_is in Hp. to_prop.
        split; [done|]. left. eauto. }
      destruct (a_cseq current <? rc) eqn:F1; to_prop; [lia|].
      destruct (match a_branch current with Some _ => _ | None => _ end) eqn:F2.
      { right. destruct (a_branch current); [|done]. by to_prop. }
      destruct (rc <? a_cseq current) eqn:F3; to_prop; [|right; lia].
      destruct (find_older (fun a => a_cseq a =? rc) (invite_attempts c)) as [a|] eqn:Eb; [|lia].
      destruct (find_older_in _ _ _ _ Hl Eb) as [Hin Hp]. to_prop. split; [done|]. right. by split.
    + destruct (a_cseq current <? rc) eqn:F1; to_prop; [lia|].
      destruct (rc <? a_cseq current) eqn:F3; to_prop; [|right; lia].
      destruct (find_older (fun a => a_cseq a =? rc) (invite_attempts c)) as [a|] eqn:Eb; [|lia].
      destruct (find_older_in _ _ _ _ Hl Eb) as [Hin Hp]. to_prop. split; [done|]. right. by split.
  - intros b a -> Hin Hb Hcur. cbn. unfold branch_is at 1. rewrite bool_decide_false by done.
    assert (Hold : exists a', find_older (branch_is b) (invite_attempts c) = Some a').
    { apply last_Some in Hl as [l' El]. rewrite El in *. rewrite removelast_last in Hin.
      unfold find_older. rewrite rev_app_distr. change (drop 1 (rev [current] ++ rev l')) with (rev l').
      destruct (List.filter (branch_is b) (rev l')) as [|x xs] eqn:E; [|eauto].
      assert (Ha : a ∈ List.filter (branch_is b) (rev l')).
      { apply elem_of_filter_bool. split; [|unfold branch_is; by apply bool_decide_eq_true].
        apply list_elem_of_In. rewrite <- in_rev. by apply list_elem_of_In. }
      rewrite E in Ha. by apply not_elem_of_nil in Ha. }
    destruct Hold as [a' Ea]. rewrite Ea. cbn. exists a'. split; [done|].
    destruct (find_older_in _ _ _ _ Hl Ea) as [_ Hp]. unfold branch_is in Hp. by to_prop.
Qed.

(** ** Failover *)

Inductive FailoverOp := FTake (now : Z) | FProvisional | FPush (now : Z) (raw : string) (d : SocketAddr) (t : Transport) (k : option TrunkId).

Fixpoint failover_run (c : B2buaCall) (ops : list FailoverOp) : list (option TrunkId) :=
  match ops with
  | [] => []
  | FTake now :: ops => let '(r, c) := take_next now c in r :: failover_run c ops
  | FProvisional :: ops => failover_run (mark_provisional c) ops
  | FPush now raw d t k :: ops => failover_run (push_attempt now raw d t k c) ops
  end.

Definition is_take (o : FailoverOp) : bool := match o with FTake _ => true | _ => false end.
Definition not_provisional (o : FailoverOp) : bool := match o with FProvisional => false | _ => true end.

(** The candidates a call still has, [[]] once the dialog progresses. *)
Definition remaining (c : B2buaCall) : list TrunkId :=
  match failover c with
  | Some fo => if provisional_received fo then [] else candidates fo
  | None => [] end.

(** [n] requests for a candidate, when [cs] are left. *)
Definition handed_out (cs : list TrunkId) (n : nat) : list (option TrunkId) :=
  map Some (take n cs) ++ replicate (n - length cs) None.

Lemma handed_out_cons x cs n : handed_out (x :: cs) (S n) = Some x :: handed_out cs n.
Proof. reflexivity. Qed.

Lemma remaining_take now c :
  let '(r, c') := take_next now c in
  r = head (remaining c) /\ remaining c' = tail (remaining c).
Proof.
  unfold take_next, remaining. destruct (failover c) as [fo|] eqn:E; [|by rewrite ?E].
  destruct (provisional_received fo) eqn:Ep; [by rewrite ?E, ?Ep|].
  destruct (candidates fo) as [|x l] eqn:Ec; [by rewrite ?E, ?Ep, ?Ec|]. simpl. by rewrite ?Ep.
Qed.

Lemma remaining_push now raw d t k c : remaining (push_attempt now raw d t k c) = remaining c.
Proof. unfold remaining, push_attempt. simpl. by destruct (failover c). Qed.

Lemma remaining_provisional c : remaining (mark_provisional c) = [].
Proof. unfold remaining, mark_provisional. simpl. by destruct (failover c). Qed.

Lemma failover_run_none ops c :
  remaining c = [] -> failover_run c ops = replicate (length (List.filter is_take ops)) None.
Proof.
  revert c. induction ops as [|[] ops IH]; intros c Hc; cbn [failover_run List.filter is_take length replicate].
  - done.
  - assert (H := remaining_take now c). destruct (take_next now c) as [r c']. destruct H as [-> H].
    rewrite Hc in *. cbn. by rewrite IH.
  - apply IH, remaining_provisional.
  - apply IH. by rewrite remaining_push.
Qed.

(** Failover tries the remaining trunks in order, each once, then none; a
    provisional response that progresses the dialog ends it for good; sending
    an INVITE does not change what is left. *)
Theorem failover_order c before after :
  forallb not_provisional before = true ->
  failover_run c before = handed_out (remaining c) (length (List.filter is_take before)) /\
  failover_run c (before ++ FProvisional :: after)
  = handed_out (remaining c) (length (List.filter is_take before))
    ++ replicate (length (List.filter is_take after)) None.
Proof.
  revert c. induction before as [|[] ops IH]; intros c Hb; cbn in Hb; try done.
  - cbn. rewrite failover_run_none by apply remaining_provisional.
    unfold handed_out. by rewrite take_0.
  - cbn [failover_run List.filter is_take length app]. assert (H := remaining_take now c).
    destruct (take_next now c) as [r c']. destruct H as [-> H]. destruct (IH c' Hb) as [-> ->].
    rewrite H. destruct (remaining c) as [|x l]; cbn [head tail]; [|done].
    unfold handed_out. by rewrite !take_nil, !Nat.sub_0_r.
  - cbn [failover_run List.filter is_take length app]. rewrite <- (remaining_push now raw d t k c).
    by apply IH.
Qed.

(** ** Rejected refreshes *)

Record Rejection := mkRejection { j_now : Z; j_status : Z; j_min_se : option Z }.

Definition raises (st : SessionTimerState) (j : Rejection) : bool :=
  (j_status j =? 422) && match j_min_se j with Some m => interval_secs st <? m | None => false end.

(** Consecutive rejections: how many raised the interval, whether the call was
    given up, and the timer. *)
Fixpoint reject_run (st : SessionTimerState) (js : list Rejection) : nat * bool * SessionTimerState :=
  match js with
  | [] => (0%nat, false, st)
  | j :: js =>
      let '(st', gone) := reject_refresh (j_now j) (j_status j) (j_min_se j) st in
      let '(n, gone', st'') := reject_run st' js in
      ((if raises st j then S n else n), gone || gone', st'')
  end.

Lemma reject_refresh_spec st j :
  0 <= refresh_failures st < MAX_REFRESH_FAILURES ->
  let '(st', gone) := reject_refresh (j_now j) (j_status j) (j_min_se j) st in
  (if raises st j
   then refresh_failures st' = 0 /\ interval_secs st + 1 <= interval_secs st' /\ gone = false
   else refresh_failures st' = refresh_failures st + 1 /\ interval_secs st' = interval_secs st /\
        gone = ((j_status j =? 408) || (j_status j =? 481)) || (MAX_REFRESH_FAILURES <=? refresh_failures st + 1)) /\
  j_now j + secs 30 <= next_refresh_at st' <= j_now j + refresh_delay (interval_secs st').
Proof.
  intros Hf. unfold reject_refresh, raises. destruct j as [now status mse]. cbn [j_now j_status j_min_se].
  set (st1 := match mse with Some m => _ | None => st end).
  set (p := (status =? 422) && _).
  assert (Hi : interval_secs st1 = if p then default 0 mse else interval_secs st).
  { unfold st1, p. destruct mse as [m|]; [|by rewrite andb_false_r].
    destruct (status =? 422); cbn; [|done]. destruct (interval_secs st <? m) eqn:E; to_prop; lia. }
  assert (Hr : refresh_failures st1 = refresh_failures st) by (unfold st1; by repeat case_match).
  assert (Hp : p = true -> interval_secs st + 1 <= default 0 mse /\ status = 422).
  { unfold p. intros H. to_prop. destruct mse as [m|]; [|done]. cbn. to_prop. lia. }
  clearbody p. simpl. rewrite Hr, Hi. unfold MAX_REFRESH_FAILURES in *.
  assert (Hb : forall f i, 0 <= f -> 30 <= Z.min (Z.shiftl 30 (Z.min f 4)) (Z.max (i / 2) 30) <= Z.max (i / 2) 30).
  { intros f i H. rewrite Z.shiftl_mul_pow2 by lia.
    assert (1 <= 2 ^ Z.min f 4) by (change 1 with (2 ^ 0); apply Z.pow_le_mono_r; lia). lia. }
  unfold refresh_delay, secs. destruct p.
  - destruct (Hp eq_refl) as [H1 ->]. split; [split_and!; [done|lia|done]|].
    specialize (Hb 0 (default 0 mse)). lia.
  - rewrite wrapw_small by ulia. split; [done|]. specialize (Hb (refresh_failures st + 1) (interval_secs st)). lia.
Qed.

(** Rejected refreshes cannot keep a dead session: unless the peer keeps
    raising the interval, the third consecutive rejection, or any 408 or 481,
    gives the call up; the number of rejections survived is bounded by the
    number of raises, and every raise lengthens the interval; the next attempt
    comes no sooner than 30 s and no later than a refresh would. *)
Theorem rejections_bounded st js :
  0 <= refresh_failures st < MAX_REFRESH_FAILURES ->
  let '(raised, gone, st') := reject_run st js in
  (gone = false ->
     Z.of_nat (length js) + refresh_failures st <= 3 * Z.of_nat raised + 2 /\
     interval_secs st + Z.of_nat raised <= interval_secs st' /\
     0 <= refresh_failures st' < MAX_REFRESH_FAILURES /\
     Forall (fun j => j_status j <> 408 /\ j_status j <> 481) js) /\
  (forall j js', js = j :: js' ->
     let st1 := (reject_refresh (j_now j) (j_status j) (j_min_se j) st).1 in
     j_now j + secs 30 <= next_refresh_at st1 <= j_now j + refresh_delay (interval_secs st1)).
Proof.
  intros Hf. assert (Hmain : forall js st, 0 <= refresh_failures st < MAX_REFRESH_FAILURES ->
    let '(raised, gone, st') := reject_run st js in gone = false ->
     Z.of_nat (length js) + refresh_failures st <= 3 * Z.of_nat raised + 2 /\
     interval_secs st + Z.of_nat raised <= interval_secs st' /\
     0 <= refresh_failures st' < MAX_REFRESH_FAILURES /\
     Forall (fun j => j_status j <> 408 /\ j_status j <> 481) js).
  { clear. intros js. induction js as [|j js IH]; intros st Hf; cbn [reject_run length].
    { intros _. unfold MAX_REFRESH_FAILURES in *. split_and!; try lia. constructor. }
    assert (H := reject_refresh_spec st j Hf).
    destruct (reject_refresh _ _ _ st) as [st1 gone]. destruct H as [H _].
    destruct (raises st j) eqn:Er.
    - destruct H as (H1 & H2 & ->). specialize (IH st1). rewrite H1 in IH.
      destruct (reject_run st1 js) as [[n gone'] st2]. cbn [orb]. intros Hg.
      destruct IH as (I1 & I2 & I3 & I4); [done|done|]. unfold MAX_REFRESH_FAILURES in *.
      split_and!; try lia. constructor; [|done]. unfold raises in Er. to_prop. lia.
    - destruct H as (H1 & H2 & ->). specialize (IH st1). rewrite H1 in IH.
      destruct (reject_run st1 js) as [[n gone'] st2]. intros Hg. unfold MAX_REFRESH_FAILURES in *.
      to_prop. destruct IH as (I1 & I2 & I3 & I4); [lia|done|].
      split_and!; try lia. constructor; [lia|done]. }
  assert (Hm := Hmain js st Hf). destruct (reject_run st js) as [[raised gone] st']. split; [exact Hm|].
  intros j js' _ st1. assert (H := reject_refresh_spec st j Hf). unfold st1.
  destruct (reject_refresh _ _ _ st) as [st2 g]. by destruct H as [_ H].
Qed.

(** ** Late requests of a terminated dialog *)

Record Later := mkLater { e_now : Z; e_inbound : string; e_outbound : option string; e_attempt : option InviteAttempt }.

Definition remember_all (es : list Later) (recent : list RecentDialog) : list RecentDialog :=
  fold_left (fun r e => remember_terminated (e_now e) (e_inbound e) (e_outbound e) (e_attempt e) r) es recent.

Lemma remember_length now i o a r : (length (remember_terminated now i o a r) <= 256)%nat.
Proof. unfold remember_terminated. rewrite length_drop. lia. Qed.

Lemma remember_keeps d k now i o a pre post :
  is_recent now d = true -> (length post <= k)%nat -> (k < 255)%nat ->
  exists pre' post', remember_terminated now i o a (pre ++ d :: post) = pre' ++ d :: post' /\
    (length post' <= S k)%nat.
Proof.
  intros Hd Hp Hk. unfold remember_terminated. rewrite List.filter_app. cbn [List.filter]. rewrite Hd.
  set (pre' := List.filter (is_recent now) pre). set (post' := List.filter (is_recent now) post).
  assert (length post' <= length post)%nat by apply List.filter_length_le.
  rewrite <- (app_assoc pre'). cbn [app]. set (n := (length _ - 256)%nat).
  exists (drop n pre'), (post' ++ [mkRecent i o now a]). split.
  - rewrite drop_app_le; [done|]. unfold n. rewrite !length_app. cbn [length]. rewrite length_app. cbn. lia.
  - rewrite length_app. cbn. lia.
Qed.

Lemma remember_all_keeps d now es : forall pre post k,
  Forall (fun e => e_now e <= now) es -> is_recent now d = true -> (length post <= k)%nat ->
  (k + length es < 256)%nat ->
  d ∈ remember_all es (pre ++ d :: post).
Proof.
  induction es as [|e es IH]; intros pre post k He Hd Hp Hk.
  { cbn. set_solver. }
  inversion_clear He as [|? ? H1 H2]. cbn [remember_all fold_left length] in *.
  destruct (remember_keeps d k (e_now e) (e_inbound e) (e_outbound e) (e_attempt e) pre post)
    as (pre' & post' & -> & Hl); [|done|lia|].
  - unfold is_recent, duration_since, sat_sub in *. to_prop. apply Z.ltb_lt. lia.
  - apply (IH pre' post' (S k)); [done|done|done|lia].
Qed.

(** A call that is torn down is gone from the table at once, its media are
    released and its end is published once; and for ten minutes, through up to
    255 later teardowns, its Call-ID, or any non-empty suffix a peer
    truncated it to, is recognized as recently terminated. *)
Theorem teardown_remembers m id c now0 reason es now cid :
  calls m !! id = Some c ->
  let '(effects, m') := terminate_call_with_reason id now0 reason m in
  calls m' = delete id (calls m) /\
  (forall mid, TerminateSession mid ∈ effects <-> media_session_id c = Some mid) /\
  List.filter (fun e => match e with CallEnded _ _ _ => true | _ => false end) effects
  = [CallEnded id (as_secs (duration_since now0 (started_at c))) reason] /\
  (length (recent_terminated m') <= 256)%nat /\
  (Forall (fun e => e_now e <= now) es -> (length es < 256)%nat ->
   duration_since now now0 < RECENT_DIALOG_TTL -> cid <> "" ->
   ends_with cid (l_call_id (inbound c)) = true ->
   was_recently_terminated now cid (m' <| recent_terminated := remember_all es (recent_terminated m') |>) = true).
Proof.
  intros Hc. unfold terminate_call_with_reason. rewrite Hc. cbn [calls recent_terminated].
  split; [done|]. split; [|split; [|split]].
  - intros mid. unfold release_media. destruct (media_session_id c); set_solver.
  - unfold release_media. by destruct (media_session_id c).
  - apply remember_length.
  - intros He Hn Ht Hcid Hend. unfold was_recently_terminated. rewrite seqb_false by done.
    simpl recent_terminated. apply existsb_exists.
    set (d := mkRecent (l_call_id (inbound c)) (l_call_id <$> outbound c) now0 (last (invite_attempts c))).
    assert (Hr : is_recent now d = true) by (apply Z.ltb_lt; exact Ht).
    exists d. split.
    + apply list_elem_of_In. unfold remember_terminated at 1. fold d.
      set (old := List.filter (is_recent now0) (recent_terminated m)).
      set (n := (length _ - 256)%nat).
      assert (E : drop n (old ++ [d]) = drop n old ++ [d]).
      { apply drop_app_le. unfold n. rewrite length_app. cbn. lia. }
      rewrite E. apply (remember_all_keeps d now es _ [] 0); [done|done|done|lia].
    + rewrite Hr. cbn [r_inbound_call_id d]. rewrite Hend. by rewrite orb_true_r.
Qed.

(** The lookup by Call-ID does not prefer an exact match: of two calls, one with
    the Call-ID and one whose Call-ID merely ends with it, it returns the one
    the table yields first. *)
Theorem exact_id_not_preferred cid c1 c2 :
  leg_ends cid (Some (inbound c1)) = true -> leg_is cid (Some (inbound c2)) = true ->
  first_match cid None [c1; c2] = Some (uuid c1, true) /\
  first_match cid None [c2; c1] = Some (uuid c2, true).
Proof.
  intros H1 H2. assert (H1' : leg_is cid (Some (inbound c1)) = false).
  { unfold leg_ends, leg_is in *. to_prop. done. }
  split; cbn [first_match]; unfold attribute_leg; [rewrite H1', H1|rewrite H2]; cbn [negb andb orb];
    by rewrite ?orb_true_r.
Qed.

(** ** Witnesses *)

Module Witness.

Definition show_addr (a : SocketAddr) : string := "192.0.2.9:" +:+ show (port a).
Definition trunk_addr : SocketAddr := mkAddr (V4 [192; 0; 2; 9]) 5060.
Definition caller_addr : SocketAddr := mkAddr (V4 [192; 0; 2; 1]) 5060.

Definition invite_text (n : Z) (branch : string) : string :=
  build_reinvite branch (with_cseq SipBuilder.Witness.d0 n) "v=0" "<sip:sbc@x>" None None.

(** An answered call whose INVITE had CSeq 102. *)
Definition c0 : B2buaCall :=
  let c := set_outbound "cid@h" "tag" trunk_addr
             (B2buaCall_new "u1" "1-cid@h" "t" caller_addr None false None Udp 0 0) in
  let c := push_attempt 0 (invite_text 102 "z9hG4bKa") trunk_addr Udp (Some 7) c in
  let c := c <| failover := Some (mkFailover [7; 8] 1 0 false) |> in
  let c := answer 1 "ct" (Some "v=0") (ack c) in
  c <| outbound := (fun l => l <| l_from_raw := Some "<sip:a@b>;tag=1" |>
                               <| l_to_raw := Some "<sip:c@d>;tag=2" |>
                               <| remote_target := Some "sip:c@192.0.2.9" |>) <$> outbound c |>
    <| session_timer := Some (mkTimer 1800 90 0 None None None 0) |>.

Definition ops0 : list CalleeOp :=
  [ORefresh (secs 900) "z9hG4bKb" "10.0.0.1" 5060; OComplete "z9hG4bKc" 103 "10.0.0.1" 5060;
   ORelayed true 200; OBye "z9hG4bKd" "10.0.0.1" 5060 None; OOwnBye "z9hG4bKe" "10.0.0.1" 5060 None; OAck].

Lemma callee_cseq_increases_witness :
  length (callee_run show_addr c0 ops0) = 3%nat /\
  exists ns, Forall2 carries ns (callee_run show_addr c0 ops0) /\ StronglySorted Z.lt (leg_cseq c0 :: ns).
Proof.
  split; [vm_compute; reflexivity|].
  apply callee_cseq_increases; [split; [by vm_compute|by vm_compute]|by vm_compute| |by vm_compute].
  repeat constructor; by vm_compute.
Defined.

Definition m0 : B2buaManager := mkManager {[ "u1" := c0 ]} [].

Lemma answered_ack_cseq_witness :
  exists text dest t tx i,
    ack_for_answered_callee show_addr "z9hG4bKe" "u1" "10.0.0.1" 5060 m0 = Some (text, dest, t, tx) /\
    parse_identity "ACK" text = Some i /\ id_cseq i <> live_invite_cseq c0.
Proof.
  destruct (ack_for_answered_callee show_addr "z9hG4bKe" "u1" "10.0.0.1" 5060 m0)
    as [[[[text dest] t] tx]|] eqn:E; [|vm_compute in E; discriminate].
  destruct (dialog_info_toward_callee show_addr c0 "10.0.0.1" 5060) as [d|] eqn:Ed;
    [|vm_compute in Ed; discriminate].
  assert (Hd : dialog_clean "z9hG4bKe" d)
    by (vm_compute in Ed; injection Ed as <-; repeat split; by vm_compute).
  assert (Hc : calls m0 !! "u1" = Some c0) by reflexivity.
  assert (Hn : leg_cseq c0 <> live_invite_cseq c0) by (intros H; vm_compute in H; discriminate).
  destruct (answered_ack_cseq show_addr _ _ _ _ m0 c0 text dest t tx d Hc Ed Hd E Hn) as (i & H1 & _ & H3).
  exists text, dest, t, tx, i. split; [reflexivity|]. split; [exact H1|exact H3].
Defined.

(** A 407 retry: the first attempt's late answer is set aside. *)
Definition c1 : B2buaCall := push_attempt 0 (invite_text 103 "z9hG4bKz") trunk_addr Udp (Some 7) c0.

Lemma classify_sound_witness :
  exists a', classify c1 (Some "z9hG4bKa") 102 = Stale (Some a') /\ a_branch a' = Some "z9hG4bKa".
Proof.
  destruct (last (invite_attempts c1)) as [cur|] eqn:E; [|vm_compute in E; discriminate].
  destruct (classify_sound c1 (Some "z9hG4bKa") 102 cur E) as [_ H].
  assert (Hcur : a_branch cur = Some "z9hG4bKz") by (vm_compute in E; injection E as <-; reflexivity).
  destruct (removelast (invite_attempts c1)) as [|a l] eqn:Er; [vm_compute in Er; discriminate|].
  apply (H "z9hG4bKa" a); [reflexivity|left| |rewrite Hcur; discriminate].
  vm_compute in Er. injection Er as <- _. reflexivity.
Defined.

Lemma failover_order_witness :
  failover_run c0 ([FTake 1; FTake 2; FTake 3] ++ FProvisional :: [FTake 4])
  = [Some 7; Some 8; None] ++ [None].
Proof. exact (proj2 (failover_order c0 [FTake 1; FTake 2; FTake 3] [FTake 4] eq_refl)). Defined.

Definition st0 : SessionTimerState := mkTimer 1800 90 0 None None None 0.

Lemma rejections_bounded_witness :
  let js := [mkRejection 0 500 None; mkRejection 60 422 (Some 3600); mkRejection 120 500 None;
             mkRejection 180 500 None] in
  let '(raised, gone, st') := reject_run st0 js in
  gone = false /\ Z.of_nat (length js) <= 3 * Z.of_nat raised + 2.
Proof.
  intros js. assert (H := rejections_bounded st0 js).
  destruct (reject_run st0 js) as [[raised gone] st'] eqn:E.
  assert (G : gone = false) by (vm_compute in E; injection E as _ <- _; reflexivity).
  split; [exact G|].
  destruct (H (conj (Z.le_refl 0) eq_refl)) as [H1 _]. destruct (H1 G) as [H2 _].
  simpl in H2. simpl. lia.
Defined.

Lemma teardown_remembers_witness :
  was_recently_terminated (secs 300) "cid@h"
    ((terminate_call_with_reason "u1" 0 "bye" m0).2
       <| recent_terminated := remember_all [] (recent_terminated (terminate_call_with_reason "u1" 0 "bye" m0).2) |>)
  = true.
Proof.
  assert (H := teardown_remembers m0 "u1" c0 0 "bye" [] (secs 300) "cid@h" eq_refl).
  destruct (terminate_call_with_reason "u1" 0 "bye" m0) as [effects m'].
  destruct H as (_ & _ & _ & _ & H).
  apply H; [constructor|simpl; lia|reflexivity|discriminate|reflexivity].
Defined.

End Witness.
