(* ===== verification/Auth.v ===== *)
(** * Digest authentication (auth.rs)

    MD5, the digests of RFC 2617, the challenge and credential headers, and the
    authenticator with its nonces. The random nonce and client nonce are
    arguments. *)

From S2P Require Import Prelude Str Bytes.

(** ** MD5 *)

Definition md5_S : list Z :=
  [7; 12; 17; 22; 7; 12; 17; 22; 7; 12; 17; 22; 7; 12; 17; 22;
   5; 9; 14; 20; 5; 9; 14; 20; 5; 9; 14; 20; 5; 9; 14; 20;
   4; 11; 16; 23; 4; 11; 16; 23; 4; 11; 16; 23; 4; 11; 16; 23;
   6; 10; 15; 21; 6; 10; 15; 21; 6; 10; 15; 21; 6; 10; 15; 21].

Definition md5_K : list Z :=
  [0xd76aa478; 0xe8c7b756; 0x242070db; 0xc1bdceee; 0xf57c0faf; 0x4787c62a; 0xa8304613;
   0xfd469501; 0x698098d8; 0x8b44f7af; 0xffff5bb1; 0x895cd7be; 0x6b901122; 0xfd987193;
   0xa679438e; 0x49b40821; 0xf61e2562; 0xc040b340; 0x265e5a51; 0xe9b6c7aa; 0xd62f105d;
   0x02441453; 0xd8a1e681; 0xe7d3fbc8; 0x21e1cde6; 0xc33707d6; 0xf4d50d87; 0x455a14ed;
   0xa9e3e905; 0xfcefa3f8; 0x676f02d9; 0x8d2a4c8a; 0xfffa3942; 0x8771f681; 0x6d9d6122;
   0xfde5380c; 0xa4beea44; 0x4bdecfa9; 0xf6bb4b60; 0xbebfbc70; 0x289b7ec6; 0xeaa127fa;
   0xd4ef3085; 0x04881d05; 0xd9d4d039; 0xe6db99e5; 0x1fa27cf8; 0xc4ac5665; 0xf4292244;
   0x432aff97; 0xab9423a7; 0xfc93a039; 0x655b59c3; 0x8f0ccc92; 0xffeff47d; 0x85845dd1;
   0x6fa87e4f; 0xfe2ce6e0; 0xa3014314; 0x4e0811a1; 0xf7537e82; 0xbd3af235; 0x2ad7d2bb;
   0xeb86d391].

Definition add32 (a b : Z) : Z := wrapw 32 (a + b).
Definition not32 (a : Z) : Z := u32_max - a.
Definition rotl32 (x n : Z) : Z := wrapw 32 (Z.lor (Z.shiftl x n) (Z.shiftr x (32 - n))).
Definition le_u32 (b : bytes) : Z := be_val (rev b).

Record Md5State := mkMd5 { md5_a : Z; md5_b : Z; md5_c : Z; md5_d : Z }.

Definition md5_pad (data : bytes) : bytes :=
  let len := length data in
  data ++ [128] ++ replicate ((119 - len mod 64) mod 64)%nat 0
  ++ rev (be_bytes 8 (wrapw 64 (Z.of_nat len * 8))).

Definition md5_round (m : list Z) (s : Md5State) (i : nat) : Md5State :=
  let '(mkMd5 a b c d) := s in
  let '(f, g) :=
    if (i <? 16)%nat then (Z.lor (Z.land b c) (Z.land (not32 b) d), i)
    else if (i <? 32)%nat then (Z.lor (Z.land d b) (Z.land (not32 d) c), ((5 * i + 1) mod 16)%nat)
    else if (i <? 48)%nat then (Z.lxor (Z.lxor b c) d, ((3 * i + 5) mod 16)%nat)
    else (Z.lxor c (Z.lor b (not32 d)), ((7 * i) mod 16)%nat) in
  let f := add32 (add32 (add32 f a) (nth i md5_K 0)) (nth g m 0) in
  mkMd5 d (add32 b (rotl32 f (nth i md5_S 0))) b c.

Definition md5_chunk (s : Md5State) (chunk : bytes) : Md5State :=
  let m := map (fun i => le_u32 (slice (i * 4) (i * 4 + 4) chunk)) (seq 0 16) in
  let '(mkMd5 a b c d) := fold_left (md5_round m) (seq 0 64) s in
  mkMd5 (add32 (md5_a s) a) (add32 (md5_b s) b) (add32 (md5_c s) c) (add32 (md5_d s) d).

(** [{:08x}] of the swapped words: the little-endian bytes. *)
Definition md5_output (s : Md5State) : string :=
  hex_bytes (rev (be_bytes 4 (md5_a s)) ++ rev (be_bytes 4 (md5_b s))
             ++ rev (be_bytes 4 (md5_c s)) ++ rev (be_bytes 4 (md5_d s))).

Definition md5_compute (data : bytes) : string :=
  let msg := md5_pad data in
  md5_output
    (fold_left (fun s i => md5_chunk s (slice (i * 64) (i * 64 + 64) msg)) (seq 0 (length msg / 64))
       (mkMd5 0x67452301 0xefcdab89 0x98badcfe 0x10325476)).

Fixpoint as_bytes (s : string) : bytes :=
  match s with "" => [] | String c s => code c :: as_bytes s end.

Definition md5_hex (input : string) : string := md5_compute (as_bytes input).

(** ** Digests *)

Definition compute_ha1 (username realm password : string) : string :=
  md5_hex (username +:+ ":" +:+ realm +:+ ":" +:+ password).
Definition compute_ha2 (method uri : string) : string := md5_hex (method +:+ ":" +:+ uri).
Definition compute_response (ha1 nonce ha2 : string) : string :=
  md5_hex (ha1 +:+ ":" +:+ nonce +:+ ":" +:+ ha2).
Definition compute_response_auth (ha1 nonce nc cnonce ha2 : string) : string :=
  md5_hex (ha1 +:+ ":" +:+ nonce +:+ ":" +:+ nc +:+ ":" +:+ cnonce +:+ ":auth:" +:+ ha2).

(** ** Headers *)

Definition quote : ascii := "034".
Definition quoted (v : string) : string := String quote v +:+ String quote "".
Definition param (k v : string) : string := k +:+ "=" +:+ v.

(** [part.split_once('=')] with both sides trimmed and quotes removed. *)
Definition read_param (part : string) : option (string * string) :=
  match split_once "=" (trim part) with
  | Some (k, v) => Some (trim k, trim_matches quote (trim v))
  | None => None
  end.

Definition params_of (value : string) : list (string * string) :=
  omap read_param (split "," value).

Record DigestChallenge := mkChallenge {
  ch_realm : string;
  ch_nonce : string;
  ch_algorithm : string;
  ch_qop : option string;
  ch_opaque : option string
}.

#[export] Instance eta_challenge : Eta DigestChallenge := fun c =>
  mkChallenge (ch_realm c) (ch_nonce c) (ch_algorithm c) (ch_qop c) (ch_opaque c).

Definition set_challenge (c : DigestChallenge) (kv : string * string) : DigestChallenge :=
  let '(k, v) := kv in
  if seqb k "realm" then c <| ch_realm := v |>
  else if seqb k "nonce" then c <| ch_nonce := v |>
  else if seqb k "algorithm" then c <| ch_algorithm := v |>
  else if seqb k "qop" then c <| ch_qop := Some v |>
  else if seqb k "opaque" then c <| ch_opaque := Some v |>
  else c.

Definition challenge_from_header (value : string) : sbc_result DigestChallenge :=
  let? value := ok_or (strip_prefix "Digest " (trim value)) (EParse "Challenge must start with 'Digest '") in
  let c := fold_left set_challenge (params_of value) (mkChallenge "" "" "MD5" None None) in
  if seqb (ch_realm c) "" || seqb (ch_nonce c) ""
  then Err (EParse "Incomplete Digest challenge (missing realm or nonce)")
  else Ok c.

Definition generate_digest_response (username password : string) (c : DigestChallenge)
    (method digest_uri cnonce : string) : string :=
  let ha1 := compute_ha1 username (ch_realm c) password in
  let ha2 := compute_ha2 method digest_uri in
  let with_auth := match ch_qop c with Some q => contains "auth" q | None => false end in
  let response :=
    if with_auth then compute_response_auth ha1 (ch_nonce c) "00000001" cnonce ha2
    else compute_response ha1 (ch_nonce c) ha2 in
  "Digest " +:+ join ", "
    ([param "username" (quoted username); param "realm" (quoted (ch_realm c));
      param "nonce" (quoted (ch_nonce c)); param "uri" (quoted digest_uri);
      param "response" (quoted response); param "algorithm" (ch_algorithm c)]
     ++ (if with_auth then [param "qop" "auth"; param "nc" "00000001"; param "cnonce" (quoted cnonce)] else [])
     ++ match ch_opaque c with Some o => [param "opaque" (quoted o)] | None => [] end).

Record DigestCredentials := mkCreds {
  username : string;
  cr_realm : string;
  nonce : string;
  uri : string;
  response : string;
  algorithm : string;
  qop : option string;
  nc : option string;
  cnonce : option string
}.

#[export] Instance eta_creds : Eta DigestCredentials := fun c =>
  mkCreds (username c) (cr_realm c) (nonce c) (uri c) (response c) (algorithm c) (qop c) (nc c) (cnonce c).

Definition set_cred (c : DigestCredentials) (kv : string * string) : DigestCredentials :=
  let '(k, v) := kv in
  if seqb k "username" then c <| username := v |>
  else if seqb k "realm" then c <| cr_realm := v |>
  else if seqb k "nonce" then c <| nonce := v |>
  else if seqb k "uri" then c <| uri := v |>
  else if seqb k "response" then c <| response := v |>
  else if seqb k "algorithm" then c <| algorithm := v |>
  else if seqb k "qop" then c <| qop := Some v |>
  else if seqb k "nc" then c <| nc := Some v |>
  else if seqb k "cnonce" then c <| cnonce := Some v |>
  else c.

Definition creds_from_header (value : string) : sbc_result DigestCredentials :=
  let? value := ok_or (strip_prefix "Digest " (trim value))
                  (EParse "Authorization header must start with 'Digest '") in
  let c := fold_left set_cred (params_of value) (mkCreds "" "" "" "" "" "MD5" None None None) in
  if seqb (username c) "" || seqb (cr_realm c) "" || seqb (nonce c) "" || seqb (response c) ""
  then Err (EParse "Incomplete Digest credentials")
  else Ok c.

(** ** Nonces and failures *)

Record NonceRecord := mkNonce {
  created_at : Z;
  use_count : Z;
  last_nc : Z;
  last_fingerprint : option Z
}.

#[export] Instance eta_nonce : Eta NonceRecord := fun r =>
  mkNonce (created_at r) (use_count r) (last_nc r) (last_fingerprint r).

Inductive AuthFailure : Type :=
  | StaleNonce (user : string)
  | Replay (user : string)
  | BadCredentials (user : string)
  | UnknownUser (user : string)
  | Malformed.

Definition failed_user (f : AuthFailure) : option string :=
  match f with
  | StaleNonce u | Replay u | BadCredentials u | UnknownUser u => Some u
  | Malformed => None
  end.
Definition is_stale (f : AuthFailure) : bool :=
  match f with StaleNonce _ | Replay _ => true | _ => false end.
Definition is_attack (f : AuthFailure) : bool :=
  match f with BadCredentials _ | UnknownUser _ => true | _ => false end.
Definition failure_text (f : AuthFailure) : string :=
  match f with
  | StaleNonce u => "stale or unknown nonce (user " +:+ u +:+ ")"
  | Replay u => "replayed authorization (user " +:+ u +:+ ")"
  | BadCredentials u => "wrong password (user " +:+ u +:+ ")"
  | UnknownUser u => "unknown user " +:+ u
  | Malformed => "malformed Digest header"
  end.

(** ** The authenticator *)

Definition MAX_NONCES : Z := 100000.
Definition DUMMY_HA1 : string := "00000000000000000000000000000000".

Record DigestAuthenticator := mkAuth {
  realm : string;
  nonces : gmap string NonceRecord;
  nonce_ttl : Z;
  users : gmap string string
}.

#[export] Instance eta_auth : Eta DigestAuthenticator := fun a =>
  mkAuth (realm a) (nonces a) (nonce_ttl a) (users a).

Definition build_ha1_map (realm : string) (users : gmap string string) : gmap string string :=
  map_imap (fun u p => Some (compute_ha1 u realm p)) users.

Definition new (realm : string) (users : gmap string string) : DigestAuthenticator :=
  mkAuth realm ∅ 300 (build_ha1_map realm users).

(** The counts of users added, removed and in all. *)
Definition set_users_ha1 (new_ha1 : gmap string string) (a : DigestAuthenticator)
    : (nat * nat * nat) * DigestAuthenticator :=
  let old_keys := dom (users a) in
  let new_keys := dom new_ha1 in
  ((size (new_keys ∖ old_keys), size (old_keys ∖ new_keys), size new_ha1), a <| users := new_ha1 |>).

Definition reload_users (users : gmap string string) (a : DigestAuthenticator)
    : (nat * nat * nat) * DigestAuthenticator :=
  set_users_ha1 (build_ha1_map (realm a) users) a.

(** [nonces.retain(|_, r| now - r.created_at <= age)] *)
Definition retain_young (now age : Z) (m : gmap string NonceRecord) : gmap string NonceRecord :=
  filter (fun kr => sat_sub now (created_at kr.2) <= age) m.

Definition make_room (now ttl : Z) (m : gmap string NonceRecord) : gmap string NonceRecord :=
  if MAX_NONCES <=? Z.of_nat (size m) then
    let m := retain_young now ttl m in
    let m := if MAX_NONCES <=? Z.of_nat (size m) then retain_young now (ttl / 2) m else m in
    if MAX_NONCES <=? Z.of_nat (size m) then ∅ else m
  else m.

Definition challenge_text (realm nonce : string) (stale : bool) : string :=
  "Digest " +:+ join ", "
    ([param "realm" (quoted realm); param "nonce" (quoted nonce); param "algorithm" "MD5";
      param "qop" (quoted "auth")] ++ (if stale then [param "stale" "true"] else [])).

(** [nonce] is the random one; [now] is read once. *)
Definition generate_challenge_with (now : Z) (nonce : string) (stale : bool) (a : DigestAuthenticator)
    : string * DigestAuthenticator :=
  (challenge_text (realm a) nonce stale,
   a <| nonces := <[nonce := mkNonce now 0 0 None]> (make_room now (nonce_ttl a) (nonces a)) |>).

Definition generate_challenge (now : Z) (nonce : string) := generate_challenge_with now nonce false.

(** [u32::from_str_radix(s, 16)] *)
Definition hex_val (c : ascii) : option Z :=
  let n := code c in
  if is_digit c then Some (n - 48)
  else if (97 <=? n) && (n <=? 102) then Some (n - 87)
  else if (65 <=? n) && (n <=? 70) then Some (n - 55)
  else None.
Fixpoint hex_digits (acc : Z) (s : string) : option Z :=
  match s with
  | "" => Some acc
  | String c s => d ← hex_val c; hex_digits (acc * 16 + d) s
  end.
Definition parse_hex (max : Z) (s : string) : option Z :=
  let d := match s with String "+" t => t | _ => s end in
  if seqb d "" then None
  else v ← hex_digits 0 d; if v <=? max then Some v else None.

Definition qop_auth (c : DigestCredentials) : bool := bool_decide (qop c = Some "auth").

Definition expected (ha1 method : string) (c : DigestCredentials) : string :=
  let ha2 := compute_ha2 method (uri c) in
  if qop_auth c
  then compute_response_auth ha1 (nonce c) (default "00000001" (nc c)) (default "" (cnonce c)) ha2
  else compute_response ha1 (nonce c) ha2.

Definition creds_nc (c : DigestCredentials) : option Z := n ← nc c; parse_hex u32_max (trim n).

(** Replay protection: the record of the nonce after the request. *)
Definition replay_check (c : DigestCredentials) (fingerprint : option Z) (record : NonceRecord)
    : result AuthFailure NonceRecord :=
  let user := username c in
  let? record :=
    if qop_auth c then
      let? n := ok_or (creds_nc c) (StaleNonce user) in
      if last_nc record <? n then Ok (record <| last_nc := n |> <| last_fingerprint := fingerprint |>)
      else if bool_decide (n = last_nc record /\ is_Some fingerprint /\ fingerprint = last_fingerprint record)
      then Ok record
      else Err (Replay user)
    else if 0 <? use_count record then Err (StaleNonce user)
    else Ok record in
  Ok (record <| use_count := wrapw 32 (use_count record + 1) |>).

Definition verify_with (now : Z) (auth_header method : string) (fingerprint : option Z)
    (a : DigestAuthenticator) : result AuthFailure string * DigestAuthenticator :=
  match creds_from_header auth_header with
  | Err _ => (Err Malformed, a)
  | Ok c =>
      let user := username c in
      let ha1 := users a !! user in
      let digest_ok :=
        bool_decide (is_Some ha1) && seqb (expected (default DUMMY_HA1 ha1) method c) (response c) in
      match nonces a !! nonce c with
      | None => (Err (StaleNonce user), a)
      | Some record =>
          if nonce_ttl a <? sat_sub now (created_at record) then
            (Err (if digest_ok then StaleNonce user
                  else if bool_decide (ha1 = None) then UnknownUser user
                  else BadCredentials user),
             a <| nonces := delete (nonce c) (nonces a) |>)
          else if bool_decide (ha1 = None) then (Err (UnknownUser user), a)
          else if negb digest_ok then (Err (BadCredentials user), a)
          else match replay_check c fingerprint record with
          | Err e => (Err e, a)
          | Ok record => (Ok user, a <| nonces := <[nonce c := record]> (nonces a) |>)
          end
      end
  end.

Definition verify (now : Z) (auth_header method : string) := verify_with now auth_header method None.

Definition cleanup_nonces (now : Z) (a : DigestAuthenticator) : nat * DigestAuthenticator :=
  let kept := retain_young now (nonce_ttl a) (nonces a) in
  ((size (nonces a) - size kept)%nat, a <| nonces := kept |>).

Definition user_exists (username : string) (a : DigestAuthenticator) : bool :=
  bool_decide (is_Some (users a !! username)).
Definition active_nonces (a : DigestAuthenticator) : nat := size (nonces a).

(** ** Replays over a run *)

(** What a request was accepted with. *)
Record Accepted := mkAccepted {
  acc_nonce : string;
  acc_user : string;
  acc_qop : bool;
  acc_nc : Z;
  acc_fingerprint : option Z
}.

Inductive Op :=
  | Challenge (now : Z) (nonce : string) (stale : bool)
  | Verify (now : Z) (auth_header method : string) (fingerprint : option Z)
  | SetUsers (new_ha1 : gmap string string)
  | Cleanup (now : Z).

Definition issues (n : string) (o : Op) : bool :=
  match o with Challenge _ m _ => seqb m n | _ => false end.

Definition acceptance (auth_header : string) (fingerprint : option Z) : option Accepted :=
  match creds_from_header auth_header with
  | Ok c => Some (mkAccepted (nonce c) (username c) (qop_auth c) (default 0 (creds_nc c)) fingerprint)
  | Err _ => None
  end.

Definition step (o : Op) (a : DigestAuthenticator) : list Accepted * DigestAuthenticator :=
  match o with
  | Challenge now n stale => ([], (generate_challenge_with now n stale a).2)
  | Verify now h m fp =>
      match verify_with now h m fp a with
      | (Ok _, a') => (match acceptance h fp with Some e => [e] | None => [] end, a')
      | (Err _, a') => ([], a')
      end
  | SetUsers m => ([], (set_users_ha1 m a).2)
  | Cleanup now => ([], (cleanup_nonces now a).2)
  end.

Fixpoint run (ops : list Op) (a : DigestAuthenticator) : list Accepted * DigestAuthenticator :=
  match ops with
  | [] => ([], a)
  | o :: ops => let '(e, a) := step o a in let '(es, a) := run ops a in (e ++ es, a)
  end.

(** The acceptances of one nonce. *)
Definition accepted_on (n : string) (es : list Accepted) : list Accepted :=
  List.filter (fun e => seqb (acc_nonce e) n) es.

(** A later acceptance of the same nonce counts past the earlier one, or is the
    same request again. *)
Definition follows (e1 e2 : Accepted) : Prop :=
  acc_qop e2 = true /\
  (acc_qop e1 = true ->
   acc_nc e1 < acc_nc e2 \/
   (acc_nc e1 = acc_nc e2 /\ is_Some (acc_fingerprint e1) /\ acc_fingerprint e1 = acc_fingerprint e2)).

(** ** Lemmas *)

Lemma hex_digits_nonneg s acc v : 0 <= acc -> hex_digits acc s = Some v -> 0 <= v.
Proof.
  revert acc. induction s as [|c s IH]; intros acc Ha; simpl; [by intros [= <-]|].
  destruct (hex_val c) as [d|] eqn:E; [|done]. simpl. apply IH.
  revert E. unfold hex_val, is_digit. crush_cases; intros [= <-]; lia.
Qed.

Lemma creds_nc_range c n : creds_nc c = Some n -> is_u32 n.
Proof.
  unfold creds_nc, parse_hex. destruct (nc c) as [s|]; [|done]. simpl.
  set (d := match trim s with String "+"%char t => t | _ => trim s end). case_test; [done|].
  destruct (hex_digits 0 d) as [v|] eqn:E; [|done]. apply hex_digits_nonneg in E; [|done]. simpl.
  case_test; [|done]. intros [= <-]. to_prop. ulia.
Qed.

(** What an accepted request establishes, and what it leaves in the table. *)
Lemma verify_ok now h m fp a u a' :
  verify_with now h m fp a = (Ok u, a') <->
  exists c ha1 r r',
    creds_from_header h = Ok c /\ username c = u /\ users a !! u = Some ha1 /\
    response c = expected ha1 m c /\
    nonces a !! nonce c = Some r /\ sat_sub now (created_at r) <= nonce_ttl a /\
    replay_check c fp r = Ok r' /\ a' = a <| nonces := <[nonce c := r']> (nonces a) |>.
Proof.
  unfold verify_with. split.
  - destruct (creds_from_header h) as [c|]; [|done].
    destruct (nonces a !! nonce c) as [r|] eqn:En; [|done].
    destruct (nonce_ttl a <? _) eqn:Et; [done|].
    destruct (users a !! username c) as [ha1|] eqn:Eu; [|done]. simpl.
    destruct (seqb _ _) eqn:Er; [|done]. simpl. destruct (replay_check c fp r) as [r'|] eqn:Ec; [|done].
    intros [= <- <-]. apply seqb_true in Er. to_prop. exists c, ha1, r, r'. repeat split; done.
  - intros (c & ha1 & r & r' & -> & <- & Hu & Hr & -> & Ht & Hc & ->). rewrite Hu.
    rewrite (proj2 (Z.ltb_ge _ _)) by lia. rewrite bool_decide_false by done.
    rewrite bool_decide_true by eauto. simpl. rewrite Hr, seqb_refl. simpl. by rewrite Hc.
Qed.

(** The record moves past what it accepts. *)
Lemma replay_check_ok c fp r r' :
  replay_check c fp r = Ok r' ->
  use_count r' = wrapw 32 (use_count r + 1) /\
  if qop_auth c then
    exists n, creds_nc c = Some n /\ last_nc r' = n /\ last_fingerprint r' = fp /\
      (last_nc r < n \/ (n = last_nc r /\ is_Some fp /\ fp = last_fingerprint r))
  else use_count r <= 0 /\ last_nc r' = last_nc r /\ last_fingerprint r' = last_fingerprint r.
Proof.
  unfold replay_check. intros H. apply rbind_ok in H as (q & Hq & [= <-]). destruct (qop_auth c).
  - apply rbind_ok in Hq as (n & Hn & Hq). destruct (creds_nc c) as [n'|]; [|done].
    injection Hn as ->. case_test; to_prop.
    + injection Hq as <-. simpl. split; [done|]. exists n. auto.
    + case_bool_decide as Hb; [|done]. injection Hq as <-. destruct Hb as (-> & Hf & Hl). simpl.
      split; [done|]. exists (last_nc r). split_and!; auto.
  - case_test; [done|]. injection Hq as <-. to_prop. simpl. done.
Qed.

(** No operation but a challenge for [n] changes its record, except a
    verification of [n] that is accepted, or its removal. *)
Lemma retain_young_lookup now age m n r :
  retain_young now age m !! n = Some r -> m !! n = Some r.
Proof. intros H. by apply map_lookup_filter_Some in H as []. Qed.

Lemma make_room_lookup now ttl m n r : make_room now ttl m !! n = Some r -> m !! n = Some r.
Proof.
  unfold make_room. repeat case_test; intros H; try done;
    repeat (apply retain_young_lookup in H); done.
Qed.

Lemma step_cases o a n :
  issues n o = false ->
  let a' := (step o a).2 in
  (accepted_on n (step o a).1 = [] /\ (nonces a' !! n = None \/ nonces a' !! n = nonces a !! n)) \/
  exists c fp r0 r',
    accepted_on n (step o a).1 = [mkAccepted n (username c) (qop_auth c) (default 0 (creds_nc c)) fp] /\
    nonces a !! n = Some r0 /\ replay_check c fp r0 = Ok r' /\ nonces a' !! n = Some r'.
Proof.
  assert (Hor : forall (o o' : option NonceRecord),
      (forall r, o = Some r -> o' = Some r) -> o = None \/ o = o').
  { intros [r|] o' H; [right; by rewrite (H r)|by left]. }
  destruct o as [now k st|now h m fp|us|now]; simpl; intros Hi.
  - left. split; [done|]. apply Hor. intros r. rewrite lookup_insert_ne; [apply make_room_lookup|].
    intros ->. by rewrite seqb_refl in Hi.
  - destruct (verify_with now h m fp a) as [[u|e] a'] eqn:E.
    + apply verify_ok in E as (c & ha1 & r0 & r' & Hc & Hu & _ & _ & Hn & _ & Hr & ->).
      unfold acceptance. rewrite Hc. simpl. destruct (seqb (nonce c) n) eqn:En.
      * apply seqb_true in En as <-. right. exists c, fp, r0, r'. by rewrite lookup_insert_eq.
      * left. split; [done|]. right. rewrite lookup_insert_ne; [done|]. intros <-. by rewrite seqb_refl in En.
    + left. split; [done|]. apply Hor. intros r. revert E. unfold verify_with.
      destruct (creds_from_header h) as [c|]; [|by intros [= _ <-]].
      destruct (nonces a !! nonce c) as [r0|]; [|by intros [= _ <-]].
      repeat case_match; intros [= _ <-]; simpl; try done;
        intros Hd; by apply lookup_delete_Some in Hd as [_ Hd].
  - auto.
  - left. split; [done|]. apply Hor. intros r. apply retain_young_lookup.
Qed.

Lemma run_cons o ops a :
  run (o :: ops) a = ((step o a).1 ++ (run ops (step o a).2).1, (run ops (step o a).2).2).
Proof. cbn [run]. destruct (step o a) as [e a']. cbn. by destruct (run ops a'). Qed.

Lemma run_unknown ops a n :
  forallb (fun o => negb (issues n o)) ops = true -> nonces a !! n = None ->
  accepted_on n (run ops a).1 = [].
Proof.
  revert a. induction ops as [|o ops IH]; intros a Hi Hn; [done|]. rewrite run_cons.
  cbn [forallb] in Hi. to_prop. unfold accepted_on in *. cbn [fst]. rewrite List.filter_app.
  destruct (step_cases o a n HP) as [[E H]|(c & fp & r0 & r' & _ & H & _)];
    [|rewrite Hn in H; discriminate].
  unfold accepted_on in E. rewrite E. apply IH; [done|]. destruct H; congruence.
Qed.

(** What a record says of the requests accepted after it. *)
Definition past (r : NonceRecord) (e : Accepted) : Prop :=
  (0 < use_count r -> acc_qop e = true) /\
  (acc_qop e = true ->
   last_nc r < acc_nc e \/
   (last_nc r = acc_nc e /\ is_Some (last_fingerprint r) /\ last_fingerprint r = acc_fingerprint e)).

Lemma past_mono c fp r r' e :
  replay_check c fp r = Ok r' -> 0 <= use_count r < 2 ^ 32 - 1 -> past r' e -> past r e.
Proof.
  intros Hc Hu [Hq Hp]. apply replay_check_ok in Hc as [Hc Hr].
  rewrite wrapw_small in Hc by ulia. split; [intros; apply Hq; lia|].
  intros He. specialize (Hp He). destruct (qop_auth c).
  - destruct Hr as (n & _ & <- & Hf & [Hn|(Hn & _ & Hl)]); [left; lia|].
    rewrite Hf, Hl, Hn in Hp. exact Hp.
  - destruct Hr as (_ & Ha & Hb). rewrite Ha, Hb in Hp. exact Hp.
Qed.

Lemma past_self c fp n r r' :
  replay_check c fp r = Ok r' -> 0 <= use_count r < 2 ^ 32 - 1 ->
  past r (mkAccepted n (username c) (qop_auth c) (default 0 (creds_nc c)) fp).
Proof.
  intros Hc Hu. apply replay_check_ok in Hc as [_ Hr]. destruct (qop_auth c) eqn:Eq.
  - destruct Hr as (m & -> & _ & _ & Hd). split; [done|]. simpl. intros _.
    destruct Hd as [Hd|(-> & Hf & ->)]; [by left|]. by right.
  - destruct Hr as (Hr & _). split; simpl; [lia|done].
Qed.

Lemma past_follows c fp n r r' e :
  replay_check c fp r = Ok r' -> 0 <= use_count r < 2 ^ 32 - 1 -> past r' e ->
  follows (mkAccepted n (username c) (qop_auth c) (default 0 (creds_nc c)) fp) e.
Proof.
  intros Hc Hu [Hq Hp]. apply replay_check_ok in Hc as [Hc Hr].
  rewrite wrapw_small in Hc by ulia. assert (He : acc_qop e = true) by (apply Hq; lia).
  split; [done|]. simpl. intros Eq. rewrite Eq in Hr. destruct Hr as (m & -> & <- & <- & _). by apply Hp.
Qed.

Lemma run_past ops a n r :
  forallb (fun o => negb (issues n o)) ops = true -> nonces a !! n = Some r ->
  0 <= use_count r -> use_count r + Z.of_nat (length ops) < 2 ^ 32 ->
  Forall (past r) (accepted_on n (run ops a).1) /\ StronglySorted follows (accepted_on n (run ops a).1).
Proof.
  revert a r. induction ops as [|o ops IH]; intros a r Hi Hn H0 Hlen; [repeat constructor|].
  rewrite run_cons. cbn [forallb length] in *. to_prop. unfold accepted_on in *. cbn [fst].
  rewrite List.filter_app. destruct (step_cases o a n HP) as [[E [H|H]]|(c & fp & r0 & r' & E & Hr & Hc & Hn')];
    unfold accepted_on in E; rewrite E; cbn [app].
  - assert (Hu := run_unknown ops _ n HP0 H). unfold accepted_on in Hu. rewrite Hu. repeat constructor.
  - apply (IH _ r HP0); [congruence|lia|lia].
  - assert (r0 = r) as -> by congruence. assert (Hu := proj1 (replay_check_ok _ _ _ _ Hc)).
    rewrite wrapw_small in Hu by ulia. destruct (IH _ r' HP0 Hn') as [Hf Hs]; [lia|lia|].
    assert (Hb : 0 <= use_count r < 2 ^ 32 - 1) by lia. split; constructor; try done.
    + by eapply past_self.
    + eapply Forall_impl; [exact Hf|]. intros e. by apply (past_mono _ _ _ _ _ Hc).
    + eapply Forall_impl; [exact Hf|]. intros e. by apply (past_follows _ _ _ _ _ _ Hc).
Qed.

(** ** Reading back what the client and the server write *)

(** A value that survives between quotes in a list of parameters. *)
Definition clean (v : string) : bool := free_of "," v && free_of quote v.
Definition key_ok (k : string) : bool :=
  sall (fun c => negb (Ascii.is_space c)) k && clean k && free_of "=" k && negb (seqb k "").

Lemma trim_quotes v : free_of quote v = true -> trim_matches quote (quoted v) = v.
Proof.
  intros Hv. unfold trim_matches, trim_by, quoted. set (p := fun d => bool_decide (d = quote)).
  assert (He : trim_end_by p (String quote v +:+ String quote "") = match v with "" => "" | _ => String quote v end).
  { assert (Hw : forall w, free_of quote w = true -> trim_end_by p (w +:+ String quote "") = w).
    { induction w as [|c w IH]; intros H; [done|]. rewrite free_of_cons in H. to_prop. rewrite sapp_cons, trim_end_step, IH by done.
      destruct w; [|done]. unfold p. by rewrite bool_decide_false. }
    rewrite sapp_cons, trim_end_step, Hw by done. by destruct v. }
  rewrite He. destruct v as [|c v]; [done|]. cbn [trim_start_by]. unfold p at 1. rewrite bool_decide_true by done.
  rewrite free_of_cons in Hv. to_prop. simpl. unfold p. by rewrite bool_decide_false.
Qed.

Lemma read_quoted k v : key_ok k = true -> clean v = true -> read_param (param k (quoted v)) = Some (k, v).
Proof.
  intros Hk Hv. unfold key_ok in Hk. apply andb_prop in Hk as [Hk Hn]. apply andb_prop in Hk as [Hk Hq].
  apply andb_prop in Hk as [Hs _]. apply andb_prop in Hv as [_ Hv]. unfold read_param, param, quoted.
  destruct k as [|c k]; [done|].
  assert (Ht : trim (String c k +:+ "=" +:+ String quote v +:+ String quote "")
               = String c k +:+ "=" +:+ String quote v +:+ String quote "").
  { rewrite <- !sapp_assoc. apply trim_plain; [|done|done]. cbn [sall] in Hs. to_prop. simpl. by rewrite HP. }
  rewrite Ht. change ("=" +:+ String quote v +:+ String quote "") with (String "=" (quoted v)).
  rewrite split_once_app by done. rewrite trim_free by done. unfold quoted.
  rewrite (trim_plain (String quote v)) by done. f_equal. f_equal. by apply trim_quotes.
Qed.

Lemma param_free k v : clean k = true -> clean v = true -> free_of "," (param k (quoted v)) = true.
Proof.
  intros [Hk _]%andb_prop [Hv _]%andb_prop. unfold param, quoted. rewrite !free_of_app, Hk, !free_of_cons, Hv. done.
Qed.

Lemma read_space s : read_param (String " " s) = read_param s.
Proof. unfold read_param. by rewrite trim_space. Qed.

(** The parameters of a list written with [", "]. *)
Lemma params_joined p ps :
  Forall (fun q => free_of "," q = true) (p :: ps) ->
  params_of (join ", " (p :: ps)) = omap read_param (p :: ps).
Proof.
  intros H. unfold params_of. rewrite (split_joined "," p ps H eq_refl).
  cbn [omap list_omap]. assert (He : omap read_param (map (String " ") ps) = omap read_param ps).
  { clear. induction ps as [|q ps IH]; [done|]. cbn [map omap list_omap]. by rewrite read_space, IH. }
  by rewrite He.
Qed.

Lemma hex_bytes_clean b : is_bytes b -> clean (hex_bytes b) = true.
Proof.
  intros H. apply hex_bytes_lower in H. unfold clean, free_of.
  rewrite !(sall_impl is_lower_hex) by (try done; intros c Hc; apply negb_true_iff, bool_decide_eq_false; by intros ->).
  done.
Qed.

Lemma md5_clean s : clean (md5_hex s) = true /\ md5_hex s <> "".
Proof.
  unfold md5_hex, md5_compute, md5_output. set (st := fold_left _ _ _). split.
  - apply hex_bytes_clean. unfold is_bytes.
    rewrite !Forall_app. split_and!; apply Forall_rev, be_bytes_is_bytes.
  - set (b := _ ++ _). assert (Hb : (0 < length b)%nat).
    { unfold b. rewrite length_app, length_rev, length_be_bytes. lia. }
    clearbody b. destruct b; [simpl in Hb; lia|done].
Qed.

Lemma trim_prefixed w s c : trim (String "D" w +:+ s +:+ String c "") = (String "D" w +:+ s) +:+ String c "" \/ Ascii.is_space c = true.
Proof.
  destruct (Ascii.is_space c) eqn:E; [by right|left]. rewrite <- sapp_assoc. by apply trim_plain.
Qed.

(** Reading the challenge the server writes. *)
Lemma challenge_read rlm n stale :
  clean rlm = true -> clean n = true -> rlm <> "" -> n <> "" ->
  challenge_from_header (challenge_text rlm n stale) = Ok (mkChallenge rlm n "MD5" (Some "auth") None).
Proof.
  intros Hr Hn Hr0 Hn0. unfold challenge_from_header, challenge_text.
  set (ps := _ ++ _). assert (Ht : trim ("Digest " +:+ join ", " ps) = "Digest " +:+ join ", " ps).
  { assert (exists s c, join ", " ps = s +:+ String c "" /\ Ascii.is_space c = false) as (s & c & -> & Hc).
    { unfold ps, param, quoted. destruct stale; cbn [app join String.concat].
      - exists (join ", " [param "realm" (quoted rlm); param "nonce" (quoted n); param "algorithm" "MD5";
                  param "qop" (quoted "auth"); "stale=tru"]), "e"%char.
        unfold param, quoted, join. cbn [String.concat]. rewrite !sapp_assoc. done.
      - exists (join ", " [param "realm" (quoted rlm); param "nonce" (quoted n); param "algorithm" "MD5";
                  "qop=" +:+ String quote "auth"]), quote.
        unfold param, quoted, join. cbn [String.concat]. rewrite !sapp_assoc. done. }
    destruct (trim_prefixed "igest " s c) as [H|H]; [|congruence].
    change ("Digest " +:+ s +:+ String c "") with (String "D" "igest " +:+ s +:+ String c "").
    rewrite H. by rewrite sapp_assoc. }
  rewrite Ht. assert (Hp : strip_prefix "Digest " ("Digest " +:+ join ", " ps) = Some (join ", " ps)) by by apply strip_prefix_spec.
  rewrite Hp. cbn [ok_or rbind]. assert (Hps : params_of (join ", " ps) =
    [("realm", rlm); ("nonce", n); ("algorithm", "MD5"); ("qop", "auth")]
    ++ if stale then [("stale", "true")] else []).
  { unfold ps. cbn [app]. rewrite params_joined.
    - cbn [omap list_omap]. rewrite !read_quoted by done. by destruct stale.
    - repeat constructor; try (apply param_free; done). destruct stale; repeat constructor. }
  rewrite Hps. set (c := fold_left _ _ _).
  assert (Hf : c = mkChallenge rlm n "MD5" (Some "auth") None) by by destruct stale.
  rewrite Hf. cbn [ch_realm ch_nonce]. by rewrite !seqb_false by done.
Qed.

(** Reading the credentials the client writes for that challenge. *)
Lemma credentials_text u rlm n duri resp cn :
  clean u = true -> clean rlm = true -> clean n = true -> clean duri = true -> clean cn = true ->
  clean resp = true -> u <> "" -> rlm <> "" -> n <> "" -> resp <> "" ->
  creds_from_header ("Digest " +:+ join ", "
    [param "username" (quoted u); param "realm" (quoted rlm); param "nonce" (quoted n);
     param "uri" (quoted duri); param "response" (quoted resp); param "algorithm" "MD5";
     param "qop" "auth"; param "nc" "00000001"; param "cnonce" (quoted cn)])
  = Ok (mkCreds u rlm n duri resp "MD5" (Some "auth") (Some "00000001") (Some cn)).
Proof.
  intros Hu Hr Hn Hd Hc Hp Hu0 Hr0 Hn0 Hp0. unfold creds_from_header. set (ps := param "username" _ :: _).
  assert (Ht : trim ("Digest " +:+ join ", " ps) = "Digest " +:+ join ", " ps).
  { assert (exists s, join ", " ps = s +:+ String quote "") as (s & ->).
    { exists (join ", " (take 8 ps ++ ["cnonce=" +:+ String quote cn])).
      unfold ps, param, quoted, join. cbn [app take String.concat]. rewrite !sapp_assoc. done. }
    destruct (trim_prefixed "igest " s quote) as [H|H]; [|done].
    change ("Digest " +:+ s +:+ String quote "") with (String "D" "igest " +:+ s +:+ String quote "").
    rewrite H. by rewrite sapp_assoc. }
  rewrite Ht. assert (Hx : strip_prefix "Digest " ("Digest " +:+ join ", " ps) = Some (join ", " ps)) by by apply strip_prefix_spec.
  rewrite Hx. cbn [ok_or rbind]. assert (Hps : params_of (join ", " ps) =
    [("username", u); ("realm", rlm); ("nonce", n); ("uri", duri); ("response", resp); ("algorithm", "MD5");
     ("qop", "auth"); ("nc", "00000001"); ("cnonce", cn)]).
  { unfold ps. rewrite params_joined; [|repeat constructor; try (apply param_free; done)].
    cbn [omap list_omap]. by rewrite !read_quoted by done. }
  rewrite Hps. set (c := fold_left _ _ _).
  assert (Hf : c = mkCreds u rlm n duri resp "MD5" (Some "auth") (Some "00000001") (Some cn)) by reflexivity.
  rewrite Hf. cbn [username cr_realm nonce response]. by rewrite !seqb_false by done.
Qed.

Lemma credentials_read u pw rlm n method duri cn :
  clean u = true -> clean rlm = true -> clean n = true -> clean duri = true -> clean cn = true ->
  u <> "" -> rlm <> "" -> n <> "" ->
  creds_from_header (generate_digest_response u pw (mkChallenge rlm n "MD5" (Some "auth") None) method duri cn)
  = Ok (mkCreds u rlm n duri
          (compute_response_auth (compute_ha1 u rlm pw) n "00000001" cn (compute_ha2 method duri))
          "MD5" (Some "auth") (Some "00000001") (Some cn)).
Proof.
  intros. destruct (md5_clean (compute_ha1 u rlm pw +:+ ":" +:+ n +:+ ":" +:+ "00000001" +:+ ":" +:+ cn
                               +:+ ":auth:" +:+ compute_ha2 method duri)) as [Hp Hp0].
  by apply credentials_text.
Qed.

Lemma size_insert_le {V} k (x : V) (m : gmap string V) : (size (<[k := x]> m) <= S (size m))%nat.
Proof.
  destruct (m !! k) as [y|] eqn:E; [|by rewrite map_size_insert_None].
  rewrite map_size_insert_Some by eauto. lia.
Qed.

Lemma make_room_size now ttl m : Z.of_nat (size (make_room now ttl m)) < MAX_NONCES.
Proof. unfold make_room. repeat case_test; to_prop; try lia. done. Qed.

Lemma step_bounded o a :
  Z.of_nat (size (nonces a)) <= MAX_NONCES -> Z.of_nat (size (nonces (step o a).2)) <= MAX_NONCES.
Proof.
  intros H. destruct o as [now k st|now h m fp|us|now]; simpl.
  - assert (H1 := make_room_size now (nonce_ttl a) (nonces a)).
    assert (H2 := size_insert_le k (mkNonce now 0 0 None) (make_room now (nonce_ttl a) (nonces a))). lia.
  - destruct (verify_with now h m fp a) as [[u|e] a'] eqn:E; simpl.
    + apply verify_ok in E as (c & ha1 & r0 & r' & _ & _ & _ & _ & Hn & _ & _ & ->). simpl.
      by rewrite map_size_insert_Some by eauto.
    + revert E. unfold verify_with. repeat case_match; intros [= _ <-]; simpl; try done;
        match goal with |- context [delete ?k ?m] => assert (Hd := map_size_delete k m) end;
        unfold id in Hd; case_match; lia.
  - done.
  - unfold retain_young. assert (Hf := map_size_filter (fun kr => sat_sub now (created_at kr.2) <= nonce_ttl a) (nonces a)). lia.
Qed.

(** ** Theorems *)

(** C36: a captured Authorization buys nothing. Over any run in which the server
    does not draw the same random nonce again, each request accepted on a
    nonce after another carries qop=auth, and its nonce-count is greater than
    the earlier one's unless it is the same request again (equal count and
    equal, known fingerprint). *)
Theorem replays_refused ops a n r :
  forallb (fun o => negb (issues n o)) ops = true ->
  nonces a !! n = Some r -> 0 <= use_count r -> use_count r + Z.of_nat (length ops) < 2 ^ 32 ->
  StronglySorted follows (accepted_on n (run ops a).1).
Proof. intros Hi Hn H0 Hl. exact (proj2 (run_past ops a n r Hi Hn H0 Hl)). Qed.

(** A request is accepted exactly when its header parses, its user is known,
    its response is the digest of that user's stored HA1, its nonce was issued
    and is not expired, and it is the first use of the nonce, advances the
    count, or repeats the last request. *)
Theorem verify_accepts_iff now h m fp a u :
  (verify_with now h m fp a).1 = Ok u <->
  exists c ha1 r,
    creds_from_header h = Ok c /\ username c = u /\ users a !! u = Some ha1 /\
    response c = expected ha1 m c /\
    nonces a !! nonce c = Some r /\ sat_sub now (created_at r) <= nonce_ttl a /\
    if qop_auth c then
      exists k, creds_nc c = Some k /\
        (last_nc r < k \/ (k = last_nc r /\ is_Some fp /\ fp = last_fingerprint r))
    else use_count r <= 0.
Proof.
  transitivity (exists a', verify_with now h m fp a = (Ok u, a')).
  { destruct (verify_with now h m fp a) as [x a']. naive_solver. }
  split.
  - intros (a' & (c & ha1 & r & r' & H1 & H2 & H3 & H4 & H5 & H6 & H7 & _)%verify_ok).
    exists c, ha1, r. split_and!; try done. apply replay_check_ok in H7 as [_ H7].
    destruct (qop_auth c); naive_solver.
  - intros (c & ha1 & r & H1 & H2 & H3 & H4 & H5 & H6 & H7).
    assert (exists r', replay_check c fp r = Ok r') as [r' Hr].
    { unfold replay_check. destruct (qop_auth c).
      - destruct H7 as (k & -> & Hk). simpl. case_test; [eauto|]. to_prop.
        destruct Hk as [?|(-> & Hf & ->)]; [lia|]. rewrite bool_decide_true by done. simpl. eauto.
      - rewrite (proj2 (Z.ltb_ge _ _)) by done. simpl. eauto. }
    eexists. apply verify_ok. exists c, ha1, r, r'. split_and!; done.
Qed.

(** No oracle and no strikes by forged nonces: a well-formed request on a
    nonce that is not in the table is answered StaleNonce and changes nothing,
    whatever the users, the password and the digest; and a failure that counts
    as an attack needs a nonce the table holds. *)
Theorem forged_nonce_tells_nothing now h m fp a :
  (forall c, creds_from_header h = Ok c -> nonces a !! nonce c = None ->
     verify_with now h m fp a = (Err (StaleNonce (username c)), a)) /\
  (forall e, (verify_with now h m fp a).1 = Err e -> is_attack e = true ->
     exists c r, creds_from_header h = Ok c /\ nonces a !! nonce c = Some r /\
       forall ha1, users a !! username c = Some ha1 -> response c <> expected ha1 m c).
Proof.
  unfold verify_with. split; [by intros c -> ->|].
  destruct (creds_from_header h) as [c|]; [|by intros ? [= <-]].
  destruct (nonces a !! nonce c) as [r|] eqn:En; [|by intros ? [= <-]].
  intros e He Ha. exists c, r. split_and!; [done..|]. intros ha1 Hu Hr. revert He Ha. rewrite Hu. simpl.
  rewrite Hr, seqb_refl. simpl. case_test; [by intros [= <-]|].
  unfold replay_check. destruct (qop_auth c); [destruct (creds_nc c) as [k|]|]; simpl;
    repeat case_match; intros; by simplify_eq/=.
Qed.

(** The client's half answers the server's half: for a user who knows the
    password, the response to a challenge is accepted, once the challenge and
    the response have been written and read back as headers. *)
Theorem client_admitted now later n stale u pw method duri cn fp a :
  clean (realm a) = true -> clean n = true -> clean u = true -> clean duri = true -> clean cn = true ->
  realm a <> "" -> n <> "" -> u <> "" ->
  users a !! u = Some (compute_ha1 u (realm a) pw) -> sat_sub later now <= nonce_ttl a ->
  let '(text, a') := generate_challenge_with now n stale a in
  exists ch, challenge_from_header text = Ok ch /\
    (verify_with later (generate_digest_response u pw ch method duri cn) method fp a').1 = Ok u.
Proof.
  intros Hr Hn Hu Hd Hc Hr0 Hn0 Hu0 Hpw Ht. cbn -[challenge_text challenge_from_header verify_with generate_digest_response].
  eexists. split; [by apply challenge_read|].
  set (h := generate_digest_response _ _ _ _ _ _). set (a' := mkAuth _ _ _ _).
  assert (Hh : exists c, creds_from_header h = Ok c /\ username c = u /\ nonce c = n /\ qop_auth c = true /\
             creds_nc c = Some 1 /\ response c = expected (compute_ha1 u (realm a) pw) method c).
  { eexists. split; [by apply credentials_read|]. done. }
  destruct Hh as (c & H1 & H2 & H3 & H4 & H5 & H6).
  assert (Hrc : replay_check c fp (mkNonce now 0 0 None)
                = Ok (mkNonce now 1 1 fp)) by (unfold replay_check; by rewrite H4, H5).
  destruct (verify_with later h method fp a') as [x a''] eqn:E. cbn.
  assert (Hok : verify_with later h method fp a'
                = (Ok u, a' <| nonces := <[nonce c := mkNonce now 1 1 fp]> (nonces a') |>)).
  { apply verify_ok. exists c, (compute_ha1 u (realm a) pw), (mkNonce now 0 0 None), (mkNonce now 1 1 fp).
    split_and!; try done. rewrite H3. simpl. by rewrite lookup_insert_eq. }
  rewrite Hok in E. by injection E as <- <-.
Qed.

(** The table of nonces is bounded, whatever is asked of the server. *)
Theorem nonces_bounded rlm us ops : Z.of_nat (active_nonces (run ops (new rlm us)).2) <= MAX_NONCES.
Proof.
  assert (H : forall a, Z.of_nat (size (nonces a)) <= MAX_NONCES -> Z.of_nat (active_nonces (run ops a).2) <= MAX_NONCES).
  { induction ops as [|o ops IH]; intros a Ha; [done|]. rewrite run_cons. cbn [snd]. apply IH. by apply step_bounded. }
  by apply H.
Qed.

(** The padded message is whole blocks of 64 bytes, and the length of its
    padding before the bit count is the first that leaves 56 of 64. *)
Lemma md5_pad_blocks data :
  (length (md5_pad data) mod 64 = 0)%nat /\
  forall k, (k < (119 - length data mod 64) mod 64)%nat -> ((length data + 1 + k) mod 64 <> 56)%nat.
Proof.
  unfold md5_pad. rewrite !length_app, length_replicate, length_rev, length_be_bytes. simpl length.
  generalize (length data). intros n.
  assert (Hn := Nat.mod_upper_bound n 64 ltac:(lia)). assert (He := Nat.div_mod_eq n 64).
  generalize dependent (n mod 64)%nat. generalize (n / 64)%nat. intros q m Hm ->.
  split; [|intros k Hk].
  - destruct (decide (m < 56)%nat).
    + replace (119 - m)%nat with (55 - m + 1 * 64)%nat by lia. rewrite Nat.Div0.mod_add, (Nat.mod_small (55 - m)) by lia.
      replace (64 * q + m + (1 + (55 - m + 8)))%nat with ((S q) * 64)%nat by lia. apply Nat.Div0.mod_mul.
    + rewrite (Nat.mod_small (119 - m)) by lia.
      replace (64 * q + m + (1 + (119 - m + 8)))%nat with ((S (S q)) * 64)%nat by lia. apply Nat.Div0.mod_mul.
  - assert (Hb : (k < 64)%nat /\ (m + 1 + k < 120)%nat /\ (m + 1 + k < 56 \/ 56 < m + 1 + k)%nat).
    { destruct (decide (m < 56)%nat).
      - replace (119 - m)%nat with (55 - m + 1 * 64)%nat in Hk by lia.
        rewrite Nat.Div0.mod_add, (Nat.mod_small (55 - m)) in Hk by lia. lia.
      - rewrite (Nat.mod_small (119 - m)) in Hk by lia. lia. }
    replace (64 * q + m + 1 + k)%nat with (m + 1 + k + q * 64)%nat by lia. rewrite Nat.Div0.mod_add.
    assert (Hd := Nat.div_mod_eq (m + 1 + k) 64).
    assert (Hu := Nat.mod_upper_bound (m + 1 + k) 64 ltac:(lia)). lia.
Qed.

(** RFC 1321's test suite and the example of RFC 2617. *)
Example md5_vectors :
  md5_hex "" = "d41d8cd98f00b204e9800998ecf8427e" /\
  md5_hex "abc" = "900150983cd24fb0d6963f7d28e17f72" /\
  md5_hex "12345678901234567890123456789012345678901234567890123456789012345678901234567890"
  = "57edf4a22be3c955ac49da2e2107b67a" /\
  compute_response_auth (compute_ha1 "Mufasa" "testrealm@host.com" "Circle Of Life")
    "dcd98b7102dd2f0e8b11d0f600bfb0c093" "00000001" "0a4f113b" (compute_ha2 "GET" "/dir/index.html")
  = "6629fae49393a05397450978507c4ef1".
Proof. vm_compute. done. Qed.

(** ** Witnesses *)

Module Witness.

Definition server : DigestAuthenticator := new "pbx.example" {["alice" := "secret"]}.
Definition challenged : DigestAuthenticator := (generate_challenge_with 1000 "0a1b" false server).2.
Definition answer (cnonce : string) : string :=
  generate_digest_response "alice" "secret" (mkChallenge "pbx.example" "0a1b" "MD5" (Some "auth") None)
    "REGISTER" "sip:pbx.example" cnonce.

(** A retransmission is accepted again; another request with the same count is
    not. *)
Definition replay_ops : list Op :=
  [Verify 1001 (answer "cafe") "REGISTER" (Some 7); Verify 1002 (answer "cafe") "REGISTER" (Some 7);
   Verify 1003 (answer "cafe") "REGISTER" (Some 8); Cleanup 1004].

Lemma replays_refused_witness :
  length (accepted_on "0a1b" (run replay_ops challenged).1) = 2%nat /\
  StronglySorted follows (accepted_on "0a1b" (run replay_ops challenged).1).
Proof.
  split; [vm_compute; reflexivity|].
  assert (Hr : nonces challenged !! "0a1b" = Some (mkNonce 1000 0 0 None)) by (vm_compute; reflexivity).
  exact (replays_refused replay_ops challenged "0a1b" _ eq_refl Hr (Z.le_refl 0) eq_refl).
Defined.

Lemma forged_nonce_tells_nothing_witness :
  (verify_with 1001 (answer "cafe") "REGISTER" None server) = (Err (StaleNonce "alice"), server).
Proof.
  assert (Hc : exists c, creds_from_header (answer "cafe") = Ok c /\ username c = "alice" /\ nonce c = "0a1b")
    by (eexists; vm_compute; repeat split).
  destruct Hc as (c & Hc & Hu & Hn). rewrite <- Hu.
  apply (proj1 (forged_nonce_tells_nothing 1001 (answer "cafe") "REGISTER" None server) c Hc).
  rewrite Hn. vm_compute. reflexivity.
Defined.

Lemma client_admitted_witness :
  let '(text, a') := generate_challenge_with 1000 "0a1b" true server in
  exists ch, challenge_from_header text = Ok ch /\
    (verify_with 1300 (generate_digest_response "alice" "secret" ch "INVITE" "sip:bob@pbx.example" "cafe")
       "INVITE" None a').1 = Ok "alice".
Proof.
  assert (Hu : users server !! "alice" = Some (compute_ha1 "alice" (realm server) "secret")) by (vm_compute; reflexivity).
  exact (client_admitted 1000 1300 "0a1b" true "alice" "secret" "INVITE" "sip:bob@pbx.example" "cafe" None server
           eq_refl eq_refl eq_refl eq_refl eq_refl ltac:(discriminate) ltac:(discriminate) ltac:(discriminate) Hu
           ltac:(discriminate)).
Defined.

End Witness.
