(* ===== verification/Topology.v ===== *)
(** * Topology hiding (topology.rs)

    A SIP message as raw text: reading it into start line, header lines and
    body, editing its headers, writing it back, and the rewriting of messages
    that cross the SBC. The branch drawn from the clock is an argument. *)

From S2P Require Import Prelude Str Bytes.

(** ** The SBC's identity *)

Record SbcIdentity := mkIdentity {
  public_ip : string;
  sip_domain : string;
  sip_port : Z;
  tls : bool
}.

Definition sip_uri (i : SbcIdentity) : string :=
  let scheme := if tls i then "sips" else "sip" in
  if (sip_port i =? 5060) && negb (tls i) then scheme +:+ ":" +:+ sip_domain i
  else scheme +:+ ":" +:+ sip_domain i +:+ ":" +:+ show (sip_port i).

Definition contact_uri (i : SbcIdentity) : string :=
  let scheme := if tls i then "sips" else "sip" in
  if tls i then scheme +:+ ":sbc@" +:+ public_ip i +:+ ":" +:+ show (sip_port i) +:+ ";transport=tls"
  else scheme +:+ ":sbc@" +:+ public_ip i +:+ ":" +:+ show (sip_port i).

Definition via_header (i : SbcIdentity) (transport branch : string) : string :=
  "SIP/2.0/" +:+ to_ascii_uppercase transport +:+ " " +:+ public_ip i +:+ ":" +:+ show (sip_port i)
  +:+ ";branch=" +:+ branch.

Definition record_route (i : SbcIdentity) : string :=
  if tls i then "<" +:+ sip_uri i +:+ ";transport=tls;lr>" else "<" +:+ sip_uri i +:+ ";lr>".

(** ** Messages *)

Record RawSipMessage := mkMsg {
  start_line : string;
  headers : list string;
  body : string
}.

#[export] Instance eta_msg : Eta RawSipMessage := fun m => mkMsg (start_line m) (headers m) (body m).

Definition LF : ascii := "010".
Definition CR : ascii := "013".

(** Headers and body, at the first CRLFCRLF or else LFLF. *)
Definition split_head (raw : string) : string * string :=
  match find_str (CRLF +:+ CRLF) raw with
  | Some pos => (stake pos raw, sdrop (pos + 4) raw)
  | None =>
      match find_str (String LF (String LF "")) raw with
      | Some pos => (stake pos raw, sdrop (pos + 2) raw)
      | None => (raw, "")
      end
  end.

Definition is_folded (line : string) : bool := starts_with " " line || starts_with (String "009" "") line.

(** The loop over the header lines: [current] is the header being read. *)
Fixpoint collect (current : option string) (ls : list string) : list string :=
  match ls with
  | [] => option_list current
  | line :: ls =>
      if is_folded line then collect ((fun h => h +:+ " " +:+ trim line) <$> current) ls
      else if seqb line "" then option_list current ++ collect None ls
      else option_list current ++ collect (Some line) ls
  end.

Definition is_eol (c : ascii) : bool := bool_decide (c = CR \/ c = LF).

Definition parse (raw : string) : sbc_result RawSipMessage :=
  let '(header_part, body) := split_head raw in
  let? start := ok_or (head (split_by is_eol header_part)) (ETransport "empty SIP message") in
  Ok (mkMsg (trim start) (collect None (tail (lines header_part))) body).

Definition render (m : RawSipMessage) : string :=
  start_line m +:+ CRLF +:+ unlines (headers m) (CRLF +:+ body m).

Definition short_form (name : string) : string :=
  if seqb name "v" then "via"
  else if seqb name "f" then "from"
  else if seqb name "t" then "to"
  else if seqb name "m" then "contact"
  else if seqb name "i" then "call-id"
  else if seqb name "e" then "content-encoding"
  else if seqb name "l" then "content-length"
  else if seqb name "c" then "content-type"
  else if seqb name "s" then "subject"
  else if seqb name "k" then "supported"
  else name.

(** [h[..colon].trim().to_lowercase()] and [h[colon + 1..].trim()]. *)
Definition header_parts (h : string) : option (string * string) :=
  match find_char ":" h with
  | Some colon => Some (to_ascii_lowercase (trim (stake colon h)), trim (sdrop (S colon) h))
  | None => None
  end.

Definition is_header (name_lc h : string) : bool :=
  match header_parts h with
  | Some (hname, _) => seqb hname name_lc || seqb (short_form hname) name_lc
  | None => false
  end.

Definition header_values (name : string) (m : RawSipMessage) : list string :=
  omap (fun h => if is_header (to_ascii_lowercase name) h then snd <$> header_parts h else None) (headers m).

Definition remove_header (name : string) (m : RawSipMessage) : RawSipMessage :=
  m <| headers := List.filter (fun h => negb (is_header (to_ascii_lowercase name) h)) (headers m) |>.

Definition prepend_header (header : string) (m : RawSipMessage) : RawSipMessage :=
  m <| headers := header :: headers m |>.
Definition append_header (header : string) (m : RawSipMessage) : RawSipMessage :=
  m <| headers := headers m ++ [header] |>.

Fixpoint replace_first (p : string -> bool) (new_line : string) (hs : list string) : list string :=
  match hs with
  | [] => [new_line]
  | h :: hs => if p h then new_line :: hs else h :: replace_first p new_line hs
  end.

Definition set_header (name value : string) (m : RawSipMessage) : RawSipMessage :=
  m <| headers := replace_first (is_header (to_ascii_lowercase name)) (name +:+ ": " +:+ value) (headers m) |>.

(** The count of hops left, when the line is a Max-Forwards that has one. *)
Definition hops (h : string) : option Z :=
  match header_parts h with
  | Some (hname, value) => if seqb hname "max-forwards" then parse_uint u32_max value else None
  | None => None
  end.

Fixpoint decrement_in (hs : list string) : sbc_result (list string) :=
  match hs with
  | [] => Ok ["Max-Forwards: 70"]
  | h :: hs =>
      match hops h with
      | Some n =>
          if n =? 0 then Err (ETransport "Max-Forwards reached 0")
          else Ok (("Max-Forwards: " +:+ show (n - 1)) :: hs)
      | None => let? hs := decrement_in hs in Ok (h :: hs)
      end
  end.

Definition decrement_max_forwards (m : RawSipMessage) : sbc_result RawSipMessage :=
  let? hs := decrement_in (headers m) in Ok (m <| headers := hs |>).

Definition is_request (m : RawSipMessage) : bool := negb (starts_with "SIP/2.0" (start_line m)).

Definition method (m : RawSipMessage) : option string :=
  if is_request m then head (split_whitespace (start_line m)) else None.

(** ** Rewriting *)

(** [t]: the nanoseconds of the clock below the second. *)
Definition new_branch (t : Z) : string := "z9hG4bK" +:+ hex_bytes (be_bytes 4 t).

Definition apply_topology_hiding_inbound (t : Z) (raw : string) (identity : SbcIdentity)
    (transport : string) : sbc_result string :=
  let? msg := parse raw in
  let? msg :=
    if is_request msg then
      let? msg := decrement_max_forwards msg in
      let msg := remove_header "via" msg in
      let msg := remove_header "v" msg in
      let msg := prepend_header ("Via: " +:+ via_header identity transport (new_branch t)) msg in
      let msg :=
        if negb (bool_decide (header_values "contact" msg = [])) then
          let msg := remove_header "contact" msg in
          let msg := remove_header "m" msg in
          append_header ("Contact: <" +:+ contact_uri identity +:+ ">") msg
        else msg in
      Ok (remove_header "record-route" msg)
    else
      let vias := header_values "via" msg in
      let msg := remove_header "via" msg in
      Ok (match last vias with
          | Some last_via => prepend_header ("Via: " +:+ last_via) msg
          | None => msg
          end) in
  Ok (render msg).

Definition apply_topology_hiding_outbound (t : Z) (raw : string) (identity : SbcIdentity)
    (transport : string) : sbc_result string :=
  let? msg := parse raw in
  let msg :=
    if is_request msg then
      let msg := match decrement_max_forwards msg with Ok msg => msg | Err _ => msg end in
      let msg := remove_header "via" msg in
      let msg := prepend_header ("Via: " +:+ via_header identity transport (new_branch t)) msg in
      let msg := remove_header "contact" msg in
      let msg := remove_header "m" msg in
      let msg := append_header ("Contact: <" +:+ contact_uri identity +:+ ">") msg in
      let msg := remove_header "record-route" msg in
      let msg := prepend_header ("Record-Route: " +:+ record_route identity) msg in
      remove_header "route" msg
    else msg in
  Ok (render msg).

Definition UNTRUSTED_IDENTITY_HEADERS : list string :=
  ["p-asserted-identity"; "p-preferred-identity"; "remote-party-id"; "p-charging-vector";
   "x-forwarded-for"; "x-real-ip"].

Definition strip_credentials (raw : string) : string :=
  let lower := to_ascii_lowercase raw in
  if negb (contains (String LF "authorization:") lower)
     && negb (contains (String LF "proxy-authorization:") lower)
  then raw
  else match parse raw with
  | Err _ => raw
  | Ok msg => render (remove_header "proxy-authorization" (remove_header "authorization" msg))
  end.

Definition strip_untrusted_identity_headers (raw : string) : string :=
  match parse raw with
  | Err _ => raw
  | Ok msg =>
      let msg' := fold_left (fun m name => remove_header name m) UNTRUSTED_IDENTITY_HEADERS msg in
      if (length (headers msg') =? length (headers msg))%nat then raw else render msg'
  end.

Definition SUPPORTED_EXTENSIONS : list string := ["timer"].

(** The supported tokens not kept yet. *)
Definition keep_token (kept : list string) (token : string) : list string :=
  let t := trim token in
  if existsb (fun s => eq_ignore_ascii_case s t) SUPPORTED_EXTENSIONS
     && negb (existsb (fun k => eq_ignore_ascii_case k t) kept)
  then kept ++ [t] else kept.

Definition kept_extensions (values : list string) : list string :=
  fold_left (fun kept value => fold_left keep_token (split "," value) kept) values [].

(** Keep the first Supported line, in either form, and drop the others. *)
Fixpoint first_supported (seen : bool) (hs : list string) : list string :=
  match hs with
  | [] => []
  | h :: hs =>
      let name := to_ascii_lowercase (trim (default "" (head (split ":" h)))) in
      if seqb name "supported" || seqb name "k"
      then if seen then first_supported true hs else h :: first_supported true hs
      else h :: first_supported seen hs
  end.

Definition strip_unsupported_extensions (raw : string) : string :=
  match parse raw with
  | Err _ => raw
  | Ok msg =>
      let kept := kept_extensions (header_values "supported" msg) in
      if bool_decide (header_values "supported" msg = []) then raw
      else if bool_decide (kept = []) then render (remove_header "k" (remove_header "supported" msg))
      else
        let value := join ", " kept in
        let msg := msg <| headers := first_supported false (headers msg) |> in
        let msg := remove_header "k" msg in
        render (if bool_decide (header_values "supported" msg = [])
                then append_header ("Supported: " +:+ value) msg
                else set_header "Supported" value msg)
  end.

Definition strip_privacy_headers (raw : string) : sbc_result string :=
  let? msg := parse raw in
  Ok (render (fold_left (fun m name => remove_header name m)
                ["p-asserted-identity"; "p-preferred-identity"; "x-forwarded-for"; "x-real-ip";
                 "server"; "user-agent"] msg)).

(** ** Lemmas: what parsing and rendering keep *)

(** A header line that reads back as itself. *)
Definition good_header (h : string) : bool := negb (seqb h "") && no_lf h && negb (is_folded h).

(** What [parse] produces. *)
Definition well_formed (m : RawSipMessage) : Prop :=
  sall (fun c => negb (is_eol c)) (start_line m) = true /\ trim (start_line m) = start_line m /\
  Forall (fun h => good_header h = true) (headers m).

Lemma sall_trim p s : sall p s = true -> sall p (trim s) = true.
Proof.
  intros H. unfold trim, trim_by.
  assert (Hs : forall q t, sall p t = true -> sall p (trim_start_by q t) = true).
  { intros q t. induction t as [|c t IH]; [done|]. simpl. intros Ht. destruct (q c); [|done]. to_prop. auto. }
  apply Hs. destruct (proj1 (starts_with_spec _ _) (trim_end_prefix Ascii.is_space s)) as [u Hu].
  rewrite Hu, sall_app in H. by to_prop.
Qed.

Lemma folded_app h t : h <> "" -> is_folded (h +:+ t) = is_folded h.
Proof.
  destruct h as [|c h]; [done|]. intros _. unfold is_folded, starts_with. rewrite sapp_cons. cbn.
  by repeat case_bool_decide.
Qed.

Lemma collect_good current ls :
  Forall (fun l => no_lf l = true) ls -> Forall (fun h => good_header h = true) (option_list current) ->
  Forall (fun h => good_header h = true) (collect current ls).
Proof.
  intros Hls. revert current. induction Hls as [|l ls Hl Hls IH]; intros current Hc; [done|]. simpl.
  destruct (is_folded l) eqn:Ef; [apply IH|].
  - destruct current as [h|]; [|done]. simpl in *. inversion_clear Hc as [|? ? Hh _]. repeat constructor.
    unfold good_header in *. apply andb_prop in Hh as [[H1 H2]%andb_prop H3].
    assert (h <> "") by (intros ->; done). rewrite folded_app, H3 by done. unfold no_lf in *.
    rewrite !sall_app, H2, sall_trim by done. destruct h; done.
  - destruct (seqb l "") eqn:Ee; apply Forall_app; (split; [done|]); apply IH; simpl; [constructor|].
    repeat constructor. unfold good_header. by rewrite Ef, Ee, Hl.
Qed.

Lemma parse_total raw : exists m, parse raw = Ok m.
Proof.
  unfold parse. destruct (split_head raw) as [hp b]. assert (Hn := split_by_nonempty is_eol hp).
  destruct (split_by is_eol hp); [done|]. simpl. eauto.
Qed.

Lemma parse_well_formed raw m : parse raw = Ok m -> well_formed m.
Proof.
  unfold parse. destruct (split_head raw) as [hp b].
  assert (Hp := split_by_free_pieces is_eol hp). destruct (split_by is_eol hp) as [|w ws]; [done|].
  simpl. intros [= <-]. inversion_clear Hp. split_and!; simpl.
  - by apply sall_trim.
  - apply trim_idem.
  - apply collect_good; [|constructor]. assert (H' := lines_no_lf hp). destruct (lines hp); [done|]. by inversion_clear H'.
Qed.

(** Finding the blank line. *)
Lemma blank_not_in l X :
  no_lf l = true -> l <> "" -> starts_with (CRLF +:+ CRLF) (l +:+ CRLF +:+ X) = false.
Proof.
  intros Hl Hn. destruct l as [|c l]; [done|]. unfold starts_with. rewrite sapp_cons.
  cbn [CRLF strip_prefix String.append]. change (CRLF +:+ CRLF) with (String "013" (String "010" CRLF)).
  cbn [strip_prefix]. case_bool_decide; [|done]. destruct l as [|d l].
  - change ("" +:+ CRLF +:+ X) with (String "013" (String "010" X)). cbv iota.
    by rewrite bool_decide_false by discriminate.
  - rewrite sapp_cons. cbv iota. destruct (bool_decide _) eqn:E; [|done]. apply bool_decide_eq_true in E. subst d.
    unfold no_lf in Hl. cbn [sall] in Hl. to_prop. congruence.
Qed.

Lemma find_blank_line l X :
  no_lf l = true -> starts_with CRLF X = false ->
  find_str (CRLF +:+ CRLF) (l +:+ CRLF +:+ X) = (fun n => (String.length l + 2 + n)%nat) <$> find_str (CRLF +:+ CRLF) X.
Proof.
  induction l as [|c l IH]; intros Hl HX.
  - change ("" +:+ CRLF +:+ X) with (String "013" (String "010" X)).
    assert (H1 : starts_with (CRLF +:+ CRLF) (String "013" (String "010" X)) = false) by exact HX.
    assert (H2 : starts_with (CRLF +:+ CRLF) (String "010" X) = false) by reflexivity.
    rewrite find_str_step, H1, find_str_step, H2. by destruct (find_str (CRLF +:+ CRLF) X).
  - assert (Hl' : no_lf l = true) by (unfold no_lf in *; cbn [sall] in Hl; by to_prop).
    assert (Hs := blank_not_in (String c l) X Hl ltac:(done)). rewrite sapp_cons in *.
    rewrite find_str_step, Hs, (IH Hl' HX). by destruct (find_str (CRLF +:+ CRLF) X).
Qed.

Lemma find_blank_end l X :
  no_lf l = true -> find_str (CRLF +:+ CRLF) (l +:+ CRLF +:+ CRLF +:+ X) = Some (String.length l).
Proof.
  induction l as [|c l IH]; intros Hl; [done|].
  assert (Hl' : no_lf l = true) by (unfold no_lf in *; cbn [sall] in Hl; by to_prop).
  assert (Hs := blank_not_in (String c l) (CRLF +:+ X) Hl ltac:(done)). rewrite sapp_cons in *.
  by rewrite find_str_step, Hs, (IH Hl').
Qed.

(** The header part of a rendered message: lines joined by CRLF. *)
Definition tailed (hs : list string) (rest : string) : string := foldr (fun h acc => CRLF +:+ h +:+ acc) rest hs.

Lemma tailed_app hs rest : tailed hs rest = tailed hs "" +:+ rest.
Proof. induction hs as [|h hs IH]; [done|]. simpl. by rewrite IH, !sapp_assoc. Qed.

Lemma render_tailed m : render m = start_line m +:+ tailed (headers m) "" +:+ CRLF +:+ CRLF +:+ body m.
Proof.
  unfold render. rewrite <- tailed_app. f_equal. generalize (CRLF +:+ body m). intros r.
  induction (headers m) as [|h hs IH]; [done|]. cbn [unlines tailed foldr]. fold (unlines hs r). by rewrite IH.
Qed.

Lemma good_no_lf h : good_header h = true -> no_lf h = true.
Proof. unfold good_header. by intros [[_ ?]%andb_prop _]%andb_prop. Qed.

Lemma starts_crlf c s :
  starts_with CRLF (String c s)
  = bool_decide (CR = c) && match s with String d _ => bool_decide (LF = d) | "" => false end.
Proof.
  unfold starts_with, CRLF, CR, LF. cbn [strip_prefix]. destruct (bool_decide ("013"%char = c)); [|done].
  destruct s as [|d s]; [done|]. by destruct (bool_decide ("010"%char = d)).
Qed.

Lemma good_not_crlf h t : good_header h = true -> starts_with CRLF (h +:+ CRLF +:+ t) = false /\ starts_with CRLF h = false.
Proof.
  unfold good_header. intros [[Hn Hl]%andb_prop _]%andb_prop. destruct h as [|c h]; [done|].
  rewrite sapp_cons, !starts_crlf. destruct h as [|d h].
  - split; [|by rewrite andb_false_r]. change ("" +:+ CRLF +:+ t) with (String "013" (String "010" t)). cbv iota.
    by rewrite andb_false_r.
  - rewrite sapp_cons. unfold no_lf in Hl. cbn [sall] in Hl. to_prop.
    rewrite (bool_decide_false (LF = d)); [by rewrite andb_false_r|]. intros <-. by apply HP1.
Qed.

Lemma split_head_render hs : forall l b,
  no_lf l = true -> Forall (fun h => good_header h = true) hs ->
  find_str (CRLF +:+ CRLF) (l +:+ tailed hs "" +:+ CRLF +:+ CRLF +:+ b) = Some (String.length (l +:+ tailed hs "")).
Proof.
  induction hs as [|h hs IH]; intros l b Hl Hh.
  - cbn [tailed foldr]. rewrite sapp_nil_r. by apply find_blank_end.
  - inversion_clear Hh as [|? ? Hh1 Hh2]. cbn [tailed foldr]. fold (tailed hs "").
    rewrite !sapp_assoc. rewrite find_blank_line; [|done|].
    + rewrite IH; [|by apply good_no_lf|done]. simpl. f_equal. rewrite !slength_app. simpl. lia.
    + destruct hs as [|h' hs]; [|cbn [tailed foldr]; rewrite !sapp_assoc];
        exact (proj1 (good_not_crlf h _ Hh1)).
Qed.

Lemma lines_tailed hs : forall l, no_lf l = true -> Forall (fun h => good_header h = true) hs ->
  lines (l +:+ tailed hs "") = match hs with [] => if seqb l "" then [] else [l] | _ => l :: hs end.
Proof.
  induction hs as [|h hs IH]; intros l Hl Hh.
  - cbn [tailed foldr]. rewrite sapp_nil_r. unfold lines, split. by rewrite split_by_free.
  - inversion_clear Hh as [|? ? Hh1 Hh2]. cbn [tailed foldr]. fold (tailed hs "").
    rewrite line_off by done. f_equal. unfold good_header in Hh1. to_prop. rewrite IH by done.
    destruct hs; [|done]. by rewrite HP1.
Qed.

Lemma collect_id hs h : Forall (fun h => good_header h = true) hs -> collect (Some h) hs = h :: hs.
Proof.
  intros H. revert h. induction H as [|x hs Hx Hhs IH]; intros h; [done|]. unfold good_header in Hx. to_prop.
  simpl. by rewrite HP0, HP1, IH.
Qed.

Lemma parse_render_wf m : well_formed m -> parse (render m) = Ok m.
Proof.
  intros (Hs & Ht & Hh). destruct m as [s hs b]. simpl in *.
  assert (Hl : no_lf s = true).
  { revert Hs. unfold no_lf. apply sall_impl. intros c Hc. unfold is_eol in Hc. to_prop.
    rewrite bool_decide_false; [done|]. intros ->. apply Hc. by right. }
  unfold parse, split_head. rewrite render_tailed. simpl start_line. simpl headers. simpl body.
  rewrite split_head_render by done. rewrite <- sapp_assoc. rewrite stake_app.
  assert (Hd : sdrop (String.length (s +:+ tailed hs "") + 4) ((s +:+ tailed hs "") +:+ CRLF +:+ CRLF +:+ b) = b).
  { replace ((s +:+ tailed hs "") +:+ CRLF +:+ CRLF +:+ b) with (((s +:+ tailed hs "") +:+ CRLF +:+ CRLF) +:+ b)
      by by rewrite !sapp_assoc.
    replace (String.length (s +:+ tailed hs "") + 4)%nat with (String.length ((s +:+ tailed hs "") +:+ CRLF +:+ CRLF))
      by (rewrite !slength_app; simpl; lia). apply sdrop_app. }
  rewrite Hd, lines_tailed by done.
  assert (Hsp : head (split_by is_eol (s +:+ tailed hs "")) = Some s).
  { destruct hs as [|h hs]; [cbn [tailed foldr]; by rewrite sapp_nil_r, split_by_free|].
    cbn [tailed foldr]. change (CRLF +:+ h +:+ ?t) with (String "013" (String "010" (h +:+ t))).
    by rewrite split_by_app. }
  rewrite Hsp. simpl. rewrite Ht. do 2 f_equal. destruct hs as [|h hs]; [by case_test|]. simpl.
  inversion_clear Hh as [|? ? Hh1 Hh2]. unfold good_header in Hh1. to_prop. rewrite HP0, HP1. by apply collect_id.
Qed.

(** ** Lemmas: editing headers *)

Definition value_of (name_lc h : string) : option string :=
  if is_header name_lc h then snd <$> header_parts h else None.

(** No line of [hs] has that name. *)
Definition lacks (name_lc : string) (hs : list string) : bool := forallb (fun h => negb (is_header name_lc h)) hs.

Lemma lacks_values name hs : lacks name hs = true -> omap (value_of name) hs = [].
Proof.
  induction hs as [|h hs IH]; [done|]. cbn [lacks forallb omap list_omap]. intros H. to_prop.
  rewrite (IH HP0). unfold value_of. by rewrite HP.
Qed.

Lemma lacks_filter name f hs : lacks name hs = true -> lacks name (List.filter f hs) = true.
Proof.
  unfold lacks. rewrite !forallb_forall. intros H x [Hx _]%filter_In. by apply H.
Qed.

Lemma lacks_removed name m : lacks (to_ascii_lowercase name) (headers (remove_header name m)) = true.
Proof. apply forallb_forall. simpl. by intros x [_ Hx]%filter_In. Qed.

Lemma lacks_app name a b : lacks name (a ++ b) = lacks name a && lacks name b.
Proof. apply forallb_app. Qed.

Lemma values_app name a b : omap (value_of name) (a ++ b) = omap (value_of name) a ++ omap (value_of name) b.
Proof. apply omap_app. Qed.

(** Removing headers of one name keeps the values of another. *)
Lemma values_filter name f hs :
  (forall h, is_header name h = true -> f h = true) ->
  omap (value_of name) (List.filter f hs) = omap (value_of name) hs.
Proof.
  intros Hf. induction hs as [|h hs IH]; [done|]. cbn [List.filter].
  destruct (f h) eqn:E; cbn [omap list_omap]; rewrite IH; [done|]. assert (value_of name h = None) as ->; [|done].
  unfold value_of. destruct (is_header name h) eqn:F; [|done]. by rewrite (Hf h F) in E.
Qed.

(** A line has one name. *)
Lemma is_header_name n h : is_header n h = true -> exists hn v, header_parts h = Some (hn, v) /\ (hn = n \/ short_form hn = n).
Proof.
  unfold is_header. destruct (header_parts h) as [[hn v]|]; [|done]. intros H. exists hn, v. split; [done|].
  to_prop. by destruct H as [H%seqb_true|H%seqb_true]; [left|right].
Qed.

Lemma names_apart n k h :
  n <> k -> short_form n <> k -> short_form k <> n -> is_header n h = true -> is_header k h = false.
Proof.
  intros H1 H2 H3 (hn & v & Hp & Hn)%is_header_name. destruct (is_header k h) eqn:E; [|done].
  apply is_header_name in E as (hn' & v' & Hp' & Hk). rewrite Hp in Hp'. injection Hp' as <- <-.
  destruct Hn as [->|Hn], Hk as [Hk|Hk]; congruence.
Qed.

(** A line written as [Name: value]. *)
Lemma header_line name v :
  name <> "" -> sall (fun c => negb (Ascii.is_space c)) name = true -> free_of ":" name = true ->
  header_parts (name +:+ ": " +:+ v) = Some (to_ascii_lowercase name, trim v).
Proof.
  intros Hn Hs Hc. unfold header_parts. change (": " +:+ v) with (String ":" (String " " v)).
  rewrite find_char_app by done. rewrite stake_app.
  replace (name +:+ String ":" (String " " v)) with ((name +:+ String ":" "") +:+ String " " v) by by rewrite sapp_assoc.
  replace (S (String.length name)) with (String.length (name +:+ String ":" "")) by (rewrite slength_app; simpl; lia).
  by rewrite sdrop_app, trim_space, trim_free.
Qed.

Lemma value_of_line n name v :
  name <> "" -> sall (fun c => negb (Ascii.is_space c)) name = true -> free_of ":" name = true ->
  value_of n (name +:+ ": " +:+ v)
  = (if seqb (to_ascii_lowercase name) n || seqb (short_form (to_ascii_lowercase name)) n then Some (trim v) else None).
Proof. intros. unfold value_of, is_header. by rewrite header_line by done. Qed.

Lemma is_header_line n name v :
  name <> "" -> sall (fun c => negb (Ascii.is_space c)) name = true -> free_of ":" name = true ->
  is_header n (name +:+ ": " +:+ v)
  = seqb (to_ascii_lowercase name) n || seqb (short_form (to_ascii_lowercase name)) n.
Proof. intros. unfold is_header. by rewrite header_line by done. Qed.

Lemma good_line name v :
  name <> "" -> no_lf name = true -> is_folded name = false -> no_lf v = true -> good_header (name +:+ ": " +:+ v) = true.
Proof.
  intros Hn Hl Hf Hv. unfold good_header. rewrite folded_app, Hf by done. unfold no_lf in *.
  rewrite !sall_app, Hl, Hv. by destruct name.
Qed.

Lemma good_filter f hs :
  Forall (fun h => good_header h = true) hs -> Forall (fun h => good_header h = true) (List.filter f hs).
Proof. rewrite !Forall_forall. intros H x [Hx _]%elem_of_filter_bool. by apply H. Qed.

(** ** Lemmas: the identity's texts *)

Definition identity_ok (i : SbcIdentity) : Prop :=
  no_lf (public_ip i) = true /\ no_lf (sip_domain i) = true /\ 0 <= sip_port i.

Lemma upper_no_lf s : no_lf s = true -> no_lf (to_ascii_uppercase s) = true.
Proof.
  unfold no_lf. induction s as [|c s IH]; [done|]. cbn [sall to_ascii_uppercase smap]. intros H. to_prop.
  rewrite (IH HP0), andb_true_r. destruct c as [[] [] [] [] [] [] [] []]; try reflexivity. by destruct HP.
Qed.

Lemma branch_no_lf t : no_lf (new_branch t) = true.
Proof.
  unfold new_branch. rewrite no_lf_app. apply andb_true_intro. split; [done|].
  apply (sall_impl is_lower_hex); [|apply hex_bytes_lower, be_bytes_is_bytes]. intros c Hc.
  rewrite bool_decide_false; [done|]. by intros ->.
Qed.

Lemma via_no_lf i tr t : identity_ok i -> no_lf tr = true -> no_lf (via_header i tr (new_branch t)) = true.
Proof.
  intros (Hi & _ & Hp) Ht. unfold via_header. rewrite !no_lf_app, Hi, no_lf_show, branch_no_lf, upper_no_lf by done. done.
Qed.

Lemma uri_no_lf i : identity_ok i -> no_lf (contact_uri i) = true /\ no_lf (record_route i) = true.
Proof.
  intros (Hi & Hd & Hp). unfold contact_uri, record_route, sip_uri.
  destruct (tls i), (sip_port i =? 5060); simpl andb; cbv iota; rewrite !no_lf_app, ?Hi, ?Hd, ?no_lf_show by done; done.
Qed.

Lemma trim_closed a c : a <> "" -> sall (fun d => negb (Ascii.is_space d)) (stake 1 a) = true ->
  Ascii.is_space c = false -> trim (a +:+ String c "") = a +:+ String c "".
Proof. intros. by apply trim_plain. Qed.

Lemma trim_via i tr t : trim (via_header i tr (new_branch t)) = via_header i tr (new_branch t).
Proof.
  unfold via_header, new_branch. set (b := be_bytes 4 t). assert (Hb : exists h c, hex_bytes b = h +:+ String c "" /\ Ascii.is_space c = false).
  { unfold b. exists (stake 7 (hex_bytes (be_bytes 4 t))), (hex_digit (Z.land (t mod 256) 15)).
    assert (Hl : is_lower_hex (hex_digit (Z.land (t mod 256) 15)) = true).
    { apply hex_digit_lower. change 15 with (Z.ones 4). rewrite Z.land_ones by lia. apply Z.mod_pos_bound. lia. }
    split; [done|]. revert Hl. generalize (hex_digit (Z.land (t mod 256) 15)).
    intros [[] [] [] [] [] [] [] []]; vm_compute; done. }
  destruct Hb as (h & c & -> & Hc). rewrite <- !sapp_assoc. by apply trim_plain.
Qed.

(** ** Lemmas: the hop count *)

Lemma hops_name h n : hops h = Some n -> exists v, header_parts h = Some ("max-forwards", v).
Proof.
  unfold hops. destruct (header_parts h) as [[hn v]|]; [|done]. case_test; [|done].
  match goal with H : seqb _ _ = true |- _ => apply seqb_true in H as -> end. eauto.
Qed.

Lemma hops_line n : 0 <= n <= u32_max -> hops ("Max-Forwards: " +:+ show n) = Some n.
Proof.
  intros Hn. unfold hops. change ("Max-Forwards: " +:+ show n) with ("Max-Forwards" +:+ ": " +:+ show n).
  rewrite header_line by done. change (to_ascii_lowercase "Max-Forwards") with "max-forwards".
  rewrite seqb_refl. cbv iota. rewrite trim_free; [by apply parse_show|].
  apply (sall_impl is_digit); [apply digit_not_space|apply show_spec; lia].
Qed.

Lemma hops_range h n : hops h = Some n -> 0 <= n <= u32_max.
Proof.
  unfold hops. destruct (header_parts h) as [[hn v]|]; [|done]. case_test; [|done]. apply parse_uint_range.
Qed.

Lemma decrement_values k hs hs' :
  k <> "max-forwards" -> decrement_in hs = Ok hs' -> omap (value_of k) hs' = omap (value_of k) hs.
Proof.
  intros Hk. assert (Hl : forall v, value_of k ("Max-Forwards: " +:+ v) = None).
  { intros v. change ("Max-Forwards: " +:+ v) with ("Max-Forwards" +:+ ": " +:+ v).
    rewrite value_of_line by done. change (to_ascii_lowercase "Max-Forwards") with "max-forwards".
    change (short_form "max-forwards") with "max-forwards". by rewrite seqb_false. }
  revert hs'. induction hs as [|h hs IH]; intros hs'; cbn [decrement_in].
  - intros [= <-]. exact (f_equal (fun o => match o with Some y => [y] | None => [] end) (Hl "70")).
  - destruct (hops h) as [n|] eqn:Eh.
    + case_test; [done|]. intros [= <-]. cbn [omap list_omap]. rewrite Hl.
      apply hops_name in Eh as [v Ev]. unfold value_of, is_header. rewrite Ev.
      change (short_form "max-forwards") with "max-forwards". by rewrite seqb_false.
    + destruct (decrement_in hs) as [hs1|]; [|done]. intros [= <-]. cbn [omap list_omap]. by rewrite (IH hs1).
Qed.

Lemma decrement_good hs hs' :
  decrement_in hs = Ok hs' -> Forall (fun h => good_header h = true) hs -> Forall (fun h => good_header h = true) hs'.
Proof.
  assert (Hl : forall n, 0 <= n -> good_header ("Max-Forwards: " +:+ show n) = true).
  { intros n Hn. apply (good_line "Max-Forwards"); try done. by apply no_lf_show. }
  intros E H. revert hs' E. induction H as [|h hs Hh Hs IH]; intros hs'; cbn [decrement_in].
  - intros [= <-]. by repeat constructor.
  - destruct (hops h) as [n|] eqn:Eh.
    + apply hops_range in Eh. case_test; [done|]. to_prop. intros [= <-]. constructor; [apply Hl; lia|done].
    + destruct (decrement_in hs) as [hs1|]; [|done]. intros [= <-]. constructor; [done|]. by apply IH.
Qed.

Lemma decrement_first hs :
  match head (omap hops hs) with
  | Some 0 => decrement_in hs = Err (ETransport "Max-Forwards reached 0")
  | Some n => exists hs', decrement_in hs = Ok hs' /\ head (omap hops hs') = Some (n - 1)
  | None => decrement_in hs = Ok (hs ++ ["Max-Forwards: 70"])
  end.
Proof.
  induction hs as [|h hs IH]; [done|]. cbn [omap list_omap decrement_in]. destruct (hops h) as [n|] eqn:Eh.
  - cbn [head]. apply hops_range in Eh. destruct n as [|p|p]; [done| |lia]. simpl (Z.pos p =? 0). cbv iota.
    eexists. split; [done|]. cbn [omap list_omap]. rewrite hops_line by lia. done.
  - destruct (head (omap hops hs)) as [n|].
    + assert (Hn : forall hs', decrement_in hs = Ok hs' -> head (omap hops hs') = Some (n - 1) ->
        exists hs'0, (let? hs0 := decrement_in hs in Ok (h :: hs0)) = Ok hs'0 /\ head (omap hops hs'0) = Some (n - 1)).
      { intros hs' -> Hh. eexists. split; [done|]. cbn [omap list_omap]. by rewrite Eh. }
      destruct n as [|p|p]; [by rewrite IH|..]; destruct IH as (hs' & E & Hh); by apply (Hn hs').
    + by rewrite IH.
Qed.

(** ** Theorems *)

(** Header names of the code in their compared form. *)
Ltac header_names :=
  repeat match goal with
  | |- context [to_ascii_lowercase ?s] =>
      let s' := eval vm_compute in (to_ascii_lowercase s) in change (to_ascii_lowercase s) with s'
  end.

Lemma values_removed n hs : omap (value_of n) (List.filter (fun h => negb (is_header n h)) hs) = [].
Proof. apply lacks_values, forallb_forall. by intros x [_ Hx]%filter_In. Qed.

Lemma values_gone n f hs :
  omap (value_of n) (List.filter f (List.filter (fun h => negb (is_header n h)) hs)) = [].
Proof. apply lacks_values, lacks_filter, forallb_forall. by intros x [_ Hx]%filter_In. Qed.

Lemma values_kept n k hs :
  n <> k -> short_form n <> k -> short_form k <> n ->
  omap (value_of n) (List.filter (fun h => negb (is_header k h)) hs) = omap (value_of n) hs.
Proof. intros. apply values_filter. intros h Hh. by rewrite (names_apart n k). Qed.

Lemma values_cons n h hs :
  omap (value_of n) (h :: hs) = match value_of n h with Some v => v :: omap (value_of n) hs | None => omap (value_of n) hs end.
Proof. reflexivity. Qed.

(** Parsing recovers what was rendered, and what is parsed can be rendered:
    every message the SBC reads has a rendering that reads back as the same
    start line, header lines and body. *)
Theorem raw_message_round_trip raw m :
  (well_formed m -> parse (render m) = Ok m) /\ (parse raw = Ok m -> parse (render m) = Ok m).
Proof. split; [apply parse_render_wf|]. intros H. by eapply parse_render_wf, parse_well_formed. Qed.

(** One header of each hidden name, after the rewriting. *)
Definition hides (i : SbcIdentity) (via : string) (contact record_routes : list string) (m out : RawSipMessage) : Prop :=
  start_line out = start_line m /\ body out = body m /\
  header_values "via" out = [via] /\ header_values "contact" out = contact /\
  header_values "record-route" out = record_routes.

Lemma header_values_of name m : header_values name m = omap (value_of (to_ascii_lowercase name)) (headers m).
Proof. reflexivity. Qed.

Ltac good_edits :=
  repeat first
    [ apply good_filter | apply Forall_app; split | apply Forall_nil_2 | apply Forall_cons_2 ].

Lemma trim_bracketed v : trim ("<" +:+ v +:+ ">") = "<" +:+ v +:+ ">".
Proof. rewrite <- sapp_assoc. by apply trim_plain. Qed.

Lemma trim_route i : trim (record_route i) = record_route i.
Proof.
  unfold record_route.
  replace (sip_uri i +:+ ";lr>") with ((sip_uri i +:+ ";lr") +:+ ">") by by rewrite sapp_assoc.
  replace (sip_uri i +:+ ";transport=tls;lr>") with ((sip_uri i +:+ ";transport=tls;lr") +:+ ">") by by rewrite sapp_assoc.
  destruct (tls i); apply trim_bracketed.
Qed.

Lemma value_of_via n v : value_of n ("Via: " +:+ v) = if seqb "via" n then Some (trim v) else None.
Proof.
  change ("Via: " +:+ v) with ("Via" +:+ ": " +:+ v). rewrite value_of_line by done. header_names.
  change (short_form "via") with "via". by destruct (seqb "via" n).
Qed.

Lemma value_of_contact n v : value_of n ("Contact: " +:+ v) = if seqb "contact" n then Some (trim v) else None.
Proof.
  change ("Contact: " +:+ v) with ("Contact" +:+ ": " +:+ v). rewrite value_of_line by done. header_names.
  change (short_form "contact") with "contact". by destruct (seqb "contact" n).
Qed.

Lemma value_of_rr n v : value_of n ("Record-Route: " +:+ v) = if seqb "record-route" n then Some (trim v) else None.
Proof.
  change ("Record-Route: " +:+ v) with ("Record-Route" +:+ ": " +:+ v). rewrite value_of_line by done. header_names.
  change (short_form "record-route") with "record-route". by destruct (seqb "record-route" n).
Qed.

(** The values of one name after a sequence of edits. *)
Ltac hide_values :=
  header_names;
  repeat match goal with
  | |- context ["Contact: <" +:+ ?u +:+ ">"] =>
      change ("Contact: <" +:+ u +:+ ">") with ("Contact: " +:+ "<" +:+ u +:+ ">")
  end;
  repeat first
    [ rewrite values_gone | rewrite values_removed | rewrite values_app | rewrite values_kept by done
    | rewrite values_cons
    | rewrite value_of_via | rewrite value_of_contact | rewrite value_of_rr
    | match goal with |- context [seqb ?a ?b] => let r := eval vm_compute in (seqb a b) in change (seqb a b) with r end
    | progress cbv iota ].

(** A request from a peer leaves with the SBC's Via and no other, its
    Contact (when it had one) replaced by the SBC's, and without Record-Route;
    the text written reads back so, with start line and body unchanged. *)
Theorem inbound_hides_peer t raw i tr m out :
  identity_ok i -> no_lf tr = true -> parse raw = Ok m -> is_request m = true ->
  apply_topology_hiding_inbound t raw i tr = Ok out ->
  exists m', parse out = Ok m' /\
    hides i (via_header i tr (new_branch t))
      (if bool_decide (header_values "contact" m = []) then [] else ["<" +:+ contact_uri i +:+ ">"]) [] m m'.
Proof.
  intros Hi Htr Hm Hreq. assert (Hwf := parse_well_formed _ _ Hm). destruct Hwf as (Hs1 & Hs2 & Hg).
  unfold apply_topology_hiding_inbound. rewrite Hm. cbn [rbind]. rewrite Hreq. unfold decrement_max_forwards.
  destruct (decrement_in (headers m)) as [hs|] eqn:Ed; [|done]. cbn [rbind].
  assert (Hg' := decrement_good _ _ Ed Hg). assert (Hv := fun k H => decrement_values k _ _ H Ed).
  set (via := via_header i tr (new_branch t)).
  assert (Hvia : good_header ("Via: " +:+ via) = true) by (apply (good_line "Via"); try done; by apply via_no_lf).
  assert (Hc : good_header ("Contact: <" +:+ contact_uri i +:+ ">") = true).
  { apply (good_line "Contact" ("<" +:+ contact_uri i +:+ ">")); try done. rewrite !no_lf_app.
    by rewrite (proj1 (uri_no_lf i Hi)). }
  set (m4 := prepend_header _ _). assert (Hcv : header_values "contact" m4 = header_values "contact" m).
  { rewrite !header_values_of. header_names. cbn [m4 prepend_header remove_header headers set_field]. header_names.
    rewrite values_cons, value_of_via. change (seqb "via" "contact") with false. cbv iota.
    rewrite !values_kept by done. by apply Hv. }
  rewrite Hcv. intros [= <-]. eexists. split; [apply parse_render_wf|].
  - split_and!; [by case_bool_decide..|]. case_bool_decide; cbn; good_edits; done.
  - unfold hides. rewrite !header_values_of. header_names.
    case_bool_decide as Hb; split_and!; try done; cbn [m4 negb prepend_header append_header remove_header headers set_field];
      hide_values; rewrite ?trim_bracketed; unfold via; rewrite ?trim_via; try done.
    by rewrite Hv.
Qed.

(** A request that leaves toward a trunk carries the SBC's Via, Contact and
    Record-Route, one of each, and no Route; the text written reads back so,
    with start line and body unchanged. *)
Theorem outbound_hides_caller t raw i tr m out :
  identity_ok i -> no_lf tr = true -> parse raw = Ok m -> is_request m = true ->
  apply_topology_hiding_outbound t raw i tr = Ok out ->
  exists m', parse out = Ok m' /\ header_values "route" m' = [] /\
    hides i (via_header i tr (new_branch t)) ["<" +:+ contact_uri i +:+ ">"] [record_route i] m m'.
Proof.
  intros Hi Htr Hm Hreq. destruct (parse_well_formed _ _ Hm) as (Hs1 & Hs2 & Hg).
  unfold apply_topology_hiding_outbound. rewrite Hm. cbn [rbind]. rewrite Hreq.
  assert (Hd : exists hs, match decrement_max_forwards m with Ok msg => msg | Err _ => m end = m <| headers := hs |> /\
                 Forall (fun h => good_header h = true) hs).
  { unfold decrement_max_forwards. destruct (decrement_in (headers m)) as [hs|] eqn:Ed; cbn [rbind].
    - exists hs. split; [done|]. by eapply decrement_good.
    - exists (headers m). split; [by destruct m|done]. }
  destruct Hd as (hs & -> & Hg'). set (via := via_header i tr (new_branch t)).
  assert (Hvia : good_header ("Via: " +:+ via) = true) by (apply (good_line "Via"); try done; by apply via_no_lf).
  assert (Hc : good_header ("Contact: <" +:+ contact_uri i +:+ ">") = true).
  { apply (good_line "Contact" ("<" +:+ contact_uri i +:+ ">")); try done. rewrite !no_lf_app.
    by rewrite (proj1 (uri_no_lf i Hi)). }
  assert (Hr : good_header ("Record-Route: " +:+ record_route i) = true)
    by (apply (good_line "Record-Route"); try done; by apply uri_no_lf).
  intros [= <-]. eexists. split; [apply parse_render_wf|].
  - split_and!; try done. cbn. good_edits; done.
  - unfold hides. rewrite !header_values_of. header_names.
    split_and!; try done; cbn [prepend_header append_header remove_header headers set_field]; header_names;
      hide_values; rewrite ?trim_bracketed; unfold via; rewrite ?trim_via; try done.
    by rewrite trim_route.
Qed.

(** A request consumes hops: Max-Forwards 0 is refused, n becomes n - 1, and
    a request without a readable count leaves with 70. *)
Theorem hops_consumed m :
  match head (omap hops (headers m)) with
  | Some 0 => decrement_max_forwards m = Err (ETransport "Max-Forwards reached 0")
  | Some n => exists m', decrement_max_forwards m = Ok m' /\ head (omap hops (headers m')) = Some (n - 1)
  | None => exists m', decrement_max_forwards m = Ok m' /\ head (omap hops (headers m')) = Some 70
  end.
Proof.
  assert (H := decrement_first (headers m)). unfold decrement_max_forwards.
  destruct (head (omap hops (headers m))) as [[|p|p]|] eqn:E.
  1: by rewrite H.
  1, 2: destruct H as (hs & -> & Hh); by eexists.
  rewrite H. cbn [rbind]. eexists. split; [done|]. cbn [headers set_field].
  assert (omap hops (headers m) = []) as Ho by by destruct (omap hops (headers m)).
  rewrite omap_app, Ho. reflexivity.
Qed.

Lemma removed_all names : forall m,
  let m' := fold_left (fun m name => remove_header name m) names m in
  start_line m' = start_line m /\ body m' = body m /\
  headers m' = List.filter (fun h => forallb (fun n => negb (is_header (to_ascii_lowercase n) h)) names) (headers m).
Proof.
  induction names as [|n names IH]; intros m m'.
  - split_and!; try done. unfold m'. simpl. induction (headers m) as [|h hs IH]; [done|]. simpl. by rewrite <- IH.
  - unfold m'. cbn [fold_left]. destruct (IH (remove_header n m)) as (-> & -> & ->). split_and!; try done.
    simpl. induction (headers m) as [|h hs IH']; [done|]. simpl. destruct (is_header _ h); simpl; [done|].
    case_test; by rewrite IH'.
Qed.

Lemma filter_all_length {A} (f : A -> bool) l : length (List.filter f l) = length l -> List.filter f l = l.
Proof.
  induction l as [|x l IH]; [done|]. simpl. destruct (f x); simpl; intros H.
  - f_equal. apply IH. lia.
  - assert (Hl := List.filter_length_le f l). lia.
Qed.

(** Nothing an untrusted user asserts about its identity reaches a trunk:
    the request read back has exactly the headers that assert none, with start
    line and body unchanged. *)
Theorem untrusted_identity_stripped raw m :
  parse raw = Ok m ->
  parse (strip_untrusted_identity_headers raw)
  = Ok (m <| headers := List.filter
               (fun h => forallb (fun n => negb (is_header n h)) UNTRUSTED_IDENTITY_HEADERS) (headers m) |>).
Proof.
  intros Hm. unfold strip_untrusted_identity_headers. rewrite Hm.
  destruct (removed_all UNTRUSTED_IDENTITY_HEADERS m) as (Hs & Hb & Hh).
  set (m' := fold_left _ _ _) in *. set (f := fun h => forallb (fun n => negb (is_header n h)) UNTRUSTED_IDENTITY_HEADERS).
  assert (He : m' = m <| headers := List.filter f (headers m) |>).
  { revert Hs Hb Hh. generalize m'. intros [s1 h1 b1]. simpl. by intros -> -> ->. }
  destruct (Nat.eqb_spec (length (headers m')) (length (headers m))) as [El|_].
  - rewrite Hm. rewrite He in El. simpl in El. apply filter_all_length in El. rewrite El. by destruct m.
  - rewrite He. apply parse_render_wf. destruct (parse_well_formed _ _ Hm) as (H1 & H2 & H3).
    split_and!; [done|done|]. by apply good_filter.
Qed.

Lemma kept_supported values :
  kept_extensions values = [] \/
  exists t, kept_extensions values = [t] /\ eq_ignore_ascii_case "timer" t = true.
Proof.
  set (P := fun kept : list string => kept = [] \/ exists t, kept = [t] /\ eq_ignore_ascii_case "timer" t = true).
  assert (Ht : forall tokens kept, P kept -> P (fold_left keep_token tokens kept)).
  { induction tokens as [|tok tokens IH]; intros kept HP; [done|]. apply IH. unfold keep_token. cbn [SUPPORTED_EXTENSIONS existsb].
    rewrite orb_false_r. destruct (eq_ignore_ascii_case "timer" (trim tok)) eqn:E; [|done].
    destruct HP as [->|(t & -> & Hk)]; [right; eexists; done|]. cbn [existsb]. rewrite orb_false_r.
    assert (eq_ignore_ascii_case t (trim tok) = true) as ->; [|right; by eexists].
    unfold eq_ignore_ascii_case in *. apply seqb_true in E, Hk. apply seqb_true. congruence. }
  assert (H : forall kept, P kept -> P (fold_left (fun kept value => fold_left keep_token (split "," value) kept) values kept)).
  { induction values as [|v vs IH]; intros kept HP; [done|]. by apply IH, Ht. }
  apply H. by left.
Qed.

Lemma head_split_name h hn v :
  header_parts h = Some (hn, v) -> to_ascii_lowercase (trim (default "" (head (split ":" h)))) = hn.
Proof.
  unfold header_parts. destruct (find_char ":" h) as [n|] eqn:E; [|done]. intros [= <- _]. do 2 f_equal.
  revert n E. induction h as [|c h IH]; intros n; [done|]. simpl. unfold split in *. simpl.
  case_bool_decide; [by intros [= <-]|]. destruct (find_char ":" h) as [k|]; [|done]. intros [= <-]. simpl.
  rewrite <- (IH k eq_refl). by destruct (split_by _ h).
Qed.

Lemma supported_name h : is_header "supported" h = true ->
  let name := to_ascii_lowercase (trim (default "" (head (split ":" h)))) in seqb name "supported" || seqb name "k" = true.
Proof.
  intros (hn & v & Hp & Hn)%is_header_name. rewrite (head_split_name _ _ _ Hp). cbv zeta.
  destruct Hn as [->|Hn]; [done|]. destruct (seqb hn "k") eqn:E; [by rewrite orb_true_r|].
  revert Hn. unfold short_form. rewrite E. repeat (case_test; [done|]). by intros ->.
Qed.

Lemma first_supported_one hs : forall seen,
  (length (List.filter (is_header "supported") (first_supported seen hs)) <= if seen then 0 else 1)%nat.
Proof.
  induction hs as [|h hs IH]; intros seen; [destruct seen; simpl; lia|]. cbn [first_supported].
  destruct (seqb _ _ || seqb _ _) eqn:E.
  - destruct seen; [apply (IH true)|]. simpl. specialize (IH true). cbv iota in IH. destruct (is_header "supported" h); simpl; lia.
  - simpl. assert (is_header "supported" h = false) as ->; [|apply IH].
    destruct (is_header "supported" h) eqn:F; [|done]. apply supported_name in F. cbv zeta in F. congruence.
Qed.

Lemma first_supported_good seen hs :
  Forall (fun h => good_header h = true) hs -> Forall (fun h => good_header h = true) (first_supported seen hs).
Proof.
  intros H. revert seen. induction H as [|h hs Hh Hs IH]; intros seen; [constructor|]. cbn [first_supported].
  repeat case_test; try apply IH; constructor; auto.
Qed.

Lemma filter_twice_length {A} (f g : A -> bool) l :
  (length (List.filter f (List.filter g l)) <= length (List.filter f l))%nat.
Proof.
  induction l as [|x l IH]; [done|]. simpl. destruct (g x); simpl; destruct (f x); simpl; lia.
Qed.

Lemma replace_one n line v hs :
  value_of n line = Some v -> (length (List.filter (is_header n) hs) <= 1)%nat -> omap (value_of n) hs <> [] ->
  omap (value_of n) (replace_first (is_header n) line hs) = [v].
Proof.
  intros Hl. induction hs as [|h hs IH]; [done|]. cbn [replace_first List.filter]. destruct (is_header n h) eqn:E; intros Hn Hv.
  - rewrite values_cons, Hl. rewrite lacks_values; [done|]. simpl in Hn.
    apply forallb_forall. intros x Hx. destruct (is_header n x) eqn:F; [|done].
    assert (Hi : x ∈ List.filter (is_header n) hs) by (apply elem_of_filter_bool; split; [by apply list_elem_of_In|done]).
    destruct (List.filter (is_header n) hs); [by apply not_elem_of_nil in Hi|]. simpl in Hn. lia.
  - rewrite values_cons. assert (Hh : value_of n h = None) by (unfold value_of; by rewrite E).
    rewrite values_cons, Hh in Hv. rewrite Hh. by apply IH.
Qed.

Lemma lower_sall p s :
  (forall c, p (lower_char c) = true -> p c = true) -> sall p (to_ascii_lowercase s) = true -> sall p s = true.
Proof.
  intros Hp. induction s as [|c s IH]; [done|]. cbn [to_ascii_lowercase smap sall]. intros H. to_prop.
  by rewrite (Hp c HP), IH.
Qed.

Lemma timer_word t :
  eq_ignore_ascii_case "timer" t = true -> trim t = t /\ no_lf t = true /\ t <> "".
Proof.
  unfold eq_ignore_ascii_case. change (to_ascii_lowercase "timer") with "timer". intros Ht%seqb_true. split_and!.
  - apply trim_free, lower_sall; [|by rewrite <- Ht]. intros [[] [] [] [] [] [] [] []]; vm_compute; done.
  - apply lower_sall; [|by rewrite <- Ht]. intros [[] [] [] [] [] [] [] []]; vm_compute; done.
  - by intros ->.
Qed.

Lemma value_of_supported t :
  eq_ignore_ascii_case "timer" t = true ->
  value_of "supported" ("Supported: " +:+ t) = Some t /\ good_header ("Supported: " +:+ t) = true.
Proof.
  intros (Ht & Hl & Hn)%timer_word. change ("Supported: " +:+ t) with ("Supported" +:+ ": " +:+ t). split.
  - rewrite value_of_line by done. header_names. change (short_form "supported") with "supported".
    rewrite seqb_refl. cbn [orb]. by rewrite Ht.
  - by apply good_line.
Qed.

Lemma replace_good p line hs :
  good_header line = true -> Forall (fun h => good_header h = true) hs ->
  Forall (fun h => good_header h = true) (replace_first p line hs).
Proof.
  intros Hl. induction 1 as [|h hs Hh Hs IH]; cbn [replace_first]; [by repeat constructor|].
  case_match; by constructor.
Qed.

(** A peer never negotiates an extension the SBC does not implement: the
    request read back offers exactly the offered extensions it implements, each
    once, and nothing else in start line and body changes. *)
Theorem extensions_negotiated raw m :
  parse raw = Ok m ->
  exists m', parse (strip_unsupported_extensions raw) = Ok m' /\
    start_line m' = start_line m /\ body m' = body m /\
    header_values "supported" m' = kept_extensions (header_values "supported" m) /\
    Forall (fun t => eq_ignore_ascii_case "timer" t = true) (header_values "supported" m').
Proof.
  intros Hm. destruct (parse_well_formed _ _ Hm) as (H1 & H2 & H3).
  unfold strip_unsupported_extensions. rewrite Hm. cbv zeta.
  destruct (bool_decide (header_values "supported" m = [])) eqn:Eb.
  { apply bool_decide_eq_true in Eb. exists m. rewrite Eb. by split_and!. }
  destruct (kept_supported (header_values "supported" m)) as [Hk|(t & Hk & Ht)]; rewrite Hk.
  - rewrite bool_decide_true by done. eexists. split; [apply parse_render_wf|].
    + split_and!; [done..|]. by apply good_filter, good_filter.
    + assert (header_values "supported" (remove_header "k" (remove_header "supported" m)) = []) as ->; [|by split_and!].
      rewrite header_values_of. header_names. cbn [remove_header headers set_field]. header_names. apply values_gone.
  - rewrite bool_decide_false by done. unfold join, String.concat. cbv iota.
    destruct (value_of_supported t Ht) as [Hv Hg]. set (hs := first_supported false (headers m)).
    set (m1 := remove_header "k" _).
    assert (Hg1 : Forall (fun h => good_header h = true) (headers m1)) by by apply good_filter, first_supported_good.
    assert (Hone : (length (List.filter (is_header "supported") (headers m1)) <= 1)%nat).
    { etransitivity; [apply filter_twice_length|]. apply (first_supported_one (headers m) false). }
    assert (Hgood : well_formed (if bool_decide (header_values "supported" m1 = [])
                then append_header ("Supported: " +:+ t) m1 else set_header "Supported" t m1)).
    { destruct (bool_decide (header_values "supported" m1 = [])); split_and!; try done; [apply Forall_app_2; [done|by repeat constructor]|by apply replace_good]. }
    assert (Hfin : header_values "supported" (if bool_decide (header_values "supported" m1 = [])
                then append_header ("Supported: " +:+ t) m1 else set_header "Supported" t m1) = [t]).
    { destruct (bool_decide (header_values "supported" m1 = [])) eqn:Ec; to_prop; rewrite header_values_of in *;
        revert Ec; header_names; intros Ec; cbn [append_header set_header headers set_field].
      - rewrite values_app, Ec, values_cons, Hv. done.
      - header_names. by apply replace_one. }
    eexists. split; [by apply parse_render_wf|]. rewrite Hfin. split_and!; try done;
      [by destruct (bool_decide (header_values "supported" m1 = []))..|by repeat constructor].
Qed.

(** ** Lemmas: the header lines are in the text *)

Lemma contains_app p a b : contains p (a +:+ p +:+ b) = true.
Proof.
  assert (Hp : starts_with p (p +:+ b) = true) by (apply starts_with_spec; by eexists).
  induction a as [|c a IH].
  - change ("" +:+ p +:+ b) with (p +:+ b). destruct (p +:+ b) eqn:E; simpl; by rewrite Hp.
  - rewrite sapp_cons. simpl. by rewrite IH, orb_true_r.
Qed.

Lemma later_piece p s l :
  l ∈ tail (split_by p s) -> exists a c b, s = a +:+ String c (l +:+ b) /\ p c = true.
Proof.
  induction s as [|c s IH]; [intros H; by apply not_elem_of_nil in H|]. rewrite split_by_step.
  destruct (p c) eqn:E; cbn [tail].
  - intros H. destruct (split_by p s) as [|w ws] eqn:Es; [by apply not_elem_of_nil in H|].
    apply elem_of_cons in H as [->|H].
    + assert (Hw : exists b, s = w +:+ b).
      { clear -Es. revert w ws Es. induction s as [|d s IH]; intros w ws; simpl; [intros [= <- _]; by exists ""|].
        destruct (p d); [intros [= <- _]; by eexists|]. destruct (split_by p s) as [|w' ws']; intros [= <- _]; [by eexists|].
        destruct (IH _ _ eq_refl) as [b ->]. by exists b. }
      destruct Hw as [b ->]. by exists "", c, b.
    + destruct (IH H) as (a & d & b & -> & Hd). by exists (String c a), d, b.
  - intros H. destruct (split_by p s) as [|w ws]; [by apply not_elem_of_nil in H|]. cbn [push_char tail] in *.
    destruct (IH H) as (a & d & b & -> & Hd). by exists (String c a), d, b.
Qed.

Lemma strip_cr_prefix l : exists b, l = strip_cr l +:+ b.
Proof.
  unfold strip_cr. destruct (rfind_char _ l) as [n|]; [|exists ""; by rewrite sapp_nil_r].
  case_test; [|exists ""; by rewrite sapp_nil_r]. exists (sdrop n l). by rewrite stake_sdrop.
Qed.

Lemma lines_of_tail pieces l : l ∈ tail (lines_of pieces) -> exists w b, w ∈ tail pieces /\ w = l +:+ b.
Proof.
  intros H. destruct pieces as [|w ws]; [by apply not_elem_of_nil in H|]. cbn [tail].
  destruct ws as [|w' ws]; [cbn [lines_of] in H; case_test; by apply not_elem_of_nil in H|].
  change (lines_of (w :: w' :: ws)) with (strip_cr w :: lines_of (w' :: ws)) in H. cbn [tail] in H.
  revert H. generalize (w' :: ws). clear. induction l0 as [|x ls IH]; intros H; [by apply not_elem_of_nil in H|].
  cbn [lines_of] in H. destruct ls as [|y ls].
  - case_test; [by apply not_elem_of_nil in H|]. apply list_elem_of_singleton in H as ->.
    exists x, "". rewrite sapp_nil_r. split; [left|done].
  - apply elem_of_cons in H as [->|H].
    + destruct (strip_cr_prefix x) as [b Hb]. exists x, b. split; [left|done].
    + destruct (IH H) as (w & b & Hw & E). exists w, b. split; [by right|done].
Qed.

Lemma collect_heads current ls h :
  h ∈ collect current ls ->
  exists l r, (l ∈ ls \/ current = Some l) /\ h = l +:+ r /\ (r = "" \/ exists r', r = String " " r').
Proof.
  revert current. induction ls as [|l ls IH]; intros current.
  - destruct current as [c|]; simpl; intros H; [|by apply not_elem_of_nil in H].
    apply list_elem_of_singleton in H as ->. exists c, "". rewrite sapp_nil_r. auto.
  - simpl. assert (Hcur : h ∈ option_list current -> exists l0 r, (l0 ∈ l :: ls \/ current = Some l0) /\
      h = l0 +:+ r /\ (r = "" \/ exists r', r = String " " r')).
    { destruct current as [c|]; simpl; intros H; [|by apply not_elem_of_nil in H].
      apply list_elem_of_singleton in H as ->. exists c, "". rewrite sapp_nil_r. auto. }
    destruct (is_folded l); [|destruct (seqb l "")].
    + intros (l0 & r & [Hl|Hc] & -> & Hr)%IH; [exists l0, r; split_and!; auto; left; by right|].
      destruct current as [c|]; [|done]. injection Hc as <-. rewrite sapp_assoc. exists c. eexists.
      split_and!; [by right|done|]. right. by eexists.
    + intros [H|(l0 & r & [Hl|Hc] & -> & Hr)%IH]%elem_of_app; [auto| |done].
      exists l0, r. split_and!; auto. left. by right.
    + intros [H|(l0 & r & [Hl|Hc] & -> & Hr)%IH]%elem_of_app; [auto| |].
      * exists l0, r. split_and!; auto. left. by right.
      * injection Hc as <-. exists l, r. split_and!; auto. left. left.
Qed.

Lemma lower_app a b : to_ascii_lowercase (a +:+ b) = to_ascii_lowercase a +:+ to_ascii_lowercase b.
Proof. induction a as [|c a IH]; [done|]. rewrite sapp_cons. cbn [to_ascii_lowercase smap] in *. by rewrite IH. Qed.

Lemma starts_with_longer p a r :
  free_of " " p = true -> (r = "" \/ exists r', r = String " " r') ->
  starts_with p (a +:+ r) = true -> starts_with p a = true.
Proof.
  intros Hp Hr. revert a. induction p as [|c p IH]; [by destruct a|]. intros a H. rewrite free_of_cons in Hp. to_prop.
  unfold starts_with in *. destruct a as [|d a].
  - change ("" +:+ r) with r in H. destruct Hr as [->|[r' ->]]; [done|]. simpl in H.
    rewrite bool_decide_false in H by done. done.
  - rewrite sapp_cons in H. simpl in *. case_bool_decide; [|done]. by apply IH.
Qed.

Lemma header_in_text raw m h p :
  parse raw = Ok m -> h ∈ headers m -> free_of " " p = true ->
  starts_with p (to_ascii_lowercase h) = true -> contains (String LF p) (to_ascii_lowercase raw) = true.
Proof.
  unfold parse. destruct (split_head raw) as [hp b] eqn:Es.
  assert (Hraw : exists r, raw = hp +:+ r).
  { assert (Ht : forall n s, exists r, s = stake n s +:+ r) by (intros n s; exists (sdrop n s); by rewrite stake_sdrop).
    unfold split_head in Es. repeat case_match; injection Es as <- <-; try apply Ht. exists "". by rewrite sapp_nil_r. }
  destruct (split_by is_eol hp) as [|w ws]; [done|]. cbn [head ok_or rbind]. intros [= <-] Hh Hp Hs. cbn [headers] in Hh.
  apply collect_heads in Hh as (l & r & [Hl|Hl] & -> & Hr); [|done].
  rewrite lower_app in Hs. apply starts_with_longer in Hs; [|done|].
  2: { destruct Hr as [->|[r' ->]]; [by left|right]. by eexists. }
  apply lines_of_tail in Hl as (w' & b' & Hw & ->). apply later_piece in Hw as (a & c & b'' & -> & Hc).
  apply bool_decide_eq_true in Hc as ->. destruct Hraw as [r' ->]. apply starts_with_spec in Hs as [u Hu].
  rewrite !lower_app. change (to_ascii_lowercase (String "010" ((l +:+ b') +:+ b'')))
    with (String LF (to_ascii_lowercase ((l +:+ b') +:+ b''))).
  rewrite !lower_app, Hu, sapp_assoc, sapp_cons, !sapp_assoc.
  exact (contains_app (String LF p) _ (u +:+ to_ascii_lowercase b' +:+ to_ascii_lowercase b'' +:+ to_ascii_lowercase r')).
Qed.

Lemma lower_starts n h :
  starts_with (n +:+ ":") (to_ascii_lowercase h) = true ->
  exists a b, h = a +:+ String ":" b /\ to_ascii_lowercase a = n.
Proof.
  revert h. induction n as [|c n IH]; intros [|d h]; try done.
  - change ("" +:+ ":") with ":". unfold starts_with. simpl. case_bool_decide as E; [|done]. intros _.
    exists "", h. split; [|done]. change ("" +:+ String ":" h) with (String ":" h). f_equal.
    revert E. destruct d as [[] [] [] [] [] [] [] []]; vm_compute; congruence.
  - rewrite sapp_cons. unfold starts_with. simpl. case_bool_decide as E; [|done]. intros H.
    destruct (IH h H) as (a & b & -> & Ha). exists (String d a), b. split; [done|]. cbn. congruence.
Qed.

Lemma lower_named n h :
  sall (fun c => negb (Ascii.is_space c)) n = true -> free_of ":" n = true ->
  starts_with (n +:+ ":") (to_ascii_lowercase h) = true -> is_header n h = true.
Proof.
  intros Hs Hc (a & b & -> & Ha)%lower_starts. unfold is_header, header_parts.
  assert (H1 : free_of ":" a = true).
  { rewrite <- Ha in Hc. revert Hc. apply lower_sall. intros [[] [] [] [] [] [] [] []]; vm_compute; done. }
  assert (H2 : sall (fun c => negb (Ascii.is_space c)) a = true).
  { rewrite <- Ha in Hs. revert Hs. apply lower_sall. intros [[] [] [] [] [] [] [] []]; vm_compute; done. }
  rewrite find_char_app, stake_app, trim_free, Ha by done. by rewrite seqb_refl.
Qed.

(** A caller's digest credentials do not leave the SBC: no header line of
    the forwarded request is an Authorization or Proxy-Authorization, in any
    case, with its colon right after the name. *)
Theorem credentials_stripped raw m h p :
  parse (strip_credentials raw) = Ok m -> h ∈ headers m ->
  p = "authorization" \/ p = "proxy-authorization" ->
  starts_with (p +:+ ":") (to_ascii_lowercase h) = false.
Proof.
  intros Hm Hh Hp. destruct (starts_with (p +:+ ":") (to_ascii_lowercase h)) eqn:Es; [exfalso|done].
  revert Hm. unfold strip_credentials. destruct (negb _ && negb _) eqn:Et.
  - intros Hm. eapply header_in_text in Es; [|exact Hm|done|by destruct Hp as [->| ->]]. to_prop.
    destruct Hp as [->| ->]; [change (_ = true) with (contains (String LF "authorization:") (to_ascii_lowercase raw) = true) in Es
                            |change (_ = true) with (contains (String LF "proxy-authorization:") (to_ascii_lowercase raw) = true) in Es];
      congruence.
  - destruct (parse raw) as [m0|] eqn:E0; [|destruct (parse_total raw); congruence].
    destruct (parse_well_formed _ _ E0) as (H1 & H2 & H3).
    rewrite parse_render_wf by (split_and!; [done|done|by apply good_filter, good_filter]).
    intros [= <-]. revert Hh. simpl. header_names. rewrite !elem_of_filter_bool. intros [[_ Ha] Hpa].
    apply lower_named in Es; [|by destruct Hp as [->| ->]..]. to_prop. destruct Hp as [->| ->]; congruence.
Qed.

(** A space before the colon, which the grammar allows, hides the header from
    the first test: the credentials travel on. *)
Example spaced_credentials_forwarded :
  let raw := unlines ["INVITE sip:b@h SIP/2.0"; "Via: SIP/2.0/UDP h;branch=z9hG4bKx";
                      "Authorization : Digest username=alice"] CRLF in
  strip_credentials raw = raw /\
  header_values "authorization" <$> (match parse raw with Ok m => Some m | Err _ => None end)
  = Some ["Digest username=alice"].
Proof. vm_compute. done. Qed.

(** ** Witnesses *)

Module Witness.

Definition sbc : SbcIdentity := mkIdentity "203.0.113.1" "sip.nixi.tel" 5060 false.

Definition invite : string :=
  unlines ["INVITE sip:bob@example.com SIP/2.0"; "v: SIP/2.0/UDP 192.168.1.100:5060;branch=z9hG4bK1234";
           "Via: SIP/2.0/UDP 10.0.0.1:5060;branch=z9hG4bKabcd"; "From: Alice"; " <sip:alice@example.com>;tag=1";
           "Max-Forwards: 70"; "m: <sip:alice@192.168.1.100:5060>"; "Record-Route: <sip:proxy.atlanta.com;lr>";
           "Route: <sip:in.corp;lr>"; "Supported: 100rel, Timer"; "k: gruu"; "P-Asserted-Identity: <sip:ceo@h>";
           "Proxy-Authorization: Digest username=alice"] (CRLF +:+ "Test").

Definition parsed : RawSipMessage := match parse invite with Ok m => m | Err _ => mkMsg "" [] "" end.

Lemma parsed_eq : parse invite = Ok parsed.
Proof. vm_compute. reflexivity. Defined.

Lemma identity_good : identity_ok sbc.
Proof. split; [|split]; vm_compute; congruence. Defined.

Lemma raw_message_round_trip_witness : length (headers parsed) = 11%nat /\ parse (render parsed) = Ok parsed.
Proof. split; [vm_compute; reflexivity|]. exact (proj2 (raw_message_round_trip invite parsed) parsed_eq). Defined.

Lemma inbound_hides_peer_witness :
  exists out m', apply_topology_hiding_inbound 7 invite sbc "UDP" = Ok out /\ parse out = Ok m' /\
    header_values "via" m' = ["SIP/2.0/UDP 203.0.113.1:5060;branch=z9hG4bK00000007"] /\
    header_values "contact" m' = ["<sip:sbc@203.0.113.1:5060>"].
Proof.
  destruct (apply_topology_hiding_inbound 7 invite sbc "UDP") as [out|e] eqn:E; [|vm_compute in E; discriminate].
  destruct (inbound_hides_peer 7 invite sbc "UDP" parsed out identity_good eq_refl parsed_eq eq_refl E)
    as (m' & Hp & _ & _ & Hv & Hc & _).
  exists out, m'. split; [reflexivity|]. split; [exact Hp|]. split; [exact Hv|exact Hc].
Defined.

Lemma outbound_hides_caller_witness :
  exists out m', apply_topology_hiding_outbound 7 invite sbc "UDP" = Ok out /\ parse out = Ok m' /\
    header_values "route" m' = [] /\ header_values "record-route" m' = ["<sip:sip.nixi.tel;lr>"].
Proof.
  destruct (apply_topology_hiding_outbound 7 invite sbc "UDP") as [out|e] eqn:E; [|vm_compute in E; discriminate].
  destruct (outbound_hides_caller 7 invite sbc "UDP" parsed out identity_good eq_refl parsed_eq eq_refl E)
    as (m' & Hp & Hr & _ & _ & _ & _ & Hrr).
  exists out, m'. split; [reflexivity|]. split; [exact Hp|]. split; [exact Hr|exact Hrr].
Defined.

Lemma untrusted_identity_stripped_witness :
  exists m', parse (strip_untrusted_identity_headers invite) = Ok m' /\ length (headers m') = 10%nat.
Proof. eexists. split; [exact (untrusted_identity_stripped invite parsed parsed_eq)|vm_compute; reflexivity]. Defined.

Lemma extensions_negotiated_witness :
  exists m', parse (strip_unsupported_extensions invite) = Ok m' /\ header_values "supported" m' = ["Timer"].
Proof.
  destruct (extensions_negotiated invite parsed parsed_eq) as (m' & Hp & _ & _ & Hv & _).
  exists m'. split; [exact Hp|]. rewrite Hv. vm_compute. reflexivity.
Defined.

Lemma credentials_stripped_witness :
  exists m', parse (strip_credentials invite) = Ok m' /\
    forall h, h ∈ headers m' -> starts_with "proxy-authorization:" (to_ascii_lowercase h) = false.
Proof.
  destruct (parse (strip_credentials invite)) as [m'|e] eqn:E; [|vm_compute in E; discriminate].
  exists m'. split; [reflexivity|]. intros h Hh.
  exact (credentials_stripped invite m' h "proxy-authorization" E Hh (or_intror eq_refl)).
Defined.

End Witness.
