(* ===== verification/InviteTx.v ===== *)
(** * INVITE server transactions (sbc/invite_tx.rs)

    The memory of received INVITEs: a retransmission gets the last response
    again and nothing else, and a final the SBC generated over UDP is resent
    until its ACK. The parsed request of [rsip] is given by the headers the
    code reads. *)

From S2P Require Import Prelude Str Bytes Net Topology.

Definition FINAL_ABSORB : Z := secs 32.
Definition PENDING_ABSORB : Z := secs 180.
Definition MAX_ENTRIES : Z := 10000.
Definition TIMER_T1 : Z := millis 500.
Definition TIMER_T2 : Z := secs 4.
Definition MAX_RETRANSMITS : Z := 9.

Record Retransmit := mkRetransmit {
  dest : SocketAddr;
  transport : Transport;
  reply_tx : option nat;
  next_at : Z;
  interval : Z;
  sent : Z
}.

Record TxEntry := mkEntry {
  last_response : option string;
  first_seen : Z;
  final_at : option Z;
  is_acked : bool;
  retransmit : option Retransmit
}.

#[export] Instance eta_retransmit : Eta Retransmit := fun r =>
  mkRetransmit (dest r) (transport r) (reply_tx r) (next_at r) (interval r) (sent r).
#[export] Instance eta_entry : Eta TxEntry := fun e =>
  mkEntry (last_response e) (first_seen e) (final_at e) (is_acked e) (retransmit e).

Abbreviation InviteTxCache := (gmap string TxEntry).

(** ** Keys *)

Definition param_end (c : ascii) : bool := bool_decide (c ∈ [";"; ","; " "; ">"]%char).

Definition param_of (value name : string) : option string :=
  pos ← find_str (name +:+ "=") (to_ascii_lowercase value);
  let rest := sdrop (pos + String.length (name +:+ "=")) value in
  let v := trim (stake (default (String.length rest) (find_by param_end rest)) rest) in
  if seqb v "" then None else Some v.

Definition key (branch call_id from_tag cseq : string) : string :=
  branch +:+ "|" +:+ call_id +:+ "|" +:+ from_tag +:+ "|" +:+ cseq.

(** What the code reads of an [rsip::Request]: every header as text, and the
    values of three of them. *)
Record RequestHeaders := mkRequest {
  rq_headers : list string;
  rq_call_id : option string;
  rq_from : option string;
  rq_cseq : option string
}.

Definition via_value (line : string) : option string :=
  let lower := to_ascii_lowercase line in
  if starts_with "via:" lower then Some (trim (sdrop 4 line))
  else if starts_with "v:" lower then Some (trim (sdrop 2 line))
  else None.

Definition find_map {A B} (f : A -> option B) (l : list A) : option B := head (omap f l).

Definition key_of_request (r : RequestHeaders) : option string :=
  via ← find_map via_value (rq_headers r);
  branch ← param_of via "branch";
  call_id ← rq_call_id r;
  from ← rq_from r;
  let from_tag := default "" (param_of from "tag") in
  cseq_value ← rq_cseq r;
  cseq ← head (split_whitespace cseq_value);
  Some (key branch call_id from_tag cseq).

Definition key_of_response (raw : string) : option (string * Z) :=
  if negb (starts_with "SIP/2.0 " raw) then None
  else
    match parse raw with
    | Err _ => None
    | Ok msg =>
        cseq_line ← head (header_values "cseq" msg);
        cseq ← head (split_whitespace cseq_line);
        m ← head (tail (split_whitespace cseq_line));
        if negb (eq_ignore_ascii_case m "INVITE") then None
        else
          via ← head (header_values "via" msg);
          branch ← param_of via "branch";
          call_id ← head (header_values "call-id" msg);
          let from_tag := default "" (f ← head (header_values "from" msg); param_of f "tag") in
          code ← head (tail (split_whitespace raw));
          status ← parse_uint u16_max code;
          Some (key branch call_id from_tag cseq, status)
    end.

(** ** Operations *)

Section cache.
Context {HI : HashIter string TxEntry}.

Definition older (a b : string * TxEntry) : bool := first_seen a.2 <? first_seen b.2.

Definition make_room (entries : InviteTxCache) : InviteTxCache :=
  if MAX_ENTRIES <=? Z.of_nat (size entries) then
    match min_by older (hiter entries) with
    | Some oldest => delete oldest.1 entries
    | None => entries
    end
  else entries.

Definition begin (now : Z) (key : string) (entries : InviteTxCache)
    : result (option string) unit * InviteTxCache :=
  match entries !! key with
  | Some e => (Err (last_response e), entries)
  | None => (Ok tt, <[key := mkEntry None now None false None]> (make_room entries))
  end.

Definition with_response (now : Z) (response : string) (status : Z) (d : SocketAddr) (t : Transport)
    (r : option nat) (e : TxEntry) : TxEntry :=
  let e := e <| last_response := Some response |> in
  let e := if (200 <=? status) && bool_decide (final_at e = None) then e <| final_at := Some now |> else e in
  if (300 <=? status) && bool_decide (t = Udp) && negb (is_acked e) && bool_decide (retransmit e = None)
  then e <| retransmit := Some (mkRetransmit d t r (now + TIMER_T1) TIMER_T1 0) |>
  else e.

Definition record_sent (now : Z) (key response : string) (status : Z) (d : SocketAddr) (t : Transport)
    (r : option nat) (entries : InviteTxCache) : InviteTxCache :=
  alter (with_response now response status d t r) key entries.

Definition acked (key : string) (entries : InviteTxCache) : InviteTxCache :=
  alter (fun e => e <| is_acked := true |> <| retransmit := None |>) key entries.

(** One entry at [now]: what is resent, and the entry afterwards. *)
Definition fire (now : Z) (e : TxEntry) : option (string * Retransmit) * TxEntry :=
  match retransmit e with
  | None => (None, e)
  | Some r =>
      if now <? next_at r then (None, e)
      else if MAX_RETRANSMITS <=? sent r then (None, e <| retransmit := None |>)
      else
        let i := Z.min (interval r * 2) TIMER_T2 in
        ((fun data => (data, r)) <$> last_response e,
         e <| retransmit := Some (r <| sent := sent r + 1 |> <| interval := i |> <| next_at := now + i |>) |>)
  end.

Definition due_retransmissions (now : Z) (entries : InviteTxCache)
    : list (string * SocketAddr * Transport * option nat) * InviteTxCache :=
  (omap (fun ke => (fun dr => (dr.1, dest dr.2, transport dr.2, reply_tx dr.2)) <$> (fire now ke.2).1)
     (hiter entries),
   (fun e => (fire now e).2) <$> entries).

Definition absorbs (now : Z) (e : TxEntry) : bool :=
  match final_at e with
  | Some f => duration_since now f <? FINAL_ABSORB
  | None => duration_since now (first_seen e) <? PENDING_ABSORB
  end.

Definition prune_at (now : Z) (entries : InviteTxCache) : nat * InviteTxCache :=
  let kept := filter (fun ke => absorbs now ke.2 = true) entries in
  ((size entries - size kept)%nat, kept).

(** ** Runs *)

Inductive Op :=
  | Begin (now : Z) (key : string)
  | RecordSent (now : Z) (key response : string) (status : Z) (d : SocketAddr) (t : Transport) (r : option nat)
  | Acked (key : string)
  | Poll (now : Z)
  | Prune (now : Z).

Definition apply_op (entries : InviteTxCache) (o : Op) : InviteTxCache :=
  match o with
  | Begin now k => (begin now k entries).2
  | RecordSent now k resp st d t r => record_sent now k resp st d t r entries
  | Acked k => acked k entries
  | Poll now => (due_retransmissions now entries).2
  | Prune now => (prune_at now entries).2
  end.

Definition begins (o : Op) : bool := match o with Begin _ _ => true | _ => false end.
Definition begins_key (k : string) (o : Op) : bool := match o with Begin _ k' => seqb k' k | _ => false end.

(** ** Lemmas *)

(** The interval after [n] resends. *)
Definition interval_after (n : Z) : Z := Z.min (TIMER_T1 * 2 ^ n) TIMER_T2.

Definition armed_ok (e : TxEntry) (r : Retransmit) : Prop :=
  transport r = Udp /\ is_acked e = false /\ is_Some (last_response e) /\ is_Some (final_at e) /\
  0 <= sent r <= MAX_RETRANSMITS /\ interval r = interval_after (sent r).

Definition entry_ok (e : TxEntry) : Prop := forall r, retransmit e = Some r -> armed_ok e r.

Lemma with_response_ok now resp st d t r e : entry_ok e -> entry_ok (with_response now resp st d t r e).
Proof.
  intros He. unfold with_response. cbv zeta. set (e1 := if (200 <=? st) && _ then _ else _).
  assert (H1 : retransmit e1 = retransmit e /\ is_acked e1 = is_acked e /\ is_Some (last_response e1) /\
    (is_Some (final_at e) \/ 200 <= st -> is_Some (final_at e1))).
  { unfold e1. destruct (200 <=? st) eqn:E2; to_prop; destruct (final_at e) as [f|] eqn:Ef; cbn; rewrite ?Ef;
      (split_and!; [done|done|eauto|intros [[]|]; eauto; lia]). }
  destruct H1 as (Hr & Ha & Hl & Hf). generalize dependent e1. intros e1 Hr Ha Hl Hf.
  destruct (_ && bool_decide (retransmit e1 = None)) eqn:Ec; intros r' Hr'.
  - to_prop. cbn in Hr'. injection Hr' as <-. unfold armed_ok. cbn. split_and!; try done. apply Hf. right. lia.
  - rewrite Hr in Hr'. destruct (He r' Hr') as (H1 & H2 & _ & H4 & H5 & H6). unfold armed_ok. rewrite Ha.
    split_and!; auto; lia.
Qed.

Lemma fire_ok now e : entry_ok e -> entry_ok (fire now e).2.
Proof.
  intros He. unfold fire. destruct (retransmit e) as [r|] eqn:Er; [|done].
  destruct (now <? next_at r); [done|]. destruct (He r Er) as (H1 & H2 & H3 & H4 & H5 & H6).
  destruct (MAX_RETRANSMITS <=? sent r) eqn:Es; intros r' [= <-]. to_prop. unfold armed_ok. cbn.
  split_and!; try done; [lia|unfold MAX_RETRANSMITS in *; lia|]. rewrite H6. unfold interval_after, MAX_RETRANSMITS in *.
  replace (2 ^ (sent r + 1)) with (2 ^ sent r * 2) by (rewrite Z.pow_add_r by lia; lia). unfold TIMER_T1, TIMER_T2, millis, secs. lia.
Qed.

Definition cache_ok (entries : InviteTxCache) : Prop :=
  Z.of_nat (size entries) <= MAX_ENTRIES /\ map_Forall (fun _ => entry_ok) entries.

Lemma invite_cache_sub (m m' : InviteTxCache) : m' ⊆ m -> cache_ok m -> cache_ok m'.
Proof.
  intros Hs [Hz He]. split.
  - assert (size m' <= size m)%nat by by apply map_subseteq_size. lia.
  - intros k e Hk. eapply He, lookup_weaken; eauto.
Qed.

Lemma alter_size (f : TxEntry -> TxEntry) k (m : InviteTxCache) : size (alter f k m) = size m.
Proof. rewrite <- !(size_dom (D := gset string)). by rewrite dom_alter_L. Qed.

Lemma alter_ok (f : TxEntry -> TxEntry) k m : (forall e, entry_ok e -> entry_ok (f e)) -> cache_ok m -> cache_ok (alter f k m).
Proof.
  intros Hf [Hz He]. split; [by rewrite alter_size|]. intros k' e.
  rewrite lookup_alter_Some. intros [(-> & e0 & Hk & ->)|[_ Hk]]; [apply Hf|]; by eapply He.
Qed.

Lemma make_room_sub m : make_room m ⊆ m.
Proof. unfold make_room. repeat case_match; try done. apply delete_subseteq. Qed.

Lemma make_room_fits m : Z.of_nat (size m) <= MAX_ENTRIES -> Z.of_nat (size (make_room m)) < MAX_ENTRIES.
Proof.
  intros H. unfold make_room. case_test; to_prop; [|done]. destruct (min_by older (hiter m)) as [[k e]|] eqn:E.
  - apply min_by_elem, elem_of_hiter in E. cbn [fst]. rewrite map_size_delete_Some by eauto.
    unfold MAX_ENTRIES in *. lia.
  - apply min_by_none, hiter_nil in E as ->. done.
Qed.

Lemma tx_op_ok m o : cache_ok m -> cache_ok (apply_op m o).
Proof.
  intros H. destruct o as [now k|now k resp st d t r|k|now|now]; unfold apply_op, due_retransmissions, prune_at; cbn [snd].
  - unfold begin. destruct (m !! k) as [e|] eqn:Ek; [done|]. cbn [snd].
    destruct (invite_cache_sub _ _ (make_room_sub m) H) as [_ He]. split.
    + assert (Hs := make_room_fits m (proj1 H)). rewrite map_size_insert. case_match; unfold id; lia.
    + by apply map_Forall_insert_2.
  - apply alter_ok; [intros e; apply with_response_ok|done].
  - apply alter_ok; [|done]. intros e _ r. done.
  - destruct H as [Hz He]. split; [by rewrite map_size_fmap|].
    intros k e. rewrite lookup_fmap, fmap_Some. intros (e0 & Hk & ->). apply fire_ok. by eapply He.
  - eapply invite_cache_sub; [apply map_filter_subseteq|done].
Qed.

(** The memory of INVITEs is bounded, and a final is resent only over UDP,
    only before its ACK, at most nine times a piece, at intervals that double
    from 500 ms up to 4 s. *)
Theorem invite_tx_bounded ops now :
  let m := fold_left apply_op ops ∅ in
  Z.of_nat (size m) <= MAX_ENTRIES /\
  forall x, x ∈ (due_retransmissions now m).1 ->
    exists k e r, m !! k = Some e /\ retransmit e = Some r /\ is_acked e = false /\
      last_response e = Some x.1.1.1 /\ x.1.2 = Udp /\ next_at r <= now /\
      0 <= sent r < MAX_RETRANSMITS /\ interval r = interval_after (sent r).
Proof.
  intros m. assert (H : cache_ok m).
  { unfold m. assert (H0 : cache_ok ∅) by (split; [done|by intros ??]).
    revert H0. generalize (∅ : InviteTxCache). induction ops as [|o ops IH]; intros m0 Hm; [done|].
    apply IH. by apply tx_op_ok. }
  destruct H as [Hz He]. split; [done|]. intros x. unfold due_retransmissions. cbn [fst].
  intros ([k e] & Hi & Hx)%list_elem_of_omap. apply elem_of_hiter in Hi. specialize (He k e Hi).
  cbn [snd] in Hx. unfold fire in Hx. destruct (retransmit e) as [r|] eqn:Er; [|done].
  destruct (now <? next_at r) eqn:En; [done|]. destruct (MAX_RETRANSMITS <=? sent r) eqn:Es; [done|].
  destruct (He r Er) as (H1 & H2 & H3 & H4 & H5 & H6). destruct (last_response e) as [l|] eqn:El; [|done].
  injection Hx as <-. to_prop. exists k, e, r. split_and!; try done; lia.
Qed.

(** The ACK ends the resending of its final for good: until the INVITE
    begins a new transaction, whatever is recorded, polled or pruned, nothing
    is sent for it. *)
Theorem acked_is_silent ops m k now :
  forallb (fun o => negb (begins_key k o)) ops = true ->
  forall e, fold_left apply_op ops (acked k m) !! k = Some e -> (fire now e).1 = None.
Proof.
  set (P := fun m : InviteTxCache => forall e, m !! k = Some e -> is_acked e = true /\ retransmit e = None).
  assert (H0 : P (acked k m)).
  { intros e. unfold acked. rewrite lookup_alter_eq, fmap_Some. intros (e0 & _ & ->). done. }
  assert (Halter : forall f k' m, (forall e, is_acked e = true /\ retransmit e = None ->
      is_acked (f e) = true /\ retransmit (f e) = None) -> P m -> P (alter f k' m)).
  { intros f k' m' Hf HP e. rewrite lookup_alter_Some. intros [(-> & e0 & Hk & ->)|[_ Hk]]; [apply Hf|]; by apply HP. }
  assert (Hstep : forall m o, begins_key k o = false -> P m -> P (apply_op m o)).
  { intros m' o Ho HP. destruct o as [n k'|n k' resp st d t r|k'|n|n]; unfold apply_op, due_retransmissions, prune_at; cbn [snd].
    - cbn in Ho. unfold begin. destruct (m' !! k'); [done|]. cbn [snd]. intros e. rewrite lookup_insert_Some.
      intros [[-> _]|[_ Hk]]; [by rewrite seqb_refl in Ho|]. apply HP. by eapply lookup_weaken; [|apply make_room_sub].
    - apply Halter; [|done]. intros [lr fs fa ak rt]. cbn. intros [-> ->]. unfold with_response. cbn.
      destruct (200 <=? st), (300 <=? st), (bool_decide (t = Udp)), fa; done.
    - by apply Halter.
    - intros e. rewrite lookup_fmap, fmap_Some. intros (e0 & Hk & ->). destruct (HP e0 Hk) as [Ha Hr].
      unfold fire. by rewrite Hr.
    - intros e Hk. apply map_lookup_filter_Some in Hk as [Hk _]. by apply HP. }
  intros Hops. assert (HP : P (fold_left apply_op ops (acked k m))).
  { revert H0 Hops. generalize (acked k m). induction ops as [|o ops IH]; intros m0 H0; [done|]. cbn [forallb fold_left].
    intros Ho. to_prop. apply IH; [|done]. by apply Hstep. }
  intros e He. destruct (HP e He) as [_ Hr]. unfold fire. by rewrite Hr.
Qed.

(** The last response recorded for [k]. *)
Fixpoint last_recorded (k : string) (ops : list Op) (l : option string) : option string :=
  match ops with
  | [] => l
  | RecordSent _ k' resp _ _ _ _ :: ops => last_recorded k ops (if seqb k' k then Some resp else l)
  | _ :: ops => last_recorded k ops l
  end.

(** Times of a run: responses follow the INVITE, and pruning at [t] is allowed
    by [p]. *)
Definition timely (first : Z) (o : Op) : Prop :=
  match o with
  | RecordSent now _ _ _ _ _ _ => first <= now
  | Prune now => now < first + FINAL_ABSORB
  | _ => True
  end.

Definition present (k : string) (first : Z) (l : option string) (m : InviteTxCache) : Prop :=
  exists e, m !! k = Some e /\ first_seen e = first /\ last_response e = l /\
    forall f, final_at e = Some f -> first <= f.

Lemma with_response_keeps now resp st d t r e :
  let e' := with_response now resp st d t r e in
  first_seen e' = first_seen e /\ last_response e' = Some resp /\
  (final_at e' = final_at e \/ final_at e' = Some now).
Proof. unfold with_response. cbv zeta. repeat case_test; cbn; auto. Qed.

Lemma apply_present k first l m o :
  present k first l m -> timely first o ->
  (begins o = true -> Z.of_nat (size m) < MAX_ENTRIES) ->
  present k first (last_recorded k [o] l) (apply_op m o) /\
  Z.of_nat (size (apply_op m o)) <= Z.of_nat (size m) + (if begins o then 1 else 0).
Proof.
  intros (e & He & Hf & Hl & Hfin) Ht Hb.
  destruct o as [now k'|now k' resp st d t r|k'|now|now]; unfold apply_op, due_retransmissions, prune_at;
    cbn [snd last_recorded begins] in *.
  - unfold begin. destruct (m !! k') as [e'|] eqn:Ek; cbn [snd]; [split; [by exists e|lia]|].
    unfold make_room. rewrite (proj2 (Z.leb_gt _ _)) by auto. split; [|rewrite map_size_insert_None by done; lia].
    exists e. rewrite lookup_insert_ne by congruence. done.
  - split; [|unfold record_sent; rewrite alter_size; lia]. unfold record_sent. destruct (seqb k' k) eqn:Es.
    + apply seqb_true in Es as ->. eexists. rewrite lookup_alter_eq, He. split; [done|].
      destruct (with_response_keeps now resp st d t r e) as (-> & -> & Hfa). split_and!; [done|done|].
      intros f Hf'. destruct Hfa as [Hfa|Hfa]; rewrite Hfa in Hf'; [by apply Hfin|]. by injection Hf' as <-.
    + exists e. rewrite lookup_alter_ne; [done|]. intros ->. by rewrite seqb_refl in Es.
  - split; [|unfold acked; rewrite alter_size; lia]. unfold acked. destruct (decide (k' = k)) as [->|].
    + eexists. rewrite lookup_alter_eq, He. done.
    + exists e. by rewrite lookup_alter_ne.
  - split; [|rewrite map_size_fmap; lia]. eexists. rewrite lookup_fmap, He. split; [done|].
    unfold fire. by repeat case_match.
  - split.
    + exists e. split; [|done]. apply map_lookup_filter_Some. split; [done|]. unfold absorbs, duration_since, timely in *.
      cbn [snd]. unfold FINAL_ABSORB, PENDING_ABSORB, secs in *. destruct (final_at e) as [f|]; apply Z.ltb_lt; [specialize (Hfin f eq_refl)|]; ulia.
    + assert (Hs := map_size_filter (fun ke => absorbs now ke.2 = true) m). lia.
Qed.

Lemma run_present k first ops : forall l m,
  present k first l m -> Forall (timely first) ops ->
  Z.of_nat (size m) + Z.of_nat (length (List.filter begins ops)) <= MAX_ENTRIES ->
  present k first (last_recorded k ops l) (fold_left apply_op ops m).
Proof.
  induction ops as [|o ops IH]; intros l m Hp Ht Hs; [done|]. inversion_clear Ht as [|? ? Ho Hops].
  cbn [List.filter fold_left] in *. destruct (apply_present k first l m o Hp Ho) as [Hp' Hs'].
  - intros Hb. rewrite Hb in Hs. simpl in Hs. lia.
  - assert (He : last_recorded k (o :: ops) l = last_recorded k ops (last_recorded k [o] l)) by by destruct o.
    rewrite He. apply IH; [done|done|]. destruct (begins o); simpl in Hs; lia.
Qed.

(** One INVITE, one call: a retransmission that arrives within 32 s of the
    first copy never begins a second transaction, and is given the last
    response recorded for it, as long as the table does not fill up. *)
Theorem retransmission_absorbed ops m k now later :
  m !! k = None -> Forall (timely now) ops ->
  Z.of_nat (size m) + 1 + Z.of_nat (length (List.filter begins ops)) <= MAX_ENTRIES ->
  (begin now k m).1 = Ok tt /\
  let m' := fold_left apply_op ops (begin now k m).2 in
  begin later k m' = (Err (last_recorded k ops None), m').
Proof.
  intros Hk Ht Hs. unfold begin at 1 2. rewrite Hk. split; [done|]. cbn [snd]. cbv zeta.
  unfold make_room. rewrite (proj2 (Z.leb_gt _ _)) by lia.
  destruct (run_present k now ops None (<[k := mkEntry None now None false None]> m)) as (e & He & _ & Hl & _).
  - exists (mkEntry None now None false None). rewrite lookup_insert_eq. by split_and!.
  - done.
  - rewrite map_size_insert_None by done. lia.
  - unfold begin. by rewrite He, Hl.
Qed.
End cache.

(** ** The key of a response is its request's *)

(** The response the SBC writes from the headers of the request. *)
Definition answer (code : Z) (reason via from call_id cseq : string) (rest : list string) (b : string) : string :=
  render (mkMsg ("SIP/2.0 " +:+ show code +:+ " " +:+ reason)
            (("Via: " +:+ via) :: ("From: " +:+ from) :: ("Call-ID: " +:+ call_id) :: ("CSeq: " +:+ cseq) :: rest) b).

Lemma head_value n name v hs :
  name <> "" -> sall (fun c => negb (Ascii.is_space c)) name = true -> free_of ":" name = true ->
  (if seqb (to_ascii_lowercase name) n || seqb (short_form (to_ascii_lowercase name)) n then True else False) ->
  trim v = v -> head (omap (value_of n) ((name +:+ ": " +:+ v) :: hs)) = Some v.
Proof.
  intros H1 H2 H3 H4 Hv. rewrite values_cons, value_of_line by done. destruct (_ || _); [|done]. by rewrite Hv.
Qed.

Lemma skip_value n name v hs :
  name <> "" -> sall (fun c => negb (Ascii.is_space c)) name = true -> free_of ":" name = true ->
  seqb (to_ascii_lowercase name) n || seqb (short_form (to_ascii_lowercase name)) n = false ->
  omap (value_of n) ((name +:+ ": " +:+ v) :: hs) = omap (value_of n) hs.
Proof. intros H1 H2 H3 H4. by rewrite values_cons, value_of_line, H4 by done. Qed.

Definition line_ok (v : string) : Prop := no_lf v = true /\ trim v = v.

(** A response that copies Via, From, Call-ID and CSeq from an INVITE is
    recorded under the key of that INVITE, with its status: the entry a
    retransmission of the INVITE finds is the one the response went to. *)
Theorem response_has_request_key r via from call_id num code reason rest b k :
  find_map via_value (rq_headers r) = Some via -> rq_from r = Some from -> rq_call_id r = Some call_id ->
  rq_cseq r = Some (num +:+ " INVITE") -> key_of_request r = Some k ->
  line_ok via -> line_ok from -> line_ok call_id ->
  num <> "" -> sall (fun c => negb (Ascii.is_space c)) num = true ->
  0 <= code <= u16_max -> sall (fun c => negb (is_eol c)) reason = true -> trim reason = reason -> reason <> "" ->
  Forall (fun h => good_header h = true) rest ->
  key_of_response (answer code reason via from call_id (num +:+ " INVITE") rest b) = Some (k, code).
Proof.
  intros Hvia Hfrom Hcid Hcseq Hk [Hv1 Hv2] [Hf1 Hf2] [Hc1 Hc2] Hn1 Hn2 Hcode Hr1 Hr2 Hr3 Hrest.
  unfold key_of_request in Hk. rewrite Hvia, Hfrom, Hcid, Hcseq in Hk. cbn [mbind option_bind] in Hk.
  rewrite words_cons in Hk by done.
  change (split_whitespace "INVITE") with ["INVITE"] in Hk. cbn [head mbind option_bind] in Hk.
  set (start := "SIP/2.0 " +:+ show code +:+ " " +:+ reason).
  set (hs := ("Via" +:+ ": " +:+ via) :: ("From" +:+ ": " +:+ from) :: ("Call-ID" +:+ ": " +:+ call_id)
             :: ("CSeq" +:+ ": " +:+ num +:+ " INVITE") :: rest).
  assert (Hwf : well_formed (mkMsg start hs b)).
  { assert (Hnum : no_lf num = true).
    { revert Hn2. apply sall_impl. intros c. rewrite !negb_true_iff. intros Hs. apply bool_decide_eq_false.
      intros ->. by vm_compute in Hs. }
    split_and!; cbn [start_line headers].
    - assert (Hsh : sall (fun c => negb (is_eol c)) (show code) = true).
      { apply (sall_impl is_digit); [|apply show_spec; ulia].
        intros c Hc. apply negb_true_iff, bool_decide_eq_false. intros [->| ->]; by vm_compute in Hc. }
      unfold start. by rewrite !sall_app, Hr1, Hsh.
    - unfold start. replace (show code +:+ " " +:+ reason) with ((show code +:+ " ") +:+ reason) by by rewrite sapp_assoc.
      exact (trim_word "S" ("IP/2.0 " +:+ show code +:+ " ") reason eq_refl Hr2 Hr3).
    - repeat constructor; [apply (good_line "Via")|apply (good_line "From")|apply (good_line "Call-ID")|apply (good_line "CSeq")|];
        try done. by rewrite no_lf_app, Hnum. }
  unfold key_of_response. change (answer code reason via from call_id (num +:+ " INVITE") rest b) with (render (mkMsg start hs b)).
  rewrite (parse_render_wf _ Hwf).
  assert (Hraw : starts_with "SIP/2.0 " (render (mkMsg start hs b)) = true).
  { apply starts_with_spec. unfold render, start. cbn [start_line]. rewrite !sapp_assoc. by eexists. }
  rewrite Hraw. cbn [negb].
  assert (Hcv : header_values "cseq" (mkMsg start hs b) = (num +:+ " INVITE") :: omap (value_of "cseq") rest).
  { rewrite header_values_of. header_names. unfold hs. cbn [headers]. do 3 (rewrite skip_value by done).
    rewrite values_cons, value_of_line by done. header_names. change (seqb "cseq" "cseq") with true. cbn [orb]. f_equal.
    destruct num as [|c num]; [done|]. simpl in Hn2. to_prop.
    replace (String c num +:+ " INVITE") with (String c (num +:+ " ") +:+ "INVITE") by by rewrite !sapp_cons, sapp_assoc.
    by apply trim_word. }
  rewrite Hcv. cbn [head mbind option_bind]. rewrite words_cons by done. change (split_whitespace "INVITE") with ["INVITE"].
  cbn [head tail mbind option_bind]. change (eq_ignore_ascii_case "INVITE" "INVITE") with true. cbn [negb].
  assert (Hval : forall n name v hs', value_of n (name +:+ ": " +:+ v) = Some v ->
     head (omap (value_of n) ((name +:+ ": " +:+ v) :: hs')) = Some v) by (intros n name v hs' E; by rewrite values_cons, E).
  rewrite !header_values_of. header_names. unfold hs. cbn [headers].
  rewrite (Hval "via" "Via") by (rewrite value_of_line by done; cbn; by rewrite Hv2). cbn [mbind option_bind].
  do 2 (rewrite (skip_value "call-id") by done).
  rewrite (Hval "call-id" "Call-ID") by (rewrite value_of_line by done; cbn; by rewrite Hc2).
  rewrite (skip_value "from") by done.
  rewrite (Hval "from" "From") by (rewrite value_of_line by done; cbn; by rewrite Hf2). cbn [mbind option_bind].
  destruct (param_of via "branch") as [br|]; [|done]. cbn [mbind option_bind] in Hk |- *. injection Hk as <-.
  assert (Hw : head (tail (split_whitespace (render (mkMsg start hs b)))) = Some (show code)).
  { unfold render, start. cbn [start_line]. rewrite !sapp_assoc. change ("SIP/2.0 " +:+ ?x) with ("SIP/2.0" +:+ String " " x).
    rewrite words_cons by done. cbn [tail]. change (" " +:+ ?x) with (String " " x). rewrite words_cons; [done| |].
    - apply (sall_impl is_digit); [apply digit_not_space|by apply show_spec; ulia].
    - apply show_spec. ulia. }
  fold hs. rewrite Hw. cbn [mbind option_bind]. by rewrite parse_show.
Qed.

(** ** Witnesses *)

Module Witness.

#[local] Instance iter : HashIter string TxEntry := canonical_iter string TxEntry.

Definition caller : SocketAddr := mkAddr (V4 [203; 0; 113; 9]) 5060.

(** A refused INVITE: begun, answered 486, polled every second. *)
Definition refused : list Op :=
  Begin 0 "k" :: RecordSent (millis 10) "k" "SIP/2.0 486 Busy" 486 caller Udp None
  :: map (fun i => Poll (secs (Z.of_nat i))) (seq 1 20).

Lemma invite_tx_bounded_witness :
  (due_retransmissions (secs 24) (fold_left apply_op refused ∅)).1 = [("SIP/2.0 486 Busy", caller, Udp, None)] /\
  exists e r, fold_left apply_op refused ∅ !! "k" = Some e /\ retransmit e = Some r /\ sent r = 7.
Proof.
  assert (Hd : (due_retransmissions (secs 24) (fold_left apply_op refused ∅)).1
               = [("SIP/2.0 486 Busy", caller, Udp, None)]) by (vm_compute; reflexivity).
  split; [exact Hd|].
  destruct (proj2 (invite_tx_bounded refused (secs 24)) ("SIP/2.0 486 Busy", caller, Udp, None)) as (k & e & r & Hk & Hr & _).
  { rewrite Hd. apply list_elem_of_here. }
  assert (Hs : (sent <$> (fold_left apply_op refused ∅ !! "k" ≫= retransmit)) = Some 7) by (vm_compute; reflexivity).
  destruct (fold_left apply_op refused ∅ !! "k") as [e'|]; [|discriminate].
  cbn in Hs. destruct (retransmit e') as [r'|] eqn:Er; [|discriminate]. injection Hs as Hs.
  exists e', r'. split; [reflexivity|]. split; [exact Er|exact Hs].
Defined.

Lemma acked_is_silent_witness :
  let m := fold_left apply_op [Begin 0 "k"; RecordSent 5 "k" "SIP/2.0 486 Busy" 486 caller Udp None] ∅ in
  let m' := fold_left apply_op [RecordSent 9 "k" "SIP/2.0 486 Busy" 486 caller Udp None; Poll (secs 3)] (acked "k" m) in
  is_Some (m' !! "k") /\ forall e, m' !! "k" = Some e -> (fire (secs 40) e).1 = None.
Proof.
  intros m m'. split; [eexists; vm_compute; reflexivity|].
  exact (acked_is_silent [RecordSent 9 "k" "SIP/2.0 486 Busy" 486 caller Udp None; Poll (secs 3)] m "k" (secs 40) eq_refl).
Defined.

Lemma retransmission_absorbed_witness :
  begin (secs 31) "k" (fold_left apply_op (tl refused ++ [Prune (secs 30)]) (begin 0 "k" ∅).2)
  = (Err (Some "SIP/2.0 486 Busy"), fold_left apply_op (tl refused ++ [Prune (secs 30)]) (begin 0 "k" ∅).2).
Proof.
  assert (Ht : Forall (timely 0) (tl refused ++ [Prune (secs 30)])).
  { apply Forall_app. split; [apply Forall_cons; split; [discriminate|apply Forall_forall]|repeat constructor].
    intros o Ho. apply list_elem_of_In, in_map_iff in Ho as (i & <- & _). exact I. }
  assert (Hs : Z.of_nat (size (∅ : InviteTxCache)) + 1
               + Z.of_nat (length (List.filter begins (tl refused ++ [Prune (secs 30)]))) <= MAX_ENTRIES)
    by (vm_compute; discriminate).
  exact (proj2 (retransmission_absorbed (tl refused ++ [Prune (secs 30)]) ∅ "k" 0 (secs 31) eq_refl Ht Hs)).
Defined.

Definition request : RequestHeaders :=
  mkRequest ["Max-Forwards: 70"; "v: SIP/2.0/UDP h;branch=z9hG4bKx"] (Some "c1@h") (Some "<sip:a@h>;tag=77") (Some "3 INVITE").

Lemma response_has_request_key_witness :
  key_of_request request = Some "z9hG4bKx|c1@h|77|3" /\
  key_of_response (answer 486 "Busy Here" "SIP/2.0/UDP h;branch=z9hG4bKx" "<sip:a@h>;tag=77" "c1@h" "3 INVITE"
    ["Content-Length: 0"] "") = Some ("z9hG4bKx|c1@h|77|3", 486).
Proof.
  assert (Hk : key_of_request request = Some "z9hG4bKx|c1@h|77|3") by (vm_compute; reflexivity).
  split; [exact Hk|].
  assert (Hv : find_map via_value (rq_headers request) = Some "SIP/2.0/UDP h;branch=z9hG4bKx") by (vm_compute; reflexivity).
  refine (response_has_request_key request "SIP/2.0/UDP h;branch=z9hG4bKx" "<sip:a@h>;tag=77" "c1@h" "3" 486 "Busy Here"
    ["Content-Length: 0"] "" _ Hv eq_refl eq_refl eq_refl Hk _ _ _ _ eq_refl _ eq_refl eq_refl _ _);
    try (split; vm_compute; (reflexivity || discriminate)); try discriminate.
  repeat constructor.
Defined.

End Witness.
