(* ===== verification/Ban.v ===== *)
(** * Bans (security/ban.rs)

    Failures of an address within a sliding window become a ban, longer for
    each repeated offense. [Instant] and [SystemTime] are two clocks: [now] and
    [wall]. [ipnetwork] and the text of an address are parameters. *)

From S2P Require Import Prelude Str Bytes Net Window.

Record BanConfig := mkBanConfig {
  enabled : bool;
  max_failures : Z;
  window_secs : Z;
  ban_duration_secs : Z;
  repeat_offender_multiplier : Z;
  max_ban_secs : Z;
  silent_drop_config : bool;
  whitelist : list string
}.

Definition default_config : BanConfig := mkBanConfig true 5 60 3600 4 86400 true [].

Record BanEntry := mkBan {
  banned_ip : IpAddr;
  reason : string;
  banned_at : Z;
  expires_at : Z;
  failure_count : Z;
  manual : bool;
  offense_count : Z
}.

Definition is_expired (wall : Z) (e : BanEntry) : bool := expires_at e <=? wall.
Definition remaining_secs (wall : Z) (e : BanEntry) : Z :=
  if wall <=? expires_at e then as_secs (expires_at e - wall) else 0.
Definition ts_rfc_secs (t : Z) : Z := if 0 <=? t then as_secs t else 0.

Record Offense := mkOffense { count : Z; last_offense : Z }.

Record BanManager := mkManager {
  config : BanConfig;
  failures : gmap IpAddr (list Z);
  bans : gmap IpAddr BanEntry;
  offenses : gmap IpAddr Offense
}.

#[export] Instance eta_manager : Eta BanManager := fun m =>
  mkManager (config m) (failures m) (bans m) (offenses m).

Definition new (c : BanConfig) : BanManager := mkManager c ∅ ∅ ∅.
Definition set_config (c : BanConfig) (m : BanManager) : BanManager := m <| config := c |>.
Definition silent_drop (m : BanManager) : bool := silent_drop_config (config m).

Section manager.
(** [ipnetwork]: the addresses of a CIDR text, and an address as text. *)
Context (network : string -> option (IpAddr -> bool)) (ip_text : IpAddr -> string).

Definition is_whitelisted (ip : IpAddr) (m : BanManager) : bool :=
  if is_loopback ip then true
  else existsb (fun w => match network w with Some contains => contains ip | None => seqb w (ip_text ip) end)
         (whitelist (config m)).

Definition is_banned (wall : Z) (ip : IpAddr) (m : BanManager) : bool * BanManager :=
  if negb (enabled (config m)) then (false, m)
  else match bans m !! ip with
  | Some entry => if is_expired wall entry then (false, m <| bans := delete ip (bans m) |>) else (true, m)
  | None => (false, m)
  end.

Definition saturating_pow (b e : Z) : Z := Z.min u32_max (b ^ e).

(** The length in seconds of the ban for the [offense]-th offense. *)
Definition ban_secs (c : BanConfig) (offense : Z) : Z :=
  let factor := Z.max 1 (saturating_pow (repeat_offender_multiplier c) (sat_sub offense 1)) in
  Z.min (sat_mul 64 (ban_duration_secs c) factor) (max_ban_secs c).

Definition offense_of (ip : IpAddr) (m : BanManager) : Z :=
  default 0 (count <$> offenses m !! ip).

Definition record_failure (now wall : Z) (ip : IpAddr) (reason : string) (m : BanManager)
    : option BanEntry * BanManager :=
  let c := config m in
  if negb (enabled c) || is_whitelisted ip m then (None, m)
  else
    let '(banned, m) := is_banned wall ip m in
    if banned then (None, m)
    else
      let strikes := drop_stale now (secs (window_secs c)) (default [] (failures m !! ip)) ++ [now] in
      let n := wrapw 32 (Z.of_nat (length strikes)) in
      let m := m <| failures := <[ip := strikes]> (failures m) |> in
      if n <? max_failures c then (None, m)
      else
        let m := m <| failures := delete ip (failures m) |> in
        let offense := wrapw 32 (offense_of ip m + 1) in
        let m := m <| offenses := <[ip := mkOffense offense now]> (offenses m) |> in
        let entry := mkBan ip reason wall (wall + secs (ban_secs c offense)) n false offense in
        (Some entry, m <| bans := <[ip := entry]> (bans m) |>).

Definition ban (wall : Z) (ip : IpAddr) (duration : Z) (reason : string) (m : BanManager)
    : BanEntry * BanManager :=
  let entry := mkBan ip reason wall (wall + duration) 0 true (wrapw 32 (offense_of ip m + 1)) in
  (entry, m <| bans := <[ip := entry]> (bans m) |>).

Definition unban (ip : IpAddr) (m : BanManager) : bool * BanManager :=
  (bool_decide (is_Some (bans m !! ip)), m <| bans := delete ip (bans m) |>).

Definition list_bans {HI : HashIter IpAddr BanEntry} (wall : Z) (m : BanManager) : list BanEntry :=
  List.filter (fun e => negb (is_expired wall e)) (hiter (bans m)).*2.

Definition prune_stale_windows (now : Z) (m : BanManager) : nat * BanManager :=
  let c := config m in
  let kept := filter (fun e => idle now (secs (window_secs c)) e.2 = false) (failures m) in
  let forget_after := secs (Z.max (sat_mul 64 (max_ban_secs c) 2) (window_secs c)) in
  let warm := filter (fun e => (forget_after <? duration_since now (last_offense e.2))
                               && bool_decide (bans m !! e.1 = None) = false) (offenses m) in
  (((size (failures m) - size kept) + (size (offenses m) - size warm))%nat,
   m <| failures := kept |> <| offenses := warm |>).

Definition cleanup_expired (wall : Z) (m : BanManager) : nat * BanManager :=
  let kept := filter (fun e => is_expired wall e.2 = false) (bans m) in
  ((size (bans m) - size kept)%nat, m <| bans := kept |>).

Definition restore (now wall : Z) (entry : BanEntry) (m : BanManager) : BanManager :=
  if is_expired wall entry then m
  else m <| offenses := <[banned_ip entry := mkOffense (offense_count entry) now]> (offenses m) |>
         <| bans := <[banned_ip entry := entry]> (bans m) |>.

(** ** Theorems *)

(** The failures of [ip] within the window before [now], with the one at
    [now]. *)
Definition in_window (now : Z) (ip : IpAddr) (m : BanManager) : list Z :=
  List.filter (recent now (secs (window_secs (config m)))) (default [] (failures m !! ip)) ++ [now].

Definition queues_ok (now : Z) (m : BanManager) : Prop :=
  forall ip q, failures m !! ip = Some q -> StronglySorted Z.le q /\ Forall (fun t => t <= now) q.

Lemma is_banned_keeps wall ip m :
  config (is_banned wall ip m).2 = config m /\ failures (is_banned wall ip m).2 = failures m /\
  offenses (is_banned wall ip m).2 = offenses m.
Proof. unfold is_banned. repeat case_match; done. Qed.

Lemma is_banned_after wall ip m : (is_banned wall ip m).1 = false -> (is_banned wall ip (is_banned wall ip m).2).1 = false.
Proof.
  unfold is_banned. destruct (negb (enabled (config m))) eqn:E; [cbn; by rewrite E|].
  destruct (bans m !! ip) as [e|] eqn:Eb; [destruct (is_expired wall e)|]; cbn; rewrite ?E; cbn; try done.
  - by rewrite lookup_delete_eq.
  - by rewrite Eb.
Qed.

(** Strikes become a ban exactly when they should: a failure of an address
    that is neither whitelisted nor banned issues one if and only if the
    failures of the last window, this one included, reach the threshold; the
    ban lasts the base time multiplied once per earlier offense, at most
    [max_ban_secs], and the address is banned until it expires. *)
Theorem ban_issued_at_threshold now wall ip why m :
  enabled (config m) = true -> is_whitelisted ip m = false -> (is_banned wall ip m).1 = false ->
  queues_ok now m -> Z.of_nat (length (in_window now ip m)) <= u32_max ->
  let '(issued, m') := record_failure now wall ip why m in
  if Z.of_nat (length (in_window now ip m)) <? max_failures (config m)
  then issued = None /\ failures m' !! ip = Some (in_window now ip m)
  else exists e, issued = Some e /\ failures m' !! ip = None /\
    offense_count e = wrapw 32 (offense_of ip m + 1) /\ offense_of ip m' = offense_count e /\
    expires_at e - banned_at e = secs (ban_secs (config m) (offense_count e)) /\
    ban_secs (config m) (offense_count e) <= max_ban_secs (config m) /\
    forall later, (is_banned later ip m').1 = (later <? expires_at e).
Proof.
  intros He Hw Hb Hq Hn. unfold record_failure. rewrite He, Hw. cbn [negb orb].
  destruct (is_banned wall ip m) as [b m1] eqn:Eb. cbn in Hb. subst b.
  destruct (is_banned_keeps wall ip m) as (Hc & Hf & Ho). rewrite Eb in Hc, Hf, Ho. cbn in Hc, Hf, Ho.
  assert (Hs : drop_stale now (secs (window_secs (config m))) (default [] (failures m1 !! ip)) ++ [now] = in_window now ip m).
  { rewrite Hf. unfold in_window. f_equal. destruct (failures m !! ip) as [q|] eqn:E; [|done].
    apply drop_stale_filter. by apply (Hq ip). }
  rewrite Hs, wrapw_small by ulia. destruct (_ <? max_failures (config m)) eqn:E.
  - split; [done|]. cbn. by rewrite lookup_insert_eq.
  - assert (Hof : offense_of ip (m1 <| failures := <[ip:=in_window now ip m]> (failures m1) |>
                                    <| failures := delete ip (<[ip:=in_window now ip m]> (failures m1)) |>) = offense_of ip m)
      by (unfold offense_of; cbn; by rewrite Ho).
    eexists. split; [reflexivity|]. unfold offense_of in *. cbn in *. rewrite Hof, lookup_delete_eq, lookup_insert_eq.
    split_and!; try done; [lia|unfold ban_secs; lia|].
    intros later. unfold is_banned. cbn. rewrite Hc, He. cbn. rewrite lookup_insert_eq. unfold is_expired. cbn.
    destruct (_ <=? later) eqn:El; to_prop; cbn; symmetry; [apply Z.ltb_ge|apply Z.ltb_lt]; lia.
Qed.

(** ** Runs with one configuration *)

Inductive Op :=
  | Failure (now wall : Z) (ip : IpAddr) (reason : string)
  | IsBanned (wall : Z) (ip : IpAddr)
  | ManualBan (wall : Z) (ip : IpAddr) (duration : Z) (reason : string)
  | Unban (ip : IpAddr)
  | PruneStale (now : Z)
  | Cleanup (wall : Z)
  | Restore (now wall : Z) (entry : BanEntry).

Definition op_now (o : Op) : option Z :=
  match o with Failure now _ _ _ | PruneStale now | Restore now _ _ => Some now | _ => None end.

Definition apply_op (m : BanManager) (o : Op) : BanManager :=
  match o with
  | Failure now wall ip why => (record_failure now wall ip why m).2
  | IsBanned wall ip => (is_banned wall ip m).2
  | ManualBan wall ip d why => (ban wall ip d why m).2
  | Unban ip => (unban ip m).2
  | PruneStale now => (prune_stale_windows now m).2
  | Cleanup wall => (cleanup_expired wall m).2
  | Restore now wall e => restore now wall e m
  end.

(** The clock of the run does not go back. *)
Fixpoint monotone (now : Z) (ops : list Op) : Prop :=
  match ops with
  | [] => True
  | o :: ops => match op_now o with Some t => now <= t /\ monotone t ops | None => monotone now ops end
  end.

(** The ban of an address is its own, and for a whitelisted address it was made
    by hand or taken from the store. *)
Definition ban_ok (from_store : BanEntry -> Prop) (m : BanManager) (ip : IpAddr) (e : BanEntry) : Prop :=
  banned_ip e = ip /\ (manual e = true \/ is_whitelisted ip m = false \/ from_store e).

Definition invariant (from_store : BanEntry -> Prop) (now : Z) (m : BanManager) : Prop :=
  queues_ok now m /\
  (forall ip q, failures m !! ip = Some q -> Z.of_nat (length q) < max_failures (config m)) /\
  (forall ip e, bans m !! ip = Some e -> ban_ok from_store m ip e).

Section runs.
Context (from_store : BanEntry -> Prop).
Abbreviation invariant := (invariant from_store).

Lemma invariant_later now now' m : now <= now' -> invariant now m -> invariant now' m.
Proof.
  intros Hn (Hq & Hl & Hw). split; [|done]. intros ip q Hi. destruct (Hq ip q Hi) as [Hs Hf]. split; [done|].
  eapply Forall_impl; [exact Hf|]. simpl. lia.
Qed.

Lemma whitelist_config ip m m' : config m' = config m -> is_whitelisted ip m' = is_whitelisted ip m.
Proof. intros H. unfold is_whitelisted. by rewrite H. Qed.

Lemma ban_ok_config m m' ip e : config m' = config m -> ban_ok from_store m ip e -> ban_ok from_store m' ip e.
Proof. intros Hc. unfold ban_ok. by rewrite (whitelist_config ip m m' Hc). Qed.

(** Fewer queues and bans keep the invariant. *)
Lemma invariant_sub now m m' :
  config m' = config m -> failures m' ⊆ failures m -> bans m' ⊆ bans m -> invariant now m -> invariant now m'.
Proof.
  intros Hc Hf Hb (Hq & Hl & Hw). split_and!.
  - intros ip q Hi. eapply Hq, lookup_weaken; eauto.
  - rewrite Hc. intros ip q Hi. eapply Hl, lookup_weaken; eauto.
  - intros ip e Hi. eapply ban_ok_config; [done|]. eapply Hw, lookup_weaken; eauto.
Qed.

(** One more ban, well formed, keeps it. *)
Lemma invariant_ban now m m' ip e :
  config m' = config m -> failures m' = failures m -> bans m' = <[ip := e]> (bans m) -> ban_ok from_store m ip e ->
  invariant now m -> invariant now m'.
Proof.
  intros Hc Hf Hb He (Hq & Hl & Hw). unfold invariant, queues_ok. rewrite Hc, Hf, Hb. split_and!; try done.
  intros ip' e' [[<- <-]|[_ Hi]]%lookup_insert_Some; (eapply ban_ok_config; [done|]); [done|by apply Hw].
Qed.

Lemma is_banned_sub wall ip m :
  config (is_banned wall ip m).2 = config m /\ failures (is_banned wall ip m).2 = failures m /\
  bans (is_banned wall ip m).2 ⊆ bans m.
Proof. unfold is_banned. repeat case_match; split_and!; try done. apply delete_subseteq. Qed.

Lemma record_failure_invariant now wall ip why m :
  max_failures (config m) <= u32_max -> invariant now m -> invariant now (record_failure now wall ip why m).2.
Proof.
  intros Hmax H. unfold record_failure. destruct (negb _ || _) eqn:E0; [done|]. to_prop.
  destruct (is_banned wall ip m) as [b m1] eqn:Eb. destruct (is_banned_sub wall ip m) as (Hc & Hf & Hb).
  rewrite Eb in Hc, Hf, Hb. cbn in Hc, Hf, Hb.
  assert (H1 : invariant now m1) by (eapply invariant_sub; eauto; by rewrite Hf). destruct b; [done|].
  destruct H1 as (Hq & Hl & Hw). rewrite <- Hc in *. set (strikes := _ ++ [now]).
  assert (Hq' : StronglySorted Z.le strikes /\ Forall (fun t => t <= now) strikes).
  { destruct (failures m1 !! ip) as [q|] eqn:Eq; cbn in strikes; [|by split; repeat constructor].
    destruct (Hq ip q Eq) as [Hs Ha]. assert (Ha' : Forall (fun t => t <= now) (drop_stale now (secs (window_secs (config m1))) q)).
    { destruct (drop_stale_suffix now (secs (window_secs (config m1))) q) as [old E]. rewrite E in Ha. by apply Forall_app in Ha as []. }
    split; [apply sorted_snoc; [by apply sorted_drop|done]|]. apply Forall_app. split; [done|by repeat constructor]. }
  destruct (wrapw 32 (Z.of_nat (length strikes)) <? max_failures (config m1)) eqn:En; unfold invariant, queues_ok; cbn.
  - split_and!; [| |done].
    + intros ip' q [[<- <-]|[_ Hi]]%lookup_insert_Some; [done|by eapply Hq].
    + intros ip' q [[<- <-]|[_ Hi]]%lookup_insert_Some; [|by eapply Hl]. cbn. to_prop.
      rewrite wrapw_small in En; [done|]. subst strikes. rewrite length_app. simpl.
      destruct (failures m1 !! ip) as [q|] eqn:Eq; cbn; [|ulia]. specialize (Hl ip q Eq).
      assert (Hd := drop_stale_length now (secs (window_secs (config m1))) q). unfold is_uw, u32_max in *. lia.
  - split_and!.
    + intros ip' q [Hne Hi]%lookup_delete_Some. apply lookup_insert_Some in Hi as [[-> _]|[_ Hi]]; [congruence|]. by eapply Hq.
    + intros ip' q [Hne Hi]%lookup_delete_Some. apply lookup_insert_Some in Hi as [[-> _]|[_ Hi]]; [congruence|]. by eapply Hl.
    + intros ip' e [[<- <-]|[_ Hi]]%lookup_insert_Some; [|by eapply ban_ok_config; [|apply Hw]]. split; [done|]. right. left. by rewrite (whitelist_config _ m).
Qed.

Lemma apply_op_invariant now o m :
  max_failures (config m) <= u32_max -> (forall t, op_now o = Some t -> now <= t) ->
  (forall t wall e, o = Restore t wall e -> from_store e) -> invariant now m ->
  invariant (default now (op_now o)) (apply_op m o) /\ config (apply_op m o) = config m.
Proof.
  intros Hmax Hn Hr H. destruct o as [t wall ip why|wall ip|wall ip d why|ip|t|wall|t wall e]; cbn [op_now default apply_op] in *.
  - split; [apply record_failure_invariant; [done|]; eapply invariant_later; eauto|]. unfold record_failure.
    destruct (is_banned_keeps wall ip m) as (Hc & _ & _). destruct (is_banned wall ip m) as [b m1]. cbn in Hc.
    repeat case_match; done.
  - split; [|apply is_banned_keeps]. eapply invariant_sub; [| | |done]; apply (is_banned_sub wall ip m) || by destruct (is_banned_sub wall ip m) as (_ & -> & _).
  - split; [|done]. eapply (invariant_ban now m); [done..| |done]. split; [done|by left].
  - split; [|done]. eapply invariant_sub; [..|done]; try done. apply delete_subseteq.
  - split; [|done]. eapply invariant_later; [by apply Hn|]. eapply invariant_sub; [..|done]; try done. apply map_filter_subseteq.
  - split; [|done]. eapply invariant_sub; [..|done]; try done. apply map_filter_subseteq.
  - unfold restore. apply (invariant_later now t) in H; [|by apply Hn]. destruct (is_expired wall e); [done|]. split; [|done].
    eapply (invariant_ban t m); [done..| |done]. split; [done|]. right. right. by eapply Hr.
Qed.

Lemma run_invariant ops m now :
  max_failures (config m) <= u32_max -> monotone now ops -> (forall t wall e, Restore t wall e ∈ ops -> from_store e) ->
  invariant now m -> exists t, invariant t (fold_left apply_op ops m) /\ config (fold_left apply_op ops m) = config m.
Proof.
  revert m now. induction ops as [|o ops IH]; intros m now Hmax Hops Hr H; [by exists now|].
  destruct (apply_op_invariant now o m) as [H1 H2]; [done| |intros t wall e ->; apply (Hr t wall); left|done|].
  - intros t Ht. cbn in Hops. rewrite Ht in Hops. by destruct Hops.
  - cbn [fold_left]. rewrite <- H2. apply (IH _ (default now (op_now o))); [by rewrite H2| | |done].
    + cbn in Hops. by destruct (op_now o); [destruct Hops|].
    + intros t wall e Hin. apply (Hr t wall). by right.
Qed.
End runs.

(** C39: whatever happens under one configuration, the strikes kept per address
    stay below the ban threshold and in order, every ban is filed under its own
    address, and a ban of a loopback or whitelisted address was made by hand or
    taken from the store at a start: never by counting failures. *)
Theorem bans_well_formed c ops now :
  max_failures c <= u32_max -> monotone now ops ->
  let m := fold_left apply_op ops (new c) in
  (forall ip q, failures m !! ip = Some q -> Z.of_nat (length q) < max_failures c /\ StronglySorted Z.le q) /\
  (forall ip e, bans m !! ip = Some e -> banned_ip e = ip /\
     (is_loopback ip = true \/ is_whitelisted ip m = true -> manual e = true \/ exists t wall, Restore t wall e ∈ ops)).
Proof.
  intros Hmax Hops m.
  assert (H : exists t, invariant (fun e => exists t wall, Restore t wall e ∈ ops) t m /\ config m = c)
    by (apply (run_invariant _ ops (new c) now); [done|done|intros t wall e Hin; by exists t, wall|by split_and!]).
  destruct H as (t & (Hq & Hl & Hw) & Hc). rewrite Hc in *. split.
  - intros ip q Hi. split; [by eapply Hl|by apply (Hq ip)].
  - intros ip e Hi. destruct (Hw ip e Hi) as [Hb Ho]. split; [done|]. intros Hp.
    destruct Ho as [Ho|[Ho|Ho]]; [by left| |by right].
    destruct Hp as [Hp|Hp]; [|congruence]. unfold is_whitelisted in Ho. by rewrite Hp in Ho.
Qed.
End manager.

(** ** Witnesses *)

Module Witness.

Definition no_network : string -> option (IpAddr -> bool) := fun _ => None.
Definition as_text (ip : IpAddr) : string := if bool_decide (ip = V4 [10; 0; 0; 1]) then "10.0.0.1" else "other".
Definition scanner : IpAddr := V4 [203; 0; 113; 66].
Definition config0 : BanConfig := mkBanConfig true 3 60 3600 4 86400 true ["10.0.0.1"].

Definition strike (s : Z) (m : BanManager) : BanManager :=
  (record_failure no_network as_text (secs s) (secs s) scanner "wrong password" m).2.

(** Two strikes, the first already out of the window at the third. *)
Definition struck : BanManager := strike 70 (strike 65 (strike 0 (new config0))).

Lemma ban_issued_at_threshold_witness :
  length (in_window (secs 71) scanner struck) = 3%nat /\
  exists e, (record_failure no_network as_text (secs 71) (secs 71) scanner "wrong password" struck).1 = Some e /\
    expires_at e - banned_at e = secs 3600.
Proof.
  split; [vm_compute; reflexivity|].
  assert (Hq : queues_ok (secs 71) struck).
  { intros ip q Hi. assert (Hd : failures struck = {[scanner := [secs 65; secs 70]]}) by (vm_compute; reflexivity).
    rewrite Hd in Hi. apply lookup_singleton_Some in Hi as [_ <-].
    split; repeat constructor; discriminate. }
  assert (Hn : Z.of_nat (length (in_window (secs 71) scanner struck)) <= u32_max) by (vm_compute; discriminate).
  assert (H := ban_issued_at_threshold no_network as_text (secs 71) (secs 71) scanner "wrong password" struck
                 eq_refl eq_refl eq_refl Hq Hn).
  destruct (record_failure _ _ _ _ _ _ _) as [issued m'].
  change (Z.of_nat (length (in_window (secs 71) scanner struck)) <? max_failures (config struck)) with false in H.
  destruct H as (e & He & _ & Hc & _ & Hd & _). exists e. split; [exact He|]. rewrite Hd, Hc. vm_compute. reflexivity.
Defined.

(** A ban written before its address was whitelisted. *)
Definition stored_ban : BanEntry := mkBan (V4 [127; 0; 0; 1]) "d" 0 (secs 99) 3 false 1.

Lemma bans_well_formed_witness :
  let ops := [Restore 0 0 stored_ban; Failure 0 0 scanner "a"; Failure (secs 1) 5 scanner "b"; Failure (secs 2) 5 scanner "c";
              ManualBan 5 (V4 [10; 0; 0; 1]) (secs 9) "operator"; Failure (secs 3) 5 (V4 [127; 0; 0; 1]) "d"] in
  let m := fold_left (apply_op no_network as_text) ops (new config0) in
  is_Some (bans m !! scanner) /\ bans m !! V4 [127; 0; 0; 1] = Some stored_ban /\
  (forall e, bans m !! V4 [10; 0; 0; 1] = Some e -> manual e = true \/ exists t wall, Restore t wall e ∈ ops).
Proof.
  intros ops m. split; [eexists; vm_compute; reflexivity|]. split; [vm_compute; reflexivity|].
  assert (Hops : monotone 0 ops) by (repeat split; discriminate).
  assert (Hmax : max_failures config0 <= u32_max) by discriminate.
  intros e He. apply (proj2 (bans_well_formed no_network as_text config0 ops 0 Hmax Hops) _ e He).
  right. vm_compute. reflexivity.
Defined.

End Witness.
