(* ===== verification/UserLimits.v ===== *)
(** * Call limits per user (security/user_limits.rs)

    Calls in progress, counted by the caller of [check_and_record], and call
    attempts in the last minute, counted here. *)

From S2P Require Import Prelude Str Window.

Record UserLimits := mkLimits {
  max_concurrent_calls : option Z;
  max_calls_per_minute : option Z
}.

Inductive LimitDecision :=
  | Allowed
  | ConcurrentExceeded (current limit : Z)
  | RateExceeded (current limit retry_after_secs : Z).

Record UserLimitsConfig := mkConfig {
  cfg_enabled : bool;
  default_max_concurrent_calls : Z;
  default_max_calls_per_minute : Z;
  cfg_overrides : list (string * UserLimits)
}.

Record UserLimitsManager := mkLimitsManager {
  limits_enabled : bool;
  defaults : Z * Z;
  config_defaults : Z * Z;
  overrides : gmap string UserLimits;
  rate_windows : gmap string (list Z)
}.

#[export] Instance eta_limits : Eta UserLimitsManager := fun m =>
  mkLimitsManager (limits_enabled m) (defaults m) (config_defaults m) (overrides m) (rate_windows m).

(** Later entries of the configuration win. *)
Definition new (c : UserLimitsConfig) : UserLimitsManager :=
  let d := (default_max_concurrent_calls c, default_max_calls_per_minute c) in
  mkLimitsManager (cfg_enabled c) d d
    (fold_left (fun m o => <[o.1 := o.2]> m) (cfg_overrides c) ∅) ∅.

Definition limits_for (user : string) (m : UserLimitsManager) : Z * Z :=
  let '(dc, dr) := defaults m in
  match overrides m !! user with
  | Some o => (default dc (max_concurrent_calls o), default dr (max_calls_per_minute o))
  | None => (dc, dr)
  end.

Definition replace_overrides (o : gmap string UserLimits) (m : UserLimitsManager) : nat * UserLimitsManager :=
  (size o, m <| overrides := o |>).
Definition set_override (user : string) (l : UserLimits) (m : UserLimitsManager) : UserLimitsManager :=
  m <| overrides := <[user := l]> (overrides m) |>.
Definition remove_override (user : string) (m : UserLimitsManager) : bool * UserLimitsManager :=
  (bool_decide (is_Some (overrides m !! user)), m <| overrides := delete user (overrides m) |>).
Definition set_enabled (on : bool) (m : UserLimitsManager) : UserLimitsManager := m <| limits_enabled := on |>.
Definition set_defaults (max_concurrent max_cpm : Z) (m : UserLimitsManager) : UserLimitsManager :=
  m <| defaults := (max_concurrent, max_cpm) |>.
Definition set_config_defaults (max_concurrent max_cpm : Z) (m : UserLimitsManager) : UserLimitsManager :=
  m <| config_defaults := (max_concurrent, max_cpm) |>.
Definition reset_defaults (m : UserLimitsManager) : UserLimitsManager := m <| defaults := config_defaults m |>.

Definition prune_idle_windows (now : Z) (m : UserLimitsManager) : nat * UserLimitsManager :=
  let kept := filter (fun e => idle now (secs 60) e.2 = false) (rate_windows m) in
  ((size (rate_windows m) - size kept)%nat, m <| rate_windows := kept |>).

Definition check_and_record (now : Z) (user : string) (current_concurrent : Z) (m : UserLimitsManager)
    : LimitDecision * UserLimitsManager :=
  if negb (limits_enabled m) then (Allowed, m)
  else
    let '(max_concurrent, max_cpm) := limits_for user m in
    if (0 <? max_concurrent) && (max_concurrent <=? current_concurrent)
    then (ConcurrentExceeded current_concurrent max_concurrent, m)
    else if 0 <? max_cpm then
      let attempts := drop_stale now (secs 60) (default [] (rate_windows m !! user)) in
      let n := wrapw 32 (Z.of_nat (length attempts)) in
      if max_cpm <=? n then
        let retry_after :=
          match head attempts with Some t => sat_sub 60 (as_secs (duration_since now t)) | None => 60 end in
        (RateExceeded n max_cpm (Z.max 1 retry_after), m <| rate_windows := <[user := attempts]> (rate_windows m) |>)
      else (Allowed, m <| rate_windows := <[user := attempts ++ [now]]> (rate_windows m) |>)
    else (Allowed, m).

(** ** The attempts of one user *)

(** The times of the calls allowed, in a run of attempts: time, calls in
    progress. *)
Fixpoint allowed_at (user : string) (attempts : list (Z * Z)) (m : UserLimitsManager) : list Z :=
  match attempts with
  | [] => []
  | (now, concurrent) :: attempts =>
      match check_and_record now user concurrent m with
      | (Allowed, m') => now :: allowed_at user attempts m'
      | (_, m') => allowed_at user attempts m'
      end
  end.

Definition within_minute (now t : Z) : bool := (now - secs 60 <=? t) && (t <=? now).

Lemma check_keeps now user n m :
  limits_enabled (check_and_record now user n m).2 = limits_enabled m /\
  limits_for user (check_and_record now user n m).2 = limits_for user m.
Proof.
  unfold check_and_record. destruct (negb (limits_enabled m)); [done|].
  destruct (limits_for user m) as [mc mr] eqn:E. repeat case_test; cbn; split; try done.
Qed.

(** The queue of [user] holds the calls allowed in the last minute. *)
Definition queue_of (user : string) (m : UserLimitsManager) : list Z := default [] (rate_windows m !! user).

Lemma count_app (f : Z -> bool) a b : length (List.filter f (a ++ b)) = (length (List.filter f a) + length (List.filter f b))%nat.
Proof. by rewrite List.filter_app, length_app. Qed.

Lemma check_queue now user n m :
  limits_enabled m = true -> 0 < (limits_for user m).2 < 2 ^ 32 ->
  Z.of_nat (length (queue_of user m)) <= (limits_for user m).2 ->
  let '(d, m') := check_and_record now user n m in
  Z.of_nat (length (queue_of user m')) <= (limits_for user m).2 /\
  (exists old, queue_of user m = old ++ (match d with Allowed => take (length (queue_of user m') - 1) (queue_of user m')
                                         | _ => queue_of user m' end) /\
     Forall (fun t => secs 60 < duration_since now t) old) /\
  (d = Allowed -> last (queue_of user m') = Some now).
Proof.
  intros He Hr Hq. unfold check_and_record. rewrite He. cbn [negb]. destruct (limits_for user m) as [mc mr] eqn:El. cbn in Hr, Hq.
  assert (Hd : exists old, queue_of user m = old ++ drop_stale now (secs 60) (queue_of user m) /\
                 Forall (fun t => secs 60 < duration_since now t) old).
  { generalize (queue_of user m). induction l as [|t l [old [IH Ho]]]; simpl; [by exists []|]. case_test; [|by exists []].
    to_prop. exists (t :: old). split; [by rewrite IH at 1|by constructor]. }
  case_test; [split_and!; [done| |done]; by exists []|]. rewrite (proj2 (Z.ltb_lt 0 mr)) by lia.
  fold (queue_of user m). assert (Hlen := drop_stale_length now (secs 60) (queue_of user m)).
  assert (Hq2 : forall q, queue_of user (m <| rate_windows := <[user:=q]> (rate_windows m) |>) = q)
    by (intros q; unfold queue_of; cbn; by rewrite lookup_insert_eq).
  rewrite wrapw_small by ulia. destruct (mr <=? _) eqn:Em; to_prop; rewrite Hq2; cbn [snd].
  - split_and!; [lia|exact Hd|done].
  - split_and!; [rewrite length_app; simpl; lia| |intros _; by rewrite last_snoc].
    rewrite length_app. simpl. rewrite Nat.add_sub, take_app_length. exact Hd.
Qed.

Fixpoint times_from (now : Z) (attempts : list (Z * Z)) : Prop :=
  match attempts with [] => True | (t, _) :: attempts => now <= t /\ times_from t attempts end.

Lemma allowed_later user attempts : forall now m, times_from now attempts -> Forall (fun t => now <= t) (allowed_at user attempts m).
Proof.
  induction attempts as [|[t n] attempts IH]; intros now m Ht; [constructor|]. cbn in *. destruct Ht as [Hn Ht].
  assert (Hi : forall m, Forall (fun t => now <= t) (allowed_at user attempts m)).
  { intros m'. eapply Forall_impl; [by apply IH|]. simpl. lia. }
  destruct (check_and_record t user n m) as [[] m']; [constructor|..]; auto.
Qed.

Lemma none_in_window now l : Forall (fun t => within_minute now t = false) l -> List.filter (within_minute now) l = [].
Proof. induction 1 as [|t l Ht _ IH]; [done|]. simpl. by rewrite Ht. Qed.

Lemma window_count user attempts : forall now m T,
  limits_enabled m = true -> 0 < (limits_for user m).2 < 2 ^ 32 ->
  Z.of_nat (length (queue_of user m)) <= (limits_for user m).2 -> times_from now attempts ->
  Z.of_nat (length (List.filter (within_minute T) (queue_of user m ++ allowed_at user attempts m))) <= (limits_for user m).2.
Proof.
  induction attempts as [|[t n] attempts IH]; intros now m T He Hr Hq Ht.
  - cbn. rewrite app_nil_r. assert (Hl := List.filter_length_le (within_minute T) (queue_of user m)). lia.
  - cbn in Ht |- *. destruct Ht as [Hn Ht]. assert (Hc := check_queue t user n m He Hr Hq).
    destruct (check_keeps t user n m) as [Hk1 Hk2]. destruct (check_and_record t user n m) as [d m'] eqn:E.
    cbn in Hk1, Hk2. destruct Hc as (Hq' & (old & Hold & Hs) & Hlast).
    assert (Hi := IH t m' T ltac:(congruence) ltac:(by rewrite Hk2) ltac:(by rewrite Hk2) Ht). rewrite Hk2 in Hi.
    assert (Hlater := allowed_later user attempts t m' Ht).
    assert (Hgone : t <= T -> List.filter (within_minute T) old = []).
    { intros HT. apply none_in_window. eapply Forall_impl; [exact Hs|]. intros x Hx. cbn in Hx. unfold within_minute, duration_since, secs in *.
      apply andb_false_iff. left. apply Z.leb_gt. ulia. }
    assert (Hearly : T < t -> forall l, Forall (fun x => t <= x) l -> List.filter (within_minute T) l = []).
    { intros HT l Hl. apply none_in_window. eapply Forall_impl; [exact Hl|]. intros x Hx. cbn in Hx. unfold within_minute.
      apply andb_false_iff. right. apply Z.leb_gt. lia. }
    assert (Hcount : forall l, T < t -> Forall (fun x => t <= x) l ->
      Z.of_nat (length (List.filter (within_minute T) (queue_of user m ++ l))) <= (limits_for user m).2).
    { intros l HT Hl. rewrite count_app, (Hearly HT l Hl). simpl.
      assert (Hle := List.filter_length_le (within_minute T) (queue_of user m)). lia. }
    destruct (Z_lt_le_dec T t) as [HT|HT].
    + destruct d; apply Hcount; try done. by constructor.
    + assert (Hno : d <> Allowed -> Z.of_nat (length (List.filter (within_minute T) (queue_of user m ++ allowed_at user attempts m')))
                      <= (limits_for user m).2).
      { intros Hd. rewrite Hold, !count_app, (Hgone HT). rewrite count_app in Hi. destruct d; [done|..]; simpl in *; lia. }
      destruct d; [|by apply Hno..]. specialize (Hlast eq_refl). apply last_Some in Hlast as [q Eq].
      rewrite Eq, length_app in Hold. simpl in Hold. rewrite Nat.add_sub, take_app_length in Hold.
      rewrite Hold. rewrite Eq in Hi. rewrite !count_app in *. rewrite (Hgone HT). simpl in *.
      destruct (within_minute T t); simpl in *; lia.
Qed.

(** The call rate holds over every minute: however a user's attempts are
    spaced, no sixty seconds contain more allowed calls than the limit in
    force. *)
Theorem call_rate_bounded user c attempts now T :
  let m := new c in
  cfg_enabled c = true -> 0 < (limits_for user m).2 < 2 ^ 32 -> times_from now attempts ->
  Z.of_nat (length (List.filter (within_minute T) (allowed_at user attempts m))) <= (limits_for user m).2.
Proof.
  intros m He Hr Ht. assert (Hq : queue_of user m = []) by done.
  assert (H := window_count user attempts now m T He Hr). rewrite Hq in H. apply H; [simpl; lia|done].
Qed.

(** ** Witnesses *)

Module Witness.

(** Three attempts in a minute where two are allowed, and one after it. *)
Lemma call_rate_bounded_witness :
  let c := mkConfig true 4 2 [] in
  let attempts := [(secs 1, 0); (secs 20, 1); (secs 30, 1); (secs 62, 1)] in
  allowed_at "alice" attempts (new c) = [secs 1; secs 20; secs 62] /\
  Z.of_nat (length (List.filter (within_minute (secs 62)) (allowed_at "alice" attempts (new c)))) <= 2.
Proof.
  intros c attempts. split; [vm_compute; reflexivity|].
  assert (Ht : times_from 0 attempts) by (repeat split; discriminate).
  exact (call_rate_bounded "alice" c attempts 0 (secs 62) eq_refl (conj eq_refl eq_refl) Ht).
Defined.

End Witness.
