(* ===== verification/Destination.v ===== *)
(** * Destinations (security/destination.rs)

    Rules on the prefix of a dialed number, for everyone or for one user. *)

From S2P Require Import Prelude Str.

Record DestinationRuleToml := mkToml {
  toml_prefix : string;
  toml_action : string;
  toml_user : option string;
  toml_description : string
}.

Record DestinationsConfig := mkConfig {
  cfg_enabled : bool;
  default_action : string;
  cfg_country_code : string;
  cfg_rules : list DestinationRuleToml;
  seed_irsf_rules : bool
}.

Record DestinationRule := mkRule {
  id : string;
  prefix : string;
  deny : bool;
  rule_user : option string;
  description : string;
  rule_enabled : bool
}.

Inductive DestinationDecision :=
  | Allowed
  | Blocked (rule_id description : string).

Record DestinationPolicy := mkPolicy {
  rules : list DestinationRule;
  default_deny : bool;
  default_cc : string;
  policy_enabled : bool;
  blocked_total : Z
}.

#[export] Instance eta_policy : Eta DestinationPolicy := fun p =>
  mkPolicy (rules p) (default_deny p) (default_cc p) (policy_enabled p) (blocked_total p).

Definition IRSF_SEED : list (string * string) :=
  [("+881", "Global Mobile Satellite System"); ("+882", "International Networks");
   ("+883", "International Networks"); ("+979", "International Premium Rate")].

Definition new (c : DestinationsConfig) : DestinationPolicy :=
  let rules :=
    imap (fun i r => mkRule ("cfg-" +:+ show (Z.of_nat i)) (toml_prefix r) (eq_ignore_ascii_case (toml_action r) "deny")
                       (toml_user r) (toml_description r) true) (cfg_rules c) in
  let rules :=
    if seed_irsf_rules c && negb (existsb deny rules)
    then rules ++ map (fun pd => mkRule ("irsf" +:+ pd.1) pd.1 true None pd.2 true) IRSF_SEED
    else rules in
  mkPolicy rules (eq_ignore_ascii_case (default_action c) "deny") (cfg_country_code c) (cfg_enabled c) 0.

Definition is_separator (c : ascii) : bool := bool_decide (c ∈ [" "; "-"; "."]%char).

Fixpoint sfilter (p : ascii -> bool) (s : string) : string :=
  match s with
  | "" => ""
  | String c s => if p c then String c (sfilter p s) else sfilter p s
  end.

Definition canonicalize (dialed : string) (p : DestinationPolicy) : string :=
  let digits := sfilter (fun c => negb (is_separator c)) dialed in
  if starts_with "+" digits then digits
  else if negb (sall is_digit digits) then dialed
  else match strip_prefix "00" digits with
  | Some rest => "+" +:+ rest
  | None =>
      match strip_prefix "0" digits with
      | Some rest => "+" +:+ default_cc p +:+ rest
      | None => digits
      end
  end.

(** The key of [max_by_key]: scope, length of the prefix, denial. *)
Definition rule_lt (a b : DestinationRule) : bool :=
  let u r := Z.b2z (bool_decide (is_Some (rule_user r))) in
  let n r := Z.of_nat (String.length (prefix r)) in
  let d r := Z.b2z (deny r) in
  (u a <? u b) || ((u a =? u b) && ((n a <? n b) || ((n a =? n b) && (d a <? d b)))).

Definition applies (canonical dialed : string) (user : option string) (r : DestinationRule) : bool :=
  rule_enabled r && (bool_decide (rule_user r = None) || bool_decide (rule_user r = user))
  && (starts_with (prefix r) canonical || starts_with (prefix r) dialed).

Definition check (dialed : string) (user : option string) (p : DestinationPolicy)
    : DestinationDecision * DestinationPolicy :=
  if negb (policy_enabled p) then (Allowed, p)
  else
    let canonical := canonicalize dialed p in
    let count := p <| blocked_total := wrapw 64 (blocked_total p + 1) |> in
    match max_by rule_lt (List.filter (applies canonical dialed user) (rules p)) with
    | Some rule => if deny rule then (Blocked (id rule) (description rule), count) else (Allowed, p)
    | None => if default_deny p then (Blocked "default" "default deny", count) else (Allowed, p)
    end.

Definition replace_rules (r : list DestinationRule) (p : DestinationPolicy) : nat * DestinationPolicy :=
  (length r, p <| rules := r |>).
Definition add_rule (r : DestinationRule) (p : DestinationPolicy) : DestinationPolicy := p <| rules := rules p ++ [r] |>.
Definition remove_rule (i : string) (p : DestinationPolicy) : bool * DestinationPolicy :=
  let kept := List.filter (fun r => negb (seqb (id r) i)) (rules p) in
  ((length kept <? length (rules p))%nat, p <| rules := kept |>).
Definition set_default_action (d : bool) (p : DestinationPolicy) : DestinationPolicy := p <| default_deny := d |>.
Definition set_enabled (on : bool) (p : DestinationPolicy) : DestinationPolicy := p <| policy_enabled := on |>.
Definition set_default_country_code (cc : string) (p : DestinationPolicy) : DestinationPolicy := p <| default_cc := cc |>.

(** ** Theorems *)

Definition blocked (d : DestinationDecision) : bool := match d with Blocked _ _ => true | Allowed => false end.

(** [r] outranks [s] or ties with it: it is scoped to a user when [s] is, then
    it has the longer prefix, then it denies. *)
Definition outranks (r s : DestinationRule) : Prop := rule_lt r s = false.

Lemma rule_lt_spec a b :
  let u r := Z.b2z (bool_decide (is_Some (rule_user r))) in
  let n r := Z.of_nat (String.length (prefix r)) in
  let d r := Z.b2z (deny r) in
  rule_lt a b = true <-> (u a < u b \/ (u a = u b /\ (n a < n b \/ (n a = n b /\ d a < d b)))).
Proof.
  cbv zeta. unfold rule_lt.
  rewrite orb_true_iff, andb_true_iff, orb_true_iff, andb_true_iff, !Z.ltb_lt, !Z.eqb_eq. done.
Qed.

(** Decide a comparison of rules with [lia]. *)
Ltac rule_lia :=
  repeat match goal with
  | H : rule_lt _ _ = true |- _ => apply rule_lt_spec in H
  | H : rule_lt _ _ = false |- _ => apply not_true_iff_false in H; rewrite rule_lt_spec in H
  | |- rule_lt _ _ = false => apply not_true_iff_false; rewrite rule_lt_spec
  end; cbv zeta in *; lia.

Lemma best_rule canonical dialed user rs :
  match max_by rule_lt (List.filter (applies canonical dialed user) rs) with
  | Some r => r ∈ rs /\ applies canonical dialed user r = true /\
              forall s, s ∈ rs -> applies canonical dialed user s = true -> outranks r s
  | None => forall s, s ∈ rs -> applies canonical dialed user s = false
  end.
Proof.
  destruct (max_by rule_lt _) as [r|] eqn:E.
  - apply max_by_spec in E as [Hr Hm]; [|intros x y z H1 H2; rule_lia|intros x y H; rule_lia|intros x; rule_lia].
    apply elem_of_filter_bool in Hr as [Hr Ha]. split_and!; [done|done|]. intros s Hs Has. apply Hm.
    by apply elem_of_filter_bool.
  - apply max_by_none in E. intros s Hs. destruct (applies canonical dialed user s) eqn:Ea; [|done].
    assert (Hi : s ∈ List.filter (applies canonical dialed user) rs) by by apply elem_of_filter_bool.
    rewrite E in Hi. by apply not_elem_of_nil in Hi.
Qed.

(** Rules that tie have the same decision. *)
Lemma tie_same_deny a b : outranks a b -> outranks b a -> deny a = deny b.
Proof.
  unfold outranks. intros H1 H2. assert (Z.b2z (deny a) = Z.b2z (deny b)) by rule_lia.
  by destruct (deny a), (deny b).
Qed.

(** A dialed number is blocked exactly when the rule that outranks the
    others denies it: among the enabled rules for everyone or for the caller
    whose prefix starts the number as dialed or in canonical form, a rule for
    the caller beats a global one, then the longest prefix wins, then a denial
    wins; without a rule, the default decides. The order of the rules and the
    identities of ties never matter. *)
Theorem destination_decision dialed user p rs' :
  policy_enabled p = true -> rules p ≡ₚ rs' ->
  let ok := applies (canonicalize dialed p) dialed user in
  (blocked (check dialed user p).1 = true <->
   (exists r, r ∈ rules p /\ ok r = true /\ deny r = true /\ forall s, s ∈ rules p -> ok s = true -> outranks r s) \/
   (default_deny p = true /\ forall s, s ∈ rules p -> ok s = false)) /\
  blocked (check dialed user (p <| rules := rs' |>)).1 = blocked (check dialed user p).1.
Proof.
  intros He Hp ok.
  assert (H : forall q, policy_enabled q = true -> canonicalize dialed q = canonicalize dialed p ->
    blocked (check dialed user q).1 = true <->
    (exists r, r ∈ rules q /\ ok r = true /\ deny r = true /\ forall s, s ∈ rules q -> ok s = true -> outranks r s) \/
    (default_deny q = true /\ forall s, s ∈ rules q -> ok s = false)).
  { intros q Hq Hc. unfold check. rewrite Hq, Hc. cbn [negb].
    assert (Hb := best_rule (canonicalize dialed p) dialed user (rules q)). fold ok in Hb.
    destruct (max_by rule_lt _) as [r|].
    - destruct Hb as (Hr & Ha & Hm). destruct (deny r) eqn:Ed; cbn; split; try done.
      + intros _. left. by exists r.
      + intros [(s & Hs & Has & Hd & Hms)|[_ Hn]]; [|by rewrite (Hn r Hr) in Ha].
        rewrite <- Hd, <- Ed. apply tie_same_deny; auto.
    - destruct (default_deny q) eqn:Ed; cbn; split; try done; [intros _; by right|].
      intros [(s & Hs & Has & _)|[? _]]; [by rewrite (Hb s Hs) in Has|done]. }
  split; [by apply H|]. apply eq_true_iff_eq. rewrite (H p He eq_refl). rewrite (H (p <| rules := rs' |>)) by done.
  cbn [rules default_deny set_field]. by setoid_rewrite Hp.
Qed.

(** A rule in national form does not follow the number past a separator. *)
Example separator_evades_rule :
  let p := new (mkConfig true "allow" "33" [mkToml "08" "deny" None "premium"] false) in
  blocked (check "0899123456" None p).1 = true /\ blocked (check "0-899123456" None p).1 = false.
Proof. by vm_compute. Qed.

(** ** Witnesses *)

Module Witness.

Definition policy : DestinationPolicy :=
  new (mkConfig true "allow" "33" [mkToml "+33" "deny" None "national"; mkToml "+338" "allow" (Some "boss") "premium"] false).

Lemma destination_decision_witness :
  blocked (check "0142" (Some "bob") policy).1 = true /\
  blocked (check "0899" (Some "boss") (policy <| rules := rev (rules policy) |>)).1 = false.
Proof.
  assert (Hp : rules policy ≡ₚ rev (rules policy)) by (symmetry; apply reverse_Permutation || (rewrite Permutation_rev; reflexivity)).
  split.
  - apply (proj1 (destination_decision "0142" (Some "bob") policy (rev (rules policy)) eq_refl Hp)).
    left. exists (mkRule "cfg-0" "+33" true None "national" true). split; [left|].
    split; [vm_compute; reflexivity|]. split; [reflexivity|].
    intros s Hs Ha. apply elem_of_cons in Hs as [->|Hs]; [vm_compute; reflexivity|].
    apply elem_of_cons in Hs as [->|Hs]; [vm_compute in Ha; discriminate|]. apply not_elem_of_nil in Hs. destruct Hs.
  - rewrite (proj2 (destination_decision "0899" (Some "boss") policy (rev (rules policy)) eq_refl Hp)). vm_compute. reflexivity.
Defined.

End Witness.
