(* ===== verification/BanStore.v ===== *)
(** * Bans in the store (sbc/mod.rs, storage models.rs)

    A ban as a row of the configuration store, with its times as RFC 3339
    texts, and back. Printing and parsing an IP address are parameters. *)

From S2P Require Import Prelude Str Bytes Net Ban.

Record BanRow := mkRow {
  row_ip : string;
  row_reason : string;
  row_banned_at : string;
  row_expires_at : string;
  row_failures : Z;
  row_manual : bool;
  row_offense_count : Z
}.

(** ** The calendar *)

Definition leap (y : Z) : bool := ((y mod 4 =? 0) && negb (y mod 100 =? 0)) || (y mod 400 =? 0).
Definition year_len (y : Z) : Z := if leap y then 366 else 365.
Definition month_len (y : Z) : list Z :=
  [31; if leap y then 29 else 28; 31; 30; 31; 30; 31; 31; 30; 31; 30; 31].

(** The loop over the years; a year has at least 365 days. *)
Fixpoint year_of (fuel : nat) (y rem : Z) : Z * Z :=
  match fuel with
  | O => (y, rem)
  | S fuel => if rem <? year_len y then (y, rem) else year_of fuel (y + 1) (rem - year_len y)
  end.

(** The loop over the months, from the month with index [m]. *)
Fixpoint month_of (lens : list Z) (m rem : Z) : Z * Z :=
  match lens with
  | [] => (m, rem)
  | l :: lens => if l <=? rem then month_of lens (m + 1) (rem - l) else (m, rem)
  end.

(** [{:0w}] *)
Fixpoint zeros (n : nat) : string := match n with O => "" | S n => String "0" (zeros n) end.
Definition pad (w : nat) (n : Z) : string := zeros (w - String.length (show n)) +:+ show n.

(** [t]: nanoseconds since the epoch. *)
Definition systemtime_rfc3339 (t : Z) : string :=
  let s := if 0 <=? t then as_secs t else 0 in
  let days := s / 86400 in
  let rem_secs := s mod 86400 in
  let '(y, rem) := year_of (S (Z.to_nat (days / 365))) 1970 days in
  let '(m, rem) := month_of (month_len y) 0 rem in
  pad 4 y +:+ "-" +:+ pad 2 (m + 1) +:+ "-" +:+ pad 2 (rem + 1) +:+ "T"
  +:+ pad 2 (rem_secs / 3600) +:+ ":" +:+ pad 2 (rem_secs mod 3600 / 60) +:+ ":" +:+ pad 2 (rem_secs mod 60) +:+ "Z".

Definition u64 : string -> option Z := parse_uint u64_max.

Fixpoint days_before (n : nat) (y : Z) : Z :=
  match n with O => 0 | S n => year_len y + days_before n (y + 1) end.

Definition parse_ts (s : string) : option Z :=
  dt ← split_once "T" s;
  match split "-" dt.1, split ":" (trim_end_matches "Z" dt.2) with
  | y :: m :: day :: _, hh :: mm :: ss :: _ =>
      y ← u64 y; m ← u64 m; day ← u64 day;
      hh ← u64 hh; mm ← u64 mm;
      ss ← (w ← head (split "." ss); u64 w);
      let days := days_before (Z.to_nat (y - 1970)) 1970 in
      let days := fold_left Z.add (take (Z.to_nat (sat_sub m 1)) (month_len y)) days in
      let days := days + sat_sub day 1 in
      Some (secs (days * 86400 + hh * 3600 + mm * 60 + ss))
  | _, _ => None
  end.

Section rows.
Context (ip_text : IpAddr -> string) (parse_ip : string -> option IpAddr).

Definition persist_ban (e : BanEntry) : BanRow :=
  mkRow (ip_text (banned_ip e)) (reason e) (systemtime_rfc3339 (banned_at e)) (systemtime_rfc3339 (expires_at e))
    (failure_count e) (manual e) (offense_count e).

Definition ban_row_to_entry (row : BanRow) : option BanEntry :=
  ip ← parse_ip (row_ip row);
  banned_at ← parse_ts (row_banned_at row);
  expires_at ← parse_ts (row_expires_at row);
  Some (mkBan ip (row_reason row) banned_at expires_at (wrapw 32 (row_failures row)) (row_manual row)
          (wrapw 32 (row_offense_count row))).
End rows.

(** ** Lemmas: padded numbers *)

Lemma pad_digits w n : 0 <= n -> sall is_digit (pad w n) = true.
Proof.
  intros Hn. unfold pad. rewrite sall_app, (proj1 (show_spec n Hn)), andb_true_r.
  generalize (w - String.length (show n))%nat as k. induction k as [|k IH]; [done|exact IH].
Qed.

Lemma digits_zeros k s : digits_val 0 (zeros k +:+ s) = digits_val 0 s.
Proof. induction k as [|k IH]; [done|]. cbn [zeros]. by rewrite sapp_cons. Qed.

Lemma pad_not_empty w n : 0 <= n -> pad w n <> "".
Proof.
  intros Hn. unfold pad. destruct (show_spec n Hn) as (_ & _ & Hs).
  destruct (w - String.length (show n))%nat; [exact Hs|]. cbn [zeros]. by rewrite sapp_cons.
Qed.

Lemma parse_digits max s : sall is_digit s = true -> s <> "" -> digits_val 0 s <= max ->
  parse_uint max s = Some (digits_val 0 s).
Proof.
  intros Hd Hs Hm. unfold parse_uint.
  assert (match s with String "+"%char t => t | _ => s end = s) as ->.
  { destruct s as [|c s]; [done|]. simpl in Hd. to_prop. by destruct c as [[] [] [] [] [] [] [] []]. }
  rewrite Hd, seqb_false by done. cbn. by rewrite (proj2 (Z.leb_le _ _)).
Qed.

Lemma parse_pad w n : 0 <= n <= u64_max -> u64 (pad w n) = Some n.
Proof.
  intros Hn. assert (Hv : digits_val 0 (pad w n) = n).
  { unfold pad. rewrite digits_zeros. apply show_spec. lia. }
  unfold u64. rewrite <- Hv at 2. apply parse_digits; [apply pad_digits; lia|apply pad_not_empty; lia|rewrite Hv; lia].
Qed.

Lemma pad_free c w n : 0 <= n -> is_digit c = false -> free_of c (pad w n) = true.
Proof.
  intros Hn Hc. eapply sall_impl; [|by apply pad_digits]. intros d Hd. apply negb_true_iff, bool_decide_eq_false.
  intros ->. congruence.
Qed.

(** ** Lemmas: the calendar *)

Lemma year_len_bounds y : 365 <= year_len y <= 366.
Proof. unfold year_len. destruct (leap y); lia. Qed.

(** The year reached is the one the days fall in. *)
Lemma year_of_spec fuel : forall y rem, 0 <= rem < 365 * Z.of_nat fuel ->
  exists n, (year_of fuel y rem).1 = y + Z.of_nat n /\
    rem = days_before n y + (year_of fuel y rem).2 /\
    0 <= (year_of fuel y rem).2 < year_len (y + Z.of_nat n).
Proof.
  induction fuel as [|fuel IH]; intros y rem Hr; [lia|]. cbn [year_of]. destruct (rem <? year_len y) eqn:E; to_prop.
  - exists 0%nat. cbn. rewrite Z.add_0_r. lia.
  - assert (Hy := year_len_bounds y). destruct (IH (y + 1) (rem - year_len y)) as (n & H1 & H2 & H3); [lia|].
    exists (S n). rewrite H1. cbn [days_before]. replace (y + Z.of_nat (S n)) with (y + 1 + Z.of_nat n) by lia. lia.
Qed.

Lemma sum_shift l a b : fold_left Z.add l (a + b) = a + fold_left Z.add l b.
Proof. revert b. induction l as [|x l IH]; intros b; [done|]. cbn. by rewrite <- Z.add_assoc, IH. Qed.

Lemma month_of_spec lens : forall m rem, 0 <= rem -> rem < fold_left Z.add lens 0 ->
  exists n, (month_of lens m rem).1 = m + Z.of_nat n /\ (n < length lens)%nat /\
    rem = fold_left Z.add (take n lens) 0 + (month_of lens m rem).2 /\
    0 <= (month_of lens m rem).2 < nth n lens 0.
Proof.
  induction lens as [|l lens IH]; intros m rem H0 Hr; [cbn in Hr; lia|].
  cbn [fold_left] in Hr. replace (0 + l) with (l + 0) in Hr by lia. rewrite sum_shift in Hr. cbn [month_of].
  destruct (l <=? rem) eqn:E; to_prop.
  - destruct (IH (m + 1) (rem - l)) as (n & H1 & H2 & H3 & H4); [lia|lia|]. exists (S n). rewrite H1.
    cbn [take nth length fold_left]. replace (0 + l) with (l + 0) by lia. rewrite sum_shift. split_and!; try lia.
  - exists 0%nat. cbn. lia.
Qed.

Lemma month_lens y : fold_left Z.add (month_len y) 0 = year_len y /\ Forall (fun l => l <= 31) (month_len y).
Proof. unfold month_len, year_len. destruct (leap y); (split; [done|]; repeat constructor; lia). Qed.

(** ** Round trips *)

Lemma date_split a b c d e f :
  free_of "T" a = true -> free_of "T" b = true -> free_of "T" c = true ->
  free_of "-" a = true -> free_of "-" b = true -> free_of "-" c = true ->
  free_of ":" d = true -> free_of ":" e = true -> free_of ":" f = true ->
  sall is_digit f = true -> f <> "" ->
  let s := a +:+ "-" +:+ b +:+ "-" +:+ c +:+ "T" +:+ d +:+ ":" +:+ e +:+ ":" +:+ f +:+ "Z" in
  exists date time, split_once "T" s = Some (date, time) /\ split "-" date = [a; b; c] /\
    split ":" (trim_end_matches "Z" time) = [d; e; f].
Proof.
  intros Ha Hb Hc Ha' Hb' Hc' Hd He Hf Hdig Hne s.
  exists (a +:+ "-" +:+ b +:+ "-" +:+ c), (d +:+ ":" +:+ e +:+ ":" +:+ f +:+ "Z"). split_and!.
  - unfold s. replace (a +:+ "-" +:+ b +:+ "-" +:+ c +:+ "T" +:+ d +:+ ":" +:+ e +:+ ":" +:+ f +:+ "Z")
      with ((a +:+ "-" +:+ b +:+ "-" +:+ c) +:+ String "T" (d +:+ ":" +:+ e +:+ ":" +:+ f +:+ "Z"))
      by (rewrite !sapp_assoc; reflexivity).
    apply split_once_app. rewrite !free_of_app, Ha, Hb, Hc. done.
  - unfold split. change ("-" +:+ b +:+ "-" +:+ c) with (String "-" (b +:+ String "-" c)).
    rewrite split_by_app; [|done|by apply bool_decide_true]. rewrite split_by_app; [|done|by apply bool_decide_true].
    by rewrite split_by_free.
  - assert (trim_end_matches "Z" (d +:+ ":" +:+ e +:+ ":" +:+ f +:+ "Z") = d +:+ ":" +:+ e +:+ ":" +:+ f) as ->.
    { replace (d +:+ ":" +:+ e +:+ ":" +:+ f +:+ "Z") with ((d +:+ ":" +:+ e +:+ ":" +:+ f) +:+ "Z") by (by rewrite !sapp_assoc).
      set (x := d +:+ ":" +:+ e +:+ ":" +:+ f). unfold trim_end_matches.
      assert (Hx : trim_end_by (fun c => bool_decide (c = "Z"%char)) x = x).
      { unfold x. replace (d +:+ ":" +:+ e +:+ ":" +:+ f) with ((d +:+ ":" +:+ e +:+ ":") +:+ f) by by rewrite !sapp_assoc.
        apply trim_end_app; [|done]. clear -Hdig. induction f as [|c f IH]; [done|]. cbn [sall] in Hdig. to_prop.
        cbn [trim_end_by]. rewrite IH by done. destruct f; [|done].
        destruct (bool_decide (c = "Z"%char)) eqn:E; [|done]. to_prop. by subst c. }
      assert (Hn : x <> "") by (unfold x; destruct d; done).
      clear -Hx Hn. induction x as [|c x IH]; [done|]. rewrite sapp_cons, trim_end_step. rewrite trim_end_step in Hx.
      destruct x as [|c' x']; [cbn in *; by destruct (bool_decide (c = "Z"%char))|].
      assert (Ht : trim_end_by (fun c => bool_decide (c = "Z"%char)) (String c' x') = String c' x').
      { destruct (trim_end_by _ (String c' x')) as [|a b] eqn:E; [|congruence].
        destruct (bool_decide (c = "Z"%char)); congruence. }
      rewrite IH by done. done. }
    unfold split. change (":" +:+ e +:+ ":" +:+ f) with (String ":" (e +:+ String ":" f)).
    rewrite split_by_app; [|done|by apply bool_decide_true]. rewrite split_by_app; [|done|by apply bool_decide_true].
    by rewrite split_by_free.
Qed.

Lemma rfc3339_parsed t : 0 <= t < 2 ^ 64 * 1000000000 -> parse_ts (systemtime_rfc3339 t) = Some (secs (as_secs t)).
Proof.
  intros Ht. unfold systemtime_rfc3339. rewrite (proj2 (Z.leb_le 0 t)) by lia.
  set (s := as_secs t). assert (Hs : 0 <= s < 2 ^ 64) by (unfold s, as_secs; zlia).
  destruct (year_of_spec (S (Z.to_nat (s / 86400 / 365))) 1970 (s / 86400)) as (n & Hy & Hd & Hr); [zlia|].
  destruct (year_of _ 1970 (s / 86400)) as [y rem]. cbn [fst snd] in *. subst y.
  destruct (month_lens (1970 + Z.of_nat n)) as [Hm1 Hm2].
  destruct (month_of_spec (month_len (1970 + Z.of_nat n)) 0 rem) as (k & Hk1 & Hk2 & Hk3 & Hk4); [lia|lia|].
  destruct (month_of _ 0 rem) as [m d]. cbn [fst snd] in *. subst m.
  assert (Hlen : length (month_len (1970 + Z.of_nat n)) = 12%nat) by (unfold month_len; by destruct (leap _)).
  assert (Hd31 : nth k (month_len (1970 + Z.of_nat n)) 0 <= 31).
  { rewrite Forall_forall in Hm2. apply Hm2, list_elem_of_In, List.nth_In. lia. }
  assert (Hn : Z.of_nat n <= s / 86400).
  { enough (Z.of_nat n <= days_before n 1970) by lia. clear. generalize 1970.
    induction n as [|n IH]; intros y; [done|]. cbn [days_before]. specialize (IH (y + 1)). assert (Hb := year_len_bounds y). lia. }
  assert (Hh : 0 <= s mod 86400 / 3600 <= u64_max /\ 0 <= s mod 86400 mod 3600 / 60 <= u64_max /\
               0 <= s mod 86400 mod 60 <= u64_max /\ 0 <= s / 86400 < 2 ^ 63) by (unfold u64_max; zlia).
  destruct Hh as (Hh1 & Hh2 & Hh3 & Hh4).
  destruct (date_split (pad 4 (1970 + Z.of_nat n)) (pad 2 (0 + Z.of_nat k + 1)) (pad 2 (d + 1))
              (pad 2 (s mod 86400 / 3600)) (pad 2 (s mod 86400 mod 3600 / 60)) (pad 2 (s mod 86400 mod 60)))
    as (date & time & E1 & E2 & E3); try (apply pad_free; [lia|reflexivity]);
    [apply pad_digits; lia|apply pad_not_empty; lia|].
  unfold parse_ts. rewrite E1. cbn [mbind option_bind fst snd]. rewrite E2, E3.
  rewrite !parse_pad by (unfold u64_max in *; lia). cbn [mbind option_bind].
  assert (Hdot : split "." (pad 2 (s mod 86400 mod 60)) = [pad 2 (s mod 86400 mod 60)]).
  { apply split_by_free, pad_free; [lia|reflexivity]. }
  rewrite Hdot. cbn [head mbind option_bind]. rewrite parse_pad by lia. cbn [mbind option_bind].
  do 2 f_equal. unfold sat_sub. replace (Z.to_nat (1970 + Z.of_nat n - 1970)) with n by lia.
  replace (Z.to_nat (Z.max 0 (0 + Z.of_nat k + 1 - 1))) with k by lia.
  replace (days_before n 1970) with (days_before n 1970 + 0) by lia. rewrite sum_shift.
  replace (Z.max 0 (d + 1 - 1)) with d by lia.
  replace (days_before n 1970 + fold_left Z.add (take k (month_len (1970 + Z.of_nat n))) 0 + d) with (s / 86400) by lia.
  f_equal. zlia.
Qed.

(** A ban survives a restart: the row written for it reads back as the same
    ban, with its two times cut to the second, whatever the date. *)
Theorem ban_survives_restart ip_text parse_ip e :
  parse_ip (ip_text (banned_ip e)) = Some (banned_ip e) ->
  0 <= banned_at e < 2 ^ 64 * 1000000000 -> 0 <= expires_at e < 2 ^ 64 * 1000000000 ->
  is_u32 (failure_count e) -> is_u32 (offense_count e) ->
  ban_row_to_entry parse_ip (persist_ban ip_text e)
  = Some (mkBan (banned_ip e) (reason e) (secs (as_secs (banned_at e))) (secs (as_secs (expires_at e)))
            (failure_count e) (manual e) (offense_count e)).
Proof.
  intros Hip H1 H2 H3 H4. unfold ban_row_to_entry, persist_ban. cbn [row_ip row_banned_at row_expires_at row_failures
    row_manual row_offense_count row_reason]. rewrite Hip. cbn [mbind option_bind].
  rewrite !rfc3339_parsed by done. cbn [mbind option_bind]. by rewrite !wrapw_small.
Qed.

Module Witness.

(** 29 February 2024, 23:59:59.5. *)
Definition entry : BanEntry := mkBan (V4 [203; 0; 113; 9]) "auth" 1709251199500000000 1709254799500000000 5 false 1.

Lemma ban_survives_restart_witness :
  systemtime_rfc3339 (banned_at entry) = "2024-02-29T23:59:59Z" /\
  exists e, ban_row_to_entry (fun _ => Some (V4 [203; 0; 113; 9])) (persist_ban (fun _ => "203.0.113.9") entry) = Some e /\
    expires_at e = 1709254799000000000.
Proof.
  split; [vm_compute; reflexivity|]. eexists. split.
  - apply (ban_survives_restart (fun _ => "203.0.113.9") (fun _ => Some (V4 [203; 0; 113; 9])) entry);
      vm_compute; intuition congruence.
  - vm_compute. reflexivity.
Defined.

End Witness.
