(* ===== verification/Acl.v ===== *)
(** * Access control lists (acl.rs)

    The rules on source addresses, the decision they give, and their text
    form. A network and its text are [ipnetwork]'s: parameters. *)

From S2P Require Import Prelude Str Bytes Net.

(** ** Data *)

Inductive AclAction := Allow | Deny | Log.

#[export] Instance AclAction_eq_dec : EqDecision AclAction.
Proof. solve_decision. Defined.

Definition action_text (a : AclAction) : string := match a with Allow => "allow" | Deny => "deny" | Log => "log" end.

Definition parse_action (s : string) : sbc_result AclAction :=
  let l := to_ascii_lowercase s in
  if existsb (seqb l) ["allow"; "permit"; "accept"] then Ok Allow
  else if existsb (seqb l) ["deny"; "drop"; "block"] then Ok Deny
  else if existsb (seqb l) ["log"; "warn"] then Ok Log
  else Err (EConfig "unknown ACL action").

Inductive Direction := Inbound | Outbound | Both.

#[export] Instance Direction_eq_dec : EqDecision Direction.
Proof. solve_decision. Defined.

(** [str::parse::<i32>] *)
Definition parse_i32 : string -> option Z := parse_int (2 ^ 31).

Definition show_i32 : Z -> string := show_int.

(** [splitn]: the last piece is what is left. *)
Fixpoint splitn (n : nat) (c : ascii) (s : string) : list string :=
  match n with
  | O => []
  | S O => [s]
  | S n => match split_once c s with Some (a, b) => a :: splitn n c b | None => [s] end
  end.

Section acl.
Context {IpNetwork : Type} (parse_net : string -> option IpNetwork) (net_text : IpNetwork -> string)
  (net_contains : IpNetwork -> IpAddr -> bool) (ip_text : IpAddr -> string).

Record AclRule := mkRule {
  id : string;
  name : string;
  cidr : IpNetwork;
  action : AclAction;
  priority : Z;
  direction : Direction;
  enabled : bool;
  comment : option string;
  updated_at : Z
}.

#[local] Instance eta_rule : Eta AclRule := fun r =>
  mkRule (id r) (name r) (cidr r) (action r) (priority r) (direction r) (enabled r) (comment r) (updated_at r).

Definition parse_cidr (s : string) : sbc_result IpNetwork := ok_or (parse_net s) (EConfig "invalid CIDR").

Definition rule_new (now : Z) (id name cidr : string) (action : AclAction) (priority : Z) : sbc_result AclRule :=
  let? n := parse_cidr cidr in Ok (mkRule id name n action priority Both true None now).

Definition matches (i : IpAddr) (r : AclRule) : bool := enabled r && net_contains (cidr r) i.

Definition applies_to (d : Direction) (r : AclRule) : bool :=
  bool_decide (direction r = Both) || bool_decide (direction r = d).

Definition with_direction (d : Direction) (r : AclRule) : AclRule := r <| direction := d |>.
Definition with_comment (c : string) (r : AclRule) : AclRule := r <| comment := Some c |>.

Inductive AclResult :=
  | Allowed (rule_id : option string)
  | Denied (rule_id reason : string)
  | Logged (rule_id : string)
  | Default (allowed : bool).

Definition is_allowed (r : AclResult) : bool :=
  match r with Allowed _ | Logged _ | Default true => true | _ => false end.

Record AclStats := mkStats { total_checked : Z; allowed : Z; denied : Z; logged : Z; default_applied : Z; rule_count : nat }.

Definition no_stats : AclStats := mkStats 0 0 0 0 0 0.

Record AclManager := mkAcl { default_action : AclAction; rules : gmap string AclRule; acl_stats : AclStats }.

#[local] Instance eta_acl : Eta AclManager := fun m => mkAcl (default_action m) (rules m) (acl_stats m).

Definition new (default : AclAction) : AclManager := mkAcl default ∅ no_stats.
Definition new_permissive : AclManager := new Allow.
Definition new_restrictive : AclManager := new Deny.

(** ** Operations *)

Definition add_rule (r : AclRule) (m : AclManager) : AclManager := m <| rules := <[id r := r]> (rules m) |>.

Definition remove_rule (id : string) (m : AclManager) : sbc_result unit * AclManager :=
  match rules m !! id with
  | Some _ => (Ok tt, m <| rules := delete id (rules m) |>)
  | None => (Err (EConfig "ACL rule not found"), m)
  end.

Definition replace_rules (l : list AclRule) (m : AclManager) : nat * AclManager :=
  let rs := fold_left (fun rs r => <[id r := r]> rs) l ∅ in (size rs, m <| rules := rs |>).

Definition set_rule_enabled (now : Z) (id : string) (b : bool) (m : AclManager) : sbc_result unit * AclManager :=
  match rules m !! id with
  | Some r => (Ok tt, m <| rules := <[id := r <| enabled := b |> <| updated_at := now |>]> (rules m) |>)
  | None => (Err (EConfig "ACL rule not found"), m)
  end.

Definition set_default_action (a : AclAction) (m : AclManager) : AclManager := m <| default_action := a |>.
Definition reset_stats (m : AclManager) : AclManager := m <| acl_stats := no_stats |>.
Definition stats (m : AclManager) : AclStats :=
  let s := acl_stats m in mkStats (total_checked s) (allowed s) (denied s) (logged s) (default_applied s) (size (rules m)).

Definition verdict (r : AclRule) : AclResult :=
  match action r with
  | Allow => Allowed (Some (id r))
  | Deny => Denied (id r) (default (name r) (comment r))
  | Log => Logged (id r)
  end.

Definition bump (n : Z) : Z := wrapw 64 (n + 1).

Definition count_result (r : AclResult) (s : AclStats) : AclStats :=
  let total := bump (total_checked s) in
  match r with
  | Allowed _ => mkStats total (bump (allowed s)) (denied s) (logged s) (default_applied s) (rule_count s)
  | Denied _ _ => mkStats total (allowed s) (bump (denied s)) (logged s) (default_applied s) (rule_count s)
  | Logged _ => mkStats total (allowed s) (denied s) (bump (logged s)) (default_applied s) (rule_count s)
  | Default true => mkStats total (bump (allowed s)) (denied s) (logged s) (bump (default_applied s)) (rule_count s)
  | Default false => mkStats total (allowed s) (bump (denied s)) (logged s) (bump (default_applied s)) (rule_count s)
  end.

(** [Reverse(priority)] *)
Definition by_priority (r : AclRule) : Z * Z := (- priority r, 0).

Context {HI : HashIter string AclRule}.

Definition values (m : AclManager) : list AclRule := (hiter (rules m)).*2.

Definition decide_on (i : IpAddr) (d : Direction) (m : AclManager) : AclResult :=
  match List.find (matches i) (sort_by_key by_priority (List.filter (applies_to d) (values m))) with
  | Some r => verdict r
  | None => Default (negb (bool_decide (default_action m = Deny)))
  end.

Definition check (i : IpAddr) (d : Direction) (m : AclManager) : AclResult * AclManager :=
  let r := decide_on i d m in (r, m <| acl_stats := count_result r (acl_stats m) |>).

Definition check_addr (a : SocketAddr) : Direction -> AclManager -> AclResult * AclManager := check (ip a).

Definition sorted_rules (m : AclManager) : list AclRule := sort_by_key by_priority (values m).

(** ** Text form *)

Definition rule_text (r : AclRule) : string :=
  id r +:+ "|" +:+ name r +:+ "|" +:+ net_text (cidr r) +:+ "|" +:+ action_text (action r) +:+ "|" +:+ show_i32 (priority r).

Definition export_to_text (m : AclManager) : string := join (String "010"%char "") (map rule_text (sorted_rules m)).

(** A line gives no rule, a rule, or the error that ends the load. *)
Definition parse_line (now : Z) (line : string) : sbc_result (option AclRule) :=
  let line := trim line in
  if seqb line "" || starts_with "#" line then Ok None
  else
    match splitn 5 "|"%char line with
    | [i; n; c; a; p] =>
        let? act := parse_action a in
        let? prio := ok_or (parse_i32 (trim p)) (EConfig "invalid priority") in
        let? r := rule_new now (trim i) (trim n) (trim c) act prio in
        Ok (Some r)
    | _ => Ok None
    end.

Fixpoint load_lines (now : Z) (ls : list string) (count : Z) (m : AclManager) : sbc_result Z * AclManager :=
  match ls with
  | [] => (Ok count, m)
  | l :: ls =>
      match parse_line now l with
      | Err e => (Err e, m)
      | Ok None => load_lines now ls count m
      | Ok (Some r) => load_lines now ls (count + 1) (add_rule r m)
      end
  end.

Definition load_from_text (now : Z) (text : string) (m : AclManager) : sbc_result Z * AclManager :=
  load_lines now (lines text) 0 m.

Definition block_ip (now : Z) (i : IpAddr) (reason : string) (m : AclManager) : sbc_result unit * AclManager :=
  match (match parse_net (ip_text i +:+ "/128") with Some n => Some n | None => parse_net (ip_text i +:+ "/32") end) with
  | None => (Err (EConfig "invalid IP"), m)
  | Some n =>
      match rule_new now ("block-" +:+ ip_text i) reason (net_text n) Deny 1000 with
      | Ok r => (Ok tt, add_rule (with_comment reason r) m)
      | Err e => (Err e, m)
      end
  end.

Definition unblock_ip (i : IpAddr) (m : AclManager) : sbc_result unit * AclManager := remove_rule ("block-" +:+ ip_text i) m.
End acl.

(** ** The decision *)

Section sorted.
Context {A : Type} (key : A -> Z * Z).

Lemma find_first (p : A -> bool) l x :
  StronglySorted (key_le key) l -> List.find p l = Some x -> x ∈ l /\ p x = true /\ forall y, y ∈ l -> p y = true -> y = x \/ key_le key x y.
Proof.
  induction 1 as [|a l Hs IH Ha]; [done|]. simpl. destruct (p a) eqn:Hp.
  - intros [= <-]. split_and!; [by left|done|]. intros y Hy _. inversion Hy; subst; [by left|]. right.
    rewrite Forall_forall in Ha. by apply Ha.
  - intros H. destruct (IH H) as (Hx & Hpx & Hmin). split_and!; [by right|done|]. intros y Hy Hpy.
    inversion Hy; subst; [congruence|]. by apply Hmin.
Qed.
End sorted.

Section decision.
Context {IpNetwork : Type} (net_contains : IpNetwork -> IpAddr -> bool).
Abbreviation Rule := (@AclRule IpNetwork).

(** A rule that speaks of an address. *)
Definition candidate (i : IpAddr) (d : Direction) (m : AclManager) (r : Rule) : Prop :=
  (exists k, rules m !! k = Some r) /\ applies_to d r = true /\ matches net_contains i r = true.

Lemma decide_spec {HI : HashIter string Rule} i d m :
  (forall r, ~ candidate i d m r) /\ decide_on net_contains i d m = Default (negb (bool_decide (default_action m = Deny))) \/
  exists r, candidate i d m r /\ (forall r', candidate i d m r' -> priority r' <= priority r) /\
    decide_on net_contains i d m = verdict r.
Proof.
  unfold decide_on. set (l := sort_by_key by_priority (List.filter (applies_to d) (values m))).
  assert (Hv : forall r, r ∈ l <-> (exists k, rules m !! k = Some r) /\ applies_to d r = true).
  { intros r. unfold l. rewrite sort_by_key_perm, elem_of_filter_bool. unfold values. rewrite list_elem_of_fmap. split.
    - intros [([k r'] & -> & Hk) Ha]. apply elem_of_hiter in Hk. split; [by exists k|done].
    - intros [[k Hk] Ha]. split; [|done]. exists (k, r). split; [done|]. by apply elem_of_hiter. }
  assert (Hs := sort_by_key_sorted by_priority (List.filter (applies_to d) (values m))). fold l in Hs.
  destruct (List.find _ l) as [r|] eqn:Hf; [right|left].
  - destruct (find_first _ _ _ _ Hs Hf) as (Hr & Hm & Hmin). apply Hv in Hr as [Hr Ha]. exists r. split_and!; [done| |done].
    intros r' (Hr' & Ha' & Hm'). destruct (Hmin r') as [->|Hk]; [by apply Hv|done|done|].
    unfold key_le, key_leb, by_priority in Hk. cbn in Hk. apply orb_true_iff in Hk as [Hk|Hk]; [lia|].
    apply andb_true_iff in Hk. lia.
  - split; [|done]. intros r (Hr & Ha & Hm). assert (H := List.find_none _ _ Hf r). rewrite H in Hm; [done|].
    apply list_elem_of_In, Hv. by split.
Qed.

(** The access list decides by priority alone. The verdict is that of a
    rule of the highest priority among those enabled that cover the address and
    the direction, the default without one; and when no two such rules share a
    priority, the order in which the rules are stored never matters. *)
Theorem acl_order_free (H1 H2 : HashIter string Rule) i d m :
  (forall r r', candidate i d m r -> candidate i d m r' -> priority r = priority r' -> r = r') ->
  check net_contains (HI := H1) i d m = check net_contains (HI := H2) i d m /\
  match @decide_on _ net_contains H1 i d m with
  | Default b => (forall r, ~ candidate i d m r) /\ b = negb (bool_decide (default_action m = Deny))
  | v => exists r, candidate i d m r /\ (forall r', candidate i d m r' -> priority r' <= priority r) /\ v = verdict r
  end.
Proof.
  intros Hp. split.
  - unfold check. replace (@decide_on _ net_contains H2 i d m) with (@decide_on _ net_contains H1 i d m); [done|].
    destruct (@decide_spec H1 i d m) as [[Hn1 ->]|(r1 & Hc1 & Hm1 & ->)], (@decide_spec H2 i d m) as [[Hn2 ->]|(r2 & Hc2 & Hm2 & ->)].
    + done.
    + by destruct (Hn1 r2).
    + by destruct (Hn2 r1).
    + f_equal. apply Hp; [done..|]. assert (Ha := Hm1 r2 Hc2). assert (Hb := Hm2 r1 Hc1). lia.
  - destruct (@decide_spec H1 i d m) as [[Hn ->]|(r & Hc & Hm & ->)]; [done|].
    unfold verdict. destruct (action r) eqn:Ha; exists r; (split_and!; [done..|by rewrite Ha]).
Qed.

(** An address blocked by name is refused unless a rule of that priority or
    above says otherwise. *)
Lemma block_denies {HI : HashIter string Rule} i d m r :
  candidate i d m r -> action r = Deny -> (forall r', candidate i d m r' -> r' <> r -> priority r' < priority r) ->
  is_allowed (decide_on net_contains i d m) = false.
Proof.
  intros Hr Ha Hmax. destruct (decide_spec i d m) as [[Hn _]|(r' & Hc & Hm & ->)]; [by destruct (Hn r)|].
  unfold verdict. destruct (decide (action r' = Deny)) as [->|Hne]; [done|].
  assert (r' <> r) as Hd by by intros ->. specialize (Hmax r' Hc Hd). specialize (Hm r Hr). lia.
Qed.
End decision.

(** ** The text form is read back *)

Section text.
Context {IpNetwork : Type} (parse_net : string -> option IpNetwork) (net_text : IpNetwork -> string).
Abbreviation Rule := (@AclRule IpNetwork).

Definition plain (s : string) : bool := sall (fun c => negb (bool_decide (c ∈ ["|"; "010"; "013"]%char))) s.

(** Texts a rule's line can carry. *)
Record clean (r : Rule) : Prop := {
  cl_id : plain (id r) = true /\ trim (id r) = id r /\ id r <> "" /\ starts_with "#" (id r) = false;
  cl_name : plain (name r) = true /\ trim (name r) = name r;
  cl_priority : - 2 ^ 31 <= priority r < 2 ^ 31
}.

Hypothesis parse_text : forall n, parse_net (net_text n) = Some n.
Hypothesis text_plain : forall n, plain (net_text n) = true /\ trim (net_text n) = net_text n.

Lemma plain_free s : plain s = true -> free_of "|" s = true /\ no_lf s = true /\ free_of "013" s = true.
Proof.
  intros H. split_and!; (eapply sall_impl; [|exact H]); intros c Hc; apply negb_true_iff, bool_decide_eq_false in Hc;
    apply negb_true_iff, bool_decide_eq_false; set_solver.
Qed.

Lemma plain_app a b : plain (a +:+ b) = plain a && plain b.
Proof. apply sall_app. Qed.

Lemma digits_plain s : sall is_digit s = true -> plain s = true.
Proof.
  apply sall_impl. intros c Hc. apply negb_true_iff, bool_decide_eq_false. intros Hin.
  rewrite !elem_of_cons in Hin; destruct Hin as [->|[->|[->|Hin]]]; [by vm_compute in Hc..|by apply not_elem_of_nil in Hin].
Qed.

Lemma number_trim s : sall is_digit s = true -> trim s = s.
Proof. intros H. apply trim_free. eapply sall_impl; [|exact H]. intros c. apply digit_not_space. Qed.

Lemma show_i32_spec z : - 2 ^ 31 <= z < 2 ^ 31 ->
  plain (show_i32 z) = true /\ trim (show_i32 z) = show_i32 z /\ show_i32 z <> "" /\ parse_i32 (show_i32 z) = Some z.
Proof.
  intros Hz. assert (Hp := parse_show_int (2 ^ 31) z ltac:(lia) ltac:(lia)). unfold show_i32, parse_i32. revert Hp. unfold show_int.
  destruct (z <? 0) eqn:Hs; to_prop; intros Hp; split_and!; try done.
  - destruct (show_spec (- z)) as (Hd & _ & Hn); [lia|]. cbn. fold (plain (show (- z))). by rewrite digits_plain.
  - destruct (show_spec (- z)) as (Hd & _ & Hn); [lia|]. apply trim_free. cbn. eapply sall_impl; [|exact Hd].
    intros c. apply digit_not_space.
  - destruct (show_spec z) as (Hd & _ & Hn); [lia|]. by apply digits_plain.
  - destruct (show_spec z) as (Hd & _ & Hn); [lia|]. by apply number_trim.
  - by destruct (show_spec z) as (Hd & _ & Hn); [lia|].
Qed.

Lemma splitn_step n c a b : free_of c a = true -> splitn (S (S n)) c (a +:+ String c b) = a :: splitn (S n) c b.
Proof. intros H. cbn [splitn]. by rewrite split_once_app. Qed.

Lemma bar s : "|" +:+ s = String "|" s.
Proof. done. Qed.

(** The rule a line gives back. *)
Definition reload (now : Z) (r : Rule) : Rule := mkRule (id r) (name r) (cidr r) (action r) (priority r) Both true None now.

Lemma rule_text_spec now r : clean r ->
  parse_line parse_net now (rule_text net_text r) = Ok (Some (reload now r)) /\
  no_lf (rule_text net_text r) = true /\ free_of "013" (rule_text net_text r) = true /\ rule_text net_text r <> "".
Proof.
  intros [(Hi & Hti & Hni & Hhi) (Hn & Htn) Hp]. destruct (text_plain (cidr r)) as [Hc Htc].
  destruct (show_i32_spec (priority r) Hp) as (Hq & Htq & Hnq & Hpq).
  assert (Ha : plain (action_text (action r)) = true) by by destruct (action r).
  destruct (plain_free _ Hi) as (Fi & Li & Ri), (plain_free _ Hn) as (Fn & Ln & Rn), (plain_free _ Hc) as (Fc & Lc & Rc),
    (plain_free _ Ha) as (Fa & La & Ra), (plain_free _ Hq) as (_ & Lq & Rq).
  split; [|split_and!].
  - assert (Ht : trim (rule_text net_text r) = rule_text net_text r).
    { unfold rule_text. destruct (id r) as [|c s]; [done|].
      replace (String c s +:+ "|" +:+ name r +:+ "|" +:+ net_text (cidr r) +:+ "|" +:+ action_text (action r) +:+ "|" +:+ show_i32 (priority r))
        with (String c (s +:+ "|" +:+ name r +:+ "|" +:+ net_text (cidr r) +:+ "|" +:+ action_text (action r) +:+ "|") +:+ show_i32 (priority r))
        by by rewrite sapp_cons, !sapp_assoc.
      apply trim_word; [|done..]. by apply (trimmed_head c s). }
    unfold parse_line. rewrite Ht. unfold rule_text.
    assert (seqb (id r +:+ "|" +:+ name r +:+ "|" +:+ net_text (cidr r) +:+ "|" +:+ action_text (action r) +:+ "|" +:+ show_i32 (priority r)) "" = false) as ->
      by (apply seqb_false; by destruct (id r)).
    assert (starts_with "#" (id r +:+ "|" +:+ name r +:+ "|" +:+ net_text (cidr r) +:+ "|" +:+ action_text (action r) +:+ "|" +:+ show_i32 (priority r)) = false) as ->.
    { destruct (id r) as [|c s]; [done|]. rewrite sapp_cons. unfold starts_with, strip_prefix in *. by destruct (bool_decide _). }
    cbn [orb]. rewrite !bar.
    rewrite (splitn_step 3) by done. rewrite (splitn_step 2) by done. rewrite (splitn_step 1) by done. rewrite (splitn_step 0) by done.
    cbn [splitn]. assert (parse_action (action_text (action r)) = Ok (action r)) as -> by by destruct (action r).
    cbn [rbind]. rewrite Htq, Hpq. cbn [ok_or rbind]. unfold rule_new, parse_cidr. rewrite Htc, parse_text, Hti, Htn. done.
  - unfold rule_text. by rewrite !no_lf_app, Li, Ln, Lc, La, Lq.
  - unfold rule_text. by rewrite !free_of_app, Ri, Rn, Rc, Ra, Rq.
  - unfold rule_text. by destruct (id r).
Qed.

Lemma load_rules now l count m : Forall clean l ->
  load_lines parse_net now (map (rule_text net_text) l) count m =
  (Ok (count + Z.of_nat (length l)), mkAcl (default_action m) (fold_left (fun rs r => <[id r := reload now r]> rs) l (rules m)) (acl_stats m)).
Proof.
  intros Hl. revert count m. induction Hl as [|r l Hr Hl IH]; intros count m; [by rewrite Z.add_0_r; destruct m|].
  cbn [map load_lines]. rewrite (proj1 (rule_text_spec now r Hr)), IH. f_equal. f_equal. cbn [length]. lia.
Qed.

Lemma insert_all_lookup now (l : list Rule) (rs : gmap string Rule) k : NoDup (map id l) ->
  fold_left (fun rs r => <[id r := reload now r]> rs) l rs !! k =
  match List.find (fun r => seqb (id r) k) l with Some r => Some (reload now r) | None => rs !! k end.
Proof.
  revert rs. induction l as [|r l IH]; intros rs Hn; [done|]. inversion_clear Hn as [|? ? Hr Hn'].
  cbn [fold_left List.find]. rewrite IH by done. destruct (decide (id r = k)) as [<-|Hne].
  - rewrite seqb_refl, lookup_insert_eq. destruct (List.find _ l) as [r'|] eqn:Hf; [|done].
    apply List.find_some in Hf as [Hin He%seqb_true]. destruct Hr. rewrite <- He. apply list_elem_of_In, in_map, Hin.
  - rewrite seqb_false by done. by rewrite lookup_insert_ne.
Qed.

(** Rules exported as text and loaded again are the same rules, except that
    each comes back enabled, for both directions and without its comment. *)
Theorem acl_text_round_trip {HI : HashIter string Rule} now d m :
  map_Forall (fun k r => id r = k /\ clean r) (rules m) ->
  load_from_text parse_net now (export_to_text net_text m) (new d) =
  (Ok (Z.of_nat (size (rules m))), mkAcl d (reload now <$> rules m) no_stats).
Proof.
  intros Hm. unfold load_from_text, export_to_text.
  assert (Hp : sorted_rules m ≡ₚ values m) by apply sort_by_key_perm.
  assert (Hin : forall r, r ∈ sorted_rules m <-> rules m !! id r = Some r).
  { intros r. rewrite Hp. unfold values. rewrite list_elem_of_fmap. split.
    - intros ([k r'] & -> & Hk%elem_of_hiter). by destruct (Hm k r' Hk) as [<- _].
    - intros Hr. exists (id r, r). split; [done|]. by apply elem_of_hiter. }
  assert (Hc : Forall clean (sorted_rules m)).
  { apply Forall_forall. intros r Hr. apply Hin in Hr. by apply (Hm _ _ Hr). }
  assert (Hnd : NoDup (map id (sorted_rules m))).
  { rewrite Hp. unfold values. rewrite map_map. erewrite (map_ext_in _ fst); [apply hiter_nodup|].
    intros [k r] Hk%list_elem_of_In%elem_of_hiter. by destruct (Hm k r Hk). }
  rewrite lines_join.
  2: { apply Forall_map. eapply Forall_impl; [exact Hc|]. intros r Hr. by apply (rule_text_spec now). }
  rewrite load_rules by done. f_equal; [f_equal|].
  - rewrite Hp. unfold values. by rewrite length_map, hiter_length.
  - unfold new. cbn. f_equal. apply map_eq. intros k. rewrite insert_all_lookup, lookup_empty, lookup_fmap by done.
    destruct (List.find _ _) as [r|] eqn:Hf.
    + apply List.find_some in Hf as [Hr He%seqb_true]. apply list_elem_of_In, Hin in Hr. rewrite <- He. by rewrite Hr.
    + destruct (rules m !! k) as [r|] eqn:Hk; [|done]. destruct (Hm k r Hk) as [Hid _].
      assert (H := List.find_none _ _ Hf r). cbn beta in H. rewrite Hid, seqb_refl in H. discriminate H.
      apply list_elem_of_In, Hin. by rewrite Hid.
Qed.
End text.

(** ** Witnesses *)

Module Witness.

#[local] Existing Instance eta_rule.

(** Two networks of one address each. *)
Definition net_text (n : bool) : string := if n then "192.0.2.1" else "192.0.2.2".
Definition parse_net (s : string) : option bool :=
  if seqb s "192.0.2.1" then Some true else if seqb s "192.0.2.2" then Some false else None.
Definition a1 : IpAddr := V4 [192; 0; 2; 1].
Definition net_contains (n : bool) (i : IpAddr) : bool :=
  bool_decide (i = if n then a1 else V4 [192; 0; 2; 2]).

Definition block : AclRule := mkRule "r1" "bad host" true Deny 10 Inbound false (Some "seen scanning") 5.
Definition pass : AclRule := mkRule "r2" "trunk" true Allow 20 Both true None 5.
Definition rules2 : gmap string (@AclRule bool) := {[ "r1" := (block <| enabled := true |>); "r2" := pass ]}.

#[local] Instance iter : HashIter string (@AclRule bool) := canonical_iter _ _.

(** The order of the table, backwards. *)
Definition backwards : HashIter string (@AclRule bool).
Proof.
  refine {| hiter := fun m => rev (map_to_list m) |}. intros m. symmetry. apply Permutation_rev.
Defined.

Definition m2 : AclManager := mkAcl Deny rules2 no_stats.

Lemma acl_order_free_witness :
  is_allowed (check net_contains (HI := iter) a1 Inbound m2).1 = true /\
  check net_contains (HI := iter) a1 Inbound m2 = check net_contains (HI := backwards) a1 Inbound m2.
Proof.
  split; [by vm_compute|]. apply (acl_order_free net_contains iter backwards a1 Inbound m2).
  assert (H : forall r k, rules m2 !! k = Some r -> r = block <| enabled := true |> \/ r = pass).
  { intros r k. change (rules m2) with rules2. unfold rules2. intros [[_ <-]|[_ Hk]]%lookup_insert_Some; [by left|].
    apply lookup_singleton_Some in Hk as [_ <-]. by right. }
  intros r r' [[k Hr] _] [[k' Hr'] _] Hp. destruct (H _ _ Hr) as [->| ->], (H _ _ Hr') as [->| ->]; done.
Defined.

(** With equal priorities the order of the table decides. *)
Definition tied : @AclManager bool :=
  mkAcl Deny {[ "r1" := (block <| enabled := true |>); "r2" := (pass <| priority := 10 |>) ]} no_stats.

Example ties_depend_on_order :
  is_allowed (decide_on net_contains (HI := iter) a1 Inbound tied) <>
  is_allowed (decide_on net_contains (HI := backwards) a1 Inbound tied).
Proof. by vm_compute. Qed.

(** A disabled rule comes back enabled, and decides. *)
Definition stored : AclManager := mkAcl Allow {[ "r1" := block ]} no_stats.

Lemma acl_text_round_trip_witness :
  is_allowed (decide_on net_contains (HI := iter) a1 Outbound stored) = true /\
  is_allowed (decide_on net_contains (HI := iter) a1 Outbound (mkAcl Allow (reload 9 <$> rules stored) no_stats)) = false /\
  load_from_text parse_net 9 (export_to_text net_text (HI := iter) stored) (new Allow) =
    (Ok 1, mkAcl Allow (reload 9 <$> rules stored) no_stats).
Proof.
  split_and!; [by vm_compute..|].
  apply (acl_text_round_trip parse_net net_text); [by intros []|intros []; split; by vm_compute|].
  intros k r Hk. change (({[ "r1" := block ]} : gmap string (@AclRule bool)) !! k = Some r) in Hk.
  apply lookup_singleton_Some in Hk as [<- <-]. split; [done|]. split; [|split; by vm_compute|done].
  split_and!; [by vm_compute..|done|by vm_compute].
Defined.
End Witness.
