(* ===== verification/Dos.v ===== *)
(** * Rate limiting by source address (dos.rs)

    The token bucket of each address, its blacklisting after too many
    violations, and the bound on the addresses tracked. Instants are
    nanoseconds; a call reads the clock once. Tokens are binary64. *)

From Stdlib Require Import SpecFloat.
From S2P Require Import Prelude Str Bytes Net.

(** ** binary64 *)

Definition f64_of_Z (z : Z) : spec_float := binary_normalize 53 1024 z 0 false.
Definition f64_add : spec_float -> spec_float -> spec_float := SFadd 53 1024.
Definition f64_sub : spec_float -> spec_float -> spec_float := SFsub 53 1024.
Definition f64_mul : spec_float -> spec_float -> spec_float := SFmul 53 1024.
Definition f64_div : spec_float -> spec_float -> spec_float := SFdiv 53 1024.

(** [f64::min]: the other operand of a NaN. *)
Definition f64_min (a b : spec_float) : spec_float :=
  match a, b with
  | S754_nan, _ => b
  | _, S754_nan => a
  | _, _ => if SFltb b a then b else a
  end.

(** [Duration::as_secs_f64] *)
Definition as_secs_f64 (d : Z) : spec_float :=
  f64_add (f64_of_Z (as_secs d)) (f64_div (f64_of_Z (d mod 1000000000)) (f64_of_Z 1000000000)).

(** ** Data *)

Definition MAX_TRACKED_IPS : Z := 100000.

Record RateLimitConfig := mkConfig {
  requests_per_second : Z;
  burst_size : Z;
  blacklist_duration_secs : Z;
  violations_before_blacklist : Z;
  cleanup_after_secs : Z
}.

Definition default_config : RateLimitConfig := mkConfig 50 100 300 10 600.
Definition strict : RateLimitConfig := mkConfig 10 20 600 5 300.
Definition permissive : RateLimitConfig := mkConfig 200 500 60 50 1800.

Record IpState := mkState {
  tokens : spec_float;
  last_refill : Z;
  violations : Z;
  blacklisted_until : option Z;
  last_seen : Z
}.

#[export] Instance eta_ip_state : Eta IpState := fun s =>
  mkState (tokens s) (last_refill s) (violations s) (blacklisted_until s) (last_seen s).

Definition new_state (now burst : Z) : IpState := mkState (f64_of_Z burst) now 0 None now.

Definition refill (now : Z) (rate burst : spec_float) (s : IpState) : IpState :=
  s <| tokens := f64_min (f64_add (tokens s) (f64_mul (as_secs_f64 (duration_since now (last_refill s))) rate)) burst |>
    <| last_refill := now |> <| last_seen := now |>.

Definition is_blacklisted (now : Z) (s : IpState) : bool * IpState :=
  match blacklisted_until s with
  | Some until => if now <? until then (true, s) else (false, s <| blacklisted_until := None |> <| violations := 0 |>)
  | None => (false, s)
  end.

Definition consume (s : IpState) : bool * IpState :=
  if SFleb (f64_of_Z 1) (tokens s) then (true, s <| tokens := f64_sub (tokens s) (f64_of_Z 1) |>) else (false, s).

Inductive RateLimitResult :=
  | Allowed
  | RateLimited (violations : Z)
  | Blacklisted (remaining_secs : Z)
  | Whitelisted.

Definition is_allowed (r : RateLimitResult) : bool :=
  match r with Allowed | Whitelisted => true | _ => false end.

Record DosStats := mkStats {
  total_allowed : Z;
  total_blocked : Z;
  total_blacklisted : Z;
  active_tracked_ips : Z;
  blacklisted_count : Z
}.

Record DosProtector := mkDos {
  config : RateLimitConfig;
  ip_states : gmap IpAddr IpState;
  whitelist : list IpAddr;
  allowed_count : Z;
  blocked_count : Z;
  blacklist_hits : Z
}.

#[export] Instance eta_dos : Eta DosProtector := fun p =>
  mkDos (config p) (ip_states p) (whitelist p) (allowed_count p) (blocked_count p) (blacklist_hits p).

Definition new_with_whitelist (c : RateLimitConfig) (w : list IpAddr) : DosProtector := mkDos c ∅ w 0 0 0.
Definition new (c : RateLimitConfig) : DosProtector := new_with_whitelist c [].

Definition set_config (c : RateLimitConfig) (p : DosProtector) : DosProtector := p <| config := c |>.

(** ** Operations *)

Definition bump (n : Z) : Z := wrapw 64 (n + 1).

(** A marked address stays, whether or not its blacklisting has expired. *)
Definition kept (now max_age : Z) (s : IpState) : bool :=
  match blacklisted_until s with Some _ => true | None => duration_since now (last_seen s) <? max_age end.

Definition evict_idle (now max_age : Z) (states : gmap IpAddr IpState) : gmap IpAddr IpState :=
  filter (fun kv => kept now max_age kv.2 = true) states.

Definition marked (s : IpState) : bool := match blacklisted_until s with Some _ => true | None => false end.

Definition full (states : gmap IpAddr IpState) : bool := MAX_TRACKED_IPS <=? Z.of_nat (size states).

Definition enforce_cap (now : Z) (c : RateLimitConfig) (states : gmap IpAddr IpState) : gmap IpAddr IpState :=
  if negb (full states) then states
  else
    let states := evict_idle now (secs (cleanup_after_secs c) / 4) states in
    let states := if full states then evict_idle now (secs 10) states else states in
    if full states then filter (fun kv => marked kv.2 = true) states else states.

(** The decision on an address that is not on the white list. *)
Definition judge (now : Z) (c : RateLimitConfig) (s : IpState) : RateLimitResult * IpState :=
  let s := refill now (f64_of_Z (requests_per_second c)) (f64_of_Z (burst_size c)) s in
  let '(black, s) := is_blacklisted now s in
  if black then
    (Blacklisted (match blacklisted_until s with Some t => as_secs (duration_since t now) | None => 0 end), s)
  else
    let '(ok, s) := consume s in
    if ok then (Allowed, s)
    else
      let n := wrapw 32 (violations s + 1) in
      let s := s <| violations := n |> in
      (RateLimited n,
       if violations_before_blacklist c <=? n then s <| blacklisted_until := Some (now + secs (blacklist_duration_secs c)) |> else s).

Definition count_result (r : RateLimitResult) (p : DosProtector) : DosProtector :=
  match r with
  | Allowed | Whitelisted => p <| allowed_count := bump (allowed_count p) |>
  | RateLimited _ => p <| blocked_count := bump (blocked_count p) |>
  | Blacklisted _ => p <| blacklist_hits := bump (blacklist_hits p) |>
  end.

Definition check (now : Z) (addr : IpAddr) (p : DosProtector) : RateLimitResult * DosProtector :=
  if existsb (fun a => bool_decide (a = addr)) (whitelist p) then (Whitelisted, count_result Whitelisted p)
  else
    let c := config p in
    let states := match ip_states p !! addr with Some _ => ip_states p | None => enforce_cap now c (ip_states p) end in
    let s := default (new_state now (burst_size c)) (states !! addr) in
    let '(r, s) := judge now c s in
    (r, count_result r (p <| ip_states := <[addr := s]> states |>)).

Definition check_addr (now : Z) (a : SocketAddr) : DosProtector -> RateLimitResult * DosProtector := check now (ip a).

Definition blacklist_ip (now : Z) (addr : IpAddr) (duration_secs : Z) (p : DosProtector) : DosProtector :=
  let s := default (new_state now (burst_size (config p))) (ip_states p !! addr) in
  p <| ip_states := <[addr := s <| blacklisted_until := Some (now + secs duration_secs) |>]> (ip_states p) |>.

Definition unblacklist_ip (addr : IpAddr) (p : DosProtector) : DosProtector :=
  p <| ip_states := alter (fun s => s <| blacklisted_until := None |> <| violations := 0 |>) addr (ip_states p) |>.

Definition cleanup_expired (now : Z) (p : DosProtector) : nat * DosProtector :=
  let states := evict_idle now (secs (cleanup_after_secs (config p))) (ip_states p) in
  (size (ip_states p) - size states, p <| ip_states := states |>)%nat.

Definition tracked_ips (p : DosProtector) : nat := size (ip_states p).

Definition black_now (now : Z) (s : IpState) : option Z :=
  t ← blacklisted_until s; if now <? t then Some (as_secs (duration_since t now)) else None.

Definition stats (now : Z) (p : DosProtector) : DosStats :=
  mkStats (allowed_count p) (blocked_count p) (blacklist_hits p) (Z.of_nat (size (ip_states p)))
    (Z.of_nat (size (omap (black_now now) (ip_states p)))).

Definition blacklisted_ips {HI : HashIter IpAddr IpState} (now : Z) (p : DosProtector) : list (IpAddr * Z) :=
  omap (fun e => n ← black_now now e.2; Some (e.1, n)) (hiter (ip_states p)).

(** ** Evictions keep what is marked *)

Lemma evict_lookup now age m a s : evict_idle now age m !! a = Some s <-> m !! a = Some s /\ kept now age s = true.
Proof. apply map_lookup_filter_Some. Qed.

Lemma marked_kept now age s : marked s = true -> kept now age s = true.
Proof. unfold marked, kept. by destruct (blacklisted_until s). Qed.

Lemma cap_keeps now c m a s : m !! a = Some s -> marked s = true -> enforce_cap now c m !! a = Some s.
Proof.
  intros Ha Hm. unfold enforce_cap. destruct (negb (full m)); [done|].
  assert (He : forall age m, m !! a = Some s -> evict_idle now age m !! a = Some s)
    by (intros; apply evict_lookup; split; [done|by apply marked_kept]).
  assert (H1 := He (secs (cleanup_after_secs c) / 4) m Ha).
  destruct (full (evict_idle now (secs (cleanup_after_secs c) / 4) m)); [|by destruct (full _); [apply map_lookup_filter_Some|]].
  assert (H2 := He (secs 10) _ H1). destruct (full _); [|done]. by apply map_lookup_filter_Some.
Qed.

Lemma cap_subseteq now c m : enforce_cap now c m ⊆ m.
Proof.
  unfold enforce_cap, evict_idle. destruct (negb (full m)); [done|].
  repeat case_match; repeat (etrans; [apply map_filter_subseteq|]); done.
Qed.

(** After the cap, fewer than [MAX_TRACKED_IPS] are left, or only marked ones. *)
Lemma cap_result now c m :
  full (enforce_cap now c m) = false \/ forall a s, enforce_cap now c m !! a = Some s -> marked s = true.
Proof.
  unfold enforce_cap. destruct (full m) eqn:Hf; [|by left]. cbn [negb].
  repeat match goal with |- context [if full ?x then _ else _] => destruct (full x) eqn:?; [|by left] end.
  right. intros a s [_ H]%map_lookup_filter_Some. exact H.
Qed.

(** ** Runs *)

Inductive Op :=
  | Check (a : IpAddr)
  | Cleanup
  | Block (a : IpAddr) (duration : Z)
  | Unblock (a : IpAddr)
  | Configure (c : RateLimitConfig).

Definition step (now : Z) (op : Op) (p : DosProtector) : DosProtector :=
  match op with
  | Check a => (check now a p).2
  | Cleanup => (cleanup_expired now p).2
  | Block a d => blacklist_ip now a d p
  | Unblock a => unblacklist_ip a p
  | Configure c => set_config c p
  end.

Definition run (ops : list (Z * Op)) (p : DosProtector) : DosProtector := fold_left (fun p o => step o.1 o.2 p) ops p.

Definition blacklisted_to (a : IpAddr) (u : Z) (p : DosProtector) : Prop :=
  ~ (a ∈ whitelist p) /\ exists s, ip_states p !! a = Some s /\ blacklisted_until s = Some u.

Lemma white_false (a : IpAddr) l : ~ (a ∈ l) -> existsb (fun b => bool_decide (b = a)) l = false.
Proof.
  intros H. apply not_true_iff_false. intros (b & Hb & Hd)%existsb_exists. apply bool_decide_eq_true in Hd as ->.
  by apply H, list_elem_of_In.
Qed.

Lemma count_states r p : ip_states (count_result r p) = ip_states p /\ whitelist (count_result r p) = whitelist p.
Proof. by destruct r. Qed.

Lemma judge_black now c s u :
  blacklisted_until s = Some u -> now < u ->
  judge now c s = (Blacklisted (as_secs (duration_since u now)), refill now (f64_of_Z (requests_per_second c)) (f64_of_Z (burst_size c)) s).
Proof.
  intros Hb Hu. unfold judge, is_blacklisted. change (blacklisted_until (refill now _ _ s)) with (blacklisted_until s).
  rewrite Hb. replace (now <? u) with true by lia. change (blacklisted_until (refill now _ _ s)) with (blacklisted_until s).
  by rewrite Hb.
Qed.

Lemma check_black now a u p : blacklisted_to a u p -> now < u ->
  (check now a p).1 = Blacklisted (as_secs (duration_since u now)) /\ blacklisted_to a u (check now a p).2.
Proof.
  intros (Hw & s & Ha & Hb) Hu. unfold check. rewrite (white_false _ _ Hw), Ha, Ha. cbn [default].
  rewrite (judge_black _ _ _ _ Hb Hu). split; [done|]. split; [done|]. eexists. split; [apply lookup_insert_eq|done].
Qed.

Lemma step_black now op a u p :
  blacklisted_to a u p -> now < u -> (forall d, op <> Block a d) -> op <> Unblock a -> blacklisted_to a u (step now op p).
Proof.
  intros Hp Hu Hb Hn. destruct op as [b| |b d|b|c]; cbn [step].
  - destruct (decide (b = a)) as [->|Hne]; [by apply check_black|]. destruct Hp as (Hw & s & Ha & Hs). unfold check.
    destruct (existsb _ _); [by split; [|exists s]|].
    set (m := match ip_states p !! b with Some _ => ip_states p | None => enforce_cap now (config p) (ip_states p) end).
    assert (Hm : m !! a = Some s).
    { unfold m. destruct (ip_states p !! b); [done|]. apply cap_keeps; [done|]. unfold marked. by rewrite Hs. }
    destruct (judge _ _ _) as [r s']. destruct (count_states r (p <| ip_states := <[b:=s']> m |>)) as [Hc1 Hc2]. cbn [snd].
    unfold blacklisted_to. rewrite Hc1, Hc2. split; [done|]. exists s. split; [|done]. change (<[b:=s']> m !! a = Some s). by rewrite lookup_insert_ne.
  - destruct Hp as (Hw & s & Ha & Hs). split; [done|]. exists s. split; [|done]. apply evict_lookup. split; [done|].
    apply marked_kept. unfold marked. by rewrite Hs.
  - destruct Hp as (Hw & s & Ha & Hs). split; [done|]. exists s. split; [|done].
    apply lookup_insert_Some. right. split; [|done]. intros ->. by destruct (Hb d).
  - destruct Hp as (Hw & s & Ha & Hs). split; [done|]. exists s. split; [|done]. cbn.
    rewrite lookup_alter_ne; [done|]. intros ->. by apply Hn.
  - destruct Hp as (Hw & s & Ha & Hs). split; [done|]. by exists s.
Qed.

(** A blacklisted address is refused until its blacklisting ends, whatever
    it and every other address send in between, whatever is cleaned up or
    configured; only an operator's own word on that address changes it. *)
Theorem blacklist_holds ops a u p now :
  blacklisted_to a u p -> now < u ->
  Forall (fun o => o.1 < u /\ (forall d, o.2 <> Block a d) /\ o.2 <> Unblock a) ops ->
  (check now a (run ops p)).1 = Blacklisted (as_secs (duration_since u now)).
Proof.
  intros Hp Hu Hops. revert p Hp. induction Hops as [|[t op] ops (Ht & Hb & Hn) Hops IH]; intros p Hp.
  - by apply check_black.
  - unfold run. cbn [fold_left]. apply IH. by apply step_black.
Qed.

(** A violation that reaches the threshold blacklists the address at once. *)
Lemma judge_threshold now c s :
  let '(r, s') := judge now c s in
  match r with
  | RateLimited n => violations s' = n /\
      blacklisted_until s' = if violations_before_blacklist c <=? n then Some (now + secs (blacklist_duration_secs c)) else None
  | Allowed => blacklisted_until s' = None
  | _ => True
  end.
Proof.
  unfold judge, is_blacklisted. set (s1 := refill _ _ _ s). destruct (blacklisted_until s1) as [u|] eqn:Hb.
  - destruct (now <? u); [done|]. unfold consume. cbn. destruct (SFleb _ _); [done|]. by destruct (_ <=? _).
  - unfold consume. destruct (SFleb _ _); [done|]. by destruct (_ <=? _); cbn.
Qed.

(** The addresses tracked are bounded. A check leaves at most
    [MAX_TRACKED_IPS] of them when it started so, unless every other address
    tracked is marked as blacklisted. *)
Theorem tracked_bounded now a p :
  Z.of_nat (size (ip_states p)) <= MAX_TRACKED_IPS ->
  let p' := (check now a p).2 in
  Z.of_nat (size (ip_states p')) <= MAX_TRACKED_IPS \/
  forall b s, ip_states p' !! b = Some s -> b <> a -> marked s = true.
Proof.
  intros Hs. unfold check. destruct (existsb _ _); [left; exact Hs|].
  set (m := match ip_states p !! a with Some _ => ip_states p | None => enforce_cap now (config p) (ip_states p) end).
  destruct (judge _ _ _) as [r s']. destruct (count_states r (p <| ip_states := <[a:=s']> m |>)) as [Hc _].
  cbn [snd]. rewrite Hc. cbn [ip_states set_field].
  assert (Hm : (full m = false \/ is_Some (m !! a)) /\ (size m <= size (ip_states p))%nat \/ forall b s, m !! b = Some s -> marked s = true).
  { unfold m. destruct (ip_states p !! a) eqn:Ha; [left; split; [right; by rewrite Ha|lia]|].
    destruct (cap_result now (config p) (ip_states p)) as [H|H]; [left; split; [by left|]|by right].
    apply map_subseteq_size, cap_subseteq. }
  destruct Hm as [[[Hf|Hin] Hle]|Hm].
  - left. unfold full in Hf. assert (Hz := map_size_insert a s' m). destruct (m !! a); cbn in *; lia.
  - left. assert (Hz := map_size_insert_Some a s' m Hin). cbn in *. lia.
  - right. intros b s [[-> _]|[_ Hb]]%lookup_insert_Some Hne; [done|]. by apply (Hm b).
Qed.

(** An address once blacklisted that never returns is never forgotten, however
    long ago its blacklisting ended. *)
Lemma marked_for_ever now a s p :
  ip_states p !! a = Some s -> marked s = true -> ip_states (cleanup_expired now p).2 !! a = Some s.
Proof. intros Ha Hm. apply evict_lookup. split; [done|]. by apply marked_kept. Qed.

(** So the cap does not hold: with every entry marked, a new address makes one
    more. *)
Lemma cap_passed now a p :
  (forall b s, ip_states p !! b = Some s -> marked s = true) -> ip_states p !! a = None -> ~ (a ∈ whitelist p) ->
  size (ip_states (check now a p).2) = S (size (ip_states p)).
Proof.
  intros Hm Ha Hw. unfold check. rewrite (white_false _ _ Hw), Ha.
  assert (He : enforce_cap now (config p) (ip_states p) = ip_states p).
  { apply map_eq. intros b. destruct (ip_states p !! b) as [s|] eqn:Hb; [by apply cap_keeps; [|apply (Hm b)]|].
    eapply lookup_weaken_None; [exact Hb|apply cap_subseteq]. }
  rewrite He. destruct (judge _ _ _) as [r s']. cbn [snd].
  rewrite (proj1 (count_states r (p <| ip_states := <[a:=s']> (ip_states p) |>))). cbn. by rewrite map_size_insert_None.
Qed.

(** ** Examples and witnesses *)

Module Witness.

Definition a1 : IpAddr := V4 [192; 0; 2; 1].
Definition a2 : IpAddr := V4 [192; 0; 2; 2].
Definition small : RateLimitConfig := mkConfig 1 2 60 2 600.

(** Two requests pass at once, two are refused, and the second refusal
    blacklists; half a second later a request is refused unseen. *)
Definition burst : list RateLimitResult :=
  let p := new small in
  let '(r1, p) := check 0 a1 p in
  let '(r2, p) := check 0 a1 p in
  let '(r3, p) := check (millis 500) a1 p in
  let '(r4, p) := check (millis 600) a1 p in
  let '(r5, p) := check (millis 700) a1 p in
  let '(r6, p) := check (millis 700) a2 p in
  [r1; r2; r3; r4; r5; r6].

Example burst_results : burst = [Allowed; Allowed; RateLimited 1; RateLimited 2; Blacklisted 59; Allowed].
Proof. vm_compute. reflexivity. Qed.

Definition p1 : DosProtector := run [(0, Check a1); (0, Check a1); (0, Check a1); (0, Check a1)] (new small).

Lemma blacklist_holds_witness :
  (check (secs 59) a1 (run [(secs 1, Check a2); (secs 30, Check a1); (secs 58, Cleanup)] p1)).1 = Blacklisted 1.
Proof.
  apply (blacklist_holds [(secs 1, Check a2); (secs 30, Check a1); (secs 58, Cleanup)] a1 (secs 60) p1 (secs 59)); [|done|].
  - split; [by vm_compute; intros ?%list_elem_of_In|]. eexists. split; by vm_compute.
  - repeat constructor; done.
Defined.

Lemma tracked_bounded_witness :
  Z.of_nat (size (ip_states (check 0 a2 p1).2)) = 2 /\
  (Z.of_nat (size (ip_states (check 0 a2 p1).2)) <= MAX_TRACKED_IPS \/
   forall b s, ip_states (check 0 a2 p1).2 !! b = Some s -> b <> a2 -> marked s = true).
Proof. split; [by vm_compute|]. apply (tracked_bounded 0 a2 p1). by vm_compute. Defined.
End Witness.
