(* ===== verification/Trunk.v ===== *)
(** * Trunks (routing/trunk.rs, sbc/trunk_state.rs)

    A trunk's configuration, the rewriting of numbers for it, its health and
    its count of active calls. A trunk identifier is a number; parsing a
    socket address and printing an IP address are parameters. *)

From S2P Require Import Prelude Str Bytes Net.

Abbreviation TrunkId := Z.

Inductive TransportType := TUdp | TTcp | TTls | TWs | TWss.

Definition to_rsip_transport (t : TransportType) : Transport :=
  match t with TUdp => Udp | TTcp => Tcp | TTls => Tls | TWs => Ws | TWss => Wss end.
Definition from_rsip_transport (t : Transport) : TransportType :=
  match t with Udp => TUdp | Tcp => TTcp | Tls => TTls | Ws => TWs | Wss => TWss | OtherTransport => TUdp end.

Inductive NumberFormat := E164 | National | Local.

Record TrunkConfig := mkTrunk {
  id : TrunkId;
  name : string;
  enabled : bool;
  transport : TransportType;
  host : string;
  trunk_port : Z;
  resolved_addr : option SocketAddr;
  auth_required : bool;
  username : option string;
  password : option string;
  realm : option string;
  allowed_codecs : list string;
  transcoding_enabled : bool;
  max_concurrent_calls : Z;
  calls_per_second : Z;
  allowed_ips : list string;
  register_with_trunk : bool;
  registration_interval : Z;
  cost_per_minute : Z;
  priority : Z;
  weight : Z;
  prefix_patterns : list string;
  number_format : NumberFormat;
  country_code : option string;
  national_prefix : option string;
  caller_number_format : option NumberFormat;
  caller_number_override : option string;
  caller_display_name : option string;
  tls_sni : option string;
  tls_ca_cert : option string;
  tls_verify : bool;
  tls_client_cert : option string;
  tls_client_key : option string
}.

#[export] Instance eta_trunk : Eta TrunkConfig := fun t =>
  mkTrunk (id t) (name t) (enabled t) (transport t) (host t) (trunk_port t) (resolved_addr t) (auth_required t)
    (username t) (password t) (realm t) (allowed_codecs t) (transcoding_enabled t) (max_concurrent_calls t)
    (calls_per_second t) (allowed_ips t) (register_with_trunk t) (registration_interval t) (cost_per_minute t)
    (priority t) (weight t) (prefix_patterns t) (number_format t) (country_code t) (national_prefix t)
    (caller_number_format t) (caller_number_override t) (caller_display_name t) (tls_sni t) (tls_ca_cert t)
    (tls_verify t) (tls_client_cert t) (tls_client_key t).

(** [Uuid::new_v4()] is the argument. *)
Definition new_config (uuid : TrunkId) (n : string) : TrunkConfig :=
  mkTrunk uuid n true TUdp "" 5060 None false None None None ["PCMU"; "PCMA"] false 100 10 [] false (secs 300)
    0 100 100 [] E164 None None None None None None None true None None.

Definition is_codec_allowed (codec : string) (t : TrunkConfig) : bool :=
  existsb (fun c => eq_ignore_ascii_case c codec) (allowed_codecs t).

Definition matches_prefix (number : string) (t : TrunkConfig) : bool :=
  match prefix_patterns t with [] => true | ps => existsb (fun p => starts_with p number) ps end.

Definition lcr_sort_key (t : TrunkConfig) : Z * Z := (priority t, cost_per_minute t).

(** ** Numbers *)

(** [+cc] *)
Definition cc_prefix (cc : string) : string := "+" +:+ cc.

Definition to_e164 (number : string) (t : TrunkConfig) : string :=
  if starts_with "+" number then number
  else match strip_prefix "0" number with
  | Some national => match country_code t with Some cc => "+" +:+ cc +:+ national | None => number end
  | None => number
  end.

Definition to_national (number : string) (t : TrunkConfig) : string :=
  match country_code t with
  | Some cc =>
      match strip_prefix (cc_prefix cc) number with
      | Some rest => default "0" (national_prefix t) +:+ rest
      | None => number
      end
  | None => number
  end.

Definition to_local (number : string) (t : TrunkConfig) : string :=
  match country_code t with
  | Some cc => match strip_prefix (cc_prefix cc) number with Some rest => rest | None => number end
  | None => number
  end.

Definition to_format (f : NumberFormat) : string -> TrunkConfig -> string :=
  match f with E164 => to_e164 | National => to_national | Local => to_local end.

Definition normalize_number (number : string) (t : TrunkConfig) : string :=
  to_format (number_format t) number t.

Definition normalize_caller (number : string) (display_name : option string) (t : TrunkConfig)
    : string * option string :=
  let dn := match caller_display_name t with Some n => Some n | None => display_name end in
  match caller_number_override t with
  | Some n => (n, dn)
  | None =>
      (match caller_number_format t with Some f => to_format f number t | None => number end, dn)
  end.

(** ** State of a trunk *)

Record TrunkState := mkState {
  trunk_id : TrunkId;
  active_calls : Z;
  total_calls : Z;
  failed_calls : Z;
  registered : bool;
  consecutive_failures : Z;
  disabled_until : option Z;
  parked_until : option Z
}.

#[export] Instance eta_state : Eta TrunkState := fun s =>
  mkState (trunk_id s) (active_calls s) (total_calls s) (failed_calls s) (registered s) (consecutive_failures s)
    (disabled_until s) (parked_until s).

Definition new_state (i : TrunkId) : TrunkState := mkState i 0 0 0 false 0 None None.

(** The time left until [o], when it is in the future. *)
Definition left_until (now : Z) (o : option Z) : option Z :=
  u ← o; if now <? u then Some (u - now) else None.

Definition opt_max (a b : option Z) : option Z :=
  match a, b with Some a, Some b => Some (Z.max a b) | Some a, None => Some a | None, b => b end.

Definition unavailable_for (now : Z) (s : TrunkState) : option Z :=
  opt_max (left_until now (disabled_until s)) (left_until now (parked_until s)).

Definition can_accept_call (now : Z) (c : TrunkConfig) (s : TrunkState) : bool :=
  bool_decide (unavailable_for now s = None) && (active_calls s <? max_concurrent_calls c).

Definition is_future (now : Z) (o : option Z) : bool := bool_decide (is_Some (left_until now o)).

Definition health_label (now : Z) (s : TrunkState) : string :=
  if is_future now (parked_until s) then "parked"
  else if is_future now (disabled_until s) then "down"
  else if 0 <? consecutive_failures s then "degraded"
  else "up".

Definition record_success (s : TrunkState) : TrunkState :=
  s <| consecutive_failures := 0 |> <| disabled_until := None |>.

Definition clear_cooldowns (s : TrunkState) : TrunkState :=
  s <| consecutive_failures := 0 |> <| disabled_until := None |> <| parked_until := None |>.

Definition cooldown_secs (failures : Z) : Z :=
  if failures <=? 2 then 0 else if failures <=? 5 then 30 else if failures <=? 9 then 120 else 300.

Definition count_failure (s : TrunkState) : TrunkState :=
  s <| failed_calls := wrapw 64 (failed_calls s + 1) |>
    <| consecutive_failures := wrapw 32 (consecutive_failures s + 1) |>.

Definition record_trunk_failure (now : Z) (s : TrunkState) : TrunkState :=
  let s := count_failure s in
  let n := cooldown_secs (consecutive_failures s) in
  if 0 <? n then s <| disabled_until := Some (now + secs n) |> else s.

Definition park_for (now n : Z) (s : TrunkState) : TrunkState :=
  let s := count_failure s in
  let until := now + secs n in
  s <| parked_until := Some (match parked_until s with
                             | Some current => if until <? current then current else until
                             | None => until end) |>.

Definition increment_calls (s : TrunkState) : TrunkState :=
  s <| active_calls := wrapw 32 (active_calls s + 1) |> <| total_calls := wrapw 64 (total_calls s + 1) |>.
Definition decrement_calls (s : TrunkState) : TrunkState :=
  if 0 <? active_calls s then s <| active_calls := active_calls s - 1 |> else s.
Definition record_failure (s : TrunkState) : TrunkState := s <| failed_calls := wrapw 64 (failed_calls s + 1) |>.

(** ** The manager *)

Record TrunkManager := mkManager {
  trunks : gmap TrunkId TrunkConfig;
  states : gmap TrunkId TrunkState
}.

#[export] Instance eta_manager : Eta TrunkManager := fun m => mkManager (trunks m) (states m).

Definition new : TrunkManager := mkManager ∅ ∅.

Definition add_trunk (c : TrunkConfig) (m : TrunkManager) : TrunkManager :=
  mkManager (<[id c := c]> (trunks m)) (<[id c := new_state (id c)]> (states m)).

Definition get_trunk (i : TrunkId) (m : TrunkManager) : option TrunkConfig := trunks m !! i.
Definition get_state (i : TrunkId) (m : TrunkManager) : option TrunkState := states m !! i.

Definition update_state (i : TrunkId) (f : TrunkState -> TrunkState) (m : TrunkManager) : TrunkManager :=
  m <| states := alter f i (states m) |>.

Definition remove_trunk (i : TrunkId) (m : TrunkManager) : bool * TrunkManager :=
  match trunks m !! i with
  | Some _ => (bool_decide (is_Some (states m !! i)), mkManager (delete i (trunks m)) (delete i (states m)))
  | None => (false, m)
  end.

Definition enable_trunk (i : TrunkId) (m : TrunkManager) : bool * TrunkManager :=
  match trunks m !! i with
  | Some t => (true, update_state i clear_cooldowns (m <| trunks := <[i := t <| enabled := true |>]> (trunks m) |>))
  | None => (false, m)
  end.

Definition disable_trunk (i : TrunkId) (m : TrunkManager) : bool * TrunkManager :=
  match trunks m !! i with
  | Some t => (true, m <| trunks := <[i := t <| enabled := false |>]> (trunks m) |>)
  | None => (false, m)
  end.

Section by_name.
Context {HI : HashIter TrunkId TrunkConfig} {HS : HashIter TrunkId TrunkState}.
Context (parse_addr : string -> option SocketAddr) (ip_text : IpAddr -> string).

Definition list_trunks (m : TrunkManager) : list TrunkConfig := (hiter (trunks m)).*2.

Definition find_by_name (n : string) (m : TrunkManager) : option TrunkConfig :=
  List.find (fun t => seqb (name t) n) (list_trunks m).

Definition name_for_ip (addr : string) (m : TrunkManager) : option string :=
  name <$> List.find (fun t => seqb (host t) addr
                               || match resolved_addr t with Some a => seqb (ip_text (ip a)) addr | None => false end)
             (list_trunks m).

Definition destination (t : TrunkConfig) : option SocketAddr :=
  match resolved_addr t with
  | Some addr => Some addr
  | None => parse_addr (host t +:+ ":" +:+ show (trunk_port t))
  end.

(** [lookup]: the addresses the resolver answers for host and port. *)
Definition resolve_destination (lookup : string -> option (list SocketAddr)) (t : TrunkConfig)
    : option SocketAddr * TrunkConfig :=
  let hp := host t +:+ ":" +:+ show (trunk_port t) in
  match parse_addr hp with
  | Some addr => (Some addr, t <| resolved_addr := Some addr |>)
  | None => match lookup hp with
            | Some (addr :: _) => (Some addr, t <| resolved_addr := Some addr |>)
            | _ => (None, t)
            end
  end.

Definition update_state_by_name (n : string) (f : TrunkState -> TrunkState) (m : TrunkManager) : bool * TrunkManager :=
  match find_by_name n m with
  | Some t => (true, update_state (id t) f m)
  | None => (false, m)
  end.

Definition state_by_name (n : string) (m : TrunkManager) : option TrunkState :=
  t ← find_by_name n m; get_state (id t) m.

Definition update_trunk_by_name (n : string) (new_config : TrunkConfig) (m : TrunkManager) : bool * TrunkManager :=
  match find_by_name n m with
  | None => (false, m)
  | Some existing =>
      let c := new_config <| id := id existing |> in
      let c := if seqb (host c) (host existing) && (trunk_port c =? trunk_port existing)
               then c <| resolved_addr := resolved_addr existing |> else c in
      let m := if negb (enabled existing) && enabled c then update_state (id existing) clear_cooldowns m else m in
      (true, m <| trunks := <[id existing := c]> (trunks m) |>)
  end.

Definition remove_by_name (n : string) (m : TrunkManager) : bool * TrunkManager :=
  match find_by_name n m with Some t => remove_trunk (id t) m | None => (false, m) end.

Definition get_stats (m : TrunkManager) : list (TrunkConfig * TrunkState) :=
  omap (fun c => (fun s => (c, s)) <$> states m !! id c) (list_trunks m).

Definition total_active_calls (m : TrunkManager) : Z :=
  wrapw 32 (foldr (fun s n => active_calls s + n) 0 (hiter (states m)).*2).

(** *** Calls on trunks (sbc/trunk_state.rs)

    [counted]: for each call, the trunk whose counter includes it
    ([trunk_counted]). *)
Definition swap_counted (uuid : string) (trunk : option string) (counted : gmap string (option string))
    : option (option string) * gmap string (option string) :=
  match counted !! uuid with
  | None => (None, counted)
  | Some previous =>
      if bool_decide (previous = trunk) then (None, counted)
      else (Some previous, <[uuid := trunk]> counted)
  end.

(** The counters, after the lock on the calls is released. *)
Definition apply_counted (previous trunk : option string) (m : TrunkManager) : TrunkManager :=
  let m := match previous with Some p => (update_state_by_name p decrement_calls m).2 | None => m end in
  match trunk with Some n => (update_state_by_name n increment_calls m).2 | None => m end.

Definition count_call_on_trunk (uuid : string) (trunk : option string)
    (sm : gmap string (option string) * TrunkManager) : gmap string (option string) * TrunkManager :=
  let '(counted, m) := sm in
  match swap_counted uuid trunk counted with
  | (None, counted) => (counted, m)
  | (Some previous, counted) => (counted, apply_counted previous trunk m)
  end.

(** The health published by a failure: the trunk's status when it becomes
    unavailable. *)
Definition note_trunk_failure (now : Z) (n : string) (retry_after : option Z) (m : TrunkManager)
    : option (string * Z) * TrunkManager :=
  let before := (fun s => bool_decide (is_Some (unavailable_for now s))) <$> state_by_name n m in
  let '(updated, m) :=
    update_state_by_name n (fun s => match retry_after with
                                     | Some n => park_for now n s
                                     | None => record_trunk_failure now s end) m in
  if negb updated then (None, m)
  else match state_by_name n m with
  | None => (None, m)
  | Some s =>
      (if bool_decide (is_Some (unavailable_for now s)) && bool_decide (before = Some false)
       then Some (health_label now s, consecutive_failures s) else None, m)
  end.

Definition note_trunk_success (now : Z) (n : string) (m : TrunkManager) : option (string * Z) * TrunkManager :=
  let was_cooling := match state_by_name n m with Some s => is_future now (disabled_until s) | None => false end in
  let m := (update_state_by_name n record_success m).2 in
  let still_parked := match state_by_name n m with
                      | Some s => bool_decide (is_Some (unavailable_for now s)) | None => false end in
  (if was_cooling && negb still_parked then Some ("up", 0) else None, m).

(** ** The count of calls *)

(** The calls whose trunk is [n]. *)
Definition calls_on (n : string) (counted : gmap string (option string)) : Z :=
  Z.of_nat (size (filter (fun e : string * option string => e.2 = Some n) counted)).

Definition ids_ok (m : TrunkManager) : Prop := forall i t, trunks m !! i = Some t -> id t = i.

(** Every trunk found by a name counts exactly the calls on that name. *)
Definition exact (counted : gmap string (option string)) (m : TrunkManager) : Prop :=
  ids_ok m /\ forall n t, find_by_name n m = Some t ->
    exists s, get_state (id t) m = Some s /\ active_calls s = calls_on n counted.

Lemma find_by_name_spec n m t : ids_ok m -> find_by_name n m = Some t -> name t = n /\ trunks m !! id t = Some t.
Proof.
  intros Hi Hf. apply List.find_some in Hf as [Hin Hn]. apply seqb_true in Hn. split; [done|].
  apply list_elem_of_In, list_elem_of_fmap in Hin as ([i t'] & -> & Hin). apply elem_of_hiter in Hin. cbn.
  by rewrite (Hi _ _ Hin).
Qed.

Lemma update_by_name_keeps n f m :
  trunks (update_state_by_name n f m).2 = trunks m /\
  forall k, find_by_name k (update_state_by_name n f m).2 = find_by_name k m.
Proof. unfold update_state_by_name. destruct (find_by_name n m); done. Qed.

Lemma update_by_name_state n f m k t :
  ids_ok m -> find_by_name k m = Some t ->
  get_state (id t) (update_state_by_name n f m).2 = (if seqb k n then f <$> get_state (id t) m else get_state (id t) m).
Proof.
  intros Hi Hk. unfold update_state_by_name, get_state. destruct (seqb k n) eqn:E.
  - apply seqb_true in E as ->. rewrite Hk. cbn. apply lookup_alter_eq.
  - destruct (find_by_name n m) as [u|] eqn:Hn; [|done]. cbn. apply lookup_alter_ne. intros Eid.
    destruct (find_by_name_spec n m u Hi Hn) as [Hnu Hu]. destruct (find_by_name_spec k m t Hi Hk) as [Hkt Ht].
    rewrite Eid, Ht in Hu. injection Hu as ->. rewrite <- Hkt, <- Hnu, seqb_refl in E. done.
Qed.

Lemma calls_on_insert n uuid prev trunk counted :
  counted !! uuid = Some prev ->
  calls_on n (<[uuid := trunk]> counted)
  = calls_on n counted - Z.b2z (bool_decide (prev = Some n)) + Z.b2z (bool_decide (trunk = Some n)).
Proof.
  intros Hu. unfold calls_on.
  assert (Hone : forall x, Z.of_nat (size (filter (fun e : string * option string => e.2 = Some n) (<[uuid := x]> (delete uuid counted))))
    = Z.of_nat (size (filter (fun e : string * option string => e.2 = Some n) (delete uuid counted))) + Z.b2z (bool_decide (x = Some n))).
  { intros x. assert (Hd : delete uuid counted !! uuid = None) by apply lookup_delete_eq. case_bool_decide as Hx; simpl.
    - rewrite map_filter_insert_True by done. rewrite map_size_insert_None; [lia|].
      apply map_lookup_filter_None. by left.
    - rewrite map_filter_insert_False by done. rewrite delete_delete_eq. lia. }
  rewrite <- (insert_delete_eq counted), Hone. rewrite <- (insert_delete_id counted uuid prev Hu) at 2. rewrite Hone. lia.
Qed.

Lemma calls_on_pos n uuid counted : counted !! uuid = Some (Some n) -> 1 <= calls_on n counted.
Proof.
  intros Hu. unfold calls_on. assert (Hs : filter (fun e : string * option string => e.2 = Some n) counted !! uuid = Some (Some n))
    by by apply map_lookup_filter_Some.
  assert (size (filter (fun e : string * option string => e.2 = Some n) counted) <> 0%nat); [|lia].
  intros Hz. apply map_size_empty_inv in Hz. by rewrite Hz in Hs.
Qed.

Lemma count_exact uuid trunk counted m :
  exact counted m -> Z.of_nat (size counted) < 2 ^ 32 ->
  let '(counted', m') := count_call_on_trunk uuid trunk (counted, m) in
  exact counted' m' /\ size counted' = size counted.
Proof.
  intros [Hi He] Hs. unfold count_call_on_trunk, swap_counted.
  destruct (counted !! uuid) as [prev|] eqn:Hu; [|done]. case_bool_decide as Hne; [done|].
  split; [|by rewrite map_size_insert_Some by eauto].
  assert (Hle : forall n, 0 <= calls_on n counted <= Z.of_nat (size counted)).
  { intros n. unfold calls_on. assert (Hf := map_size_filter (fun e : string * option string => e.2 = Some n) counted). lia. }
  unfold apply_counted. set (m1 := match prev with Some p => _ | None => m end).
  assert (H1 : ids_ok m1 /\ (forall k, find_by_name k m1 = find_by_name k m) /\
     forall k t, find_by_name k m1 = Some t -> exists s, get_state (id t) m1 = Some s /\
       active_calls s = calls_on k counted - Z.b2z (bool_decide (prev = Some k))).
  { unfold m1. destruct prev as [p|].
    - destruct (update_by_name_keeps p decrement_calls m) as [Ht Hf]. split_and!; [by unfold ids_ok; rewrite Ht|done|].
      intros k t Hk. rewrite Hf in Hk. rewrite (update_by_name_state p _ m k t Hi Hk).
      destruct (He k t Hk) as (s & Hg & Ha). rewrite Hg. destruct (seqb k p) eqn:E.
      + apply seqb_true in E as ->. eexists. split; [done|]. rewrite bool_decide_true by done.
        assert (Hp := calls_on_pos p uuid counted Hu). unfold decrement_calls.
        rewrite (proj2 (Z.ltb_lt 0 (active_calls s))) by lia. cbn. lia.
      + exists s. split; [done|]. rewrite bool_decide_false; [cbn; lia|]. intros [= ->]. by rewrite seqb_refl in E.
    - split_and!; [done|done|]. intros k t Hk. destruct (He k t Hk) as (s & Hg & Ha). exists s. split; [done|].
      rewrite bool_decide_false by done. cbn. lia. }
  destruct H1 as (Hi1 & Hf1 & He1). generalize dependent m1. intros m1 Hi1 Hf1 He1. destruct trunk as [q|].
  - destruct (update_by_name_keeps q increment_calls m1) as [Ht Hf]. split; [by unfold ids_ok; rewrite Ht|].
    intros k t Hk. rewrite Hf in Hk. rewrite (update_by_name_state q _ m1 k t Hi1 Hk).
    destruct (He1 k t Hk) as (s & Hg & Ha). rewrite (calls_on_insert k uuid prev _ _ Hu), Hg.
    destruct (seqb k q) eqn:E.
    + apply seqb_true in E as ->. eexists. split; [done|]. rewrite (bool_decide_true (Some q = Some q)) by done. cbn [active_calls].
      assert (Hnew := calls_on_insert q uuid prev (Some q) counted Hu). rewrite (bool_decide_true (Some q = Some q)) in Hnew by done.
      assert (Hle' : calls_on q (<[uuid := Some q]> counted) <= Z.of_nat (size counted)).
      { unfold calls_on. assert (Hfl := map_size_filter (fun e : string * option string => e.2 = Some q) (<[uuid := Some q]> counted)).
        rewrite map_size_insert_Some in Hfl by eauto. lia. }
      assert (H0 : 0 <= calls_on q counted - Z.b2z (bool_decide (prev = Some q))).
      { destruct (bool_decide (prev = Some q)) eqn:Ep; cbn; [|specialize (Hle q); lia]. apply bool_decide_eq_true in Ep. subst prev.
        specialize (calls_on_pos q uuid counted Hu). lia. }
      change (Z.b2z true) with 1 in Hnew |- *. change (active_calls (increment_calls s)) with (wrapw 32 (active_calls s + 1)). rewrite wrapw_small; [lia|]. unfold is_uw. lia.
    + exists s. split; [done|]. rewrite (bool_decide_false (Some q = Some k)); [cbn; lia|]. intros [= ->]. by rewrite seqb_refl in E.
  - split; [done|]. intros k t Hk. destruct (He1 k t Hk) as (s & Hg & Ha). exists s. split; [done|].
    rewrite (calls_on_insert k uuid prev _ _ Hu), Ha, (bool_decide_false (None = Some k)) by done. cbn. lia.
Qed.

(** A change of a trunk's state that leaves its active calls alone. *)
Lemma update_exact n f counted m :
  (forall s, active_calls (f s) = active_calls s) -> exact counted m -> exact counted (update_state_by_name n f m).2.
Proof.
  intros Hf [Hi He]. destruct (update_by_name_keeps n f m) as [Ht Hn]. split; [by unfold ids_ok; rewrite Ht|].
  intros k t Hk. rewrite Hn in Hk. rewrite (update_by_name_state n f m k t Hi Hk). destruct (He k t Hk) as (s & Hg & Ha).
  rewrite Hg. destruct (seqb k n); [|by exists s]. exists (f s). split; [done|]. by rewrite Hf.
Qed.

(** A call counted on no trunk may leave. *)
Lemma release_exact uuid counted m : counted !! uuid = Some None -> exact counted m -> exact (delete uuid counted) m.
Proof.
  intros Hu [Hi He]. split; [done|]. intros n t Hn. destruct (He n t Hn) as (s & Hg & Ha). exists s. split; [done|].
  rewrite Ha. unfold calls_on. rewrite map_filter_delete, delete_id; [done|]. apply map_lookup_filter_None. right. by intros v [= <-]%(eq_trans (eq_sym Hu)).
Qed.

Lemma new_call_exact uuid counted m : counted !! uuid = None -> exact counted m -> exact (<[uuid := None]> counted) m.
Proof.
  intros Hu [Hi He]. split; [done|]. intros n t Hn. destruct (He n t Hn) as (s & Hg & Ha). exists s. split; [done|].
  rewrite Ha. unfold calls_on. by rewrite map_filter_insert_False, delete_id.
Qed.

Lemma count_dom uuid trunk counted m : size (count_call_on_trunk uuid trunk (counted, m)).1 = size counted.
Proof.
  unfold count_call_on_trunk, swap_counted. destruct (counted !! uuid) as [prev|] eqn:Hu; [|done].
  case_bool_decide; [done|]. by apply map_size_insert_Some.
Qed.

Lemma failure_exact now n ra counted m : exact counted m -> exact counted (note_trunk_failure now n ra m).2.
Proof.
  intros He. unfold note_trunk_failure.
  assert (H := update_exact n (fun s => match ra with Some k => park_for now k s | None => record_trunk_failure now s end)
    counted m). destruct (update_state_by_name n _ m) as [b m']. specialize (H ltac:(intros s; destruct ra; [done|]; unfold record_trunk_failure; by case_match)).
  specialize (H He). destruct b; [|done]. cbn [negb]. by destruct (state_by_name n m').
Qed.

Lemma success_exact now n counted m : exact counted m -> exact counted (note_trunk_success now n m).2.
Proof. intros He. by apply update_exact. Qed.

(** The active calls of a trunk are exactly the calls counted on it, through
    any sequence of placements, failovers and releases carried out one after
    the other. *)
Theorem active_calls_exact ops counted m n t :
  exact counted m -> Z.of_nat (size counted) < 2 ^ 32 ->
  let '(counted', m') := fold_left (fun sm op => count_call_on_trunk op.1 op.2 sm) ops (counted, m) in
  find_by_name n m' = Some t ->
  exists s, get_state (id t) m' = Some s /\ active_calls s = calls_on n counted'.
Proof.
  intros He Hs. assert (H : let '(counted', m') := fold_left (fun sm op => count_call_on_trunk op.1 op.2 sm) ops (counted, m) in
    exact counted' m').
  { revert counted m He Hs. induction ops as [|[uuid trunk] ops IH]; intros counted m He Hs; [done|]. cbn [fold_left fst snd].
    assert (Hc := count_exact uuid trunk counted m He Hs). destruct (count_call_on_trunk uuid trunk (counted, m)) as [c' m'].
    destruct Hc as [He' Hs']. apply IH; [done|by rewrite Hs']. }
  destruct (fold_left _ _ _) as [c' m']. intros Hf. by apply H.
Qed.
End by_name.

Definition is_trunk_strike_code (status : Z) : bool :=
  bool_decide (status ∈ [408; 500; 502; 503; 504]).

Fixpoint take_digits (s : string) : string :=
  match s with String c s => if is_digit c then String c (take_digits s) else "" | "" => "" end.

(** [take_while] on the lines before the blank one. *)
Fixpoint retry_after_in (lines : list string) : option Z :=
  match lines with
  | [] => None
  | line :: lines =>
      if seqb line "" then None
      else match split_once ":" line with
      | None => retry_after_in lines
      | Some (n, value) =>
          if negb (eq_ignore_ascii_case (trim n) "Retry-After") then retry_after_in lines
          else
            s ← parse_uint u64_max (take_digits (trim value));
            if (1 <=? s) && (s <=? 3600) then Some s else None
      end
  end.

Definition retry_after_secs (raw : string) : option Z := retry_after_in (split_crlf raw).

(** ** Number formats *)

(** On a trunk with a country code and the national prefix 0 (the default),
    the E.164 and national formats convert into each other: a national number
    comes back from E.164 unchanged, and so does a number of that country from
    the national format; the local format drops exactly [+cc]. *)
Theorem number_formats_inverse cc d t :
  country_code t = Some cc -> default "0" (national_prefix t) = "0" ->
  to_national (to_e164 ("0" +:+ d) t) t = "0" +:+ d /\
  to_e164 (to_national (cc_prefix cc +:+ d) t) t = cc_prefix cc +:+ d /\
  to_local (to_e164 ("0" +:+ d) t) t = d /\
  to_national (cc_prefix cc +:+ d) t = "0" +:+ to_local (cc_prefix cc +:+ d) t.
Proof.
  intros Hc Hn.
  assert (Hcc : strip_prefix (cc_prefix cc) (cc_prefix cc +:+ d) = Some d) by by apply strip_prefix_spec.
  assert (H0 : to_e164 ("0" +:+ d) t = cc_prefix cc +:+ d).
  { unfold to_e164, cc_prefix. cbn. rewrite Hc. done. }
  assert (Hna : to_national (cc_prefix cc +:+ d) t = "0" +:+ d) by by unfold to_national; rewrite Hc, Hcc, Hn.
  assert (Hlo : to_local (cc_prefix cc +:+ d) t = d) by by unfold to_local; rewrite Hc, Hcc.
  rewrite H0, Hna, Hlo, H0. done.
Qed.

(** The international access code is read as a national prefix. *)
Example international_prefix_misread :
  to_e164 "0044207123456" (new_config 1 "fr" <| country_code := Some "33" |>) = "+33044207123456".
Proof. reflexivity. Qed.

(** ** Health *)

(** What calls do to a trunk's state between two operator actions. *)
Inductive Outcome := Answered | Failed (now : Z) | RetryAfter (now n : Z) | CallStart | CallEnd | Rejected.

Definition outcome (o : Outcome) : TrunkState -> TrunkState :=
  match o with
  | Answered => record_success
  | Failed now => record_trunk_failure now
  | RetryAfter now n => park_for now n
  | CallStart => increment_calls
  | CallEnd => decrement_calls
  | Rejected => record_failure
  end.

Lemma outcome_keeps_park o s p :
  parked_until s = Some p -> exists p', parked_until (outcome o s) = Some p' /\ p <= p'.
Proof.
  intros Hp. destruct o; cbn [outcome]; unfold record_trunk_failure, park_for, decrement_calls; cbv zeta;
    repeat match goal with |- context [if ?b then _ else _] => destruct b eqn:? end; cbn in *; rewrite ?Hp;
    eexists; (split; [done|]); repeat match goal with |- context [if ?b then _ else _] => destruct b eqn:? end; lia.
Qed.

Lemma parked_refuses now c s p : parked_until s = Some p -> now < p -> can_accept_call now c s = false.
Proof.
  intros Hp Hn. unfold can_accept_call, unavailable_for. rewrite Hp. cbn. rewrite (proj2 (Z.ltb_lt _ _) Hn).
  destruct (left_until now (disabled_until s)); cbn; done.
Qed.

(** A trunk parked by a 503 with Retry-After takes no new call before the
    park ends, whatever its calls do meanwhile: answers, failures and shorter
    parks do not lift it, only an operator's re-enabling does, and that makes
    the trunk selectable at once. *)
Theorem park_outlives_answers os now n t c s :
  0 <= n -> t < now + secs n ->
  can_accept_call t c (fold_left (fun s o => outcome o s) os (park_for now n s)) = false /\
  unavailable_for t (clear_cooldowns (fold_left (fun s o => outcome o s) os (park_for now n s))) = None.
Proof.
  intros Hn Ht. split; [|done].
  assert (Hp : exists p, parked_until (park_for now n s) = Some p /\ now + secs n <= p).
  { unfold park_for. cbn. eexists. split; [done|]. destruct (parked_until s) as [c'|]; [|lia].
    destruct (now + secs n <? c') eqn:E; lia. }
  destruct Hp as (p & Hp & Hle). revert Hp Hle. generalize (park_for now n s) as s1. revert p.
  induction os as [|o os IH]; intros p s1 Hp Hle; [by apply parked_refuses with p; [|lia]|].
  destruct (outcome_keeps_park o s1 p Hp) as (p' & Hp' & Hle'). apply (IH p'); [done|lia].
Qed.

Lemma failures_count nows s :
  consecutive_failures s + Z.of_nat (length nows) < 2 ^ 32 -> 0 <= consecutive_failures s ->
  consecutive_failures (fold_left (fun s now => record_trunk_failure now s) nows s)
  = consecutive_failures s + Z.of_nat (length nows).
Proof.
  revert s. induction nows as [|now nows IH]; intros s Hb H0; [cbn; lia|]. cbn [fold_left length] in *.
  assert (Hs : consecutive_failures (record_trunk_failure now s) = consecutive_failures s + 1).
  { unfold record_trunk_failure, count_failure. cbv zeta. cbn. rewrite wrapw_small by (unfold is_uw; lia). by destruct (0 <? _). }
  rewrite IH; rewrite Hs; lia.
Qed.

(** After an answer, the cooldown follows the ladder of consecutive
    failures: one or two failures leave the trunk selectable, the third keeps
    it out for 30 seconds, the sixth for two minutes, the tenth for five, each
    from the last failure. *)
Theorem cooldown_ladder nows now s :
  Z.of_nat (length nows) + 1 < 2 ^ 32 -> parked_until s = None ->
  let k := Z.of_nat (length nows) + 1 in
  let s' := record_trunk_failure now (fold_left (fun s now => record_trunk_failure now s) nows (record_success s)) in
  unavailable_for now s'
  = if k <=? 2 then None else Some (secs (if k <=? 5 then 30 else if k <=? 9 then 120 else 300)).
Proof.
  intros Hb Hp k s'. set (s1 := fold_left _ nows (record_success s)) in s'.
  assert (Hc : consecutive_failures s1 = k - 1).
  { unfold s1. rewrite failures_count; cbn; lia. }
  assert (Hp1 : parked_until s1 = None /\ (k <= 3 -> disabled_until s1 = None)).
  { unfold s1, k. clear -Hp Hb. induction nows as [|x nows IH] using rev_ind; [done|].
    rewrite fold_left_app, length_app in *. cbn [fold_left length] in *. destruct IH as [H1 H2]; [lia|].
    set (s2 := fold_left _ nows _) in *. assert (Hc : consecutive_failures s2 = Z.of_nat (length nows)).
    { unfold s2. rewrite failures_count; cbn; lia. }
    unfold record_trunk_failure, count_failure. cbv zeta. cbn. rewrite Hc, wrapw_small by (unfold is_uw; lia).
    split; [by destruct (0 <? _)|]. intros Hk. unfold cooldown_secs.
    rewrite (proj2 (Z.leb_le (Z.of_nat (length nows) + 1) 2)) by lia. cbn. apply H2. lia. }
  destruct Hp1 as [Hp1 Hd1]. unfold s', record_trunk_failure, count_failure. cbv zeta. cbn.
  rewrite Hc, wrapw_small by (unfold is_uw; lia). replace (k - 1 + 1) with k by lia. unfold cooldown_secs.
  destruct (k <=? 2) eqn:E2; cbn [Z.ltb Z.compare].
  - unfold unavailable_for. cbn. by rewrite Hp1, Hd1 by lia.
  - assert (Hl : forall n, 0 < n -> left_until now (Some (now + secs n)) = Some (secs n)).
    { intros n Hn. cbn. unfold secs. rewrite (proj2 (Z.ltb_lt _ _)) by lia. f_equal. lia. }
    unfold unavailable_for. destruct (k <=? 5), (k <=? 9); cbn [Z.ltb Z.compare disabled_until parked_until];
      cbn -[left_until secs]; rewrite Hp1, Hl by lia; done.
Qed.

(** ** The race on a call's trunk *)

(** Two tasks move one call: the first takes it onto a trunk and is paused
    before it touches the counter, the second releases it. The decrement stops
    at zero, the increment comes after it, and the trunk keeps a call that no
    longer counts on it. *)
Example count_race_leaks :
  let HI := canonical_iter TrunkId TrunkConfig in
  let m := add_trunk (new_config 1 "t") new in
  let counted := {["u" := None]} : gmap string (option string) in
  let '(p1, c1) := swap_counted "u" (Some "t") counted in
  let '(p2, c2) := swap_counted "u" None c1 in
  let m2 := match p2 with Some p => apply_counted p None m | None => m end in
  let m1 := match p1 with Some p => apply_counted p (Some "t") m2 | None => m2 end in
  calls_on "t" c2 = 0 /\ active_calls <$> get_state 1 m1 = Some 1.
Proof. vm_compute. split; reflexivity. Qed.

Module Witness.

Lemma number_formats_inverse_witness :
  let t := new_config 1 "fr" <| country_code := Some "33" |> in
  to_e164 "0612345678" t = "+33612345678" /\ to_national (to_e164 "0612345678" t) t = "0612345678".
Proof.
  intros t. split; [reflexivity|]. exact (proj1 (number_formats_inverse "33" "612345678" t eq_refl eq_refl)).
Defined.

(** A two-minute park, an answer and a failure a second later. *)
Lemma park_outlives_answers_witness :
  can_accept_call (secs 100) (new_config 1 "t")
    (fold_left (fun s o => outcome o s) [Answered; Failed (secs 1); CallEnd] (park_for 0 120 (new_state 1))) = false.
Proof. refine (proj1 (park_outlives_answers _ 0 120 (secs 100) _ _ _ _)); [discriminate|reflexivity]. Defined.

Lemma cooldown_ladder_witness :
  unavailable_for (secs 9) (record_trunk_failure (secs 9)
    (fold_left (fun s now => record_trunk_failure now s) [secs 1; secs 2] (record_success (new_state 1)))) = Some (secs 30).
Proof. exact (cooldown_ladder [secs 1; secs 2] (secs 9) (new_state 1) eq_refl eq_refl). Defined.

(** A call placed on one trunk, moved to another and released. *)
Lemma active_calls_exact_witness :
  let HI := canonical_iter TrunkId TrunkConfig in
  let m := add_trunk (new_config 2 "b") (add_trunk (new_config 1 "a") new) in
  let counted := {["u" := None; "v" := None]} : gmap string (option string) in
  let ops := [("u", Some "a"); ("v", Some "b"); ("u", Some "b")] in
  let '(counted', m') := fold_left (fun sm op => count_call_on_trunk op.1 op.2 sm) ops (counted, m) in
  exists s, get_state 2 m' = Some s /\ active_calls s = calls_on "b" counted'.
Proof.
  intros HI m counted ops.
  assert (Ht : forall i t, trunks m !! i = Some t -> i = 2 /\ t = new_config 2 "b" \/ i = 1 /\ t = new_config 1 "a").
  { intros i t. change (trunks m) with (<[2 := new_config 2 "b"]> {[1 := new_config 1 "a"]} : gmap TrunkId TrunkConfig).
    intros [[<- <-]|[_ [<- <-]%lookup_singleton_Some]]%lookup_insert_Some; auto. }
  assert (Hi : ids_ok m) by (intros i t [[-> ->]|[-> ->]]%Ht; reflexivity).
  assert (He : exact counted m).
  { split; [exact Hi|]. intros n t [<- [[Hid ->]|[Hid ->]]%Ht]%(find_by_name_spec n m t Hi);
      (eexists; split; vm_compute; reflexivity). }
  pose proof (active_calls_exact ops counted m "b" (new_config 2 "b") He eq_refl) as H.
  assert (Hf : forall m', fold_left (fun sm op => count_call_on_trunk op.1 op.2 sm) ops (counted, m) = m' ->
    find_by_name "b" m'.2 = Some (new_config 2 "b")) by (intros m' <-; vm_compute; reflexivity).
  specialize (Hf _ eq_refl). destruct (fold_left _ _ _) as [c' m']. exact (H Hf).
Defined.

End Witness.
