(* ===== verification/TrunkTasks.v ===== *)
(** * Health checks and registration of trunks (trunk_tasks.rs, trunk_register.rs)

    The registry that keeps one pair of tasks for each UDP trunk in use, the
    loop that probes a trunk with OPTIONS, and the loop that registers with it.
    A loop is a function of its rounds: what came back for each request, the
    clock, the random texts drawn and how the sleep ended. Durations are
    nanoseconds. *)

From S2P Require Import Prelude Str Bytes Net.
From S2P Require Auth Topology.
From S2P Require Import Trunk.

(** ** Responses *)

Definition parse_status (raw : string) : Z :=
  match split_whitespace (default "" (lines raw !! 0%nat)) with
  | _ :: status :: _ => default 0 (parse_uint u16_max status)
  | _ => 0
  end.

Definition after_colon (line : string) : string :=
  match split ":" line with _ :: v :: _ => v | _ => "" end.

Fixpoint expires_in (ls : list string) : option Z :=
  match ls with
  | [] => None
  | line :: rest =>
      let low := to_ascii_lowercase line in
      if starts_with "expires:" low then parse_uint u32_max (trim (after_colon line))
      else if starts_with "contact:" low then
        match find_str "expires=" low with
        | Some pos =>
            match split_by (fun c => negb (is_digit c)) (sdrop (pos + 8) line) with
            | v :: _ => parse_uint u32_max v
            | [] => None
            end
        | None => expires_in rest
        end
      else expires_in rest
  end.

Definition parse_expires (raw : string) : option Z := expires_in (lines raw).

Fixpoint header_in (name : string) (ls : list string) : option string :=
  match ls with
  | [] => None
  | line :: rest =>
      if starts_with (to_ascii_lowercase name +:+ ":") (to_ascii_lowercase line)
      then match split_once ":" line with Some (_, v) => Some (trim v) | None => header_in name rest end
      else header_in name rest
  end.

Definition extract_header (raw name : string) : option string := header_in name (lines raw).

(** ** Data *)

Record TaskSpec := mkSpec {
  spec_id : TrunkId;
  spec_name : string;
  spec_host : string;
  spec_port : Z;
  spec_transport : TransportType;
  dest : option SocketAddr;
  register : bool;
  user : option string;
  pass : option string;
  spec_realm : option string;
  interval : Z
}.

#[export] Instance TransportType_eq_dec : EqDecision TransportType.
Proof. solve_decision. Defined.
#[export] Instance TaskSpec_eq_dec : EqDecision TaskSpec.
Proof. solve_decision. Defined.

Record TrunkHealthConfig := mkHealthConfig {
  health_interval : Z;
  health_timeout : Z;
  register_backoff_max : Z
}.

Record TrunkTasksConfig := mkTasksConfig {
  initial_delay : Z;
  options_interval : Z;
  options_timeout : Z;
  register_timeout : Z;
  refresh_min : Z;
  refresh_floor : Z;
  retry_fixed : Z;
  backoff_min : Z;
  backoff_max : Z
}.

#[export] Instance eta_tasks_config : Eta TrunkTasksConfig := fun c =>
  mkTasksConfig (initial_delay c) (options_interval c) (options_timeout c) (register_timeout c) (refresh_min c)
    (refresh_floor c) (retry_fixed c) (backoff_min c) (backoff_max c).

Definition default_config : TrunkTasksConfig :=
  mkTasksConfig (secs 5) (secs 30) (secs 5) (secs 10) (secs 30) (secs 60) (secs 60) (secs 30) (secs 900).

Definition config_from (c : TrunkHealthConfig) : TrunkTasksConfig :=
  default_config <| options_interval := secs (Z.max (health_interval c) 1) |>
                 <| options_timeout := secs (Z.max (health_timeout c) 1) |>
                 <| backoff_max := secs (Z.max (register_backoff_max c) 1) |>.

(** ** Backoff *)

Record Backoff := mkBackoff { cur : Z; bo_min : Z; bo_max : Z }.

#[export] Instance eta_backoff : Eta Backoff := fun b => mkBackoff (cur b) (bo_min b) (bo_max b).

Definition new_backoff (lo hi : Z) : Backoff := mkBackoff lo lo (Z.max hi lo).
Definition next_wait (b : Backoff) : Z * Backoff := (cur b, b <| cur := Z.min (cur b * 2) (bo_max b) |>).
Definition reset (b : Backoff) : Backoff := b <| cur := bo_min b |>.

(** ** Outcomes *)

Inductive RegisterOutcome :=
  | Registered (granted : Z)
  | IntervalTooBrief (min_expires : Z)
  | Refused (status : Z)
  | Timeout
  | SendFailed (e : string)
  | Malformed (e : string)
  | Cancelled.

#[export] Instance RegisterOutcome_eq_dec : EqDecision RegisterOutcome.
Proof. solve_decision. Defined.

Definition reason (o : RegisterOutcome) : string :=
  match o with
  | Registered _ => "registered"
  | IntervalTooBrief m => "423 (Min-Expires " +:+ show m +:+ ")"
  | Refused status => show status
  | Timeout => "timeout"
  | SendFailed e => "send-failed: " +:+ e
  | Malformed e => "malformed: " +:+ e
  | Cancelled => "cancelled"
  end.

Definition min_expires_of (raw : string) : RegisterOutcome :=
  match extract_header raw "min-expires" ≫= (fun v => parse_uint u32_max (trim v)) with
  | Some m => if 0 <? m then IntervalTooBrief m else Malformed "423 without a usable Min-Expires"
  | None => Malformed "423 without a usable Min-Expires"
  end.

(** ** What the tasks share

    [sent]: the datagrams; [up] and [registered_gauge]: the two gauges of a
    trunk; [pending]: the Call-IDs whose answer the event loop hands to a task;
    [wakes]: how often a registration was woken by health. *)
Inductive SbcEvent :=
  | TrunkHealth (trunk status : string) (failures : Z)
  | TrunkRegistered (trunk : string) (expires : Z)
  | TrunkUnregistered (trunk reason : string).

Record World := mkWorld {
  manager : TrunkManager;
  events : list SbcEvent;
  up : gmap string bool;
  registered_gauge : gmap string bool;
  sent : list (string * SocketAddr);
  pending : gset string;
  wakes : nat
}.

#[export] Instance eta_world : Eta World := fun w =>
  mkWorld (manager w) (events w) (up w) (registered_gauge w) (sent w) (pending w) (wakes w).

Definition set_trunk_up (n : string) (v : option bool) (w : World) : World :=
  w <| up := partial_alter (fun _ => v) n (up w) |>.
Definition set_trunk_registered (n : string) (v : option bool) (w : World) : World :=
  w <| registered_gauge := partial_alter (fun _ => v) n (registered_gauge w) |>.
Definition on_state (i : TrunkId) (f : TrunkState -> TrunkState) (w : World) : World :=
  w <| manager := update_state i f (manager w) |>.
Definition publish (e : SbcEvent) (w : World) : World := w <| events := events w ++ [e] |>.
Definition send_to (m : string) (a : SocketAddr) (w : World) : World := w <| sent := sent w ++ [(m, a)] |>.

Definition wake (w : World) : World := w <| wakes := S (wakes w) |>.

(** The context of a task: [local_port] and the address the trunk sees. *)
Record Ctx := mkCtx {
  identity : option Topology.SbcIdentity;
  local_port : Z;
  config : TrunkTasksConfig
}.

Definition local_ip (c : Ctx) : string :=
  match identity c with Some i => Topology.public_ip i | None => "127.0.0.1" end.

(** How the wait for an answer ends: the event loop hands the answer over, the
    channel closes, the time is up, the datagram is not sent, the task is
    cancelled. *)
Inductive Wait := Answer (raw : string) | ChannelClosed | TimeUp | NotSent (e : string) | TaskCancelled.

(** How a sleep ends. *)
Inductive Sleep := Slept | Woken | SleepCancelled.

(** Random texts: [rand8] and [branch] of a new UUID. *)
Definition rand8 (uuid : string) : string := stake 8 uuid.
Definition branch (uuid : string) : string := "z9hG4bK" +:+ stake 16 (replace_all "-" "" uuid).

(** ** OPTIONS *)

Record Health := mkHealth { was_up : bool; ever_responded : bool }.

Definition health_start : Health := mkHealth true false.

(** One probe: the texts drawn, the end of the wait, the clock, the sleep. *)
Record Probe := mkProbe {
  p_call : string;
  p_branch : string;
  p_tag : string;
  p_wait : Wait;
  p_now : Z;
  p_sleep : Sleep
}.

Definition probe_id (spec : TaskSpec) (p : Probe) : string := "hc-" +:+ spec_name spec +:+ "-" +:+ rand8 (p_call p).

Definition options_request (c : Ctx) (spec : TaskSpec) (p : Probe) : string :=
  let target := "sip:" +:+ spec_host spec +:+ ":" +:+ show (spec_port spec) in
  unlines
    ["OPTIONS " +:+ target +:+ " SIP/2.0";
     "Via: SIP/2.0/UDP " +:+ local_ip c +:+ ":" +:+ show (local_port c) +:+ ";branch=" +:+ branch (p_branch p) +:+ ";rport";
     "Max-Forwards: 70"; "From: <sip:healthcheck@" +:+ local_ip c +:+ ">;tag=" +:+ rand8 (p_tag p);
     "To: <" +:+ target +:+ ">"; "Call-ID: " +:+ probe_id spec p; "CSeq: 1 OPTIONS"; "User-Agent: NIXI-SBC/1.0";
     "Content-Length: 0"; ""] "".

Definition await (call_id : string) (w : World) : World := w <| pending := {[call_id]} ∪ pending w |>.
Definition forget (call_id : string) (w : World) : World := w <| pending := pending w ∖ {[call_id]} |>.

(** [(200..500).contains(&parse_status(&raw))] *)
Definition alive (raw : string) : bool := (200 <=? parse_status raw) && (parse_status raw <? 500).

(** The answer of the trunk; [None] when the task is cancelled. *)
Definition probe_result (w : Wait) : option bool :=
  match w with Answer raw => Some (alive raw) | TaskCancelled => None | _ => Some false end.

Definition is_sent (w : Wait) : bool := match w with NotSent _ => false | _ => true end.

(** What a result does. *)
Definition judge (spec : TaskSpec) (now : Z) (is_up : bool) (h : Health) (w : World) : Health * World :=
  let w := if is_up then set_trunk_up (spec_name spec) (Some true) w
           else if ever_responded h then set_trunk_up (spec_name spec) (Some false) w else w in
  if is_up then
    (mkHealth true true,
     if was_up h then w
     else wake (publish (TrunkHealth (spec_name spec) "up" 0) (on_state (spec_id spec) record_success w)))
  else if ever_responded h then
    let w := on_state (spec_id spec) (record_trunk_failure now) w in
    (mkHealth false true,
     if was_up h
     then publish (TrunkHealth (spec_name spec) "down"
                     (default 1 (consecutive_failures <$> get_state (spec_id spec) (manager w)))) w
     else w)
  else (mkHealth false false, w).

(** One round, up to the sleep; [None]: the task returned. *)
Definition health_round (c : Ctx) (spec : TaskSpec) (p : Probe) (h : Health) (w : World) : option Health * World :=
  match dest spec with
  | None => (Some h, w)
  | Some d =>
      let call_id := probe_id spec p in
      let w := await call_id w in
      let w := if is_sent (p_wait p) then send_to (options_request c spec p) d w else w in
      let w := forget call_id w in
      match probe_result (p_wait p) with
      | None => (None, w)
      | Some is_up => let '(h, w) := judge spec (p_now p) is_up h w in (Some h, w)
      end
  end.

Fixpoint health_rounds (c : Ctx) (spec : TaskSpec) (ps : list Probe) (h : Health) (w : World) : option Health * World :=
  match ps with
  | [] => (Some h, w)
  | p :: ps =>
      match health_round c spec p h w with
      | (Some h, w) => match p_sleep p with
                       | SleepCancelled => (None, w)
                       | _ => health_rounds c spec ps h w
                       end
      | (None, w) => (None, w)
      end
  end.

(** [delayed]: how the initial delay ended. *)
Definition health_loop (c : Ctx) (spec : TaskSpec) (delayed : Sleep) (ps : list Probe) (w : World) : World :=
  match delayed with SleepCancelled => w | _ => (health_rounds c spec ps health_start w).2 end.

(** ** REGISTER *)

Definition build_register (c : Ctx) (spec : TaskSpec) (call_id : string) (cseq : Z) (from : string) (expires : Z)
    (auth : option (string * string)) (uuid : string) : string :=
  let username := default "anonymous" (user spec) in
  unlines
    (["REGISTER sip:" +:+ spec_host spec +:+ " SIP/2.0";
      "Via: SIP/2.0/UDP " +:+ local_ip c +:+ ":" +:+ show (local_port c) +:+ ";branch=" +:+ branch uuid +:+ ";rport";
      "Max-Forwards: 70"; "From: " +:+ from; "To: <sip:" +:+ username +:+ "@" +:+ spec_host spec +:+ ">";
      "Call-ID: " +:+ call_id; "CSeq: " +:+ show cseq +:+ " REGISTER";
      "Contact: <sip:" +:+ username +:+ "@" +:+ local_ip c +:+ ":" +:+ show (local_port c) +:+ ";transport=udp>"]
     ++ match auth with Some (h, v) => [h +:+ ": " +:+ v] | None => [] end
     ++ ["Expires: " +:+ show expires; "User-Agent: NIXI-SBC/1.0"; "Content-Length: 0"; ""]) "".

Definition send_and_wait (call_id msg : string) (d : SocketAddr) (answer : Wait) (w : World)
    : result RegisterOutcome string * World :=
  let w := await call_id w in
  let sent_to := send_to msg d w in
  match answer with
  | NotSent e => (Err (SendFailed e), forget call_id w)
  | Answer raw => (Ok raw, forget call_id sent_to)
  | ChannelClosed => (Err (Malformed "response channel closed"), forget call_id sent_to)
  | TimeUp => (Err Timeout, forget call_id sent_to)
  | TaskCancelled => (Err Cancelled, forget call_id sent_to)
  end.

(** One exchange: the texts drawn, and how the trunk answers the first request
    and the authenticated one. *)
Record Exchange := mkExchange {
  x_tag : string;
  x_branch1 : string;
  x_branch2 : string;
  x_cnonce : string;
  x_first : Wait;
  x_second : Wait
}.

(** What the loop keeps from one exchange to the next: the CSeq and the last
    challenge. *)
Record Dialog := mkDialog { cseq : Z; last_challenge : option (string * Auth.DigestChallenge) }.

#[export] Instance eta_dialog : Eta Dialog := fun d => mkDialog (cseq d) (last_challenge d).

Definition next_cseq (d : Dialog) : Dialog := d <| cseq := wrapw 32 (cseq d + 1) |>.

Definition from_line (spec : TaskSpec) (tag : string) : string :=
  "<sip:" +:+ default "anonymous" (user spec) +:+ "@" +:+ spec_host spec +:+ ">;tag=" +:+ rand8 tag.

Definition credentials (spec : TaskSpec) (challenge : Auth.DigestChallenge) (cnonce : string) : string :=
  Auth.generate_digest_response (default "anonymous" (user spec)) (default "" (pass spec)) challenge "REGISTER"
    ("sip:" +:+ spec_host spec) cnonce.

(** 200 and 423 mean the same in both answers; [other] is the rest. *)
Definition read_answer (raw : string) (expires : Z) (other : Z -> RegisterOutcome) : RegisterOutcome :=
  let status := parse_status raw in
  if status =? 200 then Registered (default expires (parse_expires raw))
  else if status =? 423 then min_expires_of raw
  else other status.

(** The display of an error. *)
Definition error_text (e : sbc_error) : string :=
  match e with
  | ETransport m => "Transport error: " +:+ m
  | EParse m => "Parse error: " +:+ m
  | EDialog m => "Dialog error: " +:+ m
  | EMedia m => "Media error: " +:+ m
  | ERouting m => "Routing error: " +:+ m
  | EConfig m => "Configuration error: " +:+ m
  | EOther m => m
  end.

Definition challenge_of (raw : string) (status : Z) : result RegisterOutcome Auth.DigestChallenge :=
  let header := if status =? 401 then "www-authenticate" else "proxy-authenticate" in
  match extract_header raw header with
  | None => Err (Malformed ("no " +:+ header +:+ " in " +:+ show status))
  | Some text =>
      match Auth.challenge_from_header text with
      | Ok ch => Ok ch
      | Err e => Err (Malformed ("bad challenge: " +:+ error_text e))
      end
  end.

Definition send_register (c : Ctx) (spec : TaskSpec) (expires : Z) (call_id : string) (x : Exchange)
    (d : Dialog) (w : World) : RegisterOutcome * Dialog * World :=
  match dest spec with
  | None => (SendFailed "no destination (DNS)", d, w)
  | Some peer =>
      let from := from_line spec (x_tag x) in
      let d := next_cseq d in
      let first := build_register c spec call_id (cseq d) from expires None (x_branch1 x) in
      match send_and_wait call_id first peer (x_first x) w with
      | (Err o, w) => (o, d, w)
      | (Ok raw, w) =>
          let status := parse_status raw in
          if (status =? 401) || (status =? 407) then
            match challenge_of raw status with
            | Err o => (o, d, w)
            | Ok challenge =>
                let auth_header := if status =? 401 then "Authorization" else "Proxy-Authorization" in
                let d := next_cseq (d <| last_challenge := Some (auth_header, challenge) |>) in
                let second := build_register c spec call_id (cseq d) from expires
                                (Some (auth_header, credentials spec challenge (x_cnonce x))) (x_branch2 x) in
                match send_and_wait call_id second peer (x_second x) w with
                | (Err o, w) => (o, d, w)
                | (Ok raw2, w) => (read_answer raw2 expires Refused, d, w)
                end
            end
          else (read_answer raw expires Refused, d, w)
      end
  end.

(** The loop's variables. *)
Record Reg := mkReg {
  expires : Z;
  backoff : Backoff;
  dialog : Dialog;
  registered_now : bool;
  failure_announced : bool
}.

#[export] Instance eta_reg : Eta Reg := fun r =>
  mkReg (expires r) (backoff r) (dialog r) (registered_now r) (failure_announced r).

(** [clamp]; it panics when the bounds are reversed, which {!config_ok}
    excludes. *)
Definition clamp (lo hi x : Z) : Z := if x <? lo then lo else if hi <? x then hi else x.

Definition reg_start (c : Ctx) (spec : TaskSpec) : Reg :=
  mkReg (clamp 1 u32_max (as_secs (interval spec)))
    (new_backoff (backoff_min (config c)) (backoff_max (config c))) (mkDialog 0 None) false false.

Definition reg_call_id (spec : TaskSpec) (uuid : string) : string := "reg-" +:+ spec_name spec +:+ "-" +:+ rand8 uuid.

(** One turn: the exchange, the one after a 423, the sleep. *)
Record Turn := mkTurn { t_first : Exchange; t_retry : Exchange; t_sleep : Sleep }.

Definition attempt (c : Ctx) (spec : TaskSpec) (call_id : string) (t : Turn) (s : Reg) (w : World)
    : RegisterOutcome * Reg * World :=
  let '(outcome, d, w) := send_register c spec (expires s) call_id (t_first t) (dialog s) w in
  let s := s <| dialog := d |> in
  match outcome with
  | IntervalTooBrief m =>
      if expires s <? m then
        let s := s <| expires := m |> in
        let '(outcome, d, w) := send_register c spec (expires s) call_id (t_retry t) (dialog s) w in
        (outcome, s <| dialog := d |>, w)
      else (outcome, s, w)
  | _ => (outcome, s, w)
  end.

(** The sleep before the next REGISTER: after a success, and after a failure. *)
Definition refresh_wait (c : Ctx) (spec : TaskSpec) (granted : Z) : Z :=
  clamp (refresh_min (config c)) (Z.max (interval spec) (refresh_floor (config c)))
    (secs (Z.max (granted * 8 / 10) 1)).

Definition failure_wait (c : Ctx) (outcome : RegisterOutcome) (b : Backoff) : Z * Backoff :=
  match outcome with
  | Refused _ | IntervalTooBrief _ => next_wait b
  | _ => (retry_fixed (config c), b)
  end.

Definition mark (spec : TaskSpec) (b : bool) (w : World) : World :=
  set_trunk_registered (spec_name spec) (Some b) (on_state (spec_id spec) (fun st => st <| registered := b |>) w).

Definition settle (c : Ctx) (spec : TaskSpec) (outcome : RegisterOutcome) (s : Reg) (w : World) : Z * Reg * World :=
  match outcome with
  | Registered granted =>
      let w := mark spec true w in
      let w := if registered_now s then w else publish (TrunkRegistered (spec_name spec) granted) w in
      (refresh_wait c spec granted,
       s <| registered_now := true |> <| failure_announced := false |> <| backoff := reset (backoff s) |>, w)
  | failure =>
      let w := mark spec false w in
      let w := if registered_now s || negb (failure_announced s)
               then publish (TrunkUnregistered (spec_name spec) (reason failure)) w else w in
      let '(wait, b) := failure_wait c failure (backoff s) in
      (wait, s <| registered_now := false |> <| failure_announced := true |> <| backoff := b |>, w)
  end.

(** One turn; the wait is that of the sleep, [None] when the task was cancelled
    during an exchange. *)
Definition turn (c : Ctx) (spec : TaskSpec) (call_id : string) (t : Turn) (s : Reg) (w : World)
    : option Z * Reg * World :=
  let '(outcome, s, w) := attempt c spec call_id t s w in
  match outcome with
  | Cancelled => (None, s, w)
  | _ => let '(wait, s, w) := settle c spec outcome s w in (Some wait, s, w)
  end.

(** The turns until the loop is left: the waits, the state at that point, and
    whether the loop was left. *)
Fixpoint turns (c : Ctx) (spec : TaskSpec) (call_id : string) (ts : list Turn) (s : Reg) (w : World)
    : list Z * bool * Reg * World :=
  match ts with
  | [] => ([], false, s, w)
  | t :: ts =>
      match turn c spec call_id t s w with
      | (None, s, w) => ([], true, s, w)
      | (Some wait, s, w) =>
          match t_sleep t with
          | SleepCancelled => ([wait], true, s, w)
          | _ => let '(waits, over, s, w) := turns c spec call_id ts s w in (wait :: waits, over, s, w)
          end
      end
  end.

(** What the loop does once left. *)
Definition unregister (c : Ctx) (spec : TaskSpec) (call_id : string) (on_stop fast : bool) (x : Exchange)
    (s : Reg) (w : World) : World :=
  if registered_now s && on_stop then
    if fast then
      match dest spec with
      | Some peer =>
          let d := next_cseq (dialog s) in
          let auth := (fun hc => (hc.1, credentials spec hc.2 (x_cnonce x))) <$> last_challenge d in
          let bye := build_register c spec call_id (cseq d) (from_line spec (x_tag x)) 0 auth (x_branch1 x) in
          if is_sent (x_first x) then send_to bye peer w else w
      | None => w
      end
    else (send_register c spec 0 call_id x (dialog s) w).2
  else w.

Definition register_loop (c : Ctx) (spec : TaskSpec) (uuid : string) (ts : list Turn) (on_stop fast : bool)
    (x : Exchange) (w : World) : World :=
  let call_id := reg_call_id spec uuid in
  let '(_, over, s, w) := turns c spec call_id ts (reg_start c spec) w in
  if over then unregister c spec call_id on_stop fast x s w else w.

(** ** The registry

    [cancelled]: the tasks told to stop, with what they were told. *)
Record Running := mkRunning { r_spec : TaskSpec; r_generation : Z; unregister_on_stop : bool }.

#[export] Instance eta_running : Eta Running := fun r => mkRunning (r_spec r) (r_generation r) (unregister_on_stop r).

Record TrunkTasks := mkTasks {
  socket : option (option Topology.SbcIdentity);
  running : gmap string Running;
  generation : Z;
  non_udp_warned : gset string;
  fast_stop : bool;
  cancelled : list Running
}.

#[export] Instance eta_tasks : Eta TrunkTasks := fun t =>
  mkTasks (socket t) (running t) (generation t) (non_udp_warned t) (fast_stop t) (cancelled t).

Definition new_tasks : TrunkTasks := mkTasks None ∅ 0 ∅ false [].

Definition attach_socket (id : option Topology.SbcIdentity) (t : TrunkTasks) : bool * TrunkTasks :=
  match socket t with None => (true, t <| socket := Some id |>) | Some _ => (false, t) end.

Definition has_socket (t : TrunkTasks) : bool := bool_decide (is_Some (socket t)).

(** The context of the tasks it starts. *)
Definition ctx_of (cfg : TrunkTasksConfig) (id : option Topology.SbcIdentity) : Ctx :=
  mkCtx id (match id with Some i => Topology.sip_port i | None => 5060 end) cfg.

(** The order of the names. *)
Definition name_le {A} (a b : string * A) : Prop := String.leb a.1 b.1 = true.

#[export] Instance name_le_dec {A} (a b : string * A) : Decision (name_le a b).
Proof. unfold name_le. apply _. Defined.

Section registry.
Context {HT : HashIter TrunkId TrunkConfig} {HR : HashIter string Running} {HD : HashIter string TaskSpec}.
Context (parse_addr : string -> option SocketAddr).

Definition spec_of (t : TrunkConfig) : TaskSpec :=
  mkSpec (id t) (name t) (host t) (trunk_port t) (transport t) (destination parse_addr t) (register_with_trunk t)
    (username t) (password t) (realm t) (registration_interval t).

(** The trunks that get tasks, and those warned about. *)
Definition want (acc : gset string * gmap string TaskSpec) (t : TrunkConfig) : gset string * gmap string TaskSpec :=
  let '(warned, desired) := acc in
  if bool_decide (transport t = TUdp) then (warned ∖ {[name t]}, <[name t := spec_of t]> desired)
  else ({[name t]} ∪ warned, desired).

Definition wanted (m : TrunkManager) (warned : gset string) : gset string * gmap string TaskSpec :=
  fold_left want (List.filter enabled (list_trunks m)) (warned, ∅).

(** Whether a stopped registration is taken over by the new one. *)
Definition told (desired : gmap string TaskSpec) (n : string) (r : Running) : Running :=
  match desired !! n with
  | Some next => if register next && register (r_spec r) then r <| unregister_on_stop := false |> else r
  | None => r
  end.

Definition stop (desired : gmap string TaskSpec) (tw : TrunkTasks * World) (n : string) : TrunkTasks * World :=
  let '(t, w) := tw in
  match running t !! n with
  | None => (t, w)
  | Some r =>
      (t <| running := delete n (running t) |> <| cancelled := cancelled t ++ [told desired n r] |>,
       on_state (spec_id (r_spec r)) (fun s => s <| registered := false |>)
         (set_trunk_registered n None (set_trunk_up n None w)))
  end.

Definition is_stale (desired : gmap string TaskSpec) (e : string * Running) : bool :=
  negb (bool_decide (desired !! e.1 = Some (r_spec e.2))).

Definition stale (desired : gmap string TaskSpec) (t : TrunkTasks) : list string :=
  (List.filter (is_stale desired) (hiter (running t))).*1.

Definition start (t : TrunkTasks) (e : string * TaskSpec) : TrunkTasks :=
  let g := wrapw 64 (generation t + 1) in
  t <| generation := g |> <| running := <[e.1 := mkRunning e.2 g true]> (running t) |>.

Definition to_start (desired : gmap string TaskSpec) (t : TrunkTasks) : list (string * TaskSpec) :=
  merge_sort name_le (List.filter (fun e => bool_decide (running t !! e.1 = None)) (hiter desired)).

Definition sync (t : TrunkTasks) (w : World) : TrunkTasks * World :=
  match socket t with
  | None => (t, w)
  | Some _ =>
      let '(warned, desired) := wanted (manager w) (non_udp_warned t) in
      let t := t <| non_udp_warned := warned |> in
      let '(t, w) := fold_left (stop desired) (stale desired t) (t, w) in
      (fold_left start (to_start desired t) t, w)
  end.
End registry.

(** What the API lists. *)
Definition running_names (t : TrunkTasks) : list (string * Z * bool) :=
  (fun e => (e.1, r_generation e.2, register (r_spec e.2))) <$>
  merge_sort name_le (map_to_list (running t)).

(** Every task is told to stop; the bounded wait that follows is scheduling. *)
Definition shutdown (t : TrunkTasks) : TrunkTasks :=
  t <| fast_stop := true |> <| cancelled := cancelled t ++ (map_to_list (running t)).*2 |> <| running := ∅ |>.

(** ** The registry follows the trunk table *)

Lemma nodup_keys_filterb {A B} (p : A * B -> bool) (l : list (A * B)) : NoDup l.*1 -> NoDup (List.filter p l).*1.
Proof.
  induction l as [|e l IH]; [done|]. rewrite fmap_cons, NoDup_cons. intros [Hn Hl].
  cbn [List.filter]. destruct (p e); [|by apply IH]. rewrite fmap_cons, NoDup_cons. split; [|by apply IH].
  rewrite list_elem_of_fmap. intros (e' & Heq & He). apply Hn. rewrite list_elem_of_fmap. exists e'. split; [done|].
  rewrite list_elem_of_In, List.filter_In, <- list_elem_of_In in He. apply He.
Qed.

Section sync.
Context {HT : HashIter TrunkId TrunkConfig} {HR : HashIter string Running} {HD : HashIter string TaskSpec}.
Context (parse_addr : string -> option SocketAddr).

Abbreviation wanted_by m warned := (wanted parse_addr m warned).2.

(** A trunk that gets tasks. *)
Definition served (m : TrunkManager) (t : TrunkConfig) : Prop :=
  (exists i, trunks m !! i = Some t) /\ enabled t = true /\ transport t = TUdp.

Lemma served_list m t : served m t <-> t ∈ List.filter enabled (list_trunks m) /\ transport t = TUdp.
Proof.
  unfold served, list_trunks. rewrite list_elem_of_In, List.filter_In, <- list_elem_of_In, list_elem_of_fmap.
  split.
  - intros [[i Hi] [He Ht]]. split_and!; try done. exists (i, t). split; [done|]. by apply elem_of_hiter.
  - intros [[[[i t'] [-> Hi]] He] Ht]. split_and!; try done. exists i. by apply elem_of_hiter in Hi.
Qed.

Lemma want_fold l acc n s :
  (fold_left (want parse_addr) l acc).2 !! n = Some s ->
  acc.2 !! n = Some s \/ exists t, t ∈ l /\ transport t = TUdp /\ name t = n /\ s = spec_of parse_addr t.
Proof.
  revert acc. induction l as [|t l IH]; intros [warned d] H; [by left|].
  cbn [fold_left] in H. apply IH in H as [H|(t' & Ht & H)].
  - unfold want in H. case_bool_decide as Hu; simpl in H; [|by left].
    apply lookup_insert_Some in H as [[<- <-]|[_ H]]; [|by left]. right. exists t. split; [by left|done].
  - right. exists t'. split; [by right|done].
Qed.

Lemma want_fold_keeps l acc n : is_Some (acc.2 !! n) -> is_Some ((fold_left (want parse_addr) l acc).2 !! n).
Proof.
  revert acc. induction l as [|t l IH]; intros [warned d] H; [done|]. cbn [fold_left]. apply IH.
  unfold want. case_bool_decide; simpl; [|done]. apply lookup_insert_is_Some. by destruct (decide (name t = n)); [left|right].
Qed.

Lemma want_fold_all l acc t :
  t ∈ l -> transport t = TUdp -> is_Some ((fold_left (want parse_addr) l acc).2 !! name t).
Proof.
  revert acc. induction l as [|t' l IH]; intros [warned d] Hin Hu; [by apply elem_of_nil in Hin|].
  cbn [fold_left]. apply elem_of_cons in Hin as [->|Hin]; [|by apply IH].
  apply want_fold_keeps. unfold want. rewrite bool_decide_eq_true_2 by done. simpl. rewrite lookup_insert_eq. by eexists.
Qed.

Lemma wanted_sound m warned n s :
  wanted_by m warned !! n = Some s -> exists t, served m t /\ name t = n /\ s = spec_of parse_addr t.
Proof.
  intros H. apply want_fold in H as [H|(t & Hin & Hu & Hn & ->)]; [simpl in H; by rewrite lookup_empty in H|].
  exists t. split; [by apply served_list|done].
Qed.

Lemma wanted_complete m warned t : served m t -> is_Some (wanted_by m warned !! name t).
Proof. intros [Hin Hu]%served_list. by apply want_fold_all. Qed.

(** Stopping the stale tasks. *)
Lemma stop_running d n tw k : running (stop d tw n).1 !! k = if decide (k = n) then None else running tw.1 !! k.
Proof.
  destruct tw as [t w]. unfold stop. simpl. destruct (running t !! n) as [r|] eqn:E; simpl.
  - case_decide as Hk; [subst; apply lookup_delete_eq|by apply lookup_delete_ne].
  - by case_decide; subst.
Qed.

Lemma stops_running d l tw k :
  running (fold_left (stop d) l tw).1 !! k = if decide (k ∈ l) then None else running tw.1 !! k.
Proof.
  revert tw. induction l as [|n l IH]; intros tw; cbn [fold_left].
  - by rewrite decide_False by apply not_elem_of_nil.
  - rewrite IH, stop_running. destruct (decide (k ∈ l)) as [Hl|Hl].
    + by rewrite decide_True by by right.
    + destruct (decide (k = n)) as [->|Hn]; [by rewrite decide_True by by left|].
      rewrite decide_False; [done|]. by rewrite not_elem_of_cons.
Qed.

Lemma stop_frame d n tw :
  socket (stop d tw n).1 = socket tw.1 /\ generation (stop d tw n).1 = generation tw.1 /\
  fast_stop (stop d tw n).1 = fast_stop tw.1 /\ non_udp_warned (stop d tw n).1 = non_udp_warned tw.1 /\
  trunks (manager (stop d tw n).2) = trunks (manager tw.2) /\
  cancelled tw.1 `sublist_of` cancelled (stop d tw n).1.
Proof.
  destruct tw as [t w]. unfold stop. simpl. destruct (running t !! n) as [r|]; simpl; split_and!; try done.
  by apply sublist_inserts_r.
Qed.

Lemma stops_frame d l tw :
  socket (fold_left (stop d) l tw).1 = socket tw.1 /\ generation (fold_left (stop d) l tw).1 = generation tw.1 /\
  fast_stop (fold_left (stop d) l tw).1 = fast_stop tw.1 /\
  non_udp_warned (fold_left (stop d) l tw).1 = non_udp_warned tw.1 /\
  trunks (manager (fold_left (stop d) l tw).2) = trunks (manager tw.2) /\
  cancelled tw.1 `sublist_of` cancelled (fold_left (stop d) l tw).1.
Proof.
  revert tw. induction l as [|n l IH]; intros tw; cbn [fold_left]; [done|].
  destruct (stop_frame d n tw) as (E1 & E2 & E3 & E4 & E5 & E6).
  destruct (IH (stop d tw n)) as (-> & -> & -> & -> & -> & E). split_and!; try done. by etrans.
Qed.

(** The trunk of a stopped task is not shown as registered. *)
Definition unregistered (i : TrunkId) (w : World) : Prop :=
  forall st, get_state i (manager w) = Some st -> registered st = false.

Lemma stop_unregistered d n tw i : unregistered i tw.2 -> unregistered i (stop d tw n).2.
Proof.
  destruct tw as [t w]. unfold stop. simpl. intros H. destruct (running t !! n) as [r|]; [|done]. simpl.
  intros st. unfold get_state. simpl. rewrite lookup_alter_Some. intros [(_ & st' & _ & ->)|[_ E]]; [done|by apply H].
Qed.

Lemma stops_unregistered d l tw i : unregistered i tw.2 -> unregistered i (fold_left (stop d) l tw).2.
Proof. revert tw. induction l as [|n l IH]; intros tw H; [done|]. by apply IH, stop_unregistered. Qed.

Lemma stops_told d l tw n r :
  NoDup l -> n ∈ l -> running tw.1 !! n = Some r ->
  told d n r ∈ cancelled (fold_left (stop d) l tw).1 /\ unregistered (spec_id (r_spec r)) (fold_left (stop d) l tw).2.
Proof.
  revert tw. induction l as [|k l IH]; intros tw Hnd Hin Hr; [by apply elem_of_nil in Hin|].
  apply NoDup_cons in Hnd as [Hk Hnd]. cbn [fold_left]. destruct (decide (k = n)) as [->|Hkn].
  - destruct (stops_frame d l (stop d tw n)) as (_ & _ & _ & _ & _ & Hc). split.
    + eapply elem_of_sublist; [|exact Hc]. destruct tw as [t w]. unfold stop. simpl in *. rewrite Hr. simpl.
      apply elem_of_app. right. by apply list_elem_of_singleton.
    + apply stops_unregistered. destruct tw as [t w]. unfold stop. simpl in *. rewrite Hr. simpl.
      intros st. unfold get_state. simpl.
      rewrite lookup_alter_Some. by intros [(_ & st' & _ & ->)|[Hne _]].
  - apply elem_of_cons in Hin as [Hin|Hin]; [done|]. apply IH; [done|done|].
    by rewrite stop_running, decide_False.
Qed.

(** Starting the missing ones. *)
Lemma starts_running l t n :
  n ∉ l.*1 -> running (fold_left start l t) !! n = running t !! n.
Proof.
  revert t. induction l as [|[k s] l IH]; intros t Hn; [done|]. cbn [fold_left fmap list_fmap fst] in *.
  apply not_elem_of_cons in Hn as [Hk Hn]. rewrite IH by done. simpl. by rewrite lookup_insert_ne.
Qed.

Lemma starts_frame l t :
  socket (fold_left start l t) = socket t /\ cancelled (fold_left start l t) = cancelled t /\
  non_udp_warned (fold_left start l t) = non_udp_warned t.
Proof. revert t. induction l as [|e l IH]; intros t; [done|]. cbn [fold_left]. by destruct (IH (start t e)) as (-> & -> & ->). Qed.

(** The generations in use are distinct and already drawn. *)
Definition generations_ok (t : TrunkTasks) : Prop :=
  0 <= generation t /\
  (forall n r, running t !! n = Some r -> r_generation r <= generation t) /\
  (forall n m r r', running t !! n = Some r -> running t !! m = Some r' -> r_generation r = r_generation r' -> n = m).

Lemma start_generations t e :
  generation t + 1 < 2 ^ 64 -> generations_ok t -> generation (start t e) = generation t + 1 /\ generations_ok (start t e).
Proof.
  intros Hb (H0 & Hle & Hinj).
  assert (Hg : wrapw 64 (generation t + 1) = generation t + 1) by (apply Z.mod_small; lia).
  unfold start. rewrite Hg. split; [done|]. split_and!; simpl; [lia| |].
  - intros n r [[_ <-]|[_ H]]%lookup_insert_Some; simpl; [lia|]. apply Hle in H. lia.
  - intros n m r r' [[<- <-]|[Hn H]]%lookup_insert_Some [[<- <-]|[Hm H']]%lookup_insert_Some; simpl; intros E.
    + done.
    + apply Hle in H'. lia.
    + apply Hle in H. lia.
    + by eapply Hinj.
Qed.

Lemma starts_generations l t :
  generation t + Z.of_nat (length l) < 2 ^ 64 -> generations_ok t ->
  generation (fold_left start l t) = generation t + Z.of_nat (length l) /\ generations_ok (fold_left start l t).
Proof.
  revert t. induction l as [|e l IH]; intros t Hb Hg; cbn [fold_left length] in *; [split; [lia|done]|].
  destruct (start_generations t e) as [E Hg']; [lia|done|]. destruct (IH (start t e)) as [E' Hg'']; [lia|done|].
  split; [lia|done].
Qed.

Lemma starts_started l t n s :
  NoDup l.*1 -> (n, s) ∈ l -> r_spec <$> running (fold_left start l t) !! n = Some s.
Proof.
  revert t. induction l as [|[k s'] l IH]; intros t Hnd Hin; [by apply elem_of_nil in Hin|].
  cbn [fold_left fmap list_fmap fst] in *. apply NoDup_cons in Hnd as [Hk Hnd].
  apply elem_of_cons in Hin as [[= -> ->]|Hin]; [|by apply IH].
  rewrite starts_running by done. simpl. by rewrite lookup_insert_eq.
Qed.

Lemma elem_of_to_start d t n s : (n, s) ∈ to_start d t <-> d !! n = Some s /\ running t !! n = None.
Proof.
  unfold to_start. rewrite merge_sort_Permutation, list_elem_of_In, List.filter_In, <- list_elem_of_In, elem_of_hiter.
  by rewrite bool_decide_eq_true.
Qed.

Lemma to_start_nodup d t : NoDup (to_start d t).*1.
Proof.
  unfold to_start. rewrite merge_sort_Permutation. apply nodup_keys_filterb, hiter_nodup.
Qed.

Lemma to_start_length d t : (length (to_start d t) <= size d)%nat.
Proof.
  unfold to_start. rewrite merge_sort_Permutation, <- hiter_length. apply List.filter_length_le.
Qed.

Lemma elem_of_stale d t n : n ∈ stale d t <-> exists r, running t !! n = Some r /\ d !! n <> Some (r_spec r).
Proof.
  unfold stale. rewrite list_elem_of_fmap. split.
  - intros [[k r] [-> H]]. rewrite list_elem_of_In, List.filter_In, <- list_elem_of_In, elem_of_hiter in H.
    destruct H as [Hr Hd]. exists r. split; [done|]. unfold is_stale in Hd. simpl in Hd.
    by apply negb_true_iff, bool_decide_eq_false in Hd.
  - intros (r & Hr & Hd). exists (n, r). split; [done|].
    rewrite list_elem_of_In, List.filter_In, <- list_elem_of_In, elem_of_hiter. split; [done|].
    unfold is_stale. by apply negb_true_iff, bool_decide_eq_false.
Qed.

Lemma stale_nodup d t : NoDup (stale d t).
Proof.
  apply nodup_keys_filterb, hiter_nodup.
Qed.

(** [sync], with the tasks it wants named. *)
Lemma sync_unfold t w (warned := (wanted parse_addr (manager w) (non_udp_warned t)).1)
    (d := wanted_by (manager w) (non_udp_warned t)) (t0 := t <| non_udp_warned := warned |>)
    (tw := fold_left (stop d) (stale d t0) (t0, w)) :
  is_Some (socket t) -> sync parse_addr t w = (fold_left start (to_start d tw.1) tw.1, tw.2).
Proof.
  intros [i Hs]. unfold sync. rewrite Hs. subst warned d t0 tw.
  destruct (wanted parse_addr (manager w) (non_udp_warned t)) as [wd d]. cbn [fst snd].
  by destruct (fold_left _ _ _).
Qed.

(** What is running after [sync]: an up-to-date task is left alone, the others
    are new. *)
Lemma sync_running t w n (d := wanted_by (manager w) (non_udp_warned t)) :
  is_Some (socket t) ->
  match running t !! n with
  | Some r => if decide (d !! n = Some (r_spec r)) then running (sync parse_addr t w).1 !! n = Some r
              else r_spec <$> running (sync parse_addr t w).1 !! n = d !! n
  | None => r_spec <$> running (sync parse_addr t w).1 !! n = d !! n
  end.
Proof.
  intros Hs. rewrite sync_unfold by done. cbn [fst]. fold d. set (t0 := t <| non_udp_warned := _ |>).
  set (tw := fold_left (stop d) _ _). 
  assert (Hr : running tw.1 !! n = if decide (n ∈ stale d t0) then None else running t !! n)
    by (unfold tw; rewrite stops_running; done).
  assert (Hnew : running tw.1 !! n = None -> r_spec <$> running (fold_left start (to_start d tw.1) tw.1) !! n = d !! n).
  { intros Hnone. destruct (d !! n) as [s|] eqn:Hd.
    - apply starts_started; [apply to_start_nodup|]. by apply elem_of_to_start.
    - rewrite starts_running, Hnone; [done|]. rewrite list_elem_of_fmap. intros ([k s] & -> & He).
      apply elem_of_to_start in He as [He _]. simpl in Hd. by rewrite Hd in He. }
  destruct (running t !! n) as [r|] eqn:Et.
  - destruct (decide (d !! n = Some (r_spec r))) as [Hd|Hd].
    + rewrite starts_running, Hr, decide_False; [done| |].
      * rewrite elem_of_stale. intros (r' & Hr' & Hne). change (running t0) with (running t) in Hr'.
        rewrite Et in Hr'. by simplify_eq.
      * rewrite list_elem_of_fmap. intros ([k s] & -> & He). apply elem_of_to_start in He as [_ He].
        simpl in Et, Hd, Hr. rewrite He in Hr. case_decide as Hst; [|done].
        apply elem_of_stale in Hst as (r' & Hr' & Hne). change (running t0) with (running t) in Hr'.
        rewrite Et in Hr'. by simplify_eq.
    + apply Hnew. rewrite Hr, decide_True; [done|]. apply elem_of_stale. by exists r.
  - apply Hnew. rewrite Hr. by case_decide.
Qed.

Lemma sync_stopped t w n r (d := wanted_by (manager w) (non_udp_warned t)) :
  is_Some (socket t) -> running t !! n = Some r -> d !! n <> Some (r_spec r) ->
  told d n r ∈ cancelled (sync parse_addr t w).1 /\
  unregistered (spec_id (r_spec r)) (sync parse_addr t w).2.
Proof.
  intros Hs Hr Hd. rewrite sync_unfold by done. cbn [fst snd]. fold d. set (t0 := t <| non_udp_warned := _ |>).
  destruct (starts_frame (to_start d (fold_left (stop d) (stale d t0) (t0, w)).1)
              (fold_left (stop d) (stale d t0) (t0, w)).1) as (_ & -> & _).
  apply stops_told; [apply stale_nodup| |done]. apply elem_of_stale. by exists r.
Qed.

Lemma sync_generations t w :
  is_Some (socket t) -> generations_ok t ->
  generation t + Z.of_nat (size (wanted_by (manager w) (non_udp_warned t))) < 2 ^ 64 ->
  generations_ok (sync parse_addr t w).1 /\ generation t <= generation (sync parse_addr t w).1.
Proof.
  intros Hs Hg Hb. rewrite sync_unfold by done. cbn [fst]. set (d := wanted_by _ _) in *.
  set (t0 := t <| non_udp_warned := _ |>). set (tw := fold_left (stop d) _ _).
  destruct (stops_frame d (stale d t0) (t0, w)) as (_ & Eg & _). fold tw in Eg. cbn [fst] in Eg.
  change (generation t0) with (generation t) in Eg.
  assert (Hok : generations_ok tw.1).
  { destruct Hg as (H0 & Hle & Hinj). unfold tw. split_and!.
    - fold tw. by rewrite Eg.
    - fold tw. rewrite Eg. intros n r. unfold tw. rewrite stops_running. case_decide; [done|]. apply Hle.
    - intros n m r r'. rewrite !stops_running. do 2 (case_decide; [done|]). apply Hinj. }
  assert (Hl := to_start_length d tw.1).
  destruct (starts_generations (to_start d tw.1) tw.1) as [E Hok']; [lia|done|]. split; [done|lia].
Qed.

(** What a stopped task was told of its binding. *)
Lemma told_spec d n r :
  r_spec (told d n r) = r_spec r /\ r_generation (told d n r) = r_generation r /\
  (unregister_on_stop (told d n r) = true <->
   unregister_on_stop r = true /\ ~ (register (r_spec r) = true /\ exists next, d !! n = Some next /\ register next = true)).
Proof.
  unfold told. destruct (d !! n) as [next|].
  2: { split_and!; [done..|]. split; [intros H; split; [done|]; by intros (_ & next & ? & _)|by intros []]. }
  destruct (register next) eqn:E1, (register (r_spec r)) eqn:E2; cbn; split_and!; try done; split; try done.
  - intros [_ H]. exfalso. apply H. split; [done|]. by exists next.
  - intros H. split; [done|]. by intros [].
  - by intros [].
  - intros H. split; [done|]. intros (_ & x & [= <-] & H'). congruence.
  - by intros [].
  - intros H. split; [done|]. by intros [].
  - by intros [].
Qed.

End sync.

(** ** One registration, from its first REGISTER *)

Section registration.
Context (c : Ctx) (spec : TaskSpec) (call_id : string).

(** What an exchange leaves alone. *)
Definition quiet (w w' : World) : Prop :=
  manager w' = manager w /\ events w' = events w /\ up w' = up w /\ registered_gauge w' = registered_gauge w /\
  wakes w' = wakes w.

Lemma quiet_trans w1 w2 w3 : quiet w1 w2 -> quiet w2 w3 -> quiet w1 w3.
Proof. unfold quiet. intuition congruence. Qed.

(** A REGISTER of this registration, numbered [k]. *)
Definition numbered (k : Z) (m : string * SocketAddr) : Prop :=
  (exists from e auth uuid, m.1 = build_register c spec call_id k from e auth uuid) /\ dest spec = Some m.2.

(** From [d] to [d'] at most [n] numbers are used, and the requests sent are
    numbered in order by numbers used. *)
Definition numbers (n : Z) (d : Dialog) (w : World) (d' : Dialog) (w' : World) : Prop :=
  0 <= cseq d -> cseq d + n < 2 ^ 32 ->
  cseq d <= cseq d' <= cseq d + n /\
  exists ks msgs, sent w' = sent w ++ msgs /\ Forall2 numbered ks msgs /\ StronglySorted Z.lt ks /\
                  Forall (fun k => cseq d < k <= cseq d') ks.

Lemma numbers_refl n d w w' : 0 <= n -> sent w' = sent w -> numbers n d w d w'.
Proof.
  intros Hn E H0 Hb. split; [lia|]. exists [], []. rewrite E, app_nil_r. by split_and!; try constructor.
Qed.

Lemma sorted_app (l1 l2 : list Z) (m : Z) :
  StronglySorted Z.lt l1 -> StronglySorted Z.lt l2 -> Forall (fun k => k <= m) l1 -> Forall (fun k => m < k) l2 ->
  StronglySorted Z.lt (l1 ++ l2).
Proof.
  intros H1 H2 Hl Hr. induction H1 as [|x l1 H1 IH Hx]; [done|]. apply Forall_cons in Hl as [Hm Hl]. simpl.
  constructor; [by apply IH|]. apply Forall_app. split; [done|]. eapply Forall_impl; [exact Hr|]. simpl. lia.
Qed.

Lemma numbers_trans n1 n2 d1 w1 d2 w2 d3 w3 :
  0 <= n1 -> 0 <= n2 -> numbers n1 d1 w1 d2 w2 -> numbers n2 d2 w2 d3 w3 -> numbers (n1 + n2) d1 w1 d3 w3.
Proof.
  intros Hn1 Hn2 A B H0 Hb. destruct A as [Hd (ks & ms & E & Hk & Hs & Hr)]; [done|lia|].
  destruct B as [Hd' (ks' & ms' & E' & Hk' & Hs' & Hr')]; [lia|lia|]. split; [lia|].
  exists (ks ++ ks'), (ms ++ ms'). rewrite E', E, app_assoc. split_and!; [done|by apply Forall2_app| |].
  - eapply (sorted_app _ _ (cseq d2)); [done|done| |]; eapply Forall_impl; try eassumption; simpl; lia.
  - apply Forall_app. split; eapply Forall_impl; try eassumption; simpl; lia.
Qed.

(** One request. *)
Lemma request_numbered d0 d w from e auth uuid peer answer
    (msg := build_register c spec call_id (cseq (next_cseq d)) from e auth uuid) :
  cseq d = cseq d0 -> dest spec = Some peer ->
  quiet w (send_and_wait call_id msg peer answer w).2 /\
  numbers 1 d0 w (next_cseq d) (send_and_wait call_id msg peer answer w).2.
Proof.
  intros Ed Hp. split; [by destruct answer|]. intros H0 Hb.
  assert (E : cseq (next_cseq d) = cseq d0 + 1) by (unfold next_cseq; simpl; rewrite Ed; apply Z.mod_small; lia).
  split; [lia|].
  assert (Hone : exists ks msgs, [(msg, peer)] = msgs /\ Forall2 numbered ks msgs /\ StronglySorted Z.lt ks /\
                                 Forall (fun k => cseq d0 < k <= cseq (next_cseq d)) ks).
  { exists [cseq (next_cseq d)], [(msg, peer)]. split_and!; [done| |repeat constructor|repeat constructor; lia].
    repeat constructor; [|done]. by exists from, e, auth, uuid. }
  destruct Hone as (ks & msgs & <- & Hone).
  destruct answer; try (exists ks, [(msg, peer)]; split; [done|exact Hone]).
  exists [], []. simpl. rewrite app_nil_r. by split_and!; try constructor.
Qed.

Lemma send_register_numbered e x d w :
  let '(o, d', w') := send_register c spec e call_id x d w in quiet w w' /\ numbers 2 d w d' w'.
Proof.
  unfold send_register. destruct (dest spec) as [peer|] eqn:Hp; [|by split; [|apply numbers_refl]].
  cbv zeta.
  destruct (request_numbered d d w (from_line spec (x_tag x)) e None (x_branch1 x) peer (x_first x)) as [Q1 N1]; [done..|].
  assert (H12 : forall w', numbers 1 d w (next_cseq d) w' -> numbers 2 d w (next_cseq d) w').
  { intros w' H. apply (numbers_trans 1 1) with (next_cseq d) w'; [lia|lia|done|by apply numbers_refl]. }
  destruct (send_and_wait _ _ _ _ _) as [[raw|o] w1]; cbn [snd] in Q1, N1; [|by auto].
  destruct ((_ =? 401) || _); [|by auto].
  destruct (challenge_of raw (parse_status raw)) as [ch|o]; [|by auto].
  set (d2 := next_cseq d <| last_challenge := _ |>).
  match goal with |- context [send_and_wait _ (build_register _ _ _ _ ?f ?e2 ?a ?u) _ ?an _] =>
    destruct (request_numbered (next_cseq d) d2 w1 f e2 a u peer an) as [Q2 N2]; [done..|] end.
  assert (N := numbers_trans 1 1 _ _ _ _ _ _ ltac:(lia) ltac:(lia) N1 N2).
  assert (Q := quiet_trans _ _ _ Q1 Q2).
  by destruct (send_and_wait _ _ _ _ _) as [[raw2|o] w2].
Qed.

Lemma attempt_numbered t s w :
  let '(o, s', w') := attempt c spec call_id t s w in
  quiet w w' /\ numbers 4 (dialog s) w (dialog s') w' /\ registered_now s' = registered_now s /\
  failure_announced s' = failure_announced s /\ backoff s' = backoff s.
Proof.
  unfold attempt. generalize (send_register_numbered (expires s) (t_first t) (dialog s) w).
  destruct (send_register _ _ _ _ _ _ _) as [[o d] w1]. intros [Q1 N1].
  assert (N : numbers 4 (dialog s) w d w1).
  { apply (numbers_trans 2 2) with d w1; [lia|lia|done|by apply numbers_refl]. }
  destruct o as [|m| | | | |]; try done. destruct (_ <? m); [|done]. cbv zeta.
  match goal with |- context [send_register ?a1 ?a2 ?a3 ?a4 ?a5 ?a6 ?a7] =>
    generalize (send_register_numbered a3 a5 a6 a7); destruct (send_register a1 a2 a3 a4 a5 a6 a7) as [[o2 d2] w2] end.
  intros [Q2 N2]. split_and!; try done; [by eapply quiet_trans|].
  by apply (numbers_trans 2 2) with d w1.
Qed.

Lemma settle_dialog o s w :
  let '(_, s', w') := settle c spec o s w in dialog s' = dialog s /\ sent w' = sent w.
Proof.
  destruct o; [by simpl; destruct (registered_now s)|..];
    (unfold settle; destruct (failure_wait _ _ _) as [wait b]; by destruct (registered_now s || _)).
Qed.

Lemma turn_numbered t s w :
  let '(_, s', w') := turn c spec call_id t s w in numbers 4 (dialog s) w (dialog s') w'.
Proof.
  unfold turn. generalize (attempt_numbered t s w). destruct (attempt _ _ _ _ _ _) as [[o s1] w1].
  intros (_ & N & _). generalize (settle_dialog o s1 w1). destruct (settle _ _ _ _ _) as [[wait s2] w2]. intros [E1 E2].
  assert (N' : numbers 4 (dialog s) w (dialog s2) w2).
  { rewrite E1. apply (numbers_trans 4 0) with (dialog s1) w1; [lia|lia|done|]. by apply numbers_refl. }
  by destruct o.
Qed.

Lemma turns_numbered ts s w :
  let '(_, _, s', w') := turns c spec call_id ts s w in
  numbers (4 * Z.of_nat (length ts)) (dialog s) w (dialog s') w'.
Proof.
  revert s w. induction ts as [|t ts IH]; intros s w; cbn [turns]; [by apply numbers_refl|].
  generalize (turn_numbered t s w). destruct (turn _ _ _ _ _ _) as [[[wait|] s1] w1]; intros N.
  - assert (N' : numbers (4 * Z.of_nat (length (t :: ts))) (dialog s) w (dialog s1) w1).
    { replace (4 * _) with (4 + 4 * Z.of_nat (length ts)) by (simpl; lia).
      apply (numbers_trans _ _) with (dialog s1) w1; [lia|lia|done|]. apply numbers_refl; [lia|done]. }
    destruct (t_sleep t); [| |done]; specialize (IH s1 w1);
    destruct (turns _ _ _ _ _ _) as [[[waits over] s2] w2];
    (replace (4 * _) with (4 + 4 * Z.of_nat (length ts)) by (simpl; lia));
    (apply (numbers_trans _ _) with (dialog s1) w1; [lia|lia|done|done]).
  - replace (4 * _) with (4 + 4 * Z.of_nat (length ts)) by (simpl; lia).
    apply (numbers_trans _ _) with (dialog s1) w1; [lia|lia|done|]. apply numbers_refl; [lia|done].
Qed.

Lemma unregister_numbered on_stop fast x s w :
  exists d', numbers 2 (dialog s) w d' (unregister c spec call_id on_stop fast x s w).
Proof.
  unfold unregister. destruct (registered_now s && on_stop); [|by exists (dialog s); apply numbers_refl].
  destruct fast.
  - destruct (dest spec) as [peer|] eqn:Hp; [|by exists (dialog s); apply numbers_refl]. cbv zeta.
    exists (next_cseq (dialog s)).
    match goal with |- context [send_to (build_register _ _ _ _ ?f ?e ?a ?u) _ _] =>
      destruct (request_numbered (dialog s) (dialog s) w f e a u peer
                  (if is_sent (x_first x) then TimeUp else NotSent (reason Timeout))) as [_ N]; [done..|] end.
    eapply (numbers_trans 1 1); [lia|lia|exact N|]. apply numbers_refl; [lia|].
    by destruct (x_first x).
  - generalize (send_register_numbered 0 x (dialog s) w). destruct (send_register _ _ _ _ _ _ _) as [[o d] w1].
    intros [_ N]. by exists d.
Qed.

(** ** What a registration reports *)

(** The events of this trunk's registration, as registered or not. *)
Definition said (e : SbcEvent) (b : bool) : Prop :=
  match e with
  | TrunkRegistered n _ => b = true /\ n = spec_name spec
  | TrunkUnregistered n _ => b = false /\ n = spec_name spec
  | TrunkHealth _ _ _ => False
  end.

Definition alternates (l : list bool) : Prop := forall i b, l !! i = Some b -> l !! S i <> Some b.

Lemma alternates_snoc l b : alternates l -> last l <> Some b -> alternates (l ++ [b]).
Proof.
  intros Ha Hl i x Hi Hs. apply lookup_app_Some in Hs as [Hs|[Hlen Hs]].
  - apply lookup_lt_Some in Hs as Hlt. rewrite lookup_app_l in Hi by lia. by apply (Ha i x).
  - apply list_lookup_singleton_Some in Hs as [E ->]. rewrite lookup_app_l in Hi by lia.
    apply Hl. rewrite last_lookup. by replace (Nat.pred (length l)) with i by lia.
Qed.

(** The gauge and the trunk's state say [b]. *)
Definition shows (b : bool) (w : World) : Prop :=
  registered_gauge w !! spec_name spec = Some b /\
  forall st, get_state (spec_id spec) (manager w) = Some st -> registered st = b.

Lemma mark_shows b w : shows b (mark spec b w) /\ events (mark spec b w) = events w.
Proof.
  split; [|done]. split; [apply lookup_partial_alter_eq|]. intros st. unfold get_state. simpl.
  rewrite lookup_alter_Some. by intros [(_ & st' & _ & ->)|[Hne _]].
Qed.

(** The last report is the one the loop's variables stand for. *)
Definition reported (s : Reg) : option bool :=
  if registered_now s then Some true else if failure_announced s then Some false else None.

(** What a loop has published since [w0]. *)
Definition told_so (w0 : World) (s : Reg) (w : World) : Prop :=
  exists new bs, events w = events w0 ++ new /\ Forall2 said new bs /\ alternates bs /\ last bs = reported s /\
  (is_Some (reported s) -> shows (registered_now s) w).

Lemma told_more w0 s w s' w' e b :
  told_so w0 s w -> events w' = events w ++ [e] -> said e b -> reported s <> Some b ->
  reported s' = Some b -> shows b w' -> registered_now s' = b -> told_so w0 s' w'.
Proof.
  intros (new & bs & E & Hs & Ha & Hl & _) E' He Hne Hr Hsh Hb. exists (new ++ [e]), (bs ++ [b]).
  rewrite E', E, app_assoc. split_and!; [done|by apply Forall2_app; repeat constructor| | |].
  - apply alternates_snoc; [done|by rewrite Hl].
  - by rewrite last_snoc.
  - intros _. by rewrite Hb.
Qed.

Lemma told_same w0 s w s' w' b :
  told_so w0 s w -> events w' = events w -> reported s = Some b -> reported s' = Some b ->
  shows b w' -> registered_now s' = b -> told_so w0 s' w'.
Proof.
  intros (new & bs & E & Hs & Ha & Hl & _) E' Hr Hr' Hsh Hb. exists new, bs.
  rewrite E', Hl, Hr, Hr', Hb. by split_and!.
Qed.

Lemma told_quiet w0 s w s' w' :
  told_so w0 s w -> quiet w w' -> registered_now s' = registered_now s ->
  failure_announced s' = failure_announced s -> told_so w0 s' w'.
Proof.
  intros (new & bs & E & Hs & Ha & Hl & Hsh) (Qm & Qe & _ & Qg & _) Er Ef. exists new, bs.
  unfold reported, shows in *. rewrite Er, Ef, Qm, Qe, Qg. by split_and!.
Qed.

Lemma settle_told w0 o s w :
  told_so w0 s w -> let '(_, s', w') := settle c spec o s w in told_so w0 s' w' /\ is_Some (reported s').
Proof.
  intros H. destruct (match o with Registered g => Some g | _ => None end) as [g|] eqn:Ho.
  - destruct o; simplify_eq. simpl. split; [|by eexists]. destruct (mark_shows true w) as [Hs He].
    destruct (registered_now s) eqn:Er.
    + eapply told_same; [exact H|done| |done|done|done]. unfold reported. by rewrite Er.
    + eapply told_more with (e := TrunkRegistered _ g) (b := true); [exact H|done|done| |done|done|done].
      unfold reported. rewrite Er. by destruct (failure_announced s).
  - assert (Hf : let '(_, s', w') := settle c spec o s w in
                 s' = s <| registered_now := false |> <| failure_announced := true |> <| backoff := backoff s' |> /\
                 w' = if registered_now s || negb (failure_announced s)
                      then publish (TrunkUnregistered (spec_name spec) (reason o)) (mark spec false w)
                      else mark spec false w).
    { unfold settle. destruct o; [done|..]; by destruct (failure_wait _ _ _). }
    destruct (settle _ _ _ _ _) as [[wait s'] w']. destruct Hf as [-> ->].
    destruct (mark_shows false w) as [Hs He]. split; [|by eexists].
    unfold reported in *. destruct (registered_now s) eqn:Er, (failure_announced s) eqn:Ef; simpl;
    first [ eapply told_more with (e := TrunkUnregistered _ (reason o)) (b := false); [exact H|done|done| |done|done|done];
            unfold reported; by rewrite Er, ?Ef
          | eapply told_same with (b := false); [exact H|done| |done|done|done]; unfold reported; by rewrite Er, Ef ].
Qed.

Lemma turns_told w0 ts s w :
  told_so w0 s w ->
  let '(waits, _, s', w') := turns c spec call_id ts s w in
  told_so w0 s' w' /\ (waits <> [] -> is_Some (reported s')) /\ (is_Some (reported s) -> is_Some (reported s')).
Proof.
  revert s w. induction ts as [|t ts IH]; intros s w H; cbn [turns]; [done|].
  unfold turn. generalize (attempt_numbered t s w). destruct (attempt _ _ _ _ _ _) as [[o s1] w1].
  intros (Q & _ & Er & Ef & _). assert (H1 := told_quiet _ _ _ _ _ H Q Er Ef).
  assert (Hrep : reported s1 = reported s) by (unfold reported; by rewrite Er, Ef).
  destruct (decide (o = Cancelled)) as [->|Ho]; [by rewrite Hrep|].
  generalize (settle_told w0 o s1 w1 H1). destruct (settle _ _ _ _ _) as [[wait s2] w2]. intros [H2 Hs2].
  assert (Hgo : let '(waits, over, s', w') := turns c spec call_id ts s2 w2 in
                told_so w0 s' w' /\ is_Some (reported s')).
  { generalize (IH s2 w2 H2). destruct (turns _ _ _ _ _ _) as [[[waits over] s3] w3]. naive_solver. }
  destruct o; try done; (destruct (t_sleep t);
    [destruct (turns _ _ _ _ _ _) as [[[waits over] s3] w3]; naive_solver
    |destruct (turns _ _ _ _ _ _) as [[[waits over] s3] w3]; naive_solver|done]).
Qed.
End registration.

(** The REGISTERs of a registration, its retries with credentials and its
    last un-REGISTER included, are sent to the trunk's address under one
    Call-ID with strictly increasing CSeq numbers. *)
Theorem cseq_increases c spec uuid ts on_stop fast x w :
  4 * Z.of_nat (length ts) + 2 < 2 ^ 32 ->
  exists ks msgs, sent (register_loop c spec uuid ts on_stop fast x w) = sent w ++ msgs /\
    Forall2 (numbered c spec (reg_call_id spec uuid)) ks msgs /\ StronglySorted Z.lt ks.
Proof.
  intros Hb. unfold register_loop. set (call_id := reg_call_id spec uuid).
  generalize (turns_numbered c spec call_id ts (reg_start c spec) w).
  destruct (turns _ _ _ _ _ _) as [[[waits over] s] w1]. cbn [reg_start dialog]. intros N.
  assert (Hend : exists d', numbers c spec call_id 2 (dialog s) w1 d'
                              (if over then unregister c spec call_id on_stop fast x s w1 else w1)).
  { destruct over; [apply unregister_numbered|]. exists (dialog s). by apply numbers_refl. }
  destruct Hend as [d' N'].
  assert (Hall : numbers c spec call_id (4 * Z.of_nat (length ts) + 2) (mkDialog 0 None) w d'
                   (if over then unregister c spec call_id on_stop fast x s w1 else w1))
    by (eapply numbers_trans; [lia|lia|exact N|exact N']).
  destruct Hall as [_ (ks & ms & E & H1 & H2 & _)]; [done|done|]. by exists ks, ms.
Qed.

(** The events a registration publishes alternate between registered and
    unregistered, however often it is refreshed or retried; and after each
    turn the last of them, the gauge and the trunk's state agree. *)
Theorem registration_reported c spec call_id ts w :
  let '(waits, _, s, w') := turns c spec call_id ts (reg_start c spec) w in
  exists new bs, events w' = events w ++ new /\ Forall2 (said spec) new bs /\ alternates bs /\
    (waits <> [] -> last bs = Some (registered_now s) /\ shows spec (registered_now s) w').
Proof.
  assert (H0 : told_so spec w (reg_start c spec) w).
  { exists [], []. rewrite app_nil_r. split_and!; [done|constructor|by intros i|done|by intros [? ?]]. }
  generalize (turns_told c spec call_id w ts (reg_start c spec) w H0).
  destruct (turns _ _ _ _ _ _) as [[[waits over] s] w']. intros ((new & bs & E & Hs & Ha & Hl & Hsh) & Hr & _).
  exists new, bs. split_and!; [done..|]. intros Hw. specialize (Hr Hw). split; [|by apply Hsh].
  rewrite Hl. unfold reported in *. destruct (registered_now s), (failure_announced s); naive_solver.
Qed.

(** ** Pace *)

(** The first request is answered by neither success, challenge nor 423. *)
Definition refuses (t : Turn) : Prop :=
  exists raw, x_first (t_first t) = Answer raw /\ parse_status raw ∉ [200; 401; 407; 423].

Lemma refused_turn c spec call_id t s w :
  is_Some (dest spec) -> refuses t ->
  let '(wait, s', _) := turn c spec call_id t s w in
  wait = Some (cur (backoff s)) /\ backoff s' = (next_wait (backoff s)).2.
Proof.
  intros [peer Hp] (raw & Hx & Hst). rewrite !not_elem_of_cons in Hst. destruct Hst as (H200 & H401 & H407 & H423 & _).
  unfold turn, attempt, send_register. rewrite Hp. cbv zeta. rewrite Hx. cbn [send_and_wait].
  unfold read_answer. cbv zeta. apply Z.eqb_neq in H200, H401, H407, H423.
  by rewrite H200, H401, H407, H423.
Qed.

Lemma next_wait_power b lo k :
  cur b = Z.min (lo * 2 ^ k) (bo_max b) -> 0 <= k -> 0 <= lo <= bo_max b ->
  cur (next_wait b).2 = Z.min (lo * 2 ^ (k + 1)) (bo_max b).
Proof. intros E Hk Hlo. simpl. rewrite E, Z.pow_add_r, Z.pow_1_r by lia. lia. Qed.

Lemma refusals_wait c spec call_id lo ts k s w :
  is_Some (dest spec) -> Forall (fun t => refuses t /\ t_sleep t = Slept) ts ->
  cur (backoff s) = Z.min (lo * 2 ^ Z.of_nat k) (bo_max (backoff s)) -> 0 <= lo <= bo_max (backoff s) ->
  let '(waits, over, s', _) := turns c spec call_id ts s w in
  over = false /\
  waits = map (fun i => Z.min (lo * 2 ^ Z.of_nat i) (bo_max (backoff s))) (seq k (length ts)).
Proof.
  intros Hd Ht. revert k s w. induction Ht as [|t ts [Hr Hsl] Ht IH]; intros k s w Hc Hlo; [done|].
  cbn [turns]. generalize (refused_turn c spec call_id t s w Hd Hr).
  destruct (turn _ _ _ _ _ _) as [[wait s1] w1]. intros [-> Eb]. rewrite Hsl.
  assert (Em : bo_max (backoff s1) = bo_max (backoff s)) by by rewrite Eb.
  generalize (IH (S k) s1 w1). destruct (turns _ _ _ _ _ _) as [[[waits over] s2] w2]. rewrite Em. intros Hw.
  destruct Hw as [-> ->]; [|done|].
  - rewrite Eb, (next_wait_power _ lo (Z.of_nat k)) by (done || lia). by rewrite Nat2Z.inj_succ.
  - split; [done|]. simpl. by rewrite Hc.
Qed.

(** A trunk that keeps refusing is tried again and again, after waits that
    double from the least one up to the greatest one and stay there. *)
Theorem refusals_back_off c spec call_id ts w :
  is_Some (dest spec) -> 0 <= backoff_min (config c) ->
  Forall (fun t => refuses t /\ t_sleep t = Slept) ts ->
  let '(waits, over, _, _) := turns c spec call_id ts (reg_start c spec) w in
  over = false /\
  waits = map (fun i => Z.min (backoff_min (config c) * 2 ^ Z.of_nat i)
                          (Z.max (backoff_max (config c)) (backoff_min (config c)))) (seq 0 (length ts)).
Proof.
  intros Hd Hmin Ht. apply (refusals_wait c spec call_id _ ts 0 (reg_start c spec) w Hd Ht); simpl; lia.
Qed.

(** The bounds the sleeps are clamped to are in order. *)
Definition config_ok (c : TrunkTasksConfig) : Prop := 0 < refresh_min c <= refresh_floor c.

Lemma config_from_ok c : config_ok (config_from c).
Proof. by vm_compute. Qed.

(** A registration is refreshed before it expires when it was granted for
    longer than the least wait. *)
Lemma refresh_in_time c spec granted :
  config_ok (config c) -> 1 < granted -> refresh_min (config c) < secs granted ->
  refresh_min (config c) <= refresh_wait c spec granted < secs granted /\
  refresh_wait c spec granted <= Z.max (interval spec) (refresh_floor (config c)).
Proof.
  unfold config_ok, refresh_wait, clamp, secs. intros Hc H1 Hg.
  assert (granted * 8 / 10 < granted) by (apply Z.div_lt_upper_bound; lia).
  destruct (Z.ltb_spec (Z.max (granted * 8 / 10) 1 * 1000000000) (refresh_min (config c))); [lia|].
  destruct (Z.ltb_spec (Z.max (interval spec) (refresh_floor (config c))) (Z.max (granted * 8 / 10) 1 * 1000000000)); lia.
Qed.

(** Granted for no longer, it has expired when it is refreshed. *)
Lemma short_grant_lapses id spec hc :
  refresh_wait (ctx_of (config_from hc) id) spec 20 = secs 30.
Proof. done. Qed.

(** ** Health *)

Section health.
Context (c : Ctx) (spec : TaskSpec).

Definition dead (p : Probe) : Prop := probe_result (p_wait p) = Some false /\ p_sleep p = Slept.
Definition answers (p : Probe) : Prop := probe_result (p_wait p) = Some true /\ p_sleep p = Slept.

(** The parts of the world that probes decide. *)
Definition view (w : World) : TrunkManager * list SbcEvent * nat := (manager w, events w, wakes w).

(** A probe changes nothing else than the requests sent. *)
Lemma round_judges p h w b :
  is_Some (dest spec) -> probe_result (p_wait p) = Some b ->
  exists w', view w' = view w /\
    health_round c spec p h w = (Some (judge spec (p_now p) b h w').1, (judge spec (p_now p) b h w').2).
Proof.
  intros [d Hd] Hp. unfold health_round. rewrite Hd, Hp. cbv zeta.
  exists (forget (probe_id spec p)
            (if is_sent (p_wait p) then send_to (options_request c spec p) d (await (probe_id spec p) w)
             else await (probe_id spec p) w)).
  split; [by destruct (is_sent (p_wait p))|]. by destruct (judge _ _ _ _ _).
Qed.

Lemma rounds_silent ps h w :
  is_Some (dest spec) -> ever_responded h = false -> Forall dead ps ->
  exists h' w', health_rounds c spec ps h w = (Some h', w') /\ view w' = view w /\ ever_responded h' = false /\
    was_up h' = (was_up h && bool_decide (ps = [])).
Proof.
  intros Hd Hh Hps. revert h w Hh. induction Hps as [|p ps [Hp Hs] Hps IH]; intros h w Hh.
  - exists h, w. by rewrite andb_true_r.
  - cbn [health_rounds]. destruct (round_judges p h w false Hd Hp) as (w1 & Ev & ->). rewrite Hs.
    assert (Hj : judge spec (p_now p) false h w1 = (mkHealth false false, w1)) by (unfold judge; by rewrite Hh).
    rewrite Hj. cbn [fst snd].
    destruct (IH (mkHealth false false) w1) as (h' & w' & -> & Ev' & E1 & E2); [done|].
    exists h', w'. rewrite Ev', E2. split_and!; try done. by rewrite andb_false_r.
Qed.

(** The failures of the probes after the first answer, in order. *)
Definition count_down (ps : list Probe) (m : TrunkManager) : TrunkManager :=
  fold_left (fun m p => update_state (spec_id spec) (record_trunk_failure (p_now p)) m) ps m.

Definition down_event (m : TrunkManager) : SbcEvent :=
  TrunkHealth (spec_name spec) "down" (default 1 (consecutive_failures <$> get_state (spec_id spec) m)).

Lemma rounds_down ps up w :
  is_Some (dest spec) -> Forall dead ps ->
  exists h' w', health_rounds c spec ps (mkHealth up true) w = (Some h', w') /\
    manager w' = count_down ps (manager w) /\ wakes w' = wakes w /\
    h' = mkHealth (up && bool_decide (ps = [])) true /\
    events w' = events w ++ match ps with
                            | p :: _ => if up then [down_event (count_down [p] (manager w))] else []
                            | [] => [] end.
Proof.
  intros Hd Hps. revert up w. induction Hps as [|p ps [Hp Hs] Hps IH]; intros up w.
  - exists (mkHealth up true), w. by rewrite andb_true_r, app_nil_r.
  - cbn [health_rounds]. destruct (round_judges p (mkHealth up true) w false Hd Hp) as (w1 & Ev & ->). rewrite Hs.
    unfold view in Ev. simplify_eq. set (j := judge _ _ _ _ _).
    assert (Hj : j.1 = mkHealth false true /\ manager j.2 = count_down [p] (manager w) /\ wakes j.2 = wakes w /\
                 events j.2 = events w ++ if up then [down_event (count_down [p] (manager w))] else []).
    { unfold j, judge. simpl. destruct up; simpl; rewrite ?app_nil_r; split_and!; try done; try congruence.
      unfold down_event, count_down. simpl. congruence. }
    destruct Hj as (-> & Em & Ew & Ee).
    destruct (IH false j.2) as (h' & w' & -> & Em' & Ew' & -> & Ee').
    exists (mkHealth (false && bool_decide (ps = [])) true), w'.
    rewrite Em', Ew', Ee', Em, Ew, Ee. split_and!; try done; [by rewrite andb_false_r|].
    destruct ps; by rewrite app_nil_r.
Qed.

Lemma rounds_app ps qs h w :
  health_rounds c spec (ps ++ qs) h w =
  match health_rounds c spec ps h w with
  | (Some h, w) => health_rounds c spec qs h w
  | (None, w) => (None, w)
  end.
Proof.
  revert h w. induction ps as [|p ps IH]; intros h w; [done|]. cbn [app health_rounds].
  destruct (health_round c spec p h w) as [[h1|] w1]; [|done]. destruct (p_sleep p); [apply IH|apply IH|done].
Qed.
End health.

(** A trunk that has never answered OPTIONS is left as it is. Its first
    answer after silence is reported, clears its failures and wakes its
    registration; from then on each probe without an answer is one failure
    more, and the first of them is reported. *)
Theorem health_follows_probes c spec delayed silent p down w
    (w' := health_loop c spec delayed (silent ++ p :: down) w) (late := bool_decide (silent <> []))
    (m := if late then update_state (spec_id spec) record_success (manager w) else manager w) :
  is_Some (dest spec) -> delayed <> SleepCancelled -> Forall dead silent -> answers p -> Forall dead down ->
  view (health_loop c spec delayed silent w) = view w /\
  manager w' = count_down spec down m /\
  wakes w' = ((if late then 1 else 0) + wakes w)%nat /\
  events w' = events w ++ (if late then [TrunkHealth (spec_name spec) "up" 0] else [])
                       ++ match down with q :: _ => [down_event spec (count_down spec [q] m)] | [] => [] end.
Proof.
  intros Hd Hdel Hsil [Hp Hs] Hdown.
  destruct (rounds_silent c spec silent health_start w Hd eq_refl Hsil) as (h1 & w1 & E1 & V1 & Eh1 & Eu1).
  assert (Hloop : forall ps, health_loop c spec delayed ps w = (health_rounds c spec ps health_start w).2)
    by (intros ps; by destruct delayed).
  unfold w'. rewrite !Hloop, rounds_app, E1. split; [exact V1|]. cbn [snd health_rounds].
  destruct (round_judges c spec p h1 w1 true Hd Hp) as (w2 & V2 & ->). rewrite Hs. rewrite V1 in V2.
  set (j := judge _ _ _ _ _).
  assert (Hj : j.1 = mkHealth true true /\ manager j.2 = m /\ wakes j.2 = ((if late then 1 else 0) + wakes w)%nat /\
               events j.2 = events w ++ if late then [TrunkHealth (spec_name spec) "up" 0] else []).
  { unfold view in V2. injection V2 as Em Ee Ew. unfold j, judge. rewrite Eu1. cbn [was_up health_start andb fst].
    unfold m, late. split; [done|].
    destruct (decide (silent = [])) as [Hn|Hn].
    - rewrite (bool_decide_eq_true_2 (silent = [])), (bool_decide_eq_false_2 (silent <> [])) by naive_solver.
      simpl. rewrite app_nil_r. by split_and!.
    - rewrite (bool_decide_eq_false_2 (silent = [])), (bool_decide_eq_true_2 (silent <> [])) by naive_solver.
      simpl. rewrite Em, Ee, Ew. by split_and!. }
  destruct Hj as (-> & Em & Ew & Ee).
  destruct (rounds_down c spec down true j.2 Hd Hdown) as (h3 & w3 & -> & Em3 & Ew3 & _ & Ee3). cbn [snd].
  rewrite Em3, Ew3, Ee3, Em, Ew, Ee. split_and!; try done. by rewrite <- app_assoc.
Qed.

(** ** Instances *)

Module Witness.
#[local] Existing Instance canonical_iter.

Definition at_ (last port : Z) : SocketAddr := mkAddr (V4 [192; 0; 2; last]) port.
Definition no_parse (_ : string) : option SocketAddr := None.

Definition carrier (i : TrunkId) (n : string) : TrunkConfig :=
  new_config i n <| host := n |> <| resolved_addr := Some (at_ i 5060) |> <| register_with_trunk := true |>
    <| username := Some "sbc" |> <| password := Some "secret" |>.

Definition sbc_identity : Topology.SbcIdentity := Topology.mkIdentity "203.0.113.1" "sbc.example" 5060 false.
Definition c0 : Ctx := ctx_of (config_from (mkHealthConfig 30 5 900)) (Some sbc_identity).
Definition spec0 : TaskSpec := spec_of no_parse (carrier 1 "alpha").
Definition w0 : World := mkWorld (add_trunk (carrier 1 "alpha") Trunk.new) [] ∅ ∅ [] ∅ 0.
Definition uuid : string := "0123456789abcdef0123456789abcdef".

(** *** Registry *)

(** Two trunks run; one changes its host, the other becomes a TLS trunk, and a
    third appears. *)
Definition world (l : list TrunkConfig) : World := w0 <| manager := foldr add_trunk Trunk.new l |>.
Definition before : TrunkTasks * World :=
  sync no_parse (attach_socket (Some sbc_identity) new_tasks).2 (world [carrier 1 "alpha"; carrier 2 "beta"]).
Definition now_table : World :=
  world [carrier 1 "alpha" <| host := "other" |>; carrier 2 "beta" <| transport := TTls |>; carrier 3 "gamma"].
Definition after : TrunkTasks * World := sync no_parse before.1 now_table.

Lemma before_ok : generations_ok before.1.
Proof.
  split; [by vm_compute|]. split.
  - intros n r Hr. assert (Hall : map_Forall (fun _ r => r_generation r <= generation before.1) (running before.1))
      by (apply (bool_decide_unpack _); by vm_compute). by apply (Hall n r).
  - assert (Hall : map_Forall (fun n r => map_Forall (fun m r' => r_generation r = r_generation r' -> n = m)
                                            (running before.1)) (running before.1))
      by (apply (bool_decide_unpack _); by vm_compute).
    intros n m r r' Hn Hm. exact (Hall n r Hn m r' Hm).
Qed.


(** *** Registration *)

(** The trunk challenges the first request and accepts the second. *)
Definition reply (status : string) (headers : list string) : Wait :=
  Answer (unlines (["SIP/2.0 " +:+ status] ++ headers ++ [""]) "").
Definition challenge : Wait :=
  reply "401 Unauthorized"
    ["WWW-Authenticate: Digest realm=" +:+ Auth.quoted "alpha" +:+ ", nonce=" +:+ Auth.quoted "n1" +:+ ", qop=" +:+ Auth.quoted "auth"].
Definition exchange (a b : Wait) : Exchange := mkExchange uuid uuid uuid "cafe" a b.
Definition accepted : Turn :=
  mkTurn (exchange challenge (reply "200 OK" ["Contact: <sip:sbc@203.0.113.1>;expires=120"])) (exchange TimeUp TimeUp) Slept.
Definition forbidden : Turn := mkTurn (exchange (reply "403 Forbidden" []) TimeUp) (exchange TimeUp TimeUp) Slept.
Definition silent_turn : Turn := mkTurn (exchange TimeUp TimeUp) (exchange TimeUp TimeUp) Slept.
Definition stopped : Turn := mkTurn (exchange TaskCancelled TimeUp) (exchange TimeUp TimeUp) Slept.

Definition cseq_of (m : string * SocketAddr) : option string := extract_header m.1 "cseq".

Lemma cseq_increases_witness :
  let w' := register_loop c0 spec0 uuid [accepted; forbidden; accepted; stopped] true true (exchange TimeUp TimeUp) w0 in
  map cseq_of (sent w')
    = map (fun k => Some (show k +:+ " REGISTER")) [1; 2; 3; 4; 5; 6; 7] /\
  exists ks msgs, sent w' = sent w0 ++ msgs /\
    Forall2 (numbered c0 spec0 (reg_call_id spec0 uuid)) ks msgs /\ StronglySorted Z.lt ks.
Proof.
  split; [by vm_compute|].
  apply (cseq_increases c0 spec0 uuid [accepted; forbidden; accepted; stopped] true true (exchange TimeUp TimeUp) w0).
  simpl. lia.
Defined.

(** The answer to the challenge is the one the registrar's side computes. *)
Example challenge_answered :
  let w' := register_loop c0 spec0 uuid [accepted] true true (exchange TimeUp TimeUp) w0 in
  match sent w' with
  | [_; (second, _)] =>
      extract_header second "authorization" =
        Some (Auth.generate_digest_response "sbc" "secret" (Auth.mkChallenge "alpha" "n1" "MD5" (Some "auth") None)
                "REGISTER" "sip:alpha" "cafe")
  | _ => False
  end.
Proof. by vm_compute. Qed.

Lemma registration_reported_witness :
  let ts := [accepted; accepted; silent_turn; silent_turn; accepted] in
  let '(waits, _, s, w') := turns c0 spec0 "reg-alpha" ts (reg_start c0 spec0) w0 in
  map as_secs waits = [96; 96; 60; 60; 96] /\
  events w' = [TrunkRegistered "alpha" 120; TrunkUnregistered "alpha" "timeout"; TrunkRegistered "alpha" 120] /\
  shows spec0 (registered_now s) w'.
Proof.
  generalize (registration_reported c0 spec0 "reg-alpha" [accepted; accepted; silent_turn; silent_turn; accepted] w0).
  assert (E : let '(waits, _, s, w') :=
                turns c0 spec0 "reg-alpha" [accepted; accepted; silent_turn; silent_turn; accepted] (reg_start c0 spec0) w0 in
              map as_secs waits = [96; 96; 60; 60; 96] /\
              events w' = [TrunkRegistered "alpha" 120; TrunkUnregistered "alpha" "timeout"; TrunkRegistered "alpha" 120])
    by (vm_compute; by split).
  revert E. cbv zeta. destruct (turns _ _ _ _ _ _) as [[[waits over] s] w']. intros [Ew Ee] (new & bs & _ & _ & _ & H).
  split; [exact Ew|]. split; [exact Ee|]. apply H. intros ->. discriminate Ew.
Defined.

Lemma refusals_back_off_witness :
  let ts := replicate 7 forbidden in
  map as_secs (turns c0 spec0 "reg-alpha" ts (reg_start c0 spec0) w0).1.1.1 = [30; 60; 120; 240; 480; 900; 900] /\
  (turns c0 spec0 "reg-alpha" ts (reg_start c0 spec0) w0).1.1.2 = false.
Proof.
  split; [by vm_compute|].
  generalize (refusals_back_off c0 spec0 "reg-alpha" (replicate 7 forbidden) w0). cbv zeta.
  destruct (turns _ _ _ _ _ _) as [[[waits over] s] w']. intros H. apply H; [by eexists|by vm_compute|].
  apply Forall_replicate. split; [|done]. eexists. split; [reflexivity|]. apply (bool_decide_unpack _). by vm_compute.
Defined.

(** A provisional answer counts as a refusal. *)
Example trying_refused :
  (send_register c0 spec0 300 "reg-alpha" (exchange (reply "100 Trying" []) TimeUp) (mkDialog 0 None) w0).1.1 = Refused 100.
Proof. by vm_compute. Qed.

(** *** Health *)

Definition probe (a : Wait) : Probe := mkProbe uuid uuid uuid a (secs 1) Slept.

Lemma health_follows_probes_witness :
  let w' := health_loop c0 spec0 Slept ([probe TimeUp] ++ probe (reply "200 OK" []) :: [probe TimeUp; probe (reply "503 Down" [])]) w0 in
  events w' = [TrunkHealth "alpha" "up" 0; TrunkHealth "alpha" "down" 1] /\
  consecutive_failures <$> get_state 1 (manager w') = Some 2 /\ pending w' = ∅ /\ wakes w' = 1%nat.
Proof.
  cbv zeta. split; [by vm_compute|]. split; [by vm_compute|]. split; [by vm_compute|].
  destruct (health_follows_probes c0 spec0 Slept [probe TimeUp] (probe (reply "200 OK" []))
              [probe TimeUp; probe (reply "503 Down" [])] w0) as (_ & _ & -> & _).
  - by eexists.
  - done.
  - by repeat constructor.
  - split; [by vm_compute|done].
  - repeat constructor; by vm_compute.
  - done.
Defined.
End Witness.
