(* ===== verification/Router.v ===== *)
(** * Routing (routing/router.rs)

    The trunks an outbound call may take and their order. A request URI is its
    host as printed and its user part; one routing decision reads one clock. *)

From Stdlib Require Import Btauto.
From S2P Require Import Prelude Str Bytes Net Trunk.

(** ** Selection *)

Inductive RouteError := NoTrunkAvailable | TrunkDisabled (trunk : string) | AtCapacity (trunk : string).

Section router.
Context {HI : HashIter TrunkId TrunkConfig}.

(** [get_state(..).is_none_or(|s| s.can_accept_call(t))] *)
Definition accepts (now : Z) (m : TrunkManager) (t : TrunkConfig) : bool :=
  match get_state (id t) m with Some s => can_accept_call now t s | None => true end.

Definition usable (now : Z) (m : TrunkManager) (t : TrunkConfig) : bool := enabled t && accepts now m t.

Definition get_default_trunk (m : TrunkManager) : option TrunkConfig :=
  head (sort_by_key lcr_sort_key (List.filter enabled (list_trunks m))).

Definition find_trunk_for_uri (now : Z) (domain : string) (auth : option string) (m : TrunkManager)
    : result RouteError TrunkConfig :=
  let user := default "" auth in
  let trunks := list_trunks m in
  match List.find (fun t => enabled t && seqb (host t) domain && accepts now m t) trunks with
  | Some t => Ok t
  | None =>
      let candidates :=
        List.filter (accepts now m) (List.filter (matches_prefix user) (List.filter enabled trunks)) in
      match sort_by_key lcr_sort_key candidates with
      | best :: _ => Ok best
      | [] => match get_default_trunk m with Some t => Ok t | None => Err NoTrunkAvailable end
      end
  end.

Definition route_request (now : Z) (domain : string) (auth : option string) (m : TrunkManager)
    : result RouteError TrunkConfig :=
  match find_trunk_for_uri now domain auth m with
  | Err e => Err e
  | Ok trunk =>
      if negb (enabled trunk) then Err (TrunkDisabled (name trunk))
      else if accepts now m trunk then Ok trunk else Err (AtCapacity (name trunk))
  end.

Definition find_all_trunks_for_uri (now : Z) (domain : string) (auth : option string) (m : TrunkManager)
    : list TrunkConfig :=
  let user := default "" auth in
  let trunks := list_trunks m in
  let candidates := List.filter (fun t => enabled t && seqb (host t) domain && accepts now m t) trunks in
  let lcr_candidates :=
    List.filter (accepts now m)
      (List.filter (matches_prefix user)
        (List.filter (fun t => negb (seqb (host t) domain)) (List.filter enabled trunks))) in
  let candidates := candidates ++ sort_by_key lcr_sort_key lcr_candidates in
  match candidates with
  | [] => sort_by_key lcr_sort_key (List.filter (accepts now m) (List.filter enabled trunks))
  | _ => candidates
  end.

Definition route_request_candidates := find_all_trunks_for_uri.

Definition is_local_request (method : string) : bool :=
  bool_decide (method ∈ ["OPTIONS"; "REGISTER"]).

(** ** Theorems *)

Lemma elem_of_list_trunks m t : t ∈ list_trunks m <-> exists i, trunks m !! i = Some t.
Proof.
  unfold list_trunks. rewrite list_elem_of_fmap. split.
  - intros ([i t'] & -> & H). exists i. by apply elem_of_hiter.
  - intros [i H]. exists (i, t). split; [done|by apply elem_of_hiter].
Qed.

Lemma nodup_list_trunks m : ids_ok m -> NoDup (list_trunks m).
Proof.
  intros Hi. unfold list_trunks. apply (NoDup_fmap_1 id). rewrite <- list_fmap_compose.
  assert (H : (id ∘ snd) <$> hiter (trunks m) = (hiter (trunks m)).*1).
  { apply list_fmap_ext. intros n [i t] Hl. apply list_elem_of_lookup_2, elem_of_hiter in Hl. apply Hi in Hl. by rewrite <- Hl. }
  rewrite H. apply hiter_nodup.
Qed.

(** The two groups of [find_all_trunks_for_uri], each with one test. *)
Definition at_domain (now : Z) (domain : string) (m : TrunkManager) : list TrunkConfig :=
  List.filter (fun t => usable now m t && seqb (host t) domain) (list_trunks m).
Definition by_prefix (now : Z) (domain user : string) (m : TrunkManager) : list TrunkConfig :=
  List.filter (fun t => usable now m t && negb (seqb (host t) domain) && matches_prefix user t) (list_trunks m).

Lemma candidates_spec now domain auth m :
  find_all_trunks_for_uri now domain auth m
  = match at_domain now domain m ++ sort_by_key lcr_sort_key (by_prefix now domain (default "" auth) m) with
    | [] => sort_by_key lcr_sort_key (List.filter (usable now m) (list_trunks m))
    | l => l
    end.
Proof.
  unfold find_all_trunks_for_uri, at_domain, by_prefix, usable. cbv zeta. rewrite !filter_filter.
  rewrite (filterb_ext (fun x => enabled x && seqb (host x) domain && accepts now m x)
             (fun x => enabled x && accepts now m x && seqb (host x) domain)) by (intros; btauto).
  rewrite (filterb_ext (fun x => enabled x && (negb (seqb (host x) domain) && (matches_prefix (default "" auth) x && accepts now m x)))
             (fun x => enabled x && accepts now m x && negb (seqb (host x) domain) && matches_prefix (default "" auth) x))
    by (intros; btauto).
  by destruct (_ ++ _).
Qed.

Lemma elem_of_usable now m (p : TrunkConfig -> bool) t :
  t ∈ List.filter (fun t => usable now m t && p t) (list_trunks m)
  <-> (exists i, trunks m !! i = Some t) /\ usable now m t = true /\ p t = true.
Proof. by rewrite elem_of_filter_bool, elem_of_list_trunks, andb_true_iff. Qed.

Lemma candidates_usable now domain auth m t :
  t ∈ find_all_trunks_for_uri now domain auth m -> (exists i, trunks m !! i = Some t) /\ usable now m t = true.
Proof.
  rewrite candidates_spec.
  assert (H1 : t ∈ at_domain now domain m ++ sort_by_key lcr_sort_key (by_prefix now domain (default "" auth) m) ->
    (exists i, trunks m !! i = Some t) /\ usable now m t = true).
  { rewrite elem_of_app, sort_by_key_perm. unfold at_domain, by_prefix.
    rewrite !elem_of_filter_bool, elem_of_list_trunks, !andb_true_iff. tauto. }
  destruct (_ ++ _) as [|x l]; [|done]. rewrite sort_by_key_perm, elem_of_filter_bool, elem_of_list_trunks. tauto.
Qed.

(** The failover list of a call is free of repetitions, holds only
    configured trunks that are enabled and accept a call, and is empty exactly
    when there is no such trunk; the usable trunks whose host is the dialled
    domain come first, the others follow by priority and then cost. *)
Theorem failover_list now domain auth m :
  ids_ok m ->
  let l := route_request_candidates now domain auth m in
  NoDup l /\
  (forall t, t ∈ l -> trunks m !! id t = Some t /\ usable now m t = true) /\
  (l = [] <-> forall i t, trunks m !! i = Some t -> usable now m t = false) /\
  exists first rest, l = first ++ rest /\ StronglySorted (key_le lcr_sort_key) rest /\
    forall t, t ∈ first <-> trunks m !! id t = Some t /\ usable now m t = true /\ host t = domain.
Proof.
  intros Hi l. assert (Hn := nodup_list_trunks m Hi).
  assert (Hid : forall t, (exists i, trunks m !! i = Some t) <-> trunks m !! id t = Some t).
  { intros t. split; [|by exists (id t)]. intros [i Ht]. by rewrite (Hi _ _ Ht). }
  assert (Hd : forall t, t ∈ at_domain now domain m <-> trunks m !! id t = Some t /\ usable now m t = true /\ host t = domain).
  { intros t. unfold at_domain. rewrite elem_of_usable, Hid. split; intros (? & ? & ?); split_and!; try done.
    - by apply seqb_true.
    - by apply seqb_true. }
  assert (Hu : forall t, t ∈ l -> trunks m !! id t = Some t /\ usable now m t = true).
  { intros t Ht. apply candidates_usable in Ht as [Hex Ht]. by apply Hid in Hex. }
  unfold l, route_request_candidates in *. rewrite candidates_spec in *.
  set (dom := at_domain now domain m) in *. set (rest := sort_by_key _ (by_prefix _ _ _ _)) in *.
  set (all := sort_by_key _ (List.filter (usable now m) _)) in *.
  assert (Hall : all = [] <-> forall i t, trunks m !! i = Some t -> usable now m t = false).
  { unfold all. rewrite sort_by_key_nil. split.
    - intros H i t Ht. apply (filterb_nil _ _ t H). apply elem_of_list_trunks. by exists i.
    - intros H. destruct (List.filter (usable now m) (list_trunks m)) as [|t ts] eqn:E; [done|].
      assert (Ht : t ∈ List.filter (usable now m) (list_trunks m)) by (rewrite E; left).
      apply elem_of_filter_bool in Ht as [Ht Hut]. apply elem_of_list_trunks in Ht as [i Ht]. rewrite (H i t Ht) in Hut. done. }
  split_and!.
  - destruct (dom ++ rest) as [|x xs] eqn:E.
    + unfold all. rewrite sort_by_key_perm. by apply nodup_filterb.
    + rewrite <- E. unfold rest. rewrite sort_by_key_perm. apply NoDup_app. unfold dom, at_domain, by_prefix.
      split_and!; [by apply nodup_filterb| |by apply nodup_filterb].
      intros t Ht. rewrite elem_of_filter_bool, !andb_true_iff in *. destruct Ht as (_ & _ & ->). intros (_ & (_ & [=]) & _).
  - done.
  - destruct (dom ++ rest) as [|x xs] eqn:E; [done|]. split; [done|]. intros H. exfalso.
    destruct (Hu x) as [Hx Hux]; [left|]. rewrite (H _ _ Hx) in Hux. done.
  - destruct (dom ++ rest) as [|x xs] eqn:E.
    + exists [], all. split_and!; [done|apply sort_by_key_sorted|]. intros t. rewrite <- Hd. by apply app_eq_nil in E as [-> _].
    + exists dom, rest. split_and!; [done|apply sort_by_key_sorted|done].
Qed.

Lemma find_head {A} (p : A -> bool) l : List.find p l = head (List.filter p l).
Proof. induction l as [|x l IH]; [done|]. simpl. by destruct (p x). Qed.

(** When a usable trunk has the dialled domain as its host or a prefix of
    the number, the single routing decision is the head of the failover list. *)
Theorem route_is_first_candidate now domain auth m t :
  trunks m !! id t = Some t -> usable now m t = true ->
  seqb (host t) domain || matches_prefix (default "" auth) t = true ->
  exists t', head (route_request_candidates now domain auth m) = Some t' /\ route_request now domain auth m = Ok t'.
Proof.
  intros Ht Hu Hm.
  assert (Hfind : find_trunk_for_uri now domain auth m
    = match head (at_domain now domain m ++ sort_by_key lcr_sort_key (by_prefix now domain (default "" auth) m)) with
      | Some t => Ok t | None => Err NoTrunkAvailable end /\
      at_domain now domain m ++ sort_by_key lcr_sort_key (by_prefix now domain (default "" auth) m) <> []).
  { unfold find_trunk_for_uri. cbv zeta. rewrite find_head, !filter_filter.
    rewrite (filterb_ext (fun x => enabled x && seqb (host x) domain && accepts now m x)
               (fun x => usable now m x && seqb (host x) domain)) by (intros; unfold usable; btauto).
    fold (at_domain now domain m). destruct (at_domain now domain m) as [|d ds] eqn:Ed; [|done]. cbn [head app].
    assert (He : forall x, x ∈ list_trunks m -> usable now m x && seqb (host x) domain = false).
    { intros x Hx. by apply (filterb_nil _ _ x Ed). }
    assert (Hsame : List.filter (fun x => enabled x && (matches_prefix (default "" auth) x && accepts now m x)) (list_trunks m)
                    = by_prefix now domain (default "" auth) m).
    { unfold by_prefix. apply List.filter_ext_in. intros x Hx. apply list_elem_of_In, He in Hx.
      unfold usable in *. destruct (enabled x), (accepts now m x), (seqb (host x) domain); simpl in *; try done; btauto. }
    rewrite Hsame. assert (Hin : t ∈ by_prefix now domain (default "" auth) m).
    { unfold by_prefix. assert (Hl : t ∈ list_trunks m) by (apply elem_of_list_trunks; by exists (id t)).
      specialize (He t Hl). rewrite Hu in He. cbn in He. rewrite He in Hm. cbn in Hm.
      apply elem_of_filter_bool. by rewrite Hu, He, Hm. }
    destruct (sort_by_key _ _) as [|x xs] eqn:Es; [|done]. apply sort_by_key_nil in Es. rewrite Es in Hin. by apply elem_of_nil in Hin. }
  destruct Hfind as [Hf Hne]. unfold route_request. rewrite Hf. unfold route_request_candidates.
  assert (Hc := candidates_usable now domain auth m). rewrite candidates_spec in *.
  destruct (_ ++ _) as [|x xs]; [done|]. cbn [head]. exists x. split; [done|].
  destruct (Hc x) as [_ Hx]; [left|]. unfold usable in Hx. apply andb_true_iff in Hx as [-> ->]. done.
Qed.
End router.

(** Nothing matches: the single decision takes the cheapest enabled trunk and
    fails when it is busy, the failover list takes another. *)
Example default_at_capacity :
  let HI := canonical_iter TrunkId TrunkConfig in
  let full := new_config 1 "full" <| max_concurrent_calls := 0 |> <| prefix_patterns := ["+44"] |> <| priority := 1 |> in
  let free := new_config 2 "free" <| prefix_patterns := ["+1"] |> in
  let m := add_trunk free (add_trunk full new) in
  route_request 0 "x" (Some "+33612345678") m = Err (AtCapacity "full") /\
  name <$> route_request_candidates 0 "x" (Some "+33612345678") m = ["free"].
Proof. vm_compute. split; reflexivity. Qed.

Module Witness.

Definition three : TrunkManager :=
  add_trunk (new_config 3 "spare" <| priority := 200 |>)
    (add_trunk (new_config 2 "cheap" <| prefix_patterns := ["+33"] |>)
      (add_trunk (new_config 1 "home" <| host := "pbx.example.com" |> <| priority := 300 |>) new)).

Lemma three_trunks i t : trunks three !! i = Some t ->
  t = new_config 3 "spare" <| priority := 200 |> /\ i = 3 \/ t = new_config 2 "cheap" <| prefix_patterns := ["+33"] |> /\ i = 2 \/
  t = new_config 1 "home" <| host := "pbx.example.com" |> <| priority := 300 |> /\ i = 1.
Proof.
  change (trunks three) with (<[3 := new_config 3 "spare" <| priority := 200 |>]>
    (<[2 := new_config 2 "cheap" <| prefix_patterns := ["+33"] |>]>
      {[1 := new_config 1 "home" <| host := "pbx.example.com" |> <| priority := 300 |>]}) : gmap TrunkId TrunkConfig).
  intros [[<- <-]|[_ [[<- <-]|[_ [<- <-]%lookup_singleton_Some]]%lookup_insert_Some]]%lookup_insert_Some; auto.
Qed.

Lemma failover_list_witness :
  let HI := canonical_iter TrunkId TrunkConfig in
  let l := route_request_candidates 0 "pbx.example.com" (Some "+33612345678") three in
  name <$> l = ["home"; "cheap"; "spare"] /\ NoDup l.
Proof.
  intros HI l. split; [vm_compute; reflexivity|].
  assert (Hi : ids_ok three) by (intros i t [[-> ->]|[[-> ->]|[-> ->]]]%three_trunks; reflexivity).
  exact (proj1 (failover_list 0 "pbx.example.com" (Some "+33612345678") three Hi)).
Defined.

Lemma route_is_first_candidate_witness :
  let HI := canonical_iter TrunkId TrunkConfig in
  exists t, head (route_request_candidates 0 "other.net" (Some "+33612345678") three) = Some t /\
    route_request 0 "other.net" (Some "+33612345678") three = Ok t.
Proof.
  intros HI. apply (route_is_first_candidate 0 "other.net" (Some "+33612345678") three
    (new_config 2 "cheap" <| prefix_patterns := ["+33"] |>)); vm_compute; reflexivity.
Defined.

End Witness.
