(* ===== verification/Messages.v ===== *)
(** * Messages of the event loop (sbc/mod.rs, sbc/cdr.rs, sbc/response_handler.rs, routing/router.rs)

    What the handlers read of a message and the messages they write. A parsed
    message of the vendored parser is its header lines in order, each with its
    kind; reading a To header as typed, and adding a tag to it, are parameters.
    Random tags and branches are arguments. *)

From S2P Require Import Prelude Str Bytes Net SipBuilder Registrar Topology.

(** ** Parsed messages *)

Inductive HeaderKind :=
  HVia | HFrom | HTo | HCallId | HCSeq | HContact | HExpires | HContentLength | HWwwAuthenticate
  | HAccept | HAllow | HSupported | HOther (n : string).

#[export] Instance HeaderKind_eq_dec : EqDecision HeaderKind.
Proof. solve_decision. Defined.

Definition header_name (k : HeaderKind) : string :=
  match k with
  | HVia => "Via" | HFrom => "From" | HTo => "To" | HCallId => "Call-ID" | HCSeq => "CSeq"
  | HContact => "Contact" | HExpires => "Expires" | HContentLength => "Content-Length"
  | HWwwAuthenticate => "WWW-Authenticate" | HAccept => "Accept" | HAllow => "Allow"
  | HSupported => "Supported" | HOther n => n
  end.

Abbreviation Header := (HeaderKind * string)%type.

(** A header as text. *)
Definition header_text (h : Header) : string := header (header_name h.1) h.2.

Record Request := mkRequest {
  rq_method : string;
  rq_uri : string;
  rq_headers : list Header;
  rq_body : string
}.

Record Response := mkResponse {
  rs_status : Z;
  rs_headers : list Header;
  rs_body : string
}.

(** The first header of a kind: [via_header()] and the like. *)
Definition header_of (k : HeaderKind) (hs : list Header) : option string :=
  snd <$> List.find (fun h => bool_decide (h.1 = k)) hs.

Definition req_header (k : HeaderKind) (r : Request) : sbc_result Header :=
  match header_of k (rq_headers r) with
  | Some v => Ok (k, v)
  | None => Err (EParse "missing header")
  end.

Definition no_length : Header := (HContentLength, "0").

(** ** Responses to a request *)

Section typed.
(** A To header as typed, its tag test, the tag added, and its text. *)
Context {To : Type} (typed : string -> option To) (has_tag : To -> bool) (push_tag : string -> To -> To)
  (show_to : To -> string).

Definition to_with_tag (tag : string) (r : Request) : sbc_result Header :=
  let? h := req_header HTo r in
  let? to := ok_or (typed h.2) (EParse "bad To") in
  Ok (HTo, show_to (if has_tag to then to else push_tag tag to)).

(** The five headers a response repeats, with one Via. *)
Definition echo_headers (tag : string) (r : Request) : sbc_result (list Header) :=
  let? via := req_header HVia r in
  let? from := req_header HFrom r in
  let? to := to_with_tag tag r in
  let? call_id := req_header HCallId r in
  let? cseq := req_header HCSeq r in
  Ok [via; from; to; call_id; cseq].

Definition build_trying (r : Request) : sbc_result Response :=
  let? via := req_header HVia r in
  let? from := req_header HFrom r in
  let? to := req_header HTo r in
  let? call_id := req_header HCallId r in
  let? cseq := req_header HCSeq r in
  Ok (mkResponse 100 [via; from; to; call_id; cseq; no_length] "").

Definition is_via_text (h : Header) : bool :=
  let s := to_ascii_lowercase (header_text h) in starts_with "via:" s || starts_with "v:" s.

Definition build_plain_response_for_request (tag : string) (r : Request) (status : Z) : sbc_result Response :=
  let? vias := match List.filter is_via_text (rq_headers r) with
               | [] => let? via := req_header HVia r in Ok [via]
               | vias => Ok vias
               end in
  let? from := req_header HFrom r in
  let? to := to_with_tag tag r in
  let? call_id := req_header HCallId r in
  let? cseq := req_header HCSeq r in
  Ok (mkResponse status (vias ++ [from; to; call_id; cseq; no_length]) "").

Definition build_register_401 (tag : string) (r : Request) (challenge : string) : sbc_result Response :=
  let? hs := echo_headers tag r in
  Ok (mkResponse 401 (hs ++ [(HWwwAuthenticate, challenge); no_length]) "").

(** [now]: of [remaining_secs]. *)
Definition binding_contact (now : Z) (b : Registration) : Header :=
  (HContact,
   "<" +:+ contact b +:+ ">;expires=" +:+ show (remaining_secs now b)
   +:+ match instance_id b with Some i => ";+sip.instance=" +:+ String "034" i +:+ String "034" "" | None => "" end
   +:+ match reg_id b with Some r => ";reg-id=" +:+ show r | None => "" end).

Definition build_register_200 (tag : string) (now : Z) (r : Request) (bindings : list Registration)
    (granted : option Z) : sbc_result Response :=
  let? resp := build_plain_response_for_request tag r 200 in
  Ok (mkResponse (rs_status resp)
        (List.filter (fun h => negb (bool_decide (h.1 = HContentLength))) (rs_headers resp)
         ++ map (binding_contact now) bindings
         ++ match granted with Some g => [(HExpires, show g)] | None => [] end ++ [no_length])
        (rs_body resp)).

Definition ALLOWED_METHODS : string := "INVITE, ACK, CANCEL, OPTIONS, BYE, REGISTER, INFO, REFER".

Definition create_options_response (tag : string) (r : Request) : sbc_result Response :=
  let? hs := echo_headers tag r in
  Ok (mkResponse 200
        (hs ++ [(HAccept, "application/sdp"); (HAllow, ALLOWED_METHODS);
                (HSupported, join ", " SUPPORTED_EXTENSIONS); no_length]) "").

Definition create_register_response (tag : string) (r : Request) : sbc_result Response :=
  let? hs := echo_headers tag r in
  let contact := match header_of HContact (rq_headers r) with Some c => [(HContact, c)] | None => [] end in
  let expires := default "3600" (header_of HExpires (rq_headers r)) in
  Ok (mkResponse 200 (hs ++ contact ++ [(HExpires, expires); no_length]) "").

Definition handle_local_request (tag : string) (r : Request) : sbc_result Response :=
  if seqb (rq_method r) "OPTIONS" then create_options_response tag r
  else if seqb (rq_method r) "REGISTER" then create_register_response tag r
  else Err (ERouting "Cannot handle local request").

(** A response as text; [reason_phrase] is the parser's. *)
Definition response_text (reason_phrase : Z -> string) (r : Response) : string :=
  render (mkMsg ("SIP/2.0 " +:+ show (rs_status r) +:+ " " +:+ reason_phrase (rs_status r))
            (map header_text (rs_headers r)) (rs_body r)).

Definition build_plain_response (status : Z) (reason : string) : string :=
  "SIP/2.0 " +:+ show status +:+ " " +:+ reason +:+ CRLF +:+ "Content-Length: 0" +:+ CRLF +:+ CRLF.

Definition response_for_request (reason_phrase : Z -> string) (tag : string) (r : Request) (status : Z)
    (reason : string) : string :=
  match build_plain_response_for_request tag r status with
  | Ok resp => response_text reason_phrase resp
  | Err _ => build_plain_response status reason
  end.

Definition response_for_message (reason_phrase : Z -> string) (tag : string) (m : Request + Response)
    (status : Z) (reason : string) : string :=
  match m with
  | inl r => response_for_request reason_phrase tag r status reason
  | inr _ => build_plain_response status reason
  end.
End typed.

(** [unique_push]: the header replaces those of its kind. *)
Definition unique_push (h : Header) (hs : list Header) : list Header :=
  List.filter (fun x => negb (bool_decide (x.1 = h.1))) hs ++ [h].

Definition update_content_length_response (r : Response) : Response :=
  mkResponse (rs_status r)
    (unique_push (HContentLength, show (Z.of_nat (String.length (rs_body r)))) (rs_headers r)) (rs_body r).

Definition update_content_length_request (r : Request) : Request :=
  mkRequest (rq_method r) (rq_uri r)
    (unique_push (HContentLength, show (Z.of_nat (String.length (rq_body r)))) (rq_headers r)) (rq_body r).

(** ** Requests for the other leg *)

(** The URI between angle brackets, or the text before the parameters. *)
Definition to_uri (v : string) : string :=
  match find_char "<" v, rfind_char ">" v with
  | Some start, Some end_ => trim (stake (end_ - S start) (sdrop (S start) v))
  | _, _ => trim (default "sip:callee@localhost" (head (split ";" v)))
  end.

Definition via_host : string := "sbc.local:5060".

(** [rand]: eight characters of a fresh identifier; [fresh_id]: the whole. *)
Definition build_bye_for_other_leg (fresh_id rand : string) (bye : Request) : string :=
  let call_id := default fresh_id (header_of HCallId (rq_headers bye)) in
  let from := default "<sip:sbc@localhost>" (header_of HFrom (rq_headers bye)) in
  let to := default "<sip:callee@localhost>" (header_of HTo (rq_headers bye)) in
  let uri := match header_of HTo (rq_headers bye) with Some v => to_uri v | None => "sip:callee@localhost" end in
  unlines
    ["BYE " +:+ uri +:+ " SIP/2.0"; "Via: SIP/2.0/UDP " +:+ via_host +:+ ";branch=z9hG4bK-bye-" +:+ rand;
     "From: " +:+ from; "To: " +:+ to; "Call-ID: " +:+ call_id; "CSeq: 2 BYE"; "Content-Length: 0"; ""] "".

(** [cseq_seq]: the number of a CSeq header, read by the parser. *)
Definition build_cancel_for_callee (cseq_seq : string -> option Z) (rand : string) (cancel : Request)
    (outbound_call_id : string) : string :=
  let from := default "<sip:sbc@localhost>" (header_of HFrom (rq_headers cancel)) in
  let to := default "<sip:callee@localhost>" (header_of HTo (rq_headers cancel)) in
  let uri := to_uri (default "" (header_of HTo (rq_headers cancel))) in
  let n := match c ← header_of HCSeq (rq_headers cancel); cseq_seq c with Some n => show n | None => "1" end in
  unlines
    ["CANCEL " +:+ uri +:+ " SIP/2.0"; "Via: SIP/2.0/UDP " +:+ via_host +:+ ";branch=z9hG4bK-cancel-" +:+ rand;
     "From: " +:+ from; "To: " +:+ to; "Call-ID: " +:+ outbound_call_id; "CSeq: " +:+ n +:+ " CANCEL";
     "Content-Length: 0"; ""] "".

(** ** Raw text *)

(** The lines up to the blank one, without the two content headers. *)
Fixpoint strip_lines (ls : list string) : string :=
  match ls with
  | [] => ""
  | line :: ls =>
      if seqb line "" then "Content-Length: 0" +:+ CRLF +:+ CRLF
      else
        let lower := to_ascii_lowercase line in
        if starts_with "content-type:" lower || starts_with "content-length:" lower then strip_lines ls
        else line +:+ CRLF +:+ strip_lines ls
  end.

Definition strip_sdp_body (raw : string) : string := strip_lines (split_crlf raw).

Definition cseq_is_invite (m : RawSipMessage) : bool :=
  match head (header_values "cseq" m) with
  | Some v => match head (tail (split_whitespace v)) with
              | Some w => eq_ignore_ascii_case w "INVITE" | None => false end
  | None => false
  end.

Definition rewrite_response_for_caller (raw_response : string) (caller_vias : list string)
    (identity : option SbcIdentity) (caller_invite_cseq : option Z) : string :=
  match parse raw_response with
  | Err _ => raw_response
  | Ok msg =>
      let msg := remove_header "v" (remove_header "via" msg) in
      let msg := foldr prepend_header msg caller_vias in
      let msg := match caller_invite_cseq with
                 | Some n => if cseq_is_invite msg then set_header "CSeq" (show n +:+ " INVITE") msg else msg
                 | None => msg
                 end in
      let msg :=
        match identity with
        | Some id =>
            let msg := if bool_decide (header_values "contact" msg = []) then msg
                       else append_header ("Contact: <" +:+ contact_uri id +:+ ">")
                              (remove_header "m" (remove_header "contact" msg)) in
            prepend_header ("Record-Route: " +:+ record_route id) (remove_header "record-route" msg)
        | None => msg
        end in
      render msg
  end.

Definition extract_uri_user (uri : string) : option string :=
  rest ← match strip_prefix "sip:" uri with Some r => Some r | None => strip_prefix "sips:" uri end;
  user ← head (split "@" rest);
  if seqb user "" then None else Some user.

Definition extract_request_uri_from_raw (raw : string) : option string :=
  first ← head (lines raw); head (tail (split_whitespace first)).

Definition extract_callee_aor (r : Request) : option string :=
  let to := default "" (header_of HTo (rq_headers r)) in
  if negb (seqb (rq_uri r) "") then Some (rq_uri r) else if negb (seqb to "") then Some to else None.

(** The position after the request line and the Via lines that follow it. *)
Fixpoint insert_auth (line : string) (ls : list string) : option (list string) :=
  match ls with
  | [] => None
  | l :: rest =>
      let lower := to_ascii_lowercase l in
      if negb (starts_with "invite " lower) && negb (starts_with "via:" lower) && negb (starts_with "v:" lower)
      then Some (line :: ls)
      else (fun r => l :: r) <$> insert_auth line rest
  end.

(** [Vec::insert(1, ..)] where no other line is found. *)
Definition insert_at_one (line : string) (ls : list string) : list string :=
  match ls with [] => [line] | l :: rest => l :: line :: rest end.

Definition inject_proxy_auth_into_invite (fresh raw_invite auth_value : string) : string :=
  let renewed := renew_invite_transaction fresh raw_invite in
  let '(hd, body) := match find_str (CRLF +:+ CRLF) renewed with
                     | Some pos => (stake pos renewed, sdrop (pos + 4) renewed)
                     | None => (renewed, "") end in
  let ls := List.filter (fun l => negb (starts_with "proxy-authorization:" (to_ascii_lowercase l))) (split_crlf hd) in
  let line := "Proxy-Authorization: " +:+ auth_value in
  let ls := default (insert_at_one line ls) (insert_auth line ls) in
  join CRLF ls +:+ CRLF +:+ CRLF +:+ body.

(** ** Reading *)

Definition status_code_of (raw : string) : option Z :=
  w ← head (tail (split_whitespace raw)); parse_uint u16_max w.

(** [line.get(..n)] is [None] past the end. *)
Definition header_value (r : Request) (n : string) : option string :=
  let prefix := to_ascii_lowercase n +:+ ":" in
  let k := String.length prefix in
  head (omap (fun h =>
          let line := header_text h in
          if (k <=? String.length line)%nat && eq_ignore_ascii_case (stake k line) prefix
          then Some (trim (sdrop k line)) else None) (rq_headers r)).

Definition response_cseq (r : Response) : option (Z * string) :=
  raw ← List.find (fun h => starts_with "cseq:" (to_ascii_lowercase h)) (map header_text (rs_headers r));
  p ← split_once ":" raw;
  match split_whitespace (trim p.2) with
  | num :: m :: _ => n ← parse_uint u32_max num; Some (n, m)
  | _ => None
  end.

(** The lines of the header block: up to the first empty one. *)
Fixpoint header_u32_in (ls : list string) (names : list string) : option Z :=
  match ls with
  | [] => None
  | line :: ls =>
      if seqb line "" then None
      else
        let lower := to_ascii_lowercase line in
        if existsb (fun n => starts_with n lower) names then
          p ← split_once ":" line; w ← head (split ";" (trim p.2)); parse_uint u32_max (trim w)
        else header_u32_in ls names
  end.

Definition header_u32 (raw : string) (names : list string) : option Z := header_u32_in (split_crlf raw) names.
Definition parse_session_expires (raw : string) : option Z := header_u32 raw ["session-expires:"; "x:"].
Definition parse_min_se (raw : string) : option Z := header_u32 raw ["min-se:"].

Definition ack_cseq_for_callee (caller_cseq_header : string) (outbound_invite_cseq : option Z) : string :=
  match outbound_invite_cseq with Some n => show n +:+ " ACK" | None => caller_cseq_header end.

(** [is_loopback], [is_private], [is_link_local] of [Ipv4Addr] and the ranges the code adds. *)
Definition is_private_ip (i : IpAddr) : bool :=
  match i with
  | V4 o =>
      let a := byte_at 0 o in let b := byte_at 1 o in let c := byte_at 2 o in
      is_loopback i
      || (a =? 10) || ((a =? 172) && (16 <=? b) && (b <=? 31)) || ((a =? 192) && (b =? 168))
      || ((a =? 169) && (b =? 254))
      || is_unspecified i
      || (a =? 100) && ((64 <=? b) && (b <=? 127))
      || (a =? 192) && (b =? 0) && (c =? 0)
      || (a =? 192) && (b =? 0) && (c =? 2)
      || (a =? 198) && ((b =? 18) || (b =? 19))
      || (a =? 198) && (b =? 51) && (c =? 100)
      || (a =? 203) && (b =? 0) && (c =? 113)
  | V6 _ => is_loopback i || is_unspecified i
  end.

(** The loop over the lines: address and port found so far. *)
Fixpoint sdp_addr_in (parse_ip : string -> option IpAddr) (ls : list string) (i : option IpAddr) (p : option Z)
    : option IpAddr * option Z :=
  match ls with
  | [] => (i, p)
  | line :: ls =>
      let line := trim line in
      let '(i, p) :=
        match strip_prefix "c=IN IP4 " line with
        | Some a => (match parse_ip (trim a) with Some x => Some x | None => i end, p)
        | None =>
            if starts_with "m=audio " line then
              (i, match q ← head (tail (split_whitespace line)); parse_uint u16_max q with
                  | Some x => Some x | None => p end)
            else (i, p)
        end in
      match i, p with Some _, Some _ => (i, p) | _, _ => sdp_addr_in parse_ip ls i p end
  end.

Definition extract_sdp_rtp_addr (parse_ip : string -> option IpAddr) (sdp : string) : option SocketAddr :=
  match sdp_addr_in parse_ip (lines sdp) None None with
  | (Some i, Some p) => if 0 <? p then Some (mkAddr i p) else None
  | _ => None
  end.

(** ** Lemmas: replacing a header *)

Lemma replace_others n k line hs :
  n <> k -> short_form n <> k -> short_form k <> n -> value_of n line = None ->
  omap (value_of n) (replace_first (is_header k) line hs) = omap (value_of n) hs.
Proof.
  intros H1 H2 H3 Hl. induction hs as [|h hs IH]; cbn [replace_first]; [by rewrite values_cons, Hl|].
  destruct (is_header k h) eqn:E; rewrite !values_cons.
  - assert (value_of n h = None) as ->; [|by rewrite Hl]. unfold value_of. by rewrite (names_apart k n).
  - by rewrite IH.
Qed.

Lemma replace_head k line v hs :
  value_of k line = Some v -> head (omap (value_of k) (replace_first (is_header k) line hs)) = Some v.
Proof.
  intros Hl. induction hs as [|h hs IH]; cbn [replace_first]; [by rewrite values_cons, Hl|].
  destruct (is_header k h) eqn:E; rewrite values_cons; [by rewrite Hl|].
  assert (value_of k h = None) as -> by (unfold value_of; by rewrite E). done.
Qed.

Lemma value_of_cseq n v : value_of n ("CSeq: " +:+ v) = if seqb "cseq" n then Some (trim v) else None.
Proof.
  change ("CSeq: " +:+ v) with ("CSeq" +:+ ": " +:+ v). rewrite value_of_line by done. header_names.
  change (short_form "cseq") with "cseq". by destruct (seqb "cseq" n).
Qed.

Lemma trim_show_word n w : 0 <= n -> trim w = w -> w <> "" -> trim (show n +:+ " " +:+ w) = show n +:+ " " +:+ w.
Proof.
  intros Hn Hw Hne. destruct (show_spec n Hn) as (Hd & _ & Hs).
  unfold trim, trim_by. rewrite <- sapp_assoc, trim_end_app; [|by apply trimmed_end|done].
  destruct (show n) as [|c s]; [done|]. rewrite !sapp_cons. cbn [trim_start_by]. cbn [sall] in Hd. to_prop.
  by rewrite (proj1 (negb_true_iff _) (digit_not_space c ltac:(done))).
Qed.

Definition via_line (v : string) : string := "Via: " +:+ v.

Lemma prepended vias m : foldr prepend_header m vias = m <| headers := vias ++ headers m |>.
Proof. induction vias as [|v vias IH]; [by destruct m|]. cbn [foldr]. by rewrite IH. Qed.

Lemma via_values n vs : omap (value_of n) (map via_line vs) = if seqb "via" n then map trim vs else [].
Proof.
  induction vs as [|v vs IH]; cbn [map]; [by case_match|]. rewrite values_cons. unfold via_line at 1.
  rewrite value_of_via, IH. by destruct (seqb "via" n).
Qed.

(** ** The response a caller sees *)

(** A response relayed to the caller is in the caller's own transaction and
    hides the callee: it carries the caller's Via values in order and no other,
    the number of the caller's INVITE, the SBC's Contact where the callee gave
    one, and the SBC's Record-Route alone; status line and body are the
    callee's. *)
Theorem response_for_caller raw m vs i n :
  identity_ok i -> Forall (fun v => no_lf v = true /\ trim v = v) vs -> 0 <= n ->
  parse raw = Ok m -> cseq_is_invite m = true ->
  exists m', parse (rewrite_response_for_caller raw (map via_line vs) (Some i) (Some n)) = Ok m' /\
    start_line m' = start_line m /\ body m' = body m /\
    header_values "via" m' = vs /\
    head (header_values "cseq" m') = Some (show n +:+ " INVITE") /\
    header_values "contact" m'
      = (if bool_decide (header_values "contact" m = []) then [] else ["<" +:+ contact_uri i +:+ ">"]) /\
    header_values "record-route" m' = [record_route i].
Proof.
  intros Hi Hvs Hn Hm Hc. destruct (parse_well_formed _ _ Hm) as (Hs1 & Hs2 & Hg).
  unfold rewrite_response_for_caller. rewrite Hm, prepended.
  set (m2 := _ <| headers := _ |>).
  assert (Hval : forall k, k = "cseq" \/ k = "contact" -> omap (value_of k) (headers m2) = omap (value_of k) (headers m)).
  { intros k Hk. unfold m2. cbn [remove_header headers set_field]. header_names. rewrite values_app, via_values.
    destruct Hk as [-> | ->]; cbn [app]; hide_values; done. }
  assert (Hc2 : cseq_is_invite m2 = true).
  { unfold cseq_is_invite in *. rewrite !header_values_of in *. revert Hc. header_names. by rewrite (Hval "cseq" (or_introl eq_refl)). }
  rewrite Hc2. set (line := "CSeq" +:+ ": " +:+ show n +:+ " INVITE").
  assert (Hline : forall k, value_of k line = if seqb "cseq" k then Some (show n +:+ " INVITE") else None).
  { intros k. unfold line. change ("CSeq" +:+ ": " +:+ show n +:+ " INVITE") with ("CSeq: " +:+ show n +:+ " INVITE").
    rewrite value_of_cseq. change (show n +:+ " INVITE") with (show n +:+ " " +:+ "INVITE"). by rewrite trim_show_word. }
  assert (Hgl : good_header line = true).
  { apply good_line; try done. rewrite no_lf_app, no_lf_show by done. done. }
  set (m3 := set_header "CSeq" _ m2).
  assert (H3 : headers m3 = replace_first (is_header "cseq") line (headers m2)) by reflexivity.
  assert (Hg2 : Forall (fun h => good_header h = true) (headers m2)).
  { unfold m2. cbn [remove_header headers set_field]. apply Forall_app. split; [|by apply good_filter, good_filter].
    apply Forall_map. eapply Forall_impl; [exact Hvs|]. intros v [Hv _]. by apply (good_line "Via"). }
  assert (Hg3 : Forall (fun h => good_header h = true) (headers m3)) by (rewrite H3; by apply replace_good).
  assert (Hother : forall k, seqb "cseq" k = false -> short_form k <> "cseq" ->
     omap (value_of k) (headers m3) = omap (value_of k) (headers m2)).
  { intros k Hk Hk2. rewrite H3. assert (k <> "cseq") by (intros ->; done). apply replace_others; [done|done| |by rewrite Hline, Hk].
    change (short_form "cseq") with "cseq". congruence. }
  assert (Hcon : header_values "contact" m3 = header_values "contact" m).
  { rewrite !header_values_of. header_names. rewrite Hother by done. apply Hval. by right. }
  rewrite Hcon.
  assert (Hgc : good_header ("Contact: <" +:+ contact_uri i +:+ ">") = true).
  { apply (good_line "Contact" ("<" +:+ contact_uri i +:+ ">")); try done. rewrite !no_lf_app.
    by rewrite (proj1 (uri_no_lf i Hi)). }
  assert (Hgr : good_header ("Record-Route: " +:+ record_route i) = true)
    by (apply (good_line "Record-Route"); try done; by apply uri_no_lf).
  assert (Hvia : omap (value_of "via") (headers m3) = vs).
  { rewrite Hother by done. unfold m2. cbn [remove_header headers set_field]. header_names.
    rewrite values_app, via_values. cbn [app]. rewrite values_gone, app_nil_r.
    change (seqb "via" "via") with true. cbv iota. clear -Hvs. induction Hvs as [|v vs [_ Hv] _ IH]; [done|]. cbn. by rewrite Hv, IH. }
  assert (Hcs : head (omap (value_of "cseq") (headers m3)) = Some (show n +:+ " INVITE")).
  { rewrite H3. apply replace_head. by rewrite Hline. }
  eexists. split; [apply parse_render_wf|].
  - case_bool_decide; split_and!; try done; cbn [prepend_header append_header remove_header headers set_field];
      good_edits; done.
  - rewrite !header_values_of. header_names.
    case_bool_decide as Hb; split_and!; try done;
      cbn [prepend_header append_header remove_header headers set_field]; header_names;
      hide_values; rewrite ?trim_bracketed, ?trim_route, ?app_nil_r; try done.
    rewrite Hother by done. rewrite Hval by auto. by rewrite Hb.
Qed.

(** ** Without the body *)

Definition content_header (line : string) : bool :=
  starts_with "content-type:" (to_ascii_lowercase line) || starts_with "content-length:" (to_ascii_lowercase line).

Lemma strip_lines_kept hs rest :
  Forall (fun h => h <> "") hs ->
  strip_lines (hs ++ "" :: rest)
  = unlines (List.filter (fun h => negb (content_header h)) hs ++ ["Content-Length: 0"; ""]) "".
Proof.
  induction 1 as [|h hs Hh _ IH]; [done|]. cbn [app strip_lines List.filter]. rewrite seqb_false by done.
  unfold content_header at 1. destruct (_ || _); cbn [negb app unlines foldr]; [exact IH|]. by rewrite IH.
Qed.

(** A provisional response without its SDP is the same header lines in order,
    less the two that described the body, and declares an empty body. *)
Theorem sdp_stripped hs b :
  Forall (fun h => h <> "" /\ crlf_free h = true) hs ->
  strip_sdp_body (unlines (hs ++ [""]) b)
  = unlines (List.filter (fun h => negb (content_header h)) hs ++ ["Content-Length: 0"; ""]) "".
Proof.
  intros Hh. unfold strip_sdp_body. rewrite split_crlf_unlines.
  - rewrite <- app_assoc. apply strip_lines_kept. eapply Forall_impl; [exact Hh|]. by intros x [].
  - apply Forall_app. split; [|by repeat constructor]. eapply Forall_impl; [exact Hh|]. by intros x [].
Qed.

(** ** Examples *)

Definition two_vias : Request :=
  mkRequest "OPTIONS" "sip:sbc@h"
    [(HVia, "SIP/2.0/UDP proxy;branch=z9hG4bK2"); (HVia, "SIP/2.0/UDP ua;branch=z9hG4bK1");
     (HFrom, "<sip:a@h>;tag=1"); (HTo, "<sip:b@h>"); (HCallId, "c"); (HCSeq, "1 OPTIONS")] "".

(** The answer to an OPTIONS that came through a proxy keeps the proxy's Via
    alone; a plain response keeps both. *)
Example options_drops_vias :
  let vias (r : sbc_result Response) :=
    match r with Ok r => length (List.filter is_via_text (rs_headers r)) | Err _ => 0%nat end in
  let add tag to := to +:+ ";tag=" +:+ tag in
  vias (create_options_response Some (fun _ => false) add (fun to => to) "t" two_vias) = 1%nat /\
  vias (build_register_401 Some (fun _ => false) add (fun to => to) "t" two_vias "Digest") = 1%nat /\
  vias (build_plain_response_for_request Some (fun _ => false) add (fun to => to) "t" two_vias 200) = 2%nat.
Proof. vm_compute. auto. Qed.

Module Witness.

Definition answered : string :=
  unlines ["SIP/2.0 200 OK"; "Via: SIP/2.0/UDP 203.0.113.1:5060;branch=z9hG4bKsbc"; "From: <sip:a@h>;tag=1";
           "To: <sip:b@h>;tag=2"; "Call-ID: x"; "CSeq: 3 INVITE"; "Contact: <sip:bob@10.0.0.9>";
           "Record-Route: <sip:trunk;lr>"] (CRLF +:+ "v=0").

Lemma response_for_caller_witness :
  exists m', parse (rewrite_response_for_caller answered (map via_line ["SIP/2.0/TLS ua;branch=z9hG4bKa"])
                      (Some Topology.Witness.sbc) (Some 1)) = Ok m' /\
    header_values "via" m' = ["SIP/2.0/TLS ua;branch=z9hG4bKa"] /\
    header_values "contact" m' = ["<sip:sbc@203.0.113.1:5060>"].
Proof.
  destruct (parse answered) as [m|e] eqn:E; [|vm_compute in E; discriminate].
  assert (Hc : cseq_is_invite m = true) by (vm_compute in E; injection E as <-; reflexivity).
  assert (Hv : header_values "contact" m = ["<sip:bob@10.0.0.9>"]) by (vm_compute in E; injection E as <-; reflexivity).
  destruct (response_for_caller answered m ["SIP/2.0/TLS ua;branch=z9hG4bKa"] Topology.Witness.sbc 1
    Topology.Witness.identity_good ltac:(repeat constructor) ltac:(discriminate) E Hc) as (m' & Hp & _ & _ & Hvia & _ & Hco & _).
  exists m'. split; [exact Hp|]. split; [exact Hvia|]. rewrite Hco, Hv. reflexivity.
Defined.

End Witness.
