(* ===== verification/Invite.v ===== *)
(** * INVITEs toward a trunk (sbc/invite_handler.rs)

    The text of the INVITEs the SBC sends again: to the next trunk of a
    failover, with other session timer values after a 422; and what it reads of
    a caller's INVITE before any state exists. Random branches are arguments. *)

From Stdlib Require Import Btauto.
From S2P Require Import Prelude Str Bytes Net SipBuilder Topology Trunk Messages.

(** ** Reading a request *)

Definition request_has_rfc3261_branch (r : Request) : bool :=
  match header_of HVia (rq_headers r) with
  | Some v =>
      let via := header_text (HVia, v) in
      match find_str "branch=" via with
      | Some pos => starts_with "z9hG4bK" (sdrop (pos + 7) via)
      | None => false
      end
  | None => false
  end.

(** The tokens of one header line not supported and not seen. *)
Definition add_unsupported (out : list string) (token : string) : list string :=
  let t := trim token in
  if negb (seqb t "") && negb (existsb (fun s => eq_ignore_ascii_case s t) SUPPORTED_EXTENSIONS)
     && negb (existsb (fun o => seqb o t) out)
  then out ++ [t] else out.

Definition required_value (h : Header) : option string :=
  let lower := to_ascii_lowercase (header_text h) in
  match strip_prefix "require:" lower with
  | Some v => Some v
  | None => strip_prefix "proxy-require:" lower
  end.

Definition unsupported_required_extensions (r : Request) : list string :=
  fold_left (fun out h => match required_value h with
                          | Some v => fold_left add_unsupported (split "," v) out
                          | None => out
                          end) (rq_headers r) [].

Definition max_forwards (r : Request) : option Z :=
  v ← header_of (HOther "Max-Forwards") (rq_headers r); parse_uint u32_max (trim v).

Definition extract_contact_uri (value : string) : string :=
  let plain := trim (default value (head (split "," value))) in
  match find_char "<" value, find_char ">" value with
  | Some start, Some end_ =>
      if (start <? end_)%nat then stake (end_ - S start) (sdrop (S start) value) else plain
  | _, _ => plain
  end.

(** ** Failover *)

(** [splitn(3, ' ')] *)
Definition request_line_parts (line : string) : option (string * string * option string) :=
  p ← split_once " " line;
  match split_once " " p.2 with
  | Some (uri, version) => Some (p.1, uri, Some version)
  | None => Some (p.1, p.2, None)
  end.

(** The first Via with a fresh branch, when it has one; up to a blank line. *)
Fixpoint refresh_via (fresh : string) (ls : list string) : list string :=
  match ls with
  | [] => []
  | line :: rest =>
      let lower := to_ascii_lowercase line in
      if starts_with "via:" lower || starts_with "v:" lower then
        match find_str "branch=" line with
        | Some pos =>
            let start := (pos + 7)%nat in
            let end_ := match find_by (fun c => bool_decide (c = ";"%char) || bool_decide (c = ","%char))
                                (sdrop start line) with
                        | Some i => (start + i)%nat | None => String.length line end in
            (stake start line +:+ fresh +:+ sdrop end_ line) :: rest
        | None => ls
        end
      else if seqb line "" then ls
      else line :: refresh_via fresh rest
  end.

Definition retarget_invite_for_trunk (fresh raw_invite : string) (trunk : TrunkConfig) : option string :=
  match split_crlf raw_invite with
  | [] => None
  | first :: rest =>
      parts ← request_line_parts first;
      let '(m, uri, version) := parts in
      if negb (seqb m "INVITE") then None
      else
        after ← match strip_prefix "sip:" uri with Some r => Some r | None => strip_prefix "sips:" uri end;
        u ← head (split "@" after);
        user ← head (split ";" u);
        let line := "INVITE sip:" +:+ normalize_number user trunk +:+ "@" +:+ host trunk +:+ ":"
                    +:+ show (trunk_port trunk) +:+ " " +:+ default "SIP/2.0" version in
        Some (join CRLF (line :: refresh_via fresh rest))
  end.

(** ** Session timer *)

Definition has_timer (m : RawSipMessage) : bool :=
  existsb (fun v => existsb (fun tok => eq_ignore_ascii_case (trim tok) "timer") (split "," v))
    (header_values "supported" m).

Definition is_length (h : string) : bool :=
  let n := to_ascii_lowercase (trim (default "" (head (split ":" h)))) in
  seqb n "content-length" || seqb n "l".

(** The lines inserted before the first Content-Length, or at the end. *)
Fixpoint insert_before (p : string -> bool) (new hs : list string) : list string :=
  match hs with
  | [] => new
  | h :: rest => if p h then new ++ hs else h :: insert_before p new rest
  end.

Definition timer_lines (m : RawSipMessage) (expires min_se : Z) : list string :=
  (if has_timer m then [] else ["Supported: timer"])
  ++ ["Session-Expires: " +:+ show expires; "Min-SE: " +:+ show min_se].

Definition without_timer (m : RawSipMessage) : RawSipMessage :=
  remove_header "min-se" (remove_header "x" (remove_header "session-expires" m)).

Definition apply_session_timer_headers (m : RawSipMessage) (expires min_se : Z) : RawSipMessage :=
  let m := without_timer m in
  m <| headers := insert_before is_length (timer_lines m expires min_se) (headers m) |>.

Definition set_session_timer_headers (raw : string) (expires min_se : Z) : string :=
  match parse raw with
  | Err _ => raw
  | Ok m => render (apply_session_timer_headers m expires min_se)
  end.

Definition session_interval_retry_values (offered_se : option Z) (min_se_422 : Z) (configured : Z * Z)
    : option (Z * Z) :=
  if min_se_422 <? 90 then None
  else if match offered_se with Some offered => min_se_422 <=? offered | None => false end then None
  else
    let new_min_se := Z.max min_se_422 configured.2 in
    Some (Z.max (Z.max (default 0 offered_se) configured.1) new_min_se, new_min_se).

Definition build_session_interval_retry (fresh stored_invite : string) (expires min_se : Z) : string :=
  renew_invite_transaction fresh
    (match parse stored_invite with
     | Err _ => stored_invite
     | Ok m => render (apply_session_timer_headers (remove_header "proxy-authorization" m) expires min_se)
     end).

(** ** Lemmas *)

Lemma values_insert n p new hs :
  omap (value_of n) new = [] -> omap (value_of n) (insert_before p new hs) = omap (value_of n) hs.
Proof.
  intros Hn. induction hs as [|h hs IH]; cbn [insert_before]; [done|].
  destruct (p h); [by rewrite values_app, Hn|]. rewrite !values_cons. by rewrite IH.
Qed.

Lemma values_inserted n p new hs :
  omap (value_of n) hs = [] -> omap (value_of n) (insert_before p new hs) = omap (value_of n) new.
Proof.
  intros Hn. induction hs as [|h hs IH]; cbn [insert_before]; [done|].
  rewrite values_cons in Hn. destruct (p h) eqn:E.
  - rewrite values_app. rewrite values_cons. destruct (value_of n h); [done|]. by rewrite Hn, app_nil_r.
  - rewrite values_cons. destruct (value_of n h); [done|]. by apply IH.
Qed.

Lemma good_insert p new hs :
  Forall (fun h => good_header h = true) new -> Forall (fun h => good_header h = true) hs ->
  Forall (fun h => good_header h = true) (insert_before p new hs).
Proof.
  intros Hn. induction 1 as [|h hs Hh Hs IH]; cbn [insert_before]; [done|].
  destruct (p h); [by apply Forall_app; split; [|constructor]|by constructor].
Qed.

Lemma value_of_named name n v :
  name <> "" -> sall (fun c => negb (Ascii.is_space c)) name = true -> free_of ":" name = true ->
  trim v = v ->
  value_of n (name +:+ ": " +:+ v)
  = (if seqb (to_ascii_lowercase name) n || seqb (short_form (to_ascii_lowercase name)) n then Some v else None).
Proof. intros H1 H2 H3 H4. rewrite value_of_line by done. by rewrite H4. Qed.

Lemma trim_show n : 0 <= n -> trim (show n) = show n.
Proof.
  intros Hn. destruct (show_spec n Hn) as (Hd & _ & _). apply trim_free.
  eapply sall_impl; [|exact Hd]. apply digit_not_space.
Qed.

Lemma value_of_se n e : 0 <= e -> value_of n ("Session-Expires: " +:+ show e) = if seqb "session-expires" n then Some (show e) else None.
Proof.
  intros He. change ("Session-Expires: " +:+ show e) with ("Session-Expires" +:+ ": " +:+ show e).
  rewrite value_of_named by (done || by apply trim_show). header_names. change (short_form "session-expires") with "session-expires".
  by rewrite orb_diag.
Qed.

Lemma value_of_min_se n e : 0 <= e -> value_of n ("Min-SE: " +:+ show e) = if seqb "min-se" n then Some (show e) else None.
Proof.
  intros He. change ("Min-SE: " +:+ show e) with ("Min-SE" +:+ ": " +:+ show e).
  rewrite value_of_named by (done || by apply trim_show). header_names. change (short_form "min-se") with "min-se".
  by rewrite orb_diag.
Qed.

Lemma timer_lines_good m e s : 0 <= e -> 0 <= s -> Forall (fun h => good_header h = true) (timer_lines m e s).
Proof.
  intros He Hs. unfold timer_lines. apply Forall_app. split; [destruct (has_timer m); by repeat constructor|].
  repeat constructor; [apply (good_line "Session-Expires")|apply (good_line "Min-SE")]; try done; by apply no_lf_show.
Qed.

Lemma stamped_good m e s :
  0 <= e -> 0 <= s -> well_formed m -> well_formed (apply_session_timer_headers m e s).
Proof.
  intros He Hs (H1 & H2 & H3). split_and!; [done..|].
  change (Forall (fun h => good_header h = true) (insert_before is_length (timer_lines (without_timer m) e s) (headers (without_timer m)))).
  apply good_insert; [by apply timer_lines_good|]. by apply good_filter, good_filter, good_filter.
Qed.

Lemma no_timer_values n m :
  n = "session-expires" \/ n = "min-se" -> omap (value_of n) (headers (without_timer m)) = [].
Proof.
  intros [-> | ->]; cbn [without_timer remove_header headers set_field]; header_names.
  - apply lacks_values, lacks_filter, lacks_filter, forallb_forall. by intros x [_ Hx]%filter_In.
  - apply values_removed.
Qed.

Lemma stamped_headers m e s :
  headers (apply_session_timer_headers m e s)
  = insert_before is_length (timer_lines (without_timer m) e s) (headers (without_timer m)).
Proof. reflexivity. Qed.

Lemma timer_line_values n m e s :
  0 <= e -> 0 <= s -> n <> "supported" ->
  omap (value_of n) (timer_lines m e s)
  = (if seqb "session-expires" n then [show e] else []) ++ (if seqb "min-se" n then [show s] else []).
Proof.
  intros He Hs Hn. unfold timer_lines. rewrite values_app.
  assert (omap (value_of n) (if has_timer m then [] else ["Supported: timer"]) = []) as ->.
  { destruct (has_timer m); [done|]. rewrite values_cons. change "Supported: timer" with ("Supported" +:+ ": " +:+ "timer").
    rewrite value_of_named by done. header_names. change (short_form "supported") with "supported".
    by rewrite seqb_false. }
  rewrite !values_cons, value_of_se, value_of_min_se by done. by destruct (seqb "session-expires" n), (seqb "min-se" n).
Qed.

Lemma stamped_values m e s :
  0 <= e -> 0 <= s ->
  header_values "Session-Expires" (apply_session_timer_headers m e s) = [show e] /\
  header_values "Min-SE" (apply_session_timer_headers m e s) = [show s].
Proof.
  intros He Hs. rewrite !header_values_of, stamped_headers. header_names.
  rewrite !values_inserted by (apply no_timer_values; auto). rewrite !timer_line_values by done. done.
Qed.

(** The headers of any other name but Supported are kept. *)
Lemma stamped_others n m e s :
  0 <= e -> 0 <= s -> n <> "supported" -> n <> "session-expires" -> n <> "min-se" -> n <> "x" ->
  short_form n <> "x" -> short_form n <> "min-se" -> short_form n <> "session-expires" ->
  omap (value_of n) (headers (apply_session_timer_headers m e s)) = omap (value_of n) (headers m).
Proof.
  intros He Hs H1 H2 H3 H4 H6 H7 H8. rewrite stamped_headers, values_insert.
  - unfold without_timer. cbn [remove_header headers set_field]. header_names.
    rewrite !values_kept; try done; try (by intros E; vm_compute in E; subst n); try congruence.
    all: change (short_form "x") with "x"; change (short_form "min-se") with "min-se";
         change (short_form "session-expires") with "session-expires"; congruence.
  - rewrite timer_line_values by done. by rewrite !seqb_false by congruence.
Qed.

(** ** Stamping again *)

Lemma insert_twice p a b hs :
  forallb (fun h => negb (p h)) a = true -> insert_before p b (insert_before p a hs) = insert_before p (a ++ b) hs.
Proof.
  intros Ha. assert (Happ : forall l, insert_before p b (a ++ l) = a ++ insert_before p b l).
  { clear hs. induction a as [|x a IH]; intros l; [done|]. cbn [forallb] in Ha. to_prop.
    cbn [app insert_before]. by rewrite HP, IH. }
  induction hs as [|h hs IH]; cbn [insert_before]; [by rewrite <- (app_nil_r a) at 1; rewrite Happ|].
  destruct (p h) eqn:E.
  - rewrite Happ. cbn [insert_before]. by rewrite E, app_assoc.
  - cbn [insert_before]. by rewrite E, IH.
Qed.

Lemma filter_insert f p new hs :
  (forall h, p h = true -> f h = true) ->
  List.filter f (insert_before p new hs) = insert_before p (List.filter f new) (List.filter f hs).
Proof.
  intros Hpf. induction hs as [|h hs IH]; [done|]. cbn [insert_before List.filter]. destruct (p h) eqn:E.
  - rewrite List.filter_app. cbn [List.filter]. rewrite (Hpf h E). cbn [insert_before]. by rewrite E.
  - cbn [List.filter]. destruct (f h); [|done]. cbn [insert_before]. by rewrite E, IH.
Qed.

Lemma elem_of_insert p new hs x : x ∈ insert_before p new hs <-> x ∈ new \/ x ∈ hs.
Proof.
  induction hs as [|h hs IH]; cbn [insert_before]; [set_solver|]. destruct (p h); [set_solver|].
  rewrite !elem_of_cons, IH. tauto.
Qed.

(** Content-Length is no header the stamping removes. *)
Lemma length_kept n h :
  is_length h = true -> n = "session-expires" \/ n = "x" \/ n = "min-se" -> is_header n h = false.
Proof.
  unfold is_length. intros Hl Hn. destruct (is_header n h) eqn:E; [|done].
  apply is_header_name in E as (hn & v & Hp & Hh). rewrite (head_split_name h hn v Hp) in Hl.
  to_prop. destruct Hl as [Hl%seqb_true|Hl%seqb_true]; subst hn; destruct Hh as [Hh|Hh]; vm_compute in Hh; subst n;
    by destruct Hn as [?|[?|?]].
Qed.

Definition kept (h : string) : bool :=
  negb (is_header "session-expires" h) && negb (is_header "x" h) && negb (is_header "min-se" h).

Lemma without_timer_kept m : headers (without_timer m) = List.filter kept (headers m).
Proof.
  cbn [without_timer remove_header headers set_field]. header_names. rewrite !filter_filter.
  apply filterb_ext. intros x. unfold kept. btauto.
Qed.

Lemma length_is_kept h : is_length h = true -> kept h = true.
Proof. intros H. unfold kept. by rewrite !length_kept by auto. Qed.

Lemma has_timer_spec m :
  has_timer m = true <->
  exists h v, h ∈ headers m /\ value_of "supported" h = Some v /\
    existsb (fun tok => eq_ignore_ascii_case (trim tok) "timer") (split "," v) = true.
Proof.
  unfold has_timer. rewrite header_values_of. header_names. rewrite existsb_exists. split.
  - intros (v & Hv & Ht). apply list_elem_of_In, list_elem_of_omap in Hv as (h & Hh & Hv). by exists h, v.
  - intros (h & v & Hh & Hv & Ht). exists v. split; [|done]. apply list_elem_of_In, list_elem_of_omap. by exists h.
Qed.

Lemma stamp_again m e s e' s' :
  0 <= e' -> 0 <= s' ->
  apply_session_timer_headers (apply_session_timer_headers m e' s') e s = apply_session_timer_headers m e s.
Proof.
  intros He Hs. set (m1 := apply_session_timer_headers m e' s').
  set (T := if has_timer (without_timer m) then [] else ["Supported: timer"]).
  assert (HT : headers (without_timer m1) = insert_before is_length T (headers (without_timer m))).
  { unfold m1. rewrite without_timer_kept, stamped_headers, filter_insert by apply length_is_kept. f_equal.
    - unfold timer_lines. fold T. rewrite List.filter_app. cbn [List.filter].
      assert (kept ("Session-Expires: " +:+ show e') = false) as ->.
      { unfold kept. change ("Session-Expires: " +:+ show e') with ("Session-Expires" +:+ ": " +:+ show e').
        by rewrite is_header_line. }
      assert (kept ("Min-SE: " +:+ show s') = false) as ->.
      { unfold kept. change ("Min-SE: " +:+ show s') with ("Min-SE" +:+ ": " +:+ show s'). by rewrite !is_header_line. }
      unfold T. destruct (has_timer _); [done|]. by vm_compute.
    - rewrite without_timer_kept, filter_filter. apply filterb_ext. intros x. by rewrite andb_diag. }
  assert (Hht : has_timer (without_timer m1) = true).
  { apply has_timer_spec. rewrite HT. unfold T. destruct (has_timer (without_timer m)) eqn:E.
    - apply has_timer_spec in E as (h & v & Hh & Hv). exists h, v. rewrite elem_of_insert. tauto.
    - exists "Supported: timer", "timer". rewrite elem_of_insert. split_and!; [left; left|by vm_compute|by vm_compute]. }
  assert (Hr : headers (apply_session_timer_headers m1 e s) = headers (apply_session_timer_headers m e s)).
  { rewrite !stamped_headers, HT. rewrite insert_twice; [|unfold T; by destruct (has_timer _); vm_compute].
    unfold timer_lines at 1. rewrite Hht. unfold timer_lines. fold T. done. }
  revert Hr. unfold apply_session_timer_headers. cbn [headers set_field]. intros ->. reflexivity.
Qed.

(** The SBC alone negotiates the session interval: the stamped INVITE reads
    back with exactly one Session-Expires and one Min-SE, the given ones, with
    [timer] among its extensions, and with the same start line and body;
    stamping again, with any values, leaves no trace of the first time. *)
Theorem session_timer_stamped raw m e s e' s' :
  parse raw = Ok m -> 0 <= e -> 0 <= s -> 0 <= e' -> 0 <= s' ->
  (exists m', parse (set_session_timer_headers raw e s) = Ok m' /\
    start_line m' = start_line m /\ body m' = body m /\
    header_values "Session-Expires" m' = [show e] /\ header_values "Min-SE" m' = [show s] /\
    has_timer m' = true) /\
  set_session_timer_headers (set_session_timer_headers raw e' s') e s = set_session_timer_headers raw e s.
Proof.
  intros Hm He Hs He' Hs'. unfold set_session_timer_headers. rewrite Hm. split.
  - eexists. split; [apply parse_render_wf, stamped_good; [done..|by eapply parse_well_formed]|].
    split_and!; [done|done|by apply stamped_values|by apply stamped_values|].
    apply has_timer_spec. rewrite stamped_headers. unfold timer_lines.
    destruct (has_timer (without_timer m)) eqn:E.
    + apply has_timer_spec in E as (h & v & Hh & Hv). exists h, v. rewrite elem_of_insert. tauto.
    + exists "Supported: timer", "timer". rewrite elem_of_insert. split_and!; [left; left|by vm_compute|by vm_compute].
  - rewrite parse_render_wf by (apply stamped_good; [done..|by eapply parse_well_formed]). by rewrite stamp_again.
Qed.

(** ** The retry after a 422 *)

(** A 422 is answered at most once by a higher offer: the retried interval
    is at least the trunk's floor, the configured one and the previous offer,
    and the same floor asked again of the new offer is refused, so no sequence
    of 422s with one floor makes the SBC repeat itself. *)
Theorem interval_retry_progress offered floor cfg se min_se :
  session_interval_retry_values offered floor cfg = Some (se, min_se) ->
  90 <= floor <= min_se /\ min_se <= se /\ cfg.1 <= se /\ cfg.2 <= min_se /\
  (forall o, offered = Some o -> o < floor) /\
  session_interval_retry_values (Some se) floor cfg = None.
Proof.
  unfold session_interval_retry_values. destruct (floor <? 90) eqn:E1; [done|].
  destruct (match offered with Some o => floor <=? o | None => false end) eqn:E2; [done|]. intros [= <- <-]. to_prop.
  split_and!; try lia.
  - intros o ->. to_prop. lia.
  - rewrite (proj2 (Z.leb_le _ _)) by lia. done.
Qed.

Module Witness.

Definition stored : string :=
  unlines ["INVITE sip:+33612345678@trunk SIP/2.0"; "Via: SIP/2.0/UDP sbc;branch=z9hG4bK1"; "x: 600"; "Call-ID: c";
           "CSeq: 1 INVITE"; "Content-Length: 3"] (CRLF +:+ "v=0").

Lemma session_timer_stamped_witness :
  exists m', parse (set_session_timer_headers stored 1800 90) = Ok m' /\
    headers m' = ["Via: SIP/2.0/UDP sbc;branch=z9hG4bK1"; "Call-ID: c"; "CSeq: 1 INVITE"; "Supported: timer";
                  "Session-Expires: 1800"; "Min-SE: 90"; "Content-Length: 3"] /\
    header_values "Min-SE" m' = ["90"].
Proof.
  destruct (parse stored) as [m|e] eqn:E; [|vm_compute in E; discriminate].
  destruct (session_timer_stamped stored m 1800 90 1800 90 E) as [(m' & Hp & _ & _ & _ & Hv & _) _]; try discriminate.
  exists m'. split; [exact Hp|]. split; [|exact Hv].
  vm_compute in Hp. injection Hp as <-. reflexivity.
Defined.

Lemma interval_retry_progress_witness : 14400 <= 14400 /\ session_interval_retry_values (Some 14400) 14400 (1800, 90) = None.
Proof.
  destruct (interval_retry_progress (Some 1800) 14400 (1800, 90) 14400 14400 eq_refl) as (_ & H1 & _ & _ & _ & H2).
  exact (conj H1 H2).
Defined.

End Witness.
