(* ===== verification/Edge.v ===== *)
(** * Who is let in (security/mod.rs, sbc/mod.rs, sbc/invite_handler.rs)

    The state the event loop asks before it works on a message: bans, access
    list, rate limits, Digest, the registrar and the policies; the security
    events; and the identity a caller is given. A published event's time is left
    out. *)

From S2P Require Import Prelude Str Bytes Net SipUri Messages.
From S2P Require Ban BanStore Destination UserLimits Acl Dos Auth Registrar Topology.

(** ** Data *)

Inductive SecurityEvent :=
  | BanIssued (ip reason : string) (duration_secs failures : Z) (manual : bool)
  | BanLifted (ip : string) (manual : bool)
  | AuthFailure (ip : string) (username : option string) (method : string)
  | DestinationBlocked (user : option string) (destination rule : string)
  | UserLimitHit (user kind : string) (current limit : Z)
  | IdentityMismatch (ip user claimed method : string).

(** What goes to the event bus. *)
Inductive Published :=
  | Alert (kind detail : string)
  | Registered (aor contact : string) (expires : Z)
  | Unregistered (aor contact reason : string).

Record SecurityManager := mkSecurity {
  bans : Ban.BanManager;
  destinations : Destination.DestinationPolicy;
  user_limits : UserLimits.UserLimitsManager;
  recent_events : list SecurityEvent
}.

#[export] Instance eta_security : Eta SecurityManager := fun s =>
  mkSecurity (bans s) (destinations s) (user_limits s) (recent_events s).

Record SecurityFeaturesConfig := mkFeatures {
  f_ban : Ban.BanConfig;
  f_destinations : Destination.DestinationsConfig;
  f_user_limits : UserLimits.UserLimitsConfig
}.

Definition new (c : SecurityFeaturesConfig) : SecurityManager :=
  mkSecurity (Ban.new (f_ban c)) (Destination.new (f_destinations c)) (UserLimits.new (f_user_limits c)) [].

Definition apply_config (c : SecurityFeaturesConfig) (apply_limit_defaults : bool) (s : SecurityManager) : SecurityManager :=
  let d := f_destinations c in
  let l := f_user_limits c in
  let mx := UserLimits.default_max_concurrent_calls l in
  let cpm := UserLimits.default_max_calls_per_minute l in
  let limits := UserLimits.set_config_defaults mx cpm (UserLimits.set_enabled (UserLimits.cfg_enabled l) (user_limits s)) in
  s <| bans := Ban.set_config (f_ban c) (bans s) |>
    <| destinations :=
         Destination.set_default_country_code (Destination.cfg_country_code d)
           (Destination.set_default_action (eq_ignore_ascii_case (Destination.default_action d) "deny")
              (Destination.set_enabled (Destination.cfg_enabled d) (destinations s))) |>
    <| user_limits := if apply_limit_defaults then UserLimits.set_defaults mx cpm limits else limits |>.

Record IdentityPolicy := mkIdentityPolicy {
  enforce_register_aor : bool;
  served : list string;
  reject_trunk_local_from : bool
}.

Definition default_identity_policy : IdentityPolicy := mkIdentityPolicy true [] false.

Definition policy_from_config (register_aor_check : string) (domains : list string) (trunk_local_from : string) : IdentityPolicy :=
  mkIdentityPolicy (negb (eq_ignore_ascii_case register_aor_check "log"))
    (List.filter (fun d => negb (seqb d "")) (map (fun d => to_ascii_lowercase (trim d)) domains))
    (eq_ignore_ascii_case trunk_local_from "reject").

Record DidMapping := mkDid { did_number : string; did_user : string; did_display_name : option string }.

(** A network of the access list is its text. *)
Record Edge := mkEdge {
  security : SecurityManager;
  acl : @Acl.AclManager string;
  dos : Dos.DosProtector;
  enable_digest_auth : bool;
  auth : option Auth.DigestAuthenticator;
  identity_policy : IdentityPolicy;
  registrar : Registrar.InMemoryRegistrar;
  register_policy : Registrar.RegisterPolicy;
  did_mappings : list DidMapping;
  trunk_ips : list string;
  config_store : bool;
  ban_rows : list BanStore.BanRow;
  published : list Published
}.

#[export] Instance eta_edge : Eta Edge := fun e =>
  mkEdge (security e) (acl e) (dos e) (enable_digest_auth e) (auth e) (identity_policy e) (registrar e) (register_policy e)
    (did_mappings e) (trunk_ips e) (config_store e) (ban_rows e) (published e).

Inductive CallerIdentity := Trunk | Localhost | Local (user : string).

Inductive IdentityVerdict := Forbidden (strike : bool) (why : string) | Challenge (stale : bool) | BadRequest.

(** ** Security events *)

Definition alert_of (ev : SecurityEvent) : Published :=
  match ev with
  | BanIssued ip reason _ _ _ => Alert "ban_issued" (ip +:+ " (" +:+ reason +:+ ")")
  | BanLifted ip _ => Alert "ban_lifted" ip
  | AuthFailure ip _ _ => Alert "auth_failure" ip
  | DestinationBlocked _ d r => Alert "destination_blocked" (d +:+ " (rule " +:+ r +:+ ")")
  | UserLimitHit u k _ _ => Alert "user_limit" (u +:+ " (" +:+ k +:+ ")")
  | IdentityMismatch _ u c m => Alert "identity_mismatch" (u +:+ " claimed " +:+ c +:+ " on " +:+ m)
  end.

(** The last hundred are kept. *)
Definition ring_push (ev : SecurityEvent) (l : list SecurityEvent) : list SecurityEvent :=
  (if (100 <=? length l)%nat then tail l else l) ++ [ev].

Definition emit (ev : SecurityEvent) (e : Edge) : Edge :=
  e <| published := published e ++ [alert_of ev] |>
    <| security := security e <| recent_events := ring_push ev (recent_events (security e)) |> |>.

(** ** Lookups *)

Definition push_domain (out : list string) (d : string) : list string :=
  let d := to_ascii_lowercase (trim d) in
  if negb (seqb d "") && negb (existsb (seqb d) out) then out ++ [d] else out.

Definition served_domains (id : option Topology.SbcIdentity) (e : Edge) : list string :=
  fold_left push_domain
    (match auth e with Some a => [Auth.realm a] | None => [] end ++
     match id with Some i => [Topology.sip_domain i; Topology.public_ip i] | None => [] end ++
     ["127.0.0.1"; "localhost"] ++ served (identity_policy e)) [].

Definition is_local_user (user : string) (registered : list string) (e : Edge) : bool :=
  existsb (seqb user) registered ||
  match auth e with Some a => Auth.user_exists user a | None => false end.

(** [trunk_ips] holds the trunks' addresses as text. *)
Definition source_is_trunk_related (source_ip : string) (e : Edge) : bool :=
  existsb (fun tip =>
    seqb tip source_ip
    || (let tip_prefix := fst <$> rsplit_once "." tip in
        let src_prefix := fst <$> rsplit_once "." source_ip in
        bool_decide (is_Some tip_prefix) && bool_decide (tip_prefix = src_prefix))) (trunk_ips e).

Definition is_trunk_ip (source_ip : string) (e : Edge) : bool := existsb (fun i => seqb i source_ip) (trunk_ips e).

Section env.
(** [std::net] and [ipnetwork]: an address as text, the addresses of a
    network; the hash of the texts of a request; the parser's typed From. *)
Context (ip_text : IpAddr -> string) (show_addr : SocketAddr -> string) (network : string -> option (IpAddr -> bool))
  (fingerprint : list string -> Z) (wall now : Z)
  {HR : HashIter Registrar.RegKey Registrar.Registration}.

Definition record_auth_failure (source : IpAddr) (username : option string) (method : string) (e : Edge)
    : option Ban.BanEntry * Edge :=
  let e := emit (AuthFailure (ip_text source) username method) e in
  let '(banned, b) := Ban.record_failure network ip_text now wall source (method +:+ " auth failures") (bans (security e)) in
  let e := e <| security := security e <| bans := b |> |> in
  (banned,
   match banned with
   | Some entry => emit (BanIssued (ip_text (Ban.banned_ip entry)) (Ban.reason entry) (Ban.remaining_secs wall entry)
                           (Ban.failure_count entry) false) e
   | None => e
   end).

Definition persist_ban (entry : Ban.BanEntry) (e : Edge) : Edge :=
  if config_store e then e <| ban_rows := ban_rows e ++ [BanStore.persist_ban ip_text entry] |> else e.

(** A failed proof: a strike, and the ban it may bring is kept. *)
Definition strike (source : IpAddr) (username : option string) (method : string) (e : Edge) : Edge :=
  let '(banned, e) := record_auth_failure source username method e in
  match banned with Some entry => persist_ban entry e | None => e end.

Definition flag_identity_mismatch (source : SocketAddr) (who claimed : string) (e : Edge) : Edge :=
  emit (IdentityMismatch (ip_text (ip source)) who claimed "INVITE") e.

(** Run the authenticator, if Digest is on and there is one. *)
Definition verify (header method : string) (hashed : list string) (a : Auth.DigestAuthenticator) (e : Edge)
    : result Auth.AuthFailure string * Edge :=
  let '(r, a) := Auth.verify_with (as_secs wall) header method (Some (fingerprint hashed)) a in
  (r, e <| auth := Some a |>).

Definition classify_caller (id : option Topology.SbcIdentity) (request : Request) (source : SocketAddr) (is_localhost trunk : bool)
    (from_user : option string) (e : Edge) : result IdentityVerdict CallerIdentity * Edge :=
  if is_localhost then (Ok Localhost, e)
  else
    let source_ip := ip_text (ip source) in
    let '(here, anywhere) := Registrar.mem_registered_users wall source_ip (registrar e) in
    if trunk then
      match from_user with
      | Some user =>
          let from_raw := default "" (header_of HFrom (rq_headers request)) in
          let served_host := match uri_host from_raw with Some h => existsb (seqb h) (served_domains id e) | None => false end in
          if served_host && is_local_user user anywhere e then
            let e := flag_identity_mismatch source "trunk" (canonical_aor from_raw) e in
            if reject_trunk_local_from (identity_policy e)
            then (Err (Forbidden false ("trunk " +:+ source_ip +:+ " presented local user '" +:+ user +:+ "'")), e)
            else (Ok Trunk, e)
          else (Ok Trunk, e)
      | None => (Ok Trunk, e)
      end
    else
      match here with
      | _ :: _ =>
          let refuse (claimed : string) :=
            (Err (Forbidden false ("registered source " +:+ source_ip +:+ " (" +:+ join "," here +:+ ") presented From '" +:+ claimed +:+ "'")),
             flag_identity_mismatch source (join "," here) claimed e) in
          match from_user with
          | Some u => if existsb (seqb u) here then (Ok (Local u), e) else refuse u
          | None => refuse "?"
          end
      | [] =>
          let unknown :=
            let to_user := header_of HTo (rq_headers request) ≫= uri_user in
            let callee_registered := match to_user with Some u => existsb (seqb u) anywhere | None => false end in
            if callee_registered && source_is_trunk_related source_ip e then (Ok Trunk, e)
            else (Err (Forbidden true ("unregistered source " +:+ show_addr source +:+ " (IP/From/To all unknown)")), e) in
          match from_user with
          | Some user =>
              if is_local_user user anywhere e then
                match (if enable_digest_auth e then auth e else None) with
                | None => (Ok (Local user), e)
                | Some a =>
                    match header_value request "proxy-authorization" with
                    | None => (Err (Challenge false), e)
                    | Some value =>
                        let '(r, e) := verify value "INVITE" [value; show_addr source] a e in
                        match r with
                        | Ok proved =>
                            if seqb proved user then (Ok (Local proved), e)
                            else (Err (Forbidden false ("'" +:+ proved +:+ "' authenticated but presented From '" +:+ user +:+ "'")),
                                  flag_identity_mismatch source proved user e)
                        | Err Auth.Malformed => (Err BadRequest, e)
                        | Err f =>
                            if Auth.is_stale f then (Err (Challenge true), e)
                            else (Err (Forbidden true ("Digest failed: " +:+ Auth.failure_text f)), e)
                        end
                    end
                end
              else unknown
          | None => unknown
          end
      end.
End env.

(** ** The identity a caller is given *)

Section identity.
Context (ip_text : IpAddr -> string) (show_addr : SocketAddr -> string) (fingerprint : list string -> Z) (wall : Z)
  {HR : HashIter Registrar.RegKey Registrar.Registration}.

(** Some unexpired binding of the user; one made from the address. *)
Definition registered (u : string) (e : Edge) (p : Registrar.Registration -> Prop) : Prop :=
  exists k r, Registrar.regs (registrar e) !! k = Some r /\ Registrar.unix_now wall < Registrar.expires_at r /\
    uri_user (Registrar.aor r) = Some u /\ p r.

Lemma unexpired_spec s r :
  r ∈ Registrar.unexpired wall s <-> exists k, Registrar.regs s !! k = Some r /\ Registrar.unix_now wall < Registrar.expires_at r.
Proof.
  unfold Registrar.unexpired. rewrite elem_of_filter_bool, list_elem_of_fmap. split.
  - intros [([k x] & -> & Hk%elem_of_hiter) He]. exists k. split; [done|lia].
  - intros (k & Hk & He). split; [|lia]. exists (k, r). split; [done|]. by apply elem_of_hiter.
Qed.

Lemma users_fold source_ip l here anywhere :
  let acc := foldl (fun acc r => match uri_user (Registrar.aor r) with
                                 | None => acc
                                 | Some user => ((if seqb (Registrar.received_ip r) source_ip then acc.1 ++ [user] else acc.1)%list,
                                                 (acc.2 ++ [user])%list)
                                 end) (here, anywhere) l in
  (forall u, u ∈ acc.1 <-> u ∈ here \/ exists r, r ∈ l /\ uri_user (Registrar.aor r) = Some u /\ Registrar.received_ip r = source_ip) /\
  (forall u, u ∈ acc.2 <-> u ∈ anywhere \/ exists r, r ∈ l /\ uri_user (Registrar.aor r) = Some u).
Proof.
  revert here anywhere. induction l as [|r l IH]; intros here anywhere.
  - split; intros u; (split; [by left|]); intros [H|(r & Hr & _)]; try done; by apply not_elem_of_nil in Hr.
  - cbn [foldl]. destruct (uri_user (Registrar.aor r)) as [v|] eqn:Hv.
    + destruct (IH (if seqb (Registrar.received_ip r) source_ip then here ++ [v] else here)%list (anywhere ++ [v])%list) as [H1 H2].
      split; intros u; [rewrite H1|rewrite H2].
      * destruct (seqb (Registrar.received_ip r) source_ip) eqn:Hs; [apply seqb_true in Hs|].
        -- rewrite elem_of_app, list_elem_of_singleton. split.
           ++ intros [[H|H]|(x & Hx & Hu)]; [by left|subst; right; exists r; split_and!; [by left|done|done]|].
              right. exists x. split; [by right|done].
           ++ intros [H|(x & Hx & Hu & Hi)]; [by left; left|]. apply elem_of_cons in Hx as [->|Hx]; [left; right; congruence|].
              right. by exists x.
        -- split; (intros [H|(x & Hx & Hu & Hi)]; [by left|right]); [exists x; by split; [right|]|].
           apply elem_of_cons in Hx as [->|Hx]; [by rewrite Hi, seqb_refl in Hs|by exists x].
      * rewrite elem_of_app, list_elem_of_singleton. split.
        -- intros [[H|H]|(x & Hx & Hu)]; [by left|subst; right; exists r; split; [by left|done]|]. right. exists x. by split; [right|].
        -- intros [H|(x & Hx & Hu)]; [by left; left|]. apply elem_of_cons in Hx as [->|Hx]; [left; right; congruence|].
           right. by exists x.
    + destruct (IH here anywhere) as [H1 H2]. split; intros u; [rewrite H1|rewrite H2];
        (split; (intros [H|(x & Hx & Hu)]; [by left|right]); [exists x; by split; [right|]|]);
        (apply elem_of_cons in Hx as [->|Hx]; [exfalso; first [congruence|destruct Hu as [Hu _]; congruence]|by exists x]).
Qed.

Lemma registered_users_spec source_ip e :
  let '(here, anywhere) := Registrar.mem_registered_users wall source_ip (registrar e) in
  (forall u, u ∈ here <-> registered u e (fun r => Registrar.received_ip r = source_ip)) /\
  (forall u, u ∈ anywhere <-> registered u e (fun _ => True)).
Proof.
  assert (H := users_fold source_ip (Registrar.unexpired wall (registrar e)) [] []).
  unfold Registrar.mem_registered_users. destruct (foldl _ _ _) as [here anywhere]. destruct H as [H1 H2]. cbn [fst snd] in *.
  split; intros u; [rewrite H1|rewrite H2]; unfold registered; split.
  - intros [Hn|(r & (k & Hk & He)%unexpired_spec & Hu & Hi)]; [by apply not_elem_of_nil in Hn|]. by exists k, r.
  - intros (k & r & Hk & He & Hu & Hi). right. exists r. split; [|done]. apply unexpired_spec. by exists k.
  - intros [Hn|(r & (k & Hk & He)%unexpired_spec & Hu)]; [by apply not_elem_of_nil in Hn|]. by exists k, r.
  - intros (k & r & Hk & He & Hu & _). right. exists r. split; [|done]. apply unexpired_spec. by exists k.
Qed.

Lemma existsb_seqb (u : string) l : existsb (seqb u) l = true <-> u ∈ l.
Proof.
  rewrite existsb_exists. split; [intros (x & Hx & ->%seqb_true); by apply list_elem_of_In|].
  intros H. exists u. split; [by apply list_elem_of_In|apply seqb_refl].
Qed.

(** C11: an INVITE is attributed to a local user only on good grounds: it does
    not come from this host or a trunk, its From names that user, and either
    the user has a live binding made from that address, or nobody has, and
    the request proves by Digest that it is the user's whenever Digest is on. *)
Theorem caller_attributed id request source is_localhost trunk from_user e u e' :
  classify_caller ip_text show_addr fingerprint wall id request source is_localhost trunk from_user e = (Ok (Local u), e') ->
  is_localhost = false /\ trunk = false /\ from_user = Some u /\
  (registered u e (fun r => Registrar.received_ip r = ip_text (ip source)) \/
   (forall v, ~ registered v e (fun r => Registrar.received_ip r = ip_text (ip source))) /\
   (registered u e (fun _ => True) \/ exists a, auth e = Some a /\ Auth.user_exists u a = true) /\
   forall a, enable_digest_auth e = true -> auth e = Some a ->
     exists value, header_value request "proxy-authorization" = Some value /\
       (Auth.verify_with (as_secs wall) value "INVITE" (Some (fingerprint [value; show_addr source])) a).1 = Ok u).
Proof.
  unfold classify_caller. destruct is_localhost; [done|].
  assert (Hr := registered_users_spec (ip_text (ip source)) e).
  destruct (Registrar.mem_registered_users _ _ _) as [here anywhere]. destruct Hr as [Hh Ha].
  destruct trunk; [destruct from_user; [destruct (_ && _); [destruct (reject_trunk_local_from _)|]|]; by intros [= ?]|].
  destruct here as [|h here].
  - destruct from_user as [v|]; [|by destruct (_ && _)].
    destruct (is_local_user v anywhere e) eqn:Hl; [|by destruct (_ && _)].
    assert (Hnone : forall v, ~ registered v e (fun r => Registrar.received_ip r = ip_text (ip source))).
    { intros w Hw. apply Hh in Hw. by apply not_elem_of_nil in Hw. }
    assert (Hloc : registered v e (fun _ => True) \/ exists a, auth e = Some a /\ Auth.user_exists v a = true).
    { unfold is_local_user in Hl. apply orb_true_iff in Hl as [Hl|Hl]; [left; by apply Ha, existsb_seqb|right].
      destruct (auth e) as [a|]; [by exists a|done]. }
    destruct (enable_digest_auth e) eqn:Hd; [|].
    + destruct (auth e) as [a|] eqn:Hau.
      * destruct (header_value request "proxy-authorization") as [value|] eqn:Hv; [|done].
        unfold verify. destruct (Auth.verify_with _ _ _ _ a) as [r a'] eqn:Hver.
        destruct r as [proved|[]]; try done; cbn [Auth.is_stale]; [|done..].
        destruct (seqb proved v) eqn:Hp; [|done]. apply seqb_true in Hp as ->. intros [= -> _].
        split_and!; [done..|]. right. split_and!; [done|done|]. intros a0 _ [= <-]. exists value. by rewrite Hver.
      * intros [= -> _]. split_and!; [done..|]. right. split_and!; [done|done|]. by intros a _ ?.
    + intros [= -> _]. split_and!; [done..|]. right. split_and!; [done|done|]. by intros a ?.
  - destruct from_user as [v|]; [|done]. destruct (existsb (seqb v) (h :: here)) eqn:Hv; [|done].
    intros [= -> _]. split_and!; [done..|]. left. by apply Hh, existsb_seqb.
Qed.
End identity.

Module Witness.
#[local] Existing Instance canonical_iter.

Definition dotted (i : IpAddr) : string := match i with V4 o => join "." (map show o) | V6 _ => "::1" end.
Definition with_port (a : SocketAddr) : string := dotted (ip a) +:+ ":" +:+ show (port a).

(** Alice registered from 10.0.0.1, and calls from there. *)
Definition edge1 : Edge :=
  mkEdge (new (mkFeatures Ban.default_config (Destination.mkConfig true "allow" "33" [] true) (UserLimits.mkConfig true 2 10 [])))
    (Acl.new Acl.Allow) (Dos.new Dos.default_config) true (Some (Auth.new "h" {["alice" := "secret"]}))
    default_identity_policy Registrar.Witness.s1 Registrar.default_policy [] [] true [] [].

Definition phone : SocketAddr := mkAddr (V4 [10; 0; 0; 1]) 5060.
Definition call : Request := mkRequest "INVITE" "sip:bob@x" [(HFrom, "<sip:alice@x>;tag=1")] "".

Definition classify (from_user : string) : result IdentityVerdict CallerIdentity * Edge :=
  classify_caller dotted with_port (fun _ => 0) (secs 1) None call phone false false (Some from_user) edge1.

Lemma caller_attributed_witness :
  (classify "alice").1 = Ok (Local "alice") /\
  (exists why, (classify "bob").1 = Err (Forbidden false why)) /\
  (registered (secs 1) "alice" edge1 (fun r => Registrar.received_ip r = "10.0.0.1") \/ exists a, auth edge1 = Some a).
Proof.
  split; [by vm_compute|]. split; [eexists; by vm_compute|].
  destruct (classify "alice") as [r e'] eqn:Hc. assert (Hr : r = Ok (Local "alice")) by (vm_compute in Hc; congruence). subst r.
  destruct (caller_attributed dotted with_port (fun _ => 0) (secs 1) None call phone false false (Some "alice") edge1 "alice" e' Hc)
    as (_ & _ & _ & [H|_]); [left; exact H|right; by eexists].
Defined.
End Witness.
