(* ===== verification/Hydrate.v ===== *)
(** * From the store to what runs (sbc/hydrate.rs)

    The application of the rows of the store to the authenticator, the DID
    mappings, the trunks, the access list, the destination rules and the
    limits of users. What the store answers to each query is an argument, with
    the answers of a store that works as the instance of interest; the reading
    of a JSON array of strings and of a network, and the resolver, are
    parameters. *)

From S2P Require Import Prelude Str Bytes Net Store.
From S2P Require Acl Auth Destination UserLimits Trunk Edge.

(** ** What the store answers *)

Abbreviation Answer A := (result string A).

Record Answers := mkAnswers {
  q_users : Answer (list UserRow);
  q_dids : Answer (list DidRow);
  q_trunks : Answer (list TrunkRow);
  q_routes : Answer (list RouteRow);
  q_acl_rules : Answer (list AclRuleRow);
  q_destination_rules : Answer (list DestinationRuleRow);
  q_setting : string -> Answer (option string)
}.

Definition answers (db : Db) : Answers :=
  mkAnswers (Ok (list_users db)) (Ok (list_dids db)) (Ok (list_trunks db)) (Ok (list_routes db)) (Ok (list_acl_rules db))
    (Ok (list_destination_rules db)) (fun k => Ok (get_setting_on k db)).

Definition loaded {A} (what : string) (a : Answer A) : sbc_result A :=
  match a with Ok x => Ok x | Err e => Err (EConfig (what +:+ ": " +:+ e)) end.

(** [.ok().flatten()] *)
Definition setting (store : Answers) (k : string) : option string :=
  match q_setting store k with Ok o => o | Err _ => None end.

(** [as i32] *)
Definition as_i32 (z : Z) : Z := let u := wrapw 32 z in if u <? 2 ^ 31 then u else u - 2 ^ 32.

(** ** Users and DIDs *)

Definition ha1_map (rows : list UserRow) : gmap string string :=
  fold_left (fun m r => <[u_username r := ha1 r]> m) (List.filter u_enabled rows) ∅.

Definition apply_users (store : Answers) (a : Auth.DigestAuthenticator)
    : sbc_result (nat * nat * nat) * Auth.DigestAuthenticator :=
  match loaded "load users" (q_users store) with
  | Err e => (Err e, a)
  | Ok rows => let '(n, a) := Auth.set_users_ha1 (ha1_map rows) a in (Ok n, a)
  end.

Definition did_of_row (r : DidRow) : Edge.DidMapping := Edge.mkDid (d_number r) (sip_user r) (d_display_name r).

Definition apply_dids (store : Answers) (dids : list Edge.DidMapping) : sbc_result nat * list Edge.DidMapping :=
  match loaded "load dids" (q_dids store) with
  | Err e => (Err e, dids)
  | Ok rows => let l := map did_of_row (List.filter d_enabled rows) in (Ok (length l), l)
  end.

(** ** Trunks and routes *)

Definition number_format_of (s : string) : Trunk.NumberFormat :=
  let l := to_ascii_lowercase s in
  if seqb l "national" then Trunk.National else if seqb l "local" then Trunk.Local else Trunk.E164.

Definition transport_of_row (s : string) : Trunk.TransportType :=
  let u := to_ascii_uppercase s in
  if seqb u "TCP" then Trunk.TTcp else if seqb u "TLS" then Trunk.TTls
  else if seqb u "WSS" then Trunk.TWss else if seqb u "WS" then Trunk.TWs else Trunk.TUdp.

(** The prefixes of the routes, those not yet there. *)
Definition merge_prefixes (extra own : list string) : list string :=
  fold_left (fun ps p => if bool_decide (p ∈ ps) then ps else ps ++ [p]) extra own.

Section trunks.
Context (json_strings : string -> option (list string)).
Context {HI : HashIter Trunk.TrunkId Trunk.TrunkConfig}.
Context (parse_addr : string -> option SocketAddr) (lookup : string -> option (list SocketAddr)).

Definition strings_of (s : string) : list string := default [] (json_strings s).

Definition trunk_row_to_config (i : Trunk.TrunkId) (row : TrunkRow) (extra_prefixes : list string) : Trunk.TrunkConfig :=
  Trunk.mkTrunk i (t_name row) (t_enabled row) (transport_of_row (t_transport row)) (t_host row) (wrapw 16 (t_port row)) None
    (t_auth_required row) (t_username row) (t_password row) (t_realm row) (strings_of (t_allowed_codecs row)) false
    (wrapw 32 (t_max_concurrent_calls row)) 10 [] (t_register_with_trunk row) (secs (Z.max (t_registration_interval row) 0))
    (wrapw 32 (t_cost_per_minute row)) (wrapw 32 (t_priority row)) (wrapw 32 (t_weight row))
    (merge_prefixes extra_prefixes (strings_of (t_prefix_patterns row))) (number_format_of (t_number_format row))
    (t_country_code row) (t_national_prefix row) (number_format_of <$> t_caller_number_format row)
    (t_caller_number_override row) (t_caller_display_name row) (t_tls_sni row) (t_tls_ca_cert row) (t_tls_verify row)
    (t_tls_client_cert row) (t_tls_client_key row).

Definition extra_for (routes : list RouteRow) (n : string) : list string :=
  map r_prefix (List.filter (fun r => r_enabled r && seqb (r_trunk_name r) n) routes).

(** One row: an update of the trunk of that name, or a new trunk. *)
Definition apply_row (routes : list RouteRow) (i : Trunk.TrunkId) (row : TrunkRow) (tm : Trunk.TrunkManager)
    : bool * Trunk.TrunkManager :=
  let cfg := trunk_row_to_config i row (extra_for routes (t_name row)) in
  match Trunk.find_by_name (t_name row) tm with
  | Some existing =>
      let changed := negb (seqb (Trunk.host existing) (Trunk.host cfg))
                     || negb (Trunk.trunk_port existing =? Trunk.trunk_port cfg) in
      let cfg := if changed then (Trunk.resolve_destination parse_addr lookup cfg).2 else cfg in
      (false, (Trunk.update_trunk_by_name (t_name row) cfg tm).2)
  | None => (true, Trunk.add_trunk (Trunk.resolve_destination parse_addr lookup cfg).2 tm)
  end.

(** [ids]: the identifiers drawn, one for each row. *)
Fixpoint apply_rows (routes : list RouteRow) (ids : list Trunk.TrunkId) (rows : list TrunkRow) (tm : Trunk.TrunkManager)
    : nat * nat * Trunk.TrunkManager :=
  match rows, ids with
  | row :: rows, i :: ids =>
      let '(added, tm) := apply_row routes i row tm in
      let '(a, u, tm) := apply_rows routes ids rows tm in
      if added then (S a, u, tm) else (a, S u, tm)
  | _, _ => (0%nat, 0%nat, tm)
  end.

Definition absent (rows : list TrunkRow) (t : Trunk.TrunkConfig) : bool :=
  negb (existsb (fun r => seqb (t_name r) (Trunk.name t)) rows) && Trunk.enabled t.

Definition disable_absent (rows : list TrunkRow) (tm : Trunk.TrunkManager) : nat * Trunk.TrunkManager :=
  let gone := List.filter (absent rows) (Trunk.list_trunks tm) in
  (length gone, fold_left (fun tm t => (Trunk.disable_trunk (Trunk.id t) tm).2) gone tm).

Definition apply_trunks_and_routes (ids : list Trunk.TrunkId) (store : Answers) (tm : Trunk.TrunkManager)
    : sbc_result (nat * nat * nat) * Trunk.TrunkManager :=
  match loaded "load trunks" (q_trunks store), loaded "load routes" (q_routes store) with
  | Err e, _ | Ok _, Err e => (Err e, tm)
  | Ok rows, Ok routes =>
      let '(a, u, tm) := apply_rows routes ids rows tm in
      let '(d, tm) := disable_absent rows tm in
      (Ok (a, u, d), tm)
  end.
End trunks.

(** ** Access list, destinations, limits *)

Definition acl_action_of (s : string) : Acl.AclAction := if seqb s "deny" then Acl.Deny else Acl.Allow.
Definition acl_direction_of (s : string) : Acl.Direction :=
  if seqb s "inbound" then Acl.Inbound else if seqb s "outbound" then Acl.Outbound else Acl.Both.

Section acl.
Context (parse_net : string -> option string).

(** A row that is not a rule is left out. *)
Definition acl_rule_of_row (now : Z) (row : AclRuleRow) : option (@Acl.AclRule string) :=
  match Acl.rule_new parse_net now (a_id row) (a_id row) (a_cidr row) (acl_action_of (a_action row)) (as_i32 (a_priority row)) with
  | Ok r => Some (Acl.mkRule (Acl.id r) (Acl.name r) (Acl.cidr r) (Acl.action r) (Acl.priority r)
                    (acl_direction_of (a_direction row)) (a_enabled row) (a_comment row) (Acl.updated_at r))
  | Err _ => None
  end.

Definition apply_acl (now : Z) (store : Answers) (acl : @Acl.AclManager string) : sbc_result nat * @Acl.AclManager string :=
  match loaded "load acl" (q_acl_rules store) with
  | Err e => (Err e, acl)
  | Ok rows =>
      let '(count, acl) := Acl.replace_rules (omap (acl_rule_of_row now) rows) acl in
      (Ok count, match setting store ACL_DEFAULT_ACTION with
                 | Some a => Acl.set_default_action (acl_action_of a) acl
                 | None => acl
                 end)
  end.
End acl.

Definition dest_rule_of_row (r : DestinationRuleRow) : Destination.DestinationRule :=
  Destination.mkRule (x_id r) (x_prefix r) (eq_ignore_ascii_case (x_action r) "deny") (x_user r) (x_description r) (x_enabled r).

Definition apply_destinations (store : Answers) (p : Destination.DestinationPolicy) : sbc_result nat * Destination.DestinationPolicy :=
  match loaded "load destination rules" (q_destination_rules store) with
  | Err e => (Err e, p)
  | Ok [] =>
      match loaded "load seed marker" (q_setting store DESTINATION_RULES_SEEDED_AT) with
      | Err e => (Err e, p)
      | Ok (Some _) => (Ok 0%nat, (Destination.replace_rules [] p).2)
      | Ok None => (Ok (length (Destination.rules p)), p)
      end
  | Ok rows => let '(n, p) := Destination.replace_rules (map dest_rule_of_row rows) p in (Ok n, p)
  end.

Definition clamp_u32 (v : Z) : Z := let v := Z.max v 0 in if v <=? u32_max then v else u32_max.

Definition has_limit (r : UserRow) : bool :=
  bool_decide (is_Some (u_max_concurrent_calls r)) || bool_decide (is_Some (u_max_calls_per_minute r)).

Definition override_of_row (r : UserRow) : UserLimits.UserLimits :=
  UserLimits.mkLimits (clamp_u32 <$> u_max_concurrent_calls r) (clamp_u32 <$> u_max_calls_per_minute r).

Definition overrides_of (rows : list UserRow) : gmap string UserLimits.UserLimits :=
  fold_left (fun m r => <[u_username r := override_of_row r]> m) (List.filter has_limit rows) ∅.

Definition setting_u32 (store : Answers) (k : string) : option Z := setting store k ≫= parse_uint u32_max.

Definition apply_user_limits (store : Answers) (l : UserLimits.UserLimitsManager) : sbc_result nat * UserLimits.UserLimitsManager :=
  match loaded "load user limits" (q_users store) with
  | Err e => (Err e, l)
  | Ok rows =>
      let '(count, l) := UserLimits.replace_overrides (overrides_of rows) l in
      (Ok count, match setting_u32 store USER_LIMITS_DEFAULT_CONCURRENT, setting_u32 store USER_LIMITS_DEFAULT_CPM with
                 | Some c, Some m => UserLimits.set_defaults c m l
                 | _, _ => UserLimits.reset_defaults l
                 end)
  end.

(** ** Everything *)

Record RuntimeHandles := mkHandles {
  h_auth : option Auth.DigestAuthenticator;
  h_dids : list Edge.DidMapping;
  h_trunks : Trunk.TrunkManager;
  h_acl : @Acl.AclManager string;
  h_security : Edge.SecurityManager
}.

#[export] Instance handles_eta : Eta RuntimeHandles := fun h =>
  mkHandles (h_auth h) (h_dids h) (h_trunks h) (h_acl h) (h_security h).
#[local] Existing Instance Edge.eta_security.
#[local] Existing Instance Trunk.eta_trunk.
#[local] Existing Instance Trunk.eta_manager.

Section all.
Context (json_strings : string -> option (list string)) (parse_net : string -> option string).
Context {HI : HashIter Trunk.TrunkId Trunk.TrunkConfig}.
Context (parse_addr : string -> option SocketAddr) (lookup : string -> option (list SocketAddr)).

(** One part after the other; the first that fails stops the rest. *)
Definition on_auth (store : Answers) (h : RuntimeHandles) : sbc_result unit * RuntimeHandles :=
  match h_auth h with
  | Some a => let '(r, a) := apply_users store a in (let? _ := r in Ok tt, h <| h_auth := Some a |>)
  | None => (Ok tt, h)
  end.
Definition on_dids (store : Answers) (h : RuntimeHandles) : sbc_result unit * RuntimeHandles :=
  let '(r, d) := apply_dids store (h_dids h) in (let? _ := r in Ok tt, h <| h_dids := d |>).
Definition on_trunks (ids : list Trunk.TrunkId) (store : Answers) (h : RuntimeHandles) : sbc_result unit * RuntimeHandles :=
  let '(r, t) := apply_trunks_and_routes json_strings parse_addr lookup ids store (h_trunks h) in
  (let? _ := r in Ok tt, h <| h_trunks := t |>).
Definition on_acl (now : Z) (store : Answers) (h : RuntimeHandles) : sbc_result unit * RuntimeHandles :=
  let '(r, a) := apply_acl parse_net now store (h_acl h) in (let? _ := r in Ok tt, h <| h_acl := a |>).
Definition on_destinations (store : Answers) (h : RuntimeHandles) : sbc_result unit * RuntimeHandles :=
  let '(r, d) := apply_destinations store (Edge.destinations (h_security h)) in
  (let? _ := r in Ok tt, h <| h_security := h_security h <| Edge.destinations := d |> |>).
Definition on_limits (store : Answers) (h : RuntimeHandles) : sbc_result unit * RuntimeHandles :=
  let '(r, l) := apply_user_limits store (Edge.user_limits (h_security h)) in
  (let? _ := r in Ok tt, h <| h_security := h_security h <| Edge.user_limits := l |> |>).

Fixpoint in_turn (parts : list (RuntimeHandles -> sbc_result unit * RuntimeHandles)) (h : RuntimeHandles)
    : sbc_result unit * RuntimeHandles :=
  match parts with
  | [] => (Ok tt, h)
  | p :: parts => match p h with (Ok _, h) => in_turn parts h | (Err e, h) => (Err e, h) end
  end.

Definition hydrate_all (now : Z) (ids : list Trunk.TrunkId) (store : Answers) (h : RuntimeHandles) : sbc_result unit * RuntimeHandles :=
  in_turn [on_auth store; on_dids store; on_trunks ids store; on_acl now store; on_destinations store; on_limits store] h.
End all.

(** ** Trunks by name *)

Section named.
Context {HI : HashIter Trunk.TrunkId Trunk.TrunkConfig}.

(** A trunk is known by its identifier, and no two have one name. *)
Definition well_named (m : Trunk.TrunkManager) : Prop :=
  Trunk.ids_ok m /\ forall i j t u, Trunk.trunks m !! i = Some t -> Trunk.trunks m !! j = Some u ->
    Trunk.name t = Trunk.name u -> i = j.

Lemma find_by_name_iff n m t : well_named m ->
  Trunk.find_by_name n m = Some t <-> Trunk.trunks m !! Trunk.id t = Some t /\ Trunk.name t = n.
Proof.
  intros [Hi Hn]. split.
  - intros Hf. by destruct (Trunk.find_by_name_spec n m t Hi Hf).
  - intros [Ht Ht']. unfold Trunk.find_by_name. destruct (List.find _ _) as [u|] eqn:Hf.
    + destruct (Trunk.find_by_name_spec n m u Hi Hf) as [Hu Hu']. assert (E : Trunk.id u = Trunk.id t) by (eapply Hn; [done..|congruence]).
      rewrite E in Hu'. congruence.
    + eapply List.find_none in Hf; [by rewrite Ht', seqb_refl in Hf|]. apply list_elem_of_In, list_elem_of_fmap.
      exists (Trunk.id t, t). split; [done|]. by apply elem_of_hiter.
Qed.

Lemma find_by_name_none n m : well_named m -> Trunk.find_by_name n m = None <-> forall i t, Trunk.trunks m !! i = Some t -> Trunk.name t <> n.
Proof.
  intros Hm. destruct Hm as [Hi Hn]. split.
  - intros Hf i t Ht E. assert (Hs : Trunk.find_by_name n m = Some t); [|congruence].
    apply find_by_name_iff; [done|]. by rewrite (Hi i t Ht).
  - intros H. destruct (Trunk.find_by_name n m) as [t|] eqn:Hf; [|done].
    apply find_by_name_iff in Hf as [Ht E]; [|done]. by destruct (H _ t Ht).
Qed.

(** A manager in which one identifier has a new configuration, of a name that
    no other trunk has. *)
Lemma put_trunk m i c : well_named m -> Trunk.id c = i ->
  (forall j t, Trunk.trunks m !! j = Some t -> Trunk.name t = Trunk.name c -> j = i) ->
  forall m', Trunk.trunks m' = <[i := c]> (Trunk.trunks m) ->
  well_named m' /\ Trunk.find_by_name (Trunk.name c) m' = Some c /\
  ((forall t, Trunk.trunks m !! i = Some t -> Trunk.name t = Trunk.name c) ->
   forall n, n <> Trunk.name c -> Trunk.find_by_name n m' = Trunk.find_by_name n m).
Proof.
  intros [Hi Hn] Hc Hu m' Hm'. assert (Hw : well_named m').
  { split.
    - intros j t Ht. rewrite Hm' in Ht. apply lookup_insert_Some in Ht as [[<- <-]|[_ Ht]]; [done|by apply Hi].
    - intros j k t u Ht Hx E. rewrite Hm' in Ht, Hx.
      apply lookup_insert_Some in Ht as [[<- <-]|[? Ht]], Hx as [[<- <-]|[? Hx]]; [done| | |by eapply Hn].
      + symmetry. by apply (Hu k u).
      + by apply (Hu j t). }
  split; [done|]. split.
  - apply find_by_name_iff; [done|]. rewrite Hm', Hc. by rewrite lookup_insert_eq.
  - intros Hold n Hne. apply option_eq. intros t. rewrite !find_by_name_iff by done. rewrite Hm', lookup_insert_Some. split.
    + intros [[[_ <-]|[_ Ht]] <-]; done.
    + intros [Ht <-]. split; [|done]. right. split; [|done]. intros E. rewrite <- E in Ht. by rewrite (Hold t Ht) in Hne.
Qed.
End named.

(** ** The trunks a hydration leaves *)

Section sync.
Context (json_strings : string -> option (list string)).
Context {HI : HashIter Trunk.TrunkId Trunk.TrunkConfig}.
Context (parse_addr : string -> option SocketAddr) (lookup : string -> option (list SocketAddr)).
Context (routes : list RouteRow).

Abbreviation config_of := (trunk_row_to_config json_strings).
Abbreviation find_by_name := Trunk.find_by_name.

(** A trunk runs a row: its identifier and its resolved address apart, it is
    the row's configuration. *)
Definition runs (row : TrunkRow) (t : Trunk.TrunkConfig) : Prop :=
  t <| Trunk.resolved_addr := None |> = config_of (Trunk.id t) row (extra_for routes (t_name row)).

(** Calls are counted on trunks the manager knows. *)
Definition counted_known (counted : gmap string (option string)) (m : Trunk.TrunkManager) : Prop :=
  forall n, find_by_name n m = None -> Trunk.calls_on n counted = 0.

(** What stays of a trunk that was there: its identifier and, at the same
    destination, the address it was resolved to. *)
Definition still (t t' : Trunk.TrunkConfig) : Prop :=
  Trunk.id t' = Trunk.id t /\
  (Trunk.host t' = Trunk.host t -> Trunk.trunk_port t' = Trunk.trunk_port t -> Trunk.resolved_addr t' = Trunk.resolved_addr t).

Lemma still_refl t : still t t.
Proof. done. Qed.

Lemma resolve_runs i row t : t = config_of i row (extra_for routes (t_name row)) ->
  let t' := (Trunk.resolve_destination parse_addr lookup t).2 in runs row t' /\ Trunk.id t' = i /\ Trunk.name t' = t_name row.
Proof.
  intros ->. unfold Trunk.resolve_destination. destruct (parse_addr _); [done|]. by destruct (lookup _) as [[|a l]|].
Qed.

(** What a row does to the manager. *)
Record row_applied (i : Trunk.TrunkId) (row : TrunkRow) (m m' : Trunk.TrunkManager) : Prop := {
  applied_ids : forall j, j <> i -> Trunk.trunks m !! j = None -> Trunk.trunks m' !! j = None;
  applied_named : well_named m';
  applied_runs : exists t, find_by_name (t_name row) m' = Some t /\ runs row t /\
    forall o, find_by_name (t_name row) m = Some o -> still o t;
  applied_others : forall n, n <> t_name row -> find_by_name n m' = find_by_name n m;
  applied_exact : forall counted, Trunk.exact counted m -> counted_known counted m -> Trunk.exact counted m'
}.

Lemma exact_update counted m m' row c o : Trunk.exact counted m -> well_named m' ->
  find_by_name (t_name row) m = Some o -> find_by_name (t_name row) m' = Some c -> Trunk.id c = Trunk.id o ->
  (forall n, n <> t_name row -> find_by_name n m' = find_by_name n m) ->
  (forall i s, Trunk.states m !! i = Some s -> exists s', Trunk.states m' !! i = Some s' /\ Trunk.active_calls s' = Trunk.active_calls s) ->
  Trunk.exact counted m'.
Proof.
  intros [Hi He] Hw Ho Hc Hid Hn Hst. split; [apply Hw|]. intros n t Ht.
  assert (Hs : exists t0, find_by_name n m = Some t0 /\ Trunk.id t = Trunk.id t0).
  { destruct (decide (n = t_name row)) as [->|Hne]; [exists o; split; [done|congruence]|exists t; by rewrite <- Hn]. }
  destruct Hs as (t0 & Ht0 & ->). destruct (He n t0 Ht0) as (s & Hs & <-). apply (Hst _ _ Hs).
Qed.

Lemma update_applied i row m o : well_named m -> find_by_name (t_name row) m = Some o ->
  row_applied i row m (apply_row json_strings parse_addr lookup routes i row m).2.
Proof.
  intros Hw Ho. unfold apply_row. rewrite Ho. set (cfg := config_of i row _).
  set (changed := negb (seqb (Trunk.host o) (Trunk.host cfg)) || negb (Trunk.trunk_port o =? Trunk.trunk_port cfg)).
  set (c0 := if changed then _ else cfg). cbn [snd]. unfold Trunk.update_trunk_by_name. rewrite Ho.
  destruct (resolve_runs i row cfg eq_refl) as (Hr & _ & Hnm). set (c1 := c0 <| Trunk.id := Trunk.id o |>).
  assert (Hc0 : runs row c0 /\ Trunk.name c0 = t_name row) by (unfold c0; destruct changed; done).
  set (c2 := if seqb (Trunk.host c1) (Trunk.host o) && (Trunk.trunk_port c1 =? Trunk.trunk_port o)
             then c1 <| Trunk.resolved_addr := Trunk.resolved_addr o |> else c1).
  destruct Hc0 as [Hc0 Hc0']. assert (Hid : Trunk.id c2 = Trunk.id o) by (unfold c2; by destruct (_ && _)).
  assert (Hc2' : Trunk.name c2 = t_name row) by (unfold c2; by destruct (_ && _)).
  assert (Hc2 : runs row c2).
  { unfold runs. rewrite Hid. transitivity (c1 <| Trunk.resolved_addr := None |>); [unfold c2; by destruct (_ && _)|].
    unfold runs in Hc0. apply (f_equal (fun t => t <| Trunk.id := Trunk.id o |>)) in Hc0. exact Hc0. }
  set (m1 := if negb (Trunk.enabled o) && Trunk.enabled c2 then Trunk.update_state (Trunk.id o) Trunk.clear_cooldowns m else m).
  change (row_applied i row m (m1 <| Trunk.trunks := <[Trunk.id o := c2]> (Trunk.trunks m1) |>)).
  destruct (proj1 (find_by_name_iff _ m o Hw) Ho) as [Hoi Hon].
  assert (Htr : Trunk.trunks m1 = Trunk.trunks m) by (unfold m1; by destruct (negb (Trunk.enabled o) && _)).
  destruct (put_trunk m (Trunk.id o) c2 Hw Hid) with (m' := m1 <| Trunk.trunks := <[Trunk.id o := c2]> (Trunk.trunks m1) |>) as (Hw' & Hf & Hothers).
  { intros j t Ht E. eapply (proj2 Hw); [done..|congruence]. }
  { cbn. by rewrite Htr. }
  rewrite Hc2' in Hf, Hothers. assert (Hoth : forall n, n <> t_name row -> find_by_name n (m1 <| Trunk.trunks := <[Trunk.id o := c2]> (Trunk.trunks m1) |>) = find_by_name n m).
  { apply Hothers. intros t Ht. congruence. }
  split; [|done| |done|].
  - intros j Hj Hm. cbn. rewrite Htr. rewrite lookup_insert_ne; [done|]. intros E. congruence.
  - exists c2. split; [done|]. split; [done|]. intros o' Ho'. assert (o' = o) as -> by congruence. split; [done|].
    assert (Hh : Trunk.host c2 = Trunk.host c1 /\ Trunk.trunk_port c2 = Trunk.trunk_port c1) by (unfold c2; by destruct (_ && _)).
    destruct Hh as [-> ->]. intros Eh Ep. unfold c2. by rewrite Eh, Ep, seqb_refl, Z.eqb_refl.
  - intros counted He _. eapply (exact_update counted m _ row c2 o); [done..|].
    intros j s Hs. cbn. unfold m1. destruct (negb (Trunk.enabled o) && _); [|by exists s]. unfold Trunk.update_state. cbn.
    destruct (decide (Trunk.id o = j)) as [<-|Hne]; [rewrite lookup_alter_eq, Hs; by eexists|rewrite lookup_alter_ne by done; by exists s].
Qed.

Lemma add_applied i row m : well_named m -> Trunk.trunks m !! i = None -> find_by_name (t_name row) m = None ->
  row_applied i row m (apply_row json_strings parse_addr lookup routes i row m).2.
Proof.
  intros Hw Hi Ho. unfold apply_row. rewrite Ho. set (cfg := config_of i row _). cbn [snd].
  destruct (resolve_runs i row cfg eq_refl) as (Hr & Hid & Hnm). set (c := (Trunk.resolve_destination _ _ _).2) in *.
  destruct (put_trunk m i c Hw Hid) with (m' := Trunk.add_trunk c m) as (Hw' & Hf & Hothers).
  { intros j t Ht E. destruct (proj1 (find_by_name_none _ m Hw) Ho j t Ht). congruence. }
  { unfold Trunk.add_trunk. cbn. by rewrite Hid. }
  rewrite Hnm in Hf, Hothers. assert (Hoth := Hothers ltac:(intros t Ht; congruence)).
  split; [|done| |done|].
  - intros j Hj Hm. unfold Trunk.add_trunk. cbn. rewrite lookup_insert_ne; [done|congruence].
  - exists c. split; [done|]. split; [done|]. intros o Ho'. congruence.
  - intros counted [_ He] Hk. split; [apply Hw'|]. intros n t Ht. unfold Trunk.get_state, Trunk.add_trunk. cbn.
    destruct (decide (n = t_name row)) as [->|Hne].
    + assert (t = c) as -> by congruence. rewrite lookup_insert_eq. eexists. split; [done|]. cbn. by rewrite Hk.
    + rewrite Hoth in Ht by done. rewrite lookup_insert_ne; [by apply He|]. rewrite Hid.
      intros E. apply find_by_name_iff in Ht as [Ht _]; [|done]. congruence.
Qed.

Lemma apply_row_applied i row m : well_named m -> Trunk.trunks m !! i = None ->
  row_applied i row m (apply_row json_strings parse_addr lookup routes i row m).2.
Proof.
  intros Hw Hi. destruct (find_by_name (t_name row) m) as [o|] eqn:Ho; [by apply (update_applied i row m o)|by apply add_applied].
Qed.

Record rows_applied (l : list TrunkRow) (m m' : Trunk.TrunkManager) : Prop := {
  all_named : well_named m';
  all_run : forall row, row ∈ l -> exists t, find_by_name (t_name row) m' = Some t /\ runs row t /\
    forall o, find_by_name (t_name row) m = Some o -> still o t;
  all_others : forall n, n ∉ map t_name l -> find_by_name n m' = find_by_name n m;
  all_exact : forall counted, Trunk.exact counted m -> counted_known counted m -> Trunk.exact counted m'
}.

Lemma apply_rows_applied l : forall ids m, well_named m -> NoDup ids -> length ids = length l ->
  (forall i, i ∈ ids -> Trunk.trunks m !! i = None) -> NoDup (map t_name l) ->
  rows_applied l m (apply_rows json_strings parse_addr lookup routes ids l m).2.
Proof.
  induction l as [|row l IH]; intros [|i ids] m Hw Hids Hlen Hfresh Hl; try done.
  { split; try done. intros row Hrow. by apply elem_of_nil in Hrow. }
  cbn [apply_rows]. assert (Ha := apply_row_applied i row m Hw (Hfresh i (list_elem_of_here _ _))).
  destruct (apply_row _ _ _ _ _ _ _) as [b m1]. cbn [snd] in Ha. inversion_clear Hids as [|? ? Hi Hids']. inversion_clear Hl as [|? ? Hrow Hl'].
  destruct Ha as [Hid Hw1 Hr Ho He]. specialize (IH ids m1 Hw1 Hids' ltac:(by injection Hlen)).
  destruct (apply_rows _ _ _ _ _ _ _) as [[a u] m2]. destruct IH as [Hw2 Hr2 Ho2 He2]; [|done|].
  { intros j Hj. apply Hid; [by intros ->|]. apply Hfresh. by right. }
  assert (Hgoal : rows_applied (row :: l) m m2); [|by destruct b]. split; [done| | |].
  - intros r [->|Hin]%elem_of_cons.
    + destruct Hr as (t & Ht & Hrt & Hst). exists t. split; [|done]. by rewrite Ho2.
    + destruct (Hr2 r Hin) as (t & Ht & Hrt & Hst). exists t. split; [done|]. split; [done|]. intros o Hoo. apply Hst.
      rewrite Ho; [done|]. intros E. apply Hrow. rewrite <- E. apply list_elem_of_fmap. by exists r.
  - intros n Hn. cbn [map] in Hn. rewrite not_elem_of_cons in Hn. destruct Hn as [Hn Hn']. rewrite Ho2, Ho; done.
  - intros counted Hc Hk. apply He2; [by apply He|]. intros n Hn. apply Hk.
    destruct (decide (n = t_name row)) as [->|Hne]; [destruct Hr as (t & Ht & _); congruence|]. by rewrite <- Ho.
Qed.

Definition disabled_in (l : list TrunkRow) (t : Trunk.TrunkConfig) : Trunk.TrunkConfig :=
  if absent l t then t <| Trunk.enabled := false |> else t.

Lemma disable_all gone m : Trunk.states (fold_left (fun tm t => (Trunk.disable_trunk (Trunk.id t) tm).2) gone m) = Trunk.states m /\
  forall i, Trunk.trunks (fold_left (fun tm t => (Trunk.disable_trunk (Trunk.id t) tm).2) gone m) !! i =
    (fun t => if bool_decide (i ∈ map Trunk.id gone) then t <| Trunk.enabled := false |> else t) <$> Trunk.trunks m !! i.
Proof.
  revert m. induction gone as [|g gone IH]; intros m.
  { split; [done|]. intros i. rewrite bool_decide_eq_false_2 by apply not_elem_of_nil. cbn. by destruct (Trunk.trunks m !! i). }
  cbn [fold_left]. destruct (IH (Trunk.disable_trunk (Trunk.id g) m).2) as [Hs Ht]. split.
  - rewrite Hs. unfold Trunk.disable_trunk. by destruct (Trunk.trunks m !! Trunk.id g).
  - intros i. rewrite Ht. unfold Trunk.disable_trunk. destruct (Trunk.trunks m !! Trunk.id g) as [t|] eqn:E; cbn [snd Trunk.trunks map].
    + destruct (decide (i = Trunk.id g)) as [->|Hne].
      * cbn. rewrite lookup_insert_eq, E. cbn. f_equal. rewrite (bool_decide_eq_true_2 (_ ∈ _ :: _)) by left. by case_bool_decide.
      * cbn. rewrite lookup_insert_ne by done. destruct (Trunk.trunks m !! i); [|done]. cbn. f_equal.
        rewrite (bool_decide_ext (i ∈ map Trunk.id gone) (i ∈ Trunk.id g :: map Trunk.id gone)); [done|]. rewrite elem_of_cons. tauto.
    + destruct (Trunk.trunks m !! i) eqn:Ei; [|done]. cbn. f_equal.
      rewrite (bool_decide_ext (i ∈ map Trunk.id gone) (i ∈ Trunk.id g :: map Trunk.id gone)); [done|]. rewrite elem_of_cons.
      split; [tauto|]. intros [->|?]; [congruence|done].
Qed.

Lemma disable_absent_found l m : well_named m -> let m' := (disable_absent l m).2 in
  well_named m' /\ (forall n, find_by_name n m' = disabled_in l <$> find_by_name n m) /\ Trunk.states m' = Trunk.states m.
Proof.
  intros Hw. unfold disable_absent. cbn [snd]. set (gone := List.filter _ _). destruct (disable_all gone m) as [Hs Ht].
  set (m' := fold_left _ _ _) in *. assert (Ht' : forall i, Trunk.trunks m' !! i = disabled_in l <$> Trunk.trunks m !! i).
  { intros i. rewrite Ht. destruct (Trunk.trunks m !! i) as [t|] eqn:E; [|done]. cbn. f_equal. unfold disabled_in.
    assert (Hin : i ∈ map Trunk.id gone <-> absent l t = true).
    { rewrite list_elem_of_fmap. unfold gone, Trunk.list_trunks. setoid_rewrite elem_of_filter_bool. setoid_rewrite list_elem_of_fmap. split.
      - intros (u & -> & ([j u'] & -> & Hu) & Ha). apply elem_of_hiter in Hu. cbn in *. rewrite (proj1 Hw j u' Hu) in E. congruence.
      - intros Ha. exists t. split; [by rewrite (proj1 Hw i t E)|]. split; [|done]. exists (i, t). split; [done|]. by apply elem_of_hiter. }
    destruct (absent l t); [by rewrite bool_decide_eq_true_2 by by apply Hin|]. rewrite bool_decide_eq_false_2; [done|]. intros H%Hin. done. }
  assert (Hid : forall t, Trunk.id (disabled_in l t) = Trunk.id t /\ Trunk.name (disabled_in l t) = Trunk.name t).
  { intros t. unfold disabled_in. by destruct (absent l t). }
  assert (Hw' : well_named m').
  { split.
    - intros i t Hi. rewrite Ht' in Hi. apply fmap_Some in Hi as (u & Hu & ->). rewrite (proj1 (Hid u)). by apply (proj1 Hw).
    - intros i j t u Hi Hj. rewrite Ht' in Hi, Hj. apply fmap_Some in Hi as (t0 & Hi & ->), Hj as (u0 & Hj & ->).
      rewrite !(proj2 (Hid _)). by eapply (proj2 Hw). }
  split_and!; [done| |done]. intros n. apply option_eq. intros t. rewrite find_by_name_iff, Ht', !fmap_Some by done. split.
  - intros [(u & Hu & ->) Hn]. exists u. split; [|done]. apply find_by_name_iff; [done|].
    destruct (Hid u) as [Ei En]. rewrite Ei in Hu. by rewrite <- En.
  - intros (u & [Hu Hn]%find_by_name_iff & ->); [|done]. destruct (Hid u) as [-> ->]. split; [by exists u|done].
Qed.
End sync.

(** ** What runs follows the store *)

Section follows.
Context (json_strings : string -> option (list string)) (parse_net : string -> option string).
Context {HI : HashIter Trunk.TrunkId Trunk.TrunkConfig}.
Context (parse_addr : string -> option SocketAddr) (lookup : string -> option (list SocketAddr)).
Abbreviation find_by_name := Trunk.find_by_name.

Record follows (now : Z) (db : Db) (h h' : RuntimeHandles) : Prop := {
  (** The users that are enabled may authenticate, with their hash. *)
  f_users : forall a, h_auth h' = Some a -> forall n,
    Auth.users a !! n = (users db !! n ≫= fun u => if u_enabled u then Some (ha1 u) else None);
  (** The DIDs are the enabled ones, in the order of their numbers. *)
  f_dids : h_dids h' = map did_of_row (List.filter d_enabled (list_dids db));
  (** A trunk of the store runs its row and keeps what it was; another is
      disabled, not removed. *)
  f_trunks : forall n, match trunks db !! n with
    | Some row => exists t, find_by_name n (h_trunks h') = Some t /\ runs json_strings (list_routes db) row t /\
        forall o, find_by_name n (h_trunks h) = Some o -> still o t
    | None => find_by_name n (h_trunks h') = (fun t => t <| Trunk.enabled := false |>) <$> find_by_name n (h_trunks h)
    end;
  (** The rules of the access list that can be read. *)
  f_acl : forall i, Acl.rules (h_acl h') !! i = (acl_rules db !! i ≫= acl_rule_of_row parse_net now);
  f_acl_default : Acl.default_action (h_acl h')
    = match settings db !! ACL_DEFAULT_ACTION with Some a => acl_action_of a | None => Acl.default_action (h_acl h) end;
  (** The rules of destinations, once the store is seeded. *)
  f_destinations : Destination.rules (Edge.destinations (h_security h'))
    = if bool_decide (destination_rules db = ∅) && bool_decide (settings db !! DESTINATION_RULES_SEEDED_AT = None)
      then Destination.rules (Edge.destinations (h_security h)) else map dest_rule_of_row (list_destination_rules db);
  (** The limits of users, and the default ones when both are set. *)
  f_overrides : forall n, UserLimits.overrides (Edge.user_limits (h_security h')) !! n
    = (users db !! n ≫= fun u => if has_limit u then Some (override_of_row u) else None);
  f_defaults : UserLimits.defaults (Edge.user_limits (h_security h'))
    = match setting_u32 (answers db) USER_LIMITS_DEFAULT_CONCURRENT, setting_u32 (answers db) USER_LIMITS_DEFAULT_CPM with
      | Some c, Some m => (c, m) | _, _ => UserLimits.config_defaults (Edge.user_limits (h_security h)) end
}.

Lemma row_listed db row : schema db -> row ∈ list_trunks db <-> trunks db !! t_name row = Some row.
Proof. intros Hs. unfold list_trunks. rewrite elem_of_order_by. apply elem_of_keyed, (trunks_keyed db Hs). Qed.

Lemma trunks_follow db ids tm : schema db -> well_named tm -> NoDup ids -> length ids = length (list_trunks db) ->
  (forall i, i ∈ ids -> Trunk.trunks tm !! i = None) ->
  exists r tm', apply_trunks_and_routes json_strings parse_addr lookup ids (answers db) tm = (Ok r, tm') /\ well_named tm' /\
    (forall n, match trunks db !! n with
       | Some row => exists t, find_by_name n tm' = Some t /\ runs json_strings (list_routes db) row t /\
           forall o, find_by_name n tm = Some o -> still o t
       | None => find_by_name n tm' = (fun t => t <| Trunk.enabled := false |>) <$> find_by_name n tm
       end) /\
    (forall counted, Trunk.exact counted tm -> counted_known counted tm -> Trunk.exact counted tm').
Proof.
  intros Hs Hw Hids Hlen Hfresh. unfold apply_trunks_and_routes. cbn [loaded answers q_trunks q_routes].
  destruct (apply_rows_applied json_strings parse_addr lookup (list_routes db) (list_trunks db) ids tm Hw Hids Hlen Hfresh) as [Hw1 Hr1 Ho1 He1].
  { apply keyed_nodup, (trunks_keyed db Hs). }
  destruct (apply_rows _ _ _ _ _ _ _) as [[a u] tm1]. cbn [snd] in *.
  destruct (disable_absent_found (list_trunks db) tm1 Hw1) as (Hw2 & Hf2 & Hst). cbv zeta in Hf2, Hst.
  destruct (disable_absent (list_trunks db) tm1) as [d tm2]. cbn [snd] in *. exists (a, u, d), tm2. split; [done|]. split; [done|].
  assert (Hlisted : forall t, existsb (fun r => seqb (t_name r) (Trunk.name t)) (list_trunks db) = bool_decide (is_Some (trunks db !! Trunk.name t))).
  { intros t. apply eq_true_iff_eq. rewrite bool_decide_eq_true, List.existsb_exists. split.
    - intros (row & Hrow & E%seqb_true). apply list_elem_of_In, row_listed in Hrow; [|done]. rewrite <- E. by eexists.
    - intros [row Hrow]. assert (E := trunks_keyed db Hs _ _ Hrow). exists row. split; [|by rewrite E, seqb_refl].
      apply list_elem_of_In, row_listed; [done|]. by rewrite E. }
  split.
  - intros n. rewrite Hf2. destruct (trunks db !! n) as [row|] eqn:En.
    + assert (E := trunks_keyed db Hs _ _ En). rewrite <- E. destruct (Hr1 row) as (t & Ht & Hrt & Hst'); [apply row_listed; congruence|].
      exists t. rewrite Ht. cbn. split; [|done]. f_equal. unfold disabled_in, absent. rewrite Hlisted.
      apply find_by_name_iff in Ht as [_ ->]; [|done]. by rewrite E, bool_decide_eq_true_2 by (rewrite En; by eexists).
    + rewrite Ho1. 2: { intros (row & -> & Hrow%row_listed)%list_elem_of_fmap; [congruence|done]. }
      destruct (find_by_name n tm) as [t|] eqn:Ht; [|done]. cbn. f_equal. unfold disabled_in, absent. rewrite Hlisted.
      apply find_by_name_iff in Ht as [_ Hn]; [|done]. 
      assert (Hx : bool_decide (is_Some (trunks db !! Trunk.name t)) = false).
      { apply bool_decide_eq_false_2. rewrite Hn, En. by intros [? ?]. }
      rewrite Hx. cbn [negb andb]. destruct (Trunk.enabled t) eqn:Et; [done|]. destruct t; cbn in *. by subst.
  - intros counted Hc Hk. destruct (He1 counted Hc Hk) as [_ He]. split; [apply Hw2|]. intros n t Ht. rewrite Hf2 in Ht.
    apply fmap_Some in Ht as (o & Ho & ->). destruct (He n o Ho) as (s & Hs' & Ha). exists s. split; [|done].
    unfold Trunk.get_state in *. rewrite Hst. unfold disabled_in. by destruct (absent _ o).
Qed.

Lemma acl_follow now db i : schema db ->
  fold_left (fun rs r => <[Acl.id r := r]> rs) (omap (acl_rule_of_row parse_net now) (list_acl_rules db))
    (∅ : gmap string (@Acl.AclRule string)) !! i
  = (acl_rules db !! i ≫= acl_rule_of_row parse_net now).
Proof.
  intros Hs. change (fold_left _ ?l ∅) with (put_all (@Acl.id string) l ∅).
  assert (Hid : forall row r, acl_rule_of_row parse_net now row = Some r -> Acl.id r = a_id row).
  { intros row r. unfold acl_rule_of_row, Acl.rule_new, Acl.parse_cidr. destruct (parse_net _); [|done]. by intros [= <-]. }
  assert (Hin : forall r, r ∈ omap (acl_rule_of_row parse_net now) (list_acl_rules db) <->
    (acl_rules db !! Acl.id r ≫= acl_rule_of_row parse_net now) = Some r).
  { intros r. rewrite list_elem_of_omap. unfold list_acl_rules. setoid_rewrite elem_of_order_by. split.
    - intros (row & Hrow & E). apply (elem_of_keyed a_id) in Hrow; [|intros k x Hx; by destruct (acl_keyed db Hs k x Hx)].
      rewrite (Hid row r E), Hrow. exact E.
    - intros (row & Hrow & E)%bind_Some. exists row. split; [|done]. apply elem_of_rows. by exists (Acl.id r). }
  apply option_eq. intros r. split.
  - intros [Hr <-]%put_all_lookup. by apply Hin.
  - intros Hr. apply bind_Some in Hr as Hr'. destruct Hr' as (row & Hrow & E).
    assert (Ei : Acl.id r = i) by (rewrite (Hid row r E); by destruct (acl_keyed db Hs i row Hrow)).
    rewrite <- Ei. apply put_all_found; [apply Hin; by rewrite Ei|]. intros x y Hx%Hin Hy%Hin Exy. congruence.
Qed.

Lemma filtered_users db p n : schema db ->
  put_all u_username (List.filter p (list_users db)) ∅ !! n = (users db !! n ≫= fun r => if p r then Some r else None).
Proof. intros Hs. apply put_filtered, (users_keyed db Hs). Qed.

Lemma collected_users {B} db p (f : UserRow -> B) n : schema db ->
  fold_left (fun m r => <[u_username r := f r]> m) (List.filter p (list_users db)) (∅ : gmap string B) !! n
  = (users db !! n ≫= fun r => if p r then Some (f r) else None).
Proof.
  intros Hs. rewrite (put_values u_username f), lookup_fmap, filtered_users by done. destruct (users db !! n) as [u|]; [|done].
  cbn. by destruct (p u).
Qed.

Lemma users_follow db a : schema db -> exists c a', apply_users (answers db) a = (Ok c, a') /\
  forall n, Auth.users a' !! n = (users db !! n ≫= fun u => if u_enabled u then Some (ha1 u) else None).
Proof. intros Hs. do 2 eexists. split; [reflexivity|]. intros n. by apply collected_users. Qed.

Lemma acl_applied now db a : schema db -> exists c a', apply_acl parse_net now (answers db) a = (Ok c, a') /\
  (forall i, Acl.rules a' !! i = (acl_rules db !! i ≫= acl_rule_of_row parse_net now)) /\
  Acl.default_action a' = match settings db !! ACL_DEFAULT_ACTION with Some x => acl_action_of x | None => Acl.default_action a end.
Proof.
  intros Hs. unfold apply_acl. cbn [answers q_acl_rules loaded Acl.replace_rules]. do 2 eexists. split; [reflexivity|].
  unfold setting. cbn [q_setting answers]. unfold get_setting_on.
  destruct (settings db !! ACL_DEFAULT_ACTION); split; try done; intros i; by apply acl_follow.
Qed.

Lemma rows_nil {A} (m : gmap string A) cmp : order_by cmp (rows m) = [] <-> m = ∅.
Proof.
  unfold order_by, rows. split.
  - intros E. assert (Hp : merge_sort (not_after cmp) (map_to_list m).*2 ≡ₚ (map_to_list m).*2) by apply merge_sort_Permutation.
    rewrite E in Hp. apply Permutation_nil in Hp. apply fmap_nil_inv in Hp. by apply map_to_list_empty_iff.
  - intros ->. by rewrite map_to_list_empty.
Qed.

Lemma destinations_applied db p : exists c p', apply_destinations (answers db) p = (Ok c, p') /\
  Destination.rules p' = if bool_decide (destination_rules db = ∅) && bool_decide (settings db !! DESTINATION_RULES_SEEDED_AT = None)
                         then Destination.rules p else map dest_rule_of_row (list_destination_rules db).
Proof.
  unfold apply_destinations. cbn [answers q_destination_rules q_setting loaded]. unfold get_setting_on.
  destruct (list_destination_rules db) as [|r l] eqn:E.
  - assert (destination_rules db = ∅) as -> by by apply rows_nil in E. rewrite bool_decide_eq_true_2 by done. cbn [andb].
    destruct (settings db !! _) as [x|] eqn:Es.
    + do 2 eexists. split; [reflexivity|]. by rewrite bool_decide_eq_false_2.
    + do 2 eexists. split; [reflexivity|]. by rewrite bool_decide_eq_true_2.
  - rewrite bool_decide_eq_false_2; [by do 2 eexists|]. intros Hm. apply (rows_nil _ (then_by (on x_user (opt_compare String.compare)) (then_by (on x_prefix String.compare) (on x_id String.compare)))) in Hm.
    unfold list_destination_rules in E. congruence.
Qed.

Lemma limits_applied db l : schema db -> exists c l', apply_user_limits (answers db) l = (Ok c, l') /\
  (forall n, UserLimits.overrides l' !! n = (users db !! n ≫= fun u => if has_limit u then Some (override_of_row u) else None)) /\
  UserLimits.defaults l' = match setting_u32 (answers db) USER_LIMITS_DEFAULT_CONCURRENT, setting_u32 (answers db) USER_LIMITS_DEFAULT_CPM with
    | Some c, Some m => (c, m) | _, _ => UserLimits.config_defaults l end.
Proof.
  intros Hs. unfold apply_user_limits. cbn [answers q_users loaded UserLimits.replace_overrides]. do 2 eexists. split; [reflexivity|].
  destruct (setting_u32 (answers db) USER_LIMITS_DEFAULT_CONCURRENT), (setting_u32 (answers db) USER_LIMITS_DEFAULT_CPM); split; try done; intros n; by apply collected_users.
Qed.

Lemma hydrate_ok (now : Z) (ids : list Trunk.TrunkId) (db : Db) (h : RuntimeHandles) :
  schema db -> well_named (h_trunks h) ->
  NoDup ids -> length ids = length (list_trunks db) -> (forall i, i ∈ ids -> Trunk.trunks (h_trunks h) !! i = None) ->
  exists h', hydrate_all json_strings parse_net parse_addr lookup now ids (answers db) h = (Ok tt, h') /\ follows now db h h' /\
    well_named (h_trunks h') /\
    (forall counted, Trunk.exact counted (h_trunks h) -> counted_known counted (h_trunks h) -> Trunk.exact counted (h_trunks h')).
Proof.
  intros Hs Hw Hids Hlen Hfresh. destruct (trunks_follow db ids (h_trunks h) Hs Hw Hids Hlen Hfresh) as (r & tm & Ht & Hw' & Hrun & Hex).
  destruct (acl_applied now db (h_acl h) Hs) as (c1 & acl & Ha & Ha1 & Ha2).
  destruct (destinations_applied db (Edge.destinations (h_security h))) as (c2 & ds & Hd & Hd1).
  destruct (limits_applied db (Edge.user_limits (h_security h)) Hs) as (c3 & lim & Hl & Hl1 & Hl2).
  assert (Hu : exists o, on_auth (answers db) h = (Ok tt, mkHandles o (h_dids h) (h_trunks h) (h_acl h) (h_security h)) /\
    forall a, o = Some a -> forall n, Auth.users a !! n = (users db !! n ≫= fun u => if u_enabled u then Some (ha1 u) else None)).
  { unfold on_auth. destruct h as [[a|] ? ? ? ?]; cbn [h_auth]; [|by exists None].
    destruct (users_follow db a Hs) as (c & a' & -> & Hn). exists (Some a'). split; [done|]. by intros ? [= <-]. }
  destruct Hu as (o & Ho & Hou).
  exists (mkHandles o (map did_of_row (List.filter d_enabled (list_dids db))) tm acl (Edge.mkSecurity (Edge.bans (h_security h)) ds lim (Edge.recent_events (h_security h)))).
  split; [|by split; [split|]]. unfold hydrate_all. cbn [in_turn]. rewrite Ho.
  set (d := map did_of_row _). set (sec := h_security h) in *.
  assert (H1 : on_dids (answers db) (mkHandles o (h_dids h) (h_trunks h) (h_acl h) sec) = (Ok tt, mkHandles o d (h_trunks h) (h_acl h) sec)) by done.
  assert (H2 : on_trunks json_strings parse_addr lookup ids (answers db) (mkHandles o d (h_trunks h) (h_acl h) sec)
    = (Ok tt, mkHandles o d tm (h_acl h) sec)) by (unfold on_trunks; cbn [h_trunks]; by rewrite Ht).
  assert (H3 : on_acl parse_net now (answers db) (mkHandles o d tm (h_acl h) sec) = (Ok tt, mkHandles o d tm acl sec))
    by (unfold on_acl; cbn [h_acl]; by rewrite Ha).
  assert (H4 : on_destinations (answers db) (mkHandles o d tm acl sec)
    = (Ok tt, mkHandles o d tm acl (Edge.mkSecurity (Edge.bans sec) ds (Edge.user_limits sec) (Edge.recent_events sec))))
    by (unfold on_destinations; cbn [h_security]; by rewrite Hd).
  rewrite H1, H2, H3, H4. unfold on_limits. cbn [h_security Edge.user_limits]. by rewrite Hl.
Qed.

(** An authenticator stays one. *)
Lemma auth_stays (now : Z) (ids : list Trunk.TrunkId) (store : Answers) (h : RuntimeHandles) :
  is_Some (h_auth h) -> is_Some (h_auth (hydrate_all json_strings parse_net parse_addr lookup now ids store h).2).
Proof.
  assert (H : forall parts h, Forall (fun p => forall h, is_Some (h_auth h) -> is_Some (h_auth (p h).2)) parts ->
    is_Some (h_auth h) -> is_Some (h_auth (in_turn parts h).2)).
  { induction parts as [|p parts IH]; intros h0 HF Hh; [done|]. inversion_clear HF as [|? ? Hp HF']. cbn [in_turn].
    specialize (Hp h0 Hh). destruct (p h0) as [[[]|e] h1]; [by apply IH|done]. }
  intros Hh. apply H; [|done]. repeat constructor; intros h0 H0.
  - unfold on_auth. destruct H0 as [a Ha]. rewrite Ha. destruct (apply_users store a). by eexists.
  - unfold on_dids. by destruct (apply_dids _ _).
  - unfold on_trunks. by destruct (apply_trunks_and_routes _ _ _ _ _ _).
  - unfold on_acl. by destruct (apply_acl _ _ _ _).
  - unfold on_destinations. by destruct (apply_destinations _ _).
  - unfold on_limits. by destruct (apply_user_limits _ _).
Qed.

(** C22: with a store that answers, a hydration succeeds, and what runs then follows the store: users, DIDs, trunks, rules and
    limits are those of its rows; trunks keep their identifier, their calls and, at the same destination, their resolved
    address, and the trunks the store does not have are disabled. *)
Theorem hydrated_follows (now : Z) (ids : list Trunk.TrunkId) (db : Db) (h : RuntimeHandles) :
  schema db -> well_named (h_trunks h) ->
  NoDup ids -> length ids = length (list_trunks db) -> (forall i, i ∈ ids -> Trunk.trunks (h_trunks h) !! i = None) ->
  exists h', hydrate_all json_strings parse_net parse_addr lookup now ids (answers db) h = (Ok tt, h') /\ follows now db h h' /\
    well_named (h_trunks h') /\
    (forall counted, Trunk.exact counted (h_trunks h) -> counted_known counted (h_trunks h) -> Trunk.exact counted (h_trunks h')).
Proof. apply hydrate_ok. Qed.
End follows.

(** ** Concrete instances *)

Module Witness.

#[local] Instance iter : HashIter Trunk.TrunkId Trunk.TrunkConfig := canonical_iter _ _.

Definition row (n h : string) (on : bool) : TrunkRow :=
  mkTrunkRow n on h 5060 "udp" false None None None false 300 "x" 100 100 0 "national" None None None None None
    "y" 100 None None true None None.

Definition strings (s : string) : option (list string) := Some [s].
Definition net (s : string) : option string := if seqb s "" then None else Some s.
Definition addr (s : string) : option SocketAddr := None.
Definition resolver (s : string) : option (list SocketAddr) := None.

Definition db : Db :=
  mkDb {["alice" := mkUserRow "alice" "hash" "realm" None true (Some 2) None]} ∅
    {["pstn" := row "pstn" "trunk.example.com" true]} ∅ 0
    {["r1" := mkAclRow "r1" "203.0.113.0/24" "deny" "inbound" 10 true None]} ∅ {[ACL_DEFAULT_ACTION := "deny"]}.

Lemma db_schema : schema db.
Proof.
  split; unfold db; cbn; intros *; rewrite ?lookup_empty; try done.
  - by intros [<- <-]%lookup_singleton_Some.
  - by intros [<- <-]%lookup_singleton_Some.
  - by intros [<- <-]%lookup_singleton_Some.
Qed.

(** A manager with a trunk the store does not have. *)
Definition stale : Trunk.TrunkConfig := trunk_row_to_config strings 1 (row "stale" "old.example.com" true) [].
Definition before : RuntimeHandles :=
  mkHandles (Some (Auth.mkAuth "realm" ∅ 300 ∅)) [] (Trunk.add_trunk stale Trunk.new) Acl.new_permissive
    (Edge.mkSecurity (Ban.new (Ban.mkBanConfig false 5 60 60 2 3600 false [])) (Destination.mkPolicy [] false "33" true 0)
       (UserLimits.mkLimitsManager true (10, 60) (10, 60) ∅ ∅) []).

Lemma before_only i t : Trunk.trunks (h_trunks before) !! i = Some t -> i = 1 /\ t = stale.
Proof. change (Trunk.trunks (h_trunks before)) with ({[1 := stale]} : gmap Trunk.TrunkId Trunk.TrunkConfig). by intros [-> ->]%lookup_singleton_Some. Qed.

Lemma before_named : well_named (h_trunks before).
Proof.
  split.
  - intros i t Ht. by destruct (before_only i t Ht) as [-> ->].
  - intros i j t u Ht Hu _. destruct (before_only i t Ht) as [-> _]. by destruct (before_only j u Hu) as [-> _].
Qed.

Lemma hydrated_follows_witness :
  schema db /\ well_named (h_trunks before) /\ NoDup [7] /\ length [7] = length (list_trunks db) /\
  (forall i, i ∈ [7] -> Trunk.trunks (h_trunks before) !! i = None) /\
  exists h', hydrate_all strings net addr resolver 5 [7] (answers db) before = (Ok tt, h') /\ follows strings net 5 db before h' /\
    well_named (h_trunks h') /\
    (forall counted, Trunk.exact counted (h_trunks before) -> counted_known counted (h_trunks before) -> Trunk.exact counted (h_trunks h')).
Proof.
  assert (Hn : NoDup [7]) by (constructor; [apply not_elem_of_nil|constructor]).
  assert (Hl : length [7] = length (list_trunks db)) by (vm_compute; reflexivity).
  assert (Hf : forall i, i ∈ [7] -> Trunk.trunks (h_trunks before) !! i = None) by (intros i ->%list_elem_of_singleton; vm_compute; reflexivity).
  split_and!; [exact db_schema|exact before_named|exact Hn|exact Hl|exact Hf|].
  apply (hydrated_follows strings net addr resolver 5 [7] db before db_schema before_named Hn Hl Hf).
Defined.

(** The stale trunk is disabled, the stored one added; a second hydration
    updates. *)
Lemma stale_disabled :
  let '(r, h1) := hydrate_all strings net addr resolver 5 [7] (answers db) before in
  Trunk.enabled <$> Trunk.find_by_name "stale" (h_trunks h1) = Some false /\
  Trunk.id <$> Trunk.find_by_name "pstn" (h_trunks h1) = Some 7 /\
  (apply_trunks_and_routes strings addr resolver [8] (answers db) (h_trunks h1)).1 = Ok (0, 1, 0)%nat.
Proof. vm_compute. repeat split; reflexivity. Qed.
End Witness.
