(* ===== verification/Seed.v ===== *)
(** * The first boot (sbc/import.rs)

    The rows the configuration file seeds the store with: users, DIDs and
    trunks where their tables are empty, destination rules and the limits of
    users once. Any call to the store may fail. Printing a list of strings as
    JSON is a parameter; the users of the file are a map, read in any order. *)

From S2P Require Import Prelude Str Store.
From S2P Require BanStore Auth Destination UserLimits Edge Hydrate Net Trunk.

(** ** The configuration, as far as it seeds *)

Record TrunkConfigToml := mkTrunkToml {
  toml_name : string;
  toml_enabled : bool;
  toml_host : string;
  toml_port : Z;
  toml_transport : string;
  toml_auth_required : bool;
  toml_username : option string;
  toml_password : option string;
  toml_realm : option string;
  toml_register_with_trunk : bool;
  toml_registration_interval : Z;
  toml_prefix_patterns : list string;
  toml_priority : Z;
  toml_cost_per_minute : Z;
  toml_weight : Z;
  toml_number_format : string;
  toml_country_code : option string;
  toml_national_prefix : option string;
  toml_caller_number_format : option string;
  toml_caller_number_override : option string;
  toml_caller_display_name : option string;
  toml_allowed_codecs : list string;
  toml_max_concurrent_calls : Z
}.

Record SeedConfig := mkSeeds {
  sip_realm : string;
  sip_users : gmap string string;
  cfg_dids : list Edge.DidMapping;
  cfg_trunks : list TrunkConfigToml;
  cfg_destinations : Destination.DestinationsConfig;
  cfg_user_limits : UserLimits.UserLimitsConfig
}.

(** [as i64] of a [u64]. *)
Definition as_i64 (z : Z) : Z := let u := wrapw 64 z in if u <? 2 ^ 63 then u else u - 2 ^ 64.

Definition now_rfc3339 (t : Z) : string := BanStore.systemtime_rfc3339 t.

(** ** Calls to the store *)

(** The store, and the number of calls made to it. *)
Record Link := mkLink { ldb : Db; calls : nat }.

Section seed.
Context (fault : nat -> bool) (json_text : list string -> string).
Context {HU : HashIter string string}.

Definition call {A} (m : Tx A) (l : Link) : result StoreError A * Link :=
  if fault (calls l) then (Err (Database "I/O error"), mkLink (ldb l) (S (calls l)))
  else let '(r, db) := m (ldb l) in (r, mkLink db (S (calls l))).

(** Rows stored one after the other; the number that were. *)
Fixpoint store_rows {R} (up : R -> Tx bool) (rs : list R) (l : Link) : nat * Link :=
  match rs with
  | [] => (0%nat, l)
  | r :: rs =>
      match call (up r) l with
      | (Ok _, l) => let '(n, l) := store_rows up rs l in (S n, l)
      | (Err _, l) => store_rows up rs l
      end
  end.

Definition seed_table {R} (t : Table) (up : R -> Tx bool) (rs : list R) (l : Link) : nat * Link :=
  match call (tread (table_is_empty t)) l with
  | (Ok true, l) => store_rows up rs l
  | (_, l) => (0%nat, l)
  end.

Definition user_seed (realm : string) (e : string * string) : UserRow :=
  mkUserRow e.1 (Auth.compute_ha1 e.1 realm e.2) realm None true None None.

Definition did_seed (d : Edge.DidMapping) : DidRow :=
  mkDidRow (Edge.did_number d) (Edge.did_user d) (Edge.did_display_name d) true.

Definition trunk_seed (t : TrunkConfigToml) : TrunkRow :=
  mkTrunkRow (toml_name t) (toml_enabled t) (toml_host t) (toml_port t) (toml_transport t) (toml_auth_required t)
    (toml_username t) (toml_password t) (toml_realm t) (toml_register_with_trunk t) (as_i64 (toml_registration_interval t))
    (json_text (toml_prefix_patterns t)) (toml_priority t) (toml_weight t) (toml_cost_per_minute t) (toml_number_format t)
    (toml_country_code t) (toml_national_prefix t) (toml_caller_number_format t) (toml_caller_number_override t)
    (toml_caller_display_name t) (json_text (toml_allowed_codecs t)) (toml_max_concurrent_calls t) None None true None None.

Definition first_boot_import (now : Z) (c : SeedConfig) (l : Link) : (nat * nat * nat) * Link :=
  let '(u, l) := seed_table Users upsert_user_on (map (user_seed (sip_realm c)) (hiter (sip_users c))) l in
  let '(d, l) := seed_table Dids upsert_did_on (map did_seed (cfg_dids c)) l in
  let '(t, l) := seed_table Trunks upsert_trunk_on (map trunk_seed (cfg_trunks c)) l in
  let l := if bool_decide ((u, d, t) = (0%nat, 0%nat, 0%nat)) then l
           else (call (set_setting_on "toml_imported_at" (now_rfc3339 now)) l).2 in
  ((u, d, t), l).

(** ** The rules and limits *)

Definition rule_seed (i : nat) (r : Destination.DestinationRuleToml) : DestinationRuleRow :=
  mkDestRow ("cfg-" +:+ show (Z.of_nat i)) (Destination.toml_prefix r)
    (if eq_ignore_ascii_case (Destination.toml_action r) "deny" then "deny" else "allow") (Destination.toml_user r)
    (Destination.toml_description r) true.

Definition irsf_seed (pd : string * string) : DestinationRuleRow :=
  mkDestRow ("irsf" +:+ pd.1) pd.1 "deny" None pd.2 true.

Definition rule_seeds (d : Destination.DestinationsConfig) : list DestinationRuleRow :=
  let rs := imap rule_seed (Destination.cfg_rules d) in
  if Destination.seed_irsf_rules d && negb (existsb (fun r => seqb (x_action r) "deny") rs)
  then rs ++ map irsf_seed Destination.IRSF_SEED else rs.

(** The marker is written when every row was stored. *)
Definition seed_destinations (now : Z) (d : Destination.DestinationsConfig) (l : Link) : Link :=
  match call (tread (get_setting_on DESTINATION_RULES_SEEDED_AT)) l with
  | (Ok None, l) =>
      let rs := rule_seeds d in
      let '(n, l) := store_rows upsert_destination_rule_on rs l in
      if Nat.eqb n (length rs) then (call (set_setting_on DESTINATION_RULES_SEEDED_AT (now_rfc3339 now)) l).2 else l
  | (_, l) => l
  end.

(** One override: whether it failed. *)
Definition seed_override (o : string * UserLimits.UserLimits) (l : Link) : bool * Link :=
  match call (tread (get_user o.1)) l with
  | (Ok (Some u), l) =>
      if bool_decide (u_max_concurrent_calls u = None) && bool_decide (u_max_calls_per_minute u = None) then
        match call (set_user_limits o.1 (UserLimits.max_concurrent_calls o.2) (UserLimits.max_calls_per_minute o.2)) l with
        | (Ok _, l) => (false, l)
        | (Err _, l) => (true, l)
        end
      else (false, l)
  | (Ok None, l) => (false, l)
  | (Err _, l) => (true, l)
  end.

Fixpoint seed_overrides (os : list (string * UserLimits.UserLimits)) (l : Link) : nat * Link :=
  match os with
  | [] => (0%nat, l)
  | o :: os =>
      let '(failed, l) := seed_override o l in
      let '(n, l) := seed_overrides os l in
      ((if failed : bool then S n else n), l)
  end.

Definition seed_user_limits (now : Z) (c : UserLimits.UserLimitsConfig) (l : Link) : Link :=
  match call (tread (get_setting_on USER_LIMITS_SEEDED_AT)) l with
  | (Ok None, l) =>
      let '(failed, l) := seed_overrides (UserLimits.cfg_overrides c) l in
      if Nat.eqb failed 0 then (call (set_setting_on USER_LIMITS_SEEDED_AT (now_rfc3339 now)) l).2 else l
  | (_, l) => l
  end.

Definition seed_security (now : Z) (c : SeedConfig) (l : Link) : Link :=
  seed_user_limits now (cfg_user_limits c) (seed_destinations now (cfg_destinations c) l).
End seed.

(** ** Lemmas *)

Section lemmas.
Context (fault : nat -> bool) (json_text : list string -> string).
Context {HU : HashIter string string}.

(** Whatever fails, what a call may do is what its operation does. *)
Lemma call_cases {A} (m : Tx A) l r l' : call fault m l = (r, l') ->
  (exists e, r = Err e /\ ldb l' = ldb l) \/ (r, ldb l') = m (ldb l).
Proof.
  unfold call. destruct (fault (calls l)); [intros [= <- <-]; left; by eexists|]. destruct (m (ldb l)) as [x db] eqn:E.
  intros [= <- <-]. by right.
Qed.

Lemma call_reads {A} (f : Db -> A) l : ldb (call fault (tread f) l).2 = ldb l.
Proof. unfold call. by destruct (fault (calls l)). Qed.

(** Rows stored touch their table only. *)
Lemma store_rows_frame {R X} (up : R -> Tx bool) (part : Db -> X) rs l : (forall r db, part (up r db).2 = part db) ->
  part (ldb (store_rows fault up rs l).2) = part (ldb l).
Proof.
  intros Hup. revert l. induction rs as [|r rs IH]; intros l; [done|]. cbn [store_rows].
  destruct (call fault (up r) l) as [x l'] eqn:E. assert (Hl : part (ldb l') = part (ldb l)).
  { apply call_cases in E as [(e & _ & ->)|E]; [done|]. by rewrite <- (Hup r (ldb l)), <- E. }
  destruct x; [|by rewrite IH]. specialize (IH l'). destruct (store_rows fault up rs l') as [n l'']. cbn in *. by rewrite IH.
Qed.

Lemma stored_at_most {R} (up : R -> Tx bool) rs l : ((store_rows fault up rs l).1 <= length rs)%nat.
Proof.
  revert l. induction rs as [|r rs IH]; intros l; [done|]. cbn [store_rows length]. destruct (call fault (up r) l) as [[b|e] l'].
  - specialize (IH l'). destruct (store_rows fault up rs l') as [n l'']. cbn in *. lia.
  - specialize (IH l'). lia.
Qed.

(** When every row was stored, the table has them over what it had. *)
Lemma all_stored rs l : length rs = (store_rows fault upsert_destination_rule_on rs l).1 ->
  destination_rules (ldb (store_rows fault upsert_destination_rule_on rs l).2) = put_all x_id rs (destination_rules (ldb l)).
Proof.
  revert l. induction rs as [|r rs IH]; intros l; [done|]. cbn [store_rows length].
  destruct (call fault (upsert_destination_rule_on r) l) as [[b|e] l'] eqn:E.
  - specialize (IH l'). destruct (store_rows _ _ rs l') as [n l'']. cbn [fst snd] in *. intros [= Hn]. rewrite IH by done.
    apply call_cases in E as [(e & [=] & _)|E]. unfold upsert_destination_rule_on in E. destruct (known_action _); [|done].
    injection E as _ E. by rewrite E.
  - intros Hn. assert (Hle := stored_at_most upsert_destination_rule_on rs l'). lia.
Qed.

Lemma rule_ids d : NoDup (map x_id (rule_seeds d)).
Proof.
  assert (Hcfg : NoDup (map x_id (imap rule_seed (Destination.cfg_rules d))) /\
    forall i, i ∈ map x_id (imap rule_seed (Destination.cfg_rules d)) -> exists n, i = "cfg-" +:+ show n).
  { generalize (Destination.cfg_rules d) as rs. intros rs. change (map ?f ?l) with (f <$> l). rewrite fmap_imap. split.
    - apply NoDup_alt. intros i j x Hi Hj. rewrite list_lookup_imap in Hi, Hj.
      destruct (rs !! i); [|done]. destruct (rs !! j); [|done]. cbn in Hi, Hj. injection Hi as <-. injection Hj as E.
      apply (inj (String.app _)) in E. apply (inj pretty) in E. lia.
    - intros i Hi. apply elem_of_lookup_imap in Hi as (n & x & -> & _). by eexists. }
  unfold rule_seeds. destruct (_ && _); [|apply Hcfg]. rewrite map_app. apply NoDup_app. destruct Hcfg as [H1 H2]. split_and!; [done| |].
  - intros i Hi. destruct (H2 i Hi) as [n ->]. cbn. rewrite !not_elem_of_cons. by split_and!; [..|apply not_elem_of_nil].
  - vm_compute. repeat (constructor; [rewrite ?not_elem_of_cons; split_and?; try done; apply not_elem_of_nil|]). constructor.
Qed.
End lemmas.

Section once.
Context (fault : nat -> bool) (json_text : list string -> string).
Context {HU : HashIter string string}.

Lemma call_frame {A X} (m : Tx A) (part : Db -> X) l : (forall db, part (m db).2 = part db) ->
  part (ldb (call fault m l).2) = part (ldb l).
Proof.
  intros Hm. destruct (call fault m l) as [r l'] eqn:E. apply call_cases in E as [(e & _ & E)|E]; cbn; [by rewrite E|].
  by rewrite <- (Hm (ldb l)), <- E.
Qed.

Lemma overrides_frame {X} (part : Db -> X) os l : (forall n c m db, part (set_user_limits n c m db).2 = part db) ->
  part (ldb (seed_overrides fault os l).2) = part (ldb l).
Proof.
  intros Hp. revert l. induction os as [|o os IH]; intros l; [done|]. cbn [seed_overrides].
  assert (Ho : part (ldb (seed_override fault o l).2) = part (ldb l)).
  { unfold seed_override. destruct (call fault (tread (get_user o.1)) l) as [r l1] eqn:E1.
    assert (H1 : ldb l1 = ldb l) by (rewrite <- (call_reads fault (get_user o.1) l); by rewrite E1).
    destruct r as [[u|]|e]; [|by rewrite <- H1..]. destruct (_ && _); [|by rewrite <- H1]. rewrite <- H1.
    assert (H2 := call_frame (set_user_limits o.1 (UserLimits.max_concurrent_calls o.2) (UserLimits.max_calls_per_minute o.2)) part l1 (Hp _ _ _)).
    destruct (call _ _ l1) as [[b|e] l2]; exact H2. }
  destruct (seed_override fault o l) as [b l1]. cbn in Ho. specialize (IH l1). destruct (seed_overrides fault os l1) as [n l2].
  cbn in *. congruence.
Qed.

(** What seeding the rules does to the rules, and what it leaves alone. *)
Lemma destinations_seeded now d l : let l' := seed_destinations fault now d l in
  users (ldb l') = users (ldb l) /\
  settings (ldb l') !! USER_LIMITS_SEEDED_AT = settings (ldb l) !! USER_LIMITS_SEEDED_AT /\
  (is_Some (settings (ldb l) !! DESTINATION_RULES_SEEDED_AT) -> destination_rules (ldb l') = destination_rules (ldb l)) /\
  (settings (ldb l) !! DESTINATION_RULES_SEEDED_AT = None -> is_Some (settings (ldb l') !! DESTINATION_RULES_SEEDED_AT) ->
   destination_rules (ldb l') = put_all x_id (rule_seeds d) (destination_rules (ldb l))).
Proof.
  unfold seed_destinations. destruct (call fault (tread (get_setting_on DESTINATION_RULES_SEEDED_AT)) l) as [r l1] eqn:E1.
  assert (H1 : ldb l1 = ldb l) by (rewrite <- (call_reads fault (get_setting_on DESTINATION_RULES_SEEDED_AT) l); by rewrite E1).
  destruct r as [[v|]|e]; [| |].
  - rewrite H1. split_and!; try done. intros ->. by intros [].
  - apply call_cases in E1 as [(e & [=] & _)|E1]. unfold tread, get_setting_on in E1. injection E1 as E1 _.
    rewrite <- H1 in E1 |- *. rewrite <- E1. set (rs := rule_seeds d).
    assert (Hf : forall X (part : Db -> X), (forall r db, part (upsert_destination_rule_on r db).2 = part db) ->
      part (ldb (store_rows fault upsert_destination_rule_on rs l1).2) = part (ldb l1)) by (intros; by apply store_rows_frame).
    assert (Hup : forall r db, users (upsert_destination_rule_on r db).2 = users db /\ settings (upsert_destination_rule_on r db).2 = settings db).
    { intros r db. unfold upsert_destination_rule_on. by destruct (known_action _). }
    assert (Hu := Hf _ users (fun r db => proj1 (Hup r db))). assert (Hs := Hf _ settings (fun r db => proj2 (Hup r db))).
    assert (Hall := all_stored fault rs l1). destruct (store_rows fault _ rs l1) as [n l2]. cbn [fst snd] in *.
    destruct (Nat.eqb n (length rs)) eqn:En.
    + apply Nat.eqb_eq in En. split_and!.
      * rewrite <- Hu. by apply call_frame.
      * rewrite <- Hs. apply (call_frame _ (fun db => settings db !! USER_LIMITS_SEEDED_AT)). intros db. cbn. by rewrite lookup_insert_ne.
      * by intros [].
      * intros _ _. rewrite (call_frame _ destination_rules) by done. by apply Hall.
    + split_and!; [done|by rewrite Hs|by intros []|]. intros _. rewrite Hs, <- E1. by intros [].
  - rewrite H1. split_and!; try done. intros ->. by intros [].
Qed.

Lemma limits_seeded now c l : let l' := seed_user_limits fault now c l in
  destination_rules (ldb l') = destination_rules (ldb l) /\
  settings (ldb l') !! DESTINATION_RULES_SEEDED_AT = settings (ldb l) !! DESTINATION_RULES_SEEDED_AT /\
  (is_Some (settings (ldb l) !! USER_LIMITS_SEEDED_AT) -> users (ldb l') = users (ldb l)).
Proof.
  unfold seed_user_limits. destruct (call fault (tread (get_setting_on USER_LIMITS_SEEDED_AT)) l) as [r l1] eqn:E1.
  assert (H1 : ldb l1 = ldb l) by (rewrite <- (call_reads fault (get_setting_on USER_LIMITS_SEEDED_AT) l); by rewrite E1).
  destruct r as [[v|]|e]; [by rewrite H1| |by rewrite H1].
  apply call_cases in E1 as [(e & [=] & _)|E1]. unfold tread, get_setting_on in E1. injection E1 as E1 _. rewrite <- H1 in E1 |- *.
  assert (Hd := overrides_frame destination_rules (UserLimits.cfg_overrides c) l1 (fun _ _ _ _ => eq_refl)).
  assert (Hs := overrides_frame settings (UserLimits.cfg_overrides c) l1 (fun _ _ _ _ => eq_refl)).
  destruct (seed_overrides fault _ l1) as [n l2]. cbn [fst snd] in *. destruct (Nat.eqb n 0).
  - split_and!.
    + rewrite <- Hd. by apply call_frame.
    + rewrite <- Hs. apply (call_frame _ (fun db => settings db !! DESTINATION_RULES_SEEDED_AT)). intros db. cbn. by rewrite lookup_insert_ne.
    + rewrite <- E1. by intros [].
  - split_and!; [done|by rewrite Hs|]. rewrite <- E1. by intros [].
Qed.

Lemma table_seeded {R X} t (up : R -> Tx bool) rs (part : Db -> X) l :
  table_is_empty t (ldb l) = false \/ (forall r db, part (up r db).2 = part db) ->
  part (ldb (seed_table fault t up rs l).2) = part (ldb l).
Proof.
  intros H. unfold seed_table. destruct (call fault (tread (table_is_empty t)) l) as [r l1] eqn:E.
  assert (H1 : ldb l1 = ldb l) by (rewrite <- (call_reads fault (table_is_empty t) l); by rewrite E).
  destruct r as [[]|e]; [|by rewrite <- H1..]. destruct H as [H|H].
  - apply call_cases in E as [(e & [=] & _)|E]. unfold tread in E. rewrite H in E. done.
  - rewrite <- H1. by apply store_rows_frame.
Qed.

(** What the import of the first boot leaves of a part of the store. *)
Lemma import_frame {X} (part : Db -> X) now c l :
  (table_is_empty Users (ldb l) = false \/ forall r db, part (upsert_user_on r db).2 = part db) ->
  (table_is_empty Dids (ldb l) = false \/ forall r db, part (upsert_did_on r db).2 = part db) ->
  (table_is_empty Trunks (ldb l) = false \/ forall r db, part (upsert_trunk_on r db).2 = part db) ->
  (forall k v db, part (set_setting_on k v db).2 = part db) ->
  part (ldb (first_boot_import fault json_text now c l).2) = part (ldb l).
Proof.
  intros Hu Hd Ht Hm. unfold first_boot_import. set (us := map _ (hiter _)). set (ds := map did_seed _). set (ts := map (trunk_seed json_text) _).
  assert (U1 := table_seeded Users upsert_user_on us part l Hu).
  assert (D1 := table_seeded Users upsert_user_on us dids l (or_intror (fun _ _ => eq_refl))).
  assert (T1 := table_seeded Users upsert_user_on us trunks l (or_intror (fun _ _ => eq_refl))).
  destruct (seed_table fault Users upsert_user_on us l) as [u l1]. cbn [fst snd] in *.
  assert (U2 := table_seeded Dids upsert_did_on ds part l1). assert (T2 := table_seeded Dids upsert_did_on ds trunks l1 (or_intror (fun _ _ => eq_refl))).
  destruct (seed_table fault Dids upsert_did_on ds l1) as [d l2]. cbn [fst snd] in *.
  assert (U3 := table_seeded Trunks upsert_trunk_on ts part l2). destruct (seed_table fault Trunks upsert_trunk_on ts l2) as [t l3]. cbn [fst snd] in *.
  assert (U : part (ldb l3) = part (ldb l)).
  { rewrite U3, U2; [done| |]; unfold table_is_empty in *; [by rewrite D1|by rewrite T2, T1]. }
  case_bool_decide; [done|]. rewrite <- U. apply call_frame. by intros db.
Qed.

(** C23: whatever calls to the store fail, the seeds of the configuration do not return once the store has its own: a table of
    users, DIDs or trunks with a row is not imported into, marked rules and limits are not seeded again, and the rules are
    marked only when every one of them was stored. *)
Theorem seeds_do_not_return (now : Z) (c : SeedConfig) (l : Link) :
  let first := ldb (first_boot_import fault json_text now c l).2 in
  let seeded := ldb (seed_security fault now c l) in
  (users (ldb l) <> ∅ -> users first = users (ldb l)) /\
  (dids (ldb l) <> ∅ -> dids first = dids (ldb l)) /\
  (trunks (ldb l) <> ∅ -> trunks first = trunks (ldb l)) /\
  destination_rules first = destination_rules (ldb l) /\
  (is_Some (settings (ldb l) !! DESTINATION_RULES_SEEDED_AT) -> destination_rules seeded = destination_rules (ldb l)) /\
  (is_Some (settings (ldb l) !! USER_LIMITS_SEEDED_AT) -> users seeded = users (ldb l)) /\
  (settings (ldb l) !! DESTINATION_RULES_SEEDED_AT = None -> is_Some (settings seeded !! DESTINATION_RULES_SEEDED_AT) ->
   destination_rules seeded = put_all x_id (rule_seeds (cfg_destinations c)) (destination_rules (ldb l))).
Proof.
  cbv zeta. unfold seed_security. destruct (destinations_seeded now (cfg_destinations c) l) as (H1 & H2 & H3 & H4).
  destruct (limits_seeded now (cfg_user_limits c) (seed_destinations fault now (cfg_destinations c) l)) as (H5 & H6 & H7).
  split_and!.
  - intros Hu. apply (import_frame users); auto. left. by apply bool_decide_eq_false_2.
  - intros Hd. apply (import_frame dids); auto. left. by apply bool_decide_eq_false_2.
  - intros Ht. apply (import_frame trunks); auto. left. by apply bool_decide_eq_false_2.
  - apply (import_frame destination_rules); auto.
  - rewrite H5. exact H3.
  - intros Hm. rewrite H7; [done|]. by rewrite H2.
  - rewrite H5, H6. exact H4.
Qed.
End once.

(** ** What every operation of a seeding respects, the seeding respects *)

Section respects.
Context (fault : nat -> bool) (json_text : list string -> string).
Context {HU : HashIter string string}.
Context (rel : Db -> Db -> Prop) `{!PreOrder rel}.

Lemma call_rel {A} (m : Tx A) l : (forall db, rel db (m db).2) -> rel (ldb l) (ldb (call fault m l).2).
Proof.
  intros Hm. destruct (call fault m l) as [r l'] eqn:E. apply call_cases in E as [(e & _ & E)|E]; cbn; [by rewrite E|].
  specialize (Hm (ldb l)). by rewrite <- E in Hm.
Qed.

Lemma rows_rel {R} (up : R -> Tx bool) rs l : (forall r db, rel db (up r db).2) -> rel (ldb l) (ldb (store_rows fault up rs l).2).
Proof.
  intros Hup. revert l. induction rs as [|r rs IH]; intros l; [reflexivity|]. cbn [store_rows].
  assert (H1 := call_rel (up r) l (Hup r)). destruct (call fault (up r) l) as [x l1]. cbn in H1. specialize (IH l1).
  destruct x; [|by transitivity (ldb l1)]. destruct (store_rows fault up rs l1) as [n l2]. cbn in *. by transitivity (ldb l1).
Qed.

Lemma table_rel {R} t (up : R -> Tx bool) rs l : (forall r db, rel db (up r db).2) -> rel (ldb l) (ldb (seed_table fault t up rs l).2).
Proof.
  intros Hup. unfold seed_table. assert (H1 := call_rel (tread (table_is_empty t)) l (fun db => reflexivity db)).
  destruct (call fault _ l) as [x l1]. cbn in H1. destruct x as [[]|e]; [|done..]. transitivity (ldb l1); [done|by apply rows_rel].
Qed.

Lemma import_rel now c l : (forall r db, rel db (upsert_user_on r db).2) -> (forall r db, rel db (upsert_did_on r db).2) ->
  (forall r db, rel db (upsert_trunk_on r db).2) -> (forall v db, rel db (set_setting_on "toml_imported_at" v db).2) ->
  rel (ldb l) (ldb (first_boot_import fault json_text now c l).2).
Proof.
  intros Hu Hd Ht Hm. unfold first_boot_import. set (us := map _ (hiter _)). set (ds := map did_seed _). set (ts := map (trunk_seed json_text) _).
  assert (H1 := table_rel Users upsert_user_on us l Hu). destruct (seed_table fault Users _ us l) as [u l1].
  assert (H2 := table_rel Dids upsert_did_on ds l1 Hd). destruct (seed_table fault Dids _ ds l1) as [d l2].
  assert (H3 := table_rel Trunks upsert_trunk_on ts l2 Ht). destruct (seed_table fault Trunks _ ts l2) as [t l3]. cbn [fst snd] in *.
  assert (H : rel (ldb l) (ldb l3)) by (transitivity (ldb l1); [done|]; by transitivity (ldb l2)).
  case_bool_decide; [done|]. transitivity (ldb l3); [done|]. by apply call_rel.
Qed.

Lemma security_rel now c l : (forall r db, rel db (upsert_destination_rule_on r db).2) ->
  (forall n a b db, rel db (set_user_limits n a b db).2) ->
  (forall k v db, k ∈ [DESTINATION_RULES_SEEDED_AT; USER_LIMITS_SEEDED_AT] -> rel db (set_setting_on k v db).2) ->
  rel (ldb l) (ldb (seed_security fault now c l)).
Proof.
  intros Hr Hl Hm. unfold seed_security.
  assert (H1 : rel (ldb l) (ldb (seed_destinations fault now (cfg_destinations c) l))).
  { unfold seed_destinations. assert (H1 := call_rel (tread (get_setting_on DESTINATION_RULES_SEEDED_AT)) l (fun db => reflexivity db)).
    destruct (call fault _ l) as [[[x|]|e] l1]; [done| |done]. cbn in H1.
    assert (H2 := rows_rel upsert_destination_rule_on (rule_seeds (cfg_destinations c)) l1 Hr). destruct (store_rows fault _ _ l1) as [n l2]. cbn in H2.
    assert (H3 : rel (ldb l) (ldb l2)) by by transitivity (ldb l1). destruct (Nat.eqb _ _); [|done].
    transitivity (ldb l2); [done|]. apply call_rel. intros db. apply Hm. left. }
  transitivity (ldb (seed_destinations fault now (cfg_destinations c) l)); [done|]. generalize (seed_destinations fault now (cfg_destinations c) l) as l0.
  intros l0. unfold seed_user_limits. assert (H2 := call_rel (tread (get_setting_on USER_LIMITS_SEEDED_AT)) l0 (fun db => reflexivity db)).
  destruct (call fault _ l0) as [[[x|]|e] l1]; [done| |done]. cbn in H2.
  assert (Ho : forall o l, rel (ldb l) (ldb (seed_override fault o l).2)).
  { intros o k. unfold seed_override. assert (E := call_rel (tread (get_user o.1)) k (fun db => reflexivity db)).
    destruct (call fault _ k) as [[[u|]|e] k1]; [|done..]. cbn in E. destruct (_ && _); [|done].
    assert (E2 := call_rel (set_user_limits o.1 (UserLimits.max_concurrent_calls o.2) (UserLimits.max_calls_per_minute o.2)) k1 (Hl _ _ _)).
    destruct (call fault _ k1) as [[b|e] k2]; by transitivity (ldb k1). }
  assert (Hos : forall os l, rel (ldb l) (ldb (seed_overrides fault os l).2)).
  { intros os. induction os as [|o os IH]; intros k; [reflexivity|]. cbn [seed_overrides]. specialize (Ho o k).
    destruct (seed_override fault o k) as [b k1]. specialize (IH k1). destruct (seed_overrides fault os k1) as [n k2]. by transitivity (ldb k1). }
  specialize (Hos (UserLimits.cfg_overrides (cfg_user_limits c)) l1). destruct (seed_overrides fault _ l1) as [n l2]. cbn in Hos.
  assert (H3 : rel (ldb l0) (ldb l2)) by by transitivity (ldb l1). destruct (Nat.eqb _ _); [|done].
  transitivity (ldb l2); [done|]. apply call_rel. intros db. apply Hm. right. left.
Qed.
End respects.

Definition same_part {X} (part : Db -> X) (a b : Db) : Prop := part b = part a.
#[export] Instance same_part_preorder {X} (part : Db -> X) : PreOrder (same_part part).
Proof. split; [intros a; exact eq_refl|]. intros a b c E1 E2. unfold same_part in *. congruence. Qed.

Definition in_schema (a b : Db) : Prop := schema a -> schema b.
#[export] Instance in_schema_preorder : PreOrder in_schema.
Proof. split; [intros a Ha; exact Ha|]. intros a b c H1 H2. unfold in_schema in *. tauto. Qed.

(** ** A new store runs what the file says *)

Section fresh.
Context (json_text : list string -> string).
Context {HU : HashIter string string}.
Abbreviation ok := (fun _ : nat => false).

Lemma call_ok {A} (m : Tx A) l : call ok m l = ((m (ldb l)).1, mkLink (m (ldb l)).2 (S (calls l))).
Proof. unfold call. by destruct (m (ldb l)). Qed.

Lemma stored_ok {R} (up : R -> Tx bool) (f : R -> Db -> Db) rs l :
  (forall r db, r ∈ rs -> exists b, up r db = (Ok b, f r db)) ->
  (store_rows ok up rs l).1 = length rs /\ ldb (store_rows ok up rs l).2 = fold_left (fun db r => f r db) rs (ldb l).
Proof.
  revert l. induction rs as [|r rs IH]; intros l Hup; [done|]. cbn [store_rows length fold_left]. rewrite call_ok.
  destruct (Hup r (ldb l)) as [b E]; [left|]. rewrite E. cbn [fst snd].
  destruct (IH (mkLink (f r (ldb l)) (S (calls l)))) as [H1 H2]; [intros; apply Hup; by right|].
  destruct (store_rows ok up rs _) as [n l']. cbn in *. by rewrite H1.
Qed.

Lemma users_stored rs l : users (ldb (store_rows ok upsert_user_on rs l).2) = put_all u_username rs (users (ldb l)).
Proof.
  destruct (stored_ok upsert_user_on (fun r db => db <| users := <[u_username r := r]> (users db) |>) rs l) as [_ ->]; [by eexists|].
  generalize (ldb l) as db. induction rs as [|r rs IH]; intros db; [done|]. cbn [fold_left]. by rewrite IH.
Qed.

Lemma dids_stored rs l : dids (ldb (store_rows ok upsert_did_on rs l).2) = put_all d_number rs (dids (ldb l)).
Proof.
  destruct (stored_ok upsert_did_on (fun r db => db <| dids := <[d_number r := r]> (dids db) |>) rs l) as [_ ->]; [by eexists|].
  generalize (ldb l) as db. induction rs as [|r rs IH]; intros db; [done|]. cbn [fold_left]. by rewrite IH.
Qed.

Lemma seeds_known d r : r ∈ rule_seeds d -> known_action (x_action r) = true.
Proof.
  assert (Hc : forall r, r ∈ imap rule_seed (Destination.cfg_rules d) -> known_action (x_action r) = true).
  { intros x Hx. apply elem_of_lookup_imap in Hx as (i & t & -> & _). unfold rule_seed. cbn. by destruct (eq_ignore_ascii_case _ _). }
  unfold rule_seeds. destruct (_ && _); [|apply Hc]. intros [Hr|Hr]%elem_of_app; [by apply Hc|].
  by apply list_elem_of_fmap in Hr as (pd & -> & _).
Qed.

Lemma rules_stored d l : (store_rows ok upsert_destination_rule_on (rule_seeds d) l).1 = length (rule_seeds d).
Proof.
  apply (stored_ok upsert_destination_rule_on (fun r db => db <| destination_rules := <[x_id r := r]> (destination_rules db) |>)).
  intros r db Hr. unfold upsert_destination_rule_on. rewrite (seeds_known d r Hr). by eexists.
Qed.

Definition fresh (now : Z) (c : SeedConfig) : Db :=
  ldb (seed_security ok now c (first_boot_import ok json_text now c (mkLink empty_db 0)).2).

Lemma users_imported now c : users (ldb (first_boot_import ok json_text now c (mkLink empty_db 0)).2)
  = put_all u_username (map (user_seed (sip_realm c)) (hiter (sip_users c))) ∅.
Proof.
  unfold first_boot_import. set (us := map _ (hiter _)). set (ds := map did_seed _). set (ts := map (trunk_seed json_text) _).
  assert (U1 : users (ldb (seed_table ok Users upsert_user_on us (mkLink empty_db 0)).2) = put_all u_username us ∅).
  { unfold seed_table. rewrite call_ok. cbn -[store_rows]. apply users_stored. }
  destruct (seed_table ok Users _ us _) as [u l1].
  assert (U2 := table_seeded ok Dids upsert_did_on ds users l1 (or_intror (fun _ _ => eq_refl))). destruct (seed_table ok Dids _ ds l1) as [d l2].
  assert (U3 := table_seeded ok Trunks upsert_trunk_on ts users l2 (or_intror (fun _ _ => eq_refl))). destruct (seed_table ok Trunks _ ts l2) as [t l3].
  cbn [fst snd] in *. rewrite <- U1, <- U2, <- U3. case_bool_decide; [done|]. by apply call_frame.
Qed.

Lemma dids_imported now c : dids (ldb (first_boot_import ok json_text now c (mkLink empty_db 0)).2)
  = put_all d_number (map did_seed (cfg_dids c)) ∅.
Proof.
  unfold first_boot_import. set (us := map _ (hiter _)). set (ds := map did_seed _). set (ts := map (trunk_seed json_text) _).
  assert (D1 := table_seeded ok Users upsert_user_on us dids (mkLink empty_db 0) (or_intror (fun _ _ => eq_refl))).
  destruct (seed_table ok Users _ us _) as [u l1]. cbn [fst snd] in D1.
  assert (D2 : dids (ldb (seed_table ok Dids upsert_did_on ds l1).2) = put_all d_number ds ∅).
  { unfold seed_table. rewrite call_ok. unfold tread, table_is_empty at 1. cbn [fst snd]. rewrite bool_decide_eq_true_2 by done.
    rewrite dids_stored. cbn. by rewrite D1. }
  destruct (seed_table ok Dids _ ds l1) as [d l2].
  assert (D3 := table_seeded ok Trunks upsert_trunk_on ts dids l2 (or_intror (fun _ _ => eq_refl))). destruct (seed_table ok Trunks _ ts l2) as [t l3].
  cbn [fst snd] in *. rewrite <- D2, <- D3. case_bool_decide; [done|]. by apply call_frame.
Qed.

Lemma import_settings now c k : k <> "toml_imported_at" ->
  settings (ldb (first_boot_import ok json_text now c (mkLink empty_db 0)).2) !! k = None.
Proof.
  intros Hk. unfold first_boot_import. set (us := map _ (hiter _)). set (ds := map did_seed _). set (ts := map (trunk_seed json_text) _).
  assert (S1 := table_seeded ok Users upsert_user_on us settings (mkLink empty_db 0) (or_intror (fun _ _ => eq_refl))). destruct (seed_table ok Users _ us _) as [u l1].
  assert (S2 := table_seeded ok Dids upsert_did_on ds settings l1 (or_intror (fun _ _ => eq_refl))). destruct (seed_table ok Dids _ ds l1) as [d l2].
  assert (S3 := table_seeded ok Trunks upsert_trunk_on ts settings l2 (or_intror (fun _ _ => eq_refl))). destruct (seed_table ok Trunks _ ts l2) as [t l3].
  cbn [fst snd] in *. assert (S : settings (ldb l3) = ∅) by (by rewrite S3, S2, S1). case_bool_decide; [by rewrite S|].
  rewrite call_ok. cbn. rewrite lookup_insert_ne by done. by rewrite S.
Qed.

Definition limits_of (o : option (string * UserLimits.UserLimits)) (u : UserRow) : UserRow :=
  match o with
  | Some o => with_limits (UserLimits.max_concurrent_calls o.2) (UserLimits.max_calls_per_minute o.2) u
  | None => u
  end.

Lemma put_first {V} (o : string * V) os n : NoDup (map fst (o :: os)) ->
  put_all fst (o :: os) ∅ !! n = if bool_decide (o.1 = n) then Some o else put_all fst os ∅ !! n.
Proof.
  intros Hnd. inversion_clear Hnd as [|? ? Ho Hos]. unfold put_all. cbn [fold_left]. fold (put_all (R := string * V) fst os (<[o.1:=o]> ∅)).
  rewrite put_all_union, lookup_union. fold (put_all (R := string * V) fst os ∅). case_bool_decide as E.
  - rewrite <- E, lookup_insert_eq. destruct (put_all fst os ∅ !! o.1) eqn:Ep; [|done].
    exfalso. apply Ho. apply put_all_dom. by eexists.
  - rewrite lookup_insert_ne, lookup_empty by done. by destruct (put_all fst os ∅ !! n).
Qed.

Lemma overrides_ok os : forall l, NoDup (map fst os) ->
  (forall n u, users (ldb l) !! n = Some u -> n ∈ map fst os -> u_max_concurrent_calls u = None /\ u_max_calls_per_minute u = None) ->
  (seed_overrides ok os l).1 = 0%nat /\
  forall n, users (ldb (seed_overrides ok os l).2) !! n = limits_of (put_all fst os ∅ !! n) <$> users (ldb l) !! n.
Proof.
  induction os as [|o os IH]; intros l Hnd Hu.
  { split; [done|]. intros n. cbn. rewrite lookup_empty. by destruct (users (ldb l) !! n). }
  assert (Ho : exists l1, seed_override ok o l = (false, l1) /\
    forall n, users (ldb l1) !! n = (if bool_decide (o.1 = n) then limits_of (Some o) else fun u => u) <$> users (ldb l) !! n).
  { unfold seed_override. rewrite call_ok. cbn [tread fst snd]. unfold get_user. destruct (users (ldb l) !! o.1) as [u|] eqn:Eu.
    - destruct (Hu o.1 u Eu) as [Hc Hm]; [left|]. rewrite !bool_decide_eq_true_2 by done. cbn [andb]. rewrite call_ok. cbn [set_user_limits fst snd].
      eexists. split; [done|]. intros n. cbn. case_bool_decide as E.
      + by rewrite <- E, lookup_alter_eq, Eu.
      + rewrite lookup_alter_ne by done. by destruct (users (ldb l) !! n).
    - eexists. split; [done|]. intros n. cbn. case_bool_decide as E; [by rewrite <- E, Eu|]. by destruct (users (ldb l) !! n). }
  destruct Ho as (l1 & E & H1). cbn [seed_overrides]. rewrite E. assert (Hnd' := Hnd). inversion_clear Hnd' as [|? ? Hno Hos].
  destruct (IH l1 Hos) as [Hz Hn].
  { intros n u Hn Hin. rewrite H1 in Hn. rewrite bool_decide_eq_false_2 in Hn by (intros E'; apply Hno; by rewrite E').
    apply (Hu n u); [|by right]. by destruct (users (ldb l) !! n). }
  destruct (seed_overrides ok os l1) as [k l2]. cbn [fst snd] in *. split; [done|]. intros n. rewrite Hn, H1, put_first by done.
  destruct (users (ldb l) !! n) as [u|]; [|done]. cbn. f_equal. case_bool_decide as E'; [|done].
  destruct (put_all fst os ∅ !! n) eqn:Ep; [|done]. exfalso. apply Hno. apply put_all_dom. rewrite E', Ep. by eexists.
Qed.

Lemma marked now c l : settings (ldb l) !! DESTINATION_RULES_SEEDED_AT = None ->
  is_Some (settings (ldb (seed_destinations ok now (cfg_destinations c) l)) !! DESTINATION_RULES_SEEDED_AT).
Proof.
  intros Hn. unfold seed_destinations. rewrite call_ok. cbn [tread fst snd]. unfold get_setting_on. rewrite Hn.
  set (l1 := mkLink (ldb l) _). assert (Hs := rules_stored (cfg_destinations c) l1). destruct (store_rows ok _ _ l1) as [n l2]. cbn in Hs.
  rewrite Hs, Nat.eqb_refl, call_ok. cbn. rewrite lookup_insert_eq. by eexists.
Qed.

Lemma fresh_rules now c : destination_rules (fresh now c) = put_all x_id (rule_seeds (cfg_destinations c)) ∅ /\
  users (ldb (seed_destinations ok now (cfg_destinations c) (first_boot_import ok json_text now c (mkLink empty_db 0)).2))
    = put_all u_username (map (user_seed (sip_realm c)) (hiter (sip_users c))) ∅.
Proof.
  set (l := (first_boot_import ok json_text now c (mkLink empty_db 0)).2).
  assert (Hd0 : destination_rules (ldb l) = ∅) by (apply (import_frame ok json_text destination_rules); auto).
  destruct (destinations_seeded ok now (cfg_destinations c) l) as (H1 & _ & _ & H4). unfold fresh, seed_security. fold l.
  destruct (limits_seeded ok now (cfg_user_limits c) (seed_destinations ok now (cfg_destinations c) l)) as (H5 & _ & _).
  split; [|by rewrite H1, <- (users_imported now c)]. rewrite H5, H4, Hd0; [done|by apply import_settings|].
  by apply marked, import_settings.
Qed.

Lemma fresh_users now c n : NoDup (map fst (UserLimits.cfg_overrides (cfg_user_limits c))) ->
  users (fresh now c) !! n = (fun p => limits_of (put_all fst (UserLimits.cfg_overrides (cfg_user_limits c)) ∅ !! n) (user_seed (sip_realm c) (n, p)))
    <$> sip_users c !! n.
Proof.
  intros Hnd. assert (Hseed : forall n, put_all u_username (map (user_seed (sip_realm c)) (hiter (sip_users c))) ∅ !! n
      = (fun p => user_seed (sip_realm c) (n, p)) <$> sip_users c !! n).
  { intros k. apply option_eq. intros r. split.
    - intros [Hr Hk]%put_all_lookup. apply list_elem_of_fmap in Hr as ([k' p] & -> & Hp). apply elem_of_hiter in Hp.
      cbn in Hk. subst k'. by rewrite Hp.
    - intros (p & Hp & ->)%fmap_Some. change k with (u_username (user_seed (sip_realm c) (k, p))). apply put_all_found.
      + apply list_elem_of_fmap. exists (k, p). split; [done|]. by apply elem_of_hiter.
      + intros x y ([k1 p1] & -> & H1)%list_elem_of_fmap ([k2 p2] & -> & H2)%list_elem_of_fmap E. apply elem_of_hiter in H1, H2. cbn in E. congruence. }
  destruct (fresh_rules now c) as [_ Hu]. unfold fresh, seed_security. set (l := (first_boot_import _ _ _ _ _).2) in *.
  set (l1 := seed_destinations _ _ _ _) in *. unfold seed_user_limits. rewrite call_ok. cbn [tread fst snd]. unfold get_setting_on.
  destruct (destinations_seeded ok now (cfg_destinations c) l) as (_ & Hm & _ & _). fold l1 in Hm. rewrite Hm.
  assert (Hn : settings (ldb l) !! USER_LIMITS_SEEDED_AT = None) by by apply import_settings. rewrite Hn.
  set (l2 := mkLink (ldb l1) _). destruct (overrides_ok (UserLimits.cfg_overrides (cfg_user_limits c)) l2 Hnd) as [Hz Hl].
  { intros k u Hk _. change (users (ldb l1) !! k = Some u) in Hk. rewrite Hu, Hseed in Hk. by apply fmap_Some in Hk as (p & _ & ->). }
  destruct (seed_overrides ok _ l2) as [z l3]. cbn [fst snd] in *. rewrite Hz. cbn [Nat.eqb]. rewrite call_ok. cbn [fst snd ldb set_setting_on].
  change (users (ldb l3) !! n = (fun p => limits_of (put_all fst (UserLimits.cfg_overrides (cfg_user_limits c)) ∅ !! n) (user_seed (sip_realm c) (n, p))) <$> sip_users c !! n).
  rewrite Hl. cbn [l2 ldb]. rewrite Hu, Hseed. by destruct (sip_users c !! n).
Qed.

Lemma fresh_schema now c : schema (fresh now c).
Proof.
  apply (security_rel ok in_schema).
  - intros r db. exact (upsert_destination_schema r db).
  - intros n a b db. exact (set_user_limits_schema n a b db).
  - intros k v db _. exact (set_setting_schema k v db).
  - apply (import_rel ok json_text in_schema); [intros r db; exact (upsert_user_schema r db)|
      intros r db; exact (upsert_did_schema r db)|intros r db; exact (upsert_trunk_schema r db)|
      intros v db; exact (set_setting_schema _ v db)|apply empty_schema].
Qed.

Lemma fresh_unset now c k : k ∉ ["toml_imported_at"; DESTINATION_RULES_SEEDED_AT; USER_LIMITS_SEEDED_AT] -> settings (fresh now c) !! k = None.
Proof.
  rewrite !not_elem_of_cons. intros (H1 & H2 & H3 & _). unfold fresh.
  etrans; [apply (security_rel ok (same_part (fun db => settings db !! k)))|by apply import_settings].
  - intros r db. unfold same_part, upsert_destination_rule_on. by destruct (known_action _).
  - done.
  - intros k' v db Hk. unfold same_part. cbn. apply lookup_insert_ne. set_solver.
Qed.

Lemma fresh_marked now c : is_Some (settings (fresh now c) !! DESTINATION_RULES_SEEDED_AT).
Proof.
  unfold fresh, seed_security. set (l := (first_boot_import _ _ _ _ _).2).
  destruct (limits_seeded ok now (cfg_user_limits c) (seed_destinations ok now (cfg_destinations c) l)) as (_ & -> & _).
  by apply marked, import_settings.
Qed.

Lemma fresh_dids now c : dids (fresh now c) = put_all d_number (map did_seed (cfg_dids c)) ∅.
Proof.
  rewrite <- dids_imported with (now := now). apply (security_rel ok (same_part dids)); [|done..].
  intros r db. unfold same_part, upsert_destination_rule_on. by destruct (known_action _).
Qed.

Lemma rows_put_all {R} (key : R -> string) l : NoDup (map key l) -> rows (put_all key l ∅) ≡ₚ l.
Proof.
  induction l as [|r l IH] using rev_ind; intros Hnd.
  { unfold put_all, rows. cbn. by rewrite map_to_list_empty. }
  rewrite map_app in Hnd. apply NoDup_app in Hnd as (Hl & Hr & _). rewrite put_all_snoc. unfold rows in *.
  rewrite map_to_list_insert.
  - cbn. rewrite IH by done. by rewrite (Permutation_app_comm l [r]).
  - destruct (put_all key l ∅ !! key r) eqn:E; [|done]. exfalso. apply (Hr (key r)); [by apply put_all_dom; eexists|]. left.
Qed.

Lemma existsb_map {A B} (f : A -> bool) (g : B -> bool) (h : A -> B) l : (forall x, x ∈ l -> f x = g (h x)) -> existsb f l = existsb g (map h l).
Proof.
  intros H. induction l as [|x l IH]; [done|]. cbn. rewrite H by left. f_equal. apply IH. intros y Hy. apply H. by right.
Qed.

Lemma rules_as_configured d : map Hydrate.dest_rule_of_row (rule_seeds d) = Destination.rules (Destination.new d).
Proof.
  assert (Hi : map Hydrate.dest_rule_of_row (imap rule_seed (Destination.cfg_rules d)) = imap (fun i r => Destination.mkRule ("cfg-" +:+ show (Z.of_nat i))
      (Destination.toml_prefix r) (eq_ignore_ascii_case (Destination.toml_action r) "deny") (Destination.toml_user r) (Destination.toml_description r) true)
      (Destination.cfg_rules d)).
  { change (map ?f ?l) with (f <$> l). rewrite fmap_imap. apply imap_ext. intros i r _. unfold Hydrate.dest_rule_of_row, rule_seed. cbn.
    by destruct (eq_ignore_ascii_case (Destination.toml_action r) "deny"). }
  assert (He : existsb (fun r => seqb (x_action r) "deny") (imap rule_seed (Destination.cfg_rules d)) =
    existsb Destination.deny (map Hydrate.dest_rule_of_row (imap rule_seed (Destination.cfg_rules d)))).
  { apply existsb_map. intros x Hx. apply elem_of_lookup_imap in Hx as (i & t & -> & _). unfold Hydrate.dest_rule_of_row, rule_seed. cbn.
    by destruct (eq_ignore_ascii_case (Destination.toml_action t) "deny"). }
  unfold rule_seeds, Destination.new. cbn [Destination.rules]. rewrite He, Hi. destruct (_ && _); [|exact Hi]. rewrite map_app, Hi. by f_equal.
Qed.

Definition in_range (o : option Z) : Prop := match o with Some v => 0 <= v <= u32_max | None => True end.

Lemma clamped o : in_range o -> Hydrate.clamp_u32 <$> o = o.
Proof.
  destruct o as [v|]; [|done]. cbn. intros Hv. f_equal. unfold Hydrate.clamp_u32. rewrite Z.max_l by lia.
  by rewrite (proj2 (Z.leb_le _ _)) by lia.
Qed.

Lemma dids_as_configured (ds : list Edge.DidMapping) cmp : NoDup (map Edge.did_number ds) ->
  map Hydrate.did_of_row (List.filter d_enabled (order_by cmp (rows (put_all d_number (map did_seed ds) ∅)))) ≡ₚ ds.
Proof.
  intros Hd. assert (Hp : order_by cmp (rows (put_all d_number (map did_seed ds) ∅)) ≡ₚ map did_seed ds).
  { unfold order_by. rewrite merge_sort_Permutation. apply rows_put_all. by rewrite map_map. }
  assert (Hf : List.filter d_enabled (order_by cmp (rows (put_all d_number (map did_seed ds) ∅))) = order_by cmp (rows (put_all d_number (map did_seed ds) ∅))).
  { apply forallb_filter_id, forallb_forall. intros r Hr%list_elem_of_In. rewrite Hp in Hr. by apply list_elem_of_fmap in Hr as (d & -> & _). }
  rewrite Hf, (Permutation_map Hydrate.did_of_row Hp), map_map. rewrite (map_ext_in _ id), map_id; [done|]. by intros [].
Qed.

Lemma unset_limit now c k : k ∉ ["toml_imported_at"; DESTINATION_RULES_SEEDED_AT; USER_LIMITS_SEEDED_AT] ->
  Hydrate.setting_u32 (Hydrate.answers (fresh now c)) k = None.
Proof. intros Hk. unfold Hydrate.setting_u32, Hydrate.setting. cbn. unfold get_setting_on. by rewrite fresh_unset. Qed.

(** C24: on a first boot with an empty store, seeding it from a configuration
    file that gives no number two DIDs and no user two limits, and hydrating from
    it, gives what the file says directly: the users that may authenticate are
    those of the file, with the hash of their password, the DIDs and the rules
    of destinations are those of the file, and every user of the file has the
    limits of the file. *)
Theorem fresh_store_same (now : Z) (c : SeedConfig) (json_strings : string -> option (list string)) (parse_net : string -> option string)
    {HI : HashIter Trunk.TrunkId Trunk.TrunkConfig} (parse_addr : string -> option Net.SocketAddr)
    (lookup : string -> option (list Net.SocketAddr)) (ids : list Trunk.TrunkId) (h : Hydrate.RuntimeHandles) :
  Hydrate.h_auth h = Some (Auth.new (sip_realm c) (sip_users c)) ->
  Edge.user_limits (Hydrate.h_security h) = UserLimits.new (cfg_user_limits c) ->
  NoDup (map Edge.did_number (cfg_dids c)) ->
  NoDup (map fst (UserLimits.cfg_overrides (cfg_user_limits c))) ->
  Forall (fun o => in_range (UserLimits.max_concurrent_calls o.2) /\ in_range (UserLimits.max_calls_per_minute o.2))
    (UserLimits.cfg_overrides (cfg_user_limits c)) ->
  Hydrate.well_named (Hydrate.h_trunks h) -> NoDup ids -> length ids = length (list_trunks (fresh now c)) ->
  (forall i, i ∈ ids -> Trunk.trunks (Hydrate.h_trunks h) !! i = None) ->
  exists h', Hydrate.hydrate_all json_strings parse_net parse_addr lookup now ids (Hydrate.answers (fresh now c)) h = (Ok tt, h') /\
    (exists a, Hydrate.h_auth h' = Some a /\ Auth.users a = Auth.users (Auth.new (sip_realm c) (sip_users c))) /\
    Hydrate.h_dids h' ≡ₚ cfg_dids c /\
    Destination.rules (Edge.destinations (Hydrate.h_security h')) ≡ₚ Destination.rules (Destination.new (cfg_destinations c)) /\
    forall n, is_Some (sip_users c !! n) ->
      UserLimits.limits_for n (Edge.user_limits (Hydrate.h_security h')) = UserLimits.limits_for n (UserLimits.new (cfg_user_limits c)).
Proof.
  intros Hauth Hlim Hd Ho Hr Hw Hids Hlen Hfresh.
  destruct (Hydrate.hydrate_ok json_strings parse_net parse_addr lookup now ids (fresh now c) h (fresh_schema now c) Hw Hids Hlen Hfresh)
    as (h' & Hh & Hf & _). exists h'. split; [done|]. split_and!.
  - assert (Hs := Hydrate.auth_stays json_strings parse_net parse_addr lookup now ids (Hydrate.answers (fresh now c)) h ltac:(by rewrite Hauth)).
    rewrite Hh in Hs. destruct Hs as [a Ha]. exists a. split; [done|]. apply map_eq. intros n. rewrite (Hydrate.f_users _ _ _ _ _ _ Hf a Ha n), (fresh_users now c n Ho). cbn.
    unfold Auth.build_ha1_map. rewrite map_lookup_imap. destruct (sip_users c !! n) as [p|]; [|done]. cbn.
    by destruct (put_all fst _ ∅ !! n).
  - rewrite (Hydrate.f_dids _ _ _ _ _ _ Hf). unfold list_dids. rewrite fresh_dids. by apply dids_as_configured.
  - rewrite (Hydrate.f_destinations _ _ _ _ _ _ Hf). destruct (fresh_marked now c) as [x Hx].
    rewrite (bool_decide_eq_false_2 (settings _ !! _ = None)) by (rewrite Hx; done). rewrite andb_false_r, <- rules_as_configured.
    apply Permutation_map. unfold list_destination_rules, order_by. rewrite merge_sort_Permutation. rewrite (proj1 (fresh_rules now c)).
    apply rows_put_all, rule_ids.
  - intros n [p Hp]. unfold UserLimits.limits_for.
    rewrite (Hydrate.f_overrides _ _ _ _ _ _ Hf n), (Hydrate.f_defaults _ _ _ _ _ _ Hf), (fresh_users now c n Ho), Hp, !unset_limit, Hlim by
      (rewrite !not_elem_of_cons; split_and!; try done; apply not_elem_of_nil).
    cbn [UserLimits.new UserLimits.config_defaults UserLimits.defaults UserLimits.overrides].
    rewrite (put_values fst snd), lookup_fmap. cbn [fmap option_fmap option_map mbind option_bind].
    destruct (put_all fst _ ∅ !! n) as [[n' o]|] eqn:Eo; [|done]. apply put_all_lookup in Eo as [Hin _].
    rewrite Forall_forall in Hr. destruct (Hr _ Hin) as [Hc Hm]. cbn [snd] in Hc, Hm. unfold Hydrate.has_limit, Hydrate.override_of_row. cbn.
    rewrite (clamped _ Hc), (clamped _ Hm). destruct o as [[a|] [b|]]; done.
Qed.
End fresh.

(** ** Concrete instances *)

Module Witness.

#[local] Instance users_iter : HashIter string string := canonical_iter _ _.
#[local] Instance trunks_iter : HashIter Trunk.TrunkId Trunk.TrunkConfig := canonical_iter _ _.

Definition text (l : list string) : string := join "," l.

Definition toml_trunk : TrunkConfigToml :=
  mkTrunkToml "pstn" true "trunk.example.com" 5060 "UDP" false None None None false 300 ["+33"] 100 0 100 "e164" None None None None None
    ["PCMU"] 100.

Definition file : SeedConfig :=
  mkSeeds "sip.example.com" {["alice" := "secret"]} [Edge.mkDid "+33123456789" "alice" None] [toml_trunk]
    (Destination.mkConfig true "allow" "33" [Destination.mkToml "+33899" "Deny" None "premium"] true)
    (UserLimits.mkConfig true 10 60 [("alice", UserLimits.mkLimits (Some 2) None)]).

Definition link : Link := mkLink (fresh text 1700000000000000000 file) 0.

(** The second boot, and a boot whose third call to the store fails. *)
Lemma seeds_do_not_return_witness :
  let first := ldb (first_boot_import (fun n => Nat.eqb n 2) text 5 file link).2 in
  let seeded := ldb (seed_security (fun n => Nat.eqb n 2) 5 file link) in
  (users (ldb link) <> ∅ -> users first = users (ldb link)) /\
  (dids (ldb link) <> ∅ -> dids first = dids (ldb link)) /\
  (trunks (ldb link) <> ∅ -> trunks first = trunks (ldb link)) /\
  destination_rules first = destination_rules (ldb link) /\
  (is_Some (settings (ldb link) !! DESTINATION_RULES_SEEDED_AT) -> destination_rules seeded = destination_rules (ldb link)) /\
  (is_Some (settings (ldb link) !! USER_LIMITS_SEEDED_AT) -> users seeded = users (ldb link)) /\
  (settings (ldb link) !! DESTINATION_RULES_SEEDED_AT = None -> is_Some (settings seeded !! DESTINATION_RULES_SEEDED_AT) ->
   destination_rules seeded = put_all x_id (rule_seeds (cfg_destinations file)) (destination_rules (ldb link))).
Proof. exact (seeds_do_not_return (fun n => Nat.eqb n 2) text 5 file link). Defined.

(** A failed row leaves the rules unmarked, so the next boot tries again. *)
Lemma incomplete_seed_retried :
  let once := seed_security (fun n => Nat.eqb n 1) 5 file (mkLink empty_db 0) in
  settings (ldb once) !! DESTINATION_RULES_SEEDED_AT = None /\
  is_Some (settings (ldb (seed_security (fun _ => false) 5 file once)) !! DESTINATION_RULES_SEEDED_AT).
Proof. vm_compute. split; [reflexivity|eexists; reflexivity]. Qed.

(** With two limits for one user, the store keeps the first and the file
    alone gives the last. *)
Lemma repeated_limit :
  let twice := [("alice", UserLimits.mkLimits (Some 2) None); ("alice", UserLimits.mkLimits (Some 9) None)] in
  let c := mkSeeds "r" {["alice" := "secret"]} [] [] (Destination.mkConfig true "allow" "33" [] false) (UserLimits.mkConfig true 10 60 twice) in
  u_max_concurrent_calls <$> users (fresh text 5 c) !! "alice" = Some (Some 2) /\
  UserLimits.limits_for "alice" (UserLimits.new (cfg_user_limits c)) = (9, 60).
Proof. vm_compute. split; reflexivity. Qed.

Definition boot : Hydrate.RuntimeHandles :=
  Hydrate.mkHandles (Some (Auth.new "sip.example.com" (sip_users file))) (cfg_dids file) Trunk.new Acl.new_permissive
    (Edge.mkSecurity (Ban.new (Ban.mkBanConfig false 5 60 60 2 3600 false [])) (Destination.new (cfg_destinations file))
       (UserLimits.new (cfg_user_limits file)) []).

Lemma fresh_store_same_witness :
  exists h', Hydrate.hydrate_all (fun s => Some [s]) (fun s => Some s) (fun _ => None) (fun _ => None) 5 [7]
      (Hydrate.answers (fresh text 5 file)) boot = (Ok tt, h') /\
    (exists a, Hydrate.h_auth h' = Some a /\ Auth.users a = Auth.users (Auth.new (sip_realm file) (sip_users file))) /\
    Hydrate.h_dids h' ≡ₚ cfg_dids file /\
    Destination.rules (Edge.destinations (Hydrate.h_security h')) ≡ₚ Destination.rules (Destination.new (cfg_destinations file)) /\
    forall n, is_Some (sip_users file !! n) ->
      UserLimits.limits_for n (Edge.user_limits (Hydrate.h_security h')) = UserLimits.limits_for n (UserLimits.new (cfg_user_limits file)).
Proof.
  apply (fresh_store_same text 5 file (fun s => Some [s]) (fun s => Some s) (fun _ => None) (fun _ => None) [7] boot).
  - reflexivity.
  - reflexivity.
  - constructor; [apply not_elem_of_nil|constructor].
  - constructor; [apply not_elem_of_nil|constructor].
  - constructor; [|constructor]. cbn. unfold u32_max. lia.
  - split; intros i *; unfold boot; cbn; rewrite lookup_empty; discriminate.
  - constructor; [apply not_elem_of_nil|constructor].
  - vm_compute. reflexivity.
  - intros i _. reflexivity.
Defined.
End Witness.
