(* ===== verification/Cdr.v ===== *)
(** * Call records (sbc/cdr.rs, storage.rs, storage models.rs)

    Why a call ended, what each side is told of it, the record written for it,
    its row in the store, and the records kept in memory. Random identifiers
    are arguments; wall-clock times are nanoseconds since the epoch. *)

From S2P Require Import Prelude Str Bytes.

(** ** Outcomes *)

Inductive CallOutcome :=
  | NormalClearing (by_caller : bool)
  | Cancelled
  | Rejected (code : Z)
  | Refused (code : Z)
  | MaxDuration
  | Shutdown
  | WsClosed (callee_died : bool)
  | AdminKick
  | DialogLost (status : Z)
  | RtpTimeout
  | SetupTimeout
  | MediaUnavailable.

Definition disconnect_reason_of (o : CallOutcome) : string :=
  match o with
  | NormalClearing _ => "normal-clearing"
  | Cancelled => "cancelled"
  | Rejected code | Refused code => "rejected-" +:+ show code
  | MaxDuration => "timeout"
  | Shutdown => "shutdown"
  | WsClosed _ => "ws-closed"
  | AdminKick => "admin-kick"
  | DialogLost _ => "dialog-lost"
  | RtpTimeout => "rtp-timeout"
  | SetupTimeout => "setup-timeout"
  | MediaUnavailable => "media-unavailable"
  end.

Definition sip_code_of (answered : bool) (o : CallOutcome) : option Z :=
  if answered then Some 200
  else match o with
  | Cancelled => Some 487
  | Rejected code | Refused code => Some code
  | SetupTimeout => Some 408
  | Shutdown | MediaUnavailable => Some 503
  | MaxDuration | AdminKick => Some 480
  | WsClosed true => Some 480
  | NormalClearing _ | WsClosed false | DialogLost _ | RtpTimeout => None
  end.

(** A Reason header: cause and quoted text. *)
Definition quoted (s : string) : string := String "034" s +:+ String "034" "".
Definition q850 (cause text : string) : string := "Q.850;cause=" +:+ cause +:+ ";text=" +:+ quoted text.
Definition sip_cause (cause text : string) : string := "SIP;cause=" +:+ cause +:+ ";text=" +:+ quoted text.

Definition reason_header (o : CallOutcome) : option string :=
  match o with
  | MaxDuration => Some (q850 "16" "Call duration exceeded")
  | Shutdown => Some (q850 "16" "Server shutdown")
  | WsClosed _ => Some (sip_cause "200" "ws-closed")
  | AdminKick => Some (sip_cause "200" "Administrative teardown")
  | RtpTimeout => Some (q850 "16" "RTP timeout")
  | SetupTimeout => Some (sip_cause "408" "No answer")
  | MediaUnavailable => Some (q850 "47" "No media resource available")
  | DialogLost status => Some (sip_cause (show status) "Dialog lost")
  | NormalClearing _ | Cancelled | Rejected _ | Refused _ => None
  end.

Definition hangup_by_of (o : CallOutcome) : string :=
  match o with
  | NormalClearing true | Cancelled => "caller"
  | NormalClearing false => "callee"
  | Rejected _ => "callee"
  | _ => "sbc"
  end.

Definition pending_caller_code (o : CallOutcome) : Z :=
  match o with
  | SetupTimeout => 408
  | Shutdown | MediaUnavailable => 503
  | _ => 480
  end.

(** ** Records *)

Record CdrRecord := mkCdr {
  id : string;
  call_id : string;
  caller : string;
  callee : string;
  trunk_id : option string;
  duration_secs : Z;
  codec : option string;
  is_webrtc : bool;
  disconnect_reason : string;
  started_at : Z;
  ended_at : Z;
  v : Z;
  cdr_uuid : string;
  cdr_direction : string;
  sip_code : option Z;
  answered_at : option Z;
  billable_secs : Z;
  source_ip : string;
  reason : option string;
  hangup_by : string;
  rtp_tx_caller : Z;
  rtp_tx_callee : Z;
  media_flags : string
}.

#[export] Instance eta_cdr : Eta CdrRecord := fun r =>
  mkCdr (id r) (call_id r) (caller r) (callee r) (trunk_id r) (duration_secs r) (codec r) (is_webrtc r)
    (disconnect_reason r) (started_at r) (ended_at r) (v r) (cdr_uuid r) (cdr_direction r) (sip_code r)
    (answered_at r) (billable_secs r) (source_ip r) (reason r) (hangup_by r) (rtp_tx_caller r) (rtp_tx_callee r)
    (media_flags r).

Definition CDR_SCHEMA_VERSION : Z := 3.

Definition unix_secs (t : Z) : Z := if 0 <=? t then as_secs t else 0.

Definition new_cdr (wall : Z) (uuid_v4 cid from to : string) : CdrRecord :=
  mkCdr uuid_v4 cid from to None 0 None false "normal" (unix_secs wall) (unix_secs wall) CDR_SCHEMA_VERSION
    "" "" None None 0 "" None "" 0 0 "".

Definition with_window (started : Z) (answered : option Z) (ended : Z) (r : CdrRecord) : CdrRecord :=
  let started_s := unix_secs started in
  let ended_s := Z.max (unix_secs ended) started_s in
  let answered_s := unix_secs <$> answered in
  r <| started_at := started_s |> <| ended_at := ended_s |> <| duration_secs := ended_s - started_s |>
    <| answered_at := answered_s |>
    <| billable_secs := match answered_s with Some a => sat_sub ended_s a | None => 0 end |>.

Definition with_duration (n : Z) (r : CdrRecord) : CdrRecord :=
  r <| duration_secs := n |> <| ended_at := wrapw 64 (started_at r + n) |>.
Definition with_codec (c : string) (r : CdrRecord) : CdrRecord := r <| codec := Some c |>.
Definition with_webrtc (b : bool) (r : CdrRecord) : CdrRecord := r <| is_webrtc := b |>.
Definition with_disconnect_reason (s : string) (r : CdrRecord) : CdrRecord := r <| disconnect_reason := s |>.

(** ** Rows of the store *)

Record CdrRow := mkCdrRow {
  rowid : Z;
  row_id : string;
  row_v : Z;
  row_uuid : string;
  row_call_id : string;
  row_direction : string;
  row_caller : string;
  row_callee : string;
  row_source_ip : string;
  row_trunk_id : option string;
  row_codec : option string;
  row_is_webrtc : bool;
  row_started_at : Z;
  row_answered_at : option Z;
  row_ended_at : Z;
  row_duration_secs : Z;
  row_billable_secs : Z;
  row_sip_code : option Z;
  row_disconnect_reason : string;
  row_reason : option string;
  row_hangup_by : string;
  row_rtp_tx_caller : Z;
  row_rtp_tx_callee : Z;
  row_media_flags : string
}.

(** [as i64] of a u64. *)
Definition as_i64 (x : Z) : Z := if x <? 2 ^ 63 then x else x - 2 ^ 64.

Definition to_row (r : CdrRecord) : CdrRow :=
  mkCdrRow 0 (id r) (v r) (cdr_uuid r) (call_id r) (cdr_direction r) (caller r) (callee r) (source_ip r)
    (trunk_id r) (codec r) (is_webrtc r) (as_i64 (started_at r)) (as_i64 <$> answered_at r) (as_i64 (ended_at r))
    (as_i64 (duration_secs r)) (as_i64 (billable_secs r)) (sip_code r) (disconnect_reason r) (reason r)
    (hangup_by r) (as_i64 (rtp_tx_caller r)) (as_i64 (rtp_tx_callee r)) (media_flags r).

Definition from_row (r : CdrRow) : CdrRecord :=
  mkCdr (row_id r) (row_call_id r) (row_caller r) (row_callee r) (row_trunk_id r) (Z.max (row_duration_secs r) 0)
    (row_codec r) (row_is_webrtc r) (row_disconnect_reason r) (Z.max (row_started_at r) 0)
    (Z.max (row_ended_at r) 0) (if (0 <=? row_v r) && (row_v r <? 256) then row_v r else CDR_SCHEMA_VERSION)
    (row_uuid r) (row_direction r)
    (c ← row_sip_code r; if (0 <=? c) && (c <? 65536) then Some c else None)
    ((fun t => Z.max t 0) <$> row_answered_at r) (Z.max (row_billable_secs r) 0) (row_source_ip r) (row_reason r)
    (row_hangup_by r) (Z.max (row_rtp_tx_caller r) 0) (Z.max (row_rtp_tx_callee r) 0) (row_media_flags r).

(** ** Records in memory *)

Definition MAX_CACHED_CDRS : Z := 10000.

Definition insert_cdr (r : CdrRecord) (records : list CdrRecord) : list CdrRecord :=
  (if MAX_CACHED_CDRS <=? Z.of_nat (length records) then drop 1 records else records) ++ [r].

Definition get_cdr (cid : string) (records : list CdrRecord) : option CdrRecord :=
  List.find (fun r => seqb (call_id r) cid) records.

Definition list_recent_cdrs (limit : nat) (records : list CdrRecord) : list CdrRecord :=
  drop (length records - limit) records.

(** *** The parser of damaged lines *)

Definition key_text (key : string) : string := quoted key +:+ ":".

Definition get_str (json key : string) : option string :=
  let search := key_text key +:+ String "034" "" in
  pos ← find_str search json;
  let rest := sdrop (pos + String.length search) json in
  end_ ← find_char "034" rest;
  Some (stake end_ rest).

Fixpoint leading_digits (s : string) : string :=
  match s with String c s => if is_digit c then String c (leading_digits s) else "" | "" => "" end.

Definition get_u64 (json key : string) : Z :=
  match find_str (key_text key) json with
  | Some pos => default 0 (parse_uint u64_max (leading_digits (trim (sdrop (pos + String.length (key_text key)) json))))
  | None => 0
  end.

Definition get_bool (json key : string) : bool := contains (key_text key +:+ "true") json.

Definition parse_cdr_json_legacy (uuid_v4 json : string) : option CdrRecord :=
  cid ← get_str json "call_id";
  Some (mkCdr (default uuid_v4 (get_str json "id")) cid (default "" (get_str json "caller"))
          (default "" (get_str json "callee")) (get_str json "trunk_id") (get_u64 json "duration_secs")
          (get_str json "codec") (get_bool json "is_webrtc")
          (default "unknown" (get_str json "disconnect_reason")) (get_u64 json "started_at")
          (get_u64 json "ended_at") 1 "" "" None None 0 "" None "" (get_u64 json "rtp_tx_caller")
          (get_u64 json "rtp_tx_callee") (default "" (get_str json "media_flags"))).

(** ** Theorems *)

(** The numbers of a record the program writes. *)
Definition in_range (r : CdrRecord) : Prop :=
  0 <= v r < 256 /\ (forall c, sip_code r = Some c -> is_u16 c) /\ (forall t, answered_at r = Some t -> 0 <= t < 2 ^ 63) /\
  Forall (fun x => 0 <= x < 2 ^ 63)
    [started_at r; ended_at r; duration_secs r; billable_secs r; rtp_tx_caller r; rtp_tx_callee r].

(** A call record is read back from its row in the store as it was written. *)
Theorem cdr_row_round_trip r : in_range r -> from_row (to_row r) = r.
Proof.
  intros (Hv & Hc & Ha & Hn). rewrite !Forall_cons in Hn.
  assert (Hi : forall x, 0 <= x < 2 ^ 63 -> Z.max (as_i64 x) 0 = x).
  { intros x Hx. unfold as_i64. rewrite (proj2 (Z.ltb_lt _ _)) by lia. lia. }
  destruct r as [? ? ? ? ? ? ? ? ? ? ? ? ? ? code answered ? ? ? ? ? ? ?]. unfold from_row, to_row. cbn in *.
  rewrite !Hi by tauto. f_equal.
  - destruct (_ && _) eqn:E; [done|]. apply andb_false_iff in E. lia.
  - destruct code as [c|]; [|done]. specialize (Hc c eq_refl). cbn. unfold is_uw in Hc.
    rewrite (proj2 (Z.leb_le 0 c)), (proj2 (Z.ltb_lt c 65536)) by lia. done.
  - destruct answered as [t|]; [|done]. cbn. by rewrite Hi by by apply Ha.
Qed.

Lemma unix_secs_mono a b : a <= b -> unix_secs a <= unix_secs b.
Proof. intros H. unfold unix_secs, as_secs. destruct (0 <=? a) eqn:E1, (0 <=? b) eqn:E2; to_prop; zlia. Qed.

(** The billing window of a record is sound whatever the clocks say: it
    never ends before it starts, its length is the difference, a call that was
    never answered bills nothing, and one answered within its window bills no
    more than it lasted. *)
Theorem window_sound started answered ended r :
  let w := with_window started answered ended r in
  started_at w <= ended_at w /\ duration_secs w = ended_at w - started_at w /\
  0 <= billable_secs w /\ (answered = None -> billable_secs w = 0) /\
  (forall t, answered = Some t -> started <= t -> billable_secs w <= duration_secs w).
Proof.
  intros w. unfold w, with_window. cbv zeta. cbn. split_and!; try lia.
  - destruct answered as [t|]; cbn; unfold sat_sub; lia.
  - by intros ->.
  - intros t -> Ht. cbn. assert (Hm : unix_secs started <= unix_secs t).
    { by apply unix_secs_mono. }
    unfold sat_sub. lia.
Qed.

(** The memory holds a bounded number of records, the last ones. *)
Lemma cached_bounded rs records :
  Z.of_nat (length records) <= MAX_CACHED_CDRS ->
  Z.of_nat (length (fold_left (fun l r => insert_cdr r l) rs records)) <= MAX_CACHED_CDRS.
Proof.
  revert records. induction rs as [|r rs IH]; intros records Hl; [done|]. cbn [fold_left]. apply IH. unfold insert_cdr.
  rewrite length_app. cbn [length]. destruct (_ <=? _) eqn:E; to_prop.
  - rewrite length_drop. unfold MAX_CACHED_CDRS in *. lia.
  - lia.
Qed.

Module Witness.

Definition answered_call : CdrRecord :=
  with_window (secs 100) (Some (secs 105)) (secs 165) (new_cdr (secs 165) "id" "c@h" "alice" "+33612345678")
    <| sip_code := Some 200 |>.

Lemma cdr_row_round_trip_witness : billable_secs answered_call = 60 /\ from_row (to_row answered_call) = answered_call.
Proof.
  split; [reflexivity|]. apply (cdr_row_round_trip answered_call). split; [vm_compute; split; congruence|]. split; [|split].
  - intros c Hc. change (Some 200 = Some c) in Hc. injection Hc as <-. unfold is_uw. lia.
  - intros t Ht. change (Some 105 = Some t) in Ht. injection Ht as <-. lia.
  - change (Forall (fun x => 0 <= x < 2 ^ 63) [100; 165; 65; 60; 0; 0]). repeat constructor; lia.
Defined.

Lemma window_sound_witness :
  let w := with_window (secs 100) (Some (secs 105)) (secs 99) answered_call in
  ended_at w = 100 /\ billable_secs w <= duration_secs w.
Proof.
  intros w. split; [reflexivity|].
  destruct (window_sound (secs 100) (Some (secs 105)) (secs 99) answered_call) as (_ & _ & _ & _ & H).
  apply (H (secs 105) eq_refl). discriminate.
Defined.

End Witness.
