(* ===== verification/CdrStore.v ===== *)
(** * Call records in the store (sbc-storage/cdr.rs, models.rs, migrations 0003 and 0004)

    The table of call records: insertion that ignores a record already there,
    the filtered pages of it, newest first, and the purge. SQLite's choice of
    the number of a new row, and of the rows a purge takes first, are
    interfaces. *)

From S2P Require Import Prelude Str Store.
From S2P Require Cdr.

#[export] Instance eta_cdr_row : Eta Cdr.CdrRow := fun r =>
  Cdr.mkCdrRow (Cdr.rowid r) (Cdr.row_id r) (Cdr.row_v r) (Cdr.row_uuid r) (Cdr.row_call_id r) (Cdr.row_direction r)
    (Cdr.row_caller r) (Cdr.row_callee r) (Cdr.row_source_ip r) (Cdr.row_trunk_id r) (Cdr.row_codec r) (Cdr.row_is_webrtc r)
    (Cdr.row_started_at r) (Cdr.row_answered_at r) (Cdr.row_ended_at r) (Cdr.row_duration_secs r)
    (Cdr.row_billable_secs r) (Cdr.row_sip_code r) (Cdr.row_disconnect_reason r) (Cdr.row_reason r)
    (Cdr.row_hangup_by r) (Cdr.row_rtp_tx_caller r) (Cdr.row_rtp_tx_callee r) (Cdr.row_media_flags r).

#[export] Instance CdrRow_eq_dec : EqDecision Cdr.CdrRow.
Proof. solve_decision. Defined.

(** The table, by the number of the row. *)
Abbreviation Cdrs := (gmap Z Cdr.CdrRow).

(** The number of a new row: one that no row has. *)
Class CdrIds := {
  next_rowid : Cdrs -> Z;
  next_rowid_fresh : forall t : Cdrs, t !! next_rowid t = None
}.

(** [DELETE ... WHERE rowid IN (SELECT ... LIMIT ?)]: some of the rows, at
    most as many as the limit, and not none when there are any. *)
Class Chooser := {
  chosen : nat -> list Cdr.CdrRow -> list Cdr.CdrRow;
  chosen_sub : forall n l, chosen n l ⊆ l;
  chosen_length : forall n l, (length (chosen n l) <= n)%nat;
  chosen_some : forall n l, (0 < n)%nat -> l <> [] -> chosen n l <> []
}.

(** ** Insertion *)

(** A row with its identifier, or for the same call. *)
Definition same_record (a b : Cdr.CdrRow) : bool :=
  seqb (Cdr.row_id a) (Cdr.row_id b) || (negb (seqb (Cdr.row_uuid a) "") && seqb (Cdr.row_uuid a) (Cdr.row_uuid b)).

Definition clashes (r : Cdr.CdrRow) (t : Cdrs) : bool := existsb (same_record r) (map_to_list t).*2.

Section insert.
Context {CI : CdrIds}.

(** [INSERT OR IGNORE] *)
Definition insert_row (r : Cdr.CdrRow) (t : Cdrs) : nat * Cdrs :=
  if clashes r t then (0%nat, t)
  else (1%nat, <[next_rowid t := r <| Cdr.rowid := next_rowid t |>]> t).

Fixpoint insert_rows_on (rows : list Cdr.CdrRow) (t : Cdrs) : nat * Cdrs :=
  match rows with
  | [] => (0%nat, t)
  | r :: rows =>
      let '(n, t) := insert_row r t in
      let '(m, t) := insert_rows_on rows t in
      ((n + m)%nat, t)
  end.

(** One transaction: a database that fails leaves the table as it was.
    [fails]: whether it does. *)
Definition committed (fails : bool) (rows : list Cdr.CdrRow) (t : Cdrs) : result StoreError nat * Cdrs :=
  if fails then (Err (Database "database error"), t)
  else let '(n, t) := insert_rows_on rows t in (Ok n, t).

Definition insert_cdrs (fails : bool) (rows : list Cdr.CdrRow) (t : Cdrs) : result StoreError nat * Cdrs :=
  match rows with [] => (Ok 0%nat, t) | _ => committed fails rows t end.

Definition import_cdr_chunk (fails : bool) (rows : list Cdr.CdrRow) (t : Cdrs) : result StoreError nat * Cdrs :=
  committed fails rows t.

(** The rows and the marker, together. *)
Definition import_cdrs (fails : bool) (rows : list Cdr.CdrRow) (marker_key marker_value : string)
    (t : Cdrs * gmap string string) : result StoreError nat * (Cdrs * gmap string string) :=
  match committed fails rows t.1 with
  | (Ok n, t') => (Ok n, (t', <[marker_key := marker_value]> t.2))
  | (Err e, _) => (Err e, t)
  end.
End insert.

(** ** Characters *)

(** The code points of a text. *)
Fixpoint chars (s : string) : list Z :=
  match s with
  | "" => []
  | String a s =>
      if code a <? 128 then code a :: chars s
      else match s with
      | "" => []
      | String b s =>
          if code a <? 224 then ((code a - 192) * 64 + (code b - 128)) :: chars s
          else match s with
          | "" => []
          | String c s =>
              if code a <? 240 then ((code a - 224) * 4096 + (code b - 128) * 64 + (code c - 128)) :: chars s
              else match s with
              | "" => []
              | String d s =>
                  ((code a - 240) * 262144 + (code b - 128) * 4096 + (code c - 128) * 64 + (code d - 128)) :: chars s
              end
          end
      end
  end.

Definition byte (z : Z) : ascii := ascii_of_N (Z.to_N z).

Definition of_char (z : Z) : string :=
  if z <? 128 then String (byte z) ""
  else if z <? 2048 then String (byte (192 + z / 64)) (String (byte (128 + z mod 64)) "")
  else if z <? 65536 then
    String (byte (224 + z / 4096)) (String (byte (128 + z / 64 mod 64)) (String (byte (128 + z mod 64)) ""))
  else
    String (byte (240 + z / 262144)) (String (byte (128 + z / 4096 mod 64))
      (String (byte (128 + z / 64 mod 64)) (String (byte (128 + z mod 64)) ""))).

Definition of_chars (l : list Z) : string := String.concat "" (map of_char l).

(** [char::from_u32] *)
Definition from_u32 (z : Z) : option Z :=
  if ((0 <=? z) && (z <? 55296)) || ((57344 <=? z) && (z <=? 1114111)) then Some z else None.

Definition prefix_upper (prefix : string) : option string :=
  match rev (chars prefix) with
  | [] => None
  | c :: before => next ← from_u32 (c + 1); Some (of_chars (rev before ++ [next]))
  end.

(** ** Queries *)

Record CdrFilter := mkFilter {
  from : option Z;
  to : option Z;
  direction : option string;
  trunk : option string;
  caller_prefix : option string;
  callee_prefix : option string;
  sip_code : option Z;
  answered : option bool;
  uuid : option string;
  call_id : option string;
  before : option (Z * Z);
  offset : Z;
  limit : Z
}.

#[export] Instance eta_filter : Eta CdrFilter := fun f =>
  mkFilter (from f) (to f) (direction f) (trunk f) (caller_prefix f) (callee_prefix f) (sip_code f) (answered f) (uuid f)
    (call_id f) (before f) (offset f) (limit f).

Definition default_filter : CdrFilter :=
  mkFilter None None None None None None None None None None None 0 0.

(** A condition of a query, when the filter asks for it. *)
Definition when {A} (o : option A) (p : A -> bool) : bool := match o with Some a => p a | None => true end.
Definition eq_col {A} `{EqDecision A} (a : A) (o : option A) : bool := bool_decide (o = Some a).

Definition slt (a b : string) : bool := match String.compare a b with Lt => true | _ => false end.

Definition prefixed (p s : string) : bool :=
  seqb p "" || (negb (slt s p) && when (prefix_upper p) (slt s)).

(** Older than the cursor. *)
Definition older (c : Z * Z) (r : Cdr.CdrRow) : bool :=
  (Cdr.row_started_at r <? c.1) || ((Cdr.row_started_at r =? c.1) && (Cdr.rowid r <? c.2)).

(** What the filter asks of a row, the cursor apart. *)
Definition matches (f : CdrFilter) (r : Cdr.CdrRow) : bool :=
  when (from f) (fun t => t <=? Cdr.row_started_at r)
  && when (to f) (fun t => Cdr.row_started_at r <? t)
  && when (direction f) (seqb (Cdr.row_direction r))
  && when (trunk f) (fun t => eq_col t (Cdr.row_trunk_id r))
  && when (uuid f) (fun u => negb (seqb (Cdr.row_uuid r) "") && seqb (Cdr.row_uuid r) u)
  && when (call_id f) (seqb (Cdr.row_call_id r))
  && when (caller_prefix f) (fun p => prefixed p (Cdr.row_caller r))
  && when (callee_prefix f) (fun p => prefixed p (Cdr.row_callee r))
  && when (sip_code f) (fun c => eq_col c (Cdr.row_sip_code r))
  && when (answered f) (fun b => Bool.eqb b (bool_decide (is_Some (Cdr.row_answered_at r)))).

(** [ORDER BY started_at DESC, rowid DESC] *)
Definition newest_first : Cdr.CdrRow -> Cdr.CdrRow -> comparison :=
  then_by (fun a b => Z.compare (Cdr.row_started_at b) (Cdr.row_started_at a))
    (fun a b => Z.compare (Cdr.rowid b) (Cdr.rowid a)).

Definition found (f : CdrFilter) (t : Cdrs) : list Cdr.CdrRow :=
  order_by newest_first
    (List.filter (fun r => matches f r && when (before f) (fun c => older c r)) (map_to_list t).*2).

(** A negative [LIMIT] is no limit, a negative [OFFSET] is zero. *)
Definition sql_limit {A} (lim off : Z) (l : list A) : list A :=
  let l := drop (Z.to_nat off) l in if lim <? 0 then l else take (Z.to_nat lim) l.

Definition query_cdrs (f : CdrFilter) (t : Cdrs) : list Cdr.CdrRow * bool :=
  let lim := Cdr.as_i64 (Z.max (limit f) 1) in
  let rows := sql_limit (Cdr.as_i64 (wrapw 64 (lim + 1))) (Cdr.as_i64 (offset f)) (found f t) in
  (take (Z.to_nat (wrapw 64 lim)) rows, lim <? Z.of_nat (length rows)).

(** ** The purge *)

Definition stale (cutoff : Z) (t : Cdrs) : list Cdr.CdrRow :=
  List.filter (fun r => Cdr.row_started_at r <? cutoff) (map_to_list t).*2.

Section purge.
Context {CH : Chooser}.

Definition purge_cdrs_started_before (cutoff : Z) (batch : nat) (t : Cdrs) : nat * Cdrs :=
  let gone := chosen batch (stale cutoff t) in
  let t' := fold_left (fun t r => delete (Cdr.rowid r) t) gone t in
  ((size t - size t')%nat, t').
End purge.

Definition count_cdrs (t : Cdrs) : Z := Z.of_nat (size t).

(** ** Lemmas *)

(** A row carries its number. *)
Definition keyed (t : Cdrs) : Prop := forall i r, t !! i = Some r -> Cdr.rowid r = i.

(** No record twice. *)
Definition distinct (t : Cdrs) : Prop :=
  forall i j a b, t !! i = Some a -> t !! j = Some b -> same_record a b = true -> i = j.

Lemma elem_of_table (t : Cdrs) r : r ∈ (map_to_list t).*2 <-> exists i, t !! i = Some r.
Proof.
  rewrite list_elem_of_fmap. split.
  - intros ([i x] & -> & Hx). exists i. by apply elem_of_map_to_list.
  - intros [i Hi]. exists (i, r). split; [done|]. by apply elem_of_map_to_list.
Qed.

Lemma clashes_spec r (t : Cdrs) : clashes r t = true <-> exists i x, t !! i = Some x /\ same_record r x = true.
Proof.
  unfold clashes. rewrite existsb_exists. setoid_rewrite <- list_elem_of_In. setoid_rewrite elem_of_table. naive_solver.
Qed.

Lemma same_record_sym a b : same_record a b = same_record b a.
Proof.
  unfold same_record, seqb. rewrite !(bool_decide_ext (Cdr.row_id a = Cdr.row_id b) (Cdr.row_id b = Cdr.row_id a)) by done.
  f_equal. repeat case_bool_decide; simpl; congruence.
Qed.

Lemma same_record_refl a : same_record a a = true.
Proof. unfold same_record. by rewrite seqb_refl. Qed.

Section insertion.
Context {CI : CdrIds}.

Lemma insert_row_spec r t : keyed t -> distinct t ->
  let t' := (insert_row r t).2 in
  keyed t' /\ distinct t' /\ t ⊆ t' /\ (exists i x, t' !! i = Some x /\ same_record r x = true).
Proof.
  intros Hk Hd. unfold insert_row. destruct (clashes r t) eqn:E; cbn [snd].
  - apply clashes_spec in E. done.
  - assert (Hf := next_rowid_fresh t).
    assert (Hn : forall i x, t !! i = Some x -> same_record r x <> true) by (intros i x Hi Hs; destruct (eq_true_false_abs _ (proj2 (clashes_spec r t) ltac:(eauto)) E)).
    set (r' := r <| Cdr.rowid := next_rowid t |>).
    assert (Hr' : Cdr.rowid r' = next_rowid t) by done.
    assert (Hs' : forall x, same_record r' x = same_record r x) by done. clearbody r'.
    split_and!.
    + intros i x [[<- <-]|[_ Hi]]%lookup_insert_Some; [done|by apply Hk].
    + intros i j a b [[<- <-]|[Hi Ha]]%lookup_insert_Some [[<- <-]|[Hj Hb]]%lookup_insert_Some Hs; [done|..].
      * rewrite Hs' in Hs. by destruct (Hn j b Hb).
      * rewrite same_record_sym, Hs' in Hs. by destruct (Hn i a Ha).
      * by apply (Hd i j a b).
    + by apply insert_subseteq.
    + exists (next_rowid t), r'. rewrite lookup_insert_eq, same_record_sym, Hs'. split; [done|]. apply same_record_refl.
Qed.

Lemma insert_rows_grow rows t : t ⊆ (insert_rows_on rows t).2.
Proof.
  revert t. induction rows as [|r rows IH]; intros t; [done|]. cbn [insert_rows_on]. unfold insert_row.
  assert (Hg : forall n t1, t ⊆ t1 -> t ⊆ (let '(m, t2) := insert_rows_on rows t1 in ((n + m)%nat, t2)).2).
  { intros n t1 Ht. specialize (IH t1). destruct (insert_rows_on rows t1). cbn in *. by etransitivity. }
  destruct (clashes r t); apply Hg; [done|]. by apply insert_subseteq, next_rowid_fresh.
Qed.

(** What is stored of some rows: the table only grows, and each of them has
    its record. *)
Lemma insert_rows_spec rows t : keyed t -> distinct t ->
  let t' := (insert_rows_on rows t).2 in
  keyed t' /\ distinct t' /\ t ⊆ t' /\
  Forall (fun r => exists i x, t' !! i = Some x /\ same_record r x = true) rows.
Proof.
  revert t. induction rows as [|r rows IH]; intros t Hk Hd; [by repeat constructor|]. cbn [insert_rows_on].
  destruct (insert_row_spec r t Hk Hd) as (Hk1 & Hd1 & Hs1 & Hr). destruct (insert_row r t) as [n t1]. cbn [snd] in *.
  destruct (IH t1 Hk1 Hd1) as (Hk2 & Hd2 & Hs2 & Hf). destruct (insert_rows_on rows t1) as [m t2]. cbn [snd] in *.
  split_and!; try done; [by etransitivity|]. constructor; [|done].
  destruct Hr as (i & x & Hi & Hx). exists i, x. split; [by eapply lookup_weaken|done].
Qed.

(** Rows already there are ignored. *)
Lemma insert_rows_again rows t : Forall (fun r => clashes r t = true) rows -> insert_rows_on rows t = (0%nat, t).
Proof. induction 1 as [|r rows Hr _ IH]; [done|]. cbn [insert_rows_on]. unfold insert_row. by rewrite Hr, IH. Qed.
End insertion.

(** *** Pages *)

Definition newer (a b : Cdr.CdrRow) : Prop :=
  Cdr.row_started_at b < Cdr.row_started_at a \/ Cdr.row_started_at b = Cdr.row_started_at a /\ Cdr.rowid b < Cdr.rowid a.

#[export] Instance newer_trans : Transitive newer.
Proof. unfold newer. intros a b c ? ?. lia. Qed.

Lemma not_newer_self a : ~ newer a a.
Proof. unfold newer. lia. Qed.

Lemma older_newer a r : older (Cdr.row_started_at a, Cdr.rowid a) r = true <-> newer a r.
Proof. unfold older, newer. cbn [fst snd]. rewrite orb_true_iff, andb_true_iff, !Z.ltb_lt, Z.eqb_eq. done. Qed.

Lemma not_after_spec a b : not_after newest_first a b <-> newer a b \/ (Cdr.row_started_at a = Cdr.row_started_at b /\ Cdr.rowid a = Cdr.rowid b).
Proof.
  unfold not_after, newest_first, then_by, newer.
  destruct (Z.compare_spec (Cdr.row_started_at b) (Cdr.row_started_at a)); [|split; [lia|congruence]|split; [congruence|lia]].
  destruct (Z.compare_spec (Cdr.rowid b) (Cdr.rowid a)); [split; [lia|congruence]..|split; [congruence|lia]].
Qed.

#[export] Instance newest_first_trans : Transitive (not_after newest_first).
Proof. intros a b c. rewrite !not_after_spec. unfold newer. lia. Qed.
#[export] Instance newest_first_total : Total (not_after newest_first).
Proof. intros a b. rewrite !not_after_spec. unfold newer. lia. Qed.

Lemma elem_of_found f t r : keyed t ->
  r ∈ found f t <-> t !! Cdr.rowid r = Some r /\ matches f r = true /\ when (before f) (fun c => older c r) = true.
Proof.
  intros Hk. unfold found. rewrite elem_of_order_by, elem_of_filter_bool, elem_of_table, andb_true_iff. split.
  - intros ([i Hi] & H). by rewrite (Hk i r Hi).
  - intros [Hi H]. eauto.
Qed.

Lemma found_sorted f t : keyed t -> StronglySorted newer (found f t).
Proof.
  intros Hk. assert (Hnd : NoDup (map Cdr.rowid (found f t))).
  { unfold found, order_by. rewrite merge_sort_Permutation. eapply (sublist_NoDup _ (map Cdr.rowid (map_to_list t).*2)).
    2:{ apply fmap_sublist. generalize (map_to_list t).*2. intros l. induction l as [|x l IH]; [done|]. cbn [List.filter].
      destruct (_ && _); by constructor. }
    rewrite map_map. rewrite (map_ext_in (fun e => Cdr.rowid e.2) fst); [apply NoDup_fst_map_to_list|].
      intros [i r] Hin. apply list_elem_of_In, elem_of_map_to_list in Hin. by apply Hk. }
  assert (Hs : StronglySorted (not_after newest_first) (found f t)) by apply (StronglySorted_merge_sort _ _).
  induction Hs as [|a l Hl IH Ha]; [constructor|]. cbn in Hnd. inversion_clear Hnd as [|? ? Hn Hnd']. constructor; [by apply IH|].
  rewrite Forall_forall in *. intros x Hx. destruct (proj1 (not_after_spec a x) (Ha x Hx)) as [H|[_ E]]; [done|].
  destruct Hn. rewrite E. apply list_elem_of_fmap. eauto.
Qed.

(** A page of a filter with a sensible limit and no offset. *)
Lemma query_page f t : 0 < limit f < 2 ^ 62 -> offset f = 0 ->
  query_cdrs f t = (take (Z.to_nat (limit f)) (found f t), limit f <? Z.of_nat (length (found f t))).
Proof.
  intros Hl Ho. unfold query_cdrs. rewrite Ho. rewrite Z.max_l by lia.
  assert (Hi : forall x, 0 <= x < 2 ^ 63 -> Cdr.as_i64 x = x).
  { intros x Hx. unfold Cdr.as_i64. by rewrite (proj2 (Z.ltb_lt _ _)) by lia. }
  rewrite (Hi (limit f)), !wrapw_small, !Hi by (unfold is_uw; lia).
  unfold sql_limit. rewrite (proj2 (Z.ltb_ge _ _)) by lia. cbn [Z.to_nat drop]. rewrite take_take. f_equal.
  - f_equal. lia.
  - rewrite length_take. apply eq_true_iff_eq. rewrite !Z.ltb_lt. change (drop (Z.to_nat 0) (found f t)) with (found f t). lia.
Qed.

(** *** Prefixes *)

Lemma slt_step c d a b : slt (String c a) (String d b) = (code c <? code d) || ((code c =? code d) && slt a b).
Proof.
  unfold slt, code. cbn [String.compare]. unfold Ascii.compare. rewrite <- N2Z.inj_compare.
  destruct (Z.compare_spec (Z.of_N (N_of_ascii c)) (Z.of_N (N_of_ascii d))) as [E|E|E].
  - rewrite E, Z.ltb_irrefl, Z.eqb_refl. done.
  - by rewrite (proj2 (Z.ltb_lt _ _)).
  - rewrite (proj2 (Z.ltb_ge _ _)), (proj2 (Z.eqb_neq _ _)) by lia. done.
Qed.

Lemma starts_with_step c p d s : starts_with (String c p) (String d s) = bool_decide (c = d) && starts_with p s.
Proof. unfold starts_with. cbn [strip_prefix]. repeat case_bool_decide; simplify_eq; done. Qed.

Lemma code_byte z : 0 <= z < 256 -> code (byte z) = z.
Proof. intros H. unfold code, byte. rewrite N_ascii_embedding by lia. lia. Qed.
Lemma byte_code c : byte (code c) = c.
Proof. unfold byte, code. by rewrite N2Z.id, ascii_N_embedding. Qed.
Lemma code_range c : 0 <= code c < 256.
Proof. unfold code. assert (H := N_ascii_bounded c). lia. Qed.

Definition char (z : Z) : Prop := from_u32 z = Some z.

Lemma chars_step z s : char z -> chars (of_char z +:+ s) = z :: chars s.
Proof.
  unfold char, from_u32, of_char. intros H.
  assert (Hz : 0 <= z <= 1114111) by (destruct (_ || _) eqn:E; [|done]; to_prop; lia). clear H.
  destruct (z <? 128) eqn:E1; [|destruct (z <? 2048) eqn:E2; [|destruct (z <? 65536) eqn:E3]]; to_prop;
    rewrite !sapp_cons; change ("" +:+ s) with s; cbn [chars]; rewrite !code_byte by zlia;
    rewrite ?(proj2 (Z.ltb_ge _ 128)), ?(proj2 (Z.ltb_ge _ 224)), ?(proj2 (Z.ltb_ge _ 240)) by zlia;
    rewrite ?(proj2 (Z.ltb_lt _ _)) by zlia; f_equal; zlia.
Qed.

Lemma cont_range c : cont c = true <-> 128 <= code c <= 191.
Proof. unfold cont. rewrite andb_true_iff, !Z.leb_le. done. Qed.

Lemma utf8_chars (P : string -> Prop) : P "" -> (forall z s, char z -> is_utf8 s = true -> P s -> P (of_char z +:+ s)) ->
  forall s, is_utf8 s = true -> P s.
Proof.
  intros H0 Hc s. assert (exists n, String.length s <= n)%nat as [n Hn] by eauto. revert s Hn.
  induction n as [|n IH]; intros [|a s] Hn; [done|cbn in Hn; lia|done|]. cbn [is_utf8 String.length] in *.
  destruct (code a <? 128) eqn:Ea; to_prop.
  { intros Hs. replace (String a s) with (of_char (code a) +:+ s).
    - apply Hc; [|done|apply IH; [lia|done]]. unfold char, from_u32. assert (Hr := code_range a).
      rewrite (proj2 (Z.leb_le _ _)), (proj2 (Z.ltb_lt _ _)) by lia. done.
    - unfold of_char. rewrite (proj2 (Z.ltb_lt _ _)) by done. by rewrite byte_code. }
  assert (Hb : forall z x, z = code x -> byte z = x) by (intros z x ->; apply byte_code).
  assert (Hv : forall z, 0 <= z < 55296 \/ 57344 <= z <= 1114111 -> char z).
  { intros z Hz. unfold char, from_u32. destruct (_ || _) eqn:E; [done|]. to_prop. lia. }
  assert (Hr := code_range a). destruct s as [|b s]; [done|]. cbn [String.length] in Hn. unfold within in *.
  assert (Hrb := code_range b). destruct ((194 <=? code a) && (code a <=? 223)) eqn:E2; to_prop.
  { intros [Hcb Hs]%andb_true_iff. apply cont_range in Hcb.
    replace (String a (String b s)) with (of_char ((code a - 192) * 64 + (code b - 128)) +:+ s).
    - apply Hc; [apply Hv; lia|done|apply IH; [lia|done]].
    - unfold of_char. rewrite (proj2 (Z.ltb_ge _ 128)), (proj2 (Z.ltb_lt _ _)) by lia. rewrite !sapp_cons.
      rewrite (Hb _ a), (Hb _ b) by zlia. done. }
  destruct s as [|c s]; [done|]. cbn [String.length] in Hn. assert (Hrc := code_range c).
  destruct ((224 <=? code a) && (code a <=? 239)) eqn:E3; to_prop.
  { intros [[Hcb Hcc]%andb_true_iff Hs]%andb_true_iff. apply cont_range in Hcc.
    assert (Hz : 128 <= code b <= 191 /\ (code a = 224 -> 160 <= code b) /\ (code a = 237 -> code b <= 159)).
    { destruct (code a =? 224) eqn:E4, (code a =? 237) eqn:E5; unfold cont in Hcb; to_prop; lia. }
    replace (String a (String b (String c s)))
      with (of_char ((code a - 224) * 4096 + (code b - 128) * 64 + (code c - 128)) +:+ s).
    - apply Hc; [apply Hv; lia|done|apply IH; [lia|done]].
    - unfold of_char. rewrite !(proj2 (Z.ltb_ge _ _)), (proj2 (Z.ltb_lt _ _)) by lia. rewrite !sapp_cons.
      rewrite (Hb _ a), (Hb _ b), (Hb _ c) by zlia. done. }
  destruct s as [|d s]; [done|]. cbn [String.length] in Hn. assert (Hrd := code_range d).
  intros [[[[Ha Hcb]%andb_true_iff Hcc]%andb_true_iff Hcd]%andb_true_iff Hs]%andb_true_iff. apply cont_range in Hcc, Hcd.
  assert (Hz : 128 <= code b <= 191 /\ 240 <= code a <= 244 /\ (code a = 240 -> 144 <= code b) /\ (code a = 244 -> code b <= 143)).
  { destruct (code a =? 240) eqn:E4, (code a =? 244) eqn:E5; unfold cont in Hcb; to_prop; lia. }
  replace (String a (String b (String c (String d s))))
    with (of_char ((code a - 240) * 262144 + (code b - 128) * 4096 + (code c - 128) * 64 + (code d - 128)) +:+ s).
  - apply Hc; [apply Hv; lia|done|apply IH; [lia|done]].
  - unfold of_char. rewrite !(proj2 (Z.ltb_ge _ _)) by lia. rewrite !sapp_cons.
    rewrite (Hb _ a), (Hb _ b), (Hb _ c), (Hb _ d) by zlia. done.
Qed.

Lemma chars_app q r : is_utf8 q = true -> chars (q +:+ r) = chars q ++ chars r.
Proof.
  revert q. apply utf8_chars; [done|]. intros z s Hz Hs IH. rewrite sapp_assoc, !chars_step by done. by rewrite IH.
Qed.

Lemma of_chars_cons z l : of_chars (z :: l) = of_char z +:+ of_chars l.
Proof. unfold of_chars. cbn [map String.concat]. destruct (map of_char l); [by rewrite sapp_nil_r|done]. Qed.

Lemma of_chars_app a b : of_chars (a ++ b) = of_chars a +:+ of_chars b.
Proof. induction a as [|z a IH]; [done|]. cbn [app]. by rewrite !of_chars_cons, IH, sapp_assoc. Qed.

Lemma of_chars_chars q : is_utf8 q = true -> of_chars (chars q) = q.
Proof.
  revert q. apply utf8_chars; [done|]. intros z s Hz Hs IH. rewrite chars_step by done. rewrite <- IH at 2.
  by rewrite of_chars_cons.
Qed.

(** The texts from one that ends in a character up to the one that ends in
    the next are those that start with it. *)
Lemma prefix_range q c s : code c < 255 ->
  negb (slt s (q +:+ String c "")) && slt s (q +:+ String (byte (code c + 1)) "") = starts_with (q +:+ String c "") s.
Proof.
  intros Hc. assert (Hr := code_range c). revert s. induction q as [|x q IH]; intros [|d s]; [done| |done|].
  - change ("" +:+ String c "") with (String c ""). change ("" +:+ String (byte (code c + 1)) "") with (String (byte (code c + 1)) "").
    rewrite !slt_step, starts_with_step, code_byte by lia. assert (slt s "" = false) as -> by by destruct s.
    rewrite !andb_false_r, !orb_false_r. rewrite (bool_decide_ext (c = d) (code c = code d)).
    2:{ split; [by intros ->|]. intros E. by rewrite <- (byte_code c), <- (byte_code d), E. }
    change (starts_with "" s) with true. rewrite andb_true_r. apply eq_true_iff_eq.
    rewrite andb_true_iff, negb_true_iff, Z.ltb_ge, Z.ltb_lt, bool_decide_eq_true. lia.
  - rewrite !sapp_cons, !slt_step, starts_with_step. rewrite <- IH. destruct (Z.compare_spec (code d) (code x)) as [E|E|E].
    + rewrite E, Z.ltb_irrefl, Z.eqb_refl. rewrite (bool_decide_true (x = d)); [done|].
      by rewrite <- (byte_code x), <- (byte_code d), E.
    + rewrite (proj2 (Z.ltb_lt _ _)) by done. rewrite (bool_decide_false (x = d)); [done|]. intros ->. lia.
    + rewrite (proj2 (Z.ltb_ge (code d) _)), (proj2 (Z.eqb_neq _ _)) by lia. rewrite andb_false_r.
      rewrite (bool_decide_false (x = d)); [done|]. intros ->. lia.
Qed.

(** A filter by prefix is a test of the prefix. *)
Lemma prefixed_spec q c s : is_utf8 q = true -> code c < 127 -> prefixed (q +:+ String c "") s = starts_with (q +:+ String c "") s.
Proof.
  intros Hq Hc. assert (Hr := code_range c). unfold prefixed, prefix_upper. rewrite seqb_false by by destruct q.
  rewrite chars_app by done. cbn [chars]. rewrite (proj2 (Z.ltb_lt _ _)) by lia. rewrite rev_app_distr. cbn [rev app].
  rewrite rev_involutive. cbn [orb]. unfold from_u32. rewrite (proj2 (Z.leb_le 0 _)), (proj2 (Z.ltb_lt _ 55296)) by lia.
  cbn [andb orb mbind option_bind when]. rewrite of_chars_app, of_chars_chars by done.
  unfold of_chars, of_char. cbn [map String.concat]. rewrite (proj2 (Z.ltb_lt _ _)) by lia. apply prefix_range. lia.
Qed.

(** *** The purge *)

Section purged.
Context {CH : Chooser}.

Lemma elem_of_overdue c t r : r ∈ stale c t <-> Cdr.row_started_at r < c /\ exists i, t !! i = Some r.
Proof. unfold stale. rewrite elem_of_filter_bool, elem_of_table, Z.ltb_lt. naive_solver. Qed.

Lemma deletes_lookup gone (t : Cdrs) i :
  fold_left (fun t r => delete (Cdr.rowid r) t) gone t !! i = if bool_decide (i ∈ map Cdr.rowid gone) then None else t !! i.
Proof.
  revert t. induction gone as [|r gone IH]; intros t; [done|]. cbn [fold_left map]. rewrite IH.
  destruct (decide (i = Cdr.rowid r)) as [->|Hi].
  - rewrite lookup_delete_eq, (bool_decide_true (_ ∈ _ :: _)) by by left. by case_bool_decide.
  - rewrite lookup_delete_ne by done. repeat case_bool_decide; try done; [|]; exfalso; set_solver.
Qed.

(** One batch of a purge takes stale rows only, and some when there are any. *)
Lemma purge_batch_spec c n t : keyed t -> (0 < n)%nat ->
  let '(k, t') := purge_cdrs_started_before c n t in
  t' ⊆ t /\ (forall i r, t !! i = Some r -> c <= Cdr.row_started_at r -> t' !! i = Some r) /\
  (k + size t' = size t)%nat /\ (k = 0%nat -> t' = t /\ stale c t = []).
Proof.
  intros Hk Hn. unfold purge_cdrs_started_before. set (gone := chosen n (stale c t)).
  set (t' := fold_left _ gone t). assert (Hl : forall i, t' !! i = if bool_decide (i ∈ map Cdr.rowid gone) then None else t !! i)
    by apply deletes_lookup.
  assert (Hs : t' ⊆ t) by (apply map_subseteq_spec; intros i r; rewrite Hl; by case_bool_decide).
  assert (Hz := map_subseteq_size _ _ Hs). assert (Hg : gone ⊆ stale c t) by apply chosen_sub.
  split_and!; [done| |lia|].
  - intros i r Hi Hc. rewrite Hl, bool_decide_false; [done|]. intros (x & -> & Hx)%list_elem_of_fmap.
    apply Hg, elem_of_overdue in Hx as (Hlt & j & Hj). rewrite (Hk j x Hj) in Hi. rewrite Hj in Hi. injection Hi as ->. lia.
  - intros E. assert (Et : t' = t) by (apply map_subseteq_size_eq; [done|lia]). split; [done|].
    destruct (decide (stale c t = [])) as [|Hne]; [done|]. exfalso.
    assert (gone <> []) as Hgn by by apply chosen_some. destruct gone as [|x gone'] eqn:Eg; [done|].
    destruct (proj1 (elem_of_overdue c t x)) as (_ & j & Hj); [apply Hg; by left|]. specialize (Hl j). rewrite Et, Hj in Hl.
    rewrite bool_decide_true in Hl; [done|]. cbn [map]. rewrite (Hk j x Hj). by left.
Qed.
End purged.

Module Witness.

(** A number above all those in use, and the first rows of a list. *)
Definition ids : CdrIds.
Proof.
  refine {| next_rowid t := fresh (dom t) |}. intros t. apply not_elem_of_dom, is_fresh.
Defined.

Definition first_rows : Chooser.
Proof.
  refine {| chosen n l := take n l |}.
  - intros n l x Hx. by apply elem_of_take in Hx as (i & Hi%list_elem_of_lookup_2 & _).
  - intros n l. rewrite length_take. lia.
  - intros [|n] [|x l] Hn Hl; [lia|lia|done..].
Defined.

End Witness.
