(* ===== verification/CdrWriter.v ===== *)
(** * The writer of call records (cdr_writer.rs, storage.rs)

    The manager that takes the record of a finished call, the queue to the
    writer, the writer that mirrors, stores and retries, the acknowledgement of
    a flush, the import of the history once, and the purge. One operation is
    what runs between two waits; whether the database or the file fails is an
    argument of it. The counter of the queue is adjusted with the queue itself.
    Metrics and logs are left out. *)

From S2P Require Import Prelude Str Bytes Store CdrStore.
From S2P Require Cdr BanStore.

(** ** Constants and configuration *)

Definition CDR_QUEUE_CAPACITY : Z := 8192.
Definition BATCH_MAX : nat := 64.
Definition IMPORT_CHUNK : nat := 500.
Definition RETRY_MIN : Z := secs 1.
Definition RETRY_MAX : Z := secs 30.
Definition PURGE_BATCH : nat := 5000.
Definition JSONL_IMPORT_MARKER : string := "cdr_jsonl_imported_at".

(** [[cdr]] of the configuration file. *)
Record CdrConfig := mkCdrConfig {
  cfg_jsonl_path : option string;
  cfg_import_path : option string;
  cfg_retention_days : Z;
  cfg_import_jsonl : bool
}.

Record CdrWriterConfig := mkWriterConfig {
  jsonl_path : option string;
  import_path : option string;
  retention_days : Z;
  import_jsonl : bool
}.

(** [cdr_file]: that of [[general]]. *)
Definition from_config (cdr : CdrConfig) (cdr_file : option string) : CdrWriterConfig :=
  let jsonl_path := match cfg_jsonl_path cdr with Some p => Some p | None => cdr_file end in
  mkWriterConfig jsonl_path (match cfg_import_path cdr with Some p => Some p | None => jsonl_path end)
    (cfg_retention_days cdr) (cfg_import_jsonl cdr).

(** ** The manager and the writer *)

(** A message of the queue; a flush has its acknowledgement. *)
Inductive CdrMsg := Queue (r : Cdr.CdrRecord) | Flush (ack : nat).

Inductive CdrInsert := Queued | Stored | CacheOnly.

(** The writer between two waits: for a message, for the store to accept a
    batch (with the pause before the next attempt), or gone. *)
Inductive Phase :=
  | Idle
  | Writing (batch : list Cdr.CdrRecord) (flushes : list nat) (wait : Z)
  | Done.

Record CdrManager := mkManager {
  cache : list Cdr.CdrRecord;
  sender : bool;
  queue : list CdrMsg;
  queue_len : Z;
  stopping : bool;
  cdrs : Cdrs;
  phase : Phase;
  mirror_file : list Cdr.CdrRecord;
  acked : list nat
}.

#[export] Instance eta_manager : Eta CdrManager := fun m =>
  mkManager (cache m) (sender m) (queue m) (queue_len m) (stopping m) (cdrs m) (phase m) (mirror_file m) (acked m).

(** [with_store] *)
Definition with_store (t : Cdrs) (file : list Cdr.CdrRecord) : CdrManager := mkManager [] true [] 0 false t Idle file [].

Definition room (m : CdrManager) : bool := Z.of_nat (length (queue m)) <? CDR_QUEUE_CAPACITY.
Definition gone (m : CdrManager) : bool := match phase m with Done => true | _ => false end.

Definition insert (r : Cdr.CdrRecord) (m : CdrManager) : CdrInsert * CdrManager :=
  let m := m <| cache := Cdr.insert_cdr r (cache m) |> in
  if negb (sender m) then (Stored, m)
  else if room m && negb (gone m) then
    (Queued, m <| queue := queue m ++ [Queue r] |> <| queue_len := wrapw 64 (queue_len m + 1) |>)
  else (CacheOnly, m).

(** [flush]: the message is sent when there is room. *)
Definition flush (ack : nat) (m : CdrManager) : CdrManager :=
  if sender m && room m && negb (gone m) then m <| queue := queue m ++ [Flush ack] |> else m.

(** What the writer takes with a record: more records, and the flushes
    between them. *)
Fixpoint collect (space : nat) (q : list CdrMsg) : list Cdr.CdrRecord * list nat * list CdrMsg :=
  match space, q with
  | S n, Queue r :: q => let '(b, f, q) := collect n q in (r :: b, f, q)
  | S _, Flush a :: q => let '(b, f, q) := collect space q in (b, a :: f, q)
  | _, _ => ([], [], q)
  end.

Section writer.
Context {CI : CdrIds} {CH : Chooser}.
Context (cfg : CdrWriterConfig).

(** The writer takes a message; [mirrored]: whether the mirror was written. *)
Definition turn (mirrored : bool) (m : CdrManager) : CdrManager :=
  match phase m, queue m with
  | Idle, Queue r :: q =>
      let '(b, f, q) := collect (BATCH_MAX - 1) q in
      let m := m <| queue := q |> <| phase := Writing (r :: b) f RETRY_MIN |> in
      match jsonl_path cfg with
      | Some _ => if mirrored then m <| mirror_file := mirror_file m ++ r :: b |> else m
      | None => m
      end
  | Idle, Flush a :: q => m <| queue := q |> <| acked := acked m ++ [a] |>
  | Idle, [] => if sender m then m else m <| phase := Done |>
  | _, _ => m
  end.

(** The end of [write_batch], and the acknowledgements after it. *)
Definition batch_done (b : list Cdr.CdrRecord) (flushes : list nat) (m : CdrManager) : CdrManager :=
  m <| phase := Idle |> <| queue_len := wrapw 64 (queue_len m - Z.of_nat (length b)) |> <| acked := acked m ++ flushes |>.

Inductive Event := Accepted (r : Cdr.CdrRecord) | GaveUp (b : list Cdr.CdrRecord) | Purged (cutoff : Z).

(** One attempt to store the batch. *)
Definition attempt (fails : bool) (m : CdrManager) : list Event * CdrManager :=
  match phase m with
  | Writing b flushes wait =>
      match insert_cdrs fails (map Cdr.to_row b) (cdrs m) with
      | (Ok _, t) => ([], batch_done b flushes (m <| cdrs := t |>))
      | (Err _, _) =>
          if stopping m then ([GaveUp b], batch_done b flushes m)
          else ([], m <| phase := Writing b flushes (Z.min (wait * 2) RETRY_MAX) |>)
      end
  | _ => ([], m)
  end.

(** The loop of [purge_once]; [fails k]: the database fails in round [k]. *)
Fixpoint purge_loop (fuel : nat) (fails : nat -> bool) (round : nat) (cutoff : Z) (total : nat) (t : Cdrs)
    : option (result sbc_error nat * Cdrs) :=
  match fuel with
  | O => None
  | S fuel =>
      if fails round then Some (Err (ETransport "cdr purge"), t)
      else let '(n, t) := purge_cdrs_started_before cutoff PURGE_BATCH t in
           if Nat.eqb n 0 then Some (Ok total, t) else purge_loop fuel fails (S round) cutoff (total + n) t
  end.

Definition purge_cutoff (now : Z) : Z := now - retention_days cfg * 86400.

Definition purge_once (fails : nat -> bool) (now : Z) (t : Cdrs) : option (result sbc_error nat * Cdrs) :=
  purge_loop (S (size t)) fails 0 (purge_cutoff now) 0 t.

(** A tick of the retention timer; [now]: seconds since the epoch. *)
Definition retention (fails : nat -> bool) (now : Z) (m : CdrManager) : list Event * CdrManager :=
  match phase m with
  | Idle =>
      if 0 <? retention_days cfg then
        match purge_once fails now (cdrs m) with
        | Some (_, t) => ([Purged (purge_cutoff now)], m <| cdrs := t |>)
        | None => ([], m)
        end
      else ([], m)
  | _ => ([], m)
  end.

(** *** Operations *)

Inductive Op :=
  | Insert (r : Cdr.CdrRecord)
  | FlushOp (ack : nat)
  | Turn (mirrored : bool)
  | Attempt (fails : bool)
  | Retention (fails : nat -> bool) (now : Z)
  | Stop
  | DropSender.

Definition step (o : Op) (m : CdrManager) : list Event * CdrManager :=
  match o with
  | Insert r => match insert r m with (Queued, m) => ([Accepted r], m) | (_, m) => ([], m) end
  | FlushOp a => ([], flush a m)
  | Turn b => ([], turn b m)
  | Attempt b => attempt b m
  | Retention fails now => retention fails now m
  | Stop => ([], m <| stopping := true |>)
  | DropSender => ([], m <| sender := false |>)
  end.

Fixpoint run (ops : list Op) (m : CdrManager) : list Event * CdrManager :=
  match ops with
  | [] => ([], m)
  | o :: ops => let '(es, m) := step o m in let '(es', m) := run ops m in (es ++ es', m)
  end.
End writer.

(** ** Pages of the memory (storage.rs) *)

(** [get_page]: newest first. *)
Definition get_page (limit offset : nat) (records : list Cdr.CdrRecord) : list Cdr.CdrRecord * nat :=
  let window := Cdr.list_recent_cdrs (offset + limit) records in
  (take limit (drop offset (rev window)), length window).

(** [record_call] *)
Definition called (wall : Z) (uuid cid from to : string) (n : Z) (webrtc : bool) (c : option string) (why : string) : Cdr.CdrRecord :=
  let r := Cdr.with_disconnect_reason why (Cdr.with_webrtc webrtc (Cdr.with_duration n (Cdr.new_cdr wall uuid cid from to))) in
  match c with Some c => Cdr.with_codec c r | None => r end.

Definition record_call (wall : Z) (uuid cid from to : string) (n : Z) (webrtc : bool) (c : option string) (why : string)
    (m : CdrManager) : CdrInsert * CdrManager :=
  insert (called wall uuid cid from to n webrtc c why) m.

(** ** Records in a file (storage.rs) *)

Inductive FileIo := FileWritten | OpenFailed | WriteFailed | FlushFailed.

Record FileCdrStorage := mkFile { on_disk : list Cdr.CdrRecord; in_memory : list Cdr.CdrRecord; errors : nat }.

(** [insert_cdr]: the file first. *)
Definition file_insert (io : FileIo) (r : Cdr.CdrRecord) (s : FileCdrStorage) : sbc_result unit * FileCdrStorage :=
  match io with
  | FileWritten => (Ok tt, mkFile (on_disk s ++ [r]) (Cdr.insert_cdr r (in_memory s)) (errors s))
  | OpenFailed => (Err (ETransport "CDR file open"), mkFile (on_disk s) (in_memory s) (S (errors s)))
  | WriteFailed => (Err (ETransport "CDR file write"), mkFile (on_disk s) (in_memory s) (S (errors s)))
  | FlushFailed => (Err (ETransport "CDR file write"), mkFile (on_disk s ++ [r]) (in_memory s) (S (errors s)))
  end.

(** The lines of an existing file that hold a record, read at the start. *)
Definition file_record (parse : string -> option Cdr.CdrRecord) (line : string) : option Cdr.CdrRecord :=
  let line := trim line in if starts_with "{" line then parse line else None.

Definition file_load (parse : string -> option Cdr.CdrRecord) (lines : list string) : list Cdr.CdrRecord :=
  fold_left (fun tail line => match file_record parse line with Some r => Cdr.insert_cdr r tail | None => tail end) lines [].

(** ** Lemmas *)

Definition records (q : list CdrMsg) : list Cdr.CdrRecord :=
  omap (fun m => match m with Queue r => Some r | Flush _ => None end) q.
Definition waiting (q : list CdrMsg) : list nat :=
  omap (fun m => match m with Flush a => Some a | Queue _ => None end) q.

(** The batch being stored. *)
Definition in_hand (m : CdrManager) : list Cdr.CdrRecord := match phase m with Writing b _ _ => b | _ => [] end.
Definition to_ack (m : CdrManager) : list nat := match phase m with Writing _ f _ => f | _ => [] end.

(** A record of the same call is in the store. *)
Definition stored (t : Cdrs) (r : Cdr.CdrRecord) : Prop := exists i x, t !! i = Some x /\ same_record (Cdr.to_row r) x = true.

(** What can become of a record: stored, given up at the shutdown, or stored
    and purged by retention. *)
Definition settled (m : CdrManager) (es : list Event) (r : Cdr.CdrRecord) : Prop :=
  stored (cdrs m) r \/ (exists b, GaveUp b ∈ es /\ r ∈ b) \/
  (exists c x, Purged c ∈ es /\ Cdr.row_started_at x < c /\ same_record (Cdr.to_row r) x = true).

Lemma elem_of_records r q : r ∈ records q <-> Queue r ∈ q.
Proof.
  unfold records. rewrite list_elem_of_omap. split; [by intros ([x|a] & Hx & [= <-])|by intros H; exists (Queue r)].
Qed.
Lemma elem_of_waiting a q : a ∈ waiting q <-> Flush a ∈ q.
Proof.
  unfold waiting. rewrite list_elem_of_omap. split; [by intros ([x|b] & Hx & [= <-])|by intros H; exists (Flush a)].
Qed.

(** The writer takes a prefix of the queue. *)
Lemma collect_spec n q : let '(b, f, q') := collect n q in
  exists p, q = p ++ q' /\ records p = b /\ waiting p = f /\ (length b <= n)%nat.
Proof.
  revert n. induction q as [|[r|a] q IH]; intros [|n]; cbn [collect]; try by (exists []; split_and!; [..|cbn; lia]).
  - specialize (IH n). destruct (collect n q) as [[b f] q'], IH as (p & -> & <- & <- & Hn). exists (Queue r :: p).
    split_and!; [done..|]. cbn. unfold records in *. lia.
  - specialize (IH (S n)). destruct (collect (S n) q) as [[b f] q'], IH as (p & -> & <- & <- & Hn). by exists (Flush a :: p).
Qed.

(** The memory of a storage holds its last records; so does what is loaded. *)
Definition newest (l : list Cdr.CdrRecord) : list Cdr.CdrRecord := drop (length l - Z.to_nat Cdr.MAX_CACHED_CDRS) l.

Lemma insert_newest r l : Cdr.insert_cdr r (newest l) = newest (l ++ [r]).
Proof.
  unfold Cdr.insert_cdr, newest. rewrite length_drop, length_app. cbn [length]. destruct (_ <=? _) eqn:E; to_prop.
  - rewrite drop_drop, drop_app_le by (unfold Cdr.MAX_CACHED_CDRS in *; lia). f_equal. f_equal. unfold Cdr.MAX_CACHED_CDRS in *. lia.
  - assert (Hl : (length l < Z.to_nat Cdr.MAX_CACHED_CDRS)%nat) by (unfold Cdr.MAX_CACHED_CDRS in *; lia).
    replace (length l - _)%nat with 0%nat by lia. replace (length l + 1 - _)%nat with 0%nat by lia. done.
Qed.

Lemma file_load_newest parse lines : file_load parse lines = newest (omap (file_record parse) lines).
Proof.
  unfold file_load. induction lines as [|line lines IH] using rev_ind; [done|].
  rewrite fold_left_app, IH, omap_app. cbn [fold_left omap list_omap].
  destruct (file_record parse line); [apply insert_newest|by rewrite app_nil_r].
Qed.

Section proofs.
Context {CI : CdrIds} {CH : Chooser}.
Context (cfg : CdrWriterConfig).

Lemma distinct_sub (t t' : Cdrs) : t' ⊆ t -> distinct t -> distinct t'.
Proof. intros Hs Hd i j a b Ha Hb. apply (Hd i j a b); by eapply lookup_weaken. Qed.
Lemma keyed_sub (t t' : Cdrs) : t' ⊆ t -> keyed t -> keyed t'.
Proof. intros Hs Hk i r Hi. apply Hk. by eapply lookup_weaken. Qed.

(** The purge ends; what it removes started before the cutoff, and when the
    database works it leaves nothing that did. *)
Lemma purge_loop_spec fuel fails k c n t : keyed t -> (size t < fuel)%nat ->
  exists res t', purge_loop fuel fails k c n t = Some (res, t') /\ t' ⊆ t /\
  (forall i r, t !! i = Some r -> c <= Cdr.row_started_at r -> t' !! i = Some r) /\
  ((forall j, fails j = false) -> res = Ok (n + size t - size t')%nat /\ stale c t' = []).
Proof.
  revert k n t. induction fuel as [|fuel IH]; intros k n t Hk Hf; [lia|]. cbn [purge_loop].
  destruct (fails k) eqn:Ef.
  { eexists _, _. split; [done|]. split_and!; [done|done|]. intros H. by rewrite H in Ef. }
  assert (H := purge_batch_spec c PURGE_BATCH t Hk ltac:(unfold PURGE_BATCH; lia)).
  destruct (purge_cdrs_started_before c PURGE_BATCH t) as [m t1], H as (Hs & Hr & Hz & H0).
  destruct (Nat.eqb_spec m 0) as [->|Hm].
  - destruct (H0 eq_refl) as [-> Hst]. eexists _, _. split; [done|]. split_and!; [done|done|]. intros _. split; [f_equal; lia|done].
  - destruct (IH (S k) (n + m)%nat t1) as (res & t' & E & Hs' & Hr' & Hok); [by eapply keyed_sub|lia|].
    exists res, t'. split; [done|]. split_and!; [by etransitivity|by eauto|]. intros Hw. destruct (Hok Hw) as [-> Hst].
    split; [f_equal; lia|done].
Qed.

Lemma purge_once_spec fails now t : keyed t ->
  exists res t', purge_once cfg fails now t = Some (res, t') /\ t' ⊆ t /\
  (forall i r, t !! i = Some r -> purge_cutoff cfg now <= Cdr.row_started_at r -> t' !! i = Some r) /\
  ((forall j, fails j = false) -> res = Ok (size t - size t')%nat /\ stale (purge_cutoff cfg now) t' = []).
Proof. intros Hk. apply (purge_loop_spec _ fails 0 _ 0 t Hk). lia. Qed.

(** *** The state of the writer *)

Record writer_inv (es : list Event) (m : CdrManager) : Prop := {
  inv_keyed : keyed (cdrs m);
  inv_distinct : distinct (cdrs m);
  inv_accepted r : Accepted r ∈ es -> settled m es r \/ r ∈ in_hand m \/ Queue r ∈ queue m;
  inv_gave_up b : GaveUp b ∈ es -> stopping m = true;
  inv_capacity : Z.of_nat (length (queue m)) <= CDR_QUEUE_CAPACITY;
  inv_batch : (length (in_hand m) <= BATCH_MAX)%nat;
  inv_len : queue_len m = Z.of_nat (length (records (queue m)) + length (in_hand m))
}.

Lemma settled_mono es es' m m' r : cdrs m ⊆ cdrs m' -> settled m es r -> settled m' (es ++ es') r.
Proof.
  intros Hs [(i & x & Hi & Hx)|[(b & Hb & Hr)|(c & x & Hc & Hx)]].
  - left. exists i, x. split; [by eapply lookup_weaken|done].
  - right. left. exists b. split; [set_solver|done].
  - right. right. exists c, x. split; [set_solver|done].
Qed.

Lemma records_short q : (length (records q) <= length q)%nat.
Proof. induction q as [|[r|a] q IH]; cbn; unfold records in *; lia. Qed.

Lemma records_app p q : records (p ++ q) = records p ++ records q.
Proof. apply omap_app. Qed.

Lemma insert_cdrs_grows fails rows t n t' : insert_cdrs fails rows t = (Ok n, t') -> t ⊆ t'.
Proof.
  intros E. replace t' with (insert_rows_on rows t).2; [apply insert_rows_grow|].
  unfold insert_cdrs, committed in E. destruct rows as [|r rows]; [by injection E|]. destruct fails; [done|].
  destruct (insert_rows_on _ _). by injection E.
Qed.

Lemma insert_cdrs_ok fails rows t n t' : keyed t -> distinct t -> insert_cdrs fails rows t = (Ok n, t') ->
  keyed t' /\ distinct t' /\ t ⊆ t' /\ Forall (fun r => exists i x, t' !! i = Some x /\ same_record r x = true) rows.
Proof.
  intros Hk Hd E. replace t' with (insert_rows_on rows t).2; [by apply insert_rows_spec|].
  unfold insert_cdrs, committed in E. destruct rows as [|r rows]; [by injection E|]. destruct fails; [done|].
  destruct (insert_rows_on _ _). by injection E.
Qed.

(** What was dealt with stays so, and what is being stored becomes so or stays
    in hand. *)
Lemma settled_step o es m r : keyed (cdrs m) -> settled m es r -> let '(es1, m1) := step cfg o m in settled m1 (es ++ es1) r.
Proof.
  intros Hk H.
  assert (Hsame : forall es1 m', cdrs m ⊆ cdrs m' -> settled m' (es ++ es1) r) by (intros es1 m' Ht; by apply (settled_mono es es1 m)).
  destruct o as [x|a|b|b|fails now| |]; cbn [step]; try by apply Hsame.
  - unfold insert. cbn [sender set_field]. destruct (negb (sender m)); [by apply Hsame|]. destruct (_ && _); by apply Hsame.
  - unfold flush. destruct (_ && _); by apply Hsame.
  - apply Hsame. unfold turn. destruct (phase m), (queue m) as [|[x|a] q]; try done; [by destruct (sender m)|].
    destruct (collect _ q) as [[bs f] q']. by destruct (jsonl_path cfg), b.
  - unfold attempt. destruct (phase m) as [|bs f w|]; try by apply Hsame.
    destruct (insert_cdrs b (map Cdr.to_row bs) (cdrs m)) as [[n|e] t] eqn:Ei; [|by destruct (stopping m); apply Hsame].
    apply Hsame. cbn. by apply (insert_cdrs_grows _ _ _ _ _ Ei).
  - unfold retention. destruct (phase m) eqn:Ep; try by apply Hsame. destruct (0 <? retention_days cfg); [|by apply Hsame].
    destruct (purge_once_spec fails now (cdrs m) Hk) as (res & t & -> & Hs & Hr & _).
    destruct H as [(i & y & Hi & Hy)|[(b & Hb & Hx)|(c & y & Hc & Hy)]].
    + destruct (Z.le_gt_cases (purge_cutoff cfg now) (Cdr.row_started_at y)).
      * left. exists i, y. split; [by apply Hr|done].
      * right. right. exists (purge_cutoff cfg now), y. split; [set_solver|done].
    + right. left. exists b. split; [set_solver|done].
    + right. right. exists c, y. split; [set_solver|done].
Qed.

Lemma held_step o es m r : keyed (cdrs m) -> distinct (cdrs m) -> settled m es r \/ r ∈ in_hand m ->
  let '(es1, m1) := step cfg o m in settled m1 (es ++ es1) r \/ r ∈ in_hand m1.
Proof.
  intros Hk Hd [H|H]; [assert (H1 := settled_step o es m r Hk H); destruct (step cfg o m); by left|].
  assert (Hsame : forall es1 m', in_hand m' = in_hand m -> settled m' (es ++ es1) r \/ r ∈ in_hand m') by (intros es1 m' ->; by right).
  unfold in_hand in H. destruct (phase m) as [|bs f w|] eqn:Ep; try set_solver.
  destruct o as [x|a|b|b|fails now| |]; cbn [step]; try by apply Hsame.
  - unfold insert. cbn [sender set_field]. destruct (negb (sender m)); [by apply Hsame|]. destruct (_ && _); by apply Hsame.
  - unfold flush. destruct (_ && _); by apply Hsame.
  - unfold turn. rewrite Ep. by apply Hsame.
  - unfold attempt. rewrite Ep. destruct (insert_cdrs b (map Cdr.to_row bs) (cdrs m)) as [[n|e] t] eqn:Ei.
    + left. left. destruct (insert_cdrs_ok _ _ _ _ _ Hk Hd Ei) as (_ & _ & _ & Hf). rewrite Forall_map, Forall_forall in Hf. by apply Hf.
    + destruct (stopping m); [|right; done]. left. right. left. exists bs. split; [set_solver|done].
  - unfold retention. rewrite Ep. by apply Hsame.
Qed.

Lemma insert_inv r es m : writer_inv es m -> let '(es1, m1) := step cfg (Insert r) m in writer_inv (es ++ es1) m1.
Proof.
  intros [Hk Hd Ha Hg Hc Hb Hl]. cbn [step]. unfold insert. cbn [sender set_field].
  destruct (negb (sender m)); [by rewrite app_nil_r; constructor|].
  destruct (room _ && negb (gone _)) eqn:E; [|by rewrite app_nil_r; constructor]. apply andb_true_iff in E as [Hroom _].
  unfold room in Hroom. cbn in Hroom. apply Z.ltb_lt in Hroom. assert (Hs := records_short (queue m)). constructor; cbn.
  - done.
  - done.
  - intros x [Hx|[= ->]%list_elem_of_singleton]%elem_of_app; [|right; right; set_solver].
    destruct (Ha x Hx) as [H|[H|H]]; [left; by apply (settled_mono es [Accepted r] m)|by right; left|right; right; set_solver].
  - intros b [Hx|Hx]%elem_of_app; [by eapply Hg|set_solver].
  - rewrite length_app. cbn. lia.
  - done.
  - rewrite records_app, length_app. cbn. change (in_hand _) with (in_hand m). rewrite wrapw_small; [lia|].
    unfold is_uw, CDR_QUEUE_CAPACITY, BATCH_MAX in *. lia.
Qed.

Lemma flush_inv a es m : writer_inv es m -> let '(es1, m1) := step cfg (FlushOp a) m in writer_inv (es ++ es1) m1.
Proof.
  intros [Hk Hd Ha Hg Hc Hb Hl]. cbn [step]. rewrite app_nil_r. unfold flush.
  destruct (sender m && room m && negb (gone m)) eqn:E; [|by constructor]. apply andb_true_iff in E as [E _].
  apply andb_true_iff in E as [_ Hroom]. unfold room in Hroom. apply Z.ltb_lt in Hroom. constructor; cbn; try done.
  - intros x Hx. destruct (Ha x Hx) as [H|[H|H]]; [by left|by right; left|right; right; set_solver].
  - rewrite length_app. cbn. lia.
  - rewrite records_app, app_nil_r. by change (in_hand _) with (in_hand m).
Qed.

Lemma turn_inv b es m : writer_inv es m -> let '(es1, m1) := step cfg (Turn b) m in writer_inv (es ++ es1) m1.
Proof.
  intros [Hk Hd Ha Hg Hc Hb Hl]. cbn [step]. rewrite app_nil_r. unfold turn. destruct (phase m) as [|? ? ?|] eqn:Ep; try by constructor.
  assert (Hih : in_hand m = []) by (unfold in_hand; by rewrite Ep). rewrite Hih in *.
  destruct (queue m) as [|[r|a] q] eqn:Eq.
  - destruct (sender m); [constructor; rewrite ?Hih, ?Eq; done|]. constructor; cbn; rewrite ?Eq; done.
  - assert (Hp := collect_spec (BATCH_MAX - 1) q). destruct (collect (BATCH_MAX - 1) q) as [[bs f] q'], Hp as (p & -> & <- & <- & Hn).
    set (m1 := m <| queue := q' |> <| phase := Writing (r :: records p) (waiting p) RETRY_MIN |>).
    set (m2 := match jsonl_path cfg with Some _ => if b then m1 <| mirror_file := mirror_file m1 ++ r :: records p |> else m1 | None => m1 end).
    assert (H2 : cdrs m2 = cdrs m /\ stopping m2 = stopping m /\ queue m2 = q' /\ in_hand m2 = r :: records p /\ queue_len m2 = queue_len m).
    { unfold m2. by destruct (jsonl_path cfg), b. }
    clearbody m2. destruct H2 as (E1 & E2 & E3 & E4 & E5). constructor; rewrite ?E1, ?E2, ?E3, ?E4, ?E5; try done.
    + intros x Hx. destruct (Ha x Hx) as [H|[H|H]]; [left; unfold settled in *; by rewrite E1|set_solver|].
      rewrite elem_of_cons, elem_of_app in H. destruct H as [[= ->]|[H|H]]; [right; left; by left| |by right; right].
      right. left. right. by apply elem_of_records.
    + cbn [length] in Hc. rewrite length_app in Hc. lia.
    + cbn [length]. unfold BATCH_MAX in *. lia.
    + rewrite Hl. cbn. change (omap _ (p ++ q')) with (records (p ++ q')). rewrite records_app, length_app. lia.
  - constructor; cbn; rewrite ?Hih; try done.
    + intros x Hx. destruct (Ha x Hx) as [H|[H|H]]; [by left|set_solver|].
      right. right. by apply elem_of_cons in H as [[=]|H].
    + cbn in Hc. lia.
    + change (in_hand _) with (in_hand m). by rewrite Hih.
    + change (in_hand _) with (in_hand m). by rewrite Hih, Hl.
Qed.

Lemma attempt_inv b es m : writer_inv es m -> let '(es1, m1) := step cfg (Attempt b) m in writer_inv (es ++ es1) m1.
Proof.
  intros [Hk Hd Ha Hg Hc Hb Hl]. assert (Hh := fun r => held_step (Attempt b) es m r Hk Hd). revert Hh. cbn [step]. unfold attempt.
  destruct (phase m) as [|bs f w|] eqn:Ep; try by (rewrite app_nil_r; constructor).
  assert (Hih : in_hand m = bs) by (unfold in_hand; by rewrite Ep). rewrite Hih in *. assert (Hs := records_short (queue m)).
  assert (Hlen : wrapw 64 (queue_len m - Z.of_nat (length bs)) = Z.of_nat (length (records (queue m)) + 0)).
  { rewrite Hl, wrapw_small; [lia|]. unfold is_uw, CDR_QUEUE_CAPACITY, BATCH_MAX in *. lia. }
  destruct (insert_cdrs b (map Cdr.to_row bs) (cdrs m)) as [[n|e] t] eqn:Ei; [|destruct (stopping m) eqn:Es]; intros Hh;
    rewrite ?app_nil_r in *.
  - destruct (insert_cdrs_ok _ _ _ _ _ Hk Hd Ei) as (Hk' & Hd' & _ & _).
    constructor; cbn; try done; try (unfold BATCH_MAX; lia). intros x Hx. specialize (Hh x). specialize (Ha x Hx). tauto.
  - constructor; cbn; try done; try (unfold BATCH_MAX; lia). intros x [Hx|Hx]%elem_of_app; [|set_solver].
    specialize (Hh x). specialize (Ha x Hx). tauto.
  - constructor; cbn; try done. by rewrite Es.
Qed.

Lemma retention_inv fails now es m : writer_inv es m ->
  let '(es1, m1) := step cfg (Retention fails now) m in writer_inv (es ++ es1) m1.
Proof.
  intros [Hk Hd Ha Hg Hc Hb Hl]. assert (Hh := fun r => held_step (Retention fails now) es m r Hk Hd). revert Hh.
  cbn [step]. unfold retention. destruct (phase m) eqn:Ep; try by (rewrite app_nil_r; constructor).
  destruct (0 <? retention_days cfg); [|by rewrite app_nil_r; constructor].
  destruct (purge_once_spec fails now (cdrs m) Hk) as (res & t & -> & Hs & _ & _). intros Hh.
  constructor; cbn; try done; [by eapply keyed_sub|by eapply distinct_sub| |].
  - intros x [Hx|Hx]%elem_of_app; [|set_solver]. specialize (Hh x). specialize (Ha x Hx). tauto.
  - intros b [Hx|Hx]%elem_of_app; [by eapply Hg|set_solver].
Qed.

Lemma step_inv o es m : writer_inv es m -> let '(es1, m1) := step cfg o m in writer_inv (es ++ es1) m1.
Proof.
  intros H. destruct o as [r|a|b|b|fails now| |]; [by apply insert_inv|by apply flush_inv|by apply turn_inv|by apply attempt_inv|
    by apply retention_inv|destruct H; cbn [step]; rewrite app_nil_r; by constructor..].
Qed.

Lemma run_writer_inv ops es m : writer_inv es m -> let '(es1, m1) := run cfg ops m in writer_inv (es ++ es1) m1.
Proof.
  revert es m. induction ops as [|o ops IH]; intros es m H; [by cbn; rewrite app_nil_r|]. cbn [run].
  assert (H1 := step_inv o es m H). destruct (step cfg o m) as [es1 m1]. specialize (IH _ _ H1).
  destruct (run cfg ops m1) as [es2 m2]. by rewrite app_assoc.
Qed.

Lemma fresh_inv t file : keyed t -> distinct t -> writer_inv [] (with_store t file).
Proof. intros Hk Hd. constructor; cbn; try done; try set_solver. unfold BATCH_MAX. lia. Qed.

(** *** The mirror *)

Definition mirrors (o : Op) : Prop := match o with Turn b => b = true | _ => True end.

Definition mirror_inv (es : list Event) (m : CdrManager) : Prop :=
  in_hand m ⊆ mirror_file m /\ forall b, GaveUp b ∈ es -> b ⊆ mirror_file m.

Lemma step_mirror o es m : jsonl_path cfg <> None -> mirrors o -> mirror_inv es m ->
  let '(es1, m1) := step cfg o m in mirror_inv (es ++ es1) m1.
Proof.
  intros Hp Ho [Hh Hg].
  assert (Hq : forall m', in_hand m' = [] \/ in_hand m' = in_hand m -> mirror_file m' = mirror_file m -> mirror_inv (es ++ []) m').
  { intros m' Hi Hf. rewrite app_nil_r. split; rewrite Hf; [destruct Hi as [->| ->]; set_solver|done]. }
  destruct o as [r|a|b|b|fails now| |]; cbn [step].
  - unfold insert. cbn [sender set_field]. destruct (negb (sender m)); [by apply Hq; [right|]|].
    destruct (room _ && _); [|by apply Hq; [right|]]. split; [done|]. intros b [Hb|Hb]%elem_of_app; [by apply Hg|set_solver].
  - unfold flush. apply Hq; [right|]; by destruct (_ && _).
  - unfold turn. destruct (phase m) eqn:Ep; try (by apply Hq; [right|]). destruct (queue m) as [|[r|a] q] eqn:Eq.
    + destruct (sender m); apply Hq; try done; [by right|by left].
    + cbn in Ho. subst b. destruct (collect _ q) as [[bs f] q']. destruct (jsonl_path cfg); [|done]. rewrite app_nil_r.
      split; cbn; [set_solver|]. intros b Hb. specialize (Hg b Hb). set_solver.
    + by apply Hq; [right|].
  - unfold attempt. destruct (phase m) as [|bs f w|] eqn:Ep; try (by apply Hq; [right|]).
    destruct (insert_cdrs _ _ _) as [[n|e] t]; [by apply Hq; [left|]|]. destruct (stopping m).
    + unfold in_hand in Hh. rewrite Ep in Hh. split; cbn; [set_solver|]. intros b' [Hb|Hb]%elem_of_app; [by apply Hg|].
      apply list_elem_of_singleton in Hb as [= ->]. done.
    + apply Hq; [right; unfold in_hand; by rewrite Ep|done].
  - unfold retention. destruct (phase m) eqn:Ep; try (by apply Hq; [right|]). destruct (0 <? _); [|by apply Hq; [right|]].
    destruct (purge_once _ _ _ _) as [[? t]|]; [|by apply Hq; [right|]]. split; [done|].
    intros b [Hb|Hb]%elem_of_app; [by apply Hg|set_solver].
  - by apply Hq; [right|].
  - by apply Hq; [right|].
Qed.

Lemma run_mirror ops es m : jsonl_path cfg <> None -> Forall mirrors ops -> mirror_inv es m ->
  let '(es1, m1) := run cfg ops m in mirror_inv (es ++ es1) m1.
Proof.
  intros Hp Ho. revert es m. induction Ho as [|o ops Ho _ IH]; intros es m H; [by cbn; rewrite app_nil_r|]. cbn [run].
  assert (H1 := step_mirror o es m Hp Ho H). destruct (step cfg o m) as [es1 m1]. specialize (IH _ _ H1).
  destruct (run cfg ops m1) as [es2 m2]. by rewrite app_assoc.
Qed.

(** C27: whatever the operations, their order and the failures of the database
    and of the mirror, every record the writer's queue accepted is stored
    (the record, or one of the same call), in the batch being stored, or
    still in the queue, unless retention purged it or the writer gave its
    batch up; that happens only once the shutdown has begun, and then the
    batch is in the mirror when there is one and it could be written. No
    record is stored twice, and the length of the queue that is reported is
    that of the records accepted and not yet dealt with. *)
Theorem accepted_records_kept t file ops es m : keyed t -> distinct t -> run cfg ops (with_store t file) = (es, m) ->
  (forall r, Accepted r ∈ es -> settled m es r \/ r ∈ in_hand m \/ Queue r ∈ queue m) /\
  (forall b, GaveUp b ∈ es -> stopping m = true /\ (jsonl_path cfg <> None -> Forall mirrors ops -> b ⊆ mirror_file m)) /\
  distinct (cdrs m) /\ queue_len m = Z.of_nat (length (records (queue m)) + length (in_hand m)).
Proof.
  intros Hk Hd E. assert (H := run_writer_inv ops [] _ (fresh_inv t file Hk Hd)). rewrite E in H. destruct H as [_ Hd' Ha Hg _ _ Hl].
  split_and!; [done| |done|done]. intros b Hb. split; [by eapply Hg|]. intros Hp Ho.
  assert (H := run_mirror ops [] (with_store t file) Hp Ho). rewrite E in H. apply H; [|done]. split; [|set_solver].
  unfold in_hand. cbn. set_solver.
Qed.

(** *** Flushes *)

(** What is known of a flush [a] that was sent after the records [rs]: it did
    not find room, it is in the queue behind them, the writer took it with
    them, or all of them are dealt with. *)
Inductive flushing (a : nat) (rs : list Cdr.CdrRecord) (es : list Event) (m : CdrManager) : Prop :=
  | Unsent : a ∉ acked m -> a ∉ waiting (queue m) -> a ∉ to_ack m -> flushing a rs es m
  | Behind q1 q2 : queue m = q1 ++ Flush a :: q2 -> a ∉ acked m -> a ∉ waiting (q1 ++ q2) -> a ∉ to_ack m ->
      (forall r, r ∈ rs -> (settled m es r \/ r ∈ in_hand m) \/ Queue r ∈ q1) -> flushing a rs es m
  | Held : a ∉ acked m -> a ∉ waiting (queue m) -> (forall r, r ∈ rs -> settled m es r \/ r ∈ in_hand m) -> flushing a rs es m
  | Answered : (forall r, r ∈ rs -> settled m es r) -> flushing a rs es m.

Lemma waiting_app p q : waiting (p ++ q) = waiting p ++ waiting q.
Proof. apply omap_app. Qed.

(** Steps that at most add to the queue. *)
Lemma flushing_grows a rs es es1 m m1 l : flushing a rs es m -> queue m1 = queue m ++ l -> a ∉ waiting l ->
  acked m1 = acked m -> in_hand m1 = in_hand m -> to_ack m1 = to_ack m ->
  (forall r, settled m es r -> settled m1 (es ++ es1) r) -> flushing a rs (es ++ es1) m1.
Proof.
  intros H Hq Hl Ha Hh Ht Hs.
  destruct H as [H1 H2 H3|q1 q2 Eq H1 H2 H3 Hr|H1 H2 Hr|Hr].
  - apply Unsent; rewrite ?Ha, ?Hq, ?Ht, ?waiting_app; set_solver.
  - apply (Behind a rs _ m1 q1 (q2 ++ l)); rewrite ?Ha, ?Ht; try done.
    + by rewrite Hq, Eq, <- app_assoc.
    + rewrite app_assoc, waiting_app. set_solver.
    + intros r Hin. rewrite Hh. destruct (Hr r Hin) as [[H|H]|H]; auto.
  - apply Held; rewrite ?Ha, ?Hq, ?waiting_app; [done|set_solver|]. intros r Hin. rewrite Hh. destruct (Hr r Hin); auto.
  - apply Answered. auto.
Qed.

Lemma flushing_turn b a rs es m : flushing a rs es m -> flushing a rs es (turn cfg b m).
Proof.
  intros H. unfold turn. destruct (phase m) eqn:Ep; [|done..].
  assert (Hh : in_hand m = []) by (unfold in_hand; by rewrite Ep).
  assert (H' : (a ∉ acked m /\ a ∉ waiting (queue m)) \/ (exists q1 q2, queue m = q1 ++ Flush a :: q2 /\ a ∉ acked m /\
      a ∉ waiting (q1 ++ q2) /\ forall r, r ∈ rs -> settled m es r \/ Queue r ∈ q1) \/ (forall r, r ∈ rs -> settled m es r)).
  { destruct H as [H1 H2 H3|q1 q2 Eq H1 H2 H3 Hr|H1 H2 Hr|Hr]; [by left|right; left|right; right..].
    - exists q1, q2. split_and!; [done..|]. intros r Hin. specialize (Hr r Hin). rewrite Hh in Hr. set_solver.
    - intros r Hin. specialize (Hr r Hin). rewrite Hh in Hr. set_solver.
    - done. }
  clear H. destruct (queue m) as [|[x|c] q] eqn:Eq.
  - assert (Hu : flushing a rs es m).
    { destruct H' as [[H1 H2]|[(q1 & q2 & E & _)|H]]; [|by destruct q1|by apply Answered].
      apply Unsent; [done|by rewrite Eq|]. unfold to_ack. rewrite Ep. set_solver. }
    destruct (sender m); [done|]. destruct H' as [[H1 H2]|[(q1 & q2 & E & _)|H]]; [|by destruct q1|by apply Answered].
    apply Unsent; cbn; rewrite ?Eq; set_solver.
  - assert (Hp := collect_spec (BATCH_MAX - 1) q). destruct (collect (BATCH_MAX - 1) q) as [[bs f] q'], Hp as (p & -> & <- & <- & _).
    set (m1 := match jsonl_path cfg with Some _ => _ | None => _ end).
    assert (H1 : cdrs m1 = cdrs m /\ queue m1 = q' /\ acked m1 = acked m /\ in_hand m1 = x :: records p /\ to_ack m1 = waiting p)
      by (unfold m1; by destruct (jsonl_path cfg), b).
    clearbody m1. destruct H1 as (Ec & Eq1 & Ea & Eh & Et).
    assert (Hs : forall r, settled m es r -> settled m1 es r) by (intros r; unfold settled; by rewrite Ec).
    destruct H' as [[H1 H2]|[(q1 & q2 & E & H1 & H2 & Hr)|Hr]]; [| |apply Answered; auto].
    + change (waiting (Queue x :: p ++ q')) with (waiting (p ++ q')) in H2. rewrite waiting_app in H2.
      apply Unsent; rewrite ?Ea, ?Eq1, ?Et; set_solver.
    + destruct q1 as [|y q1]; [done|]. cbn [app] in E. injection E as <- E.
      change (waiting ((Queue x :: q1) ++ q2)) with (waiting (q1 ++ q2)) in H2. rewrite waiting_app in H2.
      assert (Hx : forall l1 l2, q1 = l1 ++ l2 -> (forall r, Queue r ∈ l1 -> r ∈ records p) ->
        forall r, r ∈ rs -> (settled m1 es r \/ r ∈ in_hand m1) \/ Queue r ∈ l2).
      { intros l1 l2 -> Hl r Hin. rewrite Eh. destruct (Hr r Hin) as [H|H]; [by auto|].
        apply elem_of_cons in H as [[= ->]|[H|H]%elem_of_app]; [left; right; by left|left; right; right; auto|by right]. }
      apply app_eq_app in E as [l [[-> El]|[-> El]]].
      * destruct l as [|[?|?] l]; cbn in El; simplify_eq; [|].
        -- apply (Behind a rs es m1 [] q2); rewrite ?Ea, ?Et; rewrite ?waiting_app in *; [done|done|set_solver|set_solver|].
           apply (Hx q1 []); [by rewrite app_nil_r|]. intros r Hin. rewrite app_nil_r in *. by apply elem_of_records.
        -- apply Held; rewrite ?Ea, ?Eq1; [done|rewrite waiting_app in H2; set_solver|]. intros r Hin.
           destruct (Hx q1 [] ltac:(by rewrite app_nil_r)) with (r := r) as [|H]; [|done|done|set_solver].
           intros z Hz. apply elem_of_records. set_solver.
      * apply (Behind a rs es m1 l q2); rewrite ?Ea, ?Et; rewrite ?waiting_app in *; [by rewrite Eq1|done|set_solver|set_solver|].
        apply (Hx p l); [done|]. intros r Hin. by apply elem_of_records.
  - destruct H' as [[H1 H2]|[(q1 & q2 & E & H1 & H2 & Hr)|Hr]]; [| |by apply Answered].
    + apply Unsent; cbn; [cbn in H2; set_solver|cbn in H2; unfold waiting; set_solver|]. unfold to_ack. cbn. rewrite Ep. set_solver.
    + destruct q1 as [|y q1]; cbn [app] in E; injection E as <- E.
      * apply Answered. intros r Hin. destruct (Hr r Hin) as [H|H]; [done|set_solver].
      * change (waiting ((Flush c :: q1) ++ q2)) with (c :: waiting (q1 ++ q2)) in H2.
        apply (Behind a rs es _ q1 q2); cbn; [done|set_solver|set_solver|unfold to_ack; cbn; rewrite Ep; set_solver|].
        intros r Hin. destruct (Hr r Hin) as [H|H]; [by left; left|right]. by apply elem_of_cons in H as [[=]|H].
Qed.

(** The end of a batch. *)
Lemma flushing_done a rs es es1 m m1 : flushing a rs es m -> queue m1 = queue m -> acked m1 = acked m ++ to_ack m ->
  to_ack m1 = [] -> in_hand m1 = [] ->
  (forall r, settled m es r \/ r ∈ in_hand m -> settled m1 (es ++ es1) r) -> flushing a rs (es ++ es1) m1.
Proof.
  intros H Hq Ha Ht Hh Hs. destruct H as [H1 H2 H3|q1 q2 Eq H1 H2 H3 Hr|H1 H2 Hr|Hr].
  - apply Unsent; rewrite ?Ha, ?Hq, ?Ht; set_solver.
  - apply (Behind a rs _ m1 q1 q2); rewrite ?Ha, ?Hq, ?Ht; [done|set_solver|done|set_solver|].
    intros r Hin. destruct (Hr r Hin) as [H|H]; [left; left; auto|by right].
  - apply Answered. auto.
  - apply Answered. auto.
Qed.

Lemma flushing_step o a rs es m : keyed (cdrs m) -> distinct (cdrs m) -> o <> FlushOp a -> flushing a rs es m ->
  let '(es1, m1) := step cfg o m in flushing a rs (es ++ es1) m1.
Proof.
  intros Hk Hd Ho H. assert (Hset := fun r => settled_step o es m r Hk). assert (Hh := fun r => held_step o es m r Hk Hd).
  assert (Hsame : forall es1 m1, queue m1 = queue m -> acked m1 = acked m -> in_hand m1 = in_hand m -> to_ack m1 = to_ack m ->
    (forall r, settled m es r -> settled m1 (es ++ es1) r) -> flushing a rs (es ++ es1) m1).
  { intros es1 m1 Hq Ha Hi Ht Hs. apply (flushing_grows a rs es es1 m m1 []); rewrite ?app_nil_r; try done. set_solver. }
  destruct o as [x|c|b|b|fails now| |]; cbn [step] in *; try by apply Hsame.
  - unfold insert in *. cbn [sender set_field] in *. destruct (negb (sender m)); [by apply Hsame|]. destruct (_ && _); [|by apply Hsame].
    apply (flushing_grows a rs es [Accepted x] m _ [Queue x]); try done. set_solver.
  - rewrite app_nil_r in *. unfold flush in *. destruct (_ && _); [|done]. rewrite <- (app_nil_r es).
    apply (flushing_grows a rs es [] m _ [Flush c]); try done; [|by rewrite app_nil_r]. cbn. intros Hc%list_elem_of_singleton. by subst c.
  - rewrite app_nil_r. by apply flushing_turn.
  - unfold attempt in *. destruct (phase m) as [|bs f w|] eqn:Ep; try by apply Hsame.
    assert (Hi : in_hand m = bs /\ to_ack m = f) by (unfold in_hand, to_ack; by rewrite Ep). destruct Hi as [Hi Hf].
    assert (Hend : forall es1 m1, (forall r, settled m es r \/ r ∈ in_hand m -> settled m1 (es ++ es1) r \/ r ∈ in_hand m1) ->
      in_hand m1 = [] -> forall r, settled m es r \/ r ∈ in_hand m -> settled m1 (es ++ es1) r).
    { intros es1 m1 H1 H2 r Hr. specialize (H1 r Hr). rewrite H2 in H1. set_solver. }
    destruct (insert_cdrs _ _ _) as [[n|e] t]; [|destruct (stopping m)].
    + apply (flushing_done a rs es [] m); cbn; rewrite ?Hf; try done. by apply Hend.
    + apply (flushing_done a rs es _ m); cbn; rewrite ?Hf; try done. by apply Hend.
    + by apply Hsame.
  - unfold retention in *. destruct (phase m) eqn:Ep; try by apply Hsame. destruct (0 <? _); [|by apply Hsame].
    destruct (purge_once _ _ _ _) as [[? t]|]; by apply Hsame.
Qed.

Lemma run_flushing ops a rs es m : writer_inv es m -> FlushOp a ∉ ops -> flushing a rs es m ->
  let '(es1, m1) := run cfg ops m in flushing a rs (es ++ es1) m1.
Proof.
  revert es m. induction ops as [|o ops IH]; intros es m Hi Ho H; [by cbn; rewrite app_nil_r|]. cbn [run].
  assert (H1 := flushing_step o a rs es m (inv_keyed _ _ Hi) (inv_distinct _ _ Hi) ltac:(set_solver) H).
  assert (Hi1 := step_inv o es m Hi). destruct (step cfg o m) as [es1 m1]. specialize (IH _ _ Hi1 ltac:(set_solver) H1).
  destruct (run cfg ops m1) as [es2 m2]. by rewrite app_assoc.
Qed.

(** A flush is answered only when every record the queue accepted before
    it is dealt with: whatever is inserted, flushed or purged meanwhile,
    whatever fails, and however often a batch has to be tried. *)
Theorem flush_waits t file before a after es1 m1 es2 m2 : keyed t -> distinct t ->
  run cfg before (with_store t file) = (es1, m1) -> a ∉ acked m1 -> a ∉ waiting (queue m1) -> a ∉ to_ack m1 ->
  run cfg after (flush a m1) = (es2, m2) -> FlushOp a ∉ after ->
  a ∈ acked m2 -> forall r, Accepted r ∈ es1 -> settled m2 (es1 ++ es2) r.
Proof.
  intros Hk Hd E1 Ha Hq Ht E2 Hn Hin r Hr.
  assert (Hi := run_writer_inv before [] _ (fresh_inv t file Hk Hd)). rewrite E1 in Hi. cbn [app] in Hi.
  set (rs := omap (fun e => match e with Accepted r => Some r | _ => None end) es1).
  assert (Hrs : forall x, x ∈ rs <-> Accepted x ∈ es1).
  { intros x. unfold rs. rewrite list_elem_of_omap. split; [by intros ([y|b|c] & Hy & [= <-])|by intros H; exists (Accepted x)]. }
  assert (Hf : flushing a rs es1 (flush a m1)).
  { unfold flush. destruct (_ && _); [|by apply Unsent].
    apply (Behind a rs _ _ (queue m1) []); cbn; [done|done|by rewrite app_nil_r|done|].
    intros x Hx%Hrs. destruct (inv_accepted _ _ Hi x Hx) as [H|[H|H]]; auto. }
  assert (Hi2 := step_inv (FlushOp a) es1 m1 Hi). cbn [step] in Hi2. rewrite app_nil_r in Hi2.
  assert (H := run_flushing after a rs es1 _ Hi2 Hn Hf). rewrite E2 in H.
  destruct H as [H _ _|q1 q2 _ H _ _ _|H _ _|H]; [done..|]. by apply H, Hrs.
Qed.

(** *** Progress *)

(** The writer at work with a store that accepts. *)
Definition rounds (n : nat) : list Op := concat (repeat [Attempt false; Turn true] n) ++ [Attempt false].

Definition busy (m : CdrManager) : Prop := exists b f w, phase m = Writing b f w.

Lemma attempt_frees m : phase m <> Done ->
  let '(es, m1) := step cfg (Attempt false) m in
  es = [] /\ phase m1 = Idle /\ queue m1 = queue m /\ acked m1 = acked m ++ to_ack m.
Proof.
  intros Hp. cbn [step]. unfold attempt. destruct (phase m) as [|b f w|] eqn:Ep; [|clear Hp|done].
  - split_and!; try done. unfold to_ack. by rewrite Ep, app_nil_r.
  - unfold insert_cdrs, committed. assert (Ht : to_ack m = f) by (unfold to_ack; by rewrite Ep). rewrite Ht.
    destruct (map Cdr.to_row b); [done|]. by destruct (insert_rows_on _ _).
Qed.

Lemma turn_takes m : phase m = Idle -> queue m <> [] ->
  let m1 := turn cfg true m in
  phase m1 <> Done /\ (length (queue m1) < length (queue m))%nat /\
  (forall a, a ∈ acked m \/ Flush a ∈ queue m -> a ∈ acked m1 \/ a ∈ to_ack m1 \/ Flush a ∈ queue m1).
Proof.
  intros Hp Hq. unfold turn. rewrite Hp. destruct (queue m) as [|[r|c] q] eqn:Eq; [done|..].
  - assert (Hc := collect_spec (BATCH_MAX - 1) q). destruct (collect _ q) as [[b f] q'], Hc as (p & -> & _ & <- & _).
    set (m1 := match jsonl_path cfg with Some _ => _ | None => _ end).
    assert (H : queue m1 = q' /\ acked m1 = acked m /\ to_ack m1 = waiting p /\ phase m1 <> Done) by (unfold m1; by destruct (jsonl_path cfg)).
    clearbody m1. destruct H as (E1 & E2 & E3 & E4). cbv zeta. rewrite E1, E2, E3. split_and!; [done|cbn; rewrite length_app; lia|].
    intros a [H|[[=]|H]%elem_of_cons]; [by left|]. apply elem_of_app in H as [H|H]; [right; left; by apply elem_of_waiting|by right; right].
  - cbn. split_and!; [by rewrite Hp|lia|]. intros a [H|[[= <-]|H]%elem_of_cons]; set_solver.
Qed.

(** The writer leaves an empty queue. *)
Definition left_empty (m : CdrManager) : Prop := phase m = Done -> queue m = [].

Lemma step_left_empty o m : left_empty m -> left_empty (step cfg o m).2.
Proof.
  unfold left_empty. intros H. destruct o as [x|a|b|b|fails now| |]; cbn [step]; try done.
  - unfold insert. cbn [sender set_field]. destruct (negb (sender m)); [done|]. destruct (_ && negb (gone _)) eqn:E; [|done].
    apply andb_true_iff in E as [_ E]. cbn. intros Hp. unfold gone in E. cbn in E. by rewrite Hp in E.
  - unfold flush. destruct (_ && negb (gone m)) eqn:E; [|done]. apply andb_true_iff in E as [_ E]. cbn. intros Hp.
    unfold gone in E. by rewrite Hp in E.
  - cbn. unfold turn. destruct (phase m) eqn:Ep; [|by rewrite Ep|auto]. destruct (queue m) as [|[r|c] q] eqn:Eq.
    + by destruct (sender m).
    + destruct (collect _ q) as [[b' f] q']. by destruct (jsonl_path cfg), b.
    + cbn. by rewrite Ep.
  - unfold attempt. destruct (phase m) as [|bs f w|] eqn:Ep; [by cbn; rewrite Ep| |by cbn; rewrite Ep; auto].
    destruct (insert_cdrs _ _ _) as [[n|e] t]; [done|]. by destruct (stopping m).
  - unfold retention. destruct (phase m) eqn:Ep; [|by cbn; rewrite Ep|by cbn; rewrite Ep; auto]. destruct (0 <? _); [|by cbn; rewrite Ep].
    destruct (purge_once _ _ _ _) as [[? t]|]; cbn; by rewrite Ep.
Qed.

Lemma run_left_empty ops m : left_empty m -> left_empty (run cfg ops m).2.
Proof.
  revert m. induction ops as [|o ops IH]; intros m H; [done|]. cbn [run]. apply (step_left_empty o) in H.
  destruct (step cfg o m) as [es1 m1]. specialize (IH m1 H). by destruct (run cfg ops m1).
Qed.

Lemma rounds_spec n m : left_empty m -> (length (queue m) <= n)%nat ->
  let '(es, m1) := run cfg (rounds n) m in
  es = [] /\ queue m1 = [] /\ in_hand m1 = [] /\
  (forall a, a ∈ acked m \/ a ∈ to_ack m \/ Flush a ∈ queue m -> a ∈ acked m1).
Proof.
  revert m. induction n as [|n IH]; intros m Hl Hn.
  - change (rounds 0) with [Attempt false]. cbn [run]. assert (Hq : queue m = []) by (apply nil_length_inv; lia).
    destruct (decide (gone m = true)) as [Hg|Hg].
    + unfold gone in Hg. cbn [step]. unfold attempt. destruct (phase m) eqn:Ep; try done. unfold in_hand, to_ack. rewrite Ep, Hq.
      split_and!; try done. intros a [H|[H|H]]; set_solver.
    + assert (H := attempt_frees m). cbn [step] in *. destruct (attempt false m) as [es m1].
      destruct H as (-> & Hp & Hq1 & Ha); [intros E; unfold gone in Hg; by rewrite E in Hg|].
      unfold in_hand. rewrite Hp, Hq1, Ha, Hq. split_and!; try done. intros a [H|[H|H]]; set_solver.
  - change (rounds (S n)) with (Attempt false :: Turn true :: rounds n). cbn [run].
    assert (Hs := step_left_empty (Attempt false) m Hl). destruct (decide (gone m = true)) as [Hg|Hg].
    + unfold gone in Hg. destruct (phase m) eqn:Ep; try done. assert (Hq := Hl Ep).
      assert (E1 : step cfg (Attempt false) m = ([], m)) by (cbn [step]; unfold attempt; by rewrite Ep).
      assert (E2 : step cfg (Turn true) m = ([], m)) by (cbn [step]; unfold turn; by rewrite Ep). rewrite E1, E2.
      specialize (IH m Hl ltac:(rewrite Hq; cbn; lia)). by destruct (run cfg (rounds n) m).
    + assert (H := attempt_frees m). destruct (step cfg (Attempt false) m) as [es m1]. cbn [snd] in Hs.
      destruct H as (-> & Hp & Hq & Ha); [intros E; unfold gone in Hg; by rewrite E in Hg|].
      assert (Hs2 := step_left_empty (Turn true) m1 Hs). cbn [step snd] in *.
      assert (H2 : (length (queue (turn cfg true m1)) <= n)%nat /\
        forall a, a ∈ acked m1 \/ Flush a ∈ queue m1 -> a ∈ acked (turn cfg true m1) \/ a ∈ to_ack (turn cfg true m1) \/ Flush a ∈ queue (turn cfg true m1)).
      { destruct (decide (queue m1 = [])) as [E|E].
        - unfold turn. rewrite Hp, E. destruct (sender m1); cbn; rewrite E; cbn; (split; [lia|]); intros a [H|H]; set_solver.
        - destruct (turn_takes m1 Hp E) as (_ & Hlt & Hw). rewrite Hq in Hlt. split; [lia|done]. }
      destruct H2 as [Hn2 Hw]. specialize (IH _ Hs2 Hn2). destruct (run cfg (rounds n) (turn cfg true m1)) as [es2 m2].
      destruct IH as (-> & Hq2 & Hh2 & Hack). split_and!; try done. intros a H. apply Hack, Hw. rewrite Ha, Hq, elem_of_app. tauto.
Qed.

(** C28: once the database works, the writer catches up, whatever happened
    before: after as many rounds as there are messages in the queue it is
    empty, every flush in it is answered, every record it ever accepted is
    dealt with, and none of them was given up for it. *)
Theorem writer_catches_up t file ops es m es' m' : keyed t -> distinct t -> run cfg ops (with_store t file) = (es, m) ->
  run cfg (rounds (length (queue m))) m = (es', m') ->
  queue m' = [] /\ (forall a, Flush a ∈ queue m -> a ∈ acked m') /\ (forall r, Accepted r ∈ es -> settled m' es r).
Proof.
  intros Hk Hd E E'. assert (Hi := run_writer_inv ops [] _ (fresh_inv t file Hk Hd)). rewrite E in Hi.
  assert (Hi' := run_writer_inv (rounds (length (queue m))) _ _ Hi).
  assert (Hl := run_left_empty ops (with_store t file) ltac:(done)). rewrite E in Hl. cbn [snd app] in *.
  assert (H := rounds_spec (length (queue m)) m Hl (le_n _)). rewrite E' in H, Hi'. destruct H as (-> & Hq & Hh & Ha).
  rewrite app_nil_r in Hi'. split_and!; [done|auto|]. intros r Hr. destruct (inv_accepted _ _ Hi' r Hr) as [H|[H|H]]; [done|..].
  - rewrite Hh in H. set_solver.
  - rewrite Hq in H. set_solver.
Qed.

End proofs.

Module Witness.

#[local] Existing Instance CdrStore.Witness.ids.
#[local] Existing Instance CdrStore.Witness.first_rows.

Definition cfg : CdrWriterConfig := mkWriterConfig (Some "cdr.jsonl") None 30 false.

Definition call (i : string) (at_s : Z) : Cdr.CdrRecord :=
  Cdr.with_window (secs at_s) None (secs (at_s + 5)) (Cdr.new_cdr (secs (at_s + 5)) i "c@h" "alice" "+33612345678").

(** Two records, a store that is full when the shutdown begins, a flush. *)
Definition ops : list Op :=
  [Insert (call "a" 100); Turn true; Attempt true; Insert (call "b" 200); Stop; Attempt true; FlushOp 7; Turn true].

Definition start : CdrManager := with_store ∅ [].

Lemma nothing_keyed : keyed ∅.
Proof. intros i r H. by rewrite lookup_empty in H. Qed.
Lemma nothing_distinct : distinct ∅.
Proof. intros i j a b H. by rewrite lookup_empty in H. Qed.

Example what_happens :
  (run cfg ops start).1 = [Accepted (call "a" 100); Accepted (call "b" 200); GaveUp [call "a" 100]] /\
  queue (run cfg ops start).2 = [] /\ phase (run cfg ops start).2 = Writing [call "b" 200] [7%nat] RETRY_MIN /\
  mirror_file (run cfg ops start).2 = [call "a" 100; call "b" 200] /\ queue_len (run cfg ops start).2 = 1.
Proof. vm_compute. repeat split. Qed.

(** The batch given up at the shutdown is in the mirror, and the next record
    is in hand. *)
Lemma accepted_records_kept_witness :
  let '(es, m) := run cfg ops start in
  GaveUp [call "a" 100] ∈ es /\ [call "a" 100] ⊆ mirror_file m /\ queue_len m = 1.
Proof.
  destruct (run cfg ops start) as [es m] eqn:E.
  destruct (accepted_records_kept cfg ∅ [] ops es m nothing_keyed nothing_distinct E) as (_ & Hg & _ & _).
  assert (H : GaveUp [call "a" 100] ∈ es).
  { assert (H1 := f_equal fst E). cbn [fst] in H1. rewrite <- H1, (proj1 what_happens). set_solver. }
  split; [done|]. split.
  - apply (Hg _ H); [done|]. repeat constructor.
  - assert (H1 := f_equal (fun x => queue_len x.2) E). cbn [snd] in H1. rewrite <- H1. apply what_happens.
Defined.

(** A flush after the first record, answered once the store accepts it. *)
Lemma flush_waits_witness :
  let '(es1, m1) := run cfg [Insert (call "a" 100)] start in
  let '(es2, m2) := run cfg [Turn true; Attempt true; Attempt false] (flush 7 m1) in
  7%nat ∈ acked m2 /\ settled m2 (es1 ++ es2) (call "a" 100).
Proof.
  destruct (run cfg [Insert (call "a" 100)] start) as [es1 m1] eqn:E1.
  destruct (run cfg [Turn true; Attempt true; Attempt false] (flush 7 m1)) as [es2 m2] eqn:E2.
  assert (Hm : acked m1 = [] /\ waiting (queue m1) = [] /\ to_ack m1 = [] /\ es1 = [Accepted (call "a" 100)]).
  { vm_compute in E1. injection E1 as <- <-. vm_compute. repeat split. }
  assert (Ha : acked m2 = [7%nat]) by (vm_compute in E1; injection E1 as <- <-; vm_compute in E2; by injection E2 as <- <-).
  destruct Hm as (H1 & H2 & H3 & H4). split; [rewrite Ha; set_solver|].
  apply (flush_waits cfg ∅ [] [Insert (call "a" 100)] 7 [Turn true; Attempt true; Attempt false] es1 m1 es2 m2
    nothing_keyed nothing_distinct E1); rewrite ?H1, ?H2, ?H3, ?Ha, ?H4; try done; set_solver.
Defined.

(** After the operations above, one round stores what is left. *)
Lemma writer_catches_up_witness :
  let '(es, m) := run cfg ops start in let '(es', m') := run cfg (rounds (length (queue m))) m in
  Accepted (call "b" 200) ∈ es /\ queue m' = [] /\ settled m' es (call "b" 200).
Proof.
  destruct (run cfg ops start) as [es m] eqn:E. destruct (run cfg (rounds (length (queue m))) m) as [es' m'] eqn:E'.
  destruct (writer_catches_up cfg ∅ [] ops es m es' m' nothing_keyed nothing_distinct E E') as (Hq & _ & Hr).
  assert (H : Accepted (call "b" 200) ∈ es).
  { assert (H1 := f_equal fst E). cbn [fst] in H1. rewrite <- H1, (proj1 what_happens). set_solver. }
  split; [done|]. split; [done|]. by apply Hr.
Defined.

(** Retention: two days of records, kept for one. *)
Example purged :
  (fun x => (x.1, size x.2)) <$> purge_once (mkWriterConfig None None 1 false) (fun _ => false) 100000
    (insert_rows_on (map Cdr.to_row [call "a" 100; call "b" 90000; call "c" 200]) ∅).2 = Some (Ok 2%nat, 1%nat).
Proof. by vm_compute. Qed.

End Witness.
