(* ===== verification/CdrImport.v ===== *)
(** * The import of old call records (cdr_writer.rs)

    The JSONL history, read once: the files, oldest first, each line a record
    with an identifier made of the line, stored in chunks, and the marker that
    says it is done. What a directory holds, the lines of a file up to where it
    stops being readable, and which calls of the store fail are arguments; so
    are the JSON parser and the random identifiers it gives records without
    one. *)

From S2P Require Import Prelude Str Bytes Store CdrStore CdrWriter.
From S2P Require Cdr BanStore.

(** ** Files *)

(** The rotated files next to the live one, highest number first, then the
    live one. *)
Definition rotated (name : string) (n : string) : option (Z * string) :=
  suffix ← strip_prefix (name +:+ ".") n; k ← parse_uint u32_max suffix; Some (k, n).

Definition oldest_first : Z * string -> Z * string -> comparison := fun a b => Z.compare b.1 a.1.

Definition import_files (dir : list string) (name : string) : list string :=
  map snd (order_by oldest_first (omap (rotated name) dir)) ++ (if bool_decide (name ∈ dir) then [name] else []).

(** ** Identifiers *)

(** FNV-1a, 64 bits. *)
Definition fnv1a (line : string) : Z :=
  fold_left (fun h c => wrapw 64 (Z.lxor h (code c) * 1099511628211)) (String.list_ascii_of_string line) 14695981039346656037.

Definition legacy_row_id (original line : string) : string :=
  (if seqb original "" then "jsonl" else original) +:+ "-" +:+ hex_bytes (be_bytes 8 (fnv1a line)).

(** ** Lines *)

Section import.
Context {CI : CdrIds}.
Context (parse_json : string -> string -> option Cdr.CdrRecord).

(** [uuid]: the identifier drawn for a record without one. *)
Definition parse_cdr_json (uuid line : string) : option Cdr.CdrRecord :=
  match parse_json uuid line with Some r => Some r | None => Cdr.parse_cdr_json_legacy uuid line end.

Definition imported_row (uuid line : string) : option Cdr.CdrRow :=
  (fun r => Cdr.to_row r <| Cdr.row_id := legacy_row_id (Cdr.row_id (Cdr.to_row r)) line |>) <$> parse_cdr_json uuid line.

Record Import := mkImport {
  table : Cdrs;
  chunk : list Cdr.CdrRow;
  parsed : nat;
  stored_rows : nat;
  skipped : nat;
  calls : nat;
  drawn : nat
}.

#[export] Instance eta_import : Eta Import := fun s =>
  mkImport (table s) (chunk s) (parsed s) (stored_rows s) (skipped s) (calls s) (drawn s).

Context (fails : nat -> bool) (uuids : nat -> string).

Definition commit_import_chunk (s : Import) : Import :=
  match chunk s with
  | [] => s
  | rows =>
      let s := s <| chunk := [] |> <| calls := S (calls s) |> in
      match import_cdr_chunk (fails (calls s)) rows (table s) with
      | (Ok n, t) => s <| table := t |> <| stored_rows := (stored_rows s + n)%nat |>
      | (Err _, _) => s
      end
  end.

Definition import_line (line : string) (s : Import) : Import :=
  if seqb (trim line) "" then s
  else
    let s := s <| drawn := S (drawn s) |> in
    let s := match imported_row (uuids (drawn s)) line with
             | Some row => s <| parsed := S (parsed s) |> <| chunk := chunk s ++ [row] |>
             | None => s <| skipped := S (skipped s) |>
             end in
    if Nat.leb IMPORT_CHUNK (length (chunk s)) then commit_import_chunk s else s.

(** A file: [None] when it cannot be opened. *)
Definition import_file (file : option (list string)) (s : Import) : Import :=
  fold_left (fun s line => import_line line s) (default [] file) s.

Definition import_all (files : list (option (list string))) (t : Cdrs) : Import :=
  commit_import_chunk (fold_left (fun s f => import_file f s) files (mkImport t [] 0 0 0 0 0)).

(** [marker]: the text of the marker; [marker_fails]: its transaction. *)
Definition import_jsonl_once (marker : Import -> string) (marker_fails : bool) (files : list (option (list string)))
    (db : Cdrs * gmap string string) : Cdrs * gmap string string :=
  match db.2 !! JSONL_IMPORT_MARKER with
  | Some _ => db
  | None =>
      match files with
      | [] => db
      | _ =>
          let s := import_all files db.1 in
          (import_cdrs marker_fails [] JSONL_IMPORT_MARKER (marker s) (table s, db.2)).2
      end
  end.
End import.

(** ** Lemmas *)

Section lemmas.
Context {CI : CdrIds}.

Lemma insert_rows_app a b t : (insert_rows_on (a ++ b) t).2 = (insert_rows_on b (insert_rows_on a t).2).2.
Proof.
  revert t. induction a as [|r a IH]; intros t; [done|]. cbn [app insert_rows_on]. destruct (insert_row r t) as [n t1].
  specialize (IH t1). destruct (insert_rows_on (a ++ b) t1), (insert_rows_on a t1). exact IH.
Qed.

(** What was stored before is not stored again. *)
Lemma insert_prefix_again a b t : keyed t -> distinct t ->
  (insert_rows_on (a ++ b) (insert_rows_on a t).2).2 = (insert_rows_on (a ++ b) t).2.
Proof.
  intros Hk Hd. rewrite !insert_rows_app. destruct (insert_rows_spec a t Hk Hd) as (_ & _ & _ & Hf).
  rewrite (insert_rows_again a (insert_rows_on a t).2); [done|]. eapply Forall_impl; [exact Hf|].
  intros r H. by apply clashes_spec.
Qed.
End lemmas.

Section proofs.
Context {CI : CdrIds}.
Context (parse_json : string -> string -> option Cdr.CdrRecord) (fails : nat -> bool) (uuids : nat -> string).

(** Every line names its record: the parser draws no identifier. *)
Definition named (line : string) : Prop :=
  forall u v, parse_cdr_json parse_json u line = parse_cdr_json parse_json v line.

(** The rows of lines that name their records, in their order. *)
Definition row_of (line : string) : option Cdr.CdrRow :=
  if seqb (trim line) "" then None else imported_row parse_json "" line.

Definition rows_of (files : list (option (list string))) : list Cdr.CdrRow :=
  omap row_of (concat (map (default []) files)).

Lemma commit_works s : (forall i, fails i = false) ->
  table (commit_import_chunk fails s) = (insert_rows_on (chunk s) (table s)).2 /\ chunk (commit_import_chunk fails s) = [].
Proof.
  intros Hf. unfold commit_import_chunk. destruct (chunk s) as [|r rows] eqn:E; [done|]. unfold import_cdr_chunk, committed.
  rewrite Hf. cbn [table set_field]. by destruct (insert_rows_on _ _).
Qed.

(** The table and the chunk not yet stored, together. *)
Definition content (s : Import) : Cdrs := (insert_rows_on (chunk s) (table s)).2.

Lemma import_line_content line s : (forall i, fails i = false) -> named line ->
  content (import_line parse_json fails uuids line s) = (insert_rows_on (omap row_of [line]) (content s)).2.
Proof.
  intros Hf Hn. cbn [omap list_omap]. unfold import_line, row_of. destruct (seqb (trim line) ""); [done|]. cbv zeta.
  replace (imported_row parse_json (uuids _) line) with (imported_row parse_json "" line)
    by (unfold imported_row; by rewrite (Hn (uuids _) "")).
  assert (Hc : forall s', content (if Nat.leb IMPORT_CHUNK (length (chunk s')) then commit_import_chunk fails s' else s') = content s').
  { intros s'. destruct (Nat.leb _ _); [|done]. unfold content. destruct (commit_works s' Hf) as [-> ->]. done. }
  rewrite Hc. unfold content. destruct (imported_row parse_json "" line) as [r|]; cbn [chunk table set_field];
    [by rewrite insert_rows_app|done].
Qed.

Lemma import_lines_content lines s : (forall i, fails i = false) -> Forall named lines ->
  content (fold_left (fun s line => import_line parse_json fails uuids line s) lines s)
  = (insert_rows_on (omap row_of lines) (content s)).2.
Proof.
  intros Hf Hn. revert s. induction Hn as [|line lines Hl Hn IH]; intros s; [done|]. cbn [fold_left]. rewrite IH, import_line_content by done.
  rewrite <- insert_rows_app. do 2 f_equal. cbn [omap list_omap]. by destruct (row_of line).
Qed.

Lemma import_all_table files t : (forall i, fails i = false) -> Forall named (concat (map (default []) files)) ->
  table (import_all parse_json fails uuids files t) = (insert_rows_on (rows_of files) t).2.
Proof.
  intros Hf Hn. unfold import_all. rewrite (proj1 (commit_works _ Hf)). fold (content (fold_left (fun s f => import_file parse_json fails uuids f s) files (mkImport t [] 0 0 0 0 0))).
  change t with (content (mkImport t [] 0 0 0 0 0)) at 2. generalize (mkImport t [] 0 0 0 0 0). unfold rows_of.
  induction files as [|f files IH]; intros s; [done|]. cbn [map concat fold_left] in *. apply Forall_app in Hn as [Hn1 Hn2].
  rewrite IH by done. unfold import_file at 1. rewrite import_lines_content by done. by rewrite <- insert_rows_app, omap_app.
Qed.

Lemma import_once_works marker files t settings : (forall i, fails i = false) -> Forall named (concat (map (default []) files)) ->
  settings !! JSONL_IMPORT_MARKER = None -> files <> [] ->
  exists v, import_jsonl_once parse_json fails uuids marker false files (t, settings)
    = ((insert_rows_on (rows_of files) t).2, <[JSONL_IMPORT_MARKER := v]> settings).
Proof.
  intros Hf Hn Hm Hne. unfold import_jsonl_once. cbn [fst snd]. rewrite Hm. destruct files as [|f files]; [done|].
  set (fs := f :: files) in *. cbv zeta. unfold import_cdrs, committed. cbn [insert_rows_on fst snd].
  rewrite import_all_table by done. by eexists.
Qed.

(** *** A run cut short *)

(** The table when a run stops after [k] lines. *)
Definition cut (k : nat) (files : list (option (list string))) (t : Cdrs) : Cdrs :=
  table (fold_left (fun s line => import_line parse_json fails uuids line s) (take k (concat (map (default []) files)))
           (mkImport t [] 0 0 0 0 0)).

Lemma commit_grows s : keyed (table s) -> distinct (table s) ->
  let s' := commit_import_chunk fails s in keyed (table s') /\ distinct (table s') /\ table s ⊆ table s'.
Proof.
  intros Hk Hd. unfold commit_import_chunk. destruct (chunk s) as [|r rows]; [done|]. unfold import_cdr_chunk, committed.
  destruct (fails _); [done|]. assert (H := insert_rows_spec (r :: rows) (table s) Hk Hd). cbn [table set_field].
  destruct (insert_rows_on _ _) as [n t]. cbn. by destruct H as (? & ? & ? & _).
Qed.

Lemma line_grows line s : keyed (table s) -> distinct (table s) ->
  let s' := import_line parse_json fails uuids line s in keyed (table s') /\ distinct (table s') /\ table s ⊆ table s'.
Proof.
  intros Hk Hd. unfold import_line. destruct (seqb (trim line) ""); [done|]. cbv zeta.
  assert (Hgo : forall s1, table s1 = table s ->
    let s' := if Nat.leb IMPORT_CHUNK (length (chunk s1)) then commit_import_chunk fails s1 else s1 in
    keyed (table s') /\ distinct (table s') /\ table s ⊆ table s').
  { intros s1 E. rewrite <- E in *. destruct (Nat.leb _ _); [by apply commit_grows|done]. }
  apply Hgo. by destruct (imported_row _ _ _).
Qed.

(** Whatever the store refused, what it has stays, and none twice. *)
Lemma cut_grows k files t : keyed t -> distinct t -> keyed (cut k files t) /\ distinct (cut k files t) /\ t ⊆ cut k files t.
Proof.
  unfold cut. intros Hk Hd. assert (H : forall lines s, keyed (table s) -> distinct (table s) ->
    let s' := fold_left (fun s line => import_line parse_json fails uuids line s) lines s in
    keyed (table s') /\ distinct (table s') /\ table s ⊆ table s').
  { induction lines as [|line lines IH]; intros s Hks Hds; [done|]. cbn [fold_left].
    destruct (line_grows line s Hks Hds) as (Hk1 & Hd1 & H1). destruct (IH _ Hk1 Hd1) as (Hk2 & Hd2 & H2).
    split_and!; [done..|by etransitivity]. }
  by apply (H _ (mkImport t [] 0 0 0 0 0)).
Qed.

(** Where nothing is refused, the rows stored are the first ones. *)
Definition prefixed_rows (rows : list Cdr.CdrRow) (t : Cdrs) (s : Import) : Prop :=
  exists n, table s = (insert_rows_on (take n rows) t).2 /\ chunk s = drop n rows.

Lemma line_prefixed t line rows s : (forall i, fails i = false) -> named line -> prefixed_rows rows t s ->
  prefixed_rows (rows ++ omap row_of [line]) t (import_line parse_json fails uuids line s).
Proof.
  intros Hf Hn (n & Ht & Hc). cbn [omap list_omap]. unfold import_line, row_of. destruct (seqb (trim line) "").
  { rewrite app_nil_r. by exists n. }
  cbv zeta. replace (imported_row parse_json (uuids _) line) with (imported_row parse_json "" line)
    by (unfold imported_row; by rewrite (Hn (uuids _) "")).
  assert (Hgo : forall s' rows', prefixed_rows rows' t s' ->
    prefixed_rows rows' t (if Nat.leb IMPORT_CHUNK (length (chunk s')) then commit_import_chunk fails s' else s')).
  { intros s' rows' (m & Ht' & Hc'). destruct (Nat.leb _ _); [|by exists m]. destruct (commit_works s' Hf) as [Et Ec].
    exists (length rows'). rewrite Et, Ec, drop_all, firstn_all, Hc', Ht', <- insert_rows_app, take_drop. done. }
  apply Hgo. destruct (imported_row parse_json "" line) as [r|].
  - exists (min n (length rows)). cbn [table chunk set_field]. rewrite take_app_le, drop_app_le by lia. rewrite Ht, Hc.
    destruct (decide (n <= length rows)%nat) as [Hl|Hl].
    + by rewrite Nat.min_l by lia.
    + rewrite Nat.min_r by lia. by rewrite firstn_all, drop_all, take_ge, drop_ge by lia.
  - rewrite app_nil_r. exists n. done.
Qed.

Lemma cut_prefixed k files t : (forall i, fails i = false) -> Forall named (concat (map (default []) files)) ->
  exists n, cut k files t = (insert_rows_on (take n (rows_of files)) t).2.
Proof.
  intros Hf Hn. unfold cut, rows_of. set (lines := concat _) in *.
  assert (H : forall ls s rows, Forall named ls -> prefixed_rows rows t s ->
    prefixed_rows (rows ++ omap row_of ls) t (fold_left (fun s line => import_line parse_json fails uuids line s) ls s)).
  { induction ls as [|l ls IH]; intros s rows Hls Hs; cbn [fold_left]; [by rewrite app_nil_r|]. inversion_clear Hls as [|? ? Hl Hls'].
    assert (Hp := line_prefixed t l rows s Hf Hl Hs). specialize (IH _ _ Hls' Hp). rewrite <- app_assoc in IH.
    cbn [omap list_omap] in *. destruct (row_of l); exact IH. }
  destruct (H (take k lines) (mkImport t [] 0 0 0 0 0) []) as (n & Ht & _); [by apply Forall_take|by exists 0%nat|].
  exists (min n (length (omap row_of (take k lines)))). rewrite Ht. cbn [app]. do 2 f_equal.
  replace (omap row_of lines) with (omap row_of (take k lines) ++ omap row_of (drop k lines)) by by rewrite <- omap_app, take_drop.
  rewrite take_app_le by lia.
  destruct (decide (n <= length (omap row_of (take k lines)))%nat); [by rewrite Nat.min_l by lia|].
  by rewrite Nat.min_r, firstn_all, take_ge by lia.
Qed.
End proofs.

(** C30: the import of the history may be cut short after any line, with any
    chunks refused by the database before that, and begun again. As long as
    the lines name their records, a second run during which the database
    takes every chunk leaves in the store all that was there and one record,
    never two, for each line; when the first run met no refusal either, that
    is the very table a run that was not cut short would have left. Later
    starts import nothing. (A chunk refused during a run that ends is lost: the
    run marks the import as done all the same.) *)
Theorem interrupted_import_resumes {CI : CdrIds} (parse_json : string -> string -> option Cdr.CdrRecord) (uuids1 uuids2 : nat -> string)
    (refused later : nat -> bool) marker files k t settings :
  keyed t -> distinct t -> Forall (named parse_json) (concat (map (default []) files)) ->
  settings !! JSONL_IMPORT_MARKER = None -> files <> [] ->
  let accepts (i : nat) := false in
  let begun := cut parse_json refused uuids1 k files t in
  let resumed := import_jsonl_once parse_json accepts uuids2 marker false files (begun, settings) in
  t ⊆ begun /\ begun ⊆ resumed.1 /\ distinct resumed.1 /\ Forall (fun r => clashes r resumed.1 = true) (rows_of parse_json files) /\
  ((forall i, refused i = false) -> resumed.1 = (import_jsonl_once parse_json accepts uuids2 marker false files (t, settings)).1) /\
  import_jsonl_once parse_json later uuids1 marker false files resumed = resumed.
Proof.
  intros Hk Hd Hn Hm Hne accepts begun resumed.
  destruct (cut_grows parse_json refused uuids1 k files t Hk Hd) as (Hk1 & Hd1 & Hs1). fold begun in Hk1, Hd1, Hs1.
  destruct (import_once_works parse_json accepts uuids2 marker files begun settings ltac:(done) Hn Hm Hne) as [v1 E1].
  destruct (import_once_works parse_json accepts uuids2 marker files t settings ltac:(done) Hn Hm Hne) as [v2 E2].
  unfold resumed. rewrite E1, E2. cbn [fst].
  destruct (insert_rows_spec (rows_of parse_json files) begun Hk1 Hd1) as (_ & Hd' & Hs & Hr). split_and!; [done..| | |].
  - eapply Forall_impl; [exact Hr|]. intros r H. by apply clashes_spec.
  - intros Hf. destruct (cut_prefixed parse_json refused uuids1 k files t Hf Hn) as [n En]. unfold begun. rewrite En.
    rewrite <- (take_drop n (rows_of parse_json files)) at 1 3. by apply insert_prefix_again.
  - unfold import_jsonl_once. cbn [snd]. by rewrite lookup_insert_eq.
Qed.

Module Witness.

#[local] Existing Instance CdrStore.Witness.ids.

(** A line that names its record, and one that leaves the identifier out. *)
Definition parse (uuid line : string) : option Cdr.CdrRecord :=
  match strip_prefix "call " line with
  | Some i => Some (CdrWriter.Witness.call i 100)
  | None => if seqb line "unnamed" then Some (CdrWriter.Witness.call uuid 100) else None
  end.

Definition marker (s : Import) : string := show (Z.of_nat (stored_rows s)).
Definition draws (n : nat) : string := "u" +:+ show (Z.of_nat n).
Definition works (n : nat) : bool := false.

Definition history : list (option (list string)) := [Some ["call a"; ""; "damaged"; "call b"]; None; Some ["call c"; "call a"]].

(** The first chunk of the first run is refused, and the run stops. *)
Lemma interrupted_import_resumes_witness :
  let first n := Nat.eqb n 1 in
  let resumed := import_jsonl_once parse works draws marker false history (cut parse first draws 3 history ∅, ∅) in
  size resumed.1 = 3%nat /\ import_jsonl_once parse first draws marker false history resumed = resumed.
Proof.
  intros first resumed. split; [by vm_compute|].
  assert (Hn : Forall (named parse) (concat (map (default []) history))).
  { unfold history. cbn. repeat (apply Forall_cons; split); [..|by apply Forall_nil]; intros u v; by vm_compute. }
  assert (Hne : history <> []) by discriminate.
  apply (interrupted_import_resumes parse draws draws first first marker history 3 ∅ ∅ CdrWriter.Witness.nothing_keyed
    CdrWriter.Witness.nothing_distinct Hn (lookup_empty _) Hne).
Defined.

(** A chunk the database refuses is lost: the marker is written all the same,
    and the next start imports nothing. *)
Example refused_chunk_lost :
  let fails n := Nat.eqb n 1 in
  let db := import_jsonl_once parse fails draws marker false [Some ["call a"; "call b"]] (∅, ∅) in
  size db.1 = 0%nat /\ is_Some (db.2 !! JSONL_IMPORT_MARKER) /\
  import_jsonl_once parse works draws marker false [Some ["call a"; "call b"]] db = db.
Proof. split_and!; [by vm_compute|by eexists; vm_compute|by vm_compute]. Qed.

(** A line without an identifier is stored again by a second run. *)
Example unnamed_twice :
  let line := [Some ["unnamed"]] in let later n := draws (n + 7) in
  size (table (import_all parse works later line (table (import_all parse works draws line ∅)))) = 2%nat.
Proof. by vm_compute. Qed.

(** The files of a directory, oldest first. *)
Example files_in_order :
  import_files ["cdr.jsonl"; "cdr.jsonl.1"; "cdr.jsonl.2.gz"; "cdr.jsonl.10"; "other"] "cdr.jsonl"
  = ["cdr.jsonl.10"; "cdr.jsonl.1"; "cdr.jsonl"].
Proof. by vm_compute. Qed.

End Witness.
