(* ===== verification/CdrApi.v ===== *)
(** * Call records over the API (sbc-management/routes/calls.rs)

    [GET /api/v1/cdrs]: the reading of its query, the pages of it and their
    cursor, and the export as CSV, page by page from a store that changes
    meanwhile. The JSON of a record and the parser of RFC 3339 times are
    parameters; what each query of the store finds, and whether the client is
    still there, are arguments. *)

From S2P Require Import Prelude Str Store CdrStore.
From S2P Require Cdr CdrWriter.

Inductive ApiError := BadRequest (msg : string) | StoreUnavailable | Internal.

Abbreviation ApiResult A := (result ApiError A).

Record CdrQuery := mkQuery {
  q_limit : option string;
  q_offset : option string;
  q_cursor : option string;
  q_from : option string;
  q_to : option string;
  q_direction : option string;
  q_trunk : option string;
  q_caller : option string;
  q_callee : option string;
  q_sip_code : option string;
  q_answered : option string;
  q_uuid : option string;
  q_call_id : option string;
  q_format : option string
}.

#[export] Instance eta_query : Eta CdrQuery := fun q =>
  mkQuery (q_limit q) (q_offset q) (q_cursor q) (q_from q) (q_to q) (q_direction q) (q_trunk q) (q_caller q) (q_callee q)
    (q_sip_code q) (q_answered q) (q_uuid q) (q_call_id q) (q_format q).

Definition default_limit : Z := 100.

Definition parse_i64 : string -> option Z := parse_int (2 ^ 63).
Definition parse_usize : string -> option Z := parse_uint u64_max.

Definition or_bad {A} (o : option A) (msg : string) : ApiResult A := match o with Some a => Ok a | None => Err (BadRequest msg) end.

(** A field that may be absent, read by [f]. *)
Definition optional {A B} (o : option A) (f : A -> ApiResult B) : ApiResult (option B) :=
  match o with None => Ok None | Some a => let? b := f a in Ok (Some b) end.

Record ParsedQuery := mkParsed {
  filter : CdrFilter;
  filtered : bool;
  explicit_limit : option Z;
  csv : bool
}.

Definition is_some {A} (o : option A) : bool := match o with Some _ => true | None => false end.

(** [chars().count()]: the bytes that begin a character. *)
Fixpoint char_count (s : string) : nat :=
  match s with "" => 0%nat | String c s => if cont c then char_count s else S (char_count s) end.

(** The cursor of a page: when its last record started, and its number. *)
Definition cursor_text (r : Cdr.CdrRow) : string := show_int (Cdr.row_started_at r) +:+ ":" +:+ show_int (Cdr.rowid r).

Definition parse_cursor (c : string) : ApiResult (Z * Z) :=
  or_bad ('(a, b) ← split_once ":" c; a ← parse_i64 a; b ← parse_i64 b; Some (a, b))
    "cursor: use the next_cursor of a previous page".

Section query.
Context (parse_rfc3339 : string -> option Z).

Definition parse_time (name value : string) : ApiResult Z :=
  match parse_i64 (trim value) with
  | Some s => Ok s
  | None => or_bad (parse_rfc3339 (trim value)) (name +:+ ": expected RFC 3339 or unix seconds")
  end.

Definition parse_limit (l : string) : ApiResult Z :=
  let? n := or_bad (parse_usize l) "limit: expected an integer" in
  if n =? 0 then Err (BadRequest "limit: must be at least 1") else Ok (Z.min n 1000).

Definition parse_prefix (name v : string) : ApiResult string :=
  if seqb v "" || (64 <? Z.of_nat (char_count v)) then Err (BadRequest (name +:+ ": 1 to 64 characters")) else Ok v.

Definition parse_direction (d : string) : ApiResult string :=
  if seqb d "inbound" || seqb d "outbound" || seqb d "local" then Ok d
  else Err (BadRequest "direction: inbound, outbound or local").

Definition parse_code (c : string) : ApiResult Z :=
  or_bad (n ← parse_i64 c; if (100 <=? n) && (n <? 700) then Some n else None) "sip_code: a status code 100-699".

Definition parse_answered (a : string) : ApiResult bool :=
  if seqb a "true" then Ok true else if seqb a "false" then Ok false else Err (BadRequest "answered: true or false").

Definition parse_format (accept : option string) (o : option string) : ApiResult bool :=
  match o with
  | Some f => if seqb f "csv" then Ok true else if seqb f "json" then Ok false else Err (BadRequest "format: json or csv")
  | None => Ok (match accept with Some a => contains "text/csv" a | None => false end)
  end.

Definition parse_query (q : CdrQuery) (accept : option string) : ApiResult ParsedQuery :=
  let? lim := optional (q_limit q) parse_limit in
  let? off := optional (q_offset q) (fun o => or_bad (parse_usize o) "offset: expected an integer") in
  let? cur := optional (q_cursor q) (fun c =>
      if is_some (q_offset q) then Err (BadRequest "offset and cursor are exclusive") else parse_cursor c) in
  let? fr := optional (q_from q) (parse_time "from") in
  let? till := optional (q_to q) (parse_time "to") in
  let? _ := match fr, till with
            | Some f, Some t => if t <=? f then Err (BadRequest "to: must be after from") else Ok tt
            | _, _ => Ok tt
            end in
  let? dir := optional (q_direction q) parse_direction in
  let? cr := optional (q_caller q) (parse_prefix "caller") in
  let? ce := optional (q_callee q) (parse_prefix "callee") in
  let? code := optional (q_sip_code q) parse_code in
  let? ans := optional (q_answered q) parse_answered in
  let? csv := parse_format accept (q_format q) in
  Ok (mkParsed
        (mkFilter fr till dir (q_trunk q) cr ce code ans (q_uuid q) (q_call_id q) cur (default 0 off) (default default_limit lim))
        (is_some cur || is_some fr || is_some till || is_some dir || is_some cr || is_some ce || is_some (q_trunk q)
         || is_some (q_uuid q) || is_some (q_call_id q) || is_some code || is_some ans)
        lim csv).
End query.

(** ** CSV *)

Definition CSV_HEADER : string :=
  "id,call_id,caller,callee,trunk_id,duration_secs,codec,is_webrtc,disconnect_reason,started_at,ended_at,v,uuid,direction,sip_code,answered_at,billable_secs,source_ip,reason,hangup_by,rtp_tx_caller,rtp_tx_callee,media_flags".

Definition quote : ascii := "034".
Definition CRLF : string := String "013" (String "010" "").

(** What a spreadsheet would evaluate. *)
Definition dangerous (s : string) : bool :=
  match s with
  | "" => false
  | String c rest =>
      if bool_decide (c = "="%char \/ c = "@"%char \/ c = "009"%char \/ c = "013"%char) then true
      else if bool_decide (c = "+"%char \/ c = "-"%char) then
        negb (match rest with String d _ => is_digit d | "" => false end)
      else false
  end.

Definition guarded (s : string) : string := if dangerous s then String "'" s else s.

Definition special (c : ascii) : bool := bool_decide (c = ","%char \/ c = quote \/ c = "013"%char \/ c = "010"%char).

(** [replace] of a quote by two. *)
Fixpoint doubled (s : string) : string :=
  match s with "" => "" | String c s => if bool_decide (c = quote) then String quote (String quote (doubled s)) else String c (doubled s) end.

Definition csv_field (s : string) : string :=
  let s := guarded s in
  if sall (fun c => negb (special c)) s then s else String quote (doubled s +:+ String quote "").

Definition show_bool (b : bool) : string := if b then "true" else "false".

(** The columns of a record, as text. *)
Definition columns (r : Cdr.CdrRow) : list (bool * string) :=
  let txt s := (true, s) in
  let opt o := (true, default "" o) in
  let num z := (false, show_int z) in
  let onum o := (false, match o with Some z => show_int z | None => "" end) in
  [txt (Cdr.row_id r); txt (Cdr.row_call_id r); txt (Cdr.row_caller r); txt (Cdr.row_callee r); opt (Cdr.row_trunk_id r);
   num (Cdr.row_duration_secs r); opt (Cdr.row_codec r); (false, show_bool (Cdr.row_is_webrtc r));
   txt (Cdr.row_disconnect_reason r); num (Cdr.row_started_at r); num (Cdr.row_ended_at r); num (Cdr.row_v r);
   txt (Cdr.row_uuid r); txt (Cdr.row_direction r); onum (Cdr.row_sip_code r); onum (Cdr.row_answered_at r);
   num (Cdr.row_billable_secs r); txt (Cdr.row_source_ip r); opt (Cdr.row_reason r); txt (Cdr.row_hangup_by r);
   num (Cdr.row_rtp_tx_caller r); num (Cdr.row_rtp_tx_callee r); txt (Cdr.row_media_flags r)].

Definition csv_line (r : Cdr.CdrRow) : string :=
  join "," (map (fun c : bool * string => if c.1 then csv_field c.2 else c.2) (columns r)) +:+ CRLF.

(** ** The export *)

(** One turn of the export: what the store has then ([None]: the query
    fails), and whether the client takes the page. *)
Record Served := mkServed { answer : option Cdrs; listening : bool }.

Inductive Ending := Complete | Failed | ClientGone | Underway.

Definition next_page (f : CdrFilter) (last : Cdr.CdrRow) : CdrFilter :=
  f <| before := Some (Cdr.row_started_at last, Cdr.rowid last) |>.

Fixpoint csv_loop (cap : option Z) (f : CdrFilter) (sent : Z) (turns : list Served) : list (list Cdr.CdrRow) * Ending :=
  if match cap with Some c => c - sent =? 0 | None => false end then ([], Complete)
  else
    let f := match cap with Some c => f <| limit := Z.min (c - sent) 1000 |> | None => f end in
    match turns with
    | [] => ([], Underway)
    | u :: turns =>
        match answer u with
        | None => ([], Failed)
        | Some t =>
            let '(rows, more) := query_cdrs f t in
            if negb (bool_decide (rows = [])) && negb (listening u) then ([], ClientGone)
            else
              match last rows, more with
              | Some l, true =>
                  let '(pages, e) := csv_loop cap (next_page f l) (sent + Z.of_nat (length rows)) turns in
                  (rows :: pages, e)
              | _, _ => ([rows], Complete)
              end
        end
    end.

(** [greeted]: whether the client took the header. *)
Definition csv_stream (p : ParsedQuery) (greeted : bool) (turns : list Served) : list string * Ending :=
  if greeted then
    let '(pages, e) := csv_loop (explicit_limit p) (filter p <| offset := 0 |> <| limit := 1000 |>) 0 turns in
    ((CSV_HEADER +:+ CRLF) :: map (fun rows => String.concat "" (map csv_line rows)) pages, e)
  else ([], ClientGone).

(** ** The list *)

Record CdrList := mkList {
  items : list Cdr.CdrRecord;
  l_limit : Z;
  l_offset : Z;
  l_has_more : bool;
  next_cursor : option string
}.

Section list_cdrs.
Context (json : Cdr.CdrRecord -> string).

(** The body of the answer. *)
Definition list_body (l : CdrList) : string :=
  "{" +:+ Cdr.quoted "items" +:+ ":[" +:+ join "," (map json (items l)) +:+ "]," +:+ Cdr.quoted "count" +:+ ":"
  +:+ show (Z.of_nat (length (items l))) +:+ "," +:+ Cdr.quoted "limit" +:+ ":" +:+ show (l_limit l) +:+ ","
  +:+ Cdr.quoted "offset" +:+ ":" +:+ show (l_offset l) +:+ "," +:+ Cdr.quoted "has_more" +:+ ":" +:+ show_bool (l_has_more l)
  +:+ "," +:+ Cdr.quoted "next_cursor" +:+ ":" +:+ match next_cursor l with Some c => Cdr.quoted c | None => "null" end +:+ "}".
End list_cdrs.

(** Without a store: a page of the records in memory. *)
Definition list_memory (p : ParsedQuery) (records : list Cdr.CdrRecord) : ApiResult CdrList :=
  if filtered p || csv p then Err StoreUnavailable
  else
    let lim := limit (filter p) in let off := offset (filter p) in
    let '(page, fetched) := CdrWriter.get_page (Z.to_nat lim) (Z.to_nat off) records in
    Ok (mkList page lim off (Z.of_nat fetched =? wrapw 64 (off + lim)) None).

Definition list_store (f : CdrFilter) (t : Cdrs) : CdrList :=
  let '(rows, more) := query_cdrs f t in
  mkList (map Cdr.from_row rows) (limit f) (offset f) more
    (if more then cursor_text <$> last rows else None).

Inductive Response := Json (l : CdrList) | Csv (p : ParsedQuery).

(** [store]: [Some None] when there is one and it fails. *)
Definition list_cdrs (parse_rfc3339 : string -> option Z) (q : CdrQuery) (accept : option string)
    (store : option (option Cdrs)) (records : list Cdr.CdrRecord) : ApiResult Response :=
  let? p := parse_query parse_rfc3339 q accept in
  match store with
  | None => let? l := list_memory p records in Ok (Json l)
  | Some answer =>
      if csv p then Ok (Csv p)
      else match answer with Some t => Ok (Json (list_store (filter p) t)) | None => Err Internal end
  end.

(** ** Pages *)

Lemma matches_next f l r : matches (next_page f l) r = matches f r.
Proof. done. Qed.
Lemma matches_limit f n r : matches (f <| limit := n |>) r = matches f r.
Proof. done. Qed.

Lemma sorted_app_inv (a b : list Cdr.CdrRow) : StronglySorted newer (a ++ b) -> forall x y, x ∈ a -> y ∈ b -> newer x y.
Proof.
  induction a as [|x a IH]; intros H u v Hu Hv; [set_solver|]. cbn in H. apply StronglySorted_inv in H as [Hs Hf].
  apply elem_of_cons in Hu as [->|Hu]; [|by eapply IH]. rewrite Forall_forall in Hf. apply Hf. set_solver.
Qed.

Lemma pages_app (a b : list Cdr.CdrRow) : StronglySorted newer a -> StronglySorted newer b ->
  (forall x y, x ∈ a -> y ∈ b -> newer x y) -> StronglySorted newer (a ++ b).
Proof.
  induction 1 as [|x a Ha IH Hx]; intros Hb H; [done|]. cbn. constructor; [apply IH; set_solver|].
  rewrite Forall_forall in *. intros y [Hy|Hy]%elem_of_app; [by apply Hx|]. apply H; [by left|done].
Qed.

Lemma sorted_app_l (a b : list Cdr.CdrRow) : StronglySorted newer (a ++ b) -> StronglySorted newer a.
Proof.
  induction a as [|x a IH]; intros H; [constructor|]. cbn in H. apply StronglySorted_inv in H as [Hs Hf].
  constructor; [by apply IH|]. by apply Forall_app in Hf as [Hf _].
Qed.

(** A page that is not the last: its last record, and what lies beyond. *)
Lemma page_split f t rows : 0 < limit f < 2 ^ 62 -> offset f = 0 -> query_cdrs f t = (rows, true) ->
  exists l, last rows = Some l /\ rows = take (Z.to_nat (limit f)) (found f t) /\ Z.of_nat (length rows) = limit f.
Proof.
  intros Hl Ho. rewrite query_page by done. intros [= <- Hm]. apply Z.ltb_lt in Hm.
  assert (Hn : length (take (Z.to_nat (limit f)) (found f t)) = Z.to_nat (limit f)) by (rewrite length_take; lia).
  destruct (last (take (Z.to_nat (limit f)) (found f t))) as [l|] eqn:E.
  - exists l. split_and!; [done|done|lia].
  - apply last_None in E. rewrite E in Hn. cbn in Hn. lia.
Qed.

(** The last record of a page, and the others of what was found. *)
Lemma page_last f t n l : keyed t -> last (take n (found f t)) = Some l ->
  l ∈ found f t /\ (forall x, x ∈ take n (found f t) -> x = l \/ newer x l) /\
  (forall x, x ∈ found f t -> x ∈ take n (found f t) \/ newer l x).
Proof.
  intros Hk Hl. assert (Hs := found_sorted f t Hk). rewrite <- (take_drop n (found f t)) in Hs.
  assert (Hin : l ∈ take n (found f t)) by by apply last_Some_elem_of in Hl.
  split_and!.
  - by apply elem_of_take in Hin as (i & Hi%list_elem_of_lookup_2 & _).
  - apply last_Some in Hl as [before Hb]. rewrite Hb in *. rewrite <- app_assoc in Hs. intros x [Hx|Hx]%elem_of_app; [right|set_solver].
    eapply sorted_app_inv; [exact Hs|done|]. set_solver.
  - intros x Hx. rewrite <- (take_drop n (found f t)) in Hx. apply elem_of_app in Hx as [Hx|Hx]; [by left|right].
    by eapply sorted_app_inv.
Qed.

Definition served (turns : list Served) (t : Cdrs) : Prop := exists u, u ∈ turns /\ answer u = Some t.

(** What an export of which no page failed has listed. *)
Lemma csv_loop_spec cap f sent turns pages : (forall t, served turns t -> keyed t) -> 0 < limit f < 2 ^ 62 -> offset f = 0 ->
  (forall c, cap = Some c -> 0 <= sent <= c) -> csv_loop cap f sent turns = (pages, Complete) ->
  let rows := concat pages in
  StronglySorted newer rows /\
  (forall r, r ∈ rows -> matches f r = true /\ when (before f) (fun c => older c r) = true /\
     exists t, served turns t /\ t !! Cdr.rowid r = Some r) /\
  (cap = None -> forall r, matches f r = true -> when (before f) (fun c => older c r) = true ->
     (forall t, served turns t -> t !! Cdr.rowid r = Some r) -> r ∈ rows) /\
  (forall c, cap = Some c -> sent + Z.of_nat (length rows) <= c).
Proof.
  revert f sent pages. induction turns as [|u turns IH]; intros f sent pages Hk Hl Ho Hc E; cbn [csv_loop] in E;
    (destruct (match cap with Some c => c - sent =? 0 | None => false end) eqn:Ecap;
      [injection E as <-; split_and!; [constructor|cbn; set_solver|by intros ->|intros c ->; specialize (Hc c eq_refl); cbn; lia]|]); [done|].
  set (g := match cap with Some c => f <| limit := Z.min (c - sent) 1000 |> | None => f end) in E.
  assert (Hg : 0 < limit g < 2 ^ 62 /\ offset g = 0 /\ before g = before f /\ (forall r, matches g r = matches f r)
    /\ (forall c, cap = Some c -> sent + limit g <= c)).
  { unfold g. destruct cap as [c|]; [|split_and!; try done; lia]. specialize (Hc c eq_refl). apply Z.eqb_neq in Ecap.
    split_and!; try done; cbn; try lia. intros c' [= <-]. lia. }
  clearbody g. destruct Hg as (Hgl & Hgo & Hgb & Hgm & Hgc).
  destruct (answer u) as [t|] eqn:Et; [|done]. assert (Hst : served (u :: turns) t) by (exists u; split; [left|done]).
  assert (Hkt := Hk t Hst). destruct (query_cdrs g t) as [rows more] eqn:Eq. destruct (_ && negb (listening u)); [done|].
  assert (Hsound : forall r, r ∈ rows -> matches f r = true /\ when (before f) (fun c => older c r) = true /\
     exists t', served (u :: turns) t' /\ t' !! Cdr.rowid r = Some r).
  { intros r Hr. rewrite query_page in Eq by done. injection Eq as <- <-. apply elem_of_take in Hr as (i & Hr%list_elem_of_lookup_2 & _).
    apply elem_of_found in Hr as (Hr & Hm & Hb); [|done]. rewrite Hgm in Hm. rewrite Hgb in Hb. eauto. }
  assert (Hlen : Z.of_nat (length rows) <= limit g).
  { rewrite query_page in Eq by done. injection Eq as <- <-. rewrite length_take. lia. }
  assert (Hsorted : StronglySorted newer rows).
  { rewrite query_page in Eq by done. injection Eq as <- <-. eapply sorted_app_l. rewrite take_drop. by apply found_sorted. }
  destruct more.
  - destruct (page_split g t rows Hgl Hgo Eq) as (l & El & Er & En). rewrite El in E.
    destruct (csv_loop cap (next_page g l) _ turns) as [pages' e] eqn:Eloop. injection E as <- ->.
    destruct (page_last g t (Z.to_nat (limit g)) l Hkt) as (Hlf & Hbefore & Hafter); [by rewrite <- Er|]. rewrite <- Er in Hbefore, Hafter.
    apply elem_of_found in Hlf as (_ & _ & Hlb); [|done].
    apply IH in Eloop as (IH1 & IH2 & IH3 & IH4); [|by intros t' (u' & Hu & Ht'); apply Hk; exists u'; split; [right|]|done|done|
      intros c Hcc; specialize (Hgc c Hcc); specialize (Hc c Hcc); lia].
    cbn [concat]. assert (Hbeyond : forall r, r ∈ concat pages' -> newer l r).
    { intros r Hr. destruct (IH2 r Hr) as (_ & Ho' & _). by apply older_newer. }
    split_and!.
    + apply pages_app; [done|done|]. intros x y Hx Hy. specialize (Hbeyond y Hy). destruct (Hbefore x Hx) as [->|Hx']; [done|].
      by etransitivity.
    + intros r [Hr|Hr]%elem_of_app; [by apply Hsound|]. destruct (IH2 r Hr) as (Hm & _ & t' & (u' & Hu & Ht') & Hin).
      rewrite matches_next, Hgm in Hm. split_and!; [done| |exists t'; split; [exists u'; split; [by right|done]|done]].
      rewrite Hgb in Hlb. destruct (before f) as [[s i]|]; [|done]. cbn [when] in *. specialize (Hbeyond r Hr).
      unfold older, newer in *. cbn [fst snd] in *. rewrite orb_true_iff, andb_true_iff, !Z.ltb_lt, Z.eqb_eq in *. lia.
    + intros Hn r Hm Hb Hall. apply elem_of_app. rewrite <- Hgm in Hm. rewrite <- Hgb in Hb.
      assert (Hr : r ∈ found g t) by (apply elem_of_found; [done|split_and!; [by apply Hall|done|done]]).
      destruct (Hafter r Hr) as [H|H]; [by left|right]. apply IH3; [done|done|cbn; by apply older_newer|].
      intros t' (u' & Hu & Ht'). apply Hall. exists u'. split; [by right|done].
    + intros c Hcc. specialize (IH4 c Hcc). rewrite length_app. lia.
  - assert (pages = [rows]) as -> by (destruct (last rows); by injection E). cbn [concat]. rewrite app_nil_r. split_and!; [done|done| |].
    + intros _ r Hm Hb Hall. rewrite query_page in Eq by done. injection Eq as <- Hm'. apply Z.ltb_ge in Hm'.
      rewrite take_ge by lia. apply elem_of_found; [done|]. rewrite Hgm, Hgb. split_and!; [by apply Hall|done|done].
    + intros c Hcc. specialize (Hgc c Hcc). lia.
Qed.

(** The export of a table that stays as it is comes to its end. *)
Lemma csv_loop_ends f sent t k : keyed t -> 0 < limit f < 2 ^ 62 -> offset f = 0 -> (length (found f t) < k)%nat ->
  (csv_loop None f sent (repeat (mkServed (Some t) true) k)).2 = Complete.
Proof.
  revert f sent. induction k as [|k IH]; intros f sent Hk Hl Ho Hn; [lia|]. cbn [repeat csv_loop answer listening].
  destruct (query_cdrs f t) as [rows more] eqn:Eq. cbn [negb]. rewrite andb_false_r.
  destruct (last rows) as [l|] eqn:El; [|done]. destruct more; [|done].
  destruct (page_split f t rows Hl Ho Eq) as (l' & El' & Er & _). rewrite El in El'. injection El' as <-.
  destruct (page_last f t (Z.to_nat (limit f)) l Hk) as (Hlf & _ & _); [by rewrite <- Er|].
  specialize (IH (next_page f l) (sent + Z.of_nat (length rows)) Hk Hl Ho).
  destruct (csv_loop None (next_page f l) _ _) as [pages e]. apply IH.
  assert (Hsub : l :: found (next_page f l) t ⊆+ found f t); [|apply submseteq_length in Hsub; cbn [length] in Hsub; lia].
  assert (Hsorted : forall f', NoDup (found f' t)).
  { intros f'. assert (H := found_sorted f' t Hk). induction H as [|x xs Hx IHx Hf]; constructor; [|done].
    rewrite Forall_forall in Hf. intros Hin. by apply (not_newer_self x), Hf. }
  assert (Hnext : forall r, r ∈ found (next_page f l) t -> r ∈ found f t /\ newer l r).
  { intros r (Hr & Hm & Hb)%elem_of_found; [|done]. cbn in Hb. apply older_newer in Hb. split; [|done].
    apply elem_of_found; [done|]. split_and!; [done|done|]. apply elem_of_found in Hlf as (_ & _ & Hlb); [|done].
    destruct (before f) as [[s i]|]; [|done]. cbn [when] in *. unfold older, newer in *. cbn [fst snd] in *.
    rewrite orb_true_iff, andb_true_iff, !Z.ltb_lt, Z.eqb_eq in *. lia. }
  apply NoDup_submseteq.
  - constructor; [|apply Hsorted]. intros (_ & H)%Hnext. by apply (not_newer_self l).
  - intros x [->|Hx]%elem_of_cons; [done|]. by apply Hnext.
Qed.

Lemma concat_app (a b : list string) : String.concat "" (a ++ b) = String.concat "" a +:+ String.concat "" b.
Proof.
  induction a as [|x a IH]; [done|]. cbn [app String.concat]. destruct a as [|y a]; cbn [app] in *.
  - destruct b; cbn; [by rewrite !sapp_nil_r|done].
  - change ("" +:+ ?x) with x. rewrite IH. by rewrite sapp_assoc.
Qed.

Lemma concat_cons x (l : list string) : String.concat "" (x :: l) = x +:+ String.concat "" l.
Proof. apply (concat_app [x] l). Qed.

Lemma concat_pages (pages : list (list Cdr.CdrRow)) :
  String.concat "" (map (fun rows => String.concat "" (map csv_line rows)) pages) = String.concat "" (map csv_line (concat pages)).
Proof. induction pages as [|p pages IH]; [done|]. cbn [map concat]. by rewrite concat_cons, IH, map_app, concat_app. Qed.

(** C29: an export as CSV that runs to its end lists, after its header, records
    newest first, each once and all of them matches of the query; without a
    limit it lists every match that was in the store during all of it,
    whatever was stored or purged meanwhile, and with a limit no more than
    that. An export of a store at rest does come to its end. *)
Theorem export_complete p turns : (forall t, served turns t -> keyed t) ->
  (forall chunks, csv_stream p true turns = (chunks, Complete) -> (forall c, explicit_limit p = Some c -> 0 <= c) ->
     exists rows, String.concat "" chunks = CSV_HEADER +:+ CRLF +:+ String.concat "" (map csv_line rows) /\
       StronglySorted newer rows /\
       (forall r, r ∈ rows -> matches (filter p) r = true /\ exists t, served turns t /\ t !! Cdr.rowid r = Some r) /\
       (explicit_limit p = None -> forall r, matches (filter p) r = true -> when (before (filter p)) (fun c => older c r) = true ->
          (forall t, served turns t -> t !! Cdr.rowid r = Some r) -> r ∈ rows) /\
       (forall c, explicit_limit p = Some c -> Z.of_nat (length rows) <= c)) /\
  (forall t k, keyed t -> turns = repeat (mkServed (Some t) true) k -> explicit_limit p = None ->
     (length (found (filter p) t) < k)%nat -> (csv_stream p true turns).2 = Complete).
Proof.
  intros Hk. split.
  - intros chunks E Hcap. unfold csv_stream in E. set (f := filter p <| offset := 0 |> <| limit := 1000 |>) in E.
    destruct (csv_loop (explicit_limit p) f 0 turns) as [pages e] eqn:El. injection E as <- ->.
    destruct (csv_loop_spec _ f 0 turns pages Hk ltac:(cbn; lia) eq_refl ltac:(intros c Hc; specialize (Hcap c Hc); lia) El)
      as (Hs & Hr & Hall & Hmax).
    exists (concat pages). split_and!; [|done| |done|done].
    + by rewrite concat_cons, concat_pages, <- sapp_assoc.
    + intros r Hin. by destruct (Hr r Hin) as (Hm & _ & H).
  - intros t k Hkt -> Hn Hlen. unfold csv_stream. rewrite Hn.
    set (f := filter p <| offset := 0 |> <| limit := 1000 |>). assert (Hl : 0 < limit f < 2 ^ 62) by by cbn.
    assert (H := csv_loop_ends f 0 t k Hkt Hl eq_refl Hlen). by destruct (csv_loop None f 0 _).
Qed.

(** ** The cursor *)

Lemma parse_cursor_text r : - 2 ^ 63 <= Cdr.row_started_at r < 2 ^ 63 -> - 2 ^ 63 <= Cdr.rowid r < 2 ^ 63 ->
  parse_cursor (cursor_text r) = Ok (Cdr.row_started_at r, Cdr.rowid r).
Proof.
  intros Hs Hi. unfold parse_cursor, cursor_text.
  assert (Hf : free_of ":" (show_int (Cdr.row_started_at r)) = true).
  { unfold show_int. destruct (_ <? 0) eqn:E; to_prop.
    - destruct (show_spec (- Cdr.row_started_at r)) as (Hd & _); [lia|]. rewrite free_of_cons. apply andb_true_iff. split; [done|].
      eapply sall_impl; [|exact Hd]. intros c Hc. apply negb_true_iff, bool_decide_false. by intros ->.
    - destruct (show_spec (Cdr.row_started_at r)) as (Hd & _); [lia|].
      eapply sall_impl; [|exact Hd]. intros c Hc. apply negb_true_iff, bool_decide_false. by intros ->. }
  change (":" +:+ show_int (Cdr.rowid r)) with (String ":" (show_int (Cdr.rowid r))).
  rewrite split_once_app by done. cbn [mbind option_bind]. unfold parse_i64. rewrite !parse_show_int by lia. done.
Qed.

Lemma parse_with_cursor rfc q accept p c b : parse_query rfc q accept = Ok p -> q_offset q = None -> q_cursor q = None ->
  parse_cursor c = Ok b ->
  exists p', parse_query rfc (q <| q_cursor := Some c |>) accept = Ok p' /\ filter p' = filter p <| before := Some b |>.
Proof.
  intros E Ho Hc Hb. unfold parse_query, rbind in *. cbn [q_limit q_offset q_cursor q_from q_to q_direction q_trunk q_caller
    q_callee q_sip_code q_answered q_uuid q_call_id q_format set_field] in *. rewrite Ho, Hc in E. rewrite Ho. cbn [optional is_some] in *.
  unfold rbind. rewrite Hb. destruct (optional (q_limit q) parse_limit) as [lim|e]; [|done].
  repeat match type of E with
  | match ?x with Ok _ => _ | Err _ => _ end = Ok _ => destruct x as [?|?]; [|done]
  end.
  injection E as <-. eexists. split; [done|]. done.
Qed.

(** The cursor of a page leads to the next: the query with it asks for
    the records older than the last of the page, and nothing else changes. *)
Theorem cursor_resumes rfc q accept p t c : parse_query rfc q accept = Ok p -> q_offset q = None -> q_cursor q = None ->
  (forall i r, t !! i = Some r -> - 2 ^ 63 <= Cdr.row_started_at r < 2 ^ 63 /\ - 2 ^ 63 <= Cdr.rowid r < 2 ^ 63) ->
  keyed t -> next_cursor (list_store (filter p) t) = Some c ->
  exists p' l, last (query_cdrs (filter p) t).1 = Some l /\ parse_query rfc (q <| q_cursor := Some c |>) accept = Ok p' /\
    filter p' = next_page (filter p) l.
Proof.
  intros E Ho Hc Hr Hk Hn. unfold list_store in Hn. destruct (query_cdrs (filter p) t) as [rows more] eqn:Eq.
  cbn [next_cursor fst] in *. destruct more; [|done]. destruct (last rows) as [l|] eqn:El; [|done]. injection Hn as <-.
  assert (Hin : l ∈ found (filter p) t).
  { apply last_Some_elem_of in El. unfold query_cdrs, sql_limit in Eq. injection Eq as <- _.
    apply elem_of_take in El as (i & El%list_elem_of_lookup_2 & _).
    rewrite <- (take_drop (Z.to_nat (Cdr.as_i64 (offset (filter p)))) (found (filter p) t)). apply elem_of_app. right.
    case_match; [done|]. by apply elem_of_take in El as (j & El%list_elem_of_lookup_2 & _). }
  apply elem_of_found in Hin as (Hin & _ & _); [|done]. destruct (Hr _ _ Hin) as [Hs Hi].
  destruct (parse_with_cursor rfc q accept p _ _ E Ho Hc (parse_cursor_text l Hs Hi)) as (p' & Ep & Ef).
  exists p', l. done.
Qed.

(** ** Reading the export *)

(** A reader of CSV (RFC 4180): at the start of a field, in a plain field,
    inside quotes, after a quote inside quotes. *)
Inductive Reading := Begin | Plain | Inside | After.

Fixpoint read_csv (st : Reading) (field : string) (row : list string) (s : string) : list (list string) :=
  match s with
  | "" => []
  | String c s =>
      let more := read_csv (match st with Begin | Plain => Plain | _ => Inside end) (field +:+ String c "") row s in
      match st with
      | Inside => if bool_decide (c = quote) then read_csv After field row s else more
      | _ =>
          if bool_decide (c = quote) then
            match st with
            | Begin => read_csv Inside field row s
            | _ => more
            end
          else if bool_decide (c = ","%char) then read_csv Begin "" (row ++ [field]) s
          else if bool_decide (c = "010"%char) then (row ++ [field]) :: read_csv Begin "" [] s
          else if bool_decide (c = "013"%char) then read_csv st field row s
          else more
      end
  end.

(** A field as a reader sees it. *)
Definition shown (c : bool * string) : string := if c.1 then guarded c.2 else c.2.

Lemma snoc_app (f : string) c s : (f +:+ String c "") +:+ s = f +:+ String c s.
Proof. by rewrite sapp_assoc. Qed.

Lemma special_false c : negb (special c) = true -> c <> ","%char /\ c <> quote /\ c <> "013"%char /\ c <> "010"%char.
Proof. unfold special. rewrite negb_true_iff, bool_decide_eq_false. naive_solver. Qed.

Lemma read_plain st f row s rest : st = Begin \/ st = Plain -> sall (fun c => negb (special c)) s = true -> s <> "" ->
  read_csv st f row (s +:+ rest) = read_csv Plain (f +:+ s) row rest.
Proof.
  intros Hst Hs Hn. revert st f Hst Hn. induction s as [|c s IH]; intros st f Hst Hn; [done|]. cbn [sall] in Hs.
  apply andb_true_iff in Hs as [Hc Hs]. apply special_false in Hc as (H1 & H2 & H3 & H4). rewrite sapp_cons. cbn [read_csv].
  rewrite !bool_decide_false by done.
  assert (E : read_csv Plain (f +:+ String c "") row (s +:+ rest) = read_csv Plain (f +:+ String c s) row rest).
  { destruct s as [|d s]; [done|]. rewrite IH by (try done; by right). by rewrite snoc_app. }
  by destruct Hst as [-> | ->].
Qed.

Lemma read_inside f row s rest : read_csv Inside f row (doubled s +:+ String quote rest) = read_csv After (f +:+ s) row rest.
Proof.
  revert f. induction s as [|c s IH]; intros f.
  - change (doubled "" +:+ String quote rest) with (String quote rest). cbn [read_csv]. rewrite bool_decide_true by done. by rewrite sapp_nil_r.
  - cbn [doubled]. case_bool_decide as Hc; rewrite ?sapp_cons; cbn [read_csv].
    + rewrite !bool_decide_true by done. rewrite IH, snoc_app. by subst c.
    + rewrite !bool_decide_false by done. by rewrite IH, snoc_app.
Qed.

Lemma read_field row s rest l : (forall st, st <> Inside -> read_csv st (guarded s) row rest = l) ->
  read_csv Begin "" row (csv_field s +:+ rest) = l.
Proof.
  intros H. unfold csv_field. destruct (sall _ (guarded s)) eqn:E.
  - destruct (decide (guarded s = "")) as [E0|E0]; [rewrite E0 in *; by apply H|]. rewrite read_plain by auto. by apply H.
  - rewrite sapp_cons. cbn [read_csv]. rewrite bool_decide_true by done. rewrite snoc_app. rewrite read_inside. by apply H.
Qed.

Lemma read_simple row s rest l : sall (fun c => negb (special c)) s = true ->
  (forall st, st <> Inside -> read_csv st s row rest = l) -> read_csv Begin "" row (s +:+ rest) = l.
Proof.
  intros Hs H. destruct (decide (s = "")) as [->|E0]; [by apply H|]. rewrite read_plain by auto. by apply H.
Qed.

Definition written (c : bool * string) : string := if c.1 then csv_field c.2 else c.2.
Definition simple (s : string) : Prop := sall (fun c => negb (special c)) s = true.

Lemma read_column row c rest l : c.1 = true \/ simple c.2 ->
  (forall st, st <> Inside -> read_csv st (shown c) row rest = l) -> read_csv Begin "" row (written c +:+ rest) = l.
Proof. unfold written, shown. destruct c as [[] s]; cbn; intros H; [apply read_field|apply read_simple; by destruct H]. Qed.

Lemma read_line cs row rest : cs <> [] -> Forall (fun c => c.1 = true \/ simple c.2) cs ->
  read_csv Begin "" row (join "," (map written cs) +:+ CRLF +:+ rest) = (row ++ map shown cs) :: read_csv Begin "" [] rest.
Proof.
  intros Hn Hf. revert row Hn. induction Hf as [|c cs Hc Hf IH]; intros row Hn; [done|]. destruct cs as [|d cs].
  - apply read_column; [done|]. intros st Hst. unfold CRLF. rewrite !sapp_cons. cbn [read_csv]. destruct st; done.
  - cbn [map]. change (join "," (written c :: written d :: map written cs)) with (written c +:+ "," +:+ join "," (map written (d :: cs))).
    rewrite !sapp_assoc. apply read_column; [done|]. intros st Hst. rewrite sapp_cons. cbn [read_csv].
    change (bool_decide _) with false at 1. change ("" +:+ ?x) with x. rewrite (IH (row ++ [shown c])) by done.
    rewrite <- app_assoc. by destruct st.
Qed.

Lemma digits_simple s : sall is_digit s = true -> simple s.
Proof. apply sall_impl. intros c Hc. apply negb_true_iff, bool_decide_false. intros H. destruct_or! H; by subst c. Qed.

Lemma show_int_simple z : simple (show_int z).
Proof.
  unfold show_int. destruct (z <? 0) eqn:E; to_prop.
  - destruct (show_spec (- z)) as (Hd & _); [lia|]. unfold simple. cbn [sall]. apply andb_true_iff. split; [done|]. by apply digits_simple.
  - destruct (show_spec z) as (Hd & _); [lia|]. by apply digits_simple.
Qed.

Lemma columns_plain r : Forall (fun c => c.1 = true \/ simple c.2) (columns r).
Proof.
  unfold columns. cbv zeta. repeat (apply Forall_cons; split); try by apply Forall_nil.
  all: cbn [fst snd]; try (left; reflexivity);
    try (right; apply show_int_simple); right.
  - by destruct (Cdr.row_is_webrtc r).
  - destruct (Cdr.row_sip_code r); [apply show_int_simple|done].
  - destruct (Cdr.row_answered_at r); [apply show_int_simple|done].
Qed.

Lemma guarded_safe s : dangerous (guarded s) = false.
Proof. unfold guarded. by destruct (dangerous s) eqn:E. Qed.

Lemma header_names : CSV_HEADER = join "," (map written (map (pair false) (split "," CSV_HEADER))).
Proof. by vm_compute. Qed.

Lemma header_plain : Forall (fun c : bool * string => c.1 = true \/ simple c.2) (map (pair false) (split "," CSV_HEADER)).
Proof. vm_compute. repeat (constructor; [by right|]). constructor. Qed.

(** A reader of CSV gets back from an export the names of the columns and,
    for each record, its 23 values; a text a caller can choose is given back
    as it is, but for an apostrophe before one that the code takes for a
    formula, and no text that is given back is one. *)
Theorem export_reads_back rows :
  read_csv Begin "" [] (CSV_HEADER +:+ CRLF +:+ String.concat "" (map csv_line rows))
  = split "," CSV_HEADER :: map (fun r => map shown (columns r)) rows /\
  (forall r c, c ∈ columns r -> c.1 = true -> dangerous (shown c) = false /\ (shown c = c.2 \/ shown c = String "'" c.2)).
Proof.
  split.
  - rewrite header_names at 1. generalize header_plain. destruct (split "," CSV_HEADER) as [|n ns] eqn:En; [by vm_compute in En|].
    intros Hp. rewrite read_line; [|discriminate|exact Hp]. cbn [app]. f_equal; [rewrite map_map; apply map_id|].
    induction rows as [|r rows IH]; [done|]. cbn [map]. rewrite concat_cons. unfold csv_line at 1.
    rewrite !sapp_assoc. change (map (fun c : bool * string => _) (columns r)) with (map written (columns r)).
    rewrite read_line by (done || apply columns_plain). by rewrite IH.
  - intros r [b s] _ Hb. cbn in Hb. subst b. split; [apply guarded_safe|]. unfold shown, guarded. cbn. destruct (dangerous s); auto.
Qed.

Module Witness.

#[local] Existing Instance CdrStore.Witness.ids.

Definition record (i : string) (at_s : Z) : Cdr.CdrRow :=
  Cdr.to_row (Cdr.with_window (secs at_s) None (secs (at_s + 5)) (Cdr.new_cdr (secs (at_s + 5)) i "c@h" "alice" "+33612345678")).

Definition table (l : list Cdr.CdrRow) : Cdrs := (insert_rows_on l ∅).2.

Lemma table_keyed l : keyed (table l).
Proof. destruct (insert_rows_spec l ∅ CdrWriter.Witness.nothing_keyed CdrWriter.Witness.nothing_distinct) as (H & _). exact H. Qed.

Definition rfc (s : string) : option Z := None.

Definition asked : CdrQuery :=
  mkQuery (Some "2") None None (Some "100") None None None None (Some "+33") None None None None None.
Definition parsed : ParsedQuery :=
  mkParsed (default_filter <| from := Some 100 |> <| callee_prefix := Some "+33" |> <| limit := 2 |>) true (Some 2) false.

(** Three records match; the first page has two and leads to the third. *)
Definition three : Cdrs := table [record "a" 100; record "b" 300; record "old" 50; record "c" 200].

Example first_page :
  parse_query rfc asked None = Ok parsed /\
  map Cdr.id (items (list_store (filter parsed) three)) = ["b"; "c"] /\
  next_cursor (list_store (filter parsed) three) = Some "200:3".
Proof. by vm_compute. Qed.

Lemma cursor_resumes_witness :
  exists p' l, last (query_cdrs (filter parsed) three).1 = Some l /\ Cdr.row_id l = "c" /\
    parse_query rfc (asked <| q_cursor := Some "200:3" |>) None = Ok p' /\ filter p' = next_page (filter parsed) l.
Proof.
  destruct (cursor_resumes rfc asked None parsed three "200:3") as (p' & l & El & Ep & Ef).
  - apply first_page.
  - done.
  - done.
  - apply (bool_decide_eq_true_1 (map_Forall (fun _ r => - 2 ^ 63 <= Cdr.row_started_at r < 2 ^ 63 /\ - 2 ^ 63 <= Cdr.rowid r < 2 ^ 63) three)).
    by vm_compute.
  - apply table_keyed.
  - apply first_page.
  - exists p', l. split_and!; try done. vm_compute in El. by injection El as <-.
Defined.

(** An export without a limit, of a store at rest. *)
Definition whole : ParsedQuery := mkParsed (default_filter <| from := Some 100 |>) true None true.

Definition rest : list Served := repeat (mkServed (Some three) true) 4.

Lemma export_complete_witness :
  (csv_stream whole true rest).2 = Complete /\
  exists rows, String.concat "" (csv_stream whole true rest).1 = CSV_HEADER +:+ CRLF +:+ String.concat "" (map csv_line rows) /\
    (record "a" 100 <| Cdr.rowid := 0 |>) ∈ rows.
Proof.
  assert (Hs : forall t, served rest t -> t = three).
  { intros t (u & Hu & Ha). apply list_elem_of_In, repeat_spec in Hu. subst u. by injection Ha. }
  assert (Hk : forall t, served rest t -> keyed t) by (intros t ->%Hs; apply table_keyed).
  destruct (export_complete whole rest Hk) as [Hlist Hends].
  assert (He : (csv_stream whole true rest).2 = Complete).
  { apply (Hends three 4%nat); [apply table_keyed|done|done|]. vm_compute. lia. }
  split; [done|]. destruct (csv_stream whole true rest) as [chunks e] eqn:E. cbn [snd] in He. subst e.
  destruct (Hlist chunks eq_refl) as (rows & Ht & _ & _ & Hall & _); [done|]. exists rows. split; [exact Ht|].
  apply Hall; [done|by vm_compute|by vm_compute|]. intros t ->%Hs. by vm_compute.
Defined.

(** The guard takes a formula that begins with a signed digit for a number. *)
Example formula_passes : guarded "+1+HYPERLINK(A1)" = "+1+HYPERLINK(A1)" /\ guarded "+HYPERLINK(A1)" = "'+HYPERLINK(A1)".
Proof. by vm_compute. Qed.

End Witness.
