(* ===== verification/Sbc.v ===== *)
(** * The event loop's state (sbc/mod.rs, sbc/trunk_state.rs)

    What the handlers share: the calls, the trunks, both transaction tables,
    the queue of teardowns, and a record of what was sent, written and
    published. A handler is a computation over this state. The clocks are part
    of it and set from outside; the network decides each send, and the numbers
    drawn are a stream. *)

From S2P Require Import Prelude Str Bytes Net.
From S2P Require SipBuilder ClientTx InviteTx Topology Trunk B2bua Cdr Media Edge.

#[export] Existing Instance B2bua.eta_call.
#[export] Existing Instance B2bua.eta_manager.
#[export] Existing Instance Media.eta_media_manager.

(** ** State *)

Inductive KickReason := KickAdmin | KickMediaUnavailable.

(** One attempt to send a message, the name the log gives it (empty for a
    repeated final), and whether the transport took it. *)
Record Sent := mkSent {
  s_what : string;
  s_data : string;
  s_dest : SocketAddr;
  s_transport : Transport;
  s_tx : option nat;
  s_ok : bool
}.

Record Sbc := mkSbc {
  now : Z;
  wall : Z;
  b2bua : B2bua.B2buaManager;
  trunk_manager : Trunk.TrunkManager;
  invite_tx : InviteTx.InviteTxCache;
  client_tx : ClientTx.ClientTxCache;
  identity : option Topology.SbcIdentity;
  edge : Edge.Edge;
  session_timer : option (Z * Z);
  call_setup_timeout : Z;
  max_call_duration : Z;
  invite_timeout : Z;
  admin_kicks : list (string * KickReason);
  media : Media.MediaManager;
  media_timed_out : list string;
  cdrs : list Cdr.CdrRecord;
  trunk_health : list (string * string * Z);
  pending_register_responses : gset string;
  trunk_replies : list (string * string);
  effects : list B2bua.Effect;
  wire : list Sent;
  drawn : nat
}.

#[export] Instance eta_sbc : Eta Sbc := fun s =>
  mkSbc (now s) (wall s) (b2bua s) (trunk_manager s) (invite_tx s) (client_tx s) (identity s) (edge s) (session_timer s)
    (call_setup_timeout s) (max_call_duration s) (invite_timeout s) (admin_kicks s) (media s) (media_timed_out s) (cdrs s)
    (trunk_health s) (pending_register_responses s) (trunk_replies s) (effects s) (wire s) (drawn s).

(** A computation over the state. *)
Definition M (A : Type) : Type := Sbc -> A * Sbc.

#[export] Instance M_ret : MRet M := fun A a s => (a, s).
#[export] Instance M_bind : MBind M := fun A B f m s => let '(a, s) := m s in f a s.

Definition gets {A} (f : Sbc -> A) : M A := fun s => (f s, s).
Definition modify (f : Sbc -> Sbc) : M unit := fun s => (tt, f s).
Definition skip : M unit := mret tt.

Fixpoint for_each {A} (f : A -> M unit) (l : list A) : M unit :=
  match l with [] => skip | x :: l => _ ← f x; for_each f l end.

Definition on_b2bua (f : B2bua.B2buaManager -> B2bua.B2buaManager) : M unit :=
  modify (fun s => s <| b2bua := f (b2bua s) |>).

(** The result of an operation of the call manager that returns one. *)
Definition b2bua_op {A} (f : B2bua.B2buaManager -> A * B2bua.B2buaManager) : M A :=
  fun s => let '(a, m) := f (b2bua s) in (a, s <| b2bua := m |>).

Definition call_of (uuid : B2bua.CallUuid) : M (option B2bua.B2buaCall) :=
  gets (fun s => B2bua.calls (b2bua s) !! uuid).

Definition sbc_addr : M (string * Z) :=
  gets (fun s => match identity s with
                 | Some i => (Topology.public_ip i, Topology.sip_port i)
                 | None => ("127.0.0.1", 5060) end).

(** ** What a computation keeps

    [keeps R m]: the state after [m] is related to the state before. For a
    preorder [R] this follows from the steps of [m]. *)
Definition keeps {A} (R : relation Sbc) (m : M A) : Prop := forall s, R s (m s).2.

Create HintDb keep.

Section keeps.
Context (R : relation Sbc) `{!PreOrder R}.

Lemma keeps_ret {A} (a : A) : keeps R (mret a : M A).
Proof. intros s. reflexivity. Qed.

Lemma keeps_gets {A} (f : Sbc -> A) : keeps R (gets f).
Proof. intros s. reflexivity. Qed.

Lemma keeps_bind {A B} (m : M A) (f : A -> M B) : keeps R m -> (forall a, keeps R (f a)) -> keeps R (m ≫= f).
Proof.
  intros Hm Hf s. unfold mbind, M_bind. specialize (Hm s). destruct (m s) as [a s']. etrans; [exact Hm|]. apply Hf.
Qed.

Lemma keeps_for_each {A} (f : A -> M unit) l : (forall x, x ∈ l -> keeps R (f x)) -> keeps R (for_each f l).
Proof.
  induction l as [|x l IH]; intros Hf; [apply keeps_ret|]. cbn [for_each]. apply keeps_bind.
  - apply Hf. by left.
  - intros _. apply IH. intros y Hy. apply Hf. by right.
Qed.
End keeps.

(** The steps of a computation, one at a time; what is not a step of the monad
    is left to the lemmas of the hint database. *)
Ltac keeping :=
  repeat (intros; match goal with
  | |- keeps _ (_ ≫= _) => apply keeps_bind; [apply _| |]
  | |- keeps _ (mret _) => apply keeps_ret; apply _
  | |- keeps _ skip => apply keeps_ret; apply _
  | |- keeps _ (gets _) => apply keeps_gets; apply _
  | |- keeps _ (call_of _) => apply keeps_gets; apply _
  | |- keeps _ sbc_addr => apply keeps_gets; apply _
  | |- keeps _ (for_each _ _) => apply keeps_for_each; [apply _|]
  | |- keeps _ (match ?x with _ => _ end) => destruct x
  | |- keeps _ _ => solve [auto with keep | eauto 4 with keep]
  end).

(** What holds of a computation's result and of the state it leaves, from
    wherever it starts. *)
Definition leaves {A} (Q : A -> Sbc -> Prop) (m : M A) : Prop := forall s, Q (m s).1 (m s).2.

Section leaves.
Context {A B : Type}.

Lemma leaves_bind (Q : B -> Sbc -> Prop) (m : M A) (f : A -> M B) : (forall a, leaves Q (f a)) -> leaves Q (m ≫= f).
Proof. intros Hf s. unfold mbind, M_bind. destruct (m s) as [a s']. apply Hf. Qed.

Lemma leaves_bind_with (P : A -> Sbc -> Prop) (Q : B -> Sbc -> Prop) (m : M A) (f : A -> M B) :
  leaves P m -> (forall a s, P a s -> Q (f a s).1 (f a s).2) -> leaves Q (m ≫= f).
Proof. intros Hm Hf s. specialize (Hm s). unfold mbind, M_bind. destruct (m s) as [a s']. by apply Hf. Qed.

Lemma leaves_impl (P Q : A -> Sbc -> Prop) (m : M A) : leaves P m -> (forall a s, P a s -> Q a s) -> leaves Q m.
Proof. intros Hm HQ s. apply HQ, Hm. Qed.
End leaves.

(** The part of the state that sending leaves alone. *)
Definition core (s : Sbc) :=
  (now s, wall s, b2bua s, trunk_manager s, identity s, edge s, session_timer s, call_setup_timeout s,
   max_call_duration s, invite_timeout s, admin_kicks s, media s, media_timed_out s, cdrs s, trunk_health s,
   pending_register_responses s, trunk_replies s, effects s).

(** Only sending: the wire grows, and the transaction tables and the numbers
    drawn may change. *)
Definition sends_only (s s' : Sbc) : Prop := core s' = core s /\ wire s `prefix_of` wire s'.

#[export] Instance sends_only_preorder : PreOrder sends_only.
Proof.
  split; [by intros s; split|]. intros s1 s2 s3 [H1 W1] [H2 W2]. split; [by rewrite H2|by etrans].
Qed.

Lemma sends_core s s' : sends_only s s' ->
  now s' = now s /\ b2bua s' = b2bua s /\ trunk_manager s' = trunk_manager s /\ cdrs s' = cdrs s /\
  effects s' = effects s /\ trunk_health s' = trunk_health s /\ media s' = media s /\ edge s' = edge s.
Proof. intros [H _]. by injection H. Qed.

(** What the parser reads of a header or a Request-URI: the text of a typed To,
    its tag and how one is added, the tag and the user of a From, the number of
    a CSeq, the host (with its port), the user and the credentials part of a URI,
    and a URI with another user. *)
Record Parser := mkParser {
  typed_to : string -> option string;
  to_tag : string -> option string;
  push_tag : string -> string -> string;
  from_tag : string -> option string;
  from_user : string -> option string;
  cseq_seq : string -> option Z;
  uri_domain : string -> string;
  uri_user : string -> option string;
  uri_auth : string -> option string;
  with_user : string -> string -> string
}.

(** What the state does not decide: the transport's answer to the n-th send,
    the n-th text drawn, the printing and parsing of addresses, the address put
    in SDP bodies, whether the sockets of a relay are bound, the WebRTC sessions
    (their handle and password, the answer and the offer they generate), the
    delays drawn, the parser, the networks of the ban and access lists, the hash
    of a list of texts, and whether a connection is closed. *)
Record Env := mkEnv {
  net : nat -> bool;
  rand : nat -> string;
  show_addr : SocketAddr -> string;
  ip_text : IpAddr -> string;
  parse_addr : string -> option SocketAddr;
  parse_ip : string -> option IpAddr;
  reason_phrase : Z -> string;
  media_ip : option IpAddr;
  binds : nat -> bool;
  webrtc_answer : nat -> Z -> string -> string;
  rand_ms : nat -> Z;
  parser : Parser;
  network : string -> option (IpAddr -> bool);
  hash : list string -> Z;
  tx_closed : nat -> nat -> bool;
  webrtc_new : nat -> string -> string -> option (nat * string);
  webrtc_for_offer : nat -> string -> option (nat * string);
  webrtc_offer : nat -> Z -> string -> string
}.

Definition KICKED (u : string) (q : list (string * KickReason)) : bool := existsb (fun k => seqb k.1 u) q.

(** [AdminKicks] *)
Definition request_with (uuid : string) (r : KickReason) (q : list (string * KickReason)) : list (string * KickReason) :=
  if KICKED uuid q then q else q ++ [(uuid, r)].
Definition request (uuid : string) : list (string * KickReason) -> list (string * KickReason) :=
  request_with uuid KickAdmin.
Definition drain (q : list (string * KickReason)) : list (string * KickReason) * list (string * KickReason) := (q, []).
Definition pending (q : list (string * KickReason)) : list string := q.*1.

Section env.
Context (E : Env) {HT : HashIter Trunk.TrunkId Trunk.TrunkConfig}.

Definition draw : M string := fun s => (rand E (drawn s), s <| drawn := S (drawn s) |>).

Definition draw_ms : M Z := fun s => (rand_ms E (drawn s), s <| drawn := S (drawn s) |>).
Definition draw_bind : M bool := fun s => (binds E (drawn s), s <| drawn := S (drawn s) |>).
Definition draw_closed (tx : nat) : M bool := fun s => (tx_closed E (drawn s) tx, s <| drawn := S (drawn s) |>).

Definition on_edge (f : Edge.Edge -> Edge.Edge) : M unit := modify (fun s => s <| edge := f (edge s) |>).
Definition edge_op {A} (f : Edge.Edge -> A * Edge.Edge) : M A :=
  fun s => let '(a, e) := f (edge s) in (a, s <| edge := e |>).

(** ** Calls and their media *)

(** What the call manager asks of the media manager and of the event bus. *)
Definition perform (e : B2bua.Effect) (s : Sbc) : Sbc :=
  (match e with
   | B2bua.UpdateCalleeSdp id sdp =>
       s <| media := (Media.update_callee_sdp (ip_text E) (media_ip E) id sdp (media s)).2 |>
   | B2bua.TerminateSession id => s <| media := (Media.terminate_session (now s) id (media s)).2 |>
   | _ => s
   end) <| effects := effects s ++ [e] |>.

Definition emit (es : list B2bua.Effect) : M unit := for_each (fun e => modify (perform e)) es.

(** [B2buaManager::create_call]: the session is the call's own. *)
Definition create_call (uuid inbound_call_id inbound_tag : string) (caller_addr : SocketAddr) (sdp : option string)
    (reply_tx : option nat) (t : Transport) : M (sbc_result string) :=
  fun s =>
    let '(session, md) :=
      match sdp with
      | Some d => Media.create_session (ip_text E) (media_ip E) (now s) uuid (Some d) (media s)
      | None => (Err (EOther ""), media s)
      end in
    let session_id := match session with Ok x => Ok (Media.session_id x) | Err e => Err e end in
    let '((r, es), m) := B2bua.create_call (now s) (wall s) uuid (fun _ _ => session_id) Media.is_webrtc inbound_call_id
                           inbound_tag caller_addr sdp reply_tx t (b2bua s) in
    let '(_, s) := emit es (s <| b2bua := m |> <| media := md |>) in
    (r, s).

(** ** Sending *)

(** A response to an INVITE is remembered for the INVITE's retransmissions. *)
Definition remember_response (data : string) (dest : SocketAddr) (t : Transport) (tx : option nat) (s : Sbc) : Sbc :=
  if starts_with "SIP/2.0 " data && is_utf8 data then
    match InviteTx.key_of_response data with
    | Some (key, status) =>
        s <| invite_tx := InviteTx.record_sent (now s) key data status dest t tx (invite_tx s) |>
    | None => s
    end
  else s.

Definition track_request (what data : string) (dest : SocketAddr) (t : Transport) (tx : option nat) (s : Sbc) : Sbc :=
  s <| client_tx := (ClientTx.record_sent (now s) what data dest t tx (client_tx s)).2 |>.

(** [transport.reply] *)
Definition transmit (what data : string) (dest : SocketAddr) (t : Transport) (tx : option nat) : M bool :=
  fun s => let ok := net E (length (wire s)) in (ok, s <| wire := wire s ++ [mkSent what data dest t tx ok] |>).

Definition send_sip (what data : string) (dest : SocketAddr) (t : Transport) (tx : option nat) : M bool :=
  _ ← modify (remember_response data dest t tx);
  ok ← transmit what data dest t tx;
  if (ok : bool) then
    _ ← modify (fun s => if starts_with "SIP/2.0 " data then s else track_request what data dest t tx s);
    mret true
  else mret false.

Definition send_request_tracked (what data : string) (dest : SocketAddr) (t : Transport) (tx : option nat) : M bool :=
  ok ← transmit what data dest t tx;
  if (ok : bool) then _ ← modify (track_request what data dest t tx); mret true else mret false.

Lemma draw_sends : keeps sends_only draw.
Proof. by intros s. Qed.

Lemma transmit_sends what data d t tx : keeps sends_only (transmit what data d t tx).
Proof. intros s. split; [done|]. by eexists. Qed.

Lemma track_sends what data d t tx : keeps sends_only (modify (track_request what data d t tx)).
Proof. by intros s. Qed.

Lemma remember_sends data d t tx : keeps sends_only (modify (remember_response data d t tx)).
Proof.
  intros s. unfold modify, remember_response. destruct (_ && _); [|done].
  by destruct (InviteTx.key_of_response data) as [[]|].
Qed.

#[local] Hint Resolve transmit_sends track_sends remember_sends : keep.

Lemma send_sends what data d t tx : keeps sends_only (send_sip what data d t tx).
Proof. unfold send_sip. keeping. intros s. unfold modify. by destruct (starts_with _ _). Qed.

Lemma send_request_sends what data d t tx : keeps sends_only (send_request_tracked what data d t tx).
Proof. unfold send_request_tracked. keeping. Qed.

(** ** Trunks (sbc/trunk_state.rs) *)

(** The trunk each call counts on. *)
Definition counted (m : B2bua.B2buaManager) : gmap string (option string) := B2bua.trunk_counted <$> B2bua.calls m.

Definition count_call_on_trunk (uuid : string) (trunk : option string) : M unit :=
  fun s =>
    match B2bua.calls (b2bua s) !! uuid with
    | None => (tt, s)
    | Some c =>
        if bool_decide (B2bua.trunk_counted c = trunk) then (tt, s)
        else
          (tt, s <| b2bua := B2bua.with_call uuid (fun c => c <| B2bua.trunk_counted := trunk |>) (b2bua s) |>
                 <| trunk_manager := Trunk.apply_counted (B2bua.trunk_counted c) trunk (trunk_manager s) |>)
    end.

Definition outbound_trunk_of (uuid : string) : M (option string) :=
  gets (fun s =>
    c ← B2bua.calls (b2bua s) !! uuid;
    if seqb (B2bua.direction c) "inbound" then None else B2bua.trunk_name c).

Definition silent_outbound_trunk_of (uuid : string) : M (option string) :=
  gets (fun s =>
    c ← B2bua.calls (b2bua s) !! uuid;
    if seqb (B2bua.direction c) "inbound" || B2bua.callee_responded c then None else B2bua.trunk_name c).

Definition publish_health (name : string) (h : option (string * Z)) (s : Sbc) : Sbc :=
  match h with Some (status, n) => s <| trunk_health := trunk_health s ++ [(name, status, n)] |> | None => s end.

Definition note_trunk_failure (name : string) (retry_after : option Z) : M unit :=
  fun s =>
    let '(h, m) := Trunk.note_trunk_failure (now s) name retry_after (trunk_manager s) in
    (tt, publish_health name h (s <| trunk_manager := m |>)).

Definition note_trunk_success (name : string) : M unit :=
  fun s =>
    let '(h, m) := Trunk.note_trunk_success (now s) name (trunk_manager s) in
    (tt, publish_health name h (s <| trunk_manager := m |>)).

Definition trunk_outcome_label (o : Cdr.CallOutcome) (answered : bool) : string :=
  if answered then "answered"
  else match o with
  | Cdr.Cancelled => "cancelled"
  | Cdr.SetupTimeout => "timeout"
  | Cdr.Rejected code => if negb (Trunk.is_trunk_strike_code code) then "rejected" else "failed"
  | _ => "failed"
  end.

(** ** Lemmas *)

(** A call created is live under its own name, counted nowhere, and its media
    session is its own; a refusal leaves the calls alone. *)
Lemma create_call_spec u cid tag a sdp tx t s :
  let '(r, s') := create_call u cid tag a sdp tx t s in
  cdrs s' = cdrs s /\ trunk_manager s' = trunk_manager s /\
  match r with
  | Ok id => id = u /\ exists c, B2bua.uuid c = u /\ B2bua.calls (b2bua s') = <[u := c]> (B2bua.calls (b2bua s)) /\
      B2bua.trunk_counted c = None /\ B2bua.media_session_id c = (match sdp with Some _ => Some u | None => None end) /\
      now s' = now s /\
      media s' = match sdp with
                 | Some d => (Media.create_session (ip_text E) (media_ip E) (now s) u (Some d) (media s)).2
                 | None => media s end
  | Err _ => B2bua.calls (b2bua s') = B2bua.calls (b2bua s) /\ now s' = now s /\
      exists d, sdp = Some d /\ media s' = (Media.create_session (ip_text E) (media_ip E) (now s) u (Some d) (media s)).2 /\
        exists e, (Media.create_session (ip_text E) (media_ip E) (now s) u (Some d) (media s)).1 = Err e
  end.
Proof.
  unfold create_call, B2bua.create_call. destruct sdp as [d|].
  - assert (Hid := Media.create_named (ip_text E) (media_ip E) (now s) u (Some d) (media s)).
    destruct (Media.create_session _ _ _ _ _ _) as [[x|e] md] eqn:Hcs; cbn.
    + rewrite (Hid x eq_refl). split_and!; [done..|]. eexists. split; [|split; [reflexivity|done]]; done.
    + split_and!; [done..|]. exists d. rewrite Hcs. split_and!; [done..|]. by exists e.
  - split_and!; [done..|]. eexists. split; [|split; [reflexivity|done]]; done.
Qed.

(** Counting a call in the event loop is counting it on the map of counted
    calls. *)
Lemma count_refines uuid trunk s :
  let s' := (count_call_on_trunk uuid trunk s).2 in
  (counted (b2bua s'), trunk_manager s') = Trunk.count_call_on_trunk uuid trunk (counted (b2bua s), trunk_manager s).
Proof.
  unfold count_call_on_trunk, Trunk.count_call_on_trunk, Trunk.swap_counted, counted. rewrite lookup_fmap.
  destruct (B2bua.calls (b2bua s) !! uuid) as [c|] eqn:Hc; [|done]. cbn [fmap option_fmap option_map].
  case_bool_decide; [done|]. cbn. f_equal. apply map_eq. intros j. rewrite lookup_fmap.
  destruct (decide (uuid = j)) as [<-|].
  - by rewrite lookup_alter_eq, lookup_insert_eq, Hc.
  - by rewrite lookup_alter_ne, lookup_insert_ne, lookup_fmap by done.
Qed.
End env.

#[export] Hint Resolve draw_sends transmit_sends track_sends remember_sends send_sends send_request_sends : keep.
