(* ===== verification/SipParser.v ===== *)
(** * Typed headers, and the parser the event loop uses (rsip-nixi/headers/typed/)

    A To or a From as typed, the number of a CSeq, and the reading of a
    Request-URI; together they are the interface through which the handlers
    read a message. Messages of the parser become those of the handlers. *)

From S2P Require Import Prelude Str Net Nom Rsip.
From S2P Require Messages Sbc.

Section typed.
Context {N : Nom} (parse_ip : string -> option IpAddr) (ip_text : IpAddr -> string).

(** ** Name and address (headers/typed/to.rs, from.rs, tokenizers/display_uri_params.rs) *)

Record NameAddr := mkNameAddr {
  display_name : option string;
  na_uri : Uri;
  na_params : list Param
}.

#[export] Instance NameAddr_eq_dec : EqDecision NameAddr.
Proof. solve_decision. Defined.

Definition opt_trim (s : string) : option string := if seqb (trim s) "" then None else Some (trim s).

Record NameAddrTok := mkNameAddrTok {
  tok_name : option string;
  tok_uri : UriTok;
  tok_params : list (string * option string)
}.

Definition angle_parts : P (string * string * string) :=
  d <~ take_until "<"; tag "<" ;~ u <~ take_until ">"; tag ">" ;~ p <~ rest; give (d, u, p).

Definition tokenize_name_addr (part : string) : option NameAddrTok :=
  if contains_char "<" part then
    parts ← angle_parts part;
    let '(d, u, p) := parts.2 in
    ps ← many0 tokenize_param p;
    (if seqb ps.1 "" then
       t ← tokenize_uri u; Some (mkNameAddrTok (opt_trim d) t.2 ps.2)
     else None)
  else
    up ← (u <~ tokenize_without_params; ps <~ many0 tokenize_param; give (u, ps)) part;
    Some (mkNameAddrTok None up.2.1 up.2.2).

Definition name_addr_of (t : NameAddrTok) : option NameAddr :=
  u ← uri_of parse_ip Some (tok_uri t);
  ps ← params_of Some (tok_params t);
  Some (mkNameAddr (tok_name t) u ps).

(** [typed()] of a To or a From. *)
Definition typed (value : string) : option NameAddr := tokenize_name_addr value ≫= name_addr_of.

Definition show_name_addr (a : NameAddr) : string :=
  match display_name a with Some d => d +:+ " " | None => "" end
  +:+ "<" +:+ show_uri ip_text (na_uri a) +:+ ">" +:+ show_params (na_params a).

Definition as_tag (p : Param) : option string := match p with PTag t => Some t | _ => None end.
Definition tag_of (a : NameAddr) : option string := head (omap as_tag (na_params a)).

(** [to.params.push(Param::Tag(tag))] *)
Definition add_tag (tag : string) (a : NameAddr) : NameAddr :=
  mkNameAddr (display_name a) (na_uri a) (na_params a ++ [PTag tag]).

(** [with_tag] *)
Definition with_tag (tag : string) (a : NameAddr) : NameAddr :=
  mkNameAddr (display_name a) (na_uri a)
    (List.filter (fun p => negb (bool_decide (is_Some (as_tag p)))) (na_params a) ++ [PTag tag]).

(** ** CSeq (headers/typed/cseq.rs, tokenizers/cseq.rs) *)

Definition tokenize_cseq : P (string * string) := s <~ take_until " "; space1 ;~ m <~ rest; give (s, m).

Definition typed_cseq (value : string) : option (Z * Method) :=
  t ← tokenize_cseq value; n ← parse_uint u32_max t.2.1; m ← method_of t.2.2; Some (n, m).

Definition show_cseq (c : Z * Method) : string := Str.show c.1 +:+ " " +:+ show_method c.2.

(** ** The interface *)

Definition uri_field {A} (d : A) (f : Uri -> A) (text : string) : A :=
  match parse_uri parse_ip text with Some u => f u | None => d end.

(** [auth.user = n] where there is a user. *)
Definition replace_user (n : string) (u : Uri) : Uri :=
  match auth u with
  | Some a => mkUri (scheme u) (Some (n, a.2)) (host_with_port u) (params u) (uri_headers u)
  | None => u
  end.

Definition sip_parser : Sbc.Parser :=
  Sbc.mkParser
    (fun v => show_name_addr <$> typed v)
    (fun v => typed v ≫= tag_of)
    (fun tag v => match typed v with Some a => show_name_addr (add_tag tag a) | None => v end)
    (fun v => typed v ≫= tag_of)
    (fun v => a ← typed v; fst <$> auth (na_uri a))
    (fun v => fst <$> typed_cseq v)
    (uri_field "" (fun u => show_host_with_port ip_text (host_with_port u)))
    (uri_field None (fun u => fst <$> auth u))
    (uri_field None (fun u => show_auth <$> auth u))
    (fun text n => uri_field text (fun u => show_uri ip_text (replace_user n u)) text).
End typed.

(** ** Printed headers are read back *)

Section back.
Context {N : Nom} (parse_ip : string -> option IpAddr) (ip_text : IpAddr -> string).

Lemma from_utf8_same s t : from_utf8 s = Some t -> t = s.
Proof. unfold from_utf8. destruct (is_utf8 s); [by intros [= ->]|done]. Qed.

Lemma pair_unchecked t x : pair_of from_utf8 t = Some x -> pair_of Some t = Some x.
Proof.
  destruct t as [a b]. unfold pair_of. cbn [fst snd]. destruct (from_utf8 a) as [a'|] eqn:Ea; simpl; [|done].
  apply from_utf8_same in Ea as ->. destruct b as [b|]; simpl; [|done].
  destruct (from_utf8 b) as [b'|] eqn:Eb; simpl; [|done]. by apply from_utf8_same in Eb as ->.
Qed.

Lemma params_unchecked ts ps : params_of from_utf8 ts = Some ps -> params_of Some ts = Some ps.
Proof.
  unfold params_of. revert ps. induction ts as [|t ts IH]; intros ps; [done|]. cbn [mapM].
  destruct (pair_of from_utf8 t) as [x|] eqn:E; simpl; [|done]. rewrite (pair_unchecked _ _ E). simpl.
  destruct (param_of x); simpl; [|done]. destruct (mapM _ ts) as [l|] eqn:El; simpl; [|done]. by rewrite (IH l eq_refl).
Qed.

Lemma uri_unchecked t u : uri_of parse_ip from_utf8 t = Some u -> uri_of parse_ip Some t = Some u.
Proof.
  destruct t as [s a h ps]. unfold uri_of, host_with_port_of. cbn [t_scheme t_auth t_host t_params].
  destruct s as [s|]; [destruct (from_utf8 s) as [s'|] eqn:Es; simpl; [apply from_utf8_same in Es as ->|done]|simpl].
  all: (destruct a as [a|]; [destruct (pair_of from_utf8 a) as [a'|] eqn:Ea; simpl; [rewrite (pair_unchecked _ _ Ea); simpl|done]|simpl]).
  all: (destruct (pair_of from_utf8 h) as [h'|] eqn:Eh; simpl; [rewrite (pair_unchecked _ _ Eh); simpl|done]).
  all: (destruct (h'.2) as [p|]; simpl; [destruct (parse_uint u16_max p); simpl; [|done]|]).
  all: (destruct (params_of from_utf8 ps) as [l|] eqn:Ep; simpl; [by rewrite (params_unchecked _ _ Ep)|done]).
Qed.

(** A name and address that is printed and read back: the display name is what
    trimming leaves, and nothing in it or the URI looks like a bracket. *)
Definition wf_name_addr (a : NameAddr) : bool :=
  match display_name a with
  | Some d => free_of "<" d && bool_decide (opt_trim (d +:+ " ") = Some d)
  | None => true
  end
  && wf_uri parse_ip ip_text (na_uri a) && free_of ">" (show_uri ip_text (na_uri a)) && forallb wf_param (na_params a).

Lemma uri_printed u : wf_uri parse_ip ip_text u = true ->
  tokenize_uri (show_uri ip_text u) = Some ("", uri_tokens ip_text u).
Proof.
  intros Hu. rewrite <- (sapp_nil_r (show_uri ip_text u)). eapply uri_read; [exact Hu|]. split; [by left|].
  exists "", "". split_and!; [done|done|by left].
Qed.

Lemma params_printed ps : forallb wf_param ps = true ->
  many0 tokenize_param (show_params ps) = Some ("", map param_parts ps).
Proof. intros Hp. rewrite <- (sapp_nil_r (show_params ps)). by apply params_tokens. Qed.

Lemma contains_here c a b : contains_char c (a +:+ String c b) = true.
Proof.
  unfold contains_char. rewrite sall_app. cbn [sall]. rewrite bool_decide_eq_true_2 by done. simpl.
  by rewrite andb_false_r.
Qed.

Lemma angles d u p : free_of "<" d = true -> free_of ">" u = true ->
  angle_parts (d +:+ "<" +:+ u +:+ ">" +:+ p) = Some ("", (d, u, p)).
Proof.
  intros Hd Hu. unfold angle_parts, andThen, give.
  rewrite take_until_app by (rewrite find_str_char; by apply find_char_app). rewrite tag_app.
  rewrite take_until_app by (rewrite find_str_char; by apply find_char_app). by rewrite tag_app, rest_eq.
Qed.

Lemma name_addr_read a : wf_name_addr a = true -> typed parse_ip (show_name_addr ip_text a) = Some a.
Proof.
  unfold wf_name_addr. rewrite !andb_true_iff. intros [[[Hd Hu] Hg] Hp]. unfold typed, tokenize_name_addr.
  set (d := match display_name a with Some d => d +:+ " " | None => "" end).
  assert (Hfree : free_of "<" d = true /\ opt_trim d = display_name a).
  { unfold d. destruct (display_name a) as [x|]; [|done]. apply andb_true_iff in Hd as [H1 H2].
    apply bool_decide_eq_true in H2. split; [|done]. by rewrite free_of_app, H1. }
  destruct Hfree as [Hfree Htrim].
  assert (E : show_name_addr ip_text a = d +:+ "<" +:+ show_uri ip_text (na_uri a) +:+ ">" +:+ show_params (na_params a)) by done.
  rewrite E. replace (contains_char "<" _) with true by (symmetry; apply contains_here).
  rewrite angles by done. cbn [mbind option_bind snd]. rewrite params_printed by done. cbn [mbind option_bind fst snd].
  rewrite (seqb_refl ""), uri_printed by done. cbn [mbind option_bind snd]. rewrite Htrim.
  unfold name_addr_of. cbn [tok_uri tok_params tok_name].
  rewrite (uri_unchecked _ (na_uri a)) by by apply uri_back. cbn [mbind option_bind].
  rewrite (params_unchecked _ (na_params a)) by by apply params_back. simpl. by destruct a.
Qed.

Lemma uri_text_read u : wf_uri parse_ip ip_text u = true -> parse_uri parse_ip (show_uri ip_text u) = Some u.
Proof. intros Hu. unfold parse_uri. rewrite uri_printed by done. cbn [mbind option_bind snd]. by apply uri_back. Qed.

Lemma cseq_read n m : 0 <= n <= u32_max -> typed_cseq (show_cseq (n, m)) = Some (n, m).
Proof.
  intros Hn. unfold typed_cseq, tokenize_cseq, show_cseq, andThen, give, space1. cbn [fst snd].
  rewrite take_until_app.
  - rewrite take_while1_app; [|done|by destruct m|done]. rewrite rest_eq. cbn [mbind option_bind fst snd].
    rewrite parse_show by done. by destruct m.
  - rewrite find_str_char. apply find_char_app. unfold free_of. eapply sall_impl; [|apply show_digits; lia].
    intros c Hc. apply negb_true_iff, bool_decide_eq_false. by intros ->.
Qed.

(** C17: through the parser, the handlers read of a header or a Request-URI that
    was printed what it was printed from: the user, the host with its port, the
    tag, the CSeq number; a tag added to an untagged To is its tag and leaves
    the rest as it was, and a URI whose user is replaced keeps the rest. *)
Theorem handlers_read_back (p := sip_parser parse_ip ip_text) a u n m tag :
  wf_name_addr a = true -> wf_uri parse_ip ip_text u = true -> 0 <= n <= u32_max -> wf_param (PTag tag) = true ->
  Sbc.typed_to p (show_name_addr ip_text a) = Some (show_name_addr ip_text a) /\
  Sbc.to_tag p (show_name_addr ip_text a) = tag_of a /\
  (tag_of a = None -> Sbc.to_tag p (Sbc.push_tag p tag (show_name_addr ip_text a)) = Some tag) /\
  typed parse_ip (Sbc.push_tag p tag (show_name_addr ip_text a)) = Some (add_tag tag a) /\
  Sbc.from_user p (show_name_addr ip_text a) = fst <$> auth (na_uri a) /\
  Sbc.cseq_seq p (show_cseq (n, m)) = Some n /\
  Sbc.uri_user p (show_uri ip_text u) = fst <$> auth u /\
  Sbc.uri_domain p (show_uri ip_text u) = show_host_with_port ip_text (host_with_port u) /\
  (forall user, Sbc.with_user p (show_uri ip_text u) user = show_uri ip_text (replace_user user u)).
Proof.
  intros Ha Hu Hn Ht. unfold p, sip_parser. cbn. rewrite (name_addr_read a Ha). cbn.
  assert (Hw : wf_name_addr (add_tag tag a) = true).
  { unfold wf_name_addr, add_tag in *. cbn [display_name na_uri na_params]. rewrite !andb_true_iff in *.
    destruct Ha as [[[H1 H2] H3] H4]. split_and!; [done|done|done|]. rewrite forallb_app. cbn [forallb]. by rewrite H4, Ht. }
  rewrite (name_addr_read _ Hw). unfold uri_field. rewrite uri_text_read by done. rewrite cseq_read by done. cbn.
  split_and!; try done. intros Hnone. unfold tag_of, add_tag in *. cbn [na_params].
  rewrite omap_app. cbn. destruct (omap as_tag (na_params a)); [done|discriminate].
Qed.
End back.

(** ** Messages of the handlers *)

Definition kind_of (n : Header.Name) : Messages.HeaderKind :=
  match n with
  | Header.Via => Messages.HVia | Header.From => Messages.HFrom | Header.To => Messages.HTo
  | Header.CallId => Messages.HCallId | Header.CSeq => Messages.HCSeq | Header.Contact => Messages.HContact
  | Header.Expires => Messages.HExpires | Header.ContentLength => Messages.HContentLength
  | Header.WwwAuthenticate => Messages.HWwwAuthenticate | Header.Accept => Messages.HAccept
  | Header.Allow => Messages.HAllow | Header.Supported => Messages.HSupported
  | n => Messages.HOther (Header.display_name n)
  end.

Definition header_in (h : Header) : Messages.Header := (kind_of h.1, h.2).

(** A header keeps its text. *)
Lemma kind_name n : Messages.header_name (kind_of n) = Header.display_name n.
Proof. by destruct n. Qed.

Definition request_in (ip_text : IpAddr -> string) (r : Request) : Messages.Request :=
  Messages.mkRequest (show_method (method r)) (show_uri ip_text (uri r)) (map header_in (headers r)) (body r).

Definition response_in (r : Response) : Messages.Response :=
  Messages.mkResponse (Status.code (status_code r)) (map header_in (rs_headers r)) (rs_body r).

Definition message_in (ip_text : IpAddr -> string) (m : SipMessage) : Messages.Request + Messages.Response :=
  match m with Req r => inl (request_in ip_text r) | Resp r => inr (response_in r) end.

(** ** Instances *)

Module Witness.
#[local] Existing Instance nom.

Definition no_text (_ : IpAddr) : string := "".

Definition bob : NameAddr :=
  mkNameAddr (Some "Bob Smith") (mkUri (Some Sip) (Some ("bob", None)) (mkHostPort (Domain "h") (Some 5070)) [PTransport Tcp] [])
    [POther "x" (Some "1")].

Lemma handlers_read_back_witness :
  show_name_addr no_text bob = "Bob Smith <sip:bob@h:5070;transport=TCP>;x=1" /\
  Sbc.push_tag (sip_parser no_ip no_text) "z9" (show_name_addr no_text bob)
  = "Bob Smith <sip:bob@h:5070;transport=TCP>;x=1;tag=z9" /\
  Sbc.to_tag (sip_parser no_ip no_text) "Bob Smith <sip:bob@h:5070;transport=TCP>;x=1;tag=z9" = Some "z9" /\
  Sbc.with_user (sip_parser no_ip no_text) "sip:bob@h:5070;transport=TCP" "alice" = "sip:alice@h:5070;transport=TCP".
Proof.
  split; [by vm_compute|]. split; [by vm_compute|].
  destruct (handlers_read_back no_ip no_text bob (na_uri bob) 7 Invite "z9") as (_ & _ & Htag & _ & _ & _ & _ & _ & Hw);
    [by vm_compute|by vm_compute|done|by vm_compute|].
  split; [exact (Htag eq_refl)|exact (Hw "alice")].
Defined.
End Witness.
