(* ===== verification/Teardown.v ===== *)
(** * Teardown (sbc/cdr.rs, the end of sbc/call_handler.rs)

    Every way the SBC ends a call: what goes on the wire to either side, the
    call's record, the release of its trunk and of the call, and the timers
    that decide it is time. *)

From S2P Require Import Prelude Str Bytes Net Sbc.
From S2P Require SipBuilder ClientTx InviteTx Topology Trunk B2bua Cdr Media PortAllocator Edge.
From S2P Require Import Cdr.

Definition TIMER_C : Z := secs 180.
Definition SHUTDOWN_DRAIN : Z := secs 2.

Definition media_flags_of (media : option Media.CallMediaStats) : list string :=
  match media with
  | None => ["no-relay"]
  | Some st =>
      if (Media.tx_caller st =? 0) && (Media.tx_callee st =? 0) then ["no-media"]
      else (if Media.rx_caller st =? 0 then ["one-way-caller"] else [])
           ++ (if Media.rx_callee st =? 0 then ["one-way-callee"] else [])
  end.

Section env.
Context (E : Env) {HT : HashIter Trunk.TrunkId Trunk.TrunkConfig} {HB : HashIter B2bua.CallUuid B2bua.B2buaCall}
  {HC : HashIter string ClientTx.ClientTx} {HI : HashIter string InviteTx.TxEntry}.

(** ** The record of a call *)

Definition record_of (uuid cdr_id : string) (o : CallOutcome) (c : B2bua.B2buaCall) (media : option Media.CallMediaStats)
    (ended : Z) : CdrRecord :=
  let answered := bool_decide (is_Some (B2bua.answered_at c)) in
  let out_id := default "" (B2bua.l_call_id <$> B2bua.outbound c) in
  let r := new_cdr ended cdr_id (B2bua.l_call_id (B2bua.inbound c))
             (default (B2bua.l_call_id (B2bua.inbound c)) (B2bua.caller_number c))
             (default out_id (B2bua.callee_number c)) in
  let r := with_window (B2bua.started_wall c) (B2bua.answered_at c) ended r in
  let r := with_disconnect_reason (disconnect_reason_of o) (with_webrtc (B2bua.caller_is_webrtc c) r) in
  r <| codec := B2bua.codec c |> <| trunk_id := B2bua.trunk_name c |> <| cdr_uuid := uuid |>
    <| cdr_direction := B2bua.direction c |> <| sip_code := sip_code_of answered o |>
    <| source_ip := ip_text E (ip (B2bua.caller_source c)) |>
    <| reason := match B2bua.peer_reason c with Some r => Some r | None => reason_header o end |>
    <| hangup_by := hangup_by_of o |>
    <| rtp_tx_caller := match media with Some st => Media.tx_caller st | None => 0 end |>
    <| rtp_tx_callee := match media with Some st => Media.tx_callee st | None => 0 end |>
    <| media_flags := join "," (media_flags_of media) |>.

Definition forget_media_stats (id : option string) (s : Sbc) : Sbc :=
  match id with Some id => s <| media := Media.forget_media_stats id (media s) |> | None => s end.

(** [cdr.insert]: the record is handed to the storage. *)
Definition insert_record (r : CdrRecord) (s : Sbc) : Sbc := s <| cdrs := cdrs s ++ [r] |>.

Definition terminate (uuid : string) (why : string) : M unit :=
  fun s => let '(es, m) := B2bua.terminate_call_with_reason uuid (now s) why (b2bua s) in
           emit E es (s <| b2bua := m |>).

Definition media_of (c : B2bua.B2buaCall) (s : Sbc) : option Media.CallMediaStats :=
  id ← B2bua.media_session_id c; Media.call_media_stats id (media s).

Definition finish_call (uuid : string) (o : CallOutcome) : M bool :=
  snapshot ← call_of uuid;
  match snapshot with
  | None => mret false
  | Some c =>
      ended ← gets wall;
      cdr_id ← draw E;
      media ← gets (media_of c);
      _ ← modify (forget_media_stats (B2bua.media_session_id c));
      _ ← modify (insert_record (record_of uuid cdr_id o c media ended));
      _ ← count_call_on_trunk uuid None;
      _ ← terminate uuid (disconnect_reason_of o);
      mret true
  end.

(** ** On the wire *)

Definition hangup_caller (o : CallOutcome) (sbc_ip : string) (sbc_port : Z) (c : B2bua.B2buaCall) :
    M (option (string * string)) :=
  match B2bua.dialog_info_toward_caller (show_addr E) c sbc_ip sbc_port with
  | Some d => b ← draw E; mret (Some ("BYE → caller", SipBuilder.build_bye b d (reason_header o)))
  | None =>
      mret (pair "final → caller" <$>
        B2bua.final_toward_caller (reason_phrase E) c (pending_caller_code o) (reason_header o))
  end.

Definition hangup_callee (o : CallOutcome) (sbc_ip : string) (sbc_port : Z) (c : B2bua.B2buaCall) :
    M (option (string * string)) :=
  match B2bua.dialog_info_toward_callee (show_addr E) c sbc_ip sbc_port with
  | Some _ =>
      b ← draw E;
      mret (pair "BYE → callee" <$> B2bua.bye_toward_callee (show_addr E) b c sbc_ip sbc_port (reason_header o))
  | None =>
      mret (pair "CANCEL → callee" <$>
        (a ← last (B2bua.invite_attempts c); SipBuilder.build_cancel (B2bua.a_raw a)))
  end.

Definition callee_target (c : B2bua.B2buaCall) : option (SocketAddr * Transport) :=
  match last (B2bua.invite_attempts c) with
  | Some a => Some (B2bua.a_dest a, B2bua.a_transport a)
  | None => (fun d => (d, B2bua.callee_transport c)) <$> B2bua.callee_dest c
  end.

Definition hangup_both_legs (uuid : string) (o : CallOutcome) : M unit :=
  call ← call_of uuid;
  match call with
  | None => skip
  | Some c =>
      addr ← sbc_addr;
      let '(sbc_ip, sbc_port) := addr : string * Z in
      toward_caller ← hangup_caller o sbc_ip sbc_port c;
      toward_callee ← hangup_callee o sbc_ip sbc_port c;
      _ ← match toward_caller : option (string * string) with
          | Some (what, msg) =>
              send_sip E what msg (B2bua.caller_source c) (B2bua.caller_transport c) (B2bua.caller_reply_tx c)
          | None => mret true
          end;
      match toward_callee : option (string * string), callee_target c with
      | Some (what, msg), Some (dest, tp) =>
          _ ← send_sip E what msg dest tp (B2bua.callee_reply_tx c); skip
      | _, _ => skip
      end
  end.

Definition tear_down (o : CallOutcome) (uuid : string) : M unit :=
  _ ← hangup_both_legs uuid o; _ ← finish_call uuid o; skip.

(** ** Retransmissions *)

Definition retransmit_finals : M unit :=
  fun s =>
    let '(due, m) := InviteTx.due_retransmissions (now s) (invite_tx s) in
    for_each (fun d : string * SocketAddr * Transport * option nat =>
      let '(data, dest, t, tx) := d in _ ← transmit E "" data dest t tx; skip) due (s <| invite_tx := m |>).

Definition retransmit_requests : M unit :=
  fun s =>
    let '((due, _), m) := ClientTx.due (now s) (client_tx s) in
    for_each (fun r : ClientTx.DueRequest =>
      _ ← transmit E (ClientTx.due_what r) (ClientTx.due_raw r) (ClientTx.due_dest r) (ClientTx.due_transport r)
            (ClientTx.due_reply_tx r); skip) due (s <| client_tx := m |>).

(** ** When a call ends *)

Definition outcome_of_kick (r : KickReason) : CallOutcome :=
  match r with KickAdmin => AdminKick | KickMediaUnavailable => MediaUnavailable end.

Definition process_admin_kicks : M unit :=
  queue ← gets admin_kicks;
  _ ← modify (fun s => s <| admin_kicks := (drain (admin_kicks s)).2 |>);
  for_each (fun k : string * KickReason => tear_down (outcome_of_kick k.2) k.1) (drain queue).1.

Definition on_session (sid : string) (c : B2bua.B2buaCall) : bool :=
  match B2bua.media_session_id c with Some id => seqb id sid | None => false end.

Definition check_media_timeouts : M unit :=
  sessions ← gets media_timed_out;
  _ ← modify (fun s => s <| media_timed_out := [] |>);
  uuids ← gets (fun s =>
    omap (fun sid => B2bua.uuid <$> List.find (on_session sid) (B2bua.values (b2bua s))) sessions);
  for_each (tear_down RtpTimeout) uuids.

Definition in_setup (c : B2bua.B2buaCall) : bool :=
  match B2bua.answered_at c, B2bua.state c with
  | None, (B2bua.Initiated | B2bua.Proceeding | B2bua.Ringing) => true
  | _, _ => false
  end.

Definition setup_expired (now limit : Z) (c : B2bua.B2buaCall) : bool :=
  match B2bua.alerting_at c with
  | None => limit <? duration_since now (B2bua.started_at c)
  | Some alerting => TIMER_C <? duration_since now alerting
  end.

Definition stale_calls (s : Sbc) : list string :=
  B2bua.uuid <$> List.filter (fun c => in_setup c && setup_expired (now s) (call_setup_timeout s) c)
                   (B2bua.values (b2bua s)).

Definition give_up_setup (uuid : string) : M unit :=
  trunk ← silent_outbound_trunk_of uuid;
  _ ← match trunk : option string with Some name => note_trunk_failure name None | None => skip end;
  tear_down SetupTimeout uuid.

Definition check_setup_timeouts : M unit := stale ← gets stale_calls; for_each give_up_setup stale.

Definition too_long (s : Sbc) : list string :=
  B2bua.uuid <$> List.filter (fun c => max_call_duration s <? duration_since (now s) (B2bua.started_at c))
                   (B2bua.values (b2bua s)).

Definition check_call_timeouts : M unit := timed_out ← gets too_long; for_each (tear_down MaxDuration) timed_out.

(** The ticks of the shutdown's timer, [TIMER_T1] apart, after the first,
    which is immediate. *)
Fixpoint drain_requests (deadline : Z) (ticks : list Z) : M unit :=
  match ticks with
  | [] => skip
  | t :: ticks => fun s =>
      if (now s <? deadline) && negb (bool_decide (client_tx s = ∅))
      then (_ ← retransmit_requests; drain_requests deadline ticks) (s <| now := Z.max (now s) t |>)
      else (tt, s)
  end.

Definition graceful_shutdown (ticks : list Z) : M unit :=
  active ← gets (fun s => (hiter (B2bua.calls (b2bua s))).*1);
  if bool_decide (active = []) then skip
  else
    _ ← for_each (tear_down Shutdown) active;
    deadline ← gets (fun s => now s + SHUTDOWN_DRAIN);
    drain_requests deadline ticks.

(** ** One record per call *)

Definition live (s : Sbc) : gset string := dom (B2bua.calls (b2bua s)).

(** The records written are those of the calls that left, one each. *)
Definition accounts (s s' : Sbc) : Prop :=
  exists l, cdrs s' = cdrs s ++ l /\ elements (live s) ≡ₚ map cdr_uuid l ++ elements (live s').

#[export] Instance accounts_preorder : PreOrder accounts.
Proof.
  split.
  - intros s. exists []. by rewrite app_nil_r.
  - intros s1 s2 s3 (l1 & H1 & P1) (l2 & H2 & P2). exists (l1 ++ l2).
    by rewrite H2, H1, P1, P2, map_app, !app_assoc.
Qed.

Lemma accounts_live s s' u : accounts s s' -> u ∉ live s -> u ∉ live s'.
Proof.
  intros (w & _ & Hp) Hu Hl. apply Hu. apply elem_of_elements. rewrite Hp. apply elem_of_app. right. by apply elem_of_elements.
Qed.

Lemma sends_accounts {A} (m : M A) : keeps sends_only m -> keeps accounts m.
Proof.
  intros Hm s. destruct (sends_core _ _ (Hm s)) as (_ & Hb & _ & Hc & _). exists []. unfold live.
  by rewrite Hb, Hc, app_nil_r.
Qed.

Lemma count_call_spec uuid trunk s :
  let s' := (count_call_on_trunk uuid trunk s).2 in live s' = live s /\ cdrs s' = cdrs s.
Proof.
  unfold count_call_on_trunk, live. destruct (B2bua.calls (b2bua s) !! uuid) as [c|]; [|done]. case_bool_decide; [done|].
  split; [apply dom_alter_L|done].
Qed.

Definition end_media (c : B2bua.B2buaCall) (now : Z) (m : Media.MediaManager) : Media.MediaManager :=
  match B2bua.media_session_id c with Some id => (Media.terminate_session now id m).2 | None => m end.

Lemma terminate_spec uuid why s c :
  B2bua.calls (b2bua s) !! uuid = Some c ->
  let s' := (terminate uuid why s).2 in
  B2bua.calls (b2bua s') = delete uuid (B2bua.calls (b2bua s)) /\ media s' = end_media c (now s) (media s) /\
  effects s' = effects s ++ B2bua.release_media c
    ++ [B2bua.CallEnded uuid (as_secs (duration_since (now s) (B2bua.started_at c))) why] /\
  cdrs s' = cdrs s /\ trunk_manager s' = trunk_manager s /\ wire s' = wire s /\ client_tx s' = client_tx s /\ now s' = now s.
Proof.
  intros Hc. unfold terminate, B2bua.terminate_call_with_reason. rewrite Hc. unfold end_media, B2bua.release_media.
  destruct (B2bua.media_session_id c); split_and!; try done. by rewrite app_assoc.
Qed.

(** Everything [finish_call] does to a live call. *)
Lemma finish_call_spec uuid o s c :
  B2bua.calls (b2bua s) !! uuid = Some c ->
  let '(b, s') := finish_call uuid o s in
  b = true /\
  cdrs s' = cdrs s ++ [record_of uuid (rand E (drawn s)) o c (media_of c s) (wall s)] /\
  B2bua.calls (b2bua s') = delete uuid (B2bua.calls (b2bua s)) /\
  trunk_manager s' = (Trunk.count_call_on_trunk uuid None (counted (b2bua s), trunk_manager s)).2 /\
  effects s' = effects s ++ B2bua.release_media c
    ++ [B2bua.CallEnded uuid (as_secs (duration_since (now s) (B2bua.started_at c))) (disconnect_reason_of o)] /\
  wire s' = wire s /\ client_tx s' = client_tx s /\ now s' = now s /\
  media s' = end_media c (now s)
    (match B2bua.media_session_id c with Some id => Media.forget_media_stats id (media s) | None => media s end).
Proof.
  intros Hc. unfold finish_call, call_of, gets, draw, modify, mbind, M_bind. rewrite Hc. cbn -[record_of terminate count_call_on_trunk].
  set (s1 := insert_record _ _).
  assert (Hs1 : B2bua.calls (b2bua s1) = B2bua.calls (b2bua s) /\ counted (b2bua s1) = counted (b2bua s) /\
    trunk_manager s1 = trunk_manager s /\ effects s1 = effects s /\ wire s1 = wire s /\ client_tx s1 = client_tx s /\ now s1 = now s /\
    media s1 = match B2bua.media_session_id c with Some id => Media.forget_media_stats id (media s) | None => media s end /\
    cdrs s1 = cdrs s ++ [record_of uuid (rand E (drawn s)) o c (media_of c s) (wall s)]).
  { unfold s1, forget_media_stats. by destruct (B2bua.media_session_id c). }
  generalize dependent s1. intros s1 (Hm & Hk & Ht & He & Hw & Hx & Hn & Hd & Hr).
  assert (Hcount := count_refines uuid None s1). rewrite Hk, Ht in Hcount.
  assert (Hs2 : exists c', let s2 := (count_call_on_trunk uuid None s1).2 in
    B2bua.calls (b2bua s2) !! uuid = Some c' /\ delete uuid (B2bua.calls (b2bua s2)) = delete uuid (B2bua.calls (b2bua s)) /\
    B2bua.media_session_id c' = B2bua.media_session_id c /\ B2bua.started_at c' = B2bua.started_at c /\
    effects s2 = effects s1 /\ wire s2 = wire s1 /\ client_tx s2 = client_tx s1 /\ now s2 = now s1 /\ media s2 = media s1 /\ cdrs s2 = cdrs s1).
  { unfold count_call_on_trunk. rewrite Hm, Hc. case_bool_decide; [exists c; cbn; by rewrite Hm|]. eexists. cbn.
    rewrite Hm, lookup_alter_eq, delete_alter_eq, Hc. done. }
  destruct Hs2 as (c' & H2). destruct (count_call_on_trunk uuid None s1) as [[] s2]. cbn in H2, Hcount.
  destruct H2 as (Hc2 & Hd2 & Hi2 & Ha2 & He2 & Hw2 & Hx2 & Hn2 & Hm2 & Hr2).
  assert (Hs3 := terminate_spec uuid (disconnect_reason_of o) s2 c' Hc2). destruct (terminate _ _ s2) as [[] s3].
  destruct Hs3 as (H1 & H2 & H3 & H4 & H5 & H6 & H7 & H8). cbn [snd] in *.
  assert (Ht2 := f_equal snd Hcount). cbn in Ht2. unfold end_media, B2bua.release_media in *. rewrite Hi2, Ha2 in *.
  unfold mret, M_ret. rewrite H1, H2, H3, H4, H5, H6, H7, H8, ?Hd2, ?He2, ?Hw2, ?Hx2, ?Hn2, ?Hm2, ?Hr2, ?He, ?Hw, ?Hx, ?Hn, ?Hd, ?Hr. split_and!; congruence.
Qed.

Lemma finish_call_gone uuid o s : B2bua.calls (b2bua s) !! uuid = None -> finish_call uuid o s = (false, s).
Proof. intros Hc. unfold finish_call, call_of, gets, mbind, M_bind. by rewrite Hc. Qed.

Lemma finish_accounts uuid o : keeps accounts (finish_call uuid o).
Proof.
  intros s. destruct (B2bua.calls (b2bua s) !! uuid) as [c|] eqn:Hc; [|by rewrite finish_call_gone].
  assert (H := finish_call_spec uuid o s c Hc). destruct (finish_call uuid o s) as [b s']. destruct H as (_ & Hr & Hm & _).
  eexists. split; [exact Hr|]. unfold live. cbn [snd]. rewrite Hm, dom_delete_L. cbn [map app].
  change (cdr_uuid (record_of _ _ _ _ _ _)) with uuid.
  assert (Hu : uuid ∈ dom (B2bua.calls (b2bua s))) by by apply elem_of_dom_2 in Hc.
  rewrite <- elements_union_singleton by set_solver. by rewrite <- union_difference_singleton_L.
Qed.

(** *** Sending leaves the calls alone *)

Lemma hangup_caller_sends o i p c : keeps sends_only (hangup_caller o i p c).
Proof. unfold hangup_caller. keeping. Qed.

Lemma hangup_callee_sends o i p c : keeps sends_only (hangup_callee o i p c).
Proof. unfold hangup_callee. keeping. Qed.

#[local] Hint Resolve hangup_caller_sends hangup_callee_sends : keep.

Lemma hangup_sends uuid o : keeps sends_only (hangup_both_legs uuid o).
Proof. unfold hangup_both_legs. keeping. Qed.


(** The calls, as far as counting, recording and releasing them goes. *)
Definition ident_of (c : B2bua.B2buaCall) : string * option string * option string :=
  (B2bua.uuid c, B2bua.trunk_counted c, B2bua.media_session_id c).

Definition same_calls (m m' : B2bua.B2buaManager) : Prop := ident_of <$> B2bua.calls m' = ident_of <$> B2bua.calls m.

Lemma same_calls_dom m m' : same_calls m m' -> dom (B2bua.calls m') = dom (B2bua.calls m).
Proof. intros H. rewrite <- (dom_fmap_L ident_of (B2bua.calls m')), H. apply dom_fmap_L. Qed.

Lemma same_with_call u f m : (forall c, ident_of (f c) = ident_of c) -> same_calls m (B2bua.with_call u f m).
Proof.
  intros Hf. unfold same_calls, B2bua.with_call. cbn. apply map_eq. intros k. rewrite !lookup_fmap.
  destruct (decide (u = k)) as [<-|]; [rewrite lookup_alter_eq|by rewrite lookup_alter_ne].
  destruct (B2bua.calls m !! u); [|done]. cbn. by rewrite Hf.
Qed.

Lemma same_on_call {A} u (f : B2bua.B2buaCall -> option A * B2bua.B2buaCall) m :
  (forall c, ident_of (f c).2 = ident_of c) -> same_calls m (B2bua.on_call u f m).2.
Proof.
  intros Hf. unfold B2bua.on_call. destruct (B2bua.calls m !! u) as [c|] eqn:Hc; [|done]. specialize (Hf c).
  destruct (f c) as [r c']. unfold same_calls. cbn. apply map_eq. intros k. rewrite !lookup_fmap.
  destruct (decide (u = k)) as [<-|]; [rewrite lookup_insert_eq, Hc; cbn; by f_equal|by rewrite lookup_insert_ne].
Qed.

(** The media sessions, as far as their ports go. *)
Definition same_sessions (m m' : Media.MediaManager) : Prop :=
  Media.port_allocator m' = Media.port_allocator m /\
  Media.pairs_of <$> Media.sessions m' = Media.pairs_of <$> Media.sessions m.

(** *** What the timers keep

    A relation that sending, the end of one call, a trunk's failure and the
    queues keep is kept by everything that tears calls down. *)
Class Kept (R : relation Sbc) : Prop := {
  kept_preorder :: PreOrder R;
  kept_sends : forall A (m : M A), keeps sends_only m -> keeps R m;
  kept_finish : forall u o, keeps R (finish_call u o);
  kept_count : forall u t, keeps R (count_call_on_trunk u t);
  kept_failure : forall n ra, keeps R (note_trunk_failure n ra);
  kept_success : forall n, keeps R (note_trunk_success n);
  kept_queue : forall s q, R s (s <| admin_kicks := q |>);
  kept_silent : forall s q, R s (s <| media_timed_out := q |>);
  kept_finals : forall s m, R s (s <| invite_tx := m |>);
  kept_requests : forall s m, R s (s <| client_tx := m |>);
  kept_clock : forall s n w, now s <= n -> R s (s <| now := n |> <| wall := w |>);
  kept_calls : forall s m, same_calls (b2bua s) m -> R s (s <| b2bua := m |>);
  kept_media : forall s m, same_sessions (media s) m -> R s (s <| media := m |>);
  kept_sweep : forall s, R s (s <| media := Media.sweep (now s) (media s) |>);
  kept_release : forall s id, R s (s <| media := (Media.terminate_session (now s) id (media s)).2 |>);
  kept_edge : forall s e, R s (s <| edge := e |>);
  kept_effects : forall s es, R s (s <| effects := es |>);
  kept_routed : forall s p r, R s (s <| pending_register_responses := p |> <| trunk_replies := r |>)
}.

Section timers.
Context (R : relation Sbc) `{HR : !Kept R}.

#[local] Hint Resolve kept_sends kept_finish kept_failure hangup_sends : keep.

Lemma keeps_tear_down o u : keeps R (tear_down o u).
Proof. unfold tear_down. keeping. Qed.
#[local] Hint Resolve keeps_tear_down : keep.

Lemma keeps_admin : keeps R process_admin_kicks.
Proof. unfold process_admin_kicks. keeping. intros s. apply kept_queue. Qed.

Lemma keeps_media : keeps R check_media_timeouts.
Proof. unfold check_media_timeouts. keeping. intros s. apply kept_silent. Qed.

Lemma keeps_setup : keeps R check_setup_timeouts.
Proof. unfold check_setup_timeouts, give_up_setup, silent_outbound_trunk_of. keeping. Qed.

Lemma keeps_duration : keeps R check_call_timeouts.
Proof. unfold check_call_timeouts. keeping. Qed.

Lemma keeps_finals : keeps R retransmit_finals.
Proof.
  intros s. unfold retransmit_finals. destruct (InviteTx.due_retransmissions _ _) as [due m].
  transitivity (s <| invite_tx := m |>); [apply kept_finals|]. apply (keeps_for_each R). intros [[[data d] t] tx] _. keeping.
Qed.

Lemma keeps_requests : keeps R retransmit_requests.
Proof.
  intros s. unfold retransmit_requests. destruct (ClientTx.due _ _) as [[due ex] m].
  transitivity (s <| client_tx := m |>); [apply kept_requests|]. apply (keeps_for_each R). keeping.
Qed.

Lemma keeps_drain deadline ticks : keeps R (drain_requests deadline ticks).
Proof.
  induction ticks as [|t ticks IH]; [apply keeps_ret, _|]. intros s. cbn [drain_requests].
  destruct (_ && _); [|done]. transitivity (s <| now := Z.max (now s) t |>); [apply (kept_clock s (Z.max (now s) t) (wall s)); lia|]. apply (keeps_bind R); [apply keeps_requests|done].
Qed.
#[local] Hint Resolve keeps_drain : keep.

Lemma keeps_shutdown ticks : keeps R (graceful_shutdown ticks).
Proof. unfold graceful_shutdown. keeping. Qed.

End timers.

#[export] Instance accounts_kept : Kept accounts.
Proof.
  assert (H : forall s s', b2bua s' = b2bua s -> cdrs s' = cdrs s -> accounts s s').
  { intros s s' Hb Hc. exists []. unfold live. by rewrite Hb, Hc, app_nil_r. }
  split; try (intros; by apply H); [apply _|exact @sends_accounts|exact finish_accounts| | | |].
  - intros u t s. destruct (count_call_spec u t s) as (Hl & Hc). exists []. by rewrite Hl, Hc, app_nil_r.
  - intros n ra s. apply H; unfold note_trunk_failure; by destruct (Trunk.note_trunk_failure _ _ _ _) as [[[]|] ?].
  - intros n s. apply H; unfold note_trunk_success; by destruct (Trunk.note_trunk_success _ _ _) as [[[]|] ?].
  - intros s m Hm. exists []. rewrite app_nil_r. split; [done|]. cbn. unfold live. cbn. by rewrite (same_calls_dom _ _ Hm).
Qed.

(** ** Ending every call *)

(** What the records written since satisfy. *)
Definition records (P : CdrRecord -> Prop) (s s' : Sbc) : Prop := exists w, cdrs s' = cdrs s ++ w /\ Forall P w.

#[export] Instance records_preorder P : PreOrder (records P).
Proof.
  split.
  - intros s. exists []. by rewrite app_nil_r.
  - intros s1 s2 s3 (w1 & H1 & F1) (w2 & H2 & F2). exists (w1 ++ w2). rewrite H2, H1, app_assoc. split; [done|].
    by apply Forall_app.
Qed.

Lemma tear_down_spec o uuid s :
  let s' := (tear_down o uuid s).2 in
  live s' = live s ∖ {[uuid]} /\ records (fun r => cdr_uuid r = uuid /\ disconnect_reason r = disconnect_reason_of o) s s' /\
  (forall k, k <> uuid -> B2bua.calls (b2bua s') !! k = B2bua.calls (b2bua s) !! k).
Proof.
  unfold tear_down, mbind, M_bind. assert (Hh := hangup_sends uuid o s). destruct (hangup_both_legs uuid o s) as [[] s1].
  cbn [snd] in Hh. apply sends_core in Hh as (_ & Hb & _ & Hc & _). unfold live.
  destruct (B2bua.calls (b2bua s) !! uuid) as [c|] eqn:Hu.
  - assert (Hf := finish_call_spec uuid o s1 c). rewrite Hb, Hc in Hf. specialize (Hf Hu).
    destruct (finish_call uuid o s1) as [b s2]. destruct Hf as (_ & Hr & Hm & _). cbn. rewrite Hm, dom_delete_L.
    split_and!; [done| |by intros; rewrite lookup_delete_ne]. eexists. split; [exact Hr|]. by repeat constructor.
  - rewrite finish_call_gone by by rewrite Hb. cbn. rewrite Hb. split_and!; [|exists []; by rewrite app_nil_r|done].
    apply not_elem_of_dom in Hu. set_solver.
Qed.

Lemma tear_down_all o us s :
  let s' := (for_each (tear_down o) us s).2 in
  live s' = live s ∖ list_to_set us /\ records (fun r => disconnect_reason r = disconnect_reason_of o) s s'.
Proof.
  revert s. induction us as [|u us IH]; intros s.
  - cbn. split; [set_solver|reflexivity].
  - cbn [for_each]. unfold mbind, M_bind. assert (Hu := tear_down_spec o u s). destruct (tear_down o u s) as [[] s1].
    cbn [snd] in Hu. destruct Hu as (Hl & (w & Hw & HF) & _). destruct (IH s1) as [Hl' Hr'].
    split; [rewrite Hl', Hl; set_solver|]. etrans; [|exact Hr']. exists w. split; [done|]. eapply Forall_impl; [exact HF|].
    by intros r [].
Qed.

(** Waiting for answers changes neither calls nor records. *)
Definition settled (s s' : Sbc) : Prop := b2bua s' = b2bua s /\ cdrs s' = cdrs s.

Lemma drain_settled deadline ticks : keeps settled (drain_requests deadline ticks).
Proof.
  assert (HP : PreOrder settled).
  { split; [done|]. intros s1 s2 s3 [H1 C1] [H2 C2]. split; congruence. }
  assert (Hreq : keeps settled retransmit_requests).
  { intros s. unfold retransmit_requests. destruct (ClientTx.due _ _) as [[due ex] m].
    transitivity (s <| client_tx := m |>); [done|]. apply (keeps_for_each settled). intros r _.
    apply keeps_bind; [done| |intros; by apply keeps_ret]. by intros s1. }
  induction ticks as [|t ticks IH]; [by apply keeps_ret|]. intros s. cbn [drain_requests].
  destruct (_ && _); [|done]. transitivity (s <| now := Z.max (now s) t |>); [done|]. by apply (keeps_bind settled).
Qed.

(** At shutdown every call is ended: none is left, and each one that was
    there has its record, with the reason of a shutdown. *)
Theorem shutdown_ends_every_call ticks s :
  let s' := (graceful_shutdown ticks s).2 in
  B2bua.calls (b2bua s') = ∅ /\
  exists w, cdrs s' = cdrs s ++ w /\ map cdr_uuid w ≡ₚ elements (live s) /\
    Forall (fun r => disconnect_reason r = "shutdown") w.
Proof.
  assert (Ha : accounts s (graceful_shutdown ticks s).2) by (apply keeps_shutdown; apply _).
  assert (H : live (graceful_shutdown ticks s).2 = ∅ /\
    records (fun r => disconnect_reason r = "shutdown") s (graceful_shutdown ticks s).2).
  { unfold graceful_shutdown, gets, mbind, M_bind. case_bool_decide as Hn.
    - apply fmap_nil_inv, hiter_nil in Hn. unfold live. cbn. rewrite Hn. split; [done|reflexivity].
    - assert (Ht := tear_down_all Shutdown (hiter (B2bua.calls (b2bua s))).*1 s).
      destruct (for_each _ _ s) as [[] s1]. cbn [snd] in *. destruct Ht as [Hl Hr].
      destruct (drain_settled (now s1 + SHUTDOWN_DRAIN) ticks s1) as [Hb Hc]. unfold live in *. rewrite Hb, Hl. split.
      + apply elem_of_equiv_empty_L. intros u. rewrite elem_of_difference, elem_of_list_to_set, elem_of_dom.
        intros [[c Hu] Hnot]. apply Hnot. apply list_elem_of_fmap. exists (u, c). split; [done|]. by apply elem_of_hiter.
      + destruct Hr as (w & Hw & HF). exists w. by rewrite Hc. }
  destruct H as [Hl (w & Hw & HF)]. destruct Ha as (w' & Hw' & Hp). rewrite Hw in Hw'. apply app_inv_head in Hw' as <-.
  split; [by apply dom_empty_inv_L|]. exists w. split_and!; [done| |done]. by rewrite Hp, Hl, elements_empty, app_nil_r.
Qed.

(** ** The record of one call *)

(** A call that ends leaves one record, which says what billing needs: an
    answered call carries 200 and is billed from its answer, one never
    answered bills nothing; the call is gone, its end is published once with
    the record's reason, and ending it again, by any cause, does nothing. *)
Theorem ended_call_is_recorded uuid o o' s c :
  B2bua.calls (b2bua s) !! uuid = Some c ->
  let '(b, s') := finish_call uuid o s in
  b = true /\ B2bua.calls (b2bua s') = delete uuid (B2bua.calls (b2bua s)) /\
  (exists r, cdrs s' = cdrs s ++ [r] /\ cdr_uuid r = uuid /\
     call_id r = B2bua.l_call_id (B2bua.inbound c) /\ trunk_id r = B2bua.trunk_name c /\
     disconnect_reason r = disconnect_reason_of o /\ hangup_by r = hangup_by_of o /\
     effects s' = effects s ++ B2bua.release_media c
       ++ [B2bua.CallEnded uuid (as_secs (duration_since (now s) (B2bua.started_at c))) (disconnect_reason r)] /\
     match B2bua.answered_at c with
     | None => billable_secs r = 0 /\ answered_at r = None /\ sip_code r = sip_code_of false o
     | Some t => answered_at r = Some (unix_secs t) /\ sip_code r = Some 200 /\
         billable_secs r = Z.max 0 (Z.max (unix_secs (wall s)) (unix_secs (B2bua.started_wall c)) - unix_secs t)
     end) /\
  finish_call uuid o' s' = (false, s').
Proof.
  intros Hc. assert (H := finish_call_spec uuid o s c Hc). destruct (finish_call uuid o s) as [b s'].
  destruct H as (-> & Hr & Hm & _ & He & _). split_and!; [done|done| |].
  - eexists. split; [exact Hr|]. split_and!; try done. unfold record_of. cbn -[unix_secs disconnect_reason_of].
    by destruct (B2bua.answered_at c).
  - apply finish_call_gone. by rewrite Hm, lookup_delete_eq.
Qed.

(** ** Giving up on a callee *)

(** What follows on the wire and in the table of requests. *)
Lemma send_sip_spec what data d t tx s :
  let ok := net E (length (wire s)) in
  let '(b, s') := send_sip E what data d t tx s in
  b = ok /\ wire s' = wire s ++ [mkSent what data d t tx ok] /\
  client_tx s' = (if ok && negb (starts_with "SIP/2.0 " data)
                 then (ClientTx.record_sent (now s) what data d t tx (client_tx s)).2 else client_tx s) /\
  now s' = now s.
Proof.
  intros ok. unfold send_sip, transmit, modify, mbind, M_bind.
  assert (Hr : let s1 := remember_response data d t tx s in
    now s1 = now s /\ wire s1 = wire s /\ client_tx s1 = client_tx s).
  { unfold remember_response. destruct (_ && _); [|done]. by destruct (InviteTx.key_of_response data) as [[]|]. }
  cbv zeta in Hr. revert Hr. generalize (remember_response data d t tx s). intros s1 (Hn & Hw & Hx). cbn. rewrite Hw. subst ok.
  destruct (net E (length (wire s))); cbn.
  - destruct (starts_with "SIP/2.0 " data); cbn; rewrite ?Hx, ?Hn, ?Hw; done.
  - by rewrite Hx, Hn.
Qed.

Lemma final_is_response c code reason f :
  B2bua.final_toward_caller (reason_phrase E) c code reason = Some f -> starts_with "SIP/2.0 " f = true.
Proof.
  unfold B2bua.final_toward_caller. destruct (B2bua.caller_original_vias c); [done|].
  destruct (B2bua.l_from_raw _); [|done]. destruct (B2bua.caller_to_raw c); [|done]. destruct (B2bua.caller_invite_cseq c); [|done].
  intros [= <-]. done.
Qed.

(** The final the caller is told, when its INVITE allows one. *)
Definition told (code : Z) (reason : option string) (c : B2bua.B2buaCall) (ok : bool) : list Sent :=
  match B2bua.final_toward_caller (reason_phrase E) c code reason with
  | Some f => [mkSent "final → caller" f (B2bua.caller_source c) (B2bua.caller_transport c) (B2bua.caller_reply_tx c) ok]
  | None => []
  end.

(** What goes out to both sides of a call that was never answered, and what
    becomes of the table of requests: the final, then the CANCEL, each taken by
    the network or not. *)
Lemma hangup_pending uuid o s c a m i p :
  B2bua.calls (b2bua s) !! uuid = Some c -> last (B2bua.invite_attempts c) = Some a ->
  (sbc_addr s).1 = (i, p) ->
  B2bua.dialog_info_toward_caller (show_addr E) c i p = None ->
  B2bua.dialog_info_toward_callee (show_addr E) c i p = None ->
  SipBuilder.build_cancel (B2bua.a_raw a) = Some m -> starts_with "SIP/2.0 " m = false ->
  let final := told (pending_caller_code o) (reason_header o) c (net E (length (wire s))) in
  let taken := net E (length (wire s ++ final)) in
  let s' := (hangup_both_legs uuid o s).2 in
  wire s' = wire s ++ final
    ++ [mkSent "CANCEL → callee" m (B2bua.a_dest a) (B2bua.a_transport a) (B2bua.callee_reply_tx c) taken] /\
  client_tx s' = if taken then (ClientTx.record_sent (now s) "CANCEL → callee" m (B2bua.a_dest a) (B2bua.a_transport a)
                                  (B2bua.callee_reply_tx c) (client_tx s)).2 else client_tx s.
Proof.
  intros Hc Ha Hi Hd1 Hd2 Hm Hsw final taken s'. subst s'. unfold hangup_both_legs, call_of, gets, mbind, M_bind. rewrite Hc.
  destruct (sbc_addr s) as [[i' p'] s0] eqn:Hs. cbn [fst] in Hi. injection Hi as -> ->.
  assert (s0 = s) as -> by by unfold sbc_addr, gets in Hs; injection Hs.
  unfold hangup_caller, hangup_callee. rewrite Hd1, Hd2. cbn. rewrite Ha. cbn. rewrite Hm. cbn.
  unfold callee_target. rewrite Ha. subst taken final. unfold told.
  destruct (B2bua.final_toward_caller _ _ _ _) as [f|] eqn:Hf; cbn [fmap option_fmap option_map].
  - assert (Hf' : starts_with "SIP/2.0 " f = true) by by eapply final_is_response.
    assert (H1 := send_sip_spec "final → caller" f (B2bua.caller_source c) (B2bua.caller_transport c) (B2bua.caller_reply_tx c) s).
    destruct (send_sip _ _ f _ _ _ s) as [b1 s1]. destruct H1 as (_ & Hw1 & Hx1 & Hn1).
    assert (H2 := send_sip_spec "CANCEL → callee" m (B2bua.a_dest a) (B2bua.a_transport a) (B2bua.callee_reply_tx c) s1).
    destruct (send_sip _ _ m _ _ _ s1) as [b2 s2]. destruct H2 as (_ & Hw2 & Hx2 & _). cbn.
    rewrite Hw2, Hx2, Hw1, Hx1, Hf', Hsw, Hn1, andb_false_r, andb_true_r, <- app_assoc. done.
  - cbn. assert (H2 := send_sip_spec "CANCEL → callee" m (B2bua.a_dest a) (B2bua.a_transport a) (B2bua.callee_reply_tx c) s).
    destruct (send_sip _ _ m _ _ _ s) as [b2 s2]. destruct H2 as (_ & Hw2 & Hx2 & _). cbn.
    rewrite Hw2, Hx2, Hsw, andb_true_r, !app_nil_r. done.
Qed.

Lemma give_up_start uuid s :
  let s0 := (trunk ← silent_outbound_trunk_of uuid;
             match trunk : option string with Some n => note_trunk_failure n None | None => skip end) s in
  let s0 := s0.2 in
  (give_up_setup uuid s).2 = (tear_down SetupTimeout uuid s0).2 /\
  b2bua s0 = b2bua s /\ wire s0 = wire s /\ identity s0 = identity s /\ client_tx s0 = client_tx s /\ cdrs s0 = cdrs s.
Proof.
  unfold give_up_setup, silent_outbound_trunk_of, gets, mbind, M_bind. cbn.
  match goal with |- context [match ?x with Some _ => note_trunk_failure _ _ | None => skip end] => destruct x as [n|] end; [|done].
  unfold note_trunk_failure. by destruct (Trunk.note_trunk_failure _ _ _ _) as [[[]|] m].
Qed.

(** C2: a callee that never answered is given up cleanly, whatever transport
    its INVITE took and whatever the network does: the caller is sent a final
    408, when its INVITE allows one to be built, then the callee the CANCEL that
    belongs to the last INVITE sent to it; over UDP, a CANCEL the network takes
    ends the resending of that INVITE, and otherwise the table of requests to
    resend stays as it was; and the call is gone, with a record of a setup
    timeout. *)
Theorem setup_timeout_cancels uuid s c a m id branch :
  B2bua.calls (b2bua s) !! uuid = Some c -> last (B2bua.invite_attempts c) = Some a ->
  B2bua.dialog_info_toward_caller (show_addr E) c (sbc_addr s).1.1 (sbc_addr s).1.2 = None ->
  B2bua.dialog_info_toward_callee (show_addr E) c (sbc_addr s).1.1 (sbc_addr s).1.2 = None ->
  SipBuilder.parse_invite_identity (B2bua.a_raw a) = Some id -> no_lf (SipBuilder.id_uri id) = true ->
  SipBuilder.top_via_branch (B2bua.a_raw a) = Some branch ->
  SipBuilder.build_cancel (B2bua.a_raw a) = Some m -> is_utf8 m = true ->
  let s' := (give_up_setup uuid s).2 in
  let final := told 408 (reason_header SetupTimeout) c (net E (length (wire s))) in
  let taken := net E (length (wire s ++ final)) in
  wire s' = wire s ++ final
    ++ [mkSent "CANCEL → callee" m (B2bua.a_dest a) (B2bua.a_transport a) (B2bua.callee_reply_tx c) taken] /\
  SipBuilder.parse_identity "CANCEL" m =
    Some (SipBuilder.mkIdentity (SipBuilder.id_uri id) (SipBuilder.id_top_via id) (SipBuilder.id_from id)
            (SipBuilder.id_to id) (SipBuilder.id_call_id id) (SipBuilder.id_cseq id) []) /\
  (if taken && bool_decide (B2bua.a_transport a = Udp)
   then forall later, (ClientTx.due later (client_tx s')).2 !! ClientTx.key branch "INVITE" = None
   else client_tx s' = client_tx s) /\
  B2bua.calls (b2bua s') = delete uuid (B2bua.calls (b2bua s)) /\
  exists r, cdrs s' = cdrs s ++ [r] /\ cdr_uuid r = uuid /\ disconnect_reason r = "setup-timeout".
Proof.
  intros Hc Ha Hd1 Hd2 Hp Hu Hb Hm Hutf s' final taken.
  destruct (give_up_start uuid s) as (Hs0 & Hb0 & Hw0 & Hi0 & Hx0 & Hcd0). fold s' in Hs0.
  generalize dependent ((trunk ← silent_outbound_trunk_of uuid;
    match trunk : option string with Some n => note_trunk_failure n None | None => skip end) s).2.
  intros s0 Hs0 Hb0 Hw0 Hi0 Hx0 Hcd0.
  assert (Haddr : (sbc_addr s0).1 = (sbc_addr s).1) by (unfold sbc_addr, gets; cbn; by rewrite Hi0).
  destruct (sbc_addr s).1 as [i p] eqn:Hip. cbn [fst snd] in *.
  destruct (SipBuilder.cancel_parts _ _ _ Hp Hm) as [Hid (rest & Hl)].
  destruct (hangup_pending uuid SetupTimeout s0 c a m i p ltac:(by rewrite Hb0) Ha Haddr Hd1 Hd2 Hm ltac:(by rewrite Hl))
    as [Hw2 Hx2].
  rewrite Hw0, Hx0 in *. change (pending_caller_code SetupTimeout) with 408 in Hw2, Hx2. fold final taken in Hw2, Hx2.
  assert (Hcore := sends_core _ _ (hangup_sends uuid SetupTimeout s0)). destruct Hcore as (_ & Hb2 & _ & Hcd2 & _).
  unfold tear_down, mbind, M_bind in Hs0. destruct (hangup_both_legs uuid SetupTimeout s0) as [[] s2]. cbn [snd] in *.
  assert (Hfin := finish_call_spec uuid SetupTimeout s2 c ltac:(by rewrite Hb2, Hb0)).
  destruct (finish_call uuid SetupTimeout s2) as [b3 s3]. destruct Hfin as (_ & Hr & Hcalls & _ & _ & Hw3 & Hx3 & _).
  cbn in Hs0. rewrite Hs0. split_and!; [by rewrite Hw3|done| | |].
  - rewrite Hx3, Hx2. destruct taken; [|done]. case_bool_decide as Ht; cbn [andb].
    + intros later. rewrite ClientTx.due_lookup, Ht.
      by rewrite (ClientTx.cancel_clears_invite _ _ _ id m _ _ branch _ Hp Hu Hm Hutf Hb).
    + unfold ClientTx.record_sent. by rewrite bool_decide_false.
  - by rewrite Hcalls, Hb2, Hb0.
  - eexists. rewrite Hr, Hcd2, Hcd0. done.
Qed.

(** *** The calls a timer ends *)

(** [f] ends the call it is given and leaves the others alone. *)
Definition ends (o : CallOutcome) (f : string -> M unit) : Prop := forall u s,
  let s' := (f u s).2 in
  live s' = live s ∖ {[u]} /\ records (fun r => disconnect_reason r = disconnect_reason_of o) s s' /\
  (forall k, k <> u -> B2bua.calls (b2bua s') !! k = B2bua.calls (b2bua s) !! k).

Lemma tear_down_ends o : ends o (tear_down o).
Proof.
  intros u s. destruct (tear_down_spec o u s) as (Hl & (w & Hw & HF) & Hk). split_and!; [done| |done].
  exists w. split; [done|]. eapply Forall_impl; [exact HF|]. by intros r [].
Qed.

Lemma give_up_ends : ends SetupTimeout give_up_setup.
Proof.
  intros u s. destruct (give_up_start u s) as (-> & Hb & _ & _ & _ & Hc).
  match goal with |- context [tear_down SetupTimeout u ?x] => generalize dependent x end. intros s0 Hb Hc.
  destruct (tear_down_ends SetupTimeout u s0) as (Hl & (w & Hw & HF) & Hk). unfold live in *. rewrite Hb in *. split_and!; [done| |done].
  exists w. by rewrite <- Hc.
Qed.

Lemma ends_all o f us s : ends o f ->
  let s' := (for_each f us s).2 in
  records (fun r => disconnect_reason r = disconnect_reason_of o) s s' /\
  (forall k, B2bua.calls (b2bua s') !! k = if bool_decide (k ∈ us) then None else B2bua.calls (b2bua s) !! k).
Proof.
  intros Hf. revert s. induction us as [|u us IH]; intros s.
  - split; [reflexivity|]. intros k. by rewrite bool_decide_false by apply not_elem_of_nil.
  - cbn [for_each]. unfold mbind, M_bind. assert (Hu := Hf u s). destruct (f u s) as [[] s1].
    cbn [snd] in Hu. destruct Hu as (Hl & Hr & Hk). destruct (IH s1) as [Hr' Hk'].
    split; [by etrans|]. intros k. rewrite Hk'. destruct (decide (k = u)) as [->|Hne].
    + rewrite (bool_decide_true (u ∈ u :: us)) by by left. case_bool_decide; [done|]. apply not_elem_of_dom.
      change (u ∉ live s1). rewrite Hl. set_solver.
    + rewrite Hk by done. rewrite (bool_decide_ext (k ∈ u :: us) (k ∈ us)); [done|]. rewrite elem_of_cons. naive_solver.
Qed.

Definition keyed (s : Sbc) : Prop := forall k c, B2bua.calls (b2bua s) !! k = Some c -> B2bua.uuid c = k.

Lemma elem_of_chosen p s k :
  keyed s -> k ∈ B2bua.uuid <$> List.filter p (B2bua.values (b2bua s)) <->
  exists c, B2bua.calls (b2bua s) !! k = Some c /\ p c = true.
Proof.
  intros Hk. rewrite list_elem_of_fmap. unfold B2bua.values. split.
  - intros (c & -> & [Hin Hp]%elem_of_filter_bool). apply list_elem_of_fmap in Hin as ([u c'] & -> & Hin).
    apply elem_of_hiter in Hin. cbn in *. exists c'. by rewrite (Hk _ _ Hin).
  - intros (c & Hc & Hp). exists c. split; [symmetry; by apply Hk|]. apply elem_of_filter_bool. split; [|done].
    apply list_elem_of_fmap. exists (k, c). split; [done|]. by apply elem_of_hiter.
Qed.

(** What a timer that ends the calls [p] chooses does to each call. *)
Lemma chosen_end o f p s :
  ends o f -> keyed s -> keeps accounts (for_each f (B2bua.uuid <$> List.filter p (B2bua.values (b2bua s)))) ->
  let s' := (for_each f (B2bua.uuid <$> List.filter p (B2bua.values (b2bua s))) s).2 in
  forall k c, B2bua.calls (b2bua s) !! k = Some c ->
    if p c then B2bua.calls (b2bua s') !! k = None /\
      exists r, r ∈ cdrs s' /\ cdr_uuid r = k /\ disconnect_reason r = disconnect_reason_of o
    else B2bua.calls (b2bua s') !! k = Some c.
Proof.
  intros Hf Hkey Hacc s' k c Hc. destruct (ends_all o f (B2bua.uuid <$> List.filter p (B2bua.values (b2bua s))) s Hf) as [(w & Hw & HF) Hk].
  fold s' in Hw, Hk. destruct (p c) eqn:Hp.
  - assert (Hgone : B2bua.calls (b2bua s') !! k = None).
    { rewrite Hk, bool_decide_true; [done|]. apply (elem_of_chosen p s k Hkey). by exists c. }
    split; [done|]. destruct (Hacc s) as (w' & Hw' & Hperm). fold s' in Hw', Hperm. rewrite Hw in Hw'.
    apply app_inv_head in Hw' as <-. assert (Hin : k ∈ elements (live s)) by by apply elem_of_elements, elem_of_dom_2 with c.
    rewrite Hperm, elem_of_app in Hin. destruct Hin as [Hin|Hin].
    + apply list_elem_of_fmap in Hin as (r & -> & Hr). exists r. split_and!; [|done|].
      * rewrite Hw. apply elem_of_app. by right.
      * rewrite Forall_forall in HF. by apply HF.
    + unfold live in Hin. apply elem_of_elements, elem_of_dom in Hin as [? Hin]. congruence.
  - rewrite Hk, bool_decide_false; [done|]. intros (c' & Hc' & Hp')%(elem_of_chosen p s k Hkey). congruence.
Qed.

(** C13: the timers end every call that is due and no other. A call that has
    waited for an answer past its limit (the setup timeout while the callee is
    silent, Timer C once it alerts), or has lasted longer than the maximum, is
    gone with its record; every other call is as it was. *)
Theorem timers_end_due_calls s k c :
  keyed s -> B2bua.calls (b2bua s) !! k = Some c ->
  (let s' := (check_setup_timeouts s).2 in
   if in_setup c && match B2bua.alerting_at c with
                    | None => call_setup_timeout s <? duration_since (now s) (B2bua.started_at c)
                    | Some alerting => secs 180 <? duration_since (now s) alerting
                    end
   then B2bua.calls (b2bua s') !! k = None /\
        exists r, r ∈ cdrs s' /\ cdr_uuid r = k /\ disconnect_reason r = "setup-timeout"
   else B2bua.calls (b2bua s') !! k = Some c) /\
  (let s' := (check_call_timeouts s).2 in
   if max_call_duration s <? duration_since (now s) (B2bua.started_at c)
   then B2bua.calls (b2bua s') !! k = None /\
        exists r, r ∈ cdrs s' /\ cdr_uuid r = k /\ disconnect_reason r = "timeout"
   else B2bua.calls (b2bua s') !! k = Some c).
Proof.
  intros Hkey Hc. split.
  - apply (chosen_end SetupTimeout give_up_setup
      (fun c => in_setup c && setup_expired (now s) (call_setup_timeout s) c)); [apply give_up_ends|done| |done].
    unfold give_up_setup, silent_outbound_trunk_of. keeping.
    + apply kept_failure.
    + intros _. apply (keeps_tear_down accounts).
  - apply (chosen_end MaxDuration (tear_down MaxDuration)
      (fun c => max_call_duration s <? duration_since (now s) (B2bua.started_at c))); [apply tear_down_ends|done| |done].
    keeping. intros x _. apply (keeps_tear_down accounts).
Qed.
End env.

(** ** Witnesses *)

Module Witness.

#[local] Instance trunk_iter : HashIter Trunk.TrunkId Trunk.TrunkConfig := canonical_iter Trunk.TrunkId Trunk.TrunkConfig.
#[local] Instance call_iter : HashIter B2bua.CallUuid B2bua.B2buaCall := canonical_iter B2bua.CallUuid B2bua.B2buaCall.
#[local] Instance client_iter : HashIter string ClientTx.ClientTx := canonical_iter string ClientTx.ClientTx.
#[local] Instance invite_iter : HashIter string InviteTx.TxEntry := canonical_iter string InviteTx.TxEntry.

(** Every send succeeds; the n-th text drawn is a branch with n. *)
Definition parser0 : Parser :=
  mkParser Some (fun v => if contains ";tag=" v then Some "tt" else None) (fun tag v => v +:+ ";tag=" +:+ tag) (fun _ => Some "ft")
    SipUri.uri_user (fun _ => Some 1) (fun u => default "h" (SipUri.uri_host u)) SipUri.uri_user SipUri.uri_user
    (fun _ u => "sip:" +:+ u +:+ "@h").

Definition edge0 : Edge.Edge :=
  Edge.mkEdge (Edge.new (Edge.mkFeatures Ban.default_config (Destination.mkConfig true "allow" "33" [] true)
                 (UserLimits.mkConfig true 2 10 [])))
    (Acl.new Acl.Allow) (Dos.new Dos.default_config) true (Some (Auth.new "h" {["alice" := "secret"]}))
    Edge.default_identity_policy Registrar.empty_registrar Registrar.default_policy [] ["192.0.2.9"] true [] [].

Definition env0 : Env :=
  mkEnv (fun _ => true) (fun n => "z9hG4bK" +:+ show (Z.of_nat n)) B2bua.Witness.show_addr (fun _ => "192.0.2.1")
    (fun _ => None) (fun _ => None) (fun _ => "Reason") (Some (V4 [])) (fun _ => true) (fun _ _ _ => "v=0") (fun _ => 2500) parser0 (fun _ => None)
    (fun l => Z.of_nat (length l)) (fun _ _ => false) (fun _ _ _ => None) (fun _ _ => None) (fun _ _ _ => "v=0").

Definition idle : Sbc :=
  mkSbc (secs 10) (secs 1010) (B2bua.mkManager ∅ []) (Trunk.add_trunk (Trunk.new_config 7 "t") Trunk.new) ∅ ∅ None edge0 None
    (secs 30) (secs 3600) (secs 5) [] (Media.new (PortAllocator.with_range_and_hold 10000 10100 (secs 30))) [] [] [] ∅ [] [] [] 0.

(** A call whose INVITE the trunk has not answered. *)
Definition pending_call : B2bua.B2buaCall :=
  let c := B2bua.B2buaCall_new "u1" "1-cid@h" "t" B2bua.Witness.caller_addr None false None Udp 0 (secs 1000) in
  let c := B2bua.push_attempt 0 SipBuilder.Witness.invite0 B2bua.Witness.trunk_addr Udp (Some 7) c in
  c <| B2bua.inbound := B2bua.mkLeg "1-cid@h" "t" None B2bua.Witness.caller_addr 1 false (Some "<sip:a@b>;tag=1") None None |>
    <| B2bua.caller_to_raw := Some "<sip:c@d>" |> <| B2bua.caller_original_vias := ["Via: SIP/2.0/UDP h;branch=z9hG4bKx"] |>
    <| B2bua.caller_invite_cseq := Some 1 |> <| B2bua.trunk_name := Some "t" |>.

Definition busy : Sbc := idle <| b2bua := B2bua.mkManager {[ "u1" := pending_call ]} [] |> <| now := secs 40 |>.

Lemma ended_call_is_recorded_witness :
  (finish_call env0 "u1" Cancelled busy).1 = true /\
  finish_call env0 "u1" SetupTimeout (finish_call env0 "u1" Cancelled busy).2 = (false, (finish_call env0 "u1" Cancelled busy).2).
Proof.
  assert (H := ended_call_is_recorded env0 "u1" Cancelled SetupTimeout busy pending_call eq_refl).
  destruct (finish_call env0 "u1" Cancelled busy) as [b s']. destruct H as (-> & _ & _ & H). by split.
Defined.

(** The INVITE was sent and is being resent; thirty seconds on, it is given up. *)
Definition sent : Sbc := (send_sip env0 "INVITE" SipBuilder.Witness.invite0 B2bua.Witness.trunk_addr Udp None busy).2.

Lemma setup_timeout_cancels_witness :
  is_Some (client_tx sent !! ClientTx.key "z9hG4bK01" "INVITE") /\
  let s' := (give_up_setup env0 "u1" sent).2 in
  map s_what (wire s') = ["INVITE"; "final → caller"; "CANCEL → callee"] /\
  (ClientTx.due (secs 41) (client_tx s')).2 !! ClientTx.key "z9hG4bK01" "INVITE" = None.
Proof.
  split; [eexists; by vm_compute|]. intros s'. split; [by vm_compute|].
  destruct (SipBuilder.parse_invite_identity SipBuilder.Witness.invite0) as [id|] eqn:Hid; [|by vm_compute in Hid].
  assert (Hu : no_lf (SipBuilder.id_uri id) = true) by (vm_compute in Hid; by injection Hid as <-).
  destruct (last (B2bua.invite_attempts pending_call)) as [a|] eqn:Ha; [|by vm_compute in Ha].
  assert (Hraw : B2bua.a_raw a = SipBuilder.Witness.invite0) by (cbn in Ha; by injection Ha as <-).
  rewrite <- Hraw in Hid.
  assert (H := proj1 (proj2 (proj2 (setup_timeout_cancels env0 "u1" sent pending_call a ClientTx.Witness.cancel0 id "z9hG4bK01"
    ltac:(by vm_compute) Ha ltac:(by vm_compute) ltac:(by vm_compute) Hid Hu ltac:(rewrite Hraw; by vm_compute)
    ltac:(rewrite Hraw; by vm_compute) ltac:(by vm_compute))))).
  cbn in Ha. injection Ha as <-. exact (H (secs 41)).
Defined.

Lemma timers_end_due_calls_witness :
  B2bua.calls (b2bua (check_setup_timeouts env0 busy).2) !! "u1" = None /\
  B2bua.calls (b2bua (check_call_timeouts env0 busy).2) !! "u1" = Some pending_call.
Proof.
  assert (Hk : keyed busy).
  { intros k c Hc. change (({[ "u1" := pending_call ]} : gmap string B2bua.B2buaCall) !! k = Some c) in Hc.
    by apply lookup_singleton_Some in Hc as [<- <-]. }
  destruct (timers_end_due_calls env0 busy "u1" pending_call Hk eq_refl) as [H1 H2]. split; [exact (proj1 H1)|exact H2].
Defined.

End Witness.
