(* ===== verification/ResponseHandler.v ===== *)
(** * Responses from the callee (sbc/response_handler.rs, sbc/invite_handler.rs)

    What the event loop does with a response: the answers to its own refreshes,
    the finals of attempts it gave up, the progress, answer or refusal it tells
    the caller, and the INVITE it sends again after a 407, a 422 or a trunk's
    failure. The DTLS handshakes that an answer starts end in a kick, an
    operation of its own. *)

From S2P Require Import Prelude Str Bytes Net Sbc Messages Invite Teardown.
From S2P Require SipBuilder Topology Trunk B2bua Cdr Auth Media PortAllocator Sdp ClientTx InviteTx.

#[export] Existing Instance B2bua.eta_failover.
#[export] Existing Instance B2bua.eta_leg.
#[export] Existing Instance Media.eta_media_session.

Section env.
Context (E : Env) {HT : HashIter Trunk.TrunkId Trunk.TrunkConfig} {HB : HashIter B2bua.CallUuid B2bua.B2buaCall}.

Abbreviation CallerInfo := (option (option nat * SocketAddr * Transport))%type.

Definition raw_of (r : Response) : string := response_text (reason_phrase E) r.
Definition value_or_empty (k : HeaderKind) (r : Response) : string := default "" (header_of k (rs_headers r)).

Definition on_media (f : Media.MediaManager -> Media.MediaManager) : M unit :=
  modify (fun s => s <| media := f (media s) |>).

Definition media_op {A} (f : Media.MediaManager -> A * Media.MediaManager) : M A :=
  fun s => let '(a, m) := f (media s) in (a, s <| media := m |>).

(** A message built for a peer and sent, if there is one. *)
Definition send_to (what : string) (msg : string) (dest : SocketAddr) (t : Transport) (tx : option nat) : M unit :=
  _ ← send_sip E what msg dest t tx; skip.

(** ** Ending what nobody waits for *)

Definition ack_and_bye_answered_dialog (attempt : B2bua.InviteAttempt) (response : Response) (cseq : Z)
    (response_to : string) (tx : option nat) (reason : string) : M unit :=
  addr ← sbc_addr;
  let '(sbc_ip, sbc_port) := addr : string * Z in
  let request_uri := match header_of HContact (rs_headers response) with
                     | Some v => extract_contact_uri v
                     | None => "sip:" +:+ show_addr E (B2bua.a_dest attempt) end in
  let d := SipBuilder.mkDialog (value_or_empty HCallId response) (value_or_empty HFrom response) response_to request_uri
             cseq sbc_ip sbc_port (transport_token (B2bua.a_transport attempt)) in
  b1 ← draw E;
  b2 ← draw E;
  _ ← send_to "ACK (orphan 2xx) → callee" (SipBuilder.build_ack_for_2xx b1 d cseq)
        (B2bua.a_dest attempt) (B2bua.a_transport attempt) tx;
  send_to "BYE (orphan 2xx) → callee" (SipBuilder.build_bye b2 (SipBuilder.with_cseq d (wrapw 32 (cseq + 1))) (Some reason))
    (B2bua.a_dest attempt) (B2bua.a_transport attempt) tx.

Definition teardown_lost_dialog (uuid : string) (status : Z) : M unit :=
  addr ← sbc_addr;
  let '(sbc_ip, sbc_port) := addr : string * Z in
  b ← draw E;
  bye ← b2bua_op (B2bua.build_relay_bye_toward_caller (show_addr E) b uuid sbc_ip sbc_port
                    (Cdr.reason_header (Cdr.DialogLost status)));
  caller ← gets (fun s => B2bua.get_caller_reply_info uuid (b2bua s));
  _ ← match (bye : option string), (caller : CallerInfo) with
      | Some m, Some (tx, a, tp) => send_to "BYE (dialog lost) → caller" m a tp tx
      | _, _ => skip
      end;
  _ ← finish_call E uuid (Cdr.DialogLost status); skip.

Definition relay_error_and_terminate (uuid raw_response : string) (caller_info : CallerInfo) (caller_cseq : option Z) : M unit :=
  let code := default 500 (status_code_of raw_response) in
  _ ← match caller_info with
      | Some (tx, a, tp) =>
          vias ← gets (fun s => B2bua.get_caller_vias uuid (b2bua s));
          id ← gets identity;
          send_to "error response → caller" (rewrite_response_for_caller raw_response vias id caller_cseq) a tp tx
      | None => skip
      end;
  _ ← finish_call E uuid (Cdr.Rejected code); skip.

Definition ack_callee_final (uuid response_to : string) : M unit :=
  current ← gets (fun s => B2bua.current_attempt uuid (b2bua s));
  match current : option (B2bua.InviteAttempt * option nat) with
  | Some (attempt, tx) =>
      match SipBuilder.build_ack_for_non_2xx (B2bua.a_raw attempt) response_to with
      | Some ack => send_to "ACK (non-2xx) → trunk" ack (B2bua.a_dest attempt) (B2bua.a_transport attempt) tx
      | None => skip
      end
  | None => skip
  end.

(** ** Before the call sees the response *)

Definition is_provisional (status : Z) : bool := (100 <=? status) && (status <=? 199).
Definition is_success (status : Z) : bool := (200 <=? status) && (status <=? 299).

Definition handle_refresh_response (uuid : string) (status cseq : Z) (raw_resp response_to : string) : M unit :=
  if is_provisional status then skip
  else if is_success status then
    addr ← sbc_addr;
    let '(sbc_ip, sbc_port) := addr : string * Z in
    b ← draw E;
    out ← b2bua_op (B2bua.complete_session_refresh (show_addr E) b uuid cseq sbc_ip sbc_port);
    match out : option (string * SocketAddr * Transport * option nat) with
    | Some (ack, dest, tp, tx) => send_to "ACK (refresh) → callee" ack dest tp tx
    | None => skip
    end
  else
    let min_se := if status =? 422 then parse_min_se raw_resp else None in
    delay ← draw_ms E;
    t ← gets now;
    outcome ← b2bua_op (B2bua.fail_session_refresh uuid t delay cseq status min_se response_to);
    match outcome : option B2bua.RefreshFailure with
    | None => skip
    | Some o =>
        _ ← match B2bua.f_ack o with
            | Some ack => send_to "ACK (refresh rejected) → callee" ack (B2bua.f_dest o) (B2bua.f_transport o) (B2bua.f_reply_tx o)
            | None => skip
            end;
        if B2bua.dialog_gone o then teardown_lost_dialog uuid status else skip
    end.

(** The connection of a stale attempt is reused only toward the same peer. *)
Definition stale_tx (attempt : B2bua.InviteAttempt) (current : option (B2bua.InviteAttempt * option nat)) : option nat :=
  match current with
  | Some (cur, tx) => if bool_decide (B2bua.a_dest cur = B2bua.a_dest attempt) then tx else None
  | None => None
  end.

Definition handle_stale_invite_response (uuid : string) (status cseq : Z) (response : Response) (response_to : string)
    (attempt : option B2bua.InviteAttempt) : M unit :=
  match attempt with
  | None => skip
  | Some attempt =>
      tx ← gets (fun s => stale_tx attempt (B2bua.current_attempt uuid (b2bua s)));
      if is_provisional status then skip
      else if is_success status then
        ack_and_bye_answered_dialog attempt response cseq response_to tx
          (Cdr.q850 "31" "Superseded INVITE answered")
      else
        match SipBuilder.build_ack_for_non_2xx (B2bua.a_raw attempt) response_to with
        | Some ack => send_to "ACK (stale) → callee" ack (B2bua.a_dest attempt) (B2bua.a_transport attempt) tx
        | None => skip
        end
  end.

(** Whether the response was used up. *)
Definition invite_prelude (uuid : string) (response : Response) (cseq : Z) : M bool :=
  let status := rs_status response in
  let raw_resp := raw_of response in
  let response_to := value_or_empty HTo response in
  pending ← gets (fun s => B2bua.is_pending_refresh uuid cseq (b2bua s));
  if (pending : bool) then _ ← handle_refresh_response uuid status cseq raw_resp response_to; mret true
  else
    addr ← sbc_addr;
    let '(sbc_ip, sbc_port) := addr : string * Z in
    b ← draw E;
    dup ← gets (fun s => B2bua.refresh_duplicate_ack (show_addr E) b uuid cseq status response_to sbc_ip sbc_port (b2bua s));
    match dup : option (option string * SocketAddr * Transport * option nat) with
    | Some (ack, dest, tp, tx) =>
        _ ← match ack with Some ack => send_to "ACK (refresh duplicate) → callee" ack dest tp tx | None => skip end;
        mret true
    | None =>
        cls ← gets (fun s => B2bua.classify_invite_response uuid (SipBuilder.top_via_branch raw_resp) cseq (b2bua s));
        match cls : option B2bua.InviteResponseClass with
        | Some (B2bua.Stale attempt) =>
            _ ← handle_stale_invite_response uuid status cseq response response_to attempt; mret true
        | _ =>
            _ ← on_b2bua (B2bua.mark_callee_responded uuid);
            _ ← (if 300 <=? status then ack_callee_final uuid response_to else skip);
            mret false
        end
    end.

(** ** Sending the INVITE again *)

(** The state of the call once the next trunk has its INVITE. *)
Definition moved_to (trunk : Trunk.TrunkConfig) (dest : SocketAddr) (c : B2bua.B2buaCall) : B2bua.B2buaCall :=
  c <| B2bua.trunk_name := Some (Trunk.name trunk) |> <| B2bua.callee_reply_tx := None |> <| B2bua.callee_responded := false |>
    <| B2bua.session_timer_retry_count := 0 |>
    <| B2bua.outbound := (fun out => out <| B2bua.remote_addr := dest |>) <$> B2bua.outbound c |>.

(** [None]: the loop ran out of fuel. *)
Fixpoint failover_loop (fuel : nat) (uuid : string) : M (option bool) :=
  match fuel with
  | O => mret None
  | S fuel =>
      t ← gets now;
      next ← b2bua_op (B2bua.take_next_failover_candidate uuid t);
      match next : option Trunk.TrunkId with
      | None => mret (Some false)
      | Some next_id =>
          tm ← gets trunk_manager;
          match Trunk.get_trunk next_id tm with
          | None => failover_loop fuel uuid
          | Some trunk =>
              match Trunk.destination (parse_addr E) trunk with
              | None => failover_loop fuel uuid
              | Some new_dest =>
                  let selectable := match Trunk.get_state next_id tm with
                                    | Some st => Trunk.can_accept_call t trunk st | None => false end in
                  if negb (Trunk.enabled trunk) || negb selectable then failover_loop fuel uuid
                  else
                    call ← call_of uuid;
                    match (call : option B2bua.B2buaCall) ≫= B2bua.original_outbound_invite with
                    | None | Some "" => mret (Some false)
                    | Some stored =>
                        b ← draw E;
                        _ ← match SipBuilder.build_cancel stored, (call : option B2bua.B2buaCall) ≫= B2bua.callee_dest with
                            | Some cancel, Some dest =>
                                _ ← send_request_tracked E "CANCEL (failover) → previous attempt" cancel dest
                                      (match call : option B2bua.B2buaCall with Some c => B2bua.callee_transport c | None => Udp end)
                                      ((call : option B2bua.B2buaCall) ≫= B2bua.callee_reply_tx); skip
                            | _, _ => skip
                            end;
                        match retarget_invite_for_trunk b stored trunk with
                        | None => mret (Some false)
                        | Some new_invite =>
                            let new_transport := Trunk.to_rsip_transport (Trunk.transport trunk) in
                            ok ← send_request_tracked E "INVITE (failover) → trunk" new_invite new_dest new_transport None;
                            if negb (ok : bool) then
                              _ ← note_trunk_failure (Trunk.name trunk) None; failover_loop fuel uuid
                            else
                              _ ← on_b2bua (B2bua.push_invite_attempt uuid t new_invite new_dest new_transport (Some (Trunk.id trunk)));
                              _ ← on_b2bua (B2bua.reset_auth_retry uuid);
                              _ ← on_b2bua (B2bua.with_call uuid (moved_to trunk new_dest));
                              _ ← count_call_on_trunk uuid (Some (Trunk.name trunk));
                              mret (Some true)
                        end
                    end
              end
          end
      end
  end.

Definition candidates_left (uuid : string) (s : Sbc) : nat :=
  match c ← B2bua.calls (b2bua s) !! uuid; B2bua.failover c with
  | Some fo => length (B2bua.candidates fo)
  | None => 0
  end.

Definition failover_to_next_trunk (uuid : string) : M bool :=
  n ← gets (candidates_left uuid);
  r ← failover_loop (S n) uuid;
  mret (default false r).

(** A scan's entry: the call, its attempt, whether a candidate is left. *)
Definition check_invite_failover : M unit :=
  timed_out ← gets (fun s => B2bua.invite_attempts_timed_out (now s) (invite_timeout s) (b2bua s));
  for_each (fun e : string * Z * bool =>
    if negb e.2 then skip
    else
      trunk ← silent_outbound_trunk_of e.1.1;
      _ ← match trunk : option string with Some name => note_trunk_failure name None | None => skip end;
      _ ← failover_to_next_trunk e.1.1; skip) timed_out.

(** The INVITE sent again on a fresh transaction is the live attempt. *)
Definition resend_invite (uuid what invite : string) (dest : SocketAddr) (t : Transport) (tx : option nat)
    (trunk : Trunk.TrunkId) (commit : B2bua.B2buaManager -> B2bua.B2buaManager) : M bool :=
  ok ← send_request_tracked E what invite dest t tx;
  if (ok : bool) then
    n ← gets now;
    _ ← on_b2bua (fun m => B2bua.push_invite_attempt uuid n invite dest t (Some trunk) (commit m));
    mret true
  else mret false.

Definition handle_422_session_interval_retry (uuid : string) (response : Response) (trunk_source : SocketAddr) : M bool :=
  timer ← gets session_timer;
  current ← gets (fun s => B2bua.current_attempt uuid (b2bua s));
  retries ← gets (fun s => B2bua.get_session_timer_retry_count uuid (b2bua s));
  match (timer : option (Z * Z)), (current : option (B2bua.InviteAttempt * option nat)) with
  | Some (cfg_se, cfg_min_se), Some (attempt, tx) =>
      match B2bua.a_trunk_id attempt with
      | None => mret false
      | Some trunk_id =>
          if 1 <=? (retries : Z) then mret false
          else
            match m ← parse_min_se (raw_of response);
                  session_interval_retry_values (parse_session_expires (B2bua.a_raw attempt)) m (cfg_se, cfg_min_se) with
            | None => mret false
            | Some (new_se, new_min_se) =>
                b ← draw E;
                let dest := if is_unspecified (ip (B2bua.a_dest attempt)) then trunk_source else B2bua.a_dest attempt in
                resend_invite uuid "INVITE (422 retry) → trunk"
                  (build_session_interval_retry b (B2bua.a_raw attempt) new_se new_min_se)
                  dest (B2bua.a_transport attempt) tx trunk_id
                  (fun m => B2bua.reset_auth_retry uuid (B2bua.increment_session_timer_retry uuid m))
            end
      end
  | _, _ => mret false
  end.

Definition proxy_challenge (raw : string) : option string :=
  (fun line => trim (sdrop (S (default 0%nat (find_char ":" line))) line))
    <$> List.find (fun line => starts_with "proxy-authenticate:" (to_ascii_lowercase line)) (lines raw).

Definition handle_407_auth_retry (uuid : string) (response : Response) (trunk_source : SocketAddr) : M bool :=
  info ← gets (fun s => B2bua.get_auth_retry_info uuid (b2bua s));
  match info : option (string * Trunk.TrunkId * Z) with
  | None => mret false
  | Some (original_invite, trunk_id, retry_count) =>
      if 1 <=? retry_count then mret false
      else if seqb original_invite "" then mret false
      else
        trunk ← gets (fun s => Trunk.get_trunk trunk_id (trunk_manager s));
        match trunk : option Trunk.TrunkConfig with
        | None => mret false
        | Some trunk =>
            if negb (Trunk.auth_required trunk) then mret false
            else
              match Trunk.username trunk, Trunk.password trunk, proxy_challenge (raw_of response) with
              | Some u, Some p, Some v =>
                  match Auth.challenge_from_header v with
                  | Err _ => mret false
                  | Ok challenge =>
                      cnonce ← draw E;
                      b ← draw E;
                      let digest_uri := default "sip:unknown@unknown" (extract_request_uri_from_raw original_invite) in
                      let auth := Auth.generate_digest_response u p challenge "INVITE" digest_uri cnonce in
                      let dest := default trunk_source (Trunk.destination (parse_addr E) trunk) in
                      tx ← gets (fun s => c ← B2bua.calls (b2bua s) !! uuid; B2bua.callee_reply_tx c);
                      resend_invite uuid "INVITE (407 retry) → trunk" (inject_proxy_auth_into_invite b original_invite auth)
                        dest (Trunk.to_rsip_transport (Trunk.transport trunk)) tx trunk_id (B2bua.increment_auth_retry uuid)
                  end
              | _, _, _ => mret false
              end
        end
  end.

(** ** The answer *)

Definition body_text (r : Response) : option string :=
  if negb (seqb (rs_body r) "") && is_utf8 (rs_body r) then Some (rs_body r) else None.

Definition set_established_dialog (uuid : string) (response : Response) : M unit :=
  match header_of HFrom (rs_headers response), header_of HTo (rs_headers response) with
  | Some from_raw, Some to_raw =>
      on_b2bua (B2bua.set_established_dialog uuid from_raw to_raw
                  (extract_contact_uri <$> header_of HContact (rs_headers response)))
  | _, _ => skip
  end.

(** The interval on the trunk's leg: what it answered, else what it was
    offered, else the configured one, never below the floor. *)
Definition negotiated_interval (configured cfg_min_se : Z) (offered : option string) (raw_resp : string) : Z * Z :=
  let min_se := Z.max (default cfg_min_se (offered ≫= parse_min_se)) cfg_min_se in
  let se := match parse_session_expires raw_resp with
            | Some n => n
            | None => default configured (offered ≫= parse_session_expires) end in
  (Z.max se min_se, min_se).

Definition arm_session_timer (uuid : string) (response : Response) : M unit :=
  timer ← gets session_timer;
  call ← call_of uuid;
  match (timer : option (Z * Z)), (call : option B2bua.B2buaCall) ≫= B2bua.trunk_id with
  | Some (configured, cfg_min_se), Some _ =>
      offered ← gets (fun s => (fun a => B2bua.a_raw a.1) <$> B2bua.current_attempt uuid (b2bua s));
      t ← gets now;
      let '(interval, min_se) := negotiated_interval configured cfg_min_se offered (raw_of response) in
      on_b2bua (B2bua.set_session_timer uuid t interval min_se)
  | _, _ => skip
  end.

(** Where a side takes its media: a private address of its SDP is the one its
    signaling comes from. *)
Definition relay_endpoint (public : option IpAddr) (sdp : string) : option SocketAddr :=
  a ← extract_sdp_rtp_addr (parse_ip E) sdp;
  Some (match public with Some i => if is_private_ip (ip a) then mkAddr i (port a) else a | None => a end).

Definition identity_ip (s : Sbc) : string :=
  match identity s with Some i => Topology.public_ip i | None => "127.0.0.1" end.

Definition leg_a_port (media_id : option string) (s : Sbc) : Z :=
  match id ← media_id; Media.get_session id (media s) with Some x => PortAllocator.rtp (Media.ports x) | None => 10000 end.

Definition generate_webrtc_answer (uuid media_id : string) : M unit :=
  ws ← gets (fun s => B2bua.get_webrtc_session uuid (b2bua s));
  match ws : option nat with
  | Some ws =>
      p ← gets (leg_a_port (Some media_id));
      i ← gets identity_ip;
      on_b2bua (B2bua.set_webrtc_sdp_answer uuid (webrtc_answer E ws p i))
  | None => skip
  end.

Definition set_endpoint (set : string -> SocketAddr -> Media.MediaManager -> sbc_result unit * Media.MediaManager)
    (media_id : string) (webrtc : bool) (public : option IpAddr) (sdp : option string) : M unit :=
  if webrtc then skip
  else match sdp ≫= relay_endpoint public with
       | Some a => on_media (fun m => (set media_id a m).2)
       | None => skip
       end.

(** Whether the relay could not be started. *)
Definition start_media (uuid media_id : string) (caller_sdp callee_sdp : option string) : M bool :=
  started ← gets (fun s => match Media.get_session media_id (media s) with Some x => Media.relaying x | None => false end);
  if (started : bool) then mret false
  else
    call ← call_of uuid;
    caller_webrtc ← gets (fun s => B2bua.is_caller_webrtc uuid (b2bua s));
    callee_webrtc ← gets (fun s => B2bua.is_callee_webrtc uuid (b2bua s));
    _ ← set_endpoint Media.set_endpoint_a media_id caller_webrtc
          ((fun c => ip (B2bua.caller_source c)) <$> (call : option B2bua.B2buaCall)) caller_sdp;
    _ ← set_endpoint Media.set_endpoint_b media_id callee_webrtc
          (ip <$> ((call : option B2bua.B2buaCall) ≫= B2bua.callee_dest)) callee_sdp;
    _ ← match callee_sdp with Some d => on_media (Media.set_callee_sdp media_id d) | None => skip end;
    pwd ← gets (fun s => B2bua.get_webrtc_ice_pwd uuid (b2bua s));
    _ ← match (pwd : option string) with
        | Some pwd => if (caller_webrtc : bool) then on_media (Media.set_ice_pwd_local media_id pwd) else skip
        | None => skip
        end;
    bound ← draw_bind E;
    started ← media_op (Media.start_rtp_session bound media_id);
    match started : sbc_result Media.RelayPlan with
    | Ok plan => _ ← (if Media.webrtc_a plan then generate_webrtc_answer uuid media_id else skip); mret false
    | Err _ => mret true
    end.

Definition with_body (r : Response) (body : string) : Response :=
  update_content_length_response (mkResponse (rs_status r) (rs_headers r) body).

(** The SDP with the relay's address, or only the address without a session. *)
Definition proxied (uuid sdp : string) : M string :=
  mid ← gets (fun s => B2bua.get_media_session_id uuid (b2bua s));
  gets (fun s => match id ← (mid : option string); Media.get_session id (media s) with
                 | Some x => Media.rewrite_sdp_for_proxy (ip_text E) (media_ip E) sdp (PortAllocator.rtp (Media.ports x))
                 | None => Media.rewrite_sdp_ip (ip_text E) (media_ip E) sdp
                 end).

Definition rewritten_answer (uuid : string) (r : Response) : M Response :=
  caller_webrtc ← gets (fun s => B2bua.is_caller_webrtc uuid (b2bua s));
  callee_webrtc ← gets (fun s => B2bua.is_callee_webrtc uuid (b2bua s));
  pre ← gets (fun s => B2bua.get_webrtc_sdp_answer uuid (b2bua s));
  if (caller_webrtc : bool) then
    match (pre : option string), body_text r with
    | Some sdp, _ => mret (with_body r sdp)
    | None, Some sdp => new ← proxied uuid sdp; mret (with_body r new)
    | None, None => mret r
    end
  else
    match body_text r with
    | None => mret r
    | Some sdp =>
        if (callee_webrtc : bool) then
          i ← gets identity_ip;
          mid ← gets (fun s => B2bua.get_media_session_id uuid (b2bua s));
          p ← gets (leg_a_port mid);
          mret (with_body r (Sdp.transform_webrtc_to_trunk sdp i p))
        else
          new ← proxied uuid sdp;
          _ ← on_b2bua (B2bua.set_last_sdp_to_caller uuid new);
          mret (with_body r new)
    end.

(** The caller is told on its own transaction. *)
Definition relay_to_caller (uuid what raw : string) (caller_cseq : option Z) (info : option nat * SocketAddr * Transport) : M unit :=
  let '(tx, a, tp) := info in
  vias ← gets (fun s => B2bua.get_caller_vias uuid (b2bua s));
  id ← gets identity;
  send_to what (rewrite_response_for_caller raw vias id caller_cseq) a tp tx.

Definition note_answer (uuid : string) : M unit :=
  name ← outbound_trunk_of uuid;
  match name : option string with Some n => note_trunk_success n | None => skip end.

Definition record_answer (uuid : string) (response : Response) (callee_sdp : option string) : M unit :=
  let tag := default "" (header_of HTo (rs_headers response) ≫= to_tag (parser E)) in
  w ← gets wall;
  es ← b2bua_op (fun m => let '((_, es), m) := B2bua.handle_200_ok uuid w tag callee_sdp m in (es, m));
  _ ← emit E es;
  match callee_sdp ≫= Sdp.negotiated_audio_codec with
  | Some codec => on_b2bua (B2bua.set_codec uuid codec)
  | None => skip
  end.

Definition end_without_media (uuid : string) : M unit :=
  addr ← sbc_addr;
  let '(sbc_ip, sbc_port) := addr : string * Z in
  b ← draw E;
  out ← gets (fun s => B2bua.ack_for_answered_callee (show_addr E) b uuid sbc_ip sbc_port (b2bua s));
  _ ← match out : option (string * SocketAddr * Transport * option nat) with
      | Some (ack, dest, tp, tx) => send_to "ACK (media unavailable) → callee" ack dest tp tx
      | None => skip
      end;
  tear_down E Cdr.MediaUnavailable uuid.

Definition handle_answer (uuid : string) (response : Response) (caller_info : CallerInfo) (caller_cseq : option Z) : M unit :=
  let callee_sdp := body_text response in
  caller_sdp ← gets (fun s => c ← B2bua.calls (b2bua s) !! uuid; B2bua.caller_sdp c);
  media_id ← gets (fun s => c ← B2bua.calls (b2bua s) !! uuid; B2bua.media_session_id c);
  _ ← note_answer uuid;
  _ ← record_answer uuid response callee_sdp;
  _ ← set_established_dialog uuid response;
  _ ← arm_session_timer uuid response;
  relay_failed ← match media_id : option string with
                 | Some id => start_media uuid id caller_sdp callee_sdp
                 | None => mret false
                 end;
  _ ← match caller_info with
      | Some info =>
          r ← rewritten_answer uuid response;
          relay_to_caller uuid "200 OK → caller" (raw_of r) caller_cseq info
      | None => skip
      end;
  if (relay_failed : bool) then end_without_media uuid else skip.

(** ** Progress and refusal *)

Definition handle_progress (uuid : string) (response : Response) (caller_info : CallerInfo) (caller_cseq : option Z) : M unit :=
  let status := rs_status response in
  t ← gets now;
  _ ← (if 180 <=? status
       then on_b2bua (fun m => B2bua.mark_alerting uuid t (B2bua.mark_provisional_received uuid m)) else skip);
  _ ← b2bua_op (B2bua.handle_ringing uuid);
  match caller_info with
  | Some (tx, a, tp) =>
      vias ← gets (fun s => B2bua.get_caller_vias uuid (b2bua s));
      id ← gets identity;
      webrtc ← gets (fun s => B2bua.is_caller_webrtc uuid (b2bua s));
      let raw := rewrite_response_for_caller (raw_of response) vias id caller_cseq in
      let raw := if (status =? 183) && (webrtc : bool) then strip_sdp_body raw else raw in
      send_to "1xx → caller" raw a tp tx
  | None => skip
  end.

(** The 503 the caller sees in place of a 407. *)
Definition hide_challenge (raw : string) : string :=
  match Topology.parse raw with
  | Ok m => Topology.render (Topology.remove_header "www-authenticate" (Topology.remove_header "proxy-authenticate"
              (Topology.mkMsg "SIP/2.0 503 Service Unavailable" (Topology.headers m) (Topology.body m))))
  | Err _ => build_plain_response 503 "Service Unavailable"
  end.

Definition is_trunk_failure (status : Z) : bool := (status =? 408) || ((500 <=? status) && (status <=? 699)).

(** The candidate looked at is put back for the failover to take. *)
Definition put_back (next : Trunk.TrunkId) (c : B2bua.B2buaCall) : B2bua.B2buaCall :=
  c <| B2bua.failover := (fun fo => fo <| B2bua.candidates := next :: B2bua.candidates fo |>
                                       <| B2bua.fo_attempt := sat_sub (B2bua.fo_attempt fo) 1 |>) <$> B2bua.failover c |>.

Definition strike_trunk (uuid : string) (response : Response) : M unit :=
  let status := rs_status response in
  name ← outbound_trunk_of uuid;
  match name : option string with
  | Some n => if Trunk.is_trunk_strike_code status
              then note_trunk_failure n (if status =? 503 then Trunk.retry_after_secs (raw_of response) else None)
              else skip
  | None => skip
  end.

(** Whether the call moved to another trunk. *)
Definition fail_over_after (uuid : string) (response : Response) : M bool :=
  if is_trunk_failure (rs_status response) then
    _ ← strike_trunk uuid response;
    t ← gets now;
    next ← b2bua_op (B2bua.take_next_failover_candidate uuid t);
    match next : option Trunk.TrunkId with
    | Some next => _ ← on_b2bua (B2bua.with_call uuid (put_back next)); failover_to_next_trunk uuid
    | None => mret false
    end
  else mret false.

Definition conclude (uuid : string) (response : Response) (source : SocketAddr) (caller_info : CallerInfo)
    (caller_cseq : option Z) : M unit :=
  let status := rs_status response in
  if is_provisional status then handle_progress uuid response caller_info caller_cseq
  else if is_success status then handle_answer uuid response caller_info caller_cseq
  else if status =? 407 then
    ok ← handle_407_auth_retry uuid response source;
    if (ok : bool) then skip
    else relay_error_and_terminate uuid (hide_challenge (raw_of response)) caller_info caller_cseq
  else if status =? 422 then
    ok ← handle_422_session_interval_retry uuid response source;
    if (ok : bool) then skip else relay_error_and_terminate uuid (raw_of response) caller_info caller_cseq
  else
    ok ← fail_over_after uuid response;
    if (ok : bool) then skip else relay_error_and_terminate uuid (raw_of response) caller_info caller_cseq.

(** A response to a dialog already torn down. *)
Definition stray_response (call_id : string) (response : Response) (tx : option nat) : M unit :=
  let status := rs_status response in
  let to := value_or_empty HTo response in
  match response_cseq response with
  | Some (n, m) =>
      if (200 <=? status) && eq_ignore_ascii_case m "INVITE" then
        attempt ← gets (fun s => B2bua.recent_attempt_for_call_id (now s) call_id (b2bua s));
        match attempt : option B2bua.InviteAttempt with
        | Some a =>
            if B2bua.a_cseq a =? n then
              if status <? 300 then
                ack_and_bye_answered_dialog a response n to tx (Cdr.q850 "31" "Call already cancelled")
              else match SipBuilder.build_ack_for_non_2xx (B2bua.a_raw a) to with
                   | Some ack => send_to "ACK (after teardown) → callee" ack (B2bua.a_dest a) (B2bua.a_transport a) tx
                   | None => skip
                   end
            else skip
        | None => skip
        end
      else skip
  | None => skip
  end.

(** A task that registers or probes a trunk gets its response. *)
Definition route_task_response (call_id : string) (response : Response) : M unit :=
  modify (fun s =>
    if bool_decide (call_id ∈ pending_register_responses s)
    then s <| pending_register_responses := pending_register_responses s ∖ {[call_id]} |>
           <| trunk_replies := trunk_replies s ++ [(call_id, raw_of response)] |>
    else s).

Definition handle_response (response : Response) (source : SocketAddr) (tx : option nat) : M unit :=
  let call_id := value_or_empty HCallId response in
  if starts_with "reg-" call_id || starts_with "hc-" call_id then route_task_response call_id response
  else
    found ← gets (fun s => B2bua.find_by_inbound_call_id call_id (b2bua s));
    match found : option string with
    | None => stray_response call_id response tx
    | Some uuid =>
        caller_info ← gets (fun s => B2bua.get_caller_reply_info uuid (b2bua s));
        caller_cseq ← gets (fun s => B2bua.get_caller_invite_cseq uuid (b2bua s));
        match response_cseq response with
        | Some (n, m) =>
            if negb (eq_ignore_ascii_case m "INVITE") then skip
            else
              consumed ← invite_prelude uuid response n;
              if (consumed : bool) then skip else conclude uuid response source caller_info caller_cseq
        | None => conclude uuid response source caller_info caller_cseq
        end
    end.

(** ** The failover ends, with the INVITE on its way or not at all *)

Lemma send_request_spec what data d t tx s :
  let '(ok, s') := send_request_tracked E what data d t tx s in
  ok = net E (length (wire s)) /\ wire s' = wire s ++ [mkSent what data d t tx ok] /\
  b2bua s' = b2bua s /\ trunk_manager s' = trunk_manager s.
Proof. unfold send_request_tracked, transmit, mbind, M_bind. by destruct (net E (length (wire s))). Qed.

Lemma bind_draw {A} (f : string -> M A) s : (draw E ≫= f) s = f (rand E (drawn s)) (s <| drawn := S (drawn s) |>).
Proof. done. Qed.

Lemma failure_b2bua n ra s : b2bua (note_trunk_failure n ra s).2 = b2bua s.
Proof. unfold note_trunk_failure. by destruct (Trunk.note_trunk_failure _ _ _ _) as [[[]|] m]. Qed.

Lemma last_push now raw d t tr c :
  last (B2bua.invite_attempts (B2bua.push_attempt now raw d t tr c))
  = Some (B2bua.mkAttempt raw (SipBuilder.top_via_branch raw) (default 1 (B2bua.parse_cseq_number raw)) d t tr).
Proof.
  unfold B2bua.push_attempt. cbn. set (l := B2bua.invite_attempts c). set (a := B2bua.mkAttempt _ _ _ _ _ _).
  case_match eqn:Hn; [|apply last_snoc]. destruct l as [|x l]; [by vm_compute in Hn|]. apply (last_snoc a l).
Qed.

Lemma bind_on_b2bua {A} f (k : unit -> M A) s : (on_b2bua f ≫= k) s = k tt (s <| b2bua := f (b2bua s) |>).
Proof. done. Qed.

Lemma b2bua_twice s m f : (s <| b2bua := m |>) <| b2bua := f (b2bua (s <| b2bua := m |>)) |> = s <| b2bua := f m |>.
Proof. done. Qed.

(** The call's last INVITE was handed to the transport. *)
Definition invite_sent (uuid : string) (s : Sbc) : Prop :=
  exists c a m, B2bua.calls (b2bua s) !! uuid = Some c /\ last (B2bua.invite_attempts c) = Some a /\
    m ∈ wire s /\ s_ok m = true /\ s_data m = B2bua.a_raw a /\ s_dest m = B2bua.a_dest a /\ s_transport m = B2bua.a_transport a.

Definition on_trunk (uuid : string) (s : Sbc) : Prop :=
  exists c n, B2bua.calls (b2bua s) !! uuid = Some c /\ B2bua.trunk_name c = Some n /\ B2bua.trunk_counted c = Some n.

Lemma candidates_taken uuid t s next m :
  B2bua.take_next_failover_candidate uuid t (b2bua s) = (Some next, m) ->
  S (candidates_left uuid (s <| b2bua := m |>)) = candidates_left uuid s.
Proof.
  unfold B2bua.take_next_failover_candidate, B2bua.on_call, candidates_left. cbn.
  destruct (B2bua.calls (b2bua s) !! uuid) as [c|] eqn:Hc; [|done]. unfold B2bua.take_next.
  destruct (B2bua.failover c) as [fo|] eqn:Hf; [|done]. destruct (B2bua.provisional_received fo); [done|].
  destruct (B2bua.candidates fo) as [|x l] eqn:Hl; [done|]. intros [= <- <-]. cbn. rewrite lookup_insert_eq. cbn.
  by rewrite Hf, Hl.
Qed.

Lemma with_call_eq uuid f m : B2bua.calls (B2bua.with_call uuid f m) !! uuid = f <$> B2bua.calls m !! uuid.
Proof. unfold B2bua.with_call. apply lookup_alter_eq. Qed.

Lemma moved_attempts tr d c : B2bua.invite_attempts (moved_to tr d c) = B2bua.invite_attempts c.
Proof. done. Qed.

Lemma reset_attempts c : B2bua.invite_attempts (c <| B2bua.auth_retry_count := 0 |>) = B2bua.invite_attempts c.
Proof. done. Qed.

Lemma moved_name tr d c : B2bua.trunk_name (moved_to tr d c) = Some (Trunk.name tr).
Proof. done. Qed.

(** What the last step of a failover leaves. *)
Lemma moved_spec uuid t raw d tr s c :
  B2bua.calls (b2bua s) !! uuid = Some c ->
  let s1 := s <| b2bua := B2bua.with_call uuid (moved_to tr d)
                            (B2bua.reset_auth_retry uuid
                              (B2bua.push_invite_attempt uuid t raw d (Trunk.to_rsip_transport (Trunk.transport tr))
                                (Some (Trunk.id tr)) (b2bua s))) |> in
  let s' := (count_call_on_trunk uuid (Some (Trunk.name tr)) s1).2 in
  wire s' = wire s /\
  exists c', B2bua.calls (b2bua s') !! uuid = Some c' /\
    last (B2bua.invite_attempts c') = Some (B2bua.mkAttempt raw (SipBuilder.top_via_branch raw)
      (default 1 (B2bua.parse_cseq_number raw)) d (Trunk.to_rsip_transport (Trunk.transport tr)) (Some (Trunk.id tr))) /\
    B2bua.trunk_name c' = Some (Trunk.name tr) /\ B2bua.trunk_counted c' = Some (Trunk.name tr).
Proof.
  intros Hc s1.
  assert (H1 : exists c1, B2bua.calls (b2bua s1) !! uuid = Some (moved_to tr d c1) /\
    B2bua.invite_attempts c1 = B2bua.invite_attempts (B2bua.push_attempt t raw d (Trunk.to_rsip_transport (Trunk.transport tr))
      (Some (Trunk.id tr)) c)).
  { change (b2bua s1) with (B2bua.with_call uuid (moved_to tr d)
      (B2bua.reset_auth_retry uuid
        (B2bua.push_invite_attempt uuid t raw d (Trunk.to_rsip_transport (Trunk.transport tr)) (Some (Trunk.id tr)) (b2bua s)))).
    unfold B2bua.reset_auth_retry, B2bua.push_invite_attempt. rewrite !with_call_eq, Hc. cbn [fmap option_fmap option_map].
    eexists. split; [reflexivity|]. apply reset_attempts. }
  destruct H1 as (c1 & H1 & Ha). assert (Hw : wire s1 = wire s) by done. clearbody s1. rewrite <- Hw. clear Hw.
  assert (Hl := last_push t raw d (Trunk.to_rsip_transport (Trunk.transport tr)) (Some (Trunk.id tr)) c).
  rewrite <- Ha, <- (moved_attempts tr d) in Hl. assert (Hn := moved_name tr d c1). clear Ha Hc.
  generalize dependent (moved_to tr d c1). intros c2 H1 Hl Hn. clear c1.
  unfold count_call_on_trunk. rewrite H1. case_bool_decide as Ht; cbn [snd]; (split; [done|]).
  - by exists c2.
  - change (b2bua (_ <| trunk_manager := _ |>))
      with (B2bua.with_call uuid (fun c => c <| B2bua.trunk_counted := Some (Trunk.name tr) |>) (b2bua s1)).
    rewrite with_call_eq, H1. eexists. split; [reflexivity|]. by split_and!.
Qed.

(** The loop with fuel for every candidate. *)
Lemma failover_loop_spec fuel uuid s :
  (candidates_left uuid s < fuel)%nat ->
  let '(r, s') := failover_loop fuel uuid s in
  r = Some false \/ (r = Some true /\ invite_sent uuid s' /\ on_trunk uuid s').
Proof.
  revert s. induction fuel as [|fuel IH]; intros s Hf; [lia|]. cbn [failover_loop].
  unfold gets, mbind at 1 2, M_bind at 1 2. unfold b2bua_op.
  destruct (B2bua.take_next_failover_candidate uuid (now s) (b2bua s)) as [[next|] m] eqn:Hn; [|by left].
  assert (Hleft := candidates_taken uuid (now s) s next m Hn). set (s1 := s <| b2bua := m |>) in *. clearbody s1.
  assert (IH1 := IH s1 ltac:(lia)).
  unfold mbind at 1, M_bind at 1. destruct (Trunk.get_trunk next (trunk_manager s1)) as [tr|]; [|exact IH1].
  destruct (Trunk.destination (parse_addr E) tr) as [d|]; [|exact IH1]. cbv zeta. destruct (_ || _); [exact IH1|].
  unfold call_of, gets, mbind at 1, M_bind at 1.
  destruct (B2bua.calls (b2bua s1) !! uuid) as [c|] eqn:Hc; [|by left]. cbn [mbind option_bind].
  destruct (B2bua.original_outbound_invite c) as [stored|]; [|by left].
  destruct stored as [|ch rest]; [by left|]. set (stored := String ch rest). clearbody stored. clear ch rest.
  rewrite bind_draw. set (s2 := s1 <| drawn := _ |>).
  assert (H2 : b2bua s2 = b2bua s1) by done. clearbody s2.
  unfold mbind at 1, M_bind at 1.
  match goal with |- context [match ?m s2 with _ => _ end] => assert (H3 : b2bua (m s2).2 = b2bua s2); [|destruct (m s2) as [[] s3]] end.
  { destruct (SipBuilder.build_cancel stored) as [cancel|]; [|done]. destruct (B2bua.callee_dest c) as [cd|]; [|done].
    assert (Hs := send_request_spec "CANCEL (failover) → previous attempt" cancel cd (B2bua.callee_transport c) (B2bua.callee_reply_tx c) s2).
    unfold mbind, M_bind. destruct (send_request_tracked _ _ _ _ _ _ s2). by destruct Hs as (_ & _ & ? & _). }
  cbn [snd] in H3. destruct (retarget_invite_for_trunk _ stored tr) as [invite|]; [|by left].
  unfold mbind at 1, M_bind at 1.
  set (tp := Trunk.to_rsip_transport (Trunk.transport tr)).
  assert (Hs := send_request_spec "INVITE (failover) → trunk" invite d tp None s3).
  destruct (send_request_tracked _ _ _ _ _ _ s3) as [ok s4]. destruct Hs as (Hok & Hw & H4 & _).
  destruct ok; cbn [negb].
  - assert (Hc4 : B2bua.calls (b2bua s4) !! uuid = Some c) by by rewrite H4, H3, H2.
    destruct (moved_spec uuid (now s) invite d tr s4 c Hc4) as [Hw6 (c' & Hc' & Ha' & Hn' & Ht')].
    rewrite !bind_on_b2bua, !b2bua_twice. unfold mbind, M_bind.
    destruct (count_call_on_trunk _ _ _) as [[] s6]. cbn [snd] in *. right. split; [done|]. split.
    + eexists c', _, (mkSent "INVITE (failover) → trunk" invite d tp None true). rewrite Hw6, Hw.
      split_and!; [exact Hc'|exact Ha'| |done..]. apply elem_of_app. right. apply list_elem_of_singleton. by rewrite Hok.
    + by exists c', (Trunk.name tr).
  - unfold mbind at 1, M_bind at 1. assert (H5 := failure_b2bua (Trunk.name tr) None s4).
    destruct (note_trunk_failure (Trunk.name tr) None s4) as [[] s5]. cbn [snd] in H5. apply IH.
    unfold candidates_left in *. rewrite H5, H4, H3, H2. lia.
Qed.

(** C8: a failover comes to an end: its loop looks at each candidate left once
    and never runs out of fuel; when it says that the call has moved, the
    call's last INVITE was taken by the transport, and the call counts on the
    trunk it names. *)
Theorem failover_concludes uuid s :
  exists moved s',
    failover_loop (S (candidates_left uuid s)) uuid s = (Some moved, s') /\ failover_to_next_trunk uuid s = (moved, s') /\
    if moved then invite_sent uuid s' /\ on_trunk uuid s' else True.
Proof.
  assert (H := failover_loop_spec (S (candidates_left uuid s)) uuid s ltac:(lia)).
  unfold failover_to_next_trunk, gets. unfold mbind, M_bind.
  destruct (failover_loop (S (candidates_left uuid s)) uuid s) as [r s']. destruct H as [->|[-> H]]; by eexists _, _.
Qed.

(** ** What a response keeps

    A response ends calls through [finish_call] and otherwise leaves which
    calls there are, how they are counted and their ports alone. *)

Section kept.
Context (R : relation Sbc) `{HR : !Kept E R}.

Lemma finish_keeps u o : keeps R (finish_call E u o).
Proof. apply (kept_finish E). Qed.
Lemma count_keeps u t : keeps R (count_call_on_trunk u t).
Proof. apply (kept_count E). Qed.
Lemma failure_keeps n ra : keeps R (note_trunk_failure n ra).
Proof. apply (kept_failure E). Qed.
Lemma success_keeps n : keeps R (note_trunk_success n).
Proof. apply (kept_success E). Qed.
#[local] Instance kept_order : PreOrder R := kept_preorder E.

Lemma on_b2bua_keeps f : (forall m, same_calls m (f m)) -> keeps R (on_b2bua f).
Proof. intros Hf s. apply (kept_calls E s (f (b2bua s))), Hf. Qed.

Lemma b2bua_op_keeps {A} (f : B2bua.B2buaManager -> A * B2bua.B2buaManager) :
  (forall m, same_calls m (f m).2) -> keeps R (b2bua_op f).
Proof. intros Hf s. unfold b2bua_op. specialize (Hf (b2bua s)). destruct (f (b2bua s)) as [a m]. by apply (kept_calls E s m). Qed.

Lemma on_media_keeps f : (forall m, same_sessions m (f m)) -> keeps R (on_media f).
Proof. intros Hf s. apply (kept_media E s (f (media s))), Hf. Qed.

Lemma media_op_keeps {A} (f : Media.MediaManager -> A * Media.MediaManager) :
  (forall m, same_sessions m (f m).2) -> keeps R (media_op f).
Proof. intros Hf s. unfold media_op. specialize (Hf (media s)). destruct (f (media s)) as [a m]. by apply (kept_media E s m). Qed.

Lemma draw_keeps : keeps R (draw E).
Proof. apply (kept_sends E). intros s. apply draw_sends. Qed.

Lemma draw_ms_keeps : keeps R (draw_ms E).
Proof. apply (kept_sends E). by intros s. Qed.

Lemma draw_bind_keeps : keeps R (draw_bind E).
Proof. apply (kept_sends E). by intros s. Qed.

Lemma send_to_keeps what m d t tx : keeps R (send_to what m d t tx).
Proof. apply (kept_sends E). unfold send_to. keeping. Qed.

Lemma request_keeps what m d t tx : keeps R (send_request_tracked E what m d t tx).
Proof. apply (kept_sends E), send_request_sends. Qed.

#[local] Hint Resolve draw_keeps draw_ms_keeps draw_bind_keeps send_to_keeps request_keeps finish_keeps count_keeps failure_keeps
  success_keeps : keep.

Lemma take_next_same u t m : same_calls m (B2bua.take_next_failover_candidate u t m).2.
Proof.
  apply same_on_call. intros c. unfold B2bua.take_next. destruct (B2bua.failover c) as [fo|]; [|done].
  destruct (B2bua.provisional_received fo); [done|]. by destruct (B2bua.candidates fo).
Qed.

Lemma push_same u n raw d t tr m : same_calls m (B2bua.push_invite_attempt u n raw d t tr m).
Proof. by apply same_with_call. Qed.

Lemma same_trans m1 m2 m3 : same_calls m1 m2 -> same_calls m2 m3 -> same_calls m1 m3.
Proof. unfold same_calls. congruence. Qed.

Lemma take_keeps u t : keeps R (b2bua_op (B2bua.take_next_failover_candidate u t)).
Proof. apply b2bua_op_keeps, take_next_same. Qed.

Lemma update_keeps u f : (forall c, ident_of (f c) = ident_of c) -> keeps R (on_b2bua (B2bua.with_call u f)).
Proof. intros Hf. apply on_b2bua_keeps. intros m. by apply same_with_call. Qed.

Lemma push_keeps u n raw d t tr : keeps R (on_b2bua (B2bua.push_invite_attempt u n raw d t tr)).
Proof. by apply update_keeps. Qed.

Lemma reset_keeps u : keeps R (on_b2bua (B2bua.reset_auth_retry u)).
Proof. by apply update_keeps. Qed.

Lemma moved_keeps u tr d : keeps R (on_b2bua (B2bua.with_call u (moved_to tr d))).
Proof. by apply update_keeps. Qed.

#[local] Hint Resolve take_keeps push_keeps reset_keeps moved_keeps : keep.

Lemma failover_loop_keeps fuel u : keeps R (failover_loop fuel u).
Proof.
  induction fuel as [|fuel IH]; [apply keeps_ret, _|]. cbn [failover_loop]. keeping.
Qed.
#[local] Hint Resolve failover_loop_keeps : keep.

Lemma failover_keeps u : keeps R (failover_to_next_trunk u).
Proof. unfold failover_to_next_trunk. keeping. Qed.
#[local] Hint Resolve failover_keeps : keep.

Lemma invite_failover_keeps : keeps R check_invite_failover.
Proof. unfold check_invite_failover, silent_outbound_trunk_of. keeping. Qed.

Lemma same_on_session id f m : (forall x, Media.pairs_of (f x) = Media.pairs_of x) -> same_sessions m (Media.on_session id f m).
Proof.
  intros Hf. split; [done|]. unfold Media.on_session. cbn. apply map_eq. intros k. rewrite !lookup_fmap.
  destruct (decide (id = k)) as [<-|]; [rewrite lookup_alter_eq|by rewrite lookup_alter_ne].
  destruct (Media.sessions m !! id); [|done]. cbn. by rewrite Hf.
Qed.

Lemma update_callee_same id sdp m : same_sessions m (Media.update_callee_sdp (ip_text E) (media_ip E) id sdp m).2.
Proof.
  unfold Media.update_callee_sdp. destruct (Media.get_session id m); [|done]. destruct (Media.modify_sdp _ _ _ _); [|done].
  by apply same_on_session.
Qed.

Lemma start_rtp_same bound id m : same_sessions m (Media.start_rtp_session bound id m).2.
Proof.
  unfold Media.start_rtp_session. destruct (Media.get_session id m); [|done]. destruct bound; [|done]. cbn [negb snd].
  destruct (same_on_session id (fun s => s <| Media.relaying := true |>)
    (m <| Media.media_stats := <[id := Media.mkStats 0 0 0 0]> (Media.media_stats m) |>)) as [H1 H2]; [done|].
  split; [exact H1|exact H2].
Qed.

Lemma set_endpoint_keeps (set : string -> SocketAddr -> Media.MediaManager -> sbc_result unit * Media.MediaManager) id w p sdp :
  (forall a m, same_sessions m (set id a m).2) -> keeps R (set_endpoint set id w p sdp).
Proof. intros Hs. unfold set_endpoint. destruct w; keeping. by apply on_media_keeps. Qed.

Lemma perform_keeps e : (forall id, e <> B2bua.TerminateSession id) -> keeps R (modify (perform E e)).
Proof.
  intros He s. unfold modify, perform. cbn [snd]. destruct e as [id sdp|id|u c|u|u d r]; try apply (kept_effects E s).
  - transitivity (s <| media := (Media.update_callee_sdp (ip_text E) (media_ip E) id sdp (media s)).2 |>);
      [apply (kept_media E s), update_callee_same|].
    apply (kept_effects E (s <| media := (Media.update_callee_sdp (ip_text E) (media_ip E) id sdp (media s)).2 |>)).
  - by destruct (He id).
Qed.

Lemma keeps_bind_val {A B} (P : A -> Prop) (m : M A) (f : A -> M B) :
  keeps R m -> (forall s, P (m s).1) -> (forall a, P a -> keeps R (f a)) -> keeps R (m ≫= f).
Proof.
  intros Hm HP Hf s. unfold mbind, M_bind. specialize (Hm s). specialize (HP s). destruct (m s) as [a s']. etrans; [exact Hm|]. by apply Hf.
Qed.

Lemma established_ident tag sdp c : ident_of (B2bua.establish_outbound tag (c <| B2bua.callee_sdp := sdp |>)) = ident_of c.
Proof. unfold B2bua.establish_outbound. destruct (B2bua.outbound _); cbv zeta; by case_match. Qed.

Lemma record_answer_keeps u r sdp : keeps R (record_answer u r sdp).
Proof.
  unfold record_answer. apply keeps_bind; [apply _|apply keeps_gets, _|intros w].
  apply (keeps_bind_val (Forall (fun e => forall id, e <> B2bua.TerminateSession id))).
  - apply b2bua_op_keeps. intros m. unfold B2bua.handle_200_ok. destruct (B2bua.calls m !! u) as [c|]; [|done].
    apply (same_with_call u). intros x. unfold B2bua.answer. rewrite <- (established_ident (default "" (header_of HTo (rs_headers r) ≫= to_tag (parser E))) sdp x).
    generalize (B2bua.establish_outbound (default "" (header_of HTo (rs_headers r) ≫= to_tag (parser E))) (x <| B2bua.callee_sdp := sdp |>)).
    intros y. by case_match.
  - intros s. unfold b2bua_op, B2bua.handle_200_ok. destruct (B2bua.calls (b2bua s) !! u) as [c|]; [|by constructor]. cbn [fst].
    apply Forall_app. split; [destruct (B2bua.media_session_id c), sdp|destruct (B2bua.answered_at c)]; by repeat constructor.
  - intros es Hes. keeping.
    + apply keeps_for_each; [apply _|]. intros e He. rewrite Forall_forall in Hes. by apply perform_keeps, Hes.
    + apply update_keeps. intros x. by destruct (B2bua.codec x).
Qed.
#[local] Hint Resolve record_answer_keeps : keep.

Lemma tear_down_keeps o u : keeps R (tear_down E o u).
Proof. exact (keeps_tear_down E R o u). Qed.

Lemma orphan_keeps a r n to tx why : keeps R (ack_and_bye_answered_dialog a r n to tx why).
Proof. unfold ack_and_bye_answered_dialog. keeping. Qed.

Lemma lost_keeps u st : keeps R (teardown_lost_dialog u st).
Proof.
  unfold teardown_lost_dialog. keeping. apply b2bua_op_keeps. intros m. apply same_on_call. intros c.
  unfold B2bua.relay_bye_toward_caller. by destruct (B2bua.dialog_info_toward_caller _ _ _ _).
Qed.

Lemma relay_error_keeps u raw i n : keeps R (relay_error_and_terminate u raw i n).
Proof. unfold relay_error_and_terminate. keeping. Qed.

Lemma ack_final_keeps u to : keeps R (ack_callee_final u to).
Proof. unfold ack_callee_final. keeping. Qed.

Lemma stale_keeps u st n r to a : keeps R (handle_stale_invite_response u st n r to a).
Proof. unfold handle_stale_invite_response. keeping; apply orphan_keeps. Qed.
#[local] Hint Resolve tear_down_keeps orphan_keeps lost_keeps relay_error_keeps ack_final_keeps stale_keeps : keep.

Lemma complete_refresh_ident b n i p c : ident_of (B2bua.complete_refresh (show_addr E) b n i p c).2 = ident_of c.
Proof. unfold B2bua.complete_refresh. destruct (B2bua.session_timer c); [|done]. by destruct (negb _). Qed.

Lemma fail_refresh_ident t d n st se to c : ident_of (B2bua.fail_refresh t d n st se to c).2 = ident_of c.
Proof.
  unfold B2bua.fail_refresh. destruct (B2bua.session_timer c); [|done]. destruct (negb _); [done|]. destruct (st =? 491); [done|].
  destruct (_ || _); [done|]. by destruct (B2bua.reject_refresh _ _ _ _).
Qed.

Lemma refresh_response_keeps u st n raw to : keeps R (handle_refresh_response u st n raw to).
Proof.
  unfold handle_refresh_response. keeping; apply b2bua_op_keeps; intros m; apply same_on_call; intros x;
    [apply complete_refresh_ident|apply fail_refresh_ident].
Qed.

Lemma responded_keeps u : keeps R (on_b2bua (B2bua.mark_callee_responded u)).
Proof. by apply update_keeps. Qed.
#[local] Hint Resolve refresh_response_keeps responded_keeps : keep.

Lemma prelude_keeps u r n : keeps R (invite_prelude u r n).
Proof. unfold invite_prelude. keeping. Qed.

Lemma resend_keeps u what inv d t tx tr commit : (forall m, same_calls m (commit m)) -> keeps R (resend_invite u what inv d t tx tr commit).
Proof.
  intros Hc. unfold resend_invite. keeping. intros; apply on_b2bua_keeps. intros m. eapply same_trans; [apply Hc|apply push_same].
Qed.

Lemma retry_422_keeps u r src : keeps R (handle_422_session_interval_retry u r src).
Proof.
  unfold handle_422_session_interval_retry. keeping. intros; apply resend_keeps. intros m. eapply same_trans; by apply same_with_call.
Qed.

Lemma retry_407_keeps u r src : keeps R (handle_407_auth_retry u r src).
Proof. unfold handle_407_auth_retry. keeping. intros; apply resend_keeps. intros m. by apply same_with_call. Qed.

Lemma established_keeps u r : keeps R (set_established_dialog u r).
Proof. unfold set_established_dialog. keeping. by apply update_keeps. Qed.

Lemma arm_keeps u r : keeps R (arm_session_timer u r).
Proof. unfold arm_session_timer. keeping. by apply update_keeps. Qed.

Lemma media_update_keeps f id : (forall x, Media.pairs_of (f x) = Media.pairs_of x) -> keeps R (on_media (Media.on_session id f)).
Proof. intros Hf. apply on_media_keeps. intros m. by apply same_on_session. Qed.

Lemma start_media_keeps u id a b : keeps R (start_media u id a b).
Proof.
  unfold start_media, generate_webrtc_answer. keeping.
  1, 2: apply set_endpoint_keeps; intros x m; by apply same_on_session.
  1, 2: by apply media_update_keeps.
  - apply media_op_keeps. intros m. apply start_rtp_same.
  - intros; by apply update_keeps.
Qed.

Lemma rewritten_keeps u r : keeps R (rewritten_answer u r).
Proof. unfold rewritten_answer, proxied. keeping. by apply update_keeps. Qed.
#[local] Hint Resolve prelude_keeps retry_422_keeps retry_407_keeps established_keeps arm_keeps start_media_keeps rewritten_keeps : keep.

Lemma answer_keeps u r i n : keeps R (handle_answer u r i n).
Proof. unfold handle_answer, note_answer, outbound_trunk_of, relay_to_caller, end_without_media. keeping. Qed.

Lemma progress_keeps u r i n : keeps R (handle_progress u r i n).
Proof.
  unfold handle_progress. keeping.
  - apply on_b2bua_keeps. intros m. eapply same_trans; by apply same_with_call.
  - apply b2bua_op_keeps. intros m. unfold B2bua.handle_ringing. destruct (B2bua.calls m !! u); [|done]. by apply (same_with_call u).
Qed.

Lemma fail_over_keeps u r : keeps R (fail_over_after u r).
Proof. unfold fail_over_after, strike_trunk, outbound_trunk_of. keeping. by apply update_keeps. Qed.
#[local] Hint Resolve answer_keeps progress_keeps fail_over_keeps : keep.

Lemma conclude_keeps u r src i n : keeps R (conclude u r src i n).
Proof. unfold conclude. keeping. Qed.

Lemma stray_keeps cid r tx : keeps R (stray_response cid r tx).
Proof. unfold stray_response. keeping. Qed.
#[local] Hint Resolve conclude_keeps stray_keeps : keep.

Lemma response_keeps r src tx : keeps R (handle_response r src tx).
Proof.
  unfold handle_response. keeping. intros s. unfold route_task_response, modify. cbn [snd]. case_bool_decide; [|reflexivity].
  apply (kept_routed E s).
Qed.
End kept.
End env.

#[export] Hint Resolve draw_keeps draw_ms_keeps draw_bind_keeps send_to_keeps request_keeps finish_keeps count_keeps failure_keeps
  success_keeps failover_keeps tear_down_keeps push_keeps reset_keeps : keep.
