(* ===== verification/CallHandler.v ===== *)
(** * Requests inside a call (sbc/call_handler.rs)

    ACK, BYE, CANCEL, INFO, REFER and re-INVITE; the loss of a WebSocket
    connection; the session refreshes. REGISTER and INVITE have files of their
    own. *)

From S2P Require Import Prelude Str Bytes Net Sbc Messages Invite Teardown ResponseHandler.
From S2P Require SipUri SipBuilder Topology Trunk B2bua Cdr Auth Media ClientTx InviteTx Registrar Edge.

#[export] Existing Instance Edge.eta_edge.

Section env.
Context (E : Env) {HT : HashIter Trunk.TrunkId Trunk.TrunkConfig} {HB : HashIter B2bua.CallUuid B2bua.B2buaCall}
  {HR : HashIter Registrar.RegKey Registrar.Registration}.

Abbreviation P := (parser E).

(** ** Shared by the handlers *)

(** A parsed request as text. *)
Definition request_text (r : Request) : string :=
  Topology.render (Topology.mkMsg (rq_method r +:+ " " +:+ rq_uri r +:+ " SIP/2.0") (map header_text (rq_headers r)) (rq_body r)).

Definition req_value (k : HeaderKind) (r : Request) : string := default "" (header_of k (rq_headers r)).

(** What the transaction layer reads of a request. *)
Definition tx_headers (r : Request) : InviteTx.RequestHeaders :=
  InviteTx.mkRequest (map header_text (rq_headers r)) (header_of HCallId (rq_headers r)) (header_of HFrom (rq_headers r))
    (header_of HCSeq (rq_headers r)).

Definition typed_cseq (r : Request) : option Z := header_of HCSeq (rq_headers r) ≫= cseq_seq P.

Definition has_tag (v : string) : bool := bool_decide (is_Some (to_tag P v)).

(** The response to a request, when its headers allow one; the tag is drawn. *)
Definition plain_response (r : Request) (status : Z) : M (sbc_result Response) :=
  tag ← draw E;
  mret (build_plain_response_for_request (typed_to P) has_tag (push_tag P) (fun v => v) tag r status).

(** The response as text, minimal when its headers allow none. *)
Definition response_to (r : Request) (status : Z) (reason : string) : M string :=
  resp ← plain_response r status;
  mret (match (resp : sbc_result Response) with Ok x => raw_of E x | Err _ => build_plain_response status reason end).

Definition respond (what : string) (r : Request) (status : Z) (reason : string) (source : SocketAddr) (t : Transport)
    (tx : option nat) : M unit :=
  msg ← response_to r status reason; send_to E what msg source t tx.

(** Where a response without its headers is an error, nothing is sent. *)
Definition respond_or_fail (what : string) (r : Request) (status : Z) (source : SocketAddr) (t : Transport) (tx : option nat)
    : M (sbc_result unit) :=
  resp ← plain_response r status;
  match (resp : sbc_result Response) with
  | Ok x => _ ← send_to E what (raw_of E x) source t tx; mret (Ok tt)
  | Err e => mret (Err e)
  end.

Lemma send_to_sends what m d t tx : keeps sends_only (send_to E what m d t tx).
Proof. unfold send_to. keeping. Qed.
#[local] Hint Resolve send_to_sends : keep.

Lemma plain_response_sends r st : keeps sends_only (plain_response r st).
Proof. unfold plain_response. keeping. Qed.
#[local] Hint Resolve plain_response_sends : keep.

Lemma response_to_sends r st reason : keeps sends_only (response_to r st reason).
Proof. unfold response_to. keeping. Qed.
#[local] Hint Resolve response_to_sends : keep.

Lemma respond_sends what r st reason src t tx : keeps sends_only (respond what r st reason src t tx).
Proof. unfold respond. keeping. Qed.

Lemma respond_or_fail_sends what r st src t tx : keeps sends_only (respond_or_fail what r st src t tx).
Proof. unfold respond_or_fail. keeping. Qed.

Definition outbound_identity (t : Transport) (base : Topology.SbcIdentity) : Topology.SbcIdentity :=
  let secure := match t with Tls | Wss => true | _ => false end in
  let out_port := if secure then 5061 else 5060 in
  if out_port =? Topology.sip_port base then base
  else Topology.mkIdentity (Topology.public_ip base) (Topology.sip_domain base) out_port secure.

Definition apply_outbound_topology (raw : string) (t : Transport) : M string :=
  gets (fun s =>
    match identity s with
    | Some base =>
        match Topology.apply_topology_hiding_outbound (wall s mod 1000000000) raw (outbound_identity t base) (transport_token t) with
        | Ok out => out
        | Err _ => raw
        end
    | None => raw
    end).

(** ** ACK *)

Definition find_acked_call (call_id : string) (s : Sbc) : option string :=
  match B2bua.find_by_inbound_call_id call_id (b2bua s) with
  | Some u => Some u
  | None => match B2bua.find_by_inbound_call_id_suffix call_id (b2bua s) with
            | Some u => Some u
            | None => B2bua.find_by_outbound_call_id call_id (b2bua s)
            end
  end.

Definition ack_text (uri transport sbc_ip : string) (sbc_port : Z) (branch from to call_id cseq : string) : string :=
  unlines
    ["ACK " +:+ uri +:+ " SIP/2.0";
     "Via: SIP/2.0/" +:+ transport +:+ " " +:+ sbc_ip +:+ ":" +:+ show sbc_port +:+ ";branch=" +:+ branch +:+ ";rport";
     "Max-Forwards: 70"; "From: " +:+ from; "To: " +:+ to; "Call-ID: " +:+ call_id; "CSeq: " +:+ cseq;
     "Content-Length: 0"; ""] "".

Definition relay_ack (uuid call_id : string) (request : Request) (info : option nat * SocketAddr * Transport) : M unit :=
  let '(tx, dest, t) := info in
  n ← gets (fun s => B2bua.outbound_invite_cseq uuid (b2bua s));
  uri ← gets (fun s => B2bua.get_callee_contact_uri uuid (b2bua s));
  cid ← gets (fun s => B2bua.get_inbound_call_id uuid (b2bua s));
  sbc_ip ← gets (fun s => match identity s with Some i => Topology.public_ip i | None => "203.0.113.1" end);
  b ← draw E;
  let cseq := ack_cseq_for_callee (default "1 ACK" (header_of HCSeq (rq_headers request))) n in
  let contact := "sip:" +:+ ip_text E (ip dest) +:+ ":" +:+ show (port dest) in
  let token := match t with Tcp => "TCP" | _ => "UDP" end in
  send_to E "ACK → callee"
    (ack_text (default contact uri) token sbc_ip (if bool_decide (t = Udp) then 5060 else 5061) b
       (req_value HFrom request) (req_value HTo request) (default call_id cid) cseq) dest t tx.

Definition handle_ack (request : Request) : M unit :=
  let call_id := req_value HCallId request in
  _ ← match InviteTx.key_of_request (tx_headers request) with
      | Some key => modify (fun s => s <| invite_tx := InviteTx.acked key (invite_tx s) |>)
      | None => skip
      end;
  found ← gets (find_acked_call call_id);
  match found : option string with
  | Some uuid =>
      _ ← b2bua_op (B2bua.handle_ack uuid);
      info ← gets (fun s => B2bua.get_callee_reply_info uuid (b2bua s));
      match info : option (option nat * SocketAddr * Transport) with
      | Some info => relay_ack uuid call_id request info
      | None => skip
      end
  | None => skip
  end.

(** ** BYE *)

(** The caller's or the callee's side, told apart by the source; a trunk may
    speak from another of its addresses. *)
Definition find_leg (call_id : string) (source : SocketAddr) (s : Sbc) : option (string * bool) :=
  match B2bua.find_by_any_call_id_with_source call_id (Some source) (b2bua s) with
  | Some r => Some r
  | None => if Edge.source_is_trunk_related (ip_text E (ip source)) (edge s)
            then B2bua.find_by_any_call_id_with_source call_id None (b2bua s) else None
  end.

(** The BYE forwarded when no dialog is known: the request itself, with the
    Call-ID the other side knows. *)
Definition raw_relay (request : Request) (call_id : string) (stored : option (string * option string)) : string :=
  let raw := request_text request in
  match stored with
  | Some (full, _) =>
      if negb (seqb full call_id) && ends_with call_id full
      then replace_all ("Call-ID: " +:+ call_id) ("Call-ID: " +:+ full) raw else raw
  | None => raw
  end.

(** [handle_bye] of the call manager releases the call's media. *)
Definition start_ending (uuid : string) : M unit :=
  es ← b2bua_op (fun m => let '((_, es), m) := B2bua.handle_bye uuid m in (es, m)); emit E es.

Definition relay_bye (uuid call_id : string) (request : Request) (from_caller : bool) (reason : option string) : M unit :=
  stored ← gets (fun s => B2bua.get_call_ids uuid (b2bua s));
  info ← gets (fun s => if from_caller then B2bua.get_callee_reply_info uuid (b2bua s)
                        else B2bua.get_caller_reply_info uuid (b2bua s));
  _ ← start_ending uuid;
  match info : option (option nat * SocketAddr * Transport) with
  | Some (tx, dest, t) =>
      addr ← sbc_addr;
      let '(sbc_ip, sbc_port) := addr : string * Z in
      b ← draw E;
      fresh ← b2bua_op (if from_caller
                        then B2bua.build_relay_bye_toward_callee (show_addr E) b uuid sbc_ip sbc_port reason
                        else B2bua.build_relay_bye_toward_caller (show_addr E) b uuid sbc_ip sbc_port reason);
      out ← match fresh : option string with
            | Some m => mret m
            | None => apply_outbound_topology (raw_relay request call_id stored) t
            end;
      send_to E (if from_caller then "BYE → callee" else "BYE → caller") out dest t tx
  | None => skip
  end.

(** What a BYE does to the call it is matched with. *)
Definition end_found (request : Request) (found : option (string * bool)) : M unit :=
  let reason := header_value request "reason" in
  match found with
  | Some (uuid, from_caller) =>
      _ ← relay_bye uuid (req_value HCallId request) request from_caller reason;
      _ ← match reason with Some r => on_b2bua (B2bua.set_peer_reason uuid r) | None => skip end;
      _ ← finish_call E uuid (Cdr.NormalClearing from_caller); skip
  | None => skip
  end.

Definition handle_bye (request : Request) (source : SocketAddr) (t : Transport) (tx : option nat) : M unit :=
  found ← gets (find_leg (req_value HCallId request) source);
  _ ← end_found request found;
  respond "200 → BYE" request 200 "OK" source t tx.

(** ** CANCEL *)

Definition find_cancelled (call_id : string) (source : SocketAddr) (s : Sbc) : option string :=
  match B2bua.find_by_inbound_call_id call_id (b2bua s) with
  | Some u => Some u
  | None => if Edge.source_is_trunk_related (ip_text E (ip source)) (edge s)
            then B2bua.find_by_inbound_call_id_suffix call_id (b2bua s) else None
  end.

Definition answered (c : B2bua.B2buaCall) : bool :=
  match B2bua.outbound c with Some l => B2bua.established l | None => false end
  || match B2bua.state c with B2bua.Connected | B2bua.Terminating | B2bua.Terminated => true | _ => false end.

(** The 487 to the INVITE, made of the CANCEL. *)
Definition with_invite_cseq (n : option Z) (raw : string) : string :=
  match n with
  | Some n => match Topology.parse raw with
              | Ok m => Topology.render (Topology.set_header "CSeq" (show n +:+ " INVITE") m)
              | Err _ => raw
              end
  | None => raw
  end.

Definition cancel_callee (request : Request) (current : option (B2bua.InviteAttempt * option nat))
    (legacy : option (string * Z * SocketAddr * option nat * Transport)) : M unit :=
  match current, legacy with
  | Some (a, tx), _ =>
      match SipBuilder.build_cancel (B2bua.a_raw a) with
      | Some m => send_to E "CANCEL → callee" m (B2bua.a_dest a) (B2bua.a_transport a) tx
      | None => skip
      end
  | None, Some (_, _, dest, tx, t) =>
      out ← apply_outbound_topology (request_text request) t; send_to E "CANCEL relay → callee" out dest t tx
  | None, None => skip
  end.

Definition cancel_call (uuid : string) (request : Request) (source : SocketAddr) (t : Transport) (tx : option nat) : M unit :=
  legacy ← gets (fun s => B2bua.get_callee_cancel_info uuid (b2bua s));
  current ← gets (fun s => B2bua.current_attempt uuid (b2bua s));
  n ← gets (fun s => B2bua.get_caller_invite_cseq uuid (b2bua s));
  _ ← match header_value request "reason" with Some r => on_b2bua (B2bua.set_peer_reason uuid r) | None => skip end;
  _ ← finish_call E uuid Cdr.Cancelled;
  _ ← cancel_callee request current legacy;
  let n := match (n : option Z) with
           | Some n => Some n
           | None => v ← header_of HCSeq (rq_headers request); w ← head (split_whitespace v); parse_uint u32_max w
           end in
  resp ← plain_response request 487;
  match resp : sbc_result Response with
  | Ok r => send_to E "487 → caller" (with_invite_cseq n (raw_of E r)) source t tx
  | Err _ => skip
  end.

(** The answer to a CANCEL, and what it stops. *)
Definition cancel_found (request : Request) (source : SocketAddr) (t : Transport) (tx : option nat) (found : option string)
    : M unit :=
  match found with
  | None => respond "481 → CANCEL" request 481 "Call/Transaction Does Not Exist" source t tx
  | Some uuid =>
      _ ← respond "200 OK → CANCEL" request 200 "OK" source t tx;
      call ← call_of uuid;
      if match (call : option B2bua.B2buaCall) with Some c => answered c | None => false end then skip
      else cancel_call uuid request source t tx
  end.

Definition handle_cancel (request : Request) (source : SocketAddr) (t : Transport) (tx : option nat) : M unit :=
  found ← gets (find_cancelled (req_value HCallId request) source);
  cancel_found request source t tx found.

(** ** A WebSocket connection is gone *)

Definition is_ws (t : Transport) : bool := match t with Ws | Wss => true | _ => false end.

Definition lived_on (peer : SocketAddr) (r : Registrar.Registration) : bool :=
  seqb (Registrar.received_ip r) (ip_text E (ip peer)) && (Registrar.received_port r =? port peer)
  && (seqb (Registrar.transport r) "WS" || seqb (Registrar.transport r) "WSS").

Definition drop_binding (now : Z) (e : Edge.Edge) (r : Registrar.Registration) : Edge.Edge :=
  let '(gone, m) := Registrar.mem_unregister_binding now (Registrar.aor r) (Registrar.reg_binding_key r) None (Edge.registrar e) in
  let e := e <| Edge.registrar := m |> in
  match gone with
  | Some g => e <| Edge.published := Edge.published e ++ [Edge.Unregistered (Registrar.aor g) (Registrar.contact g) "ws-closed"] |>
  | None => e
  end.

Definition drop_bindings (peer : SocketAddr) : M unit :=
  w ← gets wall;
  on_edge (fun e => fold_left (drop_binding w) (List.filter (lived_on peer) (Registrar.mem_all_registrations w (Edge.registrar e))) e).

Definition ws_reason : string := "SIP;cause=200;text=" +:+ Auth.quoted "ws-closed".

Definition affected (peer : SocketAddr) (c : B2bua.B2buaCall) : bool :=
  (bool_decide (B2bua.caller_source c = peer) && is_ws (B2bua.caller_transport c))
  || (bool_decide (B2bua.callee_dest c = Some peer) && is_ws (B2bua.callee_transport c)).

(** The message to the side that is left. *)
Definition farewell (peer : SocketAddr) (branch sbc_ip : string) (sbc_port : Z) (c : B2bua.B2buaCall)
    : bool * option string * option SocketAddr * Transport * option nat :=
  if bool_decide (B2bua.caller_source c = peer) then
    (true,
     match B2bua.bye_toward_callee (show_addr E) branch c sbc_ip sbc_port (Some ws_reason) with
     | Some m => Some m
     | None => a ← last (B2bua.invite_attempts c); SipBuilder.build_cancel (B2bua.a_raw a)
     end, B2bua.callee_dest c, B2bua.callee_transport c, B2bua.callee_reply_tx c)
  else
    (false,
     match B2bua.dialog_info_toward_caller (show_addr E) c sbc_ip sbc_port with
     | Some d => Some (SipBuilder.build_bye branch d (Some ws_reason))
     | None => B2bua.final_toward_caller (reason_phrase E) c 480 (Some ws_reason)
     end, Some (B2bua.caller_source c), B2bua.caller_transport c, B2bua.caller_reply_tx c).

Definition end_affected (peer : SocketAddr) (c : B2bua.B2buaCall) : M unit :=
  addr ← sbc_addr;
  let '(sbc_ip, sbc_port) := addr : string * Z in
  b ← draw E;
  let '(caller_died, msg, dest, t, tx) := farewell peer b sbc_ip sbc_port c in
  _ ← match msg, dest with
      | Some m, Some d => send_to E "ws-close → surviving leg" m d t tx
      | _, _ => skip
      end;
  _ ← finish_call E (B2bua.uuid c) (Cdr.WsClosed (negb caller_died)); skip.

Definition handle_transport_event (peer : SocketAddr) : M unit :=
  _ ← drop_bindings peer;
  cs ← gets (fun s => List.filter (affected peer) (B2bua.values (b2bua s)));
  for_each (end_affected peer) cs.

(** ** re-INVITE and session refreshes *)

(** The SDP last sent to that side, else the request's own. *)
Definition answer_sdp (from_caller : bool) (request : Request) (c : option B2bua.B2buaCall) : option string :=
  match (c ← c;
         if from_caller then B2bua.last_sdp_to_caller c
         else raw ← B2bua.original_outbound_invite c; b ← B2bua.extract_body raw; if seqb b "" then None else Some b) with
  | Some d => Some d
  | None => if is_utf8 (rq_body request) && negb (seqb (rq_body request) "") then Some (rq_body request) else None
  end.

Definition reinvite_response (r : Response) (sbc_ip : string) (sbc_port : Z) (se : option Z) (sdp : option string) : Response :=
  let hs := rs_headers r
    ++ [(HOther "Contact", "<sip:sbc@" +:+ sbc_ip +:+ ":" +:+ show sbc_port +:+ ">"); (HOther "Supported", "timer")]
    ++ match se with Some n => [(HOther "Session-Expires", show n +:+ ";refresher=uac")] | None => [] end
    ++ match sdp with Some _ => [(HOther "Content-Type", "application/sdp")] | None => [] end in
  update_content_length_response (mkResponse (rs_status r) hs (default (rs_body r) sdp)).

Definition handle_reinvite (uuid : string) (from_caller : bool) (request : Request) (source : SocketAddr) (t : Transport)
    (tx : option nat) : M (sbc_result unit) :=
  call ← call_of uuid;
  timer ← gets session_timer;
  addr ← sbc_addr;
  let '(sbc_ip, sbc_port) := addr : string * Z in
  let se := match parse_session_expires (request_text request) with
            | Some n => Some n | None => fst <$> (timer : option (Z * Z)) end in
  resp ← plain_response request 200;
  match resp : sbc_result Response with
  | Err e => mret (Err e)
  | Ok r =>
      _ ← send_to E "200 → re-INVITE" (raw_of E (reinvite_response r sbc_ip sbc_port se (answer_sdp from_caller request call)))
            source t tx;
      mret (Ok tt)
  end.

(** A branch for each call is drawn at once. *)
Definition send_session_refreshes : M unit :=
  timer ← gets session_timer;
  match timer : option (Z * Z) with
  | None => skip
  | Some _ =>
      addr ← sbc_addr;
      let '(sbc_ip, sbc_port) := addr : string * Z in
      b ← draw E;
      n ← gets now;
      due ← b2bua_op (B2bua.due_session_refreshes (show_addr E) n (fun id => b +:+ id) sbc_ip sbc_port);
      for_each (fun e : string * (string * SocketAddr * Transport * option nat) =>
        let '(_, (reinvite, dest, t, tx)) := e in
        _ ← send_request_tracked E "re-INVITE (session refresh) → peer" reinvite dest t tx; skip) due
  end.

(** ** INFO and REFER *)

Definition note_cseq_of (uuid : string) (from_caller : bool) (request : Request) : M unit :=
  match typed_cseq request with
  | Some n => on_b2bua (B2bua.note_relayed_cseq uuid from_caller n)
  | None => skip
  end.

(** A request goes to the other side, through the topology rewriting. *)
Definition relay_request (what : bool -> string) (uuid : string) (from_caller : bool) (request : Request) : M unit :=
  info ← gets (fun s => if from_caller then B2bua.get_callee_reply_info uuid (b2bua s)
                        else B2bua.get_caller_reply_info uuid (b2bua s));
  match info : option (option nat * SocketAddr * Transport) with
  | Some (tx, dest, t) =>
      out ← apply_outbound_topology (request_text request) t; send_to E (what from_caller) out dest t tx
  | None => skip
  end.

Definition handle_info (request : Request) (source : SocketAddr) (t : Transport) (tx : option nat) : M unit :=
  found ← gets (fun s => B2bua.find_by_any_call_id_with_source (req_value HCallId request) (Some source) (b2bua s));
  _ ← match found : option (string * bool) with
      | Some (uuid, from_caller) =>
          _ ← note_cseq_of uuid from_caller request;
          relay_request (fun c => if c then "INFO → callee" else "INFO → caller") uuid from_caller request
      | None => skip
      end;
  respond "200 → INFO" request 200 "OK" source t tx.

Definition refer_to (request : Request) : option string :=
  h ← List.find (fun h => starts_with "Refer-To:" h || starts_with "refer-to:" h) (map header_text (rq_headers request));
  Some (default "" ((fun p => trim p.2) <$> split_once ":" h)).

Definition handle_refer (request : Request) (source : SocketAddr) (t : Transport) (tx : option nat) : M (sbc_result unit) :=
  match refer_to request with
  | None => respond_or_fail "400 → REFER" request 400 source t tx
  | Some _ =>
      found ← gets (fun s => B2bua.find_by_any_call_id (req_value HCallId request) (b2bua s));
      match found : option (string * bool) with
      | None => respond_or_fail "481 → REFER" request 481 source t tx
      | Some (uuid, from_caller) =>
          _ ← note_cseq_of uuid from_caller request;
          ok ← respond_or_fail "202 → REFER" request 202 source t tx;
          match ok : sbc_result unit with
          | Err e => mret (Err e)
          | Ok _ => _ ← relay_request (fun c => if c then "REFER → callee" else "REFER → caller") uuid from_caller request;
                    mret (Ok tt)
          end
      end
  end.

(** ** What they keep *)

Section kept.
Context (R : relation Sbc) `{HK : !Kept E R}.
#[local] Instance kept_order : PreOrder R := kept_preorder E.

Lemma on_edge_keeps f : keeps R (on_edge f).
Proof. intros s. apply (kept_edge E s). Qed.

Lemma edge_op_keeps {A} (f : Edge.Edge -> A * Edge.Edge) : keeps R (edge_op f).
Proof. intros s. unfold edge_op. destruct (f (edge s)) as [a e]. apply (kept_edge E s). Qed.

Lemma closed_keeps tx : keeps R (draw_closed E tx).
Proof. apply (kept_sends E). by intros s. Qed.

Lemma note_reason_keeps u r : keeps R (on_b2bua (B2bua.set_peer_reason u r)).
Proof. apply (update_keeps E R). done. Qed.

Lemma emit_release_keeps es : keeps R (emit E es).
Proof.
  unfold emit. apply keeps_for_each; [apply _|]. intros e _. destruct e; try (apply (perform_keeps E R); done).
  intros s. unfold modify, perform. cbn [snd].
  match goal with |- context [Media.terminate_session _ ?id _] =>
    transitivity (s <| media := (Media.terminate_session (now s) id (media s)).2 |>); [apply (kept_release E s)|];
    apply (kept_effects E (s <| media := (Media.terminate_session (now s) id (media s)).2 |>))
  end.
Qed.
#[local] Hint Resolve on_edge_keeps edge_op_keeps closed_keeps note_reason_keeps emit_release_keeps : keep.

Lemma plain_response_keeps r st : keeps R (plain_response r st).
Proof. apply (kept_sends E), plain_response_sends. Qed.
#[local] Hint Resolve plain_response_keeps : keep.

Lemma respond_keeps what r st reason src t tx : keeps R (respond what r st reason src t tx).
Proof. apply (kept_sends E), respond_sends. Qed.

Lemma respond_or_fail_keeps what r st src t tx : keeps R (respond_or_fail what r st src t tx).
Proof. apply (kept_sends E), respond_or_fail_sends. Qed.
#[local] Hint Resolve respond_keeps respond_or_fail_keeps : keep.

Lemma ack_keeps r : keeps R (handle_ack r).
Proof.
  unfold handle_ack, relay_ack. keeping.
  - intros s'. apply (kept_finals E s').
  - apply (b2bua_op_keeps E R). intros m. unfold B2bua.handle_ack. destruct (B2bua.calls m !! s); [|done]. apply same_with_call; intros c; unfold B2bua.ack; by repeat case_match.
Qed.

Lemma start_ending_keeps u : keeps R (start_ending u).
Proof.
  unfold start_ending. keeping. apply (b2bua_op_keeps E R). intros m. unfold B2bua.handle_bye.
  destruct (B2bua.calls m !! u); [|done]. by apply (same_with_call u).
Qed.

Lemma relay_bye_same (from_caller : bool) b u i p reason m :
  same_calls m ((if from_caller then B2bua.build_relay_bye_toward_callee (show_addr E) b u i p reason
                 else B2bua.build_relay_bye_toward_caller (show_addr E) b u i p reason) m).2.
Proof.
  destruct from_caller; apply same_on_call; intros c.
  - unfold B2bua.relay_bye_toward_callee. repeat case_match; done.
  - unfold B2bua.relay_bye_toward_caller. by destruct (B2bua.dialog_info_toward_caller _ _ _ _).
Qed.

Lemma topology_keeps raw t : keeps R (apply_outbound_topology raw t).
Proof. apply keeps_gets, _. Qed.
#[local] Hint Resolve start_ending_keeps topology_keeps : keep.

Lemma relay_bye_keeps u cid r fc reason : keeps R (relay_bye u cid r fc reason).
Proof. unfold relay_bye. keeping. all: apply (b2bua_op_keeps E R); intros m; apply relay_bye_same. Qed.
#[local] Hint Resolve relay_bye_keeps : keep.

Lemma bye_keeps r src t tx : keeps R (handle_bye r src t tx).
Proof. unfold handle_bye, end_found. keeping. Qed.

Lemma cancel_keeps r src t tx : keeps R (handle_cancel r src t tx).
Proof. unfold handle_cancel, cancel_found, cancel_call, cancel_callee. keeping. Qed.

Lemma transport_event_keeps peer : keeps R (handle_transport_event peer).
Proof. unfold handle_transport_event, drop_bindings, end_affected. keeping. Qed.

Lemma reinvite_keeps u fc r src t tx : keeps R (handle_reinvite u fc r src t tx).
Proof. unfold handle_reinvite. keeping. Qed.

Lemma refresh_call_ident n b i p c : ident_of (B2bua.refresh_call (show_addr E) n b i p c).2 = ident_of c.
Proof. unfold B2bua.refresh_call. by repeat case_match. Qed.

Lemma session_refreshes_keeps : keeps R send_session_refreshes.
Proof.
  unfold send_session_refreshes. keeping. apply (b2bua_op_keeps E R). intros m. unfold same_calls. cbn.
  apply map_eq. intros k. rewrite !lookup_fmap, map_lookup_imap. destruct (B2bua.calls m !! k); [|done]. cbn.
  by rewrite refresh_call_ident.
Qed.

Lemma note_cseq_keeps u fc r : keeps R (note_cseq_of u fc r).
Proof. unfold note_cseq_of. keeping. apply (update_keeps E R). intros c. unfold B2bua.note_cseq. repeat case_match; done. Qed.

Lemma relay_request_keeps what u fc r : keeps R (relay_request what u fc r).
Proof. unfold relay_request. keeping. Qed.
#[local] Hint Resolve note_cseq_keeps relay_request_keeps : keep.

Lemma info_keeps r src t tx : keeps R (handle_info r src t tx).
Proof. unfold handle_info. keeping. Qed.

Lemma refer_keeps r src t tx : keeps R (handle_refer r src t tx).
Proof. unfold handle_refer. keeping. Qed.
End kept.

(** ** One call only *)

(** Nothing is recorded, and at most the call [u] is changed. *)
Definition only (u : string) (s s' : Sbc) : Prop :=
  cdrs s' = cdrs s /\ (forall k, k <> u -> B2bua.calls (b2bua s') !! k = B2bua.calls (b2bua s) !! k) /\
  (is_Some (B2bua.calls (b2bua s) !! u) <-> is_Some (B2bua.calls (b2bua s') !! u)).

#[local] Instance only_preorder u : PreOrder (only u).
Proof.
  split; [done|]. intros s1 s2 s3 (H1 & H2 & H3) (K1 & K2 & K3). split_and!; [congruence| |by rewrite H3].
  intros k Hk. by rewrite K2, H2.
Qed.

Lemma same_only u s s' : b2bua s' = b2bua s -> cdrs s' = cdrs s -> only u s s'.
Proof. intros Hb Hc. unfold only. by rewrite Hb. Qed.

Lemma sends_only_one {A} u (m : M A) : keeps sends_only m -> keeps (only u) m.
Proof. intros Hm s. destruct (sends_core _ _ (Hm s)) as (_ & Hb & _ & Hc & _). by apply same_only. Qed.

Lemma only_update u f : keeps (only u) (on_b2bua (B2bua.with_call u f)).
Proof.
  intros s. split_and!; [done| |]; change (b2bua (on_b2bua ?f s).2) with (f (b2bua s)); [|by rewrite with_call_eq, fmap_is_Some].
  intros k Hk. unfold B2bua.with_call. by apply lookup_alter_ne.
Qed.

Lemma only_on_call {A} u (f : B2bua.B2buaCall -> option A * B2bua.B2buaCall) : keeps (only u) (b2bua_op (B2bua.on_call u f)).
Proof.
  intros s. unfold b2bua_op, B2bua.on_call. destruct (B2bua.calls (b2bua s) !! u) as [c|] eqn:Hc; [|by apply same_only].
  destruct (f c) as [r c']. split_and!; [done| |]; cbn.
  - intros k Hk. by apply lookup_insert_ne.
  - rewrite lookup_insert_eq, Hc. split; by eexists.
Qed.

Lemma only_emit u es : keeps (only u) (emit E es).
Proof. apply keeps_for_each; [apply _|]. intros e _ s. by apply same_only; destruct e. Qed.
#[local] Hint Resolve sends_only_one only_update only_on_call only_emit : keep.

Lemma only_start_ending u : keeps (only u) (start_ending u).
Proof.
  unfold start_ending. keeping. intros s. unfold b2bua_op, B2bua.handle_bye.
  destruct (B2bua.calls (b2bua s) !! u); [|by apply same_only]. apply (only_update u (fun c => c <| B2bua.state := B2bua.Terminating |>) s).
Qed.
#[local] Hint Resolve only_start_ending : keep.

Lemma only_relay_bye u cid r fc reason : keeps (only u) (relay_bye u cid r fc reason).
Proof.
  unfold relay_bye, apply_outbound_topology. keeping. all: destruct fc; apply only_on_call.
Qed.
#[local] Hint Resolve only_relay_bye : keep.

(** The end of one call, with everything else as it was. *)
Definition ended (u : string) (o : Cdr.CallOutcome) (reason : option string) (s s' : Sbc) : Prop :=
  B2bua.calls (b2bua s') !! u = None /\
  (forall k, k <> u -> B2bua.calls (b2bua s') !! k = B2bua.calls (b2bua s) !! k) /\
  exists r, cdrs s' = cdrs s ++ [r] /\ Cdr.cdr_uuid r = u /\ Cdr.disconnect_reason r = Cdr.disconnect_reason_of o /\
    Cdr.hangup_by r = Cdr.hangup_by_of o /\ match reason with Some x => Cdr.reason r = Some x | None => True end.

Lemma noted_and_finished u o reason s :
  is_Some (B2bua.calls (b2bua s) !! u) ->
  ended u o reason s
    ((_ ← match reason with Some r => on_b2bua (B2bua.set_peer_reason u r) | None => skip end; finish_call E u o) s).2.
Proof.
  intros [c Hc]. set (s1 := (match reason with Some r => on_b2bua (B2bua.set_peer_reason u r) | None => skip end s).2).
  assert (H1 : exists c1, B2bua.calls (b2bua s1) !! u = Some c1 /\ match reason with Some x => B2bua.peer_reason c1 = Some x | None => True end).
  { unfold s1. destruct reason as [x|]; [|by exists c].
    change (b2bua (on_b2bua ?f s).2) with (f (b2bua s)). unfold B2bua.set_peer_reason. rewrite with_call_eq, Hc. by eexists. }
  assert (Ho : only u s s1) by (unfold s1; destruct reason; [apply only_update|by apply same_only]).
  destruct H1 as (c1 & Hc1 & Hr). destruct Ho as (Hcd & Hother & _).
  assert (Hf := finish_call_spec E u o s1 c1 Hc1).
  unfold mbind, M_bind. replace (match reason with Some r => _ | None => skip end s) with (tt, s1)
    by by unfold s1; destruct reason.
  destruct (finish_call E u o s1) as [b s2]. destruct Hf as (_ & Hr2 & Hm & _). cbn [snd]. split_and!.
  - by rewrite Hm, lookup_delete_eq.
  - intros k Hk. by rewrite Hm, lookup_delete_ne, Hother.
  - eexists. rewrite Hr2, Hcd. split_and!; [done..|]. destruct reason as [x|]; [|done]. unfold record_of. cbn. by rewrite Hr.
Qed.

Lemma ended_after u o reason s s1 s2 : only u s s1 -> ended u o reason s1 s2 -> ended u o reason s s2.
Proof.
  intros (Hc & Hk & _) (Hg & Hk2 & r & Hr & H). split_and!; [done| |].
  - intros k Hne. by rewrite Hk2, Hk.
  - exists r. by rewrite Hr, Hc.
Qed.

Lemma ended_before u o reason s s1 s2 : b2bua s2 = b2bua s1 -> cdrs s2 = cdrs s1 -> ended u o reason s s1 -> ended u o reason s s2.
Proof. intros Hb Hc. unfold ended. by rewrite Hb, Hc. Qed.

(** The reply is the last thing sent. *)
Definition answered_last (what : string) (source : SocketAddr) (s : Sbc) : Prop :=
  exists m, last (wire s) = Some m /\ s_what m = what /\ s_dest m = source.

Lemma send_to_wire what data d t tx s :
  exists m, wire (send_to E what data d t tx s).2 = wire s ++ [m] /\ s_what m = what /\ s_dest m = d.
Proof.
  assert (H := send_sip_spec E what data d t tx s). unfold send_to, mbind, M_bind.
  destruct (send_sip E what data d t tx s) as [b s2]. destruct H as (_ & H & _). cbn. rewrite H. by eexists.
Qed.

Lemma response_to_wire r st reason s : wire (response_to r st reason s).2 = wire s.
Proof. unfold response_to, plain_response. unfold mbind, M_bind. done. Qed.

Lemma respond_wire what r st reason src t tx s :
  exists m, wire (respond what r st reason src t tx s).2 = wire s ++ [m] /\ s_what m = what /\ s_dest m = src.
Proof.
  rewrite <- (response_to_wire r st reason s). unfold respond, mbind at 1, M_bind at 1.
  destruct (response_to r st reason s) as [msg s1]. apply send_to_wire.
Qed.

Lemma respond_last what r st reason src t tx s : answered_last what src (respond what r st reason src t tx s).2.
Proof.
  destruct (respond_wire what r st reason src t tx s) as (m & Hw & Hm). exists m. rewrite Hw. split; [apply last_snoc|done].
Qed.

(** C9: a BYE ends the call it belongs to, and no other. The call of the leg it
    is matched with is gone with one record, which says who hung up and
    carries the peer's Reason; every other call is as it was; a BYE that
    matches no call changes none; the sender always gets its answer last. *)
Theorem bye_ends_its_call request source t tx s :
  let s' := (handle_bye request source t tx s).2 in
  answered_last "200 → BYE" source s' /\
  match find_leg (req_value HCallId request) source s with
  | Some (u, from_caller) =>
      is_Some (B2bua.calls (b2bua s) !! u) ->
      ended u (Cdr.NormalClearing from_caller) (header_value request "reason") s s'
  | None => b2bua s' = b2bua s /\ cdrs s' = cdrs s
  end.
Proof.
  intros s'. split.
  { cut (leaves (fun _ => answered_last "200 → BYE" source) (handle_bye request source t tx)); [intros H; apply H|].
    unfold handle_bye. do 2 (apply leaves_bind; intros ?). intros s0. apply respond_last. }
  assert (Hb : b2bua s' = b2bua (end_found request (find_leg (req_value HCallId request) source s) s).2 /\
               cdrs s' = cdrs (end_found request (find_leg (req_value HCallId request) source s) s).2).
  { unfold s', handle_bye, gets. unfold mbind, M_bind.
    set (x := end_found _ _). destruct (x s) as [[] s1].
    destruct (sends_core _ _ (respond_sends "200 → BYE" request 200 "OK" source t tx s1)) as (_ & Hb & _ & Hc & _).
    destruct (respond _ _ _ _ _ _ _ s1). by split. }
  destruct Hb as [Hb Hc]. destruct (find_leg _ _ _) as [[u fc]|]; [|by split]. intros Hu.
  apply (ended_before u _ _ s _ _ Hb Hc). unfold end_found, mbind at 1, M_bind at 1.
  assert (Ho := only_relay_bye u (req_value HCallId request) request fc (header_value request "reason") s).
  destruct (relay_bye _ _ _ _ _ s) as [[] s1]. cbn [snd] in Ho. apply (ended_after u _ _ s s1); [done|].
  assert (He := noted_and_finished u (Cdr.NormalClearing fc) (header_value request "reason") s1 ltac:(by apply Ho)).
  unfold mbind, M_bind in *. by repeat case_match.
Qed.

Lemma cancel_callee_sends r current legacy : keeps sends_only (cancel_callee r current legacy).
Proof. unfold cancel_callee, apply_outbound_topology. keeping. Qed.
#[local] Hint Resolve cancel_callee_sends : keep.

Lemma ended_sends {A} u o reason s s1 (m : M A) : keeps sends_only m -> ended u o reason s s1 -> ended u o reason s (m s1).2.
Proof. intros Hm. destruct (sends_core _ _ (Hm s1)) as (_ & Hb & _ & Hc & _). by apply ended_before. Qed.

Lemma cancel_call_ends u r src t tx s :
  is_Some (B2bua.calls (b2bua s) !! u) -> ended u Cdr.Cancelled (header_value r "reason") s (cancel_call u r src t tx s).2.
Proof.
  intros Hu. assert (He := noted_and_finished u Cdr.Cancelled (header_value r "reason") s Hu).
  unfold cancel_call, gets. unfold mbind at 1 2 3 4 5, M_bind at 1 2 3 4 5. unfold mbind, M_bind in He.
  destruct (match header_value r "reason" with Some x => _ | None => skip end s) as [[] s1].
  destruct (finish_call E u Cdr.Cancelled s1) as [b s2]. cbn [snd] in He. apply (ended_sends _ _ _ _ s2); [|exact He].
  keeping.
Qed.

(** C10: a CANCEL stops a call only while it is pending. For a call that was
    answered, or for none, nothing changes; a pending one is gone with one
    record, of a cancelled call with the caller's Reason, and no other call is
    touched. *)
Theorem cancel_only_pending request source t tx s :
  let s' := (handle_cancel request source t tx s).2 in
  match find_cancelled (req_value HCallId request) source s with
  | None => b2bua s' = b2bua s /\ cdrs s' = cdrs s
  | Some u =>
      forall c, B2bua.calls (b2bua s) !! u = Some c ->
      if answered c then b2bua s' = b2bua s /\ cdrs s' = cdrs s
      else ended u Cdr.Cancelled (header_value request "reason") s s'
  end.
Proof.
  intros s'. change s' with (cancel_found request source t tx (find_cancelled (req_value HCallId request) source s) s).2.
  destruct (find_cancelled _ _ _) as [u|].
  2: { destruct (sends_core _ _ (respond_sends "481 → CANCEL" request 481 "Call/Transaction Does Not Exist" source t tx s))
         as (_ & Hb & _ & Hc & _). by split. }
  intros c Hc.
  destruct (sends_core _ _ (respond_sends "200 OK → CANCEL" request 200 "OK" source t tx s)) as (_ & Hb & _ & Hcd & _).
  destruct (respond "200 OK → CANCEL" request 200 "OK" source t tx s) as [[] s1] eqn:Hr. cbn [snd] in *. rewrite <- Hb in Hc.
  replace (cancel_found request source t tx (Some u) s).2
    with ((if answered c then skip else cancel_call u request source t tx) s1).2
    by by unfold cancel_found, call_of, gets, mbind, M_bind; rewrite Hr, Hc.
  destruct (answered c); [by split|]. apply (ended_after u _ _ s s1); [by apply same_only|].
  apply cancel_call_ends. by eexists.
Qed.
End env.

#[export] Hint Resolve on_edge_keeps edge_op_keeps closed_keeps note_reason_keeps emit_release_keeps plain_response_keeps
  respond_keeps respond_or_fail_keeps ack_keeps bye_keeps cancel_keeps reinvite_keeps info_keeps refer_keeps topology_keeps : keep.

#[export] Hint Resolve send_to_sends plain_response_sends response_to_sends respond_sends respond_or_fail_sends : keep.

Module Witness.
Import Teardown.Witness.

#[local] Existing Instances trunk_iter call_iter client_iter invite_iter.

(** What the caller of the pending call sends: the call's end before it was
    answered. *)
Definition goodbye (method : string) : Request :=
  mkRequest method "sip:c@d"
    [(HVia, "SIP/2.0/UDP h;branch=z9hG4bKx"); (HFrom, "<sip:a@b>;tag=t"); (HTo, "<sip:c@d>"); (HCallId, "1-cid@h");
     (HCSeq, "1 " +:+ method); (HOther "Reason", "Q.850;cause=16")] "".

Definition caller : SocketAddr := B2bua.Witness.caller_addr.

Lemma bye_ends_its_call_witness :
  let s' := (handle_bye env0 (goodbye "BYE") caller Udp None busy).2 in
  map s_what (wire s') = ["BYE → callee"; "200 → BYE"] /\
  ended "u1" (Cdr.NormalClearing true) (Some "Q.850;cause=16") busy s'.
Proof.
  intros s'. split; [by vm_compute|].
  assert (H := proj2 (bye_ends_its_call env0 (goodbye "BYE") caller Udp None busy)). cbn zeta in H.
  destruct (find_leg env0 (req_value HCallId (goodbye "BYE")) caller busy) as [[u fc]|] eqn:Hf; [|by vm_compute in Hf].
  vm_compute in Hf. injection Hf as <- <-. apply H. by eexists.
Defined.

Lemma cancel_only_pending_witness :
  let s' := (handle_cancel env0 (goodbye "CANCEL") caller Udp None busy).2 in
  map s_what (wire s') = ["200 OK → CANCEL"; "CANCEL → callee"; "487 → caller"] /\
  ended "u1" Cdr.Cancelled (Some "Q.850;cause=16") busy s'.
Proof.
  intros s'. split; [by vm_compute|].
  assert (H := cancel_only_pending env0 (goodbye "CANCEL") caller Udp None busy). cbn zeta in H.
  destruct (find_cancelled env0 (req_value HCallId (goodbye "CANCEL")) caller busy) as [u|] eqn:Hf; [|by vm_compute in Hf].
  vm_compute in Hf. injection Hf as <-. exact (H pending_call eq_refl).
Defined.
End Witness.
