(* ===== verification/Access.v ===== *)
(** * What is answered before there is a call (sbc/mod.rs, sbc/invite_handler.rs)

    OPTIONS, REGISTER, the methods that are not supported, and the answer to an
    INVITE whose caller is not let in. *)

From S2P Require Import Prelude Str Bytes Net SipUri Sbc Messages Teardown ResponseHandler CallHandler.
From S2P Require Topology Auth Registrar Edge Trunk B2bua.

Section env.
Context (E : Env) {HT : HashIter Trunk.TrunkId Trunk.TrunkConfig} {HB : HashIter B2bua.CallUuid B2bua.B2buaCall}
  {HR : HashIter Registrar.RegKey Registrar.Registration}.

Abbreviation P := (parser E).

(** A response is sent when the request's headers allow one. *)
Definition send_response (what : string) (r : sbc_result Response) (source : SocketAddr) (t : Transport) (tx : option nat)
    : M (sbc_result unit) :=
  match r with
  | Ok x => _ ← send_to E what (raw_of E x) source t tx; mret (Ok tt)
  | Err e => mret (Err e)
  end.

(** A header put on a response that is already text. *)
Definition with_header (name value raw : string) : string :=
  match Topology.parse raw with Ok m => Topology.render (Topology.set_header name value m) | Err _ => raw end.

Definition strike (source : IpAddr) (username : option string) (method : string) : M unit :=
  fun s => (tt, s <| edge := Edge.strike (ip_text E) (network E) (wall s) (now s) source username method (edge s) |>).

Definition challenge_with (nonce : string) (stale : bool) : M (option string) :=
  fun s =>
    match Edge.auth (edge s) with
    | Some a => let '(c, a) := Auth.generate_challenge_with (as_secs (wall s)) nonce stale a in
                (Some c, s <| edge := edge s <| Edge.auth := Some a |> |>)
    | None => (None, s)
    end.

(** Nothing without an authenticator. *)
Definition new_challenge (stale : bool) : M (option string) := nonce ← draw E; challenge_with nonce stale.

(** ** OPTIONS and the methods that are not supported *)

Definition handle_options (request : Request) (source : SocketAddr) (t : Transport) (tx : option nat) : M (sbc_result unit) :=
  tag ← draw E;
  send_response "200 → OPTIONS" (handle_local_request (typed_to P) (has_tag E) (push_tag P) (fun v => v) tag request)
    source t tx.

Definition refuse_method (request : Request) (source : SocketAddr) (t : Transport) (tx : option nat) : M unit :=
  raw ← response_to E request 405 "Method Not Allowed";
  send_to E "405 → source" (with_header "Allow" ALLOWED_METHODS raw) source t tx.

(** ** REGISTER *)

Definition failure_user (f : Auth.AuthFailure) : option string :=
  match f with
  | Auth.StaleNonce u | Auth.Replay u | Auth.BadCredentials u | Auth.UnknownUser u => Some u
  | Auth.Malformed => None
  end.

(** The user proved, if Digest is on; the failure, none when there is no
    Authorization. *)
Definition authenticate_register (request : Request) (source : SocketAddr)
    : M (result (option Auth.AuthFailure) (option string)) :=
  fun s =>
    match (if Edge.enable_digest_auth (edge s) then Edge.auth (edge s) else None) with
    | None => (Ok None, s)
    | Some a =>
        match header_of (HOther "Authorization") (rq_headers request) with
        | None => (Err None, s)
        | Some value =>
            let hashed := [value; show_addr E source; req_value HContact request] in
            let '(r, e) := Edge.verify (hash E) (wall s) value (rq_method request) hashed a (edge s) in
            (match r with Ok user => Ok (Some user) | Err f => Err (Some f) end, s <| edge := e |>)
        end
    end.

Definition challenge_register (what : string) (stale : bool) (request : Request) (source : SocketAddr) (t : Transport)
    (tx : option nat) : M (sbc_result unit) :=
  c ← new_challenge stale;
  tag ← draw E;
  send_response what
    (build_register_401 (typed_to P) (has_tag E) (push_tag P) (fun v => v) tag request (default "" (c : option string)))
    source t tx.

Definition reject_register_auth (request : Request) (source : SocketAddr) (t : Transport) (tx : option nat)
    (failure : Auth.AuthFailure) : M (sbc_result unit) :=
  match failure with
  | Auth.StaleNonce _ | Auth.Replay _ => challenge_register "401 (stale) → REGISTER" true request source t tx
  | Auth.Malformed => _ ← respond E "400 → REGISTER" request 400 "Bad Request" source t tx; mret (Ok tt)
  | other =>
      _ ← strike (ip source) (failure_user other) "REGISTER";
      _ ← respond E "403 → REGISTER" request 403 "Forbidden" source t tx;
      mret (Ok tt)
  end.

(** An authenticated user binds its own address only: whether the request is
    refused; a mismatch is reported either way. *)
Definition claim_refused (user aor : string) (source : SocketAddr) : M bool :=
  fun s =>
    let e := edge s in
    match authorize_aor user aor (Edge.served_domains (identity s) e) with
    | Ok _ => (false, s)
    | Err why =>
        let policy := Edge.identity_policy e in
        let enforce := match why with
                       | RejUser _ => Edge.enforce_register_aor policy
                       | RejDomain _ => Edge.enforce_register_aor policy && negb (bool_decide (Edge.served policy = []))
                       end in
        (enforce, s <| edge := Edge.emit (Edge.IdentityMismatch (ip_text E (ip source)) user aor "REGISTER") e |>)
    end.

(** Every Contact header, and whether one is the wildcard. *)
Fixpoint gather_contacts (hs : list Header) (contacts : list Registrar.ContactBinding) (wildcard : bool)
    : result string (list Registrar.ContactBinding * bool) :=
  match hs with
  | [] => Ok (contacts, wildcard)
  | h :: hs =>
      match split_once ":" (header_text h) with
      | None => gather_contacts hs contacts wildcard
      | Some (name, value) =>
          if negb (eq_ignore_ascii_case name "contact" || seqb name "m") then gather_contacts hs contacts wildcard
          else
            match Registrar.parse_contact_header (trim value) with
            | Ok None => gather_contacts hs contacts true
            | Ok (Some parsed) => gather_contacts hs (contacts ++ parsed) wildcard
            | Err e => Err e
            end
      end
  end.

(** Sctp stands for both SCTP transports. *)
Definition transport_name (t : Transport) : string :=
  match t with Udp => "UDP" | Tcp => "TCP" | Tls => "TLS" | Ws => "WS" | Wss => "WSS" | OtherTransport => "SCTP" end.

Definition connection_of (t : Transport) (tx : option nat) : option nat :=
  match t with Ws | Wss | Tls | Tcp => tx | _ => None end.

Definition register_request (request : Request) (aor call_id : string) (contacts : list Registrar.ContactBinding)
    (wildcard : bool) (source : SocketAddr) (t : Transport) (tx : option nat) : Registrar.RegisterRequest :=
  Registrar.mkReq aor contacts wildcard
    (v ← header_of HExpires (rq_headers request); parse_uint u32_max (trim v))
    call_id (default 1 (typed_cseq E request)) (ip_text E (ip source)) (port source) (transport_name t)
    (header_value request "User-Agent") (Z.of_nat <$> connection_of t tx).

Definition register_events (aor : string) (wildcard : bool) (registered removed : list Registrar.Registration)
    : list Edge.Published :=
  map (fun r => Edge.Registered aor (Registrar.contact r) (Registrar.expires r)) registered
  ++ map (fun r => Edge.Unregistered aor (Registrar.contact r) (if wildcard then "wildcard" else "client")) removed.

(** The registrar's answer, with what it changed published; the one in memory
    never fails. *)
Definition process_register (req : Registrar.RegisterRequest) : M Registrar.RegisterResult :=
  fun s =>
    let e := edge s in
    let '(r, m) := Registrar.process Registrar.mem_ops (wall s) (Edge.register_policy e) req (Edge.registrar e) in
    let events := match r with
                  | Registrar.RegOk _ registered removed _ =>
                      register_events (Registrar.rq_aor req) (Registrar.rq_wildcard req) registered removed
                  | _ => []
                  end in
    (r, s <| edge := e <| Edge.registrar := m |> <| Edge.published := Edge.published e ++ events |> |>).

Definition with_min_expires (n : Z) (r : Response) : Response :=
  mkResponse (rs_status r) (rs_headers r ++ [(HOther "Min-Expires", show n)]) (rs_body r).

Definition answer_register (request : Request) (source : SocketAddr) (t : Transport) (tx : option nat)
    (r : Registrar.RegisterResult) : M (sbc_result unit) :=
  match r with
  | Registrar.RegOk bindings _ _ granted =>
      w ← gets wall;
      tag ← draw E;
      send_response "200 → REGISTER"
        (build_register_200 (typed_to P) (has_tag E) (push_tag P) (fun v => v) tag w request bindings granted) source t tx
  | Registrar.IntervalTooBrief n =>
      resp ← plain_response E request 423;
      send_response "423 → REGISTER"
        (match resp : sbc_result Response with Ok x => Ok (with_min_expires n x) | Err e => Err e end) source t tx
  | Registrar.BadRequest _ => respond_or_fail E "400 → REGISTER" request 400 source t tx
  end.

Definition register_bindings (request : Request) (aor : string) (source : SocketAddr) (t : Transport) (tx : option nat)
    : M (sbc_result unit) :=
  match gather_contacts (rq_headers request) [] false with
  | Err _ => respond_or_fail E "400 → REGISTER" request 400 source t tx
  | Ok (contacts, wildcard) =>
      match header_of HCallId (rq_headers request) with
      | None => mret (Err (EOther "Missing Call-ID"))
      | Some call_id =>
          r ← process_register (register_request request aor call_id contacts wildcard source t tx);
          answer_register request source t tx r
      end
  end.

Definition handle_register (request : Request) (source : SocketAddr) (t : Transport) (tx : option nat) : M (sbc_result unit) :=
  who ← authenticate_register request source;
  match who : result (option Auth.AuthFailure) (option string) with
  | Err None => challenge_register "401 → REGISTER" false request source t tx
  | Err (Some failure) => reject_register_auth request source t tx failure
  | Ok authenticated =>
      match header_of HTo (rq_headers request) with
      | None => mret (Err (EOther "Missing To header"))
      | Some aor_raw =>
          let aor := canonical_aor aor_raw in
          refused ← match authenticated with Some user => claim_refused user aor source | None => mret false end;
          if (refused : bool) then
            _ ← respond E "403 (AOR) → REGISTER" request 403 "Forbidden" source t tx; mret (Ok tt)
          else register_bindings request aor source t tx
      end
  end.

(** ** A caller who is not let in *)

Definition answer_identity_verdict (request : Request) (source : SocketAddr) (t : Transport) (tx : option nat)
    (v : Edge.IdentityVerdict) : M unit :=
  match v with
  | Edge.Forbidden strikes _ =>
      _ ← (if strikes then strike (ip source) None "INVITE" else skip);
      respond E "403 → caller" request 403 "Forbidden" source t tx
  | Edge.Challenge stale =>
      c ← new_challenge stale;
      match c : option string with
      | None => skip
      | Some challenge =>
          raw ← response_to E request 407 "Proxy Authentication Required";
          send_to E "407 → caller" (with_header "Proxy-Authenticate" challenge raw) source t tx
      end
  | Edge.BadRequest => respond E "400 → caller" request 400 "Bad Request" source t tx
  end.

(** ** What they keep *)

Section kept.
Context (R : relation Sbc) `{HK : !Kept E R}.
#[local] Instance kept_order : PreOrder R := kept_preorder E.

Lemma send_response_keeps what r src t tx : keeps R (send_response what r src t tx).
Proof. unfold send_response. keeping. Qed.

Lemma strike_keeps i u m : keeps R (strike i u m).
Proof. intros s. apply (kept_edge E s). Qed.

Lemma challenge_keeps stale : keeps R (new_challenge stale).
Proof.
  unfold new_challenge. keeping. intros nonce s'. unfold challenge_with. destruct (Edge.auth (edge s')); [|reflexivity].
  destruct (Auth.generate_challenge_with _ _ _ _). apply (kept_edge E s').
Qed.
#[local] Hint Resolve send_response_keeps strike_keeps challenge_keeps : keep.

Lemma options_keeps r src t tx : keeps R (handle_options r src t tx).
Proof. unfold handle_options. keeping. Qed.

Lemma refuse_method_keeps r src t tx : keeps R (refuse_method r src t tx).
Proof. unfold refuse_method, response_to. keeping. Qed.

Lemma authenticate_keeps r src : keeps R (authenticate_register r src).
Proof.
  intros s. unfold authenticate_register. destruct (if Edge.enable_digest_auth _ then _ else _); [|reflexivity].
  destruct (header_of _ _); [|reflexivity]. destruct (Edge.verify _ _ _ _ _ _ _). apply (kept_edge E s).
Qed.

Lemma claim_keeps u aor src : keeps R (claim_refused u aor src).
Proof. intros s. unfold claim_refused. destruct (authorize_aor _ _ _); [reflexivity|]. apply (kept_edge E s). Qed.

Lemma process_keeps req : keeps R (process_register req).
Proof. intros s. unfold process_register. destruct (Registrar.process _ _ _ _ _). apply (kept_edge E s). Qed.
#[local] Hint Resolve authenticate_keeps claim_keeps process_keeps : keep.

Lemma register_keeps r src t tx : keeps R (handle_register r src t tx).
Proof.
  unfold handle_register, reject_register_auth, challenge_register, register_bindings, answer_register. keeping.
Qed.

Lemma verdict_keeps r src t tx v : keeps R (answer_identity_verdict r src t tx v).
Proof. unfold answer_identity_verdict, response_to. keeping. Qed.
End kept.

(** ** Whose bindings a REGISTER may change *)

Definition same_registrar (s s' : Sbc) : Prop := Edge.registrar (edge s') = Edge.registrar (edge s).

#[local] Instance same_registrar_preorder : PreOrder same_registrar.
Proof. split; [done|]. intros s1 s2 s3 H1 H2. unfold same_registrar in *. congruence. Qed.

Lemma sends_same {A} (m : M A) : keeps sends_only m -> keeps same_registrar m.
Proof. intros Hm s. destruct (sends_core _ _ (Hm s)) as (_ & _ & _ & _ & _ & _ & _ & He). unfold same_registrar. by rewrite He. Qed.
#[local] Hint Resolve sends_same : keep.

Lemma send_response_sends what r src t tx : keeps sends_only (send_response what r src t tx).
Proof. unfold send_response. keeping. Qed.
#[local] Hint Resolve send_response_sends : keep.

Lemma strike_same i u m : keeps same_registrar (strike i u m).
Proof.
  intros s. unfold strike, same_registrar, Edge.strike, Edge.record_auth_failure. cbn [snd].
  change (edge (s <| edge := ?e |>)) with e.
  destruct (Ban.record_failure _ _ _ _ _ _ _) as [[entry|] b]; [|done]. unfold Edge.persist_ban.
  destruct (Edge.config_store _); done.
Qed.

Lemma challenge_same stale : keeps same_registrar (new_challenge stale).
Proof.
  unfold new_challenge. keeping. intros nonce s. unfold challenge_with. destruct (Edge.auth (edge s)); [|reflexivity].
  by destruct (Auth.generate_challenge_with _ _ _ _).
Qed.
#[local] Hint Resolve strike_same challenge_same : keep.

Lemma challenge_register_same what stale r src t tx : keeps same_registrar (challenge_register what stale r src t tx).
Proof. unfold challenge_register. keeping. Qed.

Lemma reject_same r src t tx f : keeps same_registrar (reject_register_auth r src t tx f).
Proof. unfold reject_register_auth. keeping; apply challenge_register_same. Qed.

Lemma answer_register_same r src t tx x : keeps same_registrar (answer_register r src t tx x).
Proof. unfold answer_register. keeping. Qed.

(** What a REGISTER for an address did, if it got as far as the registrar. *)
Definition registered_as (request : Request) (aor : string) (source : SocketAddr) (t : Transport) (tx : option nat)
    (s s' : Sbc) : Prop :=
  exists call_id contacts wildcard,
    Edge.registrar (edge s') =
      (Registrar.process Registrar.mem_ops (wall s) (Edge.register_policy (edge s))
         (register_request request aor call_id contacts wildcard source t tx) (Edge.registrar (edge s))).2.

Lemma register_bindings_spec r aor src t tx s :
  same_registrar s (register_bindings r aor src t tx s).2 \/
  registered_as r aor src t tx s (register_bindings r aor src t tx s).2.
Proof.
  unfold register_bindings. destruct (gather_contacts _ _ _) as [[contacts wildcard]|e].
  2: { left. apply sends_same, respond_or_fail_sends. }
  destruct (header_of HCallId (rq_headers r)) as [call_id|]; [|by left]. right. exists call_id, contacts, wildcard.
  set (req := register_request r aor call_id contacts wildcard src t tx). unfold process_register. unfold mbind, M_bind.
  destruct (Registrar.process _ _ _ _ _) as [x m]. rewrite answer_register_same. reflexivity.
Qed.

(** The policy and the clock that a REGISTER's checks leave alone. *)
Definition same_policy (s s' : Sbc) : Prop :=
  same_registrar s s' /\ wall s' = wall s /\ Edge.register_policy (edge s') = Edge.register_policy (edge s) /\
  Edge.identity_policy (edge s') = Edge.identity_policy (edge s).

Lemma authenticate_spec r src s a :
  Edge.enable_digest_auth (edge s) = true -> Edge.auth (edge s) = Some a ->
  let '(who, s') := authenticate_register r src s in
  same_policy s s' /\
  match who with
  | Ok None => False
  | Ok (Some user) =>
      exists value, header_of (HOther "Authorization") (rq_headers r) = Some value /\
        (Auth.verify_with (as_secs (wall s)) value (rq_method r)
           (Some (hash E [value; show_addr E src; req_value HContact r])) a).1 = Ok user
  | Err _ => True
  end.
Proof.
  intros Hd Ha. unfold authenticate_register. rewrite Hd, Ha.
  destruct (header_of (HOther "Authorization") (rq_headers r)) as [value|]; [|done]. unfold Edge.verify.
  destruct (Auth.verify_with _ _ _ _ a) as [[user|f] a'] eqn:Hv; [|by split_and!]. split; [by split_and!|].
  exists value. by rewrite Hv.
Qed.

Lemma claim_spec user aor src s :
  let '(refused, s') := claim_refused user aor src s in
  same_policy s s' /\
  (Edge.enforce_register_aor (Edge.identity_policy (edge s)) = true ->
   refused = false -> default "" (SipUri.uri_user aor) = user).
Proof.
  unfold claim_refused. destruct (authorize_aor user aor _) as [[]|why] eqn:Hz; (split; [by split_and!|]).
  all: unfold authorize_aor in Hz; destruct (seqb (default "" (SipUri.uri_user aor)) user) eqn:Hu; cbn [negb] in Hz;
    try (apply seqb_true in Hu; by intros).
  - done.
  - injection Hz as <-. intros He Hr. congruence.
Qed.

End env.

(** ** Witnesses *)

Module Witness.
Import Teardown.Witness.

#[local] Instance binding_iter : HashIter Registrar.RegKey Registrar.Registration :=
  canonical_iter Registrar.RegKey Registrar.Registration.

Definition phone : SocketAddr := mkAddr (V4 [198; 51; 100; 7]) 5060.

Definition register (authorization : list Header) : Request :=
  mkRequest "REGISTER" "sip:h"
    ([(HVia, "SIP/2.0/UDP phone;branch=z9hG4bKr"); (HFrom, "<sip:alice@h>;tag=1"); (HTo, "<sip:alice@h>");
      (HCallId, "reg1"); (HCSeq, "1 REGISTER"); (HContact, "<sip:alice@198.51.100.7:5060>"); (HExpires, "600")]
     ++ authorization) "".

(** The phone is challenged, and answers with its password. *)
Definition challenged : Sbc := (handle_register env0 (register []) phone Udp None idle).2.

Definition proof : string :=
  match Auth.challenge_from_header ("Digest realm=" +:+ Auth.quoted "h" +:+ ", nonce=" +:+ Auth.quoted "z9hG4bK0"
                                    +:+ ", algorithm=MD5, qop=" +:+ Auth.quoted "auth") with
  | Ok c => Auth.generate_digest_response "alice" "secret" c "REGISTER" "sip:h" "cafe"
  | Err _ => ""
  end.

Definition answered : Sbc := (handle_register env0 (register [(HOther "Authorization", proof)]) phone Udp None challenged).2.

End Witness.
