(* ===== verification/InviteHandler.v ===== *)
(** * A caller's INVITE (sbc/invite_handler.rs)

    From the message to the INVITE sent to the callee, or the refusal: the
    dialog or the transaction it belongs to, who calls, what is admitted, the
    call, its route, its SDP, and the request as it leaves. The identifier of
    the call is an argument. *)

From S2P Require Import Prelude Str Bytes Net Sbc Messages Invite Teardown ResponseHandler CallHandler Access.
From S2P Require SipUri SipBuilder Topology Trunk Router B2bua Cdr Auth Media.
From S2P Require PortAllocator Sdp ClientTx InviteTx Registrar Edge Ban Destination UserLimits.

#[export] Existing Instance Edge.eta_security.

(** The calls a request created, and its outcome. *)
Abbreviation Handled := (list string * sbc_result unit)%type.

(** A stage that may settle the request before there is a call. *)
Definition unless_done (m : M (option (sbc_result unit))) (k : M Handled) : M Handled :=
  r ← m; match (r : option (sbc_result unit)) with Some a => mret ([], a) | None => k end.

Definition done_ok {A} (m : M A) : M (option (sbc_result unit)) := _ ← m; mret (Some (Ok tt)).
Definition settled_by (m : M (sbc_result unit)) : M (option (sbc_result unit)) := r ← m; mret (Some r).
Definition go_on : M (option (sbc_result unit)) := mret None.

(** Where the INVITE goes: the address, the transport, the connection, and the
    request to send; or it was refused. *)
Inductive Routing :=
  | Routed (dest : SocketAddr) (t : Transport) (tx : option nat) (request : Request)
  | Refused (r : sbc_result unit).

Section env.
Context (E : Env) {HT : HashIter Trunk.TrunkId Trunk.TrunkConfig} {HB : HashIter B2bua.CallUuid B2bua.B2buaCall}
  {HI : HashIter string InviteTx.TxEntry} {HR : HashIter Registrar.RegKey Registrar.Registration}.

Abbreviation P := (parser E).

(** ** Before the call *)

Definition has_to_tag (r : Request) : bool :=
  match header_of HTo (rq_headers r) with Some v => has_tag E v | None => false end.

Definition in_dialog (request : Request) (source : SocketAddr) (t : Transport) (tx : option nat)
    : M (option (sbc_result unit)) :=
  match (if has_to_tag request then header_of HCallId (rq_headers request) else None) with
  | None => go_on
  | Some cid =>
      found ← gets (fun s => B2bua.find_by_any_call_id_with_source cid (Some source) (b2bua s));
      match found : option (string * bool) with
      | Some (uuid, from_caller) => settled_by (handle_reinvite E uuid from_caller request source t tx)
      | None => go_on
      end
  end.

Definition begin_transaction (key : string) : M (result (option string) unit) :=
  fun s => let '(r, m) := InviteTx.begin (now s) key (invite_tx s) in (r, s <| invite_tx := m |>).

Definition retransmitted (request : Request) (source : SocketAddr) (t : Transport) (tx : option nat)
    : M (option (sbc_result unit)) :=
  match InviteTx.key_of_request (tx_headers request) with
  | None => go_on
  | Some key =>
      r ← begin_transaction key;
      match r : result (option string) unit with
      | Ok _ => go_on
      | Err (Some resp) => done_ok (send_to E "retransmitted INVITE → last response" resp source t tx)
      | Err None => done_ok skip
      end
  end.

Definition local_host (source_ip : string) : bool := seqb source_ip "127.0.0.1" || seqb source_ip "::1".
Definition caller_name (r : Request) : option string := header_of HFrom (rq_headers r) ≫= from_user P.

Definition who_calls (is_trunk : bool) (request : Request) (source : SocketAddr) : M (result Edge.IdentityVerdict Edge.CallerIdentity) :=
  fun s =>
    let source_ip := ip_text E (ip source) in
    let '(r, e) := Edge.classify_caller (ip_text E) (show_addr E) (hash E) (wall s) (identity s) request source
                     (local_host source_ip) is_trunk (caller_name request) (edge s) in
    (r, s <| edge := e |>).

Definition limit_decision (user : string) : M UserLimits.LimitDecision :=
  fun s =>
    let e := edge s in
    let '(d, l) := UserLimits.check_and_record (now s) user (B2bua.active_calls_for_user user (b2bua s))
                     (Edge.user_limits (Edge.security e)) in
    let e := e <| Edge.security := Edge.security e <| Edge.user_limits := l |> |> in
    (d, s <| edge := match d with
                     | UserLimits.Allowed => e
                     | UserLimits.ConcurrentExceeded n m => Edge.emit (Edge.UserLimitHit user "concurrent" n m) e
                     | UserLimits.RateExceeded n m _ => Edge.emit (Edge.UserLimitHit user "rate" n m) e
                     end |>).

Definition with_retry_after (n : Z) (raw : string) : string :=
  replace_all (CRLF +:+ "Content-Length:") (CRLF +:+ "Retry-After: " +:+ show n +:+ CRLF +:+ "Content-Length:") raw.

Definition within_limits (caller : Edge.CallerIdentity) (request : Request) (source : SocketAddr) (t : Transport)
    (tx : option nat) : M (option (sbc_result unit)) :=
  match caller with
  | Edge.Local user =>
      d ← limit_decision user;
      match d with
      | UserLimits.Allowed => go_on
      | UserLimits.ConcurrentExceeded _ _ =>
          settled_by (respond_or_fail E "403 (limit) → caller" request 403 source t tx)
      | UserLimits.RateExceeded _ _ n =>
          r ← plain_response E request 503;
          match r : sbc_result Response with
          | Err e => mret (Some (Err e))
          | Ok x => done_ok (send_to E "503 (rate) → caller" (with_retry_after n (raw_of E x)) source t tx)
          end
      end
  | _ => go_on
  end.

Definition admissible (request : Request) (source : SocketAddr) (t : Transport) (tx : option nat)
    : M (option (sbc_result unit)) :=
  if negb (request_has_rfc3261_branch request) then
    settled_by (respond_or_fail E "400 → caller" request 400 source t tx)
  else if bool_decide (max_forwards request = Some 0) then
    done_ok (respond E "483 → caller" request 483 "Too Many Hops" source t tx)
  else
    match unsupported_required_extensions request with
    | [] => go_on
    | missing =>
        raw ← response_to E request 420 "Bad Extension";
        done_ok (send_to E "420 → caller" (with_header "Unsupported" (join ", " missing) raw) source t tx)
    end.

(** ** The call's first facts *)

Definition text_body (r : Request) : option string :=
  if negb (seqb (rq_body r) "") && is_utf8 (rq_body r) then Some (rq_body r) else None.

Definition caller_tag (request : Request) : M string :=
  match header_of HFrom (rq_headers request) ≫= from_tag P with Some tag => mret tag | None => draw E end.

Definition send_trying (request : Request) (source : SocketAddr) (t : Transport) (tx : option nat) : M unit :=
  match build_trying request with
  | Ok r => send_to E "100 Trying → caller" (raw_of E r) source t tx
  | Err _ => skip
  end.

Definition note_caller_dialog (uuid : string) (request : Request) : M unit :=
  match header_of HFrom (rq_headers request) with
  | Some from_raw =>
      on_b2bua (B2bua.set_inbound_dialog uuid from_raw (header_of HTo (rq_headers request))
                  (extract_contact_uri <$> header_of HContact (rq_headers request)))
  | None => skip
  end.

Definition caller_facts (number callee trunk : option string) (direction : string) (c : B2bua.B2buaCall) : B2bua.B2buaCall :=
  c <| B2bua.caller_number := number |> <| B2bua.callee_number := callee |> <| B2bua.direction_field := Some direction |>
    <| B2bua.trunk_name := trunk |>.

Definition identify_call (uuid : string) (caller : Edge.CallerIdentity) (is_trunk : bool) (request : Request)
    (source : SocketAddr) : M unit :=
  inbound ← gets (fun s => Trunk.name_for_ip (ip_text E) (ip_text E (ip source)) (trunk_manager s));
  let inbound := inbound : option string in
  let number := match caller with
                | Edge.Local user => Some user
                | _ => Some (default "unknown" (caller_name request)) end in
  let direction := if is_trunk || bool_decide (is_Some inbound) then "inbound" else "outbound" in
  _ ← on_b2bua (B2bua.with_call uuid (caller_facts number (uri_user P (rq_uri request)) inbound direction));
  match inbound with Some name => count_call_on_trunk uuid (Some name) | None => skip end.

Definition draw_webrtc (call_id sdp : string) : M (option (nat * string)) :=
  fun s => (webrtc_new E (drawn s) call_id sdp, s <| drawn := S (drawn s) |>).
Definition draw_webrtc_offer (call_id : string) : M (option (nat * string)) :=
  fun s => (webrtc_for_offer E (drawn s) call_id, s <| drawn := S (drawn s) |>).

Definition open_webrtc (uuid call_id : string) (sdp : option string) : M unit :=
  webrtc ← gets (fun s => B2bua.is_caller_webrtc uuid (b2bua s));
  match (if (webrtc : bool) then sdp else None) with
  | Some sdp =>
      ws ← draw_webrtc call_id sdp;
      match ws : option (nat * string) with
      | Some (session, pwd) =>
          _ ← on_b2bua (B2bua.set_webrtc_ice_pwd uuid pwd); on_b2bua (B2bua.set_webrtc_session uuid session)
      | None => skip
      end
  | None => skip
  end.

(** ** The route *)

Definition finish_with (uuid : string) (code : Z) : M unit := _ ← finish_call E uuid (Cdr.Refused code); skip.

(** The call is over and the caller is told. *)
Definition refuse (uuid what : string) (code : Z) (reason : string) (request : Request) (source : SocketAddr) (t : Transport)
    (tx : option nat) : M Routing :=
  _ ← finish_with uuid code; _ ← respond E what request code reason source t tx; mret (Refused (Ok tt)).

(** The user of an address, as the mapping of numbers reads it. *)
Definition aor_user (aor : string) : option string := rest ← strip_prefix "sip:" aor; head (split "@" rest).

Definition no_zeros : string -> string := trim_start_by (fun c => bool_decide (c = "0"%char)).

Definition did_matches (callee_user : string) (d : Edge.DidMapping) : bool :=
  let n := Edge.did_number d in
  seqb callee_user n || seqb callee_user (no_zeros n) || seqb callee_user ("+33" +:+ no_zeros n)
  || seqb ("+33" +:+ no_zeros callee_user) ("+33" +:+ no_zeros n).

(** The callee's address, and whether a number was mapped to it. *)
Definition map_did (aor : option string) : M (option string * bool) :=
  gets (fun s =>
    match aor with
    | None => (None, false)
    | Some a =>
        match List.find (did_matches (default a (aor_user a))) (Edge.did_mappings (edge s)) with
        | Some d =>
            let realm := match identity s with Some i => Topology.sip_domain i | None => "sip.nixi.tel" end in
            (Some ("sip:" +:+ Edge.did_user d +:+ "@" +:+ realm), true)
        | None => (aor, false)
        end
    end).

(** The binding last registered. *)
Definition registered_contact (aor : option string) : M (option Registrar.Registration) :=
  gets (fun s =>
    a ← aor;
    max_by (fun x y => Registrar.registered_at x <? Registrar.registered_at y)
      (Registrar.handler_lookup Registrar.mem_ops (wall s) a (Edge.registrar (edge s)))).

Definition binding_transport (r : Registrar.Registration) : Transport :=
  let t := Registrar.transport r in
  if seqb t "WSS" then Wss else if seqb t "WS" then Ws else if seqb t "TLS" then Tls else if seqb t "TCP" then Tcp else Udp.

Definition now_local (c : B2bua.B2buaCall) : B2bua.B2buaCall :=
  if bool_decide (B2bua.direction_field c = Some "inbound") then c else c <| B2bua.direction_field := Some "local" |>.

Definition connection_alive (tx : option nat) : M bool :=
  match tx with Some x => closed ← draw_closed E x; mret (negb (closed : bool)) | None => mret false end.

Definition route_to_contact (uuid : string) (reg : Registrar.Registration) (request : Request) (source : SocketAddr)
    (t : Transport) (tx : option nat) : M Routing :=
  _ ← on_b2bua (B2bua.with_call uuid now_local);
  match parse_addr E (Registrar.received_ip reg +:+ ":" +:+ show (Registrar.received_port reg)) with
  | None => refuse uuid "500 → caller" 500 "Server Internal Error" request source t tx
  | Some addr =>
      let out := binding_transport reg in
      let callee_tx := Z.to_nat <$> Registrar.reply_tx reg in
      alive ← (if is_ws out then connection_alive callee_tx else mret true);
      if (alive : bool) then mret (Routed addr out callee_tx request)
      else refuse uuid "480 → caller" 480 "Temporarily Unavailable" request source t tx
  end.

Definition check_destination (dialed : string) (user : option string) : M Destination.DestinationDecision :=
  fun s =>
    let e := edge s in
    let '(d, p) := Destination.check dialed user (Edge.destinations (Edge.security e)) in
    let e := e <| Edge.security := Edge.security e <| Edge.destinations := p |> |> in
    (d, s <| edge := match d with
                     | Destination.Blocked rule _ => Edge.emit (Edge.DestinationBlocked user dialed rule) e
                     | Destination.Allowed => e
                     end |>).

Definition blocked (uuid : string) (request : Request) (source : SocketAddr) (t : Transport) (tx : option nat)
    : M (option (sbc_result unit)) :=
  match uri_user P (rq_uri request) with
  | None => go_on
  | Some dialed =>
      d ← check_destination dialed (caller_name request);
      match d with
      | Destination.Allowed => go_on
      | Destination.Blocked _ _ =>
          _ ← finish_with uuid 403; settled_by (respond_or_fail E "403 → caller" request 403 source t tx)
      end
  end.

(** The number as the trunk expects it. *)
Definition normalized_for (trunk : Trunk.TrunkConfig) (request : Request) : Request :=
  match uri_user P (rq_uri request) with
  | Some u =>
      let n := Trunk.normalize_number u trunk in
      if seqb n u then request
      else mkRequest (rq_method request) (with_user P (rq_uri request) n) (rq_headers request) (rq_body request)
  | None => request
  end.

Definition place_on_trunk (uuid : string) (trunk : Trunk.TrunkConfig) : M unit :=
  _ ← on_b2bua (B2bua.store_outbound_invite uuid "" (Trunk.id trunk));
  _ ← on_b2bua (B2bua.with_call uuid (fun c => c <| B2bua.trunk_name := Some (Trunk.name trunk) |>));
  count_call_on_trunk uuid (Some (Trunk.name trunk)).

Definition route_to_trunk (uuid : string) (request : Request) (source : SocketAddr) (t : Transport) (tx : option nat)
    : M Routing :=
  stop ← blocked uuid request source t tx;
  match stop : option (sbc_result unit) with
  | Some r => mret (Refused r)
  | None =>
      candidates ← gets (fun s => Router.route_request_candidates (now s) (uri_domain P (rq_uri request))
                                    (uri_auth P (rq_uri request)) (trunk_manager s));
      match candidates : list Trunk.TrunkConfig with
      | [] => refuse uuid "503 → caller" 503 "Service Unavailable" request source t tx
      | trunk :: backups =>
          n ← gets now;
          _ ← on_b2bua (B2bua.set_failover_candidates uuid n (map Trunk.id backups));
          let request := normalized_for trunk request in
          _ ← place_on_trunk uuid trunk;
          match Trunk.destination (parse_addr E) trunk with
          | Some dest => mret (Routed dest (Trunk.to_rsip_transport (Trunk.transport trunk)) None request)
          | None => refuse uuid "503 → caller" 503 "Service Unavailable" request source t tx
          end
      end
  end.

(** The registrar first, then the trunks; a trunk's own call goes to neither. *)
Definition route (uuid : string) (aor : option string) (did_mapped is_trunk : bool) (request : Request) (source : SocketAddr)
    (t : Transport) (tx : option nat) : M Routing :=
  contact ← registered_contact aor;
  match contact : option Registrar.Registration with
  | Some reg => route_to_contact uuid reg request source t tx
  | None =>
      if did_mapped then refuse uuid "480 → caller" 480 "Temporarily Unavailable" request source t tx
      else if is_trunk then refuse uuid "404 → trunk" 404 "Not Found" request source t tx
      else route_to_trunk uuid request source t tx
  end.

(** ** The INVITE as it leaves *)

Definition leg_b_port (media_id : option string) (s : Sbc) : option Z :=
  id ← media_id; x ← Media.get_session id (media s); PortAllocator.rtp <$> Media.ports_b x.

(** An offer of the SBC's own for a callee in a browser. *)
Definition offer_webrtc (uuid call_id sdp : string) : M string :=
  i ← gets identity_ip;
  mid ← gets (fun s => B2bua.get_media_session_id uuid (b2bua s));
  p ← gets (fun s => default 10000 (leg_b_port mid s));
  ws ← draw_webrtc_offer call_id;
  match ws : option (nat * string) with
  | Some (session, pwd) =>
      let offer := webrtc_offer E session p i in
      _ ← on_b2bua (B2bua.set_webrtc_ice_pwd_b uuid pwd);
      _ ← on_b2bua (B2bua.set_webrtc_sdp_offer uuid offer);
      _ ← on_b2bua (B2bua.set_webrtc_session_b uuid session);
      _ ← match (mid : option string) with Some id => on_media (Media.set_ice_pwd_local_b id pwd) | None => skip end;
      mret offer
  | None => mret (Media.rewrite_sdp_ip (ip_text E) (media_ip E) sdp)
  end.

(** The caller's offer, with the relay's address toward the callee. *)
Definition outbound_sdp (uuid call_id : string) (caller_webrtc callee_webrtc : bool) (sdp : string) : M string :=
  if callee_webrtc then offer_webrtc uuid call_id sdp
  else
    mid ← gets (fun s => B2bua.get_media_session_id uuid (b2bua s));
    b ← gets (leg_b_port mid);
    if caller_webrtc then
      i ← gets identity_ip;
      a ← gets (leg_a_port mid);
      mret (Sdp.transform_webrtc_to_trunk sdp i (default a (b : option Z)))
    else
      gets (fun s =>
        match id ← (mid : option string); Media.get_session id (media s) with
        | Some x => Media.rewrite_sdp_for_proxy (ip_text E) (media_ip E) sdp (default (PortAllocator.rtp (Media.ports x)) (b : option Z))
        | None => Media.rewrite_sdp_ip (ip_text E) (media_ip E) sdp
        end).

Definition with_request_body (r : Request) (body : string) : Request :=
  update_content_length_request (mkRequest (rq_method r) (rq_uri r) (rq_headers r) body).

Definition rewritten_offer (uuid call_id : string) (callee_webrtc : bool) (request : Request) : M Request :=
  match text_body request with
  | None => mret request
  | Some sdp =>
      caller_webrtc ← gets (fun s => B2bua.is_caller_webrtc uuid (b2bua s));
      new ← outbound_sdp uuid call_id caller_webrtc callee_webrtc sdp;
      mret (with_request_body request new)
  end.

Definition is_via_line (s : string) : bool :=
  starts_with "via:" (to_ascii_lowercase s) || starts_with "v:" (to_ascii_lowercase s).

(** What leaves toward the callee: nothing of the caller's network, of its
    credentials or of extensions nobody here implements. *)
Definition outbound_text (uuid : string) (caller : Edge.CallerIdentity) (request : Request) (out : Transport) : M string :=
  let raw := Topology.strip_credentials (Topology.strip_unsupported_extensions (request_text request)) in
  let raw := match caller with Edge.Local _ => Topology.strip_untrusted_identity_headers raw | _ => raw end in
  raw ← apply_outbound_topology raw out;
  timer ← gets session_timer;
  call ← call_of uuid;
  mret (match (timer : option (Z * Z)), (call : option B2bua.B2buaCall) ≫= B2bua.trunk_id with
        | Some (expires, min_se), Some _ => set_session_timer_headers raw expires min_se
        | _, _ => raw
        end).

(** No trunk is left: the caller is told by what is known of its INVITE. *)
Definition setup_failed (uuid : string) (source : SocketAddr) (t : Transport) (tx : option nat) : M unit :=
  call ← call_of uuid;
  _ ← finish_with uuid 503;
  match (call : option B2bua.B2buaCall) ≫= (fun c => B2bua.final_toward_caller (reason_phrase E) c 503 None) with
  | Some r => send_to E "503 (setup failed) → caller" r source t tx
  | None => skip
  end.

Definition send_invite (uuid call_id raw uri : string) (dest : SocketAddr) (out : Transport) (callee_tx : option nat)
    (source : SocketAddr) (t : Transport) (tx : option nat) : M unit :=
  trunk ← gets (fun s => (fun i => i.1.2) <$> B2bua.get_auth_retry_info uuid (b2bua s));
  n ← gets now;
  _ ← on_b2bua (B2bua.push_invite_attempt uuid n raw dest out trunk);
  local_tag ← draw E;
  _ ← b2bua_op (B2bua.attach_outbound uuid call_id local_tag dest callee_tx out);
  ok ← send_request_tracked E "INVITE → callee" raw dest out callee_tx;
  if (ok : bool) then on_b2bua (B2bua.set_callee_request_uri uuid uri)
  else
    name ← outbound_trunk_of uuid;
    _ ← match name : option string with Some name => note_trunk_failure name None | None => skip end;
    moved ← failover_to_next_trunk E uuid;
    if (moved : bool) then skip else setup_failed uuid source t tx.

Definition forward_invite (uuid call_id : string) (caller : Edge.CallerIdentity) (aor : option string) (dest : SocketAddr)
    (out : Transport) (callee_tx : option nat) (request : Request) (source : SocketAddr) (t : Transport) (tx : option nat)
    : M unit :=
  _ ← match aor ≫= aor_user with
      | Some number => on_b2bua (B2bua.with_call uuid (fun c => c <| B2bua.callee_number := Some number |>))
      | None => skip
      end;
  _ ← (if is_ws out then on_b2bua (B2bua.set_callee_is_webrtc uuid true) else skip);
  request ← rewritten_offer uuid call_id (is_ws out) request;
  let request := request : Request in
  _ ← on_b2bua (B2bua.set_caller_vias uuid (List.filter is_via_line (map header_text (rq_headers request))) (typed_cseq E request));
  raw ← outbound_text uuid caller request out;
  send_invite uuid call_id raw (rq_uri request) dest out callee_tx source t tx.

(** ** The whole *)

Definition set_up_call (uuid call_id : string) (caller : Edge.CallerIdentity) (is_trunk : bool) (sdp : option string)
    (request : Request) (source : SocketAddr) (t : Transport) (tx : option nat) : M (sbc_result unit) :=
  _ ← note_caller_dialog uuid request;
  _ ← identify_call uuid caller is_trunk request source;
  _ ← open_webrtc uuid call_id sdp;
  mapped ← map_did (extract_callee_aor request);
  let '(aor, did_mapped) := mapped : option string * bool in
  routing ← route uuid aor did_mapped is_trunk request source t tx;
  match routing with
  | Refused r => mret r
  | Routed dest out callee_tx request =>
      _ ← forward_invite uuid call_id caller aor dest out callee_tx request source t tx; mret (Ok tt)
  end.

Definition place_call (uuid : string) (caller : Edge.CallerIdentity) (is_trunk : bool) (request : Request) (source : SocketAddr)
    (t : Transport) (tx : option nat) : M Handled :=
  match header_of HCallId (rq_headers request) with
  | None => mret ([], Err (EOther "Missing Call-ID"))
  | Some call_id =>
      tag ← caller_tag request;
      _ ← send_trying request source t tx;
      let sdp := text_body request in
      made ← create_call E uuid call_id tag source sdp tx t;
      match made : sbc_result string with
      | Ok id => r ← set_up_call id call_id caller is_trunk sdp request source t tx; mret ([id], r)
      | Err _ =>
          _ ← respond E "503 (no media resource) → caller" request 503 "Service Unavailable" source t tx;
          mret ([], Ok tt)
      end
  end.

Definition handle_invite (uuid : string) (request : Request) (source : SocketAddr) (t : Transport) (tx : option nat)
    : M Handled :=
  unless_done (in_dialog request source t tx)
    (unless_done (retransmitted request source t tx)
      (is_trunk ← gets (fun s => Edge.is_trunk_ip (ip_text E (ip source)) (edge s));
       who ← who_calls is_trunk request source;
       match who : result Edge.IdentityVerdict Edge.CallerIdentity with
       | Err v => _ ← answer_identity_verdict E request source t tx v; mret ([], Ok tt)
       | Ok caller =>
           unless_done (within_limits caller request source t tx)
             (unless_done (admissible request source t tx) (place_call uuid caller is_trunk request source t tx))
       end)).

(** ** What it keeps *)

Section kept.
Context (R : relation Sbc) `{HK : !Kept E R}.
#[local] Instance kept_order : PreOrder R := kept_preorder E.

Lemma settled_keeps m : keeps R m -> keeps R (settled_by m).
Proof. intros Hm. unfold settled_by. keeping. Qed.

Lemma done_ok_keeps {A} (m : M A) : keeps R m -> keeps R (done_ok m).
Proof. intros Hm. unfold done_ok. keeping. Qed.

Lemma go_on_keeps : keeps R go_on.
Proof. by apply keeps_ret, _. Qed.
#[local] Hint Resolve settled_keeps done_ok_keeps go_on_keeps : keep.

Lemma skip_keeps : keeps R skip.
Proof. by apply keeps_ret, _. Qed.
#[local] Hint Resolve skip_keeps : keep.

Lemma in_dialog_keeps r src t tx : keeps R (in_dialog r src t tx).
Proof. unfold in_dialog. keeping. Qed.

Lemma retransmitted_keeps r src t tx : keeps R (retransmitted r src t tx).
Proof.
  unfold retransmitted. keeping. intros s'. unfold begin_transaction. destruct (InviteTx.begin _ _ _) as [x m].
  apply (kept_finals E s').
Qed.

Lemma who_calls_keeps b r src : keeps R (who_calls b r src).
Proof. intros s. unfold who_calls. destruct (Edge.classify_caller _ _ _ _ _ _ _ _ _ _ _). apply (kept_edge E s). Qed.

Lemma limit_keeps u : keeps R (limit_decision u).
Proof. intros s. unfold limit_decision. destruct (UserLimits.check_and_record _ _ _ _). apply (kept_edge E s). Qed.
#[local] Hint Resolve limit_keeps : keep.

Lemma within_keeps c r src t tx : keeps R (within_limits c r src t tx).
Proof. unfold within_limits. keeping. Qed.

Lemma admissible_keeps r src t tx : keeps R (admissible r src t tx).
Proof. unfold admissible, response_to. keeping. Qed.

Lemma tag_keeps r : keeps R (caller_tag r).
Proof. unfold caller_tag. keeping. Qed.

Lemma trying_keeps r src t tx : keeps R (send_trying r src t tx).
Proof. unfold send_trying. keeping. Qed.

Lemma caller_dialog_keeps u r : keeps R (note_caller_dialog u r).
Proof. unfold note_caller_dialog. keeping. by apply (update_keeps E R). Qed.

Lemma identify_keeps u c b r src : keeps R (identify_call u c b r src).
Proof.
  unfold identify_call. apply keeps_bind; [apply _|apply keeps_gets, _|intros inbound]. cbv zeta.
  apply keeps_bind; [apply _|by apply (update_keeps E R)|]. keeping.
Qed.

Lemma webrtc_keeps cid sdp : keeps R (draw_webrtc cid sdp).
Proof. apply (kept_sends E). by intros s. Qed.

Lemma webrtc_offer_keeps cid : keeps R (draw_webrtc_offer cid).
Proof. apply (kept_sends E). by intros s. Qed.
#[local] Hint Resolve webrtc_keeps webrtc_offer_keeps : keep.

Lemma open_webrtc_keeps u cid sdp : keeps R (open_webrtc u cid sdp).
Proof. unfold open_webrtc. keeping. all: intros; by apply (update_keeps E R). Qed.

Lemma finish_with_keeps u code : keeps R (finish_with u code).
Proof. unfold finish_with. keeping. Qed.
#[local] Hint Resolve finish_with_keeps : keep.

Lemma refuse_keeps u what code reason r src t tx : keeps R (refuse u what code reason r src t tx).
Proof. unfold refuse. keeping. Qed.
#[local] Hint Resolve refuse_keeps : keep.

Lemma contact_route_keeps u reg r src t tx : keeps R (route_to_contact u reg r src t tx).
Proof.
  unfold route_to_contact, connection_alive. keeping. all: intros; apply (update_keeps E R); intros c; unfold now_local; by case_bool_decide.
Qed.

Lemma destination_keeps d u : keeps R (check_destination d u).
Proof. intros s. unfold check_destination. destruct (Destination.check _ _ _). apply (kept_edge E s). Qed.
#[local] Hint Resolve destination_keeps : keep.

Lemma blocked_keeps u r src t tx : keeps R (blocked u r src t tx).
Proof. unfold blocked. keeping. Qed.
#[local] Hint Resolve blocked_keeps : keep.

Lemma place_keeps u tr : keeps R (place_on_trunk u tr).
Proof. unfold place_on_trunk. keeping. all: intros; by apply (update_keeps E R). Qed.
#[local] Hint Resolve place_keeps : keep.

Lemma trunk_route_keeps u r src t tx : keeps R (route_to_trunk u r src t tx).
Proof. unfold route_to_trunk. keeping. all: intros; by apply (update_keeps E R). Qed.
#[local] Hint Resolve contact_route_keeps trunk_route_keeps : keep.

Lemma route_keeps u aor did b r src t tx : keeps R (route u aor did b r src t tx).
Proof. unfold route, registered_contact. keeping. Qed.

Lemma offer_keeps u cid sdp : keeps R (offer_webrtc u cid sdp).
Proof.
  unfold offer_webrtc. keeping. all: intros; try (by apply (update_keeps E R)). apply (on_media_keeps E R). intros m. by apply same_on_session.
Qed.
#[local] Hint Resolve offer_keeps : keep.

Lemma rewritten_offer_keeps u cid b r : keeps R (rewritten_offer u cid b r).
Proof. unfold rewritten_offer, outbound_sdp. keeping. Qed.

Lemma outbound_text_keeps u c r out : keeps R (outbound_text u c r out).
Proof. unfold outbound_text. keeping. Qed.

Lemma setup_failed_keeps u src t tx : keeps R (setup_failed u src t tx).
Proof. unfold setup_failed. keeping. Qed.
#[local] Hint Resolve rewritten_offer_keeps outbound_text_keeps setup_failed_keeps : keep.

Lemma attach_keeps u cid tag d tx t : keeps R (b2bua_op (B2bua.attach_outbound u cid tag d tx t)).
Proof.
  apply (b2bua_op_keeps E R). intros m. unfold B2bua.attach_outbound. destruct (B2bua.calls m !! u); [|done].
  by apply (same_with_call u).
Qed.
#[local] Hint Resolve attach_keeps : keep.

Lemma send_invite_keeps u cid raw uri d out ctx src t tx : keeps R (send_invite u cid raw uri d out ctx src t tx).
Proof. unfold send_invite, outbound_trunk_of. keeping. all: intros; by apply (update_keeps E R). Qed.
#[local] Hint Resolve send_invite_keeps : keep.

Lemma forward_keeps u cid c aor d out ctx r src t tx : keeps R (forward_invite u cid c aor d out ctx r src t tx).
Proof. unfold forward_invite. keeping. all: intros; by apply (update_keeps E R). Qed.
#[local] Hint Resolve forward_keeps caller_dialog_keeps identify_keeps open_webrtc_keeps route_keeps : keep.

Lemma set_up_keeps u cid c b sdp r src t tx : keeps R (set_up_call u cid c b sdp r src t tx).
Proof. unfold set_up_call, map_did. keeping. Qed.
End kept.

(** ** Every call is on its way or over *)

#[local] Hint Resolve accounts_kept : keep.

Definition gone (uuid : string) (s : Sbc) : Prop := B2bua.calls (b2bua s) !! uuid = None.
Definition underway (uuid : string) (s : Sbc) : Prop := gone uuid s \/ invite_sent uuid s.

Lemma gone_kept uuid s s' : accounts s s' -> gone uuid s -> gone uuid s'.
Proof. intros Ha Hg. apply not_elem_of_dom. apply (accounts_live s s'); [done|]. by apply not_elem_of_dom. Qed.

Lemma gone_after {A} uuid (m : M A) s : keeps accounts m -> gone uuid s -> gone uuid (m s).2.
Proof. intros Hm. by apply gone_kept. Qed.

Lemma finish_with_gone uuid code : leaves (fun _ => gone uuid) (finish_with uuid code).
Proof.
  intros s. unfold finish_with, mbind, M_bind. destruct (B2bua.calls (b2bua s) !! uuid) as [c|] eqn:Hc.
  - assert (H := finish_call_spec E uuid (Cdr.Refused code) s c Hc). destruct (finish_call _ _ _ s) as [b s'].
    destruct H as (_ & _ & Hm & _). unfold gone. cbn. by rewrite Hm, lookup_delete_eq.
  - by rewrite finish_call_gone.
Qed.

Lemma finish_first {A} uuid code (k : unit -> M A) : keeps accounts (k tt) -> leaves (fun _ => gone uuid) (finish_with uuid code ≫= k).
Proof. intros Hk. eapply leaves_bind_with; [apply finish_with_gone|]. intros [] s Hg. by apply gone_after. Qed.

Definition settled (uuid : string) (r : Routing) (s : Sbc) : Prop := match r with Refused _ => gone uuid s | _ => True end.

Lemma refuse_settles uuid what code reason r src t tx : leaves (settled uuid) (refuse uuid what code reason r src t tx).
Proof.
  unfold refuse. eapply leaves_impl; [apply finish_first; cbn beta; keeping|]. intros [] s Hg; [exact I|exact Hg].
Qed.

Lemma blocked_gone uuid r src t tx : leaves (fun o => match o with Some _ => gone uuid | None => fun _ => True end) (blocked uuid r src t tx).
Proof.
  unfold blocked. destruct (uri_user P (rq_uri r)) as [dialed|]; [|done]. apply leaves_bind. intros [|rule desc]; [done|].
  eapply leaves_impl; [apply finish_first; cbn beta; unfold settled_by; keeping|]. by intros [].
Qed.

Lemma route_settles uuid aor did b r src t tx : leaves (settled uuid) (route uuid aor did b r src t tx).
Proof.
  unfold route. apply leaves_bind. intros [reg|].
  - unfold route_to_contact. apply leaves_bind. intros _. destruct (parse_addr E _); [|apply refuse_settles].
    apply leaves_bind. intros []; [done|apply refuse_settles].
  - destruct did; [apply refuse_settles|]. destruct b; [apply refuse_settles|]. unfold route_to_trunk.
    eapply leaves_bind_with; [apply blocked_gone|]. intros [x|] s Hg; [exact Hg|].
    refine (leaves_bind (settled uuid) _ _ _ s). intros [|tr backups]; [apply refuse_settles|]. apply leaves_bind. intros n.
    apply leaves_bind. intros _. apply leaves_bind. intros _. destruct (Trunk.destination _ _); [done|apply refuse_settles].
Qed.

Lemma setup_failed_gone uuid src t tx : leaves (fun _ => gone uuid) (setup_failed uuid src t tx).
Proof.
  unfold setup_failed. apply leaves_bind. intros c. apply finish_first. cbn beta. keeping.
Qed.

(** The INVITE recorded is the one that leaves. *)
Lemma attempt_recorded uuid call_id raw dest out callee_tx tr tag n s c :
  B2bua.calls (b2bua s) !! uuid = Some c ->
  let s1 := (b2bua_op (B2bua.attach_outbound uuid call_id tag dest callee_tx out)
              (s <| b2bua := B2bua.push_invite_attempt uuid n raw dest out tr (b2bua s) |> <| drawn := S (drawn s) |>)).2 in
  wire s1 = wire s /\ exists c1, B2bua.calls (b2bua s1) !! uuid = Some c1 /\
    last (B2bua.invite_attempts c1) = Some (B2bua.mkAttempt raw (SipBuilder.top_via_branch raw)
      (default 1 (B2bua.parse_cseq_number raw)) dest out tr).
Proof.
  intros Hc. set (s0 := s <| b2bua := _ |> <| drawn := _ |>).
  assert (H0 : B2bua.calls (b2bua s0) !! uuid = Some (B2bua.push_attempt n raw dest out tr c)).
  { change (b2bua s0) with (B2bua.push_invite_attempt uuid n raw dest out tr (b2bua s)). unfold B2bua.push_invite_attempt.
    by rewrite with_call_eq, Hc. }
  assert (Hw : wire s0 = wire s) by done. assert (Hl := last_push n raw dest out tr c). clearbody s0. rewrite <- Hw. clear Hw.
  generalize dependent (B2bua.push_attempt n raw dest out tr c). intros c0 H0 Hl.
  unfold b2bua_op, B2bua.attach_outbound. rewrite H0. cbn [snd]. split; [done|].
  change (b2bua (s0 <| b2bua := ?m |>)) with m. rewrite with_call_eq, H0. eexists. split; [reflexivity|exact Hl].
Qed.

Lemma invite_sent_ext uuid s s' :
  wire s' = wire s ->
  (forall c, B2bua.calls (b2bua s) !! uuid = Some c ->
     exists c', B2bua.calls (b2bua s') !! uuid = Some c' /\ B2bua.invite_attempts c' = B2bua.invite_attempts c) ->
  invite_sent uuid s -> invite_sent uuid s'.
Proof.
  intros Hw Hc (c & a & m & Hcall & Ha & H). destruct (Hc c Hcall) as (c' & Hc' & He). exists c', a, m. by rewrite He, Hw.
Qed.

Lemma send_invite_underway uuid call_id raw uri dest out callee_tx src t tx :
  leaves (fun _ => underway uuid) (send_invite uuid call_id raw uri dest out callee_tx src t tx).
Proof.
  intros s. destruct (B2bua.calls (b2bua s) !! uuid) as [c|] eqn:Hc.
  2: { left. apply gone_after; [|exact Hc]. by apply (send_invite_keeps accounts). }
  unfold send_invite. unfold gets. unfold mbind at 1 2, M_bind at 1 2. rewrite bind_on_b2bua, bind_draw.
  match goal with |- context [B2bua.push_invite_attempt uuid (now s) raw dest out ?tr (b2bua s)] =>
    assert (Hs := attempt_recorded uuid call_id raw dest out callee_tx tr
      (rand E (drawn (s <| b2bua := B2bua.push_invite_attempt uuid (now s) raw dest out tr (b2bua s) |>))) (now s) s c Hc) end.
  unfold mbind at 1, M_bind at 1.
  change (drawn (s <| b2bua := ?m |>)) with (drawn s) in *.
  destruct (b2bua_op _ _) as [x s1]. cbn [snd] in Hs. destruct Hs as (Hw & c1 & Hc1 & Ha1). clear x.
  unfold mbind at 1, M_bind at 1. assert (Hs := send_request_spec E "INVITE → callee" raw dest out callee_tx s1).
  destruct (send_request_tracked _ _ _ _ _ _ s1) as [ok s2]. destruct Hs as (Hok & Hw2 & Hb2 & _). destruct ok.
  - right. apply (invite_sent_ext uuid s2); [done| |].
    + intros c' Hc'. change (b2bua (on_b2bua ?f s2).2) with (f (b2bua s2)). unfold B2bua.set_callee_request_uri.
      rewrite with_call_eq, Hc'. by eexists.
    + eexists c1, _, (mkSent "INVITE → callee" raw dest out callee_tx true). rewrite Hb2, Hw2.
      split_and!; [done|exact Ha1| |done..]. apply elem_of_app. right. apply list_elem_of_singleton. by rewrite Hok.
  - refine (leaves_bind (fun _ => underway uuid) _ _ _ s2). intros name. apply leaves_bind. intros _ s3.
    destruct (failover_concludes E uuid s3) as (moved & s4 & _ & Hf & Hm). unfold mbind, M_bind. rewrite Hf.
    destruct moved; [right; apply Hm|]. left. apply setup_failed_gone.
Qed.

Lemma forward_underway uuid cid c aor d out ctx r src t tx :
  leaves (fun _ => underway uuid) (forward_invite uuid cid c aor d out ctx r src t tx).
Proof.
  unfold forward_invite. do 5 (apply leaves_bind; intros ?). apply send_invite_underway.
Qed.

Lemma set_up_underway uuid cid c b sdp r src t tx : leaves (fun _ => underway uuid) (set_up_call uuid cid c b sdp r src t tx).
Proof.
  unfold set_up_call. do 4 (apply leaves_bind; intros ?). case_match. eapply leaves_bind_with; [apply route_settles|].
  intros [d out ctx r'|x] s' Hs; [|by left].
  refine (leaves_bind_with (fun _ => underway uuid) (fun _ => underway uuid) _ _
    (forward_underway uuid cid c _ d out ctx r' src t tx) _ s').
  by intros [] s2 Hu.
Qed.

(** A call is over with its record, or its INVITE has left. *)
Definition recorded (uuid : string) (s : Sbc) : Prop := exists r, r ∈ cdrs s /\ Cdr.cdr_uuid r = uuid.
Definition accounted_for (uuid : string) (s : Sbc) : Prop := gone uuid s /\ recorded uuid s \/ invite_sent uuid s.

Definition new_calls_accounted (h : Handled) (s : Sbc) : Prop := Forall (fun u => accounted_for u s) h.1.

Lemma place_call_accounted uuid c b r src t tx : leaves new_calls_accounted (place_call uuid c b r src t tx).
Proof.
  unfold place_call. destruct (header_of HCallId (rq_headers r)) as [cid|]; [|by intros s; constructor].
  apply leaves_bind. intros tag. apply leaves_bind. intros _ s. unfold mbind, M_bind.
  assert (Hs := create_call_spec E uuid cid tag src (text_body r) tx t s).
  destruct (create_call E uuid cid tag src (text_body r) tx t s) as [[id|e] s1].
  - destruct Hs as (_ & _ & -> & x & _ & Hc & _).
    assert (Hu := set_up_underway uuid cid c b (text_body r) r src t tx s1).
    assert (Ha : accounts s1 (set_up_call uuid cid c b (text_body r) r src t tx s1).2) by apply (set_up_keeps accounts).
    destruct (set_up_call uuid cid c b (text_body r) r src t tx s1) as [x' s2]. cbn [fst snd] in *.
    constructor; [|constructor]. change (accounted_for uuid s2). destruct Hu as [Hg|Hi]; [left|by right]. split; [done|].
    destruct Ha as (w & Hw & Hp).
    assert (Hin : uuid ∈ map Cdr.cdr_uuid w ++ elements (live s2)).
    { rewrite <- Hp. apply elem_of_elements. unfold live. rewrite Hc, dom_insert_L. set_solver. }
    apply elem_of_app in Hin as [Hin|Hin].
    + apply list_elem_of_fmap in Hin as (rec & -> & Hrec). exists rec. split; [|done]. rewrite Hw. apply elem_of_app. by right.
    + apply elem_of_elements in Hin. unfold live in Hin. apply elem_of_dom in Hin. unfold gone in Hg. rewrite Hg in Hin. by destruct Hin.
  - destruct (respond _ _ _ _ _ _ _ _ _) as [[] s2]. constructor.
Qed.

Lemma unless_accounted m k : leaves new_calls_accounted k -> leaves new_calls_accounted (unless_done m k).
Proof. intros Hk. apply leaves_bind. intros [x|]; [intros s; constructor|exact Hk]. Qed.

Lemma invite_accounted uuid r src t tx : leaves new_calls_accounted (handle_invite uuid r src t tx).
Proof.
  unfold handle_invite. do 2 apply unless_accounted. do 2 (apply leaves_bind; intros ?). case_match.
  - do 2 apply unless_accounted. apply place_call_accounted.
  - apply leaves_bind. intros _ s. constructor.
Qed.

(** ** A trunk's call *)

Section transit.
Context (uuid : string) (source : SocketAddr) (bindings : Registrar.InMemoryRegistrar) (time : Z).

(** An address that a live binding of the registrar was received from. *)
Definition bound (d : SocketAddr) : Prop :=
  exists aor reg, reg ∈ Registrar.handler_lookup Registrar.mem_ops time aor bindings /\
    parse_addr E (Registrar.received_ip reg +:+ ":" +:+ show (Registrar.received_port reg)) = Some d.

(** The call [uuid], if there is one, has no trunk to go to, now or after a
    failure. *)
Definition no_trunk (s : Sbc) : Prop :=
  forall c, B2bua.calls (b2bua s) !! uuid = Some c -> B2bua.trunk_id c = None /\ B2bua.failover c = None.

Definition from_trunk (e : Edge.Edge) : Prop :=
  Edge.registrar e = bindings /\ Edge.is_trunk_ip (ip_text E (ip source)) e = true.

Definition ready (s : Sbc) : Prop := no_trunk s /\ from_trunk (edge s) /\ wall s = time.

(** While that is so: it stays so, and what is sent goes back to the source or
    to a registered contact. *)
Definition local_only (s s' : Sbc) : Prop :=
  ready s -> ready s' /\ exists sent, wire s' = wire s ++ sent /\ Forall (fun m => s_dest m = source \/ bound (s_dest m)) sent.

#[local] Instance local_only_preorder : PreOrder local_only.
Proof.
  split.
  - intros s H. split; [done|]. exists []. by rewrite app_nil_r.
  - intros s1 s2 s3 H12 H23 H1. destruct (H12 H1) as (H2 & l2 & E2 & F2). destruct (H23 H2) as (H3 & l3 & E3 & F3).
    split; [done|]. exists (l2 ++ l3). rewrite E3, E2, app_assoc. split; [done|]. by apply Forall_app.
Qed.

(** What sends nothing. *)
Lemma quiet_local s s' :
  (no_trunk s -> no_trunk s') -> edge s' = edge s -> wall s' = wall s -> wire s' = wire s -> local_only s s'.
Proof.
  intros Hn Hr Hw Hq (H & Hb & Ht). split; [unfold ready; rewrite Hr, Hw; auto|]. exists []. by rewrite app_nil_r.
Qed.

(** What only sends one message, to the source or to a contact. *)
Lemma sent_local s s' m :
  sends_only s s' -> wire s' = wire s ++ [m] -> s_dest m = source \/ bound (s_dest m) -> local_only s s'.
Proof.
  intros [Hc _] Hw Hm (Hn & Hr & Hl). assert (Hq : b2bua s' = b2bua s /\ edge s' = edge s /\ wall s' = wall s) by (injection Hc; auto).
  destruct Hq as (Hb & He & Hl'). split; [unfold ready, no_trunk; by rewrite Hb, He, Hl'|]. exists [m]. split; [done|by constructor].
Qed.

(** A step, and what its answer is then known to be. *)
Lemma then_local {A B} (Q : A -> Prop) (m : M A) (k : A -> M B) :
  keeps local_only m -> (forall s, ready s -> Q (m s).1) -> (forall a, Q a -> keeps local_only (k a)) -> keeps local_only (m ≫= k).
Proof.
  intros Hm HQ Hk s Hs. unfold mbind, M_bind. specialize (HQ s Hs). specialize (Hm s). destruct (m s) as [a s'].
  refine ((_ : local_only s _) Hs). etrans; [exact Hm|]. by apply Hk.
Qed.

Lemma send_local what data d t tx : d = source \/ bound d -> keeps local_only (send_sip E what data d t tx).
Proof.
  intros Hd s. assert (Hs := send_sends E what data d t tx s). assert (Hp := send_sip_spec E what data d t tx s).
  destruct (send_sip E what data d t tx s) as [b s']. destruct Hp as (_ & Hw & _). by eapply sent_local.
Qed.

Lemma draw_local : keeps local_only (draw E).
Proof. intros s. by apply quiet_local. Qed.

Lemma draw_closed_local x : keeps local_only (draw_closed E x).
Proof. intros s. by apply quiet_local. Qed.

Lemma send_back_local what m t tx : keeps local_only (send_to E what m source t tx).
Proof. apply keeps_bind; [apply _|by apply send_local; left|intros _; by apply keeps_ret, _]. Qed.
#[local] Hint Resolve draw_local draw_closed_local send_back_local : keep.

Lemma respond_local what r code reason t tx : keeps local_only (respond E what r code reason source t tx).
Proof. unfold respond, response_to, plain_response. keeping. Qed.

Lemma respond_or_fail_local what r code t tx : keeps local_only (respond_or_fail E what r code source t tx).
Proof. unfold respond_or_fail, plain_response. keeping. Qed.
#[local] Hint Resolve respond_local respond_or_fail_local : keep.

Lemma plain_local r code : keeps local_only (plain_response E r code).
Proof. unfold plain_response. keeping. Qed.
#[local] Hint Resolve plain_local : keep.

(** An update of a call that gives it no trunk. *)
Definition keeps_off (f : B2bua.B2buaCall -> B2bua.B2buaCall) : Prop := forall c,
  B2bua.trunk_id c = None -> B2bua.failover c = None -> B2bua.trunk_id (f c) = None /\ B2bua.failover (f c) = None.

Lemma update_off u f s s' :
  keeps_off f -> b2bua s' = B2bua.with_call u f (b2bua s) -> no_trunk s -> no_trunk s'.
Proof.
  intros Hf Hb Hn c Hc. rewrite Hb in Hc. destruct (decide (u = uuid)) as [->|Hu].
  - rewrite with_call_eq in Hc. apply fmap_Some in Hc as (c0 & Hc0 & ->). destruct (Hn c0 Hc0). by apply Hf.
  - apply Hn. change (alter f u (B2bua.calls (b2bua s)) !! uuid = Some c) in Hc. by rewrite lookup_alter_ne in Hc.
Qed.

Lemma update_local u f : keeps_off f -> keeps local_only (on_b2bua (B2bua.with_call u f)).
Proof. intros Hf s. apply quiet_local; [by apply (update_off u f)|done..]. Qed.

Lemma edge_local s e :
  Edge.registrar e = Edge.registrar (edge s) -> Edge.trunk_ips e = Edge.trunk_ips (edge s) -> local_only s (s <| edge := e |>).
Proof.
  intros Hr Hi (Hn & [Hb Ht] & Hw). split; [split; [exact Hn|split; [|exact Hw]]|exists []; by rewrite app_nil_r].
  change (from_trunk e). unfold from_trunk, Edge.is_trunk_ip in *. by rewrite Hr, Hi.
Qed.

Lemma count_local u tr : keeps local_only (count_call_on_trunk u tr).
Proof.
  intros s. unfold count_call_on_trunk. destruct (B2bua.calls (b2bua s) !! u) as [c0|]; [|reflexivity].
  case_bool_decide; [reflexivity|]. apply quiet_local; [|done..]. by apply (update_off u (fun c => c <| B2bua.trunk_counted := tr |>)).
Qed.

Lemma failure_local n ra : keeps local_only (note_trunk_failure n ra).
Proof. intros s. unfold note_trunk_failure. destruct (Trunk.note_trunk_failure _ _ _ _) as [[[]|] m]; by apply quiet_local. Qed.

Definition quiet (s s' : Sbc) : Prop := b2bua s' = b2bua s /\ edge s' = edge s /\ wall s' = wall s /\ wire s' = wire s.

#[local] Instance quiet_preorder : PreOrder quiet.
Proof.
  split; [done|]. intros s1 s2 s3 (B1 & E1 & L1 & W1) (B2 & E2 & L2 & W2). unfold quiet. split_and!; congruence.
Qed.

Lemma emit_quiet es : keeps quiet (emit E es).
Proof. apply keeps_for_each; [apply _|]. intros e _ s. by destruct e. Qed.

Lemma terminate_local u why : keeps local_only (terminate E u why).
Proof.
  intros s. unfold terminate. destruct (B2bua.terminate_call_with_reason u (now s) why (b2bua s)) as [es m] eqn:Et.
  destruct (emit_quiet es (s <| b2bua := m |>)) as (H1 & H2 & H3 & H4). apply quiet_local; [|by rewrite ?H2, ?H3, ?H4..].
  intros Hn c Hc. rewrite H1 in Hc. change (b2bua (s <| b2bua := m |>)) with m in Hc. apply (Hn c).
  unfold B2bua.terminate_call_with_reason in Et. destruct (B2bua.calls (b2bua s) !! u); [|by injection Et as <- <-].
  injection Et as <- <-. change (delete u (B2bua.calls (b2bua s)) !! uuid = Some c) in Hc. by apply lookup_delete_Some in Hc as [_ Hc].
Qed.
#[local] Hint Resolve count_local failure_local terminate_local : keep.

Lemma finish_local u o : keeps local_only (finish_call E u o).
Proof.
  unfold finish_call. keeping; intros s; apply quiet_local; try done; unfold forget_media_stats; by case_match.
Qed.
#[local] Hint Resolve finish_local : keep.

Lemma finish_with_local u code : keeps local_only (finish_with u code).
Proof. unfold finish_with. keeping. Qed.
#[local] Hint Resolve finish_with_local : keep.

Lemma setup_failed_local u t tx : keeps local_only (setup_failed u source t tx).
Proof. unfold setup_failed. keeping. Qed.
#[local] Hint Resolve setup_failed_local : keep.

(** With no trunk to fail over to, nothing is tried. *)
Lemma failover_local : keeps local_only (failover_to_next_trunk E uuid).
Proof.
  intros s. unfold failover_to_next_trunk, gets, mbind, M_bind. cbn [failover_loop]. unfold gets, mbind, M_bind, b2bua_op.
  unfold B2bua.take_next_failover_candidate, B2bua.on_call. destruct (B2bua.calls (b2bua s) !! uuid) as [c|] eqn:Hc.
  2: { apply quiet_local; try done. }
  intros Hs. destruct (proj1 Hs c Hc) as [_ Hf]. unfold B2bua.take_next. rewrite Hf. revert Hs. apply quiet_local; try done.
  intros Hn c' Hc'. change (<[uuid := c]> (B2bua.calls (b2bua s)) !! uuid = Some c') in Hc'. apply Hn. by rewrite insert_id in Hc'.
Qed.
#[local] Hint Resolve failover_local : keep.

Lemma trunkless s : no_trunk s -> (fun i => i.1.2) <$> B2bua.get_auth_retry_info uuid (b2bua s) = None.
Proof.
  intros Hn. unfold B2bua.get_auth_retry_info. destruct (B2bua.calls (b2bua s) !! uuid) as [c|] eqn:Hc; [|done].
  destruct (Hn c Hc) as [Ht _]. cbn. rewrite Ht. by destruct (B2bua.original_outbound_invite c).
Qed.

Lemma attach_local u cid tag d tx t : keeps local_only (b2bua_op (B2bua.attach_outbound u cid tag d tx t)).
Proof.
  intros s. unfold b2bua_op, B2bua.attach_outbound. destruct (B2bua.calls (b2bua s) !! u); [|by apply quiet_local].
  by apply (update_local u).
Qed.

Lemma tracked_local what data d t tx : bound d -> keeps local_only (send_request_tracked E what data d t tx).
Proof.
  intros Hd s. assert (Hs := send_request_sends E what data d t tx s). assert (Hp := send_request_spec E what data d t tx s).
  destruct (send_request_tracked E what data d t tx s) as [b s']. destruct Hp as (_ & Hw & _). eapply sent_local; [done..|by right].
Qed.
#[local] Hint Resolve attach_local tracked_local : keep.

Lemma send_invite_local cid raw uri d out ctx t tx :
  bound d -> keeps local_only (send_invite uuid cid raw uri d out ctx source t tx).
Proof.
  intros Hd. unfold send_invite. eapply (then_local (eq None)); [apply keeps_gets, _|intros s [Hn _]; symmetry; by apply trunkless|intros ? <-]. unfold outbound_trunk_of. keeping.
  all: intros; apply update_local; intros c Ht Hf; cbn; rewrite ?Ht, ?Hf; done.
Qed.

Lemma media_local f : keeps local_only (on_media f).
Proof. intros s. by apply quiet_local. Qed.

Lemma webrtc_local cid sdp : keeps local_only (draw_webrtc cid sdp).
Proof. intros s. by apply quiet_local. Qed.

Lemma webrtc_offer_local cid : keeps local_only (draw_webrtc_offer cid).
Proof. intros s. by apply quiet_local. Qed.
#[local] Hint Resolve media_local webrtc_local webrtc_offer_local send_invite_local : keep.

Lemma offer_local u cid sdp : keeps local_only (offer_webrtc u cid sdp).
Proof. unfold offer_webrtc. keeping. all: intros; by apply update_local. Qed.
#[local] Hint Resolve offer_local : keep.

Lemma forward_local cid c aor d out ctx r t tx :
  bound d -> keeps local_only (forward_invite uuid cid c aor d out ctx r source t tx).
Proof.
  intros Hd. unfold forward_invite, rewritten_offer, outbound_sdp, outbound_text. keeping. all: intros; by apply update_local.
Qed.

Lemma refuse_local u what code reason r t tx : keeps local_only (refuse u what code reason r source t tx).
Proof. unfold refuse. keeping. Qed.
#[local] Hint Resolve refuse_local : keep.

Lemma unless_local m k : keeps local_only m -> keeps local_only k -> keeps local_only (unless_done m k).
Proof. intros Hm Hk. unfold unless_done. keeping. Qed.

Lemma retransmitted_local r t tx : keeps local_only (retransmitted r source t tx).
Proof.
  unfold retransmitted, done_ok, go_on, begin_transaction. keeping.
  intros s0. destruct (InviteTx.begin _ _ _) as [x m]. by apply quiet_local.
Qed.

Lemma strike_local i u m : keeps local_only (strike E i u m).
Proof.
  intros s. unfold strike. cbn [snd]. unfold Edge.strike, Edge.record_auth_failure.
  destruct (Ban.record_failure _ _ _ _ _ _ _) as [[entry|] b]; [|by apply edge_local]. unfold Edge.persist_ban.
  case_match; by apply edge_local.
Qed.

Lemma challenge_local stale : keeps local_only (new_challenge E stale).
Proof.
  unfold new_challenge. keeping. intros nonce s0. unfold challenge_with. destruct (Edge.auth (edge s0)); [|reflexivity].
  destruct (Auth.generate_challenge_with _ _ _ _). by apply edge_local.
Qed.
#[local] Hint Resolve strike_local challenge_local : keep.

Lemma verdict_local r t tx v : keeps local_only (answer_identity_verdict E r source t tx v).
Proof. unfold answer_identity_verdict, response_to. keeping. Qed.

Lemma classify_edge id r src here tr user e :
  let e' := (Edge.classify_caller (ip_text E) (show_addr E) (hash E) time id r src here tr user e).2 in
  Edge.registrar e' = Edge.registrar e /\ Edge.trunk_ips e' = Edge.trunk_ips e.
Proof.
  unfold Edge.classify_caller, Edge.verify, Edge.flag_identity_mismatch, Edge.emit. cbv zeta.
  destruct here; [done|]. destruct (Registrar.mem_registered_users _ _ _) as [l1 l2].
  destruct tr; [by repeat case_match|]. destruct l1; [|by repeat case_match]. destruct user as [u|]; [|by repeat case_match].
  destruct (Edge.is_local_user u l2 e); [|by repeat case_match]. case_match; [|done]. case_match; [|done].
  destruct (header_value r _); [|done].
  match goal with |- context [Auth.verify_with ?a ?b ?c ?d ?e] => destruct (Auth.verify_with a b c d e) as [[proved|f] a'] end; by repeat case_match.
Qed.

Lemma who_local b r : keeps local_only (who_calls b r source).
Proof.
  intros s Hs. revert Hs. unfold who_calls.
  assert (H := classify_edge (identity s) r source (local_host (ip_text E (ip source))) b (caller_name r) (edge s)).
  intros Hs. destruct Hs as (Hn & He & Hw). rewrite Hw in *.
  destruct (Edge.classify_caller _ _ _ _ _ _ _ _ _ _ _) as [x e]. cbn [snd] in *. destruct H as [H1 H2].
  by apply (edge_local s e).
Qed.

Lemma limit_local u : keeps local_only (limit_decision u).
Proof.
  intros s. unfold limit_decision. destruct (UserLimits.check_and_record _ _ _ _) as [d l]. apply edge_local; by destruct d.
Qed.
#[local] Hint Resolve limit_local : keep.

Lemma within_local c r t tx : keeps local_only (within_limits c r source t tx).
Proof. unfold within_limits, settled_by, done_ok, go_on. keeping. Qed.

Lemma admissible_local r t tx : keeps local_only (admissible r source t tx).
Proof. unfold admissible, settled_by, done_ok, go_on, response_to. keeping. Qed.

Lemma trying_local r t tx : keeps local_only (send_trying r source t tx).
Proof. unfold send_trying. keeping. Qed.

Lemma tag_local r : keeps local_only (caller_tag r).
Proof. unfold caller_tag. keeping. Qed.

Lemma create_local cid tag sdp tx t : keeps local_only (create_call E uuid cid tag source sdp tx t).
Proof.
  intros s. unfold create_call, B2bua.create_call.
  assert (Hnew : forall {A} (r : A) es s1, (no_trunk s -> no_trunk s1) -> edge s1 = edge s -> wall s1 = wall s -> wire s1 = wire s ->
    local_only s (let '(_, s2) := emit E es s1 in (r, s2)).2).
  { intros A r es s1 Hn He Hl Hw. destruct (emit_quiet es s1) as (H1 & H2 & H3 & H4).
    destruct (emit E es s1) as [x s2]. cbn [snd] in *. apply quiet_local; [|congruence..]. unfold no_trunk. rewrite H1. exact Hn. }
  assert (Hc : forall c : B2bua.B2buaCall, B2bua.trunk_id c = None -> B2bua.failover c = None ->
    forall c', <[uuid := c]> (B2bua.calls (b2bua s)) !! uuid = Some c' -> B2bua.trunk_id c' = None /\ B2bua.failover c' = None).
  { intros c Ht Hf c' Hc'. rewrite lookup_insert_eq in Hc'. by injection Hc' as <-. }
  destruct sdp as [d|]; [destruct (Media.create_session _ _ _ _ _ _) as [[x|e] md]|]; apply Hnew; try done.
  - intros _ c'. eapply Hc; reflexivity.
  - intros _ c'. eapply Hc; reflexivity.
Qed.

Lemma caller_dialog_local r : keeps local_only (note_caller_dialog uuid r).
Proof. unfold note_caller_dialog. keeping. by apply update_local. Qed.

Lemma identify_local c b r : keeps local_only (identify_call uuid c b r source).
Proof. unfold identify_call. keeping. all: intros; by apply update_local. Qed.

Lemma open_webrtc_local cid sdp : keeps local_only (open_webrtc uuid cid sdp).
Proof. unfold open_webrtc. keeping. all: intros; by apply update_local. Qed.

(** Its callee is a registered contact, or it is refused. *)
Lemma route_local aor did r t tx : keeps local_only (route uuid aor did true r source t tx).
Proof.
  unfold route, registered_contact, route_to_contact, connection_alive. keeping.
  intros; apply update_local; intros c Ht Hf; unfold now_local; by case_bool_decide.
Qed.

Definition local_route (x : Routing) : Prop := match x with Routed d _ _ _ => bound d | Refused _ => True end.

Lemma refuse_routes u what code reason r t tx s : local_route (refuse u what code reason r source t tx s).1.
Proof.
  unfold refuse. unfold mbind, M_bind. destruct (finish_with _ _ _) as [[] s1]. by destruct (respond _ _ _ _ _ _ _ _ _) as [[] s2].
Qed.

Lemma route_routes aor did r t tx s : ready s -> local_route (route uuid aor did true r source t tx s).1.
Proof.
  intros (_ & [Hb _] & Hw). unfold route. unfold registered_contact, gets, mbind at 1, M_bind at 1. rewrite Hb, Hw.
  destruct aor as [aor|]; cbn [mbind option_bind].
  2: { destruct did; apply refuse_routes. }
  destruct (max_by _ _) as [reg|] eqn:Hm; [|destruct did; apply refuse_routes].
  apply max_by_elem in Hm. unfold route_to_contact. unfold mbind at 1, M_bind at 1. cbn.
  destruct (parse_addr E _) as [d|] eqn:Hp; [|apply refuse_routes].
  assert (Hd : bound d) by (exists aor, reg; done).
  unfold mbind, M_bind. match goal with |- context [let '(a, s) := ?m ?s0 in _] => destruct (m s0) as [[] s2] end; [done|apply refuse_routes].
Qed.
#[local] Hint Resolve caller_dialog_local identify_local open_webrtc_local forward_local : keep.

Lemma set_up_local cid c sdp r t tx : keeps local_only (set_up_call uuid cid c true sdp r source t tx).
Proof.
  unfold set_up_call, map_did. do 3 (apply keeps_bind; [apply _|auto with keep|intros _]).
  apply keeps_bind; [apply _|by apply keeps_gets, _|]. intros [aor did].
  apply (then_local local_route); [apply route_local|intros s Hs; by apply route_routes|].
  intros [d out ctx r'|x] Hd; cbn in Hd; keeping.
Qed.
#[local] Hint Resolve set_up_local tag_local trying_local : keep.

Lemma place_local c r t tx : keeps local_only (place_call uuid c true r source t tx).
Proof.
  unfold place_call. destruct (header_of HCallId (rq_headers r)) as [cid|]; [|by apply keeps_ret, _].
  apply keeps_bind; [apply _|auto with keep|intros tag]. apply keeps_bind; [apply _|auto with keep|intros _].
  cbv zeta. apply (then_local (fun m => match m with Ok id => id = uuid | Err _ => True end)); [apply create_local| |].
  - intros s _. assert (H := create_call_spec E uuid cid tag source (text_body r) tx t s).
    destruct (create_call _ _ _ _ _ _ _ _ s) as [[id|e] s']; [|done]. by destruct H as (_ & _ & -> & _).
  - intros [id|e]; [intros ->|]; keeping.
Qed.

Lemma invite_local r t tx : has_to_tag r = false -> keeps local_only (handle_invite uuid r source t tx).
Proof.
  intros Ht. unfold handle_invite. apply unless_local; [unfold in_dialog; rewrite Ht; by apply keeps_ret, _|].
  apply unless_local; [apply retransmitted_local|].
  apply (then_local (eq true)); [by apply keeps_gets, _|by intros s (_ & [_ Hi] & _)|intros ? <-].
  apply keeps_bind; [apply _|apply who_local|intros [caller|v]].
  - apply unless_local; [apply within_local|]. apply unless_local; [apply admissible_local|apply place_local].
  - apply keeps_bind; [apply _|apply verdict_local|intros _; by apply keeps_ret, _].
Qed.
End transit.

(** C12: the SBC is no transit switch. An INVITE outside any dialog whose
    source address is one of the trunks' never goes out to a trunk again,
    whatever it asks for and whatever is configured: every message that handling it
    sends goes back to its source or to the address of a live binding of the
    registrar, and the call it may leave behind has no trunk, neither now nor
    to fail over to. *)
Theorem trunk_never_transits uuid request source t tx s :
  has_to_tag request = false -> Edge.is_trunk_ip (ip_text E (ip source)) (edge s) = true ->
  B2bua.calls (b2bua s) !! uuid = None ->
  let s' := (handle_invite uuid request source t tx s).2 in
  (exists sent, wire s' = wire s ++ sent /\
     Forall (fun m => s_dest m = source \/ bound (Edge.registrar (edge s)) (wall s) (s_dest m)) sent) /\
  (forall c, B2bua.calls (b2bua s') !! uuid = Some c -> B2bua.trunk_id c = None /\ B2bua.failover c = None).
Proof.
  intros Ht Hi Hf s'. destruct (invite_local uuid source (Edge.registrar (edge s)) (wall s) request t tx Ht s) as ((Hn & _) & Hs).
  - split_and!; [|done..]. intros c Hc. by rewrite Hf in Hc.
  - by split.
Qed.
End env.

Module Witness.
Import Teardown.Witness.

#[local] Existing Instances trunk_iter call_iter client_iter invite_iter.
#[local] Instance binding_iter : HashIter Registrar.RegKey Registrar.Registration :=
  canonical_iter Registrar.RegKey Registrar.Registration.

(** An INVITE of the trunk for a number nobody has. *)
Definition inbound : Request :=
  mkRequest "INVITE" "sip:33699999999@h"
    [(HVia, "SIP/2.0/UDP trunk;branch=z9hG4bKt"); (HFrom, "<sip:33612345678@trunk>;tag=1"); (HTo, "<sip:33699999999@h>");
     (HCallId, "t1"); (HCSeq, "1 INVITE"); (HContact, "<sip:33612345678@192.0.2.9>")] "".

Lemma trunk_never_transits_witness :
  let s := busy <| edge := edge busy <| Edge.trunk_ips := [ip_text env0 (ip B2bua.Witness.trunk_addr)] |> |> in
  let s' := (handle_invite env0 "u9" inbound B2bua.Witness.trunk_addr Udp None s).2 in
  map s_what (wire s') = ["100 Trying → caller"; "404 → trunk"] /\
  Forall (fun m => s_dest m = B2bua.Witness.trunk_addr \/ bound env0 (Edge.registrar (edge s)) (wall s) (s_dest m)) (wire s').
Proof.
  intros s s'. split; [by vm_compute|].
  destruct (trunk_never_transits env0 "u9" inbound B2bua.Witness.trunk_addr Udp None s
              ltac:(by vm_compute) ltac:(by vm_compute) ltac:(by vm_compute)) as [(sent & Hw & HF) _].
  change (wire s) with ([] : list Sent) in Hw. fold s' in Hw. rewrite Hw. exact HF.
Defined.
End Witness.
