(* ===== verification/Dispatch.v ===== *)
(** * From the transports to the handlers (sbc/mod.rs)

    A message received: the bans, the access list and the rate limits, the
    transaction a response ends, and the handler of its method. *)

From S2P Require Import Prelude Str Bytes Net Sbc Messages Teardown ResponseHandler CallHandler Access InviteHandler.
From S2P Require Ban Acl Dos Registrar Edge Trunk B2bua ClientTx InviteTx.

Abbreviation SipMessage := (Request + Response)%type.

Section env.
Context (E : Env) {HT : HashIter Trunk.TrunkId Trunk.TrunkConfig} {HB : HashIter B2bua.CallUuid B2bua.B2buaCall}
  {HI : HashIter string InviteTx.TxEntry} {HR : HashIter Registrar.RegKey Registrar.Registration}
  {HA : HashIter string (@Acl.AclRule string)}.

Abbreviation P := (parser E).

(** ** The three gates *)

Definition is_banned (source : SocketAddr) : M bool :=
  fun s =>
    let e := edge s in
    let '(b, m) := Ban.is_banned (wall s) (ip source) (Edge.bans (Edge.security e)) in
    (b, s <| edge := e <| Edge.security := Edge.security e <| Edge.bans := m |> |> |>).

Definition in_network (n : string) (i : IpAddr) : bool :=
  match network E n with Some contains => contains i | None => false end.

Definition acl_check (source : SocketAddr) : M bool :=
  fun s =>
    let e := edge s in
    let '(r, a) := Acl.check_addr in_network source Acl.Inbound (Edge.acl e) in
    (Acl.is_allowed r, s <| edge := e <| Edge.acl := a |> |>).

Definition dos_check (source : SocketAddr) : M bool :=
  fun s =>
    let e := edge s in
    let '(r, d) := Dos.check_addr (now s) source (Edge.dos e) in
    (Dos.is_allowed r, s <| edge := e <| Edge.dos := d |> |>).

(** The refusal of a message; a response gets the bare one. *)
Definition refuse_message (what : string) (m : SipMessage) (status : Z) (reason : string) (source : SocketAddr) (t : Transport)
    (tx : option nat) : M unit :=
  tag ← draw E;
  send_to E what
    (response_for_message (typed_to P) (has_tag E) (push_tag P) (fun v => v) (reason_phrase E) tag m status reason) source t tx.

(** ** The handlers *)

(** A response ends the transaction of the request it answers. *)
Definition end_transaction (r : Response) : M unit :=
  modify (fun s =>
    match header_of HVia (rs_headers r), header_of HCSeq (rs_headers r) with
    | Some via, Some cseq =>
        match ClientTx.branch_param via, head (tail (split_whitespace cseq)) with
        | Some branch, Some method =>
            if bool_decide (client_tx s = ∅) then s
            else s <| client_tx := (ClientTx.answered_parts branch (to_ascii_uppercase method) (rs_status r) (client_tx s)).2 |>
        | _, _ => s
        end
    | _, _ => s
    end).

Definition created_none (m : M (sbc_result unit)) : M Handled := r ← m; mret ([], r).
Definition handled (m : M unit) : M Handled := _ ← m; mret ([], Ok tt).

(** [uuid]: the identifier of the call that an INVITE would create. *)
Definition handle_request (uuid : string) (request : Request) (source : SocketAddr) (t : Transport) (tx : option nat)
    : M Handled :=
  let method := rq_method request in
  if seqb method "OPTIONS" then created_none (handle_options E request source t tx)
  else if seqb method "REGISTER" then created_none (handle_register E request source t tx)
  else if seqb method "INVITE" then handle_invite E uuid request source t tx
  else if seqb method "ACK" then handled (handle_ack E request)
  else if seqb method "BYE" then handled (handle_bye E request source t tx)
  else if seqb method "CANCEL" then handled (handle_cancel E request source t tx)
  else if seqb method "REFER" then created_none (handle_refer E request source t tx)
  else if seqb method "INFO" then handled (handle_info E request source t tx)
  else handled (refuse_method E request source t tx).

Definition dispatch (uuid : string) (m : SipMessage) (source : SocketAddr) (t : Transport) (tx : option nat) : M Handled :=
  match m with
  | inl request => handle_request uuid request source t tx
  | inr response => _ ← end_transaction response; handled (handle_response E response source tx)
  end.

Definition handle_message (uuid : string) (m : SipMessage) (source : SocketAddr) (t : Transport) (tx : option nat) : M Handled :=
  banned ← is_banned source;
  if (banned : bool) then
    silent ← gets (fun s => Ban.silent_drop (Edge.bans (Edge.security (edge s))));
    if (silent : bool) then mret ([], Ok tt)
    else handled (refuse_message "403 (banned) → source" m 403 "Forbidden" source t tx)
  else
    allowed ← acl_check source;
    if negb (allowed : bool) then mret ([], Ok tt)
    else
      within ← dos_check source;
      if negb (within : bool) then
        handled (refuse_message "503 (rate-limited) → source" m 503 "Service Unavailable" source t tx)
      else dispatch uuid m source t tx.

(** ** What a message changes *)

(** A run of [m] from [s]: no call is created and [R] holds; or one is, by
    [create_call] under [uuid], with [R] before and after. *)
Definition around (R : relation Sbc) (uuid : string) (m : M Handled) : Prop :=
  forall s,
    (R s (m s).2 /\ (m s).1.1 = []) \/
    exists cid tag caller sdp tx t s1,
      R s s1 /\
      let '(r, s2) := create_call E uuid cid tag caller sdp tx t s1 in
      R s2 (m s).2 /\ (m s).1.1 = (match r with Ok id => [id] | Err _ => [] end).

Section kept.
Context (R : relation Sbc) `{HK : !Kept E R}.
#[local] Instance kept_order : PreOrder R := kept_preorder E.

Lemma ban_check_keeps src : keeps R (is_banned src).
Proof. intros s. unfold is_banned. destruct (Ban.is_banned _ _ _). apply (kept_edge E s). Qed.

Lemma acl_keeps src : keeps R (acl_check src).
Proof. intros s. unfold acl_check. destruct (Acl.check_addr _ _ _ _). apply (kept_edge E s). Qed.

Lemma dos_keeps src : keeps R (dos_check src).
Proof. intros s. unfold dos_check. destruct (Dos.check_addr _ _ _). apply (kept_edge E s). Qed.

Lemma refuse_message_keeps what m st reason src t tx : keeps R (refuse_message what m st reason src t tx).
Proof. unfold refuse_message. keeping. Qed.

Lemma end_transaction_keeps r : keeps R (end_transaction r).
Proof. intros s. unfold end_transaction, modify. cbn [snd]. repeat case_match; try reflexivity. apply (kept_requests E s). Qed.

Lemma around_handled u (m : M unit) : keeps R m -> around R u (handled m).
Proof.
  intros Hm s. left. specialize (Hm s). unfold handled, mbind, M_bind. destruct (m s) as [[] s']. by split.
Qed.

Lemma around_created_none u (m : M (sbc_result unit)) : keeps R m -> around R u (created_none m).
Proof.
  intros Hm s. left. specialize (Hm s). unfold created_none, mbind, M_bind. destruct (m s) as [r s']. by split.
Qed.

Lemma around_ret u r : around R u (mret ([], r)).
Proof. intros s. left. by split; [reflexivity|]. Qed.

(** What comes before a call is created. *)
Lemma around_bind {A} u (m : M A) (f : A -> M Handled) : keeps R m -> (forall a, around R u (f a)) -> around R u (m ≫= f).
Proof.
  intros Hm Hf s. unfold mbind, M_bind. specialize (Hm s). destruct (m s) as [a s1]. cbn [snd] in Hm.
  destruct (Hf a s1) as [[Hr Hn]|(cid & tag & c & sdp & tx & t & s2 & Hr & Hc)].
  - left. split; [by etrans|done].
  - right. exists cid, tag, c, sdp, tx, t, s2. split; [by etrans|done].
Qed.

Lemma around_unless u m k : keeps R m -> around R u k -> around R u (unless_done m k).
Proof. intros Hm Hk. apply around_bind; [done|]. intros [r|]; [apply around_ret|done]. Qed.

Lemma place_call_around u c b r src t tx : around R u (place_call E u c b r src t tx).
Proof.
  unfold place_call. destruct (header_of HCallId (rq_headers r)) as [cid|]; [|apply around_ret].
  apply around_bind; [apply (tag_keeps E R)|]. intros tag. apply around_bind; [apply (trying_keeps E R)|]. intros _ s. right.
  exists cid, tag, src, (text_body r), tx, t, s. split; [reflexivity|]. unfold mbind, M_bind.
  assert (Hs := create_call_spec E u cid tag src (text_body r) tx t s).
  destruct (create_call E u cid tag src (text_body r) tx t s) as [[id|e] s2].
  - assert (Hk := set_up_keeps E R id cid c b (text_body r) r src t tx s2).
    destruct (set_up_call E id cid c b (text_body r) r src t tx s2) as [r' s3]. by split.
  - assert (Hk := respond_keeps E R "503 (no media resource) → caller" r 503 "Service Unavailable" src t tx s2).
    destruct (respond E _ r 503 _ src t tx s2) as [[] s3]. by split.
Qed.

Lemma invite_around u r src t tx : around R u (handle_invite E u r src t tx).
Proof.
  unfold handle_invite. apply around_unless; [apply (in_dialog_keeps E R)|].
  apply around_unless; [apply (retransmitted_keeps E R)|]. apply around_bind; [apply keeps_gets, _|]. intros b.
  apply around_bind; [apply (who_calls_keeps E R)|]. intros [c|v].
  - apply around_unless; [apply (within_keeps E R)|]. apply around_unless; [apply (admissible_keeps E R)|].
    apply place_call_around.
  - apply around_bind; [apply (verdict_keeps E R)|]. intros _. apply around_ret.
Qed.

Lemma request_around u r src t tx : around R u (handle_request u r src t tx).
Proof.
  unfold handle_request.
  repeat match goal with |- around _ _ (if ?b then _ else _) => destruct b end;
    first [apply invite_around | apply around_created_none | apply around_handled];
    first [apply (options_keeps E R) | apply (register_keeps E R) | apply (refuse_method_keeps E R) | eauto with keep].
Qed.

(** Only an INVITE let in creates a call; everything else a message does is
    what the handlers keep. *)
Lemma message_around u m src t tx : around R u (handle_message u m src t tx).
Proof.
  unfold handle_message. apply around_bind; [apply ban_check_keeps|]. intros [].
  { apply around_bind; [apply keeps_gets, _|]. intros []; [apply around_ret|]. apply around_handled, refuse_message_keeps. }
  apply around_bind; [apply acl_keeps|]. intros []; [|apply around_ret].
  apply around_bind; [apply dos_keeps|]. intros []; [|apply around_handled, refuse_message_keeps].
  destruct m as [r|r]; [apply request_around|]. unfold dispatch.
  apply around_bind; [apply end_transaction_keeps|]. intros _. apply around_handled, (response_keeps E R).
Qed.
End kept.

(** ** What becomes of a new call *)

Lemma none_accounted (m : M (sbc_result unit)) : leaves new_calls_accounted (created_none m).
Proof. apply leaves_bind. intros r s. constructor. Qed.

Lemma handled_accounted (m : M unit) : leaves new_calls_accounted (handled m).
Proof. apply leaves_bind. intros _ s. constructor. Qed.

Lemma message_accounted uuid m source t tx : leaves new_calls_accounted (handle_message uuid m source t tx).
Proof.
  assert (Hn : forall r, leaves new_calls_accounted (mret ([], r))) by (intros r s; constructor).
  unfold handle_message. apply leaves_bind. intros [].
  { apply leaves_bind. intros []; [apply Hn|apply handled_accounted]. }
  apply leaves_bind. intros []; [|apply Hn]. apply leaves_bind. intros []; [|apply handled_accounted].
  destruct m as [r|r]; cbn [negb dispatch]; [|apply leaves_bind; intros _; apply handled_accounted].
  unfold handle_request. repeat match goal with |- leaves _ (if ?b then _ else _) => destruct b end;
    first [apply invite_accounted | apply none_accounted | apply handled_accounted].
Qed.

(** C5: whatever message arrives, it creates at most one call, and no call it
    creates is forgotten: when the handler returns, the call either has sent
    its INVITE, which the transport took, or is gone with its record. *)
Theorem new_call_accounted uuid m source t tx s :
  let '((created, _), s') := handle_message uuid m source t tx s in
  (created = [] \/ created = [uuid]) /\ Forall (fun u => accounted_for u s') created.
Proof.
  assert (Ha := message_accounted uuid m source t tx s). assert (Hr := message_around accounts uuid m source t tx s).
  destruct (handle_message uuid m source t tx s) as [[created r] s']. split; [|exact Ha]. cbn [fst snd] in Hr.
  destruct Hr as [[_ Hn]|(cid & tag & caller & sdp & tx' & t' & s1 & _ & Hc)]; [by left|].
  assert (Hs := create_call_spec E uuid cid tag caller sdp tx' t' s1).
  destruct (create_call E uuid cid tag caller sdp tx' t' s1) as [[id|e] s2]; destruct Hc as [_ ->]; [right|by left].
  by destruct Hs as (_ & _ & -> & _).
Qed.

(** ** The gates *)

Definition refused_at_gates (source : SocketAddr) (s : Sbc) : Prop :=
  let e := edge s in
  (Ban.is_banned (wall s) (ip source) (Edge.bans (Edge.security e))).1 = true \/
  Acl.is_allowed (Acl.check_addr in_network source Acl.Inbound (Edge.acl e)).1 = false \/
  Dos.is_allowed (Dos.check_addr (now s) source (Edge.dos e)).1 = false.

(** What a refusal may do: one message to the source. *)
Definition turned_away (source : SocketAddr) (s s' : Sbc) : Prop :=
  b2bua s' = b2bua s /\ trunk_manager s' = trunk_manager s /\ media s' = media s /\ cdrs s' = cdrs s /\
  effects s' = effects s /\ Edge.registrar (edge s') = Edge.registrar (edge s) /\ Edge.auth (edge s') = Edge.auth (edge s) /\
  exists w, wire s' = wire s ++ w /\ (length w <= 1)%nat /\ Forall (fun m => s_dest m = source) w.

Lemma refuse_message_turns s0 what m st reason source t tx s :
  turned_away source s0 s -> wire s = wire s0 -> turned_away source s0 (refuse_message what m st reason source t tx s).2.
Proof.
  intros (H1 & H2 & H3 & H4 & H5 & H6 & H7 & _) Hw. unfold refuse_message. rewrite bind_draw. set (s1 := s <| drawn := _ |>).
  assert (Hc : core s1 = core s) by done. assert (Hw1 : wire s1 = wire s) by done. clearbody s1.
  match goal with |- context [send_to E what ?x source t tx s1] => set (data := x) end. clearbody data.
  assert (Hs := send_sends E what data source t tx s1). assert (Hp := send_sip_spec E what data source t tx s1).
  unfold send_to. unfold mbind, M_bind. destruct (send_sip E what data source t tx s1) as [b s2]. destruct Hp as (_ & Hp & _).
  apply proj1 in Hs. cbn [snd skip mret M_ret] in *. rewrite Hc in Hs. unfold core in Hs.
  injection Hs as _ _ Hb Ht _ He _ _ _ _ _ Hm _ Hr _ _ _ Hf. unfold turned_away. rewrite Hb, Ht, Hm, Hr, Hf, He.
  split_and!; try done. eexists. rewrite Hp, Hw1, Hw. split; [done|]. split; [done|]. by repeat constructor.
Qed.

Lemma edge_turns source s e :
  Edge.registrar e = Edge.registrar (edge s) -> Edge.auth e = Edge.auth (edge s) -> turned_away source s (s <| edge := e |>).
Proof. intros Hr Ha. split_and!; try done. exists []. rewrite app_nil_r. split_and!; [done|cbn; lia|constructor]. Qed.

(** Each gate decides on its own part of the state. *)
Lemma ban_gate source s : exists e,
  is_banned source s = ((Ban.is_banned (wall s) (ip source) (Edge.bans (Edge.security (edge s)))).1, s <| edge := e |>) /\
  Edge.registrar e = Edge.registrar (edge s) /\ Edge.auth e = Edge.auth (edge s) /\ Edge.acl e = Edge.acl (edge s) /\
  Edge.dos e = Edge.dos (edge s).
Proof. unfold is_banned. destruct (Ban.is_banned _ _ _) as [b m]. by eexists. Qed.

Lemma acl_gate source s : exists e,
  acl_check source s = (Acl.is_allowed (Acl.check_addr in_network source Acl.Inbound (Edge.acl (edge s))).1, s <| edge := e |>) /\
  Edge.registrar e = Edge.registrar (edge s) /\ Edge.auth e = Edge.auth (edge s) /\ Edge.dos e = Edge.dos (edge s).
Proof. unfold acl_check. destruct (Acl.check_addr _ _ _ _) as [r a]. by eexists. Qed.

Lemma dos_gate source s : exists e,
  dos_check source s = (Dos.is_allowed (Dos.check_addr (now s) source (Edge.dos (edge s))).1, s <| edge := e |>) /\
  Edge.registrar e = Edge.registrar (edge s) /\ Edge.auth e = Edge.auth (edge s).
Proof. unfold dos_check. destruct (Dos.check_addr _ _ _) as [r d]. by eexists. Qed.

Lemma bind_at {A B} (m : M A) (f : A -> M B) s a s1 : m s = (a, s1) -> (m ≫= f) s = f a s1.
Proof. unfold mbind, M_bind. by intros ->. Qed.

Lemma refused_by source s0 s what m st reason t tx :
  turned_away source s0 s -> wire s = wire s0 ->
  let '((created, _), s') := handled (refuse_message what m st reason source t tx) s in created = [] /\ turned_away source s0 s'.
Proof.
  intros H Hw. assert (H2 := refuse_message_turns s0 what m st reason source t tx s H Hw).
  unfold handled, mbind, M_bind. by destruct (refuse_message _ _ _ _ _ _ _ _) as [[] s2].
Qed.

(** C6: the gates hold. A message from a banned address, from one that the
    access list denies, or beyond an address's rate, creates no call and
    changes none: no registration, trunk, port, record or nonce either. At
    most one message is sent, to the address it came from. *)
Theorem gates_hold uuid m source t tx s :
  refused_at_gates source s ->
  let '((created, _), s') := handle_message uuid m source t tx s in created = [] /\ turned_away source s s'.
Proof.
  intros H. unfold handle_message. destruct (ban_gate source s) as (e1 & H1 & Hr1 & Ha1 & Hacl & Hdos).
  rewrite (bind_at _ _ _ _ _ H1). unfold refused_at_gates in H. destruct (Ban.is_banned _ _ _) as [[] bans']; cbn [fst] in *.
  { assert (Ht : turned_away source s (s <| edge := e1 |>)) by by apply edge_turns.
    unfold mbind, M_bind, gets. destruct (Ban.silent_drop _); [by split|by apply refused_by]. }
  destruct H as [H|H]; [done|]. destruct (acl_gate source (s <| edge := e1 |>)) as (e2 & H2 & Hr2 & Ha2 & Hdos2).
  rewrite (bind_at _ _ _ _ _ H2). change (edge (s <| edge := e1 |>)) with e1 in *. rewrite Hacl, Hr1, Ha1, Hdos in *.
  assert (Ht : turned_away source s (s <| edge := e1 |> <| edge := e2 |>)) by by apply (edge_turns source s e2).
  destruct (Acl.is_allowed _); cbn [negb]; [|by split]. destruct H as [H|H]; [done|].
  destruct (dos_gate source (s <| edge := e1 |> <| edge := e2 |>)) as (e3 & H3 & Hr3 & Ha3).
  rewrite (bind_at _ _ _ _ _ H3). change (edge (s <| edge := e1 |> <| edge := e2 |>)) with e2 in *.
  change (now (s <| edge := e1 |> <| edge := e2 |>)) with (now s) in *. rewrite Hdos2, H in *. cbn [negb].
  apply refused_by; [|done]. apply (edge_turns source s e3); congruence.
Qed.
End env.

Module Witness.
Import Teardown.Witness.

#[local] Existing Instances trunk_iter call_iter client_iter invite_iter.
#[local] Instance binding_iter : HashIter Registrar.RegKey Registrar.Registration :=
  canonical_iter Registrar.RegKey Registrar.Registration.
#[local] Instance rule_iter : HashIter string (@Acl.AclRule string) := canonical_iter string (@Acl.AclRule string).

Definition desk : SocketAddr := mkAddr (V4 [127; 0; 0; 1]) 5080.
Definition scanner : SocketAddr := mkAddr (V4 [198; 51; 100; 66]) 5060.

(** The scanner was banned a second ago. *)
Definition guarded : Sbc :=
  busy <| edge := edge busy <| Edge.security :=
    let sec := Edge.security (edge busy) in
    sec <| Edge.bans := (Ban.ban (wall busy) (ip scanner) (secs 600) "scan" (Edge.bans sec)).2 |> |> |>.

Definition probe : SipMessage :=
  inl (mkRequest "INVITE" "sip:33612345678@h"
    [(HVia, "SIP/2.0/UDP x;branch=z9hG4bKs"); (HFrom, "<sip:x@h>;tag=1"); (HTo, "<sip:33612345678@h>"); (HCallId, "s1");
     (HCSeq, "1 INVITE"); (HContact, "<sip:x@198.51.100.66>")] "").

Lemma gates_hold_witness :
  let '((created, _), s') := handle_message env0 "u9" probe scanner Udp None guarded in
  created = [] /\ b2bua s' = b2bua guarded /\ wire s' = [] /\
  map s_what (wire (handle_message env0 "u9" probe desk Udp None guarded).2) = ["403 → caller"].
Proof.
  assert (H := gates_hold env0 "u9" probe scanner Udp None guarded ltac:(left; by vm_compute)).
  assert (Hw : wire (handle_message env0 "u9" probe scanner Udp None guarded).2 = []) by by vm_compute.
  destruct (handle_message env0 "u9" probe scanner Udp None guarded) as [[created r] s']. destruct H as (Hc & Hb & _).
  split_and!; [done..|by vm_compute].
Defined.
End Witness.
