(* ===== verification/EventLoop.v ===== *)
(** * Runs of the event loop

    The operations of the event loop as one step function, and what holds
    through any run of them: one record per call, counters that count the live
    calls, ports that are those of the live calls. *)

From S2P Require Import Prelude Str Bytes Net Sbc Messages Teardown ResponseHandler CallHandler Access InviteHandler Dispatch.
From S2P Require SipBuilder ClientTx InviteTx Topology Trunk B2bua Cdr Media PortAllocator Acl Registrar Edge.
From S2P Require Import Cdr.

Section env.
Context (E : Env) {HT : HashIter Trunk.TrunkId Trunk.TrunkConfig} {HB : HashIter B2bua.CallUuid B2bua.B2buaCall}
  {HC : HashIter string ClientTx.ClientTx} {HI : HashIter string InviteTx.TxEntry}
  {HR : HashIter Registrar.RegKey Registrar.Registration} {HA : HashIter string (@Acl.AclRule string)}.

(** What the loop waits for: a message and the identifier its call would get,
    its three timers, a kick; then what other tasks do beside it (the sweeper,
    the relay, the management interface, the trunks' health checks). *)
Inductive Op :=
  | Clock (elapsed wall : Z)
  | Receive (uuid : string) (m : SipMessage) (source : SocketAddr) (t : Transport) (tx : option nat)
  | CallTick
  | FailoverTick (closed : list SocketAddr)
  | RetransmitTick
  | Kicked
  | ShutDown (ticks : list Z)
  | MediaSweep
  | Relayed (session : string) (st : Media.CallMediaStats)
  | Kick (uuid : string) (r : KickReason)
  | MediaSilent (session : string)
  | Managed (f : Edge.Edge -> Edge.Edge)
  | TrunkFailed (name : string) (retry_after : option Z)
  | TrunkAnswered (name : string).

Definition call_tick : M unit :=
  _ ← check_call_timeouts E; _ ← send_session_refreshes E;
  modify (fun s => s <| invite_tx := (InviteTx.prune_at (now s) (invite_tx s)).2 |>).

Definition failover_tick (closed : list SocketAddr) : M unit :=
  _ ← check_invite_failover E; _ ← check_setup_timeouts E; _ ← check_media_timeouts E;
  for_each (handle_transport_event E) closed.

Definition retransmit_tick : M unit := _ ← retransmit_finals E; retransmit_requests E.

Definition silent (m : M unit) : M (list string) := _ ← m; mret [].

(** One turn, and the calls it created. *)
Definition step (op : Op) : M (list string) :=
  match op with
  | Clock d w => silent (modify (fun s => s <| now := now s + Z.max 0 d |> <| wall := w |>))
  | Receive u m source t tx => r ← handle_message E u m source t tx; mret (r : Handled).1
  | CallTick => silent call_tick
  | FailoverTick closed => silent (failover_tick closed)
  | RetransmitTick => silent retransmit_tick
  | Kicked => silent (process_admin_kicks E)
  | ShutDown ticks => silent (graceful_shutdown E ticks)
  | MediaSweep => silent (modify (fun s => s <| media := Media.sweep (now s) (media s) |>))
  | Relayed id st => silent (on_media (Media.counted id st))
  | Kick u r => silent (modify (fun s => s <| admin_kicks := request_with u r (admin_kicks s) |>))
  | MediaSilent id => silent (modify (fun s => s <| media_timed_out := media_timed_out s ++ [id] |>))
  | Managed f => silent (on_edge f)
  | TrunkFailed n ra => silent (note_trunk_failure n ra)
  | TrunkAnswered n => silent (note_trunk_success n)
  end.

Fixpoint run (ops : list Op) : M (list string) :=
  match ops with
  | [] => mret []
  | op :: ops => new ← step op; later ← run ops; mret ((new : list string) ++ (later : list string))
  end.

(** The identifiers the messages of a run would give their calls. *)
Definition named (ops : list Op) : list string :=
  omap (fun op => match op with Receive u _ _ _ _ => Some u | _ => None end) ops.


Section steps.
Context (R : relation Sbc) `{HK : !Kept E R}.
#[local] Instance kept_order : PreOrder R := kept_preorder E.

Lemma keeps_step op : (forall u m a t tx, op <> Receive u m a t tx) -> keeps R (step op) /\ forall s, (step op s).1 = [].
Proof.
  intros Hop. assert (Hs : forall m, keeps R m -> keeps R (silent m) /\ forall s, (silent m s).1 = []).
  { intros m Hm. unfold silent. split; [by keeping|]. intros s. unfold mbind, M_bind. by destruct (m s). }
  destruct op; unfold step; [|by destruct (Hop uuid m source t tx)|..]; apply Hs.
  - intros s. apply (kept_clock E s). lia.
  - unfold call_tick. keeping; [apply (keeps_duration E R)|apply (session_refreshes_keeps E R)|]. intros _ s. apply (kept_finals E s).
  - unfold failover_tick. keeping.
    + apply (invite_failover_keeps E R).
    + apply (keeps_setup E R).
    + apply (keeps_media E R).
    + intros; apply (transport_event_keeps E R).
  - unfold retransmit_tick. keeping; [apply (keeps_finals E R)|intros; apply (keeps_requests E R)].
  - apply (keeps_admin E R).
  - apply (keeps_shutdown E R).
  - intros s. apply (kept_sweep E s).
  - apply (on_media_keeps E R). intros m. unfold Media.counted. by destruct (Media.media_stats _ !! _).
  - intros s. apply (kept_queue E s).
  - intros s. apply (kept_silent E s).
  - apply (on_edge_keeps E R).
  - apply (kept_failure E).
  - apply (kept_success E).
Qed.

(** A turn is quiet or creates the one call it may create. *)
Lemma op_cases op s :
  (R s (step op s).2 /\ (step op s).1 = []) \/
  exists u cid tag caller sdp tx t s1, named [op] = [u] /\ R s s1 /\
    let '(r, s2) := create_call E u cid tag caller sdp tx t s1 in
    R s2 (step op s).2 /\ (step op s).1 = (match r with Ok id => [id] | Err _ => [] end).
Proof.
  destruct (decide (named [op] = [])) as [Hn|Hn].
  - left. assert (Hop : forall u m a t tx, op <> Receive u m a t tx) by by intros u m a t tx ->.
    destruct (keeps_step op Hop) as [Hk H0]. split; [apply Hk|apply H0].
  - destruct op; try done. clear Hn. cbn [step]. unfold mbind, M_bind.
    destruct (message_around E R uuid m source t tx s) as [[Hr Hnew]|(cid & tag & c & sdp & tx' & t' & s1 & H1 & H2)];
      destruct (handle_message E uuid m source t tx s) as [h s'].
    + left. by split.
    + right. exists uuid, cid, tag, c, sdp, tx', t', s1. split_and!; [done|done|].
      by destruct (create_call E uuid cid tag c sdp tx' t' s1) as [r s2].
Qed.
End steps.

(** Two things kept are kept together. *)
#[export] Instance kept_both R1 R2 : Kept E R1 -> Kept E R2 -> Kept E (fun s s' => R1 s s' /\ R2 s s').
Proof.
  intros H1 H2. assert (P1 := kept_preorder E : PreOrder R1). assert (P2 := kept_preorder E : PreOrder R2). split.
  - split; [by intros s|]. intros s1 s2 s3 [? ?] [? ?]. split; by etrans.
  - intros A m Hm s. split; by apply (kept_sends E).
  - intros u o s. split; apply (kept_finish E).
  - intros u t s. split; apply (kept_count E).
  - intros n ra s. split; apply (kept_failure E).
  - intros n s. split; apply (kept_success E).
  - intros s q. split; apply (kept_queue E).
  - intros s q. split; apply (kept_silent E).
  - intros s m. split; apply (kept_finals E).
  - intros s m. split; apply (kept_requests E).
  - intros s n w Hn. split; by apply (kept_clock E).
  - intros s m Hm. split; by apply (kept_calls E).
  - intros s m Hm. split; by apply (kept_media E).
  - intros s. split; apply (kept_sweep E).
  - intros s id. split; apply (kept_release E).
  - intros s e. split; apply (kept_edge E).
  - intros s es. split; apply (kept_effects E).
  - intros s p r. split; apply (kept_routed E).
Qed.

(** One turn of a run. *)
Definition accounted (s : Sbc) (new : list string) (s' : Sbc) : Prop :=
  exists w, cdrs s' = cdrs s ++ w /\ elements (live s) ++ new ≡ₚ map cdr_uuid w ++ elements (live s').

Lemma accounted_accounts s1 s2 s3 s4 new :
  accounts s1 s2 -> accounted s2 new s3 -> accounts s3 s4 -> accounted s1 new s4.
Proof.
  intros (w1 & H1 & P1) (w2 & H2 & P2) (w3 & H3 & P3). exists (w1 ++ w2 ++ w3).
  rewrite H3, H2, H1, !map_app, <- !app_assoc. split; [done|]. by rewrite P1, <- app_assoc, P2, P3.
Qed.

Lemma create_accounts u cid tag a sdp tx t s :
  u ∉ live s ->
  let '(r, s') := create_call E u cid tag a sdp tx t s in
  let new := match r with Ok id => [id] | Err _ => [] end in
  accounted s new s' /\ new `sublist_of` [u].
Proof.
  intros Hu. assert (Hc := create_call_spec E u cid tag a sdp tx t s).
  destruct (create_call E u cid tag a sdp tx t s) as [r s']. destruct Hc as (Hcd & _ & Hc). unfold accounted, live in *.
  destruct r as [id|e]; (split; [exists []|]).
  - destruct Hc as (-> & c & _ & Hcs & _). rewrite Hcd, Hcs, dom_insert_L, elements_union_singleton, app_nil_r by done.
    split; [done|]. by rewrite Permutation_app_comm.
  - by destruct Hc as (-> & _).
  - destruct Hc as [Hcs _]. by rewrite Hcd, Hcs, !app_nil_r.
  - apply sublist_nil_l.
Qed.

Lemma step_accounts op s :
  (forall u, u ∈ named [op] -> u ∉ live s) ->
  accounted s (step op s).1 (step op s).2 /\ (step op s).1 `sublist_of` named [op].
Proof.
  intros Hu. destruct (op_cases accounts op s) as [[(w & Hc & Hp) ->]|(u & cid & tag & c & sdp & tx & t & s1 & Hn & H1 & H2)].
  - split; [|apply sublist_nil_l]. exists w. by rewrite app_nil_r.
  - rewrite Hn in *. assert (Hf := accounts_live s s1 u H1 (Hu u ltac:(by left))). assert (Hc := create_accounts u cid tag c sdp tx t s1 Hf).
    destruct (create_call E u cid tag c sdp tx t s1) as [r s2]. destruct H2 as [H2 ->]. destruct Hc as [Hc Hs].
    split; [|done]. by apply (accounted_accounts s s1 s2).
Qed.

Lemma named_cons op ops : named (op :: ops) = named [op] ++ named ops.
Proof. unfold named. by rewrite <- omap_app. Qed.

Lemma fresh_first op ops s : NoDup (elements (live s) ++ named [op] ++ named ops) -> forall u, u ∈ named [op] -> u ∉ live s.
Proof.
  intros Hn u Hu Hl. apply NoDup_app in Hn as (_ & Hn & _). apply (Hn u); [by apply elem_of_elements|].
  apply elem_of_app. by left.
Qed.

Lemma fresh_rest op ops s :
  NoDup (elements (live s) ++ named [op] ++ named ops) -> NoDup (elements (live (step op s).2) ++ named ops).
Proof.
  intros Hn. destruct (step_accounts op s) as [(w & Hc & Hp) Hs]; [by apply (fresh_first op ops)|].
  assert (Hall : NoDup ((elements (live s) ++ (step op s).1) ++ named ops)).
  { rewrite <- app_assoc. eapply sublist_NoDup; [exact Hn|]. apply sublist_app; [done|]. by apply sublist_app. }
  rewrite Hp, <- app_assoc in Hall. by apply NoDup_app in Hall as (_ & _ & Hall).
Qed.

Lemma run_accounts ops s :
  NoDup (elements (live s) ++ named ops) -> accounted s (run ops s).1 (run ops s).2 /\ (run ops s).1 `sublist_of` named ops.
Proof.
  revert s. induction ops as [|op ops IH]; intros s Hn.
  - split; [|done]. exists []. by rewrite !app_nil_r.
  - rewrite named_cons in *. destruct (step_accounts op s) as [(w1 & Hc1 & Hp1) Hs1]; [by apply (fresh_first op ops)|].
    assert (Hn1 := fresh_rest op ops s Hn). cbn [run]. unfold mbind, M_bind. destruct (step op s) as [new s1].
    cbn [fst snd] in *. destruct (IH s1 Hn1) as [(w2 & Hc2 & Hp2) Hs2].
    destruct (run ops s1) as [later s2]. cbn [fst snd] in *.
    change (accounted s (new ++ later) s2 /\ new ++ later `sublist_of` named [op] ++ named ops).
    split; [|by apply sublist_app].
    exists (w1 ++ w2). rewrite Hc2, Hc1, map_app, <- !app_assoc. split; [done|].
    by rewrite app_assoc, Hp1, <- app_assoc, Hp2.
Qed.

(** C1: every call has exactly one record. Whatever messages are
    received (copies, strangers and answers that cross included), and however
    the clock, the timers, kicks, lost connections and a shutdown come in
    between: the calls there were at the start and those created are the
    calls still live and the calls of the records written, none twice. *)
Theorem one_record_per_call ops s :
  NoDup (elements (live s) ++ named ops) ->
  let '(created, s') := run ops s in
  exists written, cdrs s' = cdrs s ++ written /\
    elements (live s) ++ created ≡ₚ map cdr_uuid written ++ elements (live s') /\
    NoDup (map cdr_uuid written ++ elements (live s')).
Proof.
  intros Hn. destruct (run_accounts ops s Hn) as [(w & Hc & Hp) Hs]. destruct (run ops s) as [created s'].
  exists w. split_and!; [done..|]. cbn [fst snd] in *. rewrite <- Hp. eapply sublist_NoDup; [exact Hn|]. by apply sublist_app.
Qed.


(** ** The trunks' counters *)

Definition counters (s : Sbc) : Prop := Trunk.exact (counted (b2bua s)) (trunk_manager s).
Definition live_count (s : Sbc) : Z := Z.of_nat (size (counted (b2bua s))).

Definition counters_kept (s s' : Sbc) : Prop :=
  live_count s' <= live_count s /\ (live_count s < 2 ^ 32 -> counters s -> counters s').

#[export] Instance counters_preorder : PreOrder counters_kept.
Proof.
  split; [done|]. intros s1 s2 s3 [L1 H1] [L2 H2]. split; [lia|]. intros Hs Hc. apply H2; [lia|]. by apply H1.
Qed.

Lemma finish_counters u o : keeps counters_kept (finish_call E u o).
Proof.
  intros s. destruct (B2bua.calls (b2bua s) !! u) as [c|] eqn:Hc; [|by rewrite (finish_call_gone E)].
  assert (H := finish_call_spec E u o s c Hc). destruct (finish_call E u o s) as [b s'].
  destruct H as (_ & _ & Hm & Ht & _). cbn [snd].
  assert (Hd : counted (b2bua s') = delete u (counted (b2bua s))) by by unfold counted; rewrite Hm, fmap_delete.
  assert (Hin : counted (b2bua s) !! u = Some (B2bua.trunk_counted c)) by by unfold counted; rewrite lookup_fmap, Hc.
  unfold counters_kept, counters, live_count. rewrite Hd, Ht. split.
  - assert (Hsub := map_size_delete_Some u (counted (b2bua s)) ltac:(by eexists)). lia.
  - intros Hs He. assert (Hx := Trunk.count_exact u None _ _ He Hs).
    destruct (Trunk.count_call_on_trunk u None _) as [c' m'] eqn:Hct. destruct Hx as [Hx _].
    unfold Trunk.count_call_on_trunk, Trunk.swap_counted in Hct. rewrite Hin in Hct. cbn [snd].
    case_bool_decide as Ht0; injection Hct as <- <-; rewrite ?Ht0 in Hin.
    + by apply Trunk.release_exact.
    + rewrite <- (delete_insert_eq (counted (b2bua s)) u None). apply Trunk.release_exact; [apply lookup_insert_eq|done].
Qed.

Lemma same_counted m m' : same_calls m m' -> counted m' = counted m.
Proof.
  intros H. assert (Hf : forall x, counted x = (fun i => i.1.2) <$> (ident_of <$> B2bua.calls x)).
  { intros x. unfold counted. rewrite <- map_fmap_compose. by apply map_fmap_ext. }
  by rewrite !Hf, H.
Qed.

#[export] Instance counters_kept_kept : Kept E counters_kept.
Proof.
  split; try (intros; by split).
  - apply _.
  - intros A m Hm s. destruct (sends_core _ _ (Hm s)) as (_ & Hb & Ht & _). unfold counters_kept, counters, live_count.
    by rewrite Hb, Ht.
  - apply finish_counters.
  - intros u t s. unfold counters_kept, counters, live_count. assert (Hr := count_refines u t s). cbv zeta in Hr.
    assert (Hk := f_equal fst Hr). assert (Ht := f_equal snd Hr). cbn [fst snd] in Hk, Ht.
    assert (Hd := Trunk.count_dom u t (counted (b2bua s)) (trunk_manager s)).
    assert (Hx := fun He Hs => Trunk.count_exact u t (counted (b2bua s)) (trunk_manager s) He Hs).
    destruct (Trunk.count_call_on_trunk u t _) as [c' m']. cbn [fst snd] in *. rewrite Hk, Ht, Hd.
    split; [done|]. intros Hs He. by destruct (Hx He Hs).
  - intros n ra s. unfold note_trunk_failure.
    assert (Hx := fun He => Trunk.failure_exact (now s) n ra (counted (b2bua s)) (trunk_manager s) He).
    destruct (Trunk.note_trunk_failure _ _ _ _) as [[[]|] m]; by split.
  - intros n s. unfold note_trunk_success.
    assert (Hx := fun He => Trunk.success_exact (now s) n (counted (b2bua s)) (trunk_manager s) He).
    destruct (Trunk.note_trunk_success _ _ _) as [[[]|] m]; by split.
  - intros s m Hm. unfold counters_kept, counters, live_count. cbn. by rewrite (same_counted _ _ Hm).
Qed.

Lemma live_count_elements s : live_count s = Z.of_nat (length (elements (live s))).
Proof. unfold live_count, live, counted. by rewrite map_size_fmap, <- size_dom. Qed.

Lemma create_counters u cid tag a sdp tx t s :
  u ∉ live s -> live_count s + 1 < 2 ^ 32 -> counters s ->
  let s' := (create_call E u cid tag a sdp tx t s).2 in counters s' /\ live_count s' <= live_count s + 1.
Proof.
  intros Hu Hs Hc.
  assert (Hn : counted (b2bua s) !! u = None).
  { unfold counted. rewrite lookup_fmap. unfold live in Hu. by apply not_elem_of_dom in Hu as ->. }
  assert (Hs1 := create_call_spec E u cid tag a sdp tx t s).
  destruct (create_call E u cid tag a sdp tx t s) as [r s']. destruct Hs1 as (_ & Ht & Hs1).
  unfold counters, live_count, counted in *. destruct r as [id|e]; cbn [snd]; rewrite Ht.
  - destruct Hs1 as (_ & c & _ & -> & Hk & _). rewrite fmap_insert, Hk. split; [by apply Trunk.new_call_exact|].
    rewrite map_size_insert_None by done. lia.
  - destruct Hs1 as [-> _]. split; [done|lia].
Qed.

Lemma step_counters op s :
  (forall u, u ∈ named [op] -> u ∉ live s) -> live_count s + Z.of_nat (length (named [op])) < 2 ^ 32 -> counters s ->
  counters (step op s).2 /\ live_count (step op s).2 <= live_count s + Z.of_nat (length (named [op])).
Proof.
  intros Hu Hs Hc.
  destruct (op_cases (fun s s' => accounts s s' /\ counters_kept s s') op s)
    as [[[_ [Hl Hx]] _]|(u & cid & tag & c & sdp & tx & t & s1 & Hn & [Ha [Hl Hx]] & H2)].
  - split; [apply Hx; [lia|done]|lia].
  - rewrite Hn in *. cbn [length] in *. assert (Hf := accounts_live s s1 u Ha (Hu u ltac:(by left))).
    assert (Hk := create_counters u cid tag c sdp tx t s1 Hf ltac:(lia) (Hx ltac:(lia) Hc)).
    destruct (create_call E u cid tag c sdp tx t s1) as [r s2]. cbn [snd] in Hk. destruct Hk as [Hk Hlk].
    destruct H2 as [[_ [Hl2 Hx2]] _]. split; [apply Hx2; [lia|done]|lia].
Qed.

(** C3: through any such run, a trunk's count of active calls is the number of
    live calls placed on it: a call that ended by any path, or more than once,
    is released once. *)
Theorem trunks_count_live_calls ops s n t :
  NoDup (elements (live s) ++ named ops) -> live_count s + Z.of_nat (length (named ops)) < 2 ^ 32 -> counters s ->
  let s' := (run ops s).2 in
  Trunk.find_by_name n (trunk_manager s') = Some t ->
  exists st, Trunk.get_state (Trunk.id t) (trunk_manager s') = Some st /\
    Trunk.active_calls st = Trunk.calls_on n (counted (b2bua s')).
Proof.
  intros Hn Hs Hc. cut (counters (run ops s).2); [intros [_ H] s'; apply H|].
  revert s Hn Hs Hc. induction ops as [|op ops IH]; intros s Hn Hs Hc; [done|].
  rewrite named_cons in Hn, Hs. rewrite length_app in Hs.
  destruct (step_counters op s) as [Hc1 Hl1]; [by apply (fresh_first op ops)|lia|done|].
  assert (Hn1 := fresh_rest op ops s Hn). cbn [run]. unfold mbind, M_bind. destruct (step op s) as [new s1].
  cbn [snd] in *. specialize (IH s1 Hn1 ltac:(lia) Hc1). by destruct (run ops s1).
Qed.



(** ** The ports of the live calls *)

Definition session_of (m : B2bua.B2buaManager) : gmap string (option string) := B2bua.media_session_id <$> B2bua.calls m.

(** Every media session is that of a live call, and a call's session, if it
    has one, goes by the call's own name. *)
Record ports_ok (s : Sbc) : Prop := {
  po_ports : Media.ports_inv (now s) (media s);
  po_owner : forall id, is_Some (Media.sessions (media s) !! id) -> session_of (b2bua s) !! id = Some (Some id);
  po_named : forall k id, session_of (b2bua s) !! k = Some (Some id) -> id = k
}.

Definition ports_kept (s s' : Sbc) : Prop := ports_ok s -> ports_ok s'.

#[export] Instance ports_kept_preorder : PreOrder ports_kept.
Proof. split; unfold ports_kept; [intros s H; exact H|]. intros s1 s2 s3. auto. Qed.

Lemma ports_ok_ext s s' :
  now s <= now s' -> Media.port_allocator (media s') = Media.port_allocator (media s) ->
  Media.pairs_of <$> Media.sessions (media s') = Media.pairs_of <$> Media.sessions (media s) ->
  session_of (b2bua s') = session_of (b2bua s) -> ports_kept s s'.
Proof.
  intros Hn Hp Hs Hc [H1 H2 H3]. split; [| |by rewrite Hc].
  - apply (Media.later_ports (now s)); [done|]. unfold Media.ports_inv in *. by rewrite (Media.held_ext _ _ Hs), Hp.
  - intros id Hid. rewrite Hc. apply H2. apply (f_equal (.!! id)) in Hs. rewrite !lookup_fmap in Hs.
    destruct Hid as [x Hx]. rewrite Hx in Hs. destruct (Media.sessions (media s) !! id); [by eexists|done].
Qed.

Lemma same_session m m' : same_calls m m' -> session_of m' = session_of m.
Proof.
  intros H. assert (Hf : forall x, session_of x = snd <$> (ident_of <$> B2bua.calls x)).
  { intros x. unfold session_of. rewrite <- map_fmap_compose. by apply map_fmap_ext. }
  by rewrite !Hf, H.
Qed.

Lemma finish_ports u o : keeps ports_kept (finish_call E u o).
Proof.
  intros s. destruct (B2bua.calls (b2bua s) !! u) as [c|] eqn:Hc; [|by rewrite (finish_call_gone E)].
  assert (H := finish_call_spec E u o s c Hc). destruct (finish_call E u o s) as [b s'].
  destruct H as (_ & _ & Hm & _ & _ & _ & _ & Hn & Hd). cbn [snd]. intros [H1 H2 H3].
  assert (Hs : session_of (b2bua s') = delete u (session_of (b2bua s))) by by unfold session_of; rewrite Hm, fmap_delete.
  assert (Hu : session_of (b2bua s) !! u = Some (B2bua.media_session_id c)) by by unfold session_of; rewrite lookup_fmap, Hc.
  assert (Hx : Media.ports_inv (now s') (media s') /\ Media.sessions (media s') = delete u (Media.sessions (media s))).
  { rewrite Hn, Hd. unfold end_media. destruct (B2bua.media_session_id c) as [id|] eqn:Hid.
    - assert (id = u) as -> by by apply H3. split; [by apply Media.terminate_ports|]. by rewrite Media.terminate_sessions.
    - split; [done|]. symmetry. apply delete_id. destruct (Media.sessions (media s) !! u) eqn:Hy; [|done].
      assert (Hz := H2 u ltac:(by eexists)). by rewrite Hu in Hz. }
  destruct Hx as [Hx1 Hx2]. split; [done| |].
  - intros id. rewrite Hx2, Hs. intros [x Hx]. apply lookup_delete_Some in Hx as [Hne Hx]. rewrite lookup_delete_ne by done.
    apply H2. by eexists.
  - intros k id. rewrite Hs. intros Hk. apply lookup_delete_Some in Hk as [_ Hk]. by apply H3.
Qed.

#[export] Instance ports_kept_kept : Kept E ports_kept.
Proof.
  split; try (intros; by apply ports_ok_ext).
  - apply _.
  - intros A m Hm s. destruct (sends_core _ _ (Hm s)) as (Hn & Hb & _ & _ & _ & _ & Hd & _).
    apply ports_ok_ext; rewrite ?Hn, ?Hb, ?Hd; done.
  - apply finish_ports.
  - intros u t s. unfold count_call_on_trunk. destruct (B2bua.calls (b2bua s) !! u) as [c|] eqn:Hc; [|done].
    case_bool_decide; [done|]. apply ports_ok_ext; try done. unfold session_of, B2bua.with_call. cbn.
    apply map_eq. intros k. rewrite !lookup_fmap. destruct (decide (u = k)) as [<-|]; [by rewrite lookup_alter_eq, Hc|by rewrite lookup_alter_ne].
  - intros n ra s. apply ports_ok_ext; unfold note_trunk_failure; by destruct (Trunk.note_trunk_failure _ _ _ _) as [[[]|] ?].
  - intros n s. apply ports_ok_ext; unfold note_trunk_success; by destruct (Trunk.note_trunk_success _ _ _) as [[[]|] ?].
  - intros s m Hm. apply ports_ok_ext; try done. by apply same_session.
  - intros s m [H1 H2]. by apply ports_ok_ext.
  - intros s [H1 H2 H3]. split; [|done|done]. by apply PortAllocator.sweep_inv.
  - intros s id [H1 H2 H3]. split; [by apply Media.terminate_ports| |done]. cbn. intros j. rewrite Media.terminate_sessions.
    intros [x Hx]. apply lookup_delete_Some in Hx as [_ Hx]. apply H2. by eexists.
Qed.

Lemma create_ports_ok u cid tag a sdp tx t s :
  u ∉ live s -> ports_ok s -> ports_ok (create_call E u cid tag a sdp tx t s).2.
Proof.
  intros Hu Hok. assert (Hs := create_call_spec E u cid tag a sdp tx t s).
  destruct (create_call E u cid tag a sdp tx t s) as [r s']. destruct Hs as (_ & _ & Hs). cbn [snd].
  destruct Hok as [H1 H2 H3]. assert (Hnone : session_of (b2bua s) !! u = None).
  { unfold session_of. rewrite lookup_fmap. unfold live in Hu. by apply not_elem_of_dom in Hu as ->. }
  assert (Hno : Media.sessions (media s) !! u = None).
  { destruct (Media.sessions (media s) !! u) eqn:Hy; [|done]. assert (Hz := H2 u ltac:(by eexists)). congruence. }
  destruct r as [id|e]; cbn [snd].
  + destruct Hs as (-> & c & _ & Hc & _ & Hid & Hn & Hd).
    assert (Hs' : session_of (b2bua s') = <[u := B2bua.media_session_id c]> (session_of (b2bua s)))
      by by unfold session_of; rewrite Hc, fmap_insert.
    split.
    * rewrite Hn, Hd. destruct sdp as [d|]; [|done]. assert (Hp := Media.create_ports (ip_text E) (media_ip E) (now s) u (Some d) (media s) H1 Hno).
      destruct (Media.create_session _ _ _ _ _ _). by destruct Hp.
    * intros id [x Hx]. rewrite Hs'. destruct (decide (u = id)) as [->|Hne].
      -- rewrite lookup_insert_eq, Hid. destruct sdp; [done|]. rewrite Hd in Hx. congruence.
      -- rewrite lookup_insert_ne by done. apply H2. apply elem_of_dom. apply elem_of_dom_2 in Hx. rewrite Hd in Hx.
         destruct sdp as [d|]; [|done]. assert (Hp := Media.create_ports (ip_text E) (media_ip E) (now s) u (Some d) (media s) H1 Hno).
         destruct (Media.create_session _ _ _ _ _ _) as [r' m']. destruct Hp as (_ & Hdom & _). cbn in Hx. set_solver.
    * intros k id. rewrite Hs'. destruct (decide (u = k)) as [->|Hne]; [|rewrite lookup_insert_ne by done; apply H3].
      rewrite lookup_insert_eq, Hid. destruct sdp; [|done]. by intros [= ->].
  + destruct Hs as (Hc & Hn & d & -> & Hd & e' & He).
    assert (Hp := Media.create_ports (ip_text E) (media_ip E) (now s) u (Some d) (media s) H1 Hno).
    destruct (Media.create_session _ _ _ _ _ _) as [r' m']. cbn [fst snd] in *. destruct Hp as (Hp & _ & Hse).
    split; unfold session_of; rewrite ?Hn, ?Hd, ?Hc; [done| |apply H3]. intros id. rewrite (Hse e' He). apply H2.
Qed.


Lemma step_ports op s : (forall u, u ∈ named [op] -> u ∉ live s) -> ports_ok s -> ports_ok (step op s).2.
Proof.
  intros Hu Hok.
  destruct (op_cases (fun s s' => accounts s s' /\ ports_kept s s') op s)
    as [[[_ Hx] _]|(u & cid & tag & c & sdp & tx & t & s1 & Hn & [Ha Hx] & H2)]; [by apply Hx|].
  assert (Hf := accounts_live s s1 u Ha (Hu u ltac:(rewrite Hn; by left))).
  assert (Hk := create_ports_ok u cid tag c sdp tx t s1 Hf (Hx Hok)).
  destruct (create_call E u cid tag c sdp tx t s1) as [r s2]. by apply H2.
Qed.

(** C4: the ports in use are those of the live calls. Through any such run, the
    media sessions are those of calls still live, no port is in two pairs, and
    a port of the pool is marked only while a session has it or its quarantine
    runs: a call that ends, by whatever path, gives its ports back. *)
Theorem ports_of_live_calls ops s :
  NoDup (elements (live s) ++ named ops) -> ports_ok s ->
  let s' := (run ops s).2 in
  dom (Media.sessions (media s')) ⊆ live s' /\ Media.ports_exact (media s').
Proof.
  intros Hn Hok. cut (ports_ok (run ops s).2).
  { intros [H1 H2 _] s'. split; [|by apply (Media.ports_inv_exact (now s'))]. intros id Hid. apply elem_of_dom in Hid.
    apply H2 in Hid. unfold session_of in Hid. rewrite lookup_fmap in Hid. apply elem_of_dom.
    apply fmap_Some in Hid as (c & Hc & _). by exists c. }
  revert s Hn Hok. induction ops as [|op ops IH]; intros s Hn Hok; [done|]. rewrite named_cons in Hn.
  assert (Hok1 := step_ports op s (fresh_first op ops s Hn) Hok). assert (Hn1 := fresh_rest op ops s Hn).
  cbn [run]. unfold mbind, M_bind. destruct (step op s) as [new s1]. cbn [snd] in *. specialize (IH s1 Hn1 Hok1).
  by destruct (run ops s1).
Qed.
End env.

(** ** Witnesses *)

Module Witness.
Import Teardown.Witness.

#[local] Existing Instances trunk_iter call_iter client_iter invite_iter.
#[local] Instance binding_iter : HashIter Registrar.RegKey Registrar.Registration :=
  canonical_iter Registrar.RegKey Registrar.Registration.
#[local] Instance rule_iter : HashIter string (@Acl.AclRule string) := canonical_iter string (@Acl.AclRule string).

Definition v4_text (i : IpAddr) : string := match i with V4 o => join "." (map show o) | V6 _ => "::1" end.

(** Names resolve to the trunk. *)
Definition env1 : Env :=
  mkEnv (fun _ => true) (fun n => "z9hG4bK" +:+ show (Z.of_nat n)) B2bua.Witness.show_addr v4_text
    (fun _ => Some B2bua.Witness.trunk_addr) (fun _ => None) (fun _ => "Reason") (Some (V4 [203; 0; 113; 1])) (fun _ => true)
    (fun _ _ _ => "v=0") (fun _ => 2500) parser0 (fun _ => None) (fun l => Z.of_nat (length l)) (fun _ _ => false)
    (fun _ _ _ => None) (fun _ _ => None) (fun _ _ _ => "v=0").

Definition pbx : SocketAddr := mkAddr (V4 [127; 0; 0; 1]) 5080.

Definition request (method call_id branch to_tag body : string) : SipMessage :=
  inl (mkRequest method "sip:33612345678@h"
    [(HVia, "SIP/2.0/UDP pbx;branch=" +:+ branch); (HFrom, "<sip:bob@h>;tag=ft"); (HTo, "<sip:33612345678@h>" +:+ to_tag);
     (HCallId, call_id); (HCSeq, "1 " +:+ method); (HContact, "<sip:bob@127.0.0.1:5080>")] body).

(** Two calls of a PBX, the first INVITE received twice; the first call is
    kicked twice, the PBX hangs up the second, twice, and the SBC stops. *)
Definition day : list Op :=
  [Receive "u1" (request "INVITE" "cid1" "z9hG4bKa" "" Media.Witness.body) pbx Udp None;
   Receive "u2" (request "INVITE" "cid1" "z9hG4bKa" "" Media.Witness.body) pbx Udp None;
   Receive "u3" (request "INVITE" "cid2" "z9hG4bKb" "" "") pbx Udp None;
   FailoverTick []; RetransmitTick;
   Kick "u1" KickAdmin; Kick "u1" KickMediaUnavailable; Kicked; Clock (secs 20) (secs 1020); CallTick;
   Receive "u4" (request "BYE" "cid2" "z9hG4bKc" ";tag=x" "") pbx Udp None;
   Receive "u5" (request "BYE" "cid2" "z9hG4bKc" ";tag=x" "") pbx Udp None; ShutDown [secs 21; secs 22]].

Lemma one_record_per_call_witness :
  (run env1 day idle).1 = ["u1"; "u3"] /\
  map (fun r => (cdr_uuid r, disconnect_reason r)) (cdrs (run env1 day idle).2) = [("u1", "admin-kick"); ("u3", "normal-clearing")] /\
  exists written, cdrs (run env1 day idle).2 = [] ++ written /\
    (run env1 day idle).1 ≡ₚ map cdr_uuid written ++ elements (live (run env1 day idle).2).
Proof.
  split; [by vm_compute|]. split; [by vm_compute|].
  assert (H := one_record_per_call env1 day idle ltac:(by vm_compute; repeat constructor; set_solver)).
  destruct (run env1 day idle) as [created s']. destruct H as (w & Hc & Hp & _). by exists w.
Defined.

(** While both calls live, their trunk counts two. *)
Lemma trunks_count_live_calls_witness :
  let s' := (run env1 (take 5 day) idle).2 in
  exists st, Trunk.get_state 7 (trunk_manager s') = Some st /\ Trunk.active_calls st = Trunk.calls_on "t" (counted (b2bua s')) /\
    Trunk.calls_on "t" (counted (b2bua s')) = 2.
Proof.
  assert (Hc : counters idle).
  { split.
    - intros i t Hi. change (({[7 := Trunk.new_config 7 "t"]} : gmap Z Trunk.TrunkConfig) !! i = Some t) in Hi.
      by apply lookup_singleton_Some in Hi as [<- <-].
    - intros n t Hf. apply List.find_some in Hf as [Hin _]. cbn in Hin. destruct Hin as [<-|[]].
      eexists. split; [by vm_compute|by vm_compute]. }
  destruct (trunks_count_live_calls env1 (take 5 day) idle "t" (Trunk.new_config 7 "t")
    ltac:(by vm_compute; repeat constructor; set_solver) ltac:(by vm_compute) Hc ltac:(by vm_compute)) as (st & Hst & Ha).
  exists st. split_and!; [done|done|by vm_compute].
Defined.

(** The first call holds two pairs while it lives; at the end none is held. *)
Lemma ports_of_live_calls_witness :
  length (Media.held (media (run env1 (take 3 day) idle).2)) = 2%nat /\ Media.held (media (run env1 day idle).2) = [] /\
  Media.ports_exact (media (run env1 day idle).2).
Proof.
  split_and!; [by vm_compute|by vm_compute|].
  destruct (ports_of_live_calls env1 day idle ltac:(by vm_compute; repeat constructor; set_solver)) as [_ H]; [|exact H].
  split; [by apply (Media.ports_inv_init _ 10000 10100 (secs 30))| |].
  - by intros id [x Hx].
  - intros k id Hk. by vm_compute in Hk.
Defined.
End Witness.
